(* ===== verification/_CoqProject ===== *)
-Q . S2P
Prelude.v
Mem.v
CString.v
Bitmap.v
Crc32.v
Snprintf.v
SnprintfFormat.v
Qsort.v
QsortSorted.v
KTypes.v
Kalloc.v
Vm.v
VmTree.v
VmMap.v
VmUser.v
VmCopy.v
VmTypes.v
Spinlock.v
ListHead.v
KState.v
Queue.v
Sched.v
Signal.v
Thread.v
ThreadInv.v
SchedSpec.v
ProcBase.v
Pipe.v
Console.v
File.v
Mmap.v
Futex.v
Proc.v
SigHandle.v
Sync.v
Bio.v
VirtioDisk.v
VirtioSys.v
DiskSpec.v
BioSpec.v
BlockdevSpec.v
Log.v
LogSpec.v
LogCrash.v
Path.v
PathResolve.v
Inode.v
Xv6fs.v
TxnSpec.v
BallocSpec.v
InodeSpec.v
MmapSpec.v
FamilySpec.v
Fd.v
FileCopy.v
FdSpec.v
FdFiles.v
SysProc.v
Trap.v
Procfs.v
Exec.v
ExecSpec.v
ExecStack.v
SysPath.v
Ext4fs.v
OpenSpec.v
Ext4Spec.v
Ext4Types.v
Ext4Inode.v
Ext4Dir.v
Ext4Meta.v
Ext4Hash.v
Ext4Extent.v
