(* ===== verification/Prelude.v ===== *)
(** * Re-XVapor: verification of the kernel's core

    Re-XVapor (src/kernel) is a small Unix kernel in C, descended from xv6 and
    extended with threads, Linux signals, futexes, mmap, a virtual file system
    and lwext4.  This library models the kernel's own logic as executable
    definitions and proves what each part promises.  The RISC-V build is the one
    modelled.

    ** The program and its model

    A component is a file with its data and operations; where the proofs are
    long they are in files of their own next to it.

    - [Prelude]: wrap-around of C integers; the monad [E] of code that changes a
      state, panics, faults, or runs out of fuel; its weakest precondition [wp]
      ("runs to the end and the result satisfies"), its rules and tactics.
    - [Mem], [CString]: byte memory with little-endian words; lib/string.c.
    - [Snprintf], [SnprintfFormat]: lib/snprintf.c; the text of numbers, of
      directives and of whole formats.
    - [Qsort], [QsortSorted]: lib/qsort.c.
    - [KTypes], [KState]: include/riscv.h and memlayout.h; memory, free list and
      held locks; symbolic addresses of kernel objects; the record of the whole
      kernel state.
    - [Spinlock]: atomic/spinlock.c on several harts, as a step relation.
    - [Kalloc], [Vm] (with [VmTree], [VmMap], [VmUser], [VmCopy], [VmTypes]):
      mm/kalloc.c and mm/vm.c, page tables in byte memory.
    - [ListHead], [Queue]: include/list.h, lib/queue.c.
    - [Sched], [Thread], [ThreadInv], [SchedSpec]: sched/sched.c, thread.c.
    - [Signal], [SigHandle]: ipc/signal.c.
    - [ProcBase], [FamilySpec], [Proc]: sched/proc.c, thread_exit.
    - [Pipe], [File]: ipc/pipe.c, fs/file.c.
    - [Mmap], [MmapSpec]: mm/mmap.c, the page-fault handler of sched/trap.c.
    - [Futex]: ipc/futex.c, include/hash.h.
    - [Sync]: atomic/cond.c, semaphore.c, sleeplock.c.
    - [Console]: arch/qemu/console.c and uart.c, with the device; lib/printf.c.
    - [Bio], [BioSpec], [BlockdevSpec]: fs/bio.c, fs/blockdev.c.
    - [VirtioDisk], [VirtioSys], [DiskSpec]: fs/virtio_disk.c, the rings it
      shares with the device, and the device as a step relation.
    - [Log], [LogSpec], [LogCrash], [TxnSpec]: fs/log.c.
    - [Path], [PathResolve]: paths and mounts of fs/vfs/vfs.c.
    - [Inode], [InodeSpec]: the inode cache of vfs.c, fs/vfs/vfs_mount.c.
    - [Xv6fs], [BallocSpec]: fs/xv6fs.c.
    - [Fd], [FileCopy], [FdSpec], [FdFiles]: syscall.c; descriptors and the calls
      on open files of fs/sysfile.c, fcntl.c, ioctl.c.
    - [SysPath]: the calls of fs/sysfile.c on paths.
    - [Ext4fs], [OpenSpec], [Ext4Spec]: fs/ext4fs.c, the glue to lwext4; opening
      files through the virtual file system.
    - [SysProc]: sysproc.c, sysother.c, ipc/syssig.c.
    - [Exec], [ExecSpec], [ExecStack]: exec.c.
    - [Trap]: sched/trap.c for RISC-V, arch/qemu/plic.c; [Procfs]: fs/procfs.c,
      fs/device.c, the mounts at boot.
    - lwext4: [Bitmap] (ext4_bitmap.c), [Crc32] (ext4_crc32.c,
      ext4_block_group.c), [Ext4Types] (the layouts of ext4_types.h, the
      superblock and the block groups), [Ext4Inode] (ext4_inode.c), [Ext4Dir]
      (a directory block, ext4_dir.c), [Ext4Meta] (checksums and numbering of
      ext4_fs.c, ext4_balloc.c, ext4_ialloc.c), [Ext4Hash] (ext4_hash.c),
      [Ext4Extent] (a leaf of the extent tree, ext4_extent.c).

    Components call each other as the code does: threads and processes sleep
    through the scheduler and its queues, pipes and futexes on threads, files on
    pipes and file systems, the file system on the log, the log on the block
    cache.  Locks are the spinlocks of [KTypes]: taking a held lock and
    releasing a free one panic, so every theorem that a routine runs to its end
    says it uses its locks properly; [Spinlock] shows these two operations to be
    what atomic/spinlock.c does when no other hart competes, and mutual
    exclusion when others do.

    State.  Memory whose layout matters (free pages, page tables, user pages,
    path buffers, signal frames) is bytes.  Other objects are records, tables
    are functions from indices, objects allocated from a page are in maps by the
    address of the page: after kfree the entry is gone and a stale pointer
    faults.  List nodes embedded in structures are symbolic addresses ([lptr]) in
    a heap of next and prev links, so that aliasing of lists is kept.  The disk
    is its initial image and the sequence of block writes done since.

    ** What the theorems show

    - memory: kinit, kalloc and kfree partition the pages ([Kalloc]); mappages,
      uvmunmap, uvmalloc, uvmcopy and the user copies do what they should to
      the map from virtual pages to entries and to user bytes, with every
      failure accounted for; from any state the routines keep memory well typed
      and give back their locks;
    - scheduling: every thread that does not run is in the queue of its state;
      the scheduler serves them in order; sleep and wakeup hand over without a
      lost wakeup; queues refine lists;
    - processes: the circle of siblings refines a list of children; regions
      stay disjoint under mmap;
    - signals, futexes, pipes and files: pending queues, frames that sigreturn
      undoes, bytes in order, counts that balance;
    - storage: the block cache is a coherent view of the disk, commit is atomic
      under a crash between any two block writes, recovery is idempotent; block
      allocation and the inode cache keep their tables consistent; paths are
      resolved as a stack of names; a read of the disk sees the last write the
      driver accepted, and the driver refines a disk with a queue;
    - traps, devices and calls: the return to user mode and a tick of the timer;
      a system call from the trap to the return; the console edits lines; the
      calls on descriptors refine operations on a table with counted references;
      formatted output writes the text of its format and reads back;
    - programs: execve loads the segments of a file and builds the stack it
      starts with; qsort sorts with any comparison that orders;
    - lwext4: the table-driven checksums compute the bit-by-bit ones, the block
      groups partition the blocks, a directory block refines a table from names
      to inodes, a leaf of the extent tree refines a map of blocks;
    - where the code does not do what it means to, the theorem states what it
      does (the wake of a futex, bmap's indirect blocks, F_SETFD, setpgid, a
      console whose output is full, a write the disk driver drops).

    ** Bounds and fuel

    A loop over a count or a table recurses on it.  A walk along a list takes the
    number of nodes of the heap as its bound, a scan of a string a bound on its
    length; a chain of descriptors the size of the ring and one more, the loop
    over completed requests the size of the ring, the digits of a number the
    size of their array; a blocking loop takes a bound on the number of sleeps,
    a poll of a device one on the number of reads.  Running out
    is the outcome [nofuel], which [wp] excludes: the theorems prove that the
    routine returns within the bound.  Integers are kept at their width by
    [wrap] and [sint] where the code can overflow.

    ** Parameters

    swtch (swtch.S) is what the rest of the system does while a thread is off
    the processor; the theorems that mention it hold for every swtch that keeps
    the stated invariant.  The end of the kernel image, the operations of file
    systems and devices behind function pointers, the clock, what a read of a
    device register answers, the table of system calls, and printing are
    arguments too, and so are lwext4's calls on files where the kernel's own code
    uses them, with classes that state what the code relies on, and the
    comparison of qsort.  The log and the block cache take a transfer of the disk as
    done when it returns; the driver itself does not wait for writes.

    ** Not modelled

    Of lwext4, a vendored library, what works on one block in memory is modelled;
    its journal, block cache, mounting, and what walks over blocks of the device
    (fs/ext4.c and the rest of fs/ext4_*.c) are not. Boot and the LoongArch half
    (a second architecture, AHCI, device tree) set up machines.  User programs
    are not part of the kernel. *)
From stdpp Require Export base list strings numbers option functions gmap fin_maps.
From Stdlib Require Export ZArith Lia.
#[global] Open Scope Z_scope.

(** ** Machine integers

    Every C integer is a [Z] kept in the range of its type by the wrap-around
    of the operation that computes it. *)

Definition wrap (w x : Z) : Z := x mod 2 ^ w.
Definition sint (w x : Z) : Z := (x + 2 ^ (w - 1)) mod 2 ^ w - 2 ^ (w - 1).
Abbreviation u8 x := (wrap 8 x) (only parsing).
Abbreviation u32 x := (wrap 32 x) (only parsing).
Abbreviation u64 x := (wrap 64 x) (only parsing).
Abbreviation i32 x := (sint 32 x) (only parsing).
Abbreviation i64 x := (sint 64 x) (only parsing).

(** [x & (1 << n)]-style flag tests. *)
Definition has_bits (x mask : Z) : bool := negb (Z.land x mask =? 0).

Section Words.
Implicit Types x y k n : Z.

Lemma wrap_range w x : 0 <= w -> 0 <= wrap w x < 2 ^ w.
Proof. intros. apply Z.mod_pos_bound, Z.pow_pos_nonneg; lia. Qed.

Lemma wrap_small w x : 0 <= x < 2 ^ w -> wrap w x = x.
Proof. apply Z.mod_small. Qed.

Lemma wrap_wrap w x : 0 <= w -> wrap w (wrap w x) = wrap w x.
Proof. intros. apply wrap_small, wrap_range; lia. Qed.

Lemma sint_small w x : 0 < w -> - 2 ^ (w - 1) <= x < 2 ^ (w - 1) -> sint w x = x.
Proof.
  intros Hw Hx. unfold sint. rewrite Z.mod_small; [lia|].
  replace (2 ^ w) with (2 * 2 ^ (w - 1)) by (rewrite <- Z.pow_succ_r by lia; f_equal; lia).
  lia.
Qed.

Lemma i32_range x : - 2 ^ 31 <= i32 x < 2 ^ 31.
Proof. unfold sint. pose proof (Z.mod_pos_bound (x + 2 ^ (32 - 1)) (2 ^ 32)). lia. Qed.

(** Clearing the low [n] bits rounds down to a multiple of [2^n]. *)
Lemma land_lnot_ones x n : 0 <= n -> Z.land x (Z.lnot (2 ^ n - 1)) = x / 2 ^ n * 2 ^ n.
Proof.
  intros. replace (2 ^ n - 1) with (Z.ones n) by (rewrite Z.ones_equiv; lia).
  rewrite <- Z.ldiff_land, Z.ldiff_ones_r, Z.shiftr_div_pow2, Z.shiftl_mul_pow2 by lia.
  done.
Qed.

Lemma testbit_high y n i : 0 <= y < 2 ^ n -> n <= i -> 0 <= n -> Z.testbit y i = false.
Proof.
  intros Hy Hi Hn. rewrite <- (Z.mod_small y (2 ^ n)) by lia.
  apply Z.mod_pow2_bits_high. lia.
Qed.

(** Distinct bit ranges do not interact: [lor] of a multiple of [2^n] and a
    value below [2^n] is their sum. *)
Lemma land_low_high x y n : 0 <= n -> 0 <= y < 2 ^ n -> Z.land (x * 2 ^ n) y = 0.
Proof.
  intros Hn Hy. apply Z.bits_inj'. intros i Hi.
  rewrite Z.land_spec, Z.bits_0, <- Z.shiftl_mul_pow2, Z.shiftl_spec by lia.
  destruct (Z.lt_ge_cases i n).
  - by rewrite Z.testbit_neg_r by lia.
  - by rewrite (testbit_high y n i), andb_false_r by lia.
Qed.

Lemma lor_low_high x y n :
  0 <= n -> 0 <= y < 2 ^ n -> Z.lor (x * 2 ^ n) y = x * 2 ^ n + y.
Proof. intros. symmetry. apply Z.add_nocarry_lor, land_low_high; done. Qed.
End Words.

(** ** Effects: state, panics and wild pointers

    A kernel routine is a function from the state to an [outcome]: it returns
    a value, calls [panic], dereferences a pointer that designates no object
    ([Fault]), or runs out of the fuel given to one of its loops ([NoFuel]). *)

Inductive outcome (S A : Type) : Type :=
| Done (a : A) (s : S)
| Panic (msg : string) (s : S)
| Fault (s : S)
| NoFuel.
Arguments Done {S A} a s.
Arguments Panic {S A} msg s.
Arguments Fault {S A} s.
Arguments NoFuel {S A}.

Definition E (S A : Type) : Type := S -> outcome S A.

#[global] Instance E_ret S : MRet (E S) := fun A a s => Done a s.
#[global] Instance E_bind S : MBind (E S) := fun A B f m s =>
  match m s with
  | Done a s' => f a s'
  | Panic msg s' => Panic msg s'
  | Fault s' => Fault s'
  | NoFuel => NoFuel
  end.

Definition get {S} : E S S := fun s => Done s s.
Definition gets {S A} (f : S -> A) : E S A := fun s => Done (f s) s.
Definition modify {S} (f : S -> S) : E S unit := fun s => Done tt (f s).
Definition panic {S A} (msg : string) : E S A := fun s => Panic msg s.
Definition fault {S A} : E S A := fun s => Fault s.
Definition nofuel {S A} : E S A := fun _ => NoFuel.

(** [if (b) panic(msg);] *)
Definition panic_if {S} (b : bool) (msg : string) : E S unit :=
  if b then panic msg else mret tt.

(** A pointer that may be NULL or dangling: dereferencing it faults. *)
Definition deref {S A} (o : option A) : E S A :=
  match o with Some a => mret a | None => fault end.

(** Running a routine of a component on the part of a larger state it owns. *)
Definition zoom {S T A} (prj : S -> T) (upd : T -> S -> S) (m : E T A) : E S A := fun s =>
  match m (prj s) with
  | Done a t => Done a (upd t s)
  | Panic msg t => Panic msg (upd t s)
  | Fault t => Fault (upd t s)
  | NoFuel => NoFuel
  end.

(** [wp m Q s]: from [s], [m] returns normally and its result satisfies [Q].
    It excludes panics, faults and exhausted fuel, so a [wp] is a statement of
    total correctness. *)
Definition wp {S A} (m : E S A) (Q : A -> S -> Prop) (s : S) : Prop :=
  match m s with Done a s' => Q a s' | _ => False end.

Section Wp.
Context {S : Type}.

Lemma wp_ret {A} (a : A) Q (s : S) : Q a s -> wp (mret a) Q s.
Proof. done. Qed.

Lemma wp_bind {A B} (m : E S A) (f : A -> E S B) Q s :
  wp m (fun a => wp (f a) Q) s -> wp (m ≫= f) Q s.
Proof. unfold wp, mbind, E_bind. by destruct (m s). Qed.

Lemma wp_mono {A} (m : E S A) (Q Q' : A -> S -> Prop) s :
  wp m Q s -> (forall a s', Q a s' -> Q' a s') -> wp m Q' s.
Proof. unfold wp. destruct (m s); auto. Qed.

Lemma wp_call {A B} (m : E S A) (f : A -> E S B) P Q s :
  wp m P s -> (forall a s', P a s' -> wp (f a) Q s') -> wp (m ≫= f) Q s.
Proof. intros. apply wp_bind. eapply wp_mono; eauto. Qed.

Lemma wp_modify (f : S -> S) (Q : unit -> S -> Prop) s : Q tt (f s) -> wp (modify f) Q s.
Proof. done. Qed.

Lemma wp_gets {A} (f : S -> A) (Q : A -> S -> Prop) s : Q (f s) s -> wp (gets f) Q s.
Proof. done. Qed.

Lemma wp_panic_if b msg (Q : unit -> S -> Prop) s : b = false -> Q tt s -> wp (panic_if b msg) Q s.
Proof. by intros ->. Qed.

Lemma wp_deref {A} (o : option A) a (Q : A -> S -> Prop) s :
  o = Some a -> Q a s -> wp (deref o) Q s.
Proof. by intros ->. Qed.

Lemma wp_run {A} (m : E S A) (Q : A -> S -> Prop) s a s' : m s = Done a s' -> Q a s' -> wp m Q s.
Proof. unfold wp. by intros ->. Qed.

(** A [wp] is exactly the existence of a normal result. *)
Lemma wp_done {A} (m : E S A) (Q : A -> S -> Prop) s :
  wp m Q s <-> exists a s', m s = Done a s' /\ Q a s'.
Proof.
  unfold wp. split.
  - destruct (m s); naive_solver.
  - by intros (a & s' & -> & H).
Qed.

Lemma wp_zoom {T A} (prj : S -> T) upd (m : E T A) Q s :
  wp m (fun a t => Q a (upd t s)) (prj s) -> wp (zoom prj upd m) Q s.
Proof. unfold wp, zoom. by destruct (m (prj s)). Qed.

(** Running a sequence whose first routine returns. *)
Lemma bind_done {A B} (m : E S A) (f : A -> E S B) s a s' :
  m s = Done a s' -> (m ≫= f) s = f a s'.
Proof. unfold mbind, E_bind. by intros ->. Qed.

Lemma bind_panic {A B} (m : E S A) (f : A -> E S B) s msg s' :
  m s = Panic msg s' -> (m ≫= f) s = Panic msg s'.
Proof. unfold mbind, E_bind. by intros ->. Qed.

(** [m] panics from [s]. *)
Definition panics {A} (m : E S A) (msg : string) (s : S) : Prop := exists s', m s = Panic msg s'.

Lemma panics_bind {A B} (m : E S A) (f : A -> E S B) msg s : panics m msg s -> panics (m ≫= f) msg s.
Proof. intros [s' H]. exists s'. by apply bind_panic. Qed.

Lemma panics_after {A B} (m : E S A) (f : A -> E S B) msg P s :
  wp m P s -> (forall a s', P a s' -> panics (f a) msg s') -> panics (m ≫= f) msg s.
Proof.
  intros (a & s' & He & HP)%wp_done Hf. destruct (Hf a s' HP) as [s2 H2]. exists s2. by rewrite (bind_done _ _ _ _ _ He).
Qed.

(** A routine that only reads the state. *)
Lemma panics_read {A B} (m : E S A) (f : A -> E S B) msg a s :
  wp m (fun b s' => b = a /\ s' = s) s -> panics (f a) msg s -> panics (m ≫= f) msg s.
Proof. intros Hm Hf. eapply panics_after; [exact Hm|]. by intros b s' [-> ->]. Qed.
End Wp.

Lemma in_rev_elem {A} (x : A) l : x ∈ rev l <-> x ∈ l.
Proof. rewrite !list_elem_of_In. symmetry. apply in_rev. Qed.

Create HintDb kernel.

(** One step of symbolic execution of a [wp] goal. *)
Ltac wp_step :=
  lazymatch goal with
  | |- wp (_ ≫= _) _ _ => apply wp_bind
  | |- wp (mret _) _ _ => apply wp_ret
  | |- wp (modify _) _ _ => apply wp_modify; cbn beta
  | |- wp (gets _) _ _ => apply wp_gets; cbn beta
  | |- wp get _ _ => apply wp_gets; cbn beta
  | |- wp (panic_if _ _) _ _ => apply wp_panic_if
  | |- wp (if ?b then _ else _) _ _ => destruct b eqn:?
  | |- wp (match ?x with _ => _ end) _ _ => destruct x eqn:?
  end.
Ltac wp_steps := repeat wp_step.

(** Boolean tests of the code, as propositions. *)
Ltac zbool :=
  repeat match goal with
  | H : (_ && _) = true |- _ => apply andb_true_iff in H; destruct H
  | H : (_ || _) = false |- _ => apply orb_false_iff in H; destruct H
  | H : negb _ = true |- _ => apply negb_true_iff in H
  | H : negb _ = false |- _ => apply negb_false_iff in H
  | H : (_ =? _) = true |- _ => apply Z.eqb_eq in H
  | H : (_ =? _) = false |- _ => apply Z.eqb_neq in H
  | H : (_ <? _) = true |- _ => apply Z.ltb_lt in H
  | H : (_ <? _) = false |- _ => apply Z.ltb_ge in H
  | H : (_ <=? _) = true |- _ => apply Z.leb_le in H
  | H : (_ <=? _) = false |- _ => apply Z.leb_gt in H
  | H : bool_decide _ = true |- _ => apply bool_decide_eq_true in H
  | H : bool_decide _ = false |- _ => apply bool_decide_eq_false in H
  end.
