(* ===== verification/Mem.v ===== *)
(** * Byte-addressed memory

    Memory is a total map from addresses to bytes; a 64-bit load or store is
    little-endian.  The C objects the memory components touch (free pages,
    page tables, user pages) are ranges of it. *)
From S2P Require Import Prelude.

Definition mem := Z -> Z.

Definition mset (m : mem) (a v : Z) : mem := fun x => if x =? a then u8 v else m x.

(** [n]-byte little-endian load and store. *)
Fixpoint load (m : mem) (a : Z) (n : nat) : Z :=
  match n with
  | O => 0
  | S n => m a + 256 * load m (a + 1) n
  end.

Fixpoint store (m : mem) (a : Z) (n : nat) (v : Z) : mem :=
  match n with
  | O => m
  | S n => store (mset m a v) (a + 1) n (v / 256)
  end.

Definition load64 m a := load m a 8.
Definition store64 m a v := store m a 8 v.

Definition bytes_ok (m : mem) : Prop := forall a, 0 <= m a < 256.

(** [m] and [m'] agree on the [n] bytes at [a]. *)
Definition same_range (m m' : mem) (a n : Z) : Prop :=
  forall x, a <= x < a + n -> m x = m' x.

Section Mem.
Implicit Types m : mem.

Lemma mset_eq m a v : mset m a v a = u8 v.
Proof. unfold mset. by rewrite Z.eqb_refl. Qed.

Lemma mset_ne m a v x : x <> a -> mset m a v x = m x.
Proof. unfold mset. intros. destruct (Z.eqb_spec x a); done. Qed.

Lemma mset_ok m a v : bytes_ok m -> bytes_ok (mset m a v).
Proof.
  intros H x. unfold mset. destruct (x =? a); [|apply H].
  apply (wrap_range 8); lia.
Qed.

Lemma store_ok m a n v : bytes_ok m -> bytes_ok (store m a n v).
Proof. revert m a v. induction n; intros; simpl; auto using mset_ok. Qed.

Lemma store_out m a n v x : x < a \/ a + Z.of_nat n <= x -> store m a n v x = m x.
Proof.
  revert m a v. induction n as [|n IH]; intros m a v Hx; simpl; [done|].
  rewrite IH by lia. apply mset_ne. lia.
Qed.

Lemma load_ext m m' a n : same_range m m' a (Z.of_nat n) -> load m a n = load m' a n.
Proof.
  revert a. induction n as [|n IH]; intros a H; simpl; [done|].
  rewrite (H a), (IH (a + 1)); [done| |lia]. intros x Hx. apply H. lia.
Qed.

Lemma load_range m a n : bytes_ok m -> 0 <= load m a n < 256 ^ Z.of_nat n.
Proof.
  intros Hm. revert a. induction n as [|n IH]; intros a; simpl load.
  - split; [lia|]. done.
  - specialize (IH (a + 1)). specialize (Hm a).
    replace (Z.of_nat (S n)) with (Z.succ (Z.of_nat n)) by lia.
    rewrite Z.pow_succ_r by lia. lia.
Qed.

Lemma load64_range m a : bytes_ok m -> 0 <= load64 m a < 2 ^ 64.
Proof. intros H. apply (load_range m a 8 H). Qed.

Lemma load_store_same m a n v : load (store m a n v) a n = v mod 256 ^ Z.of_nat n.
Proof.
  revert m a v. induction n as [|n IH]; intros m a v; cbn [load store].
  - by rewrite Z.mod_1_r.
  - rewrite store_out, mset_eq, IH by lia.
    replace (Z.of_nat (S n)) with (Z.succ (Z.of_nat n)) by lia.
    rewrite Z.pow_succ_r by lia.
    rewrite Z.rem_mul_r by (try apply Z.pow_nonzero; lia).
    done.
Qed.

Lemma load_store_other m a n v b k :
  b + Z.of_nat k <= a \/ a + Z.of_nat n <= b -> load (store m a n v) b k = load m b k.
Proof. intros H. apply load_ext. intros x Hx. apply store_out. lia. Qed.

Lemma load64_store64_same m a v : load64 (store64 m a v) a = u64 v.
Proof. apply load_store_same. Qed.

Lemma load64_store64_other m a v b :
  b + 8 <= a \/ a + 8 <= b -> load64 (store64 m a v) b = load64 m b.
Proof. intros. apply load_store_other. lia. Qed.

Lemma load64_ext m m' a : same_range m m' a 8 -> load64 m a = load64 m' a.
Proof. apply (load_ext m m' a 8). Qed.

Lemma store64_out m a v x : x < a \/ a + 8 <= x -> store64 m a v x = m x.
Proof. intros. apply store_out. lia. Qed.

Lemma store64_ok m a v : bytes_ok m -> bytes_ok (store64 m a v).
Proof. apply store_ok. Qed.

Lemma load64_zero m a : (forall x, a <= x < a + 8 -> m x = 0) -> load64 m a = 0.
Proof.
  intros H. rewrite (load64_ext m (fun _ => 0)); [done|]. exact H.
Qed.
End Mem.

#[export] Hint Resolve mset_ok store_ok store64_ok : kernel.
