(* ===== verification/CString.v ===== *)
(** * kernel/lib/string.c: memory blocks and NUL-terminated strings

    Each function is the loop of the source, over the byte memory of [Mem].
    A loop bounded by its count argument recurses on the count; a loop that
    only stops at a NUL byte takes fuel and answers [None] when the fuel runs
    out before a NUL is met. *)
From S2P Require Import Prelude Mem.

(** ** memset, memcmp, memmove *)

Fixpoint memset_loop (m : mem) (cdst c i : Z) (n : nat) : mem :=
  match n with
  | O => m
  | S n => memset_loop (mset m (cdst + i) c) cdst c (i + 1) n
  end.

Definition memset (m : mem) (dst c n : Z) : mem := memset_loop m dst c 0 (Z.to_nat n).

Fixpoint memcmp_loop (m : mem) (s1 s2 : Z) (n : nat) : Z :=
  match n with
  | O => 0
  | S n => if negb (m s1 =? m s2) then m s1 - m s2 else memcmp_loop m (s1 + 1) (s2 + 1) n
  end.

Definition memcmp (m : mem) (v1 v2 n : Z) : Z := memcmp_loop m v1 v2 (Z.to_nat n).

(** [while(n-- > 0) *--d = *--s;] *)
Fixpoint copy_down (m : mem) (d s : Z) (n : nat) : mem :=
  match n with
  | O => m
  | S n => copy_down (mset m (d - 1) (m (s - 1))) (d - 1) (s - 1) n
  end.

(** [while(n-- > 0) *d++ = *s++;] *)
Fixpoint copy_up (m : mem) (d s : Z) (n : nat) : mem :=
  match n with
  | O => m
  | S n => copy_up (mset m d (m s)) (d + 1) (s + 1) n
  end.

Definition memmove (m : mem) (dst src n : Z) : mem :=
  if n =? 0 then m
  else if (src <? dst) && (dst <? src + n)
  then copy_down m (dst + n) (src + n) (Z.to_nat n)
  else copy_up m dst src (Z.to_nat n).

Definition memcpy (m : mem) (dst src n : Z) : mem := memmove m dst src n.

(** ** Strings *)

Fixpoint strncmp_loop (m : mem) (p q : Z) (n : nat) : Z :=
  match n with
  | O => 0
  | S n => if negb (m p =? 0) && (m p =? m q) then strncmp_loop m (p + 1) (q + 1) n
           else m p - m q
  end.

Definition strncmp (m : mem) (p q n : Z) : Z := strncmp_loop m p q (Z.to_nat n).

(** First loop of strncpy: the memory, the advanced [des] and the [n] left. *)
Fixpoint strncpy_copy (m : mem) (des src : Z) (n : nat) : mem * Z * nat :=
  match n with
  | O => (m, des, O)
  | S n =>
      let c := m src in
      let m := mset m des c in
      if c =? 0 then (m, des + 1, n) else strncpy_copy m (des + 1) (src + 1) n
  end.

(** Second loop: [while(n-- > 0) *des++ = 0;] *)
Fixpoint strncpy_pad (m : mem) (des : Z) (n : nat) : mem :=
  match n with
  | O => m
  | S n => strncpy_pad (mset m des 0) (des + 1) n
  end.

Definition strncpy (m : mem) (des src n : Z) : mem :=
  let '(m, des, k) := strncpy_copy m des src (Z.to_nat n) in strncpy_pad m des k.

Fixpoint strcmp (fuel : nat) (m : mem) (p q : Z) : option Z :=
  match fuel with
  | O => None
  | S fuel => if negb (m p =? 0) && (m p =? m q) then strcmp fuel m (p + 1) (q + 1)
              else Some (m p - m q)
  end.

(** [while(--n > 0 && ( *s++ = *t++ ) != 0);], entered with [n - 1 = k]. *)
Fixpoint safestrcpy_loop (m : mem) (s t : Z) (k : nat) : mem * Z :=
  match k with
  | O => (m, s)
  | S k =>
      let c := m t in
      let m := mset m s c in
      if c =? 0 then (m, s + 1) else safestrcpy_loop m (s + 1) (t + 1) k
  end.

Definition safestrcpy (m : mem) (s t n : Z) : mem :=
  if n <=? 0 then m
  else let '(m, s) := safestrcpy_loop m s t (Z.to_nat (n - 1)) in mset m s 0.

Fixpoint strlen_loop (fuel : nat) (m : mem) (s n : Z) : option Z :=
  match fuel with
  | O => None
  | S fuel => if m (s + n) =? 0 then Some n else strlen_loop fuel m s (n + 1)
  end.

Definition strlen (fuel : nat) (m : mem) (s : Z) : option Z := strlen_loop fuel m s 0.

Fixpoint strnlen_loop (m : mem) (s sc : Z) (count : nat) : Z :=
  if m sc =? 0 then sc - s
  else match count with
       | O => sc - s
       | S count => strnlen_loop m s (sc + 1) count
       end.

Definition strnlen (m : mem) (s count : Z) : Z := strnlen_loop m s s (Z.to_nat count).

Fixpoint strcpy (fuel : nat) (m : mem) (des src : Z) : option mem :=
  match fuel with
  | O => None
  | S fuel =>
      let c := m src in
      let m := mset m des c in
      if c =? 0 then Some m else strcpy fuel m (des + 1) (src + 1)
  end.

Fixpoint substr_cmp (fuel : nat) (m : mem) (shorts longs : Z) : option Z :=
  match fuel with
  | O => None
  | S fuel =>
      if negb (m shorts =? 0) && (m shorts =? m longs)
      then substr_cmp fuel m (shorts + 1) (longs + 1)
      else Some (if m shorts =? 0 then 0 else -1)
  end.

(** [while ( *p ) ++p;] *)
Fixpoint strend (fuel : nat) (m : mem) (p : Z) : option Z :=
  match fuel with
  | O => None
  | S fuel => if m p =? 0 then Some p else strend fuel m (p + 1)
  end.

(** [while ( *src ) *p++ = *src++; *p = 0;] *)
Fixpoint strcat_copy (fuel : nat) (m : mem) (p src : Z) : option mem :=
  match fuel with
  | O => None
  | S fuel => if m src =? 0 then Some (mset m p 0)
              else strcat_copy fuel (mset m p (m src)) (p + 1) (src + 1)
  end.

Definition strcat (fuel : nat) (m : mem) (dest src : Z) : option mem :=
  p ← strend fuel m dest; strcat_copy fuel m p src.

(** ** What the functions mean *)

(** The NUL-terminated string at [a] is [l]. *)
Fixpoint cstr (m : mem) (a : Z) (l : list Z) : Prop :=
  match l with
  | [] => m a = 0
  | c :: l => m a = c /\ c <> 0 /\ cstr m (a + 1) l
  end.

Section MemoryBlocks.
Implicit Types m : mem.

Lemma memset_loop_spec m dst c i n x :
  memset_loop m dst c i n x
  = if (dst + i <=? x) && (x <? dst + i + Z.of_nat n) then u8 c else m x.
Proof.
  revert m i. induction n as [|n IH]; intros m i; cbn [memset_loop].
  - destruct (Z.leb_spec (dst + i) x), (Z.ltb_spec x (dst + i + Z.of_nat 0)); try done; lia.
  - rewrite IH. unfold mset.
    destruct (Z.leb_spec (dst + (i + 1)) x), (Z.ltb_spec x (dst + (i + 1) + Z.of_nat n)),
      (Z.leb_spec (dst + i) x), (Z.ltb_spec x (dst + i + Z.of_nat (S n))),
      (Z.eqb_spec x (dst + i)); simpl; try done; lia.
Qed.

Lemma memset_spec m dst c n x :
  memset m dst c n x = if (dst <=? x) && (x <? dst + n) then u8 c else m x.
Proof.
  unfold memset. rewrite memset_loop_spec, Z.add_0_r.
  destruct (Z.leb_spec dst x), (Z.ltb_spec x (dst + n)),
    (Z.ltb_spec x (dst + Z.of_nat (Z.to_nat n))); simpl; try done; lia.
Qed.

Lemma memset_in m dst c n x : dst <= x < dst + n -> memset m dst c n x = u8 c.
Proof.
  intros. rewrite memset_spec.
  destruct (Z.leb_spec dst x), (Z.ltb_spec x (dst + n)); simpl; try done; lia.
Qed.

Lemma memset_out m dst c n x : x < dst \/ dst + n <= x -> memset m dst c n x = m x.
Proof.
  intros. rewrite memset_spec.
  destruct (Z.leb_spec dst x), (Z.ltb_spec x (dst + n)); simpl; try done; lia.
Qed.

Lemma memset_ok m dst c n : bytes_ok m -> bytes_ok (memset m dst c n).
Proof.
  intros H x. rewrite memset_spec. destruct (_ && _); [|apply H].
  apply (wrap_range 8); lia.
Qed.

Lemma u8_byte m x : bytes_ok m -> u8 (m x) = m x.
Proof. intros H. apply wrap_small, H. Qed.

Lemma copy_up_spec m d s n x :
  bytes_ok m -> d <= s \/ s + Z.of_nat n <= d ->
  copy_up m d s n x = if (d <=? x) && (x <? d + Z.of_nat n) then m (s + (x - d)) else m x.
Proof.
  revert m d s. induction n as [|n IH]; intros m d s Hm Hds; cbn [copy_up].
  - destruct (Z.leb_spec d x), (Z.ltb_spec x (d + Z.of_nat 0)); simpl; try done; lia.
  - rewrite IH by (try apply mset_ok; auto; lia).
    destruct (Z.leb_spec (d + 1) x), (Z.ltb_spec x (d + 1 + Z.of_nat n)),
      (Z.leb_spec d x), (Z.ltb_spec x (d + Z.of_nat (S n))); simpl;
      try (exfalso; lia);
      try (rewrite mset_ne by lia; try done; f_equal; lia).
    assert (x = d) as -> by lia. rewrite mset_eq, u8_byte by done. f_equal; lia.
Qed.

Lemma copy_down_spec m d s n x :
  bytes_ok m -> s <= d ->
  copy_down m d s n x
  = if (d - Z.of_nat n <=? x) && (x <? d) then m (s + (x - d)) else m x.
Proof.
  revert m d s. induction n as [|n IH]; intros m d s Hm Hds; cbn [copy_down].
  - destruct (Z.leb_spec (d - Z.of_nat 0) x), (Z.ltb_spec x d); simpl; try done; lia.
  - rewrite IH by (try apply mset_ok; auto; lia).
    destruct (Z.leb_spec (d - 1 - Z.of_nat n) x), (Z.ltb_spec x (d - 1)),
      (Z.leb_spec (d - Z.of_nat (S n)) x), (Z.ltb_spec x d); simpl;
      try (exfalso; lia);
      try (rewrite mset_ne by lia; try done; f_equal; lia).
    assert (x = d - 1) as -> by lia. rewrite mset_eq, u8_byte by done. f_equal; lia.
Qed.

Lemma memmove_spec m dst src n x :
  bytes_ok m -> 0 <= n ->
  memmove m dst src n x
  = if (dst <=? x) && (x <? dst + n) then m (src + (x - dst)) else m x.
Proof.
  intros Hm Hn. unfold memmove.
  destruct (Z.eqb_spec n 0) as [->|].
  { destruct (Z.leb_spec dst x), (Z.ltb_spec x (dst + 0)); simpl; try done; lia. }
  destruct (Z.ltb_spec src dst), (Z.ltb_spec dst (src + n)); simpl;
    rewrite ?copy_up_spec, ?copy_down_spec by (done || lia);
    rewrite ?Z2Nat.id by lia; try done.
  replace (dst + n - n) with dst by lia. by replace (src + n + (x - (dst + n))) with (src + (x - dst)) by lia.
Qed.

Lemma memmove_in m dst src n x :
  bytes_ok m -> dst <= x < dst + n -> memmove m dst src n x = m (src + (x - dst)).
Proof.
  intros. rewrite memmove_spec by (done || lia).
  destruct (Z.leb_spec dst x), (Z.ltb_spec x (dst + n)); simpl; try done; lia.
Qed.

Lemma memmove_out m dst src n x :
  bytes_ok m -> 0 <= n -> x < dst \/ dst + n <= x -> memmove m dst src n x = m x.
Proof.
  intros. rewrite memmove_spec by done.
  destruct (Z.leb_spec dst x), (Z.ltb_spec x (dst + n)); simpl; try done; lia.
Qed.

Lemma memmove_ok m dst src n : bytes_ok m -> 0 <= n -> bytes_ok (memmove m dst src n).
Proof. intros H Hn x. rewrite memmove_spec by done. destruct (_ && _); apply H. Qed.
End MemoryBlocks.

#[export] Hint Resolve memset_ok memmove_ok : kernel.

Section Strings.
Implicit Types (m : mem) (l : list Z).

(** A string only depends on the bytes it occupies, NUL included. *)
Lemma cstr_ext m m' a l :
  cstr m a l -> same_range m m' a (Z.of_nat (length l) + 1) -> cstr m' a l.
Proof.
  revert a. induction l as [|c l IH]; intros a H Hr; simpl in *.
  - rewrite <- Hr; [done|lia].
  - destruct H as (Ha & Hc & H). rewrite <- (Hr a) by lia. split_and!; [done..|].
    apply IH; [done|]. intros x Hx. apply Hr. lia.
Qed.

Lemma cstr_inj m a l1 l2 : cstr m a l1 -> cstr m a l2 -> l1 = l2.
Proof.
  revert a l2. induction l1 as [|c l1 IH]; intros a [|c2 l2]; simpl; [done|intuition congruence..|].
  intros (-> & ? & ?) (-> & ? & ?). f_equal. eauto.
Qed.

Lemma strlen_loop_spec fuel m s n l :
  cstr m (s + n) l -> (length l < fuel)%nat ->
  strlen_loop fuel m s n = Some (n + Z.of_nat (length l)).
Proof.
  revert n l. induction fuel as [|fuel IH]; intros n l H Hf; [lia|]. simpl.
  destruct l as [|c l]; simpl in *.
  - rewrite H. simpl. f_equal. lia.
  - destruct H as (-> & Hc & H). destruct (Z.eqb_spec c 0); [done|].
    rewrite (IH (n + 1) l); [f_equal; lia| |lia].
    by replace (s + (n + 1)) with (s + n + 1) by lia.
Qed.

Lemma strlen_cstr fuel m s l :
  cstr m s l -> (length l < fuel)%nat -> strlen fuel m s = Some (Z.of_nat (length l)).
Proof. intros. apply (strlen_loop_spec fuel m s 0 l); [by rewrite Z.add_0_r|done]. Qed.

Lemma strcmp_cstr fuel m p q l1 l2 :
  cstr m p l1 -> cstr m q l2 -> (length l1 < fuel)%nat ->
  exists d, strcmp fuel m p q = Some d /\ (d = 0 <-> l1 = l2).
Proof.
  revert p q l1 l2. induction fuel as [|fuel IH]; intros p q l1 l2 H1 H2 Hf; [lia|].
  destruct l1 as [|c1 l1], l2 as [|c2 l2]; simpl in *.
  - rewrite H1, H2. simpl. by exists 0.
  - destruct H2 as (-> & Hc & _). rewrite H1. simpl. eexists. split; [done|].
    split; [lia|done].
  - destruct H1 as (-> & Hc & _). rewrite H2.
    destruct (Z.eqb_spec c1 0); [lia|]. simpl. eexists. split; [done|]. split; [lia|done].
  - destruct H1 as (-> & Hc1 & H1), H2 as (-> & Hc2 & H2).
    destruct (Z.eqb_spec c1 0); [lia|]. simpl. destruct (Z.eqb_spec c1 c2) as [->|Hne].
    + destruct (IH _ _ _ _ H1 H2 ltac:(lia)) as (d & -> & Hd). eexists. split; [done|].
      rewrite Hd. split; [by intros ->|by intros [=]].
    + eexists. split; [done|]. split; [lia|by intros [=]].
Qed.

Lemma substr_cmp_cstr fuel m p q l1 l2 :
  cstr m p l1 -> cstr m q l2 -> (length l1 < fuel)%nat ->
  substr_cmp fuel m p q = Some (if bool_decide (l1 `prefix_of` l2) then 0 else -1).
Proof.
  revert p q l1 l2. induction fuel as [|fuel IH]; intros p q l1 l2 H1 H2 Hf; [lia|].
  destruct l1 as [|c1 l1], l2 as [|c2 l2]; cbn [substr_cmp cstr length] in *.
  - rewrite H1, H2. cbn [negb andb Z.eqb]. rewrite bool_decide_true by apply prefix_nil. done.
  - destruct H2 as (-> & Hc & _). rewrite H1. cbn [negb andb Z.eqb].
    rewrite bool_decide_true by apply prefix_nil. done.
  - destruct H1 as (-> & Hc & _). rewrite H2. destruct (Z.eqb_spec c1 0); [lia|]. cbn [negb andb Z.eqb].
    rewrite bool_decide_false; [done|]. intros H. by apply prefix_nil_not in H.
  - destruct H1 as (-> & Hc1 & H1), H2 as (-> & Hc2 & H2).
    destruct (Z.eqb_spec c1 0); [lia|]. cbn [negb andb Z.eqb]. destruct (Z.eqb_spec c1 c2) as [->|Hne].
    + rewrite (IH _ _ _ _ H1 H2) by lia. f_equal.
      destruct (decide (l1 `prefix_of` l2)) as [Hp|Hp].
      * rewrite !bool_decide_true; [done| |done]. by apply prefix_cons.
      * rewrite !bool_decide_false; [done| |done]. intros Hq. by apply Hp, (prefix_cons_inv_2 c2 c2).
    + rewrite bool_decide_false; [done|]. intros Hq. by apply Hne, (prefix_cons_inv_1 c1 c2 l1 l2).
Qed.

(** Copying up to [k] bytes of the string [l]: what is written, and where the
    destination pointer ends. *)
Lemma safestrcpy_loop_spec m s t k l m' s' :
  bytes_ok m -> cstr m t l ->
  t + Z.of_nat (length l) + 1 <= s \/ s + Z.of_nat k <= t ->
  safestrcpy_loop m s t k = (m', s') ->
  cstr (mset m' s' 0) s (take k l) /\ s <= s' <= s + Z.of_nat k /\
  (forall x, x < s \/ s + Z.of_nat k <= x -> m' x = m x).
Proof.
  revert m s t l. induction k as [|k IH]; intros m s t l Hm Hl Hd; simpl.
  { intros [= <- <-]. split_and!; [apply mset_eq|lia..|done]. }
  destruct (Z.eqb_spec (m t) 0) as [Ht|Ht].
  - intros [= <- <-]. destruct l as [|c l]; simpl in Hl; [|intuition congruence]. simpl.
    split_and!; [rewrite mset_ne, mset_eq, Ht by lia; done|lia..|].
    intros x Hx. apply mset_ne. lia.
  - destruct l as [|c l]; simpl in Hl; [done|]. destruct Hl as (Hc & Hc0 & Hl).
    intros Hrun. simpl in Hd.
    assert (cstr (mset m s (m t)) (t + 1) l) as Hl'.
    { eapply cstr_ext; [done|]. intros x Hx. rewrite mset_ne; [done|]. lia. }
    destruct (IH _ (s + 1) (t + 1) _ (mset_ok _ _ _ Hm) Hl' ltac:(lia) Hrun) as (H1 & H2 & H3).
    split_and!; [|lia..|].
    + simpl. rewrite mset_ne, H3, mset_eq, u8_byte by (done || lia). done.
    + intros x Hx. rewrite H3, mset_ne by lia. done.
Qed.

Lemma safestrcpy_cstr m s t n l :
  bytes_ok m -> 0 < n -> cstr m t l ->
  t + Z.of_nat (length l) + 1 <= s \/ s + n <= t ->
  cstr (safestrcpy m s t n) s (take (Z.to_nat (n - 1)) l) /\
  (forall x, x < s \/ s + n <= x -> safestrcpy m s t n x = m x).
Proof.
  intros Hm Hn Hl Hd. unfold safestrcpy. destruct (Z.leb_spec n 0); [lia|].
  destruct (safestrcpy_loop m s t (Z.to_nat (n - 1))) as [m' s'] eqn:Hrun.
  destruct (safestrcpy_loop_spec m s t (Z.to_nat (n - 1)) l m' s' Hm Hl ltac:(lia) Hrun) as (H1 & H2 & H3).
  split; [done|]. intros x Hx. rewrite mset_ne, H3 by lia. done.
Qed.

Lemma strend_spec fuel m p l :
  cstr m p l -> (length l < fuel)%nat -> strend fuel m p = Some (p + Z.of_nat (length l)).
Proof.
  revert p l. induction fuel as [|fuel IH]; intros p l H Hf; [lia|]. simpl.
  destruct l as [|c l]; simpl in *.
  - rewrite H. simpl. f_equal. lia.
  - destruct H as (-> & Hc & H). destruct (Z.eqb_spec c 0); [done|].
    rewrite (IH _ l); [f_equal; lia|done|lia].
Qed.

Lemma strcat_copy_spec fuel m p src l :
  bytes_ok m -> cstr m src l -> (length l < fuel)%nat ->
  src + Z.of_nat (length l) + 1 <= p \/ p + Z.of_nat (length l) + 1 <= src ->
  exists m', strcat_copy fuel m p src = Some m' /\ cstr m' p l /\
    (forall x, x < p \/ p + Z.of_nat (length l) + 1 <= x -> m' x = m x).
Proof.
  revert m p src l. induction fuel as [|fuel IH]; intros m p src l Hm H Hf Hd; [lia|].
  destruct l as [|c l]; simpl in *.
  - rewrite H. simpl. eexists. split_and!; [done|apply mset_eq|]. intros x Hx. apply mset_ne. lia.
  - destruct H as (Hc & Hc0 & H). rewrite Hc. destruct (Z.eqb_spec c 0); [done|].
    assert (cstr (mset m p c) (src + 1) l) as H'.
    { eapply cstr_ext; [done|]. intros x Hx. rewrite mset_ne; [done|]. lia. }
    destruct (IH _ (p + 1) _ _ (mset_ok m p c Hm) H' ltac:(lia) ltac:(lia)) as (m' & -> & H1 & H2).
    eexists. split_and!; [done| |done|done|].
    + rewrite H2, mset_eq by lia. rewrite <- Hc. by apply u8_byte.
    + intros x Hx. rewrite H2, mset_ne by lia. done.
Qed.

Lemma cstr_app m a l1 l2 :
  (forall i c, l1 !! i = Some c -> m (a + Z.of_nat i) = c /\ c <> 0) ->
  cstr m (a + Z.of_nat (length l1)) l2 -> cstr m a (l1 ++ l2).
Proof.
  revert a. induction l1 as [|c l1 IH]; intros a H H2; simpl in *.
  - by rewrite Z.add_0_r in H2.
  - destruct (H 0%nat c) as [Ha Hc]; [done|]. rewrite Z.add_0_r in Ha.
    split_and!; [done..|]. apply IH.
    + intros i d Hi. replace (a + 1 + Z.of_nat i) with (a + Z.of_nat (S i)) by lia. by apply H.
    + by replace (a + 1 + Z.of_nat (length l1)) with (a + Z.pos (Pos.of_succ_nat (length l1))) by lia.
Qed.

Lemma cstr_lookup m a l i c : cstr m a l -> l !! i = Some c -> m (a + Z.of_nat i) = c /\ c <> 0.
Proof.
  revert a i. induction l as [|d l IH]; intros a [|i] H Hi; simpl in *; simplify_eq.
  - rewrite Z.add_0_r. naive_solver.
  - destruct H as (_ & _ & H). replace (a + Z.of_nat (S i)) with (a + 1 + Z.of_nat i) by lia. eauto.
Qed.

Lemma strcat_cstr fuel m dest src l1 l2 :
  bytes_ok m -> cstr m dest l1 -> cstr m src l2 -> (length l1 + length l2 < fuel)%nat ->
  src + Z.of_nat (length l2) + 1 <= dest \/
    dest + Z.of_nat (length l1 + length l2) + 1 <= src ->
  exists m', strcat fuel m dest src = Some m' /\ cstr m' dest (l1 ++ l2) /\
    (forall x, x < dest \/ dest + Z.of_nat (length l1 + length l2) + 1 <= x -> m' x = m x).
Proof.
  intros Hm H1 H2 Hf Hd. unfold strcat. rewrite (strend_spec fuel m dest l1) by (done || lia).
  simpl. destruct (strcat_copy_spec fuel m (dest + Z.of_nat (length l1)) src l2)
    as (m' & Hrun & H3 & H4); [done|done|lia|lia|].
  exists m'. split_and!; [done| |].
  - apply cstr_app; [|done]. intros i c Hi. rewrite H4.
    + by eapply cstr_lookup.
    + apply lookup_lt_Some in Hi. lia.
  - intros x Hx. apply H4. lia.
Qed.
End Strings.
