(* ===== verification/Bitmap.v ===== *)
(** * kernel/fs/ext4_bitmap.c: bitmaps of blocks and inodes

    Clearing a range of bits and looking for the first clear one, both a byte at
    a time where they can, against the bits of the bitmap one by one. *)
From S2P Require Import Prelude Mem.

Definition EOK : Z := 0.
Definition ENOSPC : Z := 28.

Definition ext4_bmap_bit_set (m : mem) (bmap bit : Z) : mem :=
  let a := bmap + Z.shiftr bit 3 in
  mset m a (Z.lor (m a) (Z.shiftl 1 (Z.land bit 7))).
Definition ext4_bmap_bit_clr (m : mem) (bmap bit : Z) : mem :=
  let a := bmap + Z.shiftr bit 3 in
  mset m a (Z.land (m a) (Z.lnot (Z.shiftl 1 (Z.land bit 7)))).
Definition ext4_bmap_is_bit_set (m : mem) (bmap bit : Z) : bool :=
  has_bits (m (bmap + Z.shiftr bit 3)) (Z.shiftl 1 (Z.land bit 7)).
Definition ext4_bmap_is_bit_clr (m : mem) (bmap bit : Z) : bool := negb (ext4_bmap_is_bit_set m bmap bit).

(** while (i & 7): the bits before the next byte; None when bcnt reaches 0, with
    the work done. *)
Fixpoint free_head (n : nat) (m : mem) (bmap i bcnt : Z) : mem * option (Z * Z) :=
  match n with
  | O => (m, Some (i, bcnt))
  | S n =>
    if Z.land i 7 =? 0 then (m, Some (i, bcnt))
    else if bcnt =? 0 then (m, None)
    else free_head n (ext4_bmap_bit_clr m bmap i) bmap (u32 (i + 1)) (bcnt - 1)
  end.

(** while (bcnt >= 8), then the bits that are left; a turn of the loop for every
    byte. *)
Fixpoint free_bits (n : nat) (m : mem) (bmap i bcnt : Z) : mem :=
  match n with
  | O => m
  | S n => if i <? bcnt then free_bits n (ext4_bmap_bit_clr m bmap i) bmap (i + 1) bcnt else m
  end.
Fixpoint free_bytes (n : nat) (m : mem) (bmap bcnt : Z) : mem :=
  match n with
  | O => m
  | S n => if 8 <=? bcnt then free_bytes n (mset m bmap 0) (bmap + 1) (bcnt - 8) else free_bits 8 m bmap 0 bcnt
  end.

Definition ext4_bmap_bits_free (m : mem) (bmap sbit bcnt : Z) : mem :=
  match free_head 8 m bmap sbit bcnt with
  | (m, None) => m
  | (m, Some (i, bcnt)) => free_bytes (S (Z.to_nat (bcnt / 8))) m (bmap + Z.shiftr i 3) bcnt
  end.

(** The first part of the search: an answer, or where to go on. *)
Fixpoint find_head (n : nat) (m : mem) (bmap sbit i bcnt : Z) : (Z * Z) + (Z * Z) :=
  match n with
  | O => inr (i, bcnt)
  | S n =>
    if Z.land i 7 =? 0 then inr (i, bcnt)
    else if bcnt =? 0 then inl (ENOSPC, 0)
    else if ext4_bmap_is_bit_clr m bmap i then inl (EOK, sbit)
    else find_head n m bmap sbit (u32 (i + 1)) (bcnt - 1)
  end.

(** for (i = 0; i < k; ++i): the first clear bit of those from [i] on. *)
Fixpoint find_bits (n : nat) (m : mem) (bmap i k : Z) : option Z :=
  match n with
  | O => None
  | S n => if i <? k then if ext4_bmap_is_bit_clr m bmap i then Some i else find_bits n m bmap (i + 1) k else None
  end.
Fixpoint find_bytes (n : nat) (m : mem) (bmap sbit bcnt : Z) : Z * Z :=
  match n with
  | O => (ENOSPC, 0)
  | S n =>
    if 8 <=? bcnt then
      match (if m bmap =? 0xFF then None else find_bits 8 m bmap 0 8) with
      | Some i => (EOK, u32 (sbit + i))
      | None => find_bytes n m (bmap + 1) (u32 (sbit + 8)) (bcnt - 8)
      end
    else match find_bits 8 m bmap 0 bcnt with
         | Some i => (EOK, u32 (sbit + i))
         | None => (ENOSPC, 0)
         end
  end.

(** The result and *bit_id, 0 when it is not set. *)
Definition ext4_bmap_bit_find_clr (m : mem) (bmap sbit ebit : Z) : Z * Z :=
  match find_head 8 m bmap sbit sbit (u32 (ebit - sbit)) with
  | inl r => r
  | inr (i, bcnt) => find_bytes (S (Z.to_nat (bcnt / 8))) m (bmap + Z.shiftr i 3) i bcnt
  end.

(** ** Bits *)

(** Bit [k] of the bitmap, for any [k]: those below 0 are in the bytes before
    it. *)
Definition bit (m : mem) (bmap k : Z) : bool := Z.testbit (m (bmap + k / 8)) (k mod 8).

Lemma shiftr3 k : Z.shiftr k 3 = k / 8.
Proof. by rewrite Z.shiftr_div_pow2. Qed.
Lemma land7 k : Z.land k 7 = k mod 8.
Proof. change 7 with (Z.ones 3). by rewrite Z.land_ones. Qed.

(** A test of one bit. *)
Lemma has_bits_pow2 x j : 0 <= j -> has_bits x (2 ^ j) = Z.testbit x j.
Proof.
  intros Hj. unfold has_bits. assert (Z.land x (2 ^ j) = if Z.testbit x j then 2 ^ j else 0) as ->.
  { apply Z.bits_inj'. intros n Hn. rewrite Z.land_spec, Z.pow2_bits_eqb by lia. destruct (Z.eqb_spec j n) as [->|].
    - rewrite andb_true_r. destruct (Z.testbit x n); [by rewrite Z.pow2_bits_true|by rewrite Z.testbit_0_l].
    - rewrite andb_false_r. destruct (Z.testbit x j); [by rewrite Z.pow2_bits_false|by rewrite Z.testbit_0_l]. }
  destruct (Z.testbit x j); [|done]. by rewrite (proj2 (Z.eqb_neq _ 0)) by (apply Z.pow_nonzero; lia).
Qed.

Lemma is_bit_set_bit m bmap k : ext4_bmap_is_bit_set m bmap k = bit m bmap k.
Proof.
  unfold ext4_bmap_is_bit_set, bit. rewrite shiftr3, land7, Z.shiftl_1_l. apply has_bits_pow2. pose proof (Z.mod_pos_bound k 8). lia.
Qed.

Lemma bit_other m bmap a v k : a <> bmap + k / 8 -> bit (mset m a v) bmap k = bit m bmap k.
Proof. intros H. unfold bit, mset. case_match; [lia|done]. Qed.

Lemma bit_clr m bmap i k : bit (ext4_bmap_bit_clr m bmap i) bmap k = if k =? i then false else bit m bmap k.
Proof.
  unfold ext4_bmap_bit_clr. rewrite shiftr3, land7. pose proof (Z.mod_pos_bound i 8 ltac:(lia)). pose proof (Z.mod_pos_bound k 8 ltac:(lia)).
  destruct (decide (k / 8 = i / 8)) as [E|E]; [|rewrite bit_other by lia; destruct (Z.eqb_spec k i) as [->|]; [done|done]].
  unfold bit. rewrite E, mset_eq. unfold wrap. rewrite Z.mod_pow2_bits_low, Z.land_spec, Z.lnot_spec, Z.shiftl_1_l, Z.pow2_bits_eqb by lia.
  pose proof (Z.div_mod k 8). pose proof (Z.div_mod i 8).
  destruct (Z.eqb_spec k i) as [->|]; [rewrite Z.eqb_refl; apply andb_false_r|]. rewrite (proj2 (Z.eqb_neq (i mod 8) (k mod 8))) by lia. apply andb_true_r.
Qed.

Lemma bit_zero m bmap j k : bit (mset m (bmap + j) 0) bmap k = if k / 8 =? j then false else bit m bmap k.
Proof.
  destruct (Z.eqb_spec (k / 8) j) as [<-|]; [|apply bit_other; lia]. unfold bit. by rewrite mset_eq, Z.testbit_0_l.
Qed.

(** ** Clearing a range *)

(** The bits from [a] to [b] are clear in [m'], the others as in [m]. *)
Definition cleared (bmap a b : Z) (m m' : mem) : Prop :=
  bytes_ok m' /\ forall k, bit m' bmap k = if (a <=? k) && (k <? b) then false else bit m bmap k.

Lemma cleared_trans bmap a b c m1 m2 m3 : a <= b <= c -> cleared bmap a b m1 m2 -> cleared bmap b c m2 m3 -> cleared bmap a c m1 m3.
Proof.
  intros H [_ H1] [Hb H2]. split; [done|]. intros k. rewrite H2, H1.
  destruct (Z.leb_spec b k), (Z.ltb_spec k c), (Z.leb_spec a k), (Z.ltb_spec k b); cbn; done || lia.
Qed.

Lemma cleared_refl bmap a m : bytes_ok m -> cleared bmap a a m m.
Proof. intros Hb. split; [done|]. intros k. destruct (Z.leb_spec a k), (Z.ltb_spec k a); cbn; done || lia. Qed.

Lemma cleared_bit m bmap i : bytes_ok m -> cleared bmap i (i + 1) m (ext4_bmap_bit_clr m bmap i).
Proof.
  intros Hb. split; [by apply mset_ok|]. intros k. rewrite bit_clr.
  destruct (Z.eqb_spec k i), (Z.leb_spec i k), (Z.ltb_spec k (i + 1)); cbn; done || lia.
Qed.

(** The same bitmap, seen from [j] bytes further on. *)
Lemma bit_shift m bmap j k : bit m (bmap + j) k = bit m bmap (k + 8 * j).
Proof. unfold bit. replace (k + 8 * j) with (k + j * 8) by lia. rewrite Z.div_add, Z.mod_add by lia. f_equal. f_equal. lia. Qed.

Lemma cleared_shift bmap j a b m m' : cleared (bmap + j) a b m m' -> cleared bmap (a + 8 * j) (b + 8 * j) m m'.
Proof.
  intros [Hb H]. split; [done|]. intros k. specialize (H (k - 8 * j)). rewrite !bit_shift in H. replace (k - 8 * j + 8 * j) with k in H by lia. rewrite H.
  destruct (Z.leb_spec a (k - 8 * j)), (Z.leb_spec (a + 8 * j) k), (Z.ltb_spec (k - 8 * j) b), (Z.ltb_spec k (b + 8 * j)); cbn; done || lia.
Qed.

Lemma free_bits_spec n m bmap i bcnt : bytes_ok m -> i <= bcnt <= i + Z.of_nat n -> cleared bmap i bcnt m (free_bits n m bmap i bcnt).
Proof.
  revert m i. induction n as [|n IH]; intros m i Hb Hi; cbn [free_bits].
  - replace bcnt with i by lia. by apply cleared_refl.
  - destruct (Z.ltb_spec i bcnt); [|replace bcnt with i by lia; by apply cleared_refl].
    eapply (cleared_trans _ _ (i + 1)); [lia|by apply cleared_bit|]. apply IH; [by apply cleared_bit|lia].
Qed.

Lemma free_bytes_spec n m bmap bcnt : bytes_ok m -> 0 <= bcnt < 8 * Z.of_nat n -> cleared bmap 0 bcnt m (free_bytes n m bmap bcnt).
Proof.
  revert m bmap bcnt. induction n as [|n IH]; intros m bmap bcnt Hb Hn; cbn [free_bytes]; [lia|].
  destruct (Z.leb_spec 8 bcnt); [|apply free_bits_spec; [done|lia]].
  apply (cleared_trans _ _ 8 _ _ (mset m bmap 0)); [lia| |].
  - split; [by apply mset_ok|]. intros k. pose proof (bit_zero m bmap 0 k) as E. rewrite Z.add_0_r in E. rewrite E.
    pose proof (Z.div_mod k 8). pose proof (Z.mod_pos_bound k 8).
    destruct (Z.eqb_spec (k / 8) 0), (Z.leb_spec 0 k), (Z.ltb_spec k 8); cbn; done || lia.
  - pose proof (cleared_shift bmap 1 0 (bcnt - 8) _ _ (IH (mset m bmap 0) (bmap + 1) (bcnt - 8) ltac:(by apply mset_ok) ltac:(lia))) as E.
    replace (0 + 8 * 1) with 8 in E by lia. replace (bcnt - 8 + 8 * 1) with bcnt in E by lia. done.
Qed.

(** The first part stops at a byte, or with every bit cleared. *)
Lemma free_head_spec n m bmap i bcnt : bytes_ok m -> 0 <= bcnt -> 0 <= i -> i + bcnt < 2 ^ 32 -> i mod 8 = 0 \/ 8 <= i mod 8 + Z.of_nat n ->
  match free_head n m bmap i bcnt with
  | (m', None) => cleared bmap i (i + bcnt) m m'
  | (m', Some (j, b)) => j mod 8 = 0 /\ i <= j /\ 0 <= b /\ j + b = i + bcnt /\ cleared bmap i j m m'
  end.
Proof.
  revert m i bcnt. induction n as [|n IH]; intros m i bcnt Hb Hc Hi Hw Hn; cbn [free_head].
  - pose proof (Z.mod_pos_bound i 8). split_and!; [lia|lia|lia|lia|by apply cleared_refl].
  - rewrite land7. destruct (Z.eqb_spec (i mod 8) 0); [split_and!; [done|lia|lia|lia|by apply cleared_refl]|].
    destruct (Z.eqb_spec bcnt 0) as [->|]; [rewrite Z.add_0_r; by apply cleared_refl|].
    assert ((i + 1) mod 8 = 0 \/ 8 <= (i + 1) mod 8 + Z.of_nat n) as Hn'.
    { pose proof (Z.div_mod i 8). pose proof (Z.mod_pos_bound i 8). pose proof (Z.div_mod (i + 1) 8). pose proof (Z.mod_pos_bound (i + 1) 8). lia. }
    rewrite (wrap_small 32 (i + 1)) by lia.
    pose proof (cleared_bit m bmap i Hb) as H1. specialize (IH (ext4_bmap_bit_clr m bmap i) (i + 1) (bcnt - 1) (proj1 H1) ltac:(lia) ltac:(lia) ltac:(lia) Hn').
    destruct (free_head n _ bmap (i + 1) (bcnt - 1)) as [m' [[j b]|]].
    + destruct IH as (Hj & Hij & Hb0 & Hs & Hcl). split_and!; [done|lia|lia|lia|]. eapply cleared_trans; [|exact H1|exact Hcl]. lia.
    + replace (i + bcnt) with (i + 1 + (bcnt - 1)) by lia. eapply cleared_trans; [|exact H1|exact IH]. lia.
Qed.

(** ext4_bmap_bits_free clears exactly the [bcnt] bits from [sbit] on: every
    other bit of memory, in the bitmap and around it, is what it was, although
    whole bytes are written where the range covers them. *)
Theorem bmap_bits_free_clears (m : mem) (bmap sbit bcnt k : Z) : bytes_ok m -> 0 <= sbit -> 0 <= bcnt -> sbit + bcnt < 2 ^ 32 ->
  bit (ext4_bmap_bits_free m bmap sbit bcnt) bmap k = if (sbit <=? k) && (k <? sbit + bcnt) then false else bit m bmap k.
Proof.
  intros Hb Hs0 Hc Hw. unfold ext4_bmap_bits_free. pose proof (free_head_spec 8 m bmap sbit bcnt Hb Hc Hs0 Hw) as H.
  destruct (free_head 8 m bmap sbit bcnt) as [m1 [[i b]|]].
  - destruct H as (Hi & Hle & Hb0 & Hs & H1); [pose proof (Z.mod_pos_bound sbit 8); lia|]. rewrite shiftr3.
    assert (0 <= b < 8 * Z.of_nat (S (Z.to_nat (b / 8)))) as Hn.
    { pose proof (Z.div_mod b 8). pose proof (Z.mod_pos_bound b 8). pose proof (Z.div_pos b 8). rewrite Nat2Z.inj_succ, Z2Nat.id by lia. lia. }
    destruct (cleared_shift _ _ _ _ _ _ (free_bytes_spec _ m1 (bmap + i / 8) b (proj1 H1) Hn)) as [Hb2 H2].
    pose proof (Z.div_mod i 8). rewrite H2, (proj2 H1).
    destruct (Z.leb_spec (0 + 8 * (i / 8)) k), (Z.ltb_spec k (b + 8 * (i / 8))), (Z.leb_spec sbit k), (Z.ltb_spec k i), (Z.ltb_spec k (sbit + bcnt)); cbn; done || lia.
  - apply H. pose proof (Z.mod_pos_bound sbit 8). lia.
Qed.

(** ** Looking for a clear bit *)

Definition all_set (m : mem) (bmap a b : Z) : Prop := forall j, a <= j < b -> bit m bmap j = true.

(** [k] is the first clear bit of those from [a] to [b]. *)
Definition first_clear (m : mem) (bmap a b k : Z) : Prop := a <= k < b /\ bit m bmap k = false /\ all_set m bmap a k.

Lemma is_bit_clr_bit m bmap k : ext4_bmap_is_bit_clr m bmap k = negb (bit m bmap k).
Proof. unfold ext4_bmap_is_bit_clr. by rewrite is_bit_set_bit. Qed.

Lemma all_set_app m bmap a b c : all_set m bmap a b -> all_set m bmap b c -> all_set m bmap a c.
Proof. intros H1 H2 j Hj. destruct (Z.ltb_spec j b); [apply H1; lia|apply H2; lia]. Qed.

Lemma all_set_step m bmap i : bit m bmap i = true -> all_set m bmap i (i + 1).
Proof. intros H j Hj. by replace j with i by lia. Qed.

Lemma first_clear_after m bmap a b c k : a <= b -> all_set m bmap a b -> first_clear m bmap b c k -> first_clear m bmap a c k.
Proof. intros H Ha (Hk & Hc & Hs). split_and!; [lia|lia|done|by eapply all_set_app]. Qed.

Lemma find_bits_spec n m bmap i k : k <= i + Z.of_nat n ->
  match find_bits n m bmap i k with Some j => first_clear m bmap i k j | None => all_set m bmap i k end.
Proof.
  revert i. induction n as [|n IH]; intros i Hk; cbn [find_bits]; [intros j Hj; lia|].
  destruct (Z.ltb_spec i k); [|intros j Hj; lia]. rewrite is_bit_clr_bit. destruct (bit m bmap i) eqn:E; cbn [negb].
  - specialize (IH (i + 1) ltac:(lia)). apply all_set_step in E. destruct (find_bits n m bmap (i + 1) k) as [j|].
    + eapply first_clear_after; [|exact E|exact IH]. lia.
    + by eapply all_set_app.
  - split_and!; [lia|lia|done|intros j Hj; lia].
Qed.

Lemma find_byte_spec m bmap i : (if m bmap =? 0xFF then None else find_bits 8 m bmap 0 8) = i ->
  match i with Some j => first_clear m bmap 0 8 j | None => all_set m bmap 0 8 end.
Proof.
  intros <-. destruct (Z.eqb_spec (m bmap) 0xFF) as [E|]; [|apply (find_bits_spec 8 m bmap 0 8); lia].
  intros j Hj. unfold bit. rewrite Z.div_small, Z.mod_small, Z.add_0_r, E by lia. change 0xFF with (Z.ones 8). apply Z.ones_spec_low. lia.
Qed.

(** Seen from the byte [s / 8] of the bitmap. *)
Lemma all_set_shift m bmap s a b : s mod 8 = 0 -> all_set m (bmap + s / 8) a b -> all_set m bmap (s + a) (s + b).
Proof.
  intros Hs H j Hj. pose proof (Z.div_mod s 8). specialize (H (j - s)). rewrite bit_shift in H. replace (j - s + 8 * (s / 8)) with j in H by lia. apply H. lia.
Qed.

Lemma first_clear_shift m bmap s a b k : s mod 8 = 0 -> first_clear m (bmap + s / 8) a b k -> first_clear m bmap (s + a) (s + b) (s + k).
Proof.
  intros Hs (Hk & Hc & Ha). split_and!; [lia|lia| |by apply all_set_shift]. rewrite bit_shift in Hc. pose proof (Z.div_mod s 8).
  by replace (k + 8 * (s / 8)) with (s + k) in Hc by lia.
Qed.

Lemma find_bytes_spec n m bmap sbit bcnt : sbit mod 8 = 0 -> 0 <= bcnt < 8 * Z.of_nat n -> 0 <= sbit -> sbit + bcnt < 2 ^ 32 ->
  match find_bytes n m (bmap + sbit / 8) sbit bcnt with
  | (r, id) => r = EOK /\ first_clear m bmap sbit (sbit + bcnt) id \/ r = ENOSPC /\ all_set m bmap sbit (sbit + bcnt)
  end.
Proof.
  revert sbit bcnt. induction n as [|n IH]; intros sbit bcnt Hs Hn H0 Hw; cbn [find_bytes]; [lia|]. destruct (Z.leb_spec 8 bcnt).
  - pose proof (find_byte_spec m (bmap + sbit / 8) _ eq_refl) as H8. destruct (if _ =? 0xFF then _ else _) as [i|].
    + left. split; [done|]. apply (first_clear_shift _ _ sbit) in H8; [|done]. destruct H8 as (Hk & Hc & Ha). rewrite Z.add_0_r in *. rewrite (wrap_small 32) by lia. split_and!; [lia|lia|done|done].
    + assert (bmap + sbit / 8 + 1 = bmap + (sbit + 8) / 8) as ->.
      { replace (sbit + 8) with (sbit + 1 * 8) by lia. rewrite Z.div_add by lia. lia. }
      apply (all_set_shift _ _ sbit) in H8; [|done]. rewrite Z.add_0_r in H8.
      assert ((sbit + 8) mod 8 = 0) as Hs' by (replace (sbit + 8) with (sbit + 1 * 8) by lia; by rewrite Z.mod_add).
      specialize (IH (sbit + 8) (bcnt - 8) Hs' ltac:(lia) ltac:(lia) ltac:(lia)). rewrite (wrap_small 32 (sbit + 8)) by lia. replace (sbit + 8 + (bcnt - 8)) with (sbit + bcnt) in IH by lia.
      destruct (find_bytes n m _ (sbit + 8) (bcnt - 8)) as [r id]. destruct IH as [[-> IH]|[-> IH]]; [left|right]; (split; [done|]).
      * eapply first_clear_after; [|exact H8|exact IH]. lia.
      * by eapply all_set_app.
  - pose proof (find_bits_spec 8 m (bmap + sbit / 8) 0 bcnt ltac:(lia)) as Hb. destruct (find_bits 8 m _ 0 bcnt) as [i|]; [left|right]; (split; [done|]).
    + apply (first_clear_shift _ _ sbit) in Hb; [|done]. rewrite Z.add_0_r in Hb. rewrite (wrap_small 32) by (destruct Hb; lia). done.
    + apply (all_set_shift _ _ sbit) in Hb; [|done]. by rewrite Z.add_0_r in Hb.
Qed.

(** The first bit of the next byte. *)
Definition next_byte (i : Z) : Z := (i + 7) / 8 * 8.

Lemma next_byte_mod i : next_byte i = if i mod 8 =? 0 then i else i + 8 - i mod 8.
Proof.
  unfold next_byte. pose proof (Z.div_mod i 8). pose proof (Z.mod_pos_bound i 8). destruct (Z.eqb_spec (i mod 8) 0).
  - replace (i + 7) with (7 + i / 8 * 8) by lia. rewrite Z.div_add by lia. change (7 / 8) with 0. lia.
  - replace (i + 7) with (i mod 8 - 1 + (i / 8 + 1) * 8) by lia. rewrite Z.div_add, Z.div_small by lia. lia.
Qed.

Lemma next_byte_step i : i mod 8 <> 0 -> next_byte (i + 1) = next_byte i /\ i + 1 <= next_byte i.
Proof.
  intros Hi. rewrite !next_byte_mod, (proj2 (Z.eqb_neq (i mod 8) 0)) by done.
  pose proof (Z.div_mod i 8). pose proof (Z.mod_pos_bound i 8). pose proof (Z.div_mod (i + 1) 8). pose proof (Z.mod_pos_bound (i + 1) 8).
  destruct (Z.eqb_spec ((i + 1) mod 8) 0); lia.
Qed.

Lemma find_head_spec n m bmap sbit i bcnt : 0 <= bcnt -> 0 <= i -> i + bcnt < 2 ^ 32 -> i mod 8 = 0 \/ 8 <= i mod 8 + Z.of_nat n ->
  match find_head n m bmap sbit i bcnt with
  | inl (r, id) => r = ENOSPC /\ all_set m bmap i (i + bcnt) \/
                   r = EOK /\ id = sbit /\ exists k, first_clear m bmap i (i + bcnt) k /\ k < next_byte i
  | inr (j, b) => j = next_byte i /\ 0 <= b /\ j + b = i + bcnt /\ all_set m bmap i j
  end.
Proof.
  revert i bcnt. induction n as [|n IH]; intros i bcnt Hc Hi Hw Hn; cbn [find_head].
  - pose proof (Z.mod_pos_bound i 8). rewrite next_byte_mod, (proj2 (Z.eqb_eq (i mod 8) 0)) by lia. split_and!; [done|done|done|intros j Hj; lia].
  - rewrite land7. destruct (Z.eqb_spec (i mod 8) 0) as [E|E].
    { rewrite next_byte_mod, E. split_and!; [done|done|done|intros j Hj; lia]. }
    destruct (next_byte_step i E) as [Hnb Hle]. destruct (Z.eqb_spec bcnt 0) as [->|]; [left; split; [done|intros j Hj; lia]|].
    rewrite is_bit_clr_bit. destruct (bit m bmap i) eqn:Hbit; cbn [negb].
    + apply all_set_step in Hbit. assert ((i + 1) mod 8 = 0 \/ 8 <= (i + 1) mod 8 + Z.of_nat n) as Hn'.
      { pose proof (Z.div_mod i 8). pose proof (Z.mod_pos_bound i 8). pose proof (Z.div_mod (i + 1) 8). pose proof (Z.mod_pos_bound (i + 1) 8). lia. }
      rewrite (wrap_small 32 (i + 1)) by lia. specialize (IH (i + 1) (bcnt - 1) ltac:(lia) ltac:(lia) ltac:(lia) Hn'). rewrite Hnb in IH. replace (i + 1 + (bcnt - 1)) with (i + bcnt) in IH by lia.
      destruct (find_head n m bmap sbit (i + 1) (bcnt - 1)) as [[r id]|[j b]].
      * destruct IH as [[-> Ha]|(-> & -> & k & Hk & Hlt)]; [left; split; [done|by eapply all_set_app]|right; split_and!; [done|done|]].
        exists k. split; [|done]. eapply first_clear_after; [|exact Hbit|exact Hk]. lia.
      * destruct IH as (-> & Hb & Hs & Ha). split_and!; [done|done|lia|by eapply all_set_app].
    + right. split_and!; [done|done|]. exists i. split; [split_and!; [lia|lia|done|intros j Hj; lia]|lia].
Qed.

(** C40: ext4_bmap_bit_find_clr finds the first clear bit of a range, or answers
    ENOSPC when every bit of it is set; but when the bit it finds lies before the
    first whole byte of the range, it answers the start of the range in its
    place, whether that bit is clear or not. *)
Theorem bmap_find_clr_first (m : mem) (bmap sbit ebit : Z) : 0 <= sbit <= ebit -> ebit < 2 ^ 32 ->
  let r := ext4_bmap_bit_find_clr m bmap sbit ebit in
  r.1 = ENOSPC /\ all_set m bmap sbit ebit \/
  r.1 = EOK /\ exists k, first_clear m bmap sbit ebit k /\ r.2 = if k <? next_byte sbit then sbit else k.
Proof.
  intros Hle Hw. unfold ext4_bmap_bit_find_clr. rewrite (wrap_small 32 (ebit - sbit)) by lia.
  pose proof (find_head_spec 8 m bmap sbit sbit (ebit - sbit) ltac:(lia) ltac:(lia) ltac:(lia)) as H.
  replace (sbit + (ebit - sbit)) with ebit in H by lia. specialize (H ltac:(pose proof (Z.mod_pos_bound sbit 8); lia)).
  destruct (find_head 8 m bmap sbit sbit (ebit - sbit)) as [[r id]|[i b]].
  - cbn [fst snd]. destruct H as [[-> H]|(-> & -> & k & Hk & Hlt)]; [by left|right]. split; [done|]. exists k. split; [done|]. by rewrite (proj2 (Z.ltb_lt _ _) Hlt).
  - destruct H as (-> & Hb & Hs & Ha).
    assert (sbit <= next_byte sbit) as Hnb by (rewrite next_byte_mod; pose proof (Z.mod_pos_bound sbit 8); case_match; lia).
    rewrite shiftr3. assert (next_byte sbit mod 8 = 0) as Hm by (unfold next_byte; by rewrite Z.mod_mul).
    assert (0 <= b < 8 * Z.of_nat (S (Z.to_nat (b / 8)))) as Hn.
    { pose proof (Z.div_mod b 8). pose proof (Z.mod_pos_bound b 8). pose proof (Z.div_pos b 8). rewrite Nat2Z.inj_succ, Z2Nat.id by lia. lia. }
    pose proof (find_bytes_spec _ m bmap (next_byte sbit) b Hm Hn ltac:(lia) ltac:(lia)) as H2. rewrite Hs in H2. destruct (find_bytes _ m _ _ b) as [r id]. cbn zeta. cbn [fst snd].
    destruct H2 as [[-> H2]|[-> H2]]; [right|left]; (split; [done|]); [|by eapply all_set_app].
    exists id. split; [by eapply first_clear_after|]. destruct H2 as (Hk & _). by rewrite (proj2 (Z.ltb_ge _ _)) by lia.
Qed.

(** ** Witnesses *)

(** Bits 0 to 3 and 5 to 8 are set. *)
Definition demo_bmap : mem := fun a => if a =? 100 then 0xEF else if a =? 101 then 0x01 else 0.

Lemma bmap_bits_free_clears_witness : bit (ext4_bmap_bits_free demo_bmap 100 2 7) 100 8 = false /\ bit (ext4_bmap_bits_free demo_bmap 100 2 7) 100 1 = true.
Proof.
  assert (bytes_ok demo_bmap) as Hb by (intros a; unfold demo_bmap; repeat case_match; lia).
  split; (etrans; [apply (bmap_bits_free_clears demo_bmap 100 2 7); [exact Hb|lia|lia|lia]|reflexivity]).
Defined.

(** From bit 1 on, the clear bit is 4: the answer is 1. *)
Lemma bmap_find_clr_first_witness : ext4_bmap_bit_find_clr demo_bmap 100 1 9 = (EOK, 1) /\ first_clear demo_bmap 100 1 9 4.
Proof.
  destruct (bmap_find_clr_first demo_bmap 100 1 9) as [[H _]|(_ & k & Hk & _)]; [lia|lia|vm_compute in H; discriminate H|].
  split; [reflexivity|]. assert (k = 4) as <-; [|exact Hk]. destruct Hk as (Hr & Hc & Ha).
  assert (forall j, 1 <= j < 9 -> bit demo_bmap 100 j = negb (j =? 4)) as Hd.
  { intros j Hj. assert (j = 1 \/ j = 2 \/ j = 3 \/ j = 4 \/ j = 5 \/ j = 6 \/ j = 7 \/ j = 8) as Hcases by lia. repeat (destruct Hcases as [->|Hcases]; [reflexivity|]). by subst. }
  rewrite Hd in Hc by lia. apply negb_false_iff, Z.eqb_eq in Hc. exact Hc.
Defined.
