(* ===== verification/Snprintf.v ===== *)
(** * kernel/lib/snprintf.c: formatted output

    Output goes through a pointer that advances: [out] is the memory and that
    pointer.  Arguments are the list of the 64-bit words va_arg takes one by
    one.  [None] is a directive without an argument, or a loop that needs more
    turns than the fuel allows. *)
From S2P Require Import Prelude Mem CString.
Abbreviation out := (mem * Z)%type.

(** [*str++ = c] *)
Definition emit (o : out) (c : Z) : out := (mset o.1 o.2 c, o.2 + 1).

Definition is_digit (c : Z) : bool := (48 <=? c) && (c <=? 57).

(** The number, and the address after its last digit. *)
Fixpoint skip_atoi (fuel : nat) (m : mem) (s i : Z) : option (Z * Z) :=
  if is_digit (m s) then
    match fuel with
    | O => None
    | S fuel => skip_atoi fuel m (s + 1) (i32 (i * 10 + m s - 48))
    end
  else Some (i, s).

Definition ZEROPAD : Z := 1.
Definition SIGN : Z := 2.
Definition PLUS : Z := 4.
Definition SPACE : Z := 8.
Definition LEFT : Z := 16.
Definition SPECIAL : Z := 32.
Definition LARGE : Z := 64.

(** ** Numbers *)

Definition chars (s : string) : list Z := map (fun c => Z.of_N (Ascii.N_of_ascii c)) (String.list_ascii_of_string s).
Definition digits_lower : list Z := Eval vm_compute in chars "0123456789abcdefghijklmnopqrstuvwxyz".
Definition digits_upper : list Z := Eval vm_compute in chars "0123456789ABCDEFGHIJKLMNOPQRSTUVWXYZ".

(** [while (num != 0) tmp[i++] = digits[do_div(num, base)];] with [num] as an
    unsigned long.  The fuel is the size of [tmp]. *)
Fixpoint do_div_loop (fuel : nat) (digits : list Z) (num base : Z) (tmp : list Z) : option (list Z) :=
  if num =? 0 then Some tmp
  else
    match fuel with
    | O => None
    | S fuel => do_div_loop fuel digits (num / base) base (tmp ++ [nth (Z.to_nat (num mod base)) digits 0])
    end.

Fixpoint fill (n : nat) (c : Z) (o : out) : out :=
  match n with
  | O => o
  | S n => fill n c (emit o c)
  end.

(** [while (size-- > 0) *str++ = c;] *)
Definition fill_post (c size : Z) (o : out) : out * Z := (fill (Z.to_nat size) c o, i32 (Z.min size 0 - 1)).

Definition number (o : out) (num base size precision type : Z) : option out :=
  let digits := if has_bits type LARGE then digits_upper else digits_lower in
  let type := if has_bits type LEFT then Z.land type (Z.lnot ZEROPAD) else type in
  let c := if has_bits type ZEROPAD then 48 else 32 in
  let '(sign, num, size) :=
    if has_bits type SIGN then
      if num <? 0 then (45, i64 (- num), i32 (size - 1))
      else if has_bits type PLUS then (43, num, i32 (size - 1))
      else if has_bits type SPACE then (32, num, i32 (size - 1))
      else (0, num, size)
    else (0, num, size) in
  let size :=
    if has_bits type SPECIAL then
      if base =? 16 then i32 (size - 2) else if base =? 8 then i32 (size - 1) else size
    else size in
  tmp ← (if num =? 0 then Some [48] else do_div_loop 66 digits (u64 num) base []);
  let i := Z.of_nat (length tmp) in
  let precision := if precision <? i then i else precision in
  let size := i32 (size - precision) in
  let '(o, size) := if negb (has_bits type (ZEROPAD + LEFT)) then fill_post 32 size o else (o, size) in
  let o := if negb (sign =? 0) then emit o sign else o in
  let o :=
    if has_bits type SPECIAL then
      if base =? 8 then emit o 48
      else if base =? 16 then emit (emit o 48) (nth 33 digits 0)
      else o
    else o in
  let '(o, size) := if negb (has_bits type LEFT) then fill_post c size o else (o, size) in
  let o := fill (Z.to_nat (precision - i)) 48 o in
  let o := foldl emit o (rev tmp) in
  Some (fill_post 32 size o).1.

(** ** Directives

    vsprintf and vsnprintf read a directive the same way. *)

Definition flag_of (c : Z) : option Z :=
  if c =? 45 then Some LEFT
  else if c =? 43 then Some PLUS
  else if c =? 32 then Some SPACE
  else if c =? 35 then Some SPECIAL
  else if c =? 48 then Some ZEROPAD
  else None.

(** From the label repeat on. *)
Fixpoint flags_loop (fuel : nat) (m : mem) (fmt flags : Z) : option (Z * Z) :=
  match flag_of (m (fmt + 1)) with
  | Some f =>
    match fuel with
    | O => None
    | S fuel => flags_loop fuel m (fmt + 1) (Z.lor flags f)
    end
  | None => Some (fmt + 1, flags)
  end.

Definition va_arg (args : list Z) : option (Z * list Z) :=
  match args with
  | [] => None
  | a :: args => Some (a, args)
  end.

Definition va_int (args : list Z) : option (Z * list Z) :=
  x ← va_arg args; Some (i32 x.1, x.2).

Record directive := Directive { dflags : Z; field_width : Z; precision : Z; qualifier : Z }.

Definition get_width (fuel : nat) (m : mem) (fmt flags : Z) (args : list Z) : option (Z * Z * Z * list Z) :=
  if is_digit (m fmt) then
    x ← skip_atoi fuel m fmt 0; Some (x.2, flags, x.1, args)
  else if m fmt =? 42 then
    x ← va_int args;
    if x.1 <? 0 then Some (fmt + 1, Z.lor flags LEFT, i32 (- x.1), x.2) else Some (fmt + 1, flags, x.1, x.2)
  else Some (fmt, flags, -1, args).

Definition get_precision (fuel : nat) (m : mem) (fmt : Z) (args : list Z) : option (Z * Z * list Z) :=
  if m fmt =? 46 then
    let fmt := fmt + 1 in
    x ← (if is_digit (m fmt) then x ← skip_atoi fuel m fmt 0; Some (x.2, x.1, args)
         else if m fmt =? 42 then x ← va_int args; Some (fmt + 1, x.1, x.2)
         else Some (fmt, -1, args));
    let '(fmt, p, args) := x in
    Some (fmt, if p <? 0 then 0 else p, args)
  else Some (fmt, -1, args).

Definition get_directive (fuel : nat) (m : mem) (fmt : Z) (args : list Z) : option (Z * directive * list Z) :=
  x ← flags_loop fuel m fmt 0;
  let '(fmt, flags) := x in
  x ← get_width fuel m fmt flags args;
  let '(fmt, flags, width, args) := x in
  x ← get_precision fuel m fmt args;
  let '(fmt, prec, args) := x in
  let q := if (m fmt =? 108) || (m fmt =? 76) then m fmt else -1 in
  Some (if q =? -1 then fmt else fmt + 1, Directive flags width prec q, args).

(** The base of an integer conversion and the flags it adds. *)
Definition int_conv (c : Z) : option (Z * Z) :=
  if c =? 111 then Some (8, 0)
  else if c =? 88 then Some (16, LARGE)
  else if c =? 120 then Some (16, 0)
  else if (c =? 100) || (c =? 105) then Some (10, SIGN)
  else if c =? 117 then Some (10, 0)
  else None.

(** The argument of an integer conversion, as the long number takes. *)
Definition int_arg (q flags : Z) (args : list Z) : option (Z * list Z) :=
  x ← va_arg args;
  Some (if q =? 108 then i64 x.1 else if has_bits flags SIGN then i32 x.1 else u32 x.1, x.2).

Section Printf.
(** The literal that is printed for a null pointer. *)
Context (null_str : Z).

(** ** vsprintf *)

(** [while (--field_width > 0) *str++ = ' ';] *)
Definition fill_pre (w : Z) (o : out) : out * Z := (fill (Z.to_nat (w - 1)) 32 o, if 0 <? w then 0 else i32 (w - 1)).
(** [while (len < field_width--) *str++ = ' ';] *)
Definition fill_str (len w : Z) (o : out) : out * Z := (fill (Z.to_nat (w - len)) 32 o, i32 (Z.min w len - 1)).

(** [for (i = 0; i < len; ++i) *str++ = *s++;] *)
Fixpoint copy_str (n : nat) (s : Z) (o : out) : out :=
  match n with
  | O => o
  | S n => copy_str n (s + 1) (emit o (o.1 s))
  end.

Definition str_arg (args : list Z) : option (Z * list Z) :=
  x ← va_arg args; Some (if x.1 =? 0 then null_str else x.1, x.2).

(** [*ip = (str - buf);] *)
Definition put_count (q buf ip : Z) (o : out) : out :=
  (if q =? 108 then store64 o.1 ip (o.2 - buf) else store o.1 ip 4 (i32 (o.2 - buf)), o.2).

(** A directive, from the character after the percent sign to its last one. *)
Definition print_directive (fuel : nat) (buf fmt : Z) (args : list Z) (o : out) : option (out * Z * list Z) :=
  x ← get_directive fuel o.1 fmt args;
  let '(fmt, d, args) := x in
  let c := o.1 fmt in
  let left := has_bits (dflags d) LEFT in
  if c =? 99 then
    let '(o, w) := if negb left then fill_pre (field_width d) o else (o, field_width d) in
    x ← va_int args;
    Some ((fill_pre w (emit o (u8 x.1))).1, fmt, x.2)
  else if c =? 115 then
    x ← str_arg args;
    let len := i32 (strnlen o.1 x.1 (u64 (precision d))) in
    let '(o, w) := if negb left then fill_str len (field_width d) o else (o, field_width d) in
    Some ((fill_str len w (copy_str (Z.to_nat len) x.1 o)).1, fmt, x.2)
  else if c =? 112 then
    x ← va_arg args;
    let '(w, flags) := if field_width d =? -1 then (16, Z.lor (dflags d) ZEROPAD) else (field_width d, dflags d) in
    o ← number o (i64 x.1) 16 w (precision d) flags;
    Some (o, fmt, x.2)
  else if c =? 110 then
    x ← va_arg args;
    Some (put_count (qualifier d) buf x.1 o, fmt, x.2)
  else
    match int_conv c with
    | Some (base, f) =>
      x ← int_arg (qualifier d) (Z.lor (dflags d) f) args;
      o ← number o x.1 base (field_width d) (precision d) (Z.lor (dflags d) f);
      Some (o, fmt, x.2)
    | None =>
      let o := if negb (c =? 37) then emit o 37 else o in
      Some (if negb (c =? 0) then (emit o c, fmt, args) else (o, fmt - 1, args))
    end.

(** One unit of fuel per turn: a turn consumes a byte of the format. *)
Fixpoint vsprintf_loop (fuel : nat) (buf fmt : Z) (args : list Z) (o : out) : option out :=
  if o.1 fmt =? 0 then Some o
  else
    match fuel with
    | O => None
    | S fuel =>
      if negb (o.1 fmt =? 37) then vsprintf_loop fuel buf (fmt + 1) args (emit o (o.1 fmt))
      else
        x ← print_directive fuel buf fmt args o;
        let '(o, fmt, args) := x in
        vsprintf_loop fuel buf (fmt + 1) args o
    end.

(** The memory and the result. *)
Definition vsprintf (fuel : nat) (m : mem) (buf fmt : Z) (args : list Z) : option (mem * Z) :=
  o ← vsprintf_loop fuel buf fmt args (m, buf);
  Some (mset o.1 o.2 0, i32 (o.2 - buf)).

Definition sprintf (fuel : nat) (m : mem) (buf fmt : Z) (args : list Z) : option (mem * Z) := vsprintf fuel m buf fmt args.

(** ** vsnprintf *)

(** The output, write_cnt, and whether the label finish was jumped to: from
    then on nothing is written. *)
Record bounded := Bounded { bout : out; write_cnt : Z; finished : bool }.

Definition vsnprintf_writechar (size : Z) (b : bounded) (c : Z) : bounded :=
  if finished b then b
  else
    let n := i32 (write_cnt b + 1) in
    Bounded (emit (bout b) c) n (i32 (size - 1) <=? n).

Fixpoint nfill (size : Z) (n : nat) (c : Z) (b : bounded) : bounded :=
  match n with
  | O => b
  | S n => nfill size n c (vsnprintf_writechar size b c)
  end.

Fixpoint ncopy_str (size : Z) (n : nat) (s : Z) (b : bounded) : bounded :=
  match n with
  | O => b
  | S n => ncopy_str size n (s + 1) (vsnprintf_writechar size b ((bout b).1 s))
  end.

Definition nset_out (b : bounded) (o : out) : bounded := Bounded o (write_cnt b) (finished b).

Definition nprint_directive (fuel : nat) (size buf fmt : Z) (args : list Z) (b : bounded) : option (bounded * Z * list Z) :=
  let m := (bout b).1 in
  x ← get_directive fuel m fmt args;
  let '(fmt, d, args) := x in
  let c := m fmt in
  let left := has_bits (dflags d) LEFT in
  if c =? 99 then
    let '(b, w) := if negb left then (nfill size (Z.to_nat (field_width d - 1)) 32 b, if 0 <? field_width d then 0 else i32 (field_width d - 1))
                   else (b, field_width d) in
    x ← va_int args;
    Some (nfill size (Z.to_nat (w - 1)) 32 (vsnprintf_writechar size b (u8 x.1)), fmt, x.2)
  else if c =? 115 then
    x ← str_arg args;
    let len := i32 (strnlen m x.1 (u64 (precision d))) in
    let '(b, w) := if negb left then (nfill size (Z.to_nat (field_width d - len)) 32 b, i32 (Z.min (field_width d) len - 1))
                   else (b, field_width d) in
    Some (nfill size (Z.to_nat (w - len)) 32 (ncopy_str size (Z.to_nat len) x.1 b), fmt, x.2)
  else if c =? 112 then
    x ← va_arg args;
    let '(w, flags) := if field_width d =? -1 then (16, Z.lor (dflags d) ZEROPAD) else (field_width d, dflags d) in
    o ← number (bout b) (i64 x.1) 16 w (precision d) flags;
    let n := if i32 (size - 1 - write_cnt b) <=? w then 0 else i32 (write_cnt b - w) in
    Some (Bounded o n (n =? 0), fmt, x.2)
  else if c =? 110 then
    x ← va_arg args;
    Some (nset_out b (put_count (qualifier d) buf x.1 (bout b)), fmt, x.2)
  else
    match int_conv c with
    | Some (base, f) =>
      x ← int_arg (qualifier d) (Z.lor (dflags d) f) args;
      o ← number (bout b) x.1 base (field_width d) (precision d) (Z.lor (dflags d) f);
      Some (nset_out b o, fmt, x.2)
    | None =>
      let b := if negb (c =? 37) then vsnprintf_writechar size b 32 else b in
      Some (if negb (c =? 0) then (vsnprintf_writechar size b c, fmt, args) else (b, fmt - 1, args))
    end.

Fixpoint vsnprintf_loop (fuel : nat) (size buf fmt : Z) (args : list Z) (b : bounded) : option bounded :=
  if finished b then Some b
  else if (bout b).1 fmt =? 0 then Some b
  else
    match fuel with
    | O => None
    | S fuel =>
      if negb ((bout b).1 fmt =? 37) then vsnprintf_loop fuel size buf (fmt + 1) args (vsnprintf_writechar size b ((bout b).1 fmt))
      else
        x ← nprint_directive fuel size buf fmt args b;
        let '(b, fmt, args) := x in
        vsnprintf_loop fuel size buf (fmt + 1) args b
    end.

Definition vsnprintf (fuel : nat) (m : mem) (buf size fmt : Z) (args : list Z) : option (mem * Z) :=
  if size =? 0 then Some (m, 0)
  else
    b ← vsnprintf_loop fuel size buf fmt args (Bounded (m, buf) 0 false);
    let o := bout b in
    Some (mset o.1 o.2 0, if o.2 - buf <? size then o.2 - buf else size).

Definition snprintf (fuel : nat) (m : mem) (buf size fmt : Z) (args : list Z) : option (mem * Z) := vsnprintf fuel m buf size fmt args.
End Printf.

(** * What formatted output prints

    The text of a number, of a directive and of a whole format is defined apart
    from the code, as lists of characters; vsprintf writes exactly that text.
    The parser of decimal numbers reads back what was printed. *)

(** ** Writing a list of characters *)

Definition put (o : out) (l : list Z) : out := foldl emit o l.

Lemma put_app o l1 l2 : put o (l1 ++ l2) = put (put o l1) l2.
Proof. apply foldl_app. Qed.

Lemma put_addr o l : (put o l).2 = o.2 + Z.of_nat (length l).
Proof. revert o. induction l as [|c l IH]; intros o; cbn [put foldl length]; [lia|]. change (foldl emit ?a ?b) with (put a b). rewrite IH. cbn [emit snd]. lia. Qed.

Lemma put_out o l x : x < o.2 \/ o.2 + Z.of_nat (length l) <= x -> (put o l).1 x = o.1 x.
Proof.
  revert o. induction l as [|c l IH]; intros o Hx; [done|]. cbn [put foldl length] in *. change (foldl emit ?a ?b) with (put a b).
  rewrite IH by (cbn [emit snd]; lia). apply mset_ne. lia.
Qed.

Lemma put_in o l i c : l !! i = Some c -> (put o l).1 (o.2 + Z.of_nat i) = u8 c.
Proof.
  revert o i. induction l as [|d l IH]; intros o i Hi; [done|]. cbn [put foldl]. change (foldl emit ?a ?b) with (put a b). destruct i as [|i].
  - injection Hi as ->. rewrite put_out by (cbn [emit snd]; lia). rewrite Z.add_0_r. apply mset_eq.
  - specialize (IH (emit o d) i Hi). cbn [emit snd] in IH. rewrite <- IH. f_equal. lia.
Qed.

Lemma fill_put n c o : fill n c o = put o (replicate n c).
Proof. revert o. induction n as [|n IH]; intros o; [done|]. cbn [fill replicate put foldl]. apply IH. Qed.

(** ** Digits *)

(** Least significant digit first. *)
Fixpoint lsd (fuel : nat) (base n : Z) : list Z :=
  match fuel with
  | O => []
  | S fuel => if n =? 0 then [] else n mod base :: lsd fuel base (n / base)
  end.

Fixpoint value (base : Z) (l : list Z) : Z :=
  match l with
  | [] => 0
  | d :: l => d + base * value base l
  end.

Lemma lsd_value fuel base n : 2 <= base -> 0 <= n < base ^ Z.of_nat fuel -> value base (lsd fuel base n) = n.
Proof.
  intros Hb. revert n. induction fuel as [|fuel IH]; intros n Hn; cbn [lsd value]; [change (Z.of_nat 0) with 0 in Hn; rewrite Z.pow_0_r in Hn; lia|].
  destruct (Z.eqb_spec n 0) as [->|Hz]; [done|]. cbn [value]. rewrite IH; [pose proof (Z.div_mod n base); lia|].
  rewrite Nat2Z.inj_succ, Z.pow_succ_r in Hn by lia. split; [apply Z.div_pos; lia|apply Z.div_lt_upper_bound; lia].
Qed.

Lemma lsd_range fuel base n : 2 <= base -> Forall (fun d => 0 <= d < base) (lsd fuel base n).
Proof.
  intros Hb. revert n. induction fuel as [|fuel IH]; intros n; cbn [lsd]; [done|]. destruct (n =? 0); [done|]. constructor; [apply Z.mod_pos_bound; lia|done].
Qed.

Lemma lsd_length fuel base n : (length (lsd fuel base n) <= fuel)%nat.
Proof. revert n. induction fuel as [|fuel IH]; intros n; cbn [lsd]; [done|]. destruct (n =? 0); cbn [length]; [lia|]. specialize (IH (n / base)). lia. Qed.

Definition digit_char (large : bool) (d : Z) : Z := nth (Z.to_nat d) (if large then digits_upper else digits_lower) 0.

Lemma do_div_loop_spec (large : bool) fuel base n tmp :
  2 <= base -> 0 <= n < base ^ Z.of_nat fuel ->
  do_div_loop fuel (if large then digits_upper else digits_lower) n base tmp = Some (tmp ++ map (digit_char large) (lsd fuel base n)).
Proof.
  intros Hb. revert n tmp. induction fuel as [|fuel IH]; intros n tmp Hn; cbn [do_div_loop lsd].
  - change (Z.of_nat 0) with 0 in Hn. rewrite Z.pow_0_r in Hn. replace n with 0 by lia. cbn [Z.eqb map]. by rewrite app_nil_r.
  - destruct (Z.eqb_spec n 0) as [->|Hz]; [cbn [map]; by rewrite app_nil_r|]. rewrite IH; [cbn [map]; by rewrite <- app_assoc|].
    rewrite Nat2Z.inj_succ, Z.pow_succ_r in Hn by lia. split; [apply Z.div_pos; lia|apply Z.div_lt_upper_bound; lia].
Qed.

(** ** The text of a number *)

(** 66 is more than the 64 binary digits of an unsigned long. *)
Definition numeral (large : bool) (base n : Z) : list Z :=
  if n =? 0 then [48] else rev (map (digit_char large) (lsd 66 base n)).

Definition sign_text (num type : Z) : list Z :=
  if has_bits type SIGN then
    if num <? 0 then [45] else if has_bits type PLUS then [43] else if has_bits type SPACE then [32] else []
  else [].

Definition prefix_text (base type : Z) : list Z :=
  if has_bits type SPECIAL then
    if base =? 16 then [48; if has_bits type LARGE then 88 else 120] else if base =? 8 then [48] else []
  else [].

Definition magnitude (num type : Z) : Z := if has_bits type SIGN then Z.abs num else u64 num.

(** At least [prec] digits, in a field of at least [width] characters. *)
Definition number_text (num base width prec type : Z) : list Z :=
  let sign := sign_text num type in
  let prefix := prefix_text base type in
  let ds := numeral (has_bits type LARGE) base (magnitude num type) in
  let body := replicate (Z.to_nat (prec - Z.of_nat (length ds))) 48 ++ ds in
  let pad := Z.to_nat (width - Z.of_nat (length (sign ++ prefix ++ body))) in
  if has_bits type LEFT then sign ++ prefix ++ body ++ replicate pad 32
  else if has_bits type ZEROPAD then sign ++ prefix ++ replicate pad 48 ++ body
  else replicate pad 32 ++ sign ++ prefix ++ body.

Lemma has_bits_lor x a b : has_bits x (Z.lor a b) = has_bits x a || has_bits x b.
Proof.
  unfold has_bits. rewrite Z.land_lor_distr_r. destruct (Z.eqb_spec (Z.land x a) 0) as [->|Ha]; [by rewrite Z.lor_0_l|].
  cbn [negb orb]. destruct (Z.eqb_spec (Z.lor (Z.land x a) (Z.land x b)) 0) as [H|H]; [|done]. apply Z.lor_eq_0_iff in H. tauto.
Qed.

Lemma has_bits_lor_l x y a : has_bits (Z.lor x y) a = has_bits x a || has_bits y a.
Proof. unfold has_bits at 1. rewrite Z.land_comm. fold (has_bits a (Z.lor x y)). rewrite has_bits_lor. unfold has_bits. by rewrite !(Z.land_comm a). Qed.

Lemma has_bits_clear x a b : Z.land a b = 0 -> has_bits (Z.land x (Z.lnot a)) b = has_bits x b.
Proof.
  intros H. unfold has_bits. do 2 f_equal. rewrite <- Z.land_assoc. f_equal. rewrite Z.land_comm, <- Z.ldiff_land.
  apply Z.bits_inj'. intros n Hn. rewrite Z.ldiff_spec. apply (f_equal (fun y => Z.testbit y n)) in H. rewrite Z.land_spec, Z.bits_0 in H.
  destruct (Z.testbit a n), (Z.testbit b n); done.
Qed.

Lemma has_bits_cleared x a : has_bits (Z.land x (Z.lnot a)) a = false.
Proof. unfold has_bits. rewrite <- Z.land_assoc, (Z.land_comm (Z.lnot a)), Z.land_lnot_diag, Z.land_0_r. done. Qed.

(** The sign, the number without it, and what it takes of the field. *)
Lemma sign_step num size type :
  - 2 ^ 63 <= num < 2 ^ 63 -> - 2 ^ 30 <= size < 2 ^ 30 ->
  exists s n,
    (if has_bits type SIGN then
       if num <? 0 then (45, i64 (- num), i32 (size - 1))
       else if has_bits type PLUS then (43, num, i32 (size - 1))
       else if has_bits type SPACE then (32, num, i32 (size - 1))
       else (0, num, size)
     else (0, num, size)) = (s, n, size - Z.of_nat (length (sign_text num type))) /\
    sign_text num type = (if negb (s =? 0) then [s] else []) /\ u64 n = magnitude num type /\ (n =? 0) = (magnitude num type =? 0).
Proof.
  intros Hn Hs. unfold sign_text, magnitude. assert (Hi : i32 (size - 1) = size - 1) by (apply sint_small; lia). rewrite Hi.
  destruct (has_bits type SIGN).
  - destruct (Z.ltb_spec num 0).
    + exists 45, (i64 (- num)). split; [done|]. split; [done|]. destruct (decide (num = - 2 ^ 63)) as [->|Hm]; [done|].
      rewrite sint_small, wrap_small by lia. rewrite Z.abs_neq by lia. done.
    + rewrite Z.abs_eq by lia. assert (Hw : u64 num = num) by (apply wrap_small; lia).
      destruct (has_bits type PLUS); [by exists 43, num|]. destruct (has_bits type SPACE); [by exists 32, num|]. exists 0, num. cbn [length]. by rewrite Z.sub_0_r.
  - exists 0, num. cbn [length]. rewrite Z.sub_0_r. split; [done|]. split; [done|]. split; [done|].
    destruct (Z.eqb_spec num 0) as [->|]; [done|]. symmetry. apply Z.eqb_neq. unfold wrap. Z.to_euclidean_division_equations. lia.
Qed.

Lemma prefix_step base size type o :
  - 2 ^ 30 <= size < 2 ^ 30 ->
  (if has_bits type SPECIAL then if base =? 16 then i32 (size - 2) else if base =? 8 then i32 (size - 1) else size else size)
  = size - Z.of_nat (length (prefix_text base type)) /\
  (if has_bits type SPECIAL then
     if base =? 8 then emit o 48
     else if base =? 16 then emit (emit o 48) (nth 33 (if has_bits type LARGE then digits_upper else digits_lower) 0)
     else o
   else o) = put o (prefix_text base type).
Proof.
  intros Hs. unfold prefix_text. destruct (has_bits type SPECIAL); [|cbn [length]; split; [lia|done]].
  destruct (Z.eqb_spec base 16) as [->|]; cbn [Z.eqb Pos.eqb].
  - cbn [length]. split; [apply sint_small; lia|]. by destruct (has_bits type LARGE).
  - destruct (base =? 8); cbn [length]; (split; [rewrite ?sint_small; lia|done]).
Qed.

Lemma magnitude_range num type : - 2 ^ 63 <= num < 2 ^ 63 -> 0 <= magnitude num type < 2 ^ 64.
Proof. intros H. unfold magnitude. destruct (has_bits type SIGN); [lia|]. apply (wrap_range 64). lia. Qed.

(** The digits the loop collects. *)
Lemma digits_step (large : bool) base n (z : bool) :
  2 <= base -> 0 <= n < 2 ^ 64 -> z = (n =? 0) ->
  (if z then Some [48] else do_div_loop 66 (if large then digits_upper else digits_lower) n base []) = Some (rev (numeral large base n)) /\
  1 <= Z.of_nat (length (numeral large base n)) <= 66.
Proof.
  intros Hb Hn ->. unfold numeral. destruct (Z.eqb_spec n 0) as [|Hz]; [by split|].
  assert (Hp : 0 <= n < base ^ Z.of_nat 66).
  { split; [lia|]. eapply Z.lt_le_trans; [apply Hn|]. etrans; [|apply (Z.pow_le_mono_l 2); lia]. done. }
  rewrite do_div_loop_spec, rev_involutive, length_rev, length_map by done. split; [done|].
  pose proof (lsd_length 66 base n). pose proof (lsd_value 66 base n Hb Hp) as Hv. destruct (lsd 66 base n); [cbn [value] in Hv; lia|cbn [length] in *; lia].
Qed.

(** The flags after left justification has cancelled zero padding. *)
Lemma left_flags type b :
  has_bits (if has_bits type LEFT then Z.land type (Z.lnot ZEROPAD) else type) b =
  if decide (b = ZEROPAD) then has_bits type ZEROPAD && negb (has_bits type LEFT)
  else if decide (Z.land ZEROPAD b = 0) then has_bits type b
  else has_bits (if has_bits type LEFT then Z.land type (Z.lnot ZEROPAD) else type) b.
Proof.
  case_decide as Hb; [subst|case_decide as Hz; [|done]].
  - destruct (has_bits type LEFT); [by rewrite has_bits_cleared, andb_false_r|by rewrite andb_true_r].
  - destruct (has_bits type LEFT); [|done]. by apply has_bits_clear.
Qed.

Lemma put_opt o (b : bool) c : (if b then emit o c else o) = put o (if b then [c] else []).
Proof. by destruct b. Qed.

Lemma number_eq o num base width prec type :
  2 <= base -> - 2 ^ 63 <= num < 2 ^ 63 -> -1 <= width < 2 ^ 29 -> -1 <= prec < 2 ^ 29 ->
  number o num base width prec type = Some (put o (number_text num base width prec type)).
Proof.
  intros Hb Hn Hw Hp. unfold number.
  set (ty := if has_bits type LEFT then Z.land type (Z.lnot ZEROPAD) else type).
  assert (Hfl : forall b, b ∈ [SIGN; PLUS; SPACE; LEFT; SPECIAL; LARGE] -> has_bits ty b = has_bits type b).
  { intros b Hin. unfold ty. rewrite left_flags. rewrite !elem_of_cons, elem_of_nil in Hin. destruct Hin as [->|[->|[->|[->|[->|[->|[]]]]]]]; done. }
  assert (Hz : has_bits ty ZEROPAD = has_bits type ZEROPAD && negb (has_bits type LEFT)) by (unfold ty; by rewrite left_flags).
  change (ZEROPAD + LEFT) with (Z.lor ZEROPAD LEFT). rewrite has_bits_lor, Hz.
  rewrite !Hfl by (rewrite !elem_of_cons; tauto). clear Hfl Hz. clearbody ty.
  destruct (sign_step num width type Hn ltac:(lia)) as (s & n & -> & Hs & Hu & Hzero). rewrite Hu, Hzero.
  assert (Hls : 0 <= Z.of_nat (length (sign_text num type)) <= 1) by (rewrite Hs; destruct (negb (s =? 0)); cbn [length]; lia).
  assert (Hlp : 0 <= Z.of_nat (length (prefix_text base type)) <= 2).
  { unfold prefix_text. destruct (has_bits type SPECIAL); [|cbn [length]; lia]. destruct (base =? 16); [cbn [length]; lia|]. destruct (base =? 8); cbn [length]; lia. }
  rewrite (proj1 (prefix_step base (width - Z.of_nat (length (sign_text num type))) type o ltac:(lia))).
  destruct (digits_step (has_bits type LARGE) base (magnitude num type) _ Hb (magnitude_range num type Hn) eq_refl) as [-> Hlen].
  cbn [mbind option_bind]. rewrite length_rev, rev_involutive. unfold number_text. set (ds := numeral _ _ _) in *.
  set (pr := if prec <? Z.of_nat (length ds) then Z.of_nat (length ds) else prec).
  assert (Hpr : Z.max prec (Z.of_nat (length ds)) = pr) by (unfold pr; destruct (Z.ltb_spec prec (Z.of_nat (length ds))); lia).
  assert (Hrep : Z.to_nat (pr - Z.of_nat (length ds)) = Z.to_nat (prec - Z.of_nat (length ds))) by lia. clearbody pr.
  set (body := replicate (Z.to_nat (prec - Z.of_nat (length ds))) 48 ++ ds).
  assert (Hbody : Z.of_nat (length body) = pr) by (unfold body; rewrite length_app, length_replicate; lia).
  set (size := width - _ - _). assert (Hsz : i32 (size - pr) = width - Z.of_nat (length (sign_text num type ++ prefix_text base type ++ body))).
  { rewrite !length_app, !Nat2Z.inj_add, Hbody. unfold size. rewrite sint_small; lia. }
  rewrite Hsz. set (pad := width - Z.of_nat (length _)).
  assert (Hpad : - 2 ^ 30 <= pad < 2 ^ 30) by (unfold pad; rewrite !length_app, !Nat2Z.inj_add, Hbody; lia). clearbody pad size.
  assert (Hneg : Z.to_nat (i32 (Z.min pad 0 - 1)) = 0%nat) by (rewrite sint_small; lia).
  assert (Hneg2 : Z.to_nat (i32 (Z.min (i32 (Z.min pad 0 - 1)) 0 - 1)) = 0%nat) by (rewrite (sint_small 32 (Z.min pad 0 - 1)), sint_small; lia).
  unfold fill_post. change (foldl emit) with put.
  destruct (has_bits type LEFT), (has_bits type ZEROPAD); cbn [negb andb orb];
    rewrite ?put_opt, <- Hs, (proj2 (prefix_step base 0 type _ ltac:(lia))), !fill_put, ?Hneg2, ?Hneg, <- !put_app, ?Hrep;
    unfold body; cbn [replicate fst]; rewrite ?app_assoc, ?app_nil_r; done.
Qed.

(** ** Reading decimal numbers *)

Definition dec (n : Z) : list Z := numeral false 10 n.

(** The number a run of digits stands for, most significant digit first. *)
Definition reads (i : Z) (l : list Z) : Z := foldl (fun i c => i * 10 + c - 48) i l.

Lemma reads_mono i l : 0 <= i -> Forall (fun c => is_digit c = true) l -> i <= reads i l.
Proof.
  unfold reads. revert i. induction l as [|c l IH]; intros i Hi Hl; cbn [foldl]; [lia|]. apply Forall_cons in Hl as [Hc Hl]. unfold is_digit in Hc.
  specialize (IH (i * 10 + c - 48) ltac:(lia) Hl). lia.
Qed.

Lemma skip_atoi_spec fuel m s i l rest :
  cstr m s (l ++ rest) -> Forall (fun c => is_digit c = true) l -> is_digit (m (s + Z.of_nat (length l))) = false ->
  0 <= i -> reads i l < 2 ^ 31 -> (length l <= fuel)%nat -> skip_atoi fuel m s i = Some (reads i l, s + Z.of_nat (length l)).
Proof.
  revert fuel s i. induction l as [|c l IH]; intros fuel s i Hm Hl Hd Hi Hr Hf; cbn [length] in *.
  - rewrite Z.add_0_r in *. destruct fuel; cbn [skip_atoi]; by rewrite Hd.
  - apply Forall_cons in Hl as [Hc Hl]. cbn [app cstr] in Hm. destruct Hm as (Hs & _ & Hm). destruct fuel as [|fuel]; [lia|].
    cbn [skip_atoi]. rewrite Hs, Hc. cbn [reads foldl] in *. change (foldl _ ?a ?b) with (reads a b) in *.
    assert (0 <= i * 10 + c - 48) by (unfold is_digit in Hc; lia). pose proof (reads_mono (i * 10 + c - 48) l ltac:(lia) Hl).
    rewrite sint_small by lia. rewrite IH; try done; [f_equal; f_equal; lia| |lia].
    rewrite <- Hd. do 2 f_equal. lia.
Qed.

Lemma digit_small d : 0 <= d < 10 -> digit_char false d = d + 48.
Proof.
  intros H. destruct (decide (d = 0)) as [->|]; [done|]. destruct (decide (d = 1)) as [->|]; [done|]. destruct (decide (d = 2)) as [->|]; [done|].
  destruct (decide (d = 3)) as [->|]; [done|]. destruct (decide (d = 4)) as [->|]; [done|]. destruct (decide (d = 5)) as [->|]; [done|].
  destruct (decide (d = 6)) as [->|]; [done|]. destruct (decide (d = 7)) as [->|]; [done|]. destruct (decide (d = 8)) as [->|]; [done|].
  replace d with 9 by lia. done.
Qed.

Lemma dec_digits n : Forall (fun c => is_digit c = true) (dec n).
Proof.
  unfold dec, numeral. destruct (n =? 0); [by repeat constructor|]. apply Forall_rev, Forall_map. eapply Forall_impl; [apply lsd_range; lia|].
  cbn beta. intros d Hd. rewrite digit_small by done. unfold is_digit. apply andb_true_iff. rewrite !Z.leb_le. lia.
Qed.

Lemma reads_app i l1 l2 : reads i (l1 ++ l2) = reads (reads i l1) l2.
Proof. apply foldl_app. Qed.

Lemma reads_value i l : Forall (fun d => 0 <= d < 10) l -> reads i (rev (map (digit_char false) l)) = i * 10 ^ Z.of_nat (length l) + value 10 l.
Proof.
  revert i. induction l as [|d l IH]; intros i Hl; cbn [map rev value length]; [cbn [reads foldl]; rewrite Z.pow_0_r; lia|].
  apply Forall_cons in Hl as [Hd Hl]. rewrite reads_app, IH by done. cbn [reads foldl]. rewrite digit_small, Nat2Z.inj_succ, Z.pow_succ_r by lia. lia.
Qed.

Lemma small_pow n : n < 2 ^ 64 -> n < 10 ^ Z.of_nat 66.
Proof. intros H. eapply Z.lt_le_trans; [exact H|]. apply Z.leb_le. by vm_compute. Qed.

Lemma reads_dec n : 0 <= n < 2 ^ 64 -> reads 0 (dec n) = n.
Proof.
  intros Hn. unfold dec, numeral. destruct (Z.eqb_spec n 0) as [->|]; [done|]. rewrite reads_value by (apply lsd_range; lia).
  rewrite lsd_value; [lia|lia|]. split; [lia|apply small_pow; lia].
Qed.

(** The first digit of a positive number is not zero. *)
Lemma lsd_last fuel base n : 2 <= base -> 0 < n < base ^ Z.of_nat fuel -> exists l d, lsd fuel base n = l ++ [d] /\ d <> 0.
Proof.
  intros Hb. revert n. induction fuel as [|fuel IH]; intros n Hn; [change (Z.of_nat 0) with 0 in Hn; rewrite Z.pow_0_r in Hn; lia|].
  cbn [lsd]. rewrite (proj2 (Z.eqb_neq n 0)) by lia. rewrite Nat2Z.inj_succ, Z.pow_succ_r in Hn by lia.
  destruct (decide (n / base = 0)) as [Hz|Hz].
  - exists [], (n mod base). rewrite Hz. split; [by destruct fuel|]. pose proof (Z.div_mod n base). lia.
  - destruct (IH (n / base)) as (l & d & -> & Hd); [|by exists (n mod base :: l), d].
    pose proof (Z.div_pos n base ltac:(lia) ltac:(lia)). split; [lia|apply Z.div_lt_upper_bound; lia].
Qed.

Lemma dec_head n : 0 < n < 2 ^ 64 -> exists c l, dec n = c :: l /\ 49 <= c <= 57.
Proof.
  intros Hn. unfold dec, numeral. rewrite (proj2 (Z.eqb_neq n 0)) by lia.
  destruct (lsd_last 66 10 n ltac:(lia)) as (l & d & He & Hd); [split; [lia|apply small_pow; lia]|].
  pose proof (lsd_range 66 10 n ltac:(lia)) as Hr. rewrite He in Hr |- *. apply Forall_app in Hr as [_ Hr]. apply Forall_cons in Hr as [Hr _].
  rewrite map_app, rev_app_distr. cbn [map rev app]. rewrite digit_small by (cbn beta in Hr; lia). eexists _, _. split; [reflexivity|lia].
Qed.

(** ** Directives *)

(** A conversion as it is written: flag characters, width, precision, the
    qualifier l, and the conversion character. *)
Record conv := Conv { cflags : list Z; cwidth : option Z; cprec : option Z; clong : bool; cchar : Z }.

Record conv_ok (d : conv) : Prop := {
  co_flags : Forall (fun c => flag_of c <> None) (cflags d);
  co_width : forall w, cwidth d = Some w -> 1 <= w < 2 ^ 29;
  co_prec : forall p, cprec d = Some p -> 0 <= p < 2 ^ 29;
  co_char : cchar d ∈ [99; 115; 112; 111; 88; 120; 100; 105; 117];
}.

Definition width_fmt (d : conv) : list Z := match cwidth d with Some w => dec w | None => [] end.
Definition prec_fmt (d : conv) : list Z := match cprec d with Some p => 46 :: dec p | None => [] end.
Definition tail_fmt (d : conv) : list Z := (if clong d then [108] else []) ++ [cchar d].
Definition conv_fmt (d : conv) : list Z := 37 :: cflags d ++ width_fmt d ++ prec_fmt d ++ tail_fmt d.

Definition flag_bits (f : Z) (l : list Z) : Z := foldl (fun f c => Z.lor f (default 0 (flag_of c))) f l.

Definition conv_directive (d : conv) : directive :=
  Directive (flag_bits 0 (cflags d)) (default (-1) (cwidth d)) (default (-1) (cprec d)) (if clong d then 108 else -1).

Lemma cstr_at m a l1 c l2 : cstr m a (l1 ++ c :: l2) -> m (a + Z.of_nat (length l1)) = c.
Proof. intros H. apply (cstr_lookup m a _ (length l1) c H). by rewrite list_lookup_middle. Qed.

Lemma cstr_skip m a l1 l2 : cstr m a (l1 ++ l2) -> cstr m (a + Z.of_nat (length l1)) l2.
Proof.
  revert a. induction l1 as [|c l1 IH]; intros a H; cbn [app length] in *; [by rewrite Z.add_0_r|]. destruct H as (_ & _ & H).
  replace (a + Z.of_nat (S (length l1))) with (a + 1 + Z.of_nat (length l1)) by lia. by apply IH.
Qed.

Lemma flags_loop_spec fuel m fmt f l c rest :
  cstr m (fmt + 1) (l ++ c :: rest) -> Forall (fun c => flag_of c <> None) l -> flag_of c = None -> (length l <= fuel)%nat ->
  flags_loop fuel m fmt f = Some (fmt + 1 + Z.of_nat (length l), flag_bits f l).
Proof.
  revert fuel fmt f. induction l as [|x l IH]; intros fuel fmt f Hm Hl Hc Hf; cbn [app cstr length] in *.
  - destruct Hm as (Hx & _). destruct fuel; cbn [flags_loop]; rewrite Hx, Hc, Z.add_0_r; done.
  - destruct Hm as (Hx & _ & Hm). apply Forall_cons in Hl as [Hfx Hl]. destruct fuel as [|fuel]; [lia|]. cbn [flags_loop].
    rewrite Hx. destruct (flag_of x) as [b|] eqn:Eb; [|done]. rewrite IH by (done || lia). unfold flag_bits. cbn [foldl]. rewrite Eb. cbn [default from_option id].
    do 2 f_equal. lia.
Qed.

(** The characters that may follow the flags, the width and the precision. *)
Lemma tail_head d : conv_ok d -> exists c l, tail_fmt d = c :: l /\ flag_of c = None /\ is_digit c = false /\ c <> 42 /\ c <> 46.
Proof.
  intros [_ _ _ Hc]. unfold tail_fmt. destruct (clong d); [by eexists _, _|]. eexists _, _. split; [reflexivity|].
  rewrite !elem_of_cons, elem_of_nil in Hc. destruct Hc as [->|[->|[->|[->|[->|[->|[->|[->|[->|[]]]]]]]]]]; done.
Qed.

Lemma prec_head d : conv_ok d -> exists c l, prec_fmt d ++ tail_fmt d = c :: l /\ flag_of c = None /\ is_digit c = false /\ c <> 42.
Proof.
  intros Hd. unfold prec_fmt. destruct (cprec d) as [p|]; [by eexists _, _|]. destruct (tail_head d Hd) as (c & l & -> & Hc). cbn [app]. exists c, l. tauto.
Qed.

Lemma width_head d : conv_ok d -> exists c l, width_fmt d ++ prec_fmt d ++ tail_fmt d = c :: l /\ flag_of c = None.
Proof.
  intros Hd. unfold width_fmt. destruct (cwidth d) as [w|] eqn:Ew.
  - destruct (dec_head w) as (c & l & -> & Hc); [pose proof (co_width d Hd w Ew); lia|]. eexists _, _. split; [reflexivity|].
    unfold flag_of. rewrite !(proj2 (Z.eqb_neq _ _)) by lia. done.
  - destruct (prec_head d Hd) as (c & l & -> & Hc). exists c, l. tauto.
Qed.


Lemma get_width_spec fuel m fmt flags args d rest :
  conv_ok d -> cstr m fmt (width_fmt d ++ prec_fmt d ++ tail_fmt d ++ rest) -> (length (width_fmt d) <= fuel)%nat ->
  get_width fuel m fmt flags args = Some (fmt + Z.of_nat (length (width_fmt d)), flags, default (-1) (cwidth d), args).
Proof.
  intros Hd Hm Hf. destruct (prec_head d Hd) as (c & l & He & _ & Hc & Hc42). rewrite (app_assoc (prec_fmt d)), He in Hm. cbn [app] in Hm.
  unfold get_width. pose proof (cstr_at _ _ _ _ _ Hm) as Hat. destruct (cwidth d) as [w|] eqn:Ew; unfold width_fmt in *; rewrite Ew in *.
  - pose proof (co_width d Hd w Ew) as Hw. destruct (dec_head w ltac:(lia)) as (x & y & Hx & Hxr).
    assert (m fmt = x) as Hmx by (rewrite Hx in Hm; apply Hm). rewrite Hmx.
    assert (is_digit x = true) as -> by (unfold is_digit; lia).
    rewrite (skip_atoi_spec fuel m fmt 0 (dec w) (c :: l ++ rest)); rewrite ?reads_dec by lia; try done; [apply dec_digits|by rewrite Hat|lia].
  - cbn [app length] in *. rewrite Z.add_0_r in *. rewrite Hat, Hc, (proj2 (Z.eqb_neq c 42) Hc42). done.
Qed.

Lemma get_precision_spec fuel m fmt args d rest :
  conv_ok d -> cstr m fmt (prec_fmt d ++ tail_fmt d ++ rest) -> (length (prec_fmt d) <= fuel)%nat ->
  get_precision fuel m fmt args = Some (fmt + Z.of_nat (length (prec_fmt d)), default (-1) (cprec d), args).
Proof.
  intros Hd Hm Hf. destruct (tail_head d Hd) as (c & l & He & _ & Hc & Hc42 & Hc46). rewrite He in Hm. cbn [app] in Hm.
  unfold get_precision. pose proof (cstr_at _ _ _ _ _ Hm) as Hat. destruct (cprec d) as [p|] eqn:Ep; unfold prec_fmt in *; rewrite Ep in *.
  - pose proof (co_prec d Hd p Ep) as Hp. cbn [app cstr length] in *. destruct Hm as (-> & _ & Hm). cbn [Z.eqb Pos.eqb]. cbn zeta.
    assert (Hd0 : exists x y, dec p = x :: y) by (destruct (dec p) eqn:E; [pose proof (reads_dec p ltac:(lia)) as Hr; rewrite E in Hr; cbn in Hr; subst p; done|by eexists _, _]).
    destruct Hd0 as (x & y & Hx). pose proof (dec_digits p) as Hall. assert (m (fmt + 1) = x) as Hmx by (rewrite Hx in Hm; apply Hm).
    rewrite Hmx. assert (is_digit x = true) as -> by (rewrite Hx in Hall; by apply Forall_cons in Hall as [? _]).
    rewrite (skip_atoi_spec fuel m (fmt + 1) 0 (dec p) (c :: l ++ rest)); rewrite ?reads_dec by lia; try done; [| |lia|lia].
    + cbn [mbind option_bind fst snd]. rewrite (proj2 (Z.ltb_ge p 0)) by lia. cbn [default from_option id]. do 3 f_equal. lia.
    + rewrite <- Hc, <- Hat. do 2 f_equal. lia.
  - cbn [app length] in *. rewrite Z.add_0_r in *. rewrite Hat, (proj2 (Z.eqb_neq c 46) Hc46). done.
Qed.

Lemma get_directive_spec fuel m fmt args d rest :
  conv_ok d -> cstr m fmt (conv_fmt d ++ rest) -> (length (conv_fmt d) <= S fuel)%nat ->
  get_directive fuel m fmt args = Some (fmt + Z.of_nat (length (conv_fmt d)) - 1, conv_directive d, args) /\
  m (fmt + Z.of_nat (length (conv_fmt d)) - 1) = cchar d.
Proof.
  intros Hd Hm Hf. unfold conv_fmt in *. cbn [app cstr length] in *. destruct Hm as (_ & _ & Hm). rewrite !length_app, !Nat2Z.inj_succ, !Nat2Z.inj_add in *.
  rewrite <- !app_assoc in Hm.
  destruct (width_head d Hd) as (c & l & He & Hc).
  assert (Hrest : width_fmt d ++ prec_fmt d ++ tail_fmt d ++ rest = c :: l ++ rest) by (rewrite app_comm_cons, <- He, <- !app_assoc; done).
  assert (Hm1 : cstr m (fmt + 1) (cflags d ++ c :: l ++ rest)) by (by rewrite <- Hrest).
  unfold get_directive. rewrite (flags_loop_spec fuel m fmt 0 (cflags d) c (l ++ rest) Hm1 (co_flags d Hd) Hc) by lia. cbn [mbind option_bind].
  apply cstr_skip in Hm. rewrite (get_width_spec fuel m _ _ args d rest Hd Hm) by lia. cbn [mbind option_bind].
  apply cstr_skip in Hm. rewrite (get_precision_spec fuel m _ args d rest Hd Hm) by lia. cbn [mbind option_bind].
  apply cstr_skip in Hm. unfold tail_fmt, conv_directive in *. destruct (clong d); cbn [app cstr length] in *.
  - destruct Hm as (-> & _ & Hm & _). cbn [Z.eqb Pos.eqb orb]. split; [do 3 f_equal; lia|]. rewrite <- Hm. f_equal. lia.
  - destruct Hm as (Hm & _). rewrite Hm.
    assert (((cchar d =? 108) || (cchar d =? 76)) = false) as ->.
    { pose proof (co_char d Hd) as Hch. rewrite !elem_of_cons, elem_of_nil in Hch. destruct Hch as [->|[->|[->|[->|[->|[->|[->|[->|[->|[]]]]]]]]]]; done. }
    cbn [Z.eqb Pos.eqb]. split; [do 3 f_equal; lia|]. rewrite <- Hm. f_equal. lia.
Qed.

(** ** The text of a directive *)

Definition justify (left : bool) (w : Z) (l : list Z) : list Z :=
  let pad := replicate (Z.to_nat (w - Z.of_nat (length l))) 32 in
  if left then l ++ pad else pad ++ l.

(** [t] is the text for the argument [a]; a string lies outside of the output,
    which is the range from [lo] to [hi]. *)
Definition conv_prints (m : mem) (lo hi : Z) (d : conv) (a : Z) (t : list Z) : Prop :=
  let flags := flag_bits 0 (cflags d) in
  let width := default (-1) (cwidth d) in
  let prec := default (-1) (cprec d) in
  if cchar d =? 99 then t = justify (has_bits flags LEFT) width [u8 (i32 a)]
  else if cchar d =? 115 then
    exists l, cstr m a l /\ a <> 0 /\ Z.of_nat (length l) < 2 ^ 29 /\ (a + Z.of_nat (length l) < lo \/ hi <= a) /\
      t = justify (has_bits flags LEFT) width (match cprec d with Some p => take (Z.to_nat p) l | None => l end)
  else if cchar d =? 112 then
    t = match cwidth d with
        | Some w => number_text (i64 a) 16 w prec flags
        | None => number_text (i64 a) 16 16 prec (Z.lor flags ZEROPAD)
        end
  else
    exists base f, int_conv (cchar d) = Some (base, f) /\
      t = number_text (if clong d then i64 a else if has_bits (Z.lor flags f) SIGN then i32 a else u32 a) base width prec (Z.lor flags f).

Lemma strnlen_loop_cstr m s sc l n : cstr m sc l -> strnlen_loop m s sc n = sc - s + Z.min (Z.of_nat n) (Z.of_nat (length l)).
Proof.
  revert sc n. induction l as [|c l IH]; intros sc n Hm; cbn [cstr length] in *.
  - destruct n; cbn [strnlen_loop]; rewrite Hm; cbn [Z.eqb]; lia.
  - destruct Hm as (Hc & Hz & Hm). destruct n; cbn [strnlen_loop]; rewrite Hc, (proj2 (Z.eqb_neq c 0) Hz); [lia|]. rewrite IH by done. lia.
Qed.

Lemma copy_str_put l rest s o :
  cstr o.1 s (l ++ rest) -> s + Z.of_nat (length (l ++ rest)) < o.2 \/ o.2 + Z.of_nat (length l) <= s -> copy_str (length l) s o = put o l.
Proof.
  revert s o. induction l as [|c l IH]; intros s o Hm Hd; cbn [length copy_str app cstr] in *; [done|].
  destruct Hm as (Hc & Hz & Hm). rewrite Hc. apply IH; [|cbn [emit snd]; lia]. eapply cstr_ext; [exact Hm|].
  intros x Hx. cbn [emit fst]. symmetry. apply mset_ne. rewrite length_app in *. lia.
Qed.

Lemma cstr_put o l s t : cstr o.1 s l -> s + Z.of_nat (length l) < o.2 \/ o.2 + Z.of_nat (length t) <= s -> cstr (put o t).1 s l.
Proof. intros Hm Hd. eapply cstr_ext; [exact Hm|]. intros x Hx. symmetry. apply put_out. lia. Qed.

Lemma justify_length left w l : Z.of_nat (length (justify left w l)) = Z.max w (Z.of_nat (length l)).
Proof. unfold justify. destruct left; rewrite length_app, length_replicate; lia. Qed.

Lemma i64_range x : - 2 ^ 63 <= i64 x < 2 ^ 63.
Proof. unfold sint. pose proof (Z.mod_pos_bound (x + 2 ^ (64 - 1)) (2 ^ 64) ltac:(lia)). lia. Qed.

Section Directives.
Context (null_str : Z).

(** What is left of the field after the padding on the left takes no more. *)
Lemma print_char o w (left : bool) c :
  -1 <= w < 2 ^ 29 ->
  (let '(o1, w1) := if negb left then fill_pre w o else (o, w) in (fill_pre w1 (emit o1 c)).1) = put o (justify left w [c]).
Proof.
  intros Hw. unfold justify, fill_pre. cbn [length]. change (Z.of_nat 1) with 1. destruct left; cbn [negb fst].
  - by rewrite fill_put.
  - assert (Z.to_nat ((if 0 <? w then 0 else i32 (w - 1)) - 1) = 0%nat) as ->.
    { destruct (Z.ltb_spec 0 w); [done|]. rewrite sint_small; lia. }
    rewrite !fill_put, put_app. done.
Qed.

Lemma print_string o w (left : bool) l rest s :
  -1 <= w < 2 ^ 29 -> Z.of_nat (length l) < 2 ^ 29 -> cstr o.1 s (l ++ rest) ->
  s + Z.of_nat (length (l ++ rest)) < o.2 \/ o.2 + Z.of_nat (length (justify left w l)) <= s ->
  (let '(o1, w1) := if negb left then fill_str (Z.of_nat (length l)) w o else (o, w) in
   (fill_str (Z.of_nat (length l)) w1 (copy_str (Z.to_nat (Z.of_nat (length l))) s o1)).1) = put o (justify left w l).
Proof.
  intros Hw Hl Hm Hd. rewrite Nat2Z.id. rewrite justify_length in Hd. unfold justify, fill_str. destruct left; cbn [negb fst].
  - rewrite (copy_str_put l rest) by (done || lia). by rewrite fill_put, put_app.
  - assert (Z.to_nat (i32 (Z.min w (Z.of_nat (length l)) - 1) - Z.of_nat (length l)) = 0%nat) as -> by (rewrite sint_small; lia).
    rewrite !fill_put, put_app. cbn [replicate put foldl]. change (foldl emit) with put. apply (copy_str_put l rest).
    + apply cstr_put; [done|]. rewrite length_replicate. lia.
    + rewrite put_addr, length_replicate. lia.
Qed.

Lemma conv_width d : conv_ok d -> -1 <= default (-1) (cwidth d) < 2 ^ 29.
Proof. intros Hd. pose proof (co_width d Hd) as H. destruct (cwidth d) as [w|]; cbn [default from_option id]; [specialize (H w eq_refl); lia|lia]. Qed.

Lemma conv_prec d : conv_ok d -> -1 <= default (-1) (cprec d) < 2 ^ 29.
Proof. intros Hd. pose proof (co_prec d Hd) as H. destruct (cprec d) as [p|]; cbn [default from_option id]; [specialize (H p eq_refl); lia|lia]. Qed.

(** The part of a string that is printed. *)
Lemma string_cut d m s l :
  conv_ok d -> cstr m s l -> Z.of_nat (length l) < 2 ^ 29 ->
  exists l1 l2, l = l1 ++ l2 /\ match cprec d with Some p => take (Z.to_nat p) l | None => l end = l1 /\
    i32 (strnlen m s (u64 (default (-1) (cprec d)))) = Z.of_nat (length l1).
Proof.
  intros Hd Hm Hl. unfold strnlen. rewrite (strnlen_loop_cstr m s s l) by done. pose proof (co_prec d Hd) as Hp.
  destruct (cprec d) as [p|]; cbn [default from_option id].
  - specialize (Hp p eq_refl). exists (take (Z.to_nat p) l), (drop (Z.to_nat p) l). split; [by rewrite take_drop|]. split; [done|].
    rewrite length_take, wrap_small, sint_small by lia. lia.
  - exists l, []. split; [by rewrite app_nil_r|]. split; [done|]. assert (Hw : u64 (-1) = 2 ^ 64 - 1) by done. rewrite Hw.
    rewrite Z2Nat.id, sint_small by lia. lia.
Qed.

Lemma int_conv_char d : conv_ok d -> cchar d <> 99 -> cchar d <> 115 -> cchar d <> 112 -> cchar d <> 110 /\ forall base f, int_conv (cchar d) = Some (base, f) -> 2 <= base.
Proof.
  intros Hd H1 H2 H3. pose proof (co_char d Hd) as Hc. rewrite !elem_of_cons, elem_of_nil in Hc.
  destruct Hc as [Hc|[Hc|[Hc|[Hc|[Hc|[Hc|[Hc|[Hc|[Hc|[]]]]]]]]]]; rewrite Hc in *; try congruence; split; try done; intros base f [= <- <-]; lia.
Qed.

Lemma print_directive_spec fuel buf fmt args a d rest t o :
  conv_ok d -> cstr o.1 fmt (conv_fmt d ++ rest) -> (length (conv_fmt d) <= S fuel)%nat ->
  conv_prints o.1 o.2 (o.2 + Z.of_nat (length t)) d a t ->
  print_directive null_str fuel buf fmt (a :: args) o = Some (put o t, fmt + Z.of_nat (length (conv_fmt d)) - 1, args).
Proof.
  intros Hd Hm Hf Ht. destruct (get_directive_spec fuel o.1 fmt (a :: args) d rest Hd Hm Hf) as [Hg Hc].
  pose proof (conv_width d Hd) as Hw. pose proof (conv_prec d Hd) as Hp.
  unfold print_directive. rewrite Hg. cbn [mbind option_bind]. rewrite Hc. unfold conv_directive. cbn [dflags field_width precision qualifier].
  set (flags := flag_bits 0 (cflags d)) in *. unfold conv_prints in Ht. fold flags in Ht.
  destruct (Z.eqb_spec (cchar d) 99) as [|H99].
  { pose proof (print_char o (default (-1) (cwidth d)) (has_bits flags LEFT) (u8 (i32 a)) Hw) as He. rewrite Ht, <- He.
    unfold va_int, va_arg. cbn [mbind option_bind fst snd]. by destruct (negb _). }
  destruct (Z.eqb_spec (cchar d) 115) as [|H115].
  { destruct Ht as (l & Hl & Ha & Hlen & Hdis & Ht). destruct (string_cut d o.1 a l Hd Hl Hlen) as (l1 & l2 & -> & Hcut & Hn). rewrite Hcut in Ht.
    unfold str_arg, va_arg. cbn [mbind option_bind fst snd]. rewrite (proj2 (Z.eqb_neq a 0) Ha), Hn. rewrite Ht in Hdis |- *.
    rewrite length_app in Hlen. rewrite <- (print_string o _ _ l1 l2 a Hw ltac:(lia) Hl Hdis). by destruct (negb _). }
  destruct (Z.eqb_spec (cchar d) 112) as [|H112].
  { unfold va_arg. cbn [mbind option_bind fst snd]. rewrite Ht. clear -Hw Hp Hd. pose proof (co_width d Hd) as Hwd. destruct (cwidth d) as [w|]; cbn [default from_option id] in *.
    - specialize (Hwd w eq_refl). rewrite (proj2 (Z.eqb_neq w (-1))) by lia. rewrite number_eq by (lia || apply i64_range). done.
    - cbn [Z.eqb Pos.eqb]. rewrite number_eq by (lia || apply i64_range). done. }
  destruct (int_conv_char d Hd H99 H115 H112) as [H110 Hbase]. rewrite (proj2 (Z.eqb_neq _ 110) H110).
  destruct Ht as (base & f & Hi & ->). rewrite Hi. specialize (Hbase base f Hi). unfold int_arg, va_arg. cbn [mbind option_bind fst snd].
  assert (((if clong d then 108 else -1) =? 108) = clong d) as -> by by destruct (clong d).
  rewrite number_eq; [done|done| |done|done].
  destruct (clong d); [apply i64_range|]. destruct (has_bits _ SIGN); [pose proof (i32_range a); lia|pose proof (wrap_range 32 a ltac:(lia)); lia].
Qed.
End Directives.
