(* ===== verification/SnprintfFormat.v ===== *)
(** * Whole formats

    A format is a sequence of characters and directives; vsprintf writes the
    text of each piece, vsnprintf as much of it as fits. *)
From S2P Require Import Prelude Mem CString Snprintf.

Inductive piece :=
  | Char (c : Z)
  | Percent
  | Item (d : conv).

Definition piece_fmt (p : piece) : list Z :=
  match p with
  | Char c => [c]
  | Percent => [37; 37]
  | Item d => conv_fmt d
  end.
Definition format (ps : list piece) : list Z := concat (map piece_fmt ps).

Lemma format_cons p ps : format (p :: ps) = piece_fmt p ++ format ps.
Proof. done. Qed.

(** The text of a format for a list of arguments; the output is the range from
    [lo] to [hi]. *)
Inductive renders (m : mem) (lo hi : Z) : list piece -> list Z -> list Z -> Prop :=
  | renders_nil args : renders m lo hi [] args []
  | renders_char c ps args t : c <> 37 -> renders m lo hi ps args t -> renders m lo hi (Char c :: ps) args (c :: t)
  | renders_percent ps args t : renders m lo hi ps args t -> renders m lo hi (Percent :: ps) args (37 :: t)
  | renders_item d ps a args t1 t2 : conv_ok d -> conv_prints m lo hi d a t1 -> renders m lo hi ps args t2 ->
      renders m lo hi (Item d :: ps) (a :: args) (t1 ++ t2).

(** The memories differ at most in the output. *)
Definition same_outside (lo hi : Z) (m m' : mem) : Prop := forall x, x < lo \/ hi <= x -> m' x = m x.

Lemma same_outside_put lo hi m o t :
  same_outside lo hi m o.1 -> lo <= o.2 -> o.2 + Z.of_nat (length t) <= hi -> same_outside lo hi m (put o t).1.
Proof. intros Hs Hl Hh x Hx. rewrite put_out by lia. by apply Hs. Qed.

Lemma conv_prints_in m m' lo hi lo' hi' d a t :
  same_outside lo hi m m' -> lo <= lo' -> hi' <= hi -> conv_prints m lo hi d a t -> conv_prints m' lo' hi' d a t.
Proof.
  intros Hs Hl Hh. unfold conv_prints. destruct (cchar d =? 99); [done|]. destruct (cchar d =? 115); [|done].
  intros (l & Hm & Ha & Hlen & Hd & Ht). exists l. split; [|split; [done|split; [done|split; [lia|done]]]].
  eapply cstr_ext; [exact Hm|]. intros x Hx. symmetry. apply Hs. lia.
Qed.

Lemma cstr_outside lo hi m m' a l :
  same_outside lo hi m m' -> a + Z.of_nat (length l) < lo \/ hi <= a -> cstr m a l -> cstr m' a l.
Proof. intros Hs Hd Hm. eapply cstr_ext; [exact Hm|]. intros x Hx. symmetry. apply Hs. lia. Qed.

Lemma get_directive_percent fuel m fmt args : m (fmt + 1) = 37 -> get_directive fuel m fmt args = Some (fmt + 1, Directive 0 (-1) (-1) (-1), args).
Proof.
  intros Hm. assert (flags_loop fuel m fmt 0 = Some (fmt + 1, 0)) as Hf by (destruct fuel; cbn [flags_loop]; by rewrite Hm).
  unfold get_directive. rewrite Hf. cbn [mbind option_bind]. unfold get_width. rewrite Hm.
  change (is_digit 37) with false. change (37 =? 42) with false. cbn [mbind option_bind]. unfold get_precision. rewrite Hm. change (37 =? 46) with false.
  cbn [mbind option_bind]. rewrite Hm. done.
Qed.

Lemma length_conv_fmt d : 1 <= Z.of_nat (length (conv_fmt d)).
Proof. unfold conv_fmt. cbn [length]. lia. Qed.

Section Formats.
Context (null_str : Z).

Lemma vsprintf_loop_spec buf m lo hi ps args t fmt o fuel :
  renders m lo hi ps args t -> cstr m fmt (format ps) -> fmt + Z.of_nat (length (format ps)) < lo \/ hi <= fmt ->
  same_outside lo hi m o.1 -> lo <= o.2 -> o.2 + Z.of_nat (length t) <= hi -> (length (format ps) <= fuel)%nat ->
  vsprintf_loop null_str fuel buf fmt args o = Some (put o t).
Proof.
  intros Hr. revert fmt o fuel. induction Hr as [args|c ps args t Hc Hr IH|ps args t Hr IH|d ps a args t1 t2 Hok Ht Hr IH];
    intros fmt o fuel Hm Hd Hs Hl Hh Hf; pose proof (cstr_outside _ _ _ _ _ _ Hs Hd Hm) as Hm'; rewrite ?format_cons in *; cbn [piece_fmt] in *.
  - cbn [cstr] in Hm'. destruct fuel; cbn [vsprintf_loop]; rewrite Hm'; done.
  - cbn [app cstr length] in *. destruct Hm' as (Hx & Hz & _). destruct Hm as (_ & _ & Hm). destruct fuel as [|fuel]; [lia|]. cbn [vsprintf_loop].
    rewrite Hx, (proj2 (Z.eqb_neq c 0) Hz), (proj2 (Z.eqb_neq c 37) Hc). cbn [negb]. rewrite IH; [done|done|lia| |cbn [emit snd]; lia|cbn [emit snd]; lia|lia].
    apply (same_outside_put lo hi m o [c]); [done|done|cbn [length]; lia].
  - cbn [app cstr length] in *. destruct Hm' as (Hx & _ & Hy & _). destruct Hm as (_ & _ & _ & _ & Hm). destruct fuel as [|fuel]; [lia|]. cbn [vsprintf_loop].
    rewrite Hx. cbn [Z.eqb Pos.eqb negb]. unfold print_directive. rewrite get_directive_percent by done. cbn [mbind option_bind]. rewrite Hy. cbn -[vsprintf_loop emit put].
    rewrite IH; [done|done|lia| |cbn [emit snd]; lia|cbn [emit snd]; lia|lia]. apply (same_outside_put lo hi m o [37]); [done|done|cbn [length]; lia].
  - pose proof (length_conv_fmt d). rewrite length_app in *. destruct fuel as [|fuel]; [lia|]. cbn [vsprintf_loop].
    assert (o.1 fmt = 37) as -> by apply Hm'. cbn [Z.eqb Pos.eqb negb].
    rewrite (print_directive_spec null_str fuel buf fmt args a d (format ps) t1 o Hok Hm'); [|lia|eapply conv_prints_in; [exact Hs|done|lia|done]].
    cbn [mbind option_bind]. replace (fmt + Z.of_nat (length (conv_fmt d)) - 1 + 1) with (fmt + Z.of_nat (length (conv_fmt d))) by lia.
    rewrite IH; [by rewrite put_app|by apply cstr_skip|lia| |rewrite put_addr; lia|rewrite put_addr; lia|lia].
    apply same_outside_put; [done|done|lia].
Qed.

(** ** Bounded output *)

Definition nput (size : Z) (b : bounded) (l : list Z) : bounded := foldl (vsnprintf_writechar size) b l.

(** What is written after [t] with room for [size - 1] characters. *)
Definition truncated (size : Z) (o : out) (t : list Z) : bounded :=
  Bounded (put o (take (Z.to_nat (size - 1)) t)) (Z.min (Z.of_nat (length t)) (size - 1)) (size - 1 <=? Z.of_nat (length t)).

Lemma truncated_snoc size o t c : 2 <= size < 2 ^ 31 -> vsnprintf_writechar size (truncated size o t) c = truncated size o (t ++ [c]).
Proof.
  intros Hs. unfold vsnprintf_writechar, truncated. cbn [finished bout write_cnt]. rewrite length_app. cbn [length].
  destruct (Z.leb_spec (size - 1) (Z.of_nat (length t))).
  - rewrite (proj2 (Z.leb_le _ _)) by lia. f_equal; [|lia]. by rewrite take_app_le by lia.
  - rewrite !(take_ge t), !take_ge by (rewrite ?length_app; cbn [length]; lia). rewrite put_app. rewrite !sint_small by lia. f_equal; [lia|].
    destruct (Z.leb_spec (size - 1) (Z.min (Z.of_nat (length t)) (size - 1) + 1)), (Z.leb_spec (size - 1) (Z.of_nat (length t + 1))); lia.
Qed.

Lemma truncated_app size o t l : 2 <= size < 2 ^ 31 -> nput size (truncated size o t) l = truncated size o (t ++ l).
Proof.
  intros Hs. revert t. induction l as [|c l IH]; intros t; cbn [nput foldl]; [by rewrite app_nil_r|]. change (foldl _ ?a ?b) with (nput size a b).
  rewrite truncated_snoc, IH, <- app_assoc by done. done.
Qed.

Lemma nput_app size b l1 l2 : nput size b (l1 ++ l2) = nput size (nput size b l1) l2.
Proof. apply foldl_app. Qed.

Lemma nfill_put size n c b : nfill size n c b = nput size b (replicate n c).
Proof. revert b. induction n as [|n IH]; intros b; [done|]. cbn [nfill replicate nput foldl]. apply IH. Qed.

Lemma finished_nput size b l : finished b = true -> nput size b l = b.
Proof. intros Hb. induction l as [|c l IH]; cbn [nput foldl]; [done|]. unfold vsnprintf_writechar at 2. rewrite Hb. exact IH. Qed.

Lemma finished_copy size n s b : finished b = true -> ncopy_str size n s b = b.
Proof. intros Hb. revert s. induction n as [|n IH]; intros s; cbn [ncopy_str]; [done|]. unfold vsnprintf_writechar. rewrite Hb. apply IH. Qed.

Lemma ncopy_str_put size l rest s b :
  cstr (bout b).1 s (l ++ rest) -> s + Z.of_nat (length (l ++ rest)) < (bout b).2 \/ (bout b).2 + Z.of_nat (length l) <= s ->
  ncopy_str size (length l) s b = nput size b l.
Proof.
  revert s b. induction l as [|c l IH]; intros s b Hm Hd; cbn [length app cstr] in *; [done|].
  destruct (finished b) eqn:Hb; [by rewrite finished_copy, finished_nput|].
  cbn [ncopy_str nput foldl]. destruct Hm as (Hc & Hz & Hm). rewrite Hc. unfold vsnprintf_writechar at 1 3. rewrite Hb.
  apply IH; cbn [bout emit fst snd]; [|lia]. eapply cstr_ext; [exact Hm|]. intros x Hx. symmetry. apply mset_ne. rewrite length_app in *. lia.
Qed.

Lemma nput_addr size b l : (bout b).2 <= (bout (nput size b l)).2 <= (bout b).2 + Z.of_nat (length l).
Proof.
  revert b. induction l as [|c l IH]; intros b; cbn [nput foldl length]; [lia|]. change (foldl _ ?a ?b) with (nput size a b).
  specialize (IH (vsnprintf_writechar size b c)). unfold vsnprintf_writechar in *. destruct (finished b); [lia|]. cbn [bout emit snd] in IH. lia.
Qed.

Lemma nput_out size b l x : x < (bout b).2 \/ (bout b).2 + Z.of_nat (length l) <= x -> (bout (nput size b l)).1 x = (bout b).1 x.
Proof.
  revert b. induction l as [|c l IH]; intros b Hx; cbn [nput foldl length] in *; [done|]. change (foldl _ ?a ?b) with (nput size a b).
  destruct (finished b) eqn:Hb.
  - unfold vsnprintf_writechar. rewrite Hb. by rewrite finished_nput.
  - rewrite IH; unfold vsnprintf_writechar; rewrite Hb; cbn [bout emit fst snd]; [apply mset_ne; lia|lia].
Qed.

Lemma nprint_string size b w (left : bool) l rest s :
  -1 <= w < 2 ^ 29 -> Z.of_nat (length l) < 2 ^ 29 -> cstr (bout b).1 s (l ++ rest) ->
  s + Z.of_nat (length (l ++ rest)) < (bout b).2 \/ (bout b).2 + Z.of_nat (length (justify left w l)) <= s ->
  (let len := Z.of_nat (length l) in
   let '(b1, w1) := if negb left then (nfill size (Z.to_nat (w - len)) 32 b, i32 (Z.min w len - 1)) else (b, w) in
   nfill size (Z.to_nat (w1 - len)) 32 (ncopy_str size (Z.to_nat len) s b1)) = nput size b (justify left w l).
Proof.
  intros Hw Hl Hm Hd. rewrite justify_length in Hd. cbn zeta. rewrite Nat2Z.id. unfold justify. destruct left; cbn [negb].
  - rewrite (ncopy_str_put size l rest) by (done || lia). by rewrite nfill_put, nput_app.
  - assert (Z.to_nat (i32 (Z.min w (Z.of_nat (length l)) - 1) - Z.of_nat (length l)) = 0%nat) as -> by (rewrite sint_small; lia).
    rewrite !nfill_put, nput_app. cbn [replicate]. set (pad := replicate _ 32). pose proof (nput_addr size b pad) as Ha.
    assert (Hp : Z.of_nat (length pad) = Z.max 0 (w - Z.of_nat (length l))) by (unfold pad; rewrite length_replicate; lia).
    apply (ncopy_str_put size l rest); [|lia]. eapply cstr_ext; [exact Hm|]. intros x Hx. symmetry. apply nput_out. lia.
Qed.

Lemma nprint_directive_spec fuel size buf fmt args a d rest t b :
  conv_ok d -> cchar d = 99 \/ cchar d = 115 -> cstr (bout b).1 fmt (conv_fmt d ++ rest) -> (length (conv_fmt d) <= S fuel)%nat ->
  conv_prints (bout b).1 (bout b).2 ((bout b).2 + Z.of_nat (length t)) d a t ->
  nprint_directive null_str fuel size buf fmt (a :: args) b = Some (nput size b t, fmt + Z.of_nat (length (conv_fmt d)) - 1, args).
Proof.
  intros Hd Hch Hm Hf Ht. destruct (get_directive_spec fuel (bout b).1 fmt (a :: args) d rest Hd Hm Hf) as [Hg Hc].
  pose proof (conv_width d Hd) as Hw. unfold nprint_directive. cbn zeta. rewrite Hg. cbn [mbind option_bind]. rewrite Hc.
  unfold conv_directive. cbn [dflags field_width precision qualifier]. set (flags := flag_bits 0 (cflags d)) in *. unfold conv_prints in Ht. fold flags in Ht.
  destruct Hch as [Hch|Hch]; rewrite Hch in *; cbn [Z.eqb Pos.eqb] in *.
  - unfold va_int, va_arg. cbn [mbind option_bind fst snd]. rewrite Ht. unfold justify. cbn [length]. change (Z.of_nat 1) with 1.
    destruct (has_bits flags LEFT); cbn [negb]; rewrite !nfill_put, nput_app; [done|].
    set (w := default (-1) (cwidth d)) in *. assert (Z.to_nat ((if 0 <? w then 0 else i32 (w - 1)) - 1) = 0%nat) as ->.
    { destruct (Z.ltb_spec 0 w); [done|]. rewrite sint_small; lia. }
    done.
  - destruct Ht as (l & Hl & Ha & Hlen & Hdis & Ht). destruct (string_cut d (bout b).1 a l Hd Hl Hlen) as (l1 & l2 & -> & Hcut & Hn). rewrite Hcut in Ht.
    unfold str_arg, va_arg. cbn [mbind option_bind fst snd]. rewrite (proj2 (Z.eqb_neq a 0) Ha), Hn. rewrite Ht in Hdis |- *.
    rewrite length_app in Hlen. rewrite <- (nprint_string size b _ _ l1 l2 a Hw ltac:(lia) Hl Hdis). by destruct (negb _).
Qed.

(** No directive prints a number. *)
Definition text_only (p : piece) : Prop := match p with Item d => cchar d = 99 \/ cchar d = 115 | _ => True end.

Lemma truncated_nput size o t l b : 2 <= size < 2 ^ 31 -> b = truncated size o t -> nput size b l = truncated size o (t ++ l).
Proof. intros Hs ->. by apply truncated_app. Qed.

Lemma truncated_same lo hi size m o t :
  same_outside lo hi m o.1 -> lo <= o.2 -> o.2 + Z.of_nat (length t) <= hi -> same_outside lo hi m (bout (truncated size o t)).1.
Proof. intros Hs Hl Hh. cbn [bout truncated]. apply same_outside_put; [done|done|]. rewrite length_take. lia. Qed.

Lemma vsnprintf_loop_spec size buf m lo hi ps args t t0 fmt o fuel :
  2 <= size < 2 ^ 31 -> renders m lo hi ps args t -> Forall text_only ps -> cstr m fmt (format ps) ->
  fmt + Z.of_nat (length (format ps)) < lo \/ hi <= fmt -> same_outside lo hi m o.1 -> lo <= o.2 ->
  o.2 + Z.of_nat (length (t0 ++ t)) <= hi -> (length (format ps) <= fuel)%nat ->
  vsnprintf_loop null_str fuel size buf fmt args (truncated size o t0) = Some (truncated size o (t0 ++ t)).
Proof.
  intros Hsz Hr. revert fmt t0 fuel. induction Hr as [args|c ps args t Hc Hr IH|ps args t Hr IH|d ps a args t1 t2 Hok Ht Hr IH];
    intros fmt t0 fuel Hto Hm Hd Hs Hl Hh Hf; rewrite <- (truncated_app size o t0 _ Hsz); destruct (finished (truncated size o t0)) eqn:Hfin;
    try (by (rewrite finished_nput by done; destruct fuel; cbn [vsnprintf_loop]; rewrite Hfin));
    rewrite length_app in Hh; pose proof (truncated_same lo hi size m o t0 Hs Hl ltac:(lia)) as Hst; pose proof (cstr_outside _ _ _ _ _ _ Hst Hd Hm) as Hm';
    rewrite ?format_cons in *; cbn [piece_fmt] in *.
  - destruct fuel; cbn [vsnprintf_loop]; rewrite Hfin; cbn [format map concat cstr] in Hm'; rewrite Hm'; done.
  - apply Forall_cons in Hto as [_ Hto]. cbn [app cstr length] in *. destruct Hm' as (Hx & Hz & _). destruct Hm as (_ & _ & Hm). destruct fuel as [|fuel]; [lia|].
    cbn [vsnprintf_loop]. rewrite Hfin, Hx, (proj2 (Z.eqb_neq c 0) Hz), (proj2 (Z.eqb_neq c 37) Hc). cbn [negb]. rewrite truncated_snoc, IH; try done; try lia.
    + by rewrite truncated_app, <- app_assoc.
    + rewrite !length_app. cbn [length]. lia.
  - apply Forall_cons in Hto as [_ Hto]. cbn [app cstr length] in *. destruct Hm' as (Hx & _ & Hy & _). destruct Hm as (_ & _ & _ & _ & Hm). destruct fuel as [|fuel]; [lia|].
    cbn [vsnprintf_loop]. rewrite Hfin, Hx. cbn [Z.eqb Pos.eqb negb]. unfold nprint_directive. cbn zeta. rewrite get_directive_percent by done. cbn [mbind option_bind].
    rewrite Hy. cbn -[vsnprintf_loop vsnprintf_writechar truncated nput]. rewrite truncated_snoc, IH; try done; try lia.
    + by rewrite truncated_app, <- app_assoc.
    + rewrite !length_app. cbn [length]. lia.
  - apply Forall_cons in Hto as [Hch Hto]. pose proof (length_conv_fmt d). rewrite !length_app in *. destruct fuel as [|fuel]; [lia|]. cbn [vsnprintf_loop].
    rewrite Hfin. assert ((bout (truncated size o t0)).1 fmt = 37) as -> by apply Hm'. cbn [Z.eqb Pos.eqb negb].
    assert (Ha : (bout (truncated size o t0)).2 <= o.2 + Z.of_nat (length t0)) by (cbn [bout truncated]; rewrite put_addr, length_take; lia).
    assert (Ha2 : o.2 <= (bout (truncated size o t0)).2) by (cbn [bout truncated]; rewrite put_addr; lia).
    rewrite (nprint_directive_spec fuel size buf fmt args a d (format ps) t1 _ Hok Hch Hm'); [|lia|eapply conv_prints_in; [exact Hst|lia|lia|done]].
    cbn [mbind option_bind]. replace (fmt + Z.of_nat (length (conv_fmt d)) - 1 + 1) with (fmt + Z.of_nat (length (conv_fmt d))) by lia.
    rewrite truncated_app, IH; try done; try lia; [by rewrite truncated_app, <- app_assoc|by apply cstr_skip|rewrite !length_app; lia].
Qed.
End Formats.

Lemma wp_vsprintf null_str fuel m buf fmt ps args t :
  renders m buf (buf + Z.of_nat (length t) + 1) ps args t -> cstr m fmt (format ps) ->
  fmt + Z.of_nat (length (format ps)) < buf \/ buf + Z.of_nat (length t) + 1 <= fmt -> (length (format ps) <= fuel)%nat -> Z.of_nat (length t) < 2 ^ 31 ->
  vsprintf null_str fuel m buf fmt args = Some (mset (put (m, buf) t).1 (buf + Z.of_nat (length t)) 0, Z.of_nat (length t)).
Proof.
  intros Hr Hm Hd Hf Hl. unfold vsprintf. rewrite (vsprintf_loop_spec null_str buf m buf (buf + Z.of_nat (length t) + 1) ps args t fmt (m, buf) fuel Hr Hm Hd); try done; try (cbn [snd]; lia).
  cbn [mbind option_bind]. rewrite put_addr. cbn [snd]. rewrite sint_small by lia. do 2 f_equal. lia.
Qed.

(** C27: vsprintf interprets a format made of characters and of directives with
    flags, width, precision and the qualifier l: when the format and the strings
    it prints lie outside of the output, the buffer holds the text of the pieces
    one after the other and a final NUL, the result is its length, and no other
    byte changes.  One unit of fuel per byte of the format is enough. *)
Theorem vsprintf_renders (null_str : Z) (fuel : nat) (m : mem) (buf fmt : Z) (ps : list piece) (args t : list Z) :
  renders m buf (buf + Z.of_nat (length t) + 1) ps args t -> cstr m fmt (format ps) ->
  fmt + Z.of_nat (length (format ps)) < buf \/ buf + Z.of_nat (length t) + 1 <= fmt -> (length (format ps) <= fuel)%nat -> Z.of_nat (length t) < 2 ^ 31 ->
  exists m', vsprintf null_str fuel m buf fmt args = Some (m', Z.of_nat (length t)) /\
    (forall i c, t !! i = Some c -> m' (buf + Z.of_nat i) = u8 c) /\ m' (buf + Z.of_nat (length t)) = 0 /\
    (forall x, x < buf \/ buf + Z.of_nat (length t) < x -> m' x = m x).
Proof.
  intros Hr Hm Hd Hf Hl. eexists. split; [by eapply wp_vsprintf|]. split; [|split].
  - intros i c Hi. apply lookup_lt_Some in Hi as Hlt. rewrite mset_ne by lia. by apply (put_in (m, buf)).
  - by rewrite mset_eq.
  - intros x Hx. rewrite mset_ne by lia. apply (put_out (m, buf)). cbn [snd]. lia.
Qed.

(** C34: With room for at least two bytes and a format that prints no numbers,
    vsnprintf writes the text cut to [size - 1] characters and a NUL, never
    outside of the buffer, and returns the number of characters written. *)
Theorem vsnprintf_truncates (null_str : Z) (fuel : nat) (m : mem) (buf size fmt : Z) (ps : list piece) (args t : list Z) :
  2 <= size < 2 ^ 31 -> Forall text_only ps -> renders m buf (buf + Z.of_nat (length t) + 1) ps args t -> cstr m fmt (format ps) ->
  fmt + Z.of_nat (length (format ps)) < buf \/ buf + Z.of_nat (length t) + 1 <= fmt -> (length (format ps) <= fuel)%nat ->
  exists m', vsnprintf null_str fuel m buf size fmt args = Some (m', Z.min (Z.of_nat (length t)) (size - 1)) /\
    (forall i c, t !! i = Some c -> Z.of_nat i < size - 1 -> m' (buf + Z.of_nat i) = u8 c) /\ m' (buf + Z.min (Z.of_nat (length t)) (size - 1)) = 0 /\
    (forall x, x < buf \/ buf + size <= x -> m' x = m x).
Proof.
  intros Hs Hto Hr Hm Hd Hf. unfold vsnprintf. rewrite (proj2 (Z.eqb_neq size 0)) by lia.
  pose proof (vsnprintf_loop_spec null_str size buf m buf (buf + Z.of_nat (length t) + 1) ps args t [] fmt (m, buf) fuel Hs Hr Hto Hm Hd) as Hloop.
  cbn [app snd] in Hloop. assert (Hstart : truncated size (m, buf) [] = Bounded (m, buf) 0 false).
  { unfold truncated. cbn [length]. rewrite take_nil. cbn [put foldl]. f_equal; [lia|]. apply Z.leb_gt. lia. }
  rewrite <- Hstart, Hloop by (done || lia). cbn [mbind option_bind truncated bout]. set (u := take (Z.to_nat (size - 1)) t).
  assert (Hu : Z.of_nat (length u) = Z.min (Z.of_nat (length t)) (size - 1)) by (unfold u; rewrite length_take; lia).
  rewrite put_addr. cbn [snd]. rewrite (proj2 (Z.ltb_lt _ _)) by lia. eexists. split; [do 2 f_equal; lia|]. rewrite <- Hu. split; [|split].
  - intros i c Hi Hlt. apply lookup_lt_Some in Hi as Hlt2. rewrite mset_ne by lia. apply (put_in (m, buf)). unfold u. rewrite lookup_take_lt by lia. done.
  - by rewrite mset_eq.
  - intros x Hx. rewrite mset_ne by lia. apply (put_out (m, buf)). cbn [snd]. lia.
Qed.

(** ** Printing and reading back *)

Lemma put_cstr m a l : Forall (fun c => 0 < c < 256) l -> cstr (mset (put (m, a) l).1 (a + Z.of_nat (length l)) 0) a l.
Proof.
  revert m a. induction l as [|c l IH]; intros m a Hl; cbn [length cstr].
  - rewrite Z.add_0_r. apply mset_eq.
  - apply Forall_cons in Hl as [Hc Hl]. change (put (m, a) (c :: l)) with (put (mset m a c, a + 1) l). split; [|split; [lia|]].
    + rewrite mset_ne by lia. rewrite put_out by (cbn [snd]; lia). cbn [fst]. rewrite mset_eq. apply wrap_small. lia.
    + replace (a + Z.of_nat (S (length l))) with (a + 1 + Z.of_nat (length l)) by lia. by apply IH.
Qed.

Lemma dec_bytes n : Forall (fun c => 0 < c < 256) (dec n).
Proof. eapply Forall_impl; [apply dec_digits|]. cbn beta. unfold is_digit. intros c Hc. lia. Qed.

Lemma dec_length n : 0 <= n < 2 ^ 64 -> (length (dec n) <= 66)%nat.
Proof. intros Hn. pose proof (digits_step false 10 n _ ltac:(lia) Hn eq_refl) as [_ H]. fold (dec n) in H. lia. Qed.

Lemma to_nat_neg x : x <= 0 -> Z.to_nat x = 0%nat.
Proof. lia. Qed.

Lemma number_text_d v : number_text v 10 (-1) (-1) SIGN = (if v <? 0 then [45] else []) ++ dec (Z.abs v).
Proof.
  unfold number_text. change (has_bits SIGN LEFT) with false. change (has_bits SIGN ZEROPAD) with false. change (prefix_text 10 SIGN) with (@nil Z).
  change (has_bits SIGN LARGE) with false. change (sign_text v SIGN) with (if v <? 0 then [45] else []). change (magnitude v SIGN) with (Z.abs v). fold (dec (Z.abs v)).
  cbn match. rewrite !to_nat_neg by lia. done.
Qed.

Definition conv_d : conv := Conv [] None None false 100.

Lemma conv_d_ok : conv_ok conv_d.
Proof. split; [done|done|done|]. cbn [cchar conv_d]. rewrite !elem_of_cons. tauto. Qed.

(** What sprintf prints for an int with %d is read back by the parser of
    decimal numbers, which stops at the end of the text: a minus sign exactly
    for a negative number, then the digits of its absolute value. *)
Theorem sprintf_atoi_roundtrip (null_str : Z) (m : mem) (buf fmt v : Z) :
  - 2 ^ 31 < v < 2 ^ 31 -> cstr m fmt [37; 100] -> fmt + 2 < buf ->
  exists m' n, sprintf null_str 2 m buf fmt [v] = Some (m', n) /\ (v < 0 -> m' buf = 45) /\
    skip_atoi 66 m' (if v <? 0 then buf + 1 else buf) 0 = Some (Z.abs v, buf + n).
Proof.
  intros Hv Hm Hd. set (t := (if v <? 0 then [45] else []) ++ dec (Z.abs v)).
  assert (Hlen : Z.of_nat (length t) < 2 ^ 31) by (unfold t; rewrite length_app; pose proof (dec_length (Z.abs v) ltac:(lia)); destruct (v <? 0); cbn [length]; lia).
  assert (Hr : renders m buf (buf + Z.of_nat (length t) + 1) [Item conv_d] [v] t).
  { rewrite <- (app_nil_r t). apply renders_item; [apply conv_d_ok| |apply renders_nil]. unfold conv_prints. cbn [cchar conv_d Z.eqb Pos.eqb].
    exists 10, SIGN. split; [done|]. cbn [clong cwidth cprec cflags conv_d default from_option id]. change (Z.lor (flag_bits 0 []) SIGN) with SIGN. change (has_bits SIGN SIGN) with true. cbn match.
    rewrite sint_small by lia. by rewrite number_text_d. }
  eexists _, _. split; [apply (wp_vsprintf null_str 2 m buf fmt [Item conv_d] [v] t Hr Hm); [left; cbn; lia|done|done]|].
  assert (Hb : Forall (fun c => 0 < c < 256) t) by (apply Forall_app; split; [destruct (v <? 0); by repeat constructor|apply dec_bytes]).
  pose proof (put_cstr m buf t Hb) as Hc. set (m' := mset _ _ 0) in *. clearbody m'. unfold t in Hc. split.
  - intros Hneg. rewrite (proj2 (Z.ltb_lt v 0) Hneg) in Hc. apply Hc.
  - assert (Hc2 : cstr m' (if v <? 0 then buf + 1 else buf) (dec (Z.abs v) ++ [])).
    { rewrite app_nil_r. destruct (v <? 0); [apply Hc|exact Hc]. }
    set (s := if v <? 0 then buf + 1 else buf) in *. assert (Hs : s + Z.of_nat (length (dec (Z.abs v))) = buf + Z.of_nat (length t)).
    { unfold s, t. rewrite length_app. destruct (v <? 0); cbn [length]; lia. }
    rewrite <- Hs. rewrite (skip_atoi_spec 66 m' s 0 (dec (Z.abs v)) []); rewrite ?reads_dec by lia; try done; [apply dec_digits| |lia|apply dec_length; lia].
    apply cstr_skip in Hc2. cbn [cstr] in Hc2. by rewrite Hc2.
Qed.

(** ** Witnesses: a format at 1000, the string "hi" at 2000, the buffer at 5000 *)

Definition demo_mem (f : list Z) : mem := (put ((put (fun _ => 0, 1000) f).1, 2000) [104; 105]).1.
Definition conv_5d : conv := Conv [] (Some 5) None false 100.
Definition conv_3s : conv := Conv [45] (Some 3) None false 115.
Definition demo_pieces : list piece := [Item conv_5d; Char 124; Item conv_3s].

Lemma conv_5d_ok : conv_ok conv_5d.
Proof. split; [done|by intros w [= <-]|done|]. cbn [cchar conv_5d]. rewrite !elem_of_cons. tauto. Qed.

Lemma conv_3s_ok : conv_ok conv_3s.
Proof. split; [by repeat constructor|by intros w [= <-]|done|]. cbn [cchar conv_3s]. rewrite !elem_of_cons. tauto. Qed.

Lemma vsprintf_renders_witness :
  exists m', vsprintf 0 8 (demo_mem (format demo_pieces)) 5000 1000 [42; 2000] = Some (m', 9) /\ m' 5003 = 52 /\ m' 5007 = 105 /\ m' 5009 = 0.
Proof.
  set (t := [32; 32; 32; 52; 50; 124; 104; 105; 32]). set (m := demo_mem (format demo_pieces)).
  assert (Hm : cstr m 1000 (format demo_pieces)) by (vm_compute; by repeat split).
  assert (Hhi : cstr m 2000 [104; 105]) by (vm_compute; by repeat split).
  assert (Hr : renders m 5000 (5000 + Z.of_nat (length t) + 1) demo_pieces [42; 2000] t).
  { apply (renders_item m 5000 _ conv_5d _ 42 [2000] [32; 32; 32; 52; 50]); [apply conv_5d_ok|exists 10, SIGN; by split|].
    apply renders_char; [done|]. apply (renders_item m 5000 _ conv_3s [] 2000 [] [104; 105; 32] []); [apply conv_3s_ok| |apply renders_nil].
    exists [104; 105]. split; [exact Hhi|]. by split_and!; try (left; done). }
  destruct (vsprintf_renders 0 8 m 5000 1000 demo_pieces [42; 2000] t Hr Hm ltac:(left; done) ltac:(by vm_compute) ltac:(done)) as (m' & He & Hin & Hz & _).
  exists m'. split; [exact He|]. split; [exact (Hin 3%nat 52 eq_refl)|]. split; [exact (Hin 7%nat 105 eq_refl)|exact Hz].
Defined.

(** "%-3s%%!" in a buffer of four bytes. *)
Lemma vsnprintf_truncates_witness :
  exists m', vsnprintf 0 7 (demo_mem (format [Item conv_3s; Percent; Char 33])) 5000 4 1000 [2000] = Some (m', 3) /\
    m' 5001 = 105 /\ m' 5003 = 0 /\ m' 5004 = 0.
Proof.
  set (ps := [Item conv_3s; Percent; Char 33]). set (t := [104; 105; 32; 37; 33]). set (m := demo_mem (format ps)).
  assert (Hm : cstr m 1000 (format ps)) by (vm_compute; by repeat split).
  assert (Hhi : cstr m 2000 [104; 105]) by (vm_compute; by repeat split).
  assert (Hr : renders m 5000 (5000 + Z.of_nat (length t) + 1) ps [2000] t).
  { apply (renders_item m 5000 _ conv_3s _ 2000 [] [104; 105; 32]); [apply conv_3s_ok| |by apply renders_percent, renders_char, renders_nil].
    exists [104; 105]. split; [exact Hhi|]. by split_and!; try (left; done). }
  destruct (vsnprintf_truncates 0 7 m 5000 4 1000 ps [2000] t ltac:(done) ltac:(repeat constructor; by right) Hr Hm ltac:(left; done) ltac:(by vm_compute)) as (m' & He & Hin & Hz & Ho).
  exists m'. split; [exact He|]. split; [exact (Hin 1%nat 105 eq_refl ltac:(done))|]. split; [exact Hz|]. exact (Ho 5004 ltac:(right; done)).
Defined.

Lemma sprintf_atoi_roundtrip_witness :
  exists m' n, sprintf 0 2 (demo_mem [37; 100]) 5000 1000 [-42] = Some (m', n) /\ m' 5000 = 45 /\ skip_atoi 66 m' 5001 0 = Some (42, 5000 + n).
Proof.
  destruct (sprintf_atoi_roundtrip 0 (demo_mem [37; 100]) 5000 1000 (-42) ltac:(done) ltac:(vm_compute; by repeat split) ltac:(done)) as (m' & n & He & Hs & Ha).
  exists m', n. split; [exact He|]. split; [exact (Hs ltac:(done))|exact Ha].
Defined.
