(* ===== verification/Qsort.v ===== *)
(** * kernel/lib/qsort.c: sorting in place

    The sort the directory index uses: quicksort with an explicit stack for
    partitions of more than MAX_THRESH + 1 elements, then one pass of insertion
    sort.  Pointers are addresses; [cmp] is the caller's comparison, a function of
    the memory and of two addresses.  A loop that ran out of fuel, or a push on a
    full stack, answers None. *)
From Stdlib Require Import Sorting.Permutation.
From S2P Require Import Prelude Mem.
Definition MAX_THRESH : Z := 4.
Definition STACK_SIZE : Z := 64.

Section Qsort.
Context (cmp : mem -> Z -> Z -> Z) (size : Z).

(** do {...} while (--__size > 0); the swap of one byte repeated. *)
Fixpoint swap_loop (n : nat) (m : mem) (a b : Z) : mem :=
  match n with
  | O => m
  | S n => let tmp := m a in swap_loop n (mset (mset m a (m b)) b tmp) (a + 1) (b + 1)
  end.

Definition SWAP (a b : Z) (m : mem) : mem := swap_loop (Z.to_nat (u64 (size - 1) + 1)) m a b.

Definition max_thresh : Z := MAX_THRESH * size.

(** ** Partition *)

Definition median (m : mem) (lo mid hi : Z) : mem :=
  let m := if cmp m mid lo <? 0 then SWAP mid lo m else m in
  if cmp m hi mid <? 0 then
    let m := SWAP mid hi m in
    if cmp m mid lo <? 0 then SWAP mid lo m else m
  else m.

(** while (cmp(left_ptr, mid) < 0) left_ptr += size; *)
Fixpoint scan_up (fuel : nat) (m : mem) (left_ptr mid : Z) : option Z :=
  match fuel with
  | O => None
  | S fuel => if cmp m left_ptr mid <? 0 then scan_up fuel m (left_ptr + size) mid else Some left_ptr
  end.

(** while (cmp(mid, right_ptr) < 0) right_ptr -= size; *)
Fixpoint scan_down (fuel : nat) (m : mem) (right_ptr mid : Z) : option Z :=
  match fuel with
  | O => None
  | S fuel => if cmp m mid right_ptr <? 0 then scan_down fuel m (right_ptr - size) mid else Some right_ptr
  end.

(** The do loop that collapses the walls; [steps] bounds the scans. *)
Fixpoint collapse (fuel steps : nat) (m : mem) (left_ptr mid right_ptr : Z) : option (mem * Z * Z) :=
  match fuel with
  | O => None
  | S fuel =>
    left_ptr ← scan_up steps m left_ptr mid;
    right_ptr ← scan_down steps m right_ptr mid;
    if left_ptr <? right_ptr then
      let m := SWAP left_ptr right_ptr m in
      let mid := if mid =? left_ptr then right_ptr else if mid =? right_ptr then left_ptr else mid in
      if left_ptr + size <=? right_ptr - size then collapse fuel steps m (left_ptr + size) mid (right_ptr - size)
      else Some (m, left_ptr + size, right_ptr - size)
    else if left_ptr =? right_ptr then Some (m, left_ptr + size, right_ptr - size)
    else if left_ptr <=? right_ptr then collapse fuel steps m left_ptr mid right_ptr
    else Some (m, left_ptr, right_ptr)
  end.

Definition partition (steps : nat) (m : mem) (lo hi : Z) : option (mem * Z * Z) :=
  let mid := lo + size * Z.shiftr ((hi - lo) / size) 1 in
  collapse steps steps (median m lo mid hi) (lo + size) mid (hi - size).

(** while (STACK_NOT_EMPTY) {...}; [stack] is what was pushed above the entry
    that top starts after. *)
Fixpoint quick_loop (fuel steps : nat) (m : mem) (lo hi : Z) (stack : list (Z * Z)) : option mem :=
  match fuel with
  | O => None
  | S fuel =>
    r ← partition steps m lo hi;
    let '(m, left_ptr, right_ptr) := r in
    let push e := if Z.of_nat (length stack) + 1 <? STACK_SIZE then Some (e :: stack) else None in
    if u64 (right_ptr - lo) <=? max_thresh then
      if u64 (hi - left_ptr) <=? max_thresh then
        match stack with
        | [] => Some m
        | (lo, hi) :: stack => quick_loop fuel steps m lo hi stack
        end
      else quick_loop fuel steps m left_ptr hi stack
    else if u64 (hi - left_ptr) <=? max_thresh then quick_loop fuel steps m lo right_ptr stack
    else if hi - left_ptr <? right_ptr - lo then
      stack ← push (lo, right_ptr); quick_loop fuel steps m left_ptr hi stack
    else
      stack ← push (left_ptr, hi); quick_loop fuel steps m lo right_ptr stack
  end.

(** ** Insertion sort *)

(** for (run_ptr = tmp_ptr + size; run_ptr <= thresh; run_ptr += size) if
    (cmp(run_ptr, tmp_ptr) < 0) tmp_ptr = run_ptr; *)
Fixpoint find_min (fuel : nat) (m : mem) (run_ptr thresh tmp_ptr : Z) : option Z :=
  match fuel with
  | O => None
  | S fuel =>
    if run_ptr <=? thresh then
      find_min fuel m (run_ptr + size) thresh (if cmp m run_ptr tmp_ptr <? 0 then run_ptr else tmp_ptr)
    else Some tmp_ptr
  end.

(** for (hi = lo = trav; (lo -= size) >= tmp_ptr; hi = lo) *hi = *lo; *hi = c; *)
Fixpoint shift_byte (fuel : nat) (m : mem) (hi tmp_ptr c : Z) : option mem :=
  match fuel with
  | O => None
  | S fuel =>
    let lo := hi - size in
    if tmp_ptr <=? lo then shift_byte fuel (mset m hi (m lo)) lo tmp_ptr c else Some (mset m hi c)
  end.

(** trav = run_ptr + size; while (--trav >= run_ptr) {...}, from [run_ptr + n]
    down. *)
Fixpoint rotate (n steps : nat) (m : mem) (run_ptr tmp_ptr : Z) : option mem :=
  match n with
  | O => Some m
  | S n =>
    let trav := run_ptr + Z.of_nat n in
    m ← shift_byte steps m trav tmp_ptr (m trav);
    rotate n steps m run_ptr tmp_ptr
  end.

(** while (cmp(run_ptr, tmp_ptr) < 0) tmp_ptr -= size; *)
Fixpoint find_slot (fuel : nat) (m : mem) (run_ptr tmp_ptr : Z) : option Z :=
  match fuel with
  | O => None
  | S fuel => if cmp m run_ptr tmp_ptr <? 0 then find_slot fuel m run_ptr (tmp_ptr - size) else Some tmp_ptr
  end.

(** while ((run_ptr += size) <= end_ptr) {...} *)
Fixpoint insert_loop (fuel steps : nat) (m : mem) (run_ptr end_ptr : Z) : option mem :=
  match fuel with
  | O => None
  | S fuel =>
    let run_ptr := run_ptr + size in
    if run_ptr <=? end_ptr then
      tmp_ptr ← find_slot steps m run_ptr (run_ptr - size);
      let tmp_ptr := tmp_ptr + size in
      m ← (if tmp_ptr =? run_ptr then Some m else rotate (Z.to_nat size) steps m run_ptr tmp_ptr);
      insert_loop fuel steps m run_ptr end_ptr
    else Some m
  end.

Definition insertion (steps : nat) (m : mem) (base total_elems : Z) : option mem :=
  let end_ptr := base + size * (total_elems - 1) in
  let thresh := Z.min end_ptr (base + max_thresh) in
  tmp_ptr ← find_min steps m (base + size) thresh base;
  let m := if tmp_ptr =? base then m else SWAP tmp_ptr base m in
  insert_loop steps steps m (base + size) end_ptr.

(** Twice the number of elements bounds every loop. *)
Definition qsort (m : mem) (base total_elems : Z) : option mem :=
  if total_elems =? 0 then Some m
  else
    let steps := Z.to_nat (2 * total_elems + 2) in
    m ← (if MAX_THRESH <? total_elems then
           quick_loop steps steps m base (base + size * (total_elems - 1)) []
         else Some m);
    insertion steps m base total_elems.
End Qsort.

(** * qsort sorts

    The array is read as its elements, lists of [size] bytes.  [shuf lo hi m m']:
    [m'] is [m] with the elements [lo..hi] permuted.  Every step of the sort is a
    shuffle; the partition splits its range around a pivot; the first pass leaves
    a least element among the first five, which is all the insertion sort
    needs. *)

Section Array.
Context (size base N : Z).
Hypotheses (size_pos : 0 < size) (N_pos : 0 <= N) (fits : size * N < 2 ^ 64).

Definition elt (m : mem) (a : Z) : list Z := (fun k => m (a + Z.of_nat k)) <$> seq 0 (Z.to_nat size).
Definition at_ (i : Z) : Z := base + size * i.
Definition arr (m : mem) (i : Z) : list Z := elt m (at_ i).
Definition elems (m : mem) : list (list Z) := arr m <$> seqZ 0 N.

Lemma elt_ext m m' a b : (forall k, 0 <= k < size -> m (a + k) = m' (b + k)) -> elt m a = elt m' b.
Proof.
  intros H. unfold elt. apply list_fmap_ext. intros i k Hk. apply lookup_seq in Hk as [-> Hk]. cbn [Nat.add]. apply H. lia.
Qed.

(** ** Shuffles *)

Record shuf (lo hi : Z) (m m' : mem) : Prop := {
  sh_bytes : bytes_ok m -> bytes_ok m';
  sh_out : forall x, x < base \/ base + size * N <= x -> m' x = m x;
  sh_perm : exists p : Z -> Z, (forall k, lo <= k <= hi -> lo <= p k <= hi) /\ (forall j k, p j = p k -> j = k) /\
    (forall k, ~ (lo <= k <= hi) -> p k = k) /\ forall k, 0 <= k < N -> arr m' k = arr m (p k);
}.

Lemma shuf_refl lo hi m : shuf lo hi m m.
Proof. split; [done..|]. by exists (fun k => k). Qed.

Lemma shuf_trans lo hi m1 m2 m3 : 0 <= lo -> hi < N -> shuf lo hi m1 m2 -> shuf lo hi m2 m3 -> shuf lo hi m1 m3.
Proof.
  intros Hlo Hhi [B1 O1 (p & P1 & P2 & P3 & P4)] [B2 O2 (q & Q1 & Q2 & Q3 & Q4)]. split; [auto|intros; by rewrite O2, O1|].
  exists (fun k => p (q k)). split_and!.
  - intros k Hk. by apply P1, Q1.
  - intros j k H. by apply Q2, P2.
  - intros k Hk. rewrite Q3, P3 by done. done.
  - intros k Hk. rewrite Q4, P4; [done| |done].
    destruct (decide (lo <= k <= hi)) as [Hin|Hn]; [pose proof (Q1 k Hin); lia|by rewrite Q3].
Qed.

Lemma shuf_mono lo hi lo' hi' m m' : lo' <= lo -> hi <= hi' -> shuf lo hi m m' -> shuf lo' hi' m m'.
Proof.
  intros Hl Hh [B O (p & P1 & P2 & P3 & P4)]. split; [done..|]. exists p. split_and!; [|done| |done].
  - intros k Hk. destruct (decide (lo <= k <= hi)) as [Hin|Hn]; [pose proof (P1 k Hin); lia|by rewrite P3].
  - intros k Hk. apply P3. lia.
Qed.

(** What holds of every element of a range still does. *)
Lemma shuf_range lo hi a b m m' (P : list Z -> Prop) :
  0 <= a -> b < N -> shuf lo hi m m' -> (a <= lo /\ hi <= b \/ hi < a \/ b < lo) ->
  (forall k, a <= k <= b -> P (arr m k)) -> forall k, a <= k <= b -> P (arr m' k).
Proof.
  intros Ha Hb [_ _ (p & P1 & P2 & P3 & P4)] Hr H k Hk. rewrite P4 by lia. apply H.
  destruct (decide (lo <= k <= hi)) as [Hin|Hn]; [pose proof (P1 k Hin); lia|rewrite P3 by done; lia].
Qed.

Lemma shuf_same lo hi m m' k : shuf lo hi m m' -> 0 <= k < N -> ~ (lo <= k <= hi) -> arr m' k = arr m k.
Proof. intros [_ _ (p & P1 & P2 & P3 & P4)] Hk Hn. by rewrite P4, P3. Qed.

(** The elements after a shuffle are those before, in another order. *)
Lemma shuf_elems lo hi m m' : 0 <= lo -> hi < N -> shuf lo hi m m' -> Permutation (elems m') (elems m).
Proof.
  intros Hlo Hhi [_ _ (p & P1 & P2 & P3 & P4)]. unfold elems.
  assert (forall k, 0 <= k < N -> 0 <= p k < N) as Hp.
  { intros k Hk. destruct (decide (lo <= k <= hi)) as [Hin|Hn]; [pose proof (P1 k Hin); lia|by rewrite P3]. }
  assert (arr m' <$> seqZ 0 N = arr m <$> (p <$> seqZ 0 N)) as ->.
  { rewrite <- list_fmap_compose. apply list_fmap_ext. intros i k Hk. apply lookup_seqZ in Hk as [-> Hk]. apply P4. lia. }
  apply Permutation_map, NoDup_Permutation_bis.
  - apply NoDup_ListNoDup. apply NoDup_fmap_2_strong; [|apply NoDup_seqZ]. intros j k _ _. apply P2.
  - by rewrite length_fmap.
  - intros k Hk. apply list_elem_of_In, list_elem_of_fmap in Hk as (j & -> & Hj). apply elem_of_seqZ in Hj.
    apply list_elem_of_In, elem_of_seqZ. specialize (Hp j). lia.
Qed.

(** ** SWAP *)

Lemma swap_loop_spec n m a b x :
  bytes_ok m -> a + Z.of_nat n <= b \/ b + Z.of_nat n <= a ->
  swap_loop n m a b x =
    if decide (a <= x < a + Z.of_nat n) then m (b + (x - a))
    else if decide (b <= x < b + Z.of_nat n) then m (a + (x - b)) else m x.
Proof.
  revert m a b. induction n as [|n IH]; intros m a b Hb Hd; cbn [swap_loop].
  { by rewrite !decide_False by lia. }
  rewrite IH by (try apply mset_ok; try apply mset_ok; done || lia).
  assert (forall y, mset (mset m a (m b)) b (m a) y = if decide (y = b) then m a else if decide (y = a) then m b else m y) as Hs.
  { intros y. unfold mset. destruct (Z.eqb_spec y b), (Z.eqb_spec y a); repeat case_decide; subst; (done || apply Z.mod_small, Hb). }
  rewrite !Hs. repeat case_decide; try (f_equal; lia); lia.
Qed.

Lemma swap_loop_ok n m a b : bytes_ok m -> bytes_ok (swap_loop n m a b).
Proof. revert m a b. induction n as [|n IH]; intros m a b Hb; [done|]. apply IH. by repeat apply mset_ok. Qed.

(** The positions of two elements are apart. *)
Lemma at_apart i j : i < j -> at_ i + size <= at_ j.
Proof. unfold at_. nia. Qed.

Lemma at_far i j x : 0 <= x < size -> j <> i -> ~ (at_ i <= at_ j + x < at_ i + size).
Proof. intros Hx Hij. destruct (Z.lt_total i j) as [H|[H|H]]; [|lia|]; apply at_apart in H; lia. Qed.

Hypothesis size_word : size < 2 ^ 64.

Lemma SWAP_spec m i j x :
  bytes_ok m -> i <> j ->
  SWAP size (at_ i) (at_ j) m x =
    if decide (at_ i <= x < at_ i + size) then m (at_ j + (x - at_ i))
    else if decide (at_ j <= x < at_ j + size) then m (at_ i + (x - at_ j)) else m x.
Proof.
  intros Hb Hij. unfold SWAP. rewrite wrap_small by lia. rewrite swap_loop_spec.
  - by replace (Z.of_nat (Z.to_nat (size - 1 + 1))) with size by lia.
  - done.
  - destruct (Z.lt_total i j) as [H|[H|H]]; [|lia|]; apply at_apart in H; lia.
Qed.

Lemma arr_swap m i j k :
  bytes_ok m -> i <> j ->
  arr (SWAP size (at_ i) (at_ j) m) k = if decide (k = i) then arr m j else if decide (k = j) then arr m i else arr m k.
Proof.
  intros Hb Hij. unfold arr. repeat case_decide; subst.
  - apply elt_ext. intros x Hx. rewrite SWAP_spec, decide_True by (done || lia). f_equal. lia.
  - apply elt_ext. intros x Hx. rewrite SWAP_spec by done.
    rewrite decide_False, decide_True by (try apply at_far; done || lia). f_equal. lia.
  - apply elt_ext. intros x Hx. rewrite SWAP_spec by done. by rewrite !decide_False by (apply at_far; done).
Qed.

Lemma shuf_swap lo hi m i j :
  bytes_ok m -> i <> j -> lo <= i <= hi -> lo <= j <= hi -> 0 <= lo -> hi < N -> shuf lo hi m (SWAP size (at_ i) (at_ j) m).
Proof.
  intros Hb Hij Hi Hj Hlo Hhi. split.
  - intros _. by apply swap_loop_ok.
  - intros x Hx. rewrite SWAP_spec by done. unfold at_. rewrite !decide_False; [done|nia..].
  - exists (fun k => if decide (k = i) then j else if decide (k = j) then i else k). split_and!.
    + intros k Hk. repeat case_decide; lia.
    + intros k l H. repeat case_decide; lia.
    + intros k Hk. repeat case_decide; lia.
    + intros k Hk. rewrite arr_swap by done. by repeat case_decide.
Qed.
End Array.

(** A comparison that orders elements: [c x y < 0] when [x] comes before [y]. *)
Record total_order (c : list Z -> list Z -> Z) : Prop := {
  to_asym : forall x y, c x y < 0 -> 0 <= c y x;
  to_trans : forall x y z, 0 <= c y x -> 0 <= c z y -> 0 <= c z x;
}.

Section Sort.
Context (cmp : mem -> Z -> Z -> Z) (c : list Z -> list Z -> Z) (size base N : Z).
Hypotheses (size_pos : 0 < size) (size_word : size < 2 ^ 64) (fits : size * N < 2 ^ 64).
Hypothesis cmp_elt : forall m a b, cmp m a b = c (elt size m a) (elt size m b).
Hypothesis Hc : total_order c.
Abbreviation arr := (arr size base).
Abbreviation at_ := (at_ size base).
Abbreviation shuf := (shuf size base N).

Definition le (x y : list Z) : Prop := 0 <= c y x.

Lemma le_refl x : le x x.
Proof. unfold le. destruct (Z.ltb_spec (c x x) 0); [by apply (to_asym _ Hc)|done]. Qed.
Lemma le_trans x y z : le x y -> le y z -> le x z.
Proof. apply (to_trans _ Hc). Qed.
Lemma lt_le x y : c x y < 0 -> le x y.
Proof. apply (to_asym _ Hc). Qed.

Lemma cmp_arr m i j : cmp m (at_ i) (at_ j) = c (arr m i) (arr m j).
Proof. apply cmp_elt. Qed.

(** ** Pointers as indices *)

Lemma at_ltb i j : (at_ i <? at_ j) = (i <? j).
Proof. unfold Qsort.at_. destruct (Z.ltb_spec i j), (Z.ltb_spec (base + size * i) (base + size * j)); nia || done. Qed.
Lemma at_leb i j : (at_ i <=? at_ j) = (i <=? j).
Proof. unfold Qsort.at_. destruct (Z.leb_spec i j), (Z.leb_spec (base + size * i) (base + size * j)); nia || done. Qed.
Lemma at_eqb i j : (at_ i =? at_ j) = (i =? j).
Proof. unfold Qsort.at_. destruct (Z.eqb_spec i j), (Z.eqb_spec (base + size * i) (base + size * j)); nia || done. Qed.
Lemma at_next i : at_ i + size = at_ (i + 1).
Proof. unfold Qsort.at_. lia. Qed.
Lemma at_prev i : at_ i - size = at_ (i - 1).
Proof. unfold Qsort.at_. lia. Qed.
Lemma at_minus i j : at_ i - at_ j = size * (i - j).
Proof. unfold Qsort.at_. lia. Qed.

(** ** The median of three *)

Lemma median_spec m lo mid hi :
  bytes_ok m -> 0 <= lo -> lo < mid < hi -> hi < N ->
  let m' := median cmp size m (at_ lo) (at_ mid) (at_ hi) in
  shuf lo hi m m' /\ le (arr m' lo) (arr m' mid) /\ le (arr m' mid) (arr m' hi).
Proof.
  intros Hb H0 Hm HN. unfold median. cbn zeta.
  set (m1 := if cmp m (at_ mid) (at_ lo) <? 0 then SWAP size (at_ mid) (at_ lo) m else m).
  assert (shuf lo hi m m1 /\ le (arr m1 lo) (arr m1 mid)) as [S1 L1].
  { unfold m1. rewrite cmp_arr. destruct (Z.ltb_spec (c (arr m mid) (arr m lo)) 0); [|split; [apply shuf_refl|done]].
    split; [apply shuf_swap; (done || lia)|]. rewrite !arr_swap by (done || lia).
    rewrite (decide_False (P := lo = mid)), !decide_True by lia. by apply lt_le. }
  pose proof (sh_bytes _ _ _ _ _ _ _ S1 Hb) as Hb1. rewrite cmp_arr.
  destruct (Z.ltb_spec (c (arr m1 hi) (arr m1 mid)) 0) as [Hlt|Hge]; [|by split_and!].
  set (m2 := SWAP size (at_ mid) (at_ hi) m1).
  assert (forall k, arr m2 k = if decide (k = mid) then arr m1 hi else if decide (k = hi) then arr m1 mid else arr m1 k) as A2.
  { intros k. apply arr_swap; (done || lia). }
  assert (shuf lo hi m m2) as S2 by (eapply shuf_trans; [lia|lia|exact S1|apply shuf_swap; (done || lia)]).
  pose proof (sh_bytes _ _ _ _ _ _ _ S2 Hb) as Hb2.
  assert (arr m2 lo = arr m1 lo /\ arr m2 mid = arr m1 hi /\ arr m2 hi = arr m1 mid) as (E1 & E2 & E3).
  { rewrite !A2. repeat case_decide; done || lia. }
  rewrite cmp_arr, E1, E2. destruct (Z.ltb_spec (c (arr m1 hi) (arr m1 lo)) 0) as [Hlt2|Hge2].
  - split; [eapply shuf_trans; [lia|lia|exact S2|apply shuf_swap; (done || lia)]|].
    rewrite !arr_swap by (done || lia).
    rewrite (decide_False (P := lo = mid)), (decide_False (P := hi = mid)), (decide_False (P := hi = lo)), !decide_True by lia.
    rewrite E1, E2, E3. split; [by apply lt_le|done].
  - rewrite E1, E2, E3. split_and!; [done..|by apply lt_le].
Qed.

(** ** Scans *)

Lemma scan_up_spec fuel m l mid k0 :
  l <= k0 < l + Z.of_nat fuel -> 0 <= c (arr m k0) (arr m mid) ->
  exists l', scan_up cmp size fuel m (at_ l) (at_ mid) = Some (at_ l') /\ l <= l' <= k0 /\
    (forall k, l <= k < l' -> c (arr m k) (arr m mid) < 0) /\ 0 <= c (arr m l') (arr m mid).
Proof.
  revert l. induction fuel as [|fuel IH]; intros l Hk H0; cbn [scan_up]; [lia|]. rewrite cmp_arr.
  destruct (Z.ltb_spec (c (arr m l) (arr m mid)) 0) as [Hlt|Hge].
  - rewrite at_next. destruct (decide (l = k0)) as [->|Hne]; [lia|].
    destruct (IH (l + 1) ltac:(lia) H0) as (l' & E & Hl & Ha & Hs). exists l'. split_and!; [done|lia..| |done].
    intros k Hk2. destruct (decide (k = l)) as [->|]; [done|]. apply Ha. lia.
  - exists l. split_and!; [done|lia..|done].
Qed.

Lemma scan_down_spec fuel m r mid k0 :
  r - Z.of_nat fuel < k0 <= r -> 0 <= c (arr m mid) (arr m k0) ->
  exists r', scan_down cmp size fuel m (at_ r) (at_ mid) = Some (at_ r') /\ k0 <= r' <= r /\
    (forall k, r' < k <= r -> c (arr m mid) (arr m k) < 0) /\ 0 <= c (arr m mid) (arr m r').
Proof.
  revert r. induction fuel as [|fuel IH]; intros r Hk H0; cbn [scan_down]; [lia|]. rewrite cmp_arr.
  destruct (Z.ltb_spec (c (arr m mid) (arr m r)) 0) as [Hlt|Hge].
  - rewrite at_prev. destruct (decide (r = k0)) as [->|Hne]; [lia|].
    destruct (IH (r - 1) ltac:(lia) H0) as (r' & E & Hl & Ha & Hs). exists r'. split_and!; [done|lia..| |done].
    intros k Hk2. destruct (decide (k = r)) as [->|]; [done|]. apply Ha. lia.
  - exists r. split_and!; [done|lia..|done].
Qed.

(** ** The partition *)

(** [lo..r'] is at most [p], what follows up to [hi] at least. *)
Record split_at (lo hi : Z) (p : list Z) (m : mem) (l r : Z) : Prop := {
  sp_low : forall k, lo <= k < l -> le (arr m k) p;
  sp_high : forall k, r < k <= hi -> le p (arr m k);
}.

(** The exchange of the elements the scans stopped at. *)
Lemma split_swap lo hi p m l r l' r' mid :
  bytes_ok m -> split_at lo hi p m l r -> arr m mid = p -> l <= l' -> r' <= r -> l' < r' ->
  (forall k, l <= k < l' -> c (arr m k) p < 0) -> (forall k, r' < k <= r -> c p (arr m k) < 0) ->
  le p (arr m l') -> le (arr m r') p ->
  let mid' := if mid =? l' then r' else if mid =? r' then l' else mid in
  split_at lo hi p (SWAP size (at_ l') (at_ r') m) (l' + 1) (r' - 1) /\ arr (SWAP size (at_ l') (at_ r') m) mid' = p.
Proof.
  intros Hb [Hlo Hhi] Hp Hl Hr Hlr Hup Hdn Hpl Hpr mid'. split; [split|].
  - intros k Hk. rewrite arr_swap by (done || lia). repeat case_decide; [done|lia|].
    destruct (Z.ltb_spec k l); [apply Hlo; lia|]. apply lt_le, Hup. lia.
  - intros k Hk. rewrite arr_swap by (done || lia). repeat case_decide; [lia|done|].
    destruct (Z.leb_spec k r); [apply lt_le, Hdn; lia|apply Hhi; lia].
  - rewrite arr_swap by (done || lia). unfold mid'.
    destruct (Z.eqb_spec mid l') as [->|]; [by rewrite decide_False, decide_True by lia|].
    destruct (Z.eqb_spec mid r') as [->|]; [by rewrite decide_True|]. by rewrite !decide_False.
Qed.

Lemma collapse_spec fuel steps m lo hi l mid r p :
  bytes_ok m -> 0 <= lo -> hi < N -> N < Z.of_nat steps -> lo < l -> r < hi -> l <= r + 1 -> lo <= mid <= hi ->
  arr m mid = p -> split_at lo hi p m l r -> r - l + 1 < Z.of_nat fuel ->
  exists m' l' r', collapse cmp size fuel steps m (at_ l) (at_ mid) (at_ r) = Some (m', at_ l', at_ r') /\
    shuf lo hi m m' /\ lo <= r' /\ l' <= hi /\ r' < l' <= r' + 2 /\ split_at lo hi p m' (r' + 1) r'.
Proof.
  revert m l mid r. induction fuel as [|fuel IH]; intros m l mid r Hb H0 HN Hst Hl Hr Hlr Hmid Hp Hsp Hf; [lia|].
  cbn [collapse]. destruct Hsp as [Hlow Hhigh].
  destruct (scan_up_spec steps m l mid (r + 1)) as (l' & -> & Hl' & Hup & Hsl); [lia|rewrite Hp; apply Hhigh; lia|].
  destruct (scan_down_spec steps m r mid (l' - 1)) as (r' & E & Hr' & Hdn & Hsr).
  { lia. }
  { rewrite Hp. destruct (decide (l' = l)) as [->|]; [apply Hlow; lia|]. apply lt_le. rewrite <- Hp. apply Hup. lia. }
  cbn [mbind option_bind]. rewrite E. cbn [mbind option_bind]. clear E. rewrite Hp in Hup, Hsl, Hdn, Hsr.
  rewrite at_ltb, at_next, at_prev, !at_eqb, !at_leb. destruct (Z.ltb_spec l' r') as [Hlt|Hge].
  - destruct (split_swap lo hi p m l r l' r' mid) as [Hsp2 Hp2]; try done; [lia..|].
    assert (shuf lo hi m (SWAP size (at_ l') (at_ r') m)) as S1 by (apply shuf_swap; (done || lia)).
    set (m2 := SWAP size (at_ l') (at_ r') m) in *. set (mid' := if mid =? l' then r' else _) in *.
    destruct (Z.leb_spec (l' + 1) (r' - 1)) as [Hgo|Hstop].
    + replace (if mid =? l' then at_ r' else if mid =? r' then at_ l' else at_ mid) with (at_ mid') by (unfold mid'; by repeat case_match).
      destruct (IH m2 (l' + 1) mid' (r' - 1)) as (m3 & l3 & r3 & E3 & S3 & R3); try done; try lia.
      { by apply (sh_bytes _ _ _ _ _ _ _ S1). }
      { unfold mid'. repeat case_match; lia. }
      exists m3, l3, r3. split; [done|]. split; [|done]. eapply shuf_trans; [lia|lia|exact S1|done].
    + exists m2, (l' + 1), (r' - 1). split_and!; [done|done|lia..|]. destruct Hsp2 as [A B]. split; [|done].
      intros k Hk. apply A. lia.
  - assert (forall q, q = l' - 1 -> split_at lo hi p m (q + 1) q) as Hend.
    { intros q ->. split.
      - intros k Hk. destruct (Z.ltb_spec k l); [apply Hlow; lia|]. apply lt_le, Hup. lia.
      - intros k Hk. destruct (decide (k = l')) as [->|]; [done|]. destruct (Z.leb_spec k r); [|apply Hhigh; lia].
        apply lt_le, Hdn. lia. }
    destruct (Z.eqb_spec l' r') as [He|Hne].
    + exists m, (l' + 1), (r' - 1). split_and!; [done|apply shuf_refl|lia..|]. apply Hend. lia.
    + destruct (Z.leb_spec l' r'); [lia|]. exists m, l', r'. split_and!; [done|apply shuf_refl|lia..|]. apply Hend. lia.
Qed.

(** What the partition of [lo..hi] leaves. *)
Record parted (lo hi : Z) (m m' : mem) (l r : Z) : Prop := {
  pa_shuf : shuf lo hi m m';
  pa_bounds : lo <= r /\ r < l <= r + 2 /\ l <= hi;
  pa_split : forall i j, lo <= i <= r -> r < j <= hi -> le (arr m' i) (arr m' j);
}.

Lemma partition_spec steps m lo hi :
  bytes_ok m -> 0 <= lo -> lo + 2 <= hi -> hi < N -> N + 1 < Z.of_nat steps ->
  exists m' l r, partition cmp size steps m (at_ lo) (at_ hi) = Some (m', at_ l, at_ r) /\ parted lo hi m m' l r.
Proof.
  intros Hb H0 Hh HN Hst. unfold partition. rewrite at_minus, (Z.mul_comm size (hi - lo)), Z.div_mul by lia. rewrite Z.shiftr_div_pow2 by lia.
  set (mid := lo + (hi - lo) / 2). change (2 ^ 1) with 2.
  replace (at_ lo + size * ((hi - lo) / 2)) with (at_ mid) by (unfold mid, Qsort.at_; lia).
  assert (lo < mid < hi) as Hm. { unfold mid. pose proof (Z.div_mod (hi - lo) 2). pose proof (Z.mod_pos_bound (hi - lo) 2). lia. }
  destruct (median_spec m lo mid hi Hb H0 Hm HN) as (S1 & L1 & L2). set (m1 := median cmp size m (at_ lo) (at_ mid) (at_ hi)) in *.
  rewrite at_next, at_prev.
  destruct (collapse_spec steps steps m1 lo hi (lo + 1) mid (hi - 1) (arr m1 mid)) as (m' & l & r & E & S2 & B1 & B2 & B3 & [A B]);
    try done; try lia; [by apply (sh_bytes _ _ _ _ _ _ _ S1)| |].
  { split; intros k Hk; [by replace k with lo by lia|by replace k with hi by lia]. }
  exists m', l, r. split; [done|]. split; [eapply shuf_trans; [lia|lia|exact S1|done]|lia|].
  intros i j Hi Hj. eapply le_trans; [apply A; lia|apply B; lia].
Qed.

(** ** The loop over the partitions *)

(** The ranges that start at or before [h]. *)
Definition low (h : Z) (segs : list (Z * Z)) : list (Z * Z) := List.filter (fun s => s.1 <=? h) segs.

Definition split_ok (m : mem) (h : Z) : Prop := forall i j, 0 <= i <= h -> h < j < N -> le (arr m i) (arr m j).

(** [0..h] is at most the rest; it is one of the ranges to sort, the only one
    that starts there, or is small. *)
Definition leftmost (m : mem) (h : Z) (segs : list (Z * Z)) : Prop :=
  0 <= h < N /\ split_ok m h /\ (low h segs = [(0, h)] \/ low h segs = [] /\ h <= MAX_THRESH).

Lemma low_cons h s segs : low h (s :: segs) = if s.1 <=? h then s :: low h segs else low h segs.
Proof. done. Qed.

Lemma low_mono h h' segs : h' <= h -> low h segs = [] -> low h' segs = [].
Proof.
  intros Hh. induction segs as [|s segs IH]; [done|]. rewrite !low_cons.
  destruct (Z.leb_spec s.1 h); [done|]. destruct (Z.leb_spec s.1 h'); [lia|done].
Qed.

(** A partition narrows the first range, or leaves it alone. *)
Lemma leftmost_part m h lo hi st m' l r :
  0 <= lo -> hi < N -> leftmost m h ((lo, hi) :: st) -> parted lo hi m m' l r ->
  exists h', 0 <= h' < N /\ split_ok m' h' /\
    (lo = 0 /\ h' = r /\ low h' st = [] \/ h' < lo /\ (low h' st = [(0, h')] \/ low h' st = [] /\ h' <= MAX_THRESH)).
Proof.
  intros H0 HN (Hh & Hs & Hlow) [S Hb Hsp]. rewrite low_cons in Hlow. cbn [fst] in Hlow.
  destruct (Z.leb_spec lo h) as [Hle|Hgt].
  - assert (lo = 0 /\ hi = h /\ low h st = []) as (-> & -> & Hst) by (destruct Hlow as [[= -> -> ->]|[? _]]; done).
    exists r. split_and!; [lia..| |left; split_and!; [done..|]; by apply (low_mono h); [lia|]].
    intros i j Hi Hj. destruct (Z.leb_spec j h); [apply Hsp; lia|].
    eapply (shuf_range size base N 0 h 0 h m m' (fun x => le x (arr m' j))); [lia|lia|done|lia| |lia].
    intros k Hk. rewrite (shuf_same size base N 0 h m m' j) by (done || lia). apply Hs; lia.
  - exists h. split_and!; [lia..| |right; split; [lia|done]].
    intros i j Hi Hj. rewrite (shuf_same size base N lo hi m m' i) by (done || lia).
    eapply (shuf_range size base N lo hi (h + 1) (N - 1) m m' (fun x => le (arr m i) x)); [lia|lia|done|lia| |lia].
    intros k Hk. apply Hs; lia.
Qed.

Definition seg_ok (s : Z * Z) : Prop := 0 <= s.1 /\ s.1 + 4 <= s.2 /\ s.2 < N.
Definition weight (segs : list (Z * Z)) : Z := foldr (fun s w => 2 * (s.2 - s.1) + 1 + w) 0 segs.

(** The [d]-th range on the stack has at most [N / 2 ^ d] elements. *)
Fixpoint depth_ok (st : list (Z * Z)) : Prop :=
  match st with
  | [] => True
  | s :: st => (s.2 - s.1 + 1) * 2 ^ Z.of_nat (length st) <= N /\ depth_ok st
  end.

Lemma weight_nonneg st : Forall seg_ok st -> 0 <= weight st.
Proof. induction 1 as [|s st [? ?] _ IH]; cbn [weight foldr]; [lia|]. fold (weight st). lia. Qed.

(** There is always room for a push. *)
Lemma depth_room d s : 6 <= s -> s * 2 ^ Z.of_nat d <= N -> Z.of_nat d + 1 < STACK_SIZE.
Proof.
  intros Hs Hd. unfold STACK_SIZE. assert (N < 2 ^ 64) by nia.
  destruct (Z.ltb_spec (Z.of_nat d + 1) 64); [done|].
  assert (2 ^ 63 <= 2 ^ Z.of_nat d) by (apply Z.pow_le_mono_r; lia). nia.
Qed.

Abbreviation ptrs := (map (fun s : Z * Z => (at_ s.1, at_ s.2))).

(** What the first pass is for. *)
Definition least_first (m : mem) : Prop := exists h, 0 <= h <= MAX_THRESH /\ h < N /\ split_ok m h.

(** The state of the loop. *)
Record quick_inv (m : mem) (lo hi : Z) (st : list (Z * Z)) : Prop := {
  qi_bytes : bytes_ok m;
  qi_segs : Forall seg_ok ((lo, hi) :: st);
  qi_left : exists h, leftmost m h ((lo, hi) :: st);
  qi_depth : depth_ok ((lo, hi) :: st);
}.

Lemma diff_small a b : 0 <= b - a < N -> (u64 (at_ b - at_ a) <=? max_thresh size) = (b - a <=? MAX_THRESH).
Proof.
  intros Hd. rewrite at_minus, wrap_small by nia. unfold max_thresh.
  destruct (Z.leb_spec (b - a) MAX_THRESH), (Z.leb_spec (size * (b - a)) (MAX_THRESH * size)); nia || done.
Qed.

(** The ranges that remain: [L] of the two parts of [lo..hi], then the
    stack. *)
Lemma quick_parts m lo hi st m' l r L :
  quick_inv m lo hi st -> parted lo hi m m' l r ->
  (L = [] /\ r - lo <= MAX_THRESH \/ L = [(l, hi)] /\ r - lo <= MAX_THRESH \/
   L = [(lo, r)] \/ L = [(l, hi); (lo, r)] \/ L = [(lo, r); (l, hi)]) ->
  exists h, leftmost m' h (L ++ st).
Proof.
  intros [Hb Hse [h Hl] _] Hpa HL. apply Forall_cons in Hse as [[G1 [G2 G3]] Hst]. cbn [fst snd] in *.
  destruct (leftmost_part m h lo hi st m' l r G1 G3 Hl Hpa) as (h' & B1 & B2 & B3). destruct Hpa as [_ B _].
  exists h'. split_and!; [lia..|done|].
  assert ((l <=? h') = false) as El by (apply Z.leb_gt; lia).
  destruct B3 as [(-> & -> & Hlow)|[Hgt Hlow]].
  - destruct HL as [[-> Hr]|[[-> Hr]|[->|[->| ->]]]]; cbn [app]; rewrite ?low_cons; cbn [fst]; rewrite ?El, ?Hlow.
    1, 2: right; split; [done|lia].
    all: destruct (Z.leb_spec 0 r); [|lia]; by left.
  - assert ((lo <=? h') = false) as Elo by (apply Z.leb_gt; lia).
    destruct HL as [[-> Hr]|[[-> Hr]|[->|[->| ->]]]]; cbn [app]; rewrite ?low_cons; cbn [fst]; by rewrite ?El, ?Elo.
Qed.

Lemma leftmost_nil m h : leftmost m h [] -> least_first m.
Proof. intros (H1 & H2 & [H3|[_ H3]]); [done|]. exists h. split_and!; [lia..|done]. Qed.

(** The five ways on from a partition. *)
Lemma quick_next m lo hi st m' l r :
  quick_inv m lo hi st -> parted lo hi m m' l r ->
  (r - lo <= MAX_THRESH -> match st with [] => least_first m' | (lo2, hi2) :: st2 => quick_inv m' lo2 hi2 st2 end) /\
  (r - lo <= MAX_THRESH -> MAX_THRESH < hi - l -> quick_inv m' l hi st) /\
  (MAX_THRESH < r - lo -> quick_inv m' lo r st) /\
  (MAX_THRESH < r - lo -> MAX_THRESH < hi - l -> hi - l < r - lo -> quick_inv m' l hi ((lo, r) :: st)) /\
  (MAX_THRESH < r - lo -> MAX_THRESH < hi - l -> r - lo <= hi - l -> quick_inv m' lo r ((l, hi) :: st)).
Proof.
  intros Hq Hpa. pose proof (fun L => quick_parts m lo hi st m' l r L Hq Hpa) as HL.
  destruct Hq as [Hb Hse _ [D1 D2]], Hpa as [Sh B _]. apply Forall_cons in Hse as [[G1 [G2 G3]] Hst]. cbn [fst snd] in *.
  pose proof (sh_bytes _ _ _ _ _ _ _ Sh Hb) as Hb'. unfold MAX_THRESH in *.
  assert (0 < 2 ^ Z.of_nat (length st)) as Hpow by (apply Z.pow_pos_nonneg; lia).
  assert (2 ^ Z.of_nat (S (length st)) = 2 * 2 ^ Z.of_nat (length st)) as HS by (rewrite Nat2Z.inj_succ, Z.pow_succ_r by lia; done).
  assert (seg_ok (l, hi) \/ hi - l <= 4) as Hl by (unfold seg_ok; cbn [fst snd]; lia).
  assert (seg_ok (lo, r) \/ r - lo <= 4) as Hr by (unfold seg_ok; cbn [fst snd]; lia).
  split_and!; intros.
  - destruct (HL []) as [h Hh]; [tauto|]. destruct st as [|[lo2 hi2] st2]; [by eapply leftmost_nil|]. split; eauto.
  - split; [done|constructor; [destruct Hl; [done|lia]|done]|apply (HL [(l, hi)]); tauto|split; [cbn [fst snd]; nia|done]].
  - split; [done|constructor; [destruct Hr; [done|lia]|done]|apply (HL [(lo, r)]); tauto|split; [cbn [fst snd]; nia|done]].
  - split; [done|repeat (constructor; [destruct Hl, Hr; (done || lia)|]); done|apply (HL [(l, hi); (lo, r)]); tauto|].
    cbn [depth_ok fst snd length]. rewrite HS. split_and!; [nia|nia|done].
  - split; [done|repeat (constructor; [destruct Hl, Hr; (done || lia)|]); done|apply (HL [(lo, r); (l, hi)]); tauto|].
    cbn [depth_ok fst snd length]. rewrite HS. split_and!; [nia|nia|done].
Qed.

Lemma ptrs_length st : length (ptrs st) = length st.
Proof. apply length_map. Qed.

Lemma quick_loop_spec fuel steps m lo hi st :
  quick_inv m lo hi st -> N + 1 < Z.of_nat steps -> weight ((lo, hi) :: st) < Z.of_nat fuel ->
  exists m', quick_loop cmp size fuel steps m (at_ lo) (at_ hi) (ptrs st) = Some m' /\ shuf 0 (N - 1) m m' /\ least_first m'.
Proof.
  revert m lo hi st. induction fuel as [|fuel IH]; intros m lo hi st Hq Hst Hf;
    pose proof (qi_segs _ _ _ _ Hq) as Hse; pose proof (qi_depth _ _ _ _ Hq) as [Hde _]; cbn [fst snd] in Hde;
    apply Forall_cons in Hse as [[G1 [G2 G3]] Hs]; pose proof (weight_nonneg st Hs) as Hw; cbn [weight foldr fst snd] in *; fold (weight st) in Hf; [lia|].
  cbn [quick_loop].
  destruct (partition_spec steps m lo hi (qi_bytes _ _ _ _ Hq) G1 ltac:(lia) G3 Hst) as (m' & l & r & -> & Hpa). cbn [mbind option_bind].
  destruct (quick_next m lo hi st m' l r Hq Hpa) as (N1 & N2 & N3 & N4 & N5).
  assert (forall lo2 hi2 st2, quick_inv m' lo2 hi2 st2 -> weight ((lo2, hi2) :: st2) < Z.of_nat fuel ->
    exists m2, quick_loop cmp size fuel steps m' (at_ lo2) (at_ hi2) (ptrs st2) = Some m2 /\ shuf 0 (N - 1) m m2 /\ least_first m2) as Hgo.
  { intros lo2 hi2 st2 Hq2 Hw2. destruct (IH m' lo2 hi2 st2 Hq2 Hst Hw2) as (m2 & E & S2 & L2). exists m2. split_and!; [done| |done].
    eapply shuf_trans; [lia|lia| |exact S2]. eapply shuf_mono; [| |apply Hpa]; lia. }
  pose proof (pa_bounds _ _ _ _ _ _ Hpa) as B. rewrite !diff_small by lia. rewrite ptrs_length.
  assert (forall e, 6 <= hi - lo + 1 -> (if Z.of_nat (length st) + 1 <? STACK_SIZE then Some (e :: ptrs st) else None) = Some (e :: ptrs st)) as Hpush.
  { intros e H6. pose proof (depth_room (length st) (hi - lo + 1) H6 Hde). by destruct (Z.ltb_spec (Z.of_nat (length st) + 1) STACK_SIZE); [|lia]. }
  replace (at_ hi - at_ l <? at_ r - at_ lo) with (hi - l <? r - lo)
    by (rewrite !at_minus; destruct (Z.ltb_spec (hi - l) (r - lo)), (Z.ltb_spec (size * (hi - l)) (size * (r - lo))); nia || done).
  destruct (Z.leb_spec (r - lo) MAX_THRESH) as [Hr|Hr], (Z.leb_spec (hi - l) MAX_THRESH) as [Hl|Hl]; unfold MAX_THRESH in *.
  - specialize (N1 Hr). destruct st as [|[lo2 hi2] st2].
    + exists m'. split_and!; [done| |done]. eapply shuf_mono; [| |apply Hpa]; lia.
    + apply (Hgo lo2 hi2 st2 N1). lia.
  - apply (Hgo l hi st); [auto|]. cbn [weight foldr fst snd]. fold (weight st). lia.
  - apply (Hgo lo r st); [auto|]. cbn [weight foldr fst snd]. fold (weight st). lia.
  - rewrite !Hpush by lia. cbn [mbind option_bind]. destruct (Z.ltb_spec (hi - l) (r - lo)).
    + apply (Hgo l hi ((lo, r) :: st)); [auto|]. cbn [weight foldr fst snd]. fold (weight st). lia.
    + apply (Hgo lo r ((l, hi) :: st)); [auto|]. cbn [weight foldr fst snd]. fold (weight st). lia.
Qed.
End Sort.
