(* ===== verification/QsortSorted.v ===== *)
(** * qsort sorts: the insertion sort and the whole

    The rotation moves one byte column at a time; the search for the place of an
    element has no bound but the least element at the start of the array. *)
From Stdlib Require Import Sorting.Permutation.
From S2P Require Import Prelude Mem Qsort.

Section Rotate.
Context (size base N : Z).
Hypotheses (size_pos : 0 < size).
Abbreviation arr := (arr size base).
Abbreviation at_ := (at_ size base).
Abbreviation shuf := (shuf size base N).

(** The row and the column of an address: its element and its byte there. *)
Definition row (x : Z) : Z := (x - base) / size.
Definition col (x : Z) : Z := (x - base) mod size.

Lemma row_col x : x = at_ (row x) + col x /\ 0 <= col x < size.
Proof.
  unfold row, col, Qsort.at_. pose proof (Z.div_mod (x - base) size). pose proof (Z.mod_pos_bound (x - base) size). lia.
Qed.

Lemma row_col_at j b : 0 <= b < size -> row (at_ j + b) = j /\ col (at_ j + b) = b.
Proof.
  intros Hb. unfold row, col, Qsort.at_. replace (base + size * j + b - base) with (size * j + b) by lia. split.
  - symmetry. by apply (Z.div_unique _ _ _ b); [lia|].
  - symmetry. by apply (Z.mod_unique _ _ j); [lia|].
Qed.

Lemma row_col_eq j b x : 0 <= b < size -> x = at_ j + b <-> row x = j /\ col x = b.
Proof.
  intros Hb. split; [intros ->; by apply row_col_at|]. intros [<- <-]. apply row_col.
Qed.

Lemma row_col_prev x : row (x - size) = row x - 1 /\ col (x - size) = col x.
Proof.
  destruct (row_col x) as [E Hc]. apply row_col_eq; [done|]. rewrite E at 1. unfold Qsort.at_. lia.
Qed.

Lemma shift_byte_spec fuel m j b t v :
  bytes_ok m -> 0 <= b < size -> t <= j < t + Z.of_nat fuel -> 0 <= v < 256 ->
  exists m', shift_byte size fuel m (at_ j + b) (at_ t) v = Some m' /\ bytes_ok m' /\
    forall x, m' x = if decide (col x = b /\ t <= row x <= j) then if decide (row x = t) then v else m (x - size) else m x.
Proof.
  revert m j. induction fuel as [|fuel IH]; intros m j Hb Hcol Hj Hv; [lia|]. cbn [shift_byte].
  replace (at_ j + b - size) with (at_ (j - 1) + b) by (unfold Qsort.at_; lia).
  destruct (Z.leb_spec (at_ t) (at_ (j - 1) + b)) as [Hle|Hgt].
  - assert (t <= j - 1) by (unfold Qsort.at_ in Hle; nia).
    destruct (IH (mset m (at_ j + b) (m (at_ (j - 1) + b))) (j - 1)) as (m' & E & Hb' & Hm'); [by apply mset_ok|done|lia|done|].
    exists m'. split_and!; [done..|]. intros x. rewrite Hm'. destruct (row_col_prev x) as [R C].
    assert (forall y, mset m (at_ j + b) (m (at_ (j - 1) + b)) y = if decide (row y = j /\ col y = b) then m (y - size) else m y) as Hset.
    { intros y. unfold mset. destruct (Z.eqb_spec y (at_ j + b)) as [Ey|Ey].
      - rewrite decide_True by (by apply row_col_eq). rewrite Ey. unfold wrap. rewrite Z.mod_small by apply Hb.
        f_equal. unfold Qsort.at_. lia.
      - rewrite decide_False; [done|]. by rewrite <- row_col_eq. }
    rewrite !Hset, R, C. repeat case_decide; try done; lia.
  - assert (j = t) as -> by (unfold Qsort.at_ in Hgt; nia). exists (mset m (at_ t + b) v). split_and!; [done|by apply mset_ok|].
    intros x. unfold mset. destruct (Z.eqb_spec x (at_ t + b)) as [E|E].
    + apply row_col_eq in E as [E1 E2]; [|done]. rewrite !decide_True by lia. by apply Z.mod_small.
    + rewrite decide_False; [done|]. intros [E1 E2]. apply E, row_col_eq; [done|]. lia.
Qed.

Lemma rotate_spec n steps m k t :
  bytes_ok m -> Z.of_nat n <= size -> t <= k < t + Z.of_nat steps ->
  exists m', rotate size n steps m (at_ k) (at_ t) = Some m' /\ bytes_ok m' /\
    forall x, m' x = if decide (col x < Z.of_nat n /\ t <= row x <= k)
                     then if decide (row x = t) then m (at_ k + col x) else m (x - size) else m x.
Proof.
  revert m. induction n as [|n IH]; intros m Hb Hn Hk; cbn [rotate].
  - exists m. split_and!; [done..|]. intros x. destruct (row_col x) as [_ ?]. by rewrite decide_False by lia.
  - destruct (shift_byte_spec steps m k (Z.of_nat n) t (m (at_ k + Z.of_nat n))) as (m1 & -> & Hb1 & Hm1); [done|lia|lia|apply Hb|].
    cbn [mbind option_bind]. destruct (IH m1 Hb1 ltac:(lia) Hk) as (m2 & E & Hb2 & Hm2). exists m2. split_and!; [done..|].
    intros x. rewrite Hm2. destruct (row_col x) as [_ Hc]. destruct (row_col_prev x) as [R C].
    destruct (row_col_at k (col x) Hc) as [R1 C1]. rewrite !Hm1, R, C, R1, C1.
    destruct (decide (col x = Z.of_nat n)) as [E2|]; repeat case_decide; try done; try lia. by rewrite E2.
Qed.

(** The elements after a rotation, and that it is a shuffle. *)
Lemma rotate_shuf steps m k t :
  bytes_ok m -> 0 <= t <= k -> k < N -> k < t + Z.of_nat steps ->
  exists m', rotate size (Z.to_nat size) steps m (at_ k) (at_ t) = Some m' /\ shuf 0 (N - 1) m m' /\
    forall j, arr m' j = if decide (j = t) then arr m k else if decide (t < j <= k) then arr m (j - 1) else arr m j.
Proof.
  intros Hb Ht HN Hst. destruct (rotate_spec (Z.to_nat size) steps m k t Hb ltac:(lia) ltac:(lia)) as (m' & E & Hb' & Hm').
  exists m'. split; [done|].
  assert (forall j, arr m' j = if decide (j = t) then arr m k else if decide (t < j <= k) then arr m (j - 1) else arr m j) as Harr.
  { intros j. unfold Qsort.arr. repeat case_decide; (apply elt_ext; [done|]); intros b Hbs; rewrite Hm'; destruct (row_col_at j b Hbs) as [-> ->].
    - rewrite !decide_True by lia. done.
    - rewrite decide_True, decide_False by lia. f_equal. unfold Qsort.at_. lia.
    - by rewrite decide_False by lia. }
  split; [|done]. split; [done|..].
  - intros x Hx. rewrite Hm'. rewrite decide_False; [done|]. destruct (row_col x) as [Ex Hc]. unfold Qsort.at_ in Ex. nia.
  - exists (fun j => if decide (j = t) then k else if decide (t < j <= k) then j - 1 else j). split_and!.
    + intros j Hj. repeat case_decide; lia.
    + intros i j H. repeat case_decide; lia.
    + intros j Hj. repeat case_decide; lia.
    + intros j Hj. rewrite Harr. by repeat case_decide.
Qed.
End Rotate.

Section Insertion.
Context (cmp : mem -> Z -> Z -> Z) (c : list Z -> list Z -> Z) (size base N : Z).
Hypotheses (size_pos : 0 < size) (size_word : size < 2 ^ 64) (fits : size * N < 2 ^ 64).
Hypothesis cmp_elt : forall m a b, cmp m a b = c (elt size m a) (elt size m b).
Hypothesis Hc : total_order c.
Abbreviation arr := (arr size base).
Abbreviation at_ := (at_ size base).
Abbreviation shuf := (shuf size base N).
Abbreviation le := (le c).

Lemma find_min_spec fuel m k th t :
  0 <= t < k -> k <= th + 1 -> (forall j, 0 <= j < k -> le (arr m t) (arr m j)) -> th + 1 < k + Z.of_nat fuel ->
  exists t', find_min cmp size fuel m (at_ k) (at_ th) (at_ t) = Some (at_ t') /\ 0 <= t' <= th /\
    forall j, 0 <= j <= th -> le (arr m t') (arr m j).
Proof.
  revert k t. induction fuel as [|fuel IH]; intros k t Ht Hk Hm Hf; [lia|]. cbn [find_min].
  rewrite (at_leb size base size_pos), (cmp_arr cmp c size base cmp_elt), at_next.
  destruct (Z.leb_spec k th).
  2: { exists t. split_and!; [done|lia..|]. intros j Hj. apply Hm. lia. }
  destruct (Z.ltb_spec (c (arr m k) (arr m t)) 0) as [Hlt|Hge]; apply IH; try lia.
  - intros j Hj. destruct (decide (j = k)) as [->|]; [by apply le_refl|]. eapply le_trans; [done|by apply lt_le|apply Hm; lia].
  - intros j Hj. destruct (decide (j = k)) as [->|]; [done|]. apply Hm. lia.
Qed.

Lemma find_slot_spec fuel m k t :
  0 <= t < Z.of_nat fuel -> le (arr m 0) (arr m k) ->
  exists t', find_slot cmp size fuel m (at_ k) (at_ t) = Some (at_ t') /\ 0 <= t' <= t /\
    le (arr m t') (arr m k) /\ forall j, t' < j <= t -> le (arr m k) (arr m j).
Proof.
  revert t. induction fuel as [|fuel IH]; intros t Ht H0; [lia|]. cbn [find_slot].
  rewrite (cmp_arr cmp c size base cmp_elt), at_prev. destruct (Z.ltb_spec (c (arr m k) (arr m t)) 0) as [Hlt|Hge].
  - destruct (decide (t = 0)) as [->|]; [unfold Qsort.le in H0; lia|].
    destruct (IH (t - 1) ltac:(lia) H0) as (t' & E & Ht' & Hle & Hj). exists t'. split_and!; [done|lia..|done|].
    intros j Hj2. destruct (decide (j = t)) as [->|]; [by apply lt_le|]. apply Hj. lia.
  - exists t. split_and!; [done|lia..|done|]. intros; lia.
Qed.

Definition sorted_to (m : mem) (k : Z) : Prop := forall i j, 0 <= i <= j -> j <= k -> j < N -> le (arr m i) (arr m j).
Definition least (m : mem) : Prop := forall j, 0 <= j < N -> le (arr m 0) (arr m j).

(** Element [k] moved to [t], before those it precedes. *)
Lemma sorted_insert m m' k t :
  sorted_to m (k - 1) -> 0 <= t <= k -> k < N -> (0 < t -> le (arr m (t - 1)) (arr m k)) ->
  (forall j, t <= j < k -> le (arr m k) (arr m j)) ->
  (forall j, arr m' j = if decide (j = t) then arr m k else if decide (t < j <= k) then arr m (j - 1) else arr m j) ->
  sorted_to m' k.
Proof.
  intros Hs Ht HN Hlt Hgt Harr i j Hij Hj HjN. rewrite !Harr. repeat case_decide; subst; try lia;
    first [by apply le_refl | apply Hgt; lia | apply Hs; lia | eapply le_trans; [done|apply (Hs i (t - 1)); lia|apply Hlt; lia]].
Qed.

(** The least element stays where it is. *)
Lemma least_shuf m m' : 0 < N -> least m -> shuf 0 (N - 1) m m' -> arr m' 0 = arr m 0 -> least m'.
Proof.
  intros HN Hl Hs H0 j Hj. rewrite H0.
  eapply (shuf_range size base N 0 (N - 1) 0 (N - 1) m m' (fun x => le (arr m 0) x)); [lia|lia|done|lia| |lia].
  intros k Hk. apply Hl. lia.
Qed.

Lemma insert_loop_spec fuel steps m k :
  bytes_ok m -> 1 <= k <= N -> 0 < N -> sorted_to m k -> least m -> N < k + Z.of_nat fuel -> N < Z.of_nat steps ->
  exists m', insert_loop cmp size fuel steps m (at_ k) (at_ (N - 1)) = Some m' /\ shuf 0 (N - 1) m m' /\ sorted_to m' (N - 1).
Proof.
  revert m k. induction fuel as [|fuel IH]; intros m k Hb Hk HN Hs Hl Hf Hst; cbn [insert_loop];
    rewrite ?at_next, ?(at_leb size base size_pos).
  { lia. }
  destruct (Z.leb_spec (k + 1) (N - 1)) as [Hle|Hgt].
  2: { exists m. split_and!; [done|apply shuf_refl|]. intros i j Hij Hj HjN. apply Hs; lia. }
  rewrite at_prev. replace (k + 1 - 1) with k by lia.
  destruct (find_slot_spec steps m (k + 1) k) as (t & E & Ht & Hlt & Hgt); [lia|apply Hl; lia|].
  rewrite E. cbn [mbind option_bind]. rewrite at_next, (at_eqb size base size_pos).
  assert (exists m1, (if t + 1 =? k + 1 then Some m else rotate size (Z.to_nat size) steps m (at_ (k + 1)) (at_ (t + 1))) = Some m1 /\
    shuf 0 (N - 1) m m1 /\
    forall j, arr m1 j = if decide (j = t + 1) then arr m (k + 1) else if decide (t + 1 < j <= k + 1) then arr m (j - 1) else arr m j) as (m1 & -> & S1 & A1).
  { destruct (Z.eqb_spec (t + 1) (k + 1)) as [He|Hne].
    - exists m. split_and!; [done|apply shuf_refl|]. intros j. repeat case_decide; subst; (lia || f_equal; lia || done).
    - apply rotate_shuf; (done || lia). }
  cbn [mbind option_bind]. destruct (IH m1 (k + 1)) as (m2 & E2 & S2 & H2); try done; try lia.
  - by apply (sh_bytes _ _ _ _ _ _ _ S1).
  - eapply (sorted_insert m m1 (k + 1) (t + 1)); [|lia|lia|..|done].
    + by replace (k + 1 - 1) with k by lia.
    + intros _. by replace (t + 1 - 1) with t by lia.
    + intros j Hj. apply Hgt. lia.
  - apply (least_shuf m); [done..|]. rewrite A1. by rewrite !decide_False by lia.
  - exists m2. split_and!; [done| |done]. eapply shuf_trans; [lia|lia|exact S1|done].
Qed.

Lemma insertion_spec steps m :
  bytes_ok m -> 0 < N -> least_first c size base N m -> N + 1 < Z.of_nat steps ->
  exists m', insertion cmp size steps m base N = Some m' /\ shuf 0 (N - 1) m m' /\ sorted_to m' (N - 1).
Proof.
  intros Hb HN (h & Hh & HhN & Hsp) Hst. unfold insertion, max_thresh, MAX_THRESH in *.
  replace (base + size) with (at_ 1) by (unfold Qsort.at_; lia). assert (at_ 0 = base) as Eb by (unfold Qsort.at_; lia).
  change (base + size * (N - 1)) with (at_ (N - 1)). set (th := Z.min (N - 1) 4).
  replace (Z.min (at_ (N - 1)) (base + 4 * size)) with (at_ th) by (unfold th, Qsort.at_; nia).
  destruct (find_min_spec steps m 1 th 0) as (t & E & Ht & Hmin); [lia|unfold th; lia| |unfold th; lia|].
  { intros j Hj. replace j with 0 by lia. by apply le_refl. }
  rewrite Eb in E. rewrite E. cbn [mbind option_bind].
  replace (at_ t =? base) with (t =? 0) by (rewrite <- (at_eqb size base size_pos), Eb; done).
  replace (SWAP size (at_ t) base m) with (SWAP size (at_ t) (at_ 0) m) by (by rewrite Eb).
  assert (forall j, 0 <= j < N -> le (arr m t) (arr m j)) as Hall.
  { intros j Hj. destruct (Z.leb_spec j th) as [|Hgt]; [apply Hmin; lia|]. eapply le_trans; [done|apply (Hmin 0); unfold th; lia|].
    apply Hsp; unfold th in Hgt; lia. }
  set (m1 := if t =? 0 then m else SWAP size (at_ t) (at_ 0) m).
  assert (shuf 0 (N - 1) m m1 /\ arr m1 0 = arr m t) as [S1 A1].
  { unfold m1. destruct (Z.eqb_spec t 0) as [->|Hne]; [split; [apply shuf_refl|done]|].
    split; [apply shuf_swap; (done || unfold th in Ht; lia)|]. rewrite arr_swap by (done || lia). by rewrite decide_False, decide_True by lia. }
  assert (least m1) as Hl1.
  { intros j Hj. rewrite A1. eapply (shuf_range size base N 0 (N - 1) 0 (N - 1) m m1 (fun x => le (arr m t) x)); [lia|lia|done|lia| |lia].
    intros k Hk. apply Hall. lia. }
  destruct (insert_loop_spec steps steps m1 1) as (m2 & E2 & S2 & H2); try done; try lia.
  - by apply (sh_bytes _ _ _ _ _ _ _ S1).
  - intros i j Hij Hj HjN. destruct (decide (i = j)) as [->|]; [by apply le_refl|]. replace i with 0 by lia. apply Hl1. lia.
  - exists m2. split_and!; [done| |done]. eapply shuf_trans; [lia|lia|exact S1|done].
Qed.
End Insertion.

(** C15: qsort sorts.  For a comparison that orders the elements, it returns on
    every array that fits in the address space, however long; its stack of
    64 entries never overflows and no scan leaves the array.  Afterwards the
    array holds the same elements, each the number of times it did, in
    order, and no byte outside the array has changed. *)
Theorem qsort_sorts (cmp : mem -> Z -> Z -> Z) (c : list Z -> list Z -> Z) (size base N : Z) (m : mem) :
  0 < size < 2 ^ 64 -> 0 <= N -> size * N < 2 ^ 64 -> bytes_ok m ->
  (forall m a b, cmp m a b = c (elt size m a) (elt size m b)) -> total_order c ->
  exists m', qsort cmp size m base N = Some m' /\
    Permutation (elems size base N m') (elems size base N m) /\
    (forall i j, 0 <= i <= j -> j < N -> 0 <= c (arr size base m' j) (arr size base m' i)) /\
    (forall x, x < base \/ base + size * N <= x -> m' x = m x).
Proof.
  intros [Hs1 Hs2] HN Hfit Hb Hcmp Hc. unfold qsort. destruct (Z.eqb_spec N 0) as [->|Hne].
  { exists m. split_and!; [done|done|lia|done]. }
  set (steps := Z.to_nat (2 * N + 2)).
  assert (exists m1, (if MAX_THRESH <? N then quick_loop cmp size steps steps m base (base + size * (N - 1)) [] else Some m) = Some m1 /\
    shuf size base N 0 (N - 1) m m1 /\ least_first c size base N m1) as (m1 & -> & S1 & L1).
  { unfold MAX_THRESH. destruct (Z.ltb_spec 4 N) as [H4|H4].
    - destruct (quick_loop_spec cmp c size base N Hs1 Hs2 Hfit Hcmp Hc steps steps m 0 (N - 1) []) as (m1 & E & S1 & L1).
      + split; [done| | |split; [cbn [fst snd length Z.of_nat Z.pow]; lia|done]].
        * constructor; [split; cbn [fst snd]; lia|done].
        * exists (N - 1). split_and!; [lia..|intros i j Hi Hj; lia|]. left. rewrite low_cons. cbn [fst].
          by destruct (Z.leb_spec 0 (N - 1)); [|lia].
      + unfold steps. lia.
      + cbn [weight foldr fst snd]. unfold steps. lia.
      + exists m1. split; [|done]. rewrite <- E. f_equal. unfold at_. lia.
    - exists m. split_and!; [done|apply shuf_refl|]. exists (N - 1). unfold MAX_THRESH. split_and!; [lia..|]. intros i j Hi Hj. lia. }
  cbn [mbind option_bind].
  destruct (insertion_spec cmp c size base N Hs1 Hs2 Hfit Hcmp Hc steps m1) as (m2 & -> & S2 & H2);
    [by apply (sh_bytes _ _ _ _ _ _ _ S1)|lia|done|unfold steps; lia|].
  assert (shuf size base N 0 (N - 1) m m2) as S by (eapply shuf_trans; [lia|lia|exact S1|done]).
  exists m2. split_and!; [done|eapply shuf_elems; [| |exact S]; lia| |apply S].
  intros i j Hi Hj. apply (H2 i j); lia.
Qed.

(** ** Witness: seven 16-bit numbers, least byte first *)

Definition u16 (x : list Z) : Z := match x with [a; b] => a + 256 * b | _ => 0 end.
Definition cmp16 (m : mem) (a b : Z) : Z := u16 (elt 2 m a) - u16 (elt 2 m b).
Definition seven : mem := fun x => nth (Z.to_nat (x - 100)) [5; 1; 7; 0; 3; 9; 3; 0; 200; 0; 5; 1; 0; 0] 0 mod 256.

Lemma qsort_sorts_witness :
  exists m', qsort cmp16 2 seven 100 7 = Some m' /\ Permutation (elems 2 100 7 m') (elems 2 100 7 seven) /\
    elems 2 100 7 m' = [[0; 0]; [3; 0]; [7; 0]; [200; 0]; [5; 1]; [5; 1]; [3; 9]].
Proof.
  destruct (qsort_sorts cmp16 (fun x y => u16 x - u16 y) 2 100 7 seven) as (m' & E & P & _ & _).
  - lia.
  - lia.
  - done.
  - intros x. apply Z.mod_pos_bound. lia.
  - done.
  - split; lia.
  - exists m'. split_and!; [done|done|]. vm_compute in E. injection E as <-. reflexivity.
Defined.
