(* ===== verification/KTypes.v ===== *)
(** * kernel/include/riscv.h and memlayout.h: pages, page-table entries, layout

    The constants and macros the memory components use, for the RISC-V build
    (the [ARCHS] of the Makefile). *)
From S2P Require Import Prelude Mem.
Definition PGSIZE : Z := 4096.
Definition PGSHIFT : Z := 12.

Definition PGROUNDUP (sz : Z) : Z := Z.land (u64 (sz + PGSIZE - 1)) (Z.lnot (PGSIZE - 1)).
Definition PGROUNDDOWN (a : Z) : Z := Z.land a (Z.lnot (PGSIZE - 1)).

Definition PTE_V : Z := Z.shiftl 1 0.
Definition PTE_R : Z := Z.shiftl 1 1.
Definition PTE_W : Z := Z.shiftl 1 2.
Definition PTE_X : Z := Z.shiftl 1 3.
Definition PTE_U : Z := Z.shiftl 1 4.
Definition PTE_A : Z := Z.shiftl 1 6.
Definition PTE_D : Z := Z.shiftl 1 7.

Definition PA2PTE (pa : Z) : Z := u64 (Z.shiftl (Z.shiftr pa 12) 10).
Definition PTE2PA (pte : Z) : Z := u64 (Z.shiftl (Z.shiftr pte 10) 12).
Definition PTE_FLAGS (pte : Z) : Z := Z.land pte 0x3FF.

Definition PXMASK : Z := 0x1FF.
Definition PXSHIFT (level : Z) : Z := PGSHIFT + 9 * level.
Definition PX (level va : Z) : Z := Z.land (Z.shiftr va (PXSHIFT level)) PXMASK.

Definition MAXVA : Z := Z.shiftl 1 (9 + 9 + 9 + 12 - 1).

Definition KERNBASE : Z := 0x80200000.
Definition PHYSTOP : Z := KERNBASE + 512 * 1024 * 1024.

Definition FINISHER_BASE : Z := 0x100000.
Definition UART0 : Z := 0x10000000.
Definition VIRTIO0 : Z := 0x10001000.
Definition PLIC : Z := 0x0c000000.

Definition NPROC : Z := 16.
Definition NTHREADS_PER_PROC : Z := 4.
Definition NTHREADS : Z := NPROC * NTHREADS_PER_PROC.

Definition TRAMPOLINE : Z := MAXVA - PGSIZE.
Definition KSTACK_PAGE : Z := 64.
Definition MAX_THREAD : Z := NTHREADS_PER_PROC.
Definition KSTACK (t : Z) : Z := TRAMPOLINE - (t + 1) * (KSTACK_PAGE + 1) * PGSIZE.
Definition SIGRETURN : Z := TRAMPOLINE - PGSIZE.
Definition TRAPFRAME : Z := SIGRETURN - PGSIZE.
Definition THREAD_TRAPFRAME (idx : Z) : Z := TRAPFRAME - idx * PGSIZE.
Definition MMAP_MAX_ADDR_START : Z := THREAD_TRAPFRAME MAX_THREAD.

(** [pa] is the address of a page. *)
Definition page_aligned (a : Z) : Prop := a mod PGSIZE = 0.

(** [x] is a byte of the page [pa]. *)
Definition in_page (pa x : Z) : Prop := pa <= x < pa + PGSIZE.

Section Pages.
Implicit Types a sz va pa pte : Z.

Lemma PGROUNDDOWN_eq a : PGROUNDDOWN a = a / PGSIZE * PGSIZE.
Proof. apply (land_lnot_ones a 12). lia. Qed.

Lemma PGROUNDUP_eq sz :
  0 <= sz <= 2 ^ 64 - PGSIZE -> PGROUNDUP sz = (sz + PGSIZE - 1) / PGSIZE * PGSIZE.
Proof.
  intros H. unfold PGROUNDUP, PGSIZE in *. rewrite wrap_small by lia.
  apply (land_lnot_ones (sz + 4096 - 1) 12). lia.
Qed.

Lemma PGROUNDDOWN_spec a : page_aligned (PGROUNDDOWN a) /\ PGROUNDDOWN a <= a < PGROUNDDOWN a + PGSIZE.
Proof.
  rewrite PGROUNDDOWN_eq. unfold page_aligned, PGSIZE.
  rewrite Z.mod_mul by lia. pose proof (Z.div_mod a 4096). pose proof (Z.mod_pos_bound a 4096). lia.
Qed.

Lemma PGROUNDDOWN_aligned a : page_aligned a -> PGROUNDDOWN a = a.
Proof. rewrite PGROUNDDOWN_eq. unfold page_aligned, PGSIZE. intros. pose proof (Z.div_mod a 4096). lia. Qed.

Lemma PGROUNDUP_spec sz :
  0 <= sz <= 2 ^ 64 - PGSIZE ->
  page_aligned (PGROUNDUP sz) /\ sz <= PGROUNDUP sz < sz + PGSIZE.
Proof.
  intros. rewrite PGROUNDUP_eq by done. unfold page_aligned, PGSIZE.
  rewrite Z.mod_mul by lia.
  pose proof (Z.div_mod (sz + 4096 - 1) 4096). pose proof (Z.mod_pos_bound (sz + 4096 - 1) 4096). lia.
Qed.

Lemma page_disjoint p q : page_aligned p -> page_aligned q -> p <> q -> p + PGSIZE <= q \/ q + PGSIZE <= p.
Proof.
  unfold page_aligned, PGSIZE. intros Hp Hq Hne.
  pose proof (Z.div_mod p 4096). pose proof (Z.div_mod q 4096). lia.
Qed.

Lemma in_page_eq pa pb x :
  page_aligned pa -> page_aligned pb -> in_page pa x -> in_page pb x -> pa = pb.
Proof.
  intros Ha Hb H1 H2. unfold in_page in *. destruct (decide (pa = pb)) as [|Hne]; [done|].
  destruct (page_disjoint pa pb Ha Hb Hne); lia.
Qed.

Lemma PX_range level va : 0 <= PX level va < 512.
Proof. unfold PX, PXMASK. change 0x1FF with (Z.ones 9). rewrite Z.land_ones by lia. apply Z.mod_pos_bound. lia. Qed.

Lemma PX_eq level va : 0 <= level -> PX level va = va / 2 ^ (12 + 9 * level) mod 512.
Proof.
  intros. unfold PX, PXMASK, PXSHIFT, PGSHIFT. change 0x1FF with (Z.ones 9).
  rewrite Z.land_ones, Z.shiftr_div_pow2 by lia. done.
Qed.

(** Below [MAXVA], the three indices determine the page of an address. *)
Lemma PX_inj va va' :
  0 <= va < MAXVA -> 0 <= va' < MAXVA ->
  PX 2 va = PX 2 va' -> PX 1 va = PX 1 va' -> PX 0 va = PX 0 va' ->
  PGROUNDDOWN va = PGROUNDDOWN va'.
Proof.
  intros H H'. rewrite !PX_eq by lia. rewrite !PGROUNDDOWN_eq. unfold PGSIZE.
  change (2 ^ (12 + 9 * 2)) with (4096 * 512 * 512). change (2 ^ (12 + 9 * 1)) with (4096 * 512).
  change (2 ^ (12 + 9 * 0)) with 4096.
  rewrite <- !Z.div_div by lia.
  change MAXVA with (4096 * (512 * 512 * 256)) in *.
  pose proof (Z.div_lt_upper_bound va 4096 (512 * 512 * 256) ltac:(lia) ltac:(lia)).
  pose proof (Z.div_lt_upper_bound va' 4096 (512 * 512 * 256) ltac:(lia) ltac:(lia)).
  pose proof (Z.div_pos va 4096 ltac:(lia) ltac:(lia)).
  pose proof (Z.div_pos va' 4096 ltac:(lia) ltac:(lia)).
  generalize dependent (va / 4096). generalize dependent (va' / 4096). clear.
  intros v' Hv' Hv'0 v Hv Hv0.
  pose proof (Z.div_mod v 512). pose proof (Z.div_mod v' 512).
  pose proof (Z.div_mod (v / 512) 512). pose proof (Z.div_mod (v' / 512) 512).
  pose proof (Z.div_mod (v / 512 / 512) 512). pose proof (Z.div_mod (v' / 512 / 512) 512).
  assert (v / 512 / 512 / 512 = 0) by (rewrite !Z.div_div by lia; apply Z.div_small; lia).
  assert (v' / 512 / 512 / 512 = 0) by (rewrite !Z.div_div by lia; apply Z.div_small; lia).
  lia.
Qed.

(** A page-table entry carries the address of a page and its flag bits. *)
Lemma PA2PTE_eq pa : page_aligned pa -> 0 <= pa < 2 ^ 56 -> PA2PTE pa = pa / 4096 * 2 ^ 10.
Proof.
  intros Ha H. unfold PA2PTE. rewrite Z.shiftr_div_pow2, Z.shiftl_mul_pow2 by lia.
  apply wrap_small. change (2 ^ 12) with 4096. change (2 ^ 10) with 1024.
  pose proof (Z.div_pos pa 4096 ltac:(lia) ltac:(lia)).
  pose proof (Z.div_lt_upper_bound pa 4096 (2 ^ 44) ltac:(lia) ltac:(lia)). lia.
Qed.

Lemma pte_make pa flags :
  page_aligned pa -> 0 <= pa < 2 ^ 56 -> 0 <= flags < 2 ^ 10 ->
  let pte := Z.lor (PA2PTE pa) flags in
  PTE2PA pte = pa /\ PTE_FLAGS pte = flags /\ 0 <= pte < 2 ^ 64.
Proof.
  intros Ha H Hf. rewrite PA2PTE_eq, lor_low_high by (done || lia).
  unfold page_aligned, PGSIZE in Ha. pose proof (Z.div_mod pa 4096) as Hdm.
  pose proof (Z.div_pos pa 4096 ltac:(lia) ltac:(lia)).
  pose proof (Z.div_lt_upper_bound pa 4096 (2 ^ 44) ltac:(lia) ltac:(lia)).
  split_and!; [| |change (2 ^ 10) with 1024 in *; lia..].
  - unfold PTE2PA. rewrite Z.shiftr_div_pow2, Z.shiftl_mul_pow2 by lia.
    rewrite Z.div_add_l, (Z.div_small flags), Z.add_0_r by lia.
    rewrite wrap_small; change (2 ^ 12) with 4096; lia.
  - unfold PTE_FLAGS. change 0x3FF with (Z.ones 10). rewrite Z.land_ones by lia.
    rewrite Z.add_comm, Z.mod_add, Z.mod_small by lia. done.
Qed.
End Pages.

(** * Names of kernel objects

    The states of threads and processes (kernel/include/thread.h, proc.h) and
    symbolic addresses for the objects the kernel links together: its queues,
    the [struct list_head] fields embedded in its structures, and its
    spinlocks.  Threads and processes are indices into [tcb_pool] and [proc];
    an object obtained from the page allocator is the address of its page. *)

Inductive thread_state :=
| TCB_UNUSED | TCB_USED | TCB_RUNNABLE | TCB_RUNNING | TCB_SLEEPING.

Inductive procstate := UNUSED | USED | ZOMBIE.

#[global] Instance thread_state_dec : EqDecision thread_state.
Proof. solve_decision. Defined.
#[global] Instance procstate_dec : EqDecision procstate.
Proof. solve_decision. Defined.

Definition thread_state_num (s : thread_state) : nat :=
  match s with
  | TCB_UNUSED => 0 | TCB_USED => 1 | TCB_RUNNABLE => 2 | TCB_RUNNING => 3 | TCB_SLEEPING => 4
  end.
Definition procstate_num (s : procstate) : nat :=
  match s with UNUSED => 0 | USED => 1 | ZOMBIE => 2 end.

(** Every [queue_t] of the kernel: the state queues of sched.c and thread.c, the
    waiting queue of a futex and of a condition variable. *)
Inductive qid :=
| PQ (s : procstate)
| TQ (s : thread_state)
| FutexQ (fp : Z)
| CondQ (c : Z).

#[global] Instance qid_dec : EqDecision qid.
Proof. solve_decision. Defined.

Definition qid_code (q : qid) : nat * Z :=
  match q with
  | PQ s => (procstate_num s, 0)
  | TQ s => ((3 + thread_state_num s)%nat, 0)
  | FutexQ a => (8%nat, a)
  | CondQ a => (9%nat, a)
  end.
Definition qid_uncode (c : nat * Z) : qid :=
  match c with
  | (0, _) => PQ UNUSED | (1, _) => PQ USED | (2, _) => PQ ZOMBIE
  | (3, _) => TQ TCB_UNUSED | (4, _) => TQ TCB_USED | (5, _) => TQ TCB_RUNNABLE
  | (6, _) => TQ TCB_RUNNING | (7, _) => TQ TCB_SLEEPING
  | (8, a) => FutexQ a | (_, a) => CondQ a
  end%nat.
#[global] Instance qid_countable : Countable qid.
Proof. apply (inj_countable' qid_code qid_uncode). by intros [[]|[]| |]. Defined.

(** Every [struct list_head] of the kernel. *)
Inductive lptr :=
| QHead (q : qid)          (* &q->list *)
| TState (t : nat)         (* &t->state_list *)
| TWait (t : nat)          (* &t->wait_list *)
| TThreads (t : nat)       (* &t->threads *)
| TgThreads (p : nat)      (* &p->tg.threads *)
| PState (p : nat)         (* &p->state_list *)
| PSibling (p : nat)       (* &p->sibling_list *)
| SigPending (t : nat)     (* &t->sig_pending.list *)
| SigQ (q : Z)             (* &q->list, q a struct sigqueue *)
| VmaList (p : nat)        (* &p->mm.vma_list *)
| Vma (v : Z)              (* &v->vma_list *)
| FHead (i : Z)            (* &futex_hashtable.hash_head[i].list *)
| FNode (n : Z).           (* &n->futex_hash_list_node *)

#[global] Instance lptr_dec : EqDecision lptr.
Proof. solve_decision. Defined.

Definition lptr_code (l : lptr) : nat * (qid + (nat + Z)) :=
  match l with
  | QHead q => (0, inl q)
  | TState t => (1, inr (inl t)) | TWait t => (2, inr (inl t)) | TThreads t => (3, inr (inl t))
  | TgThreads p => (4, inr (inl p)) | PState p => (5, inr (inl p)) | PSibling p => (6, inr (inl p))
  | SigPending t => (7, inr (inl t)) | VmaList p => (8, inr (inl p))
  | SigQ a => (9, inr (inr a)) | Vma a => (10, inr (inr a))
  | FHead i => (11, inr (inr i)) | FNode a => (12, inr (inr a))
  end%nat.
Definition lptr_uncode (c : nat * (qid + (nat + Z))) : lptr :=
  match c with
  | (_, inl q) => QHead q
  | (1, inr (inl t)) => TState t | (2, inr (inl t)) => TWait t | (3, inr (inl t)) => TThreads t
  | (4, inr (inl p)) => TgThreads p | (5, inr (inl p)) => PState p | (6, inr (inl p)) => PSibling p
  | (7, inr (inl t)) => SigPending t | (_, inr (inl p)) => VmaList p
  | (9, inr (inr a)) => SigQ a | (10, inr (inr a)) => Vma a
  | (11, inr (inr i)) => FHead i | (_, inr (inr a)) => FNode a
  end%nat.
#[global] Instance lptr_countable : Countable lptr.
Proof. apply (inj_countable' lptr_code lptr_uncode). by intros []. Defined.

(** The [struct buf] nodes of the block cache: bcache.head and bcache.buf[i]. *)
Inductive bptr := BHead | BBuf (i : nat).

#[global] Instance bptr_dec : EqDecision bptr.
Proof. solve_decision. Defined.

Definition bptr_code (b : bptr) : option nat := match b with BHead => None | BBuf i => Some i end.
Definition bptr_uncode (c : option nat) : bptr := match c with None => BHead | Some i => BBuf i end.
#[global] Instance bptr_countable : Countable bptr.
Proof. apply (inj_countable' bptr_code bptr_uncode). by intros []. Defined.

(** Every [struct spinlock] of the kernel. *)
Inductive lockid :=
| L_kmem
| L_queue (q : qid)
| L_tcb (t : nat)
| L_sighand (a : Z)
| L_sigpending (t : nat)
| L_proc (p : nat)
| L_lth_exit (p : nat)
| L_tg (p : nat)
| L_mm (p : nat)
| L_wait
| L_ticks
| L_timeout
| L_futex_table
| L_ftable
| L_pipe (pi : Z)
| L_sleeplock (lk : Z)
| L_sem (s : Z)
| L_log
| L_bcache
| L_vfs_mtable
| L_vfsmlist
| L_vfspool
| L_icache
| L_mtable
| L_xv6fs_sb_pool
| L_xv6fs_inode_pool
| L_vdisk
| L_cons
| L_uart
| L_bdev
| L_ext4_fpool
| L_ext4_ipool
| L_pr.

#[global] Instance lockid_dec : EqDecision lockid.
Proof. solve_decision. Defined.

(** * The machine a kernel routine runs on

    The byte memory, the head of the page allocator's free list and its
    counter, and the locks the hart holds.  [acquire] and [release] are the
    spinlock operations as the holder sees them: taking a lock twice and
    releasing a lock that is not held both panic.  [Spinlock] models
    kernel/atomic/spinlock.c itself and proves that its routines implement
    these two. *)

Record mach := Mach {
  mmem : mem;
  freelist : Z;          (* kmem.freelist, 0 when empty *)
  g_freecnt : Z;         (* the int counter of kalloc.c *)
  held : list lockid;    (* spinlocks held by this hart, last taken first *)
}.

Definition set_mmem (m : mem) (s : mach) : mach := Mach m (freelist s) (g_freecnt s) (held s).
Definition set_freelist (p : Z) (s : mach) : mach := Mach (mmem s) p (g_freecnt s) (held s).
Definition set_freecnt (n : Z) (s : mach) : mach := Mach (mmem s) (freelist s) n (held s).
Definition set_held (l : list lockid) (s : mach) : mach := Mach (mmem s) (freelist s) (g_freecnt s) l.

Definition upd_mem (f : mem -> mem) : E mach unit := modify (fun s => set_mmem (f (mmem s)) s).

Definition acquire_held (l : lockid) (h : list lockid) : option (list lockid) :=
  if bool_decide (l ∈ h) then None else Some (l :: h).
Definition release_held (l : lockid) (h : list lockid) : option (list lockid) :=
  if bool_decide (l ∈ h) then Some (filter (fun x => x <> l) h) else None.

Definition acquire (l : lockid) : E mach unit := fun s =>
  match acquire_held l (held s) with
  | None => Panic "acquire" s
  | Some h => Done tt (set_held h s)
  end.

Definition release (l : lockid) : E mach unit := fun s =>
  match release_held l (held s) with
  | None => Panic "release" s
  | Some h => Done tt (set_held h s)
  end.

(** [initlock]: the lock is free, with no owner. *)
Definition initlock (l : lockid) : E mach unit :=
  modify (fun s => set_held (filter (fun x => x <> l) (held s)) s).

Section Locks.
Implicit Types (l : lockid) (h : list lockid) (s : mach).

Lemma release_acquire_held l h h' :
  acquire_held l h = Some h' -> release_held l h' = Some h.
Proof.
  unfold acquire_held, release_held. case_bool_decide as Hin; [done|]. intros [= <-].
  rewrite bool_decide_true by set_solver. f_equal.
  rewrite filter_cons_False by naive_solver.
  induction h as [|x h IH]; [done|].
  rewrite filter_cons_True by set_solver. f_equal. apply IH. set_solver.
Qed.

Lemma initlock_free l (Q : unit -> mach -> Prop) s :
  l ∉ held s -> Q tt s -> wp (initlock l) Q s.
Proof.
  intros Hl HQ. unfold initlock. apply wp_modify.
  replace (filter _ (held s)) with (held s); [by destruct s|].
  induction (held s) as [|x h IH]; [done|].
  rewrite filter_cons_True by set_solver. f_equal. apply IH. set_solver.
Qed.

Lemma wp_acquire l (Q : unit -> mach -> Prop) s :
  l ∉ held s -> Q tt (set_held (l :: held s) s) -> wp (acquire l) Q s.
Proof. intros H HQ. unfold wp, acquire, acquire_held. by rewrite bool_decide_false. Qed.

Lemma wp_release l (Q : unit -> mach -> Prop) s h :
  held s = l :: h -> l ∉ h -> Q tt (set_held h s) -> wp (release l) Q s.
Proof.
  intros Hs Hl HQ. unfold wp, release. rewrite Hs, (release_acquire_held l h); [done|].
  unfold acquire_held. by rewrite bool_decide_false.
Qed.
End Locks.
