(* ===== verification/Kalloc.v ===== *)
(** * kernel/mm/kalloc.c: the page allocator

    Free pages are linked through their first eight bytes; [kfree] pushes a
    page on the list and [kalloc] pops one.  The invariant [kmem_inv] says
    which pages the list holds; the theorems show that the allocator never
    hands out a page it has not been given, that it hands it out zeroed, and
    that it disturbs no other byte of memory. *)
From S2P Require Import Prelude Mem CString KTypes.

Section Allocator.
(** [extern char end[]]: first address after the kernel, set by kernel.ld. *)
Context (kend : Z).

Definition bump_freecnt : E mach unit := modify (fun s => set_freecnt (i32 (g_freecnt s + 1)) s).

Definition kfree (pa : Z) : E mach unit :=
  panic_if (negb (pa mod PGSIZE =? 0) || (pa <? kend) || (PHYSTOP <=? pa)) "kfree";;
  upd_mem (fun m => memset m pa 1 PGSIZE);;
  acquire L_kmem;;
  modify (fun s => set_freelist pa (set_mmem (store64 (mmem s) pa (freelist s)) s));;
  release L_kmem;;
  bump_freecnt.

Definition kalloc : E mach Z :=
  acquire L_kmem;;
  r ← gets freelist;
  (if negb (r =? 0) then modify (fun s => set_freelist (load64 (mmem s) r) s) else mret tt);;
  release L_kmem;;
  (if negb (r =? 0) then upd_mem (fun m => memset m r 0 PGSIZE) else mret tt);;
  bump_freecnt;;
  mret r.

(** kzalloc repeats the body of kalloc. *)
Definition kzalloc : E mach Z :=
  acquire L_kmem;;
  r ← gets freelist;
  (if negb (r =? 0) then modify (fun s => set_freelist (load64 (mmem s) r) s) else mret tt);;
  release L_kmem;;
  (if negb (r =? 0) then upd_mem (fun m => memset m r 0 PGSIZE) else mret tt);;
  bump_freecnt;;
  mret r.

Definition kmalloc (size : Z) : E mach Z :=
  if PGSIZE <? size then mret 0 else kalloc.

(** [n * size] is computed in unsigned int. *)
Definition kcalloc (n size : Z) : E mach Z :=
  if PGSIZE <? u32 (n * size) then mret 0 else kalloc.

(** [for (; p + PGSIZE <= pa_end; p += PGSIZE) kfree(p);] *)
Fixpoint freerange_loop (fuel : nat) (p pa_end : Z) : E mach unit :=
  if p + PGSIZE <=? pa_end then
    match fuel with
    | O => nofuel
    | S fuel => kfree p;; freerange_loop fuel (p + PGSIZE) pa_end
    end
  else mret tt.

(** One unit of fuel per page of the range. *)
Definition freerange (pa_start pa_end : Z) : E mach unit :=
  let p := PGROUNDUP pa_start in
  freerange_loop (Z.to_nat ((pa_end - p) / PGSIZE)) p pa_end.

Definition kinit : E mach unit :=
  initlock L_kmem;;
  freerange kend PHYSTOP.

Definition freemem_pages (s : mach) : Z := u64 (g_freecnt s).
Definition freemem_bytes (s : mach) : Z := u64 (i32 (g_freecnt s * PGSIZE)).
Definition totalram_bytes : Z := u64 (PHYSTOP - kend).

(** ** Invariant *)

(** The list of pages linked from [p]. *)
Fixpoint flist (m : mem) (p : Z) (l : list Z) : Prop :=
  match l with
  | [] => p = 0
  | q :: l => p = q /\ flist m (load64 m q) l
  end.

Definition valid_page (pa : Z) : Prop := page_aligned pa /\ kend <= pa < PHYSTOP.

Record kmem_inv (s : mach) (l : list Z) : Prop := {
  ki_flist : flist (mmem s) (freelist s) l;
  ki_nodup : NoDup l;
  ki_valid : Forall valid_page l;
  ki_bytes : bytes_ok (mmem s);
}.

Hypothesis kend_pos : 0 < kend.

Lemma valid_page_pos pa : valid_page pa -> 0 < pa.
Proof. intros [_ ?]. lia. Qed.

Lemma valid_page_word pa : valid_page pa -> 0 <= pa < 2 ^ 56.
Proof. intros [_ ?]. unfold PHYSTOP, KERNBASE in *. lia. Qed.

(** The list is unchanged by writes outside its pages. *)
Lemma flist_ext m m' p l :
  flist m p l -> (forall q, q ∈ l -> same_range m m' q PGSIZE) -> flist m' p l.
Proof.
  revert p. induction l as [|q l IH]; intros p H Hr; [done|]. simpl in *.
  destruct H as [-> H]. split; [done|].
  rewrite <- (load64_ext m m' q).
  - apply IH; [done|]. intros q' Hq'. apply Hr. set_solver.
  - intros x Hx. apply (Hr q); [set_solver|]. unfold PGSIZE. lia.
Qed.

Lemma flist_frame m m' p l pa :
  flist m p l -> Forall valid_page l -> valid_page pa -> pa ∉ l ->
  (forall x, x < pa \/ pa + PGSIZE <= x -> m' x = m x) -> flist m' p l.
Proof.
  intros H Hv Hpa Hni Hout. eapply flist_ext; [done|].
  intros q Hq x Hx. symmetry. apply Hout.
  rewrite Forall_forall in Hv. destruct (Hv q Hq) as [Hq1 _]. destruct Hpa as [Hp1 _].
  destruct (page_disjoint pa q Hp1 Hq1); [set_solver|lia..].
Qed.

(** The allocator does not see writes to pages it does not hold. *)
Lemma kmem_inv_frame s s' l :
  kmem_inv s l -> freelist s' = freelist s -> bytes_ok (mmem s') ->
  (forall x, mmem s' x <> mmem s x -> exists pa, valid_page pa /\ pa ∉ l /\ in_page pa x) ->
  kmem_inv s' l.
Proof.
  intros [Hf Hn Hv Hb] Hfl Hb' Hd. split; try done. rewrite Hfl.
  eapply flist_ext; [done|]. intros q Hq x Hx.
  destruct (decide (mmem s x = mmem s' x)) as [|Hne]; [done|].
  destruct (Hd x) as (pa & [Hpa _] & Hni & Hin); [congruence|].
  rewrite Forall_forall in Hv. destruct (Hv q Hq) as [Hqa _].
  destruct Hni. by rewrite (in_page_eq pa q x).
Qed.

(** What [kfree] does when its checks pass. *)
Lemma kfree_run pa s :
  valid_page pa -> L_kmem ∉ held s ->
  wp (kfree pa) (fun _ s' => freelist s' = pa /\ held s' = held s /\
    mmem s' = store64 (memset (mmem s) pa 1 PGSIZE) pa (freelist s) /\
    g_freecnt s' = i32 (g_freecnt s + 1)) s.
Proof.
  intros [Hal Hr] Hl. unfold kfree. apply wp_bind, wp_panic_if.
  { rewrite Hal. simpl. destruct (Z.ltb_spec pa kend), (Z.leb_spec PHYSTOP pa); lia || done. }
  apply wp_bind, wp_modify, wp_bind, wp_acquire; [done|].
  apply wp_bind, wp_modify, wp_bind. eapply wp_release; [done..|]. by apply wp_modify.
Qed.

Lemma wp_kfree pa s l :
  kmem_inv s l -> valid_page pa -> pa ∉ l -> L_kmem ∉ held s ->
  wp (kfree pa) (fun _ s' => kmem_inv s' (pa :: l) /\ held s' = held s /\
    (forall x, x < pa \/ pa + PGSIZE <= x -> mmem s' x = mmem s x)) s.
Proof.
  intros [Hf Hn Hv Hb] Hpa Hni Hl. eapply wp_mono; [by apply kfree_run|].
  intros _ s' (Hfl & Hh & Hm & _).
  assert (forall x, x < pa \/ pa + PGSIZE <= x -> mmem s' x = mmem s x) as Hout.
  { intros x Hx. unfold PGSIZE in *. rewrite Hm. unfold store64. rewrite store_out by lia. apply memset_out. lia. }
  split_and!; [|done..]. split.
  - rewrite Hfl. split; [done|]. rewrite Hm, load64_store64_same, <- Hm.
    rewrite wrap_small; [by eapply flist_frame|].
    destruct l as [|q l]; simpl in Hf; [lia|]. destruct Hf as [-> _].
    apply Forall_cons_1 in Hv as [Hq _]. apply valid_page_word in Hq. lia.
  - by constructor.
  - by constructor.
  - rewrite Hm. apply store_ok, memset_ok, Hb.
Qed.

Lemma zero_page m p x : memset m p 0 PGSIZE x = if decide (in_page p x) then 0 else m x.
Proof.
  rewrite memset_spec. unfold in_page. change (u8 0) with 0.
  destruct (Z.leb_spec p x), (Z.ltb_spec x (p + PGSIZE)); cbn [andb]; case_decide; done || lia.
Qed.

(** kalloc on an empty list, and on a list that holds a page. *)
Lemma kalloc_run s :
  L_kmem ∉ held s ->
  wp kalloc (fun r s' => r = freelist s /\ held s' = held s /\ g_freecnt s' = i32 (g_freecnt s + 1) /\
    freelist s' = (if r =? 0 then 0 else load64 (mmem s) r) /\
    mmem s' = (if r =? 0 then mmem s else memset (mmem s) r 0 PGSIZE)) s.
Proof.
  intros Hl. unfold kalloc. apply wp_bind, wp_acquire; [done|]. apply wp_bind, wp_gets. simpl.
  destruct (Z.eqb_spec (freelist s) 0) as [Hz|Hne]; simpl.
  - apply wp_bind, wp_ret, wp_bind. eapply wp_release; [done..|].
    by apply wp_bind, wp_ret, wp_bind, wp_modify, wp_ret; rewrite Hz.
  - apply wp_bind, wp_modify, wp_bind. eapply wp_release; [done..|].
    apply wp_bind, wp_modify, wp_bind, wp_modify, wp_ret.
    by destruct (Z.eqb_spec (freelist s) 0).
Qed.

Lemma wp_kalloc s l :
  kmem_inv s l -> L_kmem ∉ held s ->
  wp kalloc (fun r s' => held s' = held s /\
    match l with
    | [] => r = 0 /\ kmem_inv s' [] /\ mmem s' = mmem s
    | p :: l' => r = p /\ kmem_inv s' l' /\
        forall x, mmem s' x = if decide (in_page p x) then 0 else mmem s x
    end) s.
Proof.
  intros [Hf Hn Hv Hb] Hl. eapply wp_mono; [by apply kalloc_run|].
  intros r s' (-> & Hh & _ & Hfl & Hm). split; [done|].
  destruct l as [|p l]; simpl in Hf.
  - rewrite Hf in *. simpl in *. split_and!; [done| |done]. split; simpl; rewrite ?Hm; auto.
  - destruct Hf as [Hp Hf]. rewrite Hp in *. apply Forall_cons_1 in Hv as [Hpv Hv].
    apply NoDup_cons in Hn as [Hni Hn].
    destruct (Z.eqb_spec p 0); [by pose proof (valid_page_pos _ Hpv); lia|].
    split_and!; [done| |intros x; by rewrite Hm, zero_page]. split; rewrite ?Hm; auto using memset_ok.
    rewrite Hfl. eapply flist_frame; [done..|]. intros x Hx. by apply memset_out.
Qed.

Lemma kzalloc_kalloc : kzalloc = kalloc.
Proof. done. Qed.

(** ** The range given to the allocator at boot *)

(** The pages [p, p + PGSIZE, ...], [n] of them, last first: the order in
    which [freerange] leaves them on the list. *)
Fixpoint page_run (p : Z) (n : nat) : list Z :=
  match n with
  | O => []
  | S n => page_run (p + PGSIZE) n ++ [p]
  end.

Lemma elem_page_run q p n :
  q ∈ page_run p n <-> exists i, 0 <= i < Z.of_nat n /\ q = p + i * PGSIZE.
Proof.
  revert p. induction n as [|n IH]; intros p; cbn [page_run].
  - split; [by intros ?%not_elem_of_nil|]. intros (i & ? & _). lia.
  - rewrite elem_of_app, list_elem_of_singleton, IH. split.
    + intros [(i & Hi & ->) | ->]; [exists (i + 1)|exists 0]; lia.
    + intros (i & Hi & ->). destruct (decide (i = 0)) as [->|]; [right; lia|].
      left. exists (i - 1). lia.
Qed.

Lemma wp_freerange_loop n p pa_end l s :
  kmem_inv s l -> L_kmem ∉ held s -> page_aligned p -> kend <= p ->
  p + Z.of_nat n * PGSIZE <= pa_end < p + Z.of_nat n * PGSIZE + PGSIZE -> pa_end <= PHYSTOP ->
  (forall q, q ∈ l -> q < p) ->
  wp (freerange_loop n p pa_end)
     (fun _ s' => kmem_inv s' (page_run p n ++ l) /\ held s' = held s) s.
Proof.
  revert p l s. induction n as [|n IH]; intros p l s Hk Hl Ha Hp Hn He Hlt; cbn [freerange_loop].
  - destruct (Z.leb_spec (p + PGSIZE) pa_end); [lia|]. by apply wp_ret.
  - unfold PGSIZE in *. destruct (Z.leb_spec (p + 4096) pa_end); [|lia].
    assert (p ∉ l) by (intros Hin; apply Hlt in Hin; lia).
    assert (valid_page p) by (split; [done|lia]).
    eapply wp_call; [by eapply wp_kfree|]. cbn beta. intros _ s1 (Hk1 & Hh & _).
    eapply wp_mono; [apply (IH (p + 4096) (p :: l) s1)|]; [done|by rewrite Hh| |lia..| |].
    + unfold page_aligned, PGSIZE in *. rewrite Z.add_mod, Ha by lia. done.
    + intros q Hq. apply elem_of_cons in Hq as [->|Hq]; [|apply Hlt in Hq]; lia.
    + cbn beta. intros _ s2 [Hk2 Hh2]. split; [|congruence]. cbn [page_run].
      rewrite <- app_assoc. exact Hk2.
Qed.
(** The pages of [end, PHYSTOP), as kinit rounds them. *)
Definition all_pages : list Z :=
  page_run (PGROUNDUP kend) (Z.to_nat ((PHYSTOP - PGROUNDUP kend) / PGSIZE)).

Lemma elem_all_pages pa : kend <= PHYSTOP -> pa ∈ all_pages <-> valid_page pa /\ pa + PGSIZE <= PHYSTOP.
Proof.
  intros He. unfold all_pages. rewrite elem_page_run.
  assert (0 <= kend <= 2 ^ 64 - PGSIZE) as Hk by (unfold PHYSTOP, KERNBASE, PGSIZE in *; lia).
  destruct (PGROUNDUP_spec kend Hk) as [Ha Hb].
  pose proof (Z.div_mod (PHYSTOP - PGROUNDUP kend) PGSIZE). unfold valid_page, page_aligned, PGSIZE in *.
  pose proof (Z.mod_pos_bound (PHYSTOP - PGROUNDUP kend) 4096). split.
  - intros (i & Hi & ->). rewrite Z.mod_add by lia. split_and!; lia.
  - intros ((Hm & Hr) & Ht). exists (pa / 4096 - PGROUNDUP kend / 4096).
    pose proof (Z.div_mod pa 4096). pose proof (Z.div_mod (PGROUNDUP kend) 4096).
    lia.
Qed.

Lemma wp_kinit s :
  kend <= PHYSTOP - PGSIZE -> L_kmem ∉ held s -> freelist s = 0 -> bytes_ok (mmem s) ->
  wp kinit (fun _ s' => kmem_inv s' all_pages /\ held s' = held s) s.
Proof.
  intros He Hl Hf Hb. unfold kinit. apply wp_bind, initlock_free; [done|]. unfold freerange.
  assert (0 <= kend <= 2 ^ 64 - PGSIZE) as Hk by (unfold PHYSTOP, KERNBASE, PGSIZE in *; lia).
  destruct (PGROUNDUP_spec kend Hk) as [Ha Hr]. unfold all_pages.
  pose proof (Z.div_mod (PHYSTOP - PGROUNDUP kend) PGSIZE) as Hd.
  pose proof (Z.mod_pos_bound (PHYSTOP - PGROUNDUP kend) PGSIZE ltac:(done)) as Hm.
  unfold PGSIZE in *.
  eapply wp_mono; [apply (wp_freerange_loop _ (PGROUNDUP kend) PHYSTOP [] s)|]; try done; try (unfold PGSIZE; lia).
  - by split; [|constructor|constructor|].
  - intros q Hq. by apply not_elem_of_nil in Hq.
  - cbn beta. intros _ s'. by rewrite app_nil_r.
Qed.

(** ** Clients of the allocator

    [kstep] is one step of a system that uses the allocator: a call to
    kalloc or kfree, or a write by the owner of allocated pages.  [A] is
    the list of pages handed out and not yet freed. *)
Inductive kstep : mach * list Z -> mach * list Z -> Prop :=
| kstep_alloc s s' r A : kalloc s = Done r s' -> r <> 0 -> kstep (s, A) (s', r :: A)
| kstep_full s s' A : kalloc s = Done 0 s' -> kstep (s, A) (s', A)
| kstep_free s s' pa A A' :
    A ≡ₚ pa :: A' -> kfree pa s = Done tt s' -> kstep (s, A) (s', A')
| kstep_write s m A :
    bytes_ok m ->
    (forall x, (forall pa, pa ∈ A -> ~ (pa <= x < pa + PGSIZE)) -> m x = mmem s x) ->
    kstep (s, A) (set_mmem m s, A).

(** The pages in the free list and those handed out are a partition of
    [all]. *)
Definition conserved (all : list Z) (c : mach * list Z) : Prop :=
  exists l, kmem_inv c.1 l /\ L_kmem ∉ held c.1 /\ l ++ c.2 ≡ₚ all.

Lemma conserved_step all c c' :
  NoDup all -> Forall valid_page all -> kstep c c' -> conserved all c -> conserved all c'.
Proof.
  intros Hnd Hval Hst (l & Hk & Hl & Hp).
  assert (NoDup (l ++ c.2)) as Hnd2 by by rewrite Hp.
  assert (Forall valid_page (l ++ c.2)) as Hv2 by by rewrite Hp.
  apply NoDup_app in Hnd2 as (_ & Hdis & HndA). apply Forall_app in Hv2 as [_ HvA].
  destruct Hst as [s s' r A Hr Hne|s s' A Hr|s s' pa A A' HA Hr|s m A Hm Hw]; simpl in *.
  - pose proof (wp_kalloc s l Hk Hl) as H. unfold wp in H. rewrite Hr in H. destruct H as [Hh H].
    destruct l as [|p l]; [by destruct H|]. destruct H as (-> & Hk' & _).
    exists l. split_and!; [done|simpl; by rewrite Hh|]. rewrite <- Hp. simpl. by rewrite <- Permutation_middle.
  - pose proof (wp_kalloc s l Hk Hl) as H. unfold wp in H. rewrite Hr in H. destruct H as [Hh H].
    destruct l as [|p l].
    + destruct H as (_ & Hk' & _). exists []. split_and!; [done|simpl; by rewrite Hh|done].
    + destruct H as (<- & _). apply ki_valid, Forall_cons_1 in Hk as [?%valid_page_pos _]. lia.
  - rewrite HA in HvA, HndA. apply Forall_cons_1 in HvA as [Hpa _].
    assert (pa ∉ l) as Hni by (intros ?; apply (Hdis pa); [done|rewrite HA; set_solver]).
    pose proof (wp_kfree pa s l Hk Hpa Hni Hl) as H. unfold wp in H. rewrite Hr in H.
    destruct H as (Hk' & Hh & _). exists (pa :: l). split_and!; [done|simpl; by rewrite Hh|].
    rewrite <- Hp, HA. simpl. apply Permutation_middle.
  - exists l. split_and!; [|done..]. destruct Hk as [Hf Hn Hv Hb]. split; try done. simpl.
    eapply flist_ext; [done|]. intros q Hq x Hx. symmetry. apply Hw. intros pa Hin Hpx.
    rewrite Forall_forall in Hv, HvA. destruct (Hv q Hq) as [Hqa _]. destruct (HvA pa Hin) as [Hpaa _].
    destruct (page_disjoint q pa Hqa Hpaa); [intros ->; by apply (Hdis pa)|lia..].
Qed.

Lemma NoDup_page_run p n : NoDup (page_run p n).
Proof.
  revert p. induction n as [|n IH]; intros p; cbn [page_run]; [constructor|].
  apply NoDup_app. split_and!; [done| |apply NoDup_singleton].
  intros q Hq ->%list_elem_of_singleton. apply elem_page_run in Hq as (i & Hi & Heq).
  unfold PGSIZE in Heq. lia.
Qed.
End Allocator.

#[export] Hint Resolve valid_page_pos valid_page_word : kernel.

(** ** Properties *)

(** kinit gives the allocator exactly the whole pages of [end, PHYSTOP):
    when it returns, the free list starting at kmem.freelist links each of
    them once and nothing else. *)
Theorem kinit_free_pages (kend : Z) (s : mach) :
  0 < kend <= PHYSTOP - PGSIZE -> L_kmem ∉ held s -> freelist s = 0 -> bytes_ok (mmem s) ->
  wp (kinit kend) (fun _ s' => held s' = held s /\ exists l, kmem_inv kend s' l /\
    forall pa, pa ∈ l <-> valid_page kend pa /\ pa + PGSIZE <= PHYSTOP) s.
Proof.
  intros [H0 He] Hl Hf Hb. eapply wp_mono; [by apply wp_kinit|].
  cbn beta. intros _ s' [Hk Hh]. split; [done|]. exists (all_pages kend). split; [done|].
  intros pa. apply elem_all_pages; [done|]. unfold PGSIZE in He. lia.
Qed.

(** C12: from boot, whatever sequence of kalloc, kfree and writes by the owners
    of allocated pages the kernel performs, no page is lost, duplicated or
    both free and allocated: the free list and the pages handed out always
    partition the pages kinit found. *)
Theorem allocator_conserves_pages (kend : Z) (s0 s1 s2 : mach) (A : list Z) :
  0 < kend <= PHYSTOP - PGSIZE -> L_kmem ∉ held s0 -> freelist s0 = 0 -> bytes_ok (mmem s0) ->
  kinit kend s0 = Done tt s1 -> rtc (kstep kend) (s1, []) (s2, A) ->
  exists l, kmem_inv kend s2 l /\ NoDup (l ++ A) /\
    forall pa, pa ∈ l ++ A <-> valid_page kend pa /\ pa + PGSIZE <= PHYSTOP.
Proof.
  intros [H0 He] Hl Hf Hb Hi Hs.
  assert (forall pa, pa ∈ all_pages kend <-> valid_page kend pa /\ pa + PGSIZE <= PHYSTOP) as Hall.
  { intros pa. apply elem_all_pages; [done|]. unfold PGSIZE in He. lia. }
  assert (NoDup (all_pages kend)) as Hnd by apply NoDup_page_run.
  assert (conserved kend (all_pages kend) (s2, A)) as (l & Hk & _ & Hp).
  { pose proof (wp_kinit kend H0 s0 He Hl Hf Hb) as Hw. unfold wp in Hw. rewrite Hi in Hw.
    destruct Hw as [Hk Hh]. remember (s1, []) as c1 eqn:E1.
    assert (conserved kend (all_pages kend) c1) as Hc.
    { exists (all_pages kend). subst c1. split_and!; [done|simpl; by rewrite Hh|by rewrite app_nil_r]. }
    clear E1 Hi. induction Hs as [|c c' c'' Hst _ IH]; [done|].
    apply IH. eapply conserved_step; [done|done| |done|done].
    apply Forall_forall. intros pa ?%Hall. tauto. }
  exists l. split_and!; [done|by rewrite Hp|]. intros pa. rewrite Hp. apply Hall.
Qed.

(** Kalloc returns the first free page with all its bytes zero and no
    other byte of memory changed, or 0 when there is none; it keeps the
    allocator's invariant and releases its lock. *)
Theorem kalloc_spec (kend : Z) (s : mach) (l : list Z) :
  0 < kend -> kmem_inv kend s l -> L_kmem ∉ held s ->
  wp kalloc (fun r s' => held s' = held s /\
    match l with
    | [] => r = 0 /\ kmem_inv kend s' [] /\ mmem s' = mmem s
    | p :: l' => r = p /\ kmem_inv kend s' l' /\
        forall x, mmem s' x = if (p <=? x) && (x <? p + PGSIZE) then 0 else mmem s x
    end) s.
Proof.
  intros H0 Hk Hl. eapply wp_mono; [by eapply wp_kalloc|]. cbn beta.
  intros r s' [Hh H]. split; [done|]. destruct l as [|p l]; [done|].
  destruct H as (-> & Hk' & Hm). split_and!; [done..|].
  intros x. rewrite Hm. unfold in_page.
  destruct (Z.leb_spec p x), (Z.ltb_spec x (p + PGSIZE)); cbn [andb]; case_decide; done || lia.
Qed.

(** Kalloc and kzalloc advance the counter that freemem_pages reports
    instead of lowering it: allocating a page makes the reported number of
    free pages grow. *)
Theorem kalloc_freemem_grows (s : mach) :
  L_kmem ∉ held s -> 0 <= g_freecnt s < 2 ^ 31 - 1 ->
  wp kalloc (fun _ s' => freemem_pages s' = freemem_pages s + 1) s /\
  wp kzalloc (fun _ s' => freemem_pages s' = freemem_pages s + 1) s.
Proof.
  intros Hl Hc. rewrite kzalloc_kalloc.
  enough (wp kalloc (fun _ s' => freemem_pages s' = freemem_pages s + 1) s) by done.
  eapply wp_mono; [by apply kalloc_run|]. cbn beta. intros r s' (_ & _ & Hg & _).
  unfold freemem_pages. rewrite Hg, sint_small, !wrap_small; lia.
Qed.

(** ** Witnesses: a machine with two pages above the kernel *)

Definition two_pages : Z := PHYSTOP - 2 * PGSIZE.
Definition boot : mach := Mach (fun _ => 0) 0 0 [].

Lemma boot_ok :
  0 < two_pages <= PHYSTOP - PGSIZE /\ L_kmem ∉ held boot /\ freelist boot = 0 /\ bytes_ok (mmem boot).
Proof.
  split_and!; [done|unfold two_pages, PGSIZE; lia|set_solver|done|]. intros a. simpl. lia.
Qed.

Lemma kinit_free_pages_witness :
  wp (kinit two_pages) (fun _ s' => held s' = [] /\ exists l, kmem_inv two_pages s' l /\
    forall pa, pa ∈ l <-> valid_page two_pages pa /\ pa + PGSIZE <= PHYSTOP) boot.
Proof. destruct boot_ok as (? & ? & ? & ?). by apply (kinit_free_pages two_pages boot). Defined.

Lemma allocator_conserves_pages_witness :
  exists s1 s2 A l, kinit two_pages boot = Done tt s1 /\ rtc (kstep two_pages) (s1, []) (s2, A) /\
    A <> [] /\ kmem_inv two_pages s2 l /\ NoDup (l ++ A).
Proof.
  destruct boot_ok as (H1 & H2 & H3 & H4).
  pose (s1 := match kinit two_pages boot with Done _ s => s | _ => boot end).
  assert (kinit two_pages boot = Done tt s1) as Hi by reflexivity.
  pose (s2 := match kalloc s1 with Done _ s => s | _ => s1 end).
  assert (kalloc s1 = Done (PHYSTOP - PGSIZE) s2) as Ha by reflexivity.
  assert (rtc (kstep two_pages) (s1, []) (s2, [PHYSTOP - PGSIZE])) as Hs.
  { apply rtc_once, kstep_alloc; [exact Ha|done]. }
  destruct (allocator_conserves_pages two_pages boot s1 s2 _ H1 H2 H3 H4 Hi Hs) as (l & Hk & Hn & _).
  exists s1, s2, [PHYSTOP - PGSIZE], l. by split_and!.
Defined.

Definition one_free : mach := Mach (fun _ => 0) (PHYSTOP - PGSIZE) 0 [].

Lemma kalloc_spec_witness :
  wp kalloc (fun r s' => r = PHYSTOP - PGSIZE /\ kmem_inv two_pages s' []) one_free.
Proof.
  eapply wp_mono; [apply (kalloc_spec two_pages one_free [PHYSTOP - PGSIZE])|].
  - done.
  - split; [done|apply NoDup_singleton|by apply Forall_singleton|]. intros a. simpl. lia.
  - set_solver.
  - cbn beta. by intros r s' (_ & Hr & Hk & _).
Defined.

Lemma kalloc_freemem_grows_witness :
  wp kalloc (fun _ s' => freemem_pages s' = 1) boot.
Proof.
  destruct boot_ok as (H1 & H2 & H3 & H4).
  assert (0 <= g_freecnt boot < 2 ^ 31 - 1) as Hc by done.
  exact (proj1 (kalloc_freemem_grows boot H2 Hc)).
Defined.
