(* ===== verification/Vm.v ===== *)
(** * kernel/mm/vm.c: Sv39 page tables (RISC-V build)

    The routines walk and edit page tables that live in the byte memory: a
    table is a page of 512 eight-byte entries, and the kernel's direct map
    makes a physical address usable as a pointer.  [Definitions] follows
    the source; [VmFacts] relates it to the tree of tables and to the map from
    virtual pages to leaf entries. *)
From S2P Require Import Prelude Mem CString KTypes Kalloc.

Section Definitions.
(** [extern char end[]], used by kfree. *)
Context (kend : Z).

Definition rd (a : Z) : E mach Z := gets (fun s => load64 (mmem s) a).
Definition wr (a v : Z) : E mach unit := upd_mem (fun m => store64 m a v).

(** The loop of walk, from [level] down to 0: [pagetable] is the table of that
    level. *)
Fixpoint walk_loop (level : nat) (pagetable va : Z) (alloc : bool) : E mach Z :=
  match level with
  | O => mret (pagetable + 8 * PX 0 va)
  | S level' =>
    let pte := pagetable + 8 * PX (Z.of_nat level) va in
    v ← rd pte;
    if has_bits v PTE_V then walk_loop level' (PTE2PA v) va alloc
    else if negb alloc then mret 0
    else
      p ← kalloc;
      if p =? 0 then mret 0
      else
        upd_mem (fun m => memset m p 0 PGSIZE);;
        wr pte (Z.lor (PA2PTE p) PTE_V);;
        walk_loop level' p va alloc
  end.

Definition walk (pagetable va : Z) (alloc : bool) : E mach Z :=
  panic_if (MAXVA <=? va) "walk";;
  walk_loop 2 pagetable va alloc.

Definition walkaddr (pagetable va : Z) : E mach Z :=
  if MAXVA <=? va then mret 0
  else
    pte ← walk pagetable va false;
    if pte =? 0 then mret 0
    else
      v ← rd pte;
      if Z.land v PTE_V =? 0 then mret 0
      else if Z.land v PTE_U =? 0 then mret 0
      else mret (PTE2PA v).

(** [for(;;)] of mappages: each turn maps one page; [fuel] counts the turns
    after the first. *)
Fixpoint mappages_loop (fuel : nat) (pagetable a last pa perm : Z) : E mach Z :=
  pte ← walk pagetable a true;
  if pte =? 0 then mret (-1)
  else
    v ← rd pte;
    panic_if (has_bits v PTE_V) "mappages: remap";;
    wr pte (Z.lor (Z.lor (PA2PTE pa) perm) PTE_V);;
    if a =? last then mret 0
    else
      match fuel with
      | O => nofuel
      | S fuel => mappages_loop fuel pagetable (u64 (a + PGSIZE)) last (u64 (pa + PGSIZE)) perm
      end.

(** When [va + size] wraps around, [a] passes [last] and the loop runs until
    walk refuses an address at or above [MAXVA]. *)
Definition mappages (pagetable va size pa perm : Z) : E mach Z :=
  panic_if (size =? 0) "mappages: size";;
  let a := PGROUNDDOWN va in
  let last := PGROUNDDOWN (u64 (va + size - 1)) in
  let stop := if last <? a then MAXVA else last in
  mappages_loop (Z.to_nat ((stop - a) / PGSIZE)) pagetable a last pa perm.

Definition kvmmap (kpgtbl va pa sz perm : Z) : E mach unit :=
  r ← mappages kpgtbl va sz pa perm;
  panic_if (negb (r =? 0)) "kvmmap".

Fixpoint uvmunmap_loop (fuel : nat) (pagetable a stop : Z) (do_free : bool) : E mach unit :=
  if a <? stop then
    match fuel with
    | O => nofuel
    | S fuel =>
      pte ← walk pagetable a false;
      panic_if (pte =? 0) "uvmunmap: walk";;
      v ← rd pte;
      panic_if (Z.land v PTE_V =? 0) "uvmunmap: not mapped";;
      panic_if (PTE_FLAGS v =? PTE_V) "uvmunmap: not a leaf";;
      (if do_free then kfree kend (PTE2PA v) else mret tt);;
      wr pte 0;;
      uvmunmap_loop fuel pagetable (u64 (a + PGSIZE)) stop do_free
    end
  else mret tt.

Definition uvmunmap (pagetable va npages : Z) (do_free : bool) : E mach unit :=
  panic_if (negb (va mod PGSIZE =? 0)) "uvmunmap: not aligned";;
  uvmunmap_loop (Z.to_nat npages) pagetable va (u64 (va + npages * PGSIZE)) do_free.

Definition uvmcreate : E mach Z :=
  pagetable ← kalloc;
  if pagetable =? 0 then mret 0
  else upd_mem (fun m => memset m pagetable 0 PGSIZE);; mret pagetable.

Fixpoint uvmfirst_loop (fuel : nat) (pagetable src sz i : Z) : E mach unit :=
  if i <? sz then
    match fuel with
    | O => nofuel
    | S fuel =>
      mem ← kalloc;
      panic_if (mem =? 0) "uvmfirst: kalloc failed";;
      upd_mem (fun m => memset m mem 0 PGSIZE);;
      r ← mappages pagetable i PGSIZE mem (Z.lor (Z.lor (Z.lor PTE_W PTE_R) PTE_X) PTE_U);
      (if negb (r =? 0) then kfree kend mem;; panic "uvmfirst: mappages failed" else mret tt);;
      upd_mem (fun m => memmove m mem (src + i) (if PGSIZE <? sz - i then PGSIZE else sz - i));;
      uvmfirst_loop fuel pagetable src sz (i + PGSIZE)
    end
  else mret tt.

Definition uvmfirst (pagetable src sz : Z) : E mach unit :=
  uvmfirst_loop (Z.to_nat (sz / PGSIZE + 1)) pagetable src sz 0.

Definition uvmdealloc (pagetable oldsz newsz : Z) : E mach Z :=
  if oldsz <=? newsz then mret oldsz
  else
    (if PGROUNDUP newsz <? PGROUNDUP oldsz then
       let npages := i32 ((PGROUNDUP oldsz - PGROUNDUP newsz) / PGSIZE) in
       uvmunmap pagetable (PGROUNDUP newsz) (u64 npages) true
     else mret tt);;
    mret newsz.

Fixpoint uvmalloc_loop (fuel : nat) (pagetable oldsz newsz xperm a : Z) : E mach Z :=
  if a <? newsz then
    match fuel with
    | O => nofuel
    | S fuel =>
      mem ← kzalloc;
      if mem =? 0 then uvmdealloc pagetable a oldsz;; mret 0
      else
        upd_mem (fun m => memset m mem 0 PGSIZE);;
        r ← mappages pagetable a PGSIZE mem (Z.lor (Z.lor PTE_R PTE_U) xperm);
        if negb (r =? 0) then kfree kend mem;; uvmdealloc pagetable a oldsz;; mret 0
        else uvmalloc_loop fuel pagetable oldsz newsz xperm (u64 (a + PGSIZE))
    end
  else mret newsz.

Definition uvmalloc (pagetable oldsz newsz xperm : Z) : E mach Z :=
  if newsz <? oldsz then mret oldsz
  else
    let oldsz := PGROUNDUP oldsz in
    uvmalloc_loop (Z.to_nat ((newsz - oldsz) / PGSIZE + 1)) pagetable oldsz newsz xperm oldsz.

(** The 512 turns of freewalk's loop on one table, from entry [i] on; [rec] is
    the recursive call. *)
Fixpoint freewalk_loop (rec : Z -> E mach unit) (n : nat) (pagetable i : Z) : E mach unit :=
  match n with
  | O => mret tt
  | S n =>
    v ← rd (pagetable + 8 * i);
    (if has_bits v PTE_V && (Z.land v (Z.lor (Z.lor PTE_R PTE_W) PTE_X) =? 0) then
       rec (PTE2PA v);;
       wr (pagetable + 8 * i) 0
     else panic_if (has_bits v PTE_V) "freewalk: leaf");;
    freewalk_loop rec n pagetable (i + 1)
  end.

(** [depth] bounds the recursion: 3 levels of tables. *)
Fixpoint freewalk (depth : nat) (pagetable : Z) : E mach unit :=
  match depth with
  | O => nofuel
  | S depth =>
    freewalk_loop (freewalk depth) 512 pagetable 0;;
    kfree kend pagetable
  end.

Definition uvmfree (pagetable sz : Z) : E mach unit :=
  (if 0 <? sz then uvmunmap pagetable 0 (PGROUNDUP sz / PGSIZE) true else mret tt);;
  freewalk 3 pagetable.

Fixpoint uvmcopy_loop (fuel : nat) (old new sz i : Z) : E mach Z :=
  if i <? sz then
    match fuel with
    | O => nofuel
    | S fuel =>
      pte ← walk old i false;
      panic_if (pte =? 0) "uvmcopy: pte should exist";;
      v ← rd pte;
      panic_if (Z.land v PTE_V =? 0) "uvmcopy: page not present";;
      let pa := PTE2PA v in
      let flags := PTE_FLAGS v in
      let err := (uvmunmap new 0 (i / PGSIZE) true;; mret (-1) : E mach Z) in
      mem ← kalloc;
      if mem =? 0 then err
      else
        upd_mem (fun m => memmove m mem pa PGSIZE);;
        r ← mappages new i PGSIZE mem flags;
        if negb (r =? 0) then kfree kend mem;; err
        else uvmcopy_loop fuel old new sz (u64 (i + PGSIZE))
    end
  else mret 0.

Definition uvmcopy (old new sz : Z) : E mach Z :=
  uvmcopy_loop (Z.to_nat (sz / PGSIZE + 1)) old new sz 0.

Definition uvmclear (pagetable va : Z) : E mach unit :=
  pte ← walk pagetable va false;
  panic_if (pte =? 0) "uvmclear";;
  v ← rd pte;
  wr pte (Z.land v (Z.lnot PTE_U)).

Definition uvmadd (pagetable va perm : Z) : E mach unit :=
  pte ← walk pagetable va false;
  panic_if (pte =? 0) "uvmset: pte should exist";;
  v ← rd pte;
  panic_if (Z.land v PTE_V =? 0) "uvmset: page not present";;
  panic_if (PTE_FLAGS v =? PTE_V) "uvmset: not a leaf";;
  wr pte (Z.lor v perm).

(** ** Copies between kernel and user memory

    Every turn but the last consumes the rest of a page. *)

Fixpoint copyout_loop (fuel : nat) (pagetable dstva src len : Z) : E mach Z :=
  if 0 <? len then
    match fuel with
    | O => nofuel
    | S fuel =>
      let va0 := PGROUNDDOWN dstva in
      pa0 ← walkaddr pagetable va0;
      if pa0 =? 0 then mret (-1)
      else
        let n := PGSIZE - (dstva - va0) in
        let n := if len <? n then len else n in
        upd_mem (fun m => memmove m (pa0 + (dstva - va0)) src n);;
        copyout_loop fuel pagetable (u64 (va0 + PGSIZE)) (src + n) (len - n)
    end
  else mret 0.

Definition copyout (pagetable dstva src len : Z) : E mach Z :=
  copyout_loop (Z.to_nat (len / PGSIZE + 2)) pagetable dstva src len.

Fixpoint copyin_loop (fuel : nat) (pagetable dst srcva len : Z) : E mach Z :=
  if 0 <? len then
    match fuel with
    | O => nofuel
    | S fuel =>
      let va0 := PGROUNDDOWN srcva in
      pa0 ← walkaddr pagetable va0;
      if pa0 =? 0 then mret (-1)
      else
        let n := PGSIZE - (srcva - va0) in
        let n := if len <? n then len else n in
        upd_mem (fun m => memmove m dst (pa0 + (srcva - va0)) n);;
        copyin_loop fuel pagetable (dst + n) (u64 (va0 + PGSIZE)) (len - n)
    end
  else mret 0.

Definition copyin (pagetable dst srcva len : Z) : E mach Z :=
  copyin_loop (Z.to_nat (len / PGSIZE + 2)) pagetable dst srcva len.

(** Inner loop of copyinstr: the memory, whether a NUL was met, and the
    advanced [dst] and [max]. *)
Fixpoint copyinstr_page (m : mem) (dst p max : Z) (n : nat) : mem * bool * Z * Z :=
  match n with
  | O => (m, false, dst, max)
  | S n => if m p =? 0 then (mset m dst 0, true, dst, max)
           else copyinstr_page (mset m dst (m p)) (dst + 1) (p + 1) (max - 1) n
  end.

Fixpoint copyinstr_loop (fuel : nat) (pagetable dst srcva max : Z) : E mach Z :=
  if 0 <? max then
    match fuel with
    | O => nofuel
    | S fuel =>
      let va0 := PGROUNDDOWN srcva in
      pa0 ← walkaddr pagetable va0;
      if pa0 =? 0 then mret (-1)
      else
        let n := PGSIZE - (srcva - va0) in
        let n := if max <? n then max else n in
        m ← gets mmem;
        let '(m', got_null, dst', max') := copyinstr_page m dst (pa0 + (srcva - va0)) max (Z.to_nat n) in
        modify (set_mmem m');;
        if (got_null : bool) then mret 0
        else copyinstr_loop fuel pagetable dst' (u64 (va0 + PGSIZE)) max'
    end
  else mret (-1).

Definition copyinstr (pagetable dst srcva max : Z) : E mach Z :=
  copyinstr_loop (Z.to_nat (max / PGSIZE + 2)) pagetable dst srcva max.

(** ** Thread trap frames, user stacks, kernel stacks *)

Definition uvm_thread_trapframe (pagetable thread_idx : Z) : E mach Z :=
  pa ← kzalloc;
  r ← mappages pagetable (THREAD_TRAPFRAME thread_idx) PGSIZE pa (Z.lor PTE_R PTE_W);
  if r <? 0 then kfree kend pa;; mret 0 else mret pa.

Definition map_ustack (pagetable stack_low pages : Z) : E mach Z :=
  let stack_low_aligned := PGROUNDUP stack_low in
  let stack_high := u64 (stack_low_aligned + i32 ((pages + 1) * PGSIZE)) in
  sz1 ← uvmalloc pagetable stack_low_aligned stack_high PTE_W;
  if sz1 =? 0 then mret 0
  else uvmclear pagetable stack_low_aligned;; mret sz1.

(** thread_mapstacks of kernel/sched/proc.c: [n] pages of the stack at [va]. *)
Fixpoint mapstack (n : nat) (kpgtbl va i : Z) : E mach unit :=
  match n with
  | O => mret tt
  | S n =>
    pa ← kzalloc;
    panic_if (pa =? 0) "thread_mapstacks: kstack alloc failed";;
    r ← mappages kpgtbl (va + i * PGSIZE) PGSIZE pa (Z.lor PTE_R PTE_W);
    panic_if (r <? 0) "thread_mapstacks: mappages failed";;
    mapstack n kpgtbl va (i + 1)
  end.

Fixpoint mapstacks_loop (n : nat) (kpgtbl t : Z) : E mach unit :=
  match n with
  | O => mret tt
  | S n => mapstack (Z.to_nat KSTACK_PAGE) kpgtbl (KSTACK t) 0;; mapstacks_loop n kpgtbl (t + 1)
  end.

Definition thread_mapstacks (kpgtbl : Z) : E mach unit :=
  mapstacks_loop (Z.to_nat NTHREADS) kpgtbl 0.

(** ** The kernel's own page table *)

(** Symbols of kernel.ld: the end of the kernel text and the trampoline page. *)
Context (etext trampoline : Z).

Definition kvmmake : E mach Z :=
  kpgtbl ← kalloc;
  upd_mem (fun m => memset m kpgtbl 0 PGSIZE);;
  kvmmap kpgtbl FINISHER_BASE FINISHER_BASE PGSIZE (Z.lor PTE_R PTE_W);;
  kvmmap kpgtbl UART0 UART0 PGSIZE (Z.lor PTE_R PTE_W);;
  kvmmap kpgtbl VIRTIO0 VIRTIO0 PGSIZE (Z.lor PTE_R PTE_W);;
  kvmmap kpgtbl PLIC PLIC 0x400000 (Z.lor PTE_R PTE_W);;
  kvmmap kpgtbl KERNBASE KERNBASE (u64 (etext - KERNBASE)) (Z.lor PTE_R PTE_X);;
  kvmmap kpgtbl etext etext (u64 (PHYSTOP - etext)) (Z.lor PTE_R PTE_W);;
  kvmmap kpgtbl TRAMPOLINE trampoline PGSIZE (Z.lor PTE_R PTE_X);;
  thread_mapstacks kpgtbl;;
  mret kpgtbl.
End Definitions.
