(* ===== verification/VmTree.v ===== *)
(** * The tree of page tables behind the entries of [Vm]

    [pt_inv m root T] says that the tables reachable from [root] in memory [m]
    are those of [T], which maps the path of a table (the indices leading to
    it from the root) to the address of its page.  [leaf m T va] is the leaf
    entry of [va], 0 when a table on the way is missing: the abstract view the
    theorems about mappages, uvmunmap and the copies speak about. *)
From S2P Require Import Prelude Mem CString KTypes Kalloc Vm.

Abbreviation tables := (gmap (list Z) Z).

Definition va_path (va : Z) : list Z := [PX 2 va; PX 1 va].

Definition leaf (m : mem) (T : tables) (va : Z) : Z :=
  match T !! va_path va with Some a => load64 m (a + 8 * PX 0 va) | None => 0 end.

Definition leaf_addr (T : tables) (va : Z) : Z :=
  match T !! va_path va with Some a => a + 8 * PX 0 va | None => 0 end.

Definition table_page (T : tables) (pa : Z) : Prop := exists p, T !! p = Some pa.

Section Tree.
Context (kend : Z).
Hypothesis kend_pos : 0 < kend.

Record pt_inv (m : mem) (root : Z) (T : tables) : Prop := {
  pt_root : T !! [] = Some root;
  pt_valid : forall p a, T !! p = Some a -> valid_page kend a;
  pt_inj : forall p q a, T !! p = Some a -> T !! q = Some a -> p = q;
  pt_up : forall p i b, T !! (p ++ [i]) = Some b ->
    (length p < 2)%nat /\ 0 <= i < 512 /\ is_Some (T !! p);
  pt_down : forall p a i, T !! p = Some a -> (length p < 2)%nat -> 0 <= i < 512 ->
    match T !! (p ++ [i]) with
    | Some b => load64 m (a + 8 * i) = Z.lor (PA2PTE b) PTE_V
    | None => has_bits (load64 m (a + 8 * i)) PTE_V = false
    end;
}.

(** The machine of a routine that edits the tables [T] with [l] the free
    pages. *)
Record vm_inv (s : mach) (root : Z) (T : tables) (l : list Z) : Prop := {
  vi_kmem : kmem_inv kend s l;
  vi_pt : pt_inv (mmem s) root T;
  vi_sep : forall pa, table_page T pa -> pa ∉ l;
  vi_lock : L_kmem ∉ held s;
}.

(** Only bytes of the tables [T] and of the free pages [l] differ. *)
Definition touches (T : tables) (l : list Z) (m m' : mem) : Prop :=
  forall x, (forall pa, table_page T pa \/ pa ∈ l -> ~ in_page pa x) -> m' x = m x.

Lemma touches_refl T l m : touches T l m m.
Proof. done. Qed.

Lemma page_entry a i : 0 <= i < 512 -> in_page a (a + 8 * i) /\ a + 8 * i + 8 <= a + PGSIZE.
Proof. unfold in_page, PGSIZE. lia. Qed.

(** A table's entry does not move when only other pages change. *)
Lemma load_entry_ext m m' a i :
  0 <= i < 512 -> (forall x, in_page a x -> m' x = m x) -> load64 m' (a + 8 * i) = load64 m (a + 8 * i).
Proof.
  intros Hi H. symmetry. apply load64_ext. intros x Hx. symmetry. apply H. unfold in_page, PGSIZE. lia.
Qed.

Lemma load_entry_other m a i j v :
  i <> j -> load64 (store64 m (a + 8 * i) v) (a + 8 * j) = load64 m (a + 8 * j).
Proof. intros. apply load64_store64_other. lia. Qed.

(** The valid bit of an entry built from a page address. *)
Lemma table_pte b :
  valid_page kend b ->
  let v := Z.lor (PA2PTE b) PTE_V in
  has_bits v PTE_V = true /\ PTE2PA v = b /\ u64 v = v /\
  Z.land v (Z.lor (Z.lor PTE_R PTE_W) PTE_X) = 0.
Proof.
  intros Hb v. pose proof (valid_page_word kend kend_pos _ Hb) as Hw. destruct Hb as [Ha _].
  destruct (pte_make b PTE_V Ha Hw) as (H1 & H2 & H3); [done|].
  assert (Z.land v PTE_V = PTE_V /\ Z.land v 14 = 0) as [HV HRWX].
  { split; apply Z.bits_inj'; intros n Hn; unfold v;
      rewrite PA2PTE_eq, Z.land_spec, Z.lor_spec, <- Z.shiftl_mul_pow2, Z.shiftl_spec by (done || lia).
    - change PTE_V with 1. destruct (decide (n = 0)) as [->|]; [by rewrite andb_true_r, orb_true_r|].
      rewrite (testbit_high 1 1 n) by lia. apply andb_false_r.
    - destruct (Z.lt_ge_cases n 4) as [Hlt|].
      + rewrite Z.testbit_neg_r by lia. change PTE_V with 1.
        assert (n = 0 \/ n = 1 \/ n = 2 \/ n = 3) as [->|[->|[->| ->]]] by lia; done.
      + rewrite (testbit_high 14 4 n), andb_false_r, Z.bits_0 by lia. done. }
  split_and!; [|done| |done].
  - unfold has_bits. by rewrite HV.
  - by apply wrap_small.
Qed.

(** ** Lookup *)

Lemma walk_false s root T va :
  pt_inv (mmem s) root T -> 0 <= va < MAXVA -> walk root va false s = Done (leaf_addr T va) s.
Proof.
  intros [Hr Hv Hi Hu Hd] Hva. unfold walk. erewrite bind_done; [|].
  2: { unfold panic_if. destruct (Z.leb_spec MAXVA va); [lia|]. done. }
  assert (forall a, PTE2PA (load64 (mmem s) a) = PTE2PA (load64 (mmem s) a)) as _ by done.
  unfold leaf_addr, va_path. cbn [walk_loop]. unfold rd.
  change (Z.of_nat 2) with 2. change (Z.of_nat 1) with 1.
  erewrite bind_done by reflexivity.
  pose proof (Hd [] root (PX 2 va) Hr ltac:(simpl; lia) (PX_range 2 va)) as H2. simpl in H2.
  destruct (T !! [PX 2 va]) as [b|] eqn:E2.
  - destruct (table_pte b (Hv _ _ E2)) as (Hb1 & Hb2 & _). rewrite H2, Hb1, Hb2.
    erewrite bind_done by reflexivity.
    pose proof (Hd [PX 2 va] b (PX 1 va) E2 ltac:(simpl; lia) (PX_range 1 va)) as H1. simpl in H1.
    destruct (T !! [PX 2 va; PX 1 va]) as [c|] eqn:E1.
    + destruct (table_pte c (Hv _ _ E1)) as (Hc1 & Hc2 & _). by rewrite H1, Hc1, Hc2.
    + by rewrite H1.
  - rewrite H2. destruct (T !! [PX 2 va; PX 1 va]) as [c|] eqn:E1; [|done].
    destruct (Hu [PX 2 va] (PX 1 va) c E1) as (_ & _ & [? ?]). congruence.
Qed.

Lemma wp_walk_false s root T va (Q : Z -> mach -> Prop) :
  pt_inv (mmem s) root T -> 0 <= va < MAXVA -> Q (leaf_addr T va) s -> wp (walk root va false) Q s.
Proof. intros. eapply wp_run; [by apply walk_false|done]. Qed.

Lemma leaf_addr_nonzero m root T va :
  pt_inv m root T -> leaf_addr T va <> 0 <-> is_Some (T !! va_path va).
Proof.
  intros H. unfold leaf_addr. destruct (T !! va_path va) as [a|] eqn:E.
  - pose proof (pt_valid _ _ _ H _ _ E) as [_ ?]. pose proof (PX_range 0 va).
    split; [by eauto|lia].
  - split; [done|]. by intros [? ?].
Qed.

(** ** Growing the tree by one table *)

Lemma pt_extend m m' root T q a i b :
  pt_inv m root T -> T !! q = Some a -> (length q < 2)%nat -> 0 <= i < 512 ->
  T !! (q ++ [i]) = None -> valid_page kend b -> ~ table_page T b ->
  (forall x, in_page b x -> m' x = 0) ->
  load64 m' (a + 8 * i) = Z.lor (PA2PTE b) PTE_V ->
  (forall x, ~ in_page b x -> x < a + 8 * i \/ a + 8 * i + 8 <= x -> m' x = m x) ->
  pt_inv m' root (<[q ++ [i] := b]> T) /\
  (forall va, leaf m' (<[q ++ [i] := b]> T) va = leaf m T va).
Proof.
  intros [Hr Hv Hi Hu Hd] Hq Hlen Hidx Hnone Hb Hfresh Hz Hw Hout.
  assert (forall p a', T !! p = Some a' -> a' <> b) as Hne by (intros p a' ? ->; apply Hfresh; by exists p).
  assert (forall p c j, T !! p = Some c -> 0 <= j < 512 -> (p, j) <> (q, i) ->
      load64 m' (c + 8 * j) = load64 m (c + 8 * j)) as Hent.
  { intros p c j Hp Hj Hpq. symmetry. apply load64_ext. intros x Hx. symmetry.
    assert (in_page c x) by (unfold in_page, PGSIZE; lia).
    apply Hout.
    - intros Hbx. apply (Hne p c Hp). eapply in_page_eq; [apply (Hv _ _ Hp)|apply Hb|done..].
    - destruct (decide (c = a)) as [->|Hca].
      + assert (p = q) as -> by by eapply Hi. assert (j <> i) by congruence. lia.
      + destruct (page_disjoint c a) as [|]; [apply (Hv _ _ Hp)|apply (Hv _ _ Hq)|done|..];
          unfold in_page, PGSIZE in *; lia. }
  split; [split|].
  - rewrite lookup_insert_ne; [done|]. by destruct q.
  - intros p c. rewrite lookup_insert_Some. intros [[<- <-]|[_ Hp]]; eauto.
  - intros p p' c. rewrite !lookup_insert_Some.
    intros [[<- Hc]|[? Hp]] [[<- Hc']|[? Hp']]; [done| | |by eauto].
    + exfalso. by apply (Hne _ _ Hp').
    + exfalso. by apply (Hne _ _ Hp).
  - intros p j c. rewrite lookup_insert_Some. intros [[Heq <-]|[_ Hp]].
    + apply app_inj_tail in Heq as [-> ->]. split; [done|split; [done|]].
      rewrite lookup_insert_ne; [by eauto|]. intros H%(f_equal length). rewrite length_app in H. simpl in H. lia.
    + destruct (Hu p j c Hp) as (? & ? & [d Hd']). split; [done|split; [done|]].
      destruct (decide (q ++ [i] = p)) as [<-|]; [by rewrite lookup_insert_eq|].
      rewrite lookup_insert_ne by done. eauto.
  - intros p c j. rewrite lookup_insert_Some. intros [[<- <-]|[Hpne Hp]] Hl Hj.
    + rewrite lookup_insert_ne.
      2: { intros H%(f_equal length). rewrite !length_app in H. simpl in H. lia. }
      destruct (T !! ((q ++ [i]) ++ [j])) as [d|] eqn:Ed.
      { destruct (Hu _ _ _ Ed) as (_ & _ & [? ?]). congruence. }
      rewrite load64_zero; [done|]. intros x Hx. apply Hz. unfold in_page, PGSIZE. lia.
    + destruct (decide ((p, j) = (q, i))) as [[= -> ->]|Hne'].
      * rewrite lookup_insert_eq. assert (c = a) as -> by congruence. done.
      * rewrite (Hent p c j Hp Hj Hne'), lookup_insert_ne; [by apply Hd|].
        intros [-> ->]%app_inj_tail. done.
  - intros va. unfold leaf. destruct (decide (q ++ [i] = va_path va)) as [Heq|Hne'].
    + rewrite <- Heq, lookup_insert_eq, Hnone. apply load64_zero. intros x Hx. apply Hz.
      pose proof (PX_range 0 va). unfold in_page, PGSIZE. lia.
    + rewrite lookup_insert_ne by done. destruct (T !! va_path va) as [c|] eqn:Ec; [|done].
      apply (Hent (va_path va)); [done|apply PX_range|]. intros [= <- _]. simpl in Hlen. lia.
Qed.

(** Writes outside the tables change neither the tree nor its leaves. *)
Lemma pt_frame m m' root T :
  pt_inv m root T -> (forall pa x, table_page T pa -> in_page pa x -> m' x = m x) ->
  pt_inv m' root T /\ (forall va, leaf m' T va = leaf m T va).
Proof.
  intros [Hr Hv Hi Hu Hd] Hm. split; [split; try done|].
  - intros p a i Hp Hl Hj. rewrite (load_entry_ext m m' a i Hj); [by apply Hd|].
    intros x. apply Hm. by exists p.
  - intros va. unfold leaf. destruct (T !! va_path va) as [a|] eqn:E; [|done].
    apply load_entry_ext; [apply PX_range|]. intros x. apply Hm. by exists (va_path va).
Qed.

(** ** Writing a leaf entry *)

(** Two addresses have the same leaf entry when they are in the same page. *)
Lemma leaf_addr_eq va va' :
  0 <= va < MAXVA -> 0 <= va' < MAXVA ->
  va_path va = va_path va' -> PX 0 va = PX 0 va' -> PGROUNDDOWN va = PGROUNDDOWN va'.
Proof. intros H H' [= H2 H1] H0. by apply PX_inj. Qed.

Lemma PX_page k va : 0 <= k <= 2 -> PX k (PGROUNDDOWN va) = PX k va.
Proof.
  intros Hk. rewrite !PX_eq, PGROUNDDOWN_eq by lia. unfold PGSIZE. f_equal.
  rewrite Z.pow_add_r by lia. change (2 ^ 12) with 4096.
  rewrite <- !Z.div_div, Z.div_mul by (try apply Z.pow_pos_nonneg; lia). done.
Qed.

Lemma leaf_page m T va : leaf m T (PGROUNDDOWN va) = leaf m T va.
Proof. unfold leaf, va_path. rewrite !PX_page by lia. done. Qed.

Lemma pt_write_leaf m root T va v :
  pt_inv m root T -> 0 <= va < MAXVA -> is_Some (T !! va_path va) ->
  let m' := store64 m (leaf_addr T va) v in
  pt_inv m' root T /\
  (forall va', 0 <= va' < MAXVA ->
    leaf m' T va' = if PGROUNDDOWN va' =? PGROUNDDOWN va then u64 v else leaf m T va') /\
  (forall x, m' x <> m x -> exists pa, table_page T pa /\ in_page pa x).
Proof.
  intros [Hr Hv Hi Hu Hd] Hva [a Ha] m'. unfold m', leaf_addr. rewrite Ha.
  pose proof (PX_range 0 va) as Hk.
  assert (forall p c j, T !! p = Some c -> 0 <= j < 512 -> (p, j) <> (va_path va, PX 0 va) ->
     load64 (store64 m (a + 8 * PX 0 va) v) (c + 8 * j) = load64 m (c + 8 * j)) as Hent.
  { intros p c j Hp Hj Hne. apply load64_store64_other.
    destruct (decide (c = a)) as [->|Hca].
    - assert (p = va_path va) as -> by by eapply Hi. assert (j <> PX 0 va) by congruence. lia.
    - destruct (page_disjoint c a) as [|]; [apply (Hv _ _ Hp)|apply (Hv _ _ Ha)|done|..];
        unfold PGSIZE in *; lia. }
  split_and!.
  - split; try done. intros p c j Hp Hl Hj. rewrite (Hent p c j Hp Hj); [by apply Hd|].
    intros [= -> _]. simpl in Hl. lia.
  - intros va' Hva'. unfold leaf. destruct (Z.eqb_spec (PGROUNDDOWN va') (PGROUNDDOWN va)) as [Heq|Hne].
    + assert (forall k, 0 <= k <= 2 -> PX k va' = PX k va) as HPX.
      { intros k ?. by rewrite <- (PX_page k va'), Heq, PX_page. }
      unfold va_path. rewrite !HPX by lia. fold (va_path va). rewrite Ha. apply load64_store64_same.
    + destruct (T !! va_path va') as [c|] eqn:Ec; [|done].
      apply (Hent (va_path va')); [done|apply PX_range|].
      intros [=]. apply Hne. apply leaf_addr_eq; try done. unfold va_path. congruence.
  - intros x Hx. exists a. split; [by exists (va_path va)|]. unfold in_page, PGSIZE.
    destruct (decide (a + 8 * PX 0 va <= x < a + 8 * PX 0 va + 8)) as [|Hn]; [lia|].
    destruct Hx. apply store_out. lia.
Qed.
End Tree.
