(* ===== verification/VmMap.v ===== *)
(** * Creating and removing mappings: walk with allocation, mappages, uvmunmap

    How the routines of [Vm] that edit a page table act on its tree of tables
    and on the map from pages to leaf entries. *)
From S2P Require Import Prelude Mem CString KTypes Kalloc Vm VmTree.

#[local] Opaque memset load64 store64.

Section Map.
Context (kend : Z).
Hypothesis kend_pos : 0 < kend.
Abbreviation vm_inv := (vm_inv kend).

(** From [s] to [s'] the tree of tables grew from [T] to [T'] with pages taken
    from the free list, and no byte outside the tables and the free pages
    changed. *)
Record evolves (root : Z) (s : mach) (T : tables) (l : list Z) (s' : mach) (T' : tables) (l' : list Z) : Prop := {
  ev_inv : vm_inv s' root T' l';
  ev_sub : T ⊆ T';
  ev_free : forall pa, pa ∈ l' -> pa ∈ l;
  ev_held : held s' = held s;
  ev_touch : touches T l (mmem s) (mmem s');
  ev_new : forall pa, table_page T' pa -> table_page T pa \/ pa ∈ l;
}.

(** Every page that left the free list is now a table. *)
Definition only_tables (l : list Z) (T' : tables) (l' : list Z) : Prop :=
  forall pa, pa ∈ l -> pa ∈ l' \/ table_page T' pa.

Lemma only_tables_trans l1 T2 l2 T3 l3 :
  T2 ⊆ T3 -> only_tables l1 T2 l2 -> only_tables l2 T3 l3 -> only_tables l1 T3 l3.
Proof.
  intros Hsub H1 H2 pa Hpa. destruct (H1 pa Hpa) as [|[p Hp]]; [by apply H2|].
  right. exists p. by eapply lookup_weaken.
Qed.

(** The same, where all tables added are empty. *)
Definition grows root s T l s' T' l' : Prop :=
  evolves root s T l s' T' l' /\ only_tables l T' l' /\
  forall va, leaf (mmem s') T' va = leaf (mmem s) T va.

Lemma evolves_refl root s T l : vm_inv s root T l -> evolves root s T l s T l.
Proof. intros. by split; auto. Qed.

Lemma grows_refl root s T l : vm_inv s root T l -> grows root s T l s T l.
Proof. intros. split; [by apply evolves_refl|]. split; [by left|done]. Qed.

Lemma evolves_trans root s1 T1 l1 s2 T2 l2 s3 T3 l3 :
  evolves root s1 T1 l1 s2 T2 l2 -> evolves root s2 T2 l2 s3 T3 l3 -> evolves root s1 T1 l1 s3 T3 l3.
Proof.
  intros [I1 S1 F1 H1 C1 N1] [I2 S2 F2 H2 C2 N2].
  split; [done|by etrans|by auto|congruence| |].
  - intros x Hx. rewrite C2, C1; [done|done|]. intros pa Hpa. apply Hx.
    destruct Hpa as [Hpa|Hpa]; [|by auto]. by apply N1.
  - intros pa Hpa. destruct (N2 pa Hpa) as [|]; auto.
Qed.

Lemma grows_trans root s1 T1 l1 s2 T2 l2 s3 T3 l3 :
  grows root s1 T1 l1 s2 T2 l2 -> grows root s2 T2 l2 s3 T3 l3 -> grows root s1 T1 l1 s3 T3 l3.
Proof.
  intros (E1 & O1 & L1) (E2 & O2 & L2). split; [by eapply evolves_trans|]. split.
  - eapply only_tables_trans; [apply E2|done..].
  - intros va. by rewrite L2, L1.
Qed.

(** One allocating step of walk. *)
Lemma walk_loop_step n q a va root T l (Q : Z -> mach -> Prop) s :
  vm_inv s root T l -> T !! q = Some a -> (length q < 2)%nat ->
  let i := PX (Z.of_nat (S n)) va in
  (forall s' T' l' b, grows root s T l s' T' l' -> T' !! (q ++ [i]) = Some b ->
     wp (walk_loop n b va true) Q s') ->
  (forall s', grows root s T l s' T [] -> Q 0 s') ->
  wp (walk_loop (S n) a va true) Q s.
Proof.
  intros Hinv Hq Hlen i Hk Hfail. destruct Hinv as [Hkm Hpt Hsep Hlk].
  pose proof (PX_range (Z.of_nat (S n)) va) as Hi. fold i in Hi.
  cbn [walk_loop]. fold i. apply wp_bind, wp_gets.
  pose proof (pt_down _ _ _ _ Hpt q a i Hq Hlen Hi) as Hd.
  destruct (T !! (q ++ [i])) as [b|] eqn:Eb.
  { destruct (table_pte kend kend_pos b) as (Hb1 & Hb2 & _); [by eapply pt_valid|].
    rewrite Hd, Hb1, Hb2. eapply (Hk s T l); [by apply grows_refl|done]. }
  rewrite Hd. simpl negb. cbn iota.
  eapply wp_call; [by eapply wp_kalloc|]. cbn beta. intros r s1 [Hh H].
  destruct l as [|p l].
  { destruct H as (-> & Hkm' & Hm). simpl. apply wp_ret. apply Hfail.
    split; [|split; [by left|by rewrite Hm]]. split; rewrite ?Hm; auto using touches_refl.
    split; [done|by rewrite Hm|done|by rewrite Hh]. }
  destruct H as (-> & Hkm' & Hm).
  pose proof (ki_valid _ _ _ Hkm) as [Hp Hvl]%Forall_cons_1.
  pose proof (ki_nodup _ _ _ Hkm) as [Hpl _]%NoDup_cons.
  pose proof (valid_page_pos _ kend_pos _ Hp). destruct (Z.eqb_spec p 0); [lia|].
  apply wp_bind, wp_modify, wp_bind, wp_modify.
  set (s2 := set_mmem _ _). set (m2 := mmem s2).
  assert (Hnt : ~ table_page T p) by (intros Hx; apply (Hsep _ Hx), elem_of_cons; by left).
  assert (Hva : valid_page kend a) by by eapply pt_valid.
  assert (Hap : a <> p) by (intros ->; apply Hnt; by exists q).
  assert (Hdisj : forall x, a + 8 * i <= x < a + 8 * i + 8 -> ~ in_page p x).
  { intros x Hx Hin. apply Hap. eapply (in_page_eq a p x); [apply Hva|apply Hp| |done].
    unfold in_page, PGSIZE. lia. }
  assert (Hm2 : forall x, x < a + 8 * i \/ a + 8 * i + 8 <= x ->
      m2 x = if decide (in_page p x) then 0 else mmem s x).
  { intros x Hx. unfold m2, s2. simpl. rewrite store64_out by lia. rewrite zero_page, Hm. by case_decide. }
  destruct (pt_extend kend (mmem s) m2 root T q a i p Hpt Hq Hlen Hi Eb Hp Hnt) as [Hpt' Hleaf].
  { intros x Hx. rewrite Hm2; [by rewrite decide_True|].
    destruct (decide (a + 8 * i <= x < a + 8 * i + 8)) as [Hin|]; [by destruct (Hdisj x Hin)|lia]. }
  { unfold m2, s2. simpl. rewrite load64_store64_same. by destruct (table_pte kend kend_pos p Hp) as (_ & _ & ? & _). }
  { intros x Hx Hx'. rewrite Hm2 by done. by rewrite decide_False. }
  assert (Hin : forall x, m2 x <> mmem s x -> in_page a x \/ in_page p x).
  { intros x Hx. destruct (decide (in_page p x)) as [|Hnp]; [by right|left].
    destruct (decide (a + 8 * i <= x < a + 8 * i + 8)); [unfold in_page, PGSIZE; lia|].
    destruct Hx. rewrite Hm2 by lia. by rewrite decide_False. }
  eapply (Hk s2 _ l p); [|by rewrite lookup_insert_eq].
  assert (Hkm2 : kmem_inv kend s2 l).
  { eapply kmem_inv_frame; [exact kend_pos|exact Hkm'|exact eq_refl| |].
    { exact (store64_ok _ _ _ (memset_ok _ _ _ _ (ki_bytes _ _ _ Hkm'))). }
    intros x Hx. fold m2 in Hx. destruct (decide (in_page p x)) as [Hpx|Hpx]; [exists p; exact (conj Hp (conj Hpl Hpx))|].
    exists a. split; [exact Hva|split].
    - intros Hal. apply (Hsep a); [by exists q|apply elem_of_cons; by right].
    - rewrite Hm, (decide_False _ _ Hpx) in Hx. destruct (Hin x Hx) as [Hax|]; [exact Hax|contradiction]. }
  split; [split|split; [|exact Hleaf]].
  - split; [exact Hkm2|exact Hpt'| |].
    + intros pa [p' Hp'] Hal. apply lookup_insert_Some in Hp' as [[_ <-]|[_ Hp']]; [done|].
      apply (Hsep pa); [by exists p'|apply elem_of_cons; by right].
    + simpl. by rewrite Hh.
  - by apply insert_subseteq.
  - intros pa Hpa. apply elem_of_cons. by right.
  - exact Hh.
  - intros x Hx. destruct (decide (m2 x = mmem s x)) as [|Hne]; [done|exfalso].
    destruct (Hin x Hne); [apply (Hx a); [left; by exists q|done]|].
    apply (Hx p); [right; apply elem_of_cons; by left|done].
  - intros pa [p' Hp']. apply lookup_insert_Some in Hp' as [[_ <-]|[_ Hp']].
    + right. apply elem_of_cons. by left.
    + left. by exists p'.
  - intros pa [->|Hpa]%elem_of_cons; [right|by left]. exists (q ++ [i]). by rewrite lookup_insert_eq.
Qed.

Lemma wp_walk_true root T l va s :
  vm_inv s root T l -> 0 <= va < MAXVA ->
  wp (walk root va true) (fun r s' => exists T' l', grows root s T l s' T' l' /\
    (r = 0 /\ l' = [] \/ r = leaf_addr T' va /\ is_Some (T' !! va_path va))) s.
Proof.
  intros Hinv Hva. unfold walk. apply wp_bind, wp_panic_if.
  { destruct (Z.leb_spec MAXVA va); lia || done. }
  pose proof (pt_root _ _ _ _ (vi_pt _ _ _ _ _ Hinv)) as Hr.
  eapply (walk_loop_step 1 []); [done..|simpl; lia| |].
  - intros s1 T1 l1 b G1 Hb. eapply (walk_loop_step 0 [PX 2 va]); [apply (ev_inv _ _ _ _ _ _ _ (proj1 G1))|done|simpl; lia| |].
    + intros s2 T2 l2 c G2 Hc. apply wp_ret. exists T2, l2. split; [by eapply grows_trans|].
      right. unfold leaf_addr. change (va_path va) with ([PX 2 va] ++ [PX (Z.of_nat 1) va]). rewrite Hc. eauto.
    + intros s2 G2. exists T1, []. split; [by eapply grows_trans|]. by left.
  - intros s1 G1. exists T, []. split; [done|]. by left.
Qed.
(** ** Leaf entries *)

Lemma wp_wr_leaf root T l va v (Q : unit -> mach -> Prop) s :
  vm_inv s root T l -> 0 <= va < MAXVA -> is_Some (T !! va_path va) ->
  (forall s', evolves root s T l s' T l ->
     (forall va', 0 <= va' < MAXVA ->
       leaf (mmem s') T va' = if PGROUNDDOWN va' =? PGROUNDDOWN va then u64 v else leaf (mmem s) T va') ->
     touches T [] (mmem s) (mmem s') -> Q tt s') ->
  wp (wr (leaf_addr T va) v) Q s.
Proof.
  intros [Hkm Hpt Hsep Hlk] Hva Hs HQ.
  destruct (pt_write_leaf kend (mmem s) root T va v Hpt Hva Hs) as (Hpt' & Hleaf & Hd).
  assert (touches T [] (mmem s) (store64 (mmem s) (leaf_addr T va) v)) as Ht.
  { intros x Hx. destruct (decide (store64 (mmem s) (leaf_addr T va) v x = mmem s x)) as [|Hne]; [done|].
    destruct (Hd x Hne) as (pa & Hpa & Hin). destruct (Hx pa); auto. }
  unfold wr. apply wp_modify, HQ; [|exact Hleaf|exact Ht].
  split; [| |done|done| |auto]; [split; [|exact Hpt'|done|done]|done|].
  - eapply kmem_inv_frame; [done|exact Hkm|done|apply store64_ok, Hkm|].
    intros x Hx. destruct (Hd x Hx) as (pa & Hpa & Hin). exists pa. split_and!; [|by apply Hsep|done].
    destruct Hpa as [p Hp]. by eapply pt_valid.
  - intros x Hx. apply Ht. intros pa [Hpa|Hpa]; [by apply Hx; left|]. by apply not_elem_of_nil in Hpa.
Qed.

Lemma rd_leaf s T va : is_Some (T !! va_path va) -> load64 (mmem s) (leaf_addr T va) = leaf (mmem s) T va.
Proof. intros [a Ha]. unfold leaf_addr, leaf. by rewrite Ha. Qed.

(** The entry mappages writes. *)
Definition map_pte (pa perm : Z) : Z := u64 (Z.lor (Z.lor (PA2PTE pa) perm) PTE_V).

Lemma map_pte_valid pa perm : has_bits (map_pte pa perm) PTE_V = true.
Proof.
  unfold has_bits, map_pte, wrap. rewrite <- Z.land_ones by lia.
  apply negb_true_iff, Z.eqb_neq. intros H%(f_equal (fun z => Z.testbit z 0)).
  by rewrite !Z.land_spec, !Z.lor_spec, !orb_true_r in H.
Qed.

(** The leaf entries after mapping [k] pages at [a] to the pages at [pa]. *)
Definition remapped (f : Z -> Z) (a k pa perm : Z) (va : Z) : Z :=
  if (a <=? PGROUNDDOWN va) && (PGROUNDDOWN va <? a + k * PGSIZE)
  then map_pte (pa + (PGROUNDDOWN va - a)) perm else f va.

Lemma remapped_0 f a pa perm va : remapped f a 0 pa perm va = f va.
Proof.
  unfold remapped. destruct (Z.leb_spec a (PGROUNDDOWN va)), (Z.ltb_spec (PGROUNDDOWN va) (a + 0 * PGSIZE)); simpl; done || lia.
Qed.

(** The first page, then the others. *)
Lemma remapped_S f a k pa perm va :
  page_aligned a -> 0 <= k ->
  remapped (fun va => if PGROUNDDOWN va =? a then map_pte pa perm else f va) (a + PGSIZE) k (pa + PGSIZE) perm va
  = remapped f a (k + 1) pa perm va.
Proof.
  intros Ha Hk. unfold remapped. destruct (PGROUNDDOWN_spec va) as [Hal _].
  unfold page_aligned, PGSIZE in *. pose proof (Z.div_mod a 4096). pose proof (Z.div_mod (PGROUNDDOWN va) 4096).
  destruct (Z.eqb_spec (PGROUNDDOWN va) a) as [Heq|Hne].
  - rewrite Heq. destruct (Z.leb_spec (a + 4096) a); [lia|]. simpl.
    destruct (Z.leb_spec a a), (Z.ltb_spec a (a + (k + 1) * 4096)); simpl; try lia. f_equal. lia.
  - destruct (Z.leb_spec (a + 4096) (PGROUNDDOWN va)), (Z.leb_spec a (PGROUNDDOWN va)),
      (Z.ltb_spec (PGROUNDDOWN va) (a + 4096 + k * 4096)), (Z.ltb_spec (PGROUNDDOWN va) (a + (k + 1) * 4096));
      simpl; try lia; try done; f_equal; lia.
Qed.
Lemma remapped_ext f g a k pa perm va :
  f va = g va -> remapped f a k pa perm va = remapped g a k pa perm va.
Proof. unfold remapped. by intros ->. Qed.

(** Result of mapping [n] pages: all of them with result 0, or, when the page
    allocator runs dry, the first [k < n] of them with result -1. *)
Definition mapped_result (root : Z) (s : mach) (T : tables) (l : list Z) (a n pa perm r : Z) (s' : mach) : Prop :=
  exists k T' l', evolves root s T l s' T' l' /\ only_tables l T' l' /\
    (forall va, 0 <= va < MAXVA -> leaf (mmem s') T' va = remapped (leaf (mmem s) T) a k pa perm va) /\
    (r = 0 /\ k = n \/ r = -1 /\ 0 <= k < n /\ l' = []).

(** One turn of the loop of mappages, followed by [k]. *)
Lemma wp_map_one root T l a pa perm (k : E mach Z) (Q : Z -> mach -> Prop) s :
  vm_inv s root T l -> page_aligned a -> 0 <= a < MAXVA ->
  has_bits (leaf (mmem s) T a) PTE_V = false ->
  (forall s' T' l', evolves root s T l s' T' l' -> only_tables l T' l' ->
    (forall va, 0 <= va < MAXVA ->
       leaf (mmem s') T' va = if PGROUNDDOWN va =? a then map_pte pa perm else leaf (mmem s) T va) ->
    wp k Q s') ->
  (forall s' T', grows root s T l s' T' [] -> Q (-1) s') ->
  wp (pte ← walk root a true;
      if pte =? 0 then mret (-1)
      else
        v ← rd pte;
        panic_if (has_bits v PTE_V) "mappages: remap";;
        wr pte (Z.lor (Z.lor (PA2PTE pa) perm) PTE_V);; k) Q s.
Proof.
  intros Hinv Ha Hva Hfree Hk Hfail.
  eapply wp_call; [by eapply wp_walk_true|]. cbn beta.
  intros r s1 (T1 & l1 & (E1 & O1 & L1) & [[-> ->]|[-> Hs]]).
  { apply wp_ret. by apply (Hfail s1 T1). }
  pose proof (ev_inv _ _ _ _ _ _ _ E1) as Hinv1.
  destruct (Z.eqb_spec (leaf_addr T1 a) 0) as [Hz|_].
  { by apply (leaf_addr_nonzero kend kend_pos (mmem s1) root T1 a (vi_pt _ _ _ _ _ Hinv1)) in Hs. }
  apply wp_bind, wp_gets, wp_bind, wp_panic_if; [by rewrite rd_leaf, L1|].
  eapply wp_bind, wp_wr_leaf; [done..|]. intros s2 E2 L2 _. eapply (Hk s2 T1 l1); [by eapply evolves_trans|done|].
  intros va Hv. by rewrite L2, L1, (PGROUNDDOWN_aligned a) by done.
Qed.

Lemma wp_mappages_loop n a pa perm root T l s :
  vm_inv s root T l -> page_aligned a -> 0 <= a -> a + Z.of_nat n * PGSIZE < MAXVA ->
  0 <= pa -> pa + Z.of_nat n * PGSIZE < 2 ^ 64 ->
  (forall j, 0 <= j <= Z.of_nat n -> has_bits (leaf (mmem s) T (a + j * PGSIZE)) PTE_V = false) ->
  wp (mappages_loop n root a (a + Z.of_nat n * PGSIZE) pa perm)
     (mapped_result root s T l a (Z.of_nat n + 1) pa perm) s.
Proof.
  revert a pa s T l. induction n as [|n IH]; intros a pa s T l Hinv Ha H0 Hmax Hpa Hpm Hfree;
    cbn [mappages_loop]; unfold PGSIZE in *;
    (eapply wp_map_one; [done|done|lia|by rewrite <- (Z.add_0_r a); apply (Hfree 0); lia| |]).
  2, 4: intros s1 T1 (E1 & O1 & L1); exists 0, T1, []; do 2 (split; [done|]);
    (split; [intros va _; by rewrite remapped_0|]); right; split; [done|split; [lia|done]].
  - intros s1 T1 l1 E1 O1 L1. destruct (Z.eqb_spec a (a + Z.of_nat 0 * 4096)) as [_|]; [|lia].
    apply wp_ret. exists 1, T1, l1. split; [done|]. split; [done|]. split; [|by left].
    intros va Hv. rewrite L1 by done.
    pose proof (remapped_S (leaf (mmem s) T) a 0 pa perm va Ha ltac:(lia)) as HS.
    rewrite remapped_0 in HS. exact HS.
  - intros s1 T1 l1 E1 O1 L1. destruct (Z.eqb_spec a (a + Z.of_nat (S n) * 4096)) as [|_]; [lia|].
    assert (MAXVA + 4096 < 2 ^ 64) by done. rewrite !wrap_small by lia.
    replace (a + Z.of_nat (S n) * 4096) with (a + 4096 + Z.of_nat n * 4096) by lia.
    eapply wp_mono; [apply (IH (a + 4096) (pa + 4096) s1 T1 l1)|]; try lia.
    + apply E1.
    + unfold page_aligned, PGSIZE in *. rewrite Z.add_mod, Ha by lia. done.
    + intros j Hj. rewrite L1 by lia. rewrite PGROUNDDOWN_aligned.
      * destruct (Z.eqb_spec (a + 4096 + j * 4096) a); [lia|].
        replace (a + 4096 + j * 4096) with (a + (j + 1) * 4096) by lia. apply Hfree. lia.
      * unfold page_aligned, PGSIZE in *. rewrite Z.mod_add, Z.add_mod, Ha by lia. done.
    + intros r s2 (k & T2 & l2 & E2 & O2 & L2 & Hr). exists (k + 1), T2, l2.
      split; [by eapply evolves_trans|]. split; [eapply only_tables_trans; [apply E2|done..]|]. split; [|destruct Hr as [[-> ->]|(-> & ? & ->)]; [left|right]; split_and!; lia || done].
      intros va Hv. rewrite L2 by done. rewrite <- (remapped_S _ a k) by (done || lia).
      apply remapped_ext. by apply L1.
Qed.

(** mappages on an aligned range below [MAXVA] none of whose pages is mapped. *)
Lemma wp_mappages va n pa perm root T l s :
  vm_inv s root T l -> page_aligned va -> 0 <= va -> 0 < n -> va + n * PGSIZE <= MAXVA ->
  0 <= pa -> pa + n * PGSIZE <= 2 ^ 64 ->
  (forall j, 0 <= j < n -> has_bits (leaf (mmem s) T (va + j * PGSIZE)) PTE_V = false) ->
  wp (mappages root va (n * PGSIZE) pa perm) (mapped_result root s T l va n pa perm) s.
Proof.
  intros Hinv Ha H0 Hn Hmax Hpa Hpm Hfree. unfold mappages. unfold PGSIZE in *.
  apply wp_bind, wp_panic_if; [by destruct (Z.eqb_spec (n * 4096) 0); [lia|]|].
  assert (MAXVA < 2 ^ 64) by done. rewrite (wrap_small 64) by lia.
  rewrite (PGROUNDDOWN_aligned va) by done.
  assert (PGROUNDDOWN (va + n * 4096 - 1) = va + (n - 1) * 4096) as ->.
  { rewrite PGROUNDDOWN_eq. unfold page_aligned, PGSIZE in *. pose proof (Z.div_mod va 4096).
    rewrite <- (Z.div_unique (va + n * 4096 - 1) 4096 (va / 4096 + n - 1) 4095); lia. }
  destruct (Z.ltb_spec (va + (n - 1) * 4096) va); [lia|].
  replace (va + (n - 1) * 4096 - va) with ((n - 1) * 4096) by lia. rewrite Z.div_mul by lia.
  pose proof (wp_mappages_loop (Z.to_nat (n - 1)) va pa perm root T l s) as Hl.
  rewrite Z2Nat.id in Hl by lia. unfold PGSIZE in Hl. replace (n - 1 + 1) with n in Hl by lia.
  apply Hl; try lia; [done..|]. intros j Hj. apply Hfree. lia.
Qed.
(** ** Unmapping *)

Lemma wp_kfree_vm root T l pa (Q : unit -> mach -> Prop) s :
  vm_inv s root T l -> valid_page kend pa -> pa ∉ l -> ~ table_page T pa ->
  (forall s', vm_inv s' root T (pa :: l) -> held s' = held s ->
     (forall va, leaf (mmem s') T va = leaf (mmem s) T va) ->
     (forall x, ~ in_page pa x -> mmem s' x = mmem s x) -> Q tt s') ->
  wp (kfree kend pa) Q s.
Proof.
  intros [Hkm Hpt Hsep Hlk] Hpa Hni Hnt HQ. eapply wp_mono; [by apply (wp_kfree kend kend_pos pa s l)|].
  cbn beta. intros [] s' (Hkm' & Hh & Hm).
  assert (forall x, ~ in_page pa x -> mmem s' x = mmem s x) as Hm' by (intros; apply Hm; unfold in_page in *; lia).
  destruct (pt_frame kend (mmem s) (mmem s') root T Hpt) as [Hpt' HL].
  { intros pb x [p Hp] Hin. apply Hm'. intros Hin'. apply Hnt. exists p.
    rewrite <- (in_page_eq pb pa x); [done|by eapply pt_valid|apply Hpa|done..]. }
  apply HQ; try done. split; [done|done| |by rewrite Hh].
  intros pb Hb [->|Hin]%elem_of_cons; [done|]. by apply (Hsep pb).
Qed.

(** The pages the [n] leaf entries from [a] on point to. *)
Fixpoint leaf_pages (m : mem) (T : tables) (a : Z) (n : nat) : list Z :=
  match n with
  | O => []
  | S n => PTE2PA (leaf m T a) :: leaf_pages m T (a + PGSIZE) n
  end.

(** The leaf entries after clearing [n] pages at [a]. *)
Definition cleared (f : Z -> Z) (a n va : Z) : Z :=
  if (a <=? PGROUNDDOWN va) && (PGROUNDDOWN va <? a + n * PGSIZE) then 0 else f va.

Lemma cleared_0 f a va : cleared f a 0 va = f va.
Proof.
  unfold cleared. destruct (Z.leb_spec a (PGROUNDDOWN va)), (Z.ltb_spec (PGROUNDDOWN va) (a + 0 * PGSIZE)); simpl; done || lia.
Qed.

Lemma cleared_S f a n va :
  page_aligned a -> 0 <= n ->
  cleared (fun va => if PGROUNDDOWN va =? a then 0 else f va) (a + PGSIZE) n va = cleared f a (n + 1) va.
Proof.
  intros Ha Hn. unfold cleared. destruct (PGROUNDDOWN_spec va) as [Hal _].
  unfold page_aligned, PGSIZE in *. pose proof (Z.div_mod a 4096). pose proof (Z.div_mod (PGROUNDDOWN va) 4096).
  destruct (Z.eqb_spec (PGROUNDDOWN va) a), (Z.leb_spec (a + 4096) (PGROUNDDOWN va)), (Z.leb_spec a (PGROUNDDOWN va)),
    (Z.ltb_spec (PGROUNDDOWN va) (a + 4096 + n * 4096)), (Z.ltb_spec (PGROUNDDOWN va) (a + (n + 1) * 4096));
    simpl; done || lia.
Qed.

(** A leaf entry uvmunmap accepts. *)
Definition unmappable (v : Z) : Prop := Z.land v PTE_V <> 0 /\ PTE_FLAGS v <> PTE_V.

Lemma leaf_some m T va v : leaf m T va = v -> v <> 0 -> is_Some (T !! va_path va).
Proof. unfold leaf. destruct (T !! va_path va); [by eauto|]. by intros <-. Qed.

Lemma unmappable_nonzero v : unmappable v -> v <> 0.
Proof. by intros [H _] ->. Qed.

(** One turn of the loop of uvmunmap, followed by [k]. *)
Lemma wp_unmap_one root T l a (do_free : bool) (k : E mach unit) (Q : unit -> mach -> Prop) s :
  vm_inv s root T l -> 0 <= a < MAXVA -> page_aligned a ->
  let v := leaf (mmem s) T a in
  let pa := PTE2PA v in
  unmappable v ->
  (do_free = true -> valid_page kend pa /\ pa ∉ l /\ ~ table_page T pa) ->
  (forall s', vm_inv s' root T (if do_free then pa :: l else l) -> held s' = held s ->
     (forall va, 0 <= va < MAXVA ->
        leaf (mmem s') T va = if PGROUNDDOWN va =? a then 0 else leaf (mmem s) T va) ->
     touches T (if do_free then [pa] else []) (mmem s) (mmem s') -> wp k Q s') ->
  wp (pte ← walk root a false;
      panic_if (pte =? 0) "uvmunmap: walk";;
      v ← rd pte;
      panic_if (Z.land v PTE_V =? 0) "uvmunmap: not mapped";;
      panic_if (PTE_FLAGS v =? PTE_V) "uvmunmap: not a leaf";;
      (if do_free then kfree kend (PTE2PA v) else mret tt);;
      wr pte 0;; k) Q s.
Proof.
  intros Hinv Hva Hal v pa Hun Hfree Hk.
  pose proof (vi_pt _ _ _ _ _ Hinv) as Hpt.
  assert (is_Some (T !! va_path a)) as Hs by (eapply leaf_some; [done|by apply unmappable_nonzero]).
  apply wp_bind. eapply wp_walk_false; [done..|].
  apply wp_bind, wp_panic_if.
  { apply Z.eqb_neq. by eapply leaf_addr_nonzero. }
  apply wp_bind, wp_gets. rewrite rd_leaf by done. fold v. destruct Hun as [Hv Hfl].
  apply wp_bind, wp_panic_if; [by apply Z.eqb_neq|].
  apply wp_bind, wp_panic_if; [by apply Z.eqb_neq|]. fold pa.
  destruct do_free.
  - destruct Hfree as (Hval & Hni & Hnt); [done|].
    apply wp_bind. eapply wp_kfree_vm; [done..|]. intros s1 Hinv1 Hh1 L1 M1.
    apply wp_bind. eapply wp_wr_leaf; [done..|]. intros s2 E2 L2 M2. apply Hk.
    + apply E2.
    + by rewrite (ev_held _ _ _ _ _ _ _ E2).
    + intros va Hv'. by rewrite L2, L1, (PGROUNDDOWN_aligned a) by done.
    + intros x Hx. rewrite M2, M1; [done| |].
      * apply Hx. right. by apply list_elem_of_singleton.
      * intros pb [Hb|Hb]; [by apply Hx; left|]. by apply not_elem_of_nil in Hb.
  - apply wp_bind, wp_ret, wp_bind. eapply wp_wr_leaf; [done..|]. intros s2 E2 L2 M2. apply Hk; [apply E2|apply E2| |done].
    intros va Hv'. by rewrite L2, (PGROUNDDOWN_aligned a) by done.
Qed.

Lemma leaf_pages_ext m m' T T' a n :
  (forall j, 0 <= j < Z.of_nat n -> leaf m T (a + j * PGSIZE) = leaf m' T' (a + j * PGSIZE)) ->
  leaf_pages m T a n = leaf_pages m' T' a n.
Proof.
  revert a. induction n as [|n IH]; intros a H; simpl; [done|]. f_equal.
  - f_equal. rewrite <- (Z.add_0_r a). apply (H 0). lia.
  - apply IH. intros j Hj. replace (a + PGSIZE + j * PGSIZE) with (a + (j + 1) * PGSIZE) by lia. apply H. lia.
Qed.

(** The pages that may be freed: distinct pages, neither free nor tables. *)
Definition freeable (T : tables) (l ps : list Z) : Prop :=
  NoDup ps /\ forall pa, pa ∈ ps -> valid_page kend pa /\ pa ∉ l /\ ~ table_page T pa.

Lemma wp_uvmunmap_loop n a (do_free : bool) root T l s :
  vm_inv s root T l -> page_aligned a -> 0 <= a -> a + Z.of_nat n * PGSIZE <= MAXVA ->
  (forall j, 0 <= j < Z.of_nat n -> unmappable (leaf (mmem s) T (a + j * PGSIZE))) ->
  let ps := if do_free then leaf_pages (mmem s) T a n else [] in
  freeable T l ps ->
  wp (uvmunmap_loop kend n root a (a + Z.of_nat n * PGSIZE) do_free)
     (fun _ s' => vm_inv s' root T (rev ps ++ l) /\ held s' = held s /\
        (forall va, 0 <= va < MAXVA -> leaf (mmem s') T va = cleared (leaf (mmem s) T) a (Z.of_nat n) va) /\
        touches T ps (mmem s) (mmem s')) s.
Proof.
  revert a s l. induction n as [|n IH]; intros a s l Hinv Ha H0 Hmax Hun ps Hfr; cbn [uvmunmap_loop];
    unfold PGSIZE in *.
  { destruct (Z.ltb_spec a (a + Z.of_nat 0 * 4096)); [lia|]. apply wp_ret.
    assert (ps = []) as -> by (unfold ps; by destruct do_free).
    split_and!; [done..|intros va _; by rewrite cleared_0|done]. }
  destruct (Z.ltb_spec a (a + Z.of_nat (S n) * 4096)); [|lia].
  eapply wp_unmap_one; [done|lia|done|rewrite <- (Z.add_0_r a); apply (Hun 0); lia| |].
  { intros ->. apply Hfr. unfold ps. simpl. apply elem_of_cons. by left. }
  intros s1 Hinv1 Hh1 L1 M1. assert (MAXVA + 4096 < 2 ^ 64) by done. rewrite wrap_small by lia.
  replace (a + Z.of_nat (S n) * 4096) with (a + 4096 + Z.of_nat n * 4096) by lia.
  assert (Hrest : forall j, 0 <= j < Z.of_nat n ->
    leaf (mmem s1) T (a + 4096 + j * 4096) = leaf (mmem s) T (a + (j + 1) * 4096)).
  { intros j Hj. replace (a + 4096 + j * 4096) with (a + (j + 1) * 4096) by lia.
    rewrite L1 by lia. rewrite PGROUNDDOWN_aligned.
    - by destruct (Z.eqb_spec (a + (j + 1) * 4096) a); [lia|].
    - unfold page_aligned, PGSIZE in *. by rewrite Z.mod_add by lia. }
  assert (Hps : leaf_pages (mmem s1) T (a + 4096) n = leaf_pages (mmem s) T (a + 4096) n).
  { apply leaf_pages_ext. intros j Hj. unfold PGSIZE. rewrite Hrest by done. f_equal. lia. }
  eapply wp_mono; [eapply (IH (a + 4096) s1)|]; [done| |lia|lia| | |].
  - unfold page_aligned, PGSIZE in *. rewrite Z.add_mod, Ha by lia. done.
  - intros j Hj. rewrite Hrest by done. apply Hun. lia.
  - unfold ps in Hfr. destruct do_free; [|by split; [constructor|intros ? ?%not_elem_of_nil]].
    rewrite Hps. destruct Hfr as [Hnd Hfr]. simpl in Hnd, Hfr. unfold PGSIZE in *.
    apply NoDup_cons in Hnd as [Hnin Hnd]. split; [done|]. intros pa Hpa.
    destruct (Hfr pa) as (? & ? & ?); [apply elem_of_cons; by right|]. split_and!; try done.
    intros [->|Hin]%elem_of_cons; done.
  - cbn beta. intros _ s2 (Hinv2 & Hh2 & L2 & M2). unfold ps. split_and!.
    + destruct do_free; [|done]. rewrite Hps in Hinv2. simpl. by rewrite <- app_assoc.
    + congruence.
    + intros va Hva. rewrite L2 by done. unfold cleared at 1. rewrite L1 by done.
      replace (Z.of_nat (S n)) with (Z.of_nat n + 1) by lia. by rewrite <- cleared_S by (done || lia).
    + intros x Hx. rewrite M2, M1; [done| |].
      * intros pa Hpa. apply Hx. destruct Hpa as [|Hpa]; [by left|right]. destruct do_free; [|done].
        apply list_elem_of_singleton in Hpa as ->. simpl. apply elem_of_cons. by left.
      * intros pa Hpa. apply Hx. destruct Hpa as [|Hpa]; [by left|right]. destruct do_free; [|done].
        rewrite Hps in Hpa. simpl. apply elem_of_cons. by right.
Qed.

Lemma wp_uvmunmap va n (do_free : bool) root T l s :
  vm_inv s root T l -> page_aligned va -> 0 <= va -> 0 <= n -> va + n * PGSIZE <= MAXVA ->
  (forall j, 0 <= j < n -> unmappable (leaf (mmem s) T (va + j * PGSIZE))) ->
  let ps := if do_free then leaf_pages (mmem s) T va (Z.to_nat n) else [] in
  freeable T l ps ->
  wp (uvmunmap kend root va n do_free)
     (fun _ s' => vm_inv s' root T (rev ps ++ l) /\ held s' = held s /\
        (forall va', 0 <= va' < MAXVA -> leaf (mmem s') T va' = cleared (leaf (mmem s) T) va n va') /\
        touches T ps (mmem s) (mmem s')) s.
Proof.
  intros Hinv Ha H0 Hn Hmax Hun ps Hfr. unfold uvmunmap. apply wp_bind, wp_panic_if.
  { unfold page_aligned in Ha. by rewrite Ha. }
  assert (MAXVA < 2 ^ 64) by done. unfold PGSIZE in *. rewrite (wrap_small 64) by lia.
  pose proof (wp_uvmunmap_loop (Z.to_nat n) va do_free root T l s Hinv Ha H0) as Hl.
  rewrite Z2Nat.id in Hl by lia. by apply Hl.
Qed.
(** ** A new page table *)

Lemma wp_uvmcreate l s :
  kmem_inv kend s l -> L_kmem ∉ held s ->
  wp uvmcreate (fun r s' => held s' = held s /\
    match l with
    | [] => r = 0
    | p :: l' => r = p /\ vm_inv s' p {[ [] := p ]} l' /\
        (forall va, leaf (mmem s') {[ [] := p ]} va = 0) /\ (forall x, ~ in_page p x -> mmem s' x = mmem s x)
    end) s.
Proof.
  intros Hkm Hlk. unfold uvmcreate. eapply wp_call; [by eapply wp_kalloc|]. cbn beta.
  intros r s1 [Hh H]. destruct l as [|p l].
  { destruct H as (-> & _). simpl. by apply wp_ret. }
  destruct H as (-> & Hkm1 & Hm).
  pose proof (ki_valid _ _ _ Hkm) as [Hp _]%Forall_cons_1.
  pose proof (ki_nodup _ _ _ Hkm) as [Hpl _]%NoDup_cons.
  pose proof (valid_page_pos _ kend_pos _ Hp). destruct (Z.eqb_spec p 0); [lia|].
  apply wp_bind, wp_modify, wp_ret. split; [done|]. split; [done|].
  assert (Hm2 : forall x, memset (mmem s1) p 0 PGSIZE x = if decide (in_page p x) then 0 else mmem s x).
  { intros x. rewrite zero_page, Hm. by case_decide. }
  assert (Hsing : forall q c, ({[ [] := p ]} : tables) !! q = Some c -> q = [] /\ c = p).
  { intros q c [<- <-]%lookup_singleton_Some. done. }
  assert (forall va, va_path va <> []) as Hpath by done.
  split; [split|split].
  - eapply kmem_inv_frame; [done|exact Hkm1|done|apply memset_ok, (ki_bytes _ _ _ Hkm1)|].
    intros x Hx. simpl in Hx. rewrite Hm2, Hm in Hx. by destruct Hx.
  - split.
    + apply lookup_singleton_eq.
    + intros q c [_ ->]%Hsing. done.
    + intros q q' c [-> _]%Hsing [-> _]%Hsing. done.
    + intros q i b [Hq _]%Hsing. by destruct q.
    + intros q c i [-> ->]%Hsing _ Hi. rewrite lookup_singleton_ne by done.
      rewrite load64_zero; [done|]. intros x Hx. simpl. rewrite Hm2, decide_True; [done|].
      unfold in_page, PGSIZE. lia.
  - intros pa [q [_ ->]%Hsing]. done.
  - simpl. by rewrite Hh.
  - intros va. unfold leaf. by rewrite lookup_singleton_ne.
  - intros x Hx. simpl. by rewrite Hm2, decide_False.
Qed.
End Map.

(** ** Properties *)

(** mappages on an aligned range whose pages are not yet mapped either maps
    every page of the range to the corresponding physical page with the given
    permissions and returns 0, or runs out of free pages, returns -1 and has
    mapped only a prefix; in both cases no entry outside the pages mapped
    changes, and the only pages taken from the allocator became page tables. *)
Theorem mappages_maps_range (kend root va n pa perm : Z) (T : tables) (l : list Z) (s : mach) :
  0 < kend -> vm_inv kend s root T l ->
  page_aligned va -> 0 <= va -> 0 < n -> va + n * PGSIZE <= MAXVA ->
  0 <= pa -> pa + n * PGSIZE <= 2 ^ 64 ->
  (forall j, 0 <= j < n -> has_bits (leaf (mmem s) T (va + j * PGSIZE)) PTE_V = false) ->
  wp (mappages root va (n * PGSIZE) pa perm) (fun r s' => exists k T' l',
    (r = 0 /\ k = n \/ r = -1 /\ 0 <= k < n /\ l' = []) /\
    vm_inv kend s' root T' l' /\ T ⊆ T' /\ only_tables l T' l' /\ held s' = held s /\
    (forall a, 0 <= a < MAXVA -> leaf (mmem s') T' a =
       if (va <=? PGROUNDDOWN a) && (PGROUNDDOWN a <? va + k * PGSIZE)
       then map_pte (pa + (PGROUNDDOWN a - va)) perm else leaf (mmem s) T a)) s.
Proof.
  intros Hk Hinv Hal H0 Hn Hmax Hpa Hpm Hfree.
  eapply wp_mono; [by apply (wp_mappages kend Hk va n pa perm root T l s)|].
  intros r s' (k & T' & l' & [I S F Hh C N] & O & L & Hr). exists k, T', l'. by split_and!.
Qed.

(** ** Witnesses: a machine with six pages, one of them an empty page table *)

Definition six_pages : Z := PHYSTOP - 6 * PGSIZE.

(** kinit, then uvmcreate. *)
Definition with_table : mach :=
  match (kinit six_pages;; uvmcreate) boot with Done _ s => s | _ => boot end.
Definition root_page : Z := PHYSTOP - PGSIZE.
Definition free5 : list Z := map (fun i => PHYSTOP - i * PGSIZE) [2; 3; 4; 5; 6].

Lemma fresh_table :
  vm_inv six_pages with_table root_page {[ [] := root_page ]} free5 /\
  forall va, leaf (mmem with_table) {[ [] := root_page ]} va = 0.
Proof.
  assert (0 < six_pages) as Hp by done.
  pose proof (wp_kinit six_pages Hp boot) as H. destruct boot_ok as (_ & Hl & Hf & Hb).
  specialize (H ltac:(unfold six_pages, PGSIZE; lia) Hl Hf Hb).
  apply wp_done in H as (u & s1 & Hr1 & Hk & Hh).
  pose proof (wp_uvmcreate six_pages Hp (all_pages six_pages) s1 Hk ltac:(by rewrite Hh)) as H.
  apply wp_done in H as (r & s2 & Hr2 & _ & H).
  change (all_pages six_pages) with (root_page :: free5) in H.
  destruct H as (_ & Hv & Hleaf & _).
  assert (with_table = s2) as ->; [|done].
  unfold with_table. by rewrite (bind_done _ _ _ _ _ Hr1), Hr2.
Qed.

Lemma mappages_maps_range_witness :
  wp (mappages root_page 0 (2 * PGSIZE) UART0 6) (fun r s' => exists k T' l',
    (r = 0 /\ k = 2 \/ r = -1 /\ 0 <= k < 2 /\ l' = []) /\ vm_inv six_pages s' root_page T' l') with_table.
Proof.
  destruct fresh_table as (Hinv & Hleaf).
  eapply wp_mono; [apply (mappages_maps_range six_pages root_page 0 2 UART0 6 {[ [] := root_page ]} free5 with_table)|].
  1-8: done.
  - intros j Hj. by rewrite Hleaf.
  - cbn beta. intros r s' (k & T' & l' & Hr & Hv & _). by exists k, T', l'.
Defined.
