(* ===== verification/VmUser.v ===== *)
(** * User address spaces: uvmalloc, uvmdealloc, copyin, copyout

    Growing a process with uvmalloc either maps fresh zeroed pages on the
    whole range or undoes what it did; the copies between kernel and user
    memory are characterised by the bytes a user address designates. *)
From S2P Require Import Prelude Mem CString KTypes Kalloc Vm VmTree VmMap.

#[local] Opaque memset load64 store64.

Section User.
Context (kend : Z).
Hypothesis kend_pos : 0 < kend.
Abbreviation vm_inv := (vm_inv kend).
Abbreviation evolves := (evolves kend).
Abbreviation freeable := (freeable kend).

Lemma map_pte_make pa perm :
  page_aligned pa -> 0 <= pa < 2 ^ 56 -> 0 <= perm < 2 ^ 10 ->
  PTE2PA (map_pte pa perm) = pa /\ PTE_FLAGS (map_pte pa perm) = Z.lor perm PTE_V.
Proof.
  intros Ha Hpa Hp. unfold map_pte. rewrite <- Z.lor_assoc.
  destruct (pte_make pa (Z.lor perm PTE_V) Ha Hpa) as (H1 & H2 & H3).
  { split; [apply Z.lor_nonneg; by split; [lia|]|].
    destruct (decide (perm = 0)) as [->|]; [done|].
    apply Z.log2_lt_pow2; [|rewrite Z.log2_lor by (done || lia); apply Z.max_lub_lt; [|done]].
    - assert (0 <= Z.lor perm PTE_V) by (apply Z.lor_nonneg; by split; [lia|]).
      assert (Z.lor perm PTE_V <> 0); [|lia]. rewrite Z.lor_eq_0_iff. by intros [? ?].
    - apply Z.log2_lt_pow2; lia. }
  rewrite wrap_small by lia. done.
Qed.

(** An entry that grants an access right can be unmapped. *)
Lemma map_pte_unmappable pa perm :
  page_aligned pa -> 0 <= pa < 2 ^ 56 -> 0 <= perm < 2 ^ 10 -> Z.lor perm PTE_V <> PTE_V ->
  unmappable (map_pte pa perm).
Proof.
  intros Ha Hpa Hp Hne. split; [|by rewrite (proj2 (map_pte_make pa perm Ha Hpa Hp))].
  pose proof (map_pte_valid pa perm) as H. unfold has_bits in H. by apply negb_true_iff, Z.eqb_neq in H.
Qed.

Lemma leaf_pages_snoc m T a n :
  leaf_pages m T a (S n) = leaf_pages m T a n ++ [PTE2PA (leaf m T (a + Z.of_nat n * PGSIZE))].
Proof.
  revert a. induction n as [|n IH]; intros a.
  - simpl. by rewrite Z.add_0_r.
  - change (leaf_pages m T a (S (S n))) with (PTE2PA (leaf m T a) :: leaf_pages m T (a + PGSIZE) (S n)).
    rewrite IH. simpl. do 5 f_equal. lia.
Qed.

Lemma elem_leaf_pages m T a n pa :
  pa ∈ leaf_pages m T a n <-> exists j, 0 <= j < Z.of_nat n /\ pa = PTE2PA (leaf m T (a + j * PGSIZE)).
Proof.
  induction n as [|n IH].
  - split; [by intros ?%not_elem_of_nil|]. intros (j & ? & _). lia.
  - rewrite leaf_pages_snoc, elem_of_app, list_elem_of_singleton, IH. split.
    + intros [(j & Hj & ->) | ->]; eexists; (split; [|done]); lia.
    + intros (j & Hj & ->). destruct (decide (j = Z.of_nat n)) as [->|]; [by right|].
      left. exists j. split; [lia|done].
Qed.

(** ** uvmdealloc *)

Lemma wp_uvmdealloc a0 k root T l s :
  vm_inv s root T l -> page_aligned a0 -> 0 <= a0 -> 0 <= k -> a0 + k * PGSIZE <= MAXVA ->
  (forall j, 0 <= j < k -> unmappable (leaf (mmem s) T (a0 + j * PGSIZE))) ->
  let ps := leaf_pages (mmem s) T a0 (Z.to_nat k) in
  freeable T l ps ->
  wp (uvmdealloc kend root (a0 + k * PGSIZE) a0)
     (fun r s' => r = a0 /\ vm_inv s' root T (rev ps ++ l) /\ held s' = held s /\
        (forall va, 0 <= va < MAXVA -> leaf (mmem s') T va = cleared (leaf (mmem s) T) a0 k va) /\
        touches T ps (mmem s) (mmem s')) s.
Proof.
  intros Hinv Ha H0 Hk Hmax Hun ps Hfr. unfold uvmdealloc. unfold PGSIZE in *.
  assert (MAXVA + 4096 < 2 ^ 64) by done.
  destruct (decide (k = 0)) as [->|Hk0].
  { destruct (Z.leb_spec (a0 + 0 * 4096) a0); [|lia]. apply wp_ret.
    split_and!; [lia|done..|intros va _; by rewrite cleared_0|done]. }
  destruct (Z.leb_spec (a0 + k * 4096) a0); [lia|].
  assert (forall j, 0 <= j <= k -> PGROUNDUP (a0 + j * 4096) = a0 + j * 4096) as Hup.
  { intros j Hj. rewrite PGROUNDUP_eq by (unfold PGSIZE; lia). unfold page_aligned, PGSIZE in *.
    pose proof (Z.div_mod a0 4096).
    rewrite <- (Z.div_unique (a0 + j * 4096 + 4096 - 1) 4096 (a0 / 4096 + j) 4095); lia. }
  rewrite (Hup k) by lia. pose proof (Hup 0 ltac:(lia)) as Hup0. rewrite Z.mul_0_l, Z.add_0_r in Hup0. rewrite Hup0.
  destruct (Z.ltb_spec a0 (a0 + k * 4096)); [|lia].
  replace (a0 + k * 4096 - a0) with (k * 4096) by lia. rewrite Z.div_mul by lia.
  assert (k < 2 ^ 31) by (change MAXVA with (2 ^ 26 * 4096) in *; lia).
  rewrite sint_small, wrap_small by lia.
  eapply wp_call; [by apply (wp_uvmunmap kend kend_pos a0 k true root T l s)|].
  cbn beta. intros _ s' (? & ? & ? & ?). by apply wp_ret.
Qed.

(** ** A fresh page *)

(** A page that is neither a table nor free keeps its contents. *)
Lemma untouched_page T1 l1 m m' pa x :
  (forall q, table_page T1 q \/ q ∈ l1 -> page_aligned q) ->
  touches T1 l1 m m' -> page_aligned pa -> pa ∉ l1 -> ~ table_page T1 pa -> in_page pa x -> m' x = m x.
Proof.
  intros Hq Ht Ha Hl Hnt Hin. apply Ht. intros q Hqq Hqx.
  assert (q = pa) as -> by (eapply in_page_eq; [by apply Hq|done..]). tauto.
Qed.

Lemma vm_pages_aligned root s T l : vm_inv s root T l -> forall q, table_page T q \/ q ∈ l -> page_aligned q.
Proof.
  intros [Hk Hp _ _] q [[p Hq]|Hq].
  - by apply (pt_valid _ _ _ _ Hp p).
  - pose proof (ki_valid _ _ _ Hk) as Hv. rewrite Forall_forall in Hv. by apply Hv.
Qed.

(** The state after kalloc handed out [p]. *)
Lemma wp_kalloc_vm root T l (Q : Z -> mach -> Prop) s :
  vm_inv s root T l ->
  (l = [] -> forall s', evolves root s T [] s' T [] -> mmem s' = mmem s -> Q 0 s') ->
  (forall p l' s', l = p :: l' -> vm_inv s' root T l' -> held s' = held s ->
     valid_page kend p -> p ∉ l' -> ~ table_page T p ->
     (forall x, mmem s' x = if decide (in_page p x) then 0 else mmem s x) ->
     (forall va, leaf (mmem s') T va = leaf (mmem s) T va) -> Q p s') ->
  wp kalloc Q s.
Proof.
  intros [Hkm Hpt Hsep Hlk] Hnone Hsome.
  eapply wp_mono; [by eapply wp_kalloc|]. cbn beta. intros r s1 [Hh H]. destruct l as [|p l].
  - destruct H as (-> & Hkm' & Hm). apply Hnone; [done| |done].
    split; [|done|done|done|intros x _; by rewrite Hm|by left].
    split; [done|by rewrite Hm|done|by rewrite Hh].
  - destruct H as (-> & Hkm' & Hm).
    pose proof (ki_valid _ _ _ Hkm) as [Hp _]%Forall_cons_1.
    pose proof (ki_nodup _ _ _ Hkm) as [Hpl _]%NoDup_cons.
    assert (Hnt : ~ table_page T p) by (intros Hxx; apply (Hsep _ Hxx), elem_of_cons; by left).
    destruct (pt_frame kend (mmem s) (mmem s1) root T Hpt) as [Hpt' HL].
    { intros pb x [q Hq] Hin. rewrite Hm, decide_False; [done|]. intros Hin'. apply Hnt. exists q.
      rewrite <- (in_page_eq pb p x); [done|by eapply pt_valid|apply Hp|done..]. }
    apply (Hsome p l s1); try done. split; [done|done| |by rewrite Hh].
    intros pa Ht Hin. apply (Hsep pa Ht), elem_of_cons. by right.
Qed.

(** Writing a page that is neither free nor a table. *)
Lemma vm_inv_page root T l s p m' :
  vm_inv s root T l -> valid_page kend p -> p ∉ l -> ~ table_page T p -> bytes_ok m' ->
  (forall x, ~ in_page p x -> m' x = mmem s x) ->
  vm_inv (set_mmem m' s) root T l /\ (forall va, leaf m' T va = leaf (mmem s) T va).
Proof.
  intros [Hkm Hpt Hsep Hlk] Hp Hpl Hnt Hb Hm. destruct (pt_frame kend (mmem s) m' root T Hpt) as [Hpt' HL].
  { intros pb x [q Hq] Hin. apply Hm. intros Hin'. apply Hnt. exists q.
    rewrite <- (in_page_eq pb p x); [done|by eapply pt_valid|apply Hp|done..]. }
  split; [|done]. split; [|done..]. eapply kmem_inv_frame; [done|done|done|done|].
  intros x Hne. exists p. split_and!; [done..|]. destruct (decide (in_page p x)); [done|]. destruct Hne. by apply Hm.
Qed.

(** kalloc, and then [g] gives the new page the contents [c]. *)
Lemma wp_fresh_page root T l (kf : E mach Z) (g : Z -> mem -> mem) (c : Z -> Z) (k : Z -> E mach Z) (Q : Z -> mach -> Prop) s :
  vm_inv s root T l ->
  (forall p m, p ∈ l -> bytes_ok m -> (forall x, m x = if decide (in_page p x) then 0 else mmem s x) ->
     bytes_ok (g p m) /\ forall x, g p m x = if decide (in_page p x) then c (x - p) else m x) ->
  (l = [] -> forall s', evolves root s T [] s' T [] -> mmem s' = mmem s -> wp kf Q s') ->
  (forall p l' s', l = p :: l' -> evolves root s T l s' T l' ->
     valid_page kend p -> p ∉ l' -> ~ table_page T p ->
     (forall x, mmem s' x = if decide (in_page p x) then c (x - p) else mmem s x) ->
     (forall va, leaf (mmem s') T va = leaf (mmem s) T va) -> wp (k p) Q s') ->
  wp (mem ← kalloc; if mem =? 0 then kf else upd_mem (g mem);; k mem) Q s.
Proof.
  intros Hinv Hg Hnone Hsome. apply wp_bind. eapply wp_kalloc_vm; [done| |].
  { intros -> s' E' Hm. by apply Hnone. }
  intros p l' s1 -> Hinv1 Hh1 Hp Hni Hnt Hm1 L1.
  pose proof (valid_page_pos kend kend_pos p Hp). destruct (Z.eqb_spec p 0); [lia|].
  apply wp_bind, wp_modify.
  destruct (Hg p (mmem s1)) as [Hb Hm2]; [apply elem_of_cons; by left|apply Hinv1|done|].
  destruct (vm_inv_page root T l' s1 p _ Hinv1 Hp Hni Hnt Hb) as [Hinv2 L2]; [intros x Hx; by rewrite Hm2, decide_False|].
  apply (Hsome p l'); try done.
  - split; [done|done|intros q Hq; apply elem_of_cons; by right|done| |by left].
    intros x Hxx. cbn. rewrite Hm2, Hm1. assert (~ in_page p x) by (apply Hxx; right; apply elem_of_cons; by left). by rewrite !decide_False.
  - intros x. cbn. rewrite Hm2, Hm1. by case_decide.
  - intros va. cbn. by rewrite L2.
Qed.

(** ** Fresh pages mapped in a row *)

(** The first [k] pages at [a0] are mapped to fresh pages taken from the free
    list, the [j]-th with the permissions [pf j] and the contents [cf j]; nothing
    else of the address space changed. *)
Record filled (root : Z) (s : mach) (T : tables) (l : list Z) (a0 : Z) (pf : Z -> Z) (cf : Z -> Z -> Z) (k : nat)
    (s' : mach) (T' : tables) (l' : list Z) : Prop := {
  al_ev : evolves root s T l s' T' l';
  al_out : forall va, 0 <= va < MAXVA -> ~ (a0 <= PGROUNDDOWN va < a0 + Z.of_nat k * PGSIZE) ->
    leaf (mmem s') T' va = leaf (mmem s) T va;
  al_in : forall j, 0 <= j < Z.of_nat k -> exists pa,
    leaf (mmem s') T' (a0 + j * PGSIZE) = map_pte pa (pf j) /\ valid_page kend pa /\
    pa ∈ l /\ (forall x, in_page pa x -> mmem s' x = cf j (x - pa));
  al_free : freeable T' l' (leaf_pages (mmem s') T' a0 k);
  al_cons : forall pa, pa ∈ l -> pa ∈ l' \/ table_page T' pa \/ pa ∈ leaf_pages (mmem s') T' a0 k;
}.

(** Every leaf entry is as in [s], and the pages taken from the free list are
    back on it or page tables. *)
Definition restored (root : Z) (s : mach) (T : tables) (l : list Z) (s' : mach) (T' : tables) : Prop :=
  exists l', evolves root s T l s' T' l' /\ only_tables l T' l' /\
    forall va, 0 <= va < MAXVA -> leaf (mmem s') T' va = leaf (mmem s) T va.

Section Filled.
Context (root a0 : Z) (pf : Z -> Z) (cf : Z -> Z -> Z) (n : nat).
Hypotheses (Ha0 : page_aligned a0) (H0 : 0 <= a0) (Hmax : a0 + Z.of_nat n * PGSIZE <= MAXVA).
Hypothesis Hpf : forall j, 0 <= j < Z.of_nat n -> 0 <= pf j < 2 ^ 10 /\ Z.lor (pf j) PTE_V <> PTE_V.
Abbreviation filled s T l := (filled root s T l a0 pf cf).

Lemma filled_0 s T l : vm_inv s root T l -> filled s T l 0 s T l.
Proof.
  clear Ha0 H0 Hmax Hpf n. intros H. split; [by apply evolves_refl|done|lia| |].
  - split; [constructor|]. by intros pa ?%not_elem_of_nil.
  - by left.
Qed.

Lemma filled_pte j pa :
  0 <= j < Z.of_nat n -> valid_page kend pa -> unmappable (map_pte pa (pf j)) /\ PTE2PA (map_pte pa (pf j)) = pa.
Proof.
  intros Hj Hv. pose proof (valid_page_word kend kend_pos pa Hv) as Hw. destruct (Hpf j Hj) as [Hp Hne].
  split; [|by destruct (map_pte_make pa (pf j) (proj1 Hv) Hw Hp)].
  apply map_pte_unmappable; [apply Hv|done..].
Qed.

Lemma filled_unmappable s T l k s' T' l' j :
  filled s T l k s' T' l' -> (k <= n)%nat -> 0 <= j < Z.of_nat k -> unmappable (leaf (mmem s') T' (a0 + j * PGSIZE)).
Proof.
  intros Hal Hk Hj. destruct (al_in _ _ _ _ _ _ _ _ _ _ _ Hal j Hj) as (pa & -> & Hv & _). apply filled_pte; [lia|done].
Qed.

Lemma filled_pages s T l k s' T' l' pa :
  filled s T l k s' T' l' -> (k <= n)%nat -> pa ∈ leaf_pages (mmem s') T' a0 k -> pa ∈ l.
Proof.
  intros Hal Hk (j & Hj & ->)%elem_leaf_pages.
  destruct (al_in _ _ _ _ _ _ _ _ _ _ _ Hal j Hj) as (pa & -> & Hv & Hin & _).
  by rewrite (proj2 (filled_pte j pa ltac:(lia) Hv)).
Qed.

(** Unmapping and freeing the first [k] pages leaves the address space as it
    was. *)
Lemma filled_undo s T l k s' T' l' s2 :
  let ps := leaf_pages (mmem s') T' a0 k in
  filled s T l k s' T' l' -> (k <= n)%nat ->
  (forall j, 0 <= j < Z.of_nat k -> leaf (mmem s) T (a0 + j * PGSIZE) = 0) ->
  vm_inv s2 root T' (rev ps ++ l') -> held s2 = held s' ->
  (forall va, 0 <= va < MAXVA -> leaf (mmem s2) T' va = cleared (leaf (mmem s') T') a0 (Z.of_nat k) va) ->
  touches T' ps (mmem s') (mmem s2) -> restored root s T l s2 T'.
Proof.
  intros ps Hal Hk Hz Hinv2 Hh2 L2 M2. pose proof (al_ev _ _ _ _ _ _ _ _ _ _ _ Hal) as [Hinv Hsub Hfree Hheld Htouch Hnew].
  exists (rev ps ++ l'). split; [split|split].
  - done.
  - done.
  - intros pa [Hpa|]%elem_of_app; [|by auto]. rewrite in_rev_elem in Hpa. by eapply filled_pages.
  - congruence.
  - intros x Hxx. rewrite M2, Htouch; [done|done|]. intros pa [Hpa|Hpa].
    + apply Hxx. by apply Hnew.
    + apply Hxx. right. by eapply filled_pages.
  - done.
  - intros pa Hpa. destruct (al_cons _ _ _ _ _ _ _ _ _ _ _ Hal pa Hpa) as [|[|]]; [left|by right|left];
      apply elem_of_app; [by right|left]. by apply in_rev_elem.
  - intros va Hva. rewrite L2 by done. unfold cleared.
    destruct (Z.leb_spec a0 (PGROUNDDOWN va)), (Z.ltb_spec (PGROUNDDOWN va) (a0 + Z.of_nat k * PGSIZE)); cbn [andb].
    2-4: apply (al_out _ _ _ _ _ _ _ _ _ _ _ Hal); [done|lia].
    destruct (PGROUNDDOWN_spec va) as [Hal' _]. unfold page_aligned, PGSIZE in *.
    pose proof (Z.div_mod a0 4096). pose proof (Z.div_mod (PGROUNDDOWN va) 4096).
    rewrite <- (leaf_page (mmem s)). replace (PGROUNDDOWN va) with (a0 + (PGROUNDDOWN va / 4096 - a0 / 4096) * 4096) by lia.
    symmetry. apply Hz. lia.
Qed.

(** Page-table growth after the first [k] pages keeps them. *)
Lemma filled_mono s T l k s1 T1 l1 s2 T2 l2 :
  filled s T l k s1 T1 l1 -> (k <= n)%nat -> evolves root s1 T1 l1 s2 T2 l2 -> only_tables l1 T2 l2 ->
  (forall va, 0 <= va < MAXVA -> leaf (mmem s2) T2 va = leaf (mmem s1) T1 va) ->
  filled s T l k s2 T2 l2.
Proof.
  intros [E1 Out1 In1 Fr1 Co1] Hk E2 O2 L2. pose proof E2 as [_ S2 F2 _ C2 N2].
  assert (Hlp : leaf_pages (mmem s2) T2 a0 k = leaf_pages (mmem s1) T1 a0 k).
  { apply leaf_pages_ext. intros j Hj. apply L2. unfold PGSIZE in *. lia. }
  assert (Hfr : forall pa, pa ∈ leaf_pages (mmem s1) T1 a0 k ->
      valid_page kend pa /\ pa ∉ l1 /\ ~ table_page T1 pa) by apply Fr1.
  split.
  - by eapply evolves_trans.
  - intros va Hva Hn. rewrite L2 by done. by apply Out1.
  - intros j Hj. destruct (In1 j Hj) as (pa & Hl & Hv & Hin & Hz). exists pa.
    rewrite L2 by (unfold PGSIZE in *; lia). split_and!; [done..|]. intros x Hxx.
    destruct (Hfr pa) as (_ & Hni & Hnt).
    { apply elem_leaf_pages. exists j. rewrite Hl, (proj2 (filled_pte j pa ltac:(lia) Hv)). split; [lia|done]. }
    rewrite (untouched_page T1 l1 (mmem s1) (mmem s2) pa x); [by apply Hz|..]; try done; [|apply Hv].
    eapply vm_pages_aligned, E1.
  - rewrite Hlp. split; [apply Fr1|]. intros pa Hpa. destruct (Hfr pa Hpa) as (Hv & Hni & Hnt).
    split; [done|]. split; [by intros ?%F2|]. by intros [|]%N2.
  - intros pa Hpa. rewrite Hlp. destruct (Co1 pa Hpa) as [Hl|[[p Hp]|]]; [|right; left|by auto].
    + destruct (O2 pa Hl); auto.
    + exists p. by eapply lookup_weaken.
Qed.

(** One more page. *)
Lemma filled_S s T l k s1 T1 l1 s2 p s3 T3 l3 :
  filled s T l k s1 T1 (p :: l1) -> (S k <= n)%nat ->
  evolves root s1 T1 (p :: l1) s2 T1 l1 -> valid_page kend p -> p ∉ l1 -> ~ table_page T1 p ->
  (forall x, mmem s2 x = if decide (in_page p x) then cf (Z.of_nat k) (x - p) else mmem s1 x) ->
  (forall va, leaf (mmem s2) T1 va = leaf (mmem s1) T1 va) ->
  evolves root s2 T1 l1 s3 T3 l3 -> only_tables l1 T3 l3 ->
  (forall va, 0 <= va < MAXVA ->
     leaf (mmem s3) T3 va = remapped (leaf (mmem s2) T1) (a0 + Z.of_nat k * PGSIZE) 1 p (pf (Z.of_nat k)) va) ->
  filled s T l (S k) s3 T3 l3.
Proof.
  intros [E1 Out1 In1 Fr1 Co1] Hk E2 Hp Hpl Hpt Hm2 L2 E3 O3 L3.
  pose proof E3 as [_ S3 F3 _ C3 N3]. pose proof E1 as [I1 _ F1 _ _ _].
  assert (Hold : forall va, 0 <= va < MAXVA -> PGROUNDDOWN va <> a0 + Z.of_nat k * PGSIZE ->
      leaf (mmem s3) T3 va = leaf (mmem s1) T1 va).
  { intros va Hva Hne. rewrite L3, <- L2 by done. unfold remapped. destruct (PGROUNDDOWN_spec va) as [Hav _].
    unfold page_aligned, PGSIZE in *. pose proof (Z.div_mod a0 4096). pose proof (Z.div_mod (PGROUNDDOWN va) 4096).
    destruct (Z.leb_spec (a0 + Z.of_nat k * 4096) (PGROUNDDOWN va)),
      (Z.ltb_spec (PGROUNDDOWN va) (a0 + Z.of_nat k * 4096 + 1 * 4096)); simpl; done || lia. }
  assert (Hnew : leaf (mmem s3) T3 (a0 + Z.of_nat k * PGSIZE) = map_pte p (pf (Z.of_nat k))).
  { rewrite L3 by (unfold PGSIZE in *; lia). unfold remapped. rewrite PGROUNDDOWN_aligned.
    - destruct (Z.leb_spec (a0 + Z.of_nat k * PGSIZE) (a0 + Z.of_nat k * PGSIZE)); [|lia].
      destruct (Z.ltb_spec (a0 + Z.of_nat k * PGSIZE) (a0 + Z.of_nat k * PGSIZE + 1 * PGSIZE)); [|unfold PGSIZE in *; lia].
      simpl. f_equal. lia.
    - unfold page_aligned, PGSIZE in *. by rewrite Z.mod_add by lia. }
  assert (Hdown : forall j, PGROUNDDOWN (a0 + j * PGSIZE) = a0 + j * PGSIZE).
  { intros j. apply PGROUNDDOWN_aligned. unfold page_aligned, PGSIZE in *. by rewrite Z.mod_add by lia. }
  assert (Hlp : leaf_pages (mmem s3) T3 a0 (S k) = leaf_pages (mmem s1) T1 a0 k ++ [p]).
  { rewrite leaf_pages_snoc, Hnew, (proj2 (filled_pte (Z.of_nat k) p ltac:(lia) Hp)). f_equal. apply leaf_pages_ext.
    intros j Hj. apply Hold; [unfold PGSIZE in *; lia|]. rewrite Hdown. unfold PGSIZE. lia. }
  assert (Hkeep : forall pa x, page_aligned pa -> pa ∉ l1 -> ~ table_page T1 pa -> in_page pa x -> mmem s3 x = mmem s2 x).
  { intros pa x. apply untouched_page; [|done]. eapply vm_pages_aligned, E2. }
  destruct Fr1 as [Hnd Hfr].
  split.
  - eapply evolves_trans; [done|]. by eapply evolves_trans.
  - intros va Hva Hn. rewrite Hold; [apply Out1|done|]; [done|unfold PGSIZE in *; lia..].
  - intros j Hj. destruct (decide (j = Z.of_nat k)) as [->|Hjk].
    + exists p. split_and!; [done..|apply F1, elem_of_cons; by left|].
      intros x Hxx. rewrite (Hkeep p), Hm2, decide_True; try done. apply Hp.
    + destruct (In1 j ltac:(lia)) as (pa & Hl & Hv & Hin & Hz). exists pa.
      rewrite Hold, Hl; [|unfold PGSIZE in *; lia|rewrite Hdown; unfold PGSIZE; lia].
      split_and!; [done..|]. intros x Hxx. destruct (Hfr pa) as (_ & Hni & Hnt).
      { apply elem_leaf_pages. exists j. rewrite Hl, (proj2 (filled_pte j pa ltac:(lia) Hv)). split; [lia|done]. }
      rewrite (Hkeep pa), Hm2; [|apply Hv| |done|done].
      * rewrite decide_False; [by apply Hz|]. intros Hpx. apply Hni. rewrite (in_page_eq pa p x); [apply elem_of_cons; by left|apply Hv|apply Hp|done..].
      * intros ?. apply Hni, elem_of_cons. by right.
  - rewrite Hlp. split.
    + apply NoDup_app. split_and!; [done| |apply NoDup_singleton].
      intros q Hq ->%list_elem_of_singleton. destruct (Hfr p Hq) as (_ & Hni & _).
      apply Hni, elem_of_cons. by left.
    + intros pa Hpa. assert (valid_page kend pa /\ pa ∉ l1 /\ ~ table_page T1 pa) as (Hv & Hni & Hnt).
      { apply elem_of_app in Hpa as [Hpa| ->%list_elem_of_singleton]; [|done].
        destruct (Hfr pa Hpa) as (? & Hni & ?). split_and!; try done.
        intros ?. apply Hni, elem_of_cons. by right. }
      split; [done|]. split; [by intros ?%F3|]. by intros [|]%N3.
  - intros pa Hpa. rewrite Hlp. destruct (Co1 pa Hpa) as [[->|Hl]%elem_of_cons|[[q Hq]|]].
    + right. right. apply elem_of_app. right. by apply list_elem_of_singleton.
    + destruct (O3 pa Hl); auto.
    + right. left. exists q. by eapply lookup_weaken.
    + right. right. apply elem_of_app. by left.
Qed.

(** One turn: a fresh page, its contents, its mapping; when there is no page for
    it or for a table on its way, [kf] undoes the turns before. *)
Lemma wp_fill_turn s T l k s1 T1 l1 g (kf kok : E mach Z) (Q : Z -> mach -> Prop) :
  filled s T l k s1 T1 l1 -> (S k <= n)%nat -> leaf (mmem s) T (a0 + Z.of_nat k * PGSIZE) = 0 ->
  (forall p m, p ∈ l1 -> bytes_ok m -> (forall x, m x = if decide (in_page p x) then 0 else mmem s1 x) ->
     bytes_ok (g p m) /\ forall x, g p m x = if decide (in_page p x) then cf (Z.of_nat k) (x - p) else m x) ->
  (forall s2 T2 l2, filled s T l k s2 T2 l2 -> wp kf Q s2) ->
  (forall s2 T2 l2, filled s T l (S k) s2 T2 l2 -> wp kok Q s2) ->
  wp (mem ← kalloc;
      if mem =? 0 then kf
      else
        upd_mem (g mem);;
        r ← mappages root (a0 + Z.of_nat k * PGSIZE) PGSIZE mem (pf (Z.of_nat k));
        if negb (r =? 0) then kfree kend mem;; kf else kok) Q s1.
Proof.
  intros Hal Hk Hz Hg Hkf Hkok. pose proof (al_ev _ _ _ _ _ _ _ _ _ _ _ Hal) as E1.
  eapply (wp_fresh_page root T1 l1 kf g (cf (Z.of_nat k))); [apply E1|done| |].
  { intros -> s2 E2 Hm2. apply (Hkf s2 T1 []). eapply filled_mono; [done|lia|done|by left|]. intros va _. by rewrite Hm2. }
  intros p l2 s2 -> E2 Hp Hpl Hpt Hm2 L2. assert (Hal0 : page_aligned (a0 + Z.of_nat k * PGSIZE)).
  { unfold page_aligned, PGSIZE in *. by rewrite Z.mod_add by lia. }
  assert (Hfree : has_bits (leaf (mmem s2) T1 (a0 + Z.of_nat k * PGSIZE)) PTE_V = false).
  { rewrite L2, (al_out _ _ _ _ _ _ _ _ _ _ _ Hal); [by rewrite Hz|unfold PGSIZE in *; lia|].
    rewrite PGROUNDDOWN_aligned by done. lia. }
  pose proof (valid_page_word kend kend_pos p Hp).
  replace (mappages root (a0 + Z.of_nat k * PGSIZE) PGSIZE p (pf (Z.of_nat k)))
    with (mappages root (a0 + Z.of_nat k * PGSIZE) (1 * PGSIZE) p (pf (Z.of_nat k))) by done.
  eapply wp_call; [apply (wp_mappages kend kend_pos _ 1 p _ root T1 l2 s2)|].
  { apply E2. } { done. } { unfold PGSIZE in *; lia. } { lia. } { unfold PGSIZE in *. lia. } { lia. } { unfold PGSIZE. lia. }
  { intros j Hj. replace j with 0 by lia. by rewrite Z.mul_0_l, Z.add_0_r. }
  cbn beta. intros r s3 (k' & T3 & l3 & E3 & O3 & L3 & [[-> ->]|(-> & Hk' & ->)]).
  { cbn. by eapply (Hkok s3 T3 l3), filled_S. }
  cbn. replace k' with 0 in L3 by lia.
  assert (E13 : evolves root s1 T1 (p :: l2) s3 T3 []) by by eapply evolves_trans.
  pose proof E13 as [_ S13 _ H13 C13 _]. pose proof E3 as [I3 _ _ _ _ N3].
  apply wp_bind. eapply (wp_kfree_vm kend kend_pos root T3 []); [done..|by apply not_elem_of_nil| |].
  { by intros [|]%N3. }
  intros s4 I4 H4 L4 M4. apply (Hkf s4 T3 [p]). eapply filled_mono; [done|lia| | |].
  - split; [done|done| |congruence| |].
    + intros q ->%list_elem_of_singleton. apply elem_of_cons. by left.
    + intros x Hxx. rewrite M4; [by apply C13|]. apply Hxx. right. apply elem_of_cons. by left.
    + intros q [|]%N3; [by left|right]. apply elem_of_cons. by right.
  - intros q [->|Hq]%elem_of_cons; [left; by apply list_elem_of_singleton|].
    destruct (O3 q Hq) as [?%not_elem_of_nil|]; [done|by right].
  - intros va Hva. by rewrite L4, L3, remapped_0, L2.
Qed.
End Filled.

(** ** uvmalloc *)

Definition ualloc_perm (xperm : Z) : Z := Z.lor (Z.lor PTE_R PTE_U) xperm.

(** The first [k] pages at [a0] are fresh zero pages, readable by the user. *)
Definition allocated (root : Z) (s : mach) (T : tables) (l : list Z) (a0 : Z) (k : nat) (xperm : Z) :
    mach -> tables -> list Z -> Prop :=
  filled root s T l a0 (fun _ => ualloc_perm xperm) (fun _ _ => 0) k.

Section Uvmalloc.
Context (root a0 xperm : Z).
Hypotheses (Hx : 0 <= xperm < 2 ^ 10) (Ha0 : page_aligned a0) (H0 : 0 <= a0).

Lemma ualloc_perm_range : 0 <= ualloc_perm xperm < 2 ^ 10 /\ Z.lor (ualloc_perm xperm) PTE_V <> PTE_V.
Proof.
  split; [|unfold ualloc_perm; intros H%(f_equal (fun z => Z.testbit z 1)); by rewrite !Z.lor_spec in H].
  unfold ualloc_perm. change (Z.lor PTE_R PTE_U) with 18. change (2 ^ 10) with 1024 in *.
  split; [apply Z.lor_nonneg; lia|].
  destruct (decide (xperm = 0)) as [->|]; [done|].
  apply (Z.log2_lt_pow2 _ 10).
  - assert (0 <= Z.lor 18 xperm) by (apply Z.lor_nonneg; lia).
    assert (Z.lor 18 xperm <> 0); [|lia]. rewrite Z.lor_eq_0_iff. by intros [? ?].
  - rewrite Z.log2_lor by lia. apply Z.max_lub_lt; [done|]. apply Z.log2_lt_pow2; lia.
Qed.

(** Undoing the first [k] pages leaves the address space as it was. *)
Lemma wp_undo s T l k s' T' l' :
  allocated root s T l a0 k xperm s' T' l' -> a0 + Z.of_nat k * PGSIZE <= MAXVA ->
  (forall j, 0 <= j < Z.of_nat k -> leaf (mmem s) T (a0 + j * PGSIZE) = 0) ->
  wp (uvmdealloc kend root (a0 + Z.of_nat k * PGSIZE) a0;; mret 0)
     (fun r s2 => r = 0 /\ restored root s T l s2 T') s'.
Proof.
  intros Hal Hmax Hz. pose proof (fun j (_ : 0 <= j < Z.of_nat k) => ualloc_perm_range) as Hpf.
  eapply wp_call; [apply (wp_uvmdealloc a0 (Z.of_nat k) root T' l' s')|]; try done; try lia.
  { apply Hal. }
  { intros j Hj. by eapply (filled_unmappable root a0 (fun _ => ualloc_perm xperm) _ k Hpf). }
  { rewrite Nat2Z.id. apply Hal. }
  cbn beta. rewrite Nat2Z.id. intros _ s2 (_ & Hinv2 & Hh2 & L2 & M2). apply wp_ret. split; [done|].
  by eapply (filled_undo root a0 (fun _ => ualloc_perm xperm) (fun _ _ => 0) k).
Qed.

(** What a call of uvmalloc on [n] unmapped pages at [a0] may do. *)
Definition uvmalloc_result (s : mach) (T : tables) (l : list Z) (n : nat) (newsz r : Z) (s' : mach) : Prop :=
  (r = newsz /\ exists T' l', allocated root s T l a0 n xperm s' T' l') \/
  (r = 0 /\ exists T', restored root s T l s' T').

Lemma wp_uvmalloc_loop s T l n newsz fuel k s1 T1 l1 :
  (forall j, 0 <= j < Z.of_nat n -> leaf (mmem s) T (a0 + j * PGSIZE) = 0) ->
  a0 + Z.of_nat n * PGSIZE <= MAXVA ->
  a0 + Z.of_nat n * PGSIZE - PGSIZE < newsz <= a0 + Z.of_nat n * PGSIZE ->
  (n <= k + fuel)%nat -> (k <= n)%nat ->
  allocated root s T l a0 k xperm s1 T1 l1 ->
  wp (uvmalloc_loop kend fuel root a0 newsz xperm (a0 + Z.of_nat k * PGSIZE))
     (uvmalloc_result s T l n newsz) s1.
Proof.
  intros Hz Hmax Hsz. revert k s1 T1 l1. induction fuel as [|fuel IH]; intros k s1 T1 l1 Hf Hk Hal; cbn [uvmalloc_loop].
  all: destruct (Z.ltb_spec (a0 + Z.of_nat k * PGSIZE) newsz) as [Hlt|Hge]; [|apply wp_ret; left; split; [done|]; replace n with k by (unfold PGSIZE in *; lia); eauto].
  { unfold PGSIZE in *. lia. }
  assert (Hkn : (S k <= n)%nat) by (unfold PGSIZE in *; lia).
  rewrite kzalloc_kalloc. eapply (wp_fill_turn root a0 (fun _ => ualloc_perm xperm) (fun _ _ => 0) n Ha0 H0 Hmax); [|exact Hal|done|apply Hz; lia| | |].
  - intros j _. apply ualloc_perm_range.
  - intros p m _ Hb Hm. split; [by apply memset_ok|]. intros x. by rewrite zero_page.
  - intros s2 T2 l2 H2. eapply wp_mono; [eapply wp_undo; [exact H2|unfold PGSIZE in *; lia|]|].
    + intros j Hj. apply Hz. lia.
    + cbn beta. intros r s3 [-> H3]. right. split; [done|]. by exists T2.
  - intros s2 T2 l2 H2. assert (MAXVA + 4096 < 2 ^ 64) by done. rewrite wrap_small by (unfold PGSIZE in *; lia).
    replace (a0 + Z.of_nat k * PGSIZE + PGSIZE) with (a0 + Z.of_nat (S k) * PGSIZE) by lia.
    eapply (IH (S k) s2 T2 l2); [lia|lia|done].
Qed.
End Uvmalloc.
End User.

(** uvmalloc on unmapped pages: all of them mapped, or none. *)
Lemma wp_uvmalloc (kend root oldsz newsz xperm : Z) (T : tables) (l : list Z) (s : mach) :
  0 < kend -> vm_inv kend s root T l -> 0 <= xperm < 2 ^ 10 -> 0 <= oldsz <= newsz -> newsz <= MAXVA ->
  (forall va, PGROUNDUP oldsz <= va < PGROUNDUP newsz -> leaf (mmem s) T va = 0) ->
  let a0 := PGROUNDUP oldsz in
  let n := Z.to_nat ((PGROUNDUP newsz - a0) / PGSIZE) in
  wp (uvmalloc kend root oldsz newsz xperm) (fun r s' =>
    (r = newsz /\ exists T' l', allocated kend root s T l a0 n xperm s' T' l') \/
    (r = 0 /\ exists T' l', vm_inv kend s' root T' l' /\ only_tables l T' l' /\ held s' = held s /\
       forall va, 0 <= va < MAXVA -> leaf (mmem s') T' va = leaf (mmem s) T va)) s.
Proof.
  intros Hk Hinv Hx Hsz Hmax Hz a0 n. unfold uvmalloc.
  destruct (Z.ltb_spec newsz oldsz); [lia|].
  assert (MAXVA + PGSIZE < 2 ^ 64) by done.
  destruct (PGROUNDUP_spec oldsz) as [Ha Hb]; [lia|]. destruct (PGROUNDUP_spec newsz) as [Hc Hd]; [lia|].
  fold a0 in Ha, Hb, Hz |- *. unfold page_aligned, PGSIZE in *.
  pose proof (Z.div_mod a0 4096). pose proof (Z.div_mod (PGROUNDUP newsz) 4096).
  assert (0 <= PGROUNDUP newsz - a0) by lia.
  assert (PGROUNDUP newsz - a0 = (PGROUNDUP newsz / 4096 - a0 / 4096) * 4096) as Hdiff by lia.
  assert (Z.of_nat n * 4096 = PGROUNDUP newsz - a0) as Hn.
  { unfold n. rewrite Hdiff, Z.div_mul by lia. lia. }
  assert (PGROUNDUP newsz <= MAXVA) by (change MAXVA with (67108864 * 4096) in *; lia).
  pose proof (wp_uvmalloc_loop kend Hk root a0 xperm Hx Ha ltac:(lia) s T l n newsz
    (Z.to_nat ((newsz - a0) / 4096 + 1)) 0 s T l) as HL.
  unfold PGSIZE in HL. rewrite Z.mul_0_l, Z.add_0_r in HL.
  eapply wp_mono; [apply HL|].
  - intros j Hj. apply Hz. lia.
  - lia.
  - lia.
  - pose proof (Z.div_mod (newsz - a0) 4096). pose proof (Z.mod_pos_bound (newsz - a0) 4096). lia.
  - lia.
  - by apply filled_0.
  - intros r s' [[-> HA]|[-> (T' & l' & [I S F Hh C N] & O & L)]]; [by left|right].
    split; [done|]. by exists T', l'.
Qed.

(** ** Properties *)

(** C39: uvmalloc grows an address space all or nothing.  On the unmapped pages
    between oldsz and newsz it either returns newsz with every page mapped to
    a fresh, zeroed, distinct page with the requested permissions, or returns 0
    with every leaf entry as before and every page it took either back on the
    free list or in use as a page table. *)
Theorem uvmalloc_all_or_nothing (kend root oldsz newsz xperm : Z) (T : tables) (l : list Z) (s : mach) :
  0 < kend -> vm_inv kend s root T l -> 0 <= xperm < 2 ^ 10 -> 0 <= oldsz <= newsz -> newsz <= MAXVA ->
  (forall va, PGROUNDUP oldsz <= va < PGROUNDUP newsz -> leaf (mmem s) T va = 0) ->
  let a0 := PGROUNDUP oldsz in
  let n := Z.to_nat ((PGROUNDUP newsz - a0) / PGSIZE) in
  wp (uvmalloc kend root oldsz newsz xperm) (fun r s' =>
    (r = newsz /\ exists T' l', allocated kend root s T l a0 n xperm s' T' l') \/
    (r = 0 /\ exists T' l', vm_inv kend s' root T' l' /\ only_tables l T' l' /\ held s' = held s /\
       forall va, 0 <= va < MAXVA -> leaf (mmem s') T' va = leaf (mmem s) T va)) s.
Proof. apply wp_uvmalloc. Qed.

(** uvmunmap on a range whose pages are all mapped clears exactly their
    entries and, when asked to free, returns each page they pointed to to the
    allocator; no other entry changes. *)
Theorem uvmunmap_clears_range (kend root va n : Z) (do_free : bool) (T : tables) (l : list Z) (s : mach) :
  0 < kend -> vm_inv kend s root T l ->
  page_aligned va -> 0 <= va -> 0 <= n -> va + n * PGSIZE <= MAXVA ->
  (forall j, 0 <= j < n -> unmappable (leaf (mmem s) T (va + j * PGSIZE))) ->
  let ps := if do_free then leaf_pages (mmem s) T va (Z.to_nat n) else [] in
  freeable kend T l ps ->
  wp (uvmunmap kend root va n do_free) (fun _ s' =>
    vm_inv kend s' root T (rev ps ++ l) /\ held s' = held s /\
    (forall a, 0 <= a < MAXVA -> leaf (mmem s') T a =
       if (va <=? PGROUNDDOWN a) && (PGROUNDDOWN a <? va + n * PGSIZE) then 0 else leaf (mmem s) T a)) s.
Proof.
  intros Hk Hinv Hal H0 Hn Hmax Hun ps Hfr.
  eapply wp_mono; [by apply (wp_uvmunmap kend Hk va n do_free root T l s)|].
  cbn beta. intros _ s' (I & Hh & L & _). by split_and!.
Qed.


(** ** Witnesses *)

Lemma uvmalloc_all_or_nothing_witness :
  wp (uvmalloc six_pages root_page 0 PGSIZE PTE_W) (fun r s' => r = PGSIZE \/ r = 0) with_table.
Proof.
  destruct fresh_table as [Hinv Hleaf].
  eapply wp_mono; [apply (uvmalloc_all_or_nothing six_pages root_page 0 PGSIZE PTE_W {[ [] := root_page ]} free5)|].
  1-5: done.
  - intros va _. apply Hleaf.
  - cbn beta. intros r s' [[-> _]|[-> _]]; auto.
Defined.

(** The machine after the first user page has been mapped. *)
Definition with_page : mach :=
  match uvmalloc six_pages root_page 0 PGSIZE PTE_W with_table with Done _ s => s | _ => boot end.

Lemma uvmalloc_runs :
  (match uvmalloc six_pages root_page 0 PGSIZE PTE_W with_table with Done r _ => r | _ => -7 end) = PGSIZE.
Proof. vm_compute. reflexivity. Qed.

Lemma one_page_result kend s root l :
  0 < kend -> vm_inv kend s root {[ [] := root ]} l -> (forall va, leaf (mmem s) {[ [] := root ]} va = 0) ->
  exists r s', uvmalloc kend root 0 PGSIZE PTE_W s = Done r s' /\
    uvmalloc_result kend root 0 PTE_W s {[ [] := root ]} l 1 PGSIZE r s'.
Proof.
  intros Hk Hinv Hleaf. apply wp_done.
  assert (0 <= PTE_W < 2 ^ 10) as Hx by done.
  apply (wp_uvmalloc_loop kend Hk root 0 PTE_W Hx eq_refl ltac:(lia) s {[ [] := root ]} l 1 PGSIZE 2 0 s {[ [] := root ]} l).
  - intros j _. apply Hleaf.
  - done.
  - done.
  - lia.
  - lia.
  - by apply filled_0.
Qed.

Lemma page_mapped :
  exists T' l', allocated six_pages root_page with_table {[ [] := root_page ]} free5 0 1 PTE_W with_page T' l'.
Proof.
  destruct (one_page_result six_pages _ _ _ eq_refl (proj1 fresh_table) (proj2 fresh_table)) as (r & s' & Hr & H).
  pose proof uvmalloc_runs as Hrun. unfold with_page. rewrite Hr in Hrun |- *. rewrite Hrun in H.
  destruct H as [[_ H]|[Hne _]]; [exact H|discriminate Hne].
Qed.

Lemma uvmunmap_clears_range_witness :
  exists T' l' ps, ps <> [] /\ wp (uvmunmap six_pages root_page 0 1 true) (fun _ s' =>
    vm_inv six_pages s' root_page T' (rev ps ++ l')) with_page.
Proof.
  destruct page_mapped as (T' & l' & Hal). pose proof (al_ev _ _ _ _ _ _ _ _ _ _ _ _ Hal) as Hev.
  exists T', l', (leaf_pages (mmem with_page) T' 0 1). split; [done|].
  eapply wp_mono; [apply (uvmunmap_clears_range six_pages root_page 0 1 true T' l' with_page)|].
  - done.
  - apply Hev.
  - done.
  - lia.
  - lia.
  - done.
  - intros j Hj. eapply (filled_unmappable six_pages ltac:(done) root_page 0 (fun _ => ualloc_perm PTE_W) _ 1); [|exact Hal|lia|done]. intros i _. by apply ualloc_perm_range.
  - apply Hal.
  - cbn beta. by intros _ s' (H & _).
Defined.
