(* ===== verification/VmCopy.v ===== *)
(** * copyin, copyout, copyinstr: bytes across the user/kernel boundary

    [uaddr m T va] is the physical address a user virtual address designates
    through the page table [T].  The copies are characterised byte by byte
    against it. *)
From S2P Require Import Prelude Mem CString KTypes Kalloc Vm VmTree VmMap VmUser.
#[local] Opaque memset load64 store64 memmove.

(** The page behind [va] when the user may access it, else 0. *)
Definition upage (m : mem) (T : tables) (va : Z) : Z :=
  if MAXVA <=? va then 0
  else
    let v := leaf m T va in
    if Z.land v PTE_V =? 0 then 0 else if Z.land v PTE_U =? 0 then 0 else PTE2PA v.

Definition uaddr (m : mem) (T : tables) (va : Z) : Z := upage m T va + va mod PGSIZE.

Section Copies.
Context (kend : Z).
Hypothesis kend_pos : 0 < kend.
Abbreviation pt_inv := (pt_inv kend).

Lemma wp_walkaddr root T va (Q : Z -> mach -> Prop) s :
  pt_inv (mmem s) root T -> 0 <= va -> Q (upage (mmem s) T va) s -> wp (walkaddr root va) Q s.
Proof.
  intros Hpt H0 HQ. unfold walkaddr, upage in *. destruct (Z.leb_spec MAXVA va); [by apply wp_ret|].
  apply wp_bind. eapply wp_walk_false; [done..|].
  destruct (Z.eqb_spec (leaf_addr T va) 0) as [Hz|Hnz].
  - apply wp_ret. assert (leaf (mmem s) T va = 0) as Hl.
    { unfold leaf. destruct (T !! va_path va) as [a|] eqn:E; [|done].
      assert (is_Some (T !! va_path va)) as Hs by by rewrite E.
      by apply (leaf_addr_nonzero kend kend_pos _ _ _ _ Hpt) in Hs. }
    by rewrite Hl in HQ.
  - apply wp_bind, wp_gets. rewrite rd_leaf by (by eapply leaf_addr_nonzero).
    destruct (Z.land (leaf (mmem s) T va) PTE_V =? 0); [by apply wp_ret|].
    destruct (Z.land (leaf (mmem s) T va) PTE_U =? 0); by apply wp_ret.
Qed.

Lemma PTE2PA_aligned v : page_aligned (PTE2PA v).
Proof.
  unfold page_aligned, PTE2PA, wrap, PGSIZE. rewrite Z.shiftl_mul_pow2 by lia.
  change (2 ^ 64) with (2 ^ 52 * 2 ^ 12). rewrite Z.mul_mod_distr_r by lia.
  change (2 ^ 12) with 4096. apply Z.mod_mul. lia.
Qed.

Lemma upage_aligned m T va : page_aligned (upage m T va).
Proof. unfold upage. repeat case_match; try done. apply PTE2PA_aligned. Qed.

Lemma page_split va : va = PGROUNDDOWN va + va mod PGSIZE.
Proof. rewrite PGROUNDDOWN_eq. pose proof (Z.div_mod va PGSIZE). unfold PGSIZE in *. lia. Qed.

Lemma PGROUNDDOWN_same va i :
  0 <= i < PGSIZE - va mod PGSIZE ->
  PGROUNDDOWN (va + i) = PGROUNDDOWN va /\ (va + i) mod PGSIZE = va mod PGSIZE + i.
Proof.
  intros Hi. rewrite !PGROUNDDOWN_eq. unfold PGSIZE in *.
  pose proof (Z.div_mod va 4096). pose proof (Z.mod_pos_bound va 4096).
  rewrite <- (Z.div_unique (va + i) 4096 (va / 4096) (va mod 4096 + i)) by lia.
  rewrite <- (Z.mod_unique (va + i) 4096 (va / 4096) (va mod 4096 + i)) by lia. done.
Qed.

Lemma upage_page m T va : upage m T (PGROUNDDOWN va) = upage m T va.
Proof.
  unfold upage. rewrite leaf_page. destruct (PGROUNDDOWN_spec va) as [Ha Hb].
  unfold page_aligned, PGSIZE in *. pose proof (Z.div_mod (PGROUNDDOWN va) 4096).
  change MAXVA with (4096 * 2 ^ 26). change (2 ^ 26) with 67108864.
  destruct (Z.leb_spec (4096 * 67108864) va), (Z.leb_spec (4096 * 67108864) (PGROUNDDOWN va)); done || lia.
Qed.

Lemma upage_same m T va i : 0 <= i < PGSIZE - va mod PGSIZE -> upage m T (va + i) = upage m T va.
Proof. intros Hi. by rewrite <- upage_page, (proj1 (PGROUNDDOWN_same va i Hi)), upage_page. Qed.

Lemma uaddr_same m T va i : 0 <= i < PGSIZE - va mod PGSIZE -> uaddr m T (va + i) = uaddr m T va + i.
Proof.
  intros Hi. unfold uaddr. rewrite upage_same, (proj2 (PGROUNDDOWN_same va i Hi)) by done. lia.
Qed.

Lemma uaddr_in_page m T va : in_page (upage m T va) (uaddr m T va).
Proof. unfold in_page, uaddr. pose proof (Z.mod_pos_bound va PGSIZE ltac:(done)). lia. Qed.

Lemma upage_ext m m' T va : (forall va', leaf m' T va' = leaf m T va') -> upage m' T va = upage m T va.
Proof. intros H. unfold upage. by rewrite H. Qed.

(** The kernel buffer [kb, kb + len) is neither in a table nor in a page behind
    the user range [va, va + len). *)
Definition apart (m : mem) (T : tables) (kb va len : Z) : Prop :=
  forall x, kb <= x < kb + len ->
    (forall pa, table_page T pa -> ~ in_page pa x) /\
    (forall i, 0 <= i < len -> ~ in_page (upage m T (va + i)) x).

Lemma wp_copyin_loop fuel root T dst srcva len s :
  pt_inv (mmem s) root T -> bytes_ok (mmem s) -> 0 <= srcva < 2 ^ 64 -> 0 <= len ->
  srcva mod PGSIZE + len <= Z.of_nat fuel * PGSIZE ->
  apart (mmem s) T dst srcva len ->
  wp (copyin_loop fuel root dst srcva len) (fun r s' =>
    held s' = held s /\ (forall x, x < dst \/ dst + len <= x -> mmem s' x = mmem s x) /\
    (r = 0 /\ (forall i, 0 <= i < len -> upage (mmem s) T (srcva + i) <> 0 /\
                 mmem s' (dst + i) = mmem s (uaddr (mmem s) T (srcva + i))) \/
     r = -1 /\ exists i, 0 <= i < len /\ upage (mmem s) T (srcva + i) = 0)) s.
Proof.
  revert dst srcva len s. induction fuel as [|fuel IH]; intros dst srcva len s Hpt Hb Hv Hlen Hf Hap;
    cbn [copyin_loop]; pose proof (Z.mod_pos_bound srcva PGSIZE ltac:(done)) as Hm.
  { destruct (Z.ltb_spec 0 len); [lia|]. apply wp_ret. split_and!; [done..|]. left. split; [done|]. lia. }
  destruct (Z.ltb_spec 0 len).
  2: { apply wp_ret. split_and!; [done..|]. left. split; [done|]. lia. }
  pose proof (page_split srcva) as Hsp.
  assert (0 <= PGROUNDDOWN srcva) by (rewrite PGROUNDDOWN_eq; unfold PGSIZE; pose proof (Z.div_pos srcva 4096); lia).
  apply wp_bind. eapply wp_walkaddr; [done|lia|]. rewrite upage_page.
  destruct (Z.eqb_spec (upage (mmem s) T srcva) 0) as [Hz|Hnz].
  { apply wp_ret. split_and!; [done..|]. right. split; [done|]. exists 0.
    rewrite Z.add_0_r. by split; [lia|]. }
  apply wp_bind, wp_modify. set (off := srcva - PGROUNDDOWN srcva).
  assert (off = srcva mod PGSIZE) as Hoff by lia.
  set (n := if len <? PGSIZE - off then len else PGSIZE - off).
  assert (Hn : 0 < n <= len /\ n <= PGSIZE - srcva mod PGSIZE /\ (n = len \/ n = PGSIZE - srcva mod PGSIZE))
    by (unfold n; destruct (Z.ltb_spec len (PGSIZE - off)); lia).
  destruct Hn as (Hn1 & Hn2 & Hn3). clearbody n.
  set (m1 := memmove (mmem s) dst (upage (mmem s) T srcva + off) n).
  assert (Hm1 : forall x, m1 x = if decide (dst <= x < dst + n) then mmem s (uaddr (mmem s) T srcva + (x - dst)) else mmem s x).
  { intros x. unfold m1, uaddr. rewrite memmove_spec, Hoff by (done || lia).
    destruct (Z.leb_spec dst x), (Z.ltb_spec x (dst + n)); cbn [andb]; case_decide; done || lia. }
  assert (Hb1 : bytes_ok m1) by (apply memmove_ok; [done|lia]). clearbody m1.
  assert (Huser : forall i, 0 <= i < len -> m1 (uaddr (mmem s) T (srcva + i)) = mmem s (uaddr (mmem s) T (srcva + i))).
  { intros i Hi. rewrite Hm1, decide_False; [done|]. intros Hin.
    destruct (Hap (uaddr (mmem s) T (srcva + i)) ltac:(lia)) as [_ Hu]. apply (Hu i Hi), uaddr_in_page. }
  destruct (pt_frame kend (mmem s) m1 root T Hpt) as [Hpt1 L1].
  { intros pa x Ht Hin. rewrite Hm1, decide_False; [done|]. intros Hx.
    destruct (Hap x ltac:(lia)) as [Hu _]. by apply (Hu pa). }
  assert (Hup : srcva < MAXVA) by (unfold upage in Hnz; destruct (Z.leb_spec MAXVA srcva); [done|lia]).
  assert (MAXVA + PGSIZE < 2 ^ 64) by done. rewrite wrap_small by lia.
  assert (Hva1 : len - n = 0 \/ PGROUNDDOWN srcva + PGSIZE = srcva + n) by lia.
  assert (Hmod1 : (PGROUNDDOWN srcva + PGSIZE) mod PGSIZE = 0).
  { rewrite PGROUNDDOWN_eq. replace (srcva / PGSIZE * PGSIZE + PGSIZE) with ((srcva / PGSIZE + 1) * PGSIZE) by lia.
    by apply Z.mod_mul. }
  eapply wp_mono; [apply (IH (dst + n) (PGROUNDDOWN srcva + PGSIZE) (len - n) (set_mmem m1 s))|]; simpl.
  - done.
  - done.
  - lia.
  - lia.
  - rewrite Hmod1. destruct Hn3; unfold PGSIZE in *; lia.
  - intros x Hx. destruct (Hap x ltac:(lia)) as [Hat Hau]. split; [done|]. intros i Hi.
    rewrite (upage_ext (mmem s)) by done. destruct Hva1 as [|Hva1]; [lia|].
    rewrite Hva1, <- Z.add_assoc. apply Hau. lia.
  - intros r s' (Hh & Hout & Hr). split; [done|]. split.
    { intros x Hx. rewrite Hout, Hm1, decide_False by lia. done. }
    destruct Hr as [[-> Hr]|[-> (i & Hi & Hr)]]; [left|right]; (split; [done|]).
    + intros i Hi. destruct (Z.lt_ge_cases i n).
      * rewrite upage_same by lia. split; [done|].
        rewrite Hout, Hm1, decide_True, uaddr_same by lia. f_equal. lia.
      * destruct Hva1 as [|Hva1]; [lia|]. destruct (Hr (i - n) ltac:(lia)) as [Hr1 Hr2].
        unfold uaddr in Hr2. rewrite (upage_ext (mmem s)), Hva1 in Hr1, Hr2 by done.
        replace (srcva + n + (i - n)) with (srcva + i) in Hr1, Hr2 by lia.
        replace (dst + n + (i - n)) with (dst + i) in Hr2 by lia. split; [done|].
        rewrite Hr2. by apply Huser.
    + destruct Hva1 as [|Hva1]; [lia|]. exists (n + i). rewrite (upage_ext (mmem s)), Hva1 in Hr by done.
      split; [lia|]. by rewrite Z.add_assoc.
Qed.

Lemma copy_fuel va len : 0 <= va -> 0 <= len -> va mod PGSIZE + len <= Z.of_nat (Z.to_nat (len / PGSIZE + 2)) * PGSIZE.
Proof.
  intros. unfold PGSIZE. pose proof (Z.mod_pos_bound va 4096). pose proof (Z.div_mod len 4096).
  pose proof (Z.mod_pos_bound len 4096). pose proof (Z.div_pos len 4096). lia.
Qed.

(** ** copyout *)

(** Distinct user pages of the range are distinct pages, none of them a
    table. *)
Definition distinct_pages (m : mem) (T : tables) (va len : Z) : Prop :=
  forall i, 0 <= i < len -> upage m T (va + i) <> 0 -> ~ table_page T (upage m T (va + i)) /\
    forall j, 0 <= j < len -> upage m T (va + j) = upage m T (va + i) -> PGROUNDDOWN (va + j) = PGROUNDDOWN (va + i).

(** [x] is behind one of the first [len] bytes of the user range at [va]. *)
Definition behind (m : mem) (T : tables) (va len x : Z) : Prop :=
  exists i, 0 <= i < len /\ upage m T (va + i) <> 0 /\ x = uaddr m T (va + i).

Lemma wp_copyout_loop fuel root T dstva src len s :
  pt_inv (mmem s) root T -> bytes_ok (mmem s) -> 0 <= dstva < 2 ^ 64 -> 0 <= len ->
  dstva mod PGSIZE + len <= Z.of_nat fuel * PGSIZE ->
  apart (mmem s) T src dstva len -> distinct_pages (mmem s) T dstva len ->
  wp (copyout_loop fuel root dstva src len) (fun r s' =>
    held s' = held s /\ bytes_ok (mmem s') /\ (forall x, ~ behind (mmem s) T dstva len x -> mmem s' x = mmem s x) /\
    (r = 0 /\ (forall i, 0 <= i < len -> upage (mmem s) T (dstva + i) <> 0 /\
                 mmem s' (uaddr (mmem s) T (dstva + i)) = mmem s (src + i)) \/
     r = -1 /\ exists i, 0 <= i < len /\ upage (mmem s) T (dstva + i) = 0)) s.
Proof.
  revert dstva src len s. induction fuel as [|fuel IH]; intros dstva src len s Hpt Hb Hv Hlen Hf Hap Hdp;
    cbn [copyout_loop]; pose proof (Z.mod_pos_bound dstva PGSIZE ltac:(done)) as Hm.
  { destruct (Z.ltb_spec 0 len); [lia|]. apply wp_ret. split_and!; [done..|]. left. split; [done|]. lia. }
  destruct (Z.ltb_spec 0 len).
  2: { apply wp_ret. split_and!; [done..|]. left. split; [done|]. lia. }
  pose proof (page_split dstva) as Hsp.
  assert (0 <= PGROUNDDOWN dstva) by (rewrite PGROUNDDOWN_eq; unfold PGSIZE; pose proof (Z.div_pos dstva 4096); lia).
  apply wp_bind. eapply wp_walkaddr; [done|lia|]. rewrite upage_page.
  destruct (Z.eqb_spec (upage (mmem s) T dstva) 0) as [Hz|Hnz].
  { apply wp_ret. split_and!; [done..|]. right. split; [done|]. exists 0.
    rewrite Z.add_0_r. by split; [lia|]. }
  apply wp_bind, wp_modify. set (off := dstva - PGROUNDDOWN dstva).
  assert (off = dstva mod PGSIZE) as Hoff by lia.
  set (n := if len <? PGSIZE - off then len else PGSIZE - off).
  assert (Hn : 0 < n <= len /\ n <= PGSIZE - dstva mod PGSIZE /\ (n = len \/ n = PGSIZE - dstva mod PGSIZE))
    by (unfold n; destruct (Z.ltb_spec len (PGSIZE - off)); lia).
  destruct Hn as (Hn1 & Hn2 & Hn3). clearbody n.
  set (pd := uaddr (mmem s) T dstva).
  set (m1 := memmove (mmem s) (upage (mmem s) T dstva + off) src n).
  assert (Hm1 : forall x, m1 x = if decide (pd <= x < pd + n) then mmem s (src + (x - pd)) else mmem s x).
  { intros x. unfold m1, pd, uaddr. rewrite memmove_spec, Hoff by (done || lia).
    destruct (Z.leb_spec (upage (mmem s) T dstva + dstva mod PGSIZE) x),
      (Z.ltb_spec x (upage (mmem s) T dstva + dstva mod PGSIZE + n)); cbn [andb]; case_decide; done || lia. }
  assert (Hb1 : bytes_ok m1) by (apply memmove_ok; [done|lia]). clearbody m1.
  assert (Hpd : forall x, pd <= x < pd + n -> in_page (upage (mmem s) T dstva) x).
  { intros x Hx. unfold pd, uaddr, in_page in *. lia. }
  assert (Hsrc : forall i, 0 <= i < len -> m1 (src + i) = mmem s (src + i)).
  { intros i Hi. rewrite Hm1, decide_False; [done|]. intros Hin.
    destruct (Hap (src + i) ltac:(lia)) as [_ Hu]. apply (Hu 0); [lia|]. rewrite Z.add_0_r. by apply Hpd. }
  destruct (Hdp 0 ltac:(lia)) as [Hnt Hinj]; [by rewrite Z.add_0_r|]. rewrite Z.add_0_r in Hnt, Hinj.
  destruct (pt_frame kend (mmem s) m1 root T Hpt) as [Hpt1 L1].
  { intros pa x Ht Hin. rewrite Hm1, decide_False; [done|]. intros Hx. apply Hnt.
    rewrite <- (in_page_eq pa (upage (mmem s) T dstva) x); [done| |apply upage_aligned|done|by apply Hpd].
    destruct Ht as [p Hp]. by eapply pt_valid. }
  assert (Hup : dstva < MAXVA) by (unfold upage in Hnz; destruct (Z.leb_spec MAXVA dstva); [done|lia]).
  assert (MAXVA + PGSIZE < 2 ^ 64) by done. rewrite wrap_small by lia.
  assert (Hva1 : len - n = 0 \/ PGROUNDDOWN dstva + PGSIZE = dstva + n) by lia.
  assert (Hmod1 : (PGROUNDDOWN dstva + PGSIZE) mod PGSIZE = 0).
  { rewrite PGROUNDDOWN_eq. replace (dstva / PGSIZE * PGSIZE + PGSIZE) with ((dstva / PGSIZE + 1) * PGSIZE) by lia.
    by apply Z.mod_mul. }
  assert (Hua : forall i, upage m1 T (PGROUNDDOWN dstva + PGSIZE + i) = upage (mmem s) T (PGROUNDDOWN dstva + PGSIZE + i))
    by (intros; by apply upage_ext).
  eapply wp_mono; [apply (IH (PGROUNDDOWN dstva + PGSIZE) (src + n) (len - n) (set_mmem m1 s))|]; simpl.
  - done.
  - done.
  - lia.
  - lia.
  - rewrite Hmod1. destruct Hn3; unfold PGSIZE in *; lia.
  - intros x Hx. destruct (Hap x ltac:(lia)) as [Hat Hau]. split; [done|]. intros i Hi.
    rewrite Hua. destruct Hva1 as [|Hva1]; [lia|]. rewrite Hva1, <- Z.add_assoc. apply Hau. lia.
  - intros i Hi. rewrite Hua. destruct Hva1 as [|Hva1]; [lia|].
    intros Hne. destruct (Hdp (n + i) ltac:(lia)) as [Hnt' Hinj'].
    { rewrite Z.add_assoc, <- Hva1. done. }
    rewrite Z.add_assoc, <- Hva1 in Hnt', Hinj'. split; [done|]. intros j Hj. rewrite Hua. intros Heq.
    specialize (Hinj' (n + j) ltac:(lia)). rewrite Z.add_assoc, <- Hva1 in Hinj'. by apply Hinj'.
  - intros r s' (Hh & Hb' & Hout & Hr). split; [done|]. split; [done|].
    assert (Hstep : forall x, ~ behind m1 T (PGROUNDDOWN dstva + PGSIZE) (len - n) x ->
       mmem s' x = if decide (pd <= x < pd + n) then mmem s (src + (x - pd)) else mmem s x).
    { intros x Hx. by rewrite Hout, Hm1. }
    split.
    { intros x Hx. rewrite Hstep, decide_False; [done| |].
      - intros Hin. apply Hx. exists (x - pd). rewrite upage_same, uaddr_same by (unfold pd in *; lia).
        fold pd. split_and!; [lia..|done|lia].
      - intros (i & Hi & Hne & ->). apply Hx. destruct Hva1 as [|Hva1]; [lia|]. exists (n + i).
        unfold uaddr. rewrite Hua, Hva1 in *. rewrite Z.add_assoc. split_and!; [lia..|done|done]. }
    destruct Hr as [[-> Hr]|[-> (i & Hi & Hr)]]; [left|right]; (split; [done|]).
    + intros i Hi. destruct (Z.lt_ge_cases i n).
      * rewrite upage_same by lia. split; [done|]. rewrite uaddr_same by lia. fold pd.
        rewrite Hstep; [rewrite decide_True by lia; f_equal; lia|].
        intros (j & Hj & Hne & Heq). destruct Hva1 as [|Hva1]; [lia|].
        unfold uaddr in Heq. rewrite Hua, Hva1 in Hne, Heq.
        assert (upage (mmem s) T (dstva + n + j) = upage (mmem s) T dstva) as Hpe.
        { apply (in_page_eq _ _ (pd + i)); [apply upage_aligned..| |apply Hpd; lia].
          rewrite Heq. apply uaddr_in_page. }
        specialize (Hinj (n + j) ltac:(lia)). rewrite Z.add_assoc in Hinj. specialize (Hinj Hpe).
        destruct (PGROUNDDOWN_spec (dstva + n + j)). destruct (PGROUNDDOWN_spec dstva). lia.
      * destruct Hva1 as [|Hva1]; [lia|]. destruct (Hr (i - n) ltac:(lia)) as [Hr1 Hr2].
        unfold uaddr in Hr2. rewrite Hua, Hva1 in Hr1, Hr2.
        replace (dstva + n + (i - n)) with (dstva + i) in Hr1, Hr2 by lia.
        replace (src + n + (i - n)) with (src + i) in Hr2 by lia. split; [done|].
        fold (uaddr (mmem s) T (dstva + i)) in Hr2. rewrite Hr2. by apply Hsrc.
    + destruct Hva1 as [|Hva1]; [lia|]. exists (n + i). rewrite Hua, Hva1 in Hr.
      split; [lia|]. by rewrite Z.add_assoc.
Qed.
(** The tables survive a copyout to pages that are not tables. *)
Lemma copyout_tables root T va len m m' :
  pt_inv m root T -> distinct_pages m T va len ->
  (forall x, ~ behind m T va len x -> m' x = m x) ->
  pt_inv m' root T /\ (forall a, leaf m' T a = leaf m T a).
Proof.
  intros Hpt Hdp Hout. apply pt_frame; [done|]. intros pa x Ht Hin. apply Hout.
  intros (i & Hi & Hne & ->). destruct (Hdp i Hi Hne) as [Hnt _]. apply Hnt.
  rewrite (in_page_eq (upage m T (va + i)) pa (uaddr m T (va + i))); [done|apply upage_aligned| |apply uaddr_in_page|done].
  destruct Ht as [p Hp]. by eapply pt_valid.
Qed.
End Copies.

(** ** Properties *)

(** copyin returns 0 exactly when every byte of the user range is mapped
    for the user, and then the destination holds the bytes the range
    designates through the page table; it writes nothing outside the
    destination, whatever it returns. *)
Theorem copyin_reads_user (kend root dst srcva len : Z) (T : tables) (s : mach) :
  0 < kend -> pt_inv kend (mmem s) root T -> bytes_ok (mmem s) -> 0 <= srcva < 2 ^ 64 -> 0 <= len ->
  apart (mmem s) T dst srcva len ->
  wp (copyin root dst srcva len) (fun r s' =>
    held s' = held s /\ (forall x, x < dst \/ dst + len <= x -> mmem s' x = mmem s x) /\
    (r = 0 /\ (forall i, 0 <= i < len -> upage (mmem s) T (srcva + i) <> 0 /\
                 mmem s' (dst + i) = mmem s (uaddr (mmem s) T (srcva + i))) \/
     r = -1 /\ exists i, 0 <= i < len /\ upage (mmem s) T (srcva + i) = 0)) s.
Proof.
  intros Hk Hpt Hb Hv Hlen Hap. apply (wp_copyin_loop kend Hk); try done. apply copy_fuel; lia.
Qed.

(** copyout returns 0 exactly when every byte of the user range is mapped
    for the user, and then each byte of the range holds the source byte; it
    writes only to bytes behind the user range, whatever it returns. *)
Theorem copyout_writes_user (kend root dstva src len : Z) (T : tables) (s : mach) :
  0 < kend -> pt_inv kend (mmem s) root T -> bytes_ok (mmem s) -> 0 <= dstva < 2 ^ 64 -> 0 <= len ->
  apart (mmem s) T src dstva len -> distinct_pages (mmem s) T dstva len ->
  wp (copyout root dstva src len) (fun r s' =>
    held s' = held s /\ (forall x, ~ behind (mmem s) T dstva len x -> mmem s' x = mmem s x) /\
    (r = 0 /\ (forall i, 0 <= i < len -> upage (mmem s) T (dstva + i) <> 0 /\
                 mmem s' (uaddr (mmem s) T (dstva + i)) = mmem s (src + i)) \/
     r = -1 /\ exists i, 0 <= i < len /\ upage (mmem s) T (dstva + i) = 0)) s.
Proof.
  intros Hk Hpt Hb Hv Hlen Hap Hdp.
  eapply wp_mono; [by apply (wp_copyout_loop kend Hk); try done; apply copy_fuel; lia|].
  cbn beta. tauto.
Qed.

(** C32: what copyout stores in user memory, copyin of the same range reads
    back, and both report success when the range is mapped for the user. *)
Theorem copyout_copyin_roundtrip (kend root va src dst len : Z) (T : tables) (s : mach) :
  0 < kend -> pt_inv kend (mmem s) root T -> bytes_ok (mmem s) -> 0 <= va < 2 ^ 64 -> 0 <= len ->
  apart (mmem s) T src va len -> apart (mmem s) T dst va len -> distinct_pages (mmem s) T va len ->
  (forall i, 0 <= i < len -> upage (mmem s) T (va + i) <> 0) ->
  wp (r1 ← copyout root va src len; r2 ← copyin root dst va len; mret (r1, r2))
     (fun r s' => r = (0, 0) /\ forall i, 0 <= i < len -> mmem s' (dst + i) = mmem s (src + i)) s.
Proof.
  intros Hk Hpt Hb Hv Hlen Hsrc Hdst Hdp Hmap.
  eapply wp_call; [by apply (wp_copyout_loop kend Hk _ root T); try done; apply copy_fuel; lia|].
  cbn beta. intros r1 s1 (_ & Hb1 & Hout & [[-> Hw]|[_ (i & Hi & Hz)]]); [|by apply Hmap in Hz].
  destruct (copyout_tables kend root T va len (mmem s) (mmem s1) Hpt Hdp Hout) as [Hpt1 L1].
  assert (Hup : forall a, upage (mmem s1) T a = upage (mmem s) T a) by (intros; by apply upage_ext).
  eapply wp_call; [apply (wp_copyin_loop kend Hk _ root T dst va len s1)|]; try done.
  { apply copy_fuel; lia. }
  { intros x Hx. destruct (Hdst x Hx) as [H1 H2]. split; [done|]. intros i Hi. rewrite Hup. by apply H2. }
  cbn beta. intros r2 s2 (_ & _ & [[-> Hr]|[_ (i & Hi & Hz)]]); [|by rewrite Hup in Hz; apply Hmap in Hz].
  apply wp_ret. split; [done|]. intros i Hi. destruct (Hr i Hi) as [_ ->].
  unfold uaddr. rewrite Hup. by apply Hw.
Qed.

(** ** Witnesses: the machine with one user page mapped at 0 *)

Lemma user_page_facts :
  exists T, pt_inv six_pages (mmem with_page) root_page T /\ bytes_ok (mmem with_page) /\
    (forall i, 0 <= i < PGSIZE -> upage (mmem with_page) T (0 + i) = upage (mmem with_page) T 0) /\
    valid_page six_pages (upage (mmem with_page) T 0) /\ ~ table_page T (upage (mmem with_page) T 0).
Proof.
  destruct page_mapped as (T & l & [Ev _ In Fr _]). exists T. pose proof (ev_inv _ _ _ _ _ _ _ _ Ev) as Hinv.
  generalize dependent with_page. intros s Ev In Fr Hinv.
  destruct (In 0 ltac:(lia)) as (pa & Hl & Hv & _). rewrite Z.mul_0_l, Z.add_0_r in Hl.
  assert (0 < six_pages) as Hk by done. assert (0 <= PTE_W < 2 ^ 10) as Hx by done.
  pose proof (ualloc_perm_range PTE_W Hx) as Hpr.
  pose proof (valid_page_word six_pages Hk pa Hv) as Hw.
  destruct (map_pte_make pa (ualloc_perm PTE_W) (proj1 Hv) Hw (proj1 Hpr)) as [Hpa Hfl].
  assert (upage (mmem s) T 0 = pa) as Hup.
  { unfold upage. rewrite Hl. simpl.
    assert (forall f, Z.land f 0x3FF = f -> Z.land (map_pte pa (ualloc_perm PTE_W)) f
      = Z.land (PTE_FLAGS (map_pte pa (ualloc_perm PTE_W))) f) as Hland.
    { intros f Hf. unfold PTE_FLAGS. by rewrite <- Z.land_assoc, (Z.land_comm 0x3FF f), Hf. }
    rewrite !Hland, Hfl, Hpa by done. done. }
  split_and!; [apply Hinv|apply Hinv| |by rewrite Hup..|].
  - intros i Hi. apply upage_same. rewrite Z.mod_0_l by done. lia.
  - rewrite Hup. destruct Fr as [_ Fr]. destruct (Fr pa) as (_ & _ & Hnt); [|done].
    simpl. rewrite Hl, Hpa. by apply list_elem_of_singleton.
Qed.

Lemma low_apart T kb :
  pt_inv six_pages (mmem with_page) root_page T ->
  valid_page six_pages (upage (mmem with_page) T 0) ->
  (forall i, 0 <= i < PGSIZE -> upage (mmem with_page) T (0 + i) = upage (mmem with_page) T 0) ->
  0 <= kb <= 0x10000 -> apart (mmem with_page) T kb 0 10.
Proof.
  generalize with_page. intros s Hpt [_ Hup] Hsame Hkb x Hx. assert (0x20000 < six_pages) by done. split.
  - intros pa [p Hp] Hin. pose proof (pt_valid _ _ _ _ Hpt p pa Hp) as [_ ?]. unfold in_page in *. lia.
  - intros i Hi. rewrite Hsame by (unfold PGSIZE; lia). unfold in_page. lia.
Qed.

Lemma one_page_distinct T :
  (forall i, 0 <= i < PGSIZE -> upage (mmem with_page) T (0 + i) = upage (mmem with_page) T 0) ->
  ~ table_page T (upage (mmem with_page) T 0) -> distinct_pages (mmem with_page) T 0 10.
Proof.
  generalize with_page. intros s Hsame Hnt i Hi _. rewrite Hsame by (unfold PGSIZE; lia). split; [done|].
  intros j Hj _. unfold PGROUNDDOWN. rewrite !(land_lnot_ones _ 12) by lia.
  rewrite !Z.div_small by lia. done.
Qed.

Lemma copyin_reads_user_witness :
  wp (copyin root_page 0x8000 0 10) (fun r s' => r = 0 \/ r = -1) with_page.
Proof.
  destruct user_page_facts as (T & Hpt & Hb & Hs & Hv & Hnt).
  eapply wp_mono; [apply (copyin_reads_user six_pages root_page 0x8000 0 10 T with_page)|].
  - done.
  - exact Hpt.
  - exact Hb.
  - lia.
  - lia.
  - apply low_apart; [exact Hpt|exact Hv|exact Hs|lia].
  - cbn beta. tauto.
Defined.

Lemma copyout_writes_user_witness :
  wp (copyout root_page 0 0x8000 10) (fun r s' => r = 0 \/ r = -1) with_page.
Proof.
  destruct user_page_facts as (T & Hpt & Hb & Hs & Hv & Hnt).
  eapply wp_mono; [apply (copyout_writes_user six_pages root_page 0 0x8000 10 T with_page)|].
  - done.
  - exact Hpt.
  - exact Hb.
  - lia.
  - lia.
  - apply low_apart; [exact Hpt|exact Hv|exact Hs|lia].
  - by apply one_page_distinct.
  - cbn beta. tauto.
Defined.

Lemma copyout_copyin_roundtrip_witness :
  wp (r1 ← copyout root_page 0 0x8000 10; r2 ← copyin root_page 0x9000 0 10; mret (r1, r2))
     (fun r s' => r = (0, 0)) with_page.
Proof.
  destruct user_page_facts as (T & Hpt & Hb & Hs & Hv & Hnt).
  eapply wp_mono; [apply (copyout_copyin_roundtrip six_pages root_page 0 0x8000 0x9000 10 T with_page)|].
  - done.
  - exact Hpt.
  - exact Hb.
  - lia.
  - lia.
  - apply low_apart; [exact Hpt|exact Hv|exact Hs|lia].
  - apply low_apart; [exact Hpt|exact Hv|exact Hs|lia].
  - by apply one_page_distinct.
  - intros i Hi. rewrite Hs by (unfold PGSIZE; lia). destruct Hv as [_ Hv]. assert (0 < six_pages) by done. lia.
  - cbn beta. tauto.
Defined.

(** * uvmcopy: the address space of a forked process

    The child gets a copy of every page of its parent, with the same
    permissions, in pages of its own; when memory runs out its table is empty
    again.  The parent's table and pages are not touched. *)

#[local] Opaque memset memmove load64 store64.

Section Fork.
Context (kend : Z).
Hypothesis kend_pos : 0 < kend.

(** The first [n] pages of the parent, whose table is rooted at [old], are mapped;
    its tables and pages are neither free nor tables of the child. *)
Record parent_space (old : Z) (To : tables) (n : nat) (s : mach) (Tn : tables) (l : list Z) : Prop := {
  ps_pt : pt_inv kend (mmem s) old To;
  ps_tables : forall pa, table_page To pa -> pa ∉ l /\ ~ table_page Tn pa;
  ps_mapped : forall j, 0 <= j < Z.of_nat n -> unmappable (leaf (mmem s) To (j * PGSIZE));
  ps_pages : forall j, 0 <= j < Z.of_nat n ->
    let pa := PTE2PA (leaf (mmem s) To (j * PGSIZE)) in pa ∉ l /\ ~ table_page Tn pa;
}.

Lemma PTE_FLAGS_range v : 0 <= PTE_FLAGS v < 2 ^ 10.
Proof. unfold PTE_FLAGS. change 0x3FF with (Z.ones 10). rewrite Z.land_ones by lia. apply Z.mod_pos_bound. done. Qed.

Lemma PTE_FLAGS_valid v : unmappable v -> Z.lor (PTE_FLAGS v) PTE_V = PTE_FLAGS v /\ PTE_FLAGS v <> PTE_V.
Proof.
  intros [Hv Hf]. split; [|done]. assert (Hb : Z.testbit v 0 = true).
  { destruct (Z.testbit v 0) eqn:E; [done|]. destruct Hv. apply Z.bits_inj'. intros i Hi. rewrite Z.land_spec, Z.bits_0.
    change PTE_V with 1. destruct (decide (i = 0)) as [->|]; [by rewrite E|]. rewrite (testbit_high 1 1 i) by lia. apply andb_false_r. }
  apply Z.bits_inj'. intros i Hi. rewrite Z.lor_spec. unfold PTE_FLAGS. rewrite Z.land_spec. change PTE_V with 1.
  destruct (decide (i = 0)) as [->|]; [by rewrite Hb|]. rewrite (testbit_high 1 1 i) by lia. apply orb_false_r.
Qed.

Section Copy.
Context (old new : Z) (To Tn : tables) (n : nat) (l : list Z) (s : mach).
Hypotheses (Hmax : Z.of_nat n * PGSIZE <= MAXVA) (Hpar : parent_space old To n s Tn l).
Hypothesis Hinv : vm_inv kend s new Tn l.
Hypothesis Hz : forall j, 0 <= j < Z.of_nat n -> leaf (mmem s) Tn (0 + j * PGSIZE) = 0.

(** The entry, the permissions and the contents of a page of the parent. *)
Definition old_pte (j : Z) : Z := leaf (mmem s) To (j * PGSIZE).
Definition old_perm (j : Z) : Z := PTE_FLAGS (old_pte j).
Definition old_data (j i : Z) : Z := mmem s (PTE2PA (old_pte j) + i).
Abbreviation copied := (filled kend new s Tn l 0 old_perm old_data).

Lemma old_perm_ok j : 0 <= j < Z.of_nat n -> 0 <= old_perm j < 2 ^ 10 /\ Z.lor (old_perm j) PTE_V <> PTE_V.
Proof.
  intros Hj. split; [apply PTE_FLAGS_range|]. destruct (PTE_FLAGS_valid _ (ps_mapped _ _ _ _ _ _ Hpar j Hj)) as [H1 H2].
  unfold old_perm, old_pte. by rewrite H1.
Qed.

(** Nothing of the parent is changed by what happens to the child. *)
Lemma parent_kept m' : touches Tn l (mmem s) m' ->
  (pt_inv kend m' old To /\ forall va, leaf m' To va = leaf (mmem s) To va) /\
  forall j i, 0 <= j < Z.of_nat n -> 0 <= i < PGSIZE -> m' (PTE2PA (old_pte j) + i) = old_data j i.
Proof.
  intros Ht. split.
  - apply (pt_frame kend); [apply Hpar|]. intros pa x Hpa Hx. destruct (ps_tables _ _ _ _ _ _ Hpar pa Hpa) as [Hl Hn].
    apply (untouched_page Tn l (mmem s) m' pa); try done; [by eapply (vm_pages_aligned kend), Hinv|].
    destruct Hpa as [q Hq]. apply (pt_valid _ _ _ _ (ps_pt _ _ _ _ _ _ Hpar) _ _ Hq).
  - intros j i Hj Hi. destruct (ps_pages _ _ _ _ _ _ Hpar j Hj) as [Hl Hn].
    apply (untouched_page Tn l (mmem s) m' (PTE2PA (old_pte j))); try done; [by eapply (vm_pages_aligned kend), Hinv|apply PTE2PA_aligned|unfold in_page; lia].
Qed.

Definition uvmcopy_result (r : Z) (s' : mach) : Prop :=
  (r = 0 /\ exists T' l', copied n s' T' l') \/ (r = -1 /\ exists T', restored kend new s Tn l s' T').

Lemma wp_uvmcopy_undo k s1 T1 l1 : copied k s1 T1 l1 -> (k <= n)%nat ->
  wp (uvmunmap kend new 0 (Z.of_nat k) true;; mret (-1)) uvmcopy_result s1.
Proof.
  intros Hc Hk. eapply wp_call; [apply (wp_uvmunmap kend kend_pos 0 (Z.of_nat k) true new T1 l1 s1)|]; try done; try lia.
  { apply Hc. } { unfold PGSIZE in *. lia. }
  { intros j Hj. eapply (filled_unmappable kend kend_pos new 0 old_perm _ n); [exact old_perm_ok|exact Hc|done|done]. }
  { rewrite Nat2Z.id. apply Hc. }
  cbn beta. rewrite Nat2Z.id. intros _ s2 (I2 & H2 & L2 & M2). apply wp_ret. right. split; [done|]. exists T1.
  eapply (filled_undo kend kend_pos new 0 old_perm old_data n); try done; [exact old_perm_ok|]. intros j Hj. apply Hz. lia.
Qed.

Lemma wp_uvmcopy_loop sz fuel k s1 T1 l1 :
  Z.of_nat n * PGSIZE - PGSIZE < sz <= Z.of_nat n * PGSIZE -> (n <= k + fuel)%nat -> (k <= n)%nat ->
  copied k s1 T1 l1 ->
  wp (uvmcopy_loop kend fuel old new sz (0 + Z.of_nat k * PGSIZE)) uvmcopy_result s1.
Proof.
  intros Hsz. revert k s1 T1 l1. induction fuel as [|fuel IH]; intros k s1 T1 l1 Hf Hk Hc; cbn [uvmcopy_loop].
  all: destruct (Z.ltb_spec (0 + Z.of_nat k * PGSIZE) sz) as [Hlt|Hge]; [|apply wp_ret; left; split; [done|]; replace n with k by (unfold PGSIZE in *; lia); eauto].
  { unfold PGSIZE in *. lia. }
  assert (Hkn : 0 <= Z.of_nat k < Z.of_nat n) by (unfold PGSIZE in *; lia).
  pose proof (al_ev _ _ _ _ _ _ _ _ _ _ _ _ Hc) as Ev. destruct (parent_kept (mmem s1)) as [[Hpt HL] Hdata]; [apply Ev|].
  assert (Hva : 0 <= 0 + Z.of_nat k * PGSIZE < MAXVA) by (unfold PGSIZE in *; lia).
  assert (Hleaf : leaf (mmem s1) To (0 + Z.of_nat k * PGSIZE) = old_pte (Z.of_nat k)) by by rewrite HL, Z.add_0_l.
  pose proof (ps_mapped _ _ _ _ _ _ Hpar _ Hkn) as Hun. fold (old_pte (Z.of_nat k)) in Hun.
  assert (Hsome : is_Some (To !! va_path (0 + Z.of_nat k * PGSIZE))).
  { eapply leaf_some; [exact Hleaf|]. by apply unmappable_nonzero. }
  apply wp_bind. eapply wp_walk_false; [done..|].
  apply wp_bind, wp_panic_if. { apply Z.eqb_neq. by eapply leaf_addr_nonzero. }
  apply wp_bind, wp_gets. rewrite rd_leaf, Hleaf by done.
  apply wp_bind, wp_panic_if. { apply Z.eqb_neq, Hun. }
  cbn zeta. fold (old_perm (Z.of_nat k)).
  rewrite Z.div_add, Z.div_0_l, Z.add_0_l by done.
  eapply (wp_fill_turn kend kend_pos new 0 old_perm old_data n); try done; [exact old_perm_ok|lia|apply Hz; lia| | |].
  - intros p m Hp Hb Hm. split; [by apply memmove_ok|]. intros x. rewrite memmove_spec by done.
    destruct (Z.leb_spec p x), (Z.ltb_spec x (p + PGSIZE)); cbn [andb]; case_decide as Hx; unfold in_page in Hx; try (done || lia).
    rewrite Hm, decide_False; [apply Hdata; [done|lia]|]. intros Hx'.
    assert (PTE2PA (old_pte (Z.of_nat k)) = p) as Heq.
    { eapply (in_page_eq _ _ (PTE2PA (old_pte (Z.of_nat k)) + (x - p))); [apply PTE2PA_aligned|eapply (vm_pages_aligned kend); [apply Ev|by right]|unfold in_page; lia|done]. }
    destruct (ps_pages _ _ _ _ _ _ Hpar _ Hkn) as [Hnl _]. apply Hnl. fold (old_pte (Z.of_nat k)). rewrite Heq. by apply Ev.
  - intros s2 T2 l2 H2. by apply (wp_uvmcopy_undo k s2 T2 l2).
  - intros s2 T2 l2 H2. assert (MAXVA + 4096 < 2 ^ 64) by done. rewrite wrap_small by (unfold PGSIZE in *; lia).
    replace (0 + Z.of_nat k * PGSIZE + PGSIZE) with (0 + Z.of_nat (S k) * PGSIZE) by lia.
    eapply (IH (S k) s2 T2 l2); [lia|lia|done].
Qed.
End Copy.
End Fork.

(** The pages of a process of size [sz]. *)
Lemma page_count sz : 0 <= sz <= MAXVA -> let n := Z.to_nat (PGROUNDUP sz / PGSIZE) in
  Z.of_nat n * PGSIZE = PGROUNDUP sz /\ Z.of_nat n * PGSIZE <= MAXVA /\
  Z.of_nat n * PGSIZE - PGSIZE < sz <= Z.of_nat n * PGSIZE /\ (n <= 0 + Z.to_nat (sz / PGSIZE + 1))%nat /\
  forall va, 0 <= va < PGROUNDUP sz -> exists j, 0 <= j < Z.of_nat n /\ PGROUNDDOWN va = j * PGSIZE.
Proof.
  intros Hsz n. destruct (PGROUNDUP_spec sz) as [Ha Hb]; [assert (MAXVA + PGSIZE < 2 ^ 64) by done; unfold PGSIZE in *; lia|].
  assert (Hn : Z.of_nat n * PGSIZE = PGROUNDUP sz).
  { unfold n. pose proof (Z.div_mod (PGROUNDUP sz) PGSIZE). unfold page_aligned, PGSIZE in *. rewrite Z2Nat.id by (apply Z.div_pos; lia). lia. }
  split_and!; [done| |unfold PGSIZE in *; lia..| |].
  - rewrite Hn. unfold page_aligned, PGSIZE in *. pose proof (Z.div_mod (PGROUNDUP sz) 4096). change MAXVA with (67108864 * 4096) in *. lia.
  - unfold n. pose proof (Z.div_mod sz PGSIZE) as Hd. pose proof (Z.mod_pos_bound sz PGSIZE) as Hm. unfold PGSIZE in *.
    assert (PGROUNDUP sz / 4096 < sz / 4096 + 2) by (apply Z.div_lt_upper_bound; lia). lia.
  - intros va Hva. exists (va / PGSIZE). rewrite PGROUNDDOWN_eq. split; [|done]. rewrite <- Hn in Hva. unfold PGSIZE in *.
    split; [apply Z.div_pos; lia|apply Z.div_lt_upper_bound; lia].
Qed.

(** ** Properties *)

(** C8: uvmcopy, on a child whose table has nothing mapped below sz, either
    returns 0 and has mapped every page of the parent below sz in the child,
    with the same permissions and the same bytes, in pages taken from the
    allocator, no two of them the same; or it runs out of memory, returns -1
    and leaves the child's entries as they were, every page it took being free
    again or a page table.  In both cases the parent's entries and the bytes of
    its pages do not change. *)
Theorem uvmcopy_copies_memory (kend old new sz : Z) (To Tn : tables) (l : list Z) (s : mach) :
  let n := Z.to_nat (PGROUNDUP sz / PGSIZE) in
  0 < kend -> vm_inv kend s new Tn l -> parent_space kend old To n s Tn l -> 0 <= sz <= MAXVA ->
  (forall va, 0 <= va < PGROUNDUP sz -> leaf (mmem s) Tn va = 0) ->
  wp (uvmcopy kend old new sz) (fun r s' => exists T' l',
    vm_inv kend s' new T' l' /\ held s' = held s /\
    (forall va, leaf (mmem s') To va = leaf (mmem s) To va) /\
    (forall va i, 0 <= va < PGROUNDUP sz -> 0 <= i < PGSIZE ->
       let pa := PTE2PA (leaf (mmem s) To va) in mmem s' (pa + i) = mmem s (pa + i)) /\
    ((r = 0 /\ NoDup (leaf_pages (mmem s') T' 0 n) /\
      forall va, 0 <= va < PGROUNDUP sz ->
        PTE_FLAGS (leaf (mmem s') T' va) = PTE_FLAGS (leaf (mmem s) To va) /\
        PTE2PA (leaf (mmem s') T' va) ∈ l /\
        forall i, 0 <= i < PGSIZE ->
          mmem s' (PTE2PA (leaf (mmem s') T' va) + i) = mmem s (PTE2PA (leaf (mmem s) To va) + i)) \/
     (r = -1 /\ only_tables l T' l' /\ forall va, 0 <= va < MAXVA -> leaf (mmem s') T' va = leaf (mmem s) Tn va))) s.
Proof.
  intros n Hk Hinv Hpar Hsz Hz. destruct (page_count sz Hsz) as (Hn & Hmax & Hlast & Hfuel & Hpage). fold n in Hn, Hmax, Hlast, Hfuel, Hpage.
  assert (Hz' : forall j, 0 <= j < Z.of_nat n -> leaf (mmem s) Tn (0 + j * PGSIZE) = 0).
  { intros j Hj. apply Hz. rewrite <- Hn. unfold PGSIZE. lia. }
  pose proof (wp_uvmcopy_loop kend Hk old new To Tn n l s Hmax Hpar Hinv Hz' sz (Z.to_nat (sz / PGSIZE + 1)) 0 s Tn l
    Hlast Hfuel (Nat.le_0_l n) (filled_0 kend new 0 _ _ s Tn l Hinv)) as Hloop.
  change (Z.of_nat 0) with 0 in Hloop. rewrite Z.mul_0_l, Z.add_0_l in Hloop. eapply wp_mono; [exact Hloop|]. clear Hloop.
  intros r s' Hres. assert (Ht : touches Tn l (mmem s) (mmem s')) by (destruct Hres as [(_ & T' & l' & H)|(_ & T' & l' & H & _)]; apply H).
    destruct (parent_kept kend old new To Tn n l s Hpar Hinv (mmem s') Ht) as [[_ HL] HD].
    assert (Hbytes : forall va i, 0 <= va < PGROUNDUP sz -> 0 <= i < PGSIZE ->
       let pa := PTE2PA (leaf (mmem s) To va) in mmem s' (pa + i) = mmem s (pa + i)).
    { intros va i Hva Hi. destruct (Hpage va Hva) as (j & Hj & Hp). rewrite <- (leaf_page _ _ va), Hp. by apply HD. }
    destruct Hres as [(-> & T' & l' & Hc)|(-> & T' & l' & [I' S' F' H' C' N'] & O' & L')]; exists T', l'.
    + split_and!; try done; [apply Hc..|]. left. split_and!; [done|apply Hc|]. intros va Hva. destruct (Hpage va Hva) as (j & Hj & Hp).
      rewrite <- (leaf_page (mmem s') T' va), <- (leaf_page (mmem s) To va), Hp.
      destruct (al_in _ _ _ _ _ _ _ _ _ _ _ _ Hc j Hj) as (pa & Hl & Hv & Hin & Hcf). rewrite Z.add_0_l in Hl. rewrite Hl.
      destruct (map_pte_make pa (old_perm To s j) (proj1 Hv) (valid_page_word kend Hk pa Hv) (PTE_FLAGS_range _)) as [-> ->].
      split_and!; [|done|].
      * apply PTE_FLAGS_valid, Hpar, Hj.
      * intros i Hi. rewrite Hcf by (unfold in_page; lia). unfold old_data. f_equal. f_equal. lia.
    + split_and!; try done. right. by split_and!.
Qed.

(** ** Witness: a process of one page and the new table of its child *)

(** A table made by uvmcreate is ready for the copy. *)
Lemma wp_child_table kend root T l n s :
  0 < kend -> vm_inv kend s root T l -> freeable kend T l (leaf_pages (mmem s) T 0 n) ->
  (forall j, 0 <= j < Z.of_nat n -> unmappable (leaf (mmem s) T (j * PGSIZE))) ->
  wp uvmcreate (fun new s' => new <> 0 -> exists l', vm_inv kend s' new {[ [] := new ]} l' /\
    parent_space kend root T n s' {[ [] := new ]} l' /\ forall va, leaf (mmem s') {[ [] := new ]} va = 0) s.
Proof.
  intros Hk Hinv [_ Hfr] Hun. eapply wp_mono; [apply (wp_uvmcreate kend Hk l s); apply Hinv|]. cbn beta.
  intros r s' [_ H] Hr. destruct l as [|p l]; [done|]. destruct H as (-> & Hinv' & Hz & Hm). exists l. split; [done|]. split; [|done].
  assert (Hsing : forall pa, table_page {[ [] := p ]} pa -> pa = p) by (intros pa [q [_ Hq]%lookup_singleton_Some]; congruence).
  assert (Htab : forall pa, table_page T pa -> pa ∉ l /\ pa <> p).
  { intros pa Hpa. pose proof (vi_sep _ _ _ _ _ Hinv pa Hpa) as [? ?]%not_elem_of_cons. done. }
  destruct (pt_frame kend (mmem s) (mmem s') root T (vi_pt _ _ _ _ _ Hinv)) as [Hpt HL].
  { intros pa x Hpa Hx. apply Hm. intros Hx'. destruct (Htab pa Hpa) as [_ Hne]. apply Hne.
    eapply in_page_eq; [eapply (vm_pages_aligned kend); [exact Hinv|by left]|eapply (vm_pages_aligned kend); [exact Hinv|right; apply elem_of_cons; by left]|done..]. }
  split.
  - done.
  - intros pa Hpa. destruct (Htab pa Hpa) as [? Hne]. split; [done|]. intros Heq%Hsing. done.
  - intros j Hj. rewrite HL. by apply Hun.
  - intros j Hj. rewrite HL. destruct (Hfr (PTE2PA (leaf (mmem s) T (j * PGSIZE)))) as (_ & [Hne Hl]%not_elem_of_cons & _).
    { apply elem_leaf_pages. exists j. by rewrite Z.add_0_l. }
    split; [done|]. by intros Heq%Hsing.
Qed.

Definition ten_pages : Z := PHYSTOP - 10 * PGSIZE.

(** kinit, the table and the page of the parent, the table of the child. *)
Definition fork_state : mach :=
  match (kinit ten_pages;; p ← uvmcreate; uvmalloc ten_pages p 0 PGSIZE PTE_W;; uvmcreate) boot with Done _ s => s | _ => boot end.
Definition parent_root : Z := PHYSTOP - PGSIZE.
Definition child_root : Z := PHYSTOP - 5 * PGSIZE.

Lemma fork_state_runs :
  (match (kinit ten_pages;; p ← uvmcreate; r ← uvmalloc ten_pages p 0 PGSIZE PTE_W; c ← uvmcreate; mret (p, r, c)) boot with Done x _ => x | _ => (0, 0, 0) end)
  = (parent_root, PGSIZE, child_root).
Proof. vm_compute. reflexivity. Qed.

Lemma fork_state_ready : exists T l, vm_inv ten_pages fork_state child_root {[ [] := child_root ]} l /\
  parent_space ten_pages parent_root T 1 fork_state {[ [] := child_root ]} l /\
  forall va, leaf (mmem fork_state) {[ [] := child_root ]} va = 0.
Proof.
  assert (0 < ten_pages) as Hp by done. pose proof fork_state_runs as Hruns.
  pose proof (wp_kinit ten_pages Hp boot) as H. destruct boot_ok as (_ & Hl & Hf & Hb).
  specialize (H ltac:(unfold ten_pages, PGSIZE; lia) Hl Hf Hb). destruct (proj1 (wp_done _ _ _) H) as (u & s1 & Hr1 & Hk & Hh). clear H.
  pose proof (wp_uvmcreate ten_pages Hp (all_pages ten_pages) s1 Hk ltac:(by rewrite Hh)) as H.
  apply wp_done in H as (p & s2 & Hr2 & _ & H). change (all_pages ten_pages) with (parent_root :: tail (all_pages ten_pages)) in H.
  destruct H as (-> & Hinv & Hleaf & _).
  destruct (one_page_result ten_pages s2 parent_root _ Hp Hinv Hleaf) as (r & s3 & Hr3 & Hres).
  rewrite (bind_done _ _ _ _ _ Hr1), (bind_done _ _ _ _ _ Hr2), (bind_done _ _ _ _ _ Hr3) in Hruns.
  unfold fork_state. rewrite (bind_done _ _ _ _ _ Hr1), (bind_done _ _ _ _ _ Hr2), (bind_done _ _ _ _ _ Hr3).
  clear Hr1 Hr2 Hr3 Hh Hl Hf Hb Hk Hinv Hleaf.
  destruct Hres as [(-> & T & l & Hal)|[-> _]].
  2: { destruct (uvmcreate s3) as [c s4| | |] eqn:Hr4; unfold mbind, E_bind in Hruns; rewrite Hr4 in Hruns; discriminate Hruns. }
  assert (Hunm : forall j, 0 <= j < Z.of_nat 1 -> unmappable (leaf (mmem s3) T (j * PGSIZE))).
  { intros j Hj. rewrite <- (Z.add_0_l (j * PGSIZE)). eapply (filled_unmappable ten_pages Hp parent_root 0 (fun _ => ualloc_perm PTE_W) _ 1); [|exact Hal|lia|done].
    intros i _. by apply ualloc_perm_range. }
  pose proof (al_ev _ _ _ _ _ _ _ _ _ _ _ _ Hal) as Ev.
  pose proof (wp_child_table ten_pages parent_root T l 1 s3 Hp (ev_inv _ _ _ _ _ _ _ _ Ev) (al_free _ _ _ _ _ _ _ _ _ _ _ _ Hal) Hunm) as H.
  apply wp_done in H as (c & s4 & Hr4 & H). rewrite (bind_done _ _ _ _ _ Hr4) in Hruns. rewrite Hr4. injection Hruns as ->.
  destruct H as (l' & H); [done|]. by exists T, l'.
Qed.

Lemma uvmcopy_copies_memory_witness : exists To, wp (uvmcopy ten_pages parent_root child_root PGSIZE) (fun r s' =>
  forall va i, 0 <= va < PGSIZE -> 0 <= i < PGSIZE ->
    let pa := PTE2PA (leaf (mmem fork_state) To va) in mmem s' (pa + i) = mmem fork_state (pa + i)) fork_state.
Proof.
  destruct fork_state_ready as (T & l & Hinv & Hpar & Hz). exists T.
  eapply wp_mono; [apply (uvmcopy_copies_memory ten_pages parent_root child_root PGSIZE T {[ [] := child_root ]} l fork_state)|].
  - done.
  - exact Hinv.
  - exact Hpar.
  - done.
  - intros va _. apply Hz.
  - cbn beta. intros r s' (T' & l' & _ & _ & _ & H & _). exact H.
Defined.
