(* ===== verification/VmTypes.v ===== *)
(** * The allocator and the page-table code keep memory well typed

    Nothing is assumed about page tables, about the list of free pages or about
    the arguments: from any state whose bytes, counter and list head fit their C
    types, a routine that returns leaves such a state, gives back every lock it
    took, and returns a value of its result type. *)
From S2P Require Import Prelude Mem CString KTypes Kalloc Vm.

Record mach_typed (s : mach) : Prop := {
  mt_bytes : bytes_ok (mmem s);
  mt_freelist : 0 <= freelist s < 2 ^ 64;
  mt_freecnt : - 2 ^ 31 <= g_freecnt s < 2 ^ 31;
}.

(** When [m] returns, its result satisfies [R], the state is well typed and the
    same locks are held. *)
Definition typed {A} (R : A -> Prop) (m : E mach A) : Prop :=
  forall s, mach_typed s ->
    match m s with Done a s' => R a /\ mach_typed s' /\ held s' = held s | _ => True end.

Abbreviation any := (fun _ => True).

(** ** Rules *)

Lemma typed_ret {A} (R : A -> Prop) a : R a -> typed R (mret a).
Proof. intros H s Hs. by split. Qed.

Lemma typed_bind {A B} (P : A -> Prop) (R : B -> Prop) (m : E mach A) f :
  typed P m -> (forall a, P a -> typed R (f a)) -> typed R (m ≫= f).
Proof.
  intros Hm Hf s Hs. unfold mbind, E_bind. specialize (Hm s Hs). destruct (m s) as [a s'| | |]; try done.
  destruct Hm as (Ha & Hs' & Hh). specialize (Hf a Ha s' Hs'). destruct (f a s'); try done. rewrite <- Hh. exact Hf.
Qed.

Lemma typed_mono {A} (P R : A -> Prop) (m : E mach A) : typed P m -> (forall a, P a -> R a) -> typed R m.
Proof. intros Hm Hi s Hs. specialize (Hm s Hs). destruct (m s); try done. naive_solver. Qed.

Lemma typed_any {A} (P : A -> Prop) (m : E mach A) : typed P m -> typed any m.
Proof. intros H. by eapply typed_mono. Qed.

Lemma typed_panic_if b msg : typed any (panic_if b msg).
Proof. intros s Hs. unfold panic_if. by destruct b. Qed.

Lemma typed_panic {A} (R : A -> Prop) msg : typed R (panic msg).
Proof. by intros s Hs. Qed.

Lemma typed_nofuel {A} (R : A -> Prop) : typed R nofuel.
Proof. by intros s Hs. Qed.

Lemma typed_upd_mem f : (forall m, bytes_ok m -> bytes_ok (f m)) -> typed any (upd_mem f).
Proof. intros Hf s [Hb Hl Hc]. split; [done|]. split; [|done]. split; [by apply Hf|done|done]. Qed.

Lemma typed_rd a : typed (fun v => 0 <= v < 2 ^ 64) (rd a).
Proof. intros s Hs. split; [|by split]. apply load64_range, Hs. Qed.

Lemma typed_wr a v : typed any (wr a v).
Proof. apply typed_upd_mem. intros. by apply store64_ok. Qed.

(** A routine between acquire and release of one lock. *)
Lemma typed_locked {A B} (P : A -> Prop) (R : B -> Prop) l (m : E mach A) (f : A -> E mach B) :
  typed P m -> (forall a, P a -> typed R (f a)) -> typed R (acquire l;; (a ← m; release l;; f a)).
Proof.
  intros Hm Hf s Hs. unfold mbind, E_bind, acquire. destruct (acquire_held l (held s)) as [h|] eqn:Ha; [|done].
  specialize (Hm (set_held h s) ltac:(by destruct Hs)). destruct (m _) as [a s'| | |]; try done. destruct Hm as (HP & Hs' & Hh).
  unfold release. rewrite Hh. cbn [held set_held]. rewrite (release_acquire_held _ _ _ Ha).
  specialize (Hf a HP (set_held (held s) s') ltac:(by destruct Hs')). by destruct (f a _).
Qed.

Lemma typed_assoc {A B C} (R : C -> Prop) (m : E mach A) (f : A -> E mach B) (g : B -> E mach C) :
  typed R (m ≫= (fun a => f a ≫= g)) -> typed R ((m ≫= f) ≫= g).
Proof. intros H s Hs. specialize (H s Hs). revert H. unfold mbind, E_bind. by destruct (m s). Qed.

Lemma typed_ret_bind {A B} (R : B -> Prop) a (f : A -> E mach B) : typed R (f a) -> typed R (mret a ≫= f).
Proof. done. Qed.

Create HintDb typed.
#[export] Hint Resolve typed_panic_if typed_panic typed_nofuel typed_rd typed_wr : typed.

(** One step: a sequence is split at its first routine, whose lemma is in the
    database. *)
Ltac typed_step :=
  cbn beta;
  lazymatch goal with
  | |- typed _ (mbind _ (mbind _ _)) => apply typed_assoc
  | |- typed _ (mbind _ (mret _)) => apply typed_ret_bind
  | |- typed _ (mbind _ (panic _)) => apply (typed_bind any); [apply typed_panic|intros]
  | |- typed _ (mbind _ (if ?b then _ else _)) => destruct b eqn:?
  | |- typed _ (mbind _ _) => eapply typed_bind; [solve [eauto with typed]|let a := fresh "a" in let Ha := fresh "Ha" in intros a Ha; cbn beta in Ha]
  | |- typed _ (mret _) => apply typed_ret
  | |- typed _ (let _ := _ in _) => cbn zeta
  | |- typed _ (if ?b then _ else _) => destruct b eqn:?
  | |- typed _ (match ?n with O => _ | S _ => _ end) => destruct n
  | |- typed _ _ => solve [eauto with typed|eapply typed_any; eauto with typed]
  end.
Ltac typed_auto := repeat typed_step; eauto with typed.

(** ** Memory *)

Lemma copy_up_ok m d s n : bytes_ok m -> bytes_ok (copy_up m d s n).
Proof. revert m d s. induction n; intros; cbn [copy_up]; auto using mset_ok. Qed.

Lemma copy_down_ok m d s n : bytes_ok m -> bytes_ok (copy_down m d s n).
Proof. revert m d s. induction n; intros; cbn [copy_down]; auto using mset_ok. Qed.

Lemma typed_memmove dst src n : typed any (upd_mem (fun m => memmove m dst src n)).
Proof.
  apply typed_upd_mem. intros m Hm. unfold memmove. destruct (n =? 0); [done|]. destruct (_ && _); auto using copy_up_ok, copy_down_ok.
Qed.

Lemma typed_memset a c n : typed any (upd_mem (fun m => memset m a c n)).
Proof. apply typed_upd_mem. intros. by apply memset_ok. Qed.

Lemma copyinstr_page_ok m dst p max n m' g d x :
  bytes_ok m -> copyinstr_page m dst p max n = (m', g, d, x) -> bytes_ok m'.
Proof.
  revert m dst p max. induction n as [|n IH]; intros m dst p max Hm; cbn [copyinstr_page]; [by intros [= <- _ _ _]|].
  destruct (m p =? 0); [intros [= <- _ _ _]; by apply mset_ok|]. apply IH. by apply mset_ok.
Qed.

#[export] Hint Resolve typed_memmove typed_memset : typed.

(** ** The allocator *)

(** C types of results. *)
Definition word (v : Z) : Prop := 0 <= v < 2 ^ 64.
Definition status (v : Z) : Prop := v = 0 \/ v = -1.

Lemma typed_bump : typed any bump_freecnt.
Proof. intros s [Hb Hl Hc]. split; [done|]. split; [|done]. split; [done|done|]. cbn [g_freecnt set_freecnt]. unfold sint. pose proof (Z.mod_pos_bound (g_freecnt s + 1 + 2 ^ (32 - 1)) (2 ^ 32) ltac:(lia)). lia. Qed.

Lemma typed_modify f : (forall s, mach_typed s -> mach_typed (f s)) -> (forall s, held (f s) = held s) -> typed any (modify f).
Proof. intros Hf Hh s Hs. split; [done|]. split; [by apply Hf|apply Hh]. Qed.

Lemma typed_gets {A} (R : A -> Prop) f : (forall s, mach_typed s -> R (f s)) -> typed R (gets f).
Proof. intros Hf s Hs. split; [by apply Hf|done]. Qed.

#[export] Hint Resolve typed_bump : typed.

(** The common body of kalloc and kzalloc. *)
Lemma typed_kalloc : typed word kalloc.
Proof.
  unfold kalloc. intros s Hs.
  assert (Hm : typed word (r ← gets freelist; (if negb (r =? 0) then modify (fun s => set_freelist (load64 (mmem s) r) s) else mret tt);; mret r)).
  { eapply typed_bind; [apply (typed_gets word); intros x Hx; apply Hx|]. intros r Hr.
    eapply (typed_bind any); [|intros; by apply typed_ret]. destruct (negb _); [|by apply typed_ret].
    apply typed_modify; [|done]. intros x [Hb Hl Hc]. split; [done|by apply load64_range|done]. }
  pose proof (typed_locked word word L_kmem _ (fun r => (if negb (r =? 0) then upd_mem (fun m => memset m r 0 PGSIZE) else mret tt);; bump_freecnt;; mret r) Hm) as H.
  specialize (H ltac:(intros r Hr; typed_auto) s Hs). revert H.
  unfold mbind, E_bind. destruct (acquire L_kmem s) as [[] s1| | |]; try done. unfold gets.
  destruct (negb (freelist s1 =? 0)) eqn:Hr; cbn [mret E_ret modify]; rewrite Hr; exact (fun H => H).
Qed.

Lemma typed_kzalloc : typed word kzalloc.
Proof. exact typed_kalloc. Qed.

#[export] Hint Resolve typed_kalloc typed_kzalloc : typed.

Section Typed.
(** [extern char end[]]. *)
Context (kend : Z).
Hypothesis kend_pos : 0 <= kend.

Lemma typed_kfree pa : typed any (kfree kend pa).
Proof.
  unfold kfree. intros s Hs. unfold panic_if at 1. unfold mbind at 1, E_bind at 1.
  destruct (_ || (PHYSTOP <=? pa)) eqn:Hpa; [done|]. apply orb_false_iff in Hpa as [[_ Hlo]%orb_false_iff Hhi].
  apply Z.ltb_ge in Hlo. apply Z.leb_gt in Hhi.
  revert s Hs. fold (typed any (upd_mem (fun m => memset m pa 1 PGSIZE);; acquire L_kmem;; modify (fun s => set_freelist pa (set_mmem (store64 (mmem s) pa (freelist s)) s));; release L_kmem;; bump_freecnt)).
  eapply typed_bind; [apply typed_memset|]. intros _ _. apply (typed_locked any any); [|intros; apply typed_bump].
  apply typed_modify; [|done]. intros x [Hb Hl Hc]. unfold PHYSTOP, KERNBASE in Hhi. split; [by apply store64_ok|cbn [freelist set_freelist]; lia|done].
Qed.
#[local] Hint Resolve typed_kfree : typed.

(** ** Page tables *)

Lemma typed_walk_loop level pagetable va alloc : typed any (walk_loop level pagetable va alloc).
Proof. revert pagetable. induction level as [|level IH]; intros pagetable; cbn [walk_loop]; typed_auto. Qed.
#[local] Hint Resolve typed_walk_loop : typed.

Lemma typed_walk pagetable va alloc : typed any (walk pagetable va alloc).
Proof. unfold walk. typed_auto. Qed.
#[local] Hint Resolve typed_walk : typed.

Lemma word_PTE2PA v : word (PTE2PA v).
Proof. apply (wrap_range 64). lia. Qed.

Lemma word_0 : word 0.
Proof. by split. Qed.
#[local] Hint Resolve word_PTE2PA word_0 : typed.

Lemma typed_walkaddr pagetable va : typed word (walkaddr pagetable va).
Proof. unfold walkaddr. typed_auto. Qed.

Lemma status_0 : status 0.
Proof. by left. Qed.
Lemma status_m1 : status (-1).
Proof. by right. Qed.
#[local] Hint Resolve typed_walkaddr status_0 status_m1 : typed.

Lemma typed_mappages_loop fuel pagetable a last pa perm : typed status (mappages_loop fuel pagetable a last pa perm).
Proof. revert a pa. induction fuel as [|fuel IH]; intros a pa; cbn [mappages_loop]; typed_auto. Qed.
#[local] Hint Resolve typed_mappages_loop : typed.

Lemma typed_mappages pagetable va size pa perm : typed status (mappages pagetable va size pa perm).
Proof. unfold mappages. typed_auto. Qed.
#[local] Hint Resolve typed_mappages : typed.

Lemma typed_kvmmap kpgtbl va pa sz perm : typed any (kvmmap kpgtbl va pa sz perm).
Proof. unfold kvmmap. typed_auto. Qed.

Lemma typed_uvmunmap_loop fuel pagetable a stop do_free : typed any (uvmunmap_loop kend fuel pagetable a stop do_free).
Proof. revert a. induction fuel as [|fuel IH]; intros a; cbn [uvmunmap_loop]; typed_auto. Qed.
#[local] Hint Resolve typed_kvmmap typed_uvmunmap_loop : typed.

Lemma typed_uvmunmap pagetable va npages do_free : typed any (uvmunmap kend pagetable va npages do_free).
Proof. unfold uvmunmap. typed_auto. Qed.

Lemma typed_uvmcreate : typed word uvmcreate.
Proof. unfold uvmcreate. typed_auto. Qed.

Lemma typed_uvmfirst_loop fuel pagetable src sz i : typed any (uvmfirst_loop kend fuel pagetable src sz i).
Proof. revert i. induction fuel as [|fuel IH]; intros i; cbn [uvmfirst_loop]; typed_auto. Qed.
#[local] Hint Resolve typed_uvmunmap typed_uvmcreate typed_uvmfirst_loop : typed.

Lemma typed_uvmdealloc pagetable oldsz newsz : typed (fun r => r = oldsz \/ r = newsz) (uvmdealloc kend pagetable oldsz newsz).
Proof. unfold uvmdealloc. typed_auto. Qed.
#[local] Hint Resolve typed_uvmdealloc : typed.

Lemma typed_uvmalloc_loop fuel pagetable oldsz newsz xperm a :
  typed (fun r => r = 0 \/ r = newsz) (uvmalloc_loop kend fuel pagetable oldsz newsz xperm a).
Proof. revert a. induction fuel as [|fuel IH]; intros a; cbn [uvmalloc_loop]; typed_auto. Qed.

Lemma typed_uvmalloc pagetable oldsz newsz xperm :
  typed (fun r => r = 0 \/ r = oldsz \/ r = newsz) (uvmalloc kend pagetable oldsz newsz xperm).
Proof.
  unfold uvmalloc. destruct (newsz <? oldsz); [apply typed_ret; tauto|]. eapply typed_mono; [apply typed_uvmalloc_loop|]. naive_solver.
Qed.

Lemma typed_freewalk_loop rec n pagetable i : (forall p, typed any (rec p)) -> typed any (freewalk_loop rec n pagetable i).
Proof. intros Hrec. revert i. induction n as [|n IH]; intros i; cbn [freewalk_loop]; typed_auto. Qed.

Lemma typed_freewalk depth pagetable : typed any (freewalk kend depth pagetable).
Proof.
  revert pagetable. induction depth as [|depth IH]; intros pagetable; cbn [freewalk]; [typed_auto|].
  eapply typed_bind; [by apply typed_freewalk_loop|]. typed_auto.
Qed.
#[local] Hint Resolve typed_uvmalloc typed_freewalk : typed.

Lemma typed_uvmfree pagetable sz : typed any (uvmfree kend pagetable sz).
Proof. unfold uvmfree. typed_auto. Qed.

Lemma typed_uvmcopy_loop fuel old new sz i : typed status (uvmcopy_loop kend fuel old new sz i).
Proof. revert i. induction fuel as [|fuel IH]; intros i; cbn [uvmcopy_loop]; typed_auto. Qed.

Lemma typed_uvmclear pagetable va : typed any (uvmclear pagetable va).
Proof. unfold uvmclear. typed_auto. Qed.

Lemma typed_uvmadd pagetable va perm : typed any (uvmadd pagetable va perm).
Proof. unfold uvmadd. typed_auto. Qed.

Lemma typed_copyout_loop fuel pagetable dstva src len : typed status (copyout_loop fuel pagetable dstva src len).
Proof. revert dstva src len. induction fuel as [|fuel IH]; intros dstva src len; cbn [copyout_loop]; typed_auto. Qed.

Lemma typed_copyin_loop fuel pagetable dst srcva len : typed status (copyin_loop fuel pagetable dst srcva len).
Proof. revert dst srcva len. induction fuel as [|fuel IH]; intros dst srcva len; cbn [copyin_loop]; typed_auto. Qed.

Lemma typed_copyinstr_loop fuel pagetable dst srcva max : typed status (copyinstr_loop fuel pagetable dst srcva max).
Proof.
  revert dst srcva max. induction fuel as [|fuel IH]; intros dst srcva max; cbn [copyinstr_loop]; typed_auto.
  all: intros s Hs; unfold gets, mbind at 1, E_bind at 1; cbn beta match; destruct (copyinstr_page _ _ _ _ _) as [[[m' g] d] x] eqn:E.
  all: apply copyinstr_page_ok in E; [|apply Hs]; revert s Hs.
  all: eapply (typed_bind any); [apply typed_modify; [intros s [? ? ?]; by split|done]|intros _ _; typed_auto].
Qed.

Lemma typed_freerange_loop fuel p pa_end : typed any (freerange_loop kend fuel p pa_end).
Proof. revert p. induction fuel as [|fuel IH]; intros p; cbn [freerange_loop]; typed_auto. Qed.

Lemma typed_uvm_thread_trapframe pagetable i : typed word (uvm_thread_trapframe kend pagetable i).
Proof. unfold uvm_thread_trapframe. typed_auto. Qed.
#[local] Hint Resolve typed_uvmclear : typed.

Lemma PGROUNDUP_word sz : word (PGROUNDUP sz).
Proof.
  unfold word, PGROUNDUP. pose proof (wrap_range 64 (sz + PGSIZE - 1) ltac:(lia)) as Hw. set (x := wrap 64 _) in *. clearbody x.
  change (PGSIZE - 1) with (2 ^ 12 - 1). rewrite land_lnot_ones by lia. pose proof (Z.div_mod x (2 ^ 12) ltac:(lia)).
  pose proof (Z.mod_pos_bound x (2 ^ 12) ltac:(lia)). pose proof (Z.div_pos x (2 ^ 12) ltac:(lia) ltac:(lia)). lia.
Qed.

Lemma typed_map_ustack pagetable stack_low pages : typed word (map_ustack kend pagetable stack_low pages).
Proof.
  unfold map_ustack. cbn zeta. eapply typed_bind; [apply typed_uvmalloc|]. intros r Hr. typed_auto.
  destruct Hr as [->|[->| ->]]; [done|apply PGROUNDUP_word|by apply (wrap_range 64)].
Qed.

Lemma typed_mapstack n kpgtbl va i : typed any (mapstack n kpgtbl va i).
Proof. revert i. induction n as [|n IH]; intros i; cbn [mapstack]; typed_auto. Qed.
#[local] Hint Resolve typed_mapstack : typed.

Lemma typed_mapstacks_loop n kpgtbl i : typed any (mapstacks_loop n kpgtbl i).
Proof. revert i. induction n as [|n IH]; intros i; cbn [mapstacks_loop]; typed_auto. Qed.
#[local] Hint Resolve typed_mapstacks_loop : typed.

Lemma typed_kvmmake etext trampoline : typed word (kvmmake etext trampoline).
Proof. unfold kvmmake, thread_mapstacks. typed_auto. Qed.
#[local] Hint Resolve typed_uvmcopy_loop typed_copyout_loop typed_copyin_loop typed_copyinstr_loop typed_uvmfree typed_uvmadd typed_freerange_loop typed_uvm_thread_trapframe typed_map_ustack typed_kvmmake : typed.

(** ** Any sequence of calls *)

Context (etext trampoline : Z).

Inductive vm_call :=
  | Kalloc | Kzalloc | Kmalloc (size : Z) | Kcalloc (n size : Z) | Kfree (pa : Z) | Freerange (pa_start pa_end : Z)
  | Walk (pagetable va : Z) (alloc : bool) | Walkaddr (pagetable va : Z) | Mappages (pagetable va size pa perm : Z)
  | Uvmunmap (pagetable va npages : Z) (do_free : bool) | Uvmcreate | Uvmfirst (pagetable src sz : Z)
  | Uvmdealloc (pagetable oldsz newsz : Z) | Uvmalloc (pagetable oldsz newsz xperm : Z) | Uvmfree (pagetable sz : Z)
  | Uvmcopy (old new sz : Z) | Uvmclear (pagetable va : Z) | Uvmadd (pagetable va perm : Z)
  | Copyout (pagetable dstva src len : Z) | Copyin (pagetable dst srcva len : Z) | Copyinstr (pagetable dst srcva max : Z)
  | ThreadTrapframe (pagetable i : Z) | MapUstack (pagetable stack_low pages : Z) | Kvmmake.

(** A void routine counts as returning 0. *)
Definition void (m : E mach unit) : E mach Z := m;; mret 0.

Definition vm_run (c : vm_call) : E mach Z :=
  match c with
  | Kalloc => kalloc
  | Kzalloc => kzalloc
  | Kmalloc size => kmalloc size
  | Kcalloc n size => kcalloc n size
  | Kfree pa => void (kfree kend pa)
  | Freerange a b => void (freerange kend a b)
  | Walk pt va alloc => walk pt va alloc
  | Walkaddr pt va => walkaddr pt va
  | Mappages pt va size pa perm => mappages pt va size pa perm
  | Uvmunmap pt va n f => void (uvmunmap kend pt va n f)
  | Uvmcreate => uvmcreate
  | Uvmfirst pt src sz => void (uvmfirst kend pt src sz)
  | Uvmdealloc pt oldsz newsz => uvmdealloc kend pt oldsz newsz
  | Uvmalloc pt oldsz newsz xperm => uvmalloc kend pt oldsz newsz xperm
  | Uvmfree pt sz => void (uvmfree kend pt sz)
  | Uvmcopy old new sz => uvmcopy kend old new sz
  | Uvmclear pt va => void (uvmclear pt va)
  | Uvmadd pt va perm => void (uvmadd pt va perm)
  | Copyout pt dstva src len => copyout pt dstva src len
  | Copyin pt dst srcva len => copyin pt dst srcva len
  | Copyinstr pt dst srcva max => copyinstr pt dst srcva max
  | ThreadTrapframe pt i => uvm_thread_trapframe kend pt i
  | MapUstack pt lo pages => map_ustack kend pt lo pages
  | Kvmmake => kvmmake etext trampoline
  end.

(** What a call may return. *)
Definition result_type (c : vm_call) : Z -> Prop :=
  match c with
  | Kalloc | Kzalloc | Kmalloc _ | Kcalloc _ _ | Walkaddr _ _ | Uvmcreate | ThreadTrapframe _ _ | MapUstack _ _ _ | Kvmmake => word
  | Mappages _ _ _ _ _ | Uvmcopy _ _ _ | Copyout _ _ _ _ | Copyin _ _ _ _ | Copyinstr _ _ _ _ => status
  | Uvmdealloc _ oldsz newsz => fun r => r = oldsz \/ r = newsz
  | Uvmalloc _ oldsz newsz _ => fun r => r = 0 \/ r = oldsz \/ r = newsz
  | Walk _ _ _ => any
  | Kfree _ | Freerange _ _ | Uvmunmap _ _ _ _ | Uvmfirst _ _ _ | Uvmfree _ _ | Uvmclear _ _ | Uvmadd _ _ _ => eq 0
  end.

Lemma typed_void m : typed any m -> typed (eq 0) (void m).
Proof. intros Hm. eapply typed_bind; [exact Hm|]. intros. by apply typed_ret. Qed.

Lemma typed_run c : typed (result_type c) (vm_run c).
Proof.
  destruct c; cbn [vm_run result_type]; try apply typed_void;
    unfold kmalloc, kcalloc, freerange, uvmfirst, uvmcopy, copyout, copyin, copyinstr; typed_auto.
Qed.

Fixpoint vm_runs (cs : list vm_call) : E mach (list Z) :=
  match cs with
  | [] => mret []
  | c :: cs => r ← vm_run c; rs ← vm_runs cs; mret (r :: rs)
  end.

Lemma typed_runs cs : typed (Forall2 result_type cs) (vm_runs cs).
Proof.
  induction cs as [|c cs IH]; cbn [vm_runs]; [by apply typed_ret|].
  eapply typed_bind; [apply typed_run|]. intros r Hr. eapply typed_bind; [exact IH|]. intros rs Hrs. apply typed_ret. by constructor.
Qed.

End Typed.

(** No free page; the first page of the table at 0x1000 is the frame 0x4000. *)
Definition small_table : mem :=
  store64 (store64 (store64 (fun _ => 0) 0x1000 (Z.lor (PA2PTE 0x2000) PTE_V)) 0x2000 (Z.lor (PA2PTE 0x3000) PTE_V))
    0x3000 (Z.lor (PA2PTE 0x4000) (Z.lor PTE_V (Z.lor PTE_R PTE_U))).
Definition no_pages : mach := Mach small_table 0 0 [].
Definition small_calls : list vm_call := [Uvmcreate; Walkaddr 0x1000 0; Copyin 0x1000 0x5000 0 2; Copyout 0x1000 0x1000 0x5000 2; Uvmalloc 0x1000 0x1000 0x3000 PTE_W].

Lemma no_pages_typed : mach_typed no_pages.
Proof.
  split; [|done|done]. unfold no_pages, small_table. cbn [mmem].
  do 3 apply store64_ok. intros a. by split.
Qed.

