(* ===== verification/Spinlock.v ===== *)
(** * kernel/atomic/spinlock.c: spinlocks and interrupt nesting

    The routines are written for a hart [h] (the result of cpuid()) over the
    fields of all locks and the per-hart interrupt state.  [step] interleaves
    the memory accesses of the harts one at a time; mutual exclusion is proved
    by induction over its executions.  The last part proves that acquire and
    release, run without contention, are the [KTypes.acquire] and
    [KTypes.release] the other components call. *)
From S2P Require Import Prelude Mem KTypes.

(** struct cpu, the part spinlock.c uses, and the interrupt-enable bit. *)
Record hart := Hart {
  intr : bool;     (* intr_get() *)
  noff : Z;        (* depth of push_off nesting *)
  intena : bool;   (* interrupts enabled before push_off *)
}.

(** struct spinlock. *)
Record spinlock := Spin {
  locked : Z;
  lkcpu : option nat;   (* lk->cpu, None for 0 *)
}.

Record spin_state := SpinState {
  locks : lockid -> spinlock;
  harts : nat -> hart;
}.

Definition set_lock (l : lockid) (v : spinlock) (s : spin_state) : spin_state :=
  SpinState (<[l := v]> (locks s)) (harts s).
Definition set_hart (h : nat) (v : hart) (s : spin_state) : spin_state :=
  SpinState (locks s) (<[h := v]> (harts s)).

Section Routines.
(** cpuid(): the hart that runs the routine; acquire keeps interrupts off, so
    the thread does not move to another hart. *)
Context (h : nat).

Definition initlock (l : lockid) : E spin_state unit := modify (set_lock l (Spin 0 None)).

Definition push_off_hart (c : hart) : hart :=
  Hart false (i32 (noff c + 1)) (if noff c =? 0 then intr c else intena c).

Definition push_off : E spin_state unit :=
  modify (fun s => set_hart h (push_off_hart (harts s h)) s).

Definition pop_off : E spin_state unit :=
  c ← gets (fun s => harts s h);
  panic_if (intr c) "pop_off - interruptible";;
  panic_if (noff c <? 1) "pop_off";;
  let n := noff c - 1 in
  modify (set_hart h (Hart (if (n =? 0) && intena c then true else intr c) n (intena c))).

Definition holding (l : lockid) (s : spin_state) : bool :=
  negb (locked (locks s l) =? 0) && bool_decide (lkcpu (locks s l) = Some h).

(** [while(__sync_lock_test_and_set(&lk->locked, 1) != 0);] *)
Fixpoint spin (fuel : nat) (l : lockid) : E spin_state unit :=
  match fuel with
  | O => nofuel
  | S fuel =>
    old ← gets (fun s => locked (locks s l));
    modify (fun s => set_lock l (Spin 1 (lkcpu (locks s l))) s);;
    if old =? 0 then mret tt else spin fuel l
  end.

Definition acquire (fuel : nat) (l : lockid) : E spin_state unit :=
  push_off;;
  b ← gets (holding l);
  panic_if b "acquire";;
  spin fuel l;;
  modify (fun s => set_lock l (Spin (locked (locks s l)) (Some h)) s).

Definition release (l : lockid) : E spin_state unit :=
  b ← gets (holding l);
  panic_if (negb b) "release";;
  modify (fun s => set_lock l (Spin (locked (locks s l)) None) s);;
  modify (fun s => set_lock l (Spin 0 (lkcpu (locks s l))) s);;
  pop_off.
End Routines.

(** ** Interleaving of harts *)

(** Where a hart is inside acquire or release: the next shared access it
    performs.  [Run] is outside both. *)
Inductive pc :=
| Run
| AHold1 (l : lockid)   (* acquire: holding reads lk->locked *)
| AHold2 (l : lockid)   (* acquire: holding reads lk->cpu *)
| ASpin (l : lockid)    (* acquire: test-and-set *)
| AOwn (l : lockid)     (* acquire: lk->cpu = mycpu() *)
| RHold1 (l : lockid)   (* release: holding reads lk->locked *)
| RHold2 (l : lockid)
| RCpu (l : lockid)     (* release: lk->cpu = 0 *)
| RClear (l : lockid)   (* release: __sync_lock_release *)
| RPop                  (* release: pop_off *)
| Panicked.

Record config := Config { st : spin_state; pcs : nat -> pc }.

Definition goto (h : nat) (p : pc) (s : spin_state) (c : config) : config := Config s (<[h := p]> (pcs c)).

(** One access by hart [h]. *)
Inductive step : config -> config -> Prop :=
| st_acquire c h l s' :
    pcs c h = Run -> push_off h (st c) = Done tt s' -> step c (goto h (AHold1 l) s' c)
| st_ahold1 c h l :
    pcs c h = AHold1 l ->
    step c (goto h (if locked (locks (st c) l) =? 0 then ASpin l else AHold2 l) (st c) c)
| st_ahold2 c h l :
    pcs c h = AHold2 l ->
    step c (goto h (if bool_decide (lkcpu (locks (st c) l) = Some h) then Panicked else ASpin l) (st c) c)
| st_spin c h l :
    pcs c h = ASpin l ->
    step c (goto h (if locked (locks (st c) l) =? 0 then AOwn l else ASpin l)
                 (set_lock l (Spin 1 (lkcpu (locks (st c) l))) (st c)) c)
| st_own c h l :
    pcs c h = AOwn l ->
    step c (goto h Run (set_lock l (Spin (locked (locks (st c) l)) (Some h)) (st c)) c)
| st_release c h l : pcs c h = Run -> step c (goto h (RHold1 l) (st c) c)
| st_rhold1 c h l :
    pcs c h = RHold1 l ->
    step c (goto h (if locked (locks (st c) l) =? 0 then Panicked else RHold2 l) (st c) c)
| st_rhold2 c h l :
    pcs c h = RHold2 l ->
    step c (goto h (if bool_decide (lkcpu (locks (st c) l) = Some h) then RCpu l else Panicked) (st c) c)
| st_rcpu c h l :
    pcs c h = RCpu l ->
    step c (goto h (RClear l) (set_lock l (Spin (locked (locks (st c) l)) None) (st c)) c)
| st_rclear c h l :
    pcs c h = RClear l ->
    step c (goto h RPop (set_lock l (Spin 0 (lkcpu (locks (st c) l))) (st c)) c)
| st_rpop c h s' :
    pcs c h = RPop -> pop_off h (st c) = Done tt s' -> step c (goto h Run s' c)
| st_rpop_panic c h msg s' :
    pcs c h = RPop -> pop_off h (st c) = Panic msg s' -> step c (goto h Panicked s' c).

(** All locks free, no hart inside acquire or release. *)
Definition initial (c : config) : Prop :=
  (forall l, locks (st c) l = Spin 0 None) /\ (forall h, pcs c h = Run).

(** Hart [h] is between a successful test-and-set on [l] and the store that
    frees it. *)
Definition holds (c : config) (h : nat) (l : lockid) : Prop :=
  lkcpu (locks (st c) l) = Some h \/ pcs c h = AOwn l \/ pcs c h = RClear l.

(** A lock's word says whether it has a holder, and it has at most one; the
    owner recorded in it is one that holds it and is not at [AOwn] or
    [RClear]. *)
Record lock_inv (c : config) (l : lockid) : Prop := {
  li_word : locked (locks (st c) l) = 0 \/ locked (locks (st c) l) = 1;
  li_free : locked (locks (st c) l) = 0 -> forall h, ~ holds c h l;
  li_one : forall h h', holds c h l -> holds c h' l -> h = h';
  li_own : forall h, pcs c h = AOwn l \/ pcs c h = RClear l -> lkcpu (locks (st c) l) = None;
  li_rcpu : forall h, pcs c h = RCpu l -> lkcpu (locks (st c) l) = Some h;
}.

Lemma push_off_locks h s s' : push_off h s = Done tt s' -> locks s' = locks s.
Proof. intros [= <-]. done. Qed.

Lemma pop_off_locks h s : match pop_off h s with Done _ s' | Panic _ s' => locks s' = locks s | _ => False end.
Proof.
  unfold pop_off, mbind, E_bind, gets, panic_if, panic, modify, mret, E_ret.
  destruct (intr (harts s h)); [done|]. by destruct (noff (harts s h) <? 1).
Qed.

(** A step that neither changes lock [l] nor moves [h] into or out of a
    position that matters for [l] keeps the invariant. *)
Definition pc_lock (p : pc) : option lockid :=
  match p with AOwn l | RClear l | RCpu l => Some l | _ => None end.

Lemma lock_inv_frame c h p s' l :
  lock_inv c l -> locks s' l = locks (st c) l ->
  pc_lock (pcs c h) <> Some l -> pc_lock p <> Some l -> lock_inv (goto h p s' c) l.
Proof.
  intros [Hw Hf H1 Ho Hr] Hl Hp Hp'.
  assert (Hpc : forall h', pcs (goto h p s' c) h' = AOwn l \/ pcs (goto h p s' c) h' = RClear l ->
            pcs c h' = AOwn l \/ pcs c h' = RClear l).
  { intros h'. simpl. destruct (decide (h' = h)) as [->|].
    - rewrite fn_lookup_insert. intros [->| ->]; by destruct Hp'.
    - by rewrite fn_lookup_insert_ne. }
  assert (Hh : forall h', holds (goto h p s' c) h' l -> holds c h' l).
  { intros h' [H|H]; [left; simpl in H; by rewrite Hl in H|right; by apply Hpc]. }
  split; simpl; rewrite ?Hl; eauto.
  - intros Hz h' Hh'. by apply (Hf Hz h'), Hh.
  - intros h'. destruct (decide (h' = h)) as [->|]; [rewrite fn_lookup_insert; intros ->; by destruct Hp'|].
    rewrite fn_lookup_insert_ne by done. apply Hr.
Qed.

Lemma locks_set l l' v s : l' <> l -> locks (set_lock l v s) l' = locks s l'.
Proof. intros. unfold set_lock. simpl. by rewrite fn_lookup_insert_ne. Qed.
Lemma locks_set_eq l v s : locks (set_lock l v s) l = v.
Proof. unfold set_lock. simpl. by rewrite fn_lookup_insert. Qed.

Lemma harts_set h h' v s : h' <> h -> harts (set_hart h v s) h' = harts s h'.
Proof. intros. unfold set_hart. simpl. by rewrite fn_lookup_insert_ne. Qed.
Lemma harts_set_eq h v s : harts (set_hart h v s) h = v.
Proof. unfold set_hart. simpl. by rewrite fn_lookup_insert. Qed.

Ltac at_hart h' h :=
  destruct (decide (h' = h)) as [->|];
  [rewrite ?fn_lookup_insert in * | rewrite ?fn_lookup_insert_ne in * by done].

(** Winning the test-and-set. *)
Lemma lock_inv_win c h l :
  lock_inv c l -> pcs c h = ASpin l -> locked (locks (st c) l) = 0 ->
  lock_inv (goto h (AOwn l) (set_lock l (Spin 1 (lkcpu (locks (st c) l))) (st c)) c) l.
Proof.
  intros [Hw Hf H1 Ho Hr] Hpc Hz.
  assert (Hn : lkcpu (locks (st c) l) = None).
  { destruct (lkcpu (locks (st c) l)) eqn:E; [|done]. destruct (Hf Hz n). by left. }
  assert (Hh : forall h', holds (goto h (AOwn l) (set_lock l (Spin 1 (lkcpu (locks (st c) l))) (st c)) c) h' l -> h' = h).
  { intros h'. unfold holds, goto. cbn [st pcs]. rewrite locks_set_eq. cbn [lkcpu]. rewrite Hn. intros H.
    destruct (decide (h' = h)) as [|Hne]; [done|]. rewrite fn_lookup_insert_ne in H by done.
    destruct (Hf Hz h'). unfold holds. destruct H as [|]; [done|by right]. }
  split.
  - cbn [st goto]. rewrite locks_set_eq. by right.
  - cbn [st goto]. rewrite locks_set_eq. done.
  - intros h1 h2 ->%Hh ->%Hh. done.
  - intros h' _. cbn [st goto]. by rewrite locks_set_eq.
  - intros h'. cbn [pcs goto]. at_hart h' h; [done|]. intros H. by rewrite (Hr _ H) in Hn.
Qed.

(** A failed test-and-set stores the value already there. *)
Lemma lock_inv_spin c h l :
  lock_inv c l -> pcs c h = ASpin l -> locked (locks (st c) l) <> 0 ->
  lock_inv (goto h (ASpin l) (set_lock l (Spin 1 (lkcpu (locks (st c) l))) (st c)) c) l.
Proof.
  intros Hi Hpc Hz. apply lock_inv_frame; [done| |by rewrite Hpc|done].
  rewrite locks_set_eq. destruct (li_word _ _ Hi) as [|H1]; [done|].
  destruct (locks (st c) l) as [w cpu]. simpl in *. by rewrite H1.
Qed.

Lemma lock_inv_own c h l :
  lock_inv c l -> pcs c h = AOwn l ->
  lock_inv (goto h Run (set_lock l (Spin (locked (locks (st c) l)) (Some h)) (st c)) c) l.
Proof.
  intros [Hw Hf H1 Ho Hr] Hpc. assert (holds c h l) as Hhold by (right; by left).
  assert (Hother : forall h', h' <> h -> ~ holds c h' l) by (intros h' Hne Hh'; apply Hne, H1; done).
  assert (Hh : forall h', holds (goto h Run (set_lock l (Spin (locked (locks (st c) l)) (Some h)) (st c)) c) h' l -> h' = h).
  { intros h'. unfold holds, goto. cbn [st pcs]. rewrite locks_set_eq. cbn [lkcpu]. intros H.
    destruct (decide (h' = h)) as [|Hne]; [done|]. rewrite fn_lookup_insert_ne in H by done.
    destruct H as [[=]|H]; [done|]. destruct (Hother h' Hne). by right. }
  split.
  - cbn [st goto]. by rewrite locks_set_eq.
  - cbn [st goto]. rewrite locks_set_eq. intros Hz. by destruct (Hf Hz h).
  - intros h1 h2 ->%Hh ->%Hh. done.
  - intros h'. cbn [pcs goto]. at_hart h' h; [by intros [|]|]. intros H. destruct (Hother h'); [done|by right].
  - intros h'. cbn [pcs goto]. at_hart h' h; [done|]. intros H. pose proof (Ho h (or_introl Hpc)) as Hc.
    by rewrite (Hr _ H) in Hc.
Qed.

Lemma lock_inv_rcpu c h l :
  lock_inv c l -> pcs c h = RCpu l ->
  lock_inv (goto h (RClear l) (set_lock l (Spin (locked (locks (st c) l)) None) (st c)) c) l.
Proof.
  intros [Hw Hf H1 Ho Hr] Hpc. assert (holds c h l) as Hhold by (left; by apply Hr).
  assert (Hother : forall h', h' <> h -> ~ holds c h' l) by (intros h' Hne Hh'; apply Hne, H1; done).
  assert (Hh : forall h', holds (goto h (RClear l) (set_lock l (Spin (locked (locks (st c) l)) None) (st c)) c) h' l -> h' = h).
  { intros h'. unfold holds, goto. cbn [st pcs]. rewrite locks_set_eq. cbn [lkcpu]. intros H.
    destruct (decide (h' = h)) as [|Hne]; [done|]. rewrite fn_lookup_insert_ne in H by done.
    destruct H as [|H]; [done|]. destruct (Hother h' Hne). by right. }
  split.
  - cbn [st goto]. by rewrite locks_set_eq.
  - cbn [st goto]. rewrite locks_set_eq. intros Hz. by destruct (Hf Hz h).
  - intros h1 h2 ->%Hh ->%Hh. done.
  - intros h' _. cbn [st goto]. by rewrite locks_set_eq.
  - intros h'. cbn [pcs goto]. at_hart h' h; [done|]. intros H.
    destruct (Hother h'); [done|]. left. by apply Hr.
Qed.

Lemma lock_inv_rclear c h l :
  lock_inv c l -> pcs c h = RClear l ->
  lock_inv (goto h RPop (set_lock l (Spin 0 (lkcpu (locks (st c) l))) (st c)) c) l.
Proof.
  intros [Hw Hf H1 Ho Hr] Hpc. assert (holds c h l) as Hhold by (right; by right).
  pose proof (Ho h (or_intror Hpc)) as Hn.
  assert (Hother : forall h', h' <> h -> ~ holds c h' l) by (intros h' Hne Hh'; apply Hne, H1; done).
  assert (Hh : forall h', ~ holds (goto h RPop (set_lock l (Spin 0 (lkcpu (locks (st c) l))) (st c)) c) h' l).
  { intros h'. unfold holds, goto. cbn [st pcs]. rewrite locks_set_eq. cbn [lkcpu]. rewrite Hn. intros H.
    at_hart h' h; [by destruct H as [|[|]]|]. destruct H as [|H]; [done|]. apply (Hother h'); [done|by right]. }
  split.
  - cbn [st goto]. rewrite locks_set_eq. by left.
  - intros _. apply Hh.
  - intros h1 h2 H. by apply Hh in H.
  - intros h' _. cbn [st goto]. by rewrite locks_set_eq.
  - intros h'. cbn [pcs goto]. at_hart h' h; [done|]. intros H. by rewrite (Hr _ H) in Hn.
Qed.

(** Entering release with the lock recorded as owned by the hart. *)
Lemma lock_inv_rhold2 c h l :
  lock_inv c l -> pcs c h = RHold2 l -> lkcpu (locks (st c) l) = Some h -> lock_inv (goto h (RCpu l) (st c) c) l.
Proof.
  intros [Hw Hf H1 Ho Hr] Hpc Hcpu.
  assert (Hh : forall h', holds (goto h (RCpu l) (st c) c) h' l -> holds c h' l).
  { intros h' [|H]; [by left|]. cbn [pcs goto] in H. right. at_hart h' h; [by destruct H|done]. }
  split; cbn [st goto pcs]; eauto.
  - intros Hz h' ?%Hh. by apply (Hf Hz h').
  - intros h'. at_hart h' h; [by intros [|]|]. apply Ho.
  - intros h'. at_hart h' h; [done|]. apply Hr.
Qed.

Lemma lock_inv_step c c' : step c c' -> (forall l, lock_inv c l) -> forall l, lock_inv c' l.
Proof.
  intros Hs Hi l. destruct Hs as [c h l0 s' Hpc Hr|c h l0 Hpc|c h l0 Hpc|c h l0 Hpc|c h l0 Hpc|c h l0 Hpc
    |c h l0 Hpc|c h l0 Hpc|c h l0 Hpc|c h l0 Hpc|c h s' Hpc Hr|c h msg s' Hpc Hr].
  - apply lock_inv_frame; [done|by rewrite (push_off_locks h (st c) s' Hr)|by rewrite Hpc|done].
  - apply lock_inv_frame; [done|done|by rewrite Hpc|by case_match].
  - apply lock_inv_frame; [done|done|by rewrite Hpc|by case_match].
  - destruct (decide (l = l0)) as [->|Hne].
    + destruct (Z.eqb_spec (locked (locks (st c) l0)) 0); [by apply lock_inv_win|by apply lock_inv_spin].
    + apply lock_inv_frame; [done|by rewrite locks_set|by rewrite Hpc|case_match; simpl; congruence].
  - destruct (decide (l = l0)) as [->|Hne]; [by apply lock_inv_own|].
    apply lock_inv_frame; [done|by rewrite locks_set|rewrite Hpc; simpl; congruence|done].
  - apply lock_inv_frame; [done|done|by rewrite Hpc|done].
  - apply lock_inv_frame; [done|done|by rewrite Hpc|by case_match].
  - destruct (decide (l = l0)) as [->|Hne].
    + case_bool_decide; [by apply lock_inv_rhold2|apply lock_inv_frame; [done|done|by rewrite Hpc|done]].
    + apply lock_inv_frame; [done|done|by rewrite Hpc|case_match; simpl; congruence].
  - destruct (decide (l = l0)) as [->|Hne]; [by apply lock_inv_rcpu|].
    apply lock_inv_frame; [done|by rewrite locks_set|rewrite Hpc; simpl; congruence|simpl; congruence].
  - destruct (decide (l = l0)) as [->|Hne]; [by apply lock_inv_rclear|].
    apply lock_inv_frame; [done|by rewrite locks_set|rewrite Hpc; simpl; congruence|done].
  - pose proof (pop_off_locks h (st c)) as Hl. rewrite Hr in Hl.
    apply lock_inv_frame; [done|by rewrite Hl|by rewrite Hpc|done].
  - pose proof (pop_off_locks h (st c)) as Hl. rewrite Hr in Hl.
    apply lock_inv_frame; [done|by rewrite Hl|by rewrite Hpc|done].
Qed.

Lemma initial_lock_inv c l : initial c -> lock_inv c l.
Proof.
  intros [Hl Hp]. assert (forall h, ~ holds c h l) as Hh.
  { intros h. unfold holds. rewrite Hl, Hp. intros [|[|]]; done. }
  split; rewrite ?Hl; auto.
  - by intros h h' ?%Hh.
  - intros h. by rewrite Hp.
Qed.

Lemma reachable_inv c0 c l : initial c0 -> rtc step c0 c -> lock_inv c l.
Proof.
  intros H0 Hr. assert (forall l, lock_inv c0 l) as Hi by (intros; by apply initial_lock_inv).
  clear H0. revert l. induction Hr as [|c1 c2 c3 Hs _ IH]; [done|]. apply IH. by eapply lock_inv_step.
Qed.

(** ** Interrupt nesting *)

(** The state of a hart as code outside push_off/pop_off sees it: intena only
    has a meaning inside a nesting. *)
Definition same_mode (c c' : hart) : Prop :=
  intr c' = intr c /\ noff c' = noff c /\ (0 < noff c -> intena c' = intena c).

(** Interrupts are off inside a nesting. *)
Definition hart_ok (c : hart) : Prop := 0 <= noff c /\ (0 < noff c -> intr c = false).

Lemma wp_pop_off h c s :
  hart_ok c -> noff c < 2 ^ 31 - 1 -> same_mode (push_off_hart c) (harts s h) ->
  wp (pop_off h) (fun _ s' => same_mode c (harts s' h) /\ locks s' = locks s /\
    forall k, k <> h -> harts s' k = harts s k) s.
Proof.
  intros [Hn Hi] Hmax (H1 & H2 & H3). cbn [push_off_hart intr noff intena] in *.
  rewrite sint_small in H2, H3 by lia. unfold pop_off. apply wp_bind, wp_gets.
  apply wp_bind, wp_panic_if; [done|]. apply wp_bind, wp_panic_if; [apply Z.ltb_ge; lia|].
  apply wp_modify. split_and!; [|done|intros k Hk; by apply harts_set]. rewrite harts_set_eq, H1, H2, H3 by lia.
  replace (noff c + 1 - 1) with (noff c) by lia. unfold same_mode. cbn [intr noff intena].
  destruct (Z.eqb_spec (noff c) 0) as [Hz|]; cbn [andb].
  - rewrite Hz. split_and!; [by destruct (intr c)|done|lia].
  - rewrite Hi by lia. done.
Qed.

(** ** acquire and release without contention *)

Lemma holding_true h l s : holding h l s = true <-> locked (locks s l) <> 0 /\ lkcpu (locks s l) = Some h.
Proof.
  unfold holding. rewrite andb_true_iff, negb_true_iff, Z.eqb_neq, bool_decide_eq_true. done.
Qed.

(** The locks hart [h] holds are those of the list [hs]. *)
Definition held_rel (h : nat) (s : spin_state) (hs : list lockid) : Prop :=
  (forall l, l ∈ hs <-> holding h l s = true) /\ hart_ok (harts s h) /\ noff (harts s h) < 2 ^ 31 - 1.

Lemma wp_acquire_free h l fuel s :
  locked (locks s l) = 0 ->
  wp (acquire h (S fuel) l) (fun _ s' => locks s' l = Spin 1 (Some h) /\
    (forall l', l' <> l -> locks s' l' = locks s l') /\
    harts s' h = push_off_hart (harts s h) /\ forall k, k <> h -> harts s' k = harts s k) s.
Proof.
  intros Hl. unfold acquire. apply wp_bind, wp_modify, wp_bind, wp_gets, wp_bind, wp_panic_if.
  { unfold holding. simpl. by rewrite Hl. }
  cbn [spin]. apply wp_bind, wp_bind, wp_gets. cbn [locks set_hart]. rewrite Hl.
  apply wp_bind, wp_modify. cbn [Z.eqb]. apply wp_ret, wp_modify. split_and!.
  - by rewrite !locks_set_eq.
  - intros l' Hne. by rewrite !locks_set.
  - apply harts_set_eq.
  - intros k Hk. unfold set_lock. cbn [harts]. by apply harts_set.
Qed.

Lemma wp_release_held h l s :
  holding h l s = true -> forall c, hart_ok c -> noff c < 2 ^ 31 - 1 -> same_mode (push_off_hart c) (harts s h) ->
  wp (release h l) (fun _ s' => locks s' l = Spin 0 None /\
    (forall l', l' <> l -> locks s' l' = locks s l') /\
    same_mode c (harts s' h) /\ forall k, k <> h -> harts s' k = harts s k) s.
Proof.
  intros Hh c Hc Hmax Hm. unfold release. apply wp_bind, wp_gets. rewrite Hh.
  apply wp_bind, wp_panic_if; [done|]. apply wp_bind, wp_modify, wp_bind, wp_modify.
  eapply wp_mono; [by apply (wp_pop_off h c)|]. cbn beta. intros _ s' (Hm' & Hl & Hk). split_and!.
  - rewrite Hl. by rewrite !locks_set_eq.
  - intros l' Hne. rewrite Hl. by rewrite !locks_set.
  - done.
  - intros k Hne. by rewrite Hk.
Qed.

(** Nested critical sections, innermost body last. *)
Fixpoint nest (h : nat) (n : nat) : E spin_state bool :=
  match n with
  | O => gets (fun s => intr (harts s h))
  | S n => push_off h;; b ← nest h n; pop_off h;; mret b
  end.

Lemma wp_nest h n s :
  hart_ok (harts s h) -> noff (harts s h) + Z.of_nat n < 2 ^ 31 ->
  wp (nest h n) (fun b s' => same_mode (harts s h) (harts s' h) /\ locks s' = locks s /\
    b = match n with O => intr (harts s h) | _ => false end) s.
Proof.
  revert s. induction n as [|n IH]; intros s Hok Hn; cbn [nest].
  { by apply wp_gets. }
  apply wp_bind, wp_modify. apply wp_bind. eapply wp_mono; [apply IH|].
  - rewrite harts_set_eq. destruct Hok. split; cbn [push_off_hart noff intr]; [|done]. rewrite sint_small; lia.
  - rewrite harts_set_eq. cbn [push_off_hart noff]. destruct Hok. rewrite sint_small; lia.
  - cbn beta. intros b s1 (Hm & Hl & Hb). rewrite harts_set_eq in Hm, Hb. apply wp_bind.
    eapply wp_mono; [apply (wp_pop_off h (harts s h)); [done|lia|done]|].
    cbn beta. intros _ s2 (Hm2 & Hl2 & _). apply wp_ret. split_and!; [done|by rewrite Hl2, Hl|].
    rewrite Hb. by destruct n.
Qed.

(** ** Properties *)

(** C2: mutual exclusion.  In every interleaving of the harts' accesses, at
    most one hart is between winning the test-and-set of a lock and the store
    that frees it; in particular two harts never both see holding() true. *)
Theorem spinlock_mutual_exclusion (c0 c : config) (l : lockid) (h1 h2 : nat) :
  initial c0 -> rtc step c0 c ->
  (holds c h1 l -> holds c h2 l -> h1 = h2) /\
  (holding h1 l (st c) = true -> holding h2 l (st c) = true -> h1 = h2).
Proof.
  intros H0 Hr. pose proof (li_one _ _ (reachable_inv c0 c l H0 Hr)) as H1. split; [apply H1|].
  intros [_ Ha]%holding_true [_ Hb]%holding_true. apply H1; by left.
Qed.

(** Interrupt nesting.  Any number of nested push_off/pop_off pairs runs
    without panic, keeps interrupts off inside, and restores the interrupt
    state and depth that held before. *)
Theorem push_pop_off_nesting (h n : nat) (s : spin_state) :
  hart_ok (harts s h) -> noff (harts s h) + Z.of_nat n < 2 ^ 31 ->
  wp (nest h n) (fun b s' => same_mode (harts s h) (harts s' h) /\
    b = match n with O => intr (harts s h) | _ => false end) s.
Proof. intros. eapply wp_mono; [by apply wp_nest|]. cbn beta. tauto. Qed.

(** without contention acquire and release implement the abstract lock
    operations on the set of locks a hart holds: acquire of a lock held by no
    hart succeeds at the first test-and-set and adds it, acquire of a lock this
    hart holds panics, release of a held lock frees it and restores the
    interrupt state, and release of a lock it does not hold panics. *)
Theorem acquire_release_refine (h fuel : nat) (l : lockid) (s : spin_state) (hs : list lockid) :
  held_rel h s hs -> (l ∉ hs -> locks s l = Spin 0 None) ->
  match acquire_held l hs with
  | None => exists s', acquire h (S fuel) l s = Panic "acquire" s'
  | Some hs' => wp (acquire h (S fuel) l) (fun _ s1 =>
      (forall l', l' ∈ hs' <-> holding h l' s1 = true) /\
      wp (release h l) (fun _ s2 => (forall l', locks s2 l' = locks s l') /\ same_mode (harts s h) (harts s2 h)) s1) s
  end /\
  match release_held l hs with
  | None => exists s', release h l s = Panic "release" s'
  | Some _ => holding h l s = true
  end.
Proof.
  intros (Hhs & Hok & Hmax) Hfree. unfold acquire_held, release_held. case_bool_decide as Hin.
  - assert (holding h l s = true) as Hh by by apply Hhs. split; [|done].
    exists (set_hart h (push_off_hart (harts s h)) s). unfold acquire.
    erewrite bind_done by reflexivity. erewrite bind_done by reflexivity.
    unfold holding in *. cbn [locks set_hart]. by rewrite Hh.
  - specialize (Hfree Hin). split.
    + eapply wp_mono; [apply wp_acquire_free; by rewrite Hfree|]. cbn beta.
      intros _ s1 (Hl & Ho & Hh & _). split.
      * intros l'. destruct (decide (l' = l)) as [->|Hne].
        { rewrite holding_true, Hl, elem_of_cons. simpl. naive_solver. }
        rewrite holding_true, (Ho l' Hne), <- holding_true, <- Hhs, elem_of_cons. naive_solver.
      * eapply wp_mono; [apply (wp_release_held h l s1) with (c := harts s h)|]; try done.
        { apply holding_true. by rewrite Hl. }
        { by rewrite Hh. }
        cbn beta. intros _ s2 (Hl2 & Ho2 & Hm & _). split; [|done]. intros l'.
        destruct (decide (l' = l)) as [->|Hne]; [by rewrite Hl2, Hfree|by rewrite Ho2, Ho].
    + exists s. unfold release. erewrite bind_done by reflexivity.
      assert (holding h l s = false) as Hh.
      { destruct (holding h l s) eqn:E; [|done]. by apply Hhs in E. }
      by rewrite Hh.
Qed.

(** ** Witnesses *)

Definition idle : spin_state := SpinState (fun _ => Spin 0 None) (fun _ => Hart true 0 false).
Definition all_run : config := Config idle (fun _ => Run).

Lemma all_run_initial : initial all_run.
Proof. done. Qed.

(** Hart 0 wins the lock of the page allocator. *)
Lemma spinlock_mutual_exclusion_witness :
  exists c, rtc step all_run c /\ holds c 0%nat L_kmem /\ (holds c 1%nat L_kmem -> 0%nat = 1%nat).
Proof.
  eexists. split; [|split].
  - eapply rtc_l; [eapply (st_acquire _ 0 L_kmem); reflexivity|].
    eapply rtc_l; [eapply (st_ahold1 _ 0 L_kmem); reflexivity|].
    eapply rtc_l; [eapply (st_spin _ 0 L_kmem); reflexivity|].
    apply rtc_refl.
  - right. left. reflexivity.
  - intros H. refine (proj1 (spinlock_mutual_exclusion all_run _ L_kmem 0 1 all_run_initial _) _ H).
    + eapply rtc_l; [eapply (st_acquire _ 0 L_kmem); reflexivity|].
      eapply rtc_l; [eapply (st_ahold1 _ 0 L_kmem); reflexivity|].
      eapply rtc_l; [eapply (st_spin _ 0 L_kmem); reflexivity|].
      apply rtc_refl.
    + right. left. reflexivity.
Defined.

Lemma push_pop_off_nesting_witness : wp (nest 0 3) (fun b _ => b = false) idle.
Proof.
  eapply wp_mono; [apply (push_pop_off_nesting 0 3 idle)|].
  - split; simpl; [lia|done].
  - simpl. lia.
  - cbn beta. by intros b s' [_ ->].
Defined.

Lemma acquire_release_refine_witness :
  wp (acquire 0 1 L_kmem) (fun _ s1 => holding 0 L_kmem s1 = true) idle.
Proof.
  pose proof (acquire_release_refine 0 0 L_kmem idle []) as H.
  assert (held_rel 0 idle []) as Hr.
  { split; [|split; [split; done|done]]. intros l. rewrite holding_true. simpl.
    split; [by intros ?%not_elem_of_nil|by intros [? _]]. }
  destruct (H Hr ltac:(done)) as [Ha _]. eapply wp_mono; [exact Ha|].
  cbn beta. intros _ s1 [Hs _]. apply Hs. apply elem_of_cons. by left.
Defined.
