(* ===== verification/ListHead.v ===== *)
(** * kernel/include/list.h: circular doubly linked lists

    [struct list_head] nodes live in a heap indexed by symbolic addresses; an
    access through NULL or to an address with no node faults.  The operations
    follow the header store by store.  [ring h hd xs] says that the list with
    head [hd] links exactly the entries [xs], in order; the lemmas show each
    operation as the operation on [xs] it stands for, and that nodes outside
    the list keep their links. *)
From S2P Require Import Prelude.

(** struct list_head: [None] is NULL. *)
Record list_head (P : Type) := Node { next : option P; prev : option P }.
Arguments Node {P} next prev.
Arguments next {P} l.
Arguments prev {P} l.

Section Lists.
Context {P : Type} `{Countable P}.

Abbreviation heap := (gmap P (list_head P)).

(** [p->next], [p->prev], and stores to them, through a pointer. *)
Definition node_at (p : P) : E heap (list_head P) := fun h => deref (h !! p) h.
Definition rd_next (p : option P) : E heap (option P) :=
  p ← deref p; n ← node_at p; mret (next n).
Definition rd_prev (p : option P) : E heap (option P) :=
  p ← deref p; n ← node_at p; mret (prev n).
Definition wr_next (p v : option P) : E heap unit :=
  p ← deref p; n ← node_at p; modify (<[p := Node v (prev n)]>).
Definition wr_prev (p v : option P) : E heap unit :=
  p ← deref p; n ← node_at p; modify (<[p := Node (next n) v]>).

Definition INIT_LIST_HEAD (l : P) : E heap unit :=
  wr_next (Some l) (Some l);;
  wr_prev (Some l) (Some l).

Definition list_add_between (pnew : P) (prv nxt : option P) : E heap unit :=
  wr_prev nxt (Some pnew);;
  wr_next (Some pnew) nxt;;
  wr_prev (Some pnew) prv;;
  wr_next prv (Some pnew).

Definition list_add (pnew head : P) : E heap unit :=
  n ← rd_next (Some head);
  list_add_between pnew (Some head) n.

Definition list_add_tail (pnew head : P) : E heap unit :=
  p ← rd_prev (Some head);
  list_add_between pnew p (Some head).

Definition list_del_between (prv nxt : option P) : E heap unit :=
  wr_prev nxt prv;;
  wr_next prv nxt.

Definition list_del_entry (entry : P) : E heap unit :=
  p ← rd_prev (Some entry);
  n ← rd_next (Some entry);
  list_del_between p n.

Definition list_del (entry : P) : E heap unit :=
  list_del_entry entry;;
  wr_next (Some entry) None;;
  wr_prev (Some entry) None.

Definition list_del_reinit (entry : P) : E heap unit :=
  list_del entry;;
  INIT_LIST_HEAD entry.

Definition list_move (l head : P) : E heap unit :=
  list_del_entry l;;
  list_add l head.

Definition list_move_tail (l head : P) : E heap unit :=
  list_del_entry l;;
  list_add_tail l head.

Definition list_empty (head : P) : E heap bool :=
  n ← rd_next (Some head);
  mret (bool_decide (n = Some head)).

Definition list_splice_at (l head : P) : E heap unit :=
  first ← rd_next (Some l);
  last ← rd_prev (Some l);
  at_ ← rd_next (Some head);
  wr_prev first (Some head);;
  wr_next (Some head) first;;
  wr_next last at_;;
  wr_prev at_ last.

Definition list_splice (l head : P) : E heap unit :=
  e ← list_empty l;
  if (e : bool) then mret tt else list_splice_at l head.

Definition list_join_given_first (first_new first_old : option P) : E heap unit :=
  match first_new, first_old with
  | Some fn, Some fo =>
    last ← rd_prev (Some fn);
    p ← rd_prev (Some fo);
    wr_next p (Some fn);;
    p ← rd_prev (Some fo);
    wr_prev (Some fn) p;;
    wr_next last (Some fo);;
    wr_prev (Some fo) last
  | _, _ => mret tt
  end.

(** The entries met by [list_for_each]: from [pos], until [head]. *)
Fixpoint entries_from (fuel : nat) (h : heap) (head : P) (pos : option P) : option (list P) :=
  match pos with
  | None => None
  | Some p =>
    if bool_decide (p = head) then Some []
    else match fuel with
         | O => None
         | S fuel => n ← h !! p; l ← entries_from fuel h head (next n); mret (p :: l)
         end
  end.

Definition entries (fuel : nat) (h : heap) (head : P) : option (list P) :=
  n ← h !! head; entries_from fuel h head (next n).

(** ** Rings *)

Definition nxt (h : heap) (p : P) : option P := n ← h !! p; next n.
Definition prv (h : heap) (p : P) : option P := n ← h !! p; prev n.

(** Consecutive elements point to each other. *)
Fixpoint path (h : heap) (l : list P) : Prop :=
  match l with
  | x :: ((y :: _) as t) => nxt h x = Some y /\ prv h y = Some x /\ path h t
  | _ => True
  end.

Definition ring (h : heap) (hd : P) (xs : list P) : Prop :=
  NoDup (hd :: xs) /\ (forall x, x ∈ hd :: xs -> is_Some (h !! x)) /\ path h (hd :: xs ++ [hd]).

Lemma path_app h l1 x l2 : path h (l1 ++ x :: l2) <-> path h (l1 ++ [x]) /\ path h (x :: l2).
Proof.
  induction l1 as [|y l1 IH]; [simpl; tauto|].
  destruct l1 as [|z l1]; simpl in *; [destruct l2; tauto|tauto].
Qed.

Lemma path_frame h h' l :
  (forall x, x ∈ removelast l -> nxt h' x = nxt h x) -> (forall y, y ∈ tail l -> prv h' y = prv h y) ->
  path h l -> path h' l.
Proof.
  induction l as [|x l IH]; [done|]. destruct l as [|y l]; [done|]. intros Hn Hp (H1 & H2 & H3).
  cbn [path]. split_and!.
  - rewrite Hn; [done|]. apply elem_of_cons. by left.
  - rewrite Hp; [done|]. apply elem_of_cons. by left.
  - apply IH; [| |done].
    + intros z Hz. apply Hn. apply elem_of_cons. by right.
    + intros z Hz. apply Hp. simpl in Hz |- *. apply elem_of_cons. by right.
Qed.

(** The heap update behind a store through a valid pointer. *)
Definition upd_next (p : P) (v : option P) (h : heap) : heap := alter (fun n => Node v (prev n)) p h.
Definition upd_prev (p : P) (v : option P) (h : heap) : heap := alter (fun n => Node (next n) v) p h.

Lemma wr_next_run p v h : is_Some (h !! p) -> wr_next (Some p) v h = Done tt (upd_next p v h).
Proof.
  intros [n Hn]. unfold wr_next, node_at, deref, mbind, E_bind, mret, E_ret, modify, upd_next. rewrite Hn. f_equal.
  apply map_eq. intros q. destruct (decide (q = p)) as [->|].
  - by rewrite lookup_insert_eq, lookup_alter_eq, Hn.
  - by rewrite lookup_insert_ne, lookup_alter_ne.
Qed.

Lemma wr_prev_run p v h : is_Some (h !! p) -> wr_prev (Some p) v h = Done tt (upd_prev p v h).
Proof.
  intros [n Hn]. unfold wr_prev, node_at, deref, mbind, E_bind, mret, E_ret, modify, upd_prev. rewrite Hn. f_equal.
  apply map_eq. intros q. destruct (decide (q = p)) as [->|].
  - by rewrite lookup_insert_eq, lookup_alter_eq, Hn.
  - by rewrite lookup_insert_ne, lookup_alter_ne.
Qed.

Lemma rd_next_run p h : is_Some (h !! p) -> rd_next (Some p) h = Done (nxt h p) h.
Proof. intros [n Hn]. unfold rd_next, node_at, deref, mbind, E_bind, mret, E_ret, nxt. by rewrite Hn. Qed.

Lemma rd_prev_run p h : is_Some (h !! p) -> rd_prev (Some p) h = Done (prv h p) h.
Proof. intros [n Hn]. unfold rd_prev, node_at, deref, mbind, E_bind, mret, E_ret, prv. by rewrite Hn. Qed.

Lemma upd_is_Some p v h q :
  (is_Some (upd_next p v h !! q) <-> is_Some (h !! q)) /\ (is_Some (upd_prev p v h !! q) <-> is_Some (h !! q)).
Proof. unfold upd_next, upd_prev. by rewrite !lookup_alter_is_Some. Qed.

Lemma nxt_upd_next p v h q :
  is_Some (h !! p) -> nxt (upd_next p v h) q = if decide (q = p) then v else nxt h q.
Proof.
  intros [n Hn]. unfold nxt, upd_next. case_decide as Hq; [subst; by rewrite lookup_alter_eq, Hn|].
  by rewrite lookup_alter_ne.
Qed.
Lemma prv_upd_next p v h q : prv (upd_next p v h) q = prv h q.
Proof.
  unfold prv, upd_next. destruct (decide (q = p)) as [->|].
  - rewrite lookup_alter_eq. by destruct (h !! p).
  - by rewrite lookup_alter_ne.
Qed.
Lemma prv_upd_prev p v h q :
  is_Some (h !! p) -> prv (upd_prev p v h) q = if decide (q = p) then v else prv h q.
Proof.
  intros [n Hn]. unfold prv, upd_prev. case_decide as Hq; [subst; by rewrite lookup_alter_eq, Hn|].
  by rewrite lookup_alter_ne.
Qed.
Lemma nxt_upd_prev p v h q : nxt (upd_prev p v h) q = nxt h q.
Proof.
  unfold nxt, upd_prev. destruct (decide (q = p)) as [->|].
  - rewrite lookup_alter_eq. by destruct (h !! p).
  - by rewrite lookup_alter_ne.
Qed.
Lemma lookup_upd_ne p v h q : q <> p -> upd_next p v h !! q = h !! q /\ upd_prev p v h !! q = h !! q.
Proof. intros. unfold upd_next, upd_prev. by rewrite !lookup_alter_ne. Qed.

(** ** Symbolic execution *)

Lemma wp_rd_next p (Q : option P -> heap -> Prop) h : is_Some (h !! p) -> Q (nxt h p) h -> wp (rd_next (Some p)) Q h.
Proof. intros Hp HQ. eapply wp_run; [by apply rd_next_run|done]. Qed.
Lemma wp_rd_prev p (Q : option P -> heap -> Prop) h : is_Some (h !! p) -> Q (prv h p) h -> wp (rd_prev (Some p)) Q h.
Proof. intros Hp HQ. eapply wp_run; [by apply rd_prev_run|done]. Qed.
Lemma wp_wr_next p v (Q : unit -> heap -> Prop) h : is_Some (h !! p) -> Q tt (upd_next p v h) -> wp (wr_next (Some p) v) Q h.
Proof. intros Hp HQ. eapply wp_run; [by apply wr_next_run|done]. Qed.
Lemma wp_wr_prev p v (Q : unit -> heap -> Prop) h : is_Some (h !! p) -> Q tt (upd_prev p v h) -> wp (wr_prev (Some p) v) Q h.
Proof. intros Hp HQ. eapply wp_run; [by apply wr_prev_run|done]. Qed.

(** [h'] has the nodes of [h], and differs from it only at the nodes [ps]. *)
Definition only_at (ps : list P) (h h' : heap) : Prop :=
  (forall x, is_Some (h' !! x) <-> is_Some (h !! x)) /\ (forall x, x ∉ ps -> h' !! x = h !! x).

Ltac node := repeat first [rewrite (proj1 (upd_is_Some _ _ _ _)) | rewrite (proj2 (upd_is_Some _ _ _ _))]; done.

Lemma wp_init_list l (Q : unit -> heap -> Prop) h :
  is_Some (h !! l) ->
  (forall h', only_at [l] h h' -> h' !! l = Some (Node (Some l) (Some l)) -> Q tt h') -> wp (INIT_LIST_HEAD l) Q h.
Proof.
  intros Hl HQ. unfold INIT_LIST_HEAD. apply wp_bind, wp_wr_next; [done|]. apply wp_wr_prev; [node|].
  apply HQ.
  - split; [intros x; node|]. intros x Hx. rewrite not_elem_of_cons in Hx. destruct Hx as [Hx _].
    by rewrite (proj2 (lookup_upd_ne _ _ _ _ Hx)), (proj1 (lookup_upd_ne _ _ _ _ Hx)).
  - destruct Hl as [n Hn]. unfold upd_prev, upd_next. by rewrite !lookup_alter_eq, Hn.
Qed.

Lemma wp_list_add_between n p q (Q : unit -> heap -> Prop) h :
  is_Some (h !! n) -> is_Some (h !! p) -> is_Some (h !! q) -> n <> p -> n <> q ->
  (forall h', only_at [n; p; q] h h' ->
     (forall x, nxt h' x = if decide (x = p) then Some n else if decide (x = n) then Some q else nxt h x) ->
     (forall x, prv h' x = if decide (x = n) then Some p else if decide (x = q) then Some n else prv h x) -> Q tt h') ->
  wp (list_add_between n (Some p) (Some q)) Q h.
Proof.
  intros Hn Hp Hq Hnp Hnq HQ. unfold list_add_between.
  apply wp_bind, wp_wr_prev; [done|]. apply wp_bind, wp_wr_next; [node|].
  apply wp_bind, wp_wr_prev; [node|]. apply wp_wr_next; [node|]. apply HQ.
  - split; [intros x; node|]. intros x Hx. rewrite !not_elem_of_cons in Hx. destruct Hx as (H1 & H2 & H3 & _).
    by rewrite (proj1 (lookup_upd_ne _ _ _ _ H2)), (proj2 (lookup_upd_ne _ _ _ _ H1)),
      (proj1 (lookup_upd_ne _ _ _ _ H1)), (proj2 (lookup_upd_ne _ _ _ _ H3)).
  - intros x. rewrite nxt_upd_next by node. rewrite nxt_upd_prev, nxt_upd_next by node. by rewrite nxt_upd_prev.
  - intros x. rewrite prv_upd_next, prv_upd_prev by node. rewrite prv_upd_next, prv_upd_prev by done. done.
Qed.

(** ** Rings under the operations *)

Lemma ring_frame h h' hd xs :
  ring h hd xs -> (forall x, x ∈ hd :: xs -> h' !! x = h !! x) -> ring h' hd xs.
Proof.
  intros (Hnd & Hdom & Hpath) Hsame. split_and!; [done| |].
  - intros x Hx. rewrite Hsame by done. by apply Hdom.
  - eapply path_frame; [| |done].
    + intros x Hx. unfold nxt. rewrite Hsame; [done|].
      rewrite app_comm_cons, removelast_app in Hx by done. simpl in Hx. by rewrite app_nil_r in Hx.
    + intros y Hy. unfold prv. rewrite Hsame; [done|]. simpl in Hy. apply elem_of_app in Hy as [|Hy].
      * apply elem_of_cons. by right.
      * apply list_elem_of_singleton in Hy as ->. apply elem_of_cons. by left.
Qed.

Lemma removelast_snoc {A} (l : list A) x : removelast (l ++ [x]) = l.
Proof. rewrite removelast_app by done. simpl. apply app_nil_r. Qed.

(** The last node of a ring, and the link from it back to the head. *)
Lemma ring_last h hd xs :
  ring h hd xs -> exists l1 p, hd :: xs = l1 ++ [p] /\ p ∈ hd :: xs /\ p ∉ l1 /\
    path h (l1 ++ [p]) /\ nxt h p = Some hd /\ prv h hd = Some p.
Proof.
  intros (Hnd & _ & Hpath). rewrite app_comm_cons in Hpath.
  destruct (exists_last (l := hd :: xs)) as (l1 & p & Heq); [done|]. rewrite Heq in *.
  rewrite <- app_assoc in Hpath. apply path_app in Hpath as [H1 (H2 & H3 & _)].
  exists l1, p. split_and!; try done.
  - apply elem_of_app. right. by apply list_elem_of_singleton.
  - apply NoDup_app in Hnd as (_ & Hd & _). intros Hin. apply (Hd p Hin). by apply list_elem_of_singleton.
Qed.

Lemma tail_snoc_elem {A} (hd : A) xs l1 p y : hd :: xs = l1 ++ [p] -> y ∈ tail (l1 ++ [p]) -> y ∈ xs.
Proof. by intros <-. Qed.

Lemma wp_list_add_tail n hd xs (Q : unit -> heap -> Prop) h :
  ring h hd xs -> n ∉ hd :: xs -> is_Some (h !! n) ->
  (forall h', only_at (n :: hd :: xs) h h' -> ring h' hd (xs ++ [n]) -> Q tt h') ->
  wp (list_add_tail n hd) Q h.
Proof.
  intros Hr Hni Hn HQ. pose proof Hr as (Hnd & Hdom & Hpath).
  destruct (ring_last h hd xs Hr) as (l1 & p & Heq & Hp & Hpl & Hp1 & Hpn & Hph).
  assert (hd ∈ hd :: xs) as Hhd by (apply elem_of_cons; by left).
  unfold list_add_tail. apply wp_bind, wp_rd_prev; [by apply Hdom|]. rewrite Hph.
  apply wp_list_add_between; [done|by apply Hdom..|by intros ->|by intros ->|].
  intros h' [Hd Hs] Hnx Hpv. apply HQ.
  - split; [done|]. intros x Hx. apply Hs. rewrite !not_elem_of_cons in *. destruct Hx as (H1 & H2 & H3).
    split_and!; [done| |done|apply not_elem_of_nil]. intros ->. apply elem_of_cons in Hp as [->|]; done.
  - split_and!.
    + rewrite app_comm_cons. apply NoDup_app. split_and!; [done| |apply NoDup_singleton].
      intros x Hx ->%list_elem_of_singleton. done.
    + intros x Hx. apply Hd. rewrite app_comm_cons, elem_of_app, list_elem_of_singleton in Hx.
      destruct Hx as [| ->]; [by apply Hdom|done].
    + rewrite app_comm_cons, app_comm_cons, Heq, <- !app_assoc. cbn [app]. apply path_app. split.
      * eapply path_frame; [| |exact Hp1].
        -- intros x Hx. rewrite removelast_snoc in Hx. rewrite Hnx, !decide_False; [done| |].
           ++ intros ->. apply Hni. rewrite Heq. apply elem_of_app. by left.
           ++ by intros ->.
        -- intros y Hy. apply (tail_snoc_elem hd xs) in Hy; [|done]. rewrite Hpv, !decide_False; [done| |].
           ++ intros ->. apply NoDup_cons in Hnd as [? _]. done.
           ++ intros ->. apply Hni, elem_of_cons. by right.
      * assert (n <> p) by (by intros ->). assert (n <> hd) by (by intros ->). cbn [path].
        rewrite !Hnx, !Hpv. rewrite (decide_True (P := p = p)) by done. rewrite (decide_True (P := n = n)) by done.
        rewrite (decide_False (P := n = p)) by done. rewrite (decide_True (P := n = n)) by done.
        rewrite (decide_False (P := hd = n)) by done. by rewrite (decide_True (P := hd = hd)).
Qed.

(** The first node after the head. *)
Lemma ring_first h hd xs :
  ring h hd xs -> exists q l2, xs ++ [hd] = q :: l2 /\ nxt h hd = Some q /\ prv h q = Some hd /\ path h (q :: l2).
Proof.
  intros (_ & _ & Hpath). destruct (xs ++ [hd]) as [|q l2] eqn:E; [by destruct xs|].
  destruct Hpath as (H1 & H2 & H3). by exists q, l2.
Qed.

Lemma wp_list_add n hd xs (Q : unit -> heap -> Prop) h :
  ring h hd xs -> n ∉ hd :: xs -> is_Some (h !! n) ->
  (forall h', only_at (n :: hd :: xs) h h' -> ring h' hd (n :: xs) -> Q tt h') ->
  wp (list_add n hd) Q h.
Proof.
  intros Hr Hni Hn HQ. pose proof Hr as (Hnd & Hdom & Hpath).
  destruct (ring_first h hd xs Hr) as (q & l2 & Heq & Hnq & Hpq & Hp2).
  assert (q ∈ hd :: xs) as Hq.
  { assert (q ∈ xs ++ [hd]) as Hq by (rewrite Heq; apply elem_of_cons; by left).
    apply elem_of_cons. apply elem_of_app in Hq as [|Hq]; [by right|left]. by apply list_elem_of_singleton in Hq. }
  assert (hd ∈ hd :: xs) as Hhd by (apply elem_of_cons; by left).
  unfold list_add. apply wp_bind, wp_rd_next; [by apply Hdom|]. rewrite Hnq.
  apply wp_list_add_between; [done|by apply Hdom..|by intros ->|by intros ->|].
  intros h' [Hd Hs] Hnx Hpv. apply HQ.
  - split; [done|]. intros x Hx. apply Hs. rewrite !not_elem_of_cons in *. destruct Hx as (H1 & H2 & H3).
    split_and!; [done|done| |apply not_elem_of_nil]. intros ->. apply elem_of_cons in Hq as [->|]; done.
  - assert (n <> q) by (by intros ->). assert (n <> hd) by (by intros ->).
    apply NoDup_cons in Hnd as [Hhx Hnx']. rewrite not_elem_of_cons in Hni. destruct Hni as [Hnh Hnxs].
    split_and!.
    + apply NoDup_cons. split; [rewrite not_elem_of_cons; done|]. by apply NoDup_cons.
    + intros x Hx. apply Hd. rewrite !elem_of_cons in Hx.
      destruct Hx as [->|[->|Hx]]; [by apply Hdom|done|]. apply Hdom, elem_of_cons. by right.
    + change (path h' (hd :: n :: (xs ++ [hd]))). rewrite Heq.
      change (nxt h' hd = Some n /\ prv h' n = Some hd /\ nxt h' n = Some q /\ prv h' q = Some n /\ path h' (q :: l2)).
      rewrite !Hnx, !Hpv, (decide_True (P := hd = hd)), (decide_True (P := n = n)), (decide_False (P := n = hd)),
        (decide_False (P := q = n)), (decide_True (P := q = q)), (decide_True (P := n = n)) by done.
      do 4 (split; [done|]).
      eapply path_frame; [| |exact Hp2].
      * intros x Hx. assert (x ∈ xs) as Hxx by (rewrite <- Heq, removelast_snoc in Hx; done).
        rewrite Hnx, !decide_False; [done|by intros ->..].
      * intros y Hy. rewrite Hpv, !decide_False; [done| |].
        -- intros ->. simpl in Hy. assert (NoDup (xs ++ [hd])) as Hnd'.
           { apply NoDup_app. split_and!; [done| |apply NoDup_singleton]. by intros z Hz ->%list_elem_of_singleton. }
           rewrite Heq in Hnd'. by apply NoDup_cons in Hnd' as [? _].
        -- intros ->. simpl in Hy. assert (n ∈ xs ++ [hd]) as Hin by (rewrite Heq; apply elem_of_cons; by right).
           apply elem_of_app in Hin as [|Hin]; [done|]. by apply list_elem_of_singleton in Hin.
Qed.

Lemma wp_list_empty hd xs (Q : bool -> heap -> Prop) h :
  ring h hd xs -> Q (match xs with [] => true | _ => false end) h -> wp (list_empty hd) Q h.
Proof.
  intros Hr HQ. pose proof Hr as (Hnd & Hdom & _).
  destruct (ring_first h hd xs Hr) as (q & l2 & Heq & Hnq & _).
  unfold list_empty. apply wp_bind, wp_rd_next; [apply Hdom, elem_of_cons; by left|]. rewrite Hnq. apply wp_ret.
  destruct xs as [|x xs]; simpl in Heq; injection Heq as <- <-.
  - by rewrite bool_decide_true.
  - rewrite bool_decide_false; [done|]. intros [= ->]. apply NoDup_cons in Hnd as [Hni _].
    apply Hni, elem_of_cons. by left.
Qed.

Lemma ring_perm {A} (e hd : A) xs1 xs2 : e :: hd :: xs1 ++ xs2 ≡ₚ hd :: xs1 ++ e :: xs2.
Proof. rewrite <- Permutation_middle. apply Permutation_swap. Qed.

(** Unlinking [e]: its neighbours, and the path that remains. *)
Lemma wp_list_del_entry e hd xs1 xs2 (Q : unit -> heap -> Prop) h :
  ring h hd (xs1 ++ e :: xs2) ->
  (forall h', only_at (hd :: xs1 ++ xs2) h h' -> ring h' hd (xs1 ++ xs2) -> h' !! e = h !! e -> Q tt h') ->
  wp (list_del_entry e) Q h.
Proof.
  intros (Hnd & Hdom & Hpath) HQ.
  destruct (exists_last (l := hd :: xs1)) as (l1 & p & Heq1); [done|].
  destruct (xs2 ++ [hd]) as [|q l2] eqn:Heq2; [by destruct xs2|].
  assert (Hp : p ∈ hd :: xs1) by (rewrite Heq1; apply elem_of_app; right; by apply list_elem_of_singleton).
  assert (Hq : q ∈ hd :: xs2).
  { assert (q ∈ xs2 ++ [hd]) as Hq by (rewrite Heq2; apply elem_of_cons; by left).
    apply elem_of_cons. apply elem_of_app in Hq as [|Hq]; [by right|left]. by apply list_elem_of_singleton in Hq. }
  assert (Hin : forall x, x ∈ hd :: xs1 ++ xs2 -> x ∈ hd :: xs1 ++ e :: xs2).
  { intros x. rewrite !elem_of_cons, !elem_of_app, elem_of_cons. tauto. }
  assert (Hp' : p ∈ hd :: xs1 ++ xs2) by (rewrite !elem_of_cons, elem_of_app in *; tauto).
  assert (Hq' : q ∈ hd :: xs1 ++ xs2) by (rewrite !elem_of_cons, elem_of_app in *; tauto).
  assert (Hnd' : NoDup (e :: hd :: xs1 ++ xs2)).
  { by rewrite (ring_perm e hd xs1 xs2). }
  apply NoDup_cons in Hnd' as [He Hnd'].
  assert (Hep : e <> p) by by intros ->. assert (Heq : e <> q) by by intros ->.
  rewrite app_comm_cons in Hpath. replace ((hd :: xs1 ++ e :: xs2) ++ [hd])
    with ((l1 ++ [p]) ++ e :: q :: l2) in Hpath
    by (rewrite <- Heq1, <- Heq2; simpl; by rewrite <- app_assoc).
  rewrite <- app_assoc in Hpath. cbn [app] in Hpath.
  apply path_app in Hpath as [Hpath1 (Hpe & Hep' & Heq' & Hqe & Hpath2)].
  assert (is_Some (h !! e)) as Hes by (apply Hdom; rewrite elem_of_cons, elem_of_app, elem_of_cons; tauto).
  unfold list_del_entry. apply wp_bind, wp_rd_prev; [done|]. apply wp_bind, wp_rd_next; [done|].
  rewrite Hep', Heq'. unfold list_del_between.
  apply wp_bind, wp_wr_prev; [by apply Hdom, Hin|]. apply wp_wr_next; [rewrite (proj2 (upd_is_Some _ _ _ _)); by apply Hdom, Hin|].
  set (h' := upd_next p (Some q) (upd_prev q (Some p) h)).
  assert (Hnx : forall x, nxt h' x = if decide (x = p) then Some q else nxt h x).
  { intros x. unfold h'. rewrite nxt_upd_next, nxt_upd_prev; [done|]. rewrite (proj2 (upd_is_Some _ _ _ _)). by apply Hdom, Hin. }
  assert (Hpv : forall x, prv h' x = if decide (x = q) then Some p else prv h x).
  { intros x. unfold h'. rewrite prv_upd_next, prv_upd_prev; [done|]. by apply Hdom, Hin. }
  assert (Hsm : forall x, is_Some (h' !! x) <-> is_Some (h !! x)) by (intros x; unfold h'; node).
  assert (Hout : forall x, x <> p -> x <> q -> h' !! x = h !! x).
  { intros x H1 H2. unfold h'. by rewrite (proj1 (lookup_upd_ne _ _ _ _ H1)), (proj2 (lookup_upd_ne _ _ _ _ H2)). }
  clearbody h'. apply HQ.
  - split; [done|]. intros x Hx. apply Hout; by intros ->.
  - split_and!; [done|intros x Hx; by apply Hsm, Hdom, Hin|].
    replace (hd :: (xs1 ++ xs2) ++ [hd]) with (l1 ++ p :: q :: l2).
    2: { change (p :: q :: l2) with ([p] ++ (q :: l2)). rewrite app_assoc, <- Heq1, <- Heq2. simpl. by rewrite <- app_assoc. }
    assert (Hndh : NoDup ((hd :: xs1) ++ xs2)) by done.
    apply NoDup_app in Hndh as (Hn1 & Hn12 & Hn2).
    apply path_app. split.
    + eapply path_frame; [| |exact Hpath1].
      * intros x Hx. rewrite removelast_snoc in Hx. rewrite Hnx, decide_False; [done|]. intros ->.
        rewrite Heq1 in Hn1. apply NoDup_app in Hn1 as (_ & Hd1 & _). apply (Hd1 p Hx). by apply list_elem_of_singleton.
      * intros y Hy. apply (tail_snoc_elem hd xs1) in Hy; [|done]. rewrite Hpv, decide_False; [done|]. intros ->.
        apply elem_of_cons in Hq as [->|Hq]; [by apply NoDup_cons in Hn1 as [? _]|].
        apply (Hn12 q); [|done]. apply elem_of_cons. by right.
    + change (nxt h' p = Some q /\ prv h' q = Some p /\ path h' (q :: l2)).
      rewrite Hnx, Hpv, !decide_True by done. split_and!; [done..|].
      eapply path_frame; [| |exact Hpath2].
      * intros x Hx. rewrite <- Heq2, removelast_snoc in Hx. rewrite Hnx, decide_False; [done|]. intros ->.
        by apply (Hn12 p).
      * intros y Hy. simpl in Hy. rewrite Hpv, decide_False; [done|]. intros ->.
        assert (NoDup (xs2 ++ [hd])) as Hndq.
        { apply NoDup_app. split_and!; [done| |apply NoDup_singleton]. intros z Hz ->%list_elem_of_singleton.
          apply (Hn12 hd); [apply elem_of_cons; by left|done]. }
        rewrite Heq2 in Hndq. by apply NoDup_cons in Hndq as [? _].
  - by apply Hout.
Qed.

(** list_del_reinit leaves the entry linked to itself. *)
Lemma wp_list_del_reinit e hd xs1 xs2 (Q : unit -> heap -> Prop) h :
  ring h hd (xs1 ++ e :: xs2) ->
  (forall h', only_at (hd :: xs1 ++ e :: xs2) h h' -> ring h' hd (xs1 ++ xs2) ->
     h' !! e = Some (Node (Some e) (Some e)) -> Q tt h') ->
  wp (list_del_reinit e) Q h.
Proof.
  intros Hr HQ. pose proof Hr as (Hnd & Hdom & _).
  assert (Hes : is_Some (h !! e)) by (apply Hdom; rewrite elem_of_cons, elem_of_app, elem_of_cons; tauto).
  unfold list_del_reinit, list_del. apply wp_bind, wp_bind. eapply wp_list_del_entry; [done|].
  intros h1 [Hd1 Hs1] Hr1 He1. apply wp_bind, wp_wr_next; [by apply Hd1|]. apply wp_wr_prev; [rewrite (proj1 (upd_is_Some _ _ _ _)); by apply Hd1|].
  apply wp_init_list; [rewrite (proj2 (upd_is_Some _ _ _ _)), (proj1 (upd_is_Some _ _ _ _)); by apply Hd1|].
  intros h2 [Hd2 Hs2] He2.
  assert (He : e ∉ hd :: xs1 ++ xs2).
  { assert (NoDup (e :: hd :: xs1 ++ xs2)) as Hnd'; [|by apply NoDup_cons in Hnd' as [? _]].
    by rewrite (ring_perm e hd xs1 xs2). }
  assert (Hs : forall x, x <> e -> h2 !! x = h1 !! x).
  { intros x Hx. rewrite Hs2 by (rewrite not_elem_of_cons; split; [done|apply not_elem_of_nil]).
    by rewrite (proj2 (lookup_upd_ne _ _ _ _ Hx)), (proj1 (lookup_upd_ne _ _ _ _ Hx)). }
  apply HQ.
  - split.
    + intros x. rewrite Hd2, (proj2 (upd_is_Some _ _ _ _)), (proj1 (upd_is_Some _ _ _ _)). apply Hd1.
    + intros x Hx. rewrite Hs by (intros ->; apply Hx; rewrite elem_of_cons, elem_of_app, elem_of_cons; tauto).
      apply Hs1. intros Hin. apply Hx. rewrite elem_of_cons, elem_of_app in Hin |- *. rewrite elem_of_cons. tauto.
  - eapply ring_frame; [done|]. intros x Hx. apply Hs. by intros ->.
  - done.
Qed.

(** On an entry linked to itself, list_del_reinit changes nothing. *)
Lemma wp_list_del_reinit_self e (Q : unit -> heap -> Prop) h :
  h !! e = Some (Node (Some e) (Some e)) ->
  (forall h', only_at [e] h h' -> h' !! e = Some (Node (Some e) (Some e)) -> Q tt h') -> wp (list_del_reinit e) Q h.
Proof.
  intros He HQ. assert (Hr : is_Some (h !! e)) by by rewrite He.
  unfold list_del_reinit, list_del, list_del_entry, list_del_between.
  apply wp_bind, wp_bind, wp_bind, wp_rd_prev; [done|]. apply wp_bind, wp_rd_next; [done|].
  assert (prv h e = Some e /\ nxt h e = Some e) as [-> ->] by (unfold prv, nxt; by rewrite He).
  apply wp_bind, wp_wr_prev; [done|]. apply wp_wr_next; [node|]. apply wp_bind, wp_wr_next; [node|].
  apply wp_wr_prev; [node|]. apply wp_init_list; [node|]. intros h' [Hd Hs] He'. apply HQ; [|done]. split.
  - intros x. rewrite Hd. node.
  - intros x Hx. rewrite Hs by done. rewrite not_elem_of_cons in Hx. destruct Hx as [Hx _].
    rewrite (proj2 (lookup_upd_ne _ _ _ _ Hx)), !(proj1 (lookup_upd_ne _ _ _ _ Hx)).
    by rewrite (proj2 (lookup_upd_ne _ _ _ _ Hx)).
Qed.

(** Traversal meets the entries of the ring in order. *)
Lemma entries_from_path h hd xs fuel p :
  path h (p :: xs ++ [hd]) -> hd ∉ xs -> (length xs <= fuel)%nat -> (forall x, x ∈ xs -> is_Some (h !! x)) ->
  entries_from fuel h hd (nxt h p) = Some xs.
Proof.
  revert p fuel. induction xs as [|x xs IH]; intros p fuel Hpath Hni Hf Hdom.
  - destruct Hpath as (-> & _). destruct fuel; simpl; by rewrite bool_decide_true.
  - destruct Hpath as (-> & _ & Hpath). destruct fuel as [|fuel]; [simpl in Hf; lia|].
    rewrite not_elem_of_cons in Hni. destruct Hni as [Hne Hni]. simpl in Hf. cbn [entries_from].
    rewrite bool_decide_false by done.
    assert (x ∈ x :: xs) as Hin by (apply elem_of_cons; by left).
    destruct (Hdom x Hin) as [n Hn]. specialize (IH x fuel Hpath Hni ltac:(lia)).
    unfold nxt in IH. rewrite Hn in *. simpl in *.
    rewrite IH; [done|]. intros y Hy. apply Hdom, elem_of_cons. by right.
Qed.

Lemma entries_ring h hd xs fuel : ring h hd xs -> (length xs <= fuel)%nat -> entries fuel h hd = Some xs.
Proof.
  intros (Hnd & Hdom & Hpath) Hf. apply NoDup_cons in Hnd as [Hni _]. unfold entries.
  destruct (Hdom hd) as [n Hn]; [apply elem_of_cons; by left|]. rewrite Hn. simpl.
  pose proof (entries_from_path h hd xs fuel hd Hpath Hni Hf) as He. unfold nxt in He. rewrite Hn in He. simpl in He.
  apply He. intros x Hx. apply Hdom, elem_of_cons. by right.
Qed.
End Lists.

Arguments ring {P _ _} h hd xs.
Arguments only_at {P _ _} ps h h'.
