(* ===== verification/KState.v ===== *)
(** * The kernel's shared state

    One record holds what the scheduling, process, signal, futex, pipe and file
    system code shares: the machine (memory, page allocator, locks held), the list nodes,
    the queues, the thread and process tables, and the objects allocated from
    pages, each kept in a map from its page's address.  Freeing such an object
    removes it from its map, so a later access through the stale pointer
    faults.  The setters below only rebuild a record with one field changed. *)
From S2P Require Import Prelude Mem KTypes Kalloc ListHead.

(** What a thread can sleep on ([void *chan]).  Kernel objects are named; the
    code also uses signal numbers and user addresses as channels. *)
Inductive channel :=
| ChNone
| ChProc (p : nat)        (* a struct proc pointer *)
| ChPipeR (pi : Z)        (* &pi->nread *)
| ChPipeW (pi : Z)        (* &pi->nwrite *)
| ChSleep (lk : Z)        (* a struct sleeplock pointer *)
| ChTicks                 (* &ticks *)
| ChLog                   (* &log *)
| ChBuf (i : nat)         (* a struct buf pointer *)
| ChDesc                  (* &disk.free[0] *)
| ChCons                  (* &cons.r *)
| ChUart                  (* &uart_tx_r *)
| ChAddr (a : Z).         (* a signal number or a user address *)

#[global] Instance channel_dec : EqDecision channel.
Proof. solve_decision. Defined.

(** enum queue_type of kernel/include/queue.h. *)
Inductive queue_type := TCB_STATE_QUEUE | PCB_STATE_QUEUE | TCB_WAIT_QUEUE | INODE_FREE_QUEUE.

(** struct queue; its lock is [L_queue q] and its list head [QHead q]. *)
Record queue := Queue {
  qtype : queue_type;   (* type *)
  qname : string;   (* name *)
  qcnt : Z;   (* cnt *)
}.

Definition set_qtype (v : queue_type) (r : queue) : queue := Queue v (qname r) (qcnt r).
Definition set_qname (v : string) (r : queue) : queue := Queue (qtype r) v (qcnt r).
Definition set_qcnt (v : Z) (r : queue) : queue := Queue (qtype r) (qname r) v.

(** struct tcb of kernel/include/thread.h; of the saved context only the fields the kernel sets. The list fields are the nodes [TState], [TWait], [TThreads] and [SigPending]. *)
Record tcb := Tcb {
  tname : string;   (* name *)
  tstate : thread_state;   (* state *)
  tproc : option nat;   (* p: index in proc[] *)
  tid : Z;   (* tid *)
  tidx : Z;   (* tidx *)
  tkilled : Z;   (* killed *)
  kstack : Z;   (* kstack *)
  trapframe : Z;   (* trapframe: address of its page, 0 if none *)
  ctx_ra : Z;   (* context.ra *)
  ctx_sp : Z;   (* context.sp *)
  ttg : option nat;   (* tg: the process whose group it is in *)
  wait_chan_entry : option qid;   (* wait_chan_entry *)
  chan : channel;   (* chan *)
  timeout : Z;   (* timeout *)
  set_child_tid : Z;
  clear_child_tid : Z;
  sigs : Z;   (* sigs: address of its page, 0 if NULL *)
  blocked : Z;   (* blocked.sig *)
  pend_set : Z;   (* sig_pending.signal.sig *)
  pending_cnt : Z;
  sig_processing : Z;
}.

Definition set_tname (v : string) (r : tcb) : tcb := Tcb v (tstate r) (tproc r) (tid r) (tidx r) (tkilled r) (kstack r) (trapframe r) (ctx_ra r) (ctx_sp r) (ttg r) (wait_chan_entry r) (chan r) (timeout r) (set_child_tid r) (clear_child_tid r) (sigs r) (blocked r) (pend_set r) (pending_cnt r) (sig_processing r).
Definition set_tstate (v : thread_state) (r : tcb) : tcb := Tcb (tname r) v (tproc r) (tid r) (tidx r) (tkilled r) (kstack r) (trapframe r) (ctx_ra r) (ctx_sp r) (ttg r) (wait_chan_entry r) (chan r) (timeout r) (set_child_tid r) (clear_child_tid r) (sigs r) (blocked r) (pend_set r) (pending_cnt r) (sig_processing r).
Definition set_tproc (v : option nat) (r : tcb) : tcb := Tcb (tname r) (tstate r) v (tid r) (tidx r) (tkilled r) (kstack r) (trapframe r) (ctx_ra r) (ctx_sp r) (ttg r) (wait_chan_entry r) (chan r) (timeout r) (set_child_tid r) (clear_child_tid r) (sigs r) (blocked r) (pend_set r) (pending_cnt r) (sig_processing r).
Definition set_tid (v : Z) (r : tcb) : tcb := Tcb (tname r) (tstate r) (tproc r) v (tidx r) (tkilled r) (kstack r) (trapframe r) (ctx_ra r) (ctx_sp r) (ttg r) (wait_chan_entry r) (chan r) (timeout r) (set_child_tid r) (clear_child_tid r) (sigs r) (blocked r) (pend_set r) (pending_cnt r) (sig_processing r).
Definition set_tidx (v : Z) (r : tcb) : tcb := Tcb (tname r) (tstate r) (tproc r) (tid r) v (tkilled r) (kstack r) (trapframe r) (ctx_ra r) (ctx_sp r) (ttg r) (wait_chan_entry r) (chan r) (timeout r) (set_child_tid r) (clear_child_tid r) (sigs r) (blocked r) (pend_set r) (pending_cnt r) (sig_processing r).
Definition set_tkilled (v : Z) (r : tcb) : tcb := Tcb (tname r) (tstate r) (tproc r) (tid r) (tidx r) v (kstack r) (trapframe r) (ctx_ra r) (ctx_sp r) (ttg r) (wait_chan_entry r) (chan r) (timeout r) (set_child_tid r) (clear_child_tid r) (sigs r) (blocked r) (pend_set r) (pending_cnt r) (sig_processing r).
Definition set_kstack (v : Z) (r : tcb) : tcb := Tcb (tname r) (tstate r) (tproc r) (tid r) (tidx r) (tkilled r) v (trapframe r) (ctx_ra r) (ctx_sp r) (ttg r) (wait_chan_entry r) (chan r) (timeout r) (set_child_tid r) (clear_child_tid r) (sigs r) (blocked r) (pend_set r) (pending_cnt r) (sig_processing r).
Definition set_trapframe (v : Z) (r : tcb) : tcb := Tcb (tname r) (tstate r) (tproc r) (tid r) (tidx r) (tkilled r) (kstack r) v (ctx_ra r) (ctx_sp r) (ttg r) (wait_chan_entry r) (chan r) (timeout r) (set_child_tid r) (clear_child_tid r) (sigs r) (blocked r) (pend_set r) (pending_cnt r) (sig_processing r).
Definition set_ctx_ra (v : Z) (r : tcb) : tcb := Tcb (tname r) (tstate r) (tproc r) (tid r) (tidx r) (tkilled r) (kstack r) (trapframe r) v (ctx_sp r) (ttg r) (wait_chan_entry r) (chan r) (timeout r) (set_child_tid r) (clear_child_tid r) (sigs r) (blocked r) (pend_set r) (pending_cnt r) (sig_processing r).
Definition set_ctx_sp (v : Z) (r : tcb) : tcb := Tcb (tname r) (tstate r) (tproc r) (tid r) (tidx r) (tkilled r) (kstack r) (trapframe r) (ctx_ra r) v (ttg r) (wait_chan_entry r) (chan r) (timeout r) (set_child_tid r) (clear_child_tid r) (sigs r) (blocked r) (pend_set r) (pending_cnt r) (sig_processing r).
Definition set_ttg (v : option nat) (r : tcb) : tcb := Tcb (tname r) (tstate r) (tproc r) (tid r) (tidx r) (tkilled r) (kstack r) (trapframe r) (ctx_ra r) (ctx_sp r) v (wait_chan_entry r) (chan r) (timeout r) (set_child_tid r) (clear_child_tid r) (sigs r) (blocked r) (pend_set r) (pending_cnt r) (sig_processing r).
Definition set_wait_chan_entry (v : option qid) (r : tcb) : tcb := Tcb (tname r) (tstate r) (tproc r) (tid r) (tidx r) (tkilled r) (kstack r) (trapframe r) (ctx_ra r) (ctx_sp r) (ttg r) v (chan r) (timeout r) (set_child_tid r) (clear_child_tid r) (sigs r) (blocked r) (pend_set r) (pending_cnt r) (sig_processing r).
Definition set_chan (v : channel) (r : tcb) : tcb := Tcb (tname r) (tstate r) (tproc r) (tid r) (tidx r) (tkilled r) (kstack r) (trapframe r) (ctx_ra r) (ctx_sp r) (ttg r) (wait_chan_entry r) v (timeout r) (set_child_tid r) (clear_child_tid r) (sigs r) (blocked r) (pend_set r) (pending_cnt r) (sig_processing r).
Definition set_timeout (v : Z) (r : tcb) : tcb := Tcb (tname r) (tstate r) (tproc r) (tid r) (tidx r) (tkilled r) (kstack r) (trapframe r) (ctx_ra r) (ctx_sp r) (ttg r) (wait_chan_entry r) (chan r) v (set_child_tid r) (clear_child_tid r) (sigs r) (blocked r) (pend_set r) (pending_cnt r) (sig_processing r).
Definition set_set_child_tid (v : Z) (r : tcb) : tcb := Tcb (tname r) (tstate r) (tproc r) (tid r) (tidx r) (tkilled r) (kstack r) (trapframe r) (ctx_ra r) (ctx_sp r) (ttg r) (wait_chan_entry r) (chan r) (timeout r) v (clear_child_tid r) (sigs r) (blocked r) (pend_set r) (pending_cnt r) (sig_processing r).
Definition set_clear_child_tid (v : Z) (r : tcb) : tcb := Tcb (tname r) (tstate r) (tproc r) (tid r) (tidx r) (tkilled r) (kstack r) (trapframe r) (ctx_ra r) (ctx_sp r) (ttg r) (wait_chan_entry r) (chan r) (timeout r) (set_child_tid r) v (sigs r) (blocked r) (pend_set r) (pending_cnt r) (sig_processing r).
Definition set_sigs (v : Z) (r : tcb) : tcb := Tcb (tname r) (tstate r) (tproc r) (tid r) (tidx r) (tkilled r) (kstack r) (trapframe r) (ctx_ra r) (ctx_sp r) (ttg r) (wait_chan_entry r) (chan r) (timeout r) (set_child_tid r) (clear_child_tid r) v (blocked r) (pend_set r) (pending_cnt r) (sig_processing r).
Definition set_blocked (v : Z) (r : tcb) : tcb := Tcb (tname r) (tstate r) (tproc r) (tid r) (tidx r) (tkilled r) (kstack r) (trapframe r) (ctx_ra r) (ctx_sp r) (ttg r) (wait_chan_entry r) (chan r) (timeout r) (set_child_tid r) (clear_child_tid r) (sigs r) v (pend_set r) (pending_cnt r) (sig_processing r).
Definition set_pend_set (v : Z) (r : tcb) : tcb := Tcb (tname r) (tstate r) (tproc r) (tid r) (tidx r) (tkilled r) (kstack r) (trapframe r) (ctx_ra r) (ctx_sp r) (ttg r) (wait_chan_entry r) (chan r) (timeout r) (set_child_tid r) (clear_child_tid r) (sigs r) (blocked r) v (pending_cnt r) (sig_processing r).
Definition set_pending_cnt (v : Z) (r : tcb) : tcb := Tcb (tname r) (tstate r) (tproc r) (tid r) (tidx r) (tkilled r) (kstack r) (trapframe r) (ctx_ra r) (ctx_sp r) (ttg r) (wait_chan_entry r) (chan r) (timeout r) (set_child_tid r) (clear_child_tid r) (sigs r) (blocked r) (pend_set r) v (sig_processing r).
Definition set_sig_processing (v : Z) (r : tcb) : tcb := Tcb (tname r) (tstate r) (tproc r) (tid r) (tidx r) (tkilled r) (kstack r) (trapframe r) (ctx_ra r) (ctx_sp r) (ttg r) (wait_chan_entry r) (chan r) (timeout r) (set_child_tid r) (clear_child_tid r) (sigs r) (blocked r) (pend_set r) (pending_cnt r) v.

(** struct proc of kernel/include/proc.h, with the fields of its thread group and mm_struct. *)
Record proc := Proc {
  pstate : procstate;   (* state *)
  pkilled : Z;   (* killed *)
  pxstate : Z;   (* xstate *)
  pid : Z;
  pgid : Z;
  pkstack : Z;   (* kstack *)
  psz : Z;   (* sz *)
  parent : option nat;
  first_child : option nat;
  tgid : Z;   (* tg.tgid *)
  thread_idx : Z;   (* tg.thread_idx *)
  thread_cnt : Z;   (* tg.thread_cnt *)
  group_leader : option nat;   (* tg.group_leader *)
  pagetable : Z;   (* mm.pagetable, 0 if none *)
  max_vma : Z;   (* mm.max_vma *)
  pname : string;   (* name *)
  cpath : string;   (* cinfo.path *)
  utime : Z;
  ktime : Z;
  ofile : list (option nat);   (* indices in ftable.file[], None if closed *)
  ofile_cnt : Z;
  rlim : nat -> Z * Z;   (* rlim_cur, rlim_max *)
}.

Definition set_pstate (v : procstate) (r : proc) : proc := Proc v (pkilled r) (pxstate r) (pid r) (pgid r) (pkstack r) (psz r) (parent r) (first_child r) (tgid r) (thread_idx r) (thread_cnt r) (group_leader r) (pagetable r) (max_vma r) (pname r) (cpath r) (utime r) (ktime r) (ofile r) (ofile_cnt r) (rlim r).
Definition set_pkilled (v : Z) (r : proc) : proc := Proc (pstate r) v (pxstate r) (pid r) (pgid r) (pkstack r) (psz r) (parent r) (first_child r) (tgid r) (thread_idx r) (thread_cnt r) (group_leader r) (pagetable r) (max_vma r) (pname r) (cpath r) (utime r) (ktime r) (ofile r) (ofile_cnt r) (rlim r).
Definition set_pxstate (v : Z) (r : proc) : proc := Proc (pstate r) (pkilled r) v (pid r) (pgid r) (pkstack r) (psz r) (parent r) (first_child r) (tgid r) (thread_idx r) (thread_cnt r) (group_leader r) (pagetable r) (max_vma r) (pname r) (cpath r) (utime r) (ktime r) (ofile r) (ofile_cnt r) (rlim r).
Definition set_pid (v : Z) (r : proc) : proc := Proc (pstate r) (pkilled r) (pxstate r) v (pgid r) (pkstack r) (psz r) (parent r) (first_child r) (tgid r) (thread_idx r) (thread_cnt r) (group_leader r) (pagetable r) (max_vma r) (pname r) (cpath r) (utime r) (ktime r) (ofile r) (ofile_cnt r) (rlim r).
Definition set_pgid (v : Z) (r : proc) : proc := Proc (pstate r) (pkilled r) (pxstate r) (pid r) v (pkstack r) (psz r) (parent r) (first_child r) (tgid r) (thread_idx r) (thread_cnt r) (group_leader r) (pagetable r) (max_vma r) (pname r) (cpath r) (utime r) (ktime r) (ofile r) (ofile_cnt r) (rlim r).
Definition set_pkstack (v : Z) (r : proc) : proc := Proc (pstate r) (pkilled r) (pxstate r) (pid r) (pgid r) v (psz r) (parent r) (first_child r) (tgid r) (thread_idx r) (thread_cnt r) (group_leader r) (pagetable r) (max_vma r) (pname r) (cpath r) (utime r) (ktime r) (ofile r) (ofile_cnt r) (rlim r).
Definition set_psz (v : Z) (r : proc) : proc := Proc (pstate r) (pkilled r) (pxstate r) (pid r) (pgid r) (pkstack r) v (parent r) (first_child r) (tgid r) (thread_idx r) (thread_cnt r) (group_leader r) (pagetable r) (max_vma r) (pname r) (cpath r) (utime r) (ktime r) (ofile r) (ofile_cnt r) (rlim r).
Definition set_parent (v : option nat) (r : proc) : proc := Proc (pstate r) (pkilled r) (pxstate r) (pid r) (pgid r) (pkstack r) (psz r) v (first_child r) (tgid r) (thread_idx r) (thread_cnt r) (group_leader r) (pagetable r) (max_vma r) (pname r) (cpath r) (utime r) (ktime r) (ofile r) (ofile_cnt r) (rlim r).
Definition set_first_child (v : option nat) (r : proc) : proc := Proc (pstate r) (pkilled r) (pxstate r) (pid r) (pgid r) (pkstack r) (psz r) (parent r) v (tgid r) (thread_idx r) (thread_cnt r) (group_leader r) (pagetable r) (max_vma r) (pname r) (cpath r) (utime r) (ktime r) (ofile r) (ofile_cnt r) (rlim r).
Definition set_tgid (v : Z) (r : proc) : proc := Proc (pstate r) (pkilled r) (pxstate r) (pid r) (pgid r) (pkstack r) (psz r) (parent r) (first_child r) v (thread_idx r) (thread_cnt r) (group_leader r) (pagetable r) (max_vma r) (pname r) (cpath r) (utime r) (ktime r) (ofile r) (ofile_cnt r) (rlim r).
Definition set_thread_idx (v : Z) (r : proc) : proc := Proc (pstate r) (pkilled r) (pxstate r) (pid r) (pgid r) (pkstack r) (psz r) (parent r) (first_child r) (tgid r) v (thread_cnt r) (group_leader r) (pagetable r) (max_vma r) (pname r) (cpath r) (utime r) (ktime r) (ofile r) (ofile_cnt r) (rlim r).
Definition set_thread_cnt (v : Z) (r : proc) : proc := Proc (pstate r) (pkilled r) (pxstate r) (pid r) (pgid r) (pkstack r) (psz r) (parent r) (first_child r) (tgid r) (thread_idx r) v (group_leader r) (pagetable r) (max_vma r) (pname r) (cpath r) (utime r) (ktime r) (ofile r) (ofile_cnt r) (rlim r).
Definition set_group_leader (v : option nat) (r : proc) : proc := Proc (pstate r) (pkilled r) (pxstate r) (pid r) (pgid r) (pkstack r) (psz r) (parent r) (first_child r) (tgid r) (thread_idx r) (thread_cnt r) v (pagetable r) (max_vma r) (pname r) (cpath r) (utime r) (ktime r) (ofile r) (ofile_cnt r) (rlim r).
Definition set_pagetable (v : Z) (r : proc) : proc := Proc (pstate r) (pkilled r) (pxstate r) (pid r) (pgid r) (pkstack r) (psz r) (parent r) (first_child r) (tgid r) (thread_idx r) (thread_cnt r) (group_leader r) v (max_vma r) (pname r) (cpath r) (utime r) (ktime r) (ofile r) (ofile_cnt r) (rlim r).
Definition set_max_vma (v : Z) (r : proc) : proc := Proc (pstate r) (pkilled r) (pxstate r) (pid r) (pgid r) (pkstack r) (psz r) (parent r) (first_child r) (tgid r) (thread_idx r) (thread_cnt r) (group_leader r) (pagetable r) v (pname r) (cpath r) (utime r) (ktime r) (ofile r) (ofile_cnt r) (rlim r).
Definition set_pname (v : string) (r : proc) : proc := Proc (pstate r) (pkilled r) (pxstate r) (pid r) (pgid r) (pkstack r) (psz r) (parent r) (first_child r) (tgid r) (thread_idx r) (thread_cnt r) (group_leader r) (pagetable r) (max_vma r) v (cpath r) (utime r) (ktime r) (ofile r) (ofile_cnt r) (rlim r).
Definition set_cpath (v : string) (r : proc) : proc := Proc (pstate r) (pkilled r) (pxstate r) (pid r) (pgid r) (pkstack r) (psz r) (parent r) (first_child r) (tgid r) (thread_idx r) (thread_cnt r) (group_leader r) (pagetable r) (max_vma r) (pname r) v (utime r) (ktime r) (ofile r) (ofile_cnt r) (rlim r).
Definition set_utime (v : Z) (r : proc) : proc := Proc (pstate r) (pkilled r) (pxstate r) (pid r) (pgid r) (pkstack r) (psz r) (parent r) (first_child r) (tgid r) (thread_idx r) (thread_cnt r) (group_leader r) (pagetable r) (max_vma r) (pname r) (cpath r) v (ktime r) (ofile r) (ofile_cnt r) (rlim r).
Definition set_ktime (v : Z) (r : proc) : proc := Proc (pstate r) (pkilled r) (pxstate r) (pid r) (pgid r) (pkstack r) (psz r) (parent r) (first_child r) (tgid r) (thread_idx r) (thread_cnt r) (group_leader r) (pagetable r) (max_vma r) (pname r) (cpath r) (utime r) v (ofile r) (ofile_cnt r) (rlim r).
Definition set_ofile (v : list (option nat)) (r : proc) : proc := Proc (pstate r) (pkilled r) (pxstate r) (pid r) (pgid r) (pkstack r) (psz r) (parent r) (first_child r) (tgid r) (thread_idx r) (thread_cnt r) (group_leader r) (pagetable r) (max_vma r) (pname r) (cpath r) (utime r) (ktime r) v (ofile_cnt r) (rlim r).
Definition set_ofile_cnt (v : Z) (r : proc) : proc := Proc (pstate r) (pkilled r) (pxstate r) (pid r) (pgid r) (pkstack r) (psz r) (parent r) (first_child r) (tgid r) (thread_idx r) (thread_cnt r) (group_leader r) (pagetable r) (max_vma r) (pname r) (cpath r) (utime r) (ktime r) (ofile r) v (rlim r).
Definition set_rlim (v : nat -> Z * Z) (r : proc) : proc := Proc (pstate r) (pkilled r) (pxstate r) (pid r) (pgid r) (pkstack r) (psz r) (parent r) (first_child r) (tgid r) (thread_idx r) (thread_cnt r) (group_leader r) (pagetable r) (max_vma r) (pname r) (cpath r) (utime r) (ktime r) (ofile r) (ofile_cnt r) v.

(** struct sigqueue: the siginfo it carries. *)
Record sigqueue := Sigqueue {
  si_signo : Z;
  si_code : Z;
}.

Definition set_si_signo (v : Z) (r : sigqueue) : sigqueue := Sigqueue v (si_code r).
Definition set_si_code (v : Z) (r : sigqueue) : sigqueue := Sigqueue (si_signo r) v.

(** struct sigaction. *)
Record sigaction := Sigaction {
  sa_handler : Z;
  sa_mask : Z;
  sa_flags : Z;
  sa_restorer : Z;
}.

Definition set_sa_handler (v : Z) (r : sigaction) : sigaction := Sigaction v (sa_mask r) (sa_flags r) (sa_restorer r).
Definition set_sa_mask (v : Z) (r : sigaction) : sigaction := Sigaction (sa_handler r) v (sa_flags r) (sa_restorer r).
Definition set_sa_flags (v : Z) (r : sigaction) : sigaction := Sigaction (sa_handler r) (sa_mask r) v (sa_restorer r).
Definition set_sa_restorer (v : Z) (r : sigaction) : sigaction := Sigaction (sa_handler r) (sa_mask r) (sa_flags r) v.

(** struct sighand; its lock is [L_sighand]. *)
Record sighand := Sighand {
  sh_ref : Z;   (* ref *)
  actions : Z -> sigaction;   (* actions, by signo - 1 *)
}.

Definition set_sh_ref (v : Z) (r : sighand) : sighand := Sighand v (actions r).
Definition set_actions (v : Z -> sigaction) (r : sighand) : sighand := Sighand (sh_ref r) v.

(** struct pipe. *)
Record pipe := Pipe {
  pdata : Z -> Z;   (* data *)
  nread : Z;
  nwrite : Z;
  readopen : Z;
  writeopen : Z;
}.

Definition set_pdata (v : Z -> Z) (r : pipe) : pipe := Pipe v (nread r) (nwrite r) (readopen r) (writeopen r).
Definition set_nread (v : Z) (r : pipe) : pipe := Pipe (pdata r) v (nwrite r) (readopen r) (writeopen r).
Definition set_nwrite (v : Z) (r : pipe) : pipe := Pipe (pdata r) (nread r) v (readopen r) (writeopen r).
Definition set_readopen (v : Z) (r : pipe) : pipe := Pipe (pdata r) (nread r) (nwrite r) v (writeopen r).
Definition set_writeopen (v : Z) (r : pipe) : pipe := Pipe (pdata r) (nread r) (nwrite r) (readopen r) v.

(** struct semaphore; its condition variable is [CondQ]. *)
Record sem := Sem {
  svalue : Z;   (* value *)
  swakeup : Z;   (* wakeup *)
}.

Definition set_svalue (v : Z) (r : sem) : sem := Sem v (swakeup r).
Definition set_swakeup (v : Z) (r : sem) : sem := Sem (svalue r) v.

(** struct sleeplock. *)
Record sleeplock := Sleeplock {
  slocked : Z;   (* locked *)
  spid : Z;   (* pid *)
}.

Definition set_slocked (v : Z) (r : sleeplock) : sleeplock := Sleeplock v (spid r).
Definition set_spid (v : Z) (r : sleeplock) : sleeplock := Sleeplock (slocked r) v.

(** struct futex_hash_node. *)
Record fhnode := Fhnode {
  fh_uaddr : Z;   (* uaddr *)
  fh_fp : Z;   (* fp *)
}.

Definition set_fh_uaddr (v : Z) (r : fhnode) : fhnode := Fhnode v (fh_fp r).
Definition set_fh_fp (v : Z) (r : fhnode) : fhnode := Fhnode (fh_uaddr r) v.

(** struct vma_struct; its list node is [Vma]. *)
Record vma_struct := VmaStruct {
  vm_valid : Z;   (* valid *)
  vm_start : Z;
  vm_end : Z;
  vm_offset : Z;   (* offset *)
  vm_flags : Z;   (* flags *)
  vm_prot : Z;   (* prot *)
  vm_fd : Z;   (* fd *)
  vm_file : option nat;   (* file *)
  vm_anon : bool;   (* type: VMA_ANONYMOUS, else VMA_FILE *)
}.

Definition set_vm_valid (v : Z) (r : vma_struct) : vma_struct := VmaStruct v (vm_start r) (vm_end r) (vm_offset r) (vm_flags r) (vm_prot r) (vm_fd r) (vm_file r) (vm_anon r).
Definition set_vm_start (v : Z) (r : vma_struct) : vma_struct := VmaStruct (vm_valid r) v (vm_end r) (vm_offset r) (vm_flags r) (vm_prot r) (vm_fd r) (vm_file r) (vm_anon r).
Definition set_vm_end (v : Z) (r : vma_struct) : vma_struct := VmaStruct (vm_valid r) (vm_start r) v (vm_offset r) (vm_flags r) (vm_prot r) (vm_fd r) (vm_file r) (vm_anon r).
Definition set_vm_offset (v : Z) (r : vma_struct) : vma_struct := VmaStruct (vm_valid r) (vm_start r) (vm_end r) v (vm_flags r) (vm_prot r) (vm_fd r) (vm_file r) (vm_anon r).
Definition set_vm_flags (v : Z) (r : vma_struct) : vma_struct := VmaStruct (vm_valid r) (vm_start r) (vm_end r) (vm_offset r) v (vm_prot r) (vm_fd r) (vm_file r) (vm_anon r).
Definition set_vm_prot (v : Z) (r : vma_struct) : vma_struct := VmaStruct (vm_valid r) (vm_start r) (vm_end r) (vm_offset r) (vm_flags r) v (vm_fd r) (vm_file r) (vm_anon r).
Definition set_vm_fd (v : Z) (r : vma_struct) : vma_struct := VmaStruct (vm_valid r) (vm_start r) (vm_end r) (vm_offset r) (vm_flags r) (vm_prot r) v (vm_file r) (vm_anon r).
Definition set_vm_file (v : option nat) (r : vma_struct) : vma_struct := VmaStruct (vm_valid r) (vm_start r) (vm_end r) (vm_offset r) (vm_flags r) (vm_prot r) (vm_fd r) v (vm_anon r).
Definition set_vm_anon (v : bool) (r : vma_struct) : vma_struct := VmaStruct (vm_valid r) (vm_start r) (vm_end r) (vm_offset r) (vm_flags r) (vm_prot r) (vm_fd r) (vm_file r) v.

(** The type of an open file. *)
Inductive fd_type := FD_NONE | FD_PIPE | FD_INODE | FD_DEVICE | FD_SOFTLINK | FD_SOCKET | FD_DIR | FD_SPEC.
#[global] Instance fd_type_dec : EqDecision fd_type.
Proof. solve_decision. Defined.

(** struct file of kernel/include/file.h; its operations are those of the file system it was opened on. *)
Record file := File {
  ftype : fd_type;   (* type *)
  fref : Z;   (* ref *)
  fflags : Z;   (* flags *)
  fomode : Z;   (* omode *)
  fpipe : Z;   (* pipe: address of its page *)
  fmajor : Z;   (* major *)
  fprivate : Z;   (* private_data, 0 if NULL *)
  fpath : string;   (* info.path *)
  fpos : Z;
  fistmp : Z;   (* istmp *)
}.

Definition set_ftype (v : fd_type) (r : file) : file := File v (fref r) (fflags r) (fomode r) (fpipe r) (fmajor r) (fprivate r) (fpath r) (fpos r) (fistmp r).
Definition set_fref (v : Z) (r : file) : file := File (ftype r) v (fflags r) (fomode r) (fpipe r) (fmajor r) (fprivate r) (fpath r) (fpos r) (fistmp r).
Definition set_fflags (v : Z) (r : file) : file := File (ftype r) (fref r) v (fomode r) (fpipe r) (fmajor r) (fprivate r) (fpath r) (fpos r) (fistmp r).
Definition set_fomode (v : Z) (r : file) : file := File (ftype r) (fref r) (fflags r) v (fpipe r) (fmajor r) (fprivate r) (fpath r) (fpos r) (fistmp r).
Definition set_fpipe (v : Z) (r : file) : file := File (ftype r) (fref r) (fflags r) (fomode r) v (fmajor r) (fprivate r) (fpath r) (fpos r) (fistmp r).
Definition set_fmajor (v : Z) (r : file) : file := File (ftype r) (fref r) (fflags r) (fomode r) (fpipe r) v (fprivate r) (fpath r) (fpos r) (fistmp r).
Definition set_fprivate (v : Z) (r : file) : file := File (ftype r) (fref r) (fflags r) (fomode r) (fpipe r) (fmajor r) v (fpath r) (fpos r) (fistmp r).
Definition set_fpath (v : string) (r : file) : file := File (ftype r) (fref r) (fflags r) (fomode r) (fpipe r) (fmajor r) (fprivate r) v (fpos r) (fistmp r).
Definition set_fpos (v : Z) (r : file) : file := File (ftype r) (fref r) (fflags r) (fomode r) (fpipe r) (fmajor r) (fprivate r) (fpath r) v (fistmp r).
Definition set_fistmp (v : Z) (r : file) : file := File (ftype r) (fref r) (fflags r) (fomode r) (fpipe r) (fmajor r) (fprivate r) (fpath r) (fpos r) v.

(** struct buf of kernel/include/buf.h; its sleep lock is [sleeplocks] at [buf_lock] and its prev and next are the node [BBuf] of [blinks]. *)
Record buf := Buf {
  bvalid : Z;   (* valid *)
  bdisk : Z;   (* disk *)
  bdev : Z;   (* dev *)
  blockno : Z;
  refcnt : Z;
  bdata : mem;   (* data, by offset *)
}.

Definition set_bvalid (v : Z) (r : buf) : buf := Buf v (bdisk r) (bdev r) (blockno r) (refcnt r) (bdata r).
Definition set_bdisk (v : Z) (r : buf) : buf := Buf (bvalid r) v (bdev r) (blockno r) (refcnt r) (bdata r).
Definition set_bdev (v : Z) (r : buf) : buf := Buf (bvalid r) (bdisk r) v (blockno r) (refcnt r) (bdata r).
Definition set_blockno (v : Z) (r : buf) : buf := Buf (bvalid r) (bdisk r) (bdev r) v (refcnt r) (bdata r).
Definition set_refcnt (v : Z) (r : buf) : buf := Buf (bvalid r) (bdisk r) (bdev r) (blockno r) v (bdata r).
Definition set_bdata (v : mem) (r : buf) : buf := Buf (bvalid r) (bdisk r) (bdev r) (blockno r) (refcnt r) v.

(** struct log of kernel/fs/log.c with its logheader; its lock is [L_log]. *)
Record xlog := Xlog {
  lstart : Z;   (* start *)
  lsize : Z;   (* size *)
  outstanding : Z;
  committing : Z;
  ldev : Z;   (* dev *)
  lhn : Z;   (* lh.n *)
  lhblock : Z -> Z;   (* lh.block, by index *)
}.

Definition set_lstart (v : Z) (r : xlog) : xlog := Xlog v (lsize r) (outstanding r) (committing r) (ldev r) (lhn r) (lhblock r).
Definition set_lsize (v : Z) (r : xlog) : xlog := Xlog (lstart r) v (outstanding r) (committing r) (ldev r) (lhn r) (lhblock r).
Definition set_outstanding (v : Z) (r : xlog) : xlog := Xlog (lstart r) (lsize r) v (committing r) (ldev r) (lhn r) (lhblock r).
Definition set_committing (v : Z) (r : xlog) : xlog := Xlog (lstart r) (lsize r) (outstanding r) v (ldev r) (lhn r) (lhblock r).
Definition set_ldev (v : Z) (r : xlog) : xlog := Xlog (lstart r) (lsize r) (outstanding r) (committing r) v (lhn r) (lhblock r).
Definition set_lhn (v : Z) (r : xlog) : xlog := Xlog (lstart r) (lsize r) (outstanding r) (committing r) (ldev r) v (lhblock r).
Definition set_lhblock (v : Z -> Z) (r : xlog) : xlog := Xlog (lstart r) (lsize r) (outstanding r) (committing r) (ldev r) (lhn r) v.

(** struct inode of kernel/include/file.h; its sleep lock is [sleeplocks] at [inode_lock]. *)
Record inode := Inode {
  idev : Z;   (* dev *)
  inum : Z;
  iref : Z;   (* ref *)
  ivalid : Z;   (* valid *)
  itype : Z;   (* type *)
  imajor : Z;   (* major *)
  iminor : Z;   (* minor *)
  inlink : Z;   (* nlink *)
  isize : Z;   (* size *)
  ifs : option nat;   (* fs and iops: the file system *)
  i_private : option nat;   (* the private inode of the file system *)
}.

Definition set_idev (v : Z) (r : inode) : inode := Inode v (inum r) (iref r) (ivalid r) (itype r) (imajor r) (iminor r) (inlink r) (isize r) (ifs r) (i_private r).
Definition set_inum (v : Z) (r : inode) : inode := Inode (idev r) v (iref r) (ivalid r) (itype r) (imajor r) (iminor r) (inlink r) (isize r) (ifs r) (i_private r).
Definition set_iref (v : Z) (r : inode) : inode := Inode (idev r) (inum r) v (ivalid r) (itype r) (imajor r) (iminor r) (inlink r) (isize r) (ifs r) (i_private r).
Definition set_ivalid (v : Z) (r : inode) : inode := Inode (idev r) (inum r) (iref r) v (itype r) (imajor r) (iminor r) (inlink r) (isize r) (ifs r) (i_private r).
Definition set_itype (v : Z) (r : inode) : inode := Inode (idev r) (inum r) (iref r) (ivalid r) v (imajor r) (iminor r) (inlink r) (isize r) (ifs r) (i_private r).
Definition set_imajor (v : Z) (r : inode) : inode := Inode (idev r) (inum r) (iref r) (ivalid r) (itype r) v (iminor r) (inlink r) (isize r) (ifs r) (i_private r).
Definition set_iminor (v : Z) (r : inode) : inode := Inode (idev r) (inum r) (iref r) (ivalid r) (itype r) (imajor r) v (inlink r) (isize r) (ifs r) (i_private r).
Definition set_inlink (v : Z) (r : inode) : inode := Inode (idev r) (inum r) (iref r) (ivalid r) (itype r) (imajor r) (iminor r) v (isize r) (ifs r) (i_private r).
Definition set_isize (v : Z) (r : inode) : inode := Inode (idev r) (inum r) (iref r) (ivalid r) (itype r) (imajor r) (iminor r) (inlink r) v (ifs r) (i_private r).
Definition set_ifs (v : option nat) (r : inode) : inode := Inode (idev r) (inum r) (iref r) (ivalid r) (itype r) (imajor r) (iminor r) (inlink r) (isize r) v (i_private r).
Definition set_i_private (v : option nat) (r : inode) : inode := Inode (idev r) (inum r) (iref r) (ivalid r) (itype r) (imajor r) (iminor r) (inlink r) (isize r) (ifs r) v.

(** struct xv6fs_inode: the fields the code uses. *)
Record xinode := Xinode {
  xi_flags : Z;   (* flags *)
  xi_addrs : Z -> Z;   (* addrs *)
}.

Definition set_xi_flags (v : Z) (r : xinode) : xinode := Xinode v (xi_addrs r).
Definition set_xi_addrs (v : Z -> Z) (r : xinode) : xinode := Xinode (xi_flags r) v.

(** struct superblock. *)
Record superblock := Superblock {
  sb_major : Z;   (* major *)
  sb_minor : Z;   (* minor *)
  sb_blocksize : Z;   (* blocksize *)
  sb_fs_info : option nat;   (* fs_info *)
  sb_flags : Z;   (* flags *)
}.

Definition set_sb_major (v : Z) (r : superblock) : superblock := Superblock v (sb_minor r) (sb_blocksize r) (sb_fs_info r) (sb_flags r).
Definition set_sb_minor (v : Z) (r : superblock) : superblock := Superblock (sb_major r) v (sb_blocksize r) (sb_fs_info r) (sb_flags r).
Definition set_sb_blocksize (v : Z) (r : superblock) : superblock := Superblock (sb_major r) (sb_minor r) v (sb_fs_info r) (sb_flags r).
Definition set_sb_fs_info (v : option nat) (r : superblock) : superblock := Superblock (sb_major r) (sb_minor r) (sb_blocksize r) v (sb_flags r).
Definition set_sb_flags (v : Z) (r : superblock) : superblock := Superblock (sb_major r) (sb_minor r) (sb_blocksize r) (sb_fs_info r) v.

(** struct xv6fs_superblock. *)
Record xsuper := Xsuper {
  xs_magic : Z;   (* magic *)
  xs_size : Z;   (* size *)
  xs_nblocks : Z;   (* nblocks *)
  xs_ninodes : Z;   (* ninodes *)
  xs_nlog : Z;   (* nlog *)
  xs_logstart : Z;   (* logstart *)
  xs_inodestart : Z;   (* inodestart *)
  xs_bmapstart : Z;   (* bmapstart *)
  xs_flags : Z;   (* flags *)
}.

Definition set_xs_magic (v : Z) (r : xsuper) : xsuper := Xsuper v (xs_size r) (xs_nblocks r) (xs_ninodes r) (xs_nlog r) (xs_logstart r) (xs_inodestart r) (xs_bmapstart r) (xs_flags r).
Definition set_xs_size (v : Z) (r : xsuper) : xsuper := Xsuper (xs_magic r) v (xs_nblocks r) (xs_ninodes r) (xs_nlog r) (xs_logstart r) (xs_inodestart r) (xs_bmapstart r) (xs_flags r).
Definition set_xs_nblocks (v : Z) (r : xsuper) : xsuper := Xsuper (xs_magic r) (xs_size r) v (xs_ninodes r) (xs_nlog r) (xs_logstart r) (xs_inodestart r) (xs_bmapstart r) (xs_flags r).
Definition set_xs_ninodes (v : Z) (r : xsuper) : xsuper := Xsuper (xs_magic r) (xs_size r) (xs_nblocks r) v (xs_nlog r) (xs_logstart r) (xs_inodestart r) (xs_bmapstart r) (xs_flags r).
Definition set_xs_nlog (v : Z) (r : xsuper) : xsuper := Xsuper (xs_magic r) (xs_size r) (xs_nblocks r) (xs_ninodes r) v (xs_logstart r) (xs_inodestart r) (xs_bmapstart r) (xs_flags r).
Definition set_xs_logstart (v : Z) (r : xsuper) : xsuper := Xsuper (xs_magic r) (xs_size r) (xs_nblocks r) (xs_ninodes r) (xs_nlog r) v (xs_inodestart r) (xs_bmapstart r) (xs_flags r).
Definition set_xs_inodestart (v : Z) (r : xsuper) : xsuper := Xsuper (xs_magic r) (xs_size r) (xs_nblocks r) (xs_ninodes r) (xs_nlog r) (xs_logstart r) v (xs_bmapstart r) (xs_flags r).
Definition set_xs_bmapstart (v : Z) (r : xsuper) : xsuper := Xsuper (xs_magic r) (xs_size r) (xs_nblocks r) (xs_ninodes r) (xs_nlog r) (xs_logstart r) (xs_inodestart r) v (xs_flags r).
Definition set_xs_flags (v : Z) (r : xsuper) : xsuper := Xsuper (xs_magic r) (xs_size r) (xs_nblocks r) (xs_ninodes r) (xs_nlog r) (xs_logstart r) (xs_inodestart r) (xs_bmapstart r) v.

(** struct mntentry. *)
Record mntentry := Mntentry {
  m_inode : option nat;
  m_rtinode : option nat;
  m_pdata : Z;   (* pdata: the device whose superblock it is *)
  m_dev : Z;   (* dev *)
  m_flags : Z;   (* flags *)
}.

Definition set_m_inode (v : option nat) (r : mntentry) : mntentry := Mntentry v (m_rtinode r) (m_pdata r) (m_dev r) (m_flags r).
Definition set_m_rtinode (v : option nat) (r : mntentry) : mntentry := Mntentry (m_inode r) v (m_pdata r) (m_dev r) (m_flags r).
Definition set_m_pdata (v : Z) (r : mntentry) : mntentry := Mntentry (m_inode r) (m_rtinode r) v (m_dev r) (m_flags r).
Definition set_m_dev (v : Z) (r : mntentry) : mntentry := Mntentry (m_inode r) (m_rtinode r) (m_pdata r) v (m_flags r).
Definition set_m_flags (v : Z) (r : mntentry) : mntentry := Mntentry (m_inode r) (m_rtinode r) (m_pdata r) (m_dev r) v.

(** struct vfs; its place on the list of mounted file systems is its place in [vfsmlist]. *)
Record vfs := Vfs {
  vfs_major : Z;   (* major *)
  vfs_minor : Z;   (* minor *)
  vfs_flag : Z;   (* flag *)
  vfs_fst : option nat;   (* fs_t *)
}.

Definition set_vfs_major (v : Z) (r : vfs) : vfs := Vfs v (vfs_minor r) (vfs_flag r) (vfs_fst r).
Definition set_vfs_minor (v : Z) (r : vfs) : vfs := Vfs (vfs_major r) v (vfs_flag r) (vfs_fst r).
Definition set_vfs_flag (v : Z) (r : vfs) : vfs := Vfs (vfs_major r) (vfs_minor r) v (vfs_fst r).
Definition set_vfs_fst (v : option nat) (r : vfs) : vfs := Vfs (vfs_major r) (vfs_minor r) (vfs_flag r) v.

(** struct ext4_file, and struct ext4_inode as far as the kernel reads it;
    struct ext4_mfile and struct ext4_minode. *)
Record ext4_file := Ext4File {
  ef_mp : Z;   (* mp *)
  ef_inode : Z;   (* inode *)
  ef_flags : Z;   (* flags *)
  ef_fsize : Z;   (* fsize *)
  ef_fpos : Z;   (* fpos *)
}.

Definition set_ef_fpos (v : Z) (r : ext4_file) : ext4_file := Ext4File (ef_mp r) (ef_inode r) (ef_flags r) (ef_fsize r) v.

Record ext4_mfile := Ext4Mfile {
  mf_ref : Z;   (* ref *)
  mf_entry : ext4_file;   (* ext4_fentry *)
}.

Record ext4_inode := Ext4Inode {
  ei_mode : Z;   (* mode *)
  ei_uid : Z;   (* uid *)
  ei_size_lo : Z;   (* size_lo *)
  ei_access_time : Z;   (* access_time *)
  ei_change_inode_time : Z;   (* change_inode_time *)
  ei_modification_time : Z;   (* modification_time *)
  ei_gid : Z;   (* gid *)
  ei_links_count : Z;   (* links_count *)
  ei_blocks_count_lo : Z;   (* blocks_count_lo *)
  ei_block0 : Z;   (* blocks[0] *)
  ei_block1 : Z;   (* blocks[1] *)
  ei_mode_high : Z;   (* osd2.hurd2.mode_high *)
}.

Record ext4_minode := Ext4Minode {
  mi_ref : Z;   (* ref *)
  mi_entry : ext4_inode;   (* ext4_ientry *)
}.

Definition mfile_zero : ext4_mfile := Ext4Mfile 0 (Ext4File 0 0 0 0 0).
Definition minode_zero : ext4_minode := Ext4Minode 0 (Ext4Inode 0 0 0 0 0 0 0 0 0 0 0 0).

(** The tables of the file system layer. *)
Record fsstate := Fsstate {
  inodes : nat -> inode;   (* icache.inode *)
  xinodes : nat -> xinode;   (* xv6fs_inode_pool *)
  sbs : Z -> superblock;   (* sb *)
  xsbs : nat -> xsuper;   (* xv6fs_sb_pool *)
  mpoints : nat -> mntentry;   (* mtable.mpoint *)
  vfspool : nat -> vfs;   (* vfspool.vfsentry *)
  vfsmlist : list nat;   (* vfsmlist.fs_list, in order *)
  rootfs : option nat;
  ext4_fpool : nat -> ext4_mfile;   (* ext4_fpool.fpool *)
  ext4_ipool : nat -> ext4_minode;   (* ext4_ipool.ipool *)
}.

Definition set_inodes (v : nat -> inode) (r : fsstate) : fsstate := Fsstate v (xinodes r) (sbs r) (xsbs r) (mpoints r) (vfspool r) (vfsmlist r) (rootfs r) (ext4_fpool r) (ext4_ipool r).
Definition set_xinodes (v : nat -> xinode) (r : fsstate) : fsstate := Fsstate (inodes r) v (sbs r) (xsbs r) (mpoints r) (vfspool r) (vfsmlist r) (rootfs r) (ext4_fpool r) (ext4_ipool r).
Definition set_sbs (v : Z -> superblock) (r : fsstate) : fsstate := Fsstate (inodes r) (xinodes r) v (xsbs r) (mpoints r) (vfspool r) (vfsmlist r) (rootfs r) (ext4_fpool r) (ext4_ipool r).
Definition set_xsbs (v : nat -> xsuper) (r : fsstate) : fsstate := Fsstate (inodes r) (xinodes r) (sbs r) v (mpoints r) (vfspool r) (vfsmlist r) (rootfs r) (ext4_fpool r) (ext4_ipool r).
Definition set_mpoints (v : nat -> mntentry) (r : fsstate) : fsstate := Fsstate (inodes r) (xinodes r) (sbs r) (xsbs r) v (vfspool r) (vfsmlist r) (rootfs r) (ext4_fpool r) (ext4_ipool r).
Definition set_vfspool (v : nat -> vfs) (r : fsstate) : fsstate := Fsstate (inodes r) (xinodes r) (sbs r) (xsbs r) (mpoints r) v (vfsmlist r) (rootfs r) (ext4_fpool r) (ext4_ipool r).
Definition set_vfsmlist (v : list nat) (r : fsstate) : fsstate := Fsstate (inodes r) (xinodes r) (sbs r) (xsbs r) (mpoints r) (vfspool r) v (rootfs r) (ext4_fpool r) (ext4_ipool r).
Definition set_rootfs (v : option nat) (r : fsstate) : fsstate := Fsstate (inodes r) (xinodes r) (sbs r) (xsbs r) (mpoints r) (vfspool r) (vfsmlist r) v (ext4_fpool r) (ext4_ipool r).
Definition set_ext4_fpool (v : nat -> ext4_mfile) (r : fsstate) : fsstate := Fsstate (inodes r) (xinodes r) (sbs r) (xsbs r) (mpoints r) (vfspool r) (vfsmlist r) (rootfs r) v (ext4_ipool r).
Definition set_ext4_ipool (v : nat -> ext4_minode) (r : fsstate) : fsstate := Fsstate (inodes r) (xinodes r) (sbs r) (xsbs r) (mpoints r) (vfspool r) (vfsmlist r) (rootfs r) (ext4_fpool r) v.

(** struct cons of kernel/arch/qemu/console.c; its lock is [L_cons]. *)
Record console := Console {
  cbuf : Z -> Z;   (* buf *)
  cons_r : Z;   (* r *)
  cons_w : Z;   (* w *)
  cons_e : Z;   (* e *)
}.

Definition set_cbuf (v : Z -> Z) (r : console) : console := Console v (cons_r r) (cons_w r) (cons_e r).
Definition set_cons_r (v : Z) (r : console) : console := Console (cbuf r) v (cons_w r) (cons_e r).
Definition set_cons_w (v : Z) (r : console) : console := Console (cbuf r) (cons_r r) v (cons_e r).
Definition set_cons_e (v : Z) (r : console) : console := Console (cbuf r) (cons_r r) (cons_w r) v.

(** The transmit buffer of kernel/arch/qemu/uart.c, and the device. *)
Record uartdev := Uartdev {
  tx_buf : Z -> Z;   (* uart_tx_buf *)
  tx_w : Z;   (* uart_tx_w *)
  tx_r : Z;   (* uart_tx_r *)
  rhr : list Z;   (* the bytes received and not yet read from RHR *)
  thr : list Z;   (* the bytes written to THR, oldest first *)
  lsr_idle : nat -> bool;   (* what the successive reads of LSR say of LSR_TX_IDLE *)
  lsr_reads : nat;   (* how many there have been *)
}.

Definition set_tx_buf (v : Z -> Z) (r : uartdev) : uartdev := Uartdev v (tx_w r) (tx_r r) (rhr r) (thr r) (lsr_idle r) (lsr_reads r).
Definition set_tx_w (v : Z) (r : uartdev) : uartdev := Uartdev (tx_buf r) v (tx_r r) (rhr r) (thr r) (lsr_idle r) (lsr_reads r).
Definition set_tx_r (v : Z) (r : uartdev) : uartdev := Uartdev (tx_buf r) (tx_w r) v (rhr r) (thr r) (lsr_idle r) (lsr_reads r).
Definition set_rhr (v : list Z) (r : uartdev) : uartdev := Uartdev (tx_buf r) (tx_w r) (tx_r r) v (thr r) (lsr_idle r) (lsr_reads r).
Definition set_thr (v : list Z) (r : uartdev) : uartdev := Uartdev (tx_buf r) (tx_w r) (tx_r r) (rhr r) v (lsr_idle r) (lsr_reads r).
Definition set_lsr_idle (v : nat -> bool) (r : uartdev) : uartdev := Uartdev (tx_buf r) (tx_w r) (tx_r r) (rhr r) (thr r) v (lsr_reads r).
Definition set_lsr_reads (v : nat) (r : uartdev) : uartdev := Uartdev (tx_buf r) (tx_w r) (tx_r r) (rhr r) (thr r) (lsr_idle r) v.

(** The addresses the descriptors of the disk hold. *)
Inductive daddr :=
| DNull
| DOp (i : nat)        (* &disk.ops[i] *)
| DData (b : nat)      (* the data of a struct buf *)
| DStatus (i : nat).   (* &disk.info[i].status *)
#[global] Instance daddr_dec : EqDecision daddr.
Proof. solve_decision. Defined.

(** struct virtq_desc of kernel/include/virtio.h. *)
Record virtq_desc := Virtq_desc {
  d_addr : daddr;   (* addr *)
  d_len : Z;   (* len *)
  d_flags : Z;   (* flags *)
  d_next : Z;   (* next *)
}.

Definition set_d_addr (v : daddr) (r : virtq_desc) : virtq_desc := Virtq_desc v (d_len r) (d_flags r) (d_next r).
Definition set_d_len (v : Z) (r : virtq_desc) : virtq_desc := Virtq_desc (d_addr r) v (d_flags r) (d_next r).
Definition set_d_flags (v : Z) (r : virtq_desc) : virtq_desc := Virtq_desc (d_addr r) (d_len r) v (d_next r).
Definition set_d_next (v : Z) (r : virtq_desc) : virtq_desc := Virtq_desc (d_addr r) (d_len r) (d_flags r) v.

(** An entry of disk.info of kernel/fs/virtio_disk.c. *)
Record vinfo := Vinfo {
  in_b : option nat;   (* b *)
  in_status : Z;   (* status *)
  in_idx1 : Z;   (* idx1 *)
}.

Definition set_in_b (v : option nat) (r : vinfo) : vinfo := Vinfo v (in_status r) (in_idx1 r).
Definition set_in_status (v : Z) (r : vinfo) : vinfo := Vinfo (in_b r) v (in_idx1 r).
Definition set_in_idx1 (v : Z) (r : vinfo) : vinfo := Vinfo (in_b r) (in_status r) v.

(** struct virtio_blk_req: the fields the driver sets. *)
Record virtio_blk_req := Virtio_blk_req {
  rq_type : Z;   (* type *)
  rq_sector : Z;   (* sector *)
}.

Definition set_rq_type (v : Z) (r : virtio_blk_req) : virtio_blk_req := Virtio_blk_req v (rq_sector r).
Definition set_rq_sector (v : Z) (r : virtio_blk_req) : virtio_blk_req := Virtio_blk_req (rq_type r) v.

(** struct disk of kernel/fs/virtio_disk.c, with the rings it shares with the device; its lock is [L_vdisk]. *)
Record vdisk := Vdisk {
  vdesc : nat -> virtq_desc;   (* desc *)
  av_ring : nat -> Z;   (* avail->ring *)
  av_idx : Z;   (* avail->idx *)
  us_ring : nat -> Z;   (* the id of used->ring *)
  us_idx : Z;   (* used->idx *)
  vfree : nat -> Z;   (* free *)
  vused_idx : Z;   (* used_idx *)
  vinfos : nat -> vinfo;   (* info *)
  vops : nat -> virtio_blk_req;   (* ops *)
  vregs : list (Z * Z);   (* the writes of device registers, oldest first *)
}.

Definition set_vdesc (v : nat -> virtq_desc) (r : vdisk) : vdisk := Vdisk v (av_ring r) (av_idx r) (us_ring r) (us_idx r) (vfree r) (vused_idx r) (vinfos r) (vops r) (vregs r).
Definition set_av_ring (v : nat -> Z) (r : vdisk) : vdisk := Vdisk (vdesc r) v (av_idx r) (us_ring r) (us_idx r) (vfree r) (vused_idx r) (vinfos r) (vops r) (vregs r).
Definition set_av_idx (v : Z) (r : vdisk) : vdisk := Vdisk (vdesc r) (av_ring r) v (us_ring r) (us_idx r) (vfree r) (vused_idx r) (vinfos r) (vops r) (vregs r).
Definition set_us_ring (v : nat -> Z) (r : vdisk) : vdisk := Vdisk (vdesc r) (av_ring r) (av_idx r) v (us_idx r) (vfree r) (vused_idx r) (vinfos r) (vops r) (vregs r).
Definition set_us_idx (v : Z) (r : vdisk) : vdisk := Vdisk (vdesc r) (av_ring r) (av_idx r) (us_ring r) v (vfree r) (vused_idx r) (vinfos r) (vops r) (vregs r).
Definition set_vfree (v : nat -> Z) (r : vdisk) : vdisk := Vdisk (vdesc r) (av_ring r) (av_idx r) (us_ring r) (us_idx r) v (vused_idx r) (vinfos r) (vops r) (vregs r).
Definition set_vused_idx (v : Z) (r : vdisk) : vdisk := Vdisk (vdesc r) (av_ring r) (av_idx r) (us_ring r) (us_idx r) (vfree r) v (vinfos r) (vops r) (vregs r).
Definition set_vinfos (v : nat -> vinfo) (r : vdisk) : vdisk := Vdisk (vdesc r) (av_ring r) (av_idx r) (us_ring r) (us_idx r) (vfree r) (vused_idx r) v (vops r) (vregs r).
Definition set_vops (v : nat -> virtio_blk_req) (r : vdisk) : vdisk := Vdisk (vdesc r) (av_ring r) (av_idx r) (us_ring r) (us_idx r) (vfree r) (vused_idx r) (vinfos r) v (vregs r).
Definition set_vregs (v : list (Z * Z)) (r : vdisk) : vdisk := Vdisk (vdesc r) (av_ring r) (av_idx r) (us_ring r) (us_idx r) (vfree r) (vused_idx r) (vinfos r) (vops r) v.

(** The control registers of the hart that the trap code reads and writes. *)
Record trapregs := Trapregs {
  sstatus : Z;
  sepc : Z;
  scause : Z;
  stval : Z;
  stvec : Z;
  satp : Z;
  sip : Z;
  next_timer : Z;   (* the last value given to sbi_set_timer *)
}.

Definition set_sstatus (v : Z) (r : trapregs) : trapregs := Trapregs v (sepc r) (scause r) (stval r) (stvec r) (satp r) (sip r) (next_timer r).
Definition set_sepc (v : Z) (r : trapregs) : trapregs := Trapregs (sstatus r) v (scause r) (stval r) (stvec r) (satp r) (sip r) (next_timer r).
Definition set_scause (v : Z) (r : trapregs) : trapregs := Trapregs (sstatus r) (sepc r) v (stval r) (stvec r) (satp r) (sip r) (next_timer r).
Definition set_stval (v : Z) (r : trapregs) : trapregs := Trapregs (sstatus r) (sepc r) (scause r) v (stvec r) (satp r) (sip r) (next_timer r).
Definition set_stvec (v : Z) (r : trapregs) : trapregs := Trapregs (sstatus r) (sepc r) (scause r) (stval r) v (satp r) (sip r) (next_timer r).
Definition set_satp (v : Z) (r : trapregs) : trapregs := Trapregs (sstatus r) (sepc r) (scause r) (stval r) (stvec r) v (sip r) (next_timer r).
Definition set_sip (v : Z) (r : trapregs) : trapregs := Trapregs (sstatus r) (sepc r) (scause r) (stval r) (stvec r) (satp r) v (next_timer r).
Definition set_next_timer (v : Z) (r : trapregs) : trapregs := Trapregs (sstatus r) (sepc r) (scause r) (stval r) (stvec r) (satp r) (sip r) v.

(** The shared state. *)
Record kstate := KState {
  km : mach;   (* memory, page allocator, locks held *)
  lh : gmap lptr (list_head lptr);   (* list nodes *)
  queues : qid -> queue;
  tcbs : nat -> tcb;   (* tcb_pool *)
  procs : nat -> proc;   (* proc *)
  next_tid : Z;
  nextpid : Z;
  cur : option nat;   (* mycpu()->thread *)
  initproc : option nat;
  ticks : Z;
  sigqs : gmap Z sigqueue;
  sighands : gmap Z sighand;
  futexes : gset Z;   (* struct futex objects *)
  fhnodes : gmap Z fhnode;
  pipes : gmap Z pipe;
  sems : Z -> sem;
  sleeplocks : Z -> sleeplock;
  vmas : gmap Z vma_struct;
  files : nat -> file;   (* ftable.file *)
  bufs : nat -> buf;   (* bcache.buf *)
  blinks : gmap bptr (list_head bptr);   (* the prev and next of bcache.head and of every buffer *)
  flog : xlog;   (* log *)
  image : Z -> mem;   (* the blocks of the disk when the machine was started *)
  dwrites : list (Z * mem);   (* the block writes the disk has done since, oldest first *)
  ftabs : fsstate;   (* the tables of the file systems *)
  cons : console;
  uart : uartdev;
  vd : vdisk;   (* disk *)
  panicked : Z;
  rand_next : Z;   (* rand_next_kernel *)
  csr : trapregs;
  plicw : list (Z * Z);   (* the writes of PLIC registers, oldest first *)
  intrcnt : nat -> Z;
  bdeventry : nat -> Z;   (* bdev_table.bdeventry *)
}.

Definition set_km (v : mach) (r : kstate) : kstate := KState v (lh r) (queues r) (tcbs r) (procs r) (next_tid r) (nextpid r) (cur r) (initproc r) (ticks r) (sigqs r) (sighands r) (futexes r) (fhnodes r) (pipes r) (sems r) (sleeplocks r) (vmas r) (files r) (bufs r) (blinks r) (flog r) (image r) (dwrites r) (ftabs r) (cons r) (uart r) (vd r) (panicked r) (rand_next r) (csr r) (plicw r) (intrcnt r) (bdeventry r).
Definition set_lh (v : gmap lptr (list_head lptr)) (r : kstate) : kstate := KState (km r) v (queues r) (tcbs r) (procs r) (next_tid r) (nextpid r) (cur r) (initproc r) (ticks r) (sigqs r) (sighands r) (futexes r) (fhnodes r) (pipes r) (sems r) (sleeplocks r) (vmas r) (files r) (bufs r) (blinks r) (flog r) (image r) (dwrites r) (ftabs r) (cons r) (uart r) (vd r) (panicked r) (rand_next r) (csr r) (plicw r) (intrcnt r) (bdeventry r).
Definition set_queues (v : qid -> queue) (r : kstate) : kstate := KState (km r) (lh r) v (tcbs r) (procs r) (next_tid r) (nextpid r) (cur r) (initproc r) (ticks r) (sigqs r) (sighands r) (futexes r) (fhnodes r) (pipes r) (sems r) (sleeplocks r) (vmas r) (files r) (bufs r) (blinks r) (flog r) (image r) (dwrites r) (ftabs r) (cons r) (uart r) (vd r) (panicked r) (rand_next r) (csr r) (plicw r) (intrcnt r) (bdeventry r).
Definition set_tcbs (v : nat -> tcb) (r : kstate) : kstate := KState (km r) (lh r) (queues r) v (procs r) (next_tid r) (nextpid r) (cur r) (initproc r) (ticks r) (sigqs r) (sighands r) (futexes r) (fhnodes r) (pipes r) (sems r) (sleeplocks r) (vmas r) (files r) (bufs r) (blinks r) (flog r) (image r) (dwrites r) (ftabs r) (cons r) (uart r) (vd r) (panicked r) (rand_next r) (csr r) (plicw r) (intrcnt r) (bdeventry r).
Definition set_procs (v : nat -> proc) (r : kstate) : kstate := KState (km r) (lh r) (queues r) (tcbs r) v (next_tid r) (nextpid r) (cur r) (initproc r) (ticks r) (sigqs r) (sighands r) (futexes r) (fhnodes r) (pipes r) (sems r) (sleeplocks r) (vmas r) (files r) (bufs r) (blinks r) (flog r) (image r) (dwrites r) (ftabs r) (cons r) (uart r) (vd r) (panicked r) (rand_next r) (csr r) (plicw r) (intrcnt r) (bdeventry r).
Definition set_next_tid (v : Z) (r : kstate) : kstate := KState (km r) (lh r) (queues r) (tcbs r) (procs r) v (nextpid r) (cur r) (initproc r) (ticks r) (sigqs r) (sighands r) (futexes r) (fhnodes r) (pipes r) (sems r) (sleeplocks r) (vmas r) (files r) (bufs r) (blinks r) (flog r) (image r) (dwrites r) (ftabs r) (cons r) (uart r) (vd r) (panicked r) (rand_next r) (csr r) (plicw r) (intrcnt r) (bdeventry r).
Definition set_nextpid (v : Z) (r : kstate) : kstate := KState (km r) (lh r) (queues r) (tcbs r) (procs r) (next_tid r) v (cur r) (initproc r) (ticks r) (sigqs r) (sighands r) (futexes r) (fhnodes r) (pipes r) (sems r) (sleeplocks r) (vmas r) (files r) (bufs r) (blinks r) (flog r) (image r) (dwrites r) (ftabs r) (cons r) (uart r) (vd r) (panicked r) (rand_next r) (csr r) (plicw r) (intrcnt r) (bdeventry r).
Definition set_cur (v : option nat) (r : kstate) : kstate := KState (km r) (lh r) (queues r) (tcbs r) (procs r) (next_tid r) (nextpid r) v (initproc r) (ticks r) (sigqs r) (sighands r) (futexes r) (fhnodes r) (pipes r) (sems r) (sleeplocks r) (vmas r) (files r) (bufs r) (blinks r) (flog r) (image r) (dwrites r) (ftabs r) (cons r) (uart r) (vd r) (panicked r) (rand_next r) (csr r) (plicw r) (intrcnt r) (bdeventry r).
Definition set_initproc (v : option nat) (r : kstate) : kstate := KState (km r) (lh r) (queues r) (tcbs r) (procs r) (next_tid r) (nextpid r) (cur r) v (ticks r) (sigqs r) (sighands r) (futexes r) (fhnodes r) (pipes r) (sems r) (sleeplocks r) (vmas r) (files r) (bufs r) (blinks r) (flog r) (image r) (dwrites r) (ftabs r) (cons r) (uart r) (vd r) (panicked r) (rand_next r) (csr r) (plicw r) (intrcnt r) (bdeventry r).
Definition set_ticks (v : Z) (r : kstate) : kstate := KState (km r) (lh r) (queues r) (tcbs r) (procs r) (next_tid r) (nextpid r) (cur r) (initproc r) v (sigqs r) (sighands r) (futexes r) (fhnodes r) (pipes r) (sems r) (sleeplocks r) (vmas r) (files r) (bufs r) (blinks r) (flog r) (image r) (dwrites r) (ftabs r) (cons r) (uart r) (vd r) (panicked r) (rand_next r) (csr r) (plicw r) (intrcnt r) (bdeventry r).
Definition set_sigqs (v : gmap Z sigqueue) (r : kstate) : kstate := KState (km r) (lh r) (queues r) (tcbs r) (procs r) (next_tid r) (nextpid r) (cur r) (initproc r) (ticks r) v (sighands r) (futexes r) (fhnodes r) (pipes r) (sems r) (sleeplocks r) (vmas r) (files r) (bufs r) (blinks r) (flog r) (image r) (dwrites r) (ftabs r) (cons r) (uart r) (vd r) (panicked r) (rand_next r) (csr r) (plicw r) (intrcnt r) (bdeventry r).
Definition set_sighands (v : gmap Z sighand) (r : kstate) : kstate := KState (km r) (lh r) (queues r) (tcbs r) (procs r) (next_tid r) (nextpid r) (cur r) (initproc r) (ticks r) (sigqs r) v (futexes r) (fhnodes r) (pipes r) (sems r) (sleeplocks r) (vmas r) (files r) (bufs r) (blinks r) (flog r) (image r) (dwrites r) (ftabs r) (cons r) (uart r) (vd r) (panicked r) (rand_next r) (csr r) (plicw r) (intrcnt r) (bdeventry r).
Definition set_futexes (v : gset Z) (r : kstate) : kstate := KState (km r) (lh r) (queues r) (tcbs r) (procs r) (next_tid r) (nextpid r) (cur r) (initproc r) (ticks r) (sigqs r) (sighands r) v (fhnodes r) (pipes r) (sems r) (sleeplocks r) (vmas r) (files r) (bufs r) (blinks r) (flog r) (image r) (dwrites r) (ftabs r) (cons r) (uart r) (vd r) (panicked r) (rand_next r) (csr r) (plicw r) (intrcnt r) (bdeventry r).
Definition set_fhnodes (v : gmap Z fhnode) (r : kstate) : kstate := KState (km r) (lh r) (queues r) (tcbs r) (procs r) (next_tid r) (nextpid r) (cur r) (initproc r) (ticks r) (sigqs r) (sighands r) (futexes r) v (pipes r) (sems r) (sleeplocks r) (vmas r) (files r) (bufs r) (blinks r) (flog r) (image r) (dwrites r) (ftabs r) (cons r) (uart r) (vd r) (panicked r) (rand_next r) (csr r) (plicw r) (intrcnt r) (bdeventry r).
Definition set_pipes (v : gmap Z pipe) (r : kstate) : kstate := KState (km r) (lh r) (queues r) (tcbs r) (procs r) (next_tid r) (nextpid r) (cur r) (initproc r) (ticks r) (sigqs r) (sighands r) (futexes r) (fhnodes r) v (sems r) (sleeplocks r) (vmas r) (files r) (bufs r) (blinks r) (flog r) (image r) (dwrites r) (ftabs r) (cons r) (uart r) (vd r) (panicked r) (rand_next r) (csr r) (plicw r) (intrcnt r) (bdeventry r).
Definition set_sems (v : Z -> sem) (r : kstate) : kstate := KState (km r) (lh r) (queues r) (tcbs r) (procs r) (next_tid r) (nextpid r) (cur r) (initproc r) (ticks r) (sigqs r) (sighands r) (futexes r) (fhnodes r) (pipes r) v (sleeplocks r) (vmas r) (files r) (bufs r) (blinks r) (flog r) (image r) (dwrites r) (ftabs r) (cons r) (uart r) (vd r) (panicked r) (rand_next r) (csr r) (plicw r) (intrcnt r) (bdeventry r).
Definition set_sleeplocks (v : Z -> sleeplock) (r : kstate) : kstate := KState (km r) (lh r) (queues r) (tcbs r) (procs r) (next_tid r) (nextpid r) (cur r) (initproc r) (ticks r) (sigqs r) (sighands r) (futexes r) (fhnodes r) (pipes r) (sems r) v (vmas r) (files r) (bufs r) (blinks r) (flog r) (image r) (dwrites r) (ftabs r) (cons r) (uart r) (vd r) (panicked r) (rand_next r) (csr r) (plicw r) (intrcnt r) (bdeventry r).
Definition set_vmas (v : gmap Z vma_struct) (r : kstate) : kstate := KState (km r) (lh r) (queues r) (tcbs r) (procs r) (next_tid r) (nextpid r) (cur r) (initproc r) (ticks r) (sigqs r) (sighands r) (futexes r) (fhnodes r) (pipes r) (sems r) (sleeplocks r) v (files r) (bufs r) (blinks r) (flog r) (image r) (dwrites r) (ftabs r) (cons r) (uart r) (vd r) (panicked r) (rand_next r) (csr r) (plicw r) (intrcnt r) (bdeventry r).
Definition set_files (v : nat -> file) (r : kstate) : kstate := KState (km r) (lh r) (queues r) (tcbs r) (procs r) (next_tid r) (nextpid r) (cur r) (initproc r) (ticks r) (sigqs r) (sighands r) (futexes r) (fhnodes r) (pipes r) (sems r) (sleeplocks r) (vmas r) v (bufs r) (blinks r) (flog r) (image r) (dwrites r) (ftabs r) (cons r) (uart r) (vd r) (panicked r) (rand_next r) (csr r) (plicw r) (intrcnt r) (bdeventry r).
Definition set_bufs (v : nat -> buf) (r : kstate) : kstate := KState (km r) (lh r) (queues r) (tcbs r) (procs r) (next_tid r) (nextpid r) (cur r) (initproc r) (ticks r) (sigqs r) (sighands r) (futexes r) (fhnodes r) (pipes r) (sems r) (sleeplocks r) (vmas r) (files r) v (blinks r) (flog r) (image r) (dwrites r) (ftabs r) (cons r) (uart r) (vd r) (panicked r) (rand_next r) (csr r) (plicw r) (intrcnt r) (bdeventry r).
Definition set_blinks (v : gmap bptr (list_head bptr)) (r : kstate) : kstate := KState (km r) (lh r) (queues r) (tcbs r) (procs r) (next_tid r) (nextpid r) (cur r) (initproc r) (ticks r) (sigqs r) (sighands r) (futexes r) (fhnodes r) (pipes r) (sems r) (sleeplocks r) (vmas r) (files r) (bufs r) v (flog r) (image r) (dwrites r) (ftabs r) (cons r) (uart r) (vd r) (panicked r) (rand_next r) (csr r) (plicw r) (intrcnt r) (bdeventry r).
Definition set_flog (v : xlog) (r : kstate) : kstate := KState (km r) (lh r) (queues r) (tcbs r) (procs r) (next_tid r) (nextpid r) (cur r) (initproc r) (ticks r) (sigqs r) (sighands r) (futexes r) (fhnodes r) (pipes r) (sems r) (sleeplocks r) (vmas r) (files r) (bufs r) (blinks r) v (image r) (dwrites r) (ftabs r) (cons r) (uart r) (vd r) (panicked r) (rand_next r) (csr r) (plicw r) (intrcnt r) (bdeventry r).
Definition set_image (v : Z -> mem) (r : kstate) : kstate := KState (km r) (lh r) (queues r) (tcbs r) (procs r) (next_tid r) (nextpid r) (cur r) (initproc r) (ticks r) (sigqs r) (sighands r) (futexes r) (fhnodes r) (pipes r) (sems r) (sleeplocks r) (vmas r) (files r) (bufs r) (blinks r) (flog r) v (dwrites r) (ftabs r) (cons r) (uart r) (vd r) (panicked r) (rand_next r) (csr r) (plicw r) (intrcnt r) (bdeventry r).
Definition set_dwrites (v : list (Z * mem)) (r : kstate) : kstate := KState (km r) (lh r) (queues r) (tcbs r) (procs r) (next_tid r) (nextpid r) (cur r) (initproc r) (ticks r) (sigqs r) (sighands r) (futexes r) (fhnodes r) (pipes r) (sems r) (sleeplocks r) (vmas r) (files r) (bufs r) (blinks r) (flog r) (image r) v (ftabs r) (cons r) (uart r) (vd r) (panicked r) (rand_next r) (csr r) (plicw r) (intrcnt r) (bdeventry r).
Definition set_ftabs (v : fsstate) (r : kstate) : kstate := KState (km r) (lh r) (queues r) (tcbs r) (procs r) (next_tid r) (nextpid r) (cur r) (initproc r) (ticks r) (sigqs r) (sighands r) (futexes r) (fhnodes r) (pipes r) (sems r) (sleeplocks r) (vmas r) (files r) (bufs r) (blinks r) (flog r) (image r) (dwrites r) v (cons r) (uart r) (vd r) (panicked r) (rand_next r) (csr r) (plicw r) (intrcnt r) (bdeventry r).
Definition set_cons (v : console) (r : kstate) : kstate := KState (km r) (lh r) (queues r) (tcbs r) (procs r) (next_tid r) (nextpid r) (cur r) (initproc r) (ticks r) (sigqs r) (sighands r) (futexes r) (fhnodes r) (pipes r) (sems r) (sleeplocks r) (vmas r) (files r) (bufs r) (blinks r) (flog r) (image r) (dwrites r) (ftabs r) v (uart r) (vd r) (panicked r) (rand_next r) (csr r) (plicw r) (intrcnt r) (bdeventry r).
Definition set_uart (v : uartdev) (r : kstate) : kstate := KState (km r) (lh r) (queues r) (tcbs r) (procs r) (next_tid r) (nextpid r) (cur r) (initproc r) (ticks r) (sigqs r) (sighands r) (futexes r) (fhnodes r) (pipes r) (sems r) (sleeplocks r) (vmas r) (files r) (bufs r) (blinks r) (flog r) (image r) (dwrites r) (ftabs r) (cons r) v (vd r) (panicked r) (rand_next r) (csr r) (plicw r) (intrcnt r) (bdeventry r).
Definition set_vd (v : vdisk) (r : kstate) : kstate := KState (km r) (lh r) (queues r) (tcbs r) (procs r) (next_tid r) (nextpid r) (cur r) (initproc r) (ticks r) (sigqs r) (sighands r) (futexes r) (fhnodes r) (pipes r) (sems r) (sleeplocks r) (vmas r) (files r) (bufs r) (blinks r) (flog r) (image r) (dwrites r) (ftabs r) (cons r) (uart r) v (panicked r) (rand_next r) (csr r) (plicw r) (intrcnt r) (bdeventry r).
Definition set_panicked (v : Z) (r : kstate) : kstate := KState (km r) (lh r) (queues r) (tcbs r) (procs r) (next_tid r) (nextpid r) (cur r) (initproc r) (ticks r) (sigqs r) (sighands r) (futexes r) (fhnodes r) (pipes r) (sems r) (sleeplocks r) (vmas r) (files r) (bufs r) (blinks r) (flog r) (image r) (dwrites r) (ftabs r) (cons r) (uart r) (vd r) v (rand_next r) (csr r) (plicw r) (intrcnt r) (bdeventry r).
Definition set_rand_next (v : Z) (r : kstate) : kstate := KState (km r) (lh r) (queues r) (tcbs r) (procs r) (next_tid r) (nextpid r) (cur r) (initproc r) (ticks r) (sigqs r) (sighands r) (futexes r) (fhnodes r) (pipes r) (sems r) (sleeplocks r) (vmas r) (files r) (bufs r) (blinks r) (flog r) (image r) (dwrites r) (ftabs r) (cons r) (uart r) (vd r) (panicked r) v (csr r) (plicw r) (intrcnt r) (bdeventry r).
Definition set_csr (v : trapregs) (r : kstate) : kstate := KState (km r) (lh r) (queues r) (tcbs r) (procs r) (next_tid r) (nextpid r) (cur r) (initproc r) (ticks r) (sigqs r) (sighands r) (futexes r) (fhnodes r) (pipes r) (sems r) (sleeplocks r) (vmas r) (files r) (bufs r) (blinks r) (flog r) (image r) (dwrites r) (ftabs r) (cons r) (uart r) (vd r) (panicked r) (rand_next r) v (plicw r) (intrcnt r) (bdeventry r).
Definition set_plicw (v : list (Z * Z)) (r : kstate) : kstate := KState (km r) (lh r) (queues r) (tcbs r) (procs r) (next_tid r) (nextpid r) (cur r) (initproc r) (ticks r) (sigqs r) (sighands r) (futexes r) (fhnodes r) (pipes r) (sems r) (sleeplocks r) (vmas r) (files r) (bufs r) (blinks r) (flog r) (image r) (dwrites r) (ftabs r) (cons r) (uart r) (vd r) (panicked r) (rand_next r) (csr r) v (intrcnt r) (bdeventry r).
Definition set_intrcnt (v : nat -> Z) (r : kstate) : kstate := KState (km r) (lh r) (queues r) (tcbs r) (procs r) (next_tid r) (nextpid r) (cur r) (initproc r) (ticks r) (sigqs r) (sighands r) (futexes r) (fhnodes r) (pipes r) (sems r) (sleeplocks r) (vmas r) (files r) (bufs r) (blinks r) (flog r) (image r) (dwrites r) (ftabs r) (cons r) (uart r) (vd r) (panicked r) (rand_next r) (csr r) (plicw r) v (bdeventry r).
Definition set_bdeventry (v : nat -> Z) (r : kstate) : kstate := KState (km r) (lh r) (queues r) (tcbs r) (procs r) (next_tid r) (nextpid r) (cur r) (initproc r) (ticks r) (sigqs r) (sighands r) (futexes r) (fhnodes r) (pipes r) (sems r) (sleeplocks r) (vmas r) (files r) (bufs r) (blinks r) (flog r) (image r) (dwrites r) (ftabs r) (cons r) (uart r) (vd r) (panicked r) (rand_next r) (csr r) (plicw r) (intrcnt r) v.

(** ** Running a component's routine on its part of the state *)

Definition on_mach {A} (m : E mach A) : E kstate A := zoom km set_km m.
Definition on_list {A} (m : E (gmap lptr (list_head lptr)) A) : E kstate A := zoom lh set_lh m.

Definition acquire (l : lockid) : E kstate unit := on_mach (KTypes.acquire l).
Definition release (l : lockid) : E kstate unit := on_mach (KTypes.release l).
Definition initlock (l : lockid) : E kstate unit := on_mach (KTypes.initlock l).
Definition holding (l : lockid) : E kstate bool := gets (fun s => bool_decide (l ∈ held (km s))).

Definition get_tcb (t : nat) : E kstate tcb := gets (fun s => tcbs s t).
Definition upd_tcb (t : nat) (f : tcb -> tcb) : E kstate unit :=
  modify (fun s => set_tcbs (<[t := f (tcbs s t)]> (tcbs s)) s).
Definition get_proc (p : nat) : E kstate proc := gets (fun s => procs s p).
Definition upd_proc (p : nat) (f : proc -> proc) : E kstate unit :=
  modify (fun s => set_procs (<[p := f (procs s p)]> (procs s)) s).
Definition upd_queue (q : qid) (f : queue -> queue) : E kstate unit :=
  modify (fun s => set_queues (<[q := f (queues s q)]> (queues s)) s).

(** [ASSERT(b)] panics when [b] is false. *)
Definition ASSERT (b : bool) : E kstate unit := panic_if (negb b) "assert failed".

(** [container_of] for the nodes embedded in tcb_pool[] and proc[]: the index
    of the structure, if the node is embedded in one. *)
Definition node_index (l : lptr) : option nat :=
  match l with
  | TState t | TWait t | TThreads t => Some t
  | PState p | PSibling p => Some p
  | _ => None
  end.

(** ** Traversals *)

(** list_for_each_entry_safe(pos, n, head, member): [n] is read before the body
    runs, so the body may unlink or free [pos].  The body answers [Some r] to
    leave the loop with [r] (break, return), [None] to go on. *)
Fixpoint for_each_loop {R} (fuel : nat) (head pos n : lptr) (body : lptr -> E kstate (option R)) : E kstate (option R) :=
  if bool_decide (pos = head) then mret None
  else
    match fuel with
    | O => nofuel
    | S fuel =>
      r ← body pos;
      match r with
      | Some r => mret (Some r)
      | None =>
        n' ← on_list (rd_next (Some n));
        n' ← deref n';
        for_each_loop fuel head n n' body
      end
    end.

(** A list has at most as many entries as there are nodes. *)
Definition for_each_safe {R} (head : lptr) (body : lptr -> E kstate (option R)) : E kstate (option R) :=
  pos ← on_list (rd_next (Some head));
  pos ← deref pos;
  n ← on_list (rd_next (Some pos));
  n ← deref n;
  fuel ← gets (fun s => size (lh s));
  for_each_loop fuel head pos n body.

(** ** Objects in pages *)

Section Objects.
(** [extern char end[]]. *)
Context (kend : Z).

(** kmalloc(size) followed by the use of the zeroed page as an object: [put p]
    enters the new object in its map. *)
Definition alloc_object (size : Z) (put : Z -> kstate -> kstate) : E kstate Z :=
  p ← on_mach (kmalloc size);
  if p =? 0 then mret 0 else modify (put p);; mret p.

(** kfree(p): [drop p] removes the object. *)
Definition free_object (p : Z) (drop : Z -> kstate -> kstate) : E kstate unit :=
  on_mach (kfree kend p);;
  modify (drop p).
End Objects.

(** ** The kernel as it is loaded: every static variable zero *)

Definition NOFILE : Z := 256.
Definition MAXOPBLOCKS : Z := 10.
Definition NBUF : Z := MAXOPBLOCKS * 3.
Definition tcb_zero : tcb :=
  Tcb "" TCB_UNUSED None 0 0 0 0 0 0 0 None None ChNone 0 0 0 0 0 0 0 0.
Definition proc_zero : proc :=
  Proc UNUSED 0 0 0 0 0 0 None None 0 0 0 None 0 0 "" "" 0 0 (replicate (Z.to_nat NOFILE) None) 0 (fun _ => (0, 0)).
Definition file_zero : file := File FD_NONE 0 0 0 0 0 0 "" 0 0.

(** The list nodes of static variables. *)
Definition static_nodes : list lptr :=
  (t ← seq 0 (Z.to_nat NTHREADS); [TState t; TWait t; TThreads t; SigPending t]) ++
  (p ← seq 0 (Z.to_nat NPROC); [PState p; PSibling p; TgThreads p; VmaList p]) ++
  (QHead ∘ TQ <$> [TCB_UNUSED; TCB_USED; TCB_RUNNABLE; TCB_SLEEPING]) ++
  (QHead ∘ PQ <$> [UNUSED; USED; ZOMBIE]).

Definition desc_zero : virtq_desc := Virtq_desc DNull 0 0 0.
Definition vdisk_zero : vdisk :=
  Vdisk (fun _ => desc_zero) (fun _ => 0) 0 (fun _ => 0) 0 (fun _ => 0) 0 (fun _ => Vinfo None 0 0) (fun _ => Virtio_blk_req 0 0) [].

Definition kzero (m : mach) : kstate :=
  KState m (list_to_map ((fun l => (l, Node None None)) <$> static_nodes))
    (fun _ => Queue TCB_STATE_QUEUE "" 0) (fun _ => tcb_zero) (fun _ => proc_zero)
    1 0 None None 0 ∅ ∅ ∅ ∅ ∅ (fun _ => Sem 0 0) (fun _ => Sleeplock 0 0) ∅ (fun _ => file_zero)
    (fun _ => Buf 0 0 0 0 0 (fun _ => 0)) (list_to_map ((fun l => (l, Node None None)) <$> BHead :: (BBuf <$> seq 0 (Z.to_nat NBUF))))
    (Xlog 0 0 0 0 0 0 (fun _ => 0)) (fun _ _ => 0) []
    (Fsstate (fun _ => Inode 0 0 0 0 0 0 0 0 0 None None) (fun _ => Xinode 0 (fun _ => 0)) (fun _ => Superblock 0 0 0 None 0)
      (fun _ => Xsuper 0 0 0 0 0 0 0 0 0) (fun _ => Mntentry None None 0 0 0) (fun _ => Vfs 0 0 0 None) [] None (fun _ => mfile_zero) (fun _ => minode_zero))
    (Console (fun _ => 0) 0 0 0) (Uartdev (fun _ => 0) 0 0 [] [] (fun _ => true) 0) vdisk_zero 0 1
    (Trapregs 0 0 0 0 0 0 0 0) [] (fun _ => 0) (fun _ => 0).
