(* ===== verification/Queue.v ===== *)
(** * Traversing kernel lists, and objects kept in pages

    The rule for list_for_each_entry_safe: the body may unlink or free the
    entry it is at, as long as the links of the entries still to be visited
    stay.  Then what taking and giving back the page of an object does to the
    rest of the state. *)
From S2P Require Import Prelude Mem KTypes Kalloc ListHead KState.
(** The first entry still to be visited, or the head at the end. *)
Definition first_of (hd : lptr) (ys : list lptr) : lptr := match ys with [] => hd | y :: _ => y end.

(** The forward links from the entries still to be visited. *)
Fixpoint chain (h : gmap lptr (list_head lptr)) (hd : lptr) (ys : list lptr) : Prop :=
  match ys with
  | [] => is_Some (nxt h hd)
  | y :: ys => nxt h y = Some (first_of hd ys) /\ chain h hd ys
  end.

Lemma nxt_is_Some (h : gmap lptr (list_head lptr)) x y : nxt h x = Some y -> is_Some (h !! x).
Proof. unfold nxt. destruct (h !! x); [done|intros [=]]. Qed.

Lemma wp_on_rd_next x y (Q : option lptr -> kstate -> Prop) s :
  nxt (lh s) x = Some y -> Q (Some y) s -> wp (on_list (rd_next (Some x))) Q s.
Proof.
  intros Hn HQ. apply wp_zoom, wp_rd_next; [by eapply nxt_is_Some|]. rewrite Hn. by destruct s.
Qed.

Section Rule.
Context {R : Type} (hd : lptr) (body : lptr -> E kstate (option R)).
Context (J : list lptr -> kstate -> Prop) (Q : option R -> kstate -> Prop).
Hypothesis J_chain : forall ys s, J ys s -> chain (lh s) hd ys.
Hypothesis J_body : forall y ys s, J (y :: ys) s ->
  wp (body y) (fun r s' => match r with Some r => Q (Some r) s' | None => J ys s' end) s.
Hypothesis J_end : forall s, J [] s -> Q None s.

Lemma wp_for_each_loop ys fuel n s :
  J ys s -> hd ∉ ys -> (length ys <= fuel)%nat -> nxt (lh s) (first_of hd ys) = Some n ->
  wp (for_each_loop fuel hd (first_of hd ys) n body) Q s.
Proof.
  revert fuel n s. induction ys as [|y ys IH]; intros fuel n s HJ Hni Hf Hn; simpl in Hf.
  - destruct fuel; simpl; rewrite bool_decide_true by done; by apply wp_ret, J_end.
  - apply not_elem_of_cons in Hni as [Hne Hni]. destruct fuel as [|fuel]; [lia|].
    cbn [for_each_loop first_of]. rewrite bool_decide_false by done.
    pose proof (J_chain _ _ HJ) as [Hy _]. simpl in Hn. rewrite Hn in Hy. injection Hy as ->.
    apply wp_bind. eapply wp_mono; [by apply (J_body y ys)|]. intros [r|] s' H'; [by apply wp_ret|].
    assert (exists n', nxt (lh s') (first_of hd ys) = Some n') as [n' Hn'].
    { pose proof (J_chain _ _ H') as Hc. destruct ys as [|z ys]; [by destruct Hc; eexists|]. destruct Hc. by eexists. }
    apply wp_bind. eapply wp_on_rd_next; [done|]. apply wp_bind. eapply wp_deref; [done|].
    apply IH; [done|done|lia|done].
Qed.

Lemma chain_next h ys : chain h hd ys -> exists n, nxt h (first_of hd ys) = Some n.
Proof. destruct ys; [by intros [? ?]; eexists|]. intros [? _]. by eexists. Qed.

Lemma wp_for_each_safe ys s :
  J ys s -> hd ∉ ys -> nxt (lh s) hd = Some (first_of hd ys) -> (length ys <= size (lh s))%nat ->
  wp (for_each_safe hd body) Q s.
Proof.
  intros HJ Hni Hh Hf. destruct (chain_next _ _ (J_chain _ _ HJ)) as [n Hn].
  unfold for_each_safe. apply wp_bind. eapply wp_on_rd_next; [done|].
  apply wp_bind. eapply wp_deref; [done|]. apply wp_bind. eapply wp_on_rd_next; [done|].
  apply wp_bind. eapply wp_deref; [done|]. apply wp_bind, wp_gets. by apply wp_for_each_loop.
Qed.
End Rule.

(** A ring has the links a traversal of it follows. *)
Lemma path_chain (h : gmap lptr (list_head lptr)) hd x ys : path h (x :: ys ++ [hd]) -> is_Some (nxt h hd) ->
  nxt h x = Some (first_of hd ys) /\ chain h hd ys.
Proof.
  revert x. induction ys as [|y ys IH]; intros x Hp Hs; simpl in Hp.
  - destruct Hp as (H1 & _). done.
  - destruct Hp as (H1 & _ & Hp). split; [done|]. by apply IH.
Qed.

Lemma ring_chain (h : gmap lptr (list_head lptr)) hd xs : ring h hd xs -> nxt h hd = Some (first_of hd xs) /\ chain h hd xs.
Proof.
  intros (_ & _ & Hp). apply path_chain; [done|].
  destruct xs; destruct Hp as (H & _); by rewrite H.
Qed.

(** The links from the later entries do not depend on what is before them. *)
Lemma chain_app (h : gmap lptr (list_head lptr)) hd xs ys : chain h hd (xs ++ ys) -> chain h hd ys.
Proof. induction xs as [|x xs IH]; [done|]. intros [_ H]. by apply IH. Qed.

Lemma ring_size (h : gmap lptr (list_head lptr)) hd xs : ring h hd xs -> (length xs <= size h)%nat.
Proof.
  intros (Hnd & Hdom & _). apply NoDup_cons in Hnd as [_ Hnd].
  rewrite <- (size_dom h), <- (size_list_to_set (C := gset lptr) xs Hnd).
  apply subseteq_size. intros x Hx%elem_of_list_to_set. apply elem_of_dom, Hdom, elem_of_cons. by right.
Qed.

(** ** Pages taken and given back by the other components *)

Section Pages.
Context (kend : Z).
Hypothesis kend_pos : 0 < kend.

Lemma wp_on_kalloc l (Q : Z -> kstate -> Prop) s :
  kmem_inv kend (km s) l -> L_kmem ∉ held (km s) ->
  (forall m, l = [] -> kmem_inv kend m [] -> held m = held (km s) -> Q 0 (set_km m s)) ->
  (forall p l' m, l = p :: l' -> valid_page kend p -> kmem_inv kend m l' -> held m = held (km s) -> Q p (set_km m s)) ->
  wp (on_mach kalloc) Q s.
Proof.
  intros Hk Hl H0 H1. apply wp_zoom. eapply wp_mono; [by eapply wp_kalloc|]. cbn beta.
  intros r m [Hh Hm]. destruct l as [|p l'].
  - destruct Hm as (-> & Hm & _). by apply H0.
  - destruct Hm as (-> & Hm & _). eapply H1; [done| |done|done].
    destruct Hk as [_ _ Hv _]. by apply Forall_cons_1 in Hv as [? _].
Qed.

Lemma wp_free_object pa drop l (Q : unit -> kstate -> Prop) s :
  kmem_inv kend (km s) l -> L_kmem ∉ held (km s) -> valid_page kend pa -> pa ∉ l ->
  (forall m, kmem_inv kend m (pa :: l) -> held m = held (km s) -> Q tt (drop pa (set_km m s))) ->
  wp (free_object kend pa drop) Q s.
Proof.
  intros Hk Hl Hv Hni HQ. unfold free_object. apply wp_bind, wp_zoom.
  eapply wp_mono; [by eapply wp_kfree|]. cbn beta. intros _ m (Hm & Hh & _). apply wp_modify. by apply HQ.
Qed.
End Pages.

(** ** The thread table *)

(** Of the thread table of [s], only entry [t] has changed, to [r]. *)
Definition only_tcb (t : nat) (r : tcb) (s s' : kstate) : Prop :=
  tcbs s' t = r /\ forall t', t' <> t -> tcbs s' t' = tcbs s t'.

Lemma only_tcb_refl t s : only_tcb t (tcbs s t) s s.
Proof. done. Qed.

Lemma only_tcb_upd t f r s s1 : only_tcb t r s s1 ->
  only_tcb t (f r) s (set_tcbs (<[t := f (tcbs s1 t)]> (tcbs s1)) s1).
Proof.
  intros [<- H]. split; simpl; [by rewrite fn_lookup_insert|].
  intros t' Ht. rewrite fn_lookup_insert_ne by done. by apply H.
Qed.

(** Static variables have their list nodes. *)
Lemma static_node m l : l ∈ static_nodes -> is_Some (lh (kzero m) !! l).
Proof.
  intros Hl. apply elem_of_dom. cbn [lh kzero]. rewrite dom_list_to_map_L, elem_of_list_to_set, <- list_fmap_compose.
  apply list_elem_of_fmap. exists l. split; [reflexivity|exact Hl].
Qed.

(** * kernel/lib/queue.c: typed queues of threads and processes

    A queue links threads or processes through the list node its type names.
    [queue_is s q xs] says that queue [q] of state [s] holds the objects [xs],
    first to last; under it the operations are those of a FIFO of indices. *)

Definition queue_init (q : qid) (name : string) (type : queue_type) : E kstate unit :=
  initlock (L_queue q);;
  on_list (INIT_LIST_HEAD (QHead q));;
  upd_queue q (set_qname (String.substring 0 (String.length name - 1) name));;
  upd_queue q (set_qtype type);;
  upd_queue q (set_qcnt 0).

Definition queue_isempty (q : qid) : E kstate bool := on_list (list_empty (QHead q)).

Definition queue_isempty_atomic (q : qid) : E kstate bool :=
  acquire (L_queue q);;
  empty ← on_list (list_empty (QHead q));
  release (L_queue q);;
  mret empty.

Definition queue_entry (node : nat) (type : queue_type) : E kstate lptr :=
  match type with
  | TCB_STATE_QUEUE => mret (TState node)
  | PCB_STATE_QUEUE => mret (PState node)
  | TCB_WAIT_QUEUE => mret (TWait node)
  | INODE_FREE_QUEUE => panic "this type is invalid"
  end.

(** The list head itself is not embedded in a thread or process: on an empty
    queue the result designates no object. *)
Definition queue_first_node (q : qid) : E kstate nat :=
  type ← gets (fun s => qtype (queues s q));
  match type with
  | INODE_FREE_QUEUE => panic "this type is invalid"
  | _ =>
    n ← on_list (rd_next (Some (QHead q)));
    n ← deref n;
    deref (node_index n)
  end.

Definition queue_push_back (q : qid) (node : nat) : E kstate unit :=
  type ← gets (fun s => qtype (queues s q));
  l ← queue_entry node type;
  on_list (list_add_tail l (QHead q));;
  upd_queue q (fun r => set_qcnt (i32 (qcnt r + 1)) r).

Definition queue_push_back_atomic (q : qid) (node : nat) : E kstate unit :=
  acquire (L_queue q);;
  type ← gets (fun s => qtype (queues s q));
  l ← queue_entry node type;
  on_list (list_add_tail l (QHead q));;
  upd_queue q (fun r => set_qcnt (i32 (qcnt r + 1)) r);;
  release (L_queue q).

Definition queue_remove (node : nat) (type : queue_type) : E kstate unit :=
  l ← queue_entry node type;
  on_list (list_del_reinit l).

Definition queue_remove_atomic (q : qid) (node : nat) : E kstate unit :=
  acquire (L_queue q);;
  type ← gets (fun s => qtype (queues s q));
  l ← queue_entry node type;
  on_list (list_del_reinit l);;
  upd_queue q (fun r => set_qcnt (i32 (qcnt r - 1)) r);;
  release (L_queue q).

Definition queue_pop (q : qid) (remove : bool) : E kstate (option nat) :=
  e ← queue_isempty q;
  if (e : bool) then mret None
  else
    node ← queue_first_node q;
    type ← gets (fun s => qtype (queues s q));
    (if remove then queue_remove node type else mret tt);;
    mret (Some node).

Definition queue_pop_atomic (q : qid) (remove : bool) : E kstate (option nat) :=
  acquire (L_queue q);;
  t ← queue_pop q remove;
  release (L_queue q);;
  mret t.

Definition get_queue_count (q : qid) (s : kstate) : Z := qcnt (queues s q).

(** ** Queues as lists of indices *)

(** The node through which a queue of the given type links index [n]. *)
Definition entry_of (type : queue_type) (n : nat) : lptr :=
  match type with
  | TCB_STATE_QUEUE => TState n
  | PCB_STATE_QUEUE => PState n
  | TCB_WAIT_QUEUE => TWait n
  | INODE_FREE_QUEUE => QHead (CondQ 0)
  end.

Definition linked (type : queue_type) : Prop := type <> INODE_FREE_QUEUE.

#[global] Instance entry_of_inj type : linked type -> Inj (=) (=) (entry_of type).
Proof. intros H x y. destruct type; try done; by intros [=]. Qed.

Lemma entry_of_index type n : linked type -> node_index (entry_of type n) = Some n.
Proof. by destruct type. Qed.

Lemma entry_of_head type n q : linked type -> entry_of type n <> QHead q.
Proof. by destruct type. Qed.

Lemma queue_entry_run type n s : linked type -> queue_entry n type s = Done (entry_of type n) s.
Proof. by destruct type. Qed.

Definition queue_is (s : kstate) (q : qid) (xs : list nat) : Prop :=
  linked (qtype (queues s q)) /\ ring (lh s) (QHead q) (entry_of (qtype (queues s q)) <$> xs).

(** A node that is in no list. *)
Definition detached (s : kstate) (l : lptr) : Prop := lh s !! l = Some (Node (Some l) (Some l)).

(** [s'] differs from [s] only in the nodes [ps] and in the count of the queue
    [q]. *)
Record qframe (q : qid) (ps : list lptr) (s s' : kstate) : Prop := {
  qf_nodes : only_at ps (lh s) (lh s');
  qf_queues : forall q', q' <> q -> queues s' q' = queues s q';
  qf_type : qtype (queues s' q) = qtype (queues s q);
  qf_rest : set_lh (lh s) (set_queues (queues s) s') = s;
}.

Lemma qf_tcbs q ps s s' : qframe q ps s s' -> tcbs s' = tcbs s.
Proof. intros [_ _ _ H]. by apply (f_equal tcbs) in H. Qed.
Lemma qf_procs q ps s s' : qframe q ps s s' -> procs s' = procs s.
Proof. intros [_ _ _ H]. by apply (f_equal procs) in H. Qed.
Lemma qf_km q ps s s' : qframe q ps s s' -> km s' = km s.
Proof. intros [_ _ _ H]. by apply (f_equal km) in H. Qed.

Lemma queue_is_NoDup s q xs : queue_is s q xs -> NoDup xs.
Proof. intros [_ (Hnd & _)]. apply NoDup_cons in Hnd as [_ Hnd]. by apply NoDup_fmap_1 in Hnd. Qed.

(** A queue keeps its contents when its nodes are not touched. *)
Lemma queue_is_frame s s' q xs :
  queue_is s q xs -> qtype (queues s' q) = qtype (queues s q) ->
  (forall x, x ∈ QHead q :: (entry_of (qtype (queues s q)) <$> xs) -> lh s' !! x = lh s !! x) ->
  queue_is s' q xs.
Proof.
  intros [Ht Hr] Hty Hn. split; [by rewrite Hty|]. rewrite Hty. by eapply ring_frame.
Qed.

(** ** Symbolic execution on the kernel state *)

Lemma wp_kacquire l (Q : unit -> kstate -> Prop) s :
  l ∉ held (km s) -> Q tt (set_km (set_held (l :: held (km s)) (km s)) s) -> wp (acquire l) Q s.
Proof. intros Hl HQ. unfold acquire. apply wp_zoom. by apply wp_acquire. Qed.

Lemma wp_krelease l h (Q : unit -> kstate -> Prop) s :
  held (km s) = l :: h -> l ∉ h -> Q tt (set_km (set_held h (km s)) s) -> wp (release l) Q s.
Proof. intros Hs Hl HQ. unfold release. apply wp_zoom. by eapply wp_release. Qed.

(** A critical section: the body runs with the lock held and gives it back. *)
Lemma held_restore m h : set_held (held m) (set_held h m) = m.
Proof. by destruct m. Qed.

Lemma km_restore s h : set_km (set_held (held (km s)) (set_held h (km s))) (set_km (set_held h (km s)) s) = s.
Proof. rewrite held_restore. by destruct s. Qed.

Lemma wp_critical {A} l (m : E kstate A) (Q : A -> kstate -> Prop) s :
  l ∉ held (km s) ->
  wp m (fun a s' => held (km s') = l :: held (km s) /\ Q a (set_km (set_held (held (km s)) (km s')) s'))
     (set_km (set_held (l :: held (km s)) (km s)) s) ->
  wp (acquire l;; a ← m; release l;; mret a) Q s.
Proof.
  intros Hl Hm. apply wp_bind, wp_kacquire; [done|]. apply wp_bind. eapply wp_mono; [exact Hm|].
  cbn beta. intros a s' [Hh HQ]. apply wp_bind. eapply wp_krelease; [done|done|]. by apply wp_ret.
Qed.

Section Ops.
Context (q : qid).
Implicit Types (xs : list nat) (s : kstate).
Abbreviation ty s := (qtype (queues s q)).
Abbreviation nodes s xs := (QHead q :: (entry_of (ty s) <$> xs)).

(** What a routine that only works on the list and the count of [q] does
    inside its critical section holds outside of it. *)
Lemma qframe_critical ps s s' h :
  qframe q ps (set_km (set_held h (km s)) s) s' ->
  held (km s') = h /\ qframe q ps s (set_km (set_held (held (km s)) (km s')) s').
Proof.
  intros Hf. pose proof (qf_km _ _ _ _ Hf) as Hkm. destruct Hf as [Hn Hq Ht Hr]. simpl in *.
  split; [by rewrite Hkm|]. split; [done|done|done|]. rewrite Hkm. simpl. rewrite held_restore.
  apply (f_equal (set_km (km s))) in Hr. by destruct s, s'.
Qed.

(** Linking at the tail, and unlinking, as the four routines below do it. *)
Lemma wp_link n xs (Q : unit -> kstate -> Prop) s :
  queue_is s q xs -> n ∉ xs -> is_Some (lh s !! entry_of (ty s) n) ->
  (forall h', only_at (entry_of (ty s) n :: nodes s xs) (lh s) h' ->
     ring h' (QHead q) (entry_of (ty s) <$> (xs ++ [n])) -> Q tt (set_lh h' s)) ->
  wp (on_list (list_add_tail (entry_of (ty s) n) (QHead q))) Q s.
Proof.
  intros [Ht Hr] Hn Hs HQ. apply wp_zoom. eapply wp_list_add_tail; [done| |done|].
  - rewrite not_elem_of_cons. split; [by apply entry_of_head|].
    intros (m & Heq & Hin)%list_elem_of_fmap. apply entry_of_inj in Heq; [|done]. by subst.
  - intros h' Hoa Hr'. apply HQ; [done|]. by rewrite fmap_app.
Qed.

Lemma counted_frame ps s h' f :
  (forall r, qtype (f r) = qtype r) -> only_at ps (lh s) h' ->
  qframe q ps s (set_queues (<[q := f (queues s q)]> (queues s)) (set_lh h' s)).
Proof.
  intros Hf Hoa. split; simpl; [done|intros q' Hq'; by rewrite fn_lookup_insert_ne|by rewrite fn_lookup_insert, Hf|].
  by destruct s.
Qed.

Lemma wp_queue_push_back n xs (Q : unit -> kstate -> Prop) s :
  queue_is s q xs -> n ∉ xs -> is_Some (lh s !! entry_of (ty s) n) ->
  (forall s', qframe q (entry_of (ty s) n :: nodes s xs) s s' -> queue_is s' q (xs ++ [n]) ->
     qcnt (queues s' q) = i32 (qcnt (queues s q) + 1) -> Q tt s') ->
  wp (queue_push_back q n) Q s.
Proof.
  intros Hq Hn Hs HQ. pose proof Hq as [Ht _]. apply wp_bind, wp_gets, wp_bind.
  eapply wp_run; [by apply queue_entry_run|]. apply wp_bind. eapply wp_link; [done..|].
  intros h' Hoa Hr. apply wp_modify, HQ.
  - by apply (counted_frame _ s h' (fun r => set_qcnt (i32 (qcnt r + 1)) r)).
  - split; simpl; by rewrite fn_lookup_insert.
  - simpl. by rewrite fn_lookup_insert.
Qed.

Lemma wp_queue_push_back_atomic n xs (Q : unit -> kstate -> Prop) s :
  queue_is s q xs -> n ∉ xs -> is_Some (lh s !! entry_of (ty s) n) -> L_queue q ∉ held (km s) ->
  (forall s', qframe q (entry_of (ty s) n :: nodes s xs) s s' -> queue_is s' q (xs ++ [n]) ->
     qcnt (queues s' q) = i32 (qcnt (queues s q) + 1) -> Q tt s') ->
  wp (queue_push_back_atomic q n) Q s.
Proof.
  intros Hq Hn Hs Hl HQ. pose proof Hq as [Ht _]. apply wp_bind, wp_kacquire; [done|].
  apply wp_bind, wp_gets, wp_bind. eapply wp_run; [by apply queue_entry_run|].
  apply wp_bind. eapply (wp_link n xs); [done..|]. intros h' Hoa Hr. apply wp_bind, wp_modify.
  eapply wp_krelease; [done|done|].
  destruct (qframe_critical _ s _ _ (counted_frame _ _ h' (fun r => set_qcnt (i32 (qcnt r + 1)) r) ltac:(done) Hoa)) as [_ Hf].
  apply HQ; [exact Hf| |].
  - split; simpl; by rewrite fn_lookup_insert.
  - simpl. by rewrite fn_lookup_insert.
Qed.

Lemma fmap_split (f : nat -> lptr) xs1 n xs2 : f <$> (xs1 ++ n :: xs2) = (f <$> xs1) ++ f n :: (f <$> xs2).
Proof. by rewrite fmap_app. Qed.

(** Removing [n] from the queue. *)
Lemma wp_unlink n xs1 xs2 (Q : unit -> kstate -> Prop) s :
  queue_is s q (xs1 ++ n :: xs2) ->
  (forall h', only_at (nodes s (xs1 ++ n :: xs2)) (lh s) h' ->
     ring h' (QHead q) (entry_of (ty s) <$> (xs1 ++ xs2)) ->
     h' !! entry_of (ty s) n = Some (Node (Some (entry_of (ty s) n)) (Some (entry_of (ty s) n))) ->
     Q tt (set_lh h' s)) ->
  wp (on_list (list_del_reinit (entry_of (ty s) n))) Q s.
Proof.
  intros [Ht Hr] HQ. rewrite fmap_split in Hr. apply wp_zoom. eapply wp_list_del_reinit; [exact Hr|].
  intros h' Hoa Hr' Hd. apply HQ; [by rewrite fmap_split|by rewrite fmap_app|done].
Qed.

Lemma uncounted_frame ps s h' : only_at ps (lh s) h' -> qframe q ps s (set_lh h' s).
Proof. intros Hoa. split; simpl; try done. by destruct s. Qed.

Lemma wp_queue_remove n xs1 xs2 (Q : unit -> kstate -> Prop) s :
  queue_is s q (xs1 ++ n :: xs2) ->
  (forall s', qframe q (nodes s (xs1 ++ n :: xs2)) s s' -> queue_is s' q (xs1 ++ xs2) ->
     detached s' (entry_of (ty s) n) -> queues s' = queues s -> Q tt s') ->
  wp (queue_remove n (ty s)) Q s.
Proof.
  intros Hq HQ. pose proof Hq as [Ht _]. apply wp_bind. eapply wp_run; [by apply queue_entry_run|].
  eapply wp_unlink; [done|]. intros h' Hoa Hr Hd. apply HQ; [by apply uncounted_frame|by split|done|done].
Qed.

Lemma wp_queue_remove_atomic n xs1 xs2 (Q : unit -> kstate -> Prop) s :
  queue_is s q (xs1 ++ n :: xs2) -> L_queue q ∉ held (km s) ->
  (forall s', qframe q (nodes s (xs1 ++ n :: xs2)) s s' -> queue_is s' q (xs1 ++ xs2) ->
     detached s' (entry_of (ty s) n) -> qcnt (queues s' q) = i32 (qcnt (queues s q) - 1) -> Q tt s') ->
  wp (queue_remove_atomic q n) Q s.
Proof.
  intros Hq Hl HQ. pose proof Hq as [Ht _]. apply wp_bind, wp_kacquire; [done|].
  apply wp_bind, wp_gets, wp_bind. eapply wp_run; [by apply queue_entry_run|].
  apply wp_bind. eapply (wp_unlink n xs1 xs2); [done..|]. intros h' Hoa Hr Hd. apply wp_bind, wp_modify.
  eapply wp_krelease; [done|done|].
  destruct (qframe_critical _ s _ _ (counted_frame _ _ h' (fun r => set_qcnt (i32 (qcnt r - 1)) r) ltac:(done) Hoa)) as [_ Hf].
  apply HQ; [exact Hf| |done|].
  - split; simpl; by rewrite fn_lookup_insert.
  - simpl. by rewrite fn_lookup_insert.
Qed.

(** Removing an object that is in no queue only lowers the count. *)
Lemma wp_queue_remove_atomic_detached n xs (Q : unit -> kstate -> Prop) s :
  queue_is s q xs -> n ∉ xs -> detached s (entry_of (ty s) n) -> L_queue q ∉ held (km s) ->
  (forall s', qframe q [entry_of (ty s) n] s s' -> queue_is s' q xs ->
     detached s' (entry_of (ty s) n) -> qcnt (queues s' q) = i32 (qcnt (queues s q) - 1) -> Q tt s') ->
  wp (queue_remove_atomic q n) Q s.
Proof.
  intros Hq Hn Hd Hl HQ. pose proof Hq as [Ht Hr]. apply wp_bind, wp_kacquire; [done|].
  apply wp_bind, wp_gets, wp_bind. eapply wp_run; [by apply queue_entry_run|].
  apply wp_bind, wp_zoom. apply wp_list_del_reinit_self; [done|]. intros h' Hoa Hd'. apply wp_bind, wp_modify.
  eapply wp_krelease; [done|done|].
  destruct (qframe_critical _ s _ _ (counted_frame _ _ h' (fun r => set_qcnt (i32 (qcnt r - 1)) r) ltac:(done) Hoa)) as [_ Hf].
  apply HQ; [exact Hf| |done|simpl; by rewrite fn_lookup_insert].
  split; simpl; rewrite fn_lookup_insert; simpl; [done|].
  eapply ring_frame; [done|]. intros x Hx. destruct Hoa as [_ Hs]. simpl in Hs. apply Hs.
  rewrite not_elem_of_cons. split; [|apply not_elem_of_nil]. intros ->.
  apply elem_of_cons in Hx as [Hx|Hx]; [by eapply entry_of_head|].
  apply list_elem_of_fmap in Hx as (m & Heq & Hin). apply entry_of_inj in Heq; [|done]. by subst.
Qed.

Lemma wp_queue_remove_detached n (type : queue_type) (Q : unit -> kstate -> Prop) s :
  linked type -> detached s (entry_of type n) ->
  (forall s', qframe q [entry_of type n] s s' -> detached s' (entry_of type n) -> queues s' = queues s -> Q tt s') ->
  wp (queue_remove n type) Q s.
Proof.
  intros Ht Hd HQ. apply wp_bind. eapply wp_run; [by apply queue_entry_run|].
  apply wp_zoom, wp_list_del_reinit_self; [done|]. intros h' Hoa Hd'. apply HQ; [by apply uncounted_frame|done|done].
Qed.

Lemma wp_queue_isempty_atomic xs (Q : bool -> kstate -> Prop) s :
  queue_is s q xs -> L_queue q ∉ held (km s) ->
  Q (match xs with [] => true | _ => false end) s -> wp (queue_isempty_atomic q) Q s.
Proof.
  intros [Ht Hr] Hl HQ. apply wp_critical; [done|]. apply wp_zoom. eapply wp_list_empty; [exact Hr|].
  simpl. split; [done|]. rewrite held_restore.
  replace (set_km (km s) _) with s by by destruct s. by destruct xs.
Qed.

(** queue_pop with removal takes the first object, and NULL from an empty
    queue; the count does not change. *)
Lemma wp_queue_pop xs (Q : option nat -> kstate -> Prop) s :
  queue_is s q xs ->
  (xs = [] -> Q None s) ->
  (forall n xs' s', xs = n :: xs' -> qframe q (nodes s xs) s s' -> queue_is s' q xs' ->
     detached s' (entry_of (ty s) n) -> queues s' = queues s -> Q (Some n) s') ->
  wp (queue_pop q true) Q s.
Proof.
  intros Hq Hnone Hsome. pose proof Hq as [Ht Hr]. apply wp_bind, wp_zoom. eapply wp_list_empty; [exact Hr|].
  replace (set_lh (lh s) s) with s by by destruct s. destruct xs as [|n xs]; simpl; [by apply wp_ret, Hnone|].
  apply wp_bind. unfold queue_first_node. apply wp_bind, wp_gets.
  assert (Hnx : nxt (lh s) (QHead q) = Some (entry_of (ty s) n)).
  { destruct (ring_first _ _ _ Hr) as (p & l2 & Heq & -> & _). simpl in Heq. by injection Heq as <- _. }
  assert (Hfirst : wp (n0 ← on_list (rd_next (Some (QHead q))); n0 ← deref n0; deref (node_index n0))
    (fun a s' => a = n /\ s' = s) s).
  { apply wp_bind, wp_zoom, wp_rd_next; [apply Hr, elem_of_cons; by left|]. rewrite Hnx.
    apply wp_bind, wp_ret. simpl. rewrite entry_of_index by done. apply wp_ret. split; [done|by destruct s]. }
  assert (wp (match ty s with
      | INODE_FREE_QUEUE => panic "this type is invalid"
      | _ => n0 ← on_list (rd_next (Some (QHead q))); n0 ← deref n0; deref (node_index n0)
      end) (fun a s' => a = n /\ s' = s) s) as Hf by by destruct (ty s).
  eapply wp_mono; [exact Hf|]. cbn beta. intros ? ? [-> ->].
  apply wp_bind, wp_gets, wp_bind. eapply (wp_queue_remove n [] xs); [done|].
  intros s' Hfr Hq' Hd Hqq. apply wp_ret. by eapply Hsome.
Qed.

Lemma wp_queue_pop_atomic xs (Q : option nat -> kstate -> Prop) s :
  queue_is s q xs -> L_queue q ∉ held (km s) ->
  (xs = [] -> Q None s) ->
  (forall n xs' s', xs = n :: xs' -> qframe q (nodes s xs) s s' -> queue_is s' q xs' ->
     detached s' (entry_of (ty s) n) -> queues s' = queues s -> Q (Some n) s') ->
  wp (queue_pop_atomic q true) Q s.
Proof.
  intros Hq Hl Hnone Hsome. apply wp_critical; [done|]. eapply (wp_queue_pop xs); [done| |].
  - intros ->. simpl. split; [done|]. rewrite held_restore. replace (set_km (km s) _) with s by by destruct s. auto.
  - intros n xs' s' -> Hf Hq' Hd Hqq. apply qframe_critical in Hf as [Hh Hf]. split; [done|].
    by eapply Hsome.
Qed.
End Ops.

(** queue_init makes an empty queue. *)
Lemma wp_queue_init q name type (Q : unit -> kstate -> Prop) s :
  linked type -> is_Some (lh s !! QHead q) -> L_queue q ∉ held (km s) ->
  (forall s', queue_is s' q [] -> qtype (queues s' q) = type -> only_at [QHead q] (lh s) (lh s') ->
     (forall q', q' <> q -> queues s' q' = queues s q') -> set_lh (lh s) (set_queues (queues s) s') = s -> km s' = km s -> Q tt s') ->
  wp (queue_init q name type) Q s.
Proof.
  intros Ht Hn Hl HQ. unfold queue_init. apply wp_bind. unfold initlock, on_mach. apply wp_zoom, initlock_free; [done|].
  apply wp_bind, wp_zoom, wp_init_list; [done|]. intros h' Hoa He. simpl in *.
  apply wp_bind, wp_modify, wp_bind, wp_modify, wp_modify. apply HQ; simpl; try done.
  - assert (Hr : ring h' (QHead q) []).
    { split_and!; [apply NoDup_singleton| |].
      - intros x ->%list_elem_of_singleton. by rewrite He.
      - simpl. unfold nxt, prv. by rewrite He. }
    unfold queue_is. simpl. rewrite !fn_lookup_insert. simpl. done.
  - by rewrite !fn_lookup_insert.
  - intros q' Hq. by rewrite !fn_lookup_insert_ne.
  - by destruct s.
Qed.

(** * list.h and queue.c: lists and first-in first-out queues

    The circular lists of kernel/include/list.h hold a sequence of nodes, and a
    queue of kernel/lib/queue.c is a FIFO of threads or processes. *)

(** On a well-formed list, list_add puts a node first and list_add_tail
    puts it last, as list_for_each then meets them; list_del_reinit after
    list_add_tail gives back the list as it was, the node alone and linked to
    itself; list_empty tells whether there is an entry. *)
Theorem list_head_ops (h : gmap lptr (list_head lptr)) (hd n : lptr) (xs : list lptr) :
  ring h hd xs -> n ∉ hd :: xs -> is_Some (h !! n) ->
  wp (list_add n hd) (fun _ h' => ring h' hd (n :: xs) /\ entries (S (length xs)) h' hd = Some (n :: xs)) h /\
  wp (list_add_tail n hd) (fun _ h' => ring h' hd (xs ++ [n]) /\ entries (S (length xs)) h' hd = Some (xs ++ [n])) h /\
  wp (list_add_tail n hd;; list_del_reinit n) (fun _ h' =>
    ring h' hd xs /\ entries (length xs) h' hd = Some xs /\ h' !! n = Some (Node (Some n) (Some n))) h /\
  wp (list_empty hd) (fun b h' => h' = h /\ (b = true <-> xs = [])) h.
Proof.
  intros Hr Hn Hs. split_and!.
  - eapply wp_list_add; [done..|]. intros h' _ Hr'. split; [done|]. by apply entries_ring.
  - eapply wp_list_add_tail; [done..|]. intros h' _ Hr'. split; [done|]. apply entries_ring; [done|]. rewrite length_app. simpl. lia.
  - apply wp_bind. eapply wp_list_add_tail; [done..|]. intros h' _ Hr'.
    eapply (wp_list_del_reinit n hd xs []); [done|]. intros h2 _ Hr2 He. rewrite app_nil_r in Hr2.
    split_and!; [done| |done]. by apply entries_ring.
  - eapply wp_list_empty; [done|]. split; [done|]. destruct xs; split; intros; done || (exfalso; done).
Qed.

(** ** Queues *)

Inductive queue_op := Push (n : nat) | Pop | IsEmpty.
Inductive queue_res := RUnit | RPop (r : option nat) | REmpty (b : bool).

(** The operations of queue.c, and of a FIFO list. *)
Definition run_op (q : qid) (o : queue_op) : E kstate queue_res :=
  match o with
  | Push n => queue_push_back_atomic q n;; mret RUnit
  | Pop => r ← queue_pop_atomic q true; mret (RPop r)
  | IsEmpty => b ← queue_isempty_atomic q; mret (REmpty b)
  end.
Definition spec_op (xs : list nat) (o : queue_op) : list nat * queue_res :=
  match o with
  | Push n => (xs ++ [n], RUnit)
  | Pop => (tail xs, RPop (head xs))
  | IsEmpty => (xs, REmpty (bool_decide (xs = [])))
  end.

Fixpoint run_ops (q : qid) (os : list queue_op) : E kstate (list queue_res) :=
  match os with
  | [] => mret []
  | o :: os => r ← run_op q o; rs ← run_ops q os; mret (r :: rs)
  end.
Fixpoint spec_ops (xs : list nat) (os : list queue_op) : list nat * list queue_res :=
  match os with
  | [] => (xs, [])
  | o :: os => let '(xs, r) := spec_op xs o in let '(xs, rs) := spec_ops xs os in (xs, r :: rs)
  end.

(** What is pushed is not in the queue already, and has a list node. *)
Fixpoint pushes_ok (nodes : nat -> Prop) (xs : list nat) (os : list queue_op) : Prop :=
  match os with
  | [] => True
  | o :: os => match o with Push n => n ∉ xs /\ nodes n | _ => True end /\ pushes_ok nodes (spec_op xs o).1 os
  end.

Definition has_entry (s : kstate) (q : qid) (n : nat) : Prop := is_Some (lh s !! entry_of (qtype (queues s q)) n).

Lemma wp_run_op q o xs s :
  queue_is s q xs -> held (km s) = [] -> pushes_ok (has_entry s q) xs [o] ->
  wp (run_op q o) (fun r s' => r = (spec_op xs o).2 /\ queue_is s' q (spec_op xs o).1 /\ held (km s') = [] /\
    forall n, has_entry s q n -> has_entry s' q n) s.
Proof.
  intros Hq Hh [Hp _]. assert (Hl : L_queue q ∉ held (km s)) by (rewrite Hh; apply not_elem_of_nil).
  assert (Hfr : forall ps s', qframe q ps s s' -> held (km s') = [] /\ forall n, has_entry s q n -> has_entry s' q n).
  { intros ps s' Hf. split; [by rewrite (qf_km _ _ _ _ Hf)|]. destruct Hf as [[Hd _] _ Hty _].
    intros n. unfold has_entry. rewrite Hty. apply Hd. }
  destruct o as [n| |]; cbn [run_op spec_op fst snd]; apply wp_bind.
  - eapply wp_queue_push_back_atomic; [done|apply Hp|apply Hp|done|]. intros s' Hf Hq' _. apply wp_ret.
    destruct (Hfr _ _ Hf). by split_and!.
  - eapply wp_queue_pop_atomic; [done|done| |].
    + intros ->. by apply wp_ret.
    + intros n l s' -> Hf Hq' _ _. apply wp_ret. destruct (Hfr _ _ Hf). by split_and!.
  - eapply wp_queue_isempty_atomic; [done|done|]. apply wp_ret. by destruct xs.
Qed.

(** C16: a queue is a first-in first-out list of threads or processes: any
    sequence of pushes (of objects that are not in the queue), pops and
    emptiness tests answers what a FIFO list answers and leaves the queue with
    the contents of that list; no operation panics or follows a bad pointer. *)
Theorem queue_refines_fifo (q : qid) (os : list queue_op) (xs : list nat) (s : kstate) :
  queue_is s q xs -> held (km s) = [] -> pushes_ok (has_entry s q) xs os ->
  wp (run_ops q os) (fun rs s' => rs = (spec_ops xs os).2 /\ queue_is s' q (spec_ops xs os).1) s.
Proof.
  revert xs s. induction os as [|o os IH]; intros xs s Hq Hh Hp; cbn [run_ops spec_ops]; [by apply wp_ret|].
  destruct Hp as [Ho Hp]. apply wp_bind. eapply wp_mono; [eapply (wp_run_op q o xs); [done|done|by split]|].
  cbn beta. intros r s1 (-> & Hq1 & Hh1 & Hn). destruct (spec_op xs o) as [xs' r'] eqn:Hs. simpl in *.
  apply wp_bind. eapply wp_mono; [eapply (IH xs'); [done|done|]|].
  - clear -Hp Hn. revert xs' Hp. induction os as [|o os IH]; intros xs' Hp; [done|].
    destruct Hp as [Ho Hp]. split; [|by apply IH]. destruct o; [|done..]. naive_solver.
  - cbn beta. intros rs s2 [-> Hq2]. apply wp_ret. by destruct (spec_ops xs' os).
Qed.

(** ** Witnesses *)

(** The runnable queue of the loaded kernel, just initialised. *)
Lemma fresh_queue : exists s, queue_is s (TQ TCB_RUNNABLE) [] /\ held (km s) = [] /\
  (forall n, (n < 64)%nat -> has_entry s (TQ TCB_RUNNABLE) n).
Proof.
  assert (wp (queue_init (TQ TCB_RUNNABLE) "q" TCB_STATE_QUEUE) (fun _ s => queue_is s (TQ TCB_RUNNABLE) [] /\ held (km s) = [] /\
    (forall n, (n < 64)%nat -> has_entry s (TQ TCB_RUNNABLE) n)) (kzero boot)) as H.
  { apply wp_queue_init; [done| |apply not_elem_of_nil|].
    - apply static_node. unfold static_nodes. rewrite !elem_of_app, !list_elem_of_fmap. do 2 right. left.
      exists TCB_RUNNABLE. split; [done|]. set_solver.
    - intros s' Hq Ht [Hd _] _ _ Hk. split_and!; [done|by rewrite Hk|]. intros n Hn. unfold has_entry. rewrite Ht.
      apply Hd, static_node. unfold static_nodes. apply elem_of_app. left. apply list_elem_of_bind. exists n.
      split; [apply elem_of_cons; by left|]. apply elem_of_seq. change (Z.to_nat NTHREADS) with 64%nat. lia. }
  apply wp_done in H as (_ & s & _ & H). by exists s.
Qed.

Lemma queue_refines_fifo_witness :
  exists s, wp (run_ops (TQ TCB_RUNNABLE) [Push 3; Push 5; Pop; IsEmpty; Pop; Pop])
    (fun rs _ => rs = [RUnit; RUnit; RPop (Some 3%nat); REmpty false; RPop (Some 5%nat); RPop None]) s.
Proof.
  destruct fresh_queue as (s & Hq & Hh & Hn). exists s.
  eapply wp_mono; [apply (queue_refines_fifo (TQ TCB_RUNNABLE) [Push 3; Push 5; Pop; IsEmpty; Pop; Pop] [] s Hq Hh)|].
  - simpl. split_and!; try apply Hn; try lia; set_solver.
  - cbn beta. intros rs s' [-> _]. reflexivity.
Defined.

Definition two_nodes : gmap lptr (list_head lptr) :=
  <[VmaList 0 := Node (Some (VmaList 0)) (Some (VmaList 0))]> {[Vma 7 := Node None None]}.

Lemma list_head_ops_witness :
  wp (list_add_tail (Vma 7) (VmaList 0)) (fun _ h' => entries 1 h' (VmaList 0) = Some [Vma 7]) two_nodes.
Proof.
  assert (ring two_nodes (VmaList 0) []) as Hr.
  { split_and!; [apply NoDup_singleton|by intros x ->%list_elem_of_singleton|done]. }
  destruct (list_head_ops two_nodes (VmaList 0) (Vma 7) [] Hr ltac:(by intros ?%list_elem_of_singleton) ltac:(by eexists)) as (_ & H & _).
  eapply wp_mono; [exact H|]. cbn beta. by intros _ h' [_ He].
Defined.
