(* ===== verification/Sched.v ===== *)
(** * kernel/sched/sched.c: state queues and the scheduler

    A thread that is not running is linked in the queue of its state.  The
    invariant [sched_inv s tq X] says so: [tq st] lists the queue of state
    [st], and the threads of [X] are in transit, taken from a queue and not
    yet given a new state.  The switch of stacks (swtch.S) is a parameter: what
    the rest of the system does until the thread runs again. *)
From S2P Require Import Prelude Mem KTypes Kalloc ListHead KState Queue.

(** g_tcb_queues has no entry for TCB_RUNNING. *)
Definition g_tcb_queues (st : thread_state) : option qid :=
  match st with TCB_RUNNING => None | _ => Some (TQ st) end.
Definition g_pcb_queues (st : procstate) : qid := PQ st.

Definition PCB_Q_ALL_INIT : E kstate unit :=
  queue_init (PQ UNUSED) "PCB_UNUSED" PCB_STATE_QUEUE;;
  queue_init (PQ USED) "PCB_USED" PCB_STATE_QUEUE;;
  queue_init (PQ ZOMBIE) "PCB_ZOMBIE" PCB_STATE_QUEUE.

Definition pcb_q_change_state (p : nat) (state_new : procstate) : E kstate unit :=
  let pcb_q_new := g_pcb_queues state_new in
  st ← gets (fun s => pstate (procs s p));
  let pcb_q_old := g_pcb_queues st in
  queue_remove_atomic pcb_q_old p;;
  queue_push_back_atomic pcb_q_new p;;
  upd_proc p (set_pstate state_new).

Definition tcb_q_change_state (t : nat) (state_new : thread_state) : E kstate unit :=
  let tcb_q_new := g_tcb_queues state_new in
  st ← gets (fun s => tstate (tcbs s t));
  let tcb_q_old := g_tcb_queues st in
  (if bool_decide (st <> TCB_RUNNING) then q ← deref tcb_q_old; queue_remove_atomic q t
   else queue_remove t TCB_STATE_QUEUE);;
  q ← deref tcb_q_new;
  queue_push_back_atomic q t;;
  upd_tcb t (set_tstate state_new).

Definition tcb_change2_running (t : nat) : E kstate unit := upd_tcb t (set_tstate TCB_RUNNING).

(** mythread(): c->thread, which may be NULL. *)
Definition mythread : E kstate nat := c ← gets cur; deref c.

Section Switch.
(** swtch(&t->context, &mycpu()->context): returns when the scheduler of some
    hart has switched back to [t]. *)
Context (swtch : nat -> E kstate unit).

(** mycpu()->noff counts the locks held; with one held, interrupts are off. *)
Definition thread_sched : E kstate unit :=
  t ← mythread;
  h ← holding (L_tcb t);
  panic_if (negb h) "sched t->lock";;
  noff ← gets (fun s => length (held (km s)));
  panic_if (negb (noff =? 1)%nat) "sched t locks";;
  st ← gets (fun s => tstate (tcbs s t));
  panic_if (bool_decide (st = TCB_RUNNING)) "sched t running";;
  intr ← gets (fun s => bool_decide (held (km s) = []));
  panic_if intr "sched t interruptible";;
  swtch t.

Definition thread_yield : E kstate unit :=
  t ← mythread;
  acquire (L_tcb t);;
  tcb_q_change_state t TCB_RUNNABLE;;
  thread_sched;;
  release (L_tcb t).
End Switch.

(** One turn of the loop of thread_scheduler.  [run t] is the execution of the
    thread from swtch(&c->context, &t->context) until it switches back. *)
Definition thread_scheduler_turn (run : nat -> E kstate unit) : E kstate (option nat) :=
  q ← deref (g_tcb_queues TCB_RUNNABLE);
  t ← queue_pop_atomic q true;
  match t with
  | None => mret None
  | Some t =>
    acquire (L_tcb t);;
    tcb_change2_running t;;
    modify (set_cur (Some t));;
    run t;;
    modify (set_cur None);;
    release (L_tcb t);;
    mret (Some t)
  end.

(** ** The queues hold the threads *)

Definition is_thread (t : nat) : Prop := (Z.of_nat t < NTHREADS).

Record sched_inv (s : kstate) (tq : thread_state -> list nat) (X : gset nat) : Prop := {
  si_queue : forall st, st <> TCB_RUNNING ->
    qtype (queues s (TQ st)) = TCB_STATE_QUEUE /\ queue_is s (TQ st) (tq st);
  si_mem : forall st t, st <> TCB_RUNNING ->
    t ∈ tq st <-> is_thread t /\ tstate (tcbs s t) = st /\ t ∉ X;
  si_out : forall t, is_thread t -> tstate (tcbs s t) = TCB_RUNNING \/ t ∈ X -> detached s (TState t);
}.

(** Every node of the queue of state [st]. *)
Definition tq_nodes (tq : thread_state -> list nat) (st : thread_state) : list lptr := QHead (TQ st) :: (TState <$> tq st).

Lemma entry_tstate s st (xs : list nat) : qtype (queues s (TQ st)) = TCB_STATE_QUEUE ->
  entry_of (qtype (queues s (TQ st))) <$> xs = TState <$> xs.
Proof. by intros ->. Qed.

Lemma tq_nodes_disjoint s tq X st st' x :
  sched_inv s tq X -> st <> TCB_RUNNING -> st' <> TCB_RUNNING -> st <> st' -> x ∈ tq_nodes tq st -> x ∉ tq_nodes tq st'.
Proof.
  intros [_ Hm _] H1 H2 Hne. unfold tq_nodes. rewrite !elem_of_cons.
  intros [->|(t & -> & Ht)%list_elem_of_fmap] [[=]|(t' & Heq & Ht')%list_elem_of_fmap]; try done.
  injection Heq as <-. apply Hm in Ht as (_ & <- & _); [|done]. apply Hm in Ht' as (_ & <- & _); done.
Qed.

Lemma thread_node s tq X t : sched_inv s tq X -> is_thread t -> is_Some (lh s !! TState t).
Proof.
  intros [Hq Hm Ho] Ht. destruct (decide (tstate (tcbs s t) = TCB_RUNNING \/ t ∈ X)) as [Hd|Hnd].
  { rewrite (Ho t Ht Hd). eauto. }
  assert (tstate (tcbs s t) <> TCB_RUNNING) as Hst by tauto.
  destruct (Hq _ Hst) as [Hty [_ (_ & Hdom & _)]]. rewrite Hty in Hdom. apply Hdom.
  apply elem_of_cons. right. apply list_elem_of_fmap. exists t. split; [done|]. apply Hm; [done|]. tauto.
Qed.

(** The list [tq] without [t]. *)
Definition without (t : nat) (tq : thread_state -> list nat) (st : thread_state) : list nat :=
  filter (fun x => x <> t) (tq st).
(** The list [tq] with [t] last in state [new]. *)
Definition with_last (t : nat) (new : thread_state) (tq : thread_state -> list nat) (st : thread_state) : list nat :=
  tq st ++ (if bool_decide (st = new) then [t] else []).

Lemma filter_id t (l : list nat) : t ∉ l -> filter (fun x => x <> t) l = l.
Proof.
  induction l as [|x l IH]; [done|]. rewrite not_elem_of_cons. intros [Hne Hni].
  rewrite filter_cons_True by done. f_equal. by apply IH.
Qed.

Lemma filter_mid t (l1 l2 : list nat) : NoDup (l1 ++ t :: l2) -> filter (fun x => x <> t) (l1 ++ t :: l2) = l1 ++ l2.
Proof.
  intros (_ & H1 & H2)%NoDup_app. apply NoDup_cons in H2 as [H2 _].
  rewrite filter_app, filter_cons_False by tauto. rewrite !filter_id; [done|done|].
  intros Hin. apply (H1 t Hin), elem_of_cons. by left.
Qed.

(** What taking [t] off its queue does to the invariant. *)
Lemma detach_inv s s' tq X t q ps :
  sched_inv s tq X -> is_thread t ->
  qframe q ps s s' -> (exists st, q = TQ st) ->
  (forall x, x ∈ ps -> x = TState t \/ exists st, st <> TCB_RUNNING /\ t ∈ tq st /\ x ∈ tq_nodes tq st) ->
  (forall st, st <> TCB_RUNNING -> t ∈ tq st -> queue_is s' (TQ st) (without t tq st)) ->
  detached s' (TState t) ->
  sched_inv s' (without t tq) (X ∪ {[t]}).
Proof.
  intros Hinv Ht Hf [st0 ->] Hps Hqt Hd. pose proof Hinv as [Hq Hm Ho]. pose proof (qf_tcbs _ _ _ _ Hf) as Htc.
  pose proof Hf as [[Hdom Hsame] Hqs Hty _].
  split.
  - intros st Hst. destruct (Hq st Hst) as [Hty1 Hq1]. split.
    + destruct (decide (TQ st = TQ st0)) as [[= ->]|Hne]; [by rewrite Hty|by rewrite Hqs].
    + destruct (decide (t ∈ tq st)) as [Hin|Hni]; [by apply Hqt|].
      unfold without. rewrite filter_id by done. eapply queue_is_frame; [exact Hq1| |].
      { destruct (decide (TQ st = TQ st0)) as [[= ->]|Hne]; [by rewrite Hty|by rewrite Hqs]. }
      rewrite (entry_tstate s st) by done. intros x Hx. apply Hsame. intros Hin.
      destruct (Hps x Hin) as [->|(st' & Hst' & Ht' & Hx')].
      * apply elem_of_cons in Hx as [[=]|(t' & [= <-] & ?)%list_elem_of_fmap]; done.
      * destruct (decide (st' = st)) as [->|Hne]; [done|].
        by apply (tq_nodes_disjoint s tq X st' st x Hinv Hst' Hst Hne Hx').
  - intros st t' Hst. unfold without. rewrite list_elem_of_filter, Hm, Htc by done. set_solver.
  - intros t' Ht' Hc. rewrite Htc in Hc. destruct (decide (t' = t)) as [->|Hne]; [done|].
    unfold detached. rewrite Hsame; [apply Ho; [done|set_solver]|].
    intros Hin. destruct (Hps _ Hin) as [[= ->]|(st' & Hst' & Hint & Hx')]; [done|].
    apply elem_of_cons in Hx' as [[=]|(t'' & [= <-] & Hin'')%list_elem_of_fmap].
    apply Hm in Hin'' as (_ & Hs'' & Hx''); [|done]. set_solver.
Qed.

(** ** The operations under the invariant *)

Definition locks_free (s : kstate) : Prop := forall st, L_queue (TQ st) ∉ held (km s).

(** The list nodes of the state queues. *)
Definition sched_node (x : lptr) : bool :=
  match x with TState _ | QHead (TQ _) => true | _ => false end.

Lemma nodes_sched st xs x : x ∈ QHead (TQ st) :: (TState <$> xs) -> sched_node x = true.
Proof. by intros [->|(t & -> & _)%list_elem_of_fmap]%elem_of_cons. Qed.
Lemma node_sched t x : x ∈ [TState t] -> sched_node x = true.
Proof. by intros ->%list_elem_of_singleton. Qed.

(** The part of a state the scheduling operations leave alone. *)
Definition sched_rest (s s' : kstate) : Prop :=
  km s' = km s /\ procs s' = procs s /\
  set_lh (lh s) (set_queues (queues s) (set_tcbs (tcbs s) s')) = s /\
  (forall q, (forall st, q <> TQ st) -> queues s' q = queues s q) /\
  (forall x, sched_node x = false -> lh s' !! x = lh s !! x).

Lemma qframe_rest st ps s s' :
  qframe (TQ st) ps s s' -> (forall x, x ∈ ps -> sched_node x = true) -> tcbs s' = tcbs s /\ sched_rest s s'.
Proof.
  intros Hf Hps. pose proof (qf_tcbs _ _ _ _ Hf) as Htc. split; [done|]. split_and!.
  - by eapply qf_km.
  - by eapply qf_procs.
  - rewrite <- Htc. destruct Hf as [_ _ _ Hr]. by destruct s'.
  - intros q Hq. apply Hf. apply Hq.
  - intros x Hx. apply Hf. intros Hin. rewrite (Hps x Hin) in Hx. done.
Qed.

(** First half of a state change: [t] leaves the queue it is in, if any. *)
Lemma wp_leave t tq X (Q : unit -> kstate -> Prop) s :
  sched_inv s tq X -> is_thread t -> locks_free s ->
  (forall s', sched_inv s' (without t tq) (X ∪ {[t]}) -> tcbs s' = tcbs s -> sched_rest s s' -> Q tt s') ->
  wp (if bool_decide (tstate (tcbs s t) <> TCB_RUNNING)
      then q ← deref (g_tcb_queues (tstate (tcbs s t))); queue_remove_atomic q t
      else queue_remove t TCB_STATE_QUEUE) Q s.
Proof.
  intros Hinv Ht Hl HQ. pose proof Hinv as [Hq Hm Ho].
  set (st := tstate (tcbs s t)). case_bool_decide as Hst.
  - destruct (Hq st Hst) as [Hty Hq1]. replace (g_tcb_queues st) with (Some (TQ st)) by by destruct st.
    apply wp_bind, wp_ret. destruct (decide (t ∈ X)) as [HX|HX].
    + assert (Hni : forall st', st' <> TCB_RUNNING -> t ∉ tq st') by (intros st' Hst' Hin; apply Hm in Hin; tauto).
      eapply wp_queue_remove_atomic_detached; [exact Hq1|by apply Hni| |apply Hl|].
      { rewrite Hty. apply Ho; [done|by right]. }
      intros s' Hf Hq' Hd _. rewrite Hty in Hf, Hd. destruct (qframe_rest _ _ _ _ Hf (node_sched t)) as [Htc Hr].
      apply HQ; [|done|done]. eapply detach_inv; [done|done|exact Hf|by eexists| | |done].
      * intros x ->%list_elem_of_singleton. by left.
      * intros st' Hst' Hin. by destruct (Hni st' Hst').
    + assert (Hin : t ∈ tq st) by (apply Hm; done).
      pose proof (queue_is_NoDup _ _ _ Hq1) as Hnd.
      apply list_elem_of_split in Hin as (l1 & l2 & Heq). rewrite Heq in Hq1, Hnd.
      eapply (wp_queue_remove_atomic (TQ st) t l1 l2); [exact Hq1|apply Hl|].
      intros s' Hf Hq' Hd _. rewrite Hty in Hf, Hd. destruct (qframe_rest _ _ _ _ Hf (nodes_sched st _)) as [Htc Hr].
      apply HQ; [|done|done]. eapply detach_inv; [done|done|exact Hf|by eexists| | |done].
      * intros x Hx. right. exists st. split; [done|]. split; [apply Hm; done|]. unfold tq_nodes. by rewrite Heq.
      * intros st' Hst' Hin'. apply Hm in Hin' as (_ & Hs' & _); [|done]. subst st'.
        unfold without. fold st. rewrite Heq, filter_mid by done. done.
  - assert (st = TCB_RUNNING) as Hrun by (destruct (decide (st = TCB_RUNNING)); tauto).
    assert (Hni : forall st', st' <> TCB_RUNNING -> t ∉ tq st').
    { intros st' Hst' Hin. apply Hm in Hin as (_ & Hs & _); [|done]. unfold st in *. congruence. }
    eapply (wp_queue_remove_detached (TQ TCB_UNUSED) t TCB_STATE_QUEUE); [done|apply Ho; [done|by left]|].
    intros s' Hf Hd _. destruct (qframe_rest _ _ _ _ Hf (node_sched t)) as [Htc Hr].
    apply HQ; [|done|done]. eapply detach_inv; [done|done|exact Hf|by eexists| | |done].
    + intros x ->%list_elem_of_singleton. by left.
    + intros st' Hst' Hin. by destruct (Hni st' Hst').
Qed.

(** Second half: a thread in transit enters the queue of its new state. *)
Lemma wp_enter t new tq X (Q : unit -> kstate -> Prop) s :
  sched_inv s tq X -> is_thread t -> t ∈ X -> new <> TCB_RUNNING -> locks_free s ->
  (forall s', sched_inv s' (with_last t new tq) (X ∖ {[t]}) ->
     tcbs s' = <[t := set_tstate new (tcbs s t)]> (tcbs s) -> sched_rest s s' -> Q tt s') ->
  wp (q ← deref (g_tcb_queues new); queue_push_back_atomic q t;; upd_tcb t (set_tstate new)) Q s.
Proof.
  intros Hinv Ht HX Hnew Hl HQ. pose proof Hinv as [Hq Hm Ho].
  replace (g_tcb_queues new) with (Some (TQ new)) by by destruct new. apply wp_bind, wp_ret, wp_bind.
  destruct (Hq new Hnew) as [Hty Hq1].
  assert (Hni : forall st, st <> TCB_RUNNING -> t ∉ tq st) by (intros st Hst Hin; apply Hm in Hin; tauto).
  eapply wp_queue_push_back_atomic; [exact Hq1|by apply Hni| |apply Hl|].
  { rewrite Hty. by eapply thread_node. }
  intros s1 Hf Hq' _. rewrite Hty in Hf.
  assert (Hns : forall x, x ∈ TState t :: QHead (TQ new) :: (TState <$> tq new) -> sched_node x = true).
  { intros x [->|Hx]%elem_of_cons; [done|by eapply nodes_sched]. }
  destruct (qframe_rest _ _ _ _ Hf Hns) as [Htc (Hk & Hp & Hr & Hqr & Hnr)]. destruct Hf as [[Hdom Hsame] Hqs Hty1 _].
  apply wp_modify, HQ; simpl.
  - assert (Hgone : forall t' st, t' <> t -> tstate (<[t := set_tstate new (tcbs s1 t)]> (tcbs s1) t') = st <-> tstate (tcbs s t') = st).
    { intros t' st Hne. by rewrite fn_lookup_insert_ne, Htc. }
    split.
    + intros st Hst. cbn [queues set_tcbs]. destruct (Hq st Hst) as [Hty2 Hq2].
      assert (Hq3 : qtype (queues s1 (TQ st)) = qtype (queues s (TQ st))).
      { destruct (decide (st = new)) as [->|]; [done|]. rewrite Hqs by congruence. done. }
      split; [by rewrite Hq3|]. unfold with_last. case_bool_decide as Hsn; [by subst st|].
      rewrite app_nil_r. eapply queue_is_frame; [exact Hq2|done|]. rewrite entry_tstate by done.
      intros x Hx. apply Hsame. intros [->|Hin]%elem_of_cons.
      * apply elem_of_cons in Hx as [[=]|(t' & [= <-] & Hin')%list_elem_of_fmap]. by apply (Hni st).
      * by apply (tq_nodes_disjoint s tq X new st x Hinv Hnew Hst).
    + intros st t' Hst. cbn [tcbs set_tcbs]. unfold with_last. rewrite elem_of_app, Hm by done.
      destruct (decide (t' = t)) as [->|Hne].
      * rewrite fn_lookup_insert. simpl. case_bool_decide; rewrite ?list_elem_of_singleton; set_solver.
      * rewrite Hgone by done. case_bool_decide; rewrite ?list_elem_of_singleton; set_solver.
    + intros t' Ht'. cbn [tcbs set_tcbs]. destruct (decide (t' = t)) as [->|Hne].
      * rewrite fn_lookup_insert. simpl. intros [?|?]; [done|set_solver].
      * rewrite Hgone by done. intros Hc. unfold detached. cbn [lh set_tcbs]. rewrite Hsame.
        { apply Ho; [done|]. destruct Hc; [by left|right; set_solver]. }
        intros [[= ->]|[Hx|(t'' & [= <-] & Hin)%list_elem_of_fmap]%elem_of_cons]%elem_of_cons; [done|done|].
        apply Hm in Hin as (_ & Hst & HnX); [|done]. destruct Hc; [congruence|set_solver].
  - by rewrite Htc.
  - split_and!; simpl; [done|done| |done|done]. destruct s1. simpl in *. by rewrite Htc in Hr |- *.
Qed.

Lemma sched_rest_trans s1 s2 s3 : sched_rest s1 s2 -> sched_rest s2 s3 -> sched_rest s1 s3.
Proof.
  intros (K1 & P1 & R1 & Q1 & N1) (K2 & P2 & R2 & Q2 & N2). split_and!; [congruence|congruence| | |].
  - rewrite <- R2 in R1. exact R1.
  - intros q Hq. by rewrite Q2, Q1.
  - intros x Hx. by rewrite N2, N1.
Qed.

Lemma locks_free_rest s s' : sched_rest s s' -> locks_free s -> locks_free s'.
Proof. intros (K & _) H st. rewrite K. apply H. Qed.

(** tcb_q_change_state moves the thread to the end of the queue of its new
    state, wherever it was. *)
Lemma wp_tcb_q_change_state t new tq X (Q : unit -> kstate -> Prop) s :
  sched_inv s tq X -> is_thread t -> new <> TCB_RUNNING -> locks_free s ->
  (forall s', sched_inv s' (with_last t new (without t tq)) (X ∖ {[t]}) ->
     tcbs s' = <[t := set_tstate new (tcbs s t)]> (tcbs s) -> sched_rest s s' -> Q tt s') ->
  wp (tcb_q_change_state t new) Q s.
Proof.
  intros Hinv Ht Hnew Hl HQ. unfold tcb_q_change_state. apply wp_bind, wp_gets, wp_bind.
  eapply wp_leave; [done..|]. intros s1 Hinv1 Htc1 Hr1.
  eapply wp_enter; [done|done|set_solver|done|by eapply locks_free_rest|].
  intros s2 Hinv2 Htc2 Hr2. apply HQ; [|by rewrite Htc2, Htc1|by eapply sched_rest_trans].
  replace (X ∖ {[t]}) with ((X ∪ {[t]}) ∖ {[t]}) by set_solver. done.
Qed.

(** Taking the first thread of a queue leaves it in transit. *)
Lemma wp_pop_thread st tq X (Q : option nat -> kstate -> Prop) s :
  sched_inv s tq X -> st <> TCB_RUNNING -> locks_free s ->
  (tq st = [] -> Q None s) ->
  (forall t l s', tq st = t :: l -> is_thread t -> t ∉ X -> tstate (tcbs s t) = st ->
     sched_inv s' (without t tq) (X ∪ {[t]}) -> tcbs s' = tcbs s -> sched_rest s s' -> Q (Some t) s') ->
  wp (queue_pop_atomic (TQ st) true) Q s.
Proof.
  intros Hinv Hst Hl Hnone Hsome. pose proof Hinv as [Hq Hm Ho]. destruct (Hq st Hst) as [Hty Hq1].
  pose proof (queue_is_NoDup _ _ _ Hq1) as Hnd.
  eapply wp_queue_pop_atomic; [exact Hq1|apply Hl|done|].
  intros t l s' Heq Hf Hq' Hd _. rewrite Hty in Hf, Hd. destruct (qframe_rest _ _ _ _ Hf (nodes_sched st _)) as [Htc Hr].
  assert (Hin : t ∈ tq st) by (rewrite Heq; apply elem_of_cons; by left).
  pose proof Hin as (Ht & Hts & HX)%Hm; [|done].
  apply (Hsome t l); try done. eapply detach_inv; [done|done|exact Hf|by eexists| | |done].
  - intros x Hx. right. by exists st.
  - intros st' Hst' Hin'. apply Hm in Hin' as (_ & Hs' & _); [|done]. rewrite Hts in Hs'. subst st'.
    unfold without. rewrite Heq in Hnd |- *. pose proof (filter_mid t [] l Hnd) as Hfl. simpl in Hfl. by rewrite Hfl.
Qed.

(** A thread in transit that starts running. *)
Lemma running_inv s tq X t :
  sched_inv s tq X -> is_thread t -> t ∈ X ->
  sched_inv (set_tcbs (<[t := set_tstate TCB_RUNNING (tcbs s t)]> (tcbs s)) s) tq (X ∖ {[t]}).
Proof.
  intros [Hq Hm Ho] Ht HX. split.
  - intros st Hst. by apply Hq.
  - intros st t' Hst. cbn [tcbs set_tcbs]. destruct (decide (t' = t)) as [->|Hne].
    + rewrite fn_lookup_insert. simpl. rewrite Hm by done. naive_solver.
    + rewrite fn_lookup_insert_ne, Hm by done. set_solver.
  - intros t' Ht' Hc. apply Ho; [done|]. destruct (decide (t' = t)) as [->|Hne]; [by right|].
    cbn [tcbs set_tcbs] in Hc. rewrite fn_lookup_insert_ne in Hc by done. set_solver.
Qed.
