(* ===== verification/Signal.v ===== *)
(** * kernel/ipc/signal.c, kernel/include/signal.h: signal sets and pending queues

    Signal numbers, masks and the queue of pending signals of a thread.  A
    pending signal is a [struct sigqueue] in a page of its own, linked in the
    thread's list [SigPending t]; the set [pend_set] has the bit of every
    signal sent and not yet returned from. *)
From S2P Require Import Prelude Mem KTypes Kalloc ListHead KState Queue.
Definition SIGABRT : Z := 6.
Definition SIGIOT : Z := 6.
Definition SIGKILL : Z := 9.
Definition SIGTERM : Z := 15.
Definition SIGCHLD : Z := 17.
Definition SIGSTOP : Z := 19.
Definition NSIG : Z := 64.
Definition SA_SIGINFO : Z := 4.
Definition SI_USER : Z := 0.
Definition SI_KERNEL : Z := 0x80.
Definition SIG_BLOCK : Z := 0.
Definition SIG_UNBLOCK : Z := 1.
Definition SIG_SETMASK : Z := 2.
Definition SIG_DFL : Z := 0.
Definition SIG_IGN : Z := 1.

Definition valid_signal (sig : Z) : bool := (sig <=? NSIG) && (1 <=? sig).

(** ** Macros on sigset_t (a uint64) *)

Definition sig_gen_mask (sig : Z) : Z := u64 (Z.shiftl 1 (sig - 1)).
Definition sig_add_set (set signo : Z) : Z := Z.lor set (u64 (Z.shiftl 1 (signo - 1))).
Definition sig_del_set (set signo : Z) : Z := Z.land set (u64 (Z.lnot (Z.shiftl 1 (signo - 1)))).
Definition sig_add_set_mask (set mask : Z) : Z := Z.lor set mask.
(** [set.sig &= (~mask)] for an argument that is one expression. *)
Definition sig_del_set_mask (set mask : Z) : Z := Z.land set (u64 (Z.lnot mask)).
(** The same macro applied to [a | b]: its body negates without parentheses, so
    the argument expands to [(~a | b)]. *)
Definition sig_del_set_mask_or (set a b : Z) : Z := Z.land set (Z.lor (u64 (Z.lnot a)) b).
Definition sig_is_member (set n_sig : Z) : bool := negb (Z.land 1 (Z.shiftr set (n_sig - 1)) =? 0).
Definition sig_test_mask (set mask : Z) : bool := negb (Z.land set mask =? 0).
Definition sig_test_empty (set : Z) : bool := set =? 0.

(** The loop of sig_first_member, from signal [i + 1] on. *)
Fixpoint sig_first_member_loop (n : nat) (set i : Z) : Z :=
  match n with
  | O => i + 1
  | S n => if sig_is_member set (i + 1) then i + 1 else sig_first_member_loop n set (i + 1)
  end.
Definition sig_first_member (set : Z) : Z := sig_first_member_loop 64 set 0.

Definition sig_ignored (t : tcb) (sig : Z) : bool := sig_is_member (blocked t) sig.
Definition sig_existed (t : tcb) (sig : Z) : bool := sig_is_member (pend_set t) sig.

(** t->sigs, dereferenced. *)
Definition get_sighand (t : nat) : E kstate sighand := fun s =>
  deref (sighands s !! sigs (tcbs s t)) s.
Definition put_sighand (t : nat) (h : sighand) : E kstate unit :=
  modify (fun s => set_sighands (<[sigs (tcbs s t) := h]> (sighands s)) s).
Definition siglock (t : nat) : E kstate lockid := gets (fun s => L_sighand (sigs (tcbs s t))).
Definition sig_action (t : nat) (signo : Z) : E kstate sigaction :=
  h ← get_sighand t; mret (actions h (signo - 1)).

(** ** Actions and masks

    [t] is mythread().  The old values a caller asked for are part of the
    result. *)

Definition do_sigaction (t : nat) (signum : Z) (act : option sigaction) (want_old : bool) : E kstate (Z * option sigaction) :=
  if negb (valid_signal signum) then mret (-1, None)
  else
    lk ← siglock t;
    acquire lk;;
    sa ← sig_action t signum;
    let oldact := if want_old then Some sa else None in
    match act with
    | Some act =>
      let act := set_sa_mask (sig_del_set_mask_or (sa_mask act) (sig_gen_mask SIGKILL) (sig_gen_mask SIGSTOP)) act in
      h ← get_sighand t;
      put_sighand t (set_actions (<[signum - 1 := act]> (actions h)) h)
    | None => mret tt
    end;;
    release lk;;
    mret (0, oldact).

Definition do_sigprocmask (t : nat) (how : Z) (set : option Z) (want_old : bool) : E kstate (Z * option Z) :=
  lk ← siglock t;
  _ ← get_sighand t;
  acquire lk;;
  ok ← match set with
       | None => mret true
       | Some set =>
         if how =? SIG_BLOCK then upd_tcb t (fun r => set_blocked (Z.lor (blocked r) set) r);; mret true
         else if how =? SIG_UNBLOCK then
           upd_tcb t (fun r => set_blocked (Z.land (blocked r) (u64 (Z.lnot set))) r);; mret true
         else if how =? SIG_SETMASK then upd_tcb t (set_blocked set);; mret true
         else release lk;; mret false
       end;
  if negb ok then mret (-1, None)
  else
    oldmask ← gets (fun s => blocked (tcbs s t));
    let oldset := if want_old then Some oldmask else None in
    upd_tcb t (fun r => set_blocked (sig_del_set_mask_or (blocked r) (sig_gen_mask SIGKILL) (sig_gen_mask SIGSTOP)) r);;
    release lk;;
    mret (0, oldset).

(** ** Pending signals *)

Definition sigpending_init (t : nat) : E kstate unit :=
  upd_tcb t (set_pend_set 0);;
  initlock (L_sigpending t);;
  on_list (INIT_LIST_HEAD (SigPending t)).

(** signal_info_init: the siginfo is the result; sig is a uint64 and si_signo an int. *)
Definition signal_info_init (sig opt : Z) : E kstate sigqueue :=
  if opt =? 0 then mret (Sigqueue (i32 sig) SI_USER)
  else if opt =? 1 then mret (Sigqueue (i32 sig) SI_KERNEL)
  else panic "signal info : error".

(** container_of a node of a pending list: the struct sigqueue. *)
Definition sigq_of (l : lptr) : option Z := match l with SigQ q => Some q | _ => None end.
Definition get_sigq (q : Z) : E kstate sigqueue := fun s => deref (sigqs s !! q) s.
(** A new struct sigqueue, whose list node is not initialised, and a freed one. *)
Definition put_sigq (q : Z) (i : sigqueue) (s : kstate) : kstate :=
  set_lh (<[SigQ q := Node None None]> (lh s)) (set_sigqs (<[q := i]> (sigqs s)) s).
Definition drop_sigq (q : Z) (s : kstate) : kstate :=
  set_lh (delete (SigQ q) (lh s)) (set_sigqs (delete q (sigqs s)) s).

Section Signals.
(** [extern char end[]]. *)
Context (kend : Z).

Definition signal_queue_delete (mask : Z) (t : nat) : E kstate Z :=
  set ← gets (fun s => pend_set (tcbs s t));
  if negb (sig_test_mask set mask) then mret (-1)
  else
    upd_tcb t (fun r => set_pend_set (sig_del_set_mask (pend_set r) mask) r);;
    for_each_safe (R := unit) (SigPending t) (fun l =>
      q ← deref (sigq_of l);
      i ← get_sigq q;
      (if valid_signal (si_signo i) && negb (Z.land mask (sig_gen_mask (si_signo i)) =? 0)
       then on_list (list_del_reinit (SigQ q));; free_object kend q drop_sigq
       else mret tt);;
      mret None);;
    mret 0.

Definition signal_queue_flush (t : nat) : E kstate Z :=
  upd_tcb t (set_pend_set 0);;
  for_each_safe (R := unit) (SigPending t) (fun l =>
    q ← deref (sigq_of l);
    on_list (list_del_reinit (SigQ q));;
    free_object kend q drop_sigq;;
    mret None);;
  mret 0.

Definition signal_send (info : sigqueue) (t : nat) : E kstate Z :=
  let sig := si_signo info in
  if negb (valid_signal sig) then mret (-1)
  else
    r ← get_tcb t;
    if sig_existed r sig then mret (-1)
    else
      (if (sig =? SIGKILL) || (sig =? SIGSTOP) || (sig =? SIGTERM) then upd_tcb t (set_tkilled 1) else mret tt);;
      q ← on_mach kalloc;
      if q =? 0 then mret (-1)
      else
        modify (put_sigq q info);;
        on_list (INIT_LIST_HEAD (SigQ q));;
        acquire (L_sigpending t);;
        on_list (list_add_tail (SigQ q) (SigPending t));;
        upd_tcb t (fun r => set_pend_set (sig_add_set (pend_set r) sig) r);;
        release (L_sigpending t);;
        upd_tcb t (fun r => set_pending_cnt (i32 (pending_cnt r + 1)) r);;
        mret 0.
End Signals.

(** ** Signal sets as sets of numbers *)

Definition is_signal (n : Z) : Prop := 1 <= n <= NSIG.

Lemma valid_signal_spec n : valid_signal n = true <-> is_signal n.
Proof. unfold valid_signal, is_signal. rewrite andb_true_iff, !Z.leb_le. lia. Qed.

Lemma sig_bit n : is_signal n -> u64 (Z.shiftl 1 (n - 1)) = 2 ^ (n - 1).
Proof.
  unfold is_signal, NSIG. intros Hn. rewrite Z.shiftl_mul_pow2 by lia. rewrite Z.mul_1_l.
  apply wrap_small. split; [apply Z.pow_nonneg; lia|apply Z.pow_lt_mono_r; lia].
Qed.

Lemma sig_is_member_bit set n : 1 <= n -> sig_is_member set n = Z.testbit set (n - 1).
Proof.
  intros Hn. unfold sig_is_member. rewrite (Z.land_comm 1).
  rewrite (Z.land_ones _ 1) by lia. change (2 ^ 1) with 2. rewrite <- Z.bit0_mod, Z.shiftr_spec, Z.add_0_l by lia.
  by destruct (Z.testbit set (n - 1)).
Qed.

Lemma u64_lnot_bit x i : 0 <= i < 64 -> Z.testbit (u64 (Z.lnot x)) i = negb (Z.testbit x i).
Proof. intros Hi. unfold wrap. rewrite Z.mod_pow2_bits_low, Z.lnot_spec by lia. done. Qed.

Lemma pow2_bit_eqb n m : 1 <= n -> 1 <= m -> Z.testbit (2 ^ (n - 1)) (m - 1) = (m =? n).
Proof.
  intros Hn Hm. destruct (Z.eqb_spec m n) as [->|Hne].
  - apply Z.pow2_bits_true. lia.
  - apply Z.pow2_bits_false. lia.
Qed.

Lemma sig_add_set_member set n m : is_signal n -> is_signal m ->
  sig_is_member (sig_add_set set n) m = (m =? n) || sig_is_member set m.
Proof.
  intros Hn Hm. unfold sig_add_set. rewrite sig_bit by done. unfold is_signal in *.
  rewrite !sig_is_member_bit, Z.lor_spec, pow2_bit_eqb by lia. apply orb_comm.
Qed.

Lemma sig_del_set_member set n m : is_signal n -> is_signal m ->
  sig_is_member (sig_del_set set n) m = negb (m =? n) && sig_is_member set m.
Proof.
  intros Hn Hm. unfold sig_del_set. unfold is_signal, NSIG in *.
  rewrite !sig_is_member_bit, Z.land_spec, u64_lnot_bit by lia.
  rewrite Z.shiftl_mul_pow2, Z.mul_1_l, pow2_bit_eqb by lia. apply andb_comm.
Qed.

Lemma sig_del_set_mask_member set mask m : is_signal m ->
  sig_is_member (sig_del_set_mask set mask) m = negb (sig_is_member mask m) && sig_is_member set m.
Proof.
  intros Hm. unfold sig_del_set_mask. unfold is_signal, NSIG in *.
  rewrite !sig_is_member_bit, Z.land_spec, u64_lnot_bit by lia. apply andb_comm.
Qed.

Lemma sig_gen_mask_member n m : is_signal n -> is_signal m -> sig_is_member (sig_gen_mask n) m = (m =? n).
Proof.
  intros Hn Hm. unfold sig_gen_mask. rewrite sig_bit by done. unfold is_signal in *.
  by rewrite sig_is_member_bit, pow2_bit_eqb by lia.
Qed.

(** What the macro leaves of a set when its argument is [a | b]: [a] without [b]
    is removed, [b] stays. *)
Lemma sig_del_set_mask_or_member set a b m : is_signal a -> is_signal b -> is_signal m ->
  sig_is_member (sig_del_set_mask_or set (sig_gen_mask a) (sig_gen_mask b)) m =
  (negb (m =? a) || (m =? b)) && sig_is_member set m.
Proof.
  intros Ha Hb Hm. unfold sig_del_set_mask_or.
  rewrite !(sig_is_member_bit _ m), Z.land_spec, Z.lor_spec by (unfold is_signal in *; lia).
  rewrite u64_lnot_bit by (unfold is_signal, NSIG in *; lia).
  rewrite <- !(sig_is_member_bit _ m) by (unfold is_signal in *; lia).
  rewrite !sig_gen_mask_member by done. apply andb_comm.
Qed.

(** A test against the mask of one signal is a membership test. *)
Lemma land_gen_mask set n : is_signal n -> Z.land set (sig_gen_mask n) = 0 <-> sig_is_member set n = false.
Proof.
  intros Hn. unfold sig_gen_mask. rewrite sig_bit by done. rewrite sig_is_member_bit by (unfold is_signal in *; lia).
  split.
  - intros H0. apply (f_equal (fun x => Z.testbit x (n - 1))) in H0.
    rewrite Z.land_spec, Z.bits_0, Z.pow2_bits_true, andb_true_r in H0 by (unfold is_signal in *; lia). done.
  - intros Hb. apply Z.bits_inj'. intros i Hi. rewrite Z.land_spec, Z.bits_0.
    destruct (decide (i = n - 1)) as [->|Hne]; [by rewrite Hb|].
    rewrite Z.pow2_bits_false by lia. apply andb_false_r.
Qed.

Lemma sig_first_member_loop_spec k set i :
  0 <= i -> let r := sig_first_member_loop k set i in
  i + 1 <= r <= i + 1 + Z.of_nat k /\
  (forall m, i + 1 <= m < r -> sig_is_member set m = false) /\
  (r <= i + Z.of_nat k -> sig_is_member set r = true).
Proof.
  revert i. induction k as [|k IH]; intros i Hi; cbn [sig_first_member_loop].
  - simpl. split_and!; [lia|lia|intros; lia|intros; lia].
  - destruct (sig_is_member set (i + 1)) eqn:Hm; simpl.
    + split_and!; [lia|lia|intros; lia|done].
    + destruct (IH (i + 1) ltac:(lia)) as (H1 & H2 & H3). split_and!; [lia|lia| |intros; apply H3; lia].
      intros m Hr. destruct (decide (m = i + 1)) as [->|]; [done|]. apply H2. lia.
Qed.

(** * Signal sets, actions and pending queues: what kernel/ipc/signal.c promises

    [pending_inv s t l qs]: the pages [qs], in this order, are the pending
    signals of thread [t], each a valid signal whose bit is in the pending set,
    no signal twice, while [l] are the allocator's free pages.  signal_send,
    signal_queue_delete and signal_queue_flush are described under it. *)

(** The signal queued in page [q]. *)
Definition signo (s : kstate) (q : Z) : Z := from_option si_signo 0 (sigqs s !! q).

Record pending_inv (kend : Z) (s : kstate) (t : nat) (l qs : list Z) : Prop := {
  pi_ring : ring (lh s) (SigPending t) (SigQ <$> qs);
  pi_live : forall q, q ∈ qs -> is_Some (sigqs s !! q) /\ valid_page kend q;
  pi_signal : forall q, q ∈ qs -> is_signal (signo s q) /\ sig_existed (tcbs s t) (signo s q) = true;
  pi_distinct : NoDup (signo s <$> qs);
  pi_kmem : kmem_inv kend (km s) l;
  pi_free : forall q, q ∈ l -> sigqs s !! q = None;
}.

(** What the operations on the queue of thread [t] leave alone: the locks held,
    the nodes of every other list, and every other part of the state. *)
Definition sig_rest (t : nat) (s s' : kstate) : Prop :=
  held (km s') = held (km s) /\
  (forall x, x <> SigPending t -> (forall q, x <> SigQ q) -> lh s' !! x = lh s !! x) /\
  set_lh (lh s) (set_sigqs (sigqs s) (set_km (km s) (set_tcbs (tcbs s) s'))) = s.

Section Pending.
Context (kend : Z).
Hypothesis kend_pos : 0 < kend.

#[local] Instance SigQ_inj : Inj (=) (=) SigQ.
Proof. by intros x y [=]. Qed.

(** The thread that a signal kills as soon as it is sent. *)
Definition sent_kill (sig : Z) (r : tcb) : tcb :=
  if (sig =? SIGKILL) || (sig =? SIGSTOP) || (sig =? SIGTERM) then set_tkilled 1 r else r.

(** The state in which signal_send leaves the kernel when it succeeds. *)
Definition sent_tcb (sig : Z) (r : tcb) : tcb :=
  set_pending_cnt (i32 (pending_cnt r + 1)) (set_pend_set (sig_add_set (pend_set r) sig) (sent_kill sig r)).

Lemma sent_kill_same sig r : pend_set (sent_kill sig r) = pend_set r /\ pending_cnt (sent_kill sig r) = pending_cnt r.
Proof. unfold sent_kill. by destruct (_ || _). Qed.

Lemma pending_free_page s t l qs q : pending_inv kend s t l qs -> q ∈ l -> q ∉ qs.
Proof. intros [_ Hl _ _ _ Hf] Hq Hin. apply Hl in Hin as [[? H] _]. by rewrite Hf in H. Qed.

(** The invariant does not see the parts of the state the queue is not in. *)
Lemma pending_inv_ext s s' t l l' qs :
  pending_inv kend s t l qs -> lh s' = lh s -> sigqs s' = sigqs s ->
  (forall n, is_signal n -> sig_existed (tcbs s t) n = true -> sig_existed (tcbs s' t) n = true) ->
  kmem_inv kend (km s') l' -> (forall q, q ∈ l' -> q ∈ l) ->
  pending_inv kend s' t l' qs.
Proof.
  intros [Hr Hl Hs Hd Hk Hf] H1 H2 Hb Hm Hsub. split; unfold signo in *; rewrite ?H1, ?H2; try done.
  - intros q Hq. destruct (Hs q Hq). split; [done|]. by apply Hb.
  - intros q Hq. by apply Hf, Hsub.
Qed.

Lemma sig_add_set_mono r r' sig n : is_signal sig -> is_signal n ->
  pend_set r' = sig_add_set (pend_set r) sig -> sig_existed r n = true -> sig_existed r' n = true.
Proof. unfold sig_existed. intros H1 H2 -> H. rewrite sig_add_set_member, H by done. apply orb_true_r. Qed.

(** Entering the page [p] at the end of the queue. *)
Lemma pending_inv_push s s' t p l qs info m h' :
  pending_inv kend s t (p :: l) qs -> is_signal (si_signo info) -> sig_existed (tcbs s t) (si_signo info) = false ->
  kmem_inv kend m l -> ring h' (SigPending t) (SigQ <$> (qs ++ [p])) ->
  lh s' = h' -> km s' = m -> sigqs s' = <[p := info]> (sigqs s) ->
  pend_set (tcbs s' t) = sig_add_set (pend_set (tcbs s t)) (si_signo info) ->
  pending_inv kend s' t l (qs ++ [p]).
Proof.
  intros Hinv Hsig Hex Hm Hr Hlh Hkm Hsq Hps. pose proof Hinv as [Hr0 Hl Hs Hd Hk Hf].
  assert (Hp : p ∉ qs) by (eapply pending_free_page; [done|apply elem_of_cons; by left]).
  assert (Hold : forall q, q ∈ qs -> signo s' q = signo s q).
  { intros q Hq. unfold signo. rewrite Hsq, lookup_insert_ne; [done|]. intros ->. done. }
  assert (Hnew : signo s' p = si_signo info) by (unfold signo; by rewrite Hsq, lookup_insert_eq).
  split.
  - by rewrite Hlh.
  - intros q [Hq|Hq%list_elem_of_singleton]%elem_of_app.
    + destruct (Hl q Hq). rewrite Hsq, lookup_insert_ne by congruence. done.
    + subst q. rewrite Hsq, lookup_insert_eq. split; [done|]. destruct Hk as [_ _ Hv _]. by apply Forall_cons_1 in Hv as [? _].
  - intros q [Hq|Hq%list_elem_of_singleton]%elem_of_app.
    + rewrite Hold by done. destruct (Hs q Hq) as [H1 H2]. split; [done|]. by apply (sig_add_set_mono (tcbs s t) _ (si_signo info)).
    + subst q. rewrite Hnew. split; [done|]. unfold sig_existed. by rewrite Hps, sig_add_set_member, Z.eqb_refl.
  - rewrite fmap_app. simpl. rewrite Hnew.
    rewrite (list_fmap_ext (signo s') (signo s)) by (intros i q Hq; apply Hold; by eapply list_elem_of_lookup_2).
    apply NoDup_app. split_and!; [done| |apply NoDup_singleton].
    intros n (q & -> & Hq)%list_elem_of_fmap Heq%list_elem_of_singleton.
    destruct (Hs q Hq) as [_ H]. congruence.
  - by rewrite Hkm.
  - intros q Hq. rewrite Hsq, lookup_insert_ne.
    + apply Hf, elem_of_cons. by right.
    + intros ->. destruct Hk as [_ Hnd _ _]. by apply NoDup_cons in Hnd as [? _].
Qed.

(** The page becomes the last entry of the thread's queue. *)
Lemma wp_enqueue info t p l qs m r0 s s1 :
  pending_inv kend s t (p :: l) qs -> is_signal (si_signo info) -> sig_existed (tcbs s t) (si_signo info) = false ->
  L_sigpending t ∉ held (km s) -> kmem_inv kend m l -> held m = held (km s) ->
  pend_set r0 = pend_set (tcbs s t) ->
  only_tcb t r0 s s1 -> lh s1 = lh s -> sigqs s1 = sigqs s -> km s1 = m ->
  set_km (km s) (set_tcbs (tcbs s) s1) = s ->
  wp (modify (put_sigq p info);; on_list (INIT_LIST_HEAD (SigQ p));; acquire (L_sigpending t);;
      on_list (list_add_tail (SigQ p) (SigPending t));;
      upd_tcb t (fun r => set_pend_set (sig_add_set (pend_set r) (si_signo info)) r);;
      release (L_sigpending t);;
      upd_tcb t (fun r => set_pending_cnt (i32 (pending_cnt r + 1)) r);; mret 0)
    (fun r s' => r = 0 /\ sig_rest t s s' /\ pending_inv kend s' t l (qs ++ [p]) /\
      sigqs s' = <[p := info]> (sigqs s) /\
      only_tcb t (set_pending_cnt (i32 (pending_cnt r0 + 1)) (set_pend_set (sig_add_set (pend_set r0) (si_signo info)) r0)) s s') s1.
Proof.
  intros Hinv Hsig Hex Hl2 Hm Hh Hp0 Htc Hlh Hsq Hkm Hrs.
  pose proof (pending_free_page s t (p :: l) qs p Hinv ltac:(apply elem_of_cons; by left)) as Hp.
  pose proof Hinv as [Hr _ _ _ _ _].
  assert (Hpr : SigQ p ∉ SigPending t :: (SigQ <$> qs)).
  { rewrite elem_of_cons. intros [[=]|(q & [= <-] & Hq)%list_elem_of_fmap]. done. }
  apply wp_bind, wp_modify, wp_bind, wp_zoom, wp_init_list; simpl; [by rewrite lookup_insert_eq|].
  intros h1 [Hd1 Hs1] _. apply wp_bind, wp_kacquire; simpl; [by rewrite Hkm, Hh|]. apply wp_bind, wp_zoom. simpl.
  apply (wp_list_add_tail _ _ (SigQ <$> qs)).
  - eapply ring_frame; [done|]. intros x Hx. rewrite Hs1 by (intros ->%list_elem_of_singleton; done).
    rewrite lookup_insert_ne by (intros <-; done). by rewrite Hlh.
  - done.
  - apply Hd1. by rewrite lookup_insert_eq.
  - intros h2 [_ Hs2] Hr2. apply wp_bind, wp_modify, wp_bind. eapply wp_krelease; [done|simpl; by rewrite Hkm, Hh|].
    apply wp_bind, wp_modify, wp_ret. split; [done|]. split.
    { split_and!; [simpl; by rewrite Hkm| |simpl; rewrite <- Hsq, <- Hlh; by destruct s1].
      intros x Hx1 Hx2. simpl. assert (x <> SigQ p) by apply Hx2. rewrite Hs2, Hs1, lookup_insert_ne, Hlh; try done.
      - by intros ?%list_elem_of_singleton.
      - rewrite !elem_of_cons. by intros [?|[?|(q & -> & ?)%list_elem_of_fmap]]; [..|by apply (Hx2 q)]. }
    split; [|split; [simpl; by rewrite Hsq|]].
    + eapply (pending_inv_push s _ t p l qs info (set_held (held (km s1)) (set_held (L_sigpending t :: held (km s1)) (km s1)))); try done.
      * rewrite held_restore, Hkm. done.
      * rewrite fmap_app. exact Hr2.
      * simpl. by rewrite Hsq.
      * simpl. rewrite !fn_lookup_insert. simpl. destruct Htc as [-> _]. by rewrite Hp0.
    + destruct Htc as [Ht1 Ht2]. split; simpl; [by rewrite !fn_lookup_insert, Ht1|].
      intros t' Hne. rewrite !fn_lookup_insert_ne by done. by apply Ht2.
Qed.

Lemma wp_signal_send info t l qs s :
  pending_inv kend s t l qs -> L_kmem ∉ held (km s) -> L_sigpending t ∉ held (km s) ->
  wp (signal_send info t) (fun r s' =>
    sig_rest t s s' /\
    if negb (valid_signal (si_signo info)) || sig_existed (tcbs s t) (si_signo info) then r = -1 /\ s' = s
    else match l with
         | [] => r = -1 /\ pending_inv kend s' t [] qs /\ sigqs s' = sigqs s /\
             only_tcb t (sent_kill (si_signo info) (tcbs s t)) s s'
         | p :: l' => r = 0 /\ pending_inv kend s' t l' (qs ++ [p]) /\ sigqs s' = <[p := info]> (sigqs s) /\
             only_tcb t (sent_tcb (si_signo info) (tcbs s t)) s s'
         end) s.
Proof.
  intros Hinv Hl1 Hl2. unfold signal_send. assert (Hrefl : sig_rest t s s) by (split_and!; [done|done|by destruct s]).
  destruct (valid_signal (si_signo info)) eqn:Hv; [|by apply wp_ret].
  apply valid_signal_spec in Hv as Hsig. cbn [negb orb]. apply wp_bind, wp_gets.
  destruct (sig_existed (tcbs s t) (si_signo info)) eqn:Hex; [by apply wp_ret|].
  destruct (sent_kill_same (si_signo info) (tcbs s t)) as [Hk1 Hk2].
  eapply (wp_call _ _ (fun _ s1 => only_tcb t (sent_kill (si_signo info) (tcbs s t)) s s1 /\ lh s1 = lh s /\ sigqs s1 = sigqs s /\ km s1 = km s /\ set_tcbs (tcbs s) s1 = s)).
  { unfold sent_kill. destruct (_ || _); [|apply wp_ret; by destruct s]. apply wp_modify.
    split_and!; [|done..|by destruct s]. apply (only_tcb_upd t (set_tkilled 1)), only_tcb_refl. }
  cbn beta. intros _ s1 (Htc & Hlh & Hsq & Hkm & Hrs). apply wp_bind.
  eapply (wp_on_kalloc kend kend_pos l); [rewrite Hkm; apply Hinv|by rewrite Hkm| |].
  - intros m -> Hm Hh. apply wp_ret. split.
    { split_and!; simpl; [by rewrite Hh, Hkm|by intros; rewrite Hlh|]. rewrite <- Hlh, <- Hsq, <- Hkm. exact Hrs || by destruct s1. }
    simpl. split_and!; try done.
    eapply pending_inv_ext; try done. unfold sig_existed. simpl. destruct Htc as [-> _]. by rewrite Hk1.
  - intros p l' m -> Hpv Hm Hh. destruct (Z.eqb_spec p 0) as [->|_]; [by apply (valid_page_pos kend kend_pos) in Hpv|].
    rewrite Hkm in Hh. eapply wp_mono; [eapply (wp_enqueue info t p l' qs m (sent_kill (si_signo info) (tcbs s t))); try done|].
    { rewrite <- Hkm. exact Hrs || by destruct s1. }
    cbn beta. intros r s' (-> & Hh' & Hi & Hs' & Ht'). rewrite Hk1, Hk2 in Ht'. done.
Qed.

(** C25: signal_send on every branch.  An invalid or already pending signal is
    refused with nothing changed.  Otherwise a fatal signal marks the thread
    killed, and if a page is free the signal becomes the last entry of the
    thread's queue, its bit is added to the pending set and the count goes up
    by one; without a free page the result is -1 and the queue is as before.
    The queue stays well formed: no signal twice, every entry's bit set. *)
Theorem signal_send_queues (info : sigqueue) (t : nat) (l qs : list Z) (s : kstate) :
  pending_inv kend s t l qs -> L_kmem ∉ held (km s) -> L_sigpending t ∉ held (km s) ->
  wp (signal_send info t) (fun r s' =>
    held (km s') = held (km s) /\
    if negb (valid_signal (si_signo info)) || sig_existed (tcbs s t) (si_signo info) then r = -1 /\ s' = s
    else match l with
         | [] => r = -1 /\ pending_inv kend s' t [] qs /\ sigqs s' = sigqs s /\
             only_tcb t (sent_kill (si_signo info) (tcbs s t)) s s'
         | p :: l' => r = 0 /\ pending_inv kend s' t l' (qs ++ [p]) /\ sigqs s' = <[p := info]> (sigqs s) /\
             only_tcb t (sent_tcb (si_signo info) (tcbs s t)) s s'
         end) s.
Proof.
  intros Hinv Hl1 Hl2. eapply wp_mono; [by eapply (wp_signal_send info t l qs)|]. cbn beta. intros r s' [[Hh _] H]. done.
Qed.

(** ** Dropping pending signals *)

(** Progress of a traversal that drops entries of the queue [kept ++ rest]:
    [gone] are the pages it has freed, last first. *)
Record drop_inv (s0 : kstate) (t : nat) (l qs kept rest gone : list Z) (s : kstate) : Prop := {
  di_ring : ring (lh s) (SigPending t) (SigQ <$> (kept ++ rest));
  di_kmem : kmem_inv kend (km s) (gone ++ l);
  di_held : held (km s) = held (km s0);
  di_tcbs : tcbs s = tcbs s0;
  di_sigqs : forall q, sigqs s !! q = if decide (q ∈ gone) then None else sigqs s0 !! q;
  di_nodes : forall x, x ∉ SigPending t :: (SigQ <$> qs) -> lh s !! x = lh s0 !! x;
  di_perm : kept ++ gone ++ rest ≡ₚ qs;
  di_rest : set_lh (lh s0) (set_sigqs (sigqs s0) (set_km (km s0) s)) = s0;
}.

Lemma drop_inv_init s s0 t l qs : pending_inv kend s t l qs -> lh s0 = lh s -> km s0 = km s ->
  drop_inv s0 t l qs [] qs [] s0.
Proof. intros [Hr Hl Hs Hd Hk Hf] H1 H2. split; rewrite ?H1, ?H2; try done. rewrite <- H1, <- H2. by destruct s0. Qed.

Lemma drop_inv_keep s0 t l qs kept q rest gone s :
  drop_inv s0 t l qs kept (q :: rest) gone s -> drop_inv s0 t l qs (kept ++ [q]) rest gone s.
Proof.
  intros [Hr Hk Hh Ht Hq Hn Hp Hrs]. split; try done.
  - by rewrite <- app_assoc.
  - rewrite <- Hp, <- app_assoc. apply Permutation_app_head. simpl. apply Permutation_middle.
Qed.

Lemma drop_inv_chain s0 t l qs kept rest gone s :
  drop_inv s0 t l qs kept rest gone s -> chain (lh s) (SigPending t) (SigQ <$> rest).
Proof.
  intros [Hr _ _ _ _ _ _ _]. apply ring_chain in Hr as [_ Hc]. rewrite fmap_app in Hc. by apply chain_app in Hc.
Qed.

(** Unlinking and freeing the entry the traversal is at. *)
Lemma wp_drop s0 t l qs kept q rest gone (Q : unit -> kstate -> Prop) s :
  NoDup qs -> (forall q, q ∈ qs -> valid_page kend q /\ q ∉ l) -> L_kmem ∉ held (km s0) ->
  drop_inv s0 t l qs kept (q :: rest) gone s ->
  (forall s', drop_inv s0 t l qs kept rest (q :: gone) s' -> Q tt s') ->
  wp (on_list (list_del_reinit (SigQ q));; free_object kend q drop_sigq) Q s.
Proof.
  intros Hnd Hlv Hl [Hr Hk Hh Ht Hq Hn Hp Hrs] HQ.
  assert (Hin : q ∈ qs) by (rewrite <- Hp; set_solver). rewrite <- Hp in Hnd.
  assert (q ∉ kept ++ rest /\ q ∉ gone) as [Hqr Hqg].
  { assert (q :: kept ++ gone ++ rest ≡ₚ kept ++ gone ++ q :: rest) as Hpm by (rewrite !app_assoc; apply Permutation_middle).
    rewrite <- Hpm in Hnd. apply NoDup_cons in Hnd as [Hnd _]. rewrite !elem_of_app in *. tauto. }
  apply wp_bind, wp_zoom. rewrite fmap_app in Hr.
  apply (wp_list_del_reinit _ (SigPending t) (SigQ <$> kept) (SigQ <$> rest)); [exact Hr|].
  intros h' [Hd' Hs'] Hr' _.
  apply (wp_free_object kend kend_pos _ _ (gone ++ l)); simpl; [done|by rewrite Hh|by apply Hlv| |].
  { rewrite elem_of_app. intros [|Hql]; [done|]. by apply (Hlv q Hin). }
  intros m Hm Hhm. apply HQ. split; simpl.
  - eapply ring_frame; [by rewrite fmap_app|]. intros x Hx. apply lookup_delete_ne. intros <-.
    apply elem_of_cons in Hx as [[=]|(q' & [= <-] & ?)%list_elem_of_fmap]. done.
  - done.
  - by rewrite Hhm.
  - done.
  - intros q'. destruct (decide (q' = q)) as [->|Hne].
    + rewrite lookup_delete_eq. by rewrite decide_True by (apply elem_of_cons; by left).
    + rewrite lookup_delete_ne, Hq by done. apply decide_ext. set_solver.
  - intros x Hx. assert (x <> SigQ q) by (intros ->; apply Hx; apply elem_of_cons; right; by apply list_elem_of_fmap_2).
    rewrite lookup_delete_ne by done. rewrite Hs'; [by apply Hn|].
    change (SigQ q :: (SigQ <$> rest)) with (SigQ <$> (q :: rest)). rewrite <- fmap_app. intros Hx'. apply Hx.
    apply elem_of_cons in Hx' as [?|(y & -> & Hy)%list_elem_of_fmap]; apply elem_of_cons; [by left|right].
    apply list_elem_of_fmap_2. rewrite <- Hp. set_solver.
  - rewrite <- Hp. apply Permutation_app_head. simpl. apply Permutation_middle.
  - done.
Qed.

Lemma pending_pages s t l qs : pending_inv kend s t l qs ->
  NoDup qs /\ (forall q, q ∈ qs -> valid_page kend q /\ q ∉ l).
Proof.
  intros Hinv. pose proof Hinv as [(Hnd & _) Hl _ _ _ _]. apply NoDup_cons in Hnd as [_ Hnd].
  apply NoDup_fmap_1 in Hnd. split; [done|]. intros q Hq. split; [by apply Hl|].
  intros Hql. by apply (pending_free_page s t l qs q Hinv Hql).
Qed.

(** What is left when the traversal is over. *)
Lemma drop_inv_done s s0 s' t l qs kept gone :
  pending_inv kend s t l qs -> sigqs s0 = sigqs s ->
  drop_inv s0 t l qs kept [] gone s' -> sublist kept qs ->
  (forall q, q ∈ kept -> sig_existed (tcbs s0 t) (signo s q) = true) ->
  pending_inv kend s' t (gone ++ l) kept /\ (forall q, q ∈ kept -> sigqs s' !! q = sigqs s !! q).
Proof.
  intros Hinv Hsq [Hr Hk Hh Ht Hq Hn Hp _] Hsub Hex. pose proof Hinv as [Hr0 Hl Hs Hd Hk0 Hf].
  destruct (pending_pages _ _ _ _ Hinv) as [Hnd Hlv]. rewrite <- Hp, app_nil_r in Hnd.
  assert (Hin : forall q, q ∈ kept -> q ∈ qs) by (intros q Hqk; by eapply elem_of_sublist).
  assert (Hsame : forall q, q ∈ kept -> sigqs s' !! q = sigqs s !! q).
  { intros q Hqk. rewrite Hq, Hsq, decide_False; [done|]. apply NoDup_app in Hnd as (_ & Hdj & _). by apply Hdj. }
  assert (Hsg : forall q, q ∈ kept -> signo s' q = signo s q) by (intros q Hqk; unfold signo; by rewrite Hsame).
  split; [|done]. rewrite app_nil_r in Hr. split.
  - done.
  - intros q Hqk. rewrite Hsame by done. by apply Hl, Hin.
  - intros q Hqk. rewrite Hsg, Ht by done. split; [apply Hs, Hin; done|by apply Hex].
  - rewrite (list_fmap_ext (signo s') (signo s)) by (intros i q Hi; apply Hsg; by eapply list_elem_of_lookup_2).
    eapply sublist_NoDup; [exact Hd|by apply fmap_sublist].
  - done.
  - intros q [Hg|Hql]%elem_of_app; rewrite Hq.
    + by rewrite decide_True.
    + destruct (decide _); [done|]. rewrite Hsq. by apply Hf.
Qed.

Lemma wp_drop_loop (keep : Z -> bool) (body : lptr -> E kstate (option unit)) s s0 t l qs :
  pending_inv kend s t l qs -> lh s0 = lh s -> km s0 = km s -> sigqs s0 = sigqs s -> L_kmem ∉ held (km s) ->
  (forall q (gone : list Z) s1 (Q : option unit -> kstate -> Prop), q ∈ qs -> q ∉ gone ->
    (forall q', sigqs s1 !! q' = if decide (q' ∈ gone) then None else sigqs s !! q') ->
    (if keep q then Q None s1
     else wp (on_list (list_del_reinit (SigQ q));; free_object kend q drop_sigq) (fun _ => Q None) s1) ->
    wp (body (SigQ q)) Q s1) ->
  wp (for_each_safe (SigPending t) body) (fun _ s' =>
    drop_inv s0 t l qs (filter keep qs) [] (rev (filter (fun q => negb (keep q)) qs)) s') s0.
Proof.
  intros Hinv Hlh Hkm Hsq Hl Hbody. destruct (pending_pages _ _ _ _ Hinv) as [Hnd Hlv].
  pose proof Hinv as [Hr _ _ _ _ _].
  apply (wp_for_each_safe (SigPending t) body (fun ys s1 => exists dn rest, ys = SigQ <$> rest /\ qs = dn ++ rest /\
    drop_inv s0 t l qs (filter keep dn) rest (rev (filter (fun q => negb (keep q)) dn)) s1)) with (ys := SigQ <$> qs).
  - intros ys s1 (dn & rest & -> & _ & Hdi). by eapply drop_inv_chain.
  - intros y ys s1 (dn & rest & Heq & Hqs & Hdi). destruct rest as [|q rest]; [done|]. injection Heq as -> ->.
    assert (Hq : q ∈ qs) by (rewrite Hqs; set_solver).
    apply (Hbody q (rev (filter (fun q => negb (keep q)) dn))); [done| | |].
    + rewrite in_rev_elem. intros [_ Hin]%list_elem_of_filter. rewrite Hqs in Hnd.
      apply NoDup_app in Hnd as (_ & Hdj & _). apply (Hdj q Hin). set_solver.
    + intros q'. destruct Hdi as [_ _ _ _ Hd _ _ _]. by rewrite Hd, Hsq.
    + assert (Hqs' : qs = (dn ++ [q]) ++ rest) by by rewrite <- app_assoc.
      destruct (keep q) eqn:Hkq.
      * exists (dn ++ [q]), rest. split_and!; [done|done|]. rewrite !filter_app.
        rewrite (filter_cons_True keep), (filter_cons_False (fun q => negb (keep q))) by (rewrite Hkq; simpl; tauto).
        rewrite app_nil_r. by apply drop_inv_keep.
      * eapply wp_drop; [done|done|by rewrite Hkm|exact Hdi|]. intros s2 Hd2.
        exists (dn ++ [q]), rest. split_and!; [done|done|]. rewrite !filter_app.
        rewrite (filter_cons_False keep), (filter_cons_True (fun q => negb (keep q))) by (rewrite Hkq; simpl; tauto).
        rewrite app_nil_r, rev_app_distr. done.
  - intros s1 (dn & rest & Heq & Hqs & Hdi). destruct rest; [|done]. rewrite app_nil_r in Hqs. by subst dn.
  - exists [], qs. split_and!; [done|done|]. by eapply drop_inv_init.
  - destruct Hr as (H0 & _). apply NoDup_cons in H0 as [H0 _]. done.
  - rewrite Hlh. by apply ring_chain.
  - rewrite Hlh. by eapply ring_size.
Qed.

Lemma for_each_drop (test : bool) q (Q : option unit -> kstate -> Prop) s :
  (if test then wp (on_list (list_del_reinit (SigQ q));; free_object kend q drop_sigq) (fun _ => Q None) s else Q None s) ->
  wp ((if test then on_list (list_del_reinit (SigQ q));; free_object kend q drop_sigq else mret tt);; mret None) Q s.
Proof. intros H. apply wp_bind. destruct test; [|by apply wp_ret]. eapply wp_mono; [exact H|]. intros [] s' HQ. by apply wp_ret. Qed.

(** signal_queue_delete fails, changing nothing, when no signal of the mask
    is pending; otherwise it removes from the queue exactly the signals of the
    mask, keeps the order of the others, takes the mask out of the pending set
    and gives every dropped page back to the allocator. *)
Theorem signal_queue_delete_exact (mask : Z) (t : nat) (l qs : list Z) (s : kstate) :
  pending_inv kend s t l qs -> L_kmem ∉ held (km s) ->
  let inmask q := sig_is_member mask (signo s q) in
  wp (signal_queue_delete kend mask t) (fun r s' =>
    held (km s') = held (km s) /\
    if Z.land (pend_set (tcbs s t)) mask =? 0 then r = -1 /\ s' = s
    else r = 0 /\
      pending_inv kend s' t (rev (filter inmask qs) ++ l) (filter (fun q => negb (inmask q)) qs) /\
      (forall q, q ∈ qs -> inmask q = false -> sigqs s' !! q = sigqs s !! q) /\
      only_tcb t (set_pend_set (sig_del_set_mask (pend_set (tcbs s t)) mask) (tcbs s t)) s s') s.
Proof.
  intros Hinv Hl inmask. unfold signal_queue_delete, sig_test_mask. apply wp_bind, wp_gets.
  destruct (Z.land (pend_set (tcbs s t)) mask =? 0); [by apply wp_ret|]. cbn [negb].
  apply wp_bind, wp_modify. set (s0 := set_tcbs _ s). apply wp_bind.
  eapply wp_mono; [eapply (wp_drop_loop (fun q => negb (inmask q)) _ s s0 t l qs); try done|].
  - intros q gone s1 Q Hq Hg Hs1 HQ. apply wp_bind, wp_ret. destruct Hinv as [_ Hlv Hsg _ _ _].
    destruct (Hlv q Hq) as [[i Hi] _]. destruct (Hsg q Hq) as [Hsig _].
    assert (Hno : signo s q = si_signo i) by (unfold signo; by rewrite Hi).
    apply wp_bind. unfold get_sigq. eapply wp_run; [rewrite Hs1, decide_False, Hi by done; done|].
    rewrite <- Hno. rewrite (proj2 (valid_signal_spec _)) by done. cbn [andb].
    apply for_each_drop. unfold inmask in HQ. pose proof (land_gen_mask mask (signo s q) Hsig) as Hb.
    destruct (sig_is_member mask (signo s q)), (Z.eqb_spec (Z.land mask (sig_gen_mask (signo s q))) 0); simpl in *; try done; naive_solver.
  - cbn beta. intros _ s' Hd. apply wp_ret.
    rewrite (list_filter_iff (fun q => negb (negb (inmask q))) inmask) in Hd by (intros q; by destruct (inmask q)).
    destruct (drop_inv_done s s0 s' t l qs _ _ Hinv eq_refl Hd (sublist_filter _ _)) as [Hi Hs].
    { intros q [Hn Hq]%list_elem_of_filter. destruct Hinv as [_ _ Hsg _ _ _]. destruct (Hsg q Hq) as [Hsig Hex].
      unfold sig_existed in *. simpl. rewrite fn_lookup_insert. simpl. rewrite sig_del_set_mask_member, Hex by done.
      unfold inmask in Hn. by destruct (sig_is_member mask (signo s q)). }
    destruct Hd as [_ _ Hh Htc _ _ _ _]. split_and!; [done|done|done| |split].
    + intros q Hq Hm. apply Hs, list_elem_of_filter. by rewrite Hm.
    + rewrite Htc. simpl. by rewrite fn_lookup_insert.
    + intros t' Ht'. rewrite Htc. simpl. by rewrite fn_lookup_insert_ne.
Qed.

Lemma filter_none (l : list Z) : filter (fun _ => false) l = [] /\ filter (fun _ => negb false) l = l.
Proof. induction l as [|x l [IH1 IH2]]; [done|]. by rewrite filter_cons_False, filter_cons_True, IH2 by (simpl; tauto). Qed.

Lemma wp_signal_queue_flush t l qs s :
  pending_inv kend s t l qs -> L_kmem ∉ held (km s) ->
  wp (signal_queue_flush kend t) (fun r s' =>
    r = 0 /\ sig_rest t s s' /\ pending_inv kend s' t (rev qs ++ l) [] /\
    only_tcb t (set_pend_set 0 (tcbs s t)) s s' /\
    (forall q, sigqs s' !! q = if decide (q ∈ qs) then None else sigqs s !! q)) s.
Proof.
  intros Hinv Hl. unfold signal_queue_flush. apply wp_bind, wp_modify. set (s0 := set_tcbs _ s). apply wp_bind.
  eapply wp_mono; [eapply (wp_drop_loop (fun _ => false) _ s s0 t l qs); try done|].
  - intros q gone s1 Q Hq Hg Hs1 HQ. apply wp_bind, wp_ret.
    pose proof (for_each_drop true q Q s1 HQ) as H. unfold wp, mbind, E_bind in *. by destruct (on_list _ s1).
  - cbn beta. intros _ s' Hd. apply wp_ret. destruct (filter_none qs) as [H1 H2]. rewrite H1, H2 in Hd.
    destruct (drop_inv_done s s0 s' t l qs _ _ Hinv eq_refl Hd) as [Hi _]; [apply sublist_nil_l|by intros q ?%elem_of_nil|].
    destruct Hd as [_ _ Hh Htc Hq Hn _ Hrs]. split; [done|]. split.
    { split_and!; [done| |].
      - intros x Hx1 Hx2. apply Hn. rewrite elem_of_cons. intros [?|(q & -> & ?)%list_elem_of_fmap]; [done|by apply (Hx2 q)].
      - apply (f_equal (set_tcbs (tcbs s))) in Hrs. simpl in Hrs. exact Hrs || by destruct s, s'. }
    split_and!; [done|split|].
    + rewrite Htc. simpl. by rewrite fn_lookup_insert.
    + intros t' Ht'. rewrite Htc. simpl. by rewrite fn_lookup_insert_ne.
    + intros q. rewrite Hq. apply decide_ext. apply in_rev_elem.
Qed.
End Pending.

(** ** Sets, actions and masks *)

(** the sigset macros are operations on the set of signals 1 to 64:
    sig_add_set and sig_del_set add and remove one signal, sig_del_set_mask
    removes the signals of a mask, sig_gen_mask is the singleton, and
    sig_first_member is the least member (65 when there is none). *)
Theorem sigset_macros_refine_sets (set mask n m : Z) :
  is_signal n -> is_signal m ->
  sig_is_member (sig_add_set set n) m = (m =? n) || sig_is_member set m /\
  sig_is_member (sig_del_set set n) m = negb (m =? n) && sig_is_member set m /\
  sig_is_member (sig_del_set_mask set mask) m = negb (sig_is_member mask m) && sig_is_member set m /\
  sig_is_member (sig_gen_mask n) m = (m =? n) /\
  1 <= sig_first_member set <= NSIG + 1 /\
  (m < sig_first_member set -> sig_is_member set m = false) /\
  (sig_first_member set <= NSIG -> sig_is_member set (sig_first_member set) = true).
Proof.
  intros Hn Hm. pose proof (sig_first_member_loop_spec 64 set 0 ltac:(lia)) as (H1 & H2 & H3).
  unfold sig_first_member. change NSIG with 64 in *.
  split_and!; auto using sig_add_set_member, sig_del_set_member, sig_del_set_mask_member, sig_gen_mask_member; try lia.
  - intros Hlt. apply H2. unfold is_signal in Hm. lia.
Qed.

Lemma sigset_macros_refine_sets_witness :
  sig_is_member (sig_add_set 0 17) 17 = true /\ sig_is_member (sig_del_set (sig_add_set 0 17) 17) 17 = false.
Proof.
  assert (is_signal 17) as H by (unfold is_signal, NSIG; lia).
  destruct (sigset_macros_refine_sets 0 0 17 17 H H) as (H1 & _).
  destruct (sigset_macros_refine_sets (sig_add_set 0 17) 0 17 17 H H) as (_ & H2 & _).
  by rewrite H1, H2.
Defined.

(** The mask do_sigaction and do_sigprocmask compute: SIGKILL goes, SIGSTOP
    stays. *)
Definition without_sigkill (mask : Z) : Z := sig_del_set_mask_or mask (sig_gen_mask SIGKILL) (sig_gen_mask SIGSTOP).

Lemma without_sigkill_member mask n : is_signal n ->
  sig_is_member (without_sigkill mask) n = negb (n =? SIGKILL) && sig_is_member mask n.
Proof.
  intros Hn. unfold without_sigkill. rewrite sig_del_set_mask_or_member by (done || unfold is_signal, NSIG, SIGKILL, SIGSTOP; lia).
  destruct (Z.eqb_spec n SIGKILL) as [->|]; [done|]. by destruct (n =? SIGSTOP).
Qed.

(** do_sigaction refuses an invalid signal number and otherwise answers the
    old action and installs the new one for that signal alone, under the
    handlers' lock, with SIGKILL taken out of the mask.  SIGSTOP is not taken
    out of it: the macro negates only the first half of its argument. *)
Theorem do_sigaction_installs (t : nat) (signum : Z) (act : sigaction) (want : bool) (h : sighand) (s : kstate) :
  sighands s !! sigs (tcbs s t) = Some h -> L_sighand (sigs (tcbs s t)) ∉ held (km s) ->
  wp (do_sigaction t signum (Some act) want) (fun r s' =>
    if valid_signal signum then
      r = (0, if want then Some (actions h (signum - 1)) else None) /\ held (km s') = held (km s) /\
      tcbs s' = tcbs s /\
      exists h', sighands s' !! sigs (tcbs s t) = Some h' /\ sh_ref h' = sh_ref h /\
        (forall i, i <> signum - 1 -> actions h' i = actions h i) /\
        sa_handler (actions h' (signum - 1)) = sa_handler act /\ sa_flags (actions h' (signum - 1)) = sa_flags act /\
        (forall n, is_signal n -> sig_is_member (sa_mask (actions h' (signum - 1))) n = negb (n =? SIGKILL) && sig_is_member (sa_mask act) n)
    else r = (-1, None) /\ s' = s) s.
Proof.
  intros Hs Hl. unfold do_sigaction. destruct (valid_signal signum); [|by apply wp_ret]. cbn [negb].
  apply wp_bind, wp_gets, wp_bind, wp_kacquire; [done|]. apply wp_bind. unfold sig_action, get_sighand.
  apply wp_bind. eapply wp_run; [simpl; rewrite Hs; done|]. apply wp_ret, wp_bind, wp_bind.
  eapply wp_run; [simpl; rewrite Hs; done|]. apply wp_modify. apply wp_bind. eapply wp_krelease; [done|done|]. apply wp_ret.
  simpl. split_and!; [by destruct want|done|done|]. eexists. rewrite lookup_insert_eq. split_and!; [done|done|..]; simpl.
  - intros i Hi. by rewrite fn_lookup_insert_ne.
  - by rewrite fn_lookup_insert.
  - by rewrite fn_lookup_insert.
  - intros n Hn. rewrite fn_lookup_insert. by apply without_sigkill_member.
Qed.

(** A thread with signal handlers in page 4096. *)
Definition with_handlers : kstate :=
  set_tcbs (fun _ => set_sigs 4096 tcb_zero)
    (set_lh {[SigPending 0 := Node (Some (SigPending 0)) (Some (SigPending 0))]}
      (set_sighands {[4096 := Sighand 1 (fun _ => Sigaction 0 0 0 0)]} (kzero one_free))).

Lemma do_sigaction_installs_witness :
  wp (do_sigaction 0 2 (Some (Sigaction 0x1000 (2 ^ 64 - 1) 0 0)) true)
    (fun r s' => r.1 = 0 /\ exists h, sighands s' !! 4096 = Some h /\
       sig_is_member (sa_mask (actions h 1)) SIGKILL = false /\ sig_is_member (sa_mask (actions h 1)) SIGSTOP = true) with_handlers.
Proof.
  eapply wp_mono.
  - apply (do_sigaction_installs 0 2 (Sigaction 0x1000 (2 ^ 64 - 1) 0 0) true (Sighand 1 (fun _ => Sigaction 0 0 0 0)) with_handlers).
    + reflexivity.
    + apply not_elem_of_nil.
  - cbn beta. change (valid_signal 2) with true. cbv iota. intros r s' (-> & _ & _ & h & Hh & _ & _ & _ & _ & Hm).
    split; [done|]. exists h. split; [done|].
    rewrite !Hm by (unfold is_signal, NSIG, SIGKILL, SIGSTOP; lia). done.
Defined.

(** The mask sigprocmask asks for. *)
Definition requested (how old set : Z) : option Z :=
  if how =? SIG_BLOCK then Some (Z.lor old set)
  else if how =? SIG_UNBLOCK then Some (sig_del_set_mask old set)
  else if how =? SIG_SETMASK then Some set
  else None.

(** do_sigprocmask blocks, unblocks or sets the signals of [set] according
    to [how], never leaves SIGKILL blocked, and refuses any other [how] with
    the mask unchanged.  The value it answers as the old mask is the mask it
    has just installed, not the one that was in force before the call. *)
Theorem do_sigprocmask_updates (t : nat) (how set : Z) (want : bool) (h : sighand) (s : kstate) :
  sighands s !! sigs (tcbs s t) = Some h -> L_sighand (sigs (tcbs s t)) ∉ held (km s) ->
  wp (do_sigprocmask t how (Some set) want) (fun r s' =>
    held (km s') = held (km s) /\
    match requested how (blocked (tcbs s t)) set with
    | None => r = (-1, None) /\ only_tcb t (tcbs s t) s s'
    | Some m =>
      r = (0, if want then Some m else None) /\ only_tcb t (set_blocked (without_sigkill m) (tcbs s t)) s s' /\
      sig_is_member (blocked (tcbs s' t)) SIGKILL = false /\
      (forall n, is_signal n -> n <> SIGKILL -> sig_is_member (blocked (tcbs s' t)) n = sig_is_member m n)
    end) s.
Proof.
  intros Hs Hl. unfold do_sigprocmask. apply wp_bind, wp_gets, wp_bind. unfold get_sighand.
  eapply wp_run; [rewrite Hs; done|]. apply wp_bind, wp_kacquire; [done|]. apply wp_bind. unfold requested.
  assert (Hfin : forall m (f : tcb -> tcb), (forall r, blocked (f r) = m) -> (forall r m', set_blocked m' (f r) = set_blocked m' r) ->
    wp (oldmask ← gets (fun s => blocked (tcbs s t));
        upd_tcb t (fun r => set_blocked (sig_del_set_mask_or (blocked r) (sig_gen_mask SIGKILL) (sig_gen_mask SIGSTOP)) r);;
        release (L_sighand (sigs (tcbs s t)));; mret (0, if want then Some oldmask else None))
     (fun r s' => held (km s') = held (km s) /\ r = (0, if want then Some m else None) /\
        only_tcb t (set_blocked (without_sigkill m) (tcbs s t)) s s' /\
        sig_is_member (blocked (tcbs s' t)) SIGKILL = false /\
        (forall n, is_signal n -> n <> SIGKILL -> sig_is_member (blocked (tcbs s' t)) n = sig_is_member m n))
     (set_tcbs (<[t := f (tcbs s t)]> (tcbs s)) (set_km (set_held (L_sighand (sigs (tcbs s t)) :: held (km s)) (km s)) s))).
  { intros m f Hf1 Hf2. apply wp_bind, wp_gets, wp_bind, wp_modify, wp_bind. eapply wp_krelease; [done|done|]. apply wp_ret.
    simpl. rewrite !fn_lookup_insert, Hf1, Hf2. split_and!; [done|done|split| |]; simpl.
    - by rewrite fn_lookup_insert.
    - intros t' Ht. by rewrite !fn_lookup_insert_ne.
    - etrans; [apply (without_sigkill_member m SIGKILL); unfold is_signal, NSIG, SIGKILL; lia|done].
    - intros n Hn Hk. etrans; [by apply (without_sigkill_member m n)|]. by destruct (Z.eqb_spec n SIGKILL). }
  destruct (how =? SIG_BLOCK); [|destruct (how =? SIG_UNBLOCK); [|destruct (how =? SIG_SETMASK)]].
  - apply wp_bind, wp_modify, wp_ret. by apply (Hfin (Z.lor (blocked (tcbs s t)) set) (set_blocked (Z.lor (blocked (tcbs s t)) set))).
  - apply wp_bind, wp_modify, wp_ret. by apply (Hfin _ (set_blocked (sig_del_set_mask (blocked (tcbs s t)) set))).
  - apply wp_bind, wp_modify, wp_ret. by apply (Hfin set (set_blocked set)).
  - apply wp_bind. eapply wp_krelease; [done|done|]. apply wp_ret, wp_ret. done.
Qed.

Lemma do_sigprocmask_updates_witness :
  wp (do_sigprocmask 0 SIG_SETMASK (Some 6) true) (fun r s' => r = (0, Some 6)) with_handlers.
Proof.
  eapply wp_mono.
  - apply (do_sigprocmask_updates 0 SIG_SETMASK 6 true (Sighand 1 (fun _ => Sigaction 0 0 0 0)) with_handlers).
    + reflexivity.
    + apply not_elem_of_nil.
  - cbn beta. by intros r s' (_ & -> & _).
Defined.

(** Nothing pending, one free page. *)
Lemma with_handlers_pending : pending_inv two_pages with_handlers 0 [PHYSTOP - PGSIZE] [].
Proof.
  split.
  - split_and!; [apply NoDup_singleton|by intros x ->%list_elem_of_singleton|done].
  - by intros q ?%elem_of_nil.
  - by intros q ?%elem_of_nil.
  - apply NoDup_nil_2.
  - split; [done|apply NoDup_singleton|by apply Forall_singleton|]. intros a. simpl. lia.
  - done.
Qed.

Lemma signal_send_queues_witness :
  wp (signal_send (Sigqueue SIGKILL SI_USER) 0) (fun r s' =>
    r = 0 /\ pending_inv two_pages s' 0 [] [PHYSTOP - PGSIZE] /\ tkilled (tcbs s' 0%nat) = 1) with_handlers.
Proof.
  eapply wp_mono.
  - apply (signal_send_queues two_pages ltac:(done) (Sigqueue SIGKILL SI_USER) 0 [PHYSTOP - PGSIZE] [] with_handlers with_handlers_pending);
      apply not_elem_of_nil.
  - cbn beta. intros r s' [_ (-> & Hi & _ & Ht & _)]. split_and!; [done|done|]. by rewrite Ht.
Defined.

Lemma signal_queue_delete_exact_witness :
  exists s, wp (signal_queue_delete two_pages (sig_gen_mask 9) 0) (fun r s' =>
    r = 0 /\ pending_inv two_pages s' 0 [PHYSTOP - PGSIZE] []) s.
Proof.
  pose proof (wp_signal_send two_pages ltac:(done) (Sigqueue 9 SI_USER) 0 [PHYSTOP - PGSIZE] [] with_handlers with_handlers_pending
    ltac:(apply not_elem_of_nil) ltac:(apply not_elem_of_nil)) as H.
  apply wp_done in H as (r & s & _ & (Hh & _) & H). change (_ || _) with false in H. cbv iota in H.
  destruct H as (_ & Hi & Hs & Ht & _). exists s.
  assert (L_kmem ∉ held (km s)) as Hl by (rewrite Hh; apply not_elem_of_nil).
  assert (signo s (PHYSTOP - PGSIZE) = 9) as Hsig by (unfold signo; rewrite Hs, lookup_insert_eq; done).
  assert (Z.land (pend_set (tcbs s 0%nat)) (sig_gen_mask 9) =? 0 = false) as Hp by (rewrite Ht; done).
  eapply wp_mono; [apply (signal_queue_delete_exact two_pages ltac:(done) (sig_gen_mask 9) 0 [] [PHYSTOP - PGSIZE] s Hi Hl)|].
  cbn beta. rewrite Hp. cbv iota. intros r' s' (_ & -> & Hi' & _). split; [done|].
  rewrite filter_cons_True, filter_cons_False in Hi' by (rewrite Hsig; done || (simpl; tauto)). exact Hi'.
Defined.
