(* ===== verification/Thread.v ===== *)
(** * kernel/sched/thread.c: threads

    Allocation and release of thread control blocks, thread groups, sleeping
    and waking, and sending signals to threads.  The switch to the scheduler is
    the parameter [swtch] of [Sched]; thread_exit, which ends the process with
    its last thread, is in [Proc]. *)
From S2P Require Import Prelude Mem KTypes Kalloc Vm ListHead KState Queue Sched Signal.

(** for (t = tcb_pool; t < &tcb_pool[NTHREADS]; t++), and the same over proc[]:
    the body answers [Some r] to leave the loop. *)
Fixpoint for_table {R} (n i : nat) (body : nat -> E kstate (option R)) : E kstate (option R) :=
  match n with
  | O => mret None
  | S n =>
    r ← body i;
    match r with Some r => mret (Some r) | None => for_table n (S i) body end
  end.
Definition for_threads {R} (body : nat -> E kstate (option R)) : E kstate (option R) :=
  for_table (Z.to_nat NTHREADS) 0 body.
Definition for_procs {R} (body : nat -> E kstate (option R)) : E kstate (option R) :=
  for_table (Z.to_nat NPROC) 0 body.

(** A number used as a sleeping channel; 0 is NULL. *)
Definition chan_of (a : Z) : channel := if a =? 0 then ChNone else ChAddr a.

Definition upd_sighand (t : nat) (f : sighand -> sighand) : E kstate unit :=
  h ← get_sighand t; put_sighand t (f h).

(** alloctid: atomic_inc_return answers the old value. *)
Definition alloctid : E kstate Z :=
  n ← gets next_tid;
  modify (set_next_tid (i32 (n + 1)));;
  mret n.

Definition TCB_Q_ALL_INIT : E kstate unit :=
  queue_init (TQ TCB_UNUSED) "TCB_UNUSED" TCB_STATE_QUEUE;;
  queue_init (TQ TCB_USED) "TCB_USED" TCB_STATE_QUEUE;;
  queue_init (TQ TCB_RUNNABLE) "TCB_RUNNABLE" TCB_STATE_QUEUE;;
  queue_init (TQ TCB_SLEEPING) "TCB_SLEEPING" TCB_STATE_QUEUE.

Definition tcb_init_one (t : nat) : E kstate unit :=
  initlock (L_tcb t);;
  upd_tcb t (set_tstate TCB_UNUSED);;
  upd_tcb t (set_kstack (KSTACK (Z.of_nat t)));;
  q ← deref (g_tcb_queues TCB_UNUSED);
  queue_push_back_atomic q t.

Definition tcb_init : E kstate unit :=
  TCB_Q_ALL_INIT;;
  for_threads (R := unit) (fun t => tcb_init_one t;; mret None);;
  mret tt.

Definition alloc_thread (callback : Z) : E kstate (option nat) :=
  q ← deref (g_tcb_queues TCB_UNUSED);
  t ← queue_pop_atomic q true;
  match t with
  | None => mret None
  | Some t =>
    acquire (L_tcb t);;
    on_list (INIT_LIST_HEAD (TThreads t));;
    tid ← alloctid;
    upd_tcb t (set_tid tid);;
    upd_tcb t (fun r => set_ctx_sp (kstack r + KSTACK_PAGE * PGSIZE) (set_ctx_ra callback r));;
    upd_tcb t (set_blocked 0);;
    sigpending_init t;;
    tcb_q_change_state t TCB_USED;;
    upd_tcb t (fun r => set_wait_chan_entry None (set_timeout 0 (set_chan ChNone
                         (set_tkilled 0 (set_clear_child_tid 0 (set_set_child_tid 0 r))))));;
    mret (Some t)
  end.

Section Threads.
(** [extern char end[]]. *)
Context (kend : Z).

(** The group of process [p] is given by the index [p]. *)
Definition proc_join_thread (p t : nat) (name : option string) : E kstate Z :=
  upd_tcb t (set_ttg (Some p));;
  upd_proc p (fun r => set_thread_cnt (i32 (thread_cnt r + 1)) r);;
  acquire (L_tg p);;
  upd_proc p (fun r => match group_leader r with None => set_group_leader (Some t) r | Some _ => r end);;
  on_list (list_add_tail (TThreads t) (TgThreads p));;
  upd_proc p (fun r => set_tgid (pid r) r);;
  idx ← gets (fun s => thread_idx (procs s p));
  upd_tcb t (set_tidx idx);;
  upd_proc p (set_thread_idx (i32 (idx + 1)));;
  upd_tcb t (set_tproc (Some p));;
  release (L_tg p);;
  acquire (L_mm p);;
  pt ← gets (fun s => pagetable (procs s p));
  tf ← on_mach (uvm_thread_trapframe kend pt idx);
  upd_tcb t (set_trapframe tf);;
  if tf =? 0 then release (L_mm p);; mret (-1)
  else
    release (L_mm p);;
    upd_tcb t (set_tname (String.substring 0 20 (default "testname" name)));;
    mret 0.

(** The parameter [t] of create_thread is overwritten before it is read. *)
Definition create_thread (p : nat) (name : option string) (callback : Z) : E kstate unit :=
  t ← alloc_thread callback;
  match t with
  | None => panic "no free thread"
  | Some t =>
    proc_join_thread p t name;;
    tcb_q_change_state t TCB_RUNNABLE;;
    release (L_tcb t)
  end.

Definition drop_sighand (a : Z) (s : kstate) : kstate := set_sighands (delete a (sighands s)) s.

(** if (t->sigs) {...}: atomic_dec_return answers the old value. *)
Definition put_sigs (t : nat) : E kstate unit :=
  a ← gets (fun s => sigs (tcbs s t));
  if a =? 0 then mret tt
  else
    h ← get_sighand t;
    put_sighand t (set_sh_ref (i32 (sh_ref h - 1)) h);;
    (if sh_ref h =? 1 then free_object kend a drop_sighand else mret tt);;
    upd_tcb t (set_sigs 0).

(** The fields free_thread clears. *)
Definition clear_tcb (r : tcb) : tcb :=
  set_timeout 0 (set_sig_processing 0 (set_pending_cnt 0 (set_tkilled 0 (set_ctx_sp 0 (set_ctx_ra 0
    (set_tproc None (set_tname "" (set_trapframe 0 (set_tidx 0 (set_tid 0 r)))))))))).

Definition free_thread (t : nat) : E kstate unit :=
  p ← gets (fun s => tproc (tcbs s t));
  p ← deref p;
  acquire (L_mm p);;
  pt ← gets (fun s => pagetable (procs s p));
  r ← get_tcb t;
  on_mach (uvmunmap kend pt (THREAD_TRAPFRAME (tidx r)) 1 (negb (trapframe r =? 0)));;
  release (L_mm p);;
  upd_tcb t clear_tcb;;
  signal_queue_flush kend t;;
  upd_tcb t (fun r => set_wait_chan_entry None (set_chan ChNone r));;
  put_sigs t;;
  tcb_q_change_state t TCB_UNUSED.

Definition thread_setkilled (t : nat) : E kstate unit :=
  acquire (L_tcb t);;
  upd_tcb t (set_tkilled 1);;
  release (L_tcb t).

Definition thread_killed (t : nat) : E kstate Z :=
  acquire (L_tcb t);;
  k ← gets (fun s => tkilled (tcbs s t));
  release (L_tcb t);;
  mret k.

Definition tginit (p : nat) : E kstate unit :=
  initlock (L_tg p);;
  upd_proc p (fun r => set_thread_idx 0 (set_thread_cnt 0 (set_group_leader None r)));;
  on_list (INIT_LIST_HEAD (TgThreads p)).

(** ** Time *)

(** struct timespec: seconds and nanoseconds. *)
Definition timespec : Type := Z * Z.

Definition TICKS_PER_SECOND : Z := 10.
Definition TIMESPEC2TICKS (ts : timespec) : Z :=
  u64 (u64 (ts.1 * TICKS_PER_SECOND) + u64 (ts.2 * TICKS_PER_SECOND) / 1000000000).

(** kernel/sched/trap.c *)
Definition get_ticksnow : E kstate Z :=
  acquire L_ticks;;
  t ← gets ticks;
  release L_ticks;;
  mret t.

Definition get_timeout_ticks (ts : timespec) : E kstate Z :=
  acquire L_ticks;;
  ticks0 ← gets ticks;
  release L_ticks;;
  let rticks := u32 (TIMESPEC2TICKS ts) in
  mret (u32 (rticks + ticks0)).

(** ** Sleep and wakeup *)

Section Sleep.
Context (swtch : nat -> E kstate unit).

Definition thread_sleep (ch : channel) (lk : lockid) (tmo : option timespec) : E kstate unit :=
  t ← mythread;
  acquire (L_tcb t);;
  release lk;;
  upd_tcb t (set_chan ch);;
  match tmo with
  | Some ts => n ← get_timeout_ticks ts; upd_tcb t (set_timeout n)
  | None => mret tt
  end;;
  tcb_q_change_state t TCB_SLEEPING;;
  thread_sched swtch;;
  upd_tcb t (set_chan ChNone);;
  upd_tcb t (set_timeout 0);;
  release (L_tcb t);;
  acquire lk.
End Sleep.

(** The loop of the wakeup routines: every thread but the current one, with its
    lock held while [wake] decides; [wake] answers whether to stop. *)
Definition wakeup_scan (wake : nat -> E kstate bool) : E kstate unit :=
  cur_thread ← gets cur;
  for_threads (R := unit) (fun t =>
    if bool_decide (Some t <> cur_thread) then
      acquire (L_tcb t);;
      stop ← wake t;
      release (L_tcb t);;
      mret (if stop : bool then Some tt else None)
    else mret None);;
  mret tt.

Definition thread_wakeup_timeout (ticks_now : Z) : E kstate unit :=
  wakeup_scan (fun t =>
    r ← get_tcb t;
    if bool_decide (tstate r = TCB_SLEEPING) && (timeout r =? ticks_now)
    then tcb_q_change_state t TCB_RUNNABLE;; mret true
    else mret false).

Definition thread_wakeup_chan_timeout (ch : channel) (ticks_now : Z) : E kstate unit :=
  wakeup_scan (fun t =>
    r ← get_tcb t;
    if bool_decide (tstate r = TCB_SLEEPING) && bool_decide (chan r = ch) && (timeout r =? ticks_now)
    then tcb_q_change_state t TCB_RUNNABLE;; upd_tcb t (set_timeout 0);; mret true
    else mret false).

Definition thread_wakeup_chan (ch : channel) : E kstate unit :=
  wakeup_scan (fun t =>
    r ← get_tcb t;
    (if bool_decide (chan r = ch) && bool_decide (tstate r = TCB_SLEEPING)
     then tcb_q_change_state t TCB_RUNNABLE else mret tt);;
    mret false).

Definition thread_wakeup_specific (t : nat) : E kstate unit :=
  r ← get_tcb t;
  ASSERT (bool_decide (tstate r = TCB_SLEEPING));;
  ASSERT (bool_decide (chan r <> ChNone) || bool_decide (wait_chan_entry r <> None));;
  upd_tcb t (set_chan ChNone);;
  tcb_q_change_state t TCB_RUNNABLE.

Definition thread_wakeup_specific_atomic (t : nat) : E kstate unit :=
  acquire (L_tcb t);;
  thread_wakeup_specific t;;
  release (L_tcb t).

(** ** Groups, trap frames, signal handlers *)

Definition transfer_trapframe (t : nat) (newpgtble : Z) (unmmap_old : bool) : E kstate unit :=
  r ← get_tcb t;
  p ← deref (tproc r);
  oldpgtble ← gets (fun s => pagetable (procs s p));
  let tfva := THREAD_TRAPFRAME (tidx r) in
  (if unmmap_old then
     acquire (L_mm p);;
     on_mach (uvmunmap kend oldpgtble tfva 1 false);;
     release (L_mm p)
   else mret tt);;
  x ← on_mach (mappages newpgtble tfva PGSIZE (trapframe r) (Z.lor PTE_R PTE_W));
  panic_if (x <? 0) "transfer trapframe failed".

Definition free_allother_threads_group (t : nat) : E kstate Z :=
  tg ← gets (fun s => ttg (tcbs s t));
  tg ← deref tg;
  acquire (L_tg tg);;
  for_each_safe (R := unit) (TgThreads tg) (fun l =>
    tt' ← deref (node_index l);
    acquire (L_tcb tt');;
    (if bool_decide (tt' <> t) then
       free_thread tt';;
       me ← gets cur;
       upd_proc tg (fun r => if bool_decide (group_leader r = Some tt') then set_group_leader me r else r);;
       on_list (list_del_reinit (TThreads tt'))
     else mret tt);;
    release (L_tcb tt');;
    mret None);;
  release (L_tg tg);;
  mret 0.

(** sizeof(struct sighand) is below a page; the page is zeroed. *)
Definition sigaction_zero : sigaction := Sigaction 0 0 0 0.
Definition SIGHAND_SIZE : Z := 2080.
Definition put_new_sighand (a : Z) (s : kstate) : kstate :=
  set_sighands (<[a := Sighand 0 (fun _ => sigaction_zero)]> (sighands s)) s.

Definition sighandinit (t : nat) : E kstate unit :=
  a ← alloc_object SIGHAND_SIZE put_new_sighand;
  upd_tcb t (set_sigs a);;
  panic_if (a =? 0) "sighandinit: kmalloc failed";;
  initlock (L_sighand a);;
  upd_sighand t (set_sh_ref 1).

(** ** Signals to threads *)

Definition thread_send_signal (t : nat) (info : sigqueue) : E kstate unit :=
  signal_send info t;;
  st ← gets (fun s => tstate (tcbs s t));
  (if bool_decide (st = TCB_SLEEPING) then thread_wakeup_specific t else mret tt);;
  if (si_signo info =? SIGKILL) || (si_signo info =? SIGSTOP) then upd_tcb t (set_tkilled 1) else mret tt.

(** The turn of thread_kill and thread_group_kill that found its thread. *)
Definition kill_thread (t : nat) (sig : Z) : E kstate (option Z) :=
  info ← signal_info_init sig 0;
  thread_send_signal t info;;
  release (L_tcb t);;
  acquire (L_sigpending t);;
  now ← get_ticksnow;
  thread_wakeup_chan_timeout (chan_of sig) now;;
  release (L_sigpending t);;
  mret (Some 0).

Definition thread_kill (id sig : Z) : E kstate Z :=
  if (id <? 0) || (NTHREADS <=? id) then mret (-1)
  else
    r ← for_threads (fun t =>
          acquire (L_tcb t);;
          r ← get_tcb t;
          if tid r =? id then kill_thread t sig
          else release (L_tcb t);; mret None);
    mret (default (-1) r).

Definition thread_group_kill (gid id sig : Z) : E kstate Z :=
  if (id <? 0) || (NTHREADS <=? id) then mret (-1)
  else
    r ← for_threads (fun t =>
          acquire (L_tcb t);;
          r ← get_tcb t;
          g ← deref (ttg r);
          gr ← get_proc g;
          if (tgid gr =? gid) && (tid r =? id) then kill_thread t sig
          else release (L_tcb t);; mret None);
    mret (default (-1) r).
End Threads.
