(* ===== verification/ThreadInv.v ===== *)
(** * Threads under the scheduling invariant

    tcb_init establishes [sched_inv]; alloc_thread, thread_sleep and the wakeup
    routines keep it, each with its exact effect on the queues. *)
From S2P Require Import Prelude Mem KTypes Kalloc Vm ListHead KState Queue Sched Signal Thread.

(** ** Loops over a table *)

Lemma wp_for_table {R} (J : nat -> kstate -> Prop) (Q : option R -> kstate -> Prop) n i body s :
  (forall k s1, (i <= k < i + n)%nat -> J k s1 ->
     wp (body k) (fun r s2 => match r with Some r => Q (Some r) s2 | None => J (S k) s2 end) s1) ->
  (forall s1, J (i + n)%nat s1 -> Q None s1) ->
  J i s -> wp (for_table n i body) Q s.
Proof.
  revert i s. induction n as [|n IH]; intros i s Hb Hend HJ; simpl.
  - apply wp_ret, Hend. by rewrite Nat.add_0_r.
  - apply wp_bind. eapply wp_mono; [apply Hb; [lia|done]|]. intros [r|] s2 H2; [by apply wp_ret|].
    apply IH; [|by rewrite Nat.add_succ_comm|done]. intros k s1 Hk. apply Hb. lia.
Qed.

(** ** Initialisation *)

(** The queues as tcb_init leaves them when the first [k] threads are in. *)
Definition init_queues (k : nat) (st : thread_state) : list nat :=
  if bool_decide (st = TCB_UNUSED) then seq 0 k else [].

Record init_inv (k : nat) (h0 : list lockid) (s : kstate) : Prop := {
  ii_queue : forall st, st <> TCB_RUNNING ->
    qtype (queues s (TQ st)) = TCB_STATE_QUEUE /\ queue_is s (TQ st) (init_queues k st);
  ii_node : forall t, is_thread t -> is_Some (lh s !! TState t);
  ii_state : forall t, (t < k)%nat -> tstate (tcbs s t) = TCB_UNUSED /\ kstack (tcbs s t) = KSTACK (Z.of_nat t);
  ii_held : held (km s) = h0;
}.

Lemma wp_tcb_init_one k h0 s :
  (Z.of_nat k < NTHREADS) -> L_tcb k ∉ h0 -> L_queue (TQ TCB_UNUSED) ∉ h0 ->
  init_inv k h0 s -> wp (tcb_init_one k) (fun _ s' => init_inv (S k) h0 s') s.
Proof.
  intros Hk Hl1 Hl2 [Hq Hn Hs Hh]. unfold tcb_init_one. rewrite <- Hh in Hl1, Hl2.
  apply wp_bind. apply wp_zoom, initlock_free; [done|]. apply wp_bind, wp_modify, wp_bind, wp_modify, wp_bind, wp_ret.
  simpl. destruct (Hq TCB_UNUSED ltac:(done)) as [Hty Hqu].
  eapply (wp_queue_push_back_atomic (TQ TCB_UNUSED) k (seq 0 k)); [exact Hqu| |simpl; rewrite Hty; by apply Hn|done|].
  { rewrite elem_of_seq. lia. }
  intros s' Hf Hq' _. pose proof (qf_tcbs _ _ _ _ Hf) as Htc. pose proof (qf_km _ _ _ _ Hf) as Hkm.
  destruct Hf as [[Hd Hsm] Hqs Hty' _]. simpl in *. rewrite Hty in Hsm. simpl in Hsm. split.
  - intros st Hst. destruct (decide (st = TCB_UNUSED)) as [->|Hne].
    + rewrite Hty'. split; [done|]. unfold init_queues. rewrite bool_decide_true by done. by rewrite seq_S.
    + destruct (Hq st Hst) as [Hty2 Hq2]. rewrite Hqs by congruence. split; [done|].
      unfold init_queues in *. rewrite bool_decide_false in * by done.
      eapply queue_is_frame; [exact Hq2|simpl; by rewrite Hqs by congruence|].
      intros x ->%list_elem_of_singleton. apply Hsm. rewrite !elem_of_cons, list_elem_of_fmap.
      intros [[=]|[[= ?]|(? & [=] & _)]]; done.
  - intros t Ht. apply Hd. by apply Hn.
  - intros t Ht. rewrite Htc. destruct (decide (t = k)) as [->|Hne]; [by rewrite !fn_lookup_insert|].
    rewrite !fn_lookup_insert_ne by done. apply Hs. lia.
  - by rewrite Hkm.
Qed.

(** The nodes tcb_init uses are there. *)
Definition has_tcb_nodes (s : kstate) : Prop :=
  (forall t, is_thread t -> is_Some (lh s !! TState t)) /\
  (forall st, st <> TCB_RUNNING -> is_Some (lh s !! QHead (TQ st))).

Lemma wp_TCB_Q_ALL_INIT s :
  has_tcb_nodes s -> (forall st, L_queue (TQ st) ∉ held (km s)) ->
  wp TCB_Q_ALL_INIT (fun _ s' => init_inv 0 (held (km s)) s') s.
Proof.
  intros [Hn Hq] Hl. unfold TCB_Q_ALL_INIT.
  apply wp_bind, wp_queue_init; [done|by apply Hq|apply Hl|]. intros s1 Q1 T1 [D1 S1] O1 _ K1.
  apply wp_bind, wp_queue_init; [done|apply D1; by apply Hq|rewrite K1; apply Hl|]. intros s2 Q2 T2 [D2 S2] O2 _ K2.
  apply wp_bind, wp_queue_init; [done|apply D2, D1; by apply Hq|rewrite K2, K1; apply Hl|]. intros s3 Q3 T3 [D3 S3] O3 _ K3.
  apply wp_queue_init; [done|apply D3, D2, D1; by apply Hq|rewrite K3, K2, K1; apply Hl|]. intros s4 Q4 T4 [D4 S4] O4 _ K4.
  assert (Hkeep : forall q q' sa sb, q <> q' -> queue_is sa q [] -> only_at [QHead q'] (lh sa) (lh sb) ->
    (forall p, p <> q' -> queues sb p = queues sa p) -> queue_is sb q [] /\ queues sb q = queues sa q).
  { intros q q' sa sb Hne Hqa [_ Hs] Ho. specialize (Ho q Hne). split; [|done].
    eapply queue_is_frame; [done|by rewrite Ho|]. intros x ->%list_elem_of_singleton. apply Hs.
    intros [= ?]%list_elem_of_singleton. done. }
  destruct (Hkeep (TQ TCB_UNUSED) (TQ TCB_USED) _ _ ltac:(done) Q1 (conj D2 S2) O2) as [Q1' E1].
  destruct (Hkeep (TQ TCB_UNUSED) (TQ TCB_RUNNABLE) _ _ ltac:(done) Q1' (conj D3 S3) O3) as [Q1'' E1'].
  destruct (Hkeep (TQ TCB_UNUSED) (TQ TCB_SLEEPING) _ _ ltac:(done) Q1'' (conj D4 S4) O4) as [Q1''' E1''].
  destruct (Hkeep (TQ TCB_USED) (TQ TCB_RUNNABLE) _ _ ltac:(done) Q2 (conj D3 S3) O3) as [Q2' E2].
  destruct (Hkeep (TQ TCB_USED) (TQ TCB_SLEEPING) _ _ ltac:(done) Q2' (conj D4 S4) O4) as [Q2'' E2'].
  destruct (Hkeep (TQ TCB_RUNNABLE) (TQ TCB_SLEEPING) _ _ ltac:(done) Q3 (conj D4 S4) O4) as [Q3' E3].
  split.
  - intros st Hst. unfold init_queues. destruct st; try done; simpl; (split; [congruence|done]).
  - intros t Ht. by apply D4, D3, D2, D1, Hn.
  - intros t Ht. lia.
  - congruence.
Qed.

Lemma wp_tcb_init s :
  has_tcb_nodes s -> held (km s) = [] ->
  wp tcb_init (fun _ s' => sched_inv s' (init_queues (Z.to_nat NTHREADS)) ∅ /\ held (km s') = [] /\
    forall t, is_thread t -> kstack (tcbs s' t) = KSTACK (Z.of_nat t)) s.
Proof.
  intros Hn Hh. unfold tcb_init. apply wp_bind. eapply wp_mono.
  { apply wp_TCB_Q_ALL_INIT; [done|]. intros st. rewrite Hh. apply not_elem_of_nil. }
  cbn beta. intros _ s1 H1. rewrite Hh in H1. apply wp_bind.
  apply (wp_for_table (fun k s => init_inv k [] s)); [| |done].
  - intros k s2 Hk H2. apply wp_bind. eapply wp_mono; [apply (wp_tcb_init_one k []); [lia|apply not_elem_of_nil..|done]|].
    cbn beta. intros _ s3 H3. by apply wp_ret.
  - intros s2 [Hq Hnd Hs Hhd]. apply wp_ret. split_and!; [|done|].
    + assert (Hst : forall t, is_thread t -> tstate (tcbs s2 t) = TCB_UNUSED) by (intros t Ht; apply Hs; unfold is_thread in Ht; lia).
      split; [by apply Hq| |].
      * intros st t Hne. unfold init_queues. case_bool_decide as Hu.
        -- rewrite elem_of_seq. split; [|unfold is_thread; lia]. intros Ht. assert (is_thread t) by (unfold is_thread; lia).
           split_and!; [done|by rewrite Hst|set_solver].
        -- rewrite elem_of_nil. split; [done|]. intros (Ht & Ht2 & _). rewrite Hst in Ht2 by done. congruence.
      * intros t Ht [Hr|?]; [|set_solver]. by rewrite Hst in Hr.
    + intros t Ht. apply Hs. unfold is_thread in Ht. lia.
Qed.

(** ** Wakeups *)

Lemma sched_inv_ext s tq tq' X : (forall st, tq st = tq' st) -> sched_inv s tq X -> sched_inv s tq' X.
Proof.
  intros He [Hq Hm Ho]. split; [| |done].
  - intros st Hst. rewrite <- He. by apply Hq.
  - intros st t Hst. rewrite <- He. by apply Hm.
Qed.

(** The invariant does not depend on memory and locks. *)
Lemma sched_inv_km s tq X m : sched_inv s tq X -> sched_inv (set_km m s) tq X.
Proof. by intros [Hq Hm Ho]. Qed.

(** The invariant is about lists, queues and the states of threads. *)
Lemma sched_inv_same s s' tq X :
  sched_inv s tq X -> lh s' = lh s -> queues s' = queues s -> (forall t, tstate (tcbs s' t) = tstate (tcbs s t)) ->
  sched_inv s' tq X.
Proof.
  intros [Hq Hm Ho] H1 H2 H3. split.
  - unfold queue_is. rewrite H1, H2. done.
  - intros st t Hst. rewrite H3. by apply Hm.
  - intros t Ht. rewrite H3. unfold detached. rewrite H1. by apply Ho.
Qed.

(** A section that only schedules, run with a lock of its own. *)
Lemma sched_rest_lock l s s2 :
  sched_rest (set_km (set_held (l :: held (km s)) (km s)) s) s2 ->
  held (km s2) = l :: held (km s) /\ sched_rest s (set_km (set_held (held (km s)) (km s2)) s2).
Proof.
  intros (K & P & R & Qr & Nr). simpl in *. split; [by rewrite K|]. split_and!; simpl.
  - rewrite K. apply held_restore.
  - done.
  - rewrite K. simpl. rewrite held_restore. apply (f_equal (set_km (km s))) in R. by destruct s, s2.
  - done.
  - done.
Qed.

Lemma sched_rest_refl s : sched_rest s s.
Proof. split_and!; [done..|by destruct s|done|done]. Qed.

(** The queues after the threads [ts] have been made runnable, in that order. *)
Definition woken_queues (ts : list nat) (tq : thread_state -> list nat) (st : thread_state) : list nat :=
  filter (fun t => t ∉ ts) (tq st) ++ if bool_decide (st = TCB_RUNNABLE) then ts else [].

Lemma woken_queues_snoc ts t tq st : t ∉ ts -> t ∉ tq TCB_RUNNABLE ->
  with_last t TCB_RUNNABLE (without t (woken_queues ts tq)) st = woken_queues (ts ++ [t]) tq st.
Proof.
  intros Hts Ht. unfold with_last, without, woken_queues. rewrite filter_app, list_filter_filter.
  assert (filter (fun x => x <> t) (if bool_decide (st = TCB_RUNNABLE) then ts else []) =
          if bool_decide (st = TCB_RUNNABLE) then ts else []) as -> by (case_bool_decide; [by apply filter_id|done]).
  rewrite <- app_assoc. f_equal; [|by case_bool_decide].
  apply list_filter_iff. intros x. rewrite elem_of_app, list_elem_of_singleton. tauto.
Qed.

(** The state after [ts] have been woken in [s]. *)
Record woken (s : kstate) (tq : thread_state -> list nat) (ts : list nat) (s' : kstate) : Prop := {
  wk_inv : sched_inv s' (woken_queues ts tq) ∅;
  wk_tcbs : forall t, tcbs s' t = if decide (t ∈ ts) then set_tstate TCB_RUNNABLE (tcbs s t) else tcbs s t;
  wk_rest : sched_rest s s';
}.

Lemma woken_queues_nil tq st : woken_queues [] tq st = tq st.
Proof.
  unfold woken_queues. assert (forall l : list nat, filter (fun t => t ∉ []) l = l) as ->.
  { induction l as [|x l IH]; [done|]. rewrite filter_cons_True by apply not_elem_of_nil. by rewrite IH. }
  case_bool_decide; by rewrite app_nil_r.
Qed.

Lemma woken_none s tq : sched_inv s tq ∅ -> woken s tq [] s.
Proof.
  intros Hi. split; [|done|apply sched_rest_refl]. eapply sched_inv_ext; [|exact Hi]. intros st. by rewrite woken_queues_nil.
Qed.

(** Waking one more sleeping thread, whose lock is held. *)
Lemma wp_wake_one s tq ts t (Q : unit -> kstate -> Prop) s1 :
  sched_inv s tq ∅ -> woken s tq ts s1 -> is_thread t -> t ∉ ts -> tstate (tcbs s t) = TCB_SLEEPING ->
  locks_free s -> L_tcb t ∉ held (km s) ->
  (forall s2, woken s tq (ts ++ [t]) (set_km (km s) s2) -> km s2 = set_held (L_tcb t :: held (km s)) (km s) -> Q tt s2) ->
  wp (tcb_q_change_state t TCB_RUNNABLE) Q (set_km (set_held (L_tcb t :: held (km s)) (km s)) s1).
Proof.
  intros Hinv [Hi Htc Hr] Ht Hni Hsl Hlf Hl HQ.
  pose proof Hr as (Hkm & _ & _ & _).
  eapply (wp_tcb_q_change_state t TCB_RUNNABLE (woken_queues ts tq) ∅).
  - by apply sched_inv_km.
  - done.
  - done.
  - intros st. simpl. rewrite elem_of_cons. intros [?|?]; [done|by apply (Hlf st)].
  - intros s2 Hi2 Htc2 Hr2. rewrite <- Hkm in Hr2. apply sched_rest_lock in Hr2 as [Hh2 Hr2].
    rewrite <- Hkm in *. assert (Hk2 : km s2 = set_held (L_tcb t :: held (km s1)) (km s1)).
    { destruct Hr2 as (K & _). simpl in K. clear -K Hh2. destruct (km s2), (km s1). simpl in *. unfold set_held in *. simpl in *. congruence. }
    apply HQ; [|done]. split.
    + apply sched_inv_km. eapply sched_inv_ext; [|replace (∅ : gset nat) with ((∅ : gset nat) ∖ {[t]}) by set_solver; exact Hi2].
      intros st. apply woken_queues_snoc; [done|]. intros Hin.
      destruct Hinv as [_ Hm _]. apply Hm in Hin as (_ & Hst & _); [|done]. congruence.
    + intros t'. simpl. rewrite Htc2. simpl. destruct (decide (t' = t)) as [->|Hne].
      * rewrite fn_lookup_insert, Htc, decide_False by done. rewrite decide_True by set_solver. done.
      * rewrite fn_lookup_insert_ne, Htc by done. apply decide_ext. rewrite elem_of_app, list_elem_of_singleton. naive_solver.
    + eapply sched_rest_trans; [exact Hr|]. rewrite Hk2 in Hr2. simpl in Hr2. by rewrite held_restore in Hr2.
Qed.

(** Threads the scan of a wakeup routine looks at and selects. *)
Definition selects (s : kstate) (P : tcb -> bool) (t : nat) : bool :=
  bool_decide (Some t <> cur s) && P (tcbs s t).

Definition table : list nat := seq 0 (Z.to_nat NTHREADS).

Lemma filter_seq_S (f : nat -> bool) k :
  filter f (seq 0 (S k)) = filter f (seq 0 k) ++ if f k then [k] else [].
Proof.
  rewrite seq_S, filter_app. f_equal. simpl. destruct (f k) eqn:Hf.
  - by rewrite filter_cons_True by by rewrite Hf.
  - by rewrite filter_cons_False by (rewrite Hf; simpl; tauto).
Qed.

Lemma woken_km s tq ts s1 : woken s tq ts s1 -> km s1 = km s /\ cur s1 = cur s.
Proof. intros [_ _ (K & _ & R & _)]. split; [done|]. by apply (f_equal cur) in R. Qed.

Lemma woken_unlock s tq ts s2 t :
  woken s tq ts (set_km (km s) s2) -> km s2 = set_held (L_tcb t :: held (km s)) (km s) ->
  set_km (set_held (held (km s)) (km s2)) s2 = set_km (km s) s2.
Proof. intros _ ->. f_equal. apply held_restore. Qed.

(** thread_wakeup_chan makes runnable, in table order, exactly the threads
    other than the caller that sleep on the channel. *)
Definition sleeps_on (ch : channel) (r : tcb) : bool :=
  bool_decide (chan r = ch) && bool_decide (tstate r = TCB_SLEEPING).

Lemma wp_thread_wakeup_chan ch tq s :
  sched_inv s tq ∅ -> locks_free s -> (forall t, L_tcb t ∉ held (km s)) ->
  wp (thread_wakeup_chan ch) (fun _ s' => woken s tq (filter (selects s (sleeps_on ch)) table) s') s.
Proof.
  intros Hinv Hlf Hl. unfold thread_wakeup_chan, wakeup_scan. apply wp_bind, wp_gets, wp_bind.
  apply (wp_for_table (fun k s1 => woken s tq (filter (selects s (sleeps_on ch)) (seq 0 k)) s1));
    [| |by apply woken_none].
  - intros k s1 Hk Hw. destruct (woken_km _ _ _ _ Hw) as [Hkm Hcur].
    assert (Hni : k ∉ filter (selects s (sleeps_on ch)) (seq 0 k)).
    { intros [_ Hin]%list_elem_of_filter. apply elem_of_seq in Hin. lia. }
    assert (Htk : tcbs s1 k = tcbs s k) by (by rewrite (wk_tcbs _ _ _ _ Hw), decide_False).
    rewrite filter_seq_S. destruct (selects s (sleeps_on ch) k) eqn:Hsel; unfold selects in Hsel;
      case_bool_decide as Hc; try done; cbn [andb] in Hsel.
    all: cycle 2.
    { apply wp_ret. by rewrite app_nil_r. }
    all: apply wp_bind, wp_kacquire; [by rewrite Hkm|]; rewrite Hkm; apply wp_bind, wp_bind, wp_gets; simpl; rewrite Htk;
      fold (sleeps_on ch (tcbs s k)); rewrite Hsel; apply wp_bind.
    + apply andb_true_iff in Hsel as [_ Hs%bool_decide_eq_true].
      eapply (wp_wake_one s tq _ k); [done..| |apply Hni|done|done|apply Hl|].
      { unfold is_thread. lia. }
      intros s2 Hw2 Hk2. apply wp_ret, wp_bind. eapply wp_krelease; [by rewrite Hk2|apply Hl|]. apply wp_ret.
      by rewrite (woken_unlock s tq _ s2 k Hw2 Hk2).
    + apply wp_ret, wp_ret, wp_bind. eapply wp_krelease; [done|apply Hl|]. apply wp_ret. simpl.
      rewrite held_restore, app_nil_r, <- Hkm. by destruct s1.
  - intros s1 Hw. by apply wp_ret.
Qed.

(** thread_wakeup_timeout stops at the first thread it wakes. *)
Definition timed_out (now : Z) (r : tcb) : bool :=
  bool_decide (tstate r = TCB_SLEEPING) && (timeout r =? now).

Lemma filter_none_seq (f : nat -> bool) k : filter f (seq 0 k) = [] -> f k = true ->
  forall n, head (filter f (seq 0 (k + S n))) = Some k.
Proof.
  intros H0 Hk n. rewrite seq_app, filter_app, H0. simpl. by rewrite filter_cons_True by by rewrite Hk.
Qed.

Lemma wp_thread_wakeup_timeout now tq s :
  sched_inv s tq ∅ -> locks_free s -> (forall t, L_tcb t ∉ held (km s)) ->
  wp (thread_wakeup_timeout now) (fun _ s' =>
    woken s tq (option_list (head (filter (selects s (timed_out now)) table))) s') s.
Proof.
  intros Hinv Hlf Hl. unfold thread_wakeup_timeout, wakeup_scan. apply wp_bind, wp_gets, wp_bind.
  apply (wp_for_table (fun k s1 => filter (selects s (timed_out now)) (seq 0 k) = [] /\ s1 = s)); [| |done].
  - intros k s1 Hk [Hnone ->]. rewrite filter_seq_S, Hnone.
    destruct (selects s (timed_out now) k) eqn:Hsel; pose proof Hsel as Hs; unfold selects in Hs;
      case_bool_decide as Hc; try done; cbn [andb] in Hs.
    all: apply wp_bind, wp_kacquire; [done|]; apply wp_bind, wp_bind, wp_gets; simpl;
      fold (timed_out now (tcbs s k)); rewrite Hs.
    + apply wp_bind. pose proof Hs as [Hs1%bool_decide_eq_true _]%andb_true_iff.
      eapply (wp_wake_one s tq [] k); [done|by apply woken_none| |apply not_elem_of_nil|done|done|apply Hl|].
      { unfold is_thread. lia. }
      intros s2 Hw2 Hk2. apply wp_ret, wp_bind. eapply wp_krelease; [by rewrite Hk2|apply Hl|]. apply wp_ret, wp_ret.
      rewrite (woken_unlock s tq _ s2 k Hw2 Hk2).
      unfold table. replace (Z.to_nat NTHREADS) with (k + S (Z.to_nat NTHREADS - S k))%nat by lia.
      by rewrite (filter_none_seq _ k Hnone Hsel).
    + apply wp_ret, wp_bind. eapply wp_krelease; [done|apply Hl|]. apply wp_ret. simpl.
      rewrite held_restore. by destruct s.
  - intros s1 [Hnone ->]. apply wp_ret. unfold table. rewrite Nat.add_0_l in Hnone. rewrite Hnone. by apply woken_none.
Qed.
