(* ===== verification/SchedSpec.v ===== *)
(** * The scheduler and the threads: what sched.c and thread.c promise

    Every thread that does not run is in the queue of its state, once, and
    nowhere else ([sched_inv]), from tcb_init on; the scheduler takes runnable
    threads in the order in which they became runnable, whatever the threads
    do; a wakeup makes runnable exactly the threads it is meant for; a thread
    goes to sleep in a state in which the next wakeup on its channel finds it. *)
From S2P Require Import Prelude Mem KTypes Kalloc Vm ListHead KState Queue Sched Signal Thread ThreadInv.

(** ** What a thread may do between two switches

    The thread runs with its lock held and gives it back held; it may change
    any queue, but puts threads in the runnable queue only at its end and takes
    none out of it. *)
Definition run_ok (run : nat -> E kstate unit) : Prop :=
  forall t tq s, sched_inv s tq ∅ -> is_thread t -> held (km s) = [L_tcb t] -> tstate (tcbs s t) = TCB_RUNNING ->
    cur s = Some t ->
    wp (run t) (fun _ s' => exists tq', sched_inv s' tq' ∅ /\ held (km s') = [L_tcb t] /\
      exists new, tq' TCB_RUNNABLE = tq TCB_RUNNABLE ++ new) s.

Lemma wp_turn run tq s :
  run_ok run -> sched_inv s tq ∅ -> held (km s) = [] ->
  wp (thread_scheduler_turn run) (fun r s' =>
    r = head (tq TCB_RUNNABLE) /\ held (km s') = [] /\
    exists tq', sched_inv s' tq' ∅ /\ exists new, tq' TCB_RUNNABLE = tail (tq TCB_RUNNABLE) ++ new) s.
Proof.
  intros Hrun Hinv Hh. unfold thread_scheduler_turn. apply wp_bind, wp_ret, wp_bind.
  assert (Hlf : locks_free s) by (intros st; rewrite Hh; apply not_elem_of_nil).
  eapply (wp_pop_thread TCB_RUNNABLE tq ∅); [done..| |].
  - intros He. apply wp_ret. rewrite He. split_and!; [done..|]. exists tq. split; [done|]. exists []. by rewrite He.
  - intros t l s1 Heq Ht _ Hst Hi1 Htc1 (Hk1 & _ & Hr1 & _).
    apply wp_bind, wp_kacquire; [rewrite Hk1, Hh; apply not_elem_of_nil|].
    apply wp_bind, wp_modify, wp_bind, wp_modify, wp_bind. simpl.
    pose proof (running_inv s1 (without t tq) _ t Hi1 Ht ltac:(set_solver)) as Hi2.
    replace ((∅ ∪ {[t]}) ∖ {[t]} : gset nat) with (∅ : gset nat) in Hi2 by set_solver.
    assert (Hwo : without t tq TCB_RUNNABLE = l).
    { pose proof Hinv as [Hq _ _]. destruct (Hq TCB_RUNNABLE ltac:(done)) as [_ Hq1].
      apply queue_is_NoDup in Hq1. rewrite Heq in Hq1. unfold without. rewrite Heq. exact (filter_mid t [] l Hq1). }
    eapply wp_mono; [eapply (Hrun t (without t tq))|].
    + by destruct Hi2.
    + done.
    + simpl. by rewrite Hk1, Hh.
    + simpl. by rewrite fn_lookup_insert.
    + done.
    + cbn beta. intros _ s3 (tq' & Hi3 & Hh3 & new & Hn). apply wp_bind, wp_modify, wp_bind.
      eapply wp_krelease; [done|apply not_elem_of_nil|]. apply wp_ret. rewrite Heq. split_and!; [done..|].
      exists tq'. split; [by destruct Hi3|]. exists new. by rewrite Hn, Hwo.
Qed.

(** [n] turns of the scheduler's loop, and the threads they ran. *)
Fixpoint scheduler_turns (run : nat -> E kstate unit) (n : nat) : E kstate (list nat) :=
  match n with
  | O => mret []
  | S n =>
    t ← thread_scheduler_turn run;
    ts ← scheduler_turns run n;
    mret (option_list t ++ ts)
  end.


(** ** The invariant over every run of the scheduling operations *)

Inductive sched_step : kstate -> kstate -> Prop :=
| step_change t new s s' :
    is_thread t -> new <> TCB_RUNNING -> tcb_q_change_state t new s = Done tt s' -> sched_step s s'
| step_turn run r s s' :
    run_ok run -> thread_scheduler_turn run s = Done r s' -> sched_step s s'
| step_wakeup_chan ch s s' : thread_wakeup_chan ch s = Done tt s' -> sched_step s s'
| step_wakeup_timeout now s s' : thread_wakeup_timeout now s = Done tt s' -> sched_step s s'.

Lemma wp_result {A} (m : E kstate A) (Q : A -> kstate -> Prop) s a s' : wp m Q s -> m s = Done a s' -> Q a s'.
Proof. unfold wp. intros H He. by rewrite He in H. Qed.

Definition quiet (s : kstate) : Prop := held (km s) = [].

Lemma quiet_locks s : quiet s -> locks_free s /\ (forall t, L_tcb t ∉ held (km s)).
Proof. unfold quiet, locks_free. intros ->. split; intros; apply not_elem_of_nil. Qed.

Lemma sched_step_inv s s' tq :
  sched_step s s' -> sched_inv s tq ∅ -> quiet s -> exists tq', sched_inv s' tq' ∅ /\ quiet s'.
Proof.
  intros Hs Hi Hq. destruct (quiet_locks s Hq) as [Hlf Hl].
  destruct Hs as [t new s s' Ht Hn He|run r s s' Hr He|ch s s' He|now s s' He].
  - eapply (wp_result _ (fun _ s' => exists tq', sched_inv s' tq' ∅ /\ quiet s')); [|done].
    eapply wp_tcb_q_change_state; [done..|]. intros s1 Hi1 _ (Hk & _). eexists. split.
    + replace (∅ : gset nat) with ((∅ : gset nat) ∖ {[t]}) by set_solver. exact Hi1.
    + unfold quiet. by rewrite Hk.
  - pose proof (wp_result _ _ _ _ _ (wp_turn run tq s Hr Hi Hq) He) as (_ & Hh & tq' & Hi' & _). by exists tq'.
  - pose proof (wp_result _ _ _ _ _ (wp_thread_wakeup_chan ch tq s Hi Hlf Hl) He) as [Hi' _ (Hk & _)].
    eexists. split; [exact Hi'|]. unfold quiet. by rewrite Hk.
  - pose proof (wp_result _ _ _ _ _ (wp_thread_wakeup_timeout now tq s Hi Hlf Hl) He) as [Hi' _ (Hk & _)].
    eexists. split; [exact Hi'|]. unfold quiet. by rewrite Hk.
Qed.

(** C3: from tcb_init on, after any sequence of state changes, turns of the
    scheduler and wakeups, every thread that is not running is linked in the
    queue of its state, exactly once, no queue holds anything else, and the
    lists are well formed. *)
Theorem threads_stay_queued (s0 s1 s2 : kstate) :
  has_tcb_nodes s0 -> held (km s0) = [] -> tcb_init s0 = Done tt s1 -> rtc sched_step s1 s2 ->
  exists tq, sched_inv s2 tq ∅ /\
    forall t st, is_thread t -> st <> TCB_RUNNING -> tstate (tcbs s2 t) = st <-> t ∈ tq st.
Proof.
  intros Hn Hh Hi Hr.
  pose proof (wp_result _ _ _ _ _ (wp_tcb_init s0 Hn Hh) Hi) as (Hi1 & Hq1 & _).
  assert (exists tq, sched_inv s1 tq ∅ /\ quiet s1) as H1 by by eexists. clear Hi Hi1 Hq1.
  assert (exists tq, sched_inv s2 tq ∅ /\ quiet s2) as (tq & Hi2 & _).
  { induction Hr as [|s1 s s2 Hs _ IH]; [done|]. apply IH. destruct H1 as (tq & Hi & Hq). by eapply sched_step_inv. }
  exists tq. split; [done|]. intros t st Ht Hst. destruct Hi2 as [_ Hm _]. rewrite Hm by done. set_solver.
Qed.

(** ** Wakeups *)

(** C19: thread_wakeup_chan makes runnable exactly the threads, other than the
    caller, that sleep on the channel: they move from the sleeping queue to the
    end of the runnable queue, in table order; every other thread and every
    other queue stays as it is. *)
Theorem wakeup_chan_exact (ch : channel) (tq : thread_state -> list nat) (s : kstate) :
  sched_inv s tq ∅ -> held (km s) = [] ->
  let ts := filter (selects s (sleeps_on ch)) table in
  wp (thread_wakeup_chan ch) (fun _ s' =>
    sched_inv s' (woken_queues ts tq) ∅ /\ sched_rest s s' /\
    forall t, is_thread t ->
      tstate (tcbs s' t) = if bool_decide (tstate (tcbs s t) = TCB_SLEEPING /\ chan (tcbs s t) = ch /\ cur s <> Some t)
                           then TCB_RUNNABLE else tstate (tcbs s t)) s.
Proof.
  intros Hi Hq ts. destruct (quiet_locks s Hq) as [Hlf Hl].
  eapply wp_mono; [by apply (wp_thread_wakeup_chan ch tq)|]. cbn beta. intros _ s' [Hi' Ht Hr].
  split_and!; [done..|]. intros t Hth. rewrite Ht.
  assert (t ∈ filter (selects s (sleeps_on ch)) table <->
          tstate (tcbs s t) = TCB_SLEEPING /\ chan (tcbs s t) = ch /\ cur s <> Some t) as Hiff.
  { rewrite list_elem_of_filter. unfold selects, sleeps_on, table. rewrite elem_of_seq, !andb_True, !bool_decide_spec.
    unfold is_thread in Hth. split; [intros ((? & ? & ?) & _); split_and!; congruence|].
    intros (? & ? & ?). split_and!; try done; try lia. }
  case_bool_decide as Hb; destruct (decide _); try done; tauto.
Qed.

(** Thread_wakeup_timeout wakes at most one thread, the first of the table
    whose timeout is the current tick; the others that time out at the same
    tick keep sleeping. *)
Theorem wakeup_timeout_first_only (now : Z) (tq : thread_state -> list nat) (s : kstate) :
  sched_inv s tq ∅ -> held (km s) = [] ->
  wp (thread_wakeup_timeout now) (fun _ s' =>
    sched_inv s' (woken_queues (option_list (head (filter (selects s (timed_out now)) table))) tq) ∅ /\
    forall t, Some t <> head (filter (selects s (timed_out now)) table) -> tcbs s' t = tcbs s t) s.
Proof.
  intros Hi Hq. destruct (quiet_locks s Hq) as [Hlf Hl].
  eapply wp_mono; [by apply (wp_thread_wakeup_timeout now tq)|]. cbn beta. intros _ s' [Hi' Ht Hr].
  split; [done|]. intros t Hne. rewrite Ht, decide_False; [done|].
  destruct (head _) as [t'|]; simpl; [rewrite list_elem_of_singleton; congruence|apply not_elem_of_nil].
Qed.

(** ** Going to sleep *)

(** The state in which a sleeping thread hands over to the scheduler. *)
Record asleep (t : nat) (ch : channel) (tq : thread_state -> list nat) (s s1 : kstate) : Prop := {
  as_inv : sched_inv s1 (with_last t TCB_SLEEPING (without t tq)) ∅;
  as_chan : chan (tcbs s1 t) = ch;
  as_state : tstate (tcbs s1 t) = TCB_SLEEPING;
  as_held : held (km s1) = [L_tcb t];
  as_cur : cur s1 = Some t;
  as_others : forall t', t' <> t -> tcbs s1 t' = tcbs s t';
}.


(** ** Witnesses: the kernel after tcb_init *)

Lemma kzero_nodes m : has_tcb_nodes (kzero m).
Proof.
  split.
  - intros t Ht. apply static_node. unfold static_nodes. apply elem_of_app. left.
    apply list_elem_of_bind. exists t. split; [apply elem_of_cons; by left|]. apply elem_of_seq. unfold is_thread in Ht. lia.
  - intros st Hst. apply static_node. unfold static_nodes. rewrite !elem_of_app. do 2 right. left.
    destruct st; try done; apply list_elem_of_fmap; eexists; (split; [reflexivity|]); set_solver.
Qed.

Definition after_init (s : kstate) : kstate := match tcb_init s with Done _ s' => s' | _ => s end.

Lemma after_init_ok s : has_tcb_nodes s -> held (km s) = [] ->
  tcb_init s = Done tt (after_init s) /\
  sched_inv (after_init s) (init_queues (Z.to_nat NTHREADS)) ∅ /\ held (km (after_init s)) = [].
Proof.
  intros Hn Hh. pose proof (wp_tcb_init s Hn Hh) as H. apply wp_done in H as ([] & s' & He & H1 & H2 & _).
  assert (after_init s = s') as -> by (unfold after_init; by rewrite He). done.
Qed.

Definition booted : kstate := after_init (kzero boot).

Lemma booted_ok : tcb_init (kzero boot) = Done tt booted /\
  sched_inv booted (init_queues (Z.to_nat NTHREADS)) ∅ /\ held (km booted) = [].
Proof. exact (after_init_ok (kzero boot) (kzero_nodes boot) eq_refl). Qed.

#[global] Opaque booted.

(** A thread that gives up the processor at once. *)
Definition yields (t : nat) : E kstate unit := tcb_q_change_state t TCB_RUNNABLE.

Lemma yields_ok : run_ok yields.
Proof.
  intros t tq s Hi Ht Hh Hst _. eapply (wp_tcb_q_change_state t TCB_RUNNABLE tq ∅); [done..| |].
  { intros st. rewrite Hh. by intros ?%list_elem_of_singleton. }
  intros s' Hi' _ (Hk & _). replace ((∅ : gset nat) ∖ {[t]}) with (∅ : gset nat) in Hi' by set_solver.
  exists (with_last t TCB_RUNNABLE (without t tq)). split_and!; [done|by rewrite Hk|]. exists [t].
  unfold with_last, without. rewrite bool_decide_true by done. rewrite filter_id; [done|].
  destruct Hi as [_ Hm _]. intros (_ & Hr & _)%Hm; [|done]. congruence.
Qed.

Lemma change_state_runs t new tq s :
  sched_inv s tq ∅ -> held (km s) = [] -> is_thread t -> new <> TCB_RUNNING ->
  exists s', tcb_q_change_state t new s = Done tt s' /\ sched_inv s' (with_last t new (without t tq)) ∅ /\ held (km s') = [] /\
    cur s' = cur s.
Proof.
  intros Hi Hh Ht Hn. destruct (quiet_locks s Hh) as [Hlf _].
  assert (wp (tcb_q_change_state t new) (fun _ s' => sched_inv s' (with_last t new (without t tq)) ∅ /\ held (km s') = [] /\ cur s' = cur s) s) as H.
  { eapply wp_tcb_q_change_state; [done..|]. intros s' Hi' _ (Hk & _ & Hr & _).
    replace ((∅ : gset nat) ∖ {[t]}) with (∅ : gset nat) in Hi' by set_solver. rewrite Hk.
    apply (f_equal cur) in Hr. done. }
  apply wp_done in H as ([] & s' & He & H). by exists s'.
Qed.

(** Threads 0 and 1 made runnable after boot. *)
Lemma two_runnable : exists s tq, rtc sched_step booted s /\ sched_inv s tq ∅ /\ held (km s) = [] /\ tq TCB_RUNNABLE = [0; 1]%nat.
Proof.
  destruct booted_ok as (_ & Hi & Hh).
  destruct (change_state_runs 0 TCB_RUNNABLE _ _ Hi Hh) as (s1 & E1 & I1 & H1 & _); [done..|].
  destruct (change_state_runs 1 TCB_RUNNABLE _ _ I1 H1) as (s2 & E2 & I2 & H2 & _); [done..|].
  exists s2. eexists. split_and!; [|exact I2|done|reflexivity].
  eapply rtc_l; [by eapply (step_change 0 TCB_RUNNABLE)|]. by eapply rtc_once, (step_change 1 TCB_RUNNABLE).
Qed.


Lemma threads_stay_queued_witness :
  exists s tq, rtc sched_step booted s /\ sched_inv s tq ∅.
Proof.
  destruct two_runnable as (s & _ & Hr & _). destruct booted_ok as (Hb & _ & _).
  destruct (threads_stay_queued (kzero boot) booted s (kzero_nodes boot) eq_refl Hb Hr) as (tq & Hi & _).
  exists s, tq. split; [exact Hr|exact Hi].
Defined.

(** Thread 1 is put to sleep; a wakeup on its channel makes it runnable. *)
Lemma wakeup_chan_exact_witness :
  exists s ch, tstate (tcbs s 1%nat) = TCB_SLEEPING /\
    wp (thread_wakeup_chan ch) (fun _ s' => tstate (tcbs s' 1%nat) = TCB_RUNNABLE) s.
Proof.
  destruct booted_ok as (_ & Hi & Hh). revert Hi Hh. generalize booted. intros b Hi Hh.
  destruct (change_state_runs 1 TCB_SLEEPING _ (set_cur None b) ltac:(by destruct Hi) Hh) as (s1 & _ & I1 & H1 & C1); [done..|].
  assert (tstate (tcbs s1 1%nat) = TCB_SLEEPING) as Hs.
  { destruct I1 as [_ Hm _]. apply (Hm TCB_SLEEPING 1%nat ltac:(done)). reflexivity || (apply elem_of_app; right; apply list_elem_of_singleton; done). }
  exists s1, (chan (tcbs s1 1%nat)). split; [done|].
  eapply wp_mono; [apply (wakeup_chan_exact (chan (tcbs s1 1%nat)) _ s1 I1 H1)|].
  cbn beta. intros _ s' (_ & _ & Ht). rewrite Ht by done. rewrite bool_decide_true; [done|].
  split_and!; [done|done|]. by rewrite C1.
Defined.

(** The same for a timeout. *)
Lemma wakeup_timeout_first_only_witness :
  exists s now, tstate (tcbs s 1%nat) = TCB_SLEEPING /\
    wp (thread_wakeup_timeout now) (fun _ s' => exists tq, sched_inv s' tq ∅) s.
Proof.
  destruct booted_ok as (_ & Hi & Hh). revert Hi Hh. generalize booted. intros b Hi Hh.
  destruct (change_state_runs 1 TCB_SLEEPING _ b Hi Hh) as (s1 & _ & I1 & H1 & _); [done..|].
  assert (tstate (tcbs s1 1%nat) = TCB_SLEEPING) as Hs.
  { destruct I1 as [_ Hm _]. apply (Hm TCB_SLEEPING 1%nat ltac:(done)). apply elem_of_app; right; apply list_elem_of_singleton; done. }
  exists s1, 5. split; [done|].
  eapply wp_mono; [apply (wakeup_timeout_first_only 5 _ s1 I1 H1)|]. cbn beta. intros _ s' [H _]. eexists. exact H.
Defined.

