(* ===== verification/ProcBase.v ===== *)
(** * kernel/sched/proc.c: the process table, family tree and user copies

    The current process, the table and its initialisation, the children lists,
    page tables of processes, and the copies to and from either address
    space. *)
From S2P Require Import Prelude Mem CString KTypes Kalloc Vm ListHead KState Queue Sched Signal Thread.

(** myproc(): c->thread->p; both pointers may be NULL. *)
Definition myproc : E kstate nat :=
  t ← mythread;
  p ← gets (fun s => tproc (tcbs s t));
  deref p.

(** A process pointer that is compared, not followed. *)
Definition is_proc (p : nat) : Prop := Z.of_nat p < NPROC.

Definition procinit_one (p : nat) : E kstate unit :=
  initlock (L_proc p);;
  initlock (L_lth_exit p);;
  upd_proc p (fun r => set_pkstack (KSTACK (Z.of_nat p)) (set_pstate UNUSED (set_utime 0 (set_ktime 0 r))));;
  on_list (INIT_LIST_HEAD (PState p));;
  on_list (INIT_LIST_HEAD (PSibling p));;
  queue_push_back_atomic (PQ UNUSED) p.

Definition procinit : E kstate unit :=
  PCB_Q_ALL_INIT;;
  modify (set_nextpid 1);;
  initlock L_wait;;
  for_procs (R := unit) (fun p => procinit_one p;; mret None);;
  mret tt.

Definition allocpid : E kstate Z :=
  n ← gets nextpid;
  modify (set_nextpid (i32 (n + 1)));;
  mret n.

(** ** The family tree *)

Definition nochildren (r : proc) : bool := bool_decide (first_child r = None).
Definition nosibling (p : nat) : E kstate bool := on_list (list_empty (PSibling p)).
Definition nextsibling (p : nat) : E kstate nat :=
  n ← on_list (rd_next (Some (PSibling p)));
  n ← deref n;
  deref (node_index n).

Definition delete_child (parent child : nat) : E kstate unit :=
  alone ← nosibling child;
  if (alone : bool) then upd_proc parent (set_first_child None)
  else
    firstchild ← gets (fun s => first_child (procs s parent));
    (if bool_decide (firstchild = Some child) then
       n ← nextsibling child;
       upd_proc parent (set_first_child (Some n))
     else mret tt);;
    on_list (list_del_reinit (PSibling child)).

Definition append_child (parent child : nat) : E kstate unit :=
  r ← get_proc parent;
  if nochildren r then upd_proc parent (set_first_child (Some child))
  else
    c ← deref (first_child r);
    on_list (list_add_tail (PSibling child) (PSibling c)).

(** ** Killed flag and counts *)

Definition proc_setkilled (p : nat) : E kstate unit :=
  acquire (L_proc p);;
  upd_proc p (set_pkilled 1);;
  release (L_proc p).

Definition proc_killed (p : nat) : E kstate Z :=
  acquire (L_proc p);;
  k ← gets (fun s => pkilled (procs s p));
  release (L_proc p);;
  mret k.

Definition procs_cnt (s : kstate) : Z :=
  i32 (get_queue_count (PQ USED) s + get_queue_count (PQ ZOMBIE) s).

(** ** Copies *)

Definition my_pagetable : E kstate Z :=
  p ← myproc;
  gets (fun s => pagetable (procs s p)).

Definition either_copyout (user_dst : bool) (dst src len : Z) : E kstate Z :=
  pt ← my_pagetable;
  if user_dst then on_mach (copyout pt dst src len)
  else on_mach (upd_mem (fun m => memmove m dst src len));; mret 0.

Definition either_copyin (dst : Z) (user_src : bool) (src len : Z) : E kstate Z :=
  pt ← my_pagetable;
  if user_src then on_mach (copyin pt dst src len)
  else on_mach (upd_mem (fun m => memmove m dst src len));; mret 0.

(** copyout(pagetable, va, (char * )&v, n) of an integer object whose address is
    [kbuf]: the object holds the [n] bytes of its value. *)
Definition copyout_int (kbuf pt va v : Z) (n : nat) : E kstate Z :=
  on_mach (upd_mem (fun m => store m kbuf n v));;
  on_mach (copyout pt va kbuf (Z.of_nat n)).

(** ** Trap frames: saved user registers, by their offset in the page *)

Definition TF_SIZE : Z := 288.
Definition TF_EPC : Z := 24.
Definition TF_RA : Z := 40.
Definition TF_SP : Z := 48.
Definition TF_TP : Z := 64.
Definition TF_A0 : Z := 112.
Definition TF_A1 : Z := 120.
Definition TF_A2 : Z := 128.

(** t->trapframe->f, and its assignment; a NULL trapframe faults. *)
Definition tf_get (t : nat) (f : Z) : E kstate Z :=
  a ← gets (fun s => trapframe (tcbs s t));
  if a =? 0 then fault else gets (fun s => load64 (mmem (km s)) (a + f)).
Definition tf_set (t : nat) (f v : Z) : E kstate unit :=
  a ← gets (fun s => trapframe (tcbs s t));
  if a =? 0 then fault else on_mach (upd_mem (fun m => store64 m (a + f) v)).

(** *(dst->trapframe) = *(src->trapframe). *)
Definition tf_copy (dst src : nat) : E kstate unit :=
  a ← gets (fun s => trapframe (tcbs s dst));
  b ← gets (fun s => trapframe (tcbs s src));
  if (a =? 0) || (b =? 0) then fault else on_mach (upd_mem (fun m => memmove m a b TF_SIZE)).

(** ** Page tables of processes *)

Section Pagetables.
(** [extern char end[], trampoline[], __user_rt_sigreturn[]]. *)
Context (kend trampoline user_rt_sigreturn : Z).

Definition proc_pagetable : E kstate Z :=
  pt ← on_mach uvmcreate;
  if pt =? 0 then mret 0
  else
    r ← on_mach (mappages pt TRAMPOLINE PGSIZE trampoline (Z.lor PTE_R PTE_X));
    if r <? 0 then on_mach (uvmfree kend pt 0);; mret 0
    else
      r ← on_mach (mappages pt SIGRETURN PGSIZE user_rt_sigreturn (Z.lor (Z.lor PTE_R PTE_X) PTE_U));
      if r <? 0 then on_mach (uvmfree kend pt 0);; mret 0
      else mret pt.

(** The loop that unmaps the trap frames of [n] threads, from index [i]. *)
Fixpoint unmap_frames (n : nat) (pt i : Z) : E kstate unit :=
  match n with
  | O => mret tt
  | S n => on_mach (uvmunmap kend pt (THREAD_TRAPFRAME i) 1 false);; unmap_frames n pt (i + 1)
  end.

Definition proc_freepagetable (pt sz : Z) (unmmap_ttf : bool) : E kstate unit :=
  me ← myproc;
  cnt ← gets (fun s => thread_cnt (procs s me));
  on_mach (uvmunmap kend pt TRAMPOLINE 1 false);;
  on_mach (uvmunmap kend pt SIGRETURN 1 false);;
  (if unmmap_ttf then unmap_frames (Z.to_nat cnt) pt 0 else mret tt);;
  on_mach (uvmfree kend pt sz).

Definition growproc (n : Z) : E kstate Z :=
  p ← myproc;
  r ← get_proc p;
  let sz := psz r in
  if 0 <? n then
    sz' ← on_mach (uvmalloc kend (pagetable r) sz (u64 (sz + n)) PTE_W);
    if sz' =? 0 then mret (-1) else upd_proc p (set_psz sz');; mret 0
  else if n <? 0 then
    sz' ← on_mach (uvmdealloc kend (pagetable r) sz (u64 (sz + n)));
    upd_proc p (set_psz sz');; mret 0
  else upd_proc p (set_psz sz);; mret 0.
End Pagetables.
