(* ===== verification/Pipe.v ===== *)
(** * kernel/ipc/pipe.c: pipes

    A pipe is a ring of PIPESIZE bytes with two 32-bit counters that wrap
    around.  A full or an empty pipe makes the caller sleep; the loops take a
    bound [fuel] on the number of their turns. *)
From S2P Require Import Prelude Mem CString KTypes Kalloc Vm VmTree VmMap VmUser VmCopy ListHead KState Queue Sched Signal Thread ThreadInv SchedSpec ProcBase.
Definition PIPESIZE : Z := 512.

Definition get_pipe (pi : Z) : E kstate pipe := fun s => deref (pipes s !! pi) s.
Definition upd_pipe (pi : Z) (f : pipe -> pipe) : E kstate unit :=
  r ← get_pipe pi;
  modify (fun s => set_pipes (<[pi := f r]> (pipes s)) s).
Definition drop_pipe (pi : Z) (s : kstate) : kstate := set_pipes (delete pi (pipes s)) s.

Section Pipes.
(** [extern char end[]]; the switch to the scheduler; the address of the local
    variable [ch]. *)
Context (kend : Z) (swtch : nat -> E kstate unit) (ch : Z).

Definition pipeclose (pi : Z) (writable : bool) : E kstate unit :=
  acquire (L_pipe pi);;
  (if writable then upd_pipe pi (set_writeopen 0);; thread_wakeup_chan (ChPipeR pi)
   else upd_pipe pi (set_readopen 0);; thread_wakeup_chan (ChPipeW pi));;
  r ← get_pipe pi;
  if (readopen r =? 0) && (writeopen r =? 0) then
    release (L_pipe pi);;
    free_object kend pi drop_pipe
  else release (L_pipe pi).

(** pi->data[pi->nwrite++ % PIPESIZE] = c, and the read of the next byte. *)
Definition pipe_put (c : Z) (r : pipe) : pipe :=
  set_nwrite (u32 (nwrite r + 1)) (set_pdata (<[nwrite r mod PIPESIZE := u8 c]> (pdata r)) r).
Definition pipe_next (r : pipe) : Z := pdata r (nread r mod PIPESIZE).
Definition pipe_get (r : pipe) : pipe := set_nread (u32 (nread r + 1)) r.

(** The loop of pipewrite, from byte [i]: [None] when the write fails. *)
Fixpoint pipewrite_loop (fuel : nat) (pr : nat) (pi : Z) (user_src : bool) (addr n i : Z) : E kstate (option Z) :=
  if i <? n then
    match fuel with
    | O => nofuel
    | S fuel =>
      r ← get_pipe pi;
      dead ← (if readopen r =? 0 then mret true else k ← proc_killed pr; mret (negb (k =? 0)));
      if (dead : bool) then release (L_pipe pi);; mret None
      else
        if nwrite r =? u32 (nread r + PIPESIZE) then
          thread_wakeup_chan (ChPipeR pi);;
          thread_sleep swtch (ChPipeW pi) (L_pipe pi) None;;
          pipewrite_loop fuel pr pi user_src addr n i
        else
          x ← either_copyin ch user_src (u64 (addr + i)) 1;
          if x =? -1 then mret (Some i)
          else
            c ← gets (fun s => mmem (km s) ch);
            upd_pipe pi (pipe_put c);;
            pipewrite_loop fuel pr pi user_src addr n (i + 1)
    end
  else mret (Some i).

Definition pipewrite (fuel : nat) (pi : Z) (user_src : bool) (addr n : Z) : E kstate Z :=
  pr ← myproc;
  acquire (L_pipe pi);;
  i ← pipewrite_loop fuel pr pi user_src addr n 0;
  match i with
  | None => mret (-1)
  | Some i =>
    thread_wakeup_chan (ChPipeR pi);;
    release (L_pipe pi);;
    mret i
  end.

(** The wait of piperead for a byte or the end: [false] when killed. *)
Fixpoint piperead_wait (fuel : nat) (pr : nat) (pi : Z) : E kstate bool :=
  r ← get_pipe pi;
  if (nread r =? nwrite r) && negb (writeopen r =? 0) then
    match fuel with
    | O => nofuel
    | S fuel =>
      k ← proc_killed pr;
      if negb (k =? 0) then release (L_pipe pi);; mret false
      else
        thread_sleep swtch (ChPipeR pi) (L_pipe pi) None;;
        piperead_wait fuel pr pi
    end
  else mret true.

Fixpoint piperead_copy (k : nat) (pi : Z) (user_dst : bool) (addr i : Z) : E kstate Z :=
  match k with
  | O => mret i
  | S k =>
    r ← get_pipe pi;
    if nread r =? nwrite r then mret i
    else
      on_mach (upd_mem (fun m => mset m ch (pipe_next r)));;
      upd_pipe pi pipe_get;;
      x ← either_copyout user_dst (u64 (addr + i)) ch 1;
      if x =? -1 then mret i
      else piperead_copy k pi user_dst addr (i + 1)
  end.

Definition piperead (fuel : nat) (pi : Z) (user_dst : bool) (addr n : Z) : E kstate Z :=
  pr ← myproc;
  acquire (L_pipe pi);;
  ok ← piperead_wait fuel pr pi;
  if negb ok then mret (-1)
  else
    i ← piperead_copy (Z.to_nat n) pi user_dst addr 0;
    thread_wakeup_chan (ChPipeW pi);;
    release (L_pipe pi);;
    mret i.
End Pipes.

(** ** The bytes in a pipe *)

(** Number of bytes in the pipe: the counters differ by it, modulo 2^32. *)
Definition pipe_count (r : pipe) : Z := u32 (nwrite r - nread r).

Definition pipe_bytes (r : pipe) : list Z :=
  (fun i => pdata r ((nread r + Z.of_nat i) mod PIPESIZE)) <$> seq 0 (Z.to_nat (pipe_count r)).

Record pipe_ok (r : pipe) : Prop := {
  po_read : 0 <= nread r < 2 ^ 32;
  po_write : 0 <= nwrite r < 2 ^ 32;
  po_count : pipe_count r <= PIPESIZE;
  po_data : forall x, 0 <= pdata r x < 256;
}.

Lemma pipe_count_range r : 0 <= pipe_count r < 2 ^ 32.
Proof. apply wrap_range. lia. Qed.

Lemma u32_sub a b : 0 <= a < 2 ^ 32 -> 0 <= b < 2 ^ 32 ->
  (b <= a /\ u32 (a - b) = a - b) \/ (a < b /\ u32 (a - b) = a - b + 2 ^ 32).
Proof.
  intros Ha Hb. unfold wrap. destruct (Z.le_gt_cases b a) as [Hle|Hlt].
  - left. split; [done|]. apply Z.mod_small. lia.
  - right. split; [done|]. rewrite <- (Z.mod_add (a - b) 1) by lia. rewrite Z.mul_1_l. apply Z.mod_small. lia.
Qed.

Lemma u32_succ a : 0 <= a < 2 ^ 32 -> (a < 2 ^ 32 - 1 /\ u32 (a + 1) = a + 1) \/ (a = 2 ^ 32 - 1 /\ u32 (a + 1) = 0).
Proof.
  intros Ha. unfold wrap. destruct (Z.eq_dec a (2 ^ 32 - 1)) as [->|Hne].
  - right. done.
  - left. split; [lia|]. apply Z.mod_small. lia.
Qed.

(** The tests of the code for full and empty are the counts PIPESIZE and 0. *)
Lemma pipe_full_iff r : pipe_ok r -> nwrite r =? u32 (nread r + PIPESIZE) = (pipe_count r =? PIPESIZE).
Proof.
  intros [Hr Hw Hc _]. unfold pipe_count, PIPESIZE in *.
  destruct (u32_sub (nwrite r) (nread r) Hw Hr) as [[Hle Heq]|[Hlt Heq]]; rewrite Heq in *.
  - destruct (Z.eqb_spec (nwrite r - nread r) 512) as [He|Hne].
    + apply Z.eqb_eq. rewrite wrap_small; lia.
    + apply Z.eqb_neq. intros He. unfold wrap in He.
      destruct (Z.lt_ge_cases (nread r + 512) (2 ^ 32)); [rewrite Z.mod_small in He by lia; lia|].
      rewrite <- (Z.mod_add _ (-1)) in He by lia. rewrite Z.mod_small in He by lia. lia.
  - destruct (Z.eqb_spec (nwrite r - nread r + 2 ^ 32) 512) as [He|Hne].
    + apply Z.eqb_eq. unfold wrap. rewrite <- (Z.mod_add _ (-1)) by lia. rewrite Z.mod_small; lia.
    + apply Z.eqb_neq. intros He. unfold wrap in He.
      destruct (Z.lt_ge_cases (nread r + 512) (2 ^ 32)); [rewrite Z.mod_small in He by lia; lia|].
      rewrite <- (Z.mod_add _ (-1)) in He by lia. rewrite Z.mod_small in He by lia. lia.
Qed.

Lemma pipe_empty_iff r : pipe_ok r -> nread r =? nwrite r = (pipe_count r =? 0).
Proof.
  intros [Hr Hw Hc _]. unfold pipe_count in *.
  destruct (u32_sub (nwrite r) (nread r) Hw Hr) as [[Hle Heq]|[Hlt Heq]]; rewrite Heq in *.
  - destruct (Z.eqb_spec (nwrite r - nread r) 0); [apply Z.eqb_eq|apply Z.eqb_neq]; lia.
  - unfold PIPESIZE in Hc. destruct (Z.eqb_spec (nwrite r - nread r + 2 ^ 32) 0); [|apply Z.eqb_neq]; lia.
Qed.

Lemma pipe_bytes_length r : Z.of_nat (length (pipe_bytes r)) = pipe_count r.
Proof. unfold pipe_bytes. rewrite length_fmap, length_seq. pose proof (pipe_count_range r). lia. Qed.

Lemma u32_mod x y : (u32 x + y) mod PIPESIZE = (x + y) mod PIPESIZE.
Proof.
  unfold wrap, PIPESIZE. rewrite <- Zplus_mod_idemp_l, Z.mod_mod_divide by by exists 8388608.
  apply Zplus_mod_idemp_l.
Qed.

Lemma u32_count_next w r : u32 (u32 (w + 1) - r) = u32 (u32 (w - r) + 1).
Proof. unfold wrap. rewrite Zminus_mod_idemp_l, Zplus_mod_idemp_l. f_equal. lia. Qed.

Lemma u32_count_prev w r : u32 (w - u32 (r + 1)) = u32 (u32 (w - r) - 1).
Proof. unfold wrap. rewrite Zminus_mod_idemp_r, Zminus_mod_idemp_l. f_equal. lia. Qed.

(** The next byte goes behind the bytes that are there. *)
Lemma write_index r : pipe_ok r -> nwrite r mod PIPESIZE = (nread r + pipe_count r) mod PIPESIZE.
Proof.
  intros [Hr Hw Hc _]. unfold pipe_count in *.
  rewrite Z.add_comm, u32_mod. f_equal. lia.
Qed.

Lemma index_distinct a i j : 0 <= i < PIPESIZE -> 0 <= j < PIPESIZE -> i <> j ->
  (a + i) mod PIPESIZE <> (a + j) mod PIPESIZE.
Proof.
  unfold PIPESIZE. intros Hi Hj Hne He.
  pose proof (Z.div_mod (a + i) 512). pose proof (Z.div_mod (a + j) 512). lia.
Qed.

Lemma pipe_put_spec c r : pipe_ok r -> pipe_count r < PIPESIZE ->
  pipe_ok (pipe_put c r) /\ pipe_bytes (pipe_put c r) = pipe_bytes r ++ [u8 c].
Proof.
  intros Hok Hlt. pose proof Hok as [Hr Hw Hc Hd]. pose proof (pipe_count_range r) as Hcr.
  assert (Hcnt : pipe_count (pipe_put c r) = pipe_count r + 1).
  { unfold pipe_count at 1. simpl. rewrite u32_count_next. apply wrap_small. unfold PIPESIZE in *. fold (pipe_count r). lia. }
  split.
  - split; [done|simpl; apply wrap_range; lia|lia|]. intros x. simpl. destruct (decide (x = nwrite r mod PIPESIZE)) as [->|];
      [rewrite fn_lookup_insert; apply wrap_range; lia|by rewrite fn_lookup_insert_ne].
  - unfold pipe_bytes. rewrite Hcnt. replace (Z.to_nat (pipe_count r + 1)) with (S (Z.to_nat (pipe_count r))) by lia.
    rewrite seq_S, fmap_app. simpl. f_equal.
    + apply list_fmap_ext. intros k i Hk. apply list_elem_of_lookup_2, elem_of_seq in Hk.
      rewrite fn_lookup_insert_ne; [done|]. rewrite write_index by done.
      apply index_distinct; lia.
    + f_equal. rewrite Z2Nat.id by lia. rewrite <- write_index by done. by rewrite fn_lookup_insert.
Qed.

Lemma pipe_get_spec r : pipe_ok r -> 0 < pipe_count r ->
  pipe_ok (pipe_get r) /\ pipe_bytes r = pipe_next r :: pipe_bytes (pipe_get r).
Proof.
  intros Hok Hlt. pose proof Hok as [Hr Hw Hc Hd]. pose proof (pipe_count_range r) as Hcr.
  assert (Hcnt : pipe_count (pipe_get r) = pipe_count r - 1).
  { unfold pipe_count at 1. simpl. rewrite u32_count_prev. apply wrap_small. fold (pipe_count r). lia. }
  split.
  - split; [simpl; apply wrap_range; lia|done|lia|done].
  - unfold pipe_bytes. rewrite Hcnt. replace (Z.to_nat (pipe_count r)) with (S (Z.to_nat (pipe_count r - 1))) by lia.
    cbn [seq]. rewrite fmap_cons. f_equal; [unfold pipe_next; f_equal; f_equal; lia|].
    rewrite <- fmap_S_seq, <- list_fmap_compose. apply list_fmap_ext. intros k i _. simpl. rewrite u32_mod. f_equal. f_equal. lia.
Qed.

(** * Pipes carry bytes first in, first out

    What pipewrite and piperead promise, whatever the address space the bytes
    come from or go to: the two interfaces [ByteSource] and [ByteSink] say what
    the pipe code needs from either_copyin and either_copyout, and are
    implemented by kernel memory and by user memory through a page table. *)

#[local] Opaque memmove.

(** [s] has the threads and processes of [s0], and its memory except at [ch]. *)
Record view (ch : Z) (s0 s : kstate) : Prop := {
  vw_cur : cur s = cur s0;
  vw_tcbs : tcbs s = tcbs s0;
  vw_procs : procs s = procs s0;
  vw_bytes : bytes_ok (mmem (km s));
  vw_mem : forall a, a <> ch -> mmem (km s) a = mmem (km s0) a;
}.

(** The bytes at [addr], [addr + 1], ..., of the given address space: byte [i]
    is [src_byte i], or cannot be read. *)
Class ByteSource (ch : Z) (user_src : bool) (addr n : Z) (s0 : kstate) := {
  src_byte : Z -> option Z;
  src_read : forall s i, view ch s0 s -> 0 <= i < n ->
    wp (either_copyin ch user_src (u64 (addr + i)) 1) (fun x s' =>
      set_km (km s) s' = s /\ held (km s') = held (km s) /\
      (forall a, a <> ch -> mmem (km s') a = mmem (km s) a) /\
      match src_byte i with
      | Some b => x = 0 /\ mmem (km s') ch = b /\ 0 <= b < 256
      | None => x = -1
      end) s;
}.
Arguments src_byte {ch user_src addr n s0} _ _.

(** The calling thread has a process, whose page table is [pt]. *)
Definition runs_in (s : kstate) (p : nat) : Prop := exists t, cur s = Some t /\ tproc (tcbs s t) = Some p.

Lemma wp_myproc p (Q : nat -> kstate -> Prop) s : runs_in s p -> Q p s -> wp myproc Q s.
Proof.
  intros (t & Hc & Hp) HQ. unfold myproc, mythread. apply wp_bind, wp_bind, wp_gets. rewrite Hc.
  eapply wp_deref; [done|]. apply wp_bind, wp_gets. by eapply wp_deref.
Qed.

Lemma runs_in_view ch s0 s p : view ch s0 s -> runs_in s0 p -> runs_in s p.
Proof. intros [Hc Ht _ _ _] (t & H1 & H2). exists t. by rewrite Hc, Ht. Qed.

(** Kernel memory as a source. *)
#[global] Instance kernel_source ch addr n s0 p :
  runs_in s0 p -> 0 <= addr -> addr + n <= 2 ^ 64 -> ch < addr \/ addr + n <= ch -> bytes_ok (mmem (km s0)) ->
  ByteSource ch false addr n s0.
Proof.
  intros Hrun H0 H64 Hch Hb0. exists (fun i => Some (mmem (km s0) (addr + i))).
  intros s i Hv Hi. pose proof Hv as [_ _ _ Hb Hm]. unfold either_copyin, my_pagetable. apply wp_bind, wp_bind.
  eapply wp_myproc; [by eapply runs_in_view|]. apply wp_gets, wp_bind, wp_zoom, wp_modify, wp_ret. simpl.
  rewrite wrap_small by lia. split_and!; [by destruct s|done| |done| | |].
  - intros a Ha. apply memmove_out; [done|lia|lia].
  - rewrite memmove_in by (done || lia). rewrite Z.sub_diag, Z.add_0_r. apply Hm. lia.
  - apply Hb0.
  - apply Hb0.
Defined.

(** User memory as a source. *)
#[global] Instance user_source kend root T ch addr n s0 p :
  0 < kend -> runs_in s0 p -> pagetable (procs s0 p) = root ->
  pt_inv kend (mmem (km s0)) root T -> bytes_ok (mmem (km s0)) -> 0 <= addr -> addr + n <= 2 ^ 64 ->
  (forall pa, table_page T pa -> ~ in_page pa ch) ->
  (forall i, 0 <= i < n -> ~ in_page (upage (mmem (km s0)) T (addr + i)) ch) ->
  ByteSource ch true addr n s0.
Proof.
  intros Hk Hrun Hroot Hpt Hb0 H0 H64 Hnt Hnp.
  exists (fun i => if upage (mmem (km s0)) T (addr + i) =? 0 then None else Some (mmem (km s0) (uaddr (mmem (km s0)) T (addr + i)))).
  intros s i Hv Hi. pose proof Hv as [_ _ Hpr Hb Hm]. unfold either_copyin, my_pagetable. apply wp_bind, wp_bind.
  eapply wp_myproc; [by eapply runs_in_view|]. apply wp_gets. rewrite Hpr, Hroot. apply wp_zoom. rewrite wrap_small by lia.
  destruct (pt_frame kend (mmem (km s0)) (mmem (km s)) root T Hpt) as [Hpt' Hlf].
  { intros pa x Ht Hx. apply Hm. intros ->. by apply (Hnt pa). }
  assert (Hup : forall a, upage (mmem (km s)) T a = upage (mmem (km s0)) T a) by (intros; by apply upage_ext).
  eapply wp_mono; [apply (wp_copyin_loop kend Hk _ root T ch (addr + i) 1); try done; try lia|].
  { apply copy_fuel; lia. }
  { intros x Hx. assert (x = ch) as -> by lia. split; [done|]. intros j Hj. rewrite Hup. replace (addr + i + j) with (addr + i) by lia. by apply Hnp. }
  cbn beta. intros x m (Hh & Hout & Hx). simpl. split_and!; [by destruct s|done|intros a Ha; apply Hout; lia|].
  destruct (Z.eqb_spec (upage (mmem (km s0)) T (addr + i)) 0) as [Hz|Hnz].
  - destruct Hx as [[_ Hx]|[-> _]]; [|done]. destruct (Hx 0 ltac:(lia)) as [Hx0 _]. by rewrite Z.add_0_r, Hup in Hx0.
  - destruct Hx as [[-> Hx]|[_ (j & Hj & Hx)]].
    + destruct (Hx 0 ltac:(lia)) as [_ Hx0]. rewrite !Z.add_0_r in Hx0.
      assert (uaddr (mmem (km s)) T (addr + i) = uaddr (mmem (km s0)) T (addr + i)) as Hua by (unfold uaddr; by rewrite Hup).
      split_and!; [done| |apply Hb0..]. rewrite Hx0, Hua. apply Hm.
      intros He. apply (Hnp i Hi). rewrite <- He. apply uaddr_in_page.
    + rewrite Hup in Hx. by replace (addr + i + j) with (addr + i) in Hx by lia.
Defined.

(** ** Writing *)

(** The bytes [i], ..., [j - 1] of a source. *)
Definition taken {ch u addr n s0} (B : ByteSource ch u addr n s0) (i j : Z) : list Z :=
  (fun k => default 0 (src_byte B (i + Z.of_nat k))) <$> seq 0 (Z.to_nat (j - i)).

Lemma taken_nil {ch u addr n s0} (B : ByteSource ch u addr n s0) i : taken B i i = [].
Proof. unfold taken. by rewrite Z.sub_diag. Qed.

Lemma taken_cons {ch u addr n s0} (B : ByteSource ch u addr n s0) i j b :
  i < j -> src_byte B i = Some b -> taken B i j = b :: taken B (i + 1) j.
Proof.
  intros Hij Hb. unfold taken. replace (Z.to_nat (j - i)) with (S (Z.to_nat (j - (i + 1)))) by lia.
  cbn [seq]. rewrite fmap_cons. rewrite Z.add_0_r, Hb. f_equal.
  rewrite <- fmap_S_seq, <- list_fmap_compose. apply list_fmap_ext. intros k x _. simpl. do 2 f_equal. lia.
Qed.

(** A pipe routine changes the pipe, the memory at [ch] and nothing else. *)
Definition pipe_frame (s s' : kstate) : Prop :=
  set_km (km s) (set_pipes (pipes s) s') = s /\ held (km s') = held (km s).

Lemma wp_proc_killed p (Q : Z -> kstate -> Prop) s :
  L_proc p ∉ held (km s) -> Q (pkilled (procs s p)) s -> wp (proc_killed p) Q s.
Proof.
  intros Hl HQ. apply wp_critical; [done|]. apply wp_gets. split; [done|]. simpl. rewrite held_restore.
  by replace (set_km (km s) _) with s by by destruct s.
Qed.

Lemma wp_upd_pipe pi r f (Q : unit -> kstate -> Prop) s :
  pipes s !! pi = Some r -> Q tt (set_pipes (<[pi := f r]> (pipes s)) s) -> wp (upd_pipe pi f) Q s.
Proof.
  intros Hp HQ. unfold upd_pipe, get_pipe. apply wp_bind. eapply wp_run; [by rewrite Hp|]. by apply wp_modify.
Qed.

Lemma view_step ch s0 s s' : view ch s0 s -> set_km (km s) s' = s ->
  (forall a, a <> ch -> mmem (km s') a = mmem (km s) a) -> 0 <= mmem (km s') ch < 256 -> view ch s0 s'.
Proof.
  intros [Hc Ht Hp Hb Hm] Hs Hout Hch. split.
  - apply (f_equal cur) in Hs. simpl in Hs. congruence.
  - apply (f_equal tcbs) in Hs. simpl in Hs. congruence.
  - apply (f_equal procs) in Hs. simpl in Hs. congruence.
  - intros a. destruct (decide (a = ch)) as [->|]; [done|]. rewrite Hout by done. apply Hb.
  - intros a Ha. by rewrite Hout, Hm.
Qed.

Lemma pipe_frame_trans s s1 s' q :
  set_km (km s) s1 = s -> set_km (km (set_pipes q s1)) (set_pipes (pipes (set_pipes q s1)) s') = set_pipes q s1 ->
  set_km (km s) (set_pipes (pipes s) s') = s.
Proof.
  intros H1 H2. destruct s, s1, s'. unfold set_km, set_pipes in *. cbn in *. injection H1. injection H2. intros. subst. reflexivity.
Qed.

Section Write.
Context (swtch : nat -> E kstate unit) (ch : Z) (pr : nat) (pi : Z).

Lemma wp_pipewrite_loop {u addr n s0} (B : ByteSource ch u addr n s0) fuel i r s :
  view ch s0 s -> pipes s !! pi = Some r -> pipe_ok r -> readopen r <> 0 -> pkilled (procs s pr) = 0 ->
  L_proc pr ∉ held (km s) -> 0 <= i <= n -> pipe_count r + (n - i) <= PIPESIZE -> n - i <= Z.of_nat fuel ->
  wp (pipewrite_loop swtch ch fuel pr pi u addr n i) (fun res s' => exists j r',
    res = Some j /\ i <= j <= n /\ (j < n -> src_byte B j = None) /\
    pipes s' !! pi = Some r' /\ pipe_ok r' /\ pipe_bytes r' = pipe_bytes r ++ taken B i j /\
    readopen r' = readopen r /\ writeopen r' = writeopen r /\ pipe_frame s s') s.
Proof.
  revert i r s. induction fuel as [|fuel IH]; intros i r s Hv Hp Hok Hro Hk Hl Hi Hc Hf; cbn [pipewrite_loop].
  { destruct (Z.ltb_spec i n); [lia|]. apply wp_ret. exists i, r. rewrite taken_nil, app_nil_r.
    split_and!; try done; try lia. split; [by destruct s|done]. }
  destruct (Z.ltb_spec i n).
  2: { apply wp_ret. exists i, r. rewrite taken_nil, app_nil_r. split_and!; try done; try lia. split; [by destruct s|done]. }
  apply wp_bind. unfold get_pipe. eapply wp_run; [by rewrite Hp|]. apply wp_bind.
  destruct (Z.eqb_spec (readopen r) 0); [done|]. apply wp_bind, wp_proc_killed; [done|]. apply wp_ret. rewrite Hk. cbn [negb Z.eqb].
  rewrite pipe_full_iff by done. destruct (Z.eqb_spec (pipe_count r) PIPESIZE); [lia|].
  apply wp_bind. eapply wp_mono; [apply (src_read (ByteSource := B) s i Hv); lia|]. cbn beta. intros x s1 (Hs1 & Hh1 & Hm1 & Hx).
  destruct (src_byte B i) as [b|] eqn:Hb.
  - destruct Hx as (-> & Hch & Hbr). cbn [Z.eqb]. apply wp_bind, wp_gets. rewrite Hch.
    assert (Hp1 : pipes s1 !! pi = Some r) by (apply (f_equal pipes) in Hs1; simpl in Hs1; by rewrite Hs1).
    apply wp_bind. eapply wp_upd_pipe; [done|]. destruct (pipe_put_spec b r Hok ltac:(lia)) as [Hok' Hby].
    assert (Hct : pipe_count (pipe_put b r) = pipe_count r + 1).
    { rewrite <- !pipe_bytes_length, Hby, length_app. simpl. lia. }
    set (s2 := set_pipes _ s1). assert (Hv2 : view ch s0 s2).
    { assert (view ch s0 s1) as [? ? ? ? ?] by (eapply view_step; [done|done|done|by rewrite Hch]). done. }
    eapply wp_mono; [apply (IH (i + 1) (pipe_put b r) s2 Hv2)|].
    + simpl. by rewrite lookup_insert_eq.
    + done.
    + done.
    + apply (f_equal procs) in Hs1. simpl in *. by rewrite Hs1.
    + simpl. by rewrite Hh1.
    + lia.
    + lia.
    + lia.
    + cbn beta. intros res s' (j & r' & -> & Hj & Hn & Hp' & Ho' & Hb' & Hr1 & Hr2 & Hf1 & Hf2). exists j, r'.
      split_and!; try done; try lia.
      * rewrite Hb', Hby, <- app_assoc. rewrite (taken_cons B i j b) by (done || lia). simpl. by rewrite wrap_small.
      * split; [|by rewrite Hf2]. eapply pipe_frame_trans; [exact Hs1|exact Hf1].
  - subst x. cbn [Z.eqb]. apply wp_ret. exists i, r. rewrite taken_nil, app_nil_r.
    split_and!; try done; try lia.
    + apply (f_equal pipes) in Hs1. simpl in Hs1. by rewrite Hs1.
    + split; [|done]. etrans; [|exact Hs1]. assert (pipes s = pipes s1) as -> by by rewrite <- Hs1. by destruct s1.
Qed.
End Write.

Lemma pipe_frame_sched s s' tq X : pipe_frame s s' -> sched_inv s tq X -> sched_inv s' tq X.
Proof.
  intros [Hf _] Hi. eapply sched_inv_same; [exact Hi|..].
  - by apply (f_equal lh) in Hf.
  - by apply (f_equal queues) in Hf.
  - intros t. apply (f_equal tcbs) in Hf. simpl in Hf. by rewrite Hf.
Qed.

(** Waking the other side of a pipe, with the pipe's lock held, and unlocking. *)
Lemma wp_wake_unlock {A} pi c (a : A) tq s :
  sched_inv s tq ∅ -> held (km s) = [L_pipe pi] ->
  wp (thread_wakeup_chan c;; release (L_pipe pi);; mret a) (fun x s' => x = a /\ held (km s') = [] /\
    sched_inv s' (woken_queues (filter (selects s (sleeps_on c)) table) tq) ∅ /\
    pipes s' = pipes s /\ mmem (km s') = mmem (km s)) s.
Proof.
  intros Hi Hh. apply wp_bind. eapply wp_mono; [apply (wp_thread_wakeup_chan c tq s Hi)|].
  - intros st. rewrite Hh. by intros ?%list_elem_of_singleton.
  - intros t. rewrite Hh. by intros ?%list_elem_of_singleton.
  - cbn beta. intros _ s1 [Hi1 _ (Hk & _ & Hr & _)]. apply wp_bind.
    eapply wp_krelease; [by rewrite Hk, Hh|apply not_elem_of_nil|]. apply wp_ret. split_and!; [done|done| | |].
    + by apply sched_inv_km.
    + by apply (f_equal pipes) in Hr.
    + simpl. by rewrite Hk.
Qed.


(** ** Reading *)

(** Places for [n] bytes: byte [i] goes to the physical address [snk_loc i], or
    cannot be written. *)
Class ByteSink (ch : Z) (user_dst : bool) (addr n : Z) (s0 : kstate) := {
  snk_loc : Z -> option Z;
  snk_inj : forall i j l, 0 <= i < n -> 0 <= j < n -> snk_loc i = Some l -> snk_loc j = Some l -> i = j;
  snk_apart : forall i, 0 <= i < n -> snk_loc i <> Some ch;
  snk_write : forall s i, 0 <= i < n ->
    cur s = cur s0 -> tcbs s = tcbs s0 -> procs s = procs s0 -> bytes_ok (mmem (km s)) ->
    (forall a, a <> ch -> (forall j, 0 <= j < n -> snk_loc j <> Some a) -> mmem (km s) a = mmem (km s0) a) ->
    wp (either_copyout user_dst (u64 (addr + i)) ch 1) (fun x s' =>
      set_km (km s) s' = s /\ held (km s') = held (km s) /\ bytes_ok (mmem (km s')) /\
      match snk_loc i with
      | Some l => x = 0 /\ mmem (km s') l = mmem (km s) ch /\ forall a, a <> l -> mmem (km s') a = mmem (km s) a
      | None => x = -1 /\ forall a, mmem (km s') a = mmem (km s) a
      end) s;
}.
Arguments snk_loc {ch user_dst addr n s0} _ _.

(** Kernel memory as a sink. *)
#[global] Instance kernel_sink ch addr n s0 p :
  runs_in s0 p -> 0 <= addr -> addr + n <= 2 ^ 64 -> ch < addr \/ addr + n <= ch ->
  ByteSink ch false addr n s0.
Proof.
  intros Hrun H0 H64 Hch. exists (fun i => Some (addr + i)).
  - intros i j l _ _ [= <-] [= ?]. lia.
  - intros i Hi [= ?]. lia.
  - intros s i Hi Hc Ht Hpr Hb Hm. unfold either_copyout, my_pagetable. apply wp_bind, wp_bind.
    eapply wp_myproc; [destruct Hrun as (t & ? & ?); exists t; by rewrite Hc, Ht|].
    apply wp_gets, wp_bind, wp_zoom, wp_modify, wp_ret. simpl. rewrite wrap_small by lia.
    split_and!; [by destruct s|done|by apply memmove_ok|done| |].
    + rewrite memmove_in by (done || lia). f_equal. lia.
    + intros a Ha. apply memmove_out; [done|lia|lia].
Defined.

(** User memory as a sink: distinct pages that are neither page tables nor hold
    the kernel's byte. *)
#[global] Instance user_sink kend root T ch addr n s0 p :
  0 < kend -> runs_in s0 p -> pagetable (procs s0 p) = root ->
  pt_inv kend (mmem (km s0)) root T -> 0 <= addr -> addr + n <= 2 ^ 64 ->
  (forall pa, table_page T pa -> ~ in_page pa ch) ->
  (forall i, 0 <= i < n -> ~ in_page (upage (mmem (km s0)) T (addr + i)) ch) ->
  distinct_pages (mmem (km s0)) T addr n ->
  ByteSink ch true addr n s0.
Proof.
  intros Hk Hrun Hroot Hpt H0 H64 Hnt Hnp Hdp.
  assert (Htab : forall i pa a, 0 <= i < n -> upage (mmem (km s0)) T (addr + i) <> 0 -> table_page T pa -> in_page pa a ->
    a <> uaddr (mmem (km s0)) T (addr + i)).
  { intros i pa a Hi Hne Ht Hin ->. destruct (Hdp i Hi Hne) as [Hnt' _]. apply Hnt'.
    rewrite (in_page_eq (upage (mmem (km s0)) T (addr + i)) pa (uaddr (mmem (km s0)) T (addr + i))); [done| | |apply uaddr_in_page|done].
    - apply upage_aligned.
    - destruct Ht as [q Hq]. by eapply pt_valid. }
  exists (fun i => if upage (mmem (km s0)) T (addr + i) =? 0 then None else Some (uaddr (mmem (km s0)) T (addr + i))).
  - intros i j l Hi Hj. destruct (Z.eqb_spec (upage (mmem (km s0)) T (addr + i)) 0) as [|Hni]; [done|].
    destruct (Z.eqb_spec (upage (mmem (km s0)) T (addr + j)) 0) as [|Hnj]; [done|]. intros [= <-] [= He].
    assert (upage (mmem (km s0)) T (addr + j) = upage (mmem (km s0)) T (addr + i)) as Hp.
    { eapply (in_page_eq _ _ (uaddr (mmem (km s0)) T (addr + i))); [apply upage_aligned..|rewrite <- He|]; apply uaddr_in_page. }
    destruct (Hdp i Hi Hni) as [_ Hd]. specialize (Hd j Hj Hp). unfold uaddr in He. rewrite Hp in He.
    pose proof (page_split (addr + i)). pose proof (page_split (addr + j)). lia.
  - intros i Hi. destruct (Z.eqb_spec (upage (mmem (km s0)) T (addr + i)) 0); [done|]. intros [= He].
    apply (Hnp i Hi). rewrite <- He. apply uaddr_in_page.
  - intros s i Hi Hc Ht Hpr Hb Hm. unfold either_copyout, my_pagetable. apply wp_bind, wp_bind.
    eapply wp_myproc; [destruct Hrun as (t & ? & ?); exists t; by rewrite Hc, Ht|].
    apply wp_gets. rewrite Hpr, Hroot. apply wp_zoom. rewrite wrap_small by lia.
    destruct (pt_frame kend (mmem (km s0)) (mmem (km s)) root T Hpt) as [Hpt' Hlf].
    { intros pa x Htp Hx. apply Hm; [intros ->; by apply (Hnt pa)|]. intros j Hj.
      destruct (Z.eqb_spec (upage (mmem (km s0)) T (addr + j)) 0); [done|]. intros [= He].
      by apply (Htab j pa x Hj). }
    assert (Hup : forall a, upage (mmem (km s)) T a = upage (mmem (km s0)) T a) by (intros; by apply upage_ext).
    assert (Hua : forall a, uaddr (mmem (km s)) T a = uaddr (mmem (km s0)) T a) by (intros; unfold uaddr; by rewrite Hup).
    assert (H1 : forall j, 0 <= j < 1 -> addr + i + j = addr + i) by (intros; lia).
    eapply wp_mono; [apply (wp_copyout_loop kend Hk _ root T (addr + i) ch 1); try done; try lia|].
    { apply copy_fuel; lia. }
    { intros x Hx. assert (x = ch) as -> by lia. split; [done|]. intros j Hj. rewrite Hup, H1 by done. by apply Hnp. }
    { intros j Hj. rewrite Hup, H1 by done. intros Hne. split; [by apply Hdp|]. intros k Hk'. by rewrite H1. }
    cbn beta. intros x m (Hh & Hbo & Hout & Hx). simpl. split_and!; [by destruct s|done|done|].
    destruct (Z.eqb_spec (upage (mmem (km s0)) T (addr + i)) 0) as [Hz|Hnz].
    + destruct Hx as [[_ Hx]|[-> _]].
      * destruct (Hx 0 ltac:(lia)) as [Hx0 _]. by rewrite Z.add_0_r, Hup in Hx0.
      * split; [done|]. intros a. apply Hout. intros (j & Hj & Hne & _). by rewrite Hup, H1 in Hne.
    + destruct Hx as [[-> Hx]|[_ (j & Hj & Hx)]]; [|by rewrite Hup, H1 in Hx].
      destruct (Hx 0 ltac:(lia)) as [_ Hx0]. rewrite !Z.add_0_r, Hua in Hx0. split_and!; [done|done|].
      intros a Ha. apply Hout. intros (j & Hj & _ & ->). by rewrite Hua, H1 in Ha.
Defined.

(** What a read has delivered: the bytes [out] at the places from [i] on. *)
Definition delivered {ch u addr n s0} (K : ByteSink ch u addr n s0) (i : Z) (out : list Z) (m : mem) : Prop :=
  forall k b, out !! k = Some b -> exists l, snk_loc K (i + Z.of_nat k) = Some l /\ m l = b.

Definition sink_view {ch u addr n s0} (K : ByteSink ch u addr n s0) (s : kstate) : Prop :=
  cur s = cur s0 /\ tcbs s = tcbs s0 /\ procs s = procs s0 /\ bytes_ok (mmem (km s)) /\
  (forall a, a <> ch -> (forall j, 0 <= j < n -> snk_loc K j <> Some a) -> mmem (km s) a = mmem (km s0) a).

Section Read.
Context (swtch : nat -> E kstate unit) (ch : Z) (pi : Z).

(** The memory after the bytes from place [i] on have been written. *)
Lemma wp_piperead_copy {u addr n s0} (K : ByteSink ch u addr n s0) k i r s :
  sink_view K s -> pipes s !! pi = Some r -> pipe_ok r -> 0 <= i -> i + Z.of_nat k = n ->
  wp (piperead_copy ch k pi u addr i) (fun j s' => exists out lost r',
    pipe_bytes r = out ++ lost ++ pipe_bytes r' /\ j = i + Z.of_nat (length out) /\ j <= n /\
    (lost = [] /\ (j = n \/ pipe_bytes r' = []) \/ (exists b, lost = [b]) /\ j < n /\ snk_loc K j = None) /\
    delivered K i out (mmem (km s')) /\
    (forall m l, 0 <= m < i -> snk_loc K m = Some l -> mmem (km s') l = mmem (km s) l) /\
    pipes s' !! pi = Some r' /\ pipe_ok r' /\ pipe_frame s s') s.
Proof.
  revert i r s. induction k as [|k IH]; intros i r s Hv Hp Hok Hi Hk; cbn [piperead_copy].
  { apply wp_ret. exists [], [], r. split_and!; try done; try (simpl; lia).
    - left. split; [done|]. left. simpl. lia.
    - split; [by destruct s|done]. }
  apply wp_bind. unfold get_pipe. eapply wp_run; [by rewrite Hp|]. rewrite pipe_empty_iff by done.
  destruct (Z.eqb_spec (pipe_count r) 0) as [Hz|Hnz].
  { apply wp_ret. exists [], [], r. split_and!; try done; try (simpl; lia).
    - left. split; [done|]. right. apply nil_length_inv. pose proof (pipe_bytes_length r). lia.
    - split; [by destruct s|done]. }
  destruct (pipe_get_spec r Hok ltac:(pose proof (pipe_count_range r); lia)) as [Hok' Hby].
  apply wp_bind, wp_zoom, wp_modify. simpl. apply wp_bind. eapply wp_upd_pipe; [done|]. simpl.
  destruct Hv as (Hc & Ht & Hpr & Hb & Hm). assert (Hnx : 0 <= pipe_next r < 256) by apply (po_data r Hok).
  set (m1 := mset (mmem (km s)) ch (pipe_next r)).
  assert (Hm1 : m1 ch = pipe_next r) by (unfold m1; rewrite mset_eq; apply wrap_small; lia).
  assert (Hm1o : forall a, a <> ch -> m1 a = mmem (km s) a) by (intros; unfold m1; by apply mset_ne).
  apply wp_bind. eapply wp_mono; [apply (snk_write (ByteSink := K) _ i)|]; simpl; try done; try lia.
  { by apply mset_ok. }
  { intros a Ha Hj. rewrite Hm1o by done. by apply Hm. }
  cbn beta. intros x s2 (Hs2 & Hh2 & Hb2 & Hx).
  assert (Hp2 : pipes s2 !! pi = Some (pipe_get r)) by (apply (f_equal pipes) in Hs2; simpl in Hs2; rewrite Hs2; by rewrite lookup_insert_eq).
  destruct (snk_loc K i) as [l|] eqn:Hl.
  - destruct Hx as (-> & Hxl & Hxo). cbn [Z.eqb].
    assert (Hlch : l <> ch) by (intros ->; by apply (snk_apart (ByteSink := K) i); [lia|]).
    eapply wp_mono; [apply (IH (i + 1) (pipe_get r) s2)|]; try done; try lia.
    + split_and!; [by apply (f_equal cur) in Hs2; simpl in Hs2; congruence|by apply (f_equal tcbs) in Hs2; simpl in Hs2; congruence|by apply (f_equal procs) in Hs2; simpl in Hs2; congruence|done|].
      intros a Ha Hj. rewrite Hxo by (intros ->; by apply (Hj i); [lia|]). rewrite Hm1o by done. by apply Hm.
    + cbn beta. intros j s3 (out & lost & r' & Hby' & -> & Hjn & Hlost & Hdel & Hkeep & Hp3 & Ho3 & Hf3).
      exists (pipe_next r :: out), lost, r'. rewrite Hby, Hby'. split_and!; try done; try (simpl; lia).
      * intros [|q] b Hq; simpl in Hq.
        -- injection Hq as <-. exists l. rewrite Z.add_0_r. split; [done|].
           rewrite (Hkeep i l) by (done || lia). by rewrite Hxl.
        -- destruct (Hdel q b Hq) as (l' & H1 & H2). exists l'. split; [|done]. rewrite <- H1. f_equal. lia.
      * intros m l' Hmi Hl'. rewrite (Hkeep m l') by (done || lia).
        rewrite Hxo; [apply Hm1o|]; intros ->.
        -- by apply (snk_apart (ByteSink := K) m); [lia|].
        -- assert (m = i) by (eapply (snk_inj (ByteSink := K)); [lia|lia|done|done]). lia.
      * split; [|by destruct Hf3 as [_ ->]; rewrite Hh2]. destruct Hf3 as [Hf3 _].
        clear -Hs2 Hf3. destruct s, s2, s3. unfold set_km, set_pipes in *. cbn in *. injection Hs2. injection Hf3. intros. subst. reflexivity.
  - destruct Hx as [-> Hxo]. cbn [Z.eqb]. apply wp_ret. exists [], [pipe_next r], (pipe_get r).
    split_and!; try done; try (simpl; lia).
    + right. split_and!; [by eexists|lia|done].
    + intros m l Hmi Hl'. rewrite Hxo. apply Hm1o. intros ->. by apply (snk_apart (ByteSink := K) m); [lia|].
    + split; [|by rewrite Hh2]. clear -Hs2. destruct s, s2. unfold set_km, set_pipes in *. cbn in *. injection Hs2. intros. subst. reflexivity.
Qed.
End Read.

(** a read of [n] bytes from a pipe that holds bytes, or whose writers are
    gone, returns the number of bytes it delivers: the first bytes of the pipe,
    in order, each at its place in the destination, [n] of them unless the pipe
    runs empty; what is left in the pipe stays in order.  When the destination
    cannot be written the read stops, and the byte it had already taken from
    the pipe is lost. *)
Theorem piperead_takes (swtch : nat -> E kstate unit) (ch pi addr n : Z) (u : bool) (pr : nat) (r : pipe)
    (tq : thread_state -> list nat) (fuel : nat) (s : kstate) (K : ByteSink ch u addr n s) :
  sched_inv s tq ∅ -> held (km s) = [] -> runs_in s pr -> bytes_ok (mmem (km s)) ->
  pipes s !! pi = Some r -> pipe_ok r -> 0 < pipe_count r \/ writeopen r = 0 -> 0 <= n ->
  wp (piperead swtch ch fuel pi u addr n) (fun j s' => exists out lost r',
    pipe_bytes r = out ++ lost ++ pipe_bytes r' /\ j = Z.of_nat (length out) /\ j <= n /\
    (lost = [] /\ (j = n \/ pipe_bytes r' = []) \/ (exists b, lost = [b]) /\ j < n /\ snk_loc K j = None) /\
    delivered K 0 out (mmem (km s')) /\
    pipes s' !! pi = Some r' /\ pipe_ok r' /\ held (km s') = [] /\ exists ts, sched_inv s' (woken_queues ts tq) ∅) s.
Proof.
  intros Hi Hh Hrun Hb Hp Hok Hav Hn. unfold piperead. apply wp_bind. eapply wp_myproc; [done|].
  apply wp_bind, wp_kacquire; [rewrite Hh; apply not_elem_of_nil|]. rewrite Hh. set (s1 := set_km _ s).
  assert (Hgo : ((nread r =? nwrite r) && negb (writeopen r =? 0))%bool = false).
  { rewrite pipe_empty_iff by done. destruct Hav as [Hav|Hav].
    - destruct (Z.eqb_spec (pipe_count r) 0); [lia|done].
    - rewrite Hav. apply andb_false_r. }
  apply wp_bind. eapply (wp_run _ _ s1 true s1).
  { destruct fuel; cbn [piperead_wait]; unfold get_pipe, mbind, E_bind, deref; change (pipes s1) with (pipes s); rewrite Hp; cbn; by rewrite Hgo. }
  cbn [negb]. apply wp_bind.
  eapply wp_mono; [apply (wp_piperead_copy ch pi K (Z.to_nat n) 0 r s1); try done; try lia|].
  cbn beta. intros j s2 (out & lost & r' & Hby & Hj & Hjn & Hl & Hdel & _ & Hp2 & Hok2 & Hfr).
  eapply wp_mono; [apply (wp_wake_unlock pi (ChPipeW pi) j tq s2)|].
  - eapply pipe_frame_sched; [done|]. by apply sched_inv_km.
  - destruct Hfr as [_ ->]. done.
  - cbn beta. intros j' s3 (-> & Hh3 & Hi3 & Hp3 & Hm3). exists out, lost, r'. rewrite Hp3, Hm3.
    split_and!; try done. by eexists.
Qed.

Lemma wp_pipeclose (kend pi : Z) (w : bool) (r : pipe) (l : list Z) (tq : thread_state -> list nat) (s : kstate) :
  0 < kend -> sched_inv s tq ∅ -> held (km s) = [] -> pipes s !! pi = Some r ->
  kmem_inv kend (km s) l -> valid_page kend pi -> pi ∉ l ->
  wp (pipeclose kend pi w) (fun _ s' =>
    held (km s') = [] /\
    sched_inv s' (woken_queues (filter (selects s (sleeps_on (if w then ChPipeR pi else ChPipeW pi))) table) tq) ∅ /\
    (ftabs s' = ftabs s /\ files s' = files s /\ procs s' = procs s /\ cur s' = cur s /\ (forall t, tproc (tcbs s' t) = tproc (tcbs s t)) /\
     forall pj, pj <> pi -> pipes s' !! pj = pipes s !! pj) /\
    if (if w then readopen r else writeopen r) =? 0 then pipes s' !! pi = None /\ kmem_inv kend (km s') (pi :: l)
    else pipes s' !! pi = Some (if w then set_writeopen 0 r else set_readopen 0 r) /\ kmem_inv kend (km s') l) s.
Proof.
  intros Hk Hi Hh Hp Hkm Hv Hni. unfold pipeclose. apply wp_bind, wp_kacquire; [rewrite Hh; apply not_elem_of_nil|]. rewrite Hh.
  set (r1 := if w then set_writeopen 0 r else set_readopen 0 r). set (c := if w then ChPipeR pi else ChPipeW pi).
  eapply (wp_call _ _ (fun _ s1 => woken (set_pipes (<[pi := r1]> (pipes s)) (set_km (set_held [L_pipe pi] (km s)) s)) tq
    (filter (selects s (sleeps_on c)) table) s1)).
  { assert (Hl : forall lk, lk <> L_pipe pi -> lk ∉ held (km (set_pipes (<[pi := r1]> (pipes s)) (set_km (set_held [L_pipe pi] (km s)) s))))
      by (intros lk Hlk; simpl; by intros ?%list_elem_of_singleton).
    destruct w; (apply wp_bind; eapply wp_upd_pipe; [done|]); simpl;
      (apply (wp_thread_wakeup_chan _ tq (set_pipes _ (set_km _ s))); [by destruct Hi|intros st; by apply Hl|intros t; by apply Hl]). }
  cbn beta. intros _ s1 [Hi1 Htc1 (Hk1 & _ & Hr1 & _)]. simpl in Hk1.
  assert (Hps1 : pipes s1 = <[pi := r1]> (pipes s)) by by apply (f_equal pipes) in Hr1.
  assert (Hp1 : pipes s1 !! pi = Some r1) by by rewrite Hps1, lookup_insert_eq.
  assert (Hf1 : ftabs s1 = ftabs s /\ files s1 = files s /\ procs s1 = procs s /\ cur s1 = cur s /\ forall t, tproc (tcbs s1 t) = tproc (tcbs s t)).
  { split_and!; [by apply (f_equal ftabs) in Hr1|by apply (f_equal files) in Hr1|by apply (f_equal procs) in Hr1|by apply (f_equal cur) in Hr1|]. intros t. rewrite Htc1. by case_decide. }
  assert (Hkm1 : kmem_inv kend (km s1) l) by (rewrite Hk1; by destruct Hkm).
  apply wp_bind. unfold get_pipe. eapply wp_run; [by rewrite Hp1|].
  assert (((readopen r1 =? 0) && (writeopen r1 =? 0))%bool = ((if w then readopen r else writeopen r) =? 0)) as ->.
  { unfold r1. destruct w; simpl; [apply andb_true_r|done]. }
  destruct (_ =? 0).
  - apply wp_bind. eapply wp_krelease; [by rewrite Hk1|apply not_elem_of_nil|].
    apply (wp_free_object kend Hk _ _ l); simpl; [by destruct Hkm1|apply not_elem_of_nil|done|done|].
    intros m Hm Hhm. simpl. split_and!; [done|by destruct Hi1|apply Hf1..| |by rewrite lookup_delete_eq|done].
    intros pj Hne. by rewrite lookup_delete_ne, Hps1, lookup_insert_ne.
  - eapply wp_krelease; [by rewrite Hk1|apply not_elem_of_nil|]. simpl. split_and!; [done|by destruct Hi1|apply Hf1..| |done|by destruct Hkm1].
    intros pj Hne. by rewrite Hps1, lookup_insert_ne.
Qed.

(** Closing one end of a pipe wakes the other side; while the other end is
    open the pipe stays, with its bytes, and closing the second end gives its
    page back to the page allocator. *)
Theorem pipeclose_frees_last (kend pi : Z) (w : bool) (r : pipe) (l : list Z) (tq : thread_state -> list nat) (s : kstate) :
  0 < kend -> sched_inv s tq ∅ -> held (km s) = [] -> pipes s !! pi = Some r ->
  kmem_inv kend (km s) l -> valid_page kend pi -> pi ∉ l ->
  wp (pipeclose kend pi w) (fun _ s' =>
    held (km s') = [] /\
    sched_inv s' (woken_queues (filter (selects s (sleeps_on (if w then ChPipeR pi else ChPipeW pi))) table) tq) ∅ /\
    if (if w then readopen r else writeopen r) =? 0 then pipes s' !! pi = None /\ kmem_inv kend (km s') (pi :: l)
    else pipes s' !! pi = Some (if w then set_writeopen 0 r else set_readopen 0 r) /\ kmem_inv kend (km s') l) s.
Proof.
  intros. eapply wp_mono; [by apply (wp_pipeclose kend pi w r l tq)|]. cbn beta.
  intros _ s' (Ha & Hb & _ & Hc). by split_and!.
Qed.

(** ** Witnesses: thread 0 of process 0, and a pipe whose counters are about to
    wrap around *)

Definition wrap_pipe (w : Z) : pipe := Pipe (fun _ => 7) (2 ^ 32 - 2) w 1 1.

Lemma wrap_pipe_ok : pipe_ok (wrap_pipe (2 ^ 32 - 2)) /\ pipe_ok (wrap_pipe 3) /\ pipe_count (wrap_pipe 3) = 5.
Proof. split_and!; [split; simpl; done|split; simpl; done|done]. Qed.

Definition pipe_state (b : kstate) (r : pipe) : kstate :=
  set_cur (Some 0%nat) (set_tcbs (<[0%nat := set_tproc (Some 0%nat) (tcbs b 0%nat)]> (tcbs b))
    (set_procs (fun _ => proc_zero) (set_km one_free (set_pipes {[two_pages := r]} b)))).

Lemma pipe_state_ok b r tq : sched_inv b tq ∅ ->
  sched_inv (pipe_state b r) tq ∅ /\ runs_in (pipe_state b r) 0 /\ bytes_ok (mmem (km (pipe_state b r))).
Proof.
  intros Hi. split_and!.
  - eapply sched_inv_same; [exact Hi|done..|]. intros t. cbn [tcbs pipe_state set_cur set_tcbs].
    destruct (decide (t = 0%nat)) as [->|]; [by rewrite fn_lookup_insert|by rewrite fn_lookup_insert_ne].
  - by exists 0%nat.
  - intros a. simpl. lia.
Qed.


Lemma piperead_takes_witness :
  exists s, wp (piperead (fun _ => mret tt) 0x9000 0 two_pages false 0x8000 3) (fun j s' =>
    j = 3 /\ exists r', pipes s' !! two_pages = Some r' /\ pipe_bytes r' = [7; 7]) s.
Proof.
  destruct booted_ok as (_ & Hi & _). revert Hi. generalize booted. intros b Hi.
  destruct (pipe_state_ok b (wrap_pipe 3) _ Hi) as (Hi' & Hrun & Hb).
  pose (K := kernel_sink 0x9000 0x8000 3 _ _ Hrun ltac:(lia) ltac:(lia) ltac:(lia)).
  exists (pipe_state b (wrap_pipe 3)). eapply wp_mono.
  - apply (piperead_takes (fun _ => mret tt) 0x9000 two_pages 0x8000 3 false 0 (wrap_pipe 3) _ 0 _ K Hi'); try done; try lia.
    by left.
  - cbn beta. intros j s' (out & lost & r' & Hby & Hj & Hjn & Hl & _ & Hp & _ & _ & _).
    assert (pipe_bytes (wrap_pipe 3) = [7; 7; 7; 7; 7]) as Hw by done. rewrite Hw in Hby.
    destruct Hl as [[-> Hl]|(_ & _ & [=])]. simpl in Hby.
    assert (length out = 3%nat) as Hlen.
    { destruct Hl as [->|Hl]; [lia|]. rewrite Hl, app_nil_r in Hby. subst out. simpl in *. lia. }
    split; [lia|]. exists r'. split; [done|].
    destruct out as [|? [|? [|? [|]]]]; try done. simpl in Hby. by injection Hby.
Defined.

Lemma pipeclose_frees_last_witness :
  exists s, wp (pipeclose two_pages two_pages true) (fun _ s' =>
    pipes s' !! two_pages = Some (set_writeopen 0 (wrap_pipe 3))) s.
Proof.
  destruct booted_ok as (_ & Hi & _). revert Hi. generalize booted. intros b Hi.
  destruct (pipe_state_ok b (wrap_pipe 3) _ Hi) as (Hi' & Hrun & Hb).
  exists (pipe_state b (wrap_pipe 3)). eapply wp_mono.
  - apply (pipeclose_frees_last two_pages two_pages true (wrap_pipe 3) [PHYSTOP - PGSIZE] (init_queues (Z.to_nat NTHREADS)) (pipe_state b (wrap_pipe 3))); try done.
    + split; [done|apply NoDup_singleton|by apply Forall_singleton|]. intros a. simpl. lia.
    + by intros ?%list_elem_of_singleton.
  - cbn beta. intros _ s' (_ & _ & H & _). exact H.
Defined.
