(* ===== verification/Console.v ===== *)
(** * kernel/arch/qemu/console.c and uart.c: the console

    The UART is a queue of received bytes, the bytes sent so far, and the
    answers of the successive reads of its status register (LSR_TX_IDLE).  The
    input buffer of the console holds, between the indices r, w and e, the
    lines a reader may take and the line being edited; all three are 32-bit
    counters that wrap around. *)
From S2P Require Import Prelude Mem CString Snprintf KTypes Kalloc Vm ListHead KState Queue Sched Signal Thread ThreadInv SchedSpec ProcBase Pipe.
Definition BACKSPACE : Z := 0x100.
(** C('D') and the like. *)
Definition CTRL (x : Z) : Z := x - 64.
Definition CTRL_D : Z := CTRL 68.
Definition CTRL_H : Z := CTRL 72.
Definition CTRL_P : Z := CTRL 80.
Definition CTRL_U : Z := CTRL 85.
Definition DEL : Z := 0x7f.
Definition NL : Z := 10.
Definition CR : Z := 13.
Definition INPUT_BUF_SIZE : Z := 128.
Definition UART_TX_BUF_SIZE : Z := 32.
Definition CONSOLE : Z := 1.
Definition DEVNULL : Z := 0.

Definition upd_cons (f : console -> console) : E kstate unit := modify (fun s => set_cons (f (cons s)) s).
Definition upd_uart (f : uartdev -> uartdev) : E kstate unit := modify (fun s => set_uart (f (uart s)) s).

(** (ReadReg(LSR) & LSR_TX_IDLE) != 0 *)
Definition tx_idle : E kstate bool :=
  u ← gets uart;
  upd_uart (set_lsr_reads (S (lsr_reads u)));;
  mret (lsr_idle u (lsr_reads u)).
(** WriteReg(THR, c) *)
Definition write_thr (c : Z) : E kstate unit := upd_uart (fun u => set_thr (thr u ++ [u8 c]) u).

(** ** The UART *)

(** Every turn takes a byte from the buffer: [n] is their number. *)
Fixpoint uartstart_loop (n : nat) : E kstate unit :=
  match n with
  | O => mret tt
  | S n =>
    idle ← tx_idle;
    if negb idle then mret tt
    else
      u ← gets uart;
      let c := tx_buf u (tx_r u mod UART_TX_BUF_SIZE) in
      upd_uart (set_tx_r (u64 (tx_r u + 1)));;
      thread_wakeup_chan ChUart;;
      write_thr c;;
      uartstart_loop n
  end.

Definition uartstart : E kstate unit :=
  u ← gets uart;
  uartstart_loop (Z.to_nat (u64 (tx_w u - tx_r u))).

Definition uartgetc : E kstate Z :=
  u ← gets uart;
  match rhr u with
  | c :: l => upd_uart (set_rhr l);; mret (u8 c)
  | [] => mret (-1)
  end.

Section Console.
(** The switch to the scheduler; procdump, which prints the process list; the
    address of the local variables c and cbuf. *)
Context (swtch : nat -> E kstate unit) (procdump : E kstate unit) (ch : Z).

(** The wait for room in the buffer. *)
Fixpoint uartputc_wait (fuel : nat) : E kstate unit :=
  u ← gets uart;
  if tx_w u =? u64 (tx_r u + UART_TX_BUF_SIZE) then
    match fuel with
    | O => nofuel
    | S fuel => thread_sleep swtch ChUart L_uart None;; uartputc_wait fuel
    end
  else mret tt.

(** After a panic the machine loops for ever. *)
Definition spin_if_panicked : E kstate unit :=
  p ← gets panicked;
  if negb (p =? 0) then nofuel else mret tt.

Definition uartputc (fuel : nat) (c : Z) : E kstate unit :=
  acquire L_uart;;
  spin_if_panicked;;
  uartputc_wait fuel;;
  upd_uart (fun u => set_tx_buf (<[tx_w u mod UART_TX_BUF_SIZE := u8 c]> (tx_buf u)) u);;
  upd_uart (fun u => set_tx_w (u64 (tx_w u + 1)) u);;
  uartstart;;
  release L_uart.

Fixpoint wait_idle (fuel : nat) : E kstate unit :=
  idle ← tx_idle;
  if (idle : bool) then mret tt
  else match fuel with O => nofuel | S fuel => wait_idle fuel end.

(** Interrupts are off while it spins. *)
Definition uartputc_sync (fuel : nat) (c : Z) : E kstate unit :=
  spin_if_panicked;;
  wait_idle fuel;;
  write_thr c.

(** ** Output *)

Definition consputc (fuel : nat) (c : Z) : E kstate unit :=
  if c =? BACKSPACE then uartputc_sync fuel 8;; uartputc_sync fuel 32;; uartputc_sync fuel 8
  else uartputc_sync fuel c.

Fixpoint consolewrite_loop (fuel : nat) (k : nat) (user_src : bool) (src i : Z) : E kstate Z :=
  match k with
  | O => mret i
  | S k =>
    x ← either_copyin ch user_src (u64 (src + i)) 1;
    if x =? -1 then mret i
    else
      c ← gets (fun s => mmem (km s) ch);
      uartputc fuel c;;
      consolewrite_loop fuel k user_src src (i + 1)
  end.

Definition consolewrite (fuel : nat) (user_src : bool) (src n : Z) : E kstate Z :=
  acquire L_cons;;
  i ← consolewrite_loop fuel (Z.to_nat n) user_src src 0;
  release L_cons;;
  mret i.

(** ** Input *)

(** The wait for input: [false] when the process has been killed. *)
Fixpoint consoleread_wait (fuel : nat) : E kstate bool :=
  c ← gets cons;
  if cons_r c =? cons_w c then
    match fuel with
    | O => nofuel
    | S fuel =>
      p ← myproc;
      k ← proc_killed p;
      if negb (k =? 0) then release L_cons;; mret false
      else thread_sleep swtch ChCons L_cons None;; consoleread_wait fuel
    end
  else mret true.

(** The loop, with [n] bytes to go of [target]: the bytes not read, or [None]
    when killed. *)
Fixpoint consoleread_loop (fuel : nat) (n : nat) (user_dst : bool) (dst target : Z) : E kstate (option Z) :=
  match n with
  | O => mret (Some 0)
  | S n' =>
    ok ← consoleread_wait fuel;
    if negb ok then mret None
    else
      s ← gets cons;
      let c := cbuf s (cons_r s mod INPUT_BUF_SIZE) in
      upd_cons (set_cons_r (u32 (cons_r s + 1)));;
      if c =? CTRL_D then
        (if Z.of_nat n <? target then upd_cons (fun s => set_cons_r (u32 (cons_r s - 1)) s) else mret tt);;
        mret (Some (Z.of_nat n))
      else
        on_mach (upd_mem (fun m => mset m ch c));;
        x ← either_copyout user_dst dst ch 1;
        if x =? -1 then mret (Some (Z.of_nat n))
        else if c =? NL then mret (Some (Z.of_nat n'))
        else consoleread_loop fuel n' user_dst (u64 (dst + 1)) target
  end.

Definition consoleread (fuel : nat) (user_dst : bool) (dst n : Z) : E kstate Z :=
  acquire L_cons;;
  r ← consoleread_loop fuel (Z.to_nat n) user_dst dst (u32 n);
  match r with
  | None => mret (-1)
  | Some k =>
    release L_cons;;
    mret (i32 (u32 n - (if 0 <? n then k else n)))
  end.

(** The turns of the loop of ^U: [n] is the length of the line. *)
Fixpoint kill_line (fuel : nat) (n : nat) : E kstate unit :=
  match n with
  | O => mret tt
  | S n =>
    c ← gets cons;
    if negb (cons_e c =? cons_w c) && negb (cbuf c (u32 (cons_e c - 1) mod INPUT_BUF_SIZE) =? NL) then
      upd_cons (set_cons_e (u32 (cons_e c - 1)));;
      consputc fuel BACKSPACE;;
      kill_line fuel n
    else mret tt
  end.

(** cons.buf[cons.e++ % INPUT_BUF_SIZE] = c *)
Definition cons_put (x : Z) (c : console) : console :=
  set_cons_e (u32 (cons_e c + 1)) (set_cbuf (<[cons_e c mod INPUT_BUF_SIZE := u8 x]> (cbuf c)) c).

Definition consoleintr (fuel : nat) (x : Z) : E kstate unit :=
  acquire L_cons;;
  (if x =? CTRL_P then procdump
   else if x =? CTRL_U then
     c ← gets cons;
     kill_line fuel (Z.to_nat (u32 (cons_e c - cons_w c)))
   else if (x =? CTRL_H) || (x =? DEL) then
     c ← gets cons;
     if negb (cons_e c =? cons_w c) then
       upd_cons (set_cons_e (u32 (cons_e c - 1)));;
       consputc fuel BACKSPACE
     else mret tt
   else
     c ← gets cons;
     if negb (x =? 0) && (u32 (cons_e c - cons_r c) <? INPUT_BUF_SIZE) then
       let x := if x =? CR then NL else x in
       consputc fuel x;;
       upd_cons (cons_put x);;
       c ← gets cons;
       if (x =? NL) || (x =? CTRL_D) || (u32 (cons_e c - cons_r c) =? INPUT_BUF_SIZE) then
         upd_cons (set_cons_w (cons_e c));;
         thread_wakeup_chan ChCons
       else mret tt
     else mret tt);;
  release L_cons.

(** ** Interrupts *)

(** The loop over the bytes that have arrived: [n] is their number. *)
Fixpoint uartintr_loop (fuel : nat) (n : nat) : E kstate unit :=
  c ← uartgetc;
  if c =? -1 then mret tt
  else consoleintr fuel c;; match n with O => nofuel | S n => uartintr_loop fuel n end.

Definition uartintr (fuel : nat) : E kstate unit :=
  n ← gets (fun s => length (rhr (uart s)));
  uartintr_loop fuel n;;
  acquire L_uart;;
  uartstart;;
  release L_uart.

(** ** Devices *)

Definition devnullread (user_dst : bool) (dst n : Z) : E kstate Z := mret n.
Definition devnullwrite (user_src : bool) (src n : Z) : E kstate Z := mret n.

(** The device switch as consoleinit leaves it. *)
Definition devsw_read (fuel : nat) (major : Z) : option (bool -> Z -> Z -> E kstate Z) :=
  if major =? CONSOLE then Some (consoleread fuel)
  else if major =? DEVNULL then Some devnullread else None.
Definition devsw_write (fuel : nat) (major : Z) : option (bool -> Z -> Z -> E kstate Z) :=
  if major =? CONSOLE then Some (consolewrite fuel)
  else if major =? DEVNULL then Some devnullwrite else None.
Definition consoleinit : E kstate unit := initlock L_cons;; initlock L_uart.
End Console.

(** * The console is a line editor

    The input buffer as two lists: the lines a reader may take, and the line
    being edited.  An input byte is a step of the editor, a read takes a line. *)

(** ** The editor *)

Record lines := Lines { ready : list Z; editing : list Z }.

Definition room (l : lines) : Z := INPUT_BUF_SIZE - Z.of_nat (length (ready l) + length (editing l)).

(** The byte [x] is typed. *)
Definition type_byte (x : Z) (l : lines) : lines :=
  if x =? CTRL_P then l
  else if x =? CTRL_U then Lines (ready l) []
  else if (x =? CTRL_H) || (x =? DEL) then Lines (ready l) (take (pred (length (editing l))) (editing l))
  else if (x =? 0) || (room l =? 0) then l
  else
    let x := if x =? CR then NL else x in
    if (x =? NL) || (x =? CTRL_D) || (room l =? 1) then Lines (ready l ++ editing l ++ [x]) []
    else Lines (ready l) (editing l ++ [x]).

(** What [n] bytes' worth of reading takes from the lines [l], after [k] bytes:
    the bytes delivered and what is left; [None] when the reader must wait. *)
Fixpoint read_line (k n : nat) (l : list Z) : option (list Z * list Z) :=
  match n, l with
  | O, _ => Some ([], l)
  | S _, [] => None
  | S n, x :: l' =>
    if x =? CTRL_D then Some ([], if decide (k = 0%nat) then l' else l)
    else if x =? NL then Some ([x], l')
    else '(out, rest) ← read_line (S k) n l'; Some (x :: out, rest)
  end.

(** ** Rings of bytes *)

(** The bytes of the ring [b] of [N] bytes from index [i] on are [l]. *)
Definition holds (N : Z) (b : Z -> Z) (i : Z) (l : list Z) : Prop :=
  forall k x, l !! k = Some x -> b ((i + Z.of_nat k) mod N) = x.

Lemma holds_mod N b i j l : 0 < N -> i mod N = j mod N -> holds N b i l -> holds N b j l.
Proof. intros HN He H k x Hx. rewrite <- (H k x Hx), <- (Z.add_mod_idemp_l j), <- He, Z.add_mod_idemp_l by lia. done. Qed.

Lemma holds_app N b i l1 l2 : holds N b i (l1 ++ l2) <-> holds N b i l1 /\ holds N b (i + Z.of_nat (length l1)) l2.
Proof.
  split.
  - intros H. split; intros k x Hx.
    + apply H. by apply lookup_app_l_Some.
    + rewrite <- Z.add_assoc, <- Nat2Z.inj_add. apply H. rewrite lookup_app_r by lia. rewrite <- Hx. f_equal. lia.
  - intros [H1 H2] k x [Hx|[Hk Hx]]%lookup_app_Some; [by apply H1|]. rewrite <- (H2 _ _ Hx). f_equal. f_equal. lia.
Qed.

Lemma holds_put N b i l x :
  Z.of_nat (length l) < N -> holds N b i l -> holds N (<[(i + Z.of_nat (length l)) mod N := x]> b) i (l ++ [x]).
Proof.
  intros Hl H k y [Hy|[Hk Hy]]%lookup_app_Some.
  - pose proof (lookup_lt_Some _ _ _ Hy). rewrite fn_lookup_insert_ne; [by apply H|]. intros He.
    apply (f_equal (fun z => (z - (i + Z.of_nat k)) mod N)) in He. rewrite Zminus_mod_idemp_l in He.
    replace (i + Z.of_nat (length l) - (i + Z.of_nat k)) with (Z.of_nat (length l) - Z.of_nat k) in He by lia.
    rewrite Zminus_mod_idemp_l, Z.sub_diag, Z.mod_0_l, Z.mod_small in He by lia. lia.
  - apply list_lookup_singleton_Some in Hy as [Hk0 <-]. replace k with (length l) by lia. by rewrite fn_lookup_insert.
Qed.

Lemma holds_next N b i x l : holds N b i (x :: l) -> b (i mod N) = x /\ holds N b (i + 1) l.
Proof. intros H. apply (holds_app N b i [x] l) in H as [H1 H2]. split; [|done]. rewrite <- (H1 0%nat x) by done. by rewrite Z.add_0_r. Qed.

(** Counters of [w] bits that wrap around. *)
Lemma wrap_shift w x y : wrap w (wrap w x + y) = wrap w (x + y).
Proof. unfold wrap. destruct (decide (2 ^ w = 0)) as [->|]; [by rewrite !Z.mod_0_r|]. by rewrite Z.add_mod_idemp_l. Qed.

Lemma wrap_diff w x a b : 0 <= b - a < 2 ^ w -> wrap w (wrap w (x + b) - wrap w (x + a)) = b - a.
Proof. intros H. unfold wrap in *. rewrite Zminus_mod_idemp_l, Zminus_mod_idemp_r. replace (x + b - (x + a)) with (b - a) by lia. by apply Z.mod_small. Qed.

Lemma wrap_eq w x a b : 0 <= b - a < 2 ^ w -> (wrap w (x + b) =? wrap w (x + a)) = (b =? a).
Proof.
  intros H. destruct (Z.eqb_spec b a) as [->|Hne]; [apply Z.eqb_refl|]. apply Z.eqb_neq. intros He. apply Hne.
  pose proof (wrap_diff w x a b H) as Hd. rewrite He, Z.sub_diag in Hd. unfold wrap in Hd. rewrite Z.mod_0_l in Hd by lia. lia.
Qed.

Lemma wrap_mod w k x : 0 <= k <= w -> wrap w x mod 2 ^ k = x mod 2 ^ k.
Proof. intros H. unfold wrap. apply Z.mod_mod_divide. exists (2 ^ (w - k)). rewrite <- Z.pow_add_r by lia. f_equal. lia. Qed.

(** ** The input buffer *)

Record cons_is (c : console) (l : lines) : Prop := {
  cn_r : 0 <= cons_r c < 2 ^ 32;
  cn_w : cons_w c = u32 (cons_r c + Z.of_nat (length (ready l)));
  cn_e : cons_e c = u32 (cons_r c + Z.of_nat (length (ready l) + length (editing l)));
  cn_size : 0 <= room l;
  cn_data : holds INPUT_BUF_SIZE (cbuf c) (cons_r c) (ready l ++ editing l);
  cn_bytes : Forall (fun x => 0 <= x < 256) (ready l ++ editing l);
  cn_edit : NL ∉ editing l;
}.

(** The tests of the code on the counters. *)
Lemma cons_empty c l : cons_is c l -> (cons_e c =? cons_w c) = (Z.of_nat (length (editing l)) =? 0).
Proof.
  intros [Hr Hw He Hs _ _ _]. unfold room, INPUT_BUF_SIZE in Hs. rewrite Hw, He, wrap_eq by lia.
  destruct (Z.eqb_spec (Z.of_nat (length (editing l))) 0); [apply Z.eqb_eq|apply Z.eqb_neq]; lia.
Qed.

Lemma cons_none c l : cons_is c l -> (cons_r c =? cons_w c) = (Z.of_nat (length (ready l)) =? 0).
Proof.
  intros [Hr Hw He Hs _ _ _]. unfold room, INPUT_BUF_SIZE in Hs. rewrite Hw, Z.eqb_sym. rewrite <- (wrap_small 32 (cons_r c)) at 2 by done.
  rewrite <- (Z.add_0_r (cons_r c)) at 2. apply wrap_eq. lia.
Qed.

Lemma cons_used c l : cons_is c l -> u32 (cons_e c - cons_r c) = INPUT_BUF_SIZE - room l.
Proof.
  intros [Hr Hw He Hs _ _ _]. unfold room, INPUT_BUF_SIZE in *. rewrite He. rewrite <- (wrap_small 32 (cons_r c)) at 2 by done.
  rewrite <- (Z.add_0_r (cons_r c)) at 2. rewrite wrap_diff by lia. lia.
Qed.

(** The last byte of the line being edited. *)
Lemma cons_last c R E x : cons_is c (Lines R (E ++ [x])) ->
  u32 (cons_e c - 1) = u32 (cons_r c + Z.of_nat (length R + length E)) /\ cbuf c (u32 (cons_e c - 1) mod INPUT_BUF_SIZE) = x /\ x <> NL /\
  cons_is (set_cons_e (u32 (cons_e c - 1)) c) (Lines R E).
Proof.
  intros [Hr Hw He Hs Hd Hb Hn]. cbn [ready editing] in *. rewrite length_app in He. cbn [length] in He.
  assert (Hlast : u32 (cons_e c - 1) = u32 (cons_r c + Z.of_nat (length R + length E))) by (rewrite He; rewrite <- Z.add_opp_r, wrap_shift; f_equal; lia).
  rewrite app_assoc in Hd, Hb. apply holds_app in Hd as [Hd1 Hd2]. apply Forall_app in Hb as [Hb1 Hb2].
  split_and!; [done| |set_solver|].
  - rewrite Hlast. change INPUT_BUF_SIZE with (2 ^ 7). rewrite wrap_mod by lia. apply holds_next in Hd2 as [Hx _]. rewrite length_app in Hx. exact Hx.
  - split; cbn [cons_r cons_w cons_e cbuf set_cons_e ready editing]; try done; [|set_solver]. unfold room in *. cbn [ready editing] in *. rewrite length_app in Hs. lia.
Qed.

(** A byte is stored. *)
Lemma cons_put_is c l x : cons_is c l -> 0 < room l -> 0 <= x < 256 -> x <> NL -> cons_is (cons_put x c) (Lines (ready l) (editing l ++ [x])).
Proof.
  intros [Hr Hw He Hs Hd Hb Hn] Hroom Hx Hnl. split; cbn [cons_put cons_r cons_w cons_e cbuf set_cons_e set_cbuf ready editing]; try done.
  - rewrite He, wrap_shift, length_app. f_equal. cbn [length]. lia.
  - unfold room in *. cbn [ready editing]. rewrite length_app. cbn [length]. lia.
  - rewrite app_assoc, He. change INPUT_BUF_SIZE with (2 ^ 7) at 2. rewrite wrap_mod by lia. rewrite wrap_small by lia.
    rewrite <- length_app. apply holds_put; [|done]. unfold room in Hroom. rewrite length_app. unfold INPUT_BUF_SIZE in *. lia.
  - rewrite app_assoc. apply Forall_app. split; [done|]. by apply Forall_singleton.
  - set_solver.
Qed.

(** A byte is stored and the line is given to the readers. *)
Lemma cons_commit_is c l x : cons_is c l -> 0 < room l -> 0 <= x < 256 ->
  cons_is (set_cons_w (cons_e (cons_put x c)) (cons_put x c)) (Lines (ready l ++ editing l ++ [x]) []).
Proof.
  intros [Hr Hw He Hs Hd Hb Hn] Hroom Hx. split; cbn [cons_put cons_r cons_w cons_e cbuf set_cons_e set_cons_w set_cbuf ready editing]; try done.
  - rewrite He, wrap_shift, !length_app. f_equal. cbn [length]. lia.
  - rewrite He, wrap_shift, !length_app. f_equal. cbn [length]. lia.
  - unfold room in *. cbn [ready editing]. rewrite !length_app. cbn [length]. lia.
  - rewrite app_nil_r, app_assoc, He. change INPUT_BUF_SIZE with (2 ^ 7) at 2. rewrite wrap_mod by lia. rewrite wrap_small by lia.
    rewrite <- length_app. apply holds_put; [|done]. unfold room in Hroom. rewrite length_app. unfold INPUT_BUF_SIZE in *. lia.
  - rewrite app_nil_r, app_assoc. apply Forall_app. split; [done|]. by apply Forall_singleton.
  - apply not_elem_of_nil.
Qed.

(** ** The device *)

(** Bytes are sent, after some reads of the status register. *)
Definition echoed (out : list Z) (s s' : kstate) : Prop :=
  exists m, s' = set_uart (set_thr (thr (uart s) ++ out) (set_lsr_reads m (uart s))) s.

(** The machine has not panicked, and of any [fuel] + 1 successive reads of
    the status register one finds the transmitter idle. *)
Definition responsive (fuel : nat) (s : kstate) : Prop :=
  panicked s = 0 /\ forall n, exists k, (k <= fuel)%nat /\ lsr_idle (uart s) (n + k) = true.

Lemma echoed_trans o1 o2 s1 s2 s3 : echoed o1 s1 s2 -> echoed o2 s2 s3 -> echoed (o1 ++ o2) s1 s3.
Proof. intros [m1 ->] [m2 ->]. exists m2. cbn [uart set_uart thr set_thr set_lsr_reads]. by rewrite app_assoc. Qed.

Lemma echoed_responsive fuel o s s' : echoed o s s' -> responsive fuel s -> responsive fuel s'.
Proof. intros [m ->]. done. Qed.

Lemma wp_wait_idle fuel (Q : unit -> kstate -> Prop) s :
  (exists k, (k <= fuel)%nat /\ lsr_idle (uart s) (lsr_reads (uart s) + k) = true) ->
  (forall m, Q tt (set_uart (set_lsr_reads m (uart s)) s)) -> wp (wait_idle fuel) Q s.
Proof.
  revert s. induction fuel as [|fuel IH]; intros s (k & Hk & Hi) HQ; cbn [wait_idle]; unfold tx_idle, upd_uart;
    apply wp_bind, wp_bind, wp_gets, wp_bind, wp_modify, wp_ret.
  - replace k with 0%nat in Hi by lia. rewrite Nat.add_0_r in Hi. rewrite Hi. apply wp_ret, HQ.
  - destruct (lsr_idle (uart s) (lsr_reads (uart s))) eqn:E; [apply wp_ret, HQ|]. destruct k as [|k]; [rewrite Nat.add_0_r in Hi; congruence|].
    apply IH; [exists k; split; [lia|]; cbn [uart set_uart lsr_idle lsr_reads set_lsr_reads]; rewrite <- Hi; f_equal; lia|].
    intros m. apply (HQ m).
Qed.

Lemma wp_putc_sync fuel c (Q : unit -> kstate -> Prop) s :
  responsive fuel s -> (forall s', echoed [u8 c] s s' -> Q tt s') -> wp (uartputc_sync fuel c) Q s.
Proof.
  intros [Hp Hi] HQ. unfold uartputc_sync, spin_if_panicked. apply wp_bind, wp_bind, wp_gets. rewrite Hp. apply wp_ret, wp_bind.
  apply wp_wait_idle; [apply Hi|]. intros m. apply wp_modify, HQ. by exists m.
Qed.

Definition rubout : list Z := [8; 32; 8].

Lemma wp_rubout fuel (Q : unit -> kstate -> Prop) s :
  responsive fuel s -> (forall s', echoed rubout s s' -> Q tt s') -> wp (consputc fuel BACKSPACE) Q s.
Proof.
  intros Hr HQ. unfold consputc. change (BACKSPACE =? BACKSPACE) with true. cbn match.
  apply wp_bind, wp_putc_sync; [done|]. intros s1 H1. pose proof (echoed_responsive _ _ _ _ H1 Hr) as Hr1.
  apply wp_bind, wp_putc_sync; [done|]. intros s2 H2. pose proof (echoed_responsive _ _ _ _ H2 Hr1) as Hr2.
  apply wp_putc_sync; [done|]. intros s3 H3. apply HQ. apply (echoed_trans [8] [32; 8] s s1); [done|]. by apply (echoed_trans [32] [8] s1 s2).
Qed.

Lemma wp_echo fuel c (Q : unit -> kstate -> Prop) s :
  responsive fuel s -> 0 <= c < 256 -> (forall s', echoed [c] s s' -> Q tt s') -> wp (consputc fuel c) Q s.
Proof.
  intros Hr Hc HQ. unfold consputc. destruct (Z.eqb_spec c BACKSPACE) as [->|_]; [unfold BACKSPACE in Hc; lia|].
  apply wp_putc_sync; [done|]. by rewrite wrap_small by lia.
Qed.

(** Waking threads while locks of other kinds are held. *)
Lemma wp_wakeup ch (Q : unit -> kstate -> Prop) s :
  (exists tq, sched_inv s tq ∅) -> Forall (fun k => k = L_cons \/ k = L_uart) (held (km s)) ->
  (forall s', (exists tq, sched_inv s' tq ∅) -> km s' = km s -> procs s' = procs s -> cons s' = cons s -> uart s' = uart s -> panicked s' = panicked s -> Q tt s') ->
  wp (thread_wakeup_chan ch) Q s.
Proof.
  intros (tq & Hi) Hh HQ. rewrite Forall_forall in Hh. eapply wp_mono; [apply (wp_thread_wakeup_chan ch tq s Hi)|].
  - intros st He%Hh. by destruct He.
  - intros t He%Hh. by destruct He.
  - cbn beta. intros [] s' [Hi' _ (Hk & Hp & Hr & _)]. apply HQ; [by eexists|done|done|..].
    all: first [by apply (f_equal cons) in Hr | by apply (f_equal uart) in Hr | by apply (f_equal panicked) in Hr].
Qed.

(** ** The interrupt handler of the console *)

(** What is sent back for the byte [x]. *)
Definition echo (x : Z) (l : lines) : list Z :=
  if x =? CTRL_P then []
  else if x =? CTRL_U then mjoin (replicate (length (editing l)) rubout)
  else if (x =? CTRL_H) || (x =? DEL) then (if decide (editing l = []) then [] else rubout)
  else if (x =? 0) || (room l =? 0) then []
  else [if x =? CR then NL else x].

Record tty (fuel : nat) (lk : list lockid) (l : lines) (s : kstate) : Prop := {
  ty_sched : exists tq, sched_inv s tq ∅;
  ty_held : held (km s) = lk;
  ty_dev : responsive fuel s;
  ty_cons : cons_is (cons s) l;
}.

(** Of the rest of the state only the output changes. *)
Definition output (out : list Z) (s s' : kstate) : Prop :=
  exists m, uart s' = set_thr (thr (uart s) ++ out) (set_lsr_reads m (uart s)).

Lemma output_trans o1 o2 s1 s2 s3 : output o1 s1 s2 -> output o2 s2 s3 -> output (o1 ++ o2) s1 s3.
Proof. intros [m1 H1] [m2 H2]. exists m2. rewrite H2, H1. cbn [thr set_thr set_lsr_reads]. by rewrite app_assoc. Qed.

Lemma output_refl s s' : uart s' = uart s -> output [] s s'.
Proof. intros H. exists (lsr_reads (uart s)). rewrite H, app_nil_r. by destruct (uart s). Qed.

Lemma echoed_output o s s' : echoed o s s' -> output o s s'.
Proof. intros [m ->]. by exists m. Qed.

Lemma tty_echoed fuel lk l o s s' : echoed o s s' -> tty fuel lk l s -> tty fuel lk l s'.
Proof. intros He [(tq & Hs) Hh Hd Hc]. pose proof (echoed_responsive _ _ _ _ He Hd). destruct He as [m ->]. split; try done. exists tq. by eapply sched_inv_same. Qed.

Lemma tty_cons fuel lk l l' c s : tty fuel lk l s -> cons_is c l' -> tty fuel lk l' (set_cons c s).
Proof. intros [(tq & Hs) Hh Hd _] Hc. split; try done. exists tq. by eapply sched_inv_same. Qed.

Lemma wp_kill_line fuel R E s :
  tty fuel [L_cons] (Lines R E) s ->
  wp (kill_line fuel (length E)) (fun _ s' => tty fuel [L_cons] (Lines R []) s' /\ output (mjoin (replicate (length E) rubout)) s s') s.
Proof.
  revert s. induction E as [|x E IH] using rev_ind; intros s Ht.
  { apply wp_ret. split; [done|]. by apply output_refl. }
  rewrite length_app, Nat.add_comm. cbn [length Nat.add kill_line replicate mjoin]. apply wp_bind, wp_gets. pose proof Ht as [Hs Hh Hd Hc].
  rewrite (cons_empty _ _ Hc). cbn [editing]. destruct (Z.eqb_spec (Z.of_nat (length (E ++ [x]))) 0) as [Hz|_]; [rewrite length_app in Hz; simpl in Hz; lia|].
  destruct (cons_last _ _ _ _ Hc) as (_ & Hb & Hn & Hc'). rewrite Hb. apply Z.eqb_neq in Hn. rewrite Hn. cbn [negb andb].
  apply wp_bind, wp_modify, wp_bind. set (s1 := set_cons _ s). assert (Ht1 : tty fuel [L_cons] (Lines R E) s1) by (by eapply tty_cons).
  apply wp_rubout; [done|]. intros s2 He2. eapply wp_mono; [apply IH; by eapply tty_echoed|]. cbn beta. intros _ s3 [Ht3 Ho3]. split; [done|].
  apply (output_trans rubout _ s s2); [by apply (echoed_output rubout s1)|done].
Qed.

Section Intr.
(** procdump prints, and changes nothing else. *)
Context (procdump : E kstate unit).
Hypothesis procdump_prints : forall fuel lk l s,
  tty fuel lk l s -> wp procdump (fun _ s' => tty fuel lk l s' /\ exists out, output out s s') s.

Lemma room_full l : 0 <= room l -> (INPUT_BUF_SIZE - room l <? INPUT_BUF_SIZE) = negb (room l =? 0).
Proof. intros H. destruct (Z.eqb_spec (room l) 0); [apply Z.ltb_ge|apply Z.ltb_lt]; lia. Qed.

Lemma tty_unlock fuel l s : tty fuel [L_cons] l s -> tty fuel [] l (set_km (set_held [] (km s)) s).
Proof. intros [(tq & Hs) Hh Hd Hc]. split; try done. exists tq. by apply sched_inv_km. Qed.

(** A byte that is neither a control character of the editor nor lost. *)
Lemma wp_typed fuel l x s :
  0 <= x < 256 -> x <> 0 -> 0 < room l -> tty fuel [L_cons] l s ->
  wp (consputc fuel x;; upd_cons (cons_put x);; c ← gets cons;
      if (x =? NL) || (x =? CTRL_D) || (u32 (cons_e c - cons_r c) =? INPUT_BUF_SIZE) then
        upd_cons (set_cons_w (cons_e c));; thread_wakeup_chan ChCons
      else mret tt) (fun _ s' =>
    tty fuel [L_cons] (if (x =? NL) || (x =? CTRL_D) || (room l =? 1) then Lines (ready l ++ editing l ++ [x]) [] else Lines (ready l) (editing l ++ [x])) s' /\
    output [x] s s') s.
Proof.
  intros Hx H0 Hroom Ht. apply wp_bind, wp_echo; [apply Ht|done|]. intros s1 He1. pose proof (tty_echoed _ _ _ _ _ _ He1 Ht) as Ht1.
  pose proof Ht1 as [Hs1 Hh1 Hd1 Hc1]. apply wp_bind, wp_modify, wp_bind, wp_gets. cbn [cons set_cons].
  assert (Hfull : (u32 (cons_e (cons_put x (cons s1)) - cons_r (cons s1)) =? INPUT_BUF_SIZE) = (room l =? 1)).
  { destruct Hc1 as [Hr _ He Hsz _ _ _]. unfold room, INPUT_BUF_SIZE in *. cbn [cons_put cons_e set_cons_e]. rewrite He, wrap_shift.
    rewrite <- (wrap_small 32 (cons_r (cons s1))) at 2 by done. rewrite <- (Z.add_0_r (cons_r (cons s1))) at 2. rewrite <- Z.add_assoc, wrap_diff by lia.
    match goal with |- (?a =? ?b) = (?c =? ?d) => destruct (Z.eqb_spec a b), (Z.eqb_spec c d); try done; lia end. }
  change (cons_r (cons_put x (cons s1))) with (cons_r (cons s1)). rewrite Hfull.
  destruct ((x =? NL) || (x =? CTRL_D) || (room l =? 1)) eqn:Hcm.
  - apply wp_bind, wp_modify. set (s2 := set_cons _ _).
    assert (Ht2 : tty fuel [L_cons] (Lines (ready l ++ editing l ++ [x]) []) s2) by exact (tty_cons _ _ _ _ _ _ Ht1 (cons_commit_is _ _ _ Hc1 Hroom Hx)).
    apply wp_wakeup; [apply Ht2|rewrite (ty_held _ _ _ _ Ht2); apply Forall_singleton; by left|].
    intros s3 Hs3 Hk3 _ Hc3 Hu3 Hp3. split; [|apply (output_trans [x] [] s s1); [by apply echoed_output|by apply output_refl]].
    destruct Ht2 as [_ Hh2 [Hp2 Hd2] Hc2]. split; [done|by rewrite Hk3|split; [by rewrite Hp3|by rewrite Hu3]|by rewrite Hc3].
  - apply wp_ret. split; [|apply (output_trans [x] [] s s1); [by apply echoed_output|by apply output_refl]].
    eapply tty_cons; [exact Ht1|]. apply cons_put_is; try done. intros ->. done.
Qed.

Lemma wp_consoleintr fuel l x s :
  0 <= x < 256 -> tty fuel [] l s ->
  wp (consoleintr procdump fuel x) (fun _ s' => tty fuel [] (type_byte x l) s' /\ exists out, output out s s' /\ (x <> CTRL_P -> out = echo x l)) s.
Proof.
  intros Hx Ht. unfold consoleintr. apply wp_bind, wp_kacquire; [rewrite (ty_held _ _ _ _ Ht); apply not_elem_of_nil|]. rewrite (ty_held _ _ _ _ Ht).
  set (s1 := set_km _ s). assert (Ht1 : tty fuel [L_cons] l s1) by (destruct Ht as [(tq & Hs) _ Hd Hc]; split; try done; exists tq; by apply sched_inv_km).
  apply wp_bind. eapply (wp_mono _ (fun _ s' => tty fuel [L_cons] (type_byte x l) s' /\ exists out, output out s s' /\ (x <> CTRL_P -> out = echo x l))).
  2: { intros _ s2 [Ht2 Ho]. eapply wp_krelease; [apply Ht2|apply not_elem_of_nil|]. split; [by apply tty_unlock|done]. }
  pose proof (cn_size _ _ (ty_cons _ _ _ _ Ht1)) as Hsz. unfold type_byte, echo.
  destruct (Z.eqb_spec x CTRL_P) as [->|HP].
  { eapply wp_mono; [exact (procdump_prints _ _ _ _ Ht1)|]. cbn beta. intros _ s2 [Ht2 [out Ho]]. split; [done|]. exists out. split; [exact Ho|done]. }
  destruct (Z.eqb_spec x CTRL_U) as [->|HU].
  { apply wp_bind, wp_gets. pose proof (ty_cons _ _ _ _ Ht1) as Hc1.
    replace (Z.to_nat _) with (length (editing l)).
    2: { destruct Hc1 as [_ Hw He _ _ _ _]. unfold room, INPUT_BUF_SIZE in Hsz. rewrite Hw, He, wrap_diff by lia. lia. }
    eapply wp_mono; [apply (wp_kill_line fuel (ready l) (editing l)); by destruct l|]. cbn beta. intros _ s2 [Ht2 Ho2]. split; [done|]. by eexists. }
  destruct ((x =? CTRL_H) || (x =? DEL)) eqn:HB.
  { apply wp_bind, wp_gets. rewrite (cons_empty _ _ (ty_cons _ _ _ _ Ht1)). destruct l as [R E]. cbn [editing ready].
    destruct E as [|y E _] using rev_ind.
    - change (Z.of_nat (length (@nil Z)) =? 0) with true. cbn [negb]. apply wp_ret. split; [done|]. exists []. split; [by apply output_refl|]. by rewrite decide_True.
    - destruct (Z.eqb_spec (Z.of_nat (length (E ++ [y]))) 0) as [Hz|_]; [rewrite length_app in Hz; simpl in Hz; lia|]. cbn [negb].
      destruct (cons_last _ _ _ _ (ty_cons _ _ _ _ Ht1)) as (_ & _ & _ & Hc2). apply wp_bind, wp_modify, wp_rubout; [apply Ht1|]. intros s2 He2.
      replace (pred (length (E ++ [y]))) with (length E) by (rewrite length_app; simpl; lia). rewrite take_app_length, decide_False by (by destruct E). split; [|exists rubout; split; [exact (echoed_output _ _ _ He2)|done]].
      eapply tty_echoed; [exact He2|]. by eapply tty_cons. }
  apply wp_bind, wp_gets. rewrite (cons_used _ _ (ty_cons _ _ _ _ Ht1)), (room_full _ Hsz), <- negb_orb.
  destruct (Z.eqb_spec x 0) as [H0|H0]; cbn [negb orb]; [apply wp_ret; split; [done|]; exists []; split; [by apply output_refl|done]|].
  destruct (Z.eqb_spec (room l) 0) as [Hr0|Hr0]; cbn [negb]; [apply wp_ret; split; [done|]; exists []; split; [by apply output_refl|done]|].
  cbn zeta. set (y := if x =? CR then NL else x).
  assert (Hy : 0 <= y < 256 /\ y <> 0) by (unfold y, CR, NL; destruct (Z.eqb_spec x 13); lia).
  eapply wp_mono; [apply (wp_typed fuel l y s1); [apply Hy|apply Hy|lia|exact Ht1]|]. cbn beta. intros _ s2 [Ht2 Ho2]. split; [exact Ht2|]. exists [y]. split; [exact Ho2|done].
Qed.

(** ** The bytes that have arrived *)

Definition echo_all (bs : list Z) (l : lines) : list Z :=
  (fix go l bs := match bs with [] => [] | x :: bs => echo x l ++ go (type_byte x l) bs end) l bs.

Lemma wp_uartintr_loop fuel bs : forall l s,
  Forall (fun x => 0 <= x < 256) bs -> rhr (uart s) = bs -> tty fuel [] l s ->
  wp (uartintr_loop procdump fuel (length bs)) (fun _ s' => tty fuel [] (foldl (fun l x => type_byte x l) l bs) s' /\
    exists m out, uart s' = set_rhr [] (set_thr (thr (uart s) ++ out) (set_lsr_reads m (uart s))) /\ (CTRL_P ∉ bs -> out = echo_all bs l)) s.
Proof.
  induction bs as [|x bs IH]; intros l s Hb Hr Ht.
  - cbn [length uartintr_loop]. unfold uartgetc. apply wp_bind, wp_bind, wp_gets. rewrite Hr. apply wp_ret. change (-1 =? -1) with true. cbn match. apply wp_ret. split; [done|].
    exists (lsr_reads (uart s)), []. split; [|done]. rewrite app_nil_r. destruct (uart s). cbn in Hr. by subst.
  - apply Forall_cons in Hb as [Hx Hb]. cbn [length uartintr_loop]. unfold uartgetc. apply wp_bind, wp_bind, wp_gets. rewrite Hr. apply wp_bind, wp_modify, wp_ret.
    rewrite wrap_small by lia. destruct (Z.eqb_spec x (-1)) as [|_]; [lia|]. apply wp_bind. set (s1 := set_uart _ s).
    assert (Ht1 : tty fuel [] l s1) by (destruct Ht as [(tq & Hs) Hh Hd Hc]; split; try done; exists tq; by eapply sched_inv_same).
    eapply wp_mono; [exact (wp_consoleintr fuel l x s1 Hx Ht1)|]. cbn beta. intros _ s2 (Ht2 & o1 & [m1 Ho1] & He1).
    eapply wp_mono; [apply (IH (type_byte x l) s2 Hb); [by rewrite Ho1|done]|]. cbn beta. intros _ s3 (Ht3 & m2 & o2 & Hu3 & He2). split; [done|].
    exists m2, (o1 ++ o2). split.
    + rewrite Hu3, Ho1. unfold s1. cbn [uart set_uart thr set_thr set_rhr set_lsr_reads]. rewrite app_assoc. by destruct (uart s).
    + intros [Hne Hn]%not_elem_of_cons. rewrite (He1 (not_eq_sym Hne)), (He2 Hn). done.
Qed.
End Intr.

(** ** The transmit buffer *)

Record tx_is (u : uartdev) (q : list Z) : Prop := {
  tx_first : 0 <= tx_r u < 2 ^ 64;
  tx_next : tx_w u = u64 (tx_r u + Z.of_nat (length q));
  tx_size : Z.of_nat (length q) <= UART_TX_BUF_SIZE;
  tx_data : holds UART_TX_BUF_SIZE (tx_buf u) (tx_r u) q;
  tx_bytes : Forall (fun x => 0 <= x < 256) q;
}.

(** What uartstart leaves alone. *)
Record sent (s s' : kstate) : Prop := {
  se_sched : exists tq, sched_inv s' tq ∅;
  se_km : km s' = km s;
  se_procs : procs s' = procs s;
  se_cons : cons s' = cons s;
  se_panic : panicked s' = panicked s;
  se_rhr : rhr (uart s') = rhr (uart s);
  se_idle : lsr_idle (uart s') = lsr_idle (uart s);
}.

Lemma sent_trans s1 s2 s3 : sent s1 s2 -> sent s2 s3 -> sent s1 s3.
Proof. intros [H1 H2 H3 H4 H5 H6 H7] [G1 G2 G3 G4 G5 G6 G7]. split; [done|congruence..]. Qed.

Lemma sent_uart s u : (exists tq, sched_inv s tq ∅) -> rhr u = rhr (uart s) -> lsr_idle u = lsr_idle (uart s) -> sent s (set_uart u s).
Proof. intros (tq & Hs) Hr Hi. split; try done. exists tq. by eapply sched_inv_same. Qed.

Lemma tx_take u x q : tx_is u (x :: q) -> tx_buf u (tx_r u mod UART_TX_BUF_SIZE) = x /\ tx_is (set_tx_r (u64 (tx_r u + 1)) u) q.
Proof.
  intros [H1 H2 H3 H4 H5]. apply holds_next in H4 as [Hx H4]. apply Forall_cons in H5 as [_ H5]. split; [done|].
  split; cbn [tx_r tx_w tx_buf set_tx_r]; try done.
  - by apply wrap_range.
  - rewrite H2, wrap_shift. f_equal. cbn [length]. lia.
  - cbn [length] in H3. lia.
  - eapply holds_mod; [done| |exact H4]. change UART_TX_BUF_SIZE with (2 ^ 5). by rewrite wrap_mod by lia.
Qed.

Lemma wp_uartstart_loop q : forall s,
  (exists tq, sched_inv s tq ∅) -> Forall (fun k => k = L_cons \/ k = L_uart) (held (km s)) -> tx_is (uart s) q ->
  wp (uartstart_loop (length q)) (fun _ s' => sent s s' /\ exists j,
    (j <= length q)%nat /\ ((forall n, lsr_idle (uart s) n = true) -> j = length q) /\
    tx_is (uart s') (drop j q) /\ thr (uart s') = thr (uart s) ++ take j q) s.
Proof.
  induction q as [|x q IH]; intros s Hs Hh Hq; cbn [length uartstart_loop].
  { apply wp_ret. split; [by split|]. exists 0%nat. cbn [drop take length]. by rewrite app_nil_r. }
  unfold tx_idle. apply wp_bind, wp_bind, wp_gets, wp_bind, wp_modify, wp_ret. destruct (lsr_idle (uart s) (lsr_reads (uart s))) eqn:Hid; cbn [negb].
  2: { apply wp_ret. split; [by apply sent_uart|]. exists 0%nat. split_and!; [lia|intros Ha; by rewrite Ha in Hid|by destruct Hq|]. cbn [uart set_uart thr set_lsr_reads take]. by rewrite app_nil_r. }
  destruct (tx_take _ _ _ Hq) as [Hx Hq']. apply wp_bind, wp_gets, wp_bind, wp_modify, wp_bind. cbn [uart set_uart tx_r tx_buf set_lsr_reads]. rewrite Hx.
  set (s1 := set_uart _ _). assert (Hs1 : sent s s1) by exact (sent_uart s (uart s1) Hs eq_refl eq_refl).
  apply wp_wakeup; [apply Hs1|by rewrite (se_km _ _ Hs1)|]. intros s2 Hs2 Hk2 Hp2 Hc2 Hu2 Hpk2.
  assert (Hss : sent s s2). { eapply sent_trans; [exact Hs1|]. split; try done; by rewrite Hu2. }
  apply wp_bind, wp_modify. set (s3 := set_uart _ s2). assert (Hs3 : sent s s3) by (eapply sent_trans; [exact Hss|]; by apply sent_uart).
  eapply wp_mono; [apply (IH s3); [apply Hs3|by rewrite (se_km _ _ Hs3)|]|].
  - unfold s3. cbn [uart set_uart]. rewrite Hu2. unfold s1. cbn [uart set_uart]. by destruct Hq'.
  - cbn beta. intros _ s' (Hs' & j & Hj & Hall & Hq2 & Ht). split; [by eapply sent_trans|]. exists (S j). cbn [drop take]. split_and!; [lia| |done|].
    + intros Ha. f_equal. apply Hall. by rewrite (se_idle _ _ Hs3).
    + rewrite Ht. unfold s3. cbn [uart set_uart thr set_thr]. rewrite Hu2. unfold s1. cbn [uart set_uart thr set_tx_r set_lsr_reads].
      rewrite <- app_assoc. cbn [app]. pose proof (Forall_inv (tx_bytes _ _ Hq)) as Hbx. cbn beta in Hbx. by rewrite wrap_small by lia.
Qed.

Lemma wp_uartstart q s :
  (exists tq, sched_inv s tq ∅) -> Forall (fun k => k = L_cons \/ k = L_uart) (held (km s)) -> tx_is (uart s) q ->
  wp uartstart (fun _ s' => sent s s' /\ exists j,
    (j <= length q)%nat /\ ((forall n, lsr_idle (uart s) n = true) -> j = length q) /\
    tx_is (uart s') (drop j q) /\ thr (uart s') = thr (uart s) ++ take j q) s.
Proof.
  intros Hs Hh Hq. unfold uartstart. apply wp_bind, wp_gets. replace (Z.to_nat _) with (length q); [by apply wp_uartstart_loop|].
  destruct Hq as [H1 H2 H3 _ _]. unfold UART_TX_BUF_SIZE in H3. rewrite H2. rewrite <- (wrap_small 64 (tx_r (uart s))) at 2 by done.
  rewrite <- (Z.add_0_r (tx_r (uart s))) at 2. rewrite wrap_diff by lia. lia.
Qed.

(** ** Properties *)


(** ** Reading *)

Lemma cons_take c x R E : cons_is c (Lines (x :: R) E) ->
  cbuf c (cons_r c mod INPUT_BUF_SIZE) = x /\ 0 <= x < 256 /\ cons_is (set_cons_r (u32 (cons_r c + 1)) c) (Lines R E).
Proof.
  intros [H1 H2 H3 H4 H5 H6 H7]. cbn [ready editing app] in *. apply holds_next in H5 as [Hx H5]. apply Forall_cons in H6 as [Hb H6].
  split_and!; [done|apply Hb|apply Hb|]. split; cbn [cons_r cons_w cons_e cbuf set_cons_r ready editing]; try done.
  - by apply wrap_range.
  - rewrite H2, wrap_shift. f_equal. cbn [length]. lia.
  - rewrite H3, wrap_shift. f_equal. cbn [length]. lia.
  - unfold room in *. cbn [ready editing length] in *. lia.
  - eapply holds_mod; [done| |exact H5]. change INPUT_BUF_SIZE with (2 ^ 7). by rewrite wrap_mod by lia.
Qed.

(** Only the memory and the read index change. *)
Definition read_frame (s s' : kstate) : Prop := set_km (km s) (set_cons (cons s) s') = s /\ held (km s') = held (km s).

Lemma read_frame_refl s : read_frame s s.
Proof. split; [by destruct s|done]. Qed.

Lemma read_line_length k n l out rest : read_line k n l = Some (out, rest) -> (length out <= n)%nat.
Proof.
  revert k l out. induction n as [|n IH]; intros k [|x l] out; cbn [read_line]; [by intros [= <- <-]|by intros [= <- <-]|done|].
  destruct (x =? CTRL_D); [intros [= <- <-]; simpl; lia|]. destruct (x =? NL); [intros [= <- <-]; simpl; lia|].
  destruct (read_line (S k) n l) as [[o r]|] eqn:E; [|done]. intros [= <- <-]. apply IH in E. simpl. lia.
Qed.

Section Read.
Context (swtch : nat -> E kstate unit) (ch : Z) {u : bool} {addr n : Z} {s0 : kstate} (K : ByteSink ch u addr n s0).
Hypothesis places : forall i, 0 <= i < n -> snk_loc K i <> None.

Lemma wp_wait_ready fuel R E (Q : bool -> kstate -> Prop) s :
  cons_is (cons s) (Lines R E) -> R <> [] -> Q true s -> wp (consoleread_wait swtch fuel) Q s.
Proof.
  intros Hc Hne HQ. destruct fuel; cbn [consoleread_wait]; apply wp_bind, wp_gets; rewrite (cons_none _ _ Hc); cbn [ready];
    (destruct R as [|x R]; [done|]); by apply wp_ret.
Qed.

Lemma wp_consoleread_loop fuel k : forall i R E out rest s,
  sink_view K s -> cons_is (cons s) (Lines R E) -> read_line i k R = Some (out, rest) -> Z.of_nat i + Z.of_nat k = n ->
  wp (consoleread_loop swtch ch fuel k u (u64 (addr + Z.of_nat i)) n) (fun r s' =>
    r = Some (Z.of_nat k - Z.of_nat (length out)) /\ cons_is (cons s') (Lines rest E) /\ delivered K (Z.of_nat i) out (mmem (km s')) /\
    (forall m l, 0 <= m < Z.of_nat i -> snk_loc K m = Some l -> mmem (km s') l = mmem (km s) l) /\ read_frame s s') s.
Proof.
  induction k as [|k IH]; intros i R E out rest s Hv Hc Hrd Hik; cbn [consoleread_loop].
  { cbn [read_line] in Hrd. injection Hrd as <- <-. apply wp_ret. split_and!; [done|done|done|done|apply read_frame_refl]. }
  destruct R as [|x R]; [done|]. cbn [read_line] in Hrd. apply wp_bind. eapply wp_wait_ready; [exact Hc|done|]. cbn [negb].
  apply wp_bind, wp_gets, wp_bind, wp_modify. destruct (cons_take _ _ _ _ Hc) as (Hx & Hb & Hc'). rewrite Hx.
  set (s1 := set_cons _ s). assert (Hf1 : read_frame s s1) by (by destruct s).
  destruct (Z.eqb_spec x CTRL_D) as [Hd|Hd].
  { injection Hrd as <- <-. apply wp_bind. destruct (decide (i = 0%nat)) as [->|Hi0].
    - destruct (Z.ltb_spec (Z.of_nat (S k)) n) as [|_]; [lia|]. do 2 apply wp_ret. split_and!; [f_equal; simpl; lia|done|done|done|done].
    - destruct (Z.ltb_spec (Z.of_nat (S k)) n) as [_|]; [|lia]. apply wp_modify, wp_ret. split_and!; [f_equal; simpl; lia| |done|done|by destruct s].
      cbn [cons set_cons s1 cons_r set_cons_r]. replace (u32 (u32 (cons_r (cons s) + 1) - 1)) with (cons_r (cons s)); [by destruct (cons s)|].
      rewrite <- Z.add_opp_r, wrap_shift. symmetry. rewrite wrap_small; [lia|]. destruct Hc. lia. }
  destruct Hv as (Hcu & Htc & Hpr & Hby & Hm). apply wp_bind, wp_zoom, wp_modify. set (m1 := mset (mmem (km s)) ch x).
  assert (Hm1 : m1 ch = x) by (unfold m1; rewrite mset_eq; apply wrap_small; lia).
  assert (Hm1o : forall a, a <> ch -> m1 a = mmem (km s) a) by (intros; unfold m1; by apply mset_ne).
  apply wp_bind. eapply wp_mono; [apply (snk_write (ByteSink := K) _ (Z.of_nat i))|]; simpl; try done; try lia.
  { by apply mset_ok. }
  { intros a Ha Hj. fold m1. rewrite Hm1o by done. by apply Hm. }
  cbn beta. fold m1. intros y s2 (Hs2 & Hh2 & Hb2 & Hy). destruct (snk_loc K (Z.of_nat i)) as [l|] eqn:Hl; [|by destruct (places (Z.of_nat i)); [lia|]].
  destruct Hy as (-> & Hxl & Hxo). cbn [Z.eqb].
  assert (Hlch : l <> ch) by (intros ->; by apply (snk_apart (ByteSink := K) (Z.of_nat i)); [lia|]).
  assert (Hf2 : read_frame s s2).
  { split; [|done]. clear -Hs2. destruct s, s2. unfold set_km, set_cons in *. cbn in *. injection Hs2. intros. subst. reflexivity. }
  assert (Hc2 : cons_is (cons s2) (Lines R E)) by (apply (f_equal cons) in Hs2; cbn in Hs2; rewrite Hs2; exact Hc').
  assert (Hkeep2 : forall m l', 0 <= m < Z.of_nat i -> snk_loc K m = Some l' -> mmem (km s2) l' = mmem (km s) l').
  { intros m l' Hmi Hl'. rewrite Hxo; [apply Hm1o|]; intros ->.
    - by apply (snk_apart (ByteSink := K) m); [lia|].
    - assert (m = Z.of_nat i) by (eapply (snk_inj (ByteSink := K)); [lia|lia|done|done]). lia. }
  assert (Hone : mmem (km s2) l = x) by (by rewrite Hxl).
  destruct (Z.eqb_spec x NL) as [Hn|Hn].
  { injection Hrd as <- <-. apply wp_ret. split_and!; [f_equal; simpl; lia|done| |done|done].
    intros [|q] b Hq; [|done]. injection Hq as <-. exists l. by rewrite Z.add_0_r. }
  destruct (read_line (S i) k R) as [[out' rest']|] eqn:Hrd'; [|done]. injection Hrd as <- <-.
  replace (u64 (u64 (addr + Z.of_nat i) + 1)) with (u64 (addr + Z.of_nat (S i))) by (rewrite wrap_shift; f_equal; lia).
  eapply wp_mono; [apply (IH (S i) R E out' rest' s2)|]; try done; try lia.
  { split_and!; [by apply (f_equal cur) in Hs2; simpl in Hs2; congruence|by apply (f_equal tcbs) in Hs2; simpl in Hs2; congruence|by apply (f_equal procs) in Hs2; simpl in Hs2; congruence|done|].
    intros a Ha Hj. rewrite Hxo by (intros ->; by apply (Hj (Z.of_nat i)); [lia|]). rewrite Hm1o by done. by apply Hm. }
  cbn beta. intros r s3 (-> & Hc3 & Hdel & Hkeep & Hf3). split_and!; [f_equal; simpl; lia|done| | |].
  - intros [|q] b Hq; simpl in Hq.
    + injection Hq as <-. exists l. rewrite Z.add_0_r. split; [done|]. rewrite (Hkeep (Z.of_nat i) l) by (done || lia). done.
    + destruct (Hdel q b Hq) as (l' & G1 & G2). exists l'. split; [|done]. rewrite <- G1. f_equal. lia.
  - intros m l' Hmi Hl'. rewrite (Hkeep m l') by (done || lia). by apply (Hkeep2 m).
  - destruct Hf2 as [Hf2 Hh2'], Hf3 as [Hf3 Hh3]. split; [|congruence]. clear -Hf2 Hf3. destruct s, s2, s3. unfold set_km, set_cons in *. cbn in *. injection Hf2. injection Hf3. intros. subst. reflexivity.
Qed.
End Read.

(** a read of [n] bytes from the console, when the lines that are ready hold
    enough, delivers the bytes up to and including the first newline, or [n]
    of them if that comes first, each at its place in the destination, and
    leaves the rest to later reads; ^D ends the read and is taken only by a
    read that has no byte before it, which then returns 0. *)
Theorem consoleread_takes_line (swtch : nat -> E kstate unit) (ch addr n : Z) (u : bool) (fuel : nat) (R E out rest : list Z)
    (tq : thread_state -> list nat) (s : kstate) (K : ByteSink ch u addr n s) :
  sched_inv s tq ∅ -> held (km s) = [] -> bytes_ok (mmem (km s)) -> 0 < n < 2 ^ 31 -> 0 <= addr < 2 ^ 64 ->
  (forall i, 0 <= i < n -> snk_loc K i <> None) ->
  cons_is (cons s) (Lines R E) -> read_line 0 (Z.to_nat n) R = Some (out, rest) ->
  wp (consoleread swtch ch fuel u addr n) (fun j s' => j = Z.of_nat (length out) /\
    cons_is (cons s') (Lines rest E) /\ delivered K 0 out (mmem (km s')) /\ held (km s') = [] /\ sched_inv s' tq ∅) s.
Proof.
  intros Hi Hh Hby Hn Ha Hpl Hc Hrd. unfold consoleread. apply wp_bind, wp_kacquire; [rewrite Hh; apply not_elem_of_nil|]. rewrite Hh. set (s1 := set_km _ s).
  apply wp_bind. replace (u32 n) with n by (rewrite wrap_small; lia). replace addr with (u64 (addr + Z.of_nat 0)) at 1 by (rewrite Z.add_0_r; by apply wrap_small).
  eapply wp_mono; [apply (wp_consoleread_loop swtch ch K Hpl fuel (Z.to_nat n) 0 R E out rest s1)|]; try done; try lia.
  cbn beta. intros r s2 (-> & Hc2 & Hdel & _ & [Hf2 Hh2]). apply wp_bind. eapply wp_krelease; [by rewrite Hh2|apply not_elem_of_nil|]. apply wp_ret.
  split_and!; try done.
  - destruct (Z.ltb_spec 0 n); [|lia]. rewrite sint_small; [lia|lia|]. assert (Hl := read_line_length 0 (Z.to_nat n) R out rest Hrd). lia.
  - apply sched_inv_km. apply (f_equal (fun x => (lh x, queues x, tcbs x))) in Hf2. cbn in Hf2. injection Hf2 as H1 H2 H3.
    eapply sched_inv_same; [exact Hi|done|done|]. intros t. by rewrite H3.
Qed.

(** ** Writing when the transmit buffer is full *)

(** thread_sleep while a second lock is held. *)
Lemma sleep_two_locks swtch t ch lk other tq s :
  sched_inv s tq ∅ -> is_thread t -> cur s = Some t -> held (km s) = [lk; other] -> lk <> other ->
  (forall t', lk <> L_tcb t' /\ other <> L_tcb t') -> (forall q, lk <> L_queue q /\ other <> L_queue q) ->
  panics (thread_sleep swtch ch lk None) "sched t locks" s.
Proof.
  intros Hi Ht Hc Hh Hne Htc Hqu. destruct (Htc t) as [Hlt Hot]. unfold thread_sleep.
  eapply (panics_after _ _ _ (fun a s' => a = t /\ s' = s)); [unfold mythread; apply wp_bind, wp_gets; rewrite Hc; by eapply wp_deref|]. intros a s' [-> ->].
  eapply (panics_after _ _ _ (fun _ s' => s' = set_km (set_held [L_tcb t; lk; other] (km s)) s)).
  { apply wp_kacquire; [rewrite Hh; set_solver|by rewrite Hh]. }
  intros _ s' ->. set (s1 := set_km _ s).
  eapply (panics_after _ _ _ (fun _ s' => s' = set_km (set_held [L_tcb t; other] (km s)) s)).
  { unfold release, on_mach. apply wp_zoom. unfold wp, KTypes.release, release_held. cbn [held set_held km set_km s1]. rewrite bool_decide_true by set_solver.
    cbn. rewrite (decide_True (P := L_tcb t <> lk)) by congruence. rewrite (decide_False (P := lk <> lk)) by tauto. by rewrite (decide_True (P := other <> lk)) by congruence. }
  intros _ s' ->. set (s2 := set_km _ s).
  eapply (panics_after _ _ _ (fun _ s' => s' = set_tcbs (<[t := set_chan ch (tcbs s2 t)]> (tcbs s2)) s2)); [by apply wp_modify|]. intros _ s' ->.
  eapply (panics_after _ _ _ (fun _ s' => s' = set_tcbs (<[t := set_chan ch (tcbs s2 t)]> (tcbs s2)) s2)); [by apply wp_ret|]. intros _ s' ->. set (s3 := set_tcbs _ s2).
  assert (Hi3 : sched_inv s3 tq ∅).
  { eapply sched_inv_same; [exact Hi|done..|]. intros t'. unfold s3. simpl.
    destruct (decide (t' = t)) as [->|]; [by rewrite fn_lookup_insert|by rewrite fn_lookup_insert_ne]. }
  eapply (panics_after _ _ _ (fun _ s' => held (km s') = [L_tcb t; other] /\ cur s' = Some t)).
  { eapply (wp_tcb_q_change_state t TCB_SLEEPING tq ∅); [exact Hi3|done|done| |].
    - intros st. cbn [km s3 set_tcbs s2 set_km held set_held]. destruct (Hqu (TQ st)). set_solver.
    - intros s4 _ _ (Hk & _ & Hr & _). split; [by rewrite Hk|]. apply (f_equal cur) in Hr. simpl in Hr. congruence. }
  intros _ s4 [Hh4 Hc4]. apply panics_bind. unfold thread_sched.
  eapply (panics_after _ _ _ (fun a s' => a = t /\ s' = s4)); [unfold mythread; apply wp_bind, wp_gets; rewrite Hc4; by eapply wp_deref|]. intros a s' [-> ->].
  eapply (panics_after _ _ _ (fun a s' => a = true /\ s' = s4)); [unfold holding; apply wp_gets; rewrite Hh4, bool_decide_true by set_solver; done|]. intros a s' [-> ->].
  eapply (panics_after _ _ _ (fun a s' => s' = s4)); [by apply wp_panic_if|]. intros [] s' ->.
  eapply (panics_after _ _ _ (fun a s' => a = 2%nat /\ s' = s4)); [apply wp_gets; by rewrite Hh4|]. intros a s' [-> ->].
  apply panics_bind. by exists s4.
Qed.

(** consolewrite keeps the lock of the console while it puts bytes in the
    transmit buffer of the UART; when that buffer is full it goes to sleep with
    the lock held, and the scheduler panics. *)
Theorem consolewrite_full_panics (swtch : nat -> E kstate unit) (ch src n : Z) (u : bool) (fuel : nat) (t : nat) (q : list Z)
    (tq : thread_state -> list nat) (s : kstate) (B : ByteSource ch u src n s) :
  sched_inv s tq ∅ -> is_thread t -> cur s = Some t -> held (km s) = [] -> panicked s = 0 -> bytes_ok (mmem (km s)) -> 0 < n ->
  src_byte B 0 <> None -> tx_is (uart s) q -> Z.of_nat (length q) = UART_TX_BUF_SIZE ->
  panics (consolewrite swtch ch (S fuel) u src n) "sched t locks" s.
Proof.
  intros Hi Ht Hc Hh Hp Hb Hn Hsrc Hq Hlen. unfold consolewrite.
  eapply (panics_after _ _ _ (fun _ s' => s' = set_km (set_held [L_cons] (km s)) s)); [apply wp_kacquire; rewrite Hh; [apply not_elem_of_nil|done]|].
  intros _ s' ->. set (s1 := set_km _ s). apply panics_bind. destruct (Z.to_nat n) as [|k] eqn:Hk; [lia|]. cbn [consolewrite_loop].
  eapply panics_after; [apply (src_read (ByteSource := B) s1 0); [by split|lia]|]. cbn beta. intros x s2 (Hs2 & Hh2 & _ & Hx).
  destruct (src_byte B 0) as [b|]; [|done]. destruct Hx as (-> & _). change (0 =? -1) with false. cbn match.
  eapply (panics_after _ _ _ (fun _ s' => s' = s2)); [by apply wp_gets|]. intros c s' ->. apply panics_bind. unfold uartputc.
  assert (Hrest : lh s2 = lh s /\ queues s2 = queues s /\ tcbs s2 = tcbs s /\ cur s2 = cur s /\ uart s2 = uart s /\ panicked s2 = panicked s).
  { clear -Hs2. unfold s1 in Hs2. destruct s, s2. unfold set_km in Hs2. cbn in *. injection Hs2. intros. subst. done. }
  destruct Hrest as (Hlh & Hqs & Htc & Hcu & Hua & Hpa).
  eapply (panics_after _ _ _ (fun _ s' => s' = set_km (set_held [L_uart; L_cons] (km s2)) s2)).
  { apply wp_kacquire; rewrite Hh2; [by intros ?%list_elem_of_singleton|done]. }
  intros _ s' ->. set (s3 := set_km _ s2).
  eapply (panics_after _ _ _ (fun _ s' => s' = s3)).
  { unfold spin_if_panicked. apply wp_bind, wp_gets. cbn [panicked s3 set_km]. rewrite Hpa, Hp. by apply wp_ret. }
  intros _ s' ->. apply panics_bind. cbn [uartputc_wait].
  eapply (panics_after _ _ _ (fun a s' => a = uart s /\ s' = s3)); [apply wp_gets; cbn [uart s3 set_km]; by rewrite Hua|]. intros a s' [-> ->].
  rewrite (tx_next _ _ Hq), Hlen, Z.eqb_refl. apply panics_bind. apply (sleep_two_locks swtch t ChUart L_uart L_cons tq); try done.
  - eapply sched_inv_same; [exact Hi|done|done|]. intros t'. cbn [tcbs s3 set_km]. by rewrite Htc.
  - cbn [cur s3 set_km]. by rewrite Hcu.
Qed.

(** ** Witnesses *)

(** The counters of the input buffer are about to wrap around: the line [l] is
    ready, and the line [e] is being edited. *)
Definition console_with (l e : list Z) : console :=
  let r := 2 ^ 32 - 1 in
  Console (fun i => nth (Z.to_nat ((i - r) mod INPUT_BUF_SIZE)) (l ++ e) 0) r (u32 (r + Z.of_nat (length l))) (u32 (r + Z.of_nat (length l + length e))).

Lemma console_with_is l e :
  Z.of_nat (length l + length e) <= INPUT_BUF_SIZE -> Forall (fun x => 0 <= x < 256) (l ++ e) -> NL ∉ e -> cons_is (console_with l e) (Lines l e).
Proof.
  intros Hlen Hb Hn. split; cbn [cons_r cons_w cons_e cbuf console_with ready editing]; try done.
  - unfold room. cbn [ready editing]. lia.
  - intros k x Hx. pose proof (lookup_lt_Some _ _ _ Hx) as Hk. rewrite length_app in Hk.
    rewrite Zminus_mod_idemp_l. replace (2 ^ 32 - 1 + Z.of_nat k - (2 ^ 32 - 1)) with (Z.of_nat k) by lia.
    rewrite Z.mod_small by lia. rewrite Nat2Z.id. by apply nth_lookup_Some.
Qed.

Definition uart_with (q bs : list Z) : uartdev :=
  Uartdev (fun i => nth (Z.to_nat (i mod UART_TX_BUF_SIZE)) q 0) (Z.of_nat (length q)) 0 bs [] (fun _ => true) 0.

Lemma uart_with_is q bs : Z.of_nat (length q) <= UART_TX_BUF_SIZE -> Forall (fun x => 0 <= x < 256) q -> tx_is (uart_with q bs) q.
Proof.
  intros Hlen Hb. unfold UART_TX_BUF_SIZE in *. split; cbn [tx_r tx_w tx_buf uart_with]; try done.
  - rewrite wrap_small; lia.
  - intros k x Hx. pose proof (lookup_lt_Some _ _ _ Hx) as Hk. unfold UART_TX_BUF_SIZE.
    replace (Z.to_nat _) with k; [by apply nth_lookup_Some|]. rewrite Z.mod_mod, Z.add_0_l, Z.mod_small by lia. by rewrite Nat2Z.id.
Qed.

Definition console_state (c : console) (u : uartdev) (b : kstate) : kstate := set_panicked 0 (set_uart u (set_cons c (pipe_state b (wrap_pipe 3)))).

Lemma console_state_sched c u b tq : sched_inv b tq ∅ -> sched_inv (console_state c u b) tq ∅.
Proof. intros Hi. destruct (pipe_state_ok b (wrap_pipe 3) tq Hi) as (Hi' & _ & _). by eapply sched_inv_same. Qed.



Lemma consoleread_takes_line_witness :
  exists s, wp (consoleread (fun _ => mret tt) 0x9000 0 false 0x8000 8) (fun j s' =>
    j = 3 /\ cons_is (cons s') (Lines [120] []) /\ mmem (km s') 0x8001 = 105) s.
Proof.
  destruct booted_ok as (_ & Hi & _). revert Hi. generalize booted. intros b Hi. set (s := console_state (console_with [104; 105; 10; 120] []) (uart_with [] []) b).
  assert (Hrun : runs_in s 0) by by exists 0%nat.
  set (K := kernel_sink 0x9000 0x8000 8 s 0 Hrun ltac:(lia) ltac:(lia) ltac:(lia)).
  exists s. eapply wp_mono; [apply (consoleread_takes_line (fun _ => mret tt) 0x9000 0x8000 8 false 0 [104; 105; 10; 120] [] [104; 105; 10] [120] (init_queues (Z.to_nat NTHREADS)) s K)|].
  - by apply console_state_sched.
  - done.
  - intros a. simpl. lia.
  - lia.
  - lia.
  - intros i _. done.
  - apply console_with_is; [done|by repeat constructor|apply not_elem_of_nil].
  - done.
  - cbn beta. intros j s' (-> & Hc & Hd & _). split_and!; [done|exact Hc|]. destruct (Hd 1%nat 105 eq_refl) as (l & Hl & Hm). injection Hl as <-. exact Hm.
Defined.

Lemma consolewrite_full_panics_witness :
  exists s, panics (consolewrite (fun _ => mret tt) 0x9000 1 false 0x8000 4) "sched t locks" s.
Proof.
  destruct booted_ok as (_ & Hi & _). revert Hi. generalize booted. intros b Hi. set (s := console_state (console_with [] []) (uart_with (replicate 32 65) []) b).
  assert (Hrun : runs_in s 0) by by exists 0%nat. assert (Hb : bytes_ok (mmem (km s))) by (intros a; simpl; lia).
  set (B := kernel_source 0x9000 0x8000 4 s 0 Hrun ltac:(lia) ltac:(lia) ltac:(lia) Hb).
  exists s. apply (consolewrite_full_panics (fun _ => mret tt) 0x9000 0x8000 4 false 0 0 (replicate 32 65) (init_queues (Z.to_nat NTHREADS)) s B).
  - by apply console_state_sched.
  - done.
  - done.
  - done.
  - done.
  - exact Hb.
  - lia.
  - done.
  - apply uart_with_is; [done|by repeat constructor].
  - done.
Defined.

(** * kernel/lib/printf.c: output on the console

    printf understands %d, %x, %p, %s and %%; each character goes to the UART as
    consputc sends it.  A format prints the text [printed] gives for it. *)

(** digits[d], for d below 16. *)
Definition digits (d : Z) : Z := nth (Z.to_nat d) digits_lower 0.

Section Printf.
(** [fuel] bounds the waits for the transmitter, [lim] the length of formats and
    strings. *)
Context (fuel lim : nat).

Fixpoint put_all (l : list Z) : E kstate unit :=
  match l with
  | [] => mret tt
  | c :: l => consputc fuel c;; put_all l
  end.

(** do buf[i++] = digits[x % base]; while ((x /= base) != 0) *)
Fixpoint int_digits (n : nat) (x base : Z) : list Z :=
  match n with
  | O => []
  | S n => digits (x mod base) :: if x / base =? 0 then [] else int_digits n (x / base) base
  end.

(** An int has at most 32 digits; while (--i >= 0) consputc(buf[i]). *)
Definition printint (xx base : Z) (sign : bool) : E kstate unit :=
  let sign := sign && (xx <? 0) in
  let x := if sign then u32 (- xx) else u32 xx in
  let buf := int_digits 32 x base ++ (if sign then [45] else []) in
  put_all (rev buf).

(** for (i = 0; i < 16; i++, x <<= 4) *)
Fixpoint printptr_loop (n : nat) (x : Z) : E kstate unit :=
  match n with
  | O => mret tt
  | S n => consputc fuel (digits (Z.shiftr x 60));; printptr_loop n (u64 (Z.shiftl x 4))
  end.

Definition printptr (x : Z) : E kstate unit :=
  consputc fuel 48;;
  consputc fuel 120;;
  printptr_loop 16 x.

(** for(; *s; s++) consputc( *s ) *)
Fixpoint print_str (n : nat) (a : Z) : E kstate unit :=
  match n with
  | O => nofuel
  | S n =>
    m ← gets (fun s => mmem (km s));
    if m a =? 0 then mret tt else consputc fuel (m a);; print_str n (a + 1)
  end.

(** The characters of (null). *)
Definition null_text : list Z := [40; 110; 117; 108; 108; 41].

(** The loop over the format, from the address [a]; va_arg takes the next
    argument. *)
Fixpoint printf_loop (n : nat) (a : Z) (args : list Z) : E kstate unit :=
  match n with
  | O => nofuel
  | S n =>
    m ← gets (fun s => mmem (km s));
    let c := m a in
    if c =? 0 then mret tt
    else if negb (c =? 37) then consputc fuel c;; printf_loop n (a + 1) args
    else
      let c := m (a + 1) in
      let va_arg : E kstate Z := deref (head args) in
      if c =? 0 then mret tt
      else if c =? 100 then x ← va_arg; printint (i32 x) 10 true;; printf_loop n (a + 2) (tail args)
      else if c =? 120 then x ← va_arg; printint (i32 x) 16 true;; printf_loop n (a + 2) (tail args)
      else if c =? 112 then x ← va_arg; printptr (u64 x);; printf_loop n (a + 2) (tail args)
      else if c =? 115 then
        x ← va_arg;
        (if x =? 0 then put_all null_text else print_str lim x);;
        printf_loop n (a + 2) (tail args)
      else if c =? 37 then consputc fuel 37;; printf_loop n (a + 2) args
      else consputc fuel 37;; consputc fuel c;; printf_loop n (a + 2) args
  end.

(** [locking] is pr.locking. *)
Definition printf (locking : bool) (fmt : Z) (args : list Z) : E kstate unit :=
  (if locking then acquire L_pr else mret tt);;
  panic_if (fmt =? 0) "null fmt";;
  printf_loop lim fmt args;;
  if locking then release L_pr else mret tt.

Definition printfinit : E kstate unit := initlock L_pr.

(** ** What a format prints *)

(** The text of an int in base [b], and of the 16 digits of a pointer. *)
Definition int_text (b x : Z) : list Z := (if x <? 0 then [45] else []) ++ numeral false b (Z.abs x).
Fixpoint hex_digits (n : nat) (x : Z) : list Z :=
  match n with
  | O => []
  | S n => digit_char false ((x / 16 ^ Z.of_nat n) mod 16) :: hex_digits n x
  end.

(** A format and its arguments print a text; [m] holds the strings. *)
Inductive printed (m : mem) : list Z -> list Z -> list Z -> Prop :=
  | p_end args : printed m [] args []
  | p_char c f args t : c <> 37 -> printed m f args t -> printed m (c :: f) args (c :: t)
  | p_lone args : printed m [37] args []
  | p_dec f x args t : printed m f args t -> printed m (37 :: 100 :: f) (x :: args) (int_text 10 (i32 x) ++ t)
  | p_hex f x args t : printed m f args t -> printed m (37 :: 120 :: f) (x :: args) (int_text 16 (i32 x) ++ t)
  | p_ptr f x args t : printed m f args t -> printed m (37 :: 112 :: f) (x :: args) ([48; 120] ++ hex_digits 16 (u64 x) ++ t)
  | p_null f args t : printed m f args t -> printed m (37 :: 115 :: f) (0 :: args) (null_text ++ t)
  | p_str f x l args t : x <> 0 -> cstr m x l -> (length l < lim)%nat -> printed m f args t -> printed m (37 :: 115 :: f) (x :: args) (l ++ t)
  | p_percent f args t : printed m f args t -> printed m (37 :: 37 :: f) args (37 :: t)
  | p_other c f args t : c ∉ [100; 120; 112; 115; 37] -> printed m f args t -> printed m (37 :: c :: f) args (37 :: c :: t).
End Printf.

(** ** Proofs *)

Section Proofs.
Context (fuel lim : nat).

Lemma echoed_nil s : echoed [] s s.
Proof. exists (lsr_reads (uart s)). destruct s as [? ? ? ? ? ? ? ? ? ? ? ? ? ? ? ? ? ? ? ? ? ? ? ? ? ? u]; cbn. destruct u; cbn. by rewrite app_nil_r. Qed.

Lemma wp_put_all l (Q : unit -> kstate -> Prop) s :
  responsive fuel s -> Forall (fun c => 0 <= c < 256) l -> (forall s', echoed l s s' -> Q tt s') -> wp (put_all fuel l) Q s.
Proof.
  intros Hr Hl. revert s Hr. induction Hl as [|c l Hc _ IH]; intros s Hr HQ; cbn [put_all]; [apply wp_ret, HQ, echoed_nil|].
  apply wp_bind, wp_echo; [done|done|]. intros s1 H1. apply IH; [by eapply echoed_responsive|]. intros s2 H2. apply HQ. by apply (echoed_trans [c] l s s1).
Qed.

Lemma digit_range d : 0 <= d < 16 -> 0 <= digits d < 256.
Proof.
  intros Hd. unfold digits. assert (forall k, (k < 36)%nat -> 0 <= nth k digits_lower 0 < 256) as H by (intros k Hk; do 36 (destruct k as [|k]; [by cbn|]); lia).
  apply H. lia.
Qed.

(** The digits of printint are those of the number. *)
Lemma int_digits_lsd n x base : 2 <= base -> 0 < x < base ^ Z.of_nat n -> int_digits n x base = map (digit_char false) (lsd n base x).
Proof.
  intros Hb. revert x. induction n as [|n IH]; intros x Hx; [change (Z.of_nat 0) with 0 in Hx; rewrite Z.pow_0_r in Hx; lia|].
  cbn [int_digits lsd]. rewrite (proj2 (Z.eqb_neq x 0)) by lia. cbn [map]. f_equal. rewrite Nat2Z.inj_succ, Z.pow_succ_r in Hx by lia.
  destruct (Z.eqb_spec (x / base) 0) as [E|E]; [rewrite E; by destruct n|].
  apply IH. pose proof (Z.div_pos x base ltac:(lia) ltac:(lia)). split; [lia|apply Z.div_lt_upper_bound; lia].
Qed.

Lemma lsd_enough n k base x : 2 <= base -> 0 <= x < base ^ Z.of_nat n -> (n <= k)%nat -> lsd k base x = lsd n base x.
Proof.
  intros Hb. revert k x. induction n as [|n IH]; intros k x Hx Hk.
  - change (Z.of_nat 0) with 0 in Hx. rewrite Z.pow_0_r in Hx. replace x with 0 by lia. by destruct k.
  - destruct k as [|k]; [lia|]. cbn [lsd]. destruct (x =? 0); [done|]. f_equal. rewrite Nat2Z.inj_succ, Z.pow_succ_r in Hx by lia.
    apply IH; [split; [apply Z.div_pos; lia|apply Z.div_lt_upper_bound; lia]|lia].
Qed.

Lemma int_digits_numeral x base : 2 <= base -> 0 <= x < 2 ^ 32 -> rev (int_digits 32 x base) = numeral false base x.
Proof.
  intros Hb Hx. unfold numeral. assert (x < base ^ Z.of_nat 32) as Hlt.
  { apply Z.lt_le_trans with (2 ^ 32); [lia|]. apply Z.pow_le_mono_l. lia. }
  destruct (Z.eqb_spec x 0) as [->|Hz].
  - cbn [int_digits]. rewrite Z.mod_0_l, Z.div_0_l by lia. done.
  - rewrite int_digits_lsd by (done || (split; [lia|exact Hlt])).
    rewrite (lsd_enough 32 66 base x) by (done || lia || (split; [lia|exact Hlt])). done.
Qed.

Lemma numeral_bytes base x : 2 <= base <= 16 -> Forall (fun c => 0 <= c < 256) (numeral false base x).
Proof.
  intros Hb. unfold numeral. destruct (x =? 0); [by constructor|]. apply Forall_rev, Forall_map.
  eapply Forall_impl; [apply (lsd_range 66 base x); lia|]. cbn beta. intros d Hd. apply digit_range. lia.
Qed.

Lemma wp_printint x base (Q : unit -> kstate -> Prop) s :
  responsive fuel s -> - 2 ^ 31 <= x < 2 ^ 31 -> 2 <= base <= 16 -> (forall s', echoed (int_text base x) s s' -> Q tt s') -> wp (printint fuel x base true) Q s.
Proof.
  intros Hr Hx Hb HQ. unfold printint. cbn [andb]. rewrite rev_app_distr. unfold int_text in HQ.
  assert ((if x <? 0 then u32 (- x) else u32 x) = Z.abs x) as E by (destruct (Z.ltb_spec x 0); rewrite wrap_small; lia).
  rewrite E, int_digits_numeral by lia. replace (rev (if x <? 0 then [45] else [])) with (if x <? 0 then [45] else []) by by destruct (x <? 0).
  apply wp_put_all; [done| |done]. apply Forall_app. split; [by destruct (x <? 0); repeat constructor|by apply numeral_bytes].
Qed.

(** The digit [k] of [x], shifted to the top of the word. *)
Lemma top_digit x k : 0 <= x -> 0 <= k < 16 -> Z.shiftr (u64 (x * 16 ^ (15 - k))) 60 = (x / 16 ^ k) mod 16.
Proof.
  intros Hx Hk. rewrite Z.shiftr_div_pow2 by lia. unfold u64, wrap.
  assert (0 < 16 ^ k /\ 0 < 16 ^ (15 - k)) as [P1 P2] by (split; apply Z.pow_pos_nonneg; lia).
  assert (2 ^ 60 = 16 ^ k * 16 ^ (15 - k)) as -> by (rewrite <- Z.pow_add_r by lia; replace (k + (15 - k)) with 15 by lia; done).
  assert (2 ^ 64 = 16 ^ k * 16 * 16 ^ (15 - k)) as ->
    by (rewrite (Z.mul_comm (16 ^ k) 16), <- (Z.pow_succ_r 16 k), <- Z.pow_add_r by lia; replace (Z.succ k + (15 - k)) with 16 by lia; done).
  rewrite Z.mul_mod_distr_r, Z.div_mul_cancel_r, Z.rem_mul_r by lia.
  rewrite Z.mul_comm, Z.div_add by lia. rewrite Z.div_small; [lia|]. apply Z.mod_pos_bound. lia.
Qed.

Lemma wp_printptr_loop n x (Q : unit -> kstate -> Prop) s :
  responsive fuel s -> 0 <= x -> (n <= 16)%nat -> (forall s', echoed (hex_digits n x) s s' -> Q tt s') ->
  wp (printptr_loop fuel n (u64 (x * 16 ^ (16 - Z.of_nat n)))) Q s.
Proof.
  revert s. induction n as [|n IH]; intros s Hr Hx Hn HQ; cbn [printptr_loop]; [apply wp_ret, HQ, echoed_nil|]. cbn [hex_digits] in HQ.
  replace (16 - Z.of_nat (S n)) with (15 - Z.of_nat n) by lia. rewrite top_digit by lia.
  apply wp_bind, wp_echo; [done|apply digit_range, Z.mod_pos_bound; lia|]. intros s1 H1.
  assert (u64 (Z.shiftl (u64 (x * 16 ^ (15 - Z.of_nat n))) 4) = u64 (x * 16 ^ (16 - Z.of_nat n))) as ->.
  { rewrite Z.shiftl_mul_pow2 by lia. unfold u64, wrap. rewrite Z.mul_mod_idemp_l by done. f_equal.
    replace (16 - Z.of_nat n) with (Z.succ (15 - Z.of_nat n)) by lia. rewrite Z.pow_succ_r by lia. lia. }
  apply IH; [by eapply echoed_responsive|done|lia|]. intros s2 H2. apply HQ. by apply (echoed_trans [_] _ s s1).
Qed.

Lemma wp_printptr x (Q : unit -> kstate -> Prop) s :
  responsive fuel s -> 0 <= x < 2 ^ 64 -> (forall s', echoed ([48; 120] ++ hex_digits 16 x) s s' -> Q tt s') -> wp (printptr fuel x) Q s.
Proof.
  intros Hr Hx HQ. unfold printptr. apply wp_bind, wp_echo; [done|lia|]. intros s1 H1. pose proof (echoed_responsive _ _ _ _ H1 Hr) as Hr1.
  apply wp_bind, wp_echo; [done|lia|]. intros s2 H2. pose proof (echoed_responsive _ _ _ _ H2 Hr1) as Hr2.
  replace x with (u64 (x * 16 ^ (16 - Z.of_nat 16))) at 1 by (rewrite Z.mul_1_r; by apply wrap_small).
  apply wp_printptr_loop; [done|lia|lia|]. intros s3 H3. apply HQ.
  apply (echoed_trans [48] _ s s1); [done|]. by apply (echoed_trans [120] _ s1 s2).
Qed.

Lemma echoed_mem o s s' : echoed o s s' -> mmem (km s') = mmem (km s).
Proof. by intros [m ->]. Qed.

Lemma wp_print_str n a l (Q : unit -> kstate -> Prop) s :
  responsive fuel s -> bytes_ok (mmem (km s)) -> cstr (mmem (km s)) a l -> (length l < n)%nat -> (forall s', echoed l s s' -> Q tt s') -> wp (print_str fuel n a) Q s.
Proof.
  revert a l s. induction n as [|n IH]; intros a l s Hr Hb Hl Hn HQ; [lia|]. cbn [print_str]. apply wp_bind, wp_gets. destruct l as [|c l]; cbn [cstr length] in *.
  - rewrite Hl. apply wp_ret, HQ, echoed_nil.
  - destruct Hl as (Hc & Hz & Hl). rewrite Hc, (proj2 (Z.eqb_neq c 0)) by done. apply wp_bind, wp_echo; [done|rewrite <- Hc; apply Hb|]. intros s1 H1.
    apply (IH (a + 1) l); [by eapply echoed_responsive|by rewrite (echoed_mem _ _ _ H1)..|lia|].
    intros s2 H2. apply HQ. by apply (echoed_trans [c] l s s1).
Qed.

(** One piece of the format, then the rest. *)
Lemma wp_piece (act rest : E kstate unit) t1 t2 (Q : unit -> kstate -> Prop) s :
  responsive fuel s ->
  (forall (R : unit -> kstate -> Prop), (forall s', echoed t1 s s' -> R tt s') -> wp act R s) ->
  (forall s1 (R : unit -> kstate -> Prop), responsive fuel s1 -> mmem (km s1) = mmem (km s) -> (forall s', echoed t2 s1 s' -> R tt s') -> wp rest R s1) ->
  (forall s', echoed (t1 ++ t2) s s' -> Q tt s') -> wp (act;; rest) Q s.
Proof.
  intros Hr H1 H2 HQ. apply wp_bind, H1. intros s1 E1. apply H2; [by eapply echoed_responsive|by eapply echoed_mem|].
  intros s2 E2. apply HQ. by eapply echoed_trans.
Qed.

Lemma wp_printf_loop m n a f args t :
  bytes_ok m -> printed lim m f args t -> cstr m a f -> (length f < n)%nat -> forall s (Q : unit -> kstate -> Prop),
  responsive fuel s -> mmem (km s) = m -> (forall s', echoed t s s' -> Q tt s') -> wp (printf_loop fuel lim n a args) Q s.
Proof.
  intros Hb Hp. revert n a. induction Hp; intros n a Hc Hn s Q Hr Hm HQ; (destruct n as [|n]; [lia|]); cbn [printf_loop]; apply wp_bind, wp_gets; rewrite Hm;
    cbn [cstr length app] in *.
  - rewrite Hc. apply wp_ret, HQ, echoed_nil.
  - destruct Hc as (E & Hz & Hc). rewrite E, (proj2 (Z.eqb_neq c 0)), (proj2 (Z.eqb_neq c 37)) by done. cbn [negb].
    apply (wp_piece _ _ [c] t); [done| |intros s1 R Hr1 E1; apply IHHp; [done|lia|done|congruence]|done].
    intros R HR. apply wp_echo; [done|rewrite <- E; apply Hb|done].
  - destruct Hc as (-> & _ & ->). cbn [Z.eqb Pos.eqb negb]. apply wp_ret, HQ, echoed_nil.
  - destruct Hc as (-> & _ & -> & _ & Hc). cbn [Z.eqb Pos.eqb negb head tail]. apply wp_bind, wp_ret. replace (a + 1 + 1) with (a + 2) in Hc by lia.
    eapply wp_piece; [done| |intros s1 R Hr1 E1; apply IHHp; [done|lia|done|congruence]|done].
    intros R HR. apply wp_printint; [done|apply i32_range|lia|done].
  - destruct Hc as (-> & _ & -> & _ & Hc). cbn [Z.eqb Pos.eqb negb head tail]. apply wp_bind, wp_ret. replace (a + 1 + 1) with (a + 2) in Hc by lia.
    eapply wp_piece; [done| |intros s1 R Hr1 E1; apply IHHp; [done|lia|done|congruence]|done].
    intros R HR. apply wp_printint; [done|apply i32_range|lia|done].
  - destruct Hc as (-> & _ & -> & _ & Hc). cbn [Z.eqb Pos.eqb negb head tail]. apply wp_bind, wp_ret. replace (a + 1 + 1) with (a + 2) in Hc by lia.
    apply (wp_piece _ _ ([48; 120] ++ hex_digits 16 (u64 x)) t); [done| |intros s1 R Hr1 E1; apply IHHp; [done|lia|done|congruence]|done].
    intros R HR. apply wp_printptr; [done|apply wrap_range; lia|done].
  - destruct Hc as (-> & _ & -> & _ & Hc). cbn [Z.eqb Pos.eqb negb head tail]. apply wp_bind, wp_ret. replace (a + 1 + 1) with (a + 2) in Hc by lia.
    apply (wp_piece _ _ null_text t); [done| |intros s1 R Hr1 E1; apply IHHp; [done|lia|done|congruence]|done].
    intros R HR. apply wp_put_all; [done|by repeat constructor|done].
  - destruct Hc as (-> & _ & -> & _ & Hc). cbn [Z.eqb Pos.eqb negb head tail]. apply wp_bind, wp_ret. replace (a + 1 + 1) with (a + 2) in Hc by lia.
    rewrite (proj2 (Z.eqb_neq x 0)) by done.
    eapply wp_piece; [done| |intros s1 R Hr1 E1; apply IHHp; [done|lia|done|congruence]|done].
    intros R HR. apply (wp_print_str lim x l); [done|by rewrite Hm..|done|done].
  - destruct Hc as (-> & _ & -> & _ & Hc). cbn [Z.eqb Pos.eqb negb]. replace (a + 1 + 1) with (a + 2) in Hc by lia.
    apply (wp_piece _ _ [37] t); [done| |intros s1 R Hr1 E1; apply IHHp; [done|lia|done|congruence]|done].
    intros R HR. apply wp_echo; [done|lia|done].
  - destruct Hc as (-> & _ & E & Hz & Hc). rewrite E. replace (a + 1 + 1) with (a + 2) in Hc by lia.
    rewrite !not_elem_of_cons in H. destruct H as (? & ? & ? & ? & ? & _). rewrite !(proj2 (Z.eqb_neq c _)) by done. cbn [Z.eqb Pos.eqb negb].
    apply (wp_piece _ _ [37] (c :: t)); [done|intros R HR; apply wp_echo; [done|lia|done]| |done].
    intros s1 R Hr1 E1 HR. apply (wp_piece _ _ [c] t); [done| |intros s2 R2 Hr2 E2; apply IHHp; [done|lia|done|congruence]|done].
    intros R2 HR2. apply wp_echo; [done|rewrite <- E; apply Hb|done].
Qed.
End Proofs.

(** printf prints what its format says: characters as they are, %d and %x as a
    sign and the digits of the int, %p as 0x and all sixteen digits, %s as the
    string or (null), %% as a percent sign, an unknown directive as itself; a
    percent sign at the end is dropped.  Nothing else changes. *)
Theorem printf_prints (fuel lim : nat) (locking : bool) (fmt : Z) (f args t : list Z) (s : kstate) :
  responsive fuel s -> L_pr ∉ held (km s) -> bytes_ok (mmem (km s)) -> fmt <> 0 -> cstr (mmem (km s)) fmt f -> (length f < lim)%nat ->
  printed lim (mmem (km s)) f args t -> wp (printf fuel lim locking fmt args) (fun _ s' => echoed t s s') s.
Proof.
  intros Hr Hl Hb Hf Hc Hn Hp. unfold printf. destruct locking; apply wp_bind.
  - apply wp_kacquire; [done|]. apply wp_bind, wp_panic_if; [by apply Z.eqb_neq|]. apply wp_bind.
    eapply (wp_printf_loop _ _ _ _ _ _ _ t); [exact Hb|exact Hp|exact Hc|done|exact Hr|done|].
    intros s2 [k ->]. eapply wp_krelease; [done|done|]. exists k. cbn. by destruct s as [[]].
  - apply wp_ret. apply wp_bind, wp_panic_if; [by apply Z.eqb_neq|]. apply wp_bind.
    eapply (wp_printf_loop _ _ _ _ _ _ _ t); [exact Hb|exact Hp|exact Hc|done|exact Hr|done|]. intros s2 H2. by apply wp_ret.
Qed.
