(* ===== verification/File.v ===== *)
(** * kernel/fs/file.c, and pipealloc of kernel/ipc/pipe.c: the table of open files

    Reference-counted open files.  What a file system does for a file (close,
    unlink, read, write) is the record [fs_ops], the counterpart of the function
    pointers of struct file_ops and struct filesystem_op. *)
From S2P Require Import Prelude Mem CString KTypes Kalloc Vm ListHead KState Queue Sched Signal Thread ThreadInv SchedSpec ProcBase Pipe.
Definition NFILE : Z := 1024.
Definition NDEV : Z := 10.
Definition RLIMIT_NOFILE : nat := 7.

Definition O_RDONLY : Z := 0.
Definition O_WRONLY : Z := 1.
Definition O_RDWR : Z := 2.
Definition O_ACCMODE : Z := 3.
Definition IS_READABLE (flags : Z) : bool := negb (Z.land flags O_ACCMODE =? O_WRONLY).
Definition IS_WRITABLE (flags : Z) : bool := negb (Z.land flags O_ACCMODE =? O_RDONLY).

(** (flags & ~O_ACCMODE) | m *)
Definition with_mode (flags m : Z) : Z := Z.lor (Z.land flags (Z.lnot O_ACCMODE)) m.

Definition SET_READABLE (flags : Z) : Z :=
  let mode := Z.land flags O_ACCMODE in
  if mode =? O_WRONLY then with_mode flags O_RDWR else if mode =? 0 then with_mode flags O_RDONLY else flags.
Definition SET_WRITABLE (flags : Z) : Z :=
  let mode := Z.land flags O_ACCMODE in
  if mode =? O_RDONLY then with_mode flags O_RDWR else if mode =? 0 then with_mode flags O_WRONLY else flags.
Definition UNSET_READABLE (flags : Z) : Z :=
  let mode := Z.land flags O_ACCMODE in
  if mode =? O_RDONLY then Z.land flags (Z.lnot O_ACCMODE) else if mode =? O_RDWR then with_mode flags O_WRONLY else flags.
Definition UNSET_WRITABLE (flags : Z) : Z :=
  let mode := Z.land flags O_ACCMODE in
  if mode =? O_WRONLY then Z.land flags (Z.lnot O_ACCMODE) else if mode =? O_RDWR then with_mode flags O_RDONLY else flags.

(** Operations on file [f] of the file system it was opened on; [fop_read] and
    [fop_write] take user flag, address, offset and length and answer the
    return value and the count they store. *)
Record fs_ops := FsOps {
  fop_close : nat -> E kstate unit;
  fop_cleansf : nat -> E kstate unit;
  fop_unlink : string -> E kstate unit;
  fop_read : nat -> bool -> Z -> Z -> Z -> E kstate (Z * Z);
  fop_write : nat -> bool -> Z -> Z -> Z -> E kstate (Z * Z);
}.

Definition get_file (f : nat) : E kstate file := gets (fun s => files s f).
Definition upd_file (f : nat) (g : file -> file) : E kstate unit :=
  modify (fun s => set_files (<[f := g (files s f)]> (files s)) s).

Definition fileinit : E kstate unit := initlock L_ftable.

Section Files.
(** [extern char end[]]; the switch to the scheduler; the address of the pipe
    routines' local byte; the registered file system, if any; the devices. *)
Context (kend : Z) (swtch : nat -> E kstate unit) (ch : Z).
Context (ext4 : option fs_ops).
Context (dev_read dev_write : Z -> option (bool -> Z -> Z -> E kstate Z)).

(** for (f = ftable.file; ...) if (f->ref == 0) {...}; getfs answers the
    registered file system. *)
Definition filealloc : E kstate (option nat) :=
  acquire L_ftable;;
  r ← for_table (R := nat) (Z.to_nat NFILE) 0 (fun f =>
        x ← get_file f;
        if fref x =? 0 then
          match ext4 with
          | None => release L_ftable;; panic "filealloc: no fs"
          | Some _ =>
            upd_file f (fun x => set_fistmp 0 (set_fpos 0 (set_fomode 0 (set_fflags 0 (set_fprivate 0 (set_fref 1 x))))));;
            release L_ftable;;
            mret (Some f)
          end
        else mret None);
  match r with
  | Some f => mret (Some f)
  | None => release L_ftable;; mret None
  end.

Definition filedup (f : nat) : E kstate nat :=
  acquire L_ftable;;
  x ← get_file f;
  panic_if (fref x <? 1) "filedup";;
  upd_file f (fun x => set_fref (i32 (fref x + 1)) x);;
  release L_ftable;;
  mret f.

(** The fields fileclose clears. *)
Definition clear_file (x : file) : file :=
  set_fpath "" (set_fprivate 0 (set_fpos 0 (set_ftype FD_NONE (set_fomode 0 (set_fflags 0 (set_fref 0 x)))))).

Definition fileclose (f : nat) (drop_ofile_cnt : bool) : E kstate unit :=
  p ← myproc;
  (if drop_ofile_cnt then upd_proc p (fun r => set_ofile_cnt (i32 (ofile_cnt r - 1)) r) else mret tt);;
  cnt ← gets (fun s => ofile_cnt (procs s p));
  panic_if (cnt <? 0) "fileclose: ofile_cnt < 0";;
  acquire L_ftable;;
  x ← get_file f;
  panic_if (fref x <? 1) "fileclose";;
  upd_file f (fun x => set_fref (i32 (fref x - 1)) x);;
  if 0 <? i32 (fref x - 1) then release L_ftable
  else
    (if fprivate x =? 0 then mret tt
     else
       ops ← deref ext4;
       fop_close ops f;;
       (if fistmp x =? 0 then mret tt else fop_unlink ops (fpath x));;
       fop_cleansf ops f);;
    ff ← get_file f;
    upd_file f clear_file;;
    release L_ftable;;
    if bool_decide (ftype ff = FD_PIPE) then pipeclose kend (fpipe ff) (IS_WRITABLE (fflags ff)) else mret tt.

(** A size_t result: -1 is 2^64 - 1. *)
Definition fileread (fuel : nat) (f : nat) (user_dst : bool) (addr n off : Z) : E kstate Z :=
  x ← get_file f;
  if negb (IS_READABLE (fflags x)) then mret (u64 (-1))
  else
    match ftype x with
    | FD_PIPE => r ← piperead swtch ch fuel (fpipe x) user_dst addr (i32 n); mret (u64 r)
    | FD_DEVICE =>
      if (fmajor x <? 0) || (NDEV <=? fmajor x) then mret (u64 (-1))
      else match dev_read (fmajor x) with
           | None => mret (u64 (-1))
           | Some rd => r ← rd true addr (i32 n); mret (u64 r)
           end
    | FD_INODE | FD_SPEC =>
      ops ← deref ext4;
      r ← fop_read ops f user_dst addr off n;
      mret (u64 r.2)
    | _ => panic "fileread"
    end.

Definition filewrite (fuel : nat) (f : nat) (user_src : bool) (addr n off : Z) : E kstate Z :=
  x ← get_file f;
  if negb (IS_WRITABLE (fflags x)) then mret (-1)
  else
    match ftype x with
    | FD_PIPE => pipewrite swtch ch fuel (fpipe x) user_src addr (i32 n)
    | FD_DEVICE =>
      if (fmajor x <? 0) || (NDEV <=? fmajor x) then mret (-1)
      else match dev_write (fmajor x) with
           | None => mret (-1)
           | Some wr => wr user_src addr (i32 n)
           end
    | FD_INODE =>
      ops ← deref ext4;
      r ← fop_write ops f user_src addr off n;
      mret (if 0 <? r.2 then i32 r.2 else -1)
    | FD_SPEC =>
      ops ← deref ext4;
      r ← fop_write ops f user_src addr off n;
      mret r.1
    | _ => panic "filewrite"
    end.

Definition is_exc_rcfile (p : nat) (s : kstate) : bool :=
  let r := procs s p in
  ((rlim r RLIMIT_NOFILE).1 <=? u64 (ofile_cnt r)) || (NOFILE <=? ofile_cnt r).

(** pipealloc: *f0 and *f1 are part of the result. *)
Definition pipealloc : E kstate (Z * option nat * option nat) :=
  f0 ← filealloc;
  f1 ← (if bool_decide (f0 = None) then mret None else filealloc);
  let bad (pi : Z) : E kstate (Z * option nat * option nat) :=
    (if pi =? 0 then mret tt else free_object kend pi drop_pipe);;
    match f0 with Some f => fileclose f false | None => mret tt end;;
    match f1 with Some f => fileclose f false | None => mret tt end;;
    mret (-1, f0, f1) in
  match f0, f1 with
  | Some a, Some b =>
    pi ← on_mach kalloc;
    if pi =? 0 then bad 0
    else
      modify (fun s => set_pipes (<[pi := Pipe (fun _ => 0) 0 0 1 1]> (pipes s)) s);;
      initlock (L_pipe pi);;
      upd_file a (fun x => set_fpipe pi (set_fflags (UNSET_WRITABLE (SET_READABLE (fflags x))) (set_ftype FD_PIPE x)));;
      upd_file b (fun x => set_fpipe pi (set_fflags (SET_WRITABLE (UNSET_READABLE (fflags x))) (set_ftype FD_PIPE x)));;
      mret (0, f0, f1)
  | _, _ => bad 0
  end.
End Files.

(** * The table of open files: reference counts

    A slot of the table is free when its count is 0.  filealloc takes the first
    free slot, filedup and fileclose count the references up and down, and the
    last close frees the slot and lets go of what the file was open on. *)

(** A slot as filealloc hands it out. *)
Definition opened (x : file) : file :=
  set_fistmp 0 (set_fpos 0 (set_fomode 0 (set_fflags 0 (set_fprivate 0 (set_fref 1 x))))).

Definition set_file (f : nat) (x : file) (s : kstate) : kstate := set_files (<[f := x]> (files s)) s.

Lemma km_restore_files s h fs :
  set_km (set_held (held (km s)) (km (set_files fs (set_km (set_held h (km s)) s)))) (set_files fs (set_km (set_held h (km s)) s)) = set_files fs s.
Proof. cbn [km set_files set_km]. rewrite held_restore. by destruct s. Qed.

Section Spec.
Context (kend : Z) (ops : fs_ops).

Lemma wp_filealloc s : L_ftable ∉ held (km s) ->
  wp (filealloc (Some ops)) (fun r s' =>
    match r with
    | Some f => Z.of_nat f < NFILE /\ fref (files s f) = 0 /\
                (forall j, (j < f)%nat -> fref (files s j) <> 0) /\ s' = set_file f (opened (files s f)) s
    | None => (forall j, Z.of_nat j < NFILE -> fref (files s j) <> 0) /\ s' = s
    end) s.
Proof.
  intros Hl. unfold filealloc. apply wp_bind, wp_kacquire; [done|].
  set (s1 := set_km _ s). apply wp_bind.
  apply (wp_for_table (fun k s2 => s2 = s1 /\ forall j, (j < k)%nat -> fref (files s j) <> 0)).
  - intros k s2 Hk [-> Hj]. apply wp_bind, wp_gets. destruct (fref (files s1 k) =? 0) eqn:H0; zbool.
    + apply wp_bind, wp_modify, wp_bind. eapply wp_krelease; [done|done|]. apply wp_ret, wp_ret.
      split_and!; [unfold NFILE in *; lia|done|done|]. apply km_restore_files.
    + apply wp_ret. split; [done|]. intros j Hjk. destruct (decide (j = k)) as [->|]; [done|]. apply Hj. lia.
  - intros s2 [-> Hj]. apply wp_bind. eapply wp_krelease; [done|done|]. apply wp_ret. split.
    + intros j Hn. apply Hj. unfold NFILE in *. lia.
    + apply km_restore.
  - split; [done|]. intros j Hn. lia.
Qed.

(** Filealloc takes the first slot of the table whose reference count is 0,
    hands it out with one reference and cleared flags and position, and changes
    nothing else; it answers NULL exactly when every slot is in use. *)
Theorem filealloc_first_free (s : kstate) : L_ftable ∉ held (km s) ->
  wp (filealloc (Some ops)) (fun r s' =>
    match r with
    | Some f => Z.of_nat f < NFILE /\ fref (files s f) = 0 /\
                (forall j, (j < f)%nat -> fref (files s j) <> 0) /\ s' = set_file f (opened (files s f)) s
    | None => (forall j, Z.of_nat j < NFILE -> fref (files s j) <> 0) /\ s' = s
    end) s.
Proof. apply wp_filealloc. Qed.

(** ** References *)

Lemma wp_filedup f s : L_ftable ∉ held (km s) -> 1 <= fref (files s f) ->
  wp (filedup f) (fun r s' => r = f /\ s' = set_file f (set_fref (i32 (fref (files s f) + 1)) (files s f)) s) s.
Proof.
  intros Hl H1. unfold filedup. apply wp_bind, wp_kacquire; [done|]. apply wp_bind, wp_gets.
  apply wp_bind, wp_panic_if; [apply Z.ltb_ge; simpl; lia|]. apply wp_bind, wp_modify, wp_bind.
  eapply wp_krelease; [done|done|]. apply wp_ret. split; [done|]. apply km_restore_files.
Qed.

(** The process of the caller with one open file less, if it was counted. *)
Definition dropped (p : nat) (d : bool) (s : kstate) : kstate :=
  if d then set_procs (<[p := set_ofile_cnt (i32 (ofile_cnt (procs s p) - 1)) (procs s p)]> (procs s)) s else s.

(** What is left when the last reference goes; the pipe is closed after that. *)
Lemma wp_fileclose p d f s (Q : unit -> kstate -> Prop) :
  L_ftable ∉ held (km s) -> runs_in s p -> 0 <= ofile_cnt (procs (dropped p d s) p) ->
  1 <= fref (files s f) < 2 ^ 31 -> (fref (files s f) = 1 -> fprivate (files s f) = 0) ->
  (let x := set_fref (fref (files s f) - 1) (files s f) in
   let s1 := if fref (files s f) =? 1 then set_file f (clear_file x) (set_file f x (dropped p d s)) else set_file f x (dropped p d s) in
   if (fref (files s f) =? 1) && bool_decide (ftype (files s f) = FD_PIPE)
   then wp (pipeclose kend (fpipe (files s f)) (IS_WRITABLE (fflags (files s f)))) Q s1
   else Q tt s1) ->
  wp (fileclose kend (Some ops) f d) Q s.
Proof.
  intros Hl Hrun Hcnt Href Hpr HQ. unfold fileclose. apply wp_bind. eapply wp_myproc; [done|].
  eapply (wp_call _ _ (fun _ s1 => s1 = dropped p d s)); [by destruct d|]. cbn beta. intros _ ? ->.
  assert (files (dropped p d s) = files s) as Hf by (by destruct d).
  assert (km (dropped p d s) = km s) as Hkm by (by destruct d).
  apply wp_bind, wp_gets, wp_bind, wp_panic_if; [apply Z.ltb_ge; lia|].
  rewrite <- Hf in *. rewrite <- Hkm in Hl. revert Hl Href Hpr HQ. clear Hcnt Hf Hkm Hrun. generalize (dropped p d s). clear s.
  intros s Hl Href Hpr HQ. apply wp_bind, wp_kacquire; [done|]. apply wp_bind, wp_gets.
  apply wp_bind, wp_panic_if; [apply Z.ltb_ge; simpl; lia|]. apply wp_bind, wp_modify. cbn [files set_km].
  rewrite sint_small by lia. destruct (Z.eqb_spec (fref (files s f)) 1) as [H1|H1].
  - rewrite H1. cbn [Z.ltb Z.compare Z.sub Z.add Z.opp]. rewrite (Hpr H1), Z.eqb_refl. apply wp_bind, wp_ret. cbn [mret].
    apply wp_bind, wp_gets, wp_bind, wp_modify, wp_bind. eapply wp_krelease; [done|done|].
    cbn [files set_files set_km]. rewrite !fn_lookup_insert. cbn [ftype set_fref fpipe fflags].
    set (s2 := set_km _ _).
    assert (s2 = set_file f (clear_file (set_fref 0 (files s f))) (set_file f (set_fref 0 (files s f)) s)) as ->.
    { unfold s2, set_file. cbn [files set_files km set_km]. rewrite held_restore. by destruct s. }
    cbn zeta in HQ. rewrite H1 in HQ. cbn [Z.eqb Z.sub Z.add Z.opp Pos.eqb] in HQ. revert HQ. case_bool_decide; intros HQ; [exact HQ|]. by apply wp_ret.
  - rewrite (proj2 (Z.ltb_lt 0 _)) by lia. eapply wp_krelease; [done|done|].
    rewrite km_restore_files. exact HQ.
Qed.

(** a reference taken with filedup and given back with fileclose leaves the
    table of open files, and everything else, as it was. *)
Theorem filedup_fileclose_roundtrip (p f : nat) (s : kstate) :
  L_ftable ∉ held (km s) -> runs_in s p -> 0 <= ofile_cnt (procs s p) -> 1 <= fref (files s f) < 2 ^ 31 - 1 ->
  wp (f' ← filedup f; fileclose kend (Some ops) f' false) (fun _ s' =>
    (forall j, files s' j = files s j) /\ set_files (files s) s' = s) s.
Proof.
  intros Hl Hrun Hc Hr. eapply wp_call; [apply wp_filedup; [done|lia]|]. cbn beta. intros ? ? [-> ->].
  rewrite sint_small by lia. set (x := set_fref _ _).
  assert (files (set_file f x s) f = x) as Hx by apply fn_lookup_insert.
  apply (wp_fileclose p); rewrite ?Hx; [done|done|done|simpl; lia|simpl; lia|]. cbn zeta.
  rewrite (proj2 (Z.eqb_neq (fref x) 1)) by (simpl; lia). split; [|by destruct s].
  intros j. unfold dropped, set_file. cbn [files set_files]. destruct (decide (j = f)) as [->|Hj].
  - rewrite fn_lookup_insert. unfold x. cbn [fref set_fref]. rewrite Z.add_simpl_r. by destruct (files s f).
  - by rewrite !fn_lookup_insert_ne.
Qed.

(** closing a file with other references only takes one of them; closing the
    last one frees its slot, whose type is then none, and a pipe end is closed on
    the pipe; no other file changes. *)
Theorem fileclose_last_reference (p f : nat) (s : kstate) (l : list Z) (tq : thread_state -> list nat) (r : pipe) :
  0 < kend -> sched_inv s tq ∅ -> held (km s) = [] -> runs_in s p -> 0 < ofile_cnt (procs s p) < 2 ^ 31 ->
  1 <= fref (files s f) < 2 ^ 31 -> fprivate (files s f) = 0 ->
  ftype (files s f) = FD_PIPE -> pipes s !! fpipe (files s f) = Some r ->
  kmem_inv kend (km s) l -> valid_page kend (fpipe (files s f)) -> fpipe (files s f) ∉ l ->
  wp (fileclose kend (Some ops) f true) (fun _ s' =>
    held (km s') = [] /\ (forall j, j <> f -> files s' j = files s j) /\
    ofile_cnt (procs s' p) = ofile_cnt (procs s p) - 1 /\
    let w := IS_WRITABLE (fflags (files s f)) in
    if fref (files s f) =? 1 then
      fref (files s' f) = 0 /\ ftype (files s' f) = FD_NONE /\
      pipes s' !! fpipe (files s f) =
        if (if w then readopen r else writeopen r) =? 0 then None
        else Some (if w then set_writeopen 0 r else set_readopen 0 r)
    else files s' f = set_fref (fref (files s f) - 1) (files s f) /\ pipes s' = pipes s) s.
Proof.
  intros Hk Hi Hh Hrun Hc Hr Hpr Hty Hp Hkm Hv Hni.
  assert (ofile_cnt (procs (dropped p true s) p) = ofile_cnt (procs s p) - 1) as Hcnt.
  { cbn. rewrite fn_lookup_insert. cbn. by rewrite sint_small by lia. }
  apply (wp_fileclose p); [by rewrite Hh; apply not_elem_of_nil|done|by lia|lia|done|].
  cbn zeta. rewrite Hty, bool_decide_true, andb_true_r by done.
  destruct (fref (files s f) =? 1).
  - eapply wp_mono; [eapply (wp_pipeclose _ _ _ r l tq); [done|by destruct Hi|done..]|]. cbn beta.
    intros _ s' (Hh' & _ & (_ & Hf' & Hp' & _) & Hpi). rewrite Hf', Hp'. split_and!; [done| |exact Hcnt| | |].
    + intros j Hj. cbn. by rewrite !fn_lookup_insert_ne by done.
    + cbn. by rewrite fn_lookup_insert.
    + cbn. by rewrite fn_lookup_insert.
    + by destruct (_ =? 0); destruct Hpi as [-> _].
  - split_and!; [done| |exact Hcnt|cbn; by rewrite fn_lookup_insert|done].
    intros j Hj. cbn. by rewrite fn_lookup_insert_ne by done.
Qed.

(** ** pipealloc *)

(** A free slot has no type: fileclose clears it. *)
Definition ftable_ok (s : kstate) : Prop := forall f, fref (files s f) = 0 -> ftype (files s f) = FD_NONE.

(** [s'] differs from [s] in the table of files only, where the counts are the
    same. *)
Definition same_refs (s s' : kstate) : Prop :=
  set_files (files s) s' = s /\ forall j, fref (files s' j) = fref (files s j).

Lemma same_refs_refl s : same_refs s s.
Proof. split; [by destruct s|done]. Qed.

Lemma same_refs_rest s s' : same_refs s s' -> km s' = km s /\ pipes s' = pipes s.
Proof. intros [H _]. split; [apply (f_equal km) in H|apply (f_equal pipes) in H]; exact H. Qed.

(** Giving back a slot that filealloc has just handed out. *)
Lemma wp_close_new p a s0 s :
  L_ftable ∉ held (km s0) -> runs_in s0 p -> 0 <= ofile_cnt (procs s0 p) ->
  fref (files s0 a) = 0 -> ftype (files s0 a) = FD_NONE -> same_refs (set_file a (opened (files s0 a)) s0) s ->
  files s a = opened (files s0 a) ->
  wp (fileclose kend (Some ops) a false) (fun _ s' => same_refs s0 s' /\ (forall j, j <> a -> files s' j = files s j) /\ fprivate (files s' a) = 0) s.
Proof.
  intros Hl Hrun Hc Hr Hty [Hs Hrefs] Ha.
  assert (km s = km s0 /\ cur s = cur s0 /\ tcbs s = tcbs s0 /\ procs s = procs s0) as (Ek & Ec & Et & Ep).
  { split_and!; [apply (f_equal km) in Hs|apply (f_equal cur) in Hs|apply (f_equal tcbs) in Hs|apply (f_equal procs) in Hs]; exact Hs. }
  apply (wp_fileclose p); rewrite ?Ek, ?Ha; cbn [dropped]; rewrite ?Ep; [done| |done|cbn; lia|done|].
  { destruct Hrun as (t & H1 & H2). exists t. by rewrite Ec, Et. }
  cbn zeta. replace (fref (opened _) =? 1) with true by done. replace (ftype (opened (files s0 a))) with FD_NONE by done.
  rewrite bool_decide_false by done. cbn [andb].
  split_and!; [split|intros j Hj; unfold set_file; cbn [files set_files dropped]; by rewrite !fn_lookup_insert_ne by done|
    unfold set_file; cbn [files set_files]; by rewrite fn_lookup_insert].
  - pose proof (f_equal (set_files (files s0)) Hs) as H. etrans; [|etrans; [exact H|by destruct s0]]. by destruct s.
  - intros j. unfold set_file. cbn [files set_files]. destruct (decide (j = a)) as [->|Hj].
    + by rewrite fn_lookup_insert, Hr.
    + rewrite !fn_lookup_insert_ne by done. rewrite Hrefs. cbn. by rewrite fn_lookup_insert_ne by done.
Qed.

(** Both slots given back, from a state with new memory. *)
Lemma wp_close_two {A} p a b m (r : A) s :
  (forall l, l ∉ held m) -> runs_in s p -> 0 <= ofile_cnt (procs s p) -> ftable_ok s -> a <> b ->
  fref (files s a) = 0 -> fref (files s b) = 0 ->
  wp (fileclose kend (Some ops) a false;; fileclose kend (Some ops) b false;; mret r) (fun x s' => x = r /\ same_refs (set_km m s) s')
     (set_km m (set_file b (opened (files s b)) (set_file a (opened (files s a)) s))).
Proof.
  intros Hl Hrun Hc Hok Hab Ha Hb.
  assert (forall x f j, files (set_km m (set_file f x s)) j = if decide (j = f) then x else files s j) as Hf.
  { intros x f j. unfold set_file. cbn [files set_files set_km]. destruct (decide (j = f)) as [->|]; [apply fn_lookup_insert|by rewrite fn_lookup_insert_ne]. }
  eapply wp_call.
  - apply (wp_close_new p a (set_km m (set_file b (opened (files s b)) s))); [apply Hl|exact Hrun|done| | | |].
    + by rewrite Hf, decide_False.
    + rewrite Hf, decide_False by done. by apply Hok.
    + split; [by destruct s|]. intros j. unfold set_file. cbn [files set_files set_km].
      destruct (decide (j = a)) as [->|]; [|destruct (decide (j = b)) as [->|]];
        repeat (rewrite fn_lookup_insert || rewrite fn_lookup_insert_ne by done); done.
    + rewrite Hf, decide_False by done. unfold set_file. cbn [files set_files set_km].
      by rewrite fn_lookup_insert_ne, fn_lookup_insert.
  - cbn beta. intros _ s' (Hs & Hj & _). eapply wp_call.
    + apply (wp_close_new p b (set_km m s)); [apply Hl|exact Hrun|done|done|by apply Hok|exact Hs|].
      rewrite Hj by done. unfold set_file. cbn [files set_files set_km]. by rewrite fn_lookup_insert.
    + cbn beta. intros _ ? []. by apply wp_ret.
Qed.

(** The pipe and the two ends pipealloc builds on the slots [a] and [b]. *)
Definition new_pipe : pipe := Pipe (fun _ => 0) 0 0 1 1.

(** Fewer than two free slots. *)
Definition few_slots (s : kstate) : Prop := forall i j,
  Z.of_nat i < NFILE -> Z.of_nat j < NFILE -> fref (files s i) = 0 -> fref (files s j) = 0 -> i = j.

(** pipealloc opens two slots on a new empty pipe, or, when there is no page
    or there are not two free slots, fails without leaving a file, a pipe or a
    page behind.  The first file can only be read; the second
    can be written, and also read: UNSET_READABLE leaves the flags at 0, which
    SET_WRITABLE takes for read-only and turns into O_RDWR. *)
Theorem pipealloc_opens_ends (p : nat) (l : list Z) (s : kstate) :
  0 < kend -> held (km s) = [] -> runs_in s p -> 0 <= ofile_cnt (procs s p) -> ftable_ok s -> kmem_inv kend (km s) l ->
  wp (pipealloc kend (Some ops)) (fun res s' =>
    held (km s') = [] /\
    match res with
    | (0, Some a, Some b) => a <> b /\ fref (files s a) = 0 /\ fref (files s b) = 0 /\
        (exists pi l', l = pi :: l' /\ kmem_inv kend (km s') l' /\ pipes s' = <[pi := new_pipe]> (pipes s) /\
           fpipe (files s' a) = pi /\ fpipe (files s' b) = pi) /\
        fref (files s' a) = 1 /\ fref (files s' b) = 1 /\ ftype (files s' a) = FD_PIPE /\ ftype (files s' b) = FD_PIPE /\
        (forall j, j <> a -> j <> b -> files s' j = files s j) /\
        (IS_READABLE (fflags (files s' a)), IS_WRITABLE (fflags (files s' a))) = (true, false) /\
        (IS_READABLE (fflags (files s' b)), IS_WRITABLE (fflags (files s' b))) = (true, true)
    | (r, _, _) => r = -1 /\ (l = [] \/ few_slots s) /\ pipes s' = pipes s /\ (forall j, fref (files s' j) = fref (files s j)) /\ kmem_inv kend (km s') l
    end) s.
Proof.
  intros Hk Hh Hrun Hc Hok Hkm. unfold pipealloc.
  assert (Hl : forall x, x ∉ held (km s)) by (intros x; rewrite Hh; apply not_elem_of_nil).
  eapply wp_call; [by apply wp_filealloc|]. cbn beta. intros [a|] s1; [|intros [Hfull ->]].
  2:{ rewrite bool_decide_true by done. apply wp_bind, wp_ret, wp_bind, wp_ret, wp_bind, wp_ret, wp_bind, wp_ret, wp_ret.
      split_and!; try done. right. intros i j Hin _ Hi0. by destruct (Hfull i Hin). }
  intros (_ & Ha & _ & ->). rewrite bool_decide_false by done. set (s1 := set_file a _ s).
  eapply wp_call; [by apply wp_filealloc|]. cbn beta. intros [b|] s2; [|intros [Hfull ->]].
  2:{ apply wp_bind, wp_ret. eapply wp_call.
      - apply (wp_close_new p a s); [done|done|done|done|by apply Hok|by apply same_refs_refl|apply fn_lookup_insert].
      - cbn beta. intros _ s' [H _]. pose proof (same_refs_rest _ _ H) as [Ek Ep]. apply wp_bind, wp_ret, wp_ret. rewrite Ek, Ep.
        destruct H as [_ H]. split_and!; try done. right.
        assert (forall i, Z.of_nat i < NFILE -> fref (files s i) = 0 -> i = a) as Hone.
        { intros i Hin Hi0. destruct (decide (i = a)) as [|Hne]; [done|]. exfalso. apply (Hfull i Hin).
          unfold s1, set_file. cbn [files set_files]. by rewrite fn_lookup_insert_ne. }
        intros i j Hi Hj Hi0 Hj0. by rewrite (Hone i), (Hone j). }
  intros (_ & Hb & _ & ->). set (s2 := set_file b _ s1).
  assert (a <> b) as Hab by (intros ->; unfold s1, set_file in Hb; cbn [files set_files] in Hb; by rewrite fn_lookup_insert in Hb).
  assert (fref (files s b) = 0) as Hb0 by (unfold s1, set_file in Hb; cbn [files set_files] in Hb; by rewrite fn_lookup_insert_ne in Hb).
  assert (files s1 b = files s b) as Hb1 by (unfold s1, set_file; cbn [files set_files]; by rewrite fn_lookup_insert_ne).
  apply wp_bind. apply (wp_on_kalloc kend Hk l); [done|apply Hl| |].
  - intros m -> Hm Hhm. rewrite Z.eqb_refl. apply wp_bind, wp_ret. unfold s2, s1 at 2. rewrite Hb1. eapply wp_mono.
    + apply (wp_close_two p a b m); [|done..]. intros x. rewrite Hhm. apply Hl.
    + cbn beta. intros ? s' [-> H]. pose proof (same_refs_rest _ _ H) as [Ek Ep]. rewrite Ek, Ep. destruct H as [_ H].
      split_and!; [by cbn; rewrite Hhm|done|by left|done|exact H|done].
  - intros pi l' m -> Hv Hm Hhm. rewrite (proj2 (Z.eqb_neq pi 0)) by (destruct Hv; lia).
    apply wp_bind, wp_modify, wp_bind, wp_zoom, initlock_free; [cbn; rewrite Hhm; apply Hl|].
    apply wp_bind, wp_modify, wp_bind, wp_modify, wp_ret.
    split; [by cbn; rewrite Hhm|]. cbn [files set_files set_pipes set_km].
    assert (files s2 a = opened (files s a) /\ files s2 b = opened (files s b)) as [Ea Eb].
    { unfold s2, s1, set_file. cbn [files set_files]. 
      repeat (rewrite fn_lookup_insert || rewrite fn_lookup_insert_ne by done). done. }
    repeat (rewrite fn_lookup_insert || rewrite fn_lookup_insert_ne by done). rewrite Ea, Eb.
    split_and!; try done.
    + exists pi, l'. cbn. repeat (rewrite fn_lookup_insert || rewrite fn_lookup_insert_ne by done). done.
    + intros j Hja Hjb. unfold s2, s1, set_file. cbn [files set_files set_pipes set_km]. by rewrite !fn_lookup_insert_ne by done.
Qed.
End Spec.

(** ** Witnesses *)

Definition no_fs : fs_ops :=
  FsOps (fun _ => mret tt) (fun _ => mret tt) (fun _ => mret tt) (fun _ _ _ _ _ => mret (0, 0)) (fun _ _ _ _ _ => mret (0, 0)).

(** The state of the pipe witnesses, where every slot of the table is [x]. *)
Definition file_state (b : kstate) (x : file) : kstate :=
  set_files (fun _ => x) (set_procs (fun _ => set_ofile_cnt 1 proc_zero) (pipe_state b (wrap_pipe 3))).

Lemma file_state_runs b x : runs_in (file_state b x) 0 /\ held (km (file_state b x)) = [].
Proof. split; [by exists 0%nat|done]. Qed.

Definition pipe_end : file := File FD_PIPE 1 O_RDONLY 0 two_pages 0 0 "" 0 0.

Lemma filealloc_first_free_witness :
  exists s, wp (filealloc (Some no_fs)) (fun r s' => r = Some 0%nat /\ s' = set_file 0 (opened file_zero) s) s.
Proof.
  pose (b := booted). clearbody b. exists (file_state b file_zero). eapply wp_mono; [apply (filealloc_first_free no_fs); apply not_elem_of_nil|]. cbn beta. intros [f|] s'.
  - intros (_ & _ & H & ->). destruct f as [|f]; [done|]. exfalso. by apply (H 0%nat); [lia|].
  - intros [H _]. exfalso. by apply (H 0%nat).
Defined.

Lemma filedup_fileclose_roundtrip_witness :
  exists s, wp (f' ← filedup 3; fileclose two_pages (Some no_fs) f' false) (fun _ s' => files s' 3%nat = pipe_end) s.
Proof.
  pose (b := booted). clearbody b. exists (file_state b pipe_end). eapply wp_mono.
  - apply (filedup_fileclose_roundtrip two_pages no_fs 0 3); [apply not_elem_of_nil|apply file_state_runs|done|done].
  - cbn beta. intros _ s' [H _]. by rewrite H.
Defined.

Lemma fileclose_last_reference_witness :
  exists s, wp (fileclose two_pages (Some no_fs) 3 true) (fun _ s' =>
    fref (files s' 3%nat) = 0 /\ pipes s' !! two_pages = Some (set_readopen 0 (wrap_pipe 3))) s.
Proof.
  destruct booted_ok as (_ & Hi & _). revert Hi. generalize booted. intros b Hi.
  destruct (pipe_state_ok b (wrap_pipe 3) _ Hi) as (Hi' & _ & _).
  exists (file_state b pipe_end). eapply wp_mono.
  - apply (fileclose_last_reference two_pages no_fs 0 3 _ [PHYSTOP - PGSIZE] (init_queues (Z.to_nat NTHREADS)) (wrap_pipe 3)); try done.
    + eapply sched_inv_same; [exact Hi'|done..].
    + apply file_state_runs.
    + split; [done|apply NoDup_singleton|by apply Forall_singleton|]. intros a. simpl. lia.
    + by intros ?%list_elem_of_singleton.
  - cbn beta. intros _ s' (_ & _ & _ & H1 & _ & H2). done.
Defined.

Lemma pipealloc_opens_ends_witness :
  exists s, wp (pipealloc two_pages (Some no_fs)) (fun res s' => exists a b, res = (0, Some a, Some b) /\
    pipes s' !! (PHYSTOP - PGSIZE) = Some new_pipe /\ IS_READABLE (fflags (files s' b)) = true) s.
Proof.
  pose (b := booted). clearbody b. exists (file_state b file_zero). eapply wp_mono.
  - apply (pipealloc_opens_ends two_pages no_fs 0 [PHYSTOP - PGSIZE]); [done|done|apply file_state_runs|done|done|].
    split; [done|apply NoDup_singleton|by apply Forall_singleton|]. intros a. simpl. lia.
  - cbn beta. intros [[r f0] f1] s' [_ H].
    assert (~ ([PHYSTOP - PGSIZE] = [] \/ few_slots (file_state b file_zero))) as Hno.
    { intros [[=]|Hf]. by specialize (Hf 0%nat 1%nat ltac:(done) ltac:(done) eq_refl eq_refl). }
    destruct r; [|exfalso; apply Hno; apply H..]. destruct f0 as [a|], f1 as [c|]; try (by destruct H).
    exists a, c. destruct H as (_ & _ & _ & (pi & l' & [= <- <-] & _ & Hp & _) & _ & _ & _ & _ & _ & _ & Hf).
    rewrite Hp, lookup_insert_eq. split_and!; [done|done|]. by injection Hf.
Defined.
