(* ===== verification/Mmap.v ===== *)
(** * kernel/mm/mmap.c and the page-fault handler of kernel/sched/trap.c

    The mapped regions of a process are its list of vma_structs; a page of a
    region is allocated, mapped and filled from the file when it is first
    touched, and written back and freed when the region is unmapped. *)
From S2P Require Import Prelude Mem CString KTypes Kalloc Vm ListHead KState Queue Sched Signal Thread ProcBase Pipe File.

Definition PROT_READ : Z := 1.
Definition PROT_WRITE : Z := 2.
Definition PROT_EXEC : Z := 4.
Definition MAP_SHARED : Z := 1.
Definition MAP_ANONYMOUS : Z := 0x20.
Definition MMAP_END_ADDRESS : Z := MMAP_MAX_ADDR_START - 1024 * 1024 * 1024.
Definition PROT2PTE_FLAGS (prot : Z) : Z :=
  Z.lor (Z.lor (if has_bits prot PROT_READ then PTE_R else 0)
               (if has_bits prot PROT_WRITE then PTE_W else 0))
        (if has_bits prot PROT_EXEC then PTE_X else 0).

(** list_for_each_entry: the link to the next entry is read after the body. *)
Fixpoint list_for_each_loop {R} (fuel : nat) (head pos : lptr) (body : lptr -> E kstate (option R)) : E kstate (option R) :=
  if bool_decide (pos = head) then mret None
  else
    match fuel with
    | O => nofuel
    | S fuel =>
      r ← body pos;
      match r with
      | Some r => mret (Some r)
      | None =>
        n ← on_list (rd_next (Some pos));
        n ← deref n;
        list_for_each_loop fuel head n body
      end
    end.

(** A list has at most as many entries as there are nodes. *)
Definition list_for_each {R} (head : lptr) (body : lptr -> E kstate (option R)) : E kstate (option R) :=
  pos ← on_list (rd_next (Some head));
  pos ← deref pos;
  fuel ← gets (fun s => size (lh s));
  list_for_each_loop fuel head pos body.

Definition get_vma (v : Z) : E kstate vma_struct := fun s => deref (vmas s !! v) s.
Definition put_vma (v : Z) (x : vma_struct) : E kstate unit :=
  modify (fun s => set_vmas (<[v := x]> (vmas s)) s).
Definition upd_vma (v : Z) (f : vma_struct -> vma_struct) : E kstate unit :=
  x ← get_vma v; put_vma v (f x).

(** container_of(l, struct vma_struct, vma_list) *)
Definition vma_of (l : lptr) : option Z := match l with Vma v => Some v | _ => None end.

Definition vma_zero : vma_struct := VmaStruct 0 0 0 0 0 0 0 None false.
Definition put_new_vma (v : Z) (s : kstate) : kstate :=
  set_lh (<[Vma v := Node None None]> (lh s)) (set_vmas (<[v := vma_zero]> (vmas s)) s).
Definition drop_vma (v : Z) (s : kstate) : kstate :=
  set_lh (delete (Vma v) (lh s)) (set_vmas (delete v (vmas s)) s).

(** 0 when there is no page; the memset clears the object. *)
Definition allocvma : E kstate Z :=
  v ← on_mach kalloc;
  if v =? 0 then mret 0 else modify (put_new_vma v);; mret v.

Definition find_vma (p : nat) (addr : Z) : E kstate Z :=
  r ← list_for_each (VmaList p) (fun l =>
        v ← deref (vma_of l);
        x ← get_vma v;
        mret (if (vm_start x <=? addr) && (addr <? vm_end x) then Some v else None));
  mret (default 0 r).

(** file->ref++ and file->ref--; a NULL file faults. *)
Definition file_ref_add (f : option nat) (d : Z) : E kstate unit :=
  f ← deref f;
  upd_file f (fun x => set_fref (i32 (fref x + d)) x).

(** *nvma = *vma also copies the links, which list_add_tail then sets. *)
Definition proc_copy_vma (p np : nat) : E kstate Z :=
  r ← list_for_each (VmaList p) (fun l =>
        vma ← deref (vma_of l);
        nvma ← allocvma;
        if nvma =? 0 then mret (Some (-1))
        else
          x ← get_vma vma;
          put_vma nvma x;;
          file_ref_add (vm_file x) 1;;
          on_list (list_add_tail (Vma nvma) (VmaList np));;
          mret None);
  mret (default 0 r).

Section Mmap.
(** As in [File]; [wfuel] bounds a blocking write to a pipe. *)
Context (kend : Z) (swtch : nat -> E kstate unit) (ch : Z).
Context (ext4 : option fs_ops).
Context (dev_write : Z -> option (bool -> Z -> Z -> E kstate Z)).
Context (wfuel : nat).

(** addr is not used. *)
Definition do_mmap (addr length prot flags fd : Z) (fp : option nat) (offset : Z) : E kstate Z :=
  p ← myproc;
  fl ← gets (fun s => (fun f => fflags (files s f)) <$> fp);
  if match fl with
     | Some fl => negb (IS_WRITABLE fl) && (has_bits prot PROT_WRITE && has_bits flags MAP_SHARED)
     | None => false
     end then mret (u64 (-1))
  else
    vma ← allocvma;
    if vma =? 0 then mret (u64 (-1))
    else
      acquire (L_mm p);;
      max ← gets (fun s => max_vma (procs s p));
      let start := PGROUNDDOWN (u64 (max - length)) in
      put_vma vma (VmaStruct 1 start (PGROUNDDOWN max) offset (i32 flags) (i32 prot) (i32 fd) fp false);;
      upd_proc p (set_max_vma start);;
      (if has_bits flags MAP_ANONYMOUS then upd_vma vma (set_vm_anon true)
       else upd_vma vma (set_vm_anon false);; file_ref_add fp 1);;
      if start <? MMAP_END_ADDRESS then
        release (L_mm p);;
        free_object kend vma drop_vma;;
        mret (u64 (-1))
      else
        on_list (list_add_tail (Vma vma) (VmaList p));;
        release (L_mm p);;
        x ← get_vma vma;
        mret (vm_start x).

(** The loop of mmap_writeback_unmapf over the pages from [va]; the bounds are
    re-read each turn, and nothing in the loop changes them. *)
Fixpoint writeback_loop (fuel : nat) (pgtable vma va len : Z) : E kstate unit :=
  x ← get_vma vma;
  if (va <? u64 (vm_start x + len)) && (va <? vm_end x) then
    match fuel with
    | O => nofuel
    | S fuel =>
      pt ← my_pagetable;
      pte ← on_mach (walk pt va false);
      panic_if (pte =? 0) "mmap_writeback: walk";;
      v ← on_mach (rd pte);
      (if (v =? 0) || (Z.land v PTE_V =? 0) then mret tt
       else
         (if has_bits v PTE_D && (has_bits (vm_flags x) MAP_SHARED && negb (vm_anon x)) then
            f ← deref (vm_file x);
            pos ← gets (fun s => fpos (files s f));
            filewrite swtch ch ext4 dev_write wfuel f true va PGSIZE pos;;
            mret tt
          else mret tt);;
         on_mach (uvmunmap kend pgtable va 1 true);;
         on_mach (wr pte 0));;
      writeback_loop fuel pgtable vma (u64 (va + PGSIZE)) len
    end
  else mret tt.

Definition mmap_writeback_unmapf (pgtable vma len : Z) : E kstate Z :=
  x ← get_vma vma;
  let va := PGROUNDDOWN (vm_start x) in
  writeback_loop (Z.to_nat ((vm_end x - va) / PGSIZE + 1)) pgtable vma va len;;
  p ← myproc;
  acquire (L_mm p);;
  upd_vma vma (fun x => set_vm_start (u64 (vm_start x + len)) x);;
  release (L_mm p);;
  mret 0.

Definition do_munmap (addr len : Z) : E kstate Z :=
  p ← myproc;
  acquire (L_mm p);;
  vma ← find_vma p addr;
  release (L_mm p);;
  if vma =? 0 then mret (-1)
  else
    pt ← gets (fun s => pagetable (procs s p));
    mmap_writeback_unmapf pt vma len;;
    acquire (L_mm p);;
    x ← get_vma vma;
    (if vm_end x <=? vm_start x then
       (if vm_anon x then mret tt else file_ref_add (vm_file x) (-1));;
       on_list (list_del (Vma vma));;
       free_object kend vma drop_vma
     else mret tt);;
    release (L_mm p);;
    mret 0.

(** vma->vm_end - vma->vm_start is passed as an int. *)
Definition freeprocvm (p : nat) : E kstate unit :=
  for_each_safe (R := unit) (VmaList p) (fun l =>
    vma ← deref (vma_of l);
    pt ← gets (fun s => pagetable (procs s p));
    x ← get_vma vma;
    mmap_writeback_unmapf pt vma (i32 (u64 (vm_end x - vm_start x)));;
    acquire (L_mm p);;
    on_list (list_del (Vma vma));;
    release (L_mm p);;
    free_object kend vma drop_vma;;
    mret None);;
  mret tt.

Definition setperm (pt va perm : Z) : E kstate Z :=
  if MAXVA <=? va then mret (-1)
  else
    pte ← on_mach (walk pt va false);
    if pte =? 0 then mret 0
    else
      v ← on_mach (rd pte);
      if Z.land v PTE_V =? 0 then mret 0
      else if Z.land v PTE_U =? 0 then mret (-1)
      else on_mach (wr pte (Z.lor v perm));; mret 0.

Fixpoint mprotect_loop (n : nat) (pt va perm : Z) : E kstate unit :=
  match n with
  | O => mret tt
  | S n =>
    r ← setperm pt va perm;
    panic_if (negb (r =? 0)) "out of maxva or not user page";;
    mprotect_loop n pt (u64 (va + PGSIZE)) perm
  end.

(** PGROUNDDOWN(size) of the int [size]. *)
Definition do_mprotect (addr size prot : Z) : E kstate Z :=
  p ← myproc;
  acquire (L_mm p);;
  vma ← find_vma p addr;
  (if vma =? 0 then mret tt
   else
     x ← get_vma vma;
     if (addr <? vm_start x) || (vm_end x <? u64 (addr + size)) then mret tt
     else upd_vma vma (set_vm_prot prot));;
  release (L_mm p);;
  let pgnum := Z.quot (PGROUNDDOWN size) PGSIZE in
  let perm := Z.lor (PROT2PTE_FLAGS prot) PTE_U in
  pt ← gets (fun s => pagetable (procs s p));
  mprotect_loop (Z.to_nat pgnum) pt addr perm;;
  mret 0.

(** kernel/sched/trap.c, the RISC-V build; [stval] is r_stval(). *)
Definition pgfault_handler (stval : Z) : E kstate unit :=
  let va := PGROUNDDOWN stval in
  p ← myproc;
  acquire (L_mm p);;
  vma ← find_vma p va;
  panic_if (vma =? 0) "usertrap: page fault";;
  mem ← on_mach kzalloc;
  panic_if (mem =? 0) "usertrap: kalloc";;
  pt ← gets (fun s => pagetable (procs s p));
  x ← get_vma vma;
  r ← on_mach (mappages pt va PGSIZE mem (Z.lor (Z.lor (PROT2PTE_FLAGS (vm_prot x)) PTE_U) PTE_X));
  panic_if (negb (r =? 0)) "usertrap: mappages";;
  release (L_mm p);;
  if vm_anon x then mret tt
  else
    f ← deref (vm_file x);
    ops ← deref ext4;
    rc ← fop_read ops f true va (i32 (u64 (va - vm_start x))) PGSIZE;
    panic_if (negb (rc.1 =? 0)) "usertrap: read file failed".
End Mmap.
