(* ===== verification/Futex.v ===== *)
(** * kernel/ipc/futex.c, kernel/include/hash.h: futexes

    The hash table from user addresses to futexes, and waiting on and waking a
    futex.  The list heads of the table are the nodes [FHead i]; a
    futex_hash_node at page [n] is [fhnodes s !! n] with the node [FNode n]; a
    struct futex at page [fp] is an element of [futexes s] with the queue
    [FutexQ fp]. *)
From S2P Require Import Prelude Mem CString KTypes Kalloc Vm ListHead KState Queue Sched Signal Thread ThreadInv SchedSpec ProcBase Pipe.
Definition FUTEX_NUM : Z := 32.

Definition FUTEX_WAIT : Z := 0.
Definition FUTEX_WAKE : Z := 1.
Definition FUTEX_LOCK_PI : Z := 6.
Definition FUTEX_WAIT_BITSET : Z := 9.
Definition FUTEX_WAIT_REQUEUE_PI : Z := 11.
Definition FUTEX_LOCK_PI2 : Z := 13.
Definition FUTEX_PRIVATE_FLAG : Z := 128.
Definition FUTEX_WAIT_PRIVATE : Z := Z.lor FUTEX_WAIT FUTEX_PRIVATE_FLAG.
Definition FUTEX_WAKE_PRIVATE : Z := Z.lor FUTEX_WAKE FUTEX_PRIVATE_FLAG.

(** ** kernel/include/hash.h *)

(** table->hash_head[i], zeroed, for every i below the size of the table. *)
Definition put_hash_heads (a : Z) (s : kstate) : kstate :=
  set_lh (foldr (fun i h => <[FHead (Z.of_nat i) := Node None None]> h) (lh s) (seq 0 (Z.to_nat FUTEX_NUM))) s.

Fixpoint init_heads (n : nat) (i : Z) : E kstate unit :=
  match n with
  | O => mret tt
  | S n => on_list (INIT_LIST_HEAD (FHead i));; init_heads n (i + 1)
  end.

(** sizeof(struct hash_entry) is 16. *)
Definition hash_table_entry_init : E kstate unit :=
  alloc_object (16 * FUTEX_NUM) put_hash_heads;;
  init_heads (Z.to_nat FUTEX_NUM) 0.

Definition __futex_hash_key (key : Z) : Z := key.

Definition hash_get_entry (key : Z) : lptr := FHead (__futex_hash_key key mod FUTEX_NUM).

(** ** The futex table *)

Definition futex_hash_init : E kstate unit :=
  initlock L_futex_table;;
  hash_table_entry_init.

Definition get_fhnode (n : Z) : E kstate fhnode := fun s => deref (fhnodes s !! n) s.

(** container_of(l, struct futex_hash_node, futex_hash_list_node) *)
Definition fhnode_of (l : lptr) : option Z := match l with FNode n => Some n | _ => None end.

(** The address of the struct futex, 0 if there is none. *)
Definition __futex_hash_lookup (uaddr : Z) : E kstate Z :=
  r ← for_each_safe (hash_get_entry uaddr) (fun pos =>
        n ← deref (fhnode_of pos);
        x ← get_fhnode n;
        mret (if fh_uaddr x =? uaddr then Some (fh_fp x) else None));
  mret (default 0 r).

Definition __futex_hash_insert (fhn : Z) : E kstate Z :=
  x ← get_fhnode fhn;
  fp_old ← __futex_hash_lookup (fh_uaddr x);
  if negb (fp_old =? 0) then mret (-1)
  else
    on_list (INIT_LIST_HEAD (FNode fhn));;
    on_list (list_add_tail (FNode fhn) (hash_get_entry (fh_uaddr x)));;
    mret 0.

(** sizeof(struct futex), sizeof(struct futex_hash_node). *)
Definition FUTEX_SIZE : Z := 88.
Definition FHNODE_SIZE : Z := 32.

Definition put_futex (fp : Z) (s : kstate) : kstate :=
  set_lh (<[QHead (FutexQ fp) := Node None None]> (lh s)) (set_futexes ({[fp]} ∪ futexes s) s).
Definition drop_futex (fp : Z) (s : kstate) : kstate :=
  set_lh (delete (QHead (FutexQ fp)) (lh s)) (set_futexes (futexes s ∖ {[fp]}) s).
Definition put_fhnode (n : Z) (s : kstate) : kstate :=
  set_lh (<[FNode n := Node None None]> (lh s)) (set_fhnodes (<[n := Fhnode 0 0]> (fhnodes s)) s).
Definition drop_fhnode (n : Z) (s : kstate) : kstate :=
  set_lh (delete (FNode n) (lh s)) (set_fhnodes (delete n (fhnodes s)) s).

Definition futex_init (fp : Z) (name : string) : E kstate unit :=
  queue_init (FutexQ fp) name TCB_WAIT_QUEUE.

Definition futex_need_timeout (futex_op : Z) : bool :=
  (futex_op =? FUTEX_WAIT) || (futex_op =? FUTEX_WAIT_BITSET) ||
  (futex_op =? FUTEX_WAIT_REQUEUE_PI) || (futex_op =? FUTEX_LOCK_PI) ||
  (futex_op =? FUTEX_LOCK_PI2) || (futex_op =? FUTEX_WAIT_PRIVATE).

Section Futex.
(** [extern char end[]]; the address of the local variable uval of futex_wait;
    the switch to the scheduler. *)
Context (kend uval : Z) (swtch : nat -> E kstate unit).

(** The result of the lookup, a struct futex pointer, is used as a
    futex_hash_node pointer: no such node is there, and following it faults. *)
Definition __futex_hash_delete (uaddr : Z) : E kstate unit :=
  fhn ← __futex_hash_lookup uaddr;
  if fhn =? 0 then mret tt
  else
    x ← get_fhnode fhn;
    free_object kend (fh_fp x) drop_futex;;
    on_list (list_del (FNode fhn));;
    free_object kend fhn drop_fhnode.

Definition futex_free (uaddr : Z) : E kstate unit :=
  acquire L_futex_table;;
  __futex_hash_delete uaddr;;
  release L_futex_table.

(** The label bad. *)
Definition get_futex_bad (fp fhn : Z) : E kstate Z :=
  release L_futex_table;;
  (if fp =? 0 then mret tt else free_object kend fp drop_futex);;
  (if fhn =? 0 then mret tt else free_object kend fhn drop_fhnode);;
  mret 0.

Definition get_futex (uaddr : Z) (assert : Z) : E kstate Z :=
  acquire L_futex_table;;
  fp ← __futex_hash_lookup uaddr;
  if negb (fp =? 0) then get_futex_bad fp 0
  else if assert =? 1 then get_futex_bad fp 0
  else
    fp ← alloc_object FUTEX_SIZE put_futex;
    if fp =? 0 then get_futex_bad fp 0
    else
      futex_init fp "futex";;
      fhn ← alloc_object FHNODE_SIZE put_fhnode;
      if fhn =? 0 then get_futex_bad fp fhn
      else
        modify (fun s => set_fhnodes (<[fhn := Fhnode uaddr fp]> (fhnodes s)) s);;
        __futex_hash_insert fhn;;
        release L_futex_table;;
        mret fp.

Definition futex_wait (uaddr val : Z) (tmo : option timespec) : E kstate Z :=
  p ← myproc;
  t ← mythread;
  on_mach (upd_mem (fun m => store m uval 4 0));;
  pt ← gets (fun s => pagetable (procs s p));
  r ← on_mach (copyin pt uval uaddr 4);
  if r <? 0 then mret (-1)
  else
    v ← gets (fun s => load (mmem (km s)) uval 4);
    if negb (v =? val) then mret 0
    else
      fp ← get_futex uaddr 0;
      if fp =? 0 then mret (-1)
      else
        acquire L_timeout;;
        acquire (L_tcb t);;
        release L_timeout;;
        tcb_q_change_state t TCB_SLEEPING;;
        queue_push_back (FutexQ fp) t;;
        upd_tcb t (set_wait_chan_entry (Some (FutexQ fp)));;
        match tmo with
        | Some ts => n ← get_timeout_ticks ts; upd_tcb t (set_timeout n)
        | None => mret tt
        end;;
        thread_sched swtch;;
        release (L_tcb t);;
        mret 0.

(** while (!queue_isempty_atomic(...) && ret < nr_wake): at most nr_wake turns. *)
Fixpoint futex_wake_loop (fuel : nat) (fp nr_wake ret : Z) : E kstate Z :=
  e ← queue_isempty_atomic (FutexQ fp);
  if negb e && (ret <? nr_wake) then
    match fuel with
    | O => nofuel
    | S fuel =>
      t ← queue_pop_atomic (FutexQ fp) true;
      match t with
      | None => panic "futex wakeup : no waiting queue"
      | Some t =>
        st ← gets (fun s => tstate (tcbs s t));
        panic_if (bool_decide (st <> TCB_SLEEPING)) "futex wakeup : this thread is not sleeping";;
        acquire (L_tcb t);;
        w ← gets (fun s => wait_chan_entry (tcbs s t));
        ASSERT (bool_decide (w <> None));;
        upd_tcb t (set_wait_chan_entry None);;
        tcb_q_change_state t TCB_RUNNABLE;;
        release (L_tcb t);;
        futex_wake_loop fuel fp nr_wake (i32 (ret + 1))
      end
    end
  else mret ret.

Definition futex_wake (uaddr nr_wake : Z) : E kstate Z :=
  fp ← get_futex uaddr 1;
  if fp =? 0 then mret 0
  else
    ret ← futex_wake_loop (Z.to_nat nr_wake) fp nr_wake 0;
    e ← queue_isempty_atomic (FutexQ fp);
    (if (e : bool) then futex_free uaddr else mret tt);;
    mret ret.

Definition do_futex (uaddr futex_op val : Z) (tmo : option timespec) : E kstate Z :=
  if (futex_op =? FUTEX_WAIT) || (futex_op =? FUTEX_WAIT_PRIVATE) then futex_wait uaddr val tmo
  else if (futex_op =? FUTEX_WAKE) || (futex_op =? FUTEX_WAKE_PRIVATE) then futex_wake uaddr (i32 val)
  else mret (-1).
End Futex.

(** * The futex table

    The hash table maps user addresses to futexes: insert and lookup agree.
    get_futex answers NULL for an address that has a futex, and frees it; so a
    wake never finds the waiting threads. *)

Section Table.
Context (kend : Z).
Hypothesis kend_pos : 0 < kend.

(** [tb i] are the nodes of bucket [i], in order; [l] the free pages. *)
Record futex_inv (s : kstate) (l : list Z) (tb : Z -> list Z) : Prop := {
  fi_ring : forall i, 0 <= i < FUTEX_NUM -> ring (lh s) (FHead i) (FNode <$> tb i);
  fi_node : forall i n, n ∈ tb i -> exists x, fhnodes s !! n = Some x /\ fh_uaddr x mod FUTEX_NUM = i /\
    valid_page kend (fh_fp x) /\ fh_fp x ∉ l /\ n ∉ l;
  fi_mem : kmem_inv kend (km s) l;
}.

(** The futex of [u] according to the nodes [ns]. *)
Fixpoint futex_of (s : kstate) (ns : list Z) (u : Z) : Z :=
  match ns with
  | [] => 0
  | n :: ns =>
    match fhnodes s !! n with
    | Some x => if fh_uaddr x =? u then fh_fp x else futex_of s ns u
    | None => 0
    end
  end.

Lemma futex_of_ext s s' ns u : (forall n, n ∈ ns -> fhnodes s' !! n = fhnodes s !! n) -> futex_of s' ns u = futex_of s ns u.
Proof.
  induction ns as [|n ns IH]; intros H; cbn [futex_of]; [done|]. rewrite (H n) by (apply elem_of_cons; by left).
  rewrite IH; [done|]. intros n' Hn'. apply H, elem_of_cons. by right.
Qed.

Definition bucket (u : Z) : Z := u mod FUTEX_NUM.

Lemma bucket_range u : 0 <= bucket u < FUTEX_NUM.
Proof. apply Z.mod_pos_bound. done. Qed.

Lemma wp_lookup u ns (Q : Z -> kstate -> Prop) s :
  ring (lh s) (FHead (bucket u)) (FNode <$> ns) -> (forall n, n ∈ ns -> is_Some (fhnodes s !! n)) ->
  Q (futex_of s ns u) s -> wp (__futex_hash_lookup u) Q s.
Proof.
  intros Hr Hn HQ. unfold __futex_hash_lookup. apply wp_bind.
  destruct (ring_chain _ _ _ Hr) as [Hh Hc].
  apply (wp_for_each_safe _ _ (fun ys s1 => s1 = s /\ exists ns1 ns2, ns = ns1 ++ ns2 /\ ys = FNode <$> ns2 /\
    futex_of s ns u = futex_of s ns2 u) _) with (ys := FNode <$> ns).
  - intros ys s1 (-> & ns1 & ns2 & -> & -> & _). rewrite fmap_app in Hc. by eapply chain_app.
  - intros y ys s1 (-> & ns1 & ns2 & Hns & Hy & Hf). destruct ns2 as [|n ns2]; [done|]. injection Hy as -> ->.
    apply wp_bind. eapply wp_deref; [done|].
    destruct (Hn n) as [x Hx]; [rewrite Hns; apply elem_of_app; right; apply elem_of_cons; by left|].
    apply wp_bind. unfold get_fhnode. eapply wp_run; [by rewrite Hx|]. apply wp_ret.
    simpl in Hf. rewrite Hx in Hf. destruct (fh_uaddr x =? u); [apply wp_ret; simpl; by rewrite <- Hf|].
    split; [done|]. exists (ns1 ++ [n]), ns2. rewrite <- app_assoc. done.
  - intros s1 (-> & ns1 & ns2 & _ & Hy & Hf). destruct ns2; [|done]. apply wp_ret. simpl in *. by rewrite <- Hf.
  - split; [done|]. by exists [], ns.
  - destruct Hr as (Hnd & _). by apply NoDup_cons in Hnd as [? _].
  - done.
  - by eapply ring_size.
Qed.

Lemma wp_inv_lookup s l tb u (Q : Z -> kstate -> Prop) :
  futex_inv s l tb -> Q (futex_of s (tb (bucket u)) u) s -> wp (__futex_hash_lookup u) Q s.
Proof.
  intros [Hr Hn _] HQ. apply (wp_lookup _ (tb (bucket u))); [apply Hr, bucket_range| |done].
  intros n Hin. destruct (Hn _ _ Hin) as (x & -> & _). done.
Qed.

Lemma futex_of_found s l tb u i : futex_inv s l tb -> futex_of s (tb i) u <> 0 ->
  valid_page kend (futex_of s (tb i) u) /\ futex_of s (tb i) u ∉ l.
Proof.
  intros [_ Hn _]. assert (forall n, n ∈ tb i -> exists x, fhnodes s !! n = Some x /\ valid_page kend (fh_fp x) /\ fh_fp x ∉ l) as H.
  { intros n Hin. destruct (Hn _ _ Hin) as (x & ? & _ & ? & ? & _). by exists x. }
  clear Hn. revert H. generalize (tb i). intros ns. induction ns as [|n ns IH]; intros H; [done|]. cbn [futex_of].
  destruct (H n) as (x & -> & Hx); [apply elem_of_cons; by left|]. destruct (fh_uaddr x =? u); [done|].
  apply IH. intros n' Hn'. apply H, elem_of_cons. by right.
Qed.

Lemma futex_inv_held s l tb h : futex_inv s l tb -> futex_inv (set_km (set_held h (km s)) s) l tb.
Proof. intros [Hr Hn [H1 H2 H3 H4]]. by split. Qed.

(** Asking for the futex of an address that has one frees it and answers NULL. *)
Lemma wp_get_futex_found s l tb u a :
  futex_inv s l tb -> L_futex_table ∉ held (km s) -> L_kmem ∉ held (km s) ->
  let fp := futex_of s (tb (bucket u)) u in fp <> 0 ->
  wp (get_futex kend u a) (fun r s' => r = 0 /\ exists m, s' = drop_futex fp (set_km m s) /\
    kmem_inv kend m (fp :: l) /\ held m = held (km s)) s.
Proof.
  intros Hi Hl Hk fp Hfp. destruct (futex_of_found _ _ _ _ _ Hi Hfp) as [Hv Hni].
  unfold get_futex. apply wp_bind, wp_kacquire; [done|].
  apply wp_bind, (wp_inv_lookup _ l tb); [by apply futex_inv_held|].
  rewrite (futex_of_ext s) by done. fold fp.
  rewrite (proj2 (Z.eqb_neq fp 0) Hfp). cbn [negb]. unfold get_futex_bad. rewrite (proj2 (Z.eqb_neq fp 0) Hfp).
  apply wp_bind. eapply wp_krelease; [done|done|]. cbn [km set_km]. rewrite km_restore.
  apply wp_bind, (wp_free_object kend kend_pos _ _ l); [by destruct Hi|done|done|done|].
  intros m Hm Hh. apply wp_bind, wp_ret, wp_ret. split; [done|]. by exists m.
Qed.

Lemma wp_get_futex_absent s l tb u :
  futex_inv s l tb -> L_futex_table ∉ held (km s) -> futex_of s (tb (bucket u)) u = 0 ->
  wp (get_futex kend u 1) (fun r s' => r = 0 /\ s' = s) s.
Proof.
  intros Hi Hl Hfp. unfold get_futex. apply wp_bind, wp_kacquire; [done|].
  apply wp_bind, (wp_inv_lookup _ l tb); [by apply futex_inv_held|].
  rewrite (futex_of_ext s), Hfp by done. cbn. unfold get_futex_bad.
  apply wp_bind. eapply wp_krelease; [done|done|]. cbn [km set_km]. rewrite km_restore.
  apply wp_bind, wp_ret, wp_bind, wp_ret, wp_ret. done.
Qed.

(** ** Registering a futex *)

(** A page taken for an object. *)
Lemma wp_alloc_object sz put p l (Q : Z -> kstate -> Prop) s :
  sz <= PGSIZE -> kmem_inv kend (km s) (p :: l) -> L_kmem ∉ held (km s) ->
  (forall m, kmem_inv kend m l -> held m = held (km s) -> Q p (put p (set_km m s))) -> wp (alloc_object sz put) Q s.
Proof.
  intros Hsz Hk Hl HQ. unfold alloc_object, kmalloc. rewrite (proj2 (Z.ltb_ge PGSIZE sz)) by done.
  apply wp_bind, (wp_on_kalloc kend kend_pos (p :: l)); [done|done|done|].
  intros ? ? m [= <- <-] Hv Hm Hh. rewrite (proj2 (Z.eqb_neq p 0)) by (destruct Hv; lia).
  apply wp_bind, wp_modify, wp_ret. by apply HQ.
Qed.

(** A node at the end of its bucket. *)
Lemma wp_hash_insert s n ns u fp (Q : Z -> kstate -> Prop) :
  fhnodes s !! n = Some (Fhnode u fp) -> is_Some (lh s !! FNode n) -> n ∉ ns ->
  ring (lh s) (FHead (bucket u)) (FNode <$> ns) -> (forall n, n ∈ ns -> is_Some (fhnodes s !! n)) -> futex_of s ns u = 0 ->
  (forall h', only_at (FNode n :: FHead (bucket u) :: (FNode <$> ns)) (lh s) h' ->
     ring h' (FHead (bucket u)) (FNode <$> (ns ++ [n])) -> Q 0 (set_lh h' s)) ->
  wp (__futex_hash_insert n) Q s.
Proof.
  intros Hx Hd Hni Hr Hn Hf HQ. unfold __futex_hash_insert. apply wp_bind. unfold get_fhnode. eapply wp_run; [by rewrite Hx|].
  apply wp_bind, (wp_lookup _ ns); [done|done|]. simpl. rewrite Hf. cbn [Z.eqb negb].
  assert (FNode n ∉ FHead (bucket u) :: (FNode <$> ns)) as Hni'.
  { rewrite elem_of_cons. intros [[=]|(n' & [= <-] & H)%list_elem_of_fmap]. done. }
  apply wp_bind, wp_zoom, wp_init_list; [done|]. intros h1 [D1 S1] _.
  apply wp_bind, wp_zoom. cbn [lh set_lh]. apply (wp_list_add_tail _ _ (FNode <$> ns)); [|done|by apply D1|].
  - eapply ring_frame; [done|]. intros x Hx'. apply S1. by intros ->%list_elem_of_singleton.
  - intros h2 [D2 S2] Hr2. apply wp_ret. change (set_lh h2 (set_lh h1 s)) with (set_lh h2 s). apply HQ.
    + split; [intros x; by rewrite D2, D1|]. intros x Hx'. rewrite S2 by done. apply S1.
      intros ->%list_elem_of_singleton. apply Hx', elem_of_cons. by left.
    + by rewrite fmap_app.
Qed.

(** The table with [n] at the end of the bucket of [u]. *)
Definition tb_add (tb : Z -> list Z) (u n : Z) : Z -> list Z :=
  fun i => if i =? bucket u then tb i ++ [n] else tb i.

Lemma elem_tb_add tb u n i n' : n' ∈ tb_add tb u n i <-> n' ∈ tb i \/ (i = bucket u /\ n' = n).
Proof.
  unfold tb_add. destruct (Z.eqb_spec i (bucket u)) as [->|]; [rewrite elem_of_app, list_elem_of_singleton|]; naive_solver.
Qed.

(** What the new node changes, when the others are kept. *)
Lemma futex_inv_add s s' l tb u n fp m :
  futex_inv s (fp :: n :: l) tb -> kmem_inv kend m l -> km s' = m ->
  fhnodes s' !! n = Some (Fhnode u fp) -> (forall n', n' <> n -> fhnodes s' !! n' = fhnodes s !! n') ->
  (forall i, 0 <= i < FUTEX_NUM -> ring (lh s') (FHead i) (FNode <$> tb_add tb u n i)) ->
  futex_inv s' l (tb_add tb u n).
Proof.
  intros [_ Hn [_ Hnd Hv _]] Hm Hkm Hx Hkeep Hr. apply NoDup_cons in Hnd as [Hf1 [Hf2 _]%NoDup_cons].
  apply Forall_cons_1 in Hv as [Hv _]. split; [done| |by rewrite Hkm].
  intros i n' [Hin|[-> ->]]%elem_tb_add.
  - destruct (Hn _ _ Hin) as (x & H1 & H2 & H3 & H4 & H5). exists x. rewrite Hkeep by (intros ->; set_solver).
    split_and!; set_solver.
  - exists (Fhnode u fp). split_and!; [done|done|done|set_solver|done].
Qed.

Lemma futex_of_app s ns n u fp v : (forall n', n' ∈ ns -> is_Some (fhnodes s !! n')) -> fhnodes s !! n = Some (Fhnode u fp) ->
  (forall n' x, n' ∈ ns -> fhnodes s !! n' = Some x -> fh_fp x <> 0) -> futex_of s ns u = 0 ->
  futex_of s (ns ++ [n]) v = if v =? u then fp else futex_of s ns v.
Proof.
  intros Hs Hx H0 Hu. induction ns as [|n' ns IH]; cbn [futex_of app].
  - rewrite Hx. simpl. by rewrite Z.eqb_sym.
  - destruct (Hs n') as [x Hx']; [apply elem_of_cons; by left|]. cbn [futex_of] in Hu. rewrite Hx' in *.
    assert (fh_uaddr x <> u) as Hne.
    { intros Heq. rewrite Heq, Z.eqb_refl in Hu. eapply H0; [apply elem_of_cons; by left|done|done]. }
    rewrite (proj2 (Z.eqb_neq _ _) Hne) in Hu. rewrite IH; [| |intros; eapply H0; [apply elem_of_cons; by right|done]|done].
    2:{ intros n2 Hn2. apply Hs, elem_of_cons. by right. }
    destruct (Z.eqb_spec (fh_uaddr x) v) as [<-|]; [|done]. by rewrite (proj2 (Z.eqb_neq _ _) Hne).
Qed.

Lemma futex_of_add s s' l tb u n fp v :
  futex_inv s (fp :: n :: l) tb -> fhnodes s' !! n = Some (Fhnode u fp) ->
  (forall n', n' <> n -> fhnodes s' !! n' = fhnodes s !! n') -> futex_of s (tb (bucket u)) u = 0 ->
  futex_of s' (tb_add tb u n (bucket v)) v = if v =? u then fp else futex_of s (tb (bucket v)) v.
Proof.
  intros [_ Hn _] Hx Hkeep Hf.
  assert (Hold : forall i n', n' ∈ tb i -> fhnodes s' !! n' = fhnodes s !! n').
  { intros i n' Hin. apply Hkeep. intros ->. destruct (Hn _ _ Hin) as (_ & _ & _ & _ & _ & H). set_solver. }
  unfold tb_add. destruct (Z.eqb_spec (bucket v) (bucket u)) as [->|Hb].
  - rewrite (futex_of_app _ _ _ u fp); [|intros n' Hin; rewrite (Hold _ _ Hin); by destruct (Hn _ _ Hin) as (x & -> & _)|done| |].
    + by rewrite (futex_of_ext s) by apply Hold.
    + intros n' x Hin Hx'. rewrite (Hold _ _ Hin) in Hx'. destruct (Hn _ _ Hin) as (x' & E & _ & [] & _). assert (x = x') as -> by congruence. lia.
    + by rewrite (futex_of_ext s) by apply Hold.
  - rewrite (proj2 (Z.eqb_neq v u)) by (intros ->; done). apply futex_of_ext, Hold.
Qed.

(** The second half of get_futex: [s1] is the state once the futex is made. *)
Lemma wp_enter_node (s s1 : kstate) fp n l tb u h :
  futex_inv s (fp :: n :: l) tb -> futex_of s (tb (bucket u)) u = 0 ->
  kmem_inv kend (km s1) (n :: l) -> held (km s1) = L_futex_table :: h -> L_futex_table ∉ h -> L_kmem ∉ h ->
  fhnodes s1 = fhnodes s -> (forall x, x <> QHead (FutexQ fp) -> lh s1 !! x = lh s !! x) ->
  wp (fhn ← alloc_object FHNODE_SIZE put_fhnode;
      if fhn =? 0 then get_futex_bad kend fp fhn
      else modify (fun s => set_fhnodes (<[fhn := Fhnode u fp]> (fhnodes s)) s);;
           __futex_hash_insert fhn;; release L_futex_table;; mret fp)
    (fun r s' => r = fp /\ futex_inv s' l (tb_add tb u n) /\ held (km s') = h /\
      tcbs s' = tcbs s1 /\ queues s' = queues s1 /\ lh s' !! QHead (FutexQ fp) = lh s1 !! QHead (FutexQ fp) /\
      fhnodes s' !! n = Some (Fhnode u fp) /\ forall n', n' <> n -> fhnodes s' !! n' = fhnodes s !! n') s1.
Proof.
  intros Hi Hf Hm Hh Hl Hk Hfh Hlh. pose proof Hi as [Hr Hn _].
  assert (n <> 0) as Hn0 by (destruct Hm as [_ _ Hv _]; apply Forall_cons_1 in Hv as [[] _]; lia).
  assert (Hni : forall i, n ∉ tb i) by (intros i Hin; destruct (Hn _ _ Hin) as (_ & _ & _ & _ & _ & ?); set_solver).
  apply wp_bind, (wp_alloc_object _ _ n l); [done|done|rewrite Hh; set_solver|]. intros m Hm2 Hh2.
  rewrite (proj2 (Z.eqb_neq n 0) Hn0). apply wp_bind, wp_modify.
  set (s2 := set_fhnodes _ _).
  assert (Hfh2 : forall n', n' <> n -> fhnodes s2 !! n' = fhnodes s !! n').
  { intros n' Hne. unfold s2, put_fhnode. cbn. by rewrite !lookup_insert_ne, Hfh by done. }
  assert (Hr2 : forall i, 0 <= i < FUTEX_NUM -> ring (lh s2) (FHead i) (FNode <$> tb i)).
  { intros i Hrange. eapply ring_frame; [by apply Hr|]. intros x Hx.
    assert (x <> FNode n /\ x <> QHead (FutexQ fp)) as [Hx1 Hx2].
    { apply elem_of_cons in Hx as [->|(n' & -> & Hn')%list_elem_of_fmap]; [done|]. split; [|done]. intros [= ->]. by eapply Hni. }
    unfold s2, put_fhnode. cbn. by rewrite lookup_insert_ne, Hlh by done. }
  apply wp_bind, (wp_hash_insert s2 n (tb (bucket u)) u fp).
  - unfold s2. cbn. by rewrite lookup_insert_eq.
  - unfold s2. cbn. by rewrite lookup_insert_eq.
  - apply Hni.
  - apply Hr2, bucket_range.
  - intros n' Hin. destruct (Hn _ _ Hin) as (x & Hx & _). rewrite Hfh2 by (intros ->; by eapply Hni). by rewrite Hx.
  - rewrite (futex_of_ext s); [done|]. intros n' Hin. apply Hfh2. intros ->. by eapply Hni.
  - intros h' [D S] Hr'. apply wp_bind. eapply wp_krelease; [unfold s2; cbn; by rewrite Hh2|done|]. apply wp_ret.
    split_and!; try done.
    + eapply (futex_inv_add s _ l tb u n fp); [done| |done|unfold s2; cbn; by rewrite lookup_insert_eq|exact Hfh2|].
      * by destruct Hm2.
      * intros i Hrange. unfold tb_add. destruct (Z.eqb_spec i (bucket u)) as [->|Hne]; [exact Hr'|].
        eapply ring_frame; [by apply Hr2|]. intros x Hx. apply S.
        rewrite !elem_of_cons. apply elem_of_cons in Hx as [->|(n' & -> & Hn')%list_elem_of_fmap].
        -- intros [[=]|[[= ?]|(? & [=] & _)%list_elem_of_fmap]]. done.
        -- intros [[= ->]|[[=]|(n2 & [= <-] & Hn2)%list_elem_of_fmap]]; [by eapply Hni|].
           destruct (Hn _ _ Hn') as (x1 & E1 & B1 & _). destruct (Hn _ _ Hn2) as (x2 & E2 & B2 & _). congruence.
    + etrans; [apply S|].
      * rewrite !elem_of_cons. by intros [[=]|[[=]|(? & [=] & _)%list_elem_of_fmap]].
      * unfold s2, put_fhnode. cbn [lh set_lh set_fhnodes set_km]. by rewrite lookup_insert_ne.
    + unfold s2. cbn. by rewrite lookup_insert_eq.
Qed.

(** get_futex on an address without a futex, with two free pages, makes a
    futex with an empty waiting queue and enters it in the hash table: looking
    the address up then finds it, and every other address keeps its futex. *)
Theorem get_futex_registers (s : kstate) (fp n : Z) (l : list Z) (tb : Z -> list Z) (u : Z) :
  futex_inv s (fp :: n :: l) tb -> L_futex_table ∉ held (km s) -> L_kmem ∉ held (km s) ->
  L_queue (FutexQ fp) ∉ held (km s) -> futex_of s (tb (bucket u)) u = 0 ->
  wp (get_futex kend u 0) (fun r s' => r = fp /\ futex_inv s' l (tb_add tb u n) /\ queue_is s' (FutexQ fp) [] /\
    tcbs s' = tcbs s /\ held (km s') = held (km s) /\
    forall v, futex_of s' (tb_add tb u n (bucket v)) v = if v =? u then fp else futex_of s (tb (bucket v)) v) s.
Proof.
  intros Hi Hl Hk Hq Hf. pose proof Hi as [Hr Hn Hm]. unfold get_futex. apply wp_bind, wp_kacquire; [done|].
  apply wp_bind, (wp_inv_lookup _ (fp :: n :: l) tb); [by apply futex_inv_held|]. rewrite (futex_of_ext s), Hf by done. cbn [Z.eqb negb].
  apply wp_bind, (wp_alloc_object _ _ fp (n :: l)); [done|by destruct Hm|by apply not_elem_of_cons|]. intros m1 Hm1 Hh1.
  assert (fp <> 0) as Hfp0 by (destruct Hm as [_ _ Hv _]; apply Forall_cons_1 in Hv as [[] _]; lia).
  rewrite (proj2 (Z.eqb_neq fp 0) Hfp0). apply wp_bind. unfold futex_init. apply wp_queue_init; [by intros [=]| | |].
  { cbn [lh put_futex set_lh]. by rewrite lookup_insert_eq. }
  { cbn [km put_futex set_lh set_futexes set_km]. rewrite Hh1. by apply not_elem_of_cons. }
  intros s3 Hq3 Ht3 [D3 S3] _ Hs3 Hk3.
  assert (fhnodes s3 = fhnodes s /\ tcbs s3 = tcbs s) as [Hf3 Htc3]
    by (split; [apply (f_equal fhnodes) in Hs3|apply (f_equal tcbs) in Hs3]; exact Hs3).
  eapply wp_mono.
  { apply (wp_enter_node s s3 fp n l tb u (held (km s))); [done|done|by rewrite Hk3|by rewrite Hk3; simpl; rewrite Hh1|done|done|done|].
    intros x Hx. rewrite S3 by (by intros ?%list_elem_of_singleton). cbn. by rewrite lookup_insert_ne. }
  cbn beta. intros r s' (-> & Hi' & Hh' & Ht' & Hqs & Hqh & Hx & Hfh). split; [done|]. split; [exact Hi'|]. split; [|split; [by rewrite Ht'|split; [exact Hh'|]]].
  - eapply queue_is_frame; [exact Hq3|by rewrite Hqs|]. by intros x ->%list_elem_of_singleton.
  - intros v. by apply (futex_of_add s s' l).
Qed.

(** futex_wake wakes no thread, whatever waits on the address: it answers 0
    and every thread keeps its state.  If the address has a futex, its page goes
    back to the page allocator, while the threads that wait on it stay linked in
    it. *)
Theorem futex_wake_wakes_nobody (s : kstate) (l : list Z) (tb : Z -> list Z) (u nr_wake : Z) :
  futex_inv s l tb -> L_futex_table ∉ held (km s) -> L_kmem ∉ held (km s) ->
  wp (futex_wake kend u nr_wake) (fun r s' =>
    r = 0 /\ tcbs s' = tcbs s /\ queues s' = queues s /\ held (km s') = held (km s) /\
    let fp := futex_of s (tb (bucket u)) u in
    if fp =? 0 then s' = s
    else futexes s' = futexes s ∖ {[fp]} /\ kmem_inv kend (km s') (fp :: l) /\ fhnodes s' = fhnodes s) s.
Proof.
  intros Hi Hl Hk. cbn zeta. unfold futex_wake.
  destruct (Z.eqb_spec (futex_of s (tb (bucket u)) u) 0) as [H0|H0].
  - eapply wp_call; [by apply (wp_get_futex_absent s l tb)|]. cbn beta. intros ? ? [-> ->]. by apply wp_ret.
  - eapply wp_call; [by apply (wp_get_futex_found s l tb)|]. cbn beta. intros ? ? (-> & m & -> & Hm & Hh).
    by apply wp_ret.
Qed.
End Table.

(** ** Witnesses *)

Definition page (i : Z) : Z := PHYSTOP - i * PGSIZE.

(** Thirty-two empty buckets. *)
Definition head_node (i : nat) : lptr * list_head lptr :=
  (FHead (Z.of_nat i), Node (Some (FHead (Z.of_nat i))) (Some (FHead (Z.of_nat i)))).
Definition heads : gmap lptr (list_head lptr) := list_to_map (head_node <$> seq 0 32).

Lemma heads_ring i (h : gmap lptr (list_head lptr)) : 0 <= i < FUTEX_NUM -> h !! FHead i = heads !! FHead i -> ring h (FHead i) [].
Proof.
  intros Hi Hh.
  assert (heads !! FHead i = Some (Node (Some (FHead i)) (Some (FHead i)))) as He.
  { apply elem_of_list_to_map_1.
    - rewrite <- list_fmap_compose. apply NoDup_fmap_2; [|apply NoDup_seq]. intros x y [= ?]. lia.
    - apply list_elem_of_fmap. exists (Z.to_nat i). unfold head_node. rewrite Z2Nat.id by lia. split; [done|].
      apply elem_of_seq. unfold FUTEX_NUM in *. lia. }
  rewrite He in Hh. split_and!; [apply NoDup_singleton| |].
  - intros x ->%list_elem_of_singleton. by rewrite Hh.
  - simpl. unfold nxt, prv. by rewrite Hh.
Qed.

(** Two free pages and no futex; or one free page and a futex at 0x1000. *)
Definition two_free : mach := Mach (store64 (fun _ => 0) (page 1) (page 2)) (page 1) 0 [].
Definition no_futex (b : kstate) : kstate := set_km two_free (set_lh heads b).
Definition futex_at (b : kstate) : kstate :=
  set_km one_free (set_futexes {[page 2]} (set_fhnodes {[page 3 := Fhnode 0x1000 (page 2)]}
    (set_lh (<[FHead 0 := Node (Some (FNode (page 3))) (Some (FNode (page 3)))]>
             (<[FNode (page 3) := Node (Some (FHead 0)) (Some (FHead 0))]> heads)) b))).

Lemma two_free_inv : kmem_inv (page 3) two_free [page 1; page 2].
Proof.
  split.
  - cbn [flist mmem two_free freelist]. rewrite load64_store64_same. split_and!; [done|done|].
    rewrite load64_store64_other by (unfold page, PGSIZE; lia). done.
  - apply NoDup_cons. split; [by intros ?%list_elem_of_singleton|apply NoDup_singleton].
  - apply Forall_cons. split; [done|by apply Forall_singleton].
  - apply store64_ok. intros a. lia.
Qed.

Lemma one_free_inv : kmem_inv (page 3) one_free [page 1].
Proof. split; [done|apply NoDup_singleton|by apply Forall_singleton|]. intros a. simpl. lia. Qed.

Lemma no_futex_inv b : futex_inv (page 3) (no_futex b) [page 1; page 2] (fun _ => []).
Proof. split; [|by intros ? ? ?%not_elem_of_nil|apply two_free_inv]. intros i Hi. by apply heads_ring. Qed.

Lemma futex_at_inv b : futex_inv (page 3) (futex_at b) [page 1] (fun i => if i =? 0 then [page 3] else []).
Proof.
  split; [| |apply one_free_inv].
  - intros i Hi. cbn [lh futex_at set_km set_futexes set_fhnodes set_lh]. destruct (Z.eqb_spec i 0) as [->|Hne].
    + split_and!.
      * apply NoDup_cons. split; [by intros ?%list_elem_of_singleton|apply NoDup_singleton].
      * intros x [Hx|Hx%list_elem_of_singleton]%elem_of_cons; subst x; [by rewrite lookup_insert_eq|].
        by rewrite lookup_insert_ne, lookup_insert_eq by done.
      * cbn [fmap list_fmap path app]. unfold nxt, prv. rewrite lookup_insert_eq, lookup_insert_ne, lookup_insert_eq by done. done.
    + apply heads_ring; [done|]. by rewrite !lookup_insert_ne by congruence.
  - intros i n Hn. destruct (Z.eqb_spec i 0) as [->|]; [|by apply not_elem_of_nil in Hn].
    apply list_elem_of_singleton in Hn as ->. exists (Fhnode 0x1000 (page 2)).
    split_and!; [done|done|done|by intros ?%list_elem_of_singleton|by intros ?%list_elem_of_singleton].
Qed.

Lemma get_futex_registers_witness :
  exists s, wp (get_futex (page 3) 0x2020 0) (fun r s' => r = page 1 /\ queue_is s' (FutexQ (page 1)) []) s.
Proof.
  pose (b := booted). clearbody b. exists (no_futex b). eapply wp_mono.
  - apply (get_futex_registers (page 3) ltac:(done) (no_futex b) (page 1) (page 2) [] (fun _ => []) 0x2020 (no_futex_inv b));
      try apply not_elem_of_nil. done.
  - cbn beta. intros r s' (H & _ & Hq & _). done.
Defined.

Lemma futex_wake_wakes_nobody_witness :
  exists s, wp (futex_wake (page 3) 0x1000 1) (fun r s' => r = 0 /\ futexes s = {[page 2]} /\ page 2 ∉ futexes s') s.
Proof.
  pose (b := booted). clearbody b. exists (futex_at b). eapply wp_mono.
  - apply (futex_wake_wakes_nobody (page 3) ltac:(done) (futex_at b) [page 1] _ 0x1000 1 (futex_at_inv b)); apply not_elem_of_nil.
  - cbn beta. intros r s' (-> & _ & _ & _ & H). split_and!; [done|done|].
    destruct H as (-> & _). intros [_ H]%elem_of_difference. by apply H, elem_of_singleton.
Defined.
