(* ===== verification/Proc.v ===== *)
(** * kernel/sched/proc.c: the life of a process; thread_exit of thread.c

    Creation by userinit, fork and clone, exit, waiting for children, and
    signals to a process. *)
From S2P Require Import Prelude Mem CString KTypes Kalloc Vm ListHead KState Queue Sched Signal Thread ProcBase Pipe File Mmap Futex.

Definition CLONE_VM : Z := 0x100.
Definition CLONE_SIGHAND : Z := 0x800.
Definition CLONE_THREAD : Z := 0x10000.
Definition CLONE_SETTLS : Z := 0x80000.
Definition CLONE_PARENT_SETTID : Z := 0x100000.
Definition CLONE_CHILD_CLEARTID : Z := 0x200000.
Definition CLONE_CHILD_SETTID : Z := 0x1000000.
Definition WNOHANG : Z := 1.
Definition RLIM_INFINITY : Z := u64 (-1).

(** A struct proc pointer used as a channel. *)
Definition chan_proc (p : option nat) : channel := match p with Some p => ChProc p | None => ChNone end.

(** The group leader; following the pointer faults when it is no thread. *)
Definition leader_of (p : nat) : E kstate nat :=
  l ← gets (fun s => group_leader (procs s p));
  deref l.

Section Processes.
(** [extern char end[], trampoline[], __user_rt_sigreturn[]]; the address of
    thread_forkret; the addresses of the integer objects the code copies to
    user space and of the locals of the pipe and futex routines; the switch to
    the scheduler; the file system and the devices; the bound on a blocking
    write to a pipe. *)
Context (kend trampoline user_rt_sigreturn forkret kbuf ch uval : Z).
Context (swtch : nat -> E kstate unit).
Context (ext4 : option fs_ops).
Context (dev_write : Z -> option (bool -> Z -> Z -> E kstate Z)).
Context (wfuel : nat).

(** ** Creation *)

Definition init_rlimit : Z * Z := (RLIM_INFINITY, RLIM_INFINITY).

Definition allocproc : E kstate (option nat) :=
  p ← queue_pop_atomic (PQ UNUSED) true;
  match p with
  | None => mret None
  | Some p =>
    acquire (L_proc p);;
    id ← allocpid;
    upd_proc p (fun r => set_pgid id (set_pid id r));;
    pcb_q_change_state p USED;;
    upd_proc p (set_first_child None);;
    on_list (INIT_LIST_HEAD (PSibling p));;
    tginit p;;
    upd_proc p (fun r => set_cpath "/" (set_ktime 0 (set_utime 0 r)));;
    initlock (L_mm p);;
    pt ← proc_pagetable kend trampoline user_rt_sigreturn;
    upd_proc p (set_pagetable pt);;
    on_list (INIT_LIST_HEAD (VmaList p));;
    upd_proc p (set_max_vma MMAP_MAX_ADDR_START);;
    upd_proc p (fun r => set_ofile_cnt 0 (set_rlim (fun _ => init_rlimit) r));;
    mret (Some p)
  end.

(** The fields freeproc clears. *)
Definition clear_proc (r : proc) : proc :=
  set_rlim (fun _ => (0, 0)) (set_ofile_cnt 0 (set_ktime 0 (set_utime 0 (set_pxstate 0 (set_pkilled 0
    (set_pname "" (set_parent None (set_pgid 0 (set_pid 0 (set_psz 0 (set_pagetable 0
      (set_group_leader None r)))))))))))).

(** atomic_dec_return answers the old value. *)
Definition freeproc (p : nat) : E kstate unit :=
  cur_proc ← myproc;
  acquire (L_lth_exit p);;
  acquire (L_tg cur_proc);;
  for_each_safe (R := unit) (TgThreads p) (fun l =>
    t ← deref (node_index l);
    on_list (list_del_reinit (TThreads t));;
    n ← gets (fun s => thread_cnt (procs s cur_proc));
    upd_proc cur_proc (set_thread_cnt (i32 (n - 1)));;
    panic_if (n =? 0) "thread count error";;
    free_thread kend t;;
    mret None);;
  release (L_tg cur_proc);;
  r ← get_proc p;
  (if pagetable r =? 0 then mret tt else proc_freepagetable kend (pagetable r) (psz r) false);;
  upd_proc p clear_proc;;
  pcb_q_change_state p UNUSED;;
  release (L_lth_exit p).

Definition create_proc : E kstate (option nat) :=
  p ← allocproc;
  match p with
  | None => mret None
  | Some p =>
    t ← alloc_thread forkret;
    match t with
    | None => freeproc p;; mret None
    | Some t =>
      proc_join_thread kend p t None;;
      release (L_tcb t);;
      mret (Some p)
    end
  end.

(** [initcode] is the address of the first program and [initcode_len] its
    length. *)
Definition userinit (initcode initcode_len : Z) : E kstate unit :=
  p ← create_proc;
  p ← deref p;
  t ← gets (fun s => group_leader (procs s p));
  modify (set_initproc (Some p));;
  let sz := PGROUNDUP initcode_len in
  pt ← gets (fun s => pagetable (procs s p));
  on_mach (uvmfirst kend pt initcode initcode_len);;
  sz1 ← on_mach (uvmalloc kend pt sz (u64 (sz + 8 * PGSIZE)) PTE_W);
  panic_if (sz1 =? 0) "userinit: uvmalloc failed";;
  let sz := sz1 in
  on_mach (uvmclear pt (u64 (sz - 8 * PGSIZE)));;
  upd_proc p (set_psz sz);;
  t ← deref t;
  tf_set t TF_EPC 0;;
  tf_set t TF_SP sz;;
  upd_proc p (set_pname "initcode");;
  l ← leader_of p;
  upd_tcb l (set_tname "/init-0");;
  sighandinit t;;
  tcb_q_change_state t TCB_RUNNABLE;;
  release (L_proc p).

(** for (i = 0; i < NOFILE; i++) if (p->ofile[i]) {...} *)
Definition dup_files (p np : nat) : E kstate unit :=
  for_table (R := unit) (Z.to_nat NOFILE) 0 (fun i =>
    r ← get_proc p;
    match ofile r !! i with
    | Some (Some f) =>
      f ← filedup f;
      upd_proc np (fun r => set_ofile_cnt (i32 (ofile_cnt r + 1)) (set_ofile (<[i := Some f]> (ofile r)) r));;
      mret None
    | _ => mret None
    end);;
  mret tt.

(** np->parent = p and append_child, each under its lock. *)
Definition adopt (p np : nat) : E kstate unit :=
  acquire L_wait;;
  upd_proc np (set_parent (Some p));;
  release L_wait;;
  acquire (L_proc p);;
  append_child p np;;
  release (L_proc p).

Definition make_runnable (t : nat) : E kstate unit :=
  acquire (L_tcb t);;
  tcb_q_change_state t TCB_RUNNABLE;;
  release (L_tcb t).

Definition fork : E kstate Z :=
  p ← myproc;
  np ← create_proc;
  match np with
  | None => mret (-1)
  | Some np =>
    pr ← get_proc p;
    nr ← get_proc np;
    r ← on_mach (uvmcopy kend (pagetable pr) (pagetable nr) (psz pr));
    if r <? 0 then freeproc np;; release (L_proc np);; mret (-1)
    else
      upd_proc np (set_psz (psz pr));;
      acquire (L_mm p);;
      acquire (L_mm np);;
      proc_copy_vma p np;;
      release (L_mm np);;
      release (L_mm p);;
      nl ← leader_of np;
      pl ← leader_of p;
      tf_copy nl pl;;
      tf_set nl TF_A0 0;;
      dup_files p np;;
      pr ← get_proc p;
      upd_proc np (set_pname (pname pr));;
      sighandinit nl;;
      id ← gets (fun s => pid (procs s np));
      upd_proc np (set_cpath (cpath pr));;
      release (L_proc np);;
      adopt p np;;
      nl ← leader_of np;
      make_runnable nl;;
      mret id
  end.

(** ** clone *)

Definition has_flag (flags f : Z) : bool := has_bits flags f.

(** The settings of the new thread [t], up to the first that fails; the answer
    is false for goto bad. *)
Definition clone_setup (p t : nat) (flags stack ptid tls ctid : Z) : E kstate bool :=
  pl ← leader_of p;
  tf_copy t pl;;
  tf_set t TF_A0 0;;
  (if has_flag flags CLONE_SETTLS then tf_set t TF_TP tls else mret tt);;
  pt ← gets (fun s => pagetable (procs s p));
  id ← gets (fun s => tid (tcbs s t));
  r ← (if has_flag flags CLONE_CHILD_SETTID then copyout_int kbuf pt ctid id 4 else mret 0);
  if r <? 0 then mret false
  else
    (if has_flag flags CLONE_CHILD_SETTID then upd_tcb t (set_set_child_tid ctid) else mret tt);;
    (if has_flag flags CLONE_CHILD_CLEARTID then upd_tcb t (set_clear_child_tid ctid) else mret tt);;
    (if stack =? 0 then mret tt else tf_set t TF_SP stack);;
    (if has_flag flags CLONE_SIGHAND then
       pl ← leader_of p;
       a ← gets (fun s => sigs (tcbs s pl));
       upd_tcb t (set_sigs a);;
       upd_sighand t (fun h => set_sh_ref (i32 (sh_ref h + 1)) h)
     else sighandinit t);;
    r ← (if has_flag flags CLONE_PARENT_SETTID then copyout_int kbuf pt ptid id 4 else mret 0);
    mret (0 <=? r).

(** The rest of the creation of process [np]. *)
Definition clone_proc (p np t : nat) (flags : Z) : E kstate Z :=
  pr ← get_proc p;
  nr ← get_proc np;
  r ← (if has_flag flags CLONE_VM then upd_proc np (set_pagetable (pagetable pr));; mret 0
       else on_mach (uvmcopy kend (pagetable pr) (pagetable nr) (psz pr)));
  if r <? 0 then freeproc np;; release (L_proc np);; mret (-1)
  else
    r ← proc_copy_vma p np;
    if r <? 0 then freeproc np;; release (L_proc np);; mret (-1)
    else
      upd_proc np (set_psz (psz pr));;
      dup_files p np;;
      pr ← get_proc p;
      upd_proc np (set_pname (pname pr));;
      id ← gets (fun s => pid (procs s np));
      upd_proc np (set_cpath (cpath pr));;
      release (L_proc np);;
      adopt p np;;
      make_runnable t;;
      mret id.

Definition do_clone (flags stack ptid tls ctid : Z) : E kstate Z :=
  p ← myproc;
  if has_flag flags CLONE_THREAD then
    t ← alloc_thread forkret;
    match t with
    | None => mret (-1)
    | Some t =>
      r ← proc_join_thread kend p t None;
      if r <? 0 then free_thread kend t;; mret (-1)
      else
        ok ← clone_setup p t flags stack ptid tls ctid;
        if (ok : bool) then
          tcb_q_change_state t TCB_RUNNABLE;;
          release (L_tcb t);;
          gets (fun s => tid (tcbs s t))
        else free_thread kend t;; mret (-1)
    end
  else
    np ← create_proc;
    match np with
    | None => mret (-1)
    | Some np =>
      t ← leader_of np;
      ok ← clone_setup p t flags stack ptid tls ctid;
      if (ok : bool) then clone_proc p np t flags
      else freeproc np;; free_thread kend t;; mret (-1)
    end.

(** ** Exit *)

Definition reparent (p : nat) : E kstate unit :=
  for_procs (R := unit) (fun pp =>
    r ← get_proc pp;
    if bool_decide (parent r = Some p) then
      ip ← gets initproc;
      upd_proc pp (set_parent ip);;
      thread_wakeup_chan (chan_proc ip);;
      mret None
    else mret None);;
  mret tt.

Definition close_files (p : nat) : E kstate unit :=
  for_table (R := unit) (Z.to_nat NOFILE) 0 (fun fd =>
    r ← get_proc p;
    match ofile r !! fd with
    | Some (Some f) =>
      x ← get_file f;
      (if 0 <? fref x then fileclose kend ext4 f true else mret tt);;
      upd_proc p (fun r => set_ofile (<[fd := None]> (ofile r)) r);;
      mret None
    | _ => mret None
    end);;
  mret tt.

(** Returns holding p->lock and p->lth_exitlock. *)
Definition proc_exit (status : Z) : E kstate unit :=
  p ← myproc;
  ip ← gets initproc;
  panic_if (bool_decide (Some p = ip)) "init exiting";;
  close_files p;;
  freeprocvm kend swtch ch ext4 dev_write wfuel p;;
  upd_proc p (set_cpath "");;
  acquire L_wait;;
  acquire (L_lth_exit p);;
  reparent p;;
  pp ← gets (fun s => parent (procs s p));
  thread_wakeup_chan (chan_proc pp);;
  acquire (L_proc p);;
  upd_proc p (set_pxstate (i32 (status * 2 ^ 8)));;
  pcb_q_change_state p ZOMBIE;;
  pp ← deref pp;
  info ← signal_info_init SIGCHLD 1;
  l ← leader_of pp;
  acquire (L_tcb l);;
  thread_send_signal l info;;
  release (L_tcb l);;
  release L_wait.

(** Of kernel/sched/thread.c.  When the last thread has left the group, the new
    leader is list_first_entry of an empty list, which is no thread.  The result
    of the copyout is not used. *)
Definition thread_exit (status : Z) : E kstate unit :=
  t ← mythread;
  r ← get_tcb t;
  p ← deref (tproc r);
  (if bool_decide (tstate r = TCB_SLEEPING) then thread_wakeup_specific t else mret tt);;
  (if set_child_tid r =? 0 then mret tt else thread_wakeup_chan (chan_of (set_child_tid r)));;
  (if clear_child_tid r =? 0 then mret tt
   else
     pt ← gets (fun s => pagetable (procs s p));
     copyout_int kbuf pt (clear_child_tid r) 0 4;;
     futex_wake kend (clear_child_tid r) 1;;
     mret tt);;
  cnt ← gets (fun s => thread_cnt (procs s p));
  upd_proc p (set_thread_cnt (i32 (cnt - 1)));;
  (if cnt =? 1 then proc_exit status;; release (L_proc p) else mret tt);;
  acquire (L_tg p);;
  on_list (list_del_reinit (TThreads t));;
  l ← gets (fun s => group_leader (procs s p));
  (if bool_decide (l = Some t) then
     n ← on_list (rd_next (Some (TgThreads p)));
     upd_proc p (set_group_leader (n ≫= node_index))
   else mret tt);;
  release (L_tg p);;
  acquire (L_tcb t);;
  free_thread kend t;;
  (if cnt =? 1 then release (L_lth_exit p) else mret tt);;
  thread_sched swtch.

(** ** Waiting for children *)

(** The scan of the process table by wait_one and wait4, from entry [i]: [inl v]
    when it returns [v], [inr havekids] when the table is exhausted. *)
Fixpoint wait_scan (n i p : nat) (sel : Z -> bool) (addr : Z) (havekids : bool) : E kstate (Z + bool) :=
  match n with
  | O => mret (inr havekids)
  | S n =>
    r ← get_proc i;
    if bool_decide (parent r = Some p) && sel (pid r) then
      acquire (L_proc i);;
      r ← get_proc i;
      if bool_decide (pstate r = ZOMBIE) then
        pt ← gets (fun s => pagetable (procs s p));
        e ← (if addr =? 0 then mret 0 else copyout_int kbuf pt addr (pxstate r) 4);
        if e <? 0 then
          release (L_proc i);; release L_wait;; mret (inl (-1))
        else
          freeproc i;;
          release (L_proc i);;
          release L_wait;;
          mret (inl (pid r))
      else
        release (L_proc i);;
        wait_scan n (S i) p sel addr true
    else wait_scan n (S i) p sel addr havekids
  end.

(** for(;;): [fuel] bounds the number of sleeps. *)
Fixpoint wait_loop (fuel : nat) (p : nat) (sel : Z -> bool) (addr options : Z) : E kstate Z :=
  r ← wait_scan (Z.to_nat NPROC) 0 p sel addr false;
  match r with
  | inl v => mret v
  | inr havekids =>
    k ← (if (havekids : bool) then proc_killed p else mret 0);
    if negb havekids || negb (k =? 0) then release L_wait;; mret (-1)
    else if has_bits options WNOHANG then release L_wait;; mret 0
    else
      match fuel with
      | O => nofuel
      | S fuel =>
        thread_sleep swtch (ChProc p) L_wait None;;
        wait_loop fuel p sel addr options
      end
  end.

Definition wait_one (fuel : nat) (addr : Z) : E kstate Z :=
  p ← myproc;
  acquire L_wait;;
  wait_loop fuel p (fun _ => true) addr 0.

Definition wait4 (fuel : nat) (pid pstatus options : Z) : E kstate Z :=
  p ← myproc;
  acquire L_wait;;
  wait_loop fuel p (fun id => pid =? id) pstatus options.

Definition waitpid (fuel : nat) (pid wstatus options : Z) : E kstate Z :=
  panic_if ((pid <? -1) || (pid =? 0))
    "waitpid: not support pid < -1 || pid == 0 right now!, for no process group!";;
  if (pid =? -1) && (options =? 0) then wait_one fuel wstatus
  else wait4 fuel pid wstatus options.
End Processes.

(** ** Signals to a process *)

Definition proc_sendsignal_all_thread (p : nat) (signo opt : Z) : E kstate unit :=
  acquire (L_tg p);;
  for_each_safe (R := unit) (TgThreads p) (fun l =>
    t ← deref (node_index l);
    info ← signal_info_init signo opt;
    acquire (L_tcb t);;
    thread_send_signal t info;;
    release (L_tcb t);;
    acquire (L_sigpending t);;
    now ← get_ticksnow;
    thread_wakeup_chan_timeout (chan_of signo) now;;
    release (L_sigpending t);;
    mret None);;
  release (L_tg p);;
  if (signo =? SIGKILL) || (signo =? SIGSTOP) then upd_proc p (set_pkilled 1) else mret tt.

Definition proc_kill (pid0 sig : Z) : E kstate Z :=
  if 0 <? pid0 then
    r ← for_procs (fun p =>
          acquire (L_proc p);;
          r ← get_proc p;
          if pid r =? pid0 then
            proc_sendsignal_all_thread p sig 0;;
            release (L_proc p);;
            mret (Some 0)
          else release (L_proc p);; mret None);
    mret (default (-1) r)
  else mret (-1).
