(* ===== verification/SigHandle.v ===== *)
(** * kernel/ipc/signal.c, kernel/ipc/syssig.c: delivery of signals

    What happens to a pending signal when its thread returns to user space: the
    default action, or a frame on the user stack that holds the trap frame and
    the mask the handler's return restores.  The frame is bytes of user memory,
    at the offsets the RISC-V ABI gives its fields. *)
From S2P Require Import Prelude Mem CString KTypes Kalloc Vm VmTree VmMap VmUser VmCopy ListHead KState Queue Sched Signal Thread ThreadInv SchedSpec ProcBase Pipe.
(** struct rt_sigframe: siginfo, then ucontext_t, then struct ucontext. *)
Definition SIGINFO_SIZE : Z := 128.
Definition UC_RISCV_SIZE : Z := 960.
Definition UC_SIZE : Z := 304.
Definition FR_INFO : Z := 0.
Definition FR_UC_RISCV : Z := 128.
Definition FR_UC : Z := 1088.
Definition FRAME_SIZE : Z := 1392.
(** struct ucontext: the trap frame, the mask and the signal number. *)
Definition UC_TF : Z := 0.
Definition UC_SIGMASK : Z := 288.
Definition UC_SIGNO : Z := 296.
(** uc_mcontext.__gregs[0] of ucontext_t. *)
Definition UCR_PC : Z := 176.

Definition EAGAIN : Z := 11.
Definition INT_MAX : Z := 2147483647.

Definition signal_default (t : nat) (sig_no : Z) : E kstate unit :=
  if sig_no =? SIGKILL then thread_setkilled t
  else if sig_no =? SIGCHLD then mret tt
  else if sig_no =? SIGIOT then thread_setkilled t
  else mret tt.

(** sp &= ~0xfUL *)
Definition get_sigframe (sp framesize : Z) : Z := Z.land (u64 (sp - framesize)) (u64 (Z.lnot 0xf)).

Section Delivery.
(** [extern char end[]]; the addresses of the local variables uc and uc_riscv. *)
Context (kend kuc kucr : Z).

(** uc, filled from the mask, the trap frame at [tf] and the signal. *)
Definition fill_uc (m : mem) (set tf signo : Z) : mem :=
  store64 (store64 (memmove m (kuc + UC_TF) tf TF_SIZE) (kuc + UC_SIGMASK) set) (kuc + UC_SIGNO) signo.

Definition signal_frame_setup (set tf rtf signo : Z) : E kstate Z :=
  pt ← my_pagetable;
  on_mach (upd_mem (fun m => fill_uc m set tf signo));;
  r ← on_mach (copyout pt (u64 (rtf + FR_UC)) kuc UC_SIZE);
  if negb (r =? 0) then mret (-1)
  else
    on_mach (upd_mem (fun m => memset m kucr 0 UC_RISCV_SIZE));;
    r ← on_mach (copyout pt (u64 (rtf + FR_UC_RISCV)) kucr UC_RISCV_SIZE);
    if negb (r =? 0) then mret (-1) else mret 0.

Definition signal_frame_restore (t : nat) (rtf : Z) : E kstate Z :=
  pt ← my_pagetable;
  r ← on_mach (copyin pt kuc (u64 (rtf + FR_UC)) UC_SIZE);
  if negb (r =? 0) then mret (-1)
  else
    m ← gets (fun s => mmem (km s));
    upd_tcb t (set_blocked (load64 m (kuc + UC_SIGMASK)));;
    tf ← gets (fun s => trapframe (tcbs s t));
    (if tf =? 0 then fault else on_mach (upd_mem (fun m => memmove m tf (kuc + UC_TF) TF_SIZE)));;
    m ← gets (fun s => mmem (km s));
    upd_tcb t (set_sig_processing (load64 m (kuc + UC_SIGNO)));;
    r ← on_mach (copyin pt kucr (u64 (rtf + FR_UC_RISCV)) UC_RISCV_SIZE);
    if negb (r =? 0) then mret (-1)
    else
      pc ← gets (fun s => load64 (mmem (km s)) (kucr + UCR_PC));
      (if pc =? 0 then mret tt else tf_set t TF_EPC pc);;
      mret 0.

(** [tf] is the trap frame of [t]: t->trapframe. *)
Definition setup_rt_frame (t : nat) (sig : sigaction) (signo set : Z) : E kstate Z :=
  tf ← gets (fun s => trapframe (tcbs s t));
  sp ← tf_get t TF_SP;
  let frame := get_sigframe sp FRAME_SIZE in
  r ← signal_frame_setup set tf frame signo;
  if r <? 0 then mret (-1)
  else
    tf_set t TF_RA SIGRETURN;;
    tf_set t TF_SP frame;;
    tf_set t TF_EPC (sa_handler sig);;
    tf_set t TF_A0 signo;;
    (if has_bits (sa_flags sig) SA_SIGINFO then
       tf_set t TF_A1 (u64 (frame + FR_INFO));; tf_set t TF_A2 (u64 (frame + FR_UC))
     else tf_set t TF_A1 0;; tf_set t TF_A2 0);;
    mret 0.

Definition do_handle_signal (t : nat) (sig_no : Z) (act : sigaction) : E kstate Z :=
  set ← gets (fun s => blocked (tcbs s t));
  setup_rt_frame t act sig_no set.

(** *retinfo = info *)
Definition put_info (retinfo : Z) (i : sigqueue) : E kstate unit :=
  on_mach (upd_mem (fun m => store (store m retinfo 4 (si_signo i)) (retinfo + 4) 4 (si_code i))).

(** The signal leaves the list of pending signals. *)
Definition unqueue (t : nat) (q : Z) : E kstate unit :=
  on_list (list_del_reinit (SigQ q));;
  free_object kend q drop_sigq.

(** [retinfo] is the address of a siginfo_t, or 0. *)
Definition signal_handle (t : nat) (sig retinfo : Z) : E kstate Z :=
  n ← gets (fun s => pending_cnt (tcbs s t));
  if n =? 0 then mret 0
  else
    acquire (L_sigpending t);;
    r ← for_each_safe (SigPending t) (fun l =>
          q ← deref (sigq_of l);
          i ← get_sigq q;
          let sig_no := si_signo i in
          if (0 <? sig) && negb (sig_no =? sig) then mret None
          else
            panic_if (negb (valid_signal sig_no)) "Invalid signal number in signal_handle";;
            (if retinfo =? 0 then mret tt else put_info retinfo i);;
            act ← sig_action t sig_no;
            r ← get_tcb t;
            if sig_ignored r sig_no || (sa_handler act =? SIG_IGN) then mret None
            else if sa_handler act =? SIG_DFL then
              signal_default t sig_no;;
              upd_tcb t (fun r => set_pending_cnt (i32 (pending_cnt r - 1)) r);;
              unqueue t q;;
              mret None
            else
              e ← do_handle_signal t sig_no act;
              if negb (e =? 0) then mret (Some (-1))
              else
                upd_tcb t (fun r => set_sig_processing sig_no (set_pending_cnt (i32 (pending_cnt r - 1)) r));;
                unqueue t q;;
                mret (Some 0));
    release (L_sigpending t);;
    mret (default 0 r).

(** ** Waiting for a signal *)

Section Wait.
(** The address of the local siginfo; the switch to the scheduler. *)
Context (ksi : Z) (swtch : nat -> E kstate unit).

Fixpoint sigtimedwait_loop (fuel : nat) (t : nat) (sig_no : Z) (tmo : option timespec) : E kstate unit :=
  n ← gets (fun s => timeout (tcbs s t));
  if n =? 0 then mret tt
  else
    match fuel with
    | O => nofuel
    | S fuel =>
      thread_sleep swtch (chan_of sig_no) (L_sigpending t) tmo;;
      sigtimedwait_loop fuel t sig_no tmo
    end.

(** thread_sleep clears t->timeout when it returns, so the loop runs once. *)
Definition do_sigtimedwait (set info : Z) (tmo : option timespec) : E kstate Z :=
  t ← mythread;
  if sig_test_empty set then mret (-1)
  else
    let sig_no := sig_first_member set in
    acquire (L_sigpending t);;
    r ← get_tcb t;
    (if negb (sig_existed r sig_no) then
       upd_tcb t (set_timeout INT_MAX);;
       sigtimedwait_loop 1 t sig_no tmo;;
       release (L_sigpending t)
     else mret tt);;
    r ← get_tcb t;
    if negb (sig_existed r sig_no) then mret (- EAGAIN)
    else
      h ← holding (L_sigpending t);
      (if (h : bool) then release (L_sigpending t) else mret tt);;
      e ← signal_handle t sig_no ksi;
      if e <? 0 then mret (-1)
      else
        (if info =? 0 then mret tt else on_mach (upd_mem (fun m => memmove m info ksi SIGINFO_SIZE)));;
        gets (fun s => i32 (load (mmem (km s)) ksi 4)).
End Wait.
End Delivery.

(** * The signal frame on the user stack

    Delivering a signal saves the trap frame and the signal mask in user memory
    and points the thread at its handler; sigreturn restores them.  The saved
    bytes are described by [uc_image]; what the two routines promise is stated
    against user memory seen through the page table, so that it holds whatever
    the handler does, as long as it leaves the saved part of its frame alone. *)

#[local] Opaque memset load64 store64 memmove.

(** Byte [k] of a little-endian integer. *)
Definition byte_of (v k : Z) : Z := (v / 256 ^ k) mod 256.

#[local] Transparent store64 load64.
Lemma store_byte m a n v k : 0 <= k < Z.of_nat n -> store m a n v (a + k) = byte_of v k.
Proof.
  revert m a v k. induction n as [|n IH]; intros m a v k Hk; [lia|]. cbn [store].
  destruct (decide (k = 0)) as [->|Hne].
  - rewrite Z.add_0_r, store_out, mset_eq by lia. unfold byte_of. by rewrite Z.div_1_r.
  - replace (a + k) with (a + 1 + (k - 1)) by lia. rewrite IH by lia. unfold byte_of.
    rewrite Z.div_div by (try apply Z.pow_pos_nonneg; lia).
    replace (256 * 256 ^ (k - 1)) with (256 ^ k); [done|]. rewrite <- Z.pow_succ_r by lia. f_equal. lia.
Qed.

Lemma load64_bytes m a v : 0 <= v < 2 ^ 64 -> (forall k, 0 <= k < 8 -> m (a + k) = byte_of v k) -> load64 m a = v.
Proof.
  intros Hv H. rewrite (load64_ext m (store64 m a v)), load64_store64_same; [by apply wrap_small|].
  intros x Hx. replace x with (a + (x - a)) by lia. rewrite H by lia. symmetry. by apply store_byte; lia.
Qed.
Lemma store64_byte m a v k : 0 <= k < 8 -> store64 m a v (a + k) = byte_of v k.
Proof. intros. by apply store_byte. Qed.
#[local] Opaque store64 load64.

(** The bytes of struct ucontext for a trap frame [regs], a mask and a signal. *)
Definition uc_image (regs : Z -> Z) (set signo i : Z) : Z :=
  if i <? UC_SIGMASK then regs i
  else if i <? UC_SIGNO then byte_of set (i - UC_SIGMASK) else byte_of signo (i - UC_SIGNO).

(** The bytes of the frame from uc_riscv on. *)
Definition frame_image (regs : Z -> Z) (set signo i : Z) : Z :=
  if i <? FR_UC then 0 else uc_image regs set signo (i - FR_UC).

Lemma fill_uc_spec kuc m set tf signo x : bytes_ok m ->
  fill_uc kuc m set tf signo x =
  if decide (kuc <= x < kuc + UC_SIZE) then uc_image (fun i => m (tf + i)) set signo (x - kuc) else m x.
Proof.
  intros Hb. unfold fill_uc, uc_image, UC_TF, UC_SIZE, UC_SIGMASK, UC_SIGNO, TF_SIZE.
  destruct (decide (kuc <= x < kuc + 304)) as [Hx|Hx].
  - destruct (Z.ltb_spec (x - kuc) 288); [|destruct (Z.ltb_spec (x - kuc) 296)].
    + rewrite !store64_out by lia. rewrite memmove_in by (done || lia). f_equal. lia.
    + rewrite store64_out by lia. replace x with (kuc + 288 + (x - kuc - 288)) at 1 by lia. apply store64_byte; lia.
    + replace x with (kuc + 296 + (x - kuc - 296)) at 1 by lia. apply store64_byte; lia.
  - rewrite !store64_out by lia. apply memmove_out; [done|lia..].
Qed.

(** ** The frame's place in user memory *)

Section Frame.
Context (kend root rtf : Z) (T : tables) (m0 : mem).
Hypothesis kend_pos : 0 < kend.

(** [x] is in no page table and in no page of the frame. *)
Definition kern (x : Z) : Prop :=
  (forall pa, table_page T pa -> ~ in_page pa x) /\
  (forall i, 0 <= i < FRAME_SIZE -> ~ in_page (upage m0 T (rtf + i)) x).
Definition kern_range (a len : Z) : Prop := forall x, a <= x < a + len -> kern x.

(** The frame is mapped for the user, on pages of its own. *)
Record frame_ok : Prop := {
  fo_pt : pt_inv kend m0 root T;
  fo_pos : 0 <= rtf;
  fo_mapped : forall i, 0 <= i < FRAME_SIZE -> upage m0 T (rtf + i) <> 0;
  fo_pages : distinct_pages m0 T rtf FRAME_SIZE;
}.
Hypothesis frame : frame_ok.

(** Byte [i] of the frame. *)
Definition cell (i : Z) : Z := uaddr m0 T (rtf + i).

(** [m] differs from [m0] in kernel memory and in the frame only. *)
Definition near (m : mem) : Prop :=
  bytes_ok m /\ forall x, ~ kern x -> (forall i, 0 <= i < FRAME_SIZE -> x <> cell i) -> m x = m0 x.

Lemma cell_inj i j : 0 <= i < FRAME_SIZE -> 0 <= j < FRAME_SIZE -> cell i = cell j -> i = j.
Proof.
  intros Hi Hj Heq. destruct frame as [_ _ Hm Hd].
  assert (upage m0 T (rtf + j) = upage m0 T (rtf + i)) as Hp.
  { apply (in_page_eq _ _ (cell i)); [apply upage_aligned..|rewrite Heq; apply uaddr_in_page|apply uaddr_in_page]. }
  destruct (Hd i Hi (Hm i Hi)) as [_ Hinj]. pose proof (Hinj j Hj Hp) as Hr.
  unfold cell, uaddr in Heq. rewrite Hp in Heq.
  pose proof (page_split (rtf + i)). pose proof (page_split (rtf + j)). lia.
Qed.

Lemma near_tables m : near m -> pt_inv kend m root T /\ forall va, upage m T va = upage m0 T va.
Proof.
  intros [_ Hn]. destruct frame as [Hpt _ Hm Hd]. destruct (pt_frame kend m0 m root T Hpt) as [H1 H2].
  - intros pa x Ht Hin. apply Hn; [intros [H _]; by apply (H pa)|]. intros i Hi ->.
    destruct (Hd i Hi (Hm i Hi)) as [Hnt _]. apply Hnt.
    rewrite (in_page_eq (upage m0 T (rtf + i)) pa (cell i)); [done|apply upage_aligned| |apply uaddr_in_page|done].
    destruct Ht as [p Hp]. by eapply pt_valid.
  - split; [done|]. intros va. by apply upage_ext.
Qed.

Lemma kern_cell x i : kern x -> 0 <= i < FRAME_SIZE -> x <> cell i.
Proof. intros [_ H] Hi ->. apply (H i Hi), uaddr_in_page. Qed.

Lemma frame_word i : 0 <= i < FRAME_SIZE -> 0 <= rtf + i < 2 ^ 64.
Proof.
  intros Hi. destruct frame as [_ H0 Hm _]. specialize (Hm i Hi). unfold upage in Hm.
  destruct (Z.leb_spec MAXVA (rtf + i)); [done|]. assert (MAXVA < 2 ^ 64) by done. lia.
Qed.

Lemma near_apart m kb off len : near m -> kern_range kb len -> 0 <= off -> off + len <= FRAME_SIZE ->
  apart m T kb (rtf + off) len.
Proof.
  intros Hn Hk Ho Hl x Hx. destruct (near_tables m Hn) as [_ Hu]. destruct (Hk x Hx) as [H1 H2]. split; [done|].
  intros i Hi. rewrite Hu, <- Z.add_assoc. apply H2. lia.
Qed.

Lemma near_uaddr m i : near m -> uaddr m T (rtf + i) = cell i.
Proof. intros Hn. unfold cell, uaddr. by rewrite (proj2 (near_tables m Hn)). Qed.

(** copyout to part of the frame. *)
Lemma wp_copyout_frame off len src (Q : Z -> mach -> Prop) s :
  near (mmem s) -> kern_range src len -> 0 <= off -> 0 < len -> off + len <= FRAME_SIZE ->
  (forall s', held s' = held s -> near (mmem s') ->
     (forall i, 0 <= i < len -> mmem s' (cell (off + i)) = mmem s (src + i)) ->
     (forall x, (forall i, 0 <= i < len -> x <> cell (off + i)) -> mmem s' x = mmem s x) -> Q 0 s') ->
  wp (copyout root (u64 (rtf + off)) src len) Q s.
Proof.
  intros Hn Hk Ho Hl He HQ. pose proof (near_tables _ Hn) as [Hpt Hu]. pose proof Hn as [Hb Hnear].
  rewrite wrap_small by (apply frame_word; lia). destruct frame as [_ _ Hm Hd].
  eapply wp_mono; [apply (wp_copyout_loop kend kend_pos _ root T (rtf + off) src len s)|]; try done.
  - apply frame_word. lia.
  - lia.
  - apply copy_fuel; [|lia]. apply frame_word. lia.
  - by apply near_apart.
  - intros i Hi _. rewrite !Hu, <- Z.add_assoc. destruct (Hd (off + i) ltac:(lia) (Hm (off + i) ltac:(lia))) as [H1 H2].
    split; [done|]. intros j Hj. rewrite Hu, <- Z.add_assoc. apply H2. lia.
  - cbn beta. intros r s' (Hh & Hb' & Hout & Hr).
    assert (Hout' : forall x, (forall i, 0 <= i < len -> x <> cell (off + i)) -> mmem s' x = mmem s x).
    { intros x Hx. apply Hout. intros (i & Hi & _ & ->). apply (Hx i Hi). rewrite <- Z.add_assoc. by apply near_uaddr. }
    destruct Hr as [[-> Hr]|[_ (i & Hi & H0)]].
    + apply HQ; [done| | |done].
      * split; [done|]. intros x Hx Hc. rewrite Hout'; [by apply Hnear|]. intros i Hi. apply Hc. lia.
      * intros i Hi. rewrite <- (near_uaddr (mmem s)), Z.add_assoc by done. by apply Hr.
    + exfalso. rewrite Hu, <- Z.add_assoc in H0. by apply (Hm (off + i)); [lia|].
Qed.

(** copyin from part of the frame. *)
Lemma wp_copyin_frame off len dst (Q : Z -> mach -> Prop) s :
  near (mmem s) -> kern_range dst len -> 0 <= off -> 0 < len -> off + len <= FRAME_SIZE ->
  (forall s', held s' = held s -> near (mmem s') ->
     (forall i, 0 <= i < len -> mmem s' (dst + i) = mmem s (cell (off + i))) ->
     (forall x, x < dst \/ dst + len <= x -> mmem s' x = mmem s x) -> Q 0 s') ->
  wp (copyin root dst (u64 (rtf + off)) len) Q s.
Proof.
  intros Hn Hk Ho Hl He HQ. pose proof (near_tables _ Hn) as [Hpt Hu]. pose proof Hn as [Hb Hnear].
  rewrite wrap_small by (apply frame_word; lia). destruct frame as [_ _ Hm Hd].
  eapply wp_mono; [apply (wp_copyin_loop kend kend_pos _ root T dst (rtf + off) len s)|]; try done.
  - apply frame_word. lia.
  - lia.
  - apply copy_fuel; [|lia]. apply frame_word. lia.
  - by apply near_apart.
  - cbn beta. intros r s' (Hh & Hout & Hr). destruct Hr as [[-> Hr]|[_ (i & Hi & H0)]].
    + assert (Hin : forall i, 0 <= i < len -> mmem s' (dst + i) = mmem s (cell (off + i))).
      { intros i Hi. rewrite <- (near_uaddr (mmem s)), Z.add_assoc by done. by apply Hr. }
      apply HQ; [done| |done|done]. split.
      * intros x. destruct (decide (dst <= x < dst + len)) as [Hx|Hx].
        -- replace x with (dst + (x - dst)) by lia. rewrite Hin by lia. apply Hb.
        -- rewrite Hout by lia. apply Hb.
      * intros x Hx Hc. rewrite Hout; [by apply Hnear|].
        destruct (decide (dst <= x < dst + len)) as [Hx'|]; [|lia]. by destruct Hx; apply Hk.
    + exfalso. rewrite Hu, <- Z.add_assoc in H0. by apply (Hm (off + i)); [lia|].
Qed.

(** A write to kernel memory. *)
Lemma near_write m m' a len : near m -> kern_range a len -> bytes_ok m' -> (forall x, x < a \/ a + len <= x -> m' x = m x) -> near m'.
Proof.
  intros [_ Hn] Hk Hb Ho. split; [done|]. intros x Hx Hc. rewrite Ho; [by apply Hn|].
  destruct (decide (a <= x < a + len)) as [Hx'|]; [|lia]. by destruct Hx; apply Hk.
Qed.

(** ** Saving and restoring *)

Context (kuc kucr : Z).
Hypothesis uc_kern : kern_range kuc UC_SIZE.
Hypothesis ucr_kern : kern_range kucr UC_RISCV_SIZE.

Lemma fill_uc_ok m set tf signo : bytes_ok m -> bytes_ok (fill_uc kuc m set tf signo).
Proof. intros Hb. apply store64_ok, store64_ok, memmove_ok; [done|]. unfold TF_SIZE. lia. Qed.

(** The calling process has the page table [root]. *)
Definition runs_on (s : kstate) : Prop := exists p, runs_in s p /\ pagetable (procs s p) = root.

Lemma wp_my_pagetable (Q : Z -> kstate -> Prop) s : runs_on s -> Q root s -> wp my_pagetable Q s.
Proof. intros (p & Hr & Hp) HQ. unfold my_pagetable. apply wp_bind. eapply wp_myproc; [done|]. apply wp_gets. by rewrite Hp. Qed.

(** The frame holds a saved context. *)
Definition saved (m : mem) (regs : Z -> Z) (set signo : Z) : Prop :=
  forall i, FR_UC_RISCV <= i < FRAME_SIZE -> m (cell i) = frame_image regs set signo i.

Lemma wp_signal_frame_setup set tf signo (Q : Z -> kstate -> Prop) s :
  runs_on s -> near (mmem (km s)) ->
  (forall m, held m = held (km s) -> near (mmem m) -> saved (mmem m) (fun j => mmem (km s) (tf + j)) set signo ->
     (forall x, (x < kuc \/ kuc + UC_SIZE <= x) -> (x < kucr \/ kucr + UC_RISCV_SIZE <= x) ->
        (forall i, 0 <= i < FRAME_SIZE -> x <> cell i) -> mmem m x = mmem (km s) x) -> Q 0 (set_km m s)) ->
  wp (signal_frame_setup kuc kucr set tf rtf signo) Q s.
Proof.
  intros Hr Hn HQ. unfold signal_frame_setup. apply wp_bind, wp_my_pagetable; [done|].
  apply wp_bind, wp_zoom, wp_modify. set (m1 := fill_uc kuc _ set tf signo).
  assert (Hm1 : forall x, m1 x = if decide (kuc <= x < kuc + UC_SIZE) then uc_image (fun i => mmem (km s) (tf + i)) set signo (x - kuc) else mmem (km s) x).
  { intros x. apply fill_uc_spec, Hn. }
  assert (Hn1 : near m1).
  { apply (near_write (mmem (km s)) _ kuc UC_SIZE); [done|done|apply fill_uc_ok, Hn|]. intros x Hx. rewrite Hm1. by rewrite decide_False by lia. }
  clearbody m1. apply wp_bind, wp_zoom, wp_copyout_frame; [done|done|done|done|done|].
  intros s2 Hh2 Hn2 Hin2 Hout2. cbn [negb Z.eqb]. apply wp_bind, wp_zoom, wp_modify. cbn [km set_km].
  set (m3 := memset (mmem s2) kucr 0 UC_RISCV_SIZE).
  assert (Hn3 : near m3).
  { apply (near_write (mmem s2) _ kucr UC_RISCV_SIZE); [exact Hn2|done|apply memset_ok, Hn2|]. intros x Hx. by apply memset_out. }
  apply wp_bind, wp_zoom, wp_copyout_frame; [done|done|done|done|done|].
  intros s4 Hh4 Hn4 Hin4 Hout4. cbn [negb Z.eqb]. apply wp_ret. cbn [km set_km mmem set_mmem] in *.
  change (set_km s4 (set_km (set_mmem m3 s2) _)) with (set_km s4 s). apply HQ; [by rewrite Hh4|done| |].
  - intros i Hi. unfold frame_image, FRAME_SIZE, FR_UC_RISCV, FR_UC in *. destruct (Z.ltb_spec i 1088).
    + replace i with (128 + (i - 128)) by lia. rewrite Hin4 by (unfold UC_RISCV_SIZE; lia).
      unfold m3. rewrite memset_in by (unfold UC_RISCV_SIZE; lia). done.
    + rewrite Hout4; [|intros j Hj Heq; apply cell_inj in Heq; unfold FRAME_SIZE, UC_RISCV_SIZE in *; lia].
      unfold m3. rewrite memset_out.
      * replace i with (1088 + (i - 1088)) at 1 by lia. rewrite Hin2 by (unfold UC_SIZE; lia).
        rewrite Hm1, decide_True by (unfold UC_SIZE; lia). f_equal. lia.
      * destruct (decide (kucr <= cell i < kucr + UC_RISCV_SIZE)) as [Hin|]; [|lia].
        by destruct (kern_cell (cell i) i (ucr_kern _ Hin) ltac:(unfold FRAME_SIZE; lia)).
  - intros x H1 H2 H3. rewrite Hout4 by (intros i Hi; apply H3; unfold FR_UC_RISCV, UC_RISCV_SIZE, FRAME_SIZE in *; lia).
    unfold m3. rewrite memset_out by done. rewrite Hout2 by (intros i Hi; apply H3; unfold FR_UC, UC_SIZE, FRAME_SIZE in *; lia).
    rewrite Hm1, decide_False by lia. done.
Qed.

(** Two ranges do not meet. *)
Definition disjoint_ranges (a n b k : Z) : Prop := a + n <= b \/ b + k <= a.

Lemma kern_range_cell a len i : kern_range a len -> 0 <= i < FRAME_SIZE -> cell i < a \/ a + len <= cell i.
Proof.
  intros Hk Hi. destruct (decide (a <= cell i < a + len)) as [Hin|]; [|lia]. by destruct (kern_cell (cell i) i (Hk _ Hin) Hi).
Qed.

(** Reading the fields of struct ucontext back. *)
Lemma image_fields m a regs set signo : 0 <= set < 2 ^ 64 -> 0 <= signo < 2 ^ 64 ->
  (forall i, 0 <= i < UC_SIZE -> m (a + i) = uc_image regs set signo i) ->
  load64 m (a + UC_SIGMASK) = set /\ load64 m (a + UC_SIGNO) = signo /\ forall i, 0 <= i < TF_SIZE -> m (a + i) = regs i.
Proof.
  unfold UC_SIZE, TF_SIZE, uc_image, UC_SIGMASK, UC_SIGNO. intros Hset Hsig H. split_and!.
  - apply load64_bytes; [done|]. intros k Hk. rewrite <- Z.add_assoc, H by lia.
    rewrite (proj2 (Z.ltb_ge _ _)), (proj2 (Z.ltb_lt _ _)) by lia. f_equal. lia.
  - apply load64_bytes; [done|]. intros k Hk. rewrite <- Z.add_assoc, H by lia.
    rewrite !(proj2 (Z.ltb_ge _ _)) by lia. f_equal. lia.
  - intros i Hi. rewrite H by lia. by rewrite (proj2 (Z.ltb_lt _ _)) by lia.
Qed.

Lemma wp_signal_frame_restore t regs set signo (Q : Z -> kstate -> Prop) s :
  let tf := trapframe (tcbs s t) in
  runs_on s -> near (mmem (km s)) -> saved (mmem (km s)) regs set signo ->
  0 <= set < 2 ^ 64 -> 0 <= signo < 2 ^ 64 -> tf <> 0 -> kern_range tf TF_SIZE ->
  disjoint_ranges tf TF_SIZE kuc UC_SIZE -> disjoint_ranges tf TF_SIZE kucr UC_RISCV_SIZE ->
  (forall s', held (km s') = held (km s) -> set_km (km s) (set_tcbs (tcbs s) s') = s ->
     only_tcb t (set_sig_processing signo (set_blocked set (tcbs s t))) s s' ->
     (forall j, 0 <= j < TF_SIZE -> mmem (km s') (tf + j) = regs j) -> Q 0 s') ->
  wp (signal_frame_restore kuc kucr t rtf) Q s.
Proof.
  intros tf Hr Hn Hsv Hset Hsig Htf Htk Hd1 Hd2 HQ. unfold disjoint_ranges in *.
  unfold signal_frame_restore. apply wp_bind, wp_my_pagetable; [done|].
  apply wp_bind, wp_zoom, wp_copyin_frame; [done|done|done|done|done|]. intros s1 Hh1 Hn1 Hin1 Hout1. cbn [negb Z.eqb].
  assert (Huc : forall i, 0 <= i < UC_SIZE -> mmem s1 (kuc + i) = uc_image regs set signo i).
  { unfold UC_SIZE. intros i Hi. rewrite Hin1, Hsv by (unfold FR_UC, FR_UC_RISCV, FRAME_SIZE, UC_SIZE; lia). unfold frame_image.
    rewrite (proj2 (Z.ltb_ge _ _)) by (unfold FR_UC; lia). f_equal. lia. }
  destruct (image_fields _ _ _ _ _ Hset Hsig Huc) as (Hmask & _ & Hregs).
  apply wp_bind, wp_gets, wp_bind, wp_modify. cbn [km set_km tcbs set_tcbs]. rewrite Hmask.
  apply wp_bind, wp_gets. cbn [tcbs set_tcbs]. rewrite fn_lookup_insert. cbn [trapframe set_blocked]. fold tf.
  rewrite (proj2 (Z.eqb_neq tf 0) Htf). apply wp_bind, wp_zoom, wp_modify. cbn [km set_km set_tcbs].
  set (m2 := memmove (mmem s1) tf (kuc + UC_TF) TF_SIZE).
  assert (Hm2 : forall x, m2 x = if decide (tf <= x < tf + TF_SIZE) then regs (x - tf) else mmem s1 x).
  { intros x. unfold m2, UC_TF. rewrite Z.add_0_r. case_decide.
    - rewrite memmove_in by (try apply Hn1; done || lia). apply Hregs. lia.
    - apply memmove_out; [apply Hn1|done|lia]. }
  assert (Hn2 : near m2).
  { apply (near_write (mmem s1) _ tf TF_SIZE); [done|done|apply memmove_ok; [apply Hn1|done]|].
    intros x Hx. by rewrite Hm2, decide_False by lia. }
  clearbody m2. destruct (image_fields m2 kuc regs set signo Hset Hsig) as (_ & Hsno & _).
  { intros i Hi. rewrite Hm2, decide_False by lia. by apply Huc. }
  apply wp_bind, wp_gets, wp_bind, wp_modify. cbn [km set_km tcbs set_tcbs mmem set_mmem]. rewrite Hsno.
  apply wp_bind, wp_zoom, wp_copyin_frame; [done|done|done|done|done|]. intros s3 Hh3 Hn3 Hin3 Hout3. cbn [negb Z.eqb].
  assert (load64 (mmem s3) (kucr + UCR_PC) = 0) as Hpc.
  { apply load64_zero. unfold UCR_PC. intros x Hx. replace x with (kucr + (x - kucr)) by lia.
    rewrite Hin3 by (unfold UC_RISCV_SIZE; lia). cbn [km set_km set_tcbs mmem set_mmem].
    assert (0 <= FR_UC_RISCV + (x - kucr) < FR_UC) as Hrange by (unfold FR_UC_RISCV, FR_UC; lia).
    assert (0 <= FR_UC_RISCV + (x - kucr) < FRAME_SIZE) as Hfr by (assert (FR_UC < FRAME_SIZE) by done; lia).
    rewrite Hm2, decide_False by (pose proof (kern_range_cell tf TF_SIZE _ Htk Hfr); lia).
    rewrite Hout1 by (by apply kern_range_cell). rewrite Hsv by (unfold FR_UC_RISCV in *; lia).
    unfold frame_image. by rewrite (proj2 (Z.ltb_lt _ _)) by lia. }
  apply wp_bind, wp_gets. cbn [km set_km set_tcbs]. rewrite Hpc. apply wp_bind, wp_ret, wp_ret. apply HQ.
  - cbn. rewrite Hh3. exact Hh1.
  - by destruct s.
  - split; cbn; [by rewrite !fn_lookup_insert|]. intros t' Ht'. by rewrite !fn_lookup_insert_ne.
  - intros j Hj. cbn. rewrite Hout3 by lia. cbn. rewrite Hm2, decide_True by lia. f_equal. lia.
Qed.

Lemma wp_tf_set t f v (Q : unit -> kstate -> Prop) s : trapframe (tcbs s t) <> 0 ->
  Q tt (set_km (set_mmem (store64 (mmem (km s)) (trapframe (tcbs s t) + f) v) (km s)) s) -> wp (tf_set t f v) Q s.
Proof.
  intros H HQ. unfold tf_set. apply wp_bind, wp_gets. rewrite (proj2 (Z.eqb_neq _ 0) H). by apply wp_zoom, wp_modify.
Qed.

(** The trap frame as setup_rt_frame leaves it: the words it sets. *)
Definition handler_regs (act : sigaction) (signo : Z) : list (Z * Z) :=
  [(TF_RA, SIGRETURN); (TF_SP, rtf); (TF_EPC, sa_handler act); (TF_A0, signo)] ++
  (if has_bits (sa_flags act) SA_SIGINFO then [(TF_A1, u64 (rtf + FR_INFO)); (TF_A2, u64 (rtf + FR_UC))]
   else [(TF_A1, 0); (TF_A2, 0)]).

(** Words stored one after the other, at offsets from [a]. *)
Definition put_words (a : Z) (ws : list (Z * Z)) (m : mem) : mem := fold_left (fun m w => store64 m (a + w.1) w.2) ws m.

Lemma put_words_out a ws m x : Forall (fun w => x < a + w.1 \/ a + w.1 + 8 <= x) ws -> put_words a ws m x = m x.
Proof.
  revert m. induction ws as [|w ws IH]; intros m H; [done|]. apply Forall_cons_1 in H as [H1 H2].
  cbn [put_words fold_left]. fold (put_words a ws (store64 m (a + w.1) w.2)). rewrite IH by done. by apply store64_out.
Qed.

Definition apart_words (ws : list (Z * Z)) (f : Z) : Prop := Forall (fun w => w.1 + 8 <= f \/ f + 8 <= w.1) ws.

(** Each of the words is read back when their offsets do not overlap. *)
Lemma put_words_in a ws f v m : forall ws1 ws2, ws = ws1 ++ (f, v) :: ws2 -> apart_words ws2 f ->
  load64 (put_words a ws m) (a + f) = u64 v.
Proof.
  intros ws1 ws2 -> Hap. unfold put_words. rewrite fold_left_app. cbn [fold_left fst snd].
  generalize (fold_left (fun m w => store64 m (a + w.1) w.2) ws1 m). clear m. intros m.
  rewrite (load64_ext _ (store64 m (a + f) v)), load64_store64_same; [done|]. intros x Hx.
  apply (put_words_out a ws2). eapply Forall_impl; [exact Hap|]. intros w. cbn. lia.
Qed.

Lemma put_words_ok a ws m : bytes_ok m -> bytes_ok (put_words a ws m).
Proof.
  revert m. induction ws as [|w ws IH]; intros m H; [done|]. cbn [put_words fold_left].
  apply (IH (store64 m (a + w.1) w.2)). by apply store64_ok.
Qed.

Lemma handler_regs_read a m act signo :
  let m' := put_words a (handler_regs act signo) m in
  load64 m' (a + TF_EPC) = u64 (sa_handler act) /\ load64 m' (a + TF_SP) = u64 rtf /\
  load64 m' (a + TF_RA) = u64 SIGRETURN /\ load64 m' (a + TF_A0) = u64 signo.
Proof.
  cbn zeta.
  assert (forall f v ws1 ws2, handler_regs act signo = ws1 ++ (f, v) :: ws2 -> apart_words ws2 f ->
    load64 (put_words a (handler_regs act signo) m) (a + f) = u64 v) as H by (intros f v; apply put_words_in).
  assert (forall f, f = TF_EPC \/ f = TF_SP \/ f = TF_RA \/ f = TF_A0 -> apart_words (drop 4 (handler_regs act signo)) f) as Ht.
  { intros f Hf. unfold handler_regs, apart_words, TF_RA, TF_SP, TF_EPC, TF_A0, TF_A1, TF_A2 in *.
    destruct (has_bits _ _); cbn [app drop]; repeat (apply Forall_cons; split; [cbn; lia|]); apply Forall_nil_2. }
  assert (forall f g v ws, apart_words ws f -> g + 8 <= f \/ f + 8 <= g -> apart_words ((g, v) :: ws) f) as Hc
    by (intros; by apply Forall_cons).
  split_and!.
  - eapply (H _ _ [_; _] (_ :: _)); [reflexivity|]. apply Hc; [apply Ht; tauto|unfold TF_EPC, TF_A0; lia].
  - eapply (H _ _ [_] (_ :: _ :: _)); [reflexivity|].
    apply Hc; [apply Hc; [apply Ht; tauto|unfold TF_SP, TF_A0; lia]|unfold TF_SP, TF_EPC; lia].
  - eapply (H _ _ [] (_ :: _ :: _ :: _)); [reflexivity|].
    apply Hc; [apply Hc; [apply Hc; [apply Ht; tauto|]|]|]; unfold TF_RA, TF_SP, TF_EPC, TF_A0; lia.
  - eapply (H _ _ [_; _; _] _); [reflexivity|]. apply Ht. tauto.
Qed.

Lemma handler_regs_inside act signo : Forall (fun w => 0 <= w.1 /\ w.1 + 8 <= TF_SIZE /\ w.1 mod 8 = 0) (handler_regs act signo).
Proof. unfold handler_regs. destruct (has_bits _ _); repeat (apply Forall_cons; split; [done|]); apply Forall_nil_2. Qed.

Lemma wp_setup_rt_frame t act signo set (Q : Z -> kstate -> Prop) s :
  let tf := trapframe (tcbs s t) in
  runs_on s -> near (mmem (km s)) -> tf <> 0 -> kern_range tf TF_SIZE ->
  rtf = get_sigframe (load64 (mmem (km s)) (tf + TF_SP)) FRAME_SIZE ->
  disjoint_ranges tf TF_SIZE kuc UC_SIZE -> disjoint_ranges tf TF_SIZE kucr UC_RISCV_SIZE ->
  (forall m m1, held m = held (km s) -> mmem m = put_words tf (handler_regs act signo) m1 -> bytes_ok m1 ->
     saved m1 (fun j => mmem (km s) (tf + j)) set signo ->
     (forall x, tf <= x < tf + TF_SIZE -> m1 x = mmem (km s) x) -> Q 0 (set_km m s)) ->
  wp (setup_rt_frame kuc kucr t act signo set) Q s.
Proof.
  intros tf Hr Hn Htf Htk Hfr Hd1 Hd2 HQ. unfold disjoint_ranges in *. unfold setup_rt_frame.
  apply wp_bind, wp_gets. fold tf. apply wp_bind. unfold tf_get. apply wp_bind, wp_gets. fold tf.
  rewrite (proj2 (Z.eqb_neq tf 0) Htf). apply wp_gets. cbn zeta. rewrite <- Hfr.
  apply wp_bind, wp_signal_frame_setup; [done|done|]. intros m1 Hh1 Hn1 Hsv Hkeep. cbn [Z.ltb Z.compare].
  assert (Hkeep' : forall x, tf <= x < tf + TF_SIZE -> mmem m1 x = mmem (km s) x).
  { intros x Hx. apply Hkeep; [lia|lia|]. intros i Hi Heq. pose proof (kern_range_cell _ _ _ Htk Hi). lia. }
  do 4 (apply wp_bind, wp_tf_set; [done|]; cbn [km set_km tcbs mmem set_mmem]; fold tf).
  destruct (has_bits (sa_flags act) SA_SIGINFO) eqn:Hsi; apply wp_bind, wp_bind, wp_tf_set; try done;
    cbn [km set_km tcbs mmem set_mmem]; fold tf; apply wp_tf_set; try done; cbn [km set_km tcbs mmem set_mmem]; fold tf; apply wp_ret;
    (apply (HQ _ (mmem m1)); [exact Hh1| |apply Hn1|done|done]); unfold handler_regs; by rewrite Hsi.
Qed.
End Frame.

(** ** Properties *)

Section Claims.
Context (kend root kuc kucr : Z) (T : tables).

(** The kernel's buffers and the trap frame of [t] are kernel memory, apart from
    each other. *)
Record buffers_ok (m : mem) (rtf tf : Z) : Prop := {
  bo_uc : kern_range rtf T m kuc UC_SIZE;
  bo_ucr : kern_range rtf T m kucr UC_RISCV_SIZE;
  bo_tf : kern_range rtf T m tf TF_SIZE;
  bo_null : tf <> 0;
  bo_tf_uc : disjoint_ranges tf TF_SIZE kuc UC_SIZE;
  bo_tf_ucr : disjoint_ranges tf TF_SIZE kucr UC_RISCV_SIZE;
}.

Lemma near_refl m rtf : bytes_ok m -> near rtf T m m.
Proof. by split. Qed.

(** setup_rt_frame, on a user stack with room for the frame, saves the trap
    frame, the mask and the signal number on the stack and sets the thread up to
    run the handler: its program counter is the handler, its stack pointer the
    frame, its return address the sigreturn trampoline and its first argument the
    signal; the registers it does not set keep their values. *)
Theorem setup_rt_frame_saves (t : nat) (act : sigaction) (signo set : Z) (s : kstate) :
  let m := mmem (km s) in let tf := trapframe (tcbs s t) in
  let rtf := get_sigframe (load64 m (tf + TF_SP)) FRAME_SIZE in
  0 < kend -> frame_ok kend root rtf T m -> bytes_ok m -> runs_on root s -> buffers_ok m rtf tf ->
  wp (setup_rt_frame kuc kucr t act signo set) (fun r s' =>
    let m' := mmem (km s') in
    r = 0 /\ held (km s') = held (km s) /\ set_km (km s) s' = s /\
    saved rtf T m m' (fun j => m (tf + j)) set signo /\
    load64 m' (tf + TF_EPC) = u64 (sa_handler act) /\ load64 m' (tf + TF_SP) = rtf /\
    load64 m' (tf + TF_RA) = SIGRETURN /\ load64 m' (tf + TF_A0) = u64 signo /\
    forall f, 0 <= f < TF_SIZE -> apart_words (handler_regs rtf act signo) (f / 8 * 8) -> m' (tf + f) = m (tf + f)) s.
Proof.
  intros m tf rtf Hk Hfo Hb Hr [H1 H2 H3 H4 H5 H6].
  apply (wp_setup_rt_frame kend root rtf T m Hk Hfo kuc kucr H1 H2); [done|by apply near_refl|done|done|done|done|done|].
  intros m1 m2 Hh Hm Hb2 Hsv Hkeep. cbn zeta. cbn [km set_km]. rewrite Hm.
  destruct (handler_regs_read rtf tf m2 act signo) as (E1 & E2 & E3 & E4).
  assert (u64 rtf = rtf) as Hw.
  { apply wrap_small. pose proof (frame_word kend root rtf T m Hfo 0 ltac:(done)). lia. }
  rewrite Hw in E2. split; [done|]. split; [exact Hh|]. split; [by destruct s|]. split; [|split_and!; [done|done|done|done|]].
  - intros i Hi. rewrite put_words_out; [by apply Hsv|].
    eapply Forall_impl; [apply (handler_regs_inside rtf act signo)|]. cbn. intros w Hw'.
    pose proof (kern_range_cell rtf T m tf TF_SIZE i H3 ltac:(unfold FR_UC_RISCV in Hi; lia)). lia.
  - intros f Hf Hap. rewrite put_words_out; [apply Hkeep; lia|].
    assert (Hall := proj2 (Forall_and _ _) (conj Hap (handler_regs_inside rtf act signo))).
    eapply Forall_impl; [exact Hall|]. cbn. intros w (Hw1 & _ & _ & Hw2).
    pose proof (Z.div_mod f 8). pose proof (Z.mod_pos_bound f 8). lia.
Qed.

End Claims.

(** ** Witnesses: one user page at 0, whose end is the stack *)

(** The frame is described the same way in every memory near the first one. *)
Lemma frame_near kend root rtf T m0 m : frame_ok kend root rtf T m0 -> near rtf T m0 m ->
  frame_ok kend root rtf T m /\ (forall a len, kern_range rtf T m0 a len -> kern_range rtf T m a len) /\
  forall regs set signo, saved rtf T m0 m regs set signo -> saved rtf T m m regs set signo.
Proof.
  intros Hf Hn. destruct (near_tables kend root rtf T m0 Hf m Hn) as [Hpt Hu]. destruct Hf as [_ H0 Hm Hd]. split_and!.
  - split; [done|done|intros i Hi; rewrite Hu; by apply Hm|].
    intros i Hi. rewrite Hu. intros Hne. destruct (Hd i Hi Hne) as [H1 H2]. split; [done|]. intros j Hj. rewrite Hu. by apply H2.
  - intros a len Hk x Hx. destruct (Hk x Hx) as [H1 H2]. split; [done|]. intros i Hi. rewrite Hu. by apply H2.
  - intros regs set signo Hs i Hi. unfold cell, uaddr. rewrite Hu. by apply Hs.
Qed.

Definition stack_frame : Z := 4096 - FRAME_SIZE.

Lemma low_frame root m T :
  pt_inv six_pages m root T -> valid_page six_pages (upage m T 0) -> ~ table_page T (upage m T 0) ->
  (forall i, 0 <= i < PGSIZE -> upage m T (0 + i) = upage m T 0) ->
  frame_ok six_pages root stack_frame T m /\
  forall a len, 0 <= a -> a + len <= 0x10000 -> kern_range stack_frame T m a len.
Proof.
  intros Hpt [Hal Hup] Hnt Hsame. assert (0x20000 < six_pages) as Hs by done. unfold stack_frame, FRAME_SIZE.
  assert (forall i, 0 <= i < 1392 -> upage m T (4096 - 1392 + i) = upage m T 0) as Hf.
  { intros i Hi. rewrite <- (Hsame (4096 - 1392 + i)) by (unfold PGSIZE; lia). done. }
  split; [split|].
  - done.
  - lia.
  - intros i Hi. rewrite Hf by done. lia.
  - intros i Hi _. unfold FRAME_SIZE in Hi. rewrite Hf by done. split; [done|]. intros j Hj _. unfold FRAME_SIZE in Hj.
    unfold PGROUNDDOWN. rewrite !(land_lnot_ones _ 12) by lia. by rewrite !Z.div_small by lia.
  - intros a len Ha Hl x Hx. split.
    + intros pa [p Hp] Hin. pose proof (pt_valid _ _ _ _ Hpt p pa Hp) as [_ ?]. unfold in_page in *. lia.
    + intros i Hi. unfold FRAME_SIZE in Hi. rewrite Hf by done. unfold in_page. lia.
Qed.

Definition frame_state (b : kstate) (m : mem) : kstate :=
  set_cur (Some 0%nat) (set_tcbs (<[0%nat := set_trapframe 0x5000 (set_tproc (Some 0%nat) (tcbs b 0%nat))]> (tcbs b))
    (set_procs (fun _ => set_pagetable root_page proc_zero) (set_km (Mach m 0 0 []) b))).

(** A page table with a user page at 0, and a trap frame whose stack pointer is
    the end of the page. *)
Lemma frame_state_ok : exists m T,
  frame_ok six_pages root_page stack_frame T m /\ bytes_ok m /\ load64 m (0x5000 + TF_SP) = 4096 /\
  forall a len, 0 <= a -> a + len <= 0x10000 -> kern_range stack_frame T m a len.
Proof.
  destruct user_page_facts as (T & Hpt & Hb & Hs & Hv & Hnt). revert Hpt Hb Hs Hv Hnt. generalize with_page. intros w Hpt Hb Hs Hv Hnt.
  destruct (low_frame root_page (mmem w) T Hpt Hv Hnt Hs) as [Hf Hk].
  exists (store64 (mmem w) (0x5000 + TF_SP) 4096), T.
  assert (near stack_frame T (mmem w) (store64 (mmem w) (0x5000 + TF_SP) 4096)) as Hn.
  { apply (near_write stack_frame T (mmem w) (mmem w) _ (0x5000 + TF_SP) 8); [by apply near_refl|apply Hk; unfold TF_SP; lia|by apply store64_ok|].
    intros x Hx. by apply store64_out. }
  destruct (frame_near _ _ _ _ _ _ Hf Hn) as (Hf' & Hk' & _).
  split; [exact Hf'|]. split; [by apply store64_ok|]. split; [by rewrite load64_store64_same|].
  intros a len Ha Hl. by apply Hk', Hk.
Qed.

Lemma frame_state_buffers T m :
  (forall a len, 0 <= a -> a + len <= 0x10000 -> kern_range stack_frame T m a len) -> buffers_ok 0x6000 0x7000 T m stack_frame 0x5000.
Proof.
  intros Hk. split; try (apply Hk; unfold UC_SIZE, UC_RISCV_SIZE, TF_SIZE; lia); [done|left|left]; unfold TF_SIZE; lia.
Qed.

Lemma setup_rt_frame_saves_witness :
  exists s, wp (setup_rt_frame 0x6000 0x7000 0 (Sigaction 0x400 0 0 0) 17 5) (fun r s' =>
    r = 0 /\ load64 (mmem (km s')) (0x5000 + TF_EPC) = 0x400 /\ load64 (mmem (km s')) (0x5000 + TF_SP) = stack_frame) s.
Proof.
  destruct frame_state_ok as (m & T & Hf & Hb & Hsp & Hk). pose (b := booted). clearbody b. exists (frame_state b m).
  assert (trapframe (tcbs (frame_state b m) 0%nat) = 0x5000) as Htf by (cbn; by rewrite fn_lookup_insert).
  assert (get_sigframe (load64 m (0x5000 + TF_SP)) FRAME_SIZE = stack_frame) as Hrtf by (by rewrite Hsp).
  pose proof (setup_rt_frame_saves six_pages root_page 0x6000 0x7000 T 0 (Sigaction 0x400 0 0 0) 17 5 (frame_state b m)) as H.
  cbn zeta in H. rewrite Htf in H. change (mmem (km (frame_state b m))) with m in H. rewrite Hrtf in H.
  eapply wp_mono; [apply H|].
  - done.
  - exact Hf.
  - exact Hb.
  - exists 0%nat. split; [|done]. exists 0%nat. split; [done|]. cbn. by rewrite fn_lookup_insert.
  - by apply frame_state_buffers.
  - cbn beta. intros r s' (H1 & _ & _ & _ & H2 & H3 & _). done.
Defined.

(** A state in which a context has been saved. *)
Lemma saved_state : exists s s1 T,
  signal_frame_setup 0x6000 0x7000 5 0x5000 stack_frame 17 s = Done 0 s1 /\ trapframe (tcbs s1 0%nat) = 0x5000 /\
  frame_ok six_pages root_page stack_frame T (mmem (km s1)) /\ bytes_ok (mmem (km s1)) /\ runs_on root_page s1 /\
  buffers_ok 0x6000 0x7000 T (mmem (km s1)) stack_frame 0x5000 /\
  saved stack_frame T (mmem (km s1)) (mmem (km s1)) (fun j => mmem (km s) (0x5000 + j)) 5 17.
Proof.
  destruct frame_state_ok as (m & T & Hf & Hb & _ & Hk). pose (b := booted). clearbody b. exists (frame_state b m).
  assert (mmem (km (frame_state b m)) = m) as Hmm by done.
  assert (trapframe (tcbs (frame_state b m) 0%nat) = 0x5000) as Htf by (cbn; by rewrite fn_lookup_insert).
  assert (runs_on root_page (frame_state b m)) as Hr.
  { exists 0%nat. split; [|done]. exists 0%nat. split; [done|]. cbn. by rewrite fn_lookup_insert. }
  revert Hmm Htf Hr. generalize (frame_state b m). intros s Hmm Htf Hr.
  pose proof (frame_state_buffers T m Hk) as [H1 H2 H3 H4 H5 H6].
  assert (wp (signal_frame_setup 0x6000 0x7000 5 0x5000 stack_frame 17) (fun r s1 => r = 0 /\ exists m1, s1 = set_km m1 s /\
    near stack_frame T m (mmem m1) /\ saved stack_frame T m (mmem m1) (fun j => mmem (km s) (0x5000 + j)) 5 17) s) as Hw.
  { apply (wp_signal_frame_setup six_pages root_page stack_frame T m ltac:(done) Hf 0x6000 0x7000 H1 H2); [done|rewrite Hmm; by apply near_refl|].
    intros m1 _ Hn Hsv _. split; [done|]. by exists m1. }
  destruct (proj1 (wp_done _ _ _) Hw) as (r & s1 & Hrun & -> & m1 & -> & Hn & Hsv). exists (set_km m1 s), T.
  destruct (frame_near _ _ _ _ _ _ Hf Hn) as (Hf1 & Hk1 & Hs1). cbn [km set_km tcbs].
  split; [exact Hrun|]. split; [exact Htf|]. split; [exact Hf1|]. split; [exact (proj1 Hn)|]. split; [exact Hr|].
  split; [|by apply Hs1]. apply frame_state_buffers. intros a len Ha Hl. by apply Hk1, Hk.
Qed.

