(* ===== verification/Sync.v ===== *)
(** * kernel/atomic: condition variables, semaphores, sleep locks

    A condition variable is the queue [CondQ c] of the threads that wait on it;
    a semaphore [s] has the counters [sems st s], the lock [L_sem s] and the
    condition variable [s]; a sleep lock [lk] has [sleeplocks st lk] and the
    spinlock [L_sleeplock lk]. *)
From S2P Require Import Prelude Mem CString KTypes Kalloc Vm ListHead KState Queue Sched Signal Thread ThreadInv SchedSpec ProcBase Pipe.
(** A waiting queue lives with its condition variable; its list head is not
    initialised before cond_init. *)
Definition cond_init (c : Z) (name : string) : E kstate unit :=
  queue_init (CondQ c) name TCB_WAIT_QUEUE.

(** A waiting thread that was popped from the queue is made runnable. *)
Definition cond_wake (t : nat) (msg : string) : E kstate unit :=
  acquire (L_tcb t);;
  r ← get_tcb t;
  panic_if (bool_decide (tstate r <> TCB_SLEEPING)) msg;;
  ASSERT (bool_decide (wait_chan_entry r <> None));;
  upd_tcb t (set_wait_chan_entry None);;
  tcb_q_change_state t TCB_RUNNABLE;;
  release (L_tcb t).

(** The lock of a NULL thread faults before the test of NULL. *)
Definition cond_signal (c : Z) : E kstate unit :=
  e ← queue_isempty_atomic (CondQ c);
  if (e : bool) then mret tt
  else
    t ← queue_pop_atomic (CondQ c) true;
    t ← deref t;
    cond_wake t "cond signal : this thread is not sleeping".

(** while (!queue_isempty_atomic(...)): each turn removes a thread, so the
    number of threads bounds the turns. *)
Fixpoint cond_broadcast_loop (fuel : nat) (c : Z) : E kstate unit :=
  e ← queue_isempty_atomic (CondQ c);
  if (e : bool) then mret tt
  else
    match fuel with
    | O => nofuel
    | S fuel =>
      t ← queue_pop_atomic (CondQ c) true;
      t ← deref t;
      cond_wake t "cond broadcast : this thread is not sleeping";;
      cond_broadcast_loop fuel c
    end.
Definition cond_broadcast (c : Z) : E kstate unit := cond_broadcast_loop (Z.to_nat NTHREADS) c.

(** ** Semaphores *)

Definition get_sem (a : Z) : E kstate sem := gets (fun s => sems s a).
Definition upd_sem (a : Z) (f : sem -> sem) : E kstate unit :=
  modify (fun s => set_sems (<[a := f (sems s a)]> (sems s)) s).

Definition sema_init (a value : Z) (name : string) : E kstate unit :=
  upd_sem a (fun _ => Sem value 0);;
  initlock (L_sem a);;
  cond_init a name.

Definition sema_signal (a : Z) : E kstate unit :=
  acquire (L_sem a);;
  upd_sem a (fun r => set_svalue (i32 (svalue r + 1)) r);;
  r ← get_sem a;
  (if svalue r <=? 0 then
     upd_sem a (fun r => set_swakeup (i32 (swakeup r + 1)) r);;
     cond_signal a
   else mret tt);;
  release (L_sem a).

Section Waiting.
(** The switch to the scheduler; thread_exit (see [Proc]). *)
Context (swtch : nat -> E kstate unit) (thread_exit : Z -> E kstate unit).

Definition cond_wait (c : Z) (mutex : lockid) : E kstate Z :=
  t ← mythread;
  acquire (L_tcb t);;
  tcb_q_change_state t TCB_SLEEPING;;
  queue_push_back (CondQ c) t;;
  upd_tcb t (set_wait_chan_entry (Some (CondQ c)));;
  release mutex;;
  thread_sched swtch;;
  killed ← gets (fun s => tkilled (tcbs s t));
  release (L_tcb t);;
  (if killed =? 0 then mret tt else thread_exit (-1);; panic "thread has exit!!");;
  acquire mutex;;
  mret 0.

(** do cond_wait while (s->wakeup == 0): [fuel] bounds the sleeps after the first. *)
Fixpoint sema_wait_loop (fuel : nat) (a : Z) : E kstate unit :=
  cond_wait a (L_sem a);;
  r ← get_sem a;
  if swakeup r =? 0 then
    match fuel with
    | O => nofuel
    | S fuel => sema_wait_loop fuel a
    end
  else mret tt.

Definition sema_wait (fuel : nat) (a : Z) : E kstate unit :=
  acquire (L_sem a);;
  upd_sem a (fun r => set_svalue (i32 (svalue r - 1)) r);;
  r ← get_sem a;
  (if svalue r <? 0 then
     sema_wait_loop fuel a;;
     upd_sem a (fun r => set_swakeup (i32 (swakeup r - 1)) r)
   else mret tt);;
  release (L_sem a).

(** ** Sleep locks *)

Definition get_sleeplock (a : Z) : E kstate sleeplock := gets (fun s => sleeplocks s a).
Definition upd_sleeplock (a : Z) (f : sleeplock -> sleeplock) : E kstate unit :=
  modify (fun s => set_sleeplocks (<[a := f (sleeplocks s a)]> (sleeplocks s)) s).

Definition initsleeplock (a : Z) : E kstate unit :=
  initlock (L_sleeplock a);;
  upd_sleeplock a (fun _ => Sleeplock 0 0).

Fixpoint acquiresleep_loop (fuel : nat) (a : Z) : E kstate unit :=
  r ← get_sleeplock a;
  if slocked r =? 0 then mret tt
  else
    match fuel with
    | O => nofuel
    | S fuel =>
      thread_sleep swtch (ChSleep a) (L_sleeplock a) None;;
      acquiresleep_loop fuel a
    end.

(** [fuel] bounds the number of sleeps. *)
Definition acquiresleep (fuel : nat) (a : Z) : E kstate unit :=
  acquire (L_sleeplock a);;
  acquiresleep_loop fuel a;;
  p ← myproc;
  upd_sleeplock a (set_slocked 1);;
  id ← gets (fun s => pid (procs s p));
  upd_sleeplock a (set_spid id);;
  release (L_sleeplock a).

Definition releasesleep (a : Z) : E kstate unit :=
  acquire (L_sleeplock a);;
  upd_sleeplock a (fun _ => Sleeplock 0 0);;
  thread_wakeup_chan (ChSleep a);;
  release (L_sleeplock a).

Definition holdingsleep (a : Z) : E kstate bool :=
  acquire (L_sleeplock a);;
  r ← get_sleeplock a;
  b ← (if slocked r =? 0 then mret false
       else p ← myproc; id ← gets (fun s => pid (procs s p)); mret (spid r =? id));
  release (L_sleeplock a);;
  mret b.
End Waiting.

(** * Sleep locks

    What acquiresleep, releasesleep and holdingsleep do to a lock nobody waits
    for or holds: the rules the block cache is verified with. *)

(** The lock as its holder, process [p], leaves it. *)
Definition held_by (s : kstate) (p : nat) : sleeplock := Sleeplock 1 (pid (procs s p)).

Section Rules.
Context (swtch : nat -> E kstate unit) (fuel : nat) (p : nat) (a : Z).
Implicit Types s : kstate.

Lemma wp_acquiresleep (Q : unit -> kstate -> Prop) s :
  held (km s) = [] -> runs_in s p -> slocked (sleeplocks s a) = 0 ->
  (forall s', s' = set_sleeplocks (sleeplocks s') s ->
     sleeplocks s' a = held_by s p -> (forall b, b <> a -> sleeplocks s' b = sleeplocks s b) -> Q tt s') ->
  wp (acquiresleep swtch fuel a) Q s.
Proof.
  intros Hh Hrun Hfree HQ. unfold acquiresleep. apply wp_bind, wp_kacquire; [rewrite Hh; apply not_elem_of_nil|].
  apply wp_bind. assert (forall f s0 (R : unit -> kstate -> Prop), slocked (sleeplocks s0 a) = 0 -> R tt s0 -> wp (acquiresleep_loop swtch f a) R s0) as Hloop.
  { intros f s0 R H0 HR. destruct f; apply wp_bind, wp_gets; rewrite H0; by apply wp_ret. }
  apply Hloop; [done|]. apply wp_bind. eapply wp_myproc; [exact Hrun|].
  apply wp_bind, wp_modify, wp_bind, wp_gets, wp_bind, wp_modify.
  eapply wp_krelease; [cbn [km set_km set_sleeplocks]; simpl; by rewrite Hh|apply not_elem_of_nil|].
  apply HQ; cbn [sleeplocks set_km set_sleeplocks km procs].
  - unfold set_held; simpl. destruct s as [m ?]; destruct m; simpl in *; subst; done.
  - rewrite !fn_lookup_insert. done.
  - intros b Hb. by rewrite !fn_lookup_insert_ne.
Qed.

Lemma wp_holdingsleep (Q : bool -> kstate -> Prop) s :
  held (km s) = [] -> runs_in s p -> sleeplocks s a = held_by s p -> Q true s ->
  wp (holdingsleep a) Q s.
Proof.
  intros Hh Hrun Hl HQ. unfold holdingsleep. apply wp_bind, wp_kacquire; [rewrite Hh; apply not_elem_of_nil|].
  apply wp_bind, wp_gets. cbn [sleeplocks set_km]. rewrite Hl. apply wp_bind. simpl.
  apply wp_bind. eapply wp_myproc; [exact Hrun|]. apply wp_bind, wp_gets, wp_ret, wp_bind.
  cbn [procs set_km]. rewrite Z.eqb_refl.
  eapply wp_krelease; [cbn [km set_km]; simpl; by rewrite Hh|apply not_elem_of_nil|]. apply wp_ret.
  replace (set_km _ _) with s; [done|]. destruct s as [m ?]; destruct m; simpl in *; subst; done.
Qed.

(** Only the lock and the scheduling of the threads that wait for it change. *)
Definition wake_rest s s' : Prop :=
  set_sleeplocks (sleeplocks s) (set_lh (lh s) (set_queues (queues s) (set_tcbs (tcbs s) s'))) = s.

Lemma wp_releasesleep tq (Q : unit -> kstate -> Prop) s :
  sched_inv s tq ∅ -> held (km s) = [] -> runs_in s p ->
  (forall s' tq', wake_rest s s' -> sched_inv s' tq' ∅ -> runs_in s' p ->
     sleeplocks s' a = Sleeplock 0 0 -> (forall b, b <> a -> sleeplocks s' b = sleeplocks s b) -> Q tt s') ->
  wp (releasesleep a) Q s.
Proof.
  intros Hi Hh Hrun HQ. unfold releasesleep. apply wp_bind, wp_kacquire; [rewrite Hh; apply not_elem_of_nil|].
  apply wp_bind, wp_modify, wp_bind. rewrite Hh. eapply wp_mono.
  { apply (wp_thread_wakeup_chan _ tq).
    - eapply sched_inv_same; [exact Hi|done..].
    - intros st. simpl. intros ?%list_elem_of_singleton. done.
    - intros t. simpl. intros ?%list_elem_of_singleton. done. }
  cbn beta. intros _ s2 [Hi2 Ht2 (Hk & Hp & Hr & _)].
  eapply wp_krelease; [by rewrite Hk|apply not_elem_of_nil|]. cbn [km set_km set_sleeplocks tcbs] in *.
  assert (Hsl : sleeplocks s2 = <[a := Sleeplock 0 0]> (sleeplocks s)) by by apply (f_equal sleeplocks) in Hr.
  eapply HQ; cbn [sleeplocks set_km].
  - unfold wake_rest. apply (f_equal (set_km (km s))) in Hr. apply (f_equal (set_sleeplocks (sleeplocks s))) in Hr.
    rewrite Hk. destruct s as [m ?]; destruct m; simpl in *. subst. destruct s2; simpl in *. exact Hr.
  - apply sched_inv_km. exact Hi2.
  - destruct Hrun as (t & Hc & Htp). exists t. apply (f_equal cur) in Hr. cbn [cur set_km set_lh set_queues set_tcbs set_sleeplocks] in *.
    cbn [tcbs set_km]. split; [congruence|]. rewrite Ht2. by case_decide.
  - rewrite Hsl. apply fn_lookup_insert.
  - intros b Hb. rewrite Hsl. by apply fn_lookup_insert_ne.
Qed.
End Rules.

(** * Condition variables

    [cond_inv s tq c ws]: the threads [ws] wait on the condition variable [c],
    longest first; each of them sleeps.  cond_signal wakes the first one and
    cond_broadcast all of them. *)

Record cond_inv (s : kstate) (tq : thread_state -> list nat) (c : Z) (ws : list nat) : Prop := {
  ci_sched : sched_inv s tq ∅;
  ci_type : qtype (queues s (CondQ c)) = TCB_WAIT_QUEUE;
  ci_queue : queue_is s (CondQ c) ws;
  ci_wait : forall t, t ∈ ws -> is_thread t /\ tstate (tcbs s t) = TCB_SLEEPING /\ wait_chan_entry (tcbs s t) <> None;
}.

(** The invariant depends on the state queues and the states of threads. *)
Lemma sched_inv_frame s s' tq X :
  sched_inv s tq X -> (forall t, tstate (tcbs s' t) = tstate (tcbs s t)) ->
  (forall st, queues s' (TQ st) = queues s (TQ st)) -> (forall x, sched_node x = true -> lh s' !! x = lh s !! x) ->
  sched_inv s' tq X.
Proof.
  intros [Hq Hm Ho] Ht Hqs Hn. split.
  - intros st Hst. destruct (Hq st Hst) as [Hty Hq1]. rewrite Hqs. split; [done|].
    eapply queue_is_frame; [exact Hq1|by rewrite Hqs|].
    rewrite entry_tstate by done. intros x Hx. apply Hn. by eapply nodes_sched.
  - intros st t Hst. rewrite Ht. by apply Hm.
  - intros t Hth Hc. rewrite Ht in Hc. unfold detached. rewrite Hn by done. by apply Ho.
Qed.

Lemma cond_nodes c ws x : x ∈ QHead (CondQ c) :: (TWait <$> ws) -> sched_node x = false.
Proof. by intros [->|(t & -> & _)%list_elem_of_fmap]%elem_of_cons. Qed.

(** Only the scheduling of threads and the queue of the condition variable
    change. *)
Definition cond_rest (c : Z) (s s' : kstate) : Prop :=
  km s' = km s /\ procs s' = procs s /\ cur s' = cur s /\
  set_lh (lh s) (set_queues (queues s) (set_tcbs (tcbs s) s')) = s.

Lemma cond_rest_trans c s1 s2 s3 : cond_rest c s1 s2 -> cond_rest c s2 s3 -> cond_rest c s1 s3.
Proof.
  intros (K1 & P1 & C1 & R1) (K2 & P2 & C2 & R2). split_and!; [congruence..|]. rewrite <- R2 in R1. exact R1.
Qed.

(** The thread control block of a thread that was woken. *)
Definition wake_tcb (r : tcb) : tcb := set_tstate TCB_RUNNABLE (set_wait_chan_entry None r).

(** Taking the first waiting thread out of the queue. *)
Lemma wp_cond_pop c t ws tq (Q : option nat -> kstate -> Prop) s :
  cond_inv s tq c (t :: ws) -> L_queue (CondQ c) ∉ held (km s) ->
  (forall s', cond_inv s' tq c ws -> tcbs s' = tcbs s -> cond_rest c s s' -> Q (Some t) s') ->
  wp (queue_pop_atomic (CondQ c) true) Q s.
Proof.
  intros [Hs Hty Hq Hw] Hl HQ. eapply wp_queue_pop_atomic; [exact Hq|done|done|].
  intros n xs' s' [= <- <-] Hf Hq' _ Hqs. pose proof (qf_tcbs _ _ _ _ Hf) as Htc. pose proof (qf_rest _ _ _ _ Hf) as Hr. apply HQ; [|done|].
  - split.
    + eapply sched_inv_frame; [exact Hs|by rewrite Htc|intros st; by rewrite Hqs|]. intros x Hx.
      apply (qf_nodes _ _ _ _ Hf). rewrite Hty. intros Hin. apply cond_nodes in Hin. congruence.
    + by rewrite Hqs.
    + done.
    + intros t' Ht'. rewrite Htc. apply Hw, elem_of_cons. by right.
  - split_and!; [by eapply qf_km|by eapply qf_procs|by apply (f_equal cur) in Hr|].
    rewrite <- Htc. by destruct s'.
Qed.

Lemma wp_cond_wake c t ws tq msg (Q : unit -> kstate -> Prop) s :
  cond_inv s tq c ws -> is_thread t -> t ∉ ws -> tstate (tcbs s t) = TCB_SLEEPING -> wait_chan_entry (tcbs s t) <> None ->
  locks_free s -> L_tcb t ∉ held (km s) ->
  (forall s', cond_inv s' (with_last t TCB_RUNNABLE (without t tq)) c ws ->
     (forall t', tcbs s' t' = if decide (t' = t) then wake_tcb (tcbs s t') else tcbs s t') -> cond_rest c s s' -> Q tt s') ->
  wp (cond_wake t msg) Q s.
Proof.
  intros [Hs Hty Hq Hw] Ht Hni Hsl Hwc Hlf Hl HQ. unfold cond_wake.
  apply wp_bind, wp_kacquire; [done|]. apply wp_bind, wp_gets. cbn [tcbs set_km].
  apply wp_bind, wp_panic_if; [by rewrite bool_decide_false by (rewrite Hsl; tauto)|].
  apply wp_bind. rewrite bool_decide_true by done. apply wp_ret, wp_bind, wp_modify, wp_bind. cbn [tcbs set_km].
  eapply (wp_tcb_q_change_state t TCB_RUNNABLE tq ∅).
  - eapply sched_inv_same; [exact Hs|done|done|]. intros t'. cbn [tcbs set_tcbs set_km].
    destruct (decide (t' = t)) as [->|Hne]; [by rewrite fn_lookup_insert|by rewrite fn_lookup_insert_ne].
  - done.
  - done.
  - intros st. cbn. rewrite elem_of_cons. intros [?|?]; [done|by apply (Hlf st)].
  - intros s2 Hi2 Htc2 (Hk2 & Hp2 & Hr2 & Hq2 & Hn2). cbn [km procs set_tcbs set_km tcbs queues lh] in *.
    rewrite fn_lookup_insert in Htc2.
    eapply wp_krelease; [by rewrite Hk2|done|]. apply HQ.
    + split.
      * apply sched_inv_km. by replace (∅ : gset nat) with ((∅ : gset nat) ∖ {[t]}) by set_solver.
      * cbn [queues set_km]. by rewrite Hq2.
      * apply (queue_is_frame s); [done|cbn [queues set_km]; by rewrite Hq2|]. rewrite Hty. intros x Hx. cbn [lh set_km]. apply Hn2. by eapply cond_nodes.
      * intros t' Ht'. cbn [tcbs set_km]. rewrite Htc2. destruct (decide (t' = t)) as [->|Hne]; [done|]. rewrite !fn_lookup_insert_ne by done. by apply Hw.
    + intros t'. cbn [tcbs set_km]. rewrite Htc2. destruct (decide (t' = t)) as [->|Hne]; [by rewrite fn_lookup_insert|by rewrite !fn_lookup_insert_ne].
    + unfold cond_rest. cbn [km procs cur set_km]. rewrite Hk2. cbn [set_held]. split_and!; [by destruct s as [[]]|done|by apply (f_equal cur) in Hr2|].
      apply (f_equal (set_km (km s))), (f_equal (set_tcbs (tcbs s))) in Hr2. destruct s as [[]], s2. exact Hr2.
Qed.

(** What a wakeup of the threads [ts] does to the waiting ones. *)
Definition all_woken (s : kstate) (ts : list nat) (s' : kstate) : Prop :=
  forall t, tcbs s' t = if decide (t ∈ ts) then wake_tcb (tcbs s t) else tcbs s t.

Definition cond_locks_free (s : kstate) (c : Z) : Prop :=
  locks_free s /\ L_queue (CondQ c) ∉ held (km s) /\ forall t, L_tcb t ∉ held (km s).

Lemma cond_locks_rest c s s' : cond_rest c s s' -> cond_locks_free s c -> cond_locks_free s' c.
Proof. intros (K & _) H. unfold cond_locks_free, locks_free. rewrite K. exact H. Qed.

(** Taking the first thread out; [K] then wakes it. *)
Lemma wp_cond_turn c t ws tq {A} (K : nat -> E kstate A) (Q : A -> kstate -> Prop) s :
  cond_inv s tq c (t :: ws) -> cond_locks_free s c ->
  (forall s1, (forall msg (P : unit -> kstate -> Prop),
      (forall s', cond_inv s' (with_last t TCB_RUNNABLE (without t tq)) c ws -> all_woken s [t] s' -> cond_rest c s s' -> P tt s') ->
      wp (cond_wake t msg) P s1) -> wp (K t) Q s1) ->
  wp (t ← queue_pop_atomic (CondQ c) true; t ← deref t; K t) Q s.
Proof.
  intros Hc Hl HQ. pose proof (queue_is_NoDup _ _ _ (ci_queue _ _ _ _ Hc)) as [Hni _]%NoDup_cons.
  destruct (ci_wait _ _ _ _ Hc t) as (Ht & Hsl & Hw); [apply elem_of_cons; by left|].
  apply wp_bind. eapply wp_cond_pop; [exact Hc|apply Hl|]. intros s1 Hc1 Htc1 Hr1.
  apply wp_bind, wp_ret, HQ. intros msg P HP. destruct (cond_locks_rest _ _ _ Hr1 Hl) as (Hl1 & _ & Hl3).
  eapply wp_cond_wake; [exact Hc1|done|done|by rewrite Htc1|by rewrite Htc1|done|apply Hl3|].
  intros s2 Hc2 Htc2 Hr2. apply HP; [done| |by eapply cond_rest_trans].
  intros t'. rewrite Htc2, Htc1. apply decide_ext. by rewrite list_elem_of_singleton.
Qed.

Lemma cond_inv_ext s tq tq' c ws : (forall st, tq st = tq' st) -> cond_inv s tq c ws -> cond_inv s tq' c ws.
Proof. intros He [Hs Hty Hq Hw]. split; [by eapply sched_inv_ext|done..]. Qed.

Lemma woken_queues_cons t ts tq st : t ∉ ts -> t ∉ tq TCB_RUNNABLE ->
  woken_queues ts (with_last t TCB_RUNNABLE (without t tq)) st = woken_queues (t :: ts) tq st.
Proof.
  intros Hni Hr. unfold woken_queues, with_last, without. rewrite filter_app, list_filter_filter, <- app_assoc. f_equal.
  - apply list_filter_iff. intros x. rewrite not_elem_of_cons. tauto.
  - case_bool_decide; [|done]. by rewrite filter_cons_True.
Qed.

Lemma first_waiting s tq c t ws : cond_inv s tq c (t :: ws) -> t ∉ ws /\ t ∉ tq TCB_RUNNABLE.
Proof.
  intros Hc. pose proof (queue_is_NoDup _ _ _ (ci_queue _ _ _ _ Hc)) as [Hni _]%NoDup_cons. split; [done|].
  destruct (ci_wait _ _ _ _ Hc t) as (_ & Hsl & _); [apply elem_of_cons; by left|].
  intros Hin. apply (si_mem _ _ _ (ci_sched _ _ _ _ Hc)) in Hin as (_ & Hst & _); [congruence|done].
Qed.

Lemma wp_cond_broadcast_loop c ws tq fuel (Q : unit -> kstate -> Prop) s :
  cond_inv s tq c ws -> cond_locks_free s c -> (length ws <= fuel)%nat ->
  (forall s', cond_inv s' (woken_queues ws tq) c [] -> all_woken s ws s' -> cond_rest c s s' -> Q tt s') ->
  wp (cond_broadcast_loop fuel c) Q s.
Proof.
  revert ws tq s. induction fuel as [|fuel IH]; intros ws tq s Hc Hl Hf HQ; cbn [cond_broadcast_loop]; apply wp_bind;
    (eapply wp_queue_isempty_atomic; [apply Hc|apply Hl|]); destruct ws as [|t ws]; cbn [length] in Hf; try lia.
  1, 2: apply wp_ret, HQ; [|intros t; by rewrite decide_False by apply not_elem_of_nil|split_and!; try done; by destruct s];
    eapply cond_inv_ext; [|exact Hc]; intros st; by rewrite woken_queues_nil.
  destruct (first_waiting _ _ _ _ _ Hc) as [Hni Hnr].
  eapply wp_cond_turn; [exact Hc|done|]. intros s0 Hwake. apply wp_bind, Hwake. intros s1 Hc1 Htc1 Hr1.
  eapply IH; [exact Hc1|by eapply cond_locks_rest|lia|]. intros s2 Hc2 Htc2 Hr2. apply HQ.
  - eapply cond_inv_ext; [|exact Hc2]. intros st. by apply woken_queues_cons.
  - intros t'. rewrite Htc2, Htc1. destruct (decide (t' = t)) as [->|Hne].
    + rewrite decide_False by done. by rewrite !decide_True by set_solver.
    + rewrite (decide_False (P := t' ∈ [t])) by set_solver. apply decide_ext. set_solver.
  - by eapply cond_rest_trans.
Qed.

Lemma waiting_bound (ws : list nat) : NoDup ws -> (forall t, t ∈ ws -> is_thread t) -> (length ws <= Z.to_nat NTHREADS)%nat.
Proof.
  intros Hnd Ht. rewrite <- (length_seq (Z.to_nat NTHREADS) 0). apply submseteq_length, NoDup_submseteq; [done|].
  intros t Hin%Ht. apply elem_of_seq. unfold is_thread in Hin. lia.
Qed.

(** ** Properties *)

(** C22: cond_broadcast ends, within as many turns as there are threads, and
    wakes every thread that waits on the condition variable: the queue is then
    empty, and the threads have moved from the sleeping queue to the end of the
    runnable queue, in the order in which they waited.  cond_signal wakes the
    thread that has waited longest, if any, and leaves the others waiting.
    Every other thread stays as it is. *)
Theorem cond_broadcast_wakes_all (c : Z) (ws : list nat) (tq : thread_state -> list nat) (s : kstate) :
  cond_inv s tq c ws -> cond_locks_free s c ->
  wp (cond_broadcast c) (fun _ s' =>
    cond_inv s' (woken_queues ws tq) c [] /\ all_woken s ws s' /\ cond_rest c s s') s /\
  wp (cond_signal c) (fun _ s' =>
    cond_inv s' (woken_queues (take 1 ws) tq) c (drop 1 ws) /\ all_woken s (take 1 ws) s' /\ cond_rest c s s') s.
Proof.
  intros Hc Hl. split.
  - eapply wp_cond_broadcast_loop; [exact Hc|done| |by intros s' ???].
    apply waiting_bound; [by eapply queue_is_NoDup, Hc|]. intros t Ht. by apply (ci_wait _ _ _ _ Hc t).
  - unfold cond_signal. apply wp_bind. eapply wp_queue_isempty_atomic; [apply Hc|apply Hl|]. destruct ws as [|t ws]; cbn [take drop].
    + apply wp_ret. split_and!; [|intros t; by rewrite decide_False by apply not_elem_of_nil|split_and!; try done; by destruct s].
      eapply cond_inv_ext; [|exact Hc]. intros st. by rewrite woken_queues_nil.
    + destruct (first_waiting _ _ _ _ _ Hc) as [Hni Hnr]. eapply wp_cond_turn; [exact Hc|done|]. intros s0 Hwake. apply Hwake.
      intros s1 Hc1 Htc1 Hr1. split_and!; [|done|done]. eapply cond_inv_ext; [|exact Hc1]. intros st.
      rewrite <- woken_queues_cons by (done || apply not_elem_of_nil). by rewrite woken_queues_nil.
Qed.

(** ** Witness: thread 1 waits on the condition variable 0 *)

Definition waiting_on_0 (s : kstate) : kstate :=
  set_lh (<[QHead (CondQ 0) := Node (Some (TWait 1)) (Some (TWait 1))]> (<[TWait 1 := Node (Some (QHead (CondQ 0))) (Some (QHead (CondQ 0)))]> (lh s)))
    (set_queues (<[CondQ 0 := Queue TCB_WAIT_QUEUE "" 1]> (queues s))
      (set_tcbs (<[1%nat := set_wait_chan_entry (Some (CondQ 0)) (tcbs s 1%nat)]> (tcbs s)) s)).

Lemma waiting_on_0_inv tq s :
  sched_inv s tq ∅ -> tstate (tcbs s 1%nat) = TCB_SLEEPING -> cond_inv (waiting_on_0 s) tq 0 [1%nat].
Proof.
  intros Hi Hs. assert (Hq : queues (waiting_on_0 s) (CondQ 0) = Queue TCB_WAIT_QUEUE "" 1) by (cbn [queues waiting_on_0 set_lh set_queues]; by rewrite fn_lookup_insert).
  split.
  - eapply sched_inv_frame; [exact Hi| | |].
    + intros t. cbn [waiting_on_0 tcbs set_lh set_queues set_tcbs].
      destruct (decide (t = 1%nat)) as [->|]; [by rewrite fn_lookup_insert|by rewrite fn_lookup_insert_ne].
    + intros st. cbn [waiting_on_0 queues set_lh set_queues]. by rewrite fn_lookup_insert_ne.
    + intros x Hx. cbn [waiting_on_0 lh set_lh]. rewrite !lookup_insert_ne; [done|by intros <-..].
  - by rewrite Hq.
  - split; rewrite Hq; [done|]. cbn [waiting_on_0 lh set_lh]. split_and!.
    + apply NoDup_cons. split; [|apply NoDup_singleton]. by intros ?%list_elem_of_singleton.
    + intros x [->| ->%list_elem_of_singleton]%elem_of_cons; [rewrite lookup_insert_eq|rewrite lookup_insert_ne, lookup_insert_eq by done]; by eexists.
    + cbn [path app fmap list_fmap entry_of qtype]. unfold nxt, prv. rewrite lookup_insert_eq, lookup_insert_ne, lookup_insert_eq by done. by split_and!.
  - intros t ->%list_elem_of_singleton. cbn [waiting_on_0 tcbs set_lh set_queues set_tcbs]. by rewrite fn_lookup_insert.
Qed.

Lemma cond_broadcast_wakes_all_witness :
  exists s, wp (cond_broadcast 0) (fun _ s' => tstate (tcbs s' 1%nat) = TCB_RUNNABLE) s.
Proof.
  destruct booted_ok as (_ & Hi & Hh). revert Hi Hh. generalize booted. intros b Hi Hh.
  destruct (change_state_runs 1 TCB_SLEEPING _ b Hi Hh) as (s1 & _ & I1 & H1 & _); [done..|].
  assert (tstate (tcbs s1 1%nat) = TCB_SLEEPING) as Hs.
  { destruct I1 as [_ Hm _]. apply (Hm TCB_SLEEPING 1%nat ltac:(done)). apply elem_of_app; right; apply list_elem_of_singleton; done. }
  exists (waiting_on_0 s1). eapply wp_mono.
  - apply (cond_broadcast_wakes_all 0 [1%nat] _ (waiting_on_0 s1) (waiting_on_0_inv _ _ I1 Hs)).
    unfold cond_locks_free, locks_free. change (km (waiting_on_0 s1)) with (km s1). rewrite H1. split_and!; intros; apply not_elem_of_nil.
  - cbn beta. intros _ s' (_ & Hw & _). rewrite (Hw 1%nat), decide_True by set_solver. done.
Defined.
