(* ===== verification/Bio.v ===== *)
(** * kernel/fs/bio.c: the block cache, and the block device of lwext4 on it

    Buffer [i] is [bufs s i], its sleep lock is [buf_lock i] and its place in
    the list of recently used buffers is the node [BBuf i] of [blinks s].  The
    disk is the image it had when the machine was started and the block writes
    it has done since, in order: its contents now are [disk s], and the
    contents after any prefix of the writes are what a crash can leave. *)
From S2P Require Import Prelude Mem CString KTypes Kalloc Vm ListHead KState Queue Sched Signal Thread ProcBase Sync.

Definition BSIZE : Z := 512.
Definition ROOTDEV : Z := 1.
Definition EOK : Z := 0.

(** ** The disk *)

Definition apply_writes (ws : list (Z * mem)) (d : Z -> mem) : Z -> mem :=
  foldl (fun d w => <[w.1 := w.2]> d) d ws.
Definition disk (s : kstate) : Z -> mem := apply_writes (dwrites s) (image s).

(** ** Buffers *)

Definition get_buf (i : nat) : E kstate buf := gets (fun s => bufs s i).
Definition upd_buf (i : nat) (f : buf -> buf) : E kstate unit :=
  modify (fun s => set_bufs (<[i := f (bufs s i)]> (bufs s)) s).
Definition on_blinks {A} (m : E (gmap bptr (list_head bptr)) A) : E kstate A := zoom blinks set_blinks m.

(** The address of the sleep lock of a buffer. *)
Definition buf_lock (i : nat) : Z := Z.of_nat i.

(** A transfer, as the block cache takes it to be: the block is moved between
    the buffer and the disk when the call returns.  DiskSpec relates it to the
    driver, which does not wait for writes. *)
Definition disk_rw (i : nat) (write : bool) : E kstate unit :=
  b ← get_buf i;
  if write then modify (fun s => set_dwrites (dwrites s ++ [(blockno b, bdata b)]) s)
  else d ← gets disk; upd_buf i (set_bdata (d (blockno b))).

(** b->next = head.next; b->prev = &head *)
Definition buf_point (b : bptr) : E (gmap bptr (list_head bptr)) unit :=
  n ← rd_next (Some BHead);
  wr_next (Some b) n;;
  wr_prev (Some b) (Some BHead).

(** head.next->prev = b; head.next = b *)
Definition buf_hook (b : bptr) : E (gmap bptr (list_head bptr)) unit :=
  n ← rd_next (Some BHead);
  wr_prev n (Some b);;
  wr_next (Some BHead) (Some b).

(** b->next->prev = b->prev; b->prev->next = b->next. *)
Definition buf_unlink (b : bptr) : E (gmap bptr (list_head bptr)) unit :=
  n ← rd_next (Some b);
  p ← rd_prev (Some b);
  wr_prev n p;;
  p ← rd_prev (Some b);
  n ← rd_next (Some b);
  wr_next p n.

Definition binit_one (i : nat) : E kstate unit :=
  on_blinks (buf_point (BBuf i));;
  initsleeplock (buf_lock i);;
  on_blinks (buf_hook (BBuf i)).

Definition binit : E kstate unit :=
  initlock L_bcache;;
  on_blinks (wr_prev (Some BHead) (Some BHead);; wr_next (Some BHead) (Some BHead));;
  _ ← for_table (Z.to_nat NBUF) 0 (fun i => binit_one i;; mret (None : option unit));
  mret tt.

(** for (b = ...; b != &bcache.head; b = b->next or b->prev): the first buffer
    that satisfies the test.  There are NBUF buffers to pass. *)
Fixpoint buf_find (fuel : nat) (step : option bptr -> E (gmap bptr (list_head bptr)) (option bptr))
    (test : buf -> bool) (b : option bptr) : E kstate (option nat) :=
  b ← deref b;
  match b with
  | BHead => mret None
  | BBuf i =>
    r ← get_buf i;
    if test r then mret (Some i)
    else
      match fuel with
      | O => nofuel
      | S fuel => n ← on_blinks (step (Some b)); buf_find fuel step test n
      end
  end.

Definition bpin (i : nat) : E kstate unit :=
  acquire L_bcache;;
  upd_buf i (fun b => set_refcnt (u32 (refcnt b + 1)) b);;
  release L_bcache.

Definition bunpin (i : nat) : E kstate unit :=
  acquire L_bcache;;
  upd_buf i (fun b => set_refcnt (u32 (refcnt b - 1)) b);;
  release L_bcache.

Section Buffers.
(** The switch to the scheduler, and a bound on the number of times a caller
    sleeps on the lock of a buffer. *)
Context (swtch : nat -> E kstate unit) (fuel : nat).

Definition bget (dev bno : Z) : E kstate nat :=
  acquire L_bcache;;
  b ← on_blinks (rd_next (Some BHead));
  r ← buf_find (Z.to_nat NBUF) rd_next (fun b => (bdev b =? dev) && (blockno b =? bno)) b;
  match r with
  | Some i =>
    upd_buf i (fun b => set_refcnt (u32 (refcnt b + 1)) b);;
    release L_bcache;;
    acquiresleep swtch fuel (buf_lock i);;
    mret i
  | None =>
    b ← on_blinks (rd_prev (Some BHead));
    r ← buf_find (Z.to_nat NBUF) rd_prev (fun b => refcnt b =? 0) b;
    match r with
    | Some i =>
      upd_buf i (fun b => set_refcnt 1 (set_bvalid 0 (set_blockno bno (set_bdev dev b))));;
      release L_bcache;;
      acquiresleep swtch fuel (buf_lock i);;
      mret i
    | None => panic "bget: no buffers"
    end
  end.

Definition bread (dev bno : Z) : E kstate nat :=
  i ← bget dev bno;
  b ← get_buf i;
  (if bvalid b =? 0 then disk_rw i false;; upd_buf i (set_bvalid 1) else mret tt);;
  mret i.

Definition bwrite (i : nat) : E kstate unit :=
  h ← holdingsleep (buf_lock i);
  panic_if (negb h) "bwrite";;
  disk_rw i true.

Definition brelse (i : nat) : E kstate unit :=
  h ← holdingsleep (buf_lock i);
  panic_if (negb h) "brelse";;
  releasesleep (buf_lock i);;
  acquire L_bcache;;
  upd_buf i (fun b => set_refcnt (u32 (refcnt b - 1)) b);;
  b ← get_buf i;
  (if refcnt b =? 0 then on_blinks (buf_unlink (BBuf i);; buf_point (BBuf i);; buf_hook (BBuf i)) else mret tt);;
  release L_bcache.

(** ** kernel/fs/blockdev.c: the device lwext4 reads and writes *)

(** memmove between memory and the data of a buffer. *)
Definition data_to_mem (m : mem) (dst : Z) (d : mem) : mem :=
  fun a => if (dst <=? a) && (a <? dst + BSIZE) then d (a - dst) else m a.
Definition mem_to_data (m : mem) (src : Z) (d : mem) : mem :=
  fun o => if (0 <=? o) && (o <? BSIZE) then m (src + o) else d o.

Fixpoint blockdev_bread_loop (n : nat) (bp blk : Z) : E kstate unit :=
  match n with
  | O => mret tt
  | S n =>
    i ← bread ROOTDEV (u32 blk);
    b ← get_buf i;
    on_mach (upd_mem (fun m => data_to_mem m bp (bdata b)));;
    brelse i;;
    blockdev_bread_loop n (bp + BSIZE) (blk + 1)
  end.
Definition blockdev_bread (buf blk_id blk_cnt : Z) : E kstate Z :=
  blockdev_bread_loop (Z.to_nat blk_cnt) buf blk_id;;
  mret EOK.

Fixpoint blockdev_bwrite_loop (n : nat) (bp blk : Z) : E kstate unit :=
  match n with
  | O => mret tt
  | S n =>
    i ← bget ROOTDEV (u32 blk);
    m ← gets (fun s => mmem (km s));
    upd_buf i (fun b => set_bdata (mem_to_data m bp (bdata b)) b);;
    bwrite i;;
    brelse i;;
    blockdev_bwrite_loop n (bp + BSIZE) (blk + 1)
  end.
Definition blockdev_bwrite (buf blk_id blk_cnt : Z) : E kstate Z :=
  blockdev_bwrite_loop (Z.to_nat blk_cnt) buf blk_id;;
  mret EOK.
End Buffers.
