(* ===== verification/VirtioDisk.v ===== *)
(** * kernel/fs/virtio_disk.c: the driver of the disk

    The driver the build compiles (the part after the #else).  The rings and
    descriptors it shares with the device are fields of [vd s].  A transfer
    takes one descriptor for the header, one for each buffer and one for the
    status byte.  A read sleeps until the interrupt handler has seen it done; a
    write returns as soon as it is queued, and its descriptors are given back
    by the interrupt handler. *)
From S2P Require Import Prelude Mem CString KTypes Kalloc Vm ListHead KState Queue Sched Signal Thread ThreadInv SchedSpec ProcBase Sync Bio.
Abbreviation u16 x := (wrap 16 x) (only parsing).

Definition NUM : Z := 8.
Definition VRING_DESC_F_NEXT : Z := 1.
Definition VRING_DESC_F_WRITE : Z := 2.
Definition VIRTIO_BLK_T_IN : Z := 0.
Definition VIRTIO_BLK_T_OUT : Z := 1.
Definition VIRTIO_MMIO_DEVICE_FEATURES : Z := 0x010.
Definition VIRTIO_MMIO_DRIVER_FEATURES : Z := 0x020.
Definition VIRTIO_MMIO_GUEST_PAGE_SIZE : Z := 0x028.
Definition VIRTIO_MMIO_QUEUE_SEL : Z := 0x030.
Definition VIRTIO_MMIO_QUEUE_NUM_MAX : Z := 0x034.
Definition VIRTIO_MMIO_QUEUE_NUM : Z := 0x038.
Definition VIRTIO_MMIO_QUEUE_PFN : Z := 0x040.
Definition VIRTIO_MMIO_QUEUE_NOTIFY : Z := 0x050.
Definition VIRTIO_MMIO_INTERRUPT_STATUS : Z := 0x060.
Definition VIRTIO_MMIO_INTERRUPT_ACK : Z := 0x064.
Definition VIRTIO_MMIO_STATUS : Z := 0x070.
Definition VIRTIO_CONFIG_S_ACKNOWLEDGE : Z := 1.
Definition VIRTIO_CONFIG_S_DRIVER : Z := 2.
Definition VIRTIO_CONFIG_S_DRIVER_OK : Z := 4.
Definition VIRTIO_CONFIG_S_FEATURES_OK : Z := 8.
Definition VIRTIO_BLK_F_RO : Z := 5.
Definition VIRTIO_BLK_F_SCSI : Z := 7.
Definition VIRTIO_BLK_F_CONFIG_WCE : Z := 11.
Definition VIRTIO_BLK_F_MQ : Z := 12.
Definition VIRTIO_F_ANY_LAYOUT : Z := 27.
Definition VIRTIO_RING_F_INDIRECT_DESC : Z := 28.
Definition VIRTIO_RING_F_EVENT_IDX : Z := 29.

(** ** The fields of struct disk *)

Definition upd_vd (f : vdisk -> vdisk) : E kstate unit := modify (fun s => set_vd (f (vd s)) s).
Definition upd_desc (i : nat) (f : virtq_desc -> virtq_desc) : E kstate unit :=
  upd_vd (fun d => set_vdesc (<[i := f (vdesc d i)]> (vdesc d)) d).
Definition upd_info (i : nat) (f : vinfo -> vinfo) : E kstate unit :=
  upd_vd (fun d => set_vinfos (<[i := f (vinfos d i)]> (vinfos d)) d).
Definition set_free (i : nat) (v : Z) : E kstate unit := upd_vd (fun d => set_vfree (<[i := v]> (vfree d)) d).
(** A write of a device register. *)
Definition wr_reg (r v : Z) : E kstate unit := upd_vd (fun d => set_vregs (vregs d ++ [(r, u32 v)]) d).

(** idx[i] *)
Definition at_idx (idx : list Z) (i : nat) : Z := nth i idx 0.

Section Disk.
(** What the device registers read; the switch to the scheduler; the address
    of disk.pages. *)
Context (R : Z -> Z) (swtch : nat -> E kstate unit) (pages : Z).

Definition clear_bit (x k : Z) : Z := Z.land x (Z.lnot (Z.shiftl 1 k)).

Definition virtio_disk_init : E kstate unit :=
  initlock L_vdisk;;
  let status := Z.lor 0 VIRTIO_CONFIG_S_ACKNOWLEDGE in
  wr_reg VIRTIO_MMIO_STATUS status;;
  let status := Z.lor status VIRTIO_CONFIG_S_DRIVER in
  wr_reg VIRTIO_MMIO_STATUS status;;
  let features := foldl clear_bit (R VIRTIO_MMIO_DEVICE_FEATURES)
    [VIRTIO_BLK_F_RO; VIRTIO_BLK_F_SCSI; VIRTIO_BLK_F_CONFIG_WCE; VIRTIO_BLK_F_MQ;
     VIRTIO_F_ANY_LAYOUT; VIRTIO_RING_F_EVENT_IDX; VIRTIO_RING_F_INDIRECT_DESC] in
  wr_reg VIRTIO_MMIO_DRIVER_FEATURES features;;
  let status := Z.lor status VIRTIO_CONFIG_S_FEATURES_OK in
  wr_reg VIRTIO_MMIO_STATUS status;;
  let status := Z.lor status VIRTIO_CONFIG_S_DRIVER_OK in
  wr_reg VIRTIO_MMIO_STATUS status;;
  wr_reg VIRTIO_MMIO_GUEST_PAGE_SIZE PGSIZE;;
  wr_reg VIRTIO_MMIO_QUEUE_SEL 0;;
  let max := R VIRTIO_MMIO_QUEUE_NUM_MAX in
  panic_if (max =? 0) "virtio disk has no queue 0";;
  panic_if (max <? NUM) "virtio disk max queue too short";;
  wr_reg VIRTIO_MMIO_QUEUE_NUM NUM;;
  upd_vd (fun d => set_vdesc (fun _ => desc_zero) (set_av_ring (fun _ => 0) (set_av_idx 0
    (set_us_ring (fun _ => 0) (set_us_idx 0 d)))));;
  wr_reg VIRTIO_MMIO_QUEUE_PFN (Z.shiftr pages 12);;
  foldr (fun i k => set_free i 1;; k) (mret tt) (seq 0 (Z.to_nat NUM)).

(** ** Descriptors *)

Fixpoint alloc_desc_loop (n i : nat) : E kstate Z :=
  match n with
  | O => mret (-1)
  | S n =>
    d ← gets vd;
    if negb (vfree d i =? 0) then set_free i 0;; mret (Z.of_nat i)
    else alloc_desc_loop n (S i)
  end.

Definition alloc_desc : E kstate Z := alloc_desc_loop (Z.to_nat NUM) 0.

Definition free_desc (i : Z) : E kstate unit :=
  panic_if (NUM <=? i) "free_desc 1";;
  d ← gets vd;
  panic_if (negb (vfree d (Z.to_nat i) =? 0)) "free_desc 2";;
  upd_desc (Z.to_nat i) (fun _ => desc_zero);;
  set_free (Z.to_nat i) 1;;
  thread_wakeup_chan ChDesc.

(** Every turn frees a descriptor or panics, so NUM + 1 turns are enough. *)
Fixpoint free_chain_loop (n : nat) (i : Z) : E kstate unit :=
  match n with
  | O => nofuel
  | S n =>
    x ← gets (fun s => vdesc (vd s) (Z.to_nat i));
    free_desc i;;
    if has_bits (d_flags x) VRING_DESC_F_NEXT then free_chain_loop n (d_next x)
    else mret tt
  end.

Definition free_chain (i : Z) : E kstate unit := free_chain_loop (Z.to_nat (NUM + 1)) i.

(** The array idx of the descriptors taken, or [None] when there are not
    enough of them. *)
Fixpoint alloc_descs_loop (n : nat) (idx : list Z) : E kstate (option (list Z)) :=
  match n with
  | O => mret (Some idx)
  | S n =>
    i ← alloc_desc;
    if i <? 0 then foldr (fun j k => free_desc j;; k) (mret tt) idx;; mret None
    else alloc_descs_loop n (idx ++ [i])
  end.

Definition alloc_descs (n : nat) : E kstate (option (list Z)) := alloc_descs_loop n [].

(** ** Requests *)

(** The wait for descriptors: [None] when a write gives up. *)
Fixpoint wait_descs (fuel : nat) (n : nat) (write : bool) : E kstate (option (list Z)) :=
  r ← alloc_descs n;
  match r with
  | Some idx => mret (Some idx)
  | None =>
    if write then mret None
    else
      match fuel with
      | O => nofuel
      | S fuel => thread_sleep swtch ChDesc L_vdisk None;; wait_descs fuel n write
      end
  end.

Fixpoint format_data (bs : list nat) (i : nat) (idx : list Z) (write : bool) : E kstate unit :=
  match bs with
  | [] => mret tt
  | b :: bs =>
    let flags := Z.lor (if write then 0 else VRING_DESC_F_WRITE) VRING_DESC_F_NEXT in
    upd_desc (Z.to_nat (at_idx idx i)) (fun _ => Virtq_desc (DData b) BSIZE flags (at_idx idx (S i)));;
    format_data bs (S i) idx write
  end.

(** The three kinds of descriptors, the record for the interrupt handler and
    the entry of the available ring. *)
Definition submit (bs : list nat) (b0 : nat) (idx : list Z) (write : bool) : E kstate unit :=
  let h := Z.to_nat (at_idx idx 0) in
  blk ← gets (fun s => blockno (bufs s b0));
  upd_vd (fun d => set_vops (<[h := Virtio_blk_req (if write then VIRTIO_BLK_T_OUT else VIRTIO_BLK_T_IN)
                                      (u32 (blk * (BSIZE / 512)))]> (vops d)) d);;
  upd_desc h (fun _ => Virtq_desc (DOp h) 16 VRING_DESC_F_NEXT (at_idx idx 1));;
  format_data bs 1 idx write;;
  upd_desc (Z.to_nat (at_idx idx (S (length bs)))) (fun _ => Virtq_desc (DStatus h) 1 VRING_DESC_F_WRITE 0);;
  upd_info h (fun _ => Vinfo (Some b0) 0xff (if write then at_idx idx 0 else -1));;
  upd_vd (fun d => set_av_ring (<[Z.to_nat (av_idx d mod NUM) := u16 (at_idx idx 0)]> (av_ring d)) d);;
  upd_vd (fun d => set_av_idx (u16 (av_idx d + 1)) d);;
  wr_reg VIRTIO_MMIO_QUEUE_NOTIFY 0.

Fixpoint wait_read (fuel : nat) (b : nat) : E kstate unit :=
  x ← get_buf b;
  if bdisk x =? 1 then
    match fuel with
    | O => nofuel
    | S fuel => thread_sleep swtch (ChBuf b) L_vdisk None;; wait_read fuel b
    end
  else mret tt.

(** res = -(status != 0); free_chain(idx[0]) *)
Definition finish_read (idx : list Z) : E kstate Z :=
  st ← gets (fun s => in_status (vinfos (vd s) (Z.to_nat (at_idx idx 0))));
  free_chain (at_idx idx 0);;
  mret (if st =? 0 then 0 else -1).

Definition virtio_disk_rw_multiple (fuel : nat) (bs : list nat) (write : bool) : E kstate Z :=
  let ndesc := (length bs + 2)%nat in
  if NUM <? Z.of_nat ndesc then mret (-1)
  else
    acquire L_vdisk;;
    r ← wait_descs fuel ndesc write;
    match r with
    | None => release L_vdisk;; mret (-1)
    | Some idx =>
      b0 ← deref (head bs);
      submit bs b0 idx write;;
      res ← (if write then mret 0
             else upd_buf b0 (set_bdisk 1);; wait_read fuel b0;; finish_read idx);
      release L_vdisk;;
      mret res
    end.

Definition virtio_disk_rw (fuel : nat) (b : nat) (write : bool) : E kstate unit :=
  virtio_disk_rw_multiple fuel [b] write;; mret tt.

(** ** Interrupts *)

(** The completed request of chain [id]. *)
Definition handle_used (id : nat) : E kstate unit :=
  x ← gets (fun s => vinfos (vd s) id);
  panic_if (negb (in_status x =? 0)) "virtio_disk_intr status";;
  if in_idx1 x <? 0 then
    b ← deref (in_b x);
    upd_buf b (set_bdisk 0);;
    thread_wakeup_chan (ChBuf b)
  else free_chain (in_idx1 x).

Fixpoint intr_loop (fuel : nat) : E kstate unit :=
  d ← gets vd;
  if vused_idx d =? us_idx d then mret tt
  else
    match fuel with
    | O => nofuel
    | S fuel =>
      let id := us_ring d (Z.to_nat (vused_idx d mod NUM)) in
      upd_vd (fun d => set_vused_idx (u16 (vused_idx d + 1)) d);;
      handle_used (Z.to_nat id);;
      intr_loop fuel
    end.

Definition virtio_disk_intr (fuel : nat) : E kstate unit :=
  acquire L_vdisk;;
  wr_reg VIRTIO_MMIO_INTERRUPT_ACK (Z.land (R VIRTIO_MMIO_INTERRUPT_STATUS) 3);;
  intr_loop fuel;;
  release L_vdisk.
End Disk.

(** * What the disk driver does to its descriptors and rings

    The routines of the driver under its lock, as operations on the descriptor
    table and the rings; and rings as lists. *)

(** ** Rings *)

(** The entries of [ring] from position [start] on are those of [l]. *)
Definition ring_is (ring : nat -> Z) (start : Z) (l : list nat) : Prop :=
  forall k h, l !! k = Some h -> ring (Z.to_nat ((start + Z.of_nat k) mod NUM)) = Z.of_nat h.

Lemma u16_mod x : u16 x mod NUM = x mod NUM.
Proof. unfold wrap, NUM. rewrite (Z.mod_mod_divide x); [done|]. by exists 8192. Qed.

Lemma ring_slot (start : Z) (j k : nat) :
  (j < 8)%nat -> (k < 8)%nat -> j <> k -> Z.to_nat ((start + Z.of_nat j) mod NUM) <> Z.to_nat ((start + Z.of_nat k) mod NUM).
Proof. unfold NUM. intros Hj Hk Hne He. apply Z2Nat.inj in He; [|by apply Z.mod_pos_bound..]. Z.to_euclidean_division_equations. lia. Qed.

Lemma ring_push ring start l h :
  (length l < 8)%nat -> ring_is ring start l ->
  ring_is (<[Z.to_nat ((start + Z.of_nat (length l)) mod NUM) := Z.of_nat h]> ring) start (l ++ [h]).
Proof.
  intros Hl Hr k x Hx. apply lookup_app_Some in Hx as [Hx|[Hk Hx]].
  - pose proof (lookup_lt_Some _ _ _ Hx). rewrite fn_lookup_insert_ne; [by apply Hr|]. apply ring_slot; lia.
  - apply list_lookup_singleton_Some in Hx as [Hk0 <-]. replace k with (length l) by lia. by rewrite fn_lookup_insert.
Qed.

Lemma ring_pop ring start h l :
  ring_is ring start (h :: l) -> ring (Z.to_nat (start mod NUM)) = Z.of_nat h /\ ring_is ring (u16 (start + 1)) l.
Proof.
  intros Hr. split; [rewrite <- (Hr 0%nat h) by done; by rewrite Z.add_0_r|].
  intros k x Hx. rewrite <- (Hr (S k) x Hx). do 2 f_equal. rewrite <- Z.add_mod_idemp_l, u16_mod, Z.add_mod_idemp_l by done. f_equal. lia.
Qed.

Lemma ring_nil ring start : ring_is ring start [].
Proof. by intros k h. Qed.

(** ** The part of the state the driver leaves alone *)

(** The driver may wake threads; otherwise [s'] is [s] with another [vd]. *)
Record calm (s s' : kstate) : Prop := {
  cm_sched : exists tq, sched_inv s' tq ∅;
  cm_km : km s' = km s;
  cm_bufs : bufs s' = bufs s;
  cm_writes : dwrites s' = dwrites s;
  cm_image : image s' = image s;
}.

(** The driver holds its lock and no other. *)
Definition locked (s : kstate) : Prop := (exists tq, sched_inv s tq ∅) /\ held (km s) = [L_vdisk].

Lemma calm_refl s : locked s -> calm s s.
Proof. by intros [Hs _]. Qed.

Lemma calm_trans s1 s2 s3 : calm s1 s2 -> calm s2 s3 -> calm s1 s3.
Proof. intros [_ H1 H2 H3 H4] [Hs G1 G2 G3 G4]. split; [done|congruence..]. Qed.

Lemma calm_locked s s' : calm s s' -> locked s -> locked s'.
Proof. intros [Hs Hk _ _ _] [_ Hh]. split; [done|by rewrite Hk]. Qed.

Lemma sched_vd s d : (exists tq, sched_inv s tq ∅) -> exists tq, sched_inv (set_vd d s) tq ∅.
Proof. intros (tq & H). exists tq. by eapply sched_inv_same. Qed.

Lemma calm_vd s d : locked s -> calm s (set_vd d s).
Proof. intros [Hs _]. split; [by apply sched_vd|done..]. Qed.

Lemma wp_wake ch (Q : unit -> kstate -> Prop) s :
  locked s -> (forall s', calm s s' -> vd s' = vd s -> Q tt s') -> wp (thread_wakeup_chan ch) Q s.
Proof.
  intros [(tq & Hi) Hh] HQ. eapply wp_mono; [apply (wp_thread_wakeup_chan ch tq s Hi)|].
  - intros st. rewrite Hh. by intros ?%list_elem_of_singleton.
  - intros t. rewrite Hh. by intros ?%list_elem_of_singleton.
  - cbn beta. intros [] s' [Hi' _ (Hk & _ & Hr & _)]. apply HQ; [split|]; [by eexists|done|..].
    all: first [by apply (f_equal bufs) in Hr | by apply (f_equal dwrites) in Hr | by apply (f_equal image) in Hr | by apply (f_equal vd) in Hr].
Qed.

(** ** Descriptors *)

(** free_desc, as an operation on the table. *)
Definition freed (i : nat) (d : vdisk) : vdisk :=
  set_vfree (<[i := 1]> (vfree d)) (set_vdesc (<[i := desc_zero]> (vdesc d)) d).

Lemma wp_free_desc (i : nat) (Q : unit -> kstate -> Prop) s :
  locked s -> (i < 8)%nat -> vfree (vd s) i = 0 ->
  (forall s', calm s s' -> vd s' = freed i (vd s) -> Q tt s') -> wp (free_desc (Z.of_nat i)) Q s.
Proof.
  intros Hl Hi Hf HQ. unfold free_desc. apply wp_bind, wp_panic_if; [unfold NUM; lia|].
  apply wp_bind, wp_gets, wp_bind. rewrite Nat2Z.id, Hf. apply wp_panic_if; [done|].
  apply wp_bind, wp_modify, wp_bind, wp_modify. set (s1 := set_vd _ _).
  assert (Hc : calm s s1) by exact (calm_vd s _ Hl).
  eapply wp_wake; [by eapply calm_locked|]. intros s' Hc' Hv. apply HQ; [by eapply calm_trans|]. by rewrite Hv.
Qed.

(** The first free descriptor. *)
Fixpoint first_desc (f : nat -> Z) (n i : nat) : option nat :=
  match n with
  | O => None
  | S n => if negb (f i =? 0) then Some i else first_desc f n (S i)
  end.

Definition taken (i : nat) (d : vdisk) : vdisk := set_vfree (<[i := 0]> (vfree d)) d.

Lemma wp_alloc_desc_loop n i (Q : Z -> kstate -> Prop) s :
  (forall j, first_desc (vfree (vd s)) n i = Some j -> Q (Z.of_nat j) (set_vd (taken j (vd s)) s)) ->
  (first_desc (vfree (vd s)) n i = None -> Q (-1) s) -> wp (alloc_desc_loop n i) Q s.
Proof.
  revert i. induction n as [|n IH]; intros i HS HN; [by apply wp_ret, HN|]. cbn [alloc_desc_loop first_desc] in *.
  apply wp_bind, wp_gets. destruct (vfree (vd s) i =? 0); simpl in *; [by apply IH|].
  apply wp_bind, wp_modify, wp_ret. by apply HS.
Qed.

Lemma first_desc_some f n i j : first_desc f n i = Some j -> (i <= j < i + n)%nat /\ f j <> 0 /\ forall k, (i <= k < j)%nat -> f k = 0.
Proof.
  revert i. induction n as [|n IH]; intros i; [done|]. cbn [first_desc]. destruct (f i =? 0) eqn:E; simpl.
  - apply Z.eqb_eq in E. intros (H1 & H2 & H3)%IH. split_and!; [lia|lia|done|]. intros k Hk. destruct (decide (k = i)) as [->|]; [done|]. apply H3. lia.
  - intros [= <-]. apply Z.eqb_neq in E. split_and!; [lia|lia|done|]. lia.
Qed.

Lemma first_desc_none f n i : first_desc f n i = None -> forall k, (i <= k < i + n)%nat -> f k = 0.
Proof.
  revert i. induction n as [|n IH]; intros i; [lia|]. cbn [first_desc]. destruct (f i =? 0) eqn:E; simpl; [|done].
  apply Z.eqb_eq in E. intros H k Hk. destruct (decide (k = i)) as [->|]; [done|]. apply (IH (S i) H). lia.
Qed.

(** The descriptors in [l], and no others, are in use. *)
Record owned (d : vdisk) (l : list nat) : Prop := {
  ow_nodup : NoDup l;
  ow_range : forall i, i ∈ l -> (i < 8)%nat;
  ow_free : forall i, (i < 8)%nat -> vfree d i = if decide (i ∈ l) then 0 else 1;
}.

Lemma owned_perm d l l' : l ≡ₚ l' -> owned d l -> owned d l'.
Proof.
  intros Hp [Hn Hr Hf]. split; [by rewrite <- Hp|intros i; rewrite <- Hp; apply Hr|].
  intros i Hi. rewrite (Hf i Hi). by apply decide_ext; rewrite Hp.
Qed.

Lemma owned_taken d l j : owned d l -> first_desc (vfree d) 8 0 = Some j -> owned (taken j d) (j :: l).
Proof.
  intros [Hn Hr Hf] (Hj & Hv & _)%first_desc_some. rewrite Hf in Hv by lia. case_decide as Hjl; [done|]. split.
  - by apply NoDup_cons.
  - intros i [->|Hi]%elem_of_cons; [lia|by apply Hr].
  - intros i Hi. simpl. destruct (decide (i = j)) as [->|Hne].
    + rewrite fn_lookup_insert, decide_True; [done|apply elem_of_cons; by left].
    + rewrite fn_lookup_insert_ne, Hf by done. apply decide_ext. set_solver.
Qed.

Lemma owned_freed d l j : owned d (j :: l) -> owned (freed j d) l.
Proof.
  intros [[Hj Hn]%NoDup_cons Hr Hf]. split; [done|intros i Hi; apply Hr; by right|].
  intros i Hi. simpl. destruct (decide (i = j)) as [->|Hne].
  - by rewrite fn_lookup_insert, decide_False.
  - rewrite fn_lookup_insert_ne, Hf by done. apply decide_ext. set_solver.
Qed.

Lemma owned_bound d l : owned d l -> (length l <= 8)%nat.
Proof.
  intros [Hn Hr _]. change 8%nat with (length (seq 0 8)). apply submseteq_length, NoDup_submseteq; [done|].
  intros i Hi%Hr. apply elem_of_seq. lia.
Qed.

Lemma owned_full d l : owned d l -> first_desc (vfree d) 8 0 = None -> (8 <= length l)%nat.
Proof.
  intros [Hn Hr Hf] Hz. change 8%nat with (length (seq 0 8)). apply submseteq_length, NoDup_submseteq; [apply NoDup_seq|].
  intros i [_ Hi]%elem_of_seq. pose proof (first_desc_none _ _ _ Hz i) as H0. rewrite Hf in H0 by lia. case_decide; [done|].
  discriminate H0. lia.
Qed.

Lemma owned_used d l i : owned d l -> i ∈ l -> (i < 8)%nat /\ vfree d i = 0.
Proof. intros [_ Hr Hf] Hi. specialize (Hr i Hi). by rewrite Hf, decide_True. Qed.

(** Of [vd] only the descriptors and their flags differ. *)
Definition same_rings (d d' : vdisk) : Prop := set_vdesc (vdesc d) (set_vfree (vfree d) d') = d.

Lemma same_rings_refl d : same_rings d d.
Proof. by destruct d. Qed.
Lemma same_rings_trans d1 d2 d3 : same_rings d1 d2 -> same_rings d2 d3 -> same_rings d1 d3.
Proof. unfold same_rings. destruct d1, d2, d3. simpl. intros [=] [=]. by subst. Qed.
Lemma same_rings_freed i d : same_rings d (freed i d).
Proof. by destruct d. Qed.
Lemma same_rings_taken i d : same_rings d (taken i d).
Proof. by destruct d. Qed.

(** Giving back the descriptors [js]. *)
Lemma wp_free_all js l s :
  locked s -> owned (vd s) (js ++ l) ->
  wp (foldr (fun j k => free_desc j;; k) (mret tt) (Z.of_nat <$> js)) (fun _ s' =>
    calm s s' /\ same_rings (vd s) (vd s') /\ owned (vd s') l /\ forall i, i ∉ js -> vdesc (vd s') i = vdesc (vd s) i) s.
Proof.
  revert s. induction js as [|j js IH]; intros s Hl Ho; cbn [fmap list_fmap foldr].
  { apply wp_ret. split_and!; [by apply calm_refl|apply same_rings_refl|done|done]. }
  destruct (owned_used _ _ j Ho) as [Hj Hf]; [by left|]. apply wp_bind, wp_free_desc; [done|done|done|].
  intros s1 Hc1 Hv1. eapply wp_mono; [apply IH|].
  - by eapply calm_locked.
  - rewrite Hv1. by apply owned_freed.
  - cbn beta. intros _ s' (Hc & Hr & Ho' & Hd). split_and!; [by eapply calm_trans| |done|].
    + eapply same_rings_trans; [|exact Hr]. rewrite Hv1. apply same_rings_freed.
    + intros i [Hij Hi]%not_elem_of_cons. rewrite (Hd i Hi), Hv1. simpl. by rewrite fn_lookup_insert_ne.
Qed.

Lemma wp_alloc_descs n js l s :
  locked s -> owned (vd s) (js ++ l) ->
  wp (alloc_descs_loop n (Z.of_nat <$> js)) (fun r s' =>
    calm s s' /\ same_rings (vd s) (vd s') /\
    match r with
    | Some idx => exists ks, idx = Z.of_nat <$> js ++ ks /\ length ks = n /\ owned (vd s') (js ++ ks ++ l) /\ vdesc (vd s') = vdesc (vd s)
    | None => owned (vd s') l /\ (forall i, i ∈ l -> vdesc (vd s') i = vdesc (vd s) i) /\ (8 < n + length (js ++ l))%nat
    end) s.
Proof.
  revert js s. induction n as [|n IH]; intros js s Hl Ho; cbn [alloc_descs_loop].
  { apply wp_ret. split_and!; [by apply calm_refl|apply same_rings_refl|]. exists []. by rewrite app_nil_r. }
  apply wp_bind, wp_alloc_desc_loop.
  - intros j Hj. destruct (Z.ltb_spec (Z.of_nat j) 0) as [|_]; [lia|].
    change [Z.of_nat j] with (Z.of_nat <$> [j]). rewrite <- fmap_app.
    eapply wp_mono; [apply IH|].
    + eapply calm_locked; [by apply calm_vd|done].
    + cbn [vd set_vd]. eapply owned_perm; [|by eapply owned_taken]. rewrite <- app_assoc. apply Permutation_middle.
    + cbn beta. intros r s' (Hc & Hr & Hm). split_and!.
      * eapply calm_trans; [by apply calm_vd|exact Hc].
      * eapply same_rings_trans; [apply (same_rings_taken j)|exact Hr].
      * destruct r as [idx|].
        -- destruct Hm as (ks & -> & Hn & Ho' & Hd). exists (j :: ks). rewrite <- (app_assoc js [j] ks). split_and!; [done|simpl; lia| |done].
           rewrite <- app_assoc in Ho'. done.
        -- destruct Hm as (Ho' & Hd & Hlen). split_and!; [done|done|]. rewrite <- app_assoc, length_app in Hlen. rewrite length_app. simpl in Hlen. lia.
  - intros Hnone. cbn [Z.ltb Z.compare].
    apply wp_bind. eapply wp_mono; [by apply wp_free_all|]. cbn beta. intros _ s' (Hc & Hr & Ho' & Hd). apply wp_ret.
    split_and!; [done|done|done| |].
    + intros i Hi. apply Hd. intros Hj. pose proof (ow_nodup _ _ Ho) as (_ & Hdis & _)%NoDup_app. by eapply Hdis.
    + pose proof (owned_full _ _ Ho Hnone). lia.
Qed.

(** ** Requests *)

(** A request in flight: its descriptors, its buffer, whether it is a write,
    and its sector. *)
Record request := Rq { q_h : nat; q_d : nat; q_t : nat; q_b : nat; q_w : bool; q_blk : Z }.
Definition chain (r : request) : list nat := [q_h r; q_d r; q_t r].
Definition chains (rs : list request) : list nat := rs ≫= chain.

Record formatted (d : vdisk) (r : request) : Prop := {
  fm_h : vdesc d (q_h r) = Virtq_desc (DOp (q_h r)) 16 VRING_DESC_F_NEXT (Z.of_nat (q_d r));
  fm_d : vdesc d (q_d r) = Virtq_desc (DData (q_b r)) BSIZE (Z.lor (if q_w r then 0 else VRING_DESC_F_WRITE) VRING_DESC_F_NEXT) (Z.of_nat (q_t r));
  fm_t : vdesc d (q_t r) = Virtq_desc (DStatus (q_h r)) 1 VRING_DESC_F_WRITE 0;
  fm_op : vops d (q_h r) = Virtio_blk_req (if q_w r then VIRTIO_BLK_T_OUT else VIRTIO_BLK_T_IN) (q_blk r);
  fm_b : in_b (vinfos d (q_h r)) = Some (q_b r);
  fm_idx1 : in_idx1 (vinfos d (q_h r)) = if q_w r then Z.of_nat (q_h r) else -1;
}.

Lemma formatted_frame d d' r :
  formatted d r -> (forall i, i ∈ chain r -> vdesc d' i = vdesc d i) -> vops d' (q_h r) = vops d (q_h r) ->
  in_b (vinfos d' (q_h r)) = in_b (vinfos d (q_h r)) -> in_idx1 (vinfos d' (q_h r)) = in_idx1 (vinfos d (q_h r)) ->
  formatted d' r.
Proof.
  intros [H1 H2 H3 H4 H5 H6] Hd Ho Hb Hx. split; rewrite ?Ho, ?Hb, ?Hx; try done; rewrite Hd; try done; unfold chain; set_solver.
Qed.

(** The descriptor table: exactly the descriptors of the requests are in use,
    each request has its own, and is formatted. *)
Record table_ok (d : vdisk) (rs : list request) : Prop := {
  tb_owned : owned d (chains rs);
  tb_fmt : forall r, r ∈ rs -> formatted d r;
}.

Lemma table_perm d rs rs' : rs ≡ₚ rs' -> table_ok d rs -> table_ok d rs'.
Proof. intros Hp [Ho Hf]. split; [eapply owned_perm; [|exact Ho]; unfold chains; by rewrite Hp|]. intros r. rewrite <- Hp. apply Hf. Qed.

Lemma chains_length rs : length (chains rs) = (3 * length rs)%nat.
Proof. unfold chains. induction rs as [|r rs IH]; [done|]. cbn [mbind list_bind]. rewrite length_app. unfold chains in IH. rewrite IH. simpl. lia. Qed.

Lemma chains_elem i r rs : r ∈ rs -> i ∈ chain r -> i ∈ chains rs.
Proof. intros Hr Hi. apply list_elem_of_bind. by exists r. Qed.

(** At most two requests are in flight. *)
Lemma table_bound d rs : table_ok d rs -> (length rs <= 2)%nat.
Proof. intros [Ho _]. apply owned_bound in Ho. rewrite chains_length in Ho. lia. Qed.

Lemma table_distinct d r rs r' i : table_ok d (r :: rs) -> r' ∈ rs -> i ∈ chain r' -> i ∉ chain r.
Proof.
  intros [[Hn _ _] _] Hr Hi Hi'. apply (NoDup_app (chain r)) in Hn as (_ & Hd & _). eapply Hd; [done|]. by eapply chains_elem.
Qed.

(** Giving back the chain of a request. *)
Lemma wp_free_chain r rs s :
  locked s -> table_ok (vd s) (r :: rs) ->
  wp (free_chain (Z.of_nat (q_h r))) (fun _ s' => calm s s' /\ same_rings (vd s) (vd s') /\ table_ok (vd s') rs) s.
Proof.
  intros Hl Ht. pose proof Ht as [Ho Hf]. destruct (Hf r) as [Fh Fd Ft _ _ _]; [by left|].
  pose proof Ho as Ho0. change (chains (r :: rs)) with (q_h r :: q_d r :: q_t r :: chains rs) in Ho.
  pose proof (ow_nodup _ _ Ho) as Hn. rewrite !NoDup_cons in Hn. destruct Hn as (Nh & Nd & Nt & _).
  unfold free_chain. change (Z.to_nat (NUM + 1)) with 9%nat. cbn [free_chain_loop].
  destruct (owned_used _ _ (q_h r) Ho) as [Hi1 Hu1]; [set_solver|].
  apply wp_bind, wp_gets, wp_bind, wp_free_desc; [done|done|done|]. rewrite Nat2Z.id, Fh. intros s1 Hc1 Hv1. cbn [has_bits d_flags d_next].
  change (has_bits VRING_DESC_F_NEXT VRING_DESC_F_NEXT) with true. cbn match.
  pose proof (owned_freed _ _ _ Ho) as Ho1. rewrite <- Hv1 in Ho1. destruct (owned_used _ _ (q_d r) Ho1) as [Hi2 Hu2]; [set_solver|].
  apply wp_bind, wp_gets, wp_bind, wp_free_desc; [by eapply calm_locked|done|done|]. rewrite Nat2Z.id.
  replace (vdesc (vd s1) (q_d r)) with (vdesc (vd s) (q_d r)) by (rewrite Hv1; simpl; rewrite fn_lookup_insert_ne; set_solver).
  rewrite Fd. intros s2 Hc2 Hv2. cbn [d_flags d_next]. replace (has_bits _ VRING_DESC_F_NEXT) with true by (by destruct (q_w r)).
  pose proof (owned_freed _ _ _ Ho1) as Ho2. rewrite <- Hv2 in Ho2. destruct (owned_used _ _ (q_t r) Ho2) as [Hi3 Hu3]; [set_solver|].
  assert (Hl2 : locked s2) by (eapply calm_locked; [exact Hc2|by eapply calm_locked]).
  apply wp_bind, wp_gets, wp_bind, wp_free_desc; [done|done|done|]. rewrite Nat2Z.id.
  replace (vdesc (vd s2) (q_t r)) with (vdesc (vd s) (q_t r)) by (rewrite Hv2, Hv1; simpl; rewrite !fn_lookup_insert_ne; set_solver).
  rewrite Ft. intros s3 Hc3 Hv3. cbn [d_flags]. apply wp_ret. split_and!.
  - eapply calm_trans; [exact Hc1|]. by eapply calm_trans.
  - rewrite Hv3, Hv2, Hv1. by destruct (vd s).
  - pose proof (owned_freed _ _ _ Ho2) as Ho3. rewrite <- Hv3 in Ho3. split; [done|]. intros r' Hr'.
    eapply formatted_frame; [apply Hf; by right|..]; rewrite Hv3, Hv2, Hv1; [|by destruct (vd s)..].
    intros i Hi. pose proof (table_distinct _ _ _ _ _ Ht Hr' Hi) as Hni. unfold chain in Hni. simpl. rewrite !fn_lookup_insert_ne; set_solver.
Qed.

(** Queueing a request with the descriptors [h], [d] and [t]. *)
Lemma wp_submit b w h d t rs s :
  locked s -> owned (vd s) (h :: d :: t :: chains rs) -> (forall r, r ∈ rs -> formatted (vd s) r) ->
  wp (submit [b] b (Z.of_nat <$> [h; d; t]) w) (fun _ s' =>
    calm s s' /\ table_ok (vd s') (Rq h d t b w (u32 (blockno (bufs s b) * (BSIZE / 512))) :: rs) /\
    av_idx (vd s') = u16 (av_idx (vd s) + 1) /\
    av_ring (vd s') = <[Z.to_nat (av_idx (vd s) mod NUM) := Z.of_nat h]> (av_ring (vd s)) /\
    us_ring (vd s') = us_ring (vd s) /\ us_idx (vd s') = us_idx (vd s) /\ vused_idx (vd s') = vused_idx (vd s) /\
    forall i, i <> h -> vinfos (vd s') i = vinfos (vd s) i) s.
Proof.
  intros Hl Ho Hf. pose proof (ow_nodup _ _ Ho) as Hn. rewrite !NoDup_cons in Hn. destruct Hn as (Nh & Nd & Nt & _).
  assert (d <> h /\ t <> h /\ t <> d) as (Hdh & Hth & Htd) by set_solver.
  assert (Hu : forall i, i ∈ [h; d; t] -> u16 (Z.of_nat i) = Z.of_nat i).
  { intros i Hi. apply wrap_small. assert (i < 8)%nat by (apply (ow_range _ _ Ho); set_solver). lia. }
  unfold submit, format_data, upd_desc, upd_info, upd_vd, wr_reg, at_idx. cbn [fmap list_fmap nth length].
  rewrite !Nat2Z.id. apply wp_bind, wp_gets. do 2 (apply wp_bind, wp_modify). apply wp_bind, wp_bind, wp_modify, wp_ret. do 4 (apply wp_bind, wp_modify). apply wp_modify.
  split; [exact (calm_vd s _ Hl)|]. assert (Hh : u16 (Z.of_nat h) = Z.of_nat h) by (apply Hu; by left). rewrite Hh. clear Hu Hh.
  cbn [vd set_vd set_vregs set_av_idx set_av_ring set_vinfos set_vdesc set_vops av_idx av_ring us_ring us_idx vused_idx vinfos vdesc vops vfree].
  split_and!; try done; [|intros i Hi; by rewrite fn_lookup_insert_ne].
  split.
  - destruct Ho as [H1 H2 H3]. by split.
  - intros r [->|Hr]%elem_of_cons.
    + split; cbn [q_h q_d q_t q_b q_w q_blk vdesc vops vinfos set_vregs set_av_idx set_av_ring set_vinfos set_vdesc set_vops];
        rewrite ?fn_lookup_insert; try done; repeat first [rewrite fn_lookup_insert | rewrite fn_lookup_insert_ne by done]; done.
    + assert (Hni : forall i, i ∈ chain r -> i <> h /\ i <> d /\ i <> t).
      { intros i Hi. pose proof (chains_elem i r rs Hr Hi). split_and!; intros ->; [apply Nh; by do 2 right|apply Nd; by right|by apply Nt]. }
      destruct (Hni (q_h r)) as (? & _); [by left|].
      eapply formatted_frame; [by apply Hf|..]; cbn [vdesc vops vinfos set_vregs set_av_idx set_av_ring set_vinfos set_vdesc set_vops].
      * intros i Hi. destruct (Hni i Hi) as (? & ? & ?). by rewrite !fn_lookup_insert_ne.
      * by rewrite fn_lookup_insert_ne.
      * by rewrite fn_lookup_insert_ne.
      * by rewrite fn_lookup_insert_ne.
Qed.
