(* ===== verification/VirtioSys.v ===== *)
(** * The disk driver and its device, running together

    The device is described by what the virtio specification says of it: it
    takes the heads of chains from the available ring, carries out each
    request by following the descriptors in memory, in any order, writes the
    status byte, and enters the head in the used ring.  The calls of the
    driver run under its lock; their critical sections interleave with the
    device, with interrupts and with the rest of the kernel. *)
From S2P Require Import Prelude Mem CString KTypes Kalloc Vm ListHead KState Queue Sched Signal Thread ThreadInv SchedSpec ProcBase Sync Bio VirtioDisk.

(** ** The device *)

(** How far it has read the available ring, and the chains it is working on. *)
Record dev := Dev { dv_seen : Z; dv_work : list nat }.

Definition dev_fetch (v : dev) (d : vdisk) : option dev :=
  if dv_seen v =? av_idx d then None
  else Some (Dev (u16 (dv_seen v + 1)) (dv_work v ++ [Z.to_nat (av_ring d (Z.to_nat (dv_seen v mod NUM)))])).

Definition nxt (d : vdisk) (i : nat) : nat := Z.to_nat (d_next (vdesc d i)).

(** The status byte [j] and the used ring, when the chain [h] is done. *)
Definition complete (h j : nat) (d : vdisk) : vdisk :=
  set_us_idx (u16 (us_idx d + 1)) (set_us_ring (<[Z.to_nat (us_idx d mod NUM) := Z.of_nat h]> (us_ring d))
    (set_vinfos (<[j := set_in_status 0 (vinfos d j)]> (vinfos d)) d)).

(** The request of the chain [h]; [None] when it is not a request. *)
Definition dev_serve (h : nat) (s : kstate) : option kstate :=
  let d := vd s in
  let x := vdesc d h in let y := vdesc d (nxt d h) in let z := vdesc d (nxt d (nxt d h)) in
  if has_bits (d_flags x) VRING_DESC_F_NEXT && has_bits (d_flags y) VRING_DESC_F_NEXT &&
     negb (has_bits (d_flags z) VRING_DESC_F_NEXT) && has_bits (d_flags z) VRING_DESC_F_WRITE then
    match d_addr x, d_addr y, d_addr z with
    | DOp k, DData b, DStatus j =>
      let blk := rq_sector (vops d k) / (BSIZE / 512) in
      let s1 := set_vd (complete h j d) s in
      if (rq_type (vops d k) =? VIRTIO_BLK_T_OUT) && negb (has_bits (d_flags y) VRING_DESC_F_WRITE) then
        Some (set_dwrites (dwrites s ++ [(blk, bdata (bufs s b))]) s1)
      else if (rq_type (vops d k) =? VIRTIO_BLK_T_IN) && has_bits (d_flags y) VRING_DESC_F_WRITE then
        Some (set_bufs (<[b := set_bdata (disk s blk) (bufs s b)]> (bufs s)) s1)
      else None
    | _, _, _ => None
    end
  else None.

(** Serving a request that the driver has formatted. *)
Lemma dev_serve_formatted r s :
  formatted (vd s) r ->
  dev_serve (q_h r) s = Some (
    let s1 := set_vd (complete (q_h r) (q_h r) (vd s)) s in
    if q_w r then set_dwrites (dwrites s ++ [(q_blk r, bdata (bufs s (q_b r)))]) s1
    else set_bufs (<[q_b r := set_bdata (disk s (q_blk r)) (bufs s (q_b r))]> (bufs s)) s1).
Proof.
  intros [Fh Fd Ft Fo _ _]. unfold dev_serve, nxt. rewrite Fh. cbn [d_next d_addr d_flags]. rewrite Nat2Z.id, Fd.
  cbn [d_next d_addr d_flags]. rewrite Nat2Z.id, Ft. cbn [d_next d_addr d_flags]. rewrite Fo. cbn [rq_sector rq_type].
  change (BSIZE / 512) with 1. rewrite Z.div_1_r. by destruct (q_w r).
Qed.

(** ** The critical sections of a read *)

(** From taking the lock to the sleep: the descriptors, or [None] when there
    are none and the caller sleeps until some are given back. *)
Definition read_begin (b : nat) : E kstate (option (list Z)) :=
  acquire L_vdisk;;
  r ← alloc_descs 3;
  match r with
  | None => release L_vdisk;; mret None
  | Some idx => submit [b] b idx false;; upd_buf b (set_bdisk 1);; release L_vdisk;; mret (Some idx)
  end.

(** From the return of the sleep to the end. *)
Definition read_end (idx : list Z) : E kstate Z :=
  acquire L_vdisk;;
  r ← finish_read idx;
  release L_vdisk;;
  mret r.

(** ** The system *)

(** A read that sleeps: its buffer, its descriptors, and the number of writes
    the disk had done when it began. *)
Record call := Call { c_b : nat; c_idx : list Z; c_from : nat }.
Record sys := Sys { sk : kstate; sv : dev; sc : list call }.

Definition add_call (b : nat) (s : kstate) (o : option (list Z)) (c : list call) : list call :=
  match o with Some idx => Call b idx (length (dwrites s)) :: c | None => c end.

(** What the rest of the kernel may do: it leaves the driver and the disk
    alone, and the buffers that a sleeping caller has locked. *)
Record elsewhere (c : list call) (s s' : kstate) : Prop := {
  el_sched : exists tq, sched_inv s' tq ∅;
  el_held : held (km s') = [];
  el_vd : vd s' = vd s;
  el_writes : dwrites s' = dwrites s;
  el_image : image s' = image s;
  el_bufs : forall x, x ∈ c -> bufs s' (c_b x) = bufs s (c_b x);
}.

(** The used ring has NUM entries, so the interrupt handler turns at most NUM
    times. *)
Section System.
Context (R : Z -> Z) (swtch : nat -> E kstate unit).

Inductive disk_step : sys -> sys -> Prop :=
| step_write b fuel s v c s' :
    b ∉ (c_b <$> c) -> virtio_disk_rw swtch fuel b true s = Done tt s' -> disk_step (Sys s v c) (Sys s' v c)
| step_read b o s v c s' :
    b ∉ (c_b <$> c) -> read_begin b s = Done o s' -> disk_step (Sys s v c) (Sys s' v (add_call b s o c))
| step_end x r s v c1 c2 s' :
    bdisk (bufs s (c_b x)) <> 1 -> read_end (c_idx x) s = Done r s' -> disk_step (Sys s v (c1 ++ x :: c2)) (Sys s' v (c1 ++ c2))
| step_intr s v c s' : virtio_disk_intr R (Z.to_nat NUM) s = Done tt s' -> disk_step (Sys s v c) (Sys s' v c)
| step_fetch s v v' c : dev_fetch v (vd s) = Some v' -> disk_step (Sys s v c) (Sys s v' c)
| step_serve h l1 l2 s n c s' :
    dev_serve h s = Some s' -> disk_step (Sys s (Dev n (l1 ++ h :: l2)) c) (Sys s' (Dev n (l1 ++ l2)) c)
| step_other s v c s' : elsewhere c s s' -> disk_step (Sys s v c) (Sys s' v c).

End System.

(** ** The invariant *)

(** The call of a read. *)
Definition is_call (r : request) (x : call) : Prop := c_b x = q_b r /\ c_idx x = Z.of_nat <$> chain r.
Definition sector (b : buf) : Z := u32 (blockno b * (BSIZE / 512)).

(** The rings: the requests [Q] are queued, the device works on [F], and has
    done [D]; the driver has seen that [W] are done. *)
Record rings_ok (d : vdisk) (v : dev) (Q F D W : list request) : Prop := {
  rg_seen : 0 <= dv_seen v < 2 ^ 16;
  rg_avail : av_idx d = u16 (dv_seen v + Z.of_nat (length Q));
  rg_queued : ring_is (av_ring d) (dv_seen v) (q_h <$> Q);
  rg_work : dv_work v = q_h <$> F;
  rg_range : 0 <= vused_idx d < 2 ^ 16;
  rg_used : us_idx d = u16 (vused_idx d + Z.of_nat (length D));
  rg_done : ring_is (us_ring d) (vused_idx d) (q_h <$> D);
  rg_status : forall r, r ∈ D ++ W -> in_status (vinfos d (q_h r)) = 0;
}.

(** The reads among the requests belong to the sleeping calls, one each, and
    those that are done have read what the disk held at some moment since the
    call began. *)
Record calls_ok (s : kstate) (c : list call) (P D W : list request) : Prop := {
  co_call : forall y, y ∈ c -> exists r, r ∈ P ++ D ++ W /\ q_w r = false /\ is_call r y;
  co_req : forall r, r ∈ P ++ D ++ W -> q_w r = false -> exists y, y ∈ c /\ is_call r y;
  co_distinct : NoDup (c_b <$> c);
  co_waiting : forall r, r ∈ W -> q_w r = false /\ bdisk (bufs s (q_b r)) = 0;
  co_busy : forall r, r ∈ P ++ D -> q_w r = false -> bdisk (bufs s (q_b r)) = 1;
  co_block : forall r, r ∈ P ++ D ++ W -> q_w r = false -> q_blk r = sector (bufs s (q_b r));
  co_data : forall r y, r ∈ D ++ W -> q_w r = false -> y ∈ c -> is_call r y -> exists j,
    (c_from y <= j <= length (dwrites s))%nat /\
    bdata (bufs s (q_b r)) = apply_writes (take j (dwrites s)) (image s) (q_blk r);
  co_from : forall y, y ∈ c -> (c_from y <= length (dwrites s))%nat;
}.

Record disk_inv (x : sys) (Q F D W : list request) : Prop := {
  di_sched : exists tq, sched_inv (sk x) tq ∅;
  di_held : held (km (sk x)) = [];
  di_table : table_ok (vd (sk x)) ((Q ++ F) ++ D ++ W);
  di_rings : rings_ok (vd (sk x)) (sv x) Q F D W;
  di_calls : calls_ok (sk x) (sc x) (Q ++ F) D W;
}.

(** *** Frames *)

Lemma rings_same d d' v Q F D W : same_rings d d' -> rings_ok d v Q F D W -> rings_ok d' v Q F D W.
Proof. unfold same_rings. destruct d, d'. simpl. intros [=] [G1 G2 G3 G4 G5 G6 G7 G8]. subst. by split. Qed.

Lemma calls_same s s' c P D W :
  (forall y, y ∈ c -> bufs s' (c_b y) = bufs s (c_b y)) -> dwrites s' = dwrites s -> image s' = image s ->
  calls_ok s c P D W -> calls_ok s' c P D W.
Proof.
  intros Hb Hw Hi [H1 H2 H3 H4 H5 H6 H7 H8].
  assert (Hr : forall r, r ∈ P ++ D ++ W -> q_w r = false -> bufs s' (q_b r) = bufs s (q_b r)).
  { intros r Hr Hf. destruct (H2 r Hr Hf) as (y & Hy & <- & _). by apply Hb. }
  split; try done.
  - intros r Hr'. destruct (H4 r Hr') as [Hf Hd]. rewrite Hr; [done|set_solver|done].
  - intros r Hr' Hf. rewrite Hr; [by apply H5| |done]. set_solver.
  - intros r Hr' Hf. rewrite Hr by done. by apply H6.
  - intros r y Hr' Hf Hy Hc. rewrite Hw, Hi, Hr; [by apply H7| |done]. set_solver.
  - intros y Hy. rewrite Hw. by apply H8.
Qed.

(** Two reads in flight have different buffers. *)
Lemma calls_distinct s c d r rs P D W :
  calls_ok s c P D W -> P ++ D ++ W ≡ₚ r :: rs -> table_ok d (r :: rs) ->
  forall r', r' ∈ rs -> q_w r = false -> q_w r' = false -> q_b r' <> q_b r.
Proof.
  intros Hc Hp Ht r' Hr' Hf Hf' Hb.
  destruct (co_req _ _ _ _ _ Hc r) as (y & Hy & Hyb & Hyi); [rewrite Hp; by left|done|].
  destruct (co_req _ _ _ _ _ Hc r') as (y' & Hy' & Hyb' & Hyi'); [rewrite Hp; by right|done|].
  pose proof (co_distinct _ _ _ _ _ Hc) as Hn.
  apply list_elem_of_lookup in Hy as [k Hk], Hy' as [k' Hk'].
  assert (k = k') as <-.
  { eapply (NoDup_lookup (c_b <$> c)); [done|by rewrite list_lookup_fmap, Hk|rewrite list_lookup_fmap, Hk'; simpl; congruence]. }
  assert (y' = y) as -> by congruence. rewrite Hyi in Hyi'. unfold chain in Hyi'. simpl in Hyi'. injection Hyi' as H1 H2 H3.
  apply (table_distinct d r rs r' (q_h r') Ht Hr'); [by left|]. apply elem_of_cons. left. lia.
Qed.

(** ** Queueing a request *)

Lemma wp_alloc3 v Q F D W s :
  locked s -> table_ok (vd s) ((Q ++ F) ++ D ++ W) -> rings_ok (vd s) v Q F D W ->
  wp (alloc_descs 3) (fun o s' => calm s s' /\ rings_ok (vd s') v Q F D W /\
    match o with
    | Some idx => exists h d t, idx = Z.of_nat <$> [h; d; t] /\ owned (vd s') (h :: d :: t :: chains ((Q ++ F) ++ D ++ W)) /\
        forall r, r ∈ (Q ++ F) ++ D ++ W -> formatted (vd s') r
    | None => table_ok (vd s') ((Q ++ F) ++ D ++ W) /\ length ((Q ++ F) ++ D ++ W) = 2%nat
    end) s.
Proof.
  intros Hl Ht Hr. set (rs := (Q ++ F) ++ D ++ W) in *. pose proof Ht as [Ho Hf].
  unfold alloc_descs. eapply wp_mono; [exact (wp_alloc_descs 3 [] (chains rs) s Hl Ho)|].
  cbn beta. intros o s' (Hc & Hs & Hm). split_and!; [done|by eapply rings_same|].
  assert (Hfr : (forall i, i ∈ chains rs -> vdesc (vd s') i = vdesc (vd s) i) -> forall r, r ∈ rs -> formatted (vd s') r).
  { intros Hd r Hin. eapply formatted_frame; [by apply Hf|intros i Hi; apply Hd; by eapply chains_elem|..];
      unfold same_rings in Hs; rewrite <- Hs; done. }
  destruct o as [idx|].
  - destruct Hm as ([|h [|d [|t [|]]]] & -> & Hlen & Ho' & Hd); try done. exists h, d, t. split_and!; [done|done|]. apply Hfr. by rewrite Hd.
  - destruct Hm as (Ho' & Hd & Hlen). split; [by split; [|apply Hfr]|]. pose proof (table_bound _ _ Ht). rewrite app_nil_l, chains_length in Hlen. lia.
Qed.

Lemma wp_disk_enqueue b w h d t v Q F D W s :
  let r := Rq h d t b w (sector (bufs s b)) in
  locked s -> rings_ok (vd s) v Q F D W -> owned (vd s) (h :: d :: t :: chains ((Q ++ F) ++ D ++ W)) ->
  (forall x, x ∈ (Q ++ F) ++ D ++ W -> formatted (vd s) x) ->
  wp (submit [b] b (Z.of_nat <$> [h; d; t]) w) (fun _ s' =>
    calm s s' /\ table_ok (vd s') (((Q ++ [r]) ++ F) ++ D ++ W) /\ rings_ok (vd s') v (Q ++ [r]) F D W) s.
Proof.
  intros r Hl [Hs1 Ha Hq Hwk Hrg Hu Hd Hst] Ho Hf. eapply wp_mono; [by apply (wp_submit b w h d t ((Q ++ F) ++ D ++ W))|].
  cbn beta. intros _ s' (Hc & Ht & Hai & Har & Hur & Hui & Hvi & Hin). fold (sector (bufs s b)) in Ht. fold r in Ht. split; [done|].
  assert (Hp : r :: (Q ++ F) ++ D ++ W ≡ₚ ((Q ++ [r]) ++ F) ++ D ++ W) by solve_Permutation.
  assert (HlQ : (length Q <= 2)%nat).
  { pose proof (table_bound _ _ Ht) as Hb. simpl in Hb. rewrite !length_app in Hb. lia. }
  split; [by eapply table_perm|]. split; try done.
  - rewrite Hai, Ha, length_app. simpl. unfold wrap. rewrite Z.add_mod_idemp_l by done. f_equal. lia.
  - rewrite Har, fmap_app, Ha, u16_mod. replace (length Q) with (length (q_h <$> Q)) by apply length_fmap.
    apply (ring_push _ _ _ h); [rewrite length_fmap; lia|done].
  - by rewrite Hvi.
  - by rewrite Hui, Hvi.
  - by rewrite Hur, Hvi.
  - intros x Hx. rewrite Hin; [by apply Hst|]. intros <-.
    apply (table_distinct (vd s') r ((Q ++ F) ++ D ++ W) x (q_h x) Ht); [set_solver|by left|]. apply elem_of_cons. left. simpl. done.
Qed.

Lemma disk_inv_unlock s v c Q F D W :
  locked s -> table_ok (vd s) ((Q ++ F) ++ D ++ W) -> rings_ok (vd s) v Q F D W -> calls_ok s c (Q ++ F) D W ->
  disk_inv (Sys (set_km (set_held [] (km s)) s) v c) Q F D W.
Proof.
  intros [(tq & Hs) _] Ht Hr Hc. split; try done.
  - exists tq. by apply sched_inv_km.
  - by eapply calls_same; [..|exact Hc].
Qed.

Lemma locked_in s : (exists tq, sched_inv s tq ∅) -> locked (set_km (set_held [L_vdisk] (km s)) s).
Proof. intros (tq & Hs). split; [|done]. exists tq. by apply sched_inv_km. Qed.

Lemma calm_calls s s' c P D W : calm s s' -> calls_ok s c P D W -> calls_ok s' c P D W.
Proof. intros [_ _ Hb Hw Hi]. apply calls_same; [intros y _; by rewrite Hb|done|done]. Qed.

(** A write does not wait for descriptors. *)
Lemma wp_wait_write swtch fuel n (Q : option (list Z) -> kstate -> Prop) s :
  wp (alloc_descs n) Q s -> wp (wait_descs swtch fuel n true) Q s.
Proof.
  intros H. destruct fuel; cbn [wait_descs]; (eapply wp_call; [exact H|]); cbn beta; intros [idx|] s' HQ; by apply wp_ret.
Qed.

Lemma calls_write s c P D W r P' : q_w r = true -> P' ≡ₚ r :: P -> calls_ok s c P D W -> calls_ok s c P' D W.
Proof.
  intros Hw Hp [H1 H2 H3 H4 H5 H6 H7 H8].
  assert (Hin : forall x X, x ∈ P' ++ X -> q_w x = false -> x ∈ P ++ X).
  { intros x X Hx Hf. rewrite Hp in Hx. apply elem_of_cons in Hx as [->|Hx]; [congruence|done]. }
  split; try done; [|intros x Hx Hf..].
  - intros y Hy. destruct (H1 y Hy) as (x & Hx & Hf & Hc). exists x. split; [|done]. rewrite Hp. by right.
  - apply H2; [by apply Hin|done].
  - apply H5; [by apply Hin|done].
  - apply H6; [by apply Hin|done].
Qed.

(** A write adds a request to the queue, or, when two requests are in flight,
    gives up. *)
Lemma wp_disk_write swtch fuel b s v c Q F D W :
  disk_inv (Sys s v c) Q F D W ->
  wp (virtio_disk_rw swtch fuel b true) (fun _ s' =>
    bufs s' = bufs s /\ dwrites s' = dwrites s /\ image s' = image s /\
    ((exists h d t, disk_inv (Sys s' v c) (Q ++ [Rq h d t b true (sector (bufs s b))]) F D W) \/
     (length (Q ++ F ++ D ++ W) = 2%nat /\ disk_inv (Sys s' v c) Q F D W))) s.
Proof.
  intros [Hs Hh Ht Hr Hc]. cbn [sk sv sc] in *. unfold virtio_disk_rw, virtio_disk_rw_multiple. cbn [length Nat.add].
  apply wp_bind. change (NUM <? Z.of_nat 3) with false. cbn match.
  apply wp_bind, wp_kacquire; [rewrite Hh; apply not_elem_of_nil|]. rewrite Hh. set (s1 := set_km _ s).
  assert (Hl1 : locked s1) by by apply locked_in. assert (Hc1 : calls_ok s1 c (Q ++ F) D W) by (by eapply calls_same; [..|exact Hc]).
  apply wp_bind, wp_wait_write. eapply wp_mono; [exact (wp_alloc3 v Q F D W s1 Hl1 Ht Hr)|].
  cbn beta. intros o s2 (Hc2 & Hr2 & Hm). assert (Hl2 : locked s2) by (by eapply calm_locked).
  pose proof (calm_calls s1 s2 c (Q ++ F) D W Hc2 Hc1) as Hcl. pose proof Hc2 as [_ _ Hb2 Hw2 Hi2].
  destruct o as [idx|].
  - destruct Hm as (h & d & t & -> & Ho & Hf). apply wp_bind. eapply wp_deref; [done|]. apply wp_bind.
    eapply wp_mono; [exact (wp_disk_enqueue b true h d t v Q F D W s2 Hl2 Hr2 Ho Hf)|].
    cbn beta. intros _ s3 (Hc3 & Ht3 & Hr3). apply wp_bind, wp_ret, wp_bind.
    assert (Hl3 : locked s3) by (by eapply calm_locked). pose proof (calm_calls _ _ _ _ _ _ Hc3 Hcl) as Hcl3. pose proof Hc3 as [_ _ Hb3 Hw3 Hi3].
    eapply wp_krelease; [apply Hl3|apply not_elem_of_nil|]. do 2 apply wp_ret. cbn [bufs dwrites image set_km].
    split_and!; [by rewrite Hb3, Hb2|by rewrite Hw3, Hw2|by rewrite Hi3, Hi2|]. left. exists h, d, t. rewrite Hb2 in Ht3, Hr3.
    apply disk_inv_unlock; [done..|]. eapply calls_write; [|exact (ltac:(solve_Permutation) : (Q ++ [Rq h d t b true (sector (bufs s1 b))]) ++ F ≡ₚ Rq h d t b true (sector (bufs s1 b)) :: Q ++ F)|done]. done.
  - destruct Hm as (Ht2 & Hlen). apply wp_bind. eapply wp_krelease; [apply Hl2|apply not_elem_of_nil|]. do 2 apply wp_ret.
    split_and!; [done..|]. right. split; [by rewrite <- app_assoc in Hlen|]. by apply disk_inv_unlock.
Qed.

(** Reads of other buffers do not see a change of the buffer [b]. *)
Lemma calls_other s c P D W r b : calls_ok s c P D W -> b ∉ (c_b <$> c) -> r ∈ P ++ D ++ W -> q_w r = false -> q_b r <> b.
Proof.
  intros Hc Hb Hr Hf <-. destruct (co_req _ _ _ _ _ Hc r Hr Hf) as (y & Hy & Hyb & _). apply Hb. rewrite <- Hyb. by apply list_elem_of_fmap_2.
Qed.

(** ... and so the calls do not either. *)
Lemma calls_upd s c P D W b x : calls_ok s c P D W -> b ∉ (c_b <$> c) -> calls_ok (set_bufs (<[b := x]> (bufs s)) s) c P D W.
Proof.
  intros Hc Hb. apply (calls_same s); [|done|done|exact Hc]. intros y Hy. cbn [bufs set_bufs]. rewrite fn_lookup_insert_ne; [done|].
  intros ->. apply Hb. by apply list_elem_of_fmap_2.
Qed.

Lemma calls_read s c P D W r P' :
  q_w r = false -> P' ≡ₚ r :: P -> q_b r ∉ (c_b <$> c) -> q_blk r = sector (bufs s (q_b r)) -> calls_ok s c P D W ->
  calls_ok (set_bufs (<[q_b r := set_bdisk 1 (bufs s (q_b r))]> (bufs s)) s) (Call (q_b r) (Z.of_nat <$> chain r) (length (dwrites s)) :: c) P' D W.
Proof.
  intros Hf Hp Hb Hblk Hc. pose proof (calls_upd s c P D W (q_b r) (set_bdisk 1 (bufs s (q_b r))) Hc Hb) as Hc'.
  destruct Hc' as [H1 H2 H3 H4 H5 H6 H7 H8].
  assert (Hin : forall x X, x ∈ P' ++ X -> x = r \/ x ∈ P ++ X) by (intros x X; rewrite Hp; apply elem_of_cons).
  split; try done.
  - intros y [->|Hy]%elem_of_cons; [exists r; split; [rewrite Hp; by left|done]|].
    destruct (H1 y Hy) as (x & Hx & Hy'). exists x. split; [rewrite Hp; by right|done].
  - intros x [->|Hx]%Hin Hw; [eexists; split; [by left|done]|]. destruct (H2 x Hx Hw) as (y & Hy & Hi). exists y. split; [by right|done].
  - apply NoDup_cons. done.
  - intros x [->|Hx]%Hin Hw; [cbn [bufs set_bufs]; by rewrite fn_lookup_insert|by apply H5].
  - intros x [->|Hx]%Hin Hw; [cbn [bufs set_bufs]; by rewrite fn_lookup_insert|by apply H6].
  - intros x y Hx Hw [->|Hy]%elem_of_cons Hi; [|by apply H7].
    exfalso. destruct Hi as [Hi _]. eapply (calls_other s c P D W x); [done|done|set_solver|done|]. by rewrite <- Hi.
  - intros y [->|Hy]%elem_of_cons; [done|by apply H8].
Qed.

(** The buffers differ only in whether the disk has them. *)
Definition same_bufs (s s' : kstate) : Prop := forall i, set_bdisk 0 (bufs s' i) = set_bdisk 0 (bufs s i).

Lemma same_bufs_upd s b k : same_bufs s (set_bufs (<[b := set_bdisk k (bufs s b)]> (bufs s)) s).
Proof. intros i. cbn [bufs set_bufs]. destruct (decide (i = b)) as [->|?]; [by rewrite fn_lookup_insert|by rewrite fn_lookup_insert_ne]. Qed.

(** The first critical section of a read queues its request, or gives up. *)
Lemma wp_read_begin b s v c Q F D W :
  disk_inv (Sys s v c) Q F D W -> b ∉ (c_b <$> c) ->
  wp (read_begin b) (fun o s' =>
    dwrites s' = dwrites s /\ image s' = image s /\ same_bufs s s' /\
    match o with
    | Some idx => exists h d t, idx = Z.of_nat <$> [h; d; t] /\
        disk_inv (Sys s' v (add_call b s o c)) (Q ++ [Rq h d t b false (sector (bufs s b))]) F D W
    | None => length (Q ++ F ++ D ++ W) = 2%nat /\ disk_inv (Sys s' v c) Q F D W
    end) s.
Proof.
  intros [Hs Hh Ht Hr Hc] Hb. cbn [sk sv sc] in *. unfold read_begin.
  apply wp_bind, wp_kacquire; [rewrite Hh; apply not_elem_of_nil|]. rewrite Hh. set (s1 := set_km _ s).
  assert (Hl1 : locked s1) by by apply locked_in. assert (Hc1 : calls_ok s1 c (Q ++ F) D W) by (by eapply calls_same; [..|exact Hc]).
  apply wp_bind. eapply wp_mono; [exact (wp_alloc3 v Q F D W s1 Hl1 Ht Hr)|].
  cbn beta. intros o s2 (Hc2 & Hr2 & Hm). assert (Hl2 : locked s2) by (by eapply calm_locked).
  pose proof (calm_calls s1 s2 c (Q ++ F) D W Hc2 Hc1) as Hcl. pose proof Hc2 as [_ _ Hb2 Hw2 Hi2].
  destruct o as [idx|].
  - destruct Hm as (h & d & t & -> & Ho & Hf). apply wp_bind.
    eapply wp_mono; [exact (wp_disk_enqueue b false h d t v Q F D W s2 Hl2 Hr2 Ho Hf)|].
    cbn beta. intros _ s3 (Hc3 & Ht3 & Hr3). set (r := Rq h d t b false (sector (bufs s2 b))) in *.
    assert (Hl3 : locked s3) by (by eapply calm_locked). pose proof (calm_calls _ _ _ _ _ _ Hc3 Hcl) as Hcl3. pose proof Hc3 as [_ _ Hb3 Hw3 Hi3].
    apply wp_bind, wp_modify, wp_bind. eapply wp_krelease; [apply Hl3|apply not_elem_of_nil|]. apply wp_ret. cbn [dwrites image set_km set_bufs].
    split_and!; [by rewrite Hw3, Hw2|by rewrite Hi3, Hi2| |].
    { intros i. transitivity (set_bdisk 0 (bufs s3 i)); [apply (same_bufs_upd s3 b 1 i)|by rewrite Hb3, Hb2]. }
    exists h, d, t. split; [done|].
    replace (sector (bufs s b)) with (sector (bufs s2 b)) by (by rewrite Hb2). fold r.
    replace (add_call b s _ c) with (Call (q_b r) (Z.of_nat <$> chain r) (length (dwrites s3)) :: c) by (by rewrite Hw3, Hw2).
    assert (Hl4 : locked (set_bufs (<[b := set_bdisk 1 (bufs s3 b)]> (bufs s3)) s3)).
    { destruct Hl3 as [(tq & Hsi) Hh3]. split; [|done]. exists tq. by eapply sched_inv_same. }
    apply (disk_inv_unlock _ _ _ _ _ _ _ Hl4); [done..|]. apply (calls_read s3 c (Q ++ F) D W r); try done; [solve_Permutation|by rewrite Hb3].
  - destruct Hm as (Ht2 & Hlen). apply wp_bind. eapply wp_krelease; [apply Hl2|apply not_elem_of_nil|]. apply wp_ret.
    split_and!; [done|done|intros i; cbn [bufs set_km]; by rewrite Hb2|by rewrite <- app_assoc in Hlen|]. by apply disk_inv_unlock.
Qed.

(** ** The device *)

Lemma dev_fetch_ok s v v' c Q F D W :
  disk_inv (Sys s v c) Q F D W -> dev_fetch v (vd s) = Some v' ->
  exists r Q', Q = r :: Q' /\ disk_inv (Sys s v' c) Q' (F ++ [r]) D W.
Proof.
  intros [Hs Hh Ht [H1 H2 H3 H4 H5 H6 H7 H8] Hc]. cbn [sk sv sc] in *. unfold dev_fetch. destruct (dv_seen v =? av_idx (vd s)) eqn:He; [done|]. intros [= <-].
  apply Z.eqb_neq in He. destruct Q as [|r Q].
  { exfalso. apply He. rewrite H2. simpl. rewrite Z.add_0_r. symmetry. by apply wrap_small. }
  destruct (ring_pop _ _ _ _ H3) as [Hr0 Hr1]. exists r, Q. split; [done|].
  assert (Hp : (r :: Q) ++ F ≡ₚ Q ++ F ++ [r]) by solve_Permutation.
  split; cbn [sk sv sc]; try done.
  - eapply table_perm; [|exact Ht]. by rewrite Hp.
  - split; cbn [dv_seen dv_work]; try done.
    + by apply wrap_range.
    + rewrite H2. unfold wrap. rewrite Z.add_mod_idemp_l by done. f_equal. simpl. lia.
    + rewrite H4, Hr0, Nat2Z.id, fmap_app. done.
  - destruct Hc as [C1 C2 C3 C4 C5 C6 C7 C8].
    split; try done; setoid_rewrite <- Hp; done.
Qed.

Lemma calls_done_write s s' c P P' D W r w :
  q_w r = true -> P ≡ₚ r :: P' -> bufs s' = bufs s -> dwrites s' = dwrites s ++ [w] -> image s' = image s ->
  calls_ok s c P D W -> calls_ok s' c P' (D ++ [r]) W.
Proof.
  intros Hw Hp Hb Hd Hi [H1 H2 H3 H4 H5 H6 H7 H8].
  assert (Hall : P' ++ (D ++ [r]) ++ W ≡ₚ P ++ D ++ W) by (rewrite Hp; solve_Permutation).
  assert (Hpd : P' ++ D ++ [r] ≡ₚ P ++ D) by (rewrite Hp; solve_Permutation).
  split; rewrite ?Hb; try done; try (setoid_rewrite Hall; done); try (setoid_rewrite Hpd; done).
  - intros x y Hx Hf Hy Hc. assert (x ∈ D ++ W) as Hx' by (rewrite !elem_of_app, list_elem_of_singleton in Hx; rewrite elem_of_app; destruct Hx as [[?| ->]|?]; [by left|congruence|by right]).
    destruct (H7 x y Hx' Hf Hy Hc) as (j & Hj & He). exists j. rewrite Hd, Hi, length_app. split; [simpl; lia|]. by rewrite take_app_le by lia.
  - intros y Hy. rewrite Hd, length_app. specialize (H8 y Hy). lia.
Qed.

Lemma calls_done_read s s' c P P' D W r :
  q_w r = false -> P ≡ₚ r :: P' -> (forall x, x ∈ P' ++ D ++ W -> q_w x = false -> q_b x <> q_b r) ->
  bufs s' = <[q_b r := set_bdata (disk s (q_blk r)) (bufs s (q_b r))]> (bufs s) -> dwrites s' = dwrites s -> image s' = image s ->
  calls_ok s c P D W -> calls_ok s' c P' (D ++ [r]) W.
Proof.
  intros Hw Hp Hne Hb Hd Hi [H1 H2 H3 H4 H5 H6 H7 H8].
  assert (Hall : P' ++ (D ++ [r]) ++ W ≡ₚ P ++ D ++ W) by (rewrite Hp; solve_Permutation).
  assert (Hpd : P' ++ D ++ [r] ≡ₚ P ++ D) by (rewrite Hp; solve_Permutation).
  assert (Hbd : forall b, bdisk (bufs s' b) = bdisk (bufs s b) /\ sector (bufs s' b) = sector (bufs s b)).
  { intros b. rewrite Hb. destruct (decide (b = q_b r)) as [->|?]; [by rewrite fn_lookup_insert|by rewrite fn_lookup_insert_ne]. }
  split; rewrite ?Hd; try done; try (setoid_rewrite Hall; done).
  - intros x Hx. destruct (Hbd (q_b x)) as [-> _]. by apply H4.
  - intros x Hx Hf. destruct (Hbd (q_b x)) as [-> _]. apply H5; [by rewrite <- Hpd|done].
  - intros x Hx Hf. destruct (Hbd (q_b x)) as [_ ->]. apply H6; [by rewrite <- Hall|done].
  - intros x y Hx Hf Hy Hc. rewrite Hi.
    assert (x = r \/ x ∈ D ++ W) as [->|Hx'] by (rewrite !elem_of_app, list_elem_of_singleton in Hx; rewrite elem_of_app; tauto).
    + exists (length (dwrites s)). split; [split; [by apply H8|lia]|]. rewrite Hb, fn_lookup_insert, firstn_all. done.
    + rewrite Hb, fn_lookup_insert_ne; [by apply H7|]. intros He. eapply Hne; [|done|done]. rewrite app_assoc, <- (app_assoc P'). apply elem_of_app. by right.
Qed.

(** The device carries out a request: it moves its block between the disk and
    its buffer, and it is done. *)
Lemma dev_serve_ok s s' n h l1 l2 c Q F D W :
  disk_inv (Sys s (Dev n (l1 ++ h :: l2)) c) Q F D W -> dev_serve h s = Some s' ->
  exists F1 r F2, F = F1 ++ r :: F2 /\ h = q_h r /\ disk_inv (Sys s' (Dev n (l1 ++ l2)) c) Q (F1 ++ F2) (D ++ [r]) W.
Proof.
  intros [Hs Hh Ht [H1 H2 H3 H4 H5 H6 H7 H8] Hc] Hsv. cbn [sk sv sc dv_seen dv_work] in *.
  symmetry in H4. apply fmap_app_inv in H4 as (F1 & F' & -> & HF & ->). symmetry in HF. apply fmap_cons_inv in HF as (r & F2 & -> & -> & ->).
  exists F1, r, F2. split_and!; [done..|].
  rewrite (dev_serve_formatted r) in Hsv by (apply (tb_fmt _ _ Ht); set_solver). injection Hsv as <-.
  assert (Hp : Q ++ F1 ++ r :: F2 ≡ₚ r :: Q ++ F1 ++ F2) by solve_Permutation.
  assert (Hpt : (Q ++ F1 ++ r :: F2) ++ D ++ W ≡ₚ r :: (Q ++ F1 ++ F2) ++ D ++ W) by (by rewrite Hp).
  assert (Hpt' : (Q ++ F1 ++ r :: F2) ++ D ++ W ≡ₚ (Q ++ F1 ++ F2) ++ (D ++ [r]) ++ W) by solve_Permutation.
  assert (HlD : (length D <= 2)%nat) by (pose proof (table_bound _ _ Ht) as Hb; rewrite !length_app in Hb; lia).
  set (s1 := set_vd (complete (q_h r) (q_h r) (vd s)) s). cbn zeta. cbn zeta in *.
  assert (Hvd : vd (if q_w r then set_dwrites (dwrites s ++ [(q_blk r, bdata (bufs s (q_b r)))]) s1
     else set_bufs (<[q_b r:=set_bdata (disk s (q_blk r)) (bufs s (q_b r))]> (bufs s)) s1) = complete (q_h r) (q_h r) (vd s)) by (by destruct (q_w r)).
  split; cbn [sk sv sc]; rewrite ?Hvd.
  - destruct Hs as (tq & Hsi). exists tq. destruct (q_w r); by eapply sched_inv_same.
  - by destruct (q_w r).
  - eapply table_perm; [exact Hpt'|]. destruct Ht as [[O1 O2 O3] Hf]. split; [by split|]. intros x Hx.
    eapply formatted_frame; [by apply Hf|done|done|..]; cbn [vinfos complete set_us_idx set_us_ring set_vinfos];
      (destruct (decide (q_h x = q_h r)) as [->|?]; [by rewrite fn_lookup_insert|by rewrite fn_lookup_insert_ne]).
  - split; cbn [dv_seen dv_work complete av_idx av_ring us_idx us_ring vused_idx vinfos set_us_idx set_us_ring set_vinfos]; try done.
    + by rewrite fmap_app.
    + rewrite H6, length_app. unfold wrap. rewrite Z.add_mod_idemp_l by done. f_equal. simpl. lia.
    + rewrite fmap_app, H6, u16_mod. replace (length D) with (length (q_h <$> D)) by apply length_fmap. apply ring_push; [rewrite length_fmap; lia|done].
    + intros x Hx. destruct (decide (q_h x = q_h r)) as [->|Hne]; [by rewrite fn_lookup_insert|]. rewrite fn_lookup_insert_ne by done.
      apply H8. rewrite !elem_of_app, list_elem_of_singleton in Hx. rewrite elem_of_app. destruct Hx as [[?| ->]|?]; [by left|done|by right].
  - destruct (q_w r) eqn:Hw.
    + by eapply (calls_done_write s); [exact Hw|exact Hp|done..|].
    + eapply (calls_done_read s); [exact Hw|exact Hp| |done..]. intros x Hx Hf. by apply (calls_distinct s c (vd s) r ((Q ++ F1 ++ F2) ++ D ++ W) _ _ _ Hc Hpt (table_perm _ _ _ Hpt Ht) x).
Qed.

(** ** The interrupt handler *)

Lemma calls_drop_write s c P D W r : q_w r = true -> calls_ok s c P (r :: D) W -> calls_ok s c P D W.
Proof.
  intros Hw [H1 H2 H3 H4 H5 H6 H7 H8].
  assert (Hin : forall x X Y, x ∈ X ++ D ++ Y -> x ∈ X ++ (r :: D) ++ Y) by (intros; set_solver).
  split; try done.
  - intros y Hy. destruct (H1 y Hy) as (x & Hx & Hf & Hc). exists x. split; [|done].
    assert (x <> r) by congruence. set_solver.
  - intros x Hx. apply H2. by apply Hin.
  - intros x Hx. apply H5. set_solver.
  - intros x Hx. apply H6. by apply Hin.
  - intros x y Hx. apply H7. by apply (Hin x []).
Qed.

(** The interrupt handler wakes the caller of a read. *)
Lemma calls_woken s c P D W r :
  q_w r = false -> (forall x, x ∈ P ++ D ++ W -> q_w x = false -> q_b x <> q_b r) -> calls_ok s c P (r :: D) W ->
  calls_ok (set_bufs (<[q_b r := set_bdisk 0 (bufs s (q_b r))]> (bufs s)) s) c P D (r :: W).
Proof.
  intros Hw Hne [H1 H2 H3 H4 H5 H6 H7 H8].
  assert (Hall : P ++ D ++ r :: W ≡ₚ P ++ (r :: D) ++ W) by solve_Permutation.
  assert (Hdw : D ++ r :: W ≡ₚ (r :: D) ++ W) by solve_Permutation.
  assert (Hbd : forall b, bdata (<[q_b r := set_bdisk 0 (bufs s (q_b r))]> (bufs s) b) = bdata (bufs s b) /\
    sector (<[q_b r := set_bdisk 0 (bufs s (q_b r))]> (bufs s) b) = sector (bufs s b)).
  { intros b. destruct (decide (b = q_b r)) as [->|?]; [by rewrite fn_lookup_insert|by rewrite fn_lookup_insert_ne]. }
  split; cbn [bufs set_bufs dwrites image]; try done; try (setoid_rewrite Hall; done).
  - intros x [->|Hx]%elem_of_cons; [by rewrite fn_lookup_insert|]. destruct (H4 x Hx) as [Hf Hd]. split; [done|].
    rewrite fn_lookup_insert_ne; [done|]. apply not_eq_sym, Hne; [set_solver|done].
  - intros x Hx Hf. rewrite fn_lookup_insert_ne; [apply H5; set_solver|]. apply not_eq_sym, Hne; [set_solver|done].
  - intros x Hx Hf. destruct (Hbd (q_b x)) as [_ ->]. apply H6; [by rewrite <- Hall|done].
  - intros x y Hx Hf Hy Hc. destruct (Hbd (q_b x)) as [-> _]. apply H7; [by rewrite <- Hdw|done..].
Qed.

(** What the handler knows of the rings, when the request [r] is the next one
    that is done. *)
Lemma rings_next d v Q F D W r :
  rings_ok d v Q F (r :: D) W -> (length D <= 1)%nat ->
  vused_idx d <> us_idx d /\ us_ring d (Z.to_nat (vused_idx d mod NUM)) = Z.of_nat (q_h r) /\
  forall d' W', same_rings (set_vused_idx (u16 (vused_idx d + 1)) d) d' -> (forall x, x ∈ D ++ W' -> x ∈ (r :: D) ++ W) -> rings_ok d' v Q F D W'.
Proof.
  intros [H1 H2 H3 H4 H5 H6 H7 H8] Hl. destruct (ring_pop _ _ _ _ H7) as [Hr0 Hr1]. split_and!; [|done|].
  - rewrite H6. unfold wrap in *. cbn [length]. intros He. change (2 ^ 16) with 65536 in *. Z.to_euclidean_division_equations. lia.
  - intros d' W' Hs Hsub. apply (rings_same _ _ _ _ _ _ _ Hs). split; cbn [av_idx av_ring us_idx us_ring vused_idx vinfos set_vused_idx]; try done.
    + by apply wrap_range.
    + rewrite H6. unfold wrap. rewrite Z.add_mod_idemp_l by done. f_equal. cbn [length]. lia.
    + intros x Hx. by apply H8, Hsub.
Qed.

Lemma wp_intr_loop D : forall fuel s v c Q F W,
  locked s -> table_ok (vd s) ((Q ++ F) ++ D ++ W) -> rings_ok (vd s) v Q F D W -> calls_ok s c (Q ++ F) D W -> (length D <= fuel)%nat ->
  wp (intr_loop fuel) (fun _ s' => locked s' /\ dwrites s' = dwrites s /\ image s' = image s /\ same_bufs s s' /\
    exists W', (forall r, r ∈ W' <-> r ∈ W \/ r ∈ D /\ q_w r = false) /\
      table_ok (vd s') ((Q ++ F) ++ [] ++ W') /\ rings_ok (vd s') v Q F [] W' /\ calls_ok s' c (Q ++ F) [] W') s.
Proof.
  induction D as [|r D IH]; intros fuel s v c Q F W Hl Ht Hr Hc Hfu.
  { assert (Hz : vused_idx (vd s) =? us_idx (vd s) = true).
    { rewrite (rg_used _ _ _ _ _ _ Hr). simpl. rewrite Z.add_0_r, wrap_small by apply Hr. lia. }
    destruct fuel; cbn [intr_loop]; apply wp_bind, wp_gets; rewrite Hz; apply wp_ret; split_and!; try done; exists W; (split_and!; [set_solver|done..]). }
  destruct fuel as [|fuel]; [simpl in Hfu; lia|]. cbn [intr_loop]. apply wp_bind, wp_gets.
  assert (HlD : (length D <= 1)%nat) by (pose proof (table_bound _ _ Ht) as Hb; rewrite !length_app in Hb; simpl in Hb; lia).
  destruct (rings_next _ _ _ _ _ _ _ Hr HlD) as (Hne & Hid & Hnext). apply Z.eqb_neq in Hne. rewrite Hne, Hid, Nat2Z.id.
  apply wp_bind, wp_modify, wp_bind. set (s1 := set_vd _ s). assert (Hl1 : locked s1) by (destruct Hl as [(tq & Hs) Hh]; split; [exists tq; by eapply sched_inv_same|done]).
  assert (Hp : (Q ++ F) ++ (r :: D) ++ W ≡ₚ r :: (Q ++ F) ++ D ++ W) by solve_Permutation.
  assert (Ht1 : table_ok (vd s1) (r :: (Q ++ F) ++ D ++ W)).
  { eapply table_perm in Ht; [|exact Hp]. destruct Ht as [[O1 O2 O3] Hf]. split; [by split|]. intros x Hx. eapply formatted_frame; [by apply Hf|done..]. }
  destruct (tb_fmt _ _ Ht1 r) as [_ _ _ _ Fb Fi]; [by left|].
  unfold handle_used. apply wp_bind, wp_gets, wp_bind, wp_panic_if.
  { change (vinfos (vd s1)) with (vinfos (vd s)). rewrite (rg_status _ _ _ _ _ _ Hr r) by (apply elem_of_app; left; by left). done. }
  destruct (q_w r) eqn:Hw; rewrite Fi.
  - destruct (Z.ltb_spec (Z.of_nat (q_h r)) 0) as [|_]; [lia|]. eapply wp_mono; [exact (wp_free_chain r _ s1 Hl1 Ht1)|].
    cbn beta. intros _ s2 (Hc2 & Hs2 & Ht2). pose proof Hc2 as [_ _ Hb2 Hw2 Hi2].
    eapply wp_mono; [apply (IH fuel s2 v c Q F W)|].
    + by eapply calm_locked.
    + done.
    + apply (Hnext _ _ Hs2). intros x. rewrite !elem_of_app, elem_of_cons. tauto.
    + eapply calm_calls; [exact Hc2|]. apply (calls_same s); [done..|]. by eapply calls_drop_write.
    + simpl in Hfu. lia.
    + cbn beta. intros _ s' (Hl' & Hw' & Hi' & Hb' & W' & HW & H'). split_and!; [done|by rewrite Hw', Hw2|by rewrite Hi', Hi2|intros i; by rewrite Hb', Hb2|]. exists W'. split; [|done].
      intros x. rewrite HW. rewrite elem_of_cons. split; [tauto|]. intros [?|[[->|?] ?]]; [tauto|congruence|tauto].
  - change (-1 <? 0) with true. cbn match. rewrite Fb. apply wp_bind. eapply wp_deref; [done|]. apply wp_bind, wp_modify.
    set (s2 := set_bufs _ s1). assert (Hl2 : locked s2) by (destruct Hl1 as [(tq & Hs) Hh]; split; [exists tq; by eapply sched_inv_same|done]).
    eapply wp_wake; [done|]. intros s3 Hc3 Hv3. pose proof Hc3 as [_ _ Hb3 Hw3 Hi3].
    eapply wp_mono; [apply (IH fuel s3 v c Q F (r :: W))|].
    + by eapply calm_locked.
    + rewrite Hv3. eapply table_perm; [|exact Ht1]. solve_Permutation.
    + apply Hnext; [rewrite Hv3; apply same_rings_refl|]. intros x. rewrite !elem_of_app, !elem_of_cons. tauto.
    + eapply calm_calls; [exact Hc3|]. apply (calls_woken s1); [done| |by apply (calls_same s)].
      intros x Hx Hf. apply (calls_distinct s c (vd s1) r ((Q ++ F) ++ D ++ W) (Q ++ F) (r :: D) W Hc Hp Ht1 x); done.
    + simpl in Hfu. lia.
    + cbn beta. intros _ s' (Hl' & Hw' & Hi' & Hb' & W' & HW & H'). split_and!; [done|by rewrite Hw', Hw3|by rewrite Hi', Hi3|intros i; rewrite Hb', Hb3; exact (same_bufs_upd s1 (q_b r) 0 i)|]. exists W'. split; [|done].
      intros x. rewrite HW, !elem_of_cons. split; [|tauto]. intros [[->|?]|?]; tauto.
Qed.

Lemma wp_disk_intr R fuel s v c Q F D W :
  disk_inv (Sys s v c) Q F D W -> (length D <= fuel)%nat ->
  wp (virtio_disk_intr R fuel) (fun _ s' => dwrites s' = dwrites s /\ image s' = image s /\ same_bufs s s' /\
    exists W', (forall r, r ∈ W' <-> r ∈ W \/ r ∈ D /\ q_w r = false) /\ disk_inv (Sys s' v c) Q F [] W') s.
Proof.
  intros [Hs Hh Ht Hr Hc] Hfu. cbn [sk sv sc] in *. unfold virtio_disk_intr.
  apply wp_bind, wp_kacquire; [rewrite Hh; apply not_elem_of_nil|]. rewrite Hh. apply wp_bind, wp_modify. set (s1 := set_vd _ _).
  assert (Hl1 : locked s1) by (destruct Hs as (tq & Hs); split; [exists tq; by eapply sched_inv_same|done]).
  apply wp_bind. eapply wp_mono; [apply (wp_intr_loop D fuel s1 v c Q F W Hl1)|].
  - destruct Ht as [[O1 O2 O3] Hf]. split; [by split|]. intros x Hx. eapply formatted_frame; [by apply Hf|done..].
  - destruct Hr. by split.
  - by apply (calls_same s).
  - done.
  - cbn beta. intros _ s' (Hl' & Hw' & Hi' & Hb' & W' & HW & Ht' & Hr' & Hc'). eapply wp_krelease; [apply Hl'|apply not_elem_of_nil|].
    split_and!; [done..|]. exists W'. split; [done|]. by apply disk_inv_unlock.
Qed.

(** ** The end of a read *)

Lemma calls_drop_read s c1 c2 x P D W1 W2 r :
  is_call r x -> (forall y, y ∈ P ++ D ++ W1 ++ W2 -> q_w y = false -> q_b y <> q_b r) ->
  calls_ok s (c1 ++ x :: c2) P D (W1 ++ r :: W2) -> calls_ok s (c1 ++ c2) P D (W1 ++ W2).
Proof.
  intros Hx Hne [H1 H2 H3 H4 H5 H6 H7 H8].
  assert (Hin : forall y, y ∈ c1 ++ c2 -> y ∈ c1 ++ x :: c2) by (intros; set_solver).
  assert (Hsub : forall y X, y ∈ X ++ W1 ++ W2 -> y ∈ X ++ W1 ++ r :: W2) by (intros; set_solver).
  rewrite fmap_app in H3. cbn [fmap list_fmap] in H3. pose proof H3 as Hnd. rewrite <- Permutation_middle in Hnd. apply NoDup_cons in Hnd as [Hn1 Hn2].
  split; try done.
  - intros y Hy. destruct (H1 y (Hin y Hy)) as (z & Hz & Hf & Hc). exists z. split; [|done].
    assert (z <> r); [|set_solver]. intros ->. apply Hn1. rewrite <- fmap_app. destruct Hc as [Hc _], Hx as [Hx _]. rewrite Hx, <- Hc. by apply list_elem_of_fmap_2.
  - intros z Hz Hf. destruct (H2 z) as (y & Hy & Hc); [set_solver|done|]. exists y. split; [|done].
    assert (y <> x); [|set_solver]. intros ->. destruct Hc as [Hc _], Hx as [Hx _]. eapply Hne; [|done|congruence]. set_solver.
  - by rewrite fmap_app.
  - intros z Hz. apply H4. set_solver.
  - intros z Hz. apply H6. set_solver.
  - intros z y Hz Hf Hy. apply H7; [set_solver|done|by apply Hin].
  - intros y Hy. by apply H8, Hin.
Qed.

(** A call that finds its buffer transferred belongs to a request that is
    done, gives its descriptors back and returns 0. *)
Lemma wp_read_end x s v c1 c2 Q F D W :
  disk_inv (Sys s v (c1 ++ x :: c2)) Q F D W -> bdisk (bufs s (c_b x)) <> 1 ->
  (exists j, (c_from x <= j <= length (dwrites s))%nat /\
    bdata (bufs s (c_b x)) = apply_writes (take j (dwrites s)) (image s) (sector (bufs s (c_b x)))) /\
  wp (read_end (c_idx x)) (fun r s' => r = 0 /\ bufs s' = bufs s /\ dwrites s' = dwrites s /\ image s' = image s /\
    exists W1 q W2, W = W1 ++ q :: W2 /\ disk_inv (Sys s' v (c1 ++ c2)) Q F D (W1 ++ W2)) s.
Proof.
  intros [Hs Hh Ht Hr Hc] Hd. cbn [sk sv sc] in *. pose proof Hc as [H1 H2 H3 H4 H5 H6 H7 H8].
  destruct (H1 x) as (r & Hin & Hf & Hx); [set_solver|]. pose proof Hx as [Hxb Hxi].
  assert (Hw : r ∈ W). { rewrite app_assoc in Hin. apply elem_of_app in Hin as [Hin|?]; [|done]. rewrite Hxb in Hd. by rewrite (H5 r Hin Hf) in Hd. }
  split. { destruct (H7 r x) as (j & Hj & He); [set_solver|done|set_solver|done|]. exists j. split; [done|]. rewrite Hxb, <- H6 by done. done. }
  apply list_elem_of_split in Hw as (W1 & W2 & ->).
  assert (Hp : (Q ++ F) ++ D ++ W1 ++ r :: W2 ≡ₚ r :: (Q ++ F) ++ D ++ W1 ++ W2) by solve_Permutation.
  unfold read_end, finish_read. apply wp_bind, wp_kacquire; [rewrite Hh; apply not_elem_of_nil|]. rewrite Hh. set (s1 := set_km _ s).
  assert (Hl1 : locked s1) by by apply locked_in.
  rewrite Hxi. cbn [chain fmap list_fmap at_idx nth]. rewrite Nat2Z.id. apply wp_bind, wp_bind, wp_gets, wp_bind.
  change (vinfos (vd s1)) with (vinfos (vd s)). rewrite (rg_status _ _ _ _ _ _ Hr r) by set_solver.
  eapply wp_mono; [apply (wp_free_chain r ((Q ++ F) ++ D ++ W1 ++ W2) s1 Hl1); by eapply table_perm|].
  cbn beta. intros _ s2 (Hc2 & Hs2 & Ht2). pose proof Hc2 as [_ _ Hb2 Hw2 Hi2]. apply wp_ret, wp_bind.
  assert (Hl2 : locked s2) by (by eapply calm_locked). eapply wp_krelease; [apply Hl2|apply not_elem_of_nil|]. apply wp_ret.
  split_and!; [done|done|done|done|]. exists W1, r, W2. split; [done|]. apply disk_inv_unlock; [done|done| |].
  - eapply rings_same; [exact Hs2|]. destruct Hr as [R1 R2 R3 R4 R5 R6 R7 R8]. split; try done. intros y Hy. apply R8. set_solver.
  - eapply calm_calls; [exact Hc2|]. apply (calls_same s); [done..|]. eapply calls_drop_read; [exact Hx| |exact Hc].
    intros y Hy Hfy. apply (calls_distinct s _ (vd s) r _ _ _ _ Hc Hp (table_perm _ _ _ Hp Ht) y); done.
Qed.

(** ** The system from its start *)

Definition idle (x : sys) : Prop := disk_inv x [] [] [] [] /\ sc x = [].

Lemma foldr_free s is_ (Q : unit -> kstate -> Prop) :
  Q tt (set_vd (set_vfree (foldl (fun f i => <[i := 1]> f) (vfree (vd s)) is_) (vd s)) s) ->
  wp (foldr (fun i k => set_free i 1;; k) (mret tt) is_) Q s.
Proof.
  revert s. induction is_ as [|i is_ IH]; intros s HQ; cbn [foldr foldl] in *.
  - apply wp_ret. by destruct s as [??????????????????????????? []].
  - apply wp_bind, wp_modify. by apply IH.
Qed.

Lemma foldl_ones (f : nat -> Z) (l : list nat) i : foldl (fun f i => <[i := 1]> f) f l i = if decide (i ∈ l) then 1 else f i.
Proof.
  revert f. induction l as [|j l IH]; intros f; cbn [foldl]; [by rewrite decide_False by apply not_elem_of_nil|]. rewrite IH.
  destruct (decide (i = j)) as [->|Hne].
  - rewrite fn_lookup_insert, (decide_True (P := j ∈ j :: l)) by by left. by case_decide.
  - rewrite fn_lookup_insert_ne by done. apply decide_ext. rewrite elem_of_cons. tauto.
Qed.

Lemma wp_disk_init R pages s :
  (exists tq, sched_inv s tq ∅) -> held (km s) = [] -> vused_idx (vd s) = 0 -> NUM <= R VIRTIO_MMIO_QUEUE_NUM_MAX ->
  wp (virtio_disk_init R pages) (fun _ s' => idle (Sys s' (Dev 0 []) []) /\ bufs s' = bufs s) s.
Proof.
  intros Hs Hh Hu Hmax. unfold virtio_disk_init, initlock, on_mach. apply wp_bind, wp_zoom, wp_modify. cbn zeta.
  unfold wr_reg, upd_vd. do 7 (apply wp_bind, wp_modify). unfold NUM in Hmax. apply wp_bind, wp_panic_if; [apply Z.eqb_neq; lia|].
  apply wp_bind, wp_panic_if; [apply Z.ltb_ge; unfold NUM; lia|]. do 3 (apply wp_bind, wp_modify).
  apply foldr_free. set (s1 := set_vd _ _). split; [|done]. split; [|done].
  assert (Hf : forall i, (i < 8)%nat -> vfree (vd s1) i = 1).
  { intros i Hi. cbn [vd s1 set_vd vfree set_vfree]. rewrite foldl_ones, decide_True; [done|]. apply elem_of_seq. unfold NUM. lia. }
  split; cbn [sk sv sc].
  - destruct Hs as (tq & Hs). exists tq. by eapply sched_inv_same.
  - cbn [km s1 set_vd set_km held set_held]. by rewrite Hh.
  - split; [split; [apply NoDup_nil_2|by intros i ?%not_elem_of_nil|]|by intros r ?%not_elem_of_nil]. intros i Hi. by rewrite Hf.
  - assert (Hv : vused_idx (vd s1) = 0) by exact Hu. split; rewrite ?Hv; try done; try apply ring_nil. by intros r ?%not_elem_of_nil.
  - assert (Hn : forall r : request, r ∉ ([] ++ [] ++ [] ++ [] : list request)) by (intros r ?%not_elem_of_nil; done).
    split; [by intros y ?%not_elem_of_nil|intros r Hr; by destruct (Hn r)|apply NoDup_nil_2|intros r Hr; by destruct (Hn r)..|
      intros r y Hr; by destruct (Hn r)|by intros y ?%not_elem_of_nil].
Qed.
