(* ===== verification/DiskSpec.v ===== *)
(** * What the disk driver promises

    In every state the driver, the device, interrupts and the rest of the
    kernel can reach together: the driver does not panic, reads return what
    the disk held while they ran, and a write is queued or, when the
    descriptors are used up, lost.  One transfer on an idle disk does what the
    block cache takes a transfer to do ([Bio.disk_rw]). *)
From S2P Require Import Prelude Mem CString KTypes Kalloc Vm ListHead KState Queue Sched Signal Thread ThreadInv SchedSpec ProcBase Sync Bio VirtioDisk VirtioSys.

Definition disk_ok (x : sys) : Prop := exists Q F D W, disk_inv x Q F D W.

Lemma done_bound x Q F D W : disk_inv x Q F D W -> (length D <= Z.to_nat NUM)%nat.
Proof. intros [_ _ Ht _ _]. pose proof (table_bound _ _ Ht) as Hb. rewrite !length_app in Hb. unfold NUM. lia. Qed.

Lemma disk_step_ok R swtch x x' : disk_ok x -> disk_step R swtch x x' -> disk_ok x'.
Proof.
  intros (Q & F & D & W & Hi) Hst. destruct Hst as [b fuel s v c s' Hb He|b o s v c s' Hb He|y r s v c1 c2 s' Hd He|s v c s' He|s v v' c He|h l1 l2 s n c s' He|s v c s' He].
  - destruct (wp_result _ _ _ _ _ (wp_disk_write swtch fuel b s v c Q F D W Hi) He) as (_ & _ & _ & [(h & d & t & H)|[_ H]]); do 4 eexists; exact H.
  - destruct (wp_result _ _ _ _ _ (wp_read_begin b s v c Q F D W Hi Hb) He) as (_ & _ & _ & Ho). destruct o as [idx|].
    + destruct Ho as (h & d & t & _ & H). do 4 eexists; exact H.
    + destruct Ho as [_ H]. do 4 eexists; exact H.
  - destruct (wp_read_end y s v c1 c2 Q F D W Hi Hd) as [_ Hwp].
    destruct (wp_result _ _ _ _ _ Hwp He) as (_ & _ & _ & _ & W1 & q & W2 & _ & H). do 4 eexists; exact H.
  - destruct (wp_result _ _ _ _ _ (wp_disk_intr R _ s v c Q F D W Hi (done_bound _ _ _ _ _ Hi)) He) as (_ & _ & _ & W' & _ & H). do 4 eexists; exact H.
  - destruct (dev_fetch_ok s v v' c Q F D W Hi He) as (r & Q' & _ & H). do 4 eexists; exact H.
  - destruct (dev_serve_ok s s' n h l1 l2 c Q F D W Hi He) as (F1 & r & F2 & _ & _ & H). do 4 eexists; exact H.
  - destruct Hi as [Hs Hh Ht Hr Hc], He as [E1 E2 E3 E4 E5 E6]. cbn [sk sv sc] in *. exists Q, F, D, W. split; cbn [sk sv sc]; rewrite ?E3; try done.
    by apply (calls_same s).
Qed.

(** The states the driver and its surroundings reach from virtio_disk_init. *)
Definition reached (R : Z -> Z) (swtch : nat -> E kstate unit) (pages : Z) (s : kstate) (x : sys) : Prop :=
  (exists tq, sched_inv s tq ∅) /\ held (km s) = [] /\ vused_idx (vd s) = 0 /\ NUM <= R VIRTIO_MMIO_QUEUE_NUM_MAX /\
  exists s0, virtio_disk_init R pages s = Done tt s0 /\ rtc (disk_step R swtch) (Sys s0 (Dev 0 []) []) x.

Lemma reached_ok R swtch pages s x : reached R swtch pages s x -> disk_ok x.
Proof.
  intros (Hs & Hh & Hu & Hm & s0 & He & Hr). pose proof (wp_result _ _ _ _ _ (wp_disk_init R pages s Hs Hh Hu Hm) He) as [[Hi _] _].
  assert (H0 : disk_ok (Sys s0 (Dev 0 []) [])) by (by exists [], [], [], []).
  clear Hi. revert H0. induction Hr as [|x y z Hst Hr IH]; [done|]. intros H0. apply IH. by eapply disk_step_ok.
Qed.

(** The number of free descriptors. *)
Definition nfree (d : vdisk) : nat := length (filter (fun i => vfree d i <> 0) (seq 0 (Z.to_nat NUM))).

Lemma nfree_owned d l : owned d l -> (nfree d + length l = 8)%nat.
Proof.
  intros [Hn Hr Hf]. assert (Hp : seq 0 8 ≡ₚ filter (fun i => vfree d i <> 0) (seq 0 8) ++ l).
  { apply NoDup_Permutation; [apply NoDup_seq|apply NoDup_app; split_and!; [apply NoDup_filter, NoDup_seq| |done]|].
    - intros i [Hi Hx]%list_elem_of_filter Hl. apply Hi. by rewrite Hf, decide_True by auto.
    - intros i. rewrite elem_of_app, list_elem_of_filter, elem_of_seq. split; [|intros [[_ ?]|Hi%Hr]; lia].
      intros Hi. rewrite Hf by lia. case_decide; [by right|left; split; [done|lia]]. }
  apply Permutation_length in Hp. rewrite length_app, length_seq in Hp. unfold nfree. change (Z.to_nat NUM) with 8%nat. lia.
Qed.

Lemma nfree_table d rs : table_ok d rs -> (nfree d + 3 * length rs = 8)%nat.
Proof. intros [Ho _]. rewrite <- chains_length. by apply nfree_owned. Qed.

(** ** One transfer on an idle disk *)

(** The device takes the next request and carries it out. *)
Definition dev_turn (v : dev) : E kstate dev := fun s =>
  match dev_fetch v (vd s) with
  | Some (Dev n (h :: w)) => match dev_serve h s with Some s' => Done (Dev n w) s' | None => Fault s end
  | _ => Fault s
  end.

Section Transfer.
Context (R : Z -> Z) (swtch : nat -> E kstate unit).

(** A call of virtio_disk_rw, the device and the interrupt it raises. *)
Definition transfer (v : dev) (b : nat) (write : bool) : E kstate dev :=
  if write then
    virtio_disk_rw swtch 0 b true;;
    v' ← dev_turn v;
    virtio_disk_intr R (Z.to_nat NUM);;
    mret v'
  else
    o ← read_begin b;
    idx ← deref o;
    v' ← dev_turn v;
    virtio_disk_intr R (Z.to_nat NUM);;
    read_end idx;;
    mret v'.
End Transfer.

(** The device with the single request [r] in its queue. *)
Lemma wp_dev_turn v s r c :
  disk_inv (Sys s v c) [r] [] [] [] ->
  wp (dev_turn v) (fun v' s' => disk_inv (Sys s' v' c) [] [] [r] [] /\
    s' = let s1 := set_vd (complete (q_h r) (q_h r) (vd s)) s in
      if q_w r then set_dwrites (dwrites s ++ [(q_blk r, bdata (bufs s (q_b r)))]) s1
      else set_bufs (<[q_b r := set_bdata (disk s (q_blk r)) (bufs s (q_b r))]> (bufs s)) s1) s.
Proof.
  intros Hi. pose proof Hi as [_ _ Ht Hr _]. cbn [sk sv sc] in *.
  assert (Hne : dv_seen v <> av_idx (vd s)).
  { rewrite (rg_avail _ _ _ _ _ _ Hr). pose proof (rg_seen _ _ _ _ _ _ Hr). unfold wrap in *. cbn [length]. intros He. change (2 ^ 16) with 65536 in *. Z.to_euclidean_division_equations. lia. }
  destruct (dev_fetch v (vd s)) as [v'|] eqn:Hf; [|by unfold dev_fetch in Hf; apply Z.eqb_neq in Hne; rewrite Hne in Hf].
  destruct (dev_fetch_ok _ _ _ _ _ _ _ _ Hi Hf) as (r' & Q' & [= <- <-] & Hi'). pose proof Hi' as [_ _ _ Hr' _]. cbn [sk sv sc] in *.
  pose proof (rg_work _ _ _ _ _ _ Hr') as Hw. destruct v' as [n w]. cbn [dv_work fmap list_fmap app] in Hw. subst w.
  assert (Hsv := dev_serve_formatted r s (tb_fmt _ _ Ht r ltac:(by left))).
  eapply (wp_run _ _ _ (Dev n [])); [unfold dev_turn; rewrite Hf; cbn match; by rewrite Hsv|].
  destruct (dev_serve_ok s _ n (q_h r) [] [] c [] [r] [] [] Hi' Hsv) as (F1 & r' & F2 & HF & _ & Hd).
  destruct F1 as [|? [|]]; [|done..]. injection HF as <- <-. split; [exact Hd|done].
Qed.

Lemma no_calls s v Q F D W : disk_inv (Sys s v []) Q F D W -> W = [].
Proof.
  intros [_ _ _ _ Hc]. cbn [sk sc] in *. destruct W as [|r W]; [done|]. destruct (co_waiting _ _ _ _ _ Hc r) as [Hf _]; [by left|].
  destruct (co_req _ _ _ _ _ Hc r) as (y & ?%not_elem_of_nil & _); [set_solver|done|done].
Qed.

(** ** Properties *)

(** one call of virtio_disk_rw on an idle disk, with the device carrying
    out the request and raising its interrupt, does what the block cache takes
    a transfer to do: a write appends the block of the buffer to the writes of
    the disk, a read fills the buffer with the block; afterwards the disk is
    idle again, with all descriptors free. *)
Theorem virtio_transfer_refines (R : Z -> Z) (swtch : nat -> E kstate unit) (v : dev) (b : nat) (write : bool) (s : kstate) :
  idle (Sys s v []) -> 0 <= blockno (bufs s b) < 2 ^ 32 ->
  wp (transfer R swtch v b write) (fun v' s' => idle (Sys s' v' []) /\
    wp (disk_rw b write) (fun _ t => dwrites s' = dwrites t /\ image s' = image t /\ same_bufs t s') s) s.
Proof.
  intros [Hi _] Hb. assert (Hsec : sector (bufs s b) = blockno (bufs s b)).
  { unfold sector. change (BSIZE / 512) with 1. rewrite Z.mul_1_r. by apply wrap_small. }
  unfold transfer, disk_rw. destruct write.
  - apply wp_bind. eapply wp_mono; [exact (wp_disk_write swtch 0 b s v [] [] [] [] [] Hi)|].
    cbn beta. intros _ s1 (Hb1 & Hw1 & Hi1 & [(h & d & t & H1)|[[=] _]]). rewrite Hsec in H1.
    apply wp_bind. eapply wp_mono; [exact (wp_dev_turn v s1 _ [] H1)|]. cbn beta. intros v' s2 [H2 ->]. cbn [q_w q_b q_blk] in *.
    apply wp_bind. eapply wp_mono; [exact (wp_disk_intr R (Z.to_nat NUM) _ v' [] [] [] _ [] H2 (done_bound _ _ _ _ _ H2))|].
    cbn beta. intros _ s3 (Hw3 & Hi3 & Hb3 & W' & HW & H3). apply wp_ret.
    assert (W' = []) as -> by (destruct W' as [|r W']; [done|]; destruct (proj1 (HW r)) as [?%not_elem_of_nil|[->%list_elem_of_singleton ?]]; [by left|done..]).
    split; [done|]. apply wp_bind, wp_gets, wp_modify. cbn [dwrites image bufs set_dwrites set_vd] in *. rewrite Hw3, Hi3, Hw1, Hb1. split_and!; [done|done|].
    intros i. rewrite (Hb3 i). cbn [bufs set_dwrites set_vd]. by rewrite Hb1.
  - apply wp_bind. eapply wp_mono; [exact (wp_read_begin b s v [] [] [] [] [] Hi (not_elem_of_nil _))|].
    cbn beta. intros o s1 (Hw1 & Hi1 & Hb1 & Ho). destruct o as [idx|]; [|by destruct Ho as [[=] _]]. destruct Ho as (h & d & t & -> & H1). rewrite Hsec in H1.
    apply wp_bind. eapply wp_deref; [done|]. apply wp_bind. eapply wp_mono; [exact (wp_dev_turn v s1 _ _ H1)|]. cbn beta. intros v' s2 [H2 ->]. cbn [q_w q_b q_blk] in *.
    set (s2 := set_bufs _ _) in *.
    apply wp_bind. eapply wp_mono; [exact (wp_disk_intr R (Z.to_nat NUM) s2 v' _ [] [] _ [] H2 (done_bound _ _ _ _ _ H2))|].
    cbn beta. intros _ s3 (Hw3 & Hi3 & Hb3 & W' & HW & H3).
    set (r := Rq h d t b false (blockno (bufs s b))) in *.
    assert (Hd3 : bdisk (bufs s3 b) <> 1) by (destruct (co_waiting _ _ _ _ _ (di_calls _ _ _ _ _ H3) r) as [_ Hd]; [apply HW; right; split; [by left|done]|cbn [sk q_b r] in Hd; lia]).
    destruct (wp_read_end _ s3 v' [] [] [] [] [] W' H3 Hd3) as [_ Hend]. apply wp_bind. eapply wp_mono; [exact Hend|].
    cbn beta. intros x s4 (_ & Hb4 & Hw4 & Hi4 & W1 & q & W2 & -> & H4). apply wp_ret.
    rewrite (no_calls _ _ _ _ _ _ H4) in H4. split; [done|]. apply wp_bind, wp_gets, wp_bind, wp_gets, wp_modify. cbn [dwrites image bufs set_bufs].
    rewrite Hw4, Hi4, Hw3, Hi3. split_and!; [done|done|]. intros i. rewrite Hb4, (Hb3 i). unfold s2. cbn [bufs set_bufs set_vd].
    destruct (decide (i = b)) as [->|Hne]; [rewrite !fn_lookup_insert|rewrite !fn_lookup_insert_ne by done; apply Hb1].
    pose proof (Hb1 b) as He. unfold disk. rewrite Hw1, Hi1. destruct (bufs s1 b), (bufs s b). unfold set_bdisk, set_bdata in *. cbn in *. congruence.
Qed.


(** C18: a write returns without waiting.  With three free descriptors it has
    queued one request, and the device, when it carries it out, writes the
    block the buffer had, with the bytes the buffer has then; with fewer it
    has queued nothing, so that the block is never written, and the caller is
    not told. *)
Theorem virtio_write_queued_or_lost (R : Z -> Z) (swtch : nat -> E kstate unit) (pages : Z) (fuel b : nat) (s : kstate) (x : sys) :
  reached R swtch pages s x ->
  wp (virtio_disk_rw swtch fuel b true) (fun _ s' =>
    bufs s' = bufs (sk x) /\ dwrites s' = dwrites (sk x) /\
    if (3 <=? nfree (vd (sk x)))%nat then
      av_idx (vd s') = u16 (av_idx (vd (sk x)) + 1) /\
      exists h, av_ring (vd s') (Z.to_nat (av_idx (vd (sk x)) mod NUM)) = Z.of_nat h /\
        forall s2, vd s2 = vd s' -> exists s3, dev_serve h s2 = Some s3 /\
          dwrites s3 = dwrites s2 ++ [(sector (bufs (sk x) b), bdata (bufs s2 b))]
    else av_idx (vd s') = av_idx (vd (sk x))) (sk x).
Proof.
  intros (Q & F & D & W & Hi)%reached_ok. destruct x as [s1 v c]. cbn [sk sv sc].
  eapply wp_mono; [exact (wp_disk_write swtch fuel b s1 v c Q F D W Hi)|]. cbn beta. intros _ s' (Hb & Hw & _ & Hor). split_and!; [done..|].
  pose proof Hi as [_ _ Ht Hr _]. cbn [sk sv sc] in *. pose proof (nfree_table _ _ Ht) as Hn. rewrite !length_app in Hn. pose proof (rg_avail _ _ _ _ _ _ Hr) as Ha.
  destruct Hor as [(h & d & t & [_ _ Ht' Hr' _])|[Hl [_ _ Ht' Hr' _]]]; cbn [sk sv sc] in *; pose proof (rg_avail _ _ _ _ _ _ Hr') as Ha'.
  - pose proof (table_bound _ _ Ht') as Hb'. rewrite !length_app in Hb'. simpl in Hb'.
    destruct (Nat.leb_spec 3 (nfree (vd s1))) as [_|]; [|lia]. split.
    + rewrite Ha', Ha, length_app. unfold wrap. rewrite Z.add_mod_idemp_l by done. f_equal. simpl. lia.
    + exists h. split.
      * rewrite Ha, u16_mod. apply (rg_queued _ _ _ _ _ _ Hr' (length Q)). rewrite fmap_app. by rewrite lookup_app_r, length_fmap, Nat.sub_diag by (rewrite length_fmap; lia).
      * intros s2 Hv. eexists. split; [apply (dev_serve_formatted (Rq h d t b true (sector (bufs s1 b)))); rewrite Hv; apply (tb_fmt _ _ Ht'); set_solver|done].
  - rewrite !length_app in Hl. destruct (Nat.leb_spec 3 (nfree (vd s1))) as [|_]; [lia|]. by rewrite Ha', Ha.
Qed.

(** ** Witnesses: the machine after start *)

Definition disk_start (b : kstate) : kstate := set_vd vdisk_zero (set_km boot b).
Definition regs (r : Z) : Z := 0x400.

Lemma start_ok b tq : sched_inv b tq ∅ -> exists s0,
  virtio_disk_init regs 0x80040000 (disk_start b) = Done tt s0 /\ bufs s0 = bufs b /\ idle (Sys s0 (Dev 0 []) []) /\
  forall swtch x, rtc (disk_step regs swtch) (Sys s0 (Dev 0 []) []) x -> reached regs swtch 0x80040000 (disk_start b) x.
Proof.
  intros Hi. assert (Hs : exists tq, sched_inv (disk_start b) tq ∅) by (exists tq; by eapply sched_inv_same).
  destruct (proj1 (wp_done _ _ _) (wp_disk_init regs 0x80040000 (disk_start b) Hs eq_refl eq_refl ltac:(done))) as ([] & s0 & He & Hidle & Hb).
  exists s0. split_and!; [done|done|done|]. intros swtch x Hr. split_and!; try done. by exists s0.
Qed.

Lemma turn_steps R swtch v s v' s' c : dev_turn v s = Done v' s' -> rtc (disk_step R swtch) (Sys s v c) (Sys s' v' c).
Proof.
  unfold dev_turn. destruct (dev_fetch v (vd s)) as [[n [|h w]]|] eqn:Hf; [done| |done]. destruct (dev_serve h s) as [s2|] eqn:Hs; [|done].
  intros [= <- <-]. eapply rtc_l; [by apply step_fetch|]. apply rtc_once. by apply (step_serve _ _ h [] w).
Qed.

(** A read of buffer 5 that has been woken. *)
Lemma woken_read b tq swtch : sched_inv b tq ∅ ->
  exists x y, reached regs swtch 0x80040000 (disk_start b) x /\ sc x = [y] /\ c_b y = 5%nat /\ bdisk (bufs (sk x) (c_b y)) <> 1.
Proof.
  intros Hi. destruct (start_ok b tq Hi) as (s0 & _ & _ & [H0 _] & Hreach).
  destruct (proj1 (wp_done _ _ _) (wp_read_begin 5 s0 _ [] [] [] [] [] H0 (not_elem_of_nil _))) as (o & s1 & He1 & _ & _ & _ & Ho).
  destruct o as [idx|]; [|by destruct Ho as [[=] _]]. destruct Ho as (h & d & t & _ & H1).
  destruct (proj1 (wp_done _ _ _) (wp_dev_turn _ s1 _ _ H1)) as (v2 & s2 & He2 & H2 & _).
  destruct (proj1 (wp_done _ _ _) (wp_disk_intr regs (Z.to_nat NUM) s2 v2 _ _ _ _ _ H2 (done_bound _ _ _ _ _ H2))) as ([] & s3 & He3 & _ & _ & _ & W' & HW & H3).
  exists (Sys s3 v2 (add_call 5 s0 (Some idx) [])), (Call 5 idx (length (dwrites s0))). split_and!; [|done|done|].
  - apply Hreach. eapply rtc_l; [eapply step_read; [apply not_elem_of_nil|exact He1]|]. etrans; [by eapply turn_steps|]. apply rtc_once. by apply step_intr.
  - destruct (co_waiting _ _ _ _ _ (di_calls _ _ _ _ _ H3) (Rq h d t 5 false (sector (bufs s0 5%nat)))) as [_ Hd]; [apply HW; right; split; [by left|done]|]. cbn [sk q_b c_b] in *. lia.
Qed.

(** Two writes in flight. *)
Lemma two_writes b tq swtch : sched_inv b tq ∅ ->
  exists x, reached regs swtch 0x80040000 (disk_start b) x /\ (nfree (vd (sk x)) < 3)%nat.
Proof.
  intros Hi. destruct (start_ok b tq Hi) as (s0 & _ & _ & [H0 _] & Hreach).
  destruct (proj1 (wp_done _ _ _) (wp_disk_write swtch 0 1 s0 _ [] [] [] [] [] H0)) as ([] & s1 & He1 & _ & _ & _ & [(h & d & t & H1)|[[=] _]]).
  destruct (proj1 (wp_done _ _ _) (wp_disk_write swtch 0 2 s1 _ [] _ [] [] [] H1)) as ([] & s2 & He2 & _ & _ & _ & [(h' & d' & t' & H2)|[[=] _]]).
  exists (Sys s2 (Dev 0 []) []). split.
  - apply Hreach. eapply rtc_l; [by eapply step_write; [apply not_elem_of_nil|exact He1]|]. apply rtc_once. by eapply step_write; [apply not_elem_of_nil|exact He2].
  - pose proof (nfree_table _ _ (di_table _ _ _ _ _ H2)) as Hn. cbn [length app sk] in Hn |- *. lia.
Qed.

Lemma virtio_transfer_refines_witness :
  exists v s, wp (transfer regs (fun _ => mret tt) v 3 true) (fun v' s' => idle (Sys s' v' [])) s.
Proof.
  destruct booted_ok as (_ & Hi & _). revert Hi. generalize booted. intros b Hi.
  destruct (start_ok (set_bufs (fun _ => Buf 0 0 0 7 0 (fun _ => 9)) b) _ ltac:(by eapply sched_inv_same)) as (s0 & _ & Hb & Hidle & _).
  exists (Dev 0 []), s0. eapply wp_mono; [apply (virtio_transfer_refines regs (fun _ => mret tt) (Dev 0 []) 3 true s0 Hidle)|].
  - rewrite Hb. done.
  - cbn beta. by intros v' s' [H _].
Defined.


Lemma virtio_write_queued_or_lost_witness :
  exists x, (nfree (vd (sk x)) < 3)%nat /\
    wp (virtio_disk_rw (fun _ => mret tt) 0 4 true) (fun _ s' => av_idx (vd s') = av_idx (vd (sk x)) /\ dwrites s' = dwrites (sk x)) (sk x).
Proof.
  destruct booted_ok as (_ & Hi & _). revert Hi. generalize booted. intros b Hi.
  destruct (two_writes b _ (fun _ => mret tt) Hi) as (x & Hr & Hn). exists x. split; [exact Hn|].
  eapply wp_mono; [apply (virtio_write_queued_or_lost regs (fun _ => mret tt) 0x80040000 0 4 (disk_start b) x Hr)|].
  cbn beta. intros _ s' (_ & Hw & Hif). destruct (Nat.leb_spec 3 (nfree (vd (sk x)))); [lia|]. split; assumption.
Defined.
