(* ===== verification/BioSpec.v ===== *)
(** * The block cache is a coherent view of the disk

    [bcache_ok p d lk rf vw s]: process [p] runs, it holds the buffers [lk],
    buffer [i] has [rf i] references, and the blocks of device [d], as the
    file system sees them through the cache, are [vw].  Each operation is shown
    as its effect on [lk], [rf], [vw] and the disk. *)
From S2P Require Import Prelude Mem CString KTypes Kalloc Vm ListHead KState Queue Sched Signal Thread ThreadInv SchedSpec ProcBase Pipe Sync Bio.

(** ** The list of buffers *)

Section Links.
Abbreviation heap := (gmap bptr (list_head bptr)).
Implicit Types (h : heap) (b x y : bptr).

Lemma upd_next_prev_comm x v y w h : upd_next x v (upd_prev y w h) = upd_prev y w (upd_next x v h).
Proof.
  unfold upd_next, upd_prev. destruct (decide (x = y)) as [->|Hne]; [|by rewrite alter_alter_ne].
  apply map_eq. intros z. destruct (decide (z = y)) as [->|Hz]; [|by rewrite !lookup_alter_ne].
  rewrite !lookup_alter_eq. by destruct (h !! y).
Qed.

Lemma upd_prev_comm x v y w h : x <> y -> upd_prev x v (upd_prev y w h) = upd_prev y w (upd_prev x v h).
Proof. intros Hne. unfold upd_prev. by rewrite alter_alter_ne. Qed.

Lemma wp_buf_push_front b xs (Q : unit -> heap -> Prop) h :
  ring h BHead xs -> b ∉ BHead :: xs -> is_Some (h !! b) ->
  (forall h', ring h' BHead (b :: xs) -> only_at (b :: BHead :: xs) h h' -> Q tt h') ->
  wp (buf_point b;; buf_hook b) Q h.
Proof.
  intros Hr Hni Hb HQ. pose proof Hr as (_ & Hdom & _).
  destruct (ring_first h BHead xs Hr) as (q & l2 & Heq & Hnq & _).
  assert (Hq : q ∈ BHead :: xs).
  { assert (q ∈ xs ++ [BHead]) as Hq by (rewrite Heq; apply elem_of_cons; by left).
    apply elem_of_cons. apply elem_of_app in Hq as [|Hq]; [by right|left]. by apply list_elem_of_singleton in Hq. }
  assert (Hbh : BHead <> b) by (intros <-; apply Hni, elem_of_cons; by left).
  assert (Hbq : q <> b) by by intros ->.
  assert (HH : is_Some (h !! BHead)) by (apply Hdom, elem_of_cons; by left).
  assert (Hadd : wp (list_add b BHead) Q h) by (eapply wp_list_add; [done..|]; intros; by apply HQ).
  apply wp_done in Hadd as ([] & h' & Hrun & HQ'). eapply wp_run; [|exact HQ'].
  revert Hrun. unfold list_add, list_add_between, buf_point, buf_hook.
  unfold mbind, E_bind. rewrite !rd_next_run, Hnq by done.
  rewrite wr_prev_run by by apply Hdom. rewrite !wr_next_run by (rewrite ?(proj2 (upd_is_Some _ _ _ _)); done).
  rewrite !wr_prev_run by (rewrite ?(proj1 (upd_is_Some _ _ _ _)), ?(proj2 (upd_is_Some _ _ _ _)); done).
  rewrite wr_next_run by (rewrite ?(proj2 (upd_is_Some _ _ _ _)), ?(proj1 (upd_is_Some _ _ _ _)), ?(proj2 (upd_is_Some _ _ _ _)); done).
  intros [= <-].
  rewrite rd_next_run by (rewrite (proj2 (upd_is_Some _ _ _ _)), (proj1 (upd_is_Some _ _ _ _)); done).
  rewrite nxt_upd_prev, nxt_upd_next, decide_False, Hnq by done.
  rewrite wr_prev_run by (rewrite (proj2 (upd_is_Some _ _ _ _)), (proj1 (upd_is_Some _ _ _ _)); by apply Hdom).
  rewrite wr_next_run by (rewrite !(proj2 (upd_is_Some _ _ _ _)), (proj1 (upd_is_Some _ _ _ _)); done).
  f_equal. f_equal. rewrite (upd_prev_comm q _ b) by done. f_equal. symmetry. apply upd_next_prev_comm.
Qed.

Lemma wp_buf_unlink b xs1 xs2 (Q : unit -> heap -> Prop) h :
  ring h BHead (xs1 ++ b :: xs2) ->
  (forall h', only_at (BHead :: xs1 ++ xs2) h h' -> ring h' BHead (xs1 ++ xs2) -> Q tt h') ->
  wp (buf_unlink b) Q h.
Proof.
  intros Hr HQ. pose proof Hr as (Hnd & Hdom & Hpath).
  assert (Hin : b ∈ BHead :: xs1 ++ b :: xs2) by (rewrite elem_of_cons, elem_of_app, elem_of_cons; tauto).
  assert (Hdel : wp (list_del_entry b) Q h) by (eapply wp_list_del_entry; [done|]; intros; by apply HQ).
  apply wp_done in Hdel as ([] & h' & Hrun & HQ'). eapply wp_run; [|exact HQ'].
  revert Hrun. unfold list_del_entry, list_del_between, buf_unlink, mbind, E_bind.
  rewrite !rd_next_run, !rd_prev_run by by apply Hdom. rewrite rd_next_run by by apply Hdom.
  destruct (nxt h b) as [n|] eqn:Hn; [|done].
  assert (Hne : n <> b).
  { intros ->. rewrite app_comm_cons in Hpath. replace ((BHead :: xs1 ++ b :: xs2) ++ [BHead]) with ((BHead :: xs1) ++ b :: (xs2 ++ [BHead])) in Hpath by (simpl; by rewrite <- app_assoc).
    apply path_app in Hpath as [_ Hpath]. destruct (xs2 ++ [BHead]) as [|q l2] eqn:E; [by destruct xs2|].
    destruct Hpath as (Hq & _). rewrite Hn in Hq. injection Hq as <-.
    assert (Hbq : b ∈ xs2 ++ [BHead]) by (rewrite E; apply elem_of_cons; by left).
    change (BHead :: xs1 ++ b :: xs2) with ([BHead] ++ xs1 ++ b :: xs2) in Hnd.
    apply NoDup_app in Hnd as (_ & Hh & Hnd). apply NoDup_app in Hnd as (_ & _ & Hnd%NoDup_cons). destruct Hnd as [Hnb _].
    apply elem_of_app in Hbq as [?|Hbq]; [done|]. apply list_elem_of_singleton in Hbq.
    apply (Hh b); [by apply list_elem_of_singleton|]. apply elem_of_app. right. apply elem_of_cons. by left. }
  destruct (h !! n) as [nd|] eqn:Hnn.
  2: { unfold wr_prev at 1, node_at, deref, mbind, E_bind, mret, E_ret. by rewrite Hnn. }
  rewrite !wr_prev_run by (rewrite Hnn; eauto).
  assert (Hs2 : is_Some (upd_prev n (prv h b) h !! b)) by (rewrite (proj2 (upd_is_Some _ _ _ _)); by apply Hdom).
  rewrite rd_prev_run, rd_next_run by done.
  rewrite nxt_upd_prev, prv_upd_prev, decide_False, Hn by (rewrite ?Hnn; eauto). done.
Qed.

Lemma path_cut h l1 x y l2 : path h (l1 ++ x :: y :: l2) -> nxt h x = Some y /\ prv h y = Some x.
Proof. intros Hp. apply path_app in Hp as [_ (H1 & H2 & _)]. done. Qed.

(** The two directions bget scans in. *)
Lemma ring_next h xs1 x xs2 : ring h BHead (xs1 ++ x :: xs2) -> nxt h x = Some (default BHead (head xs2)).
Proof.
  intros (_ & _ & Hp). rewrite app_comm_cons in Hp.
  replace ((BHead :: xs1 ++ x :: xs2) ++ [BHead]) with ((BHead :: xs1) ++ x :: (xs2 ++ [BHead])) in Hp by (simpl; by rewrite <- app_assoc).
  destruct xs2 as [|y xs2]; by apply path_cut in Hp as [? _].
Qed.

Lemma ring_prev h xs1 x xs2 : ring h BHead (xs1 ++ x :: xs2) -> prv h x = Some (default BHead (last xs1)).
Proof.
  intros (_ & _ & Hp). destruct xs1 as [|z xs1] using rev_ind; [simpl in Hp; by destruct Hp as (_ & ? & _)|]. clear IHxs1.
  rewrite last_snoc. cbn [default from_option id].
  replace (BHead :: ((xs1 ++ [z]) ++ x :: xs2) ++ [BHead]) with ((BHead :: xs1) ++ z :: x :: (xs2 ++ [BHead])) in Hp
    by (simpl; by rewrite <- !app_assoc).
  by apply path_cut in Hp as [_ ?].
Qed.
End Links.

(** The order of the list, most recently used first. *)
Definition lru (s : kstate) (order : list nat) : Prop :=
  order ≡ₚ seq 0 (Z.to_nat NBUF) /\ ring (blinks s) BHead (BBuf <$> order).

Definition is_buf (i : nat) : Prop := Z.of_nat i < NBUF.

Lemma lru_buf s order i : lru s order -> (i ∈ order <-> is_buf i).
Proof. intros [Hp _]. rewrite Hp, elem_of_seq. unfold is_buf. lia. Qed.

(** What a scan returns, having looked at the buffers [xs]. *)
Definition scanned (test : buf -> bool) (s : kstate) (xs : list nat) (r : option nat) : Prop :=
  match r with
  | Some i => i ∈ xs /\ test (bufs s i) = true
  | None => forall i, i ∈ xs -> test (bufs s i) = false
  end.

Lemma wp_buf_find_next test xs2 : forall xs1 fuel s (Q : option nat -> kstate -> Prop),
  ring (blinks s) BHead (BBuf <$> xs1 ++ xs2) -> (length xs2 <= fuel)%nat ->
  (forall r, scanned test s xs2 r -> Q r s) ->
  wp (buf_find fuel rd_next test (Some (default BHead (head (BBuf <$> xs2))))) Q s.
Proof.
  induction xs2 as [|i xs2 IH]; intros xs1 fuel s Q Hr Hf HQ.
  - assert (Q None s) by (apply HQ; intros i Hi; by apply not_elem_of_nil in Hi).
    destruct fuel; apply wp_bind, wp_ret; by apply wp_ret.
  - destruct (test (bufs s i)) eqn:Ht.
    { assert (Q (Some i) s) by (apply HQ; split; [apply elem_of_cons; by left|done]).
      destruct fuel; apply wp_bind, wp_ret, wp_bind, wp_gets; rewrite Ht; by apply wp_ret. }
    simpl in Hf. destruct fuel as [|fuel]; [lia|]. apply wp_bind, wp_ret, wp_bind, wp_gets. cbn [bufs]. rewrite Ht.
    pose proof Hr as (_ & Hdom & _). rewrite fmap_app in Hr. cbn [fmap list_fmap] in Hr.
    apply wp_bind, wp_zoom, wp_rd_next. { apply Hdom. rewrite fmap_app, elem_of_cons, elem_of_app. right. right. apply elem_of_cons. by left. }
    change (wp (buf_find fuel rd_next test (nxt (blinks s) (BBuf i))) Q (set_blinks (blinks s) s)).
    rewrite (ring_next _ _ _ _ Hr). replace (set_blinks (blinks s) s) with s by by destruct s.
    apply (IH (xs1 ++ [i])); [by rewrite <- app_assoc, fmap_app|lia|].
    intros r Hs. apply HQ. destruct r as [j|]; simpl in Hs |- *.
    + destruct Hs. split; [apply elem_of_cons; by right|done].
    + intros j [->|Hj]%elem_of_cons; [done|by apply Hs].
Qed.

Lemma wp_buf_find_prev test xs1 : forall xs2 fuel s (Q : option nat -> kstate -> Prop),
  ring (blinks s) BHead (BBuf <$> xs1 ++ xs2) -> (length xs1 <= fuel)%nat ->
  (forall r, scanned test s xs1 r -> Q r s) ->
  wp (buf_find fuel rd_prev test (Some (default BHead (last (BBuf <$> xs1))))) Q s.
Proof.
  induction xs1 as [|i xs1 IH] using rev_ind; intros xs2 fuel s Q Hr Hf HQ.
  - assert (Q None s) by (apply HQ; intros i Hi; by apply not_elem_of_nil in Hi).
    destruct fuel; apply wp_bind, wp_ret; by apply wp_ret.
  - rewrite fmap_app, last_app. simpl. destruct (test (bufs s i)) eqn:Ht.
    { assert (Q (Some i) s) by (apply HQ; split; [apply elem_of_app; right; by apply list_elem_of_singleton|done]).
      destruct fuel; apply wp_bind, wp_ret, wp_bind, wp_gets; rewrite Ht; by apply wp_ret. }
    rewrite length_app in Hf. simpl in Hf. destruct fuel as [|fuel]; [lia|]. apply wp_bind, wp_ret, wp_bind, wp_gets. rewrite Ht.
    pose proof Hr as (_ & Hdom & _). rewrite <- app_assoc, fmap_app in Hr. cbn [fmap list_fmap app] in Hr.
    apply wp_bind, wp_zoom, wp_rd_prev. { apply Hdom. rewrite !fmap_app, elem_of_cons, !elem_of_app. right. left. right. simpl. apply list_elem_of_singleton. done. }
    change (wp (buf_find fuel rd_prev test (prv (blinks s) (BBuf i))) Q (set_blinks (blinks s) s)).
    rewrite (ring_prev _ _ _ _ Hr). replace (set_blinks (blinks s) s) with s by by destruct s.
    apply (IH (i :: xs2)); [by rewrite fmap_app|lia|].
    intros r Hs. apply HQ. destruct r as [j|]; simpl in Hs |- *.
    + destruct Hs. split; [apply elem_of_app; by left|done].
    + intros j [Hj| ->%list_elem_of_singleton]%elem_of_app; [by apply Hs|done].
Qed.

(** ** The invariant *)

(** What the operations on buffers leave alone. *)
Definition bio_rest (s s' : kstate) : Prop :=
  set_bufs (bufs s) (set_blinks (blinks s) (set_dwrites (dwrites s) (set_sleeplocks (sleeplocks s)
    (set_lh (lh s) (set_queues (queues s) (set_tcbs (tcbs s) s')))))) = s.

Lemma bio_rest_refl s : bio_rest s s.
Proof. by destruct s. Qed.

Lemma bio_rest_trans s1 s2 s3 : bio_rest s1 s2 -> bio_rest s2 s3 -> bio_rest s1 s3.
Proof. intros R1 R2. unfold bio_rest in R1. rewrite <- R2 in R1. exact R1. Qed.

#[global] Instance bio_rest_preorder : PreOrder bio_rest.
Proof. split; [exact bio_rest_refl|exact bio_rest_trans]. Qed.

Lemma bio_rest_fields s s' : bio_rest s s' ->
  km s' = km s /\ procs s' = procs s /\ flog s' = flog s /\ image s' = image s /\ cur s' = cur s.
Proof.
  intros R. split_and!.
  - by apply (f_equal km) in R.
  - by apply (f_equal procs) in R.
  - by apply (f_equal flog) in R.
  - by apply (f_equal image) in R.
  - by apply (f_equal cur) in R.
Qed.

Lemma bio_rest_km m s s' : bio_rest s s' -> bio_rest (set_km m s) (set_km m s').
Proof. intros R. apply (f_equal (set_km m)) in R. exact R. Qed.

Lemma bio_rest_disk s s' : bio_rest s s' -> dwrites s' = dwrites s -> disk s' = disk s.
Proof. intros R Hd. unfold disk. apply bio_rest_fields in R as (_ & _ & _ & -> & _). by rewrite Hd. Qed.

Record bcache_ok (p : nat) (d : Z) (lk : gset nat) (rf : nat -> Z) (vw : Z -> mem) (s : kstate) : Prop := {
  bo_sched : exists tq, sched_inv s tq ∅;
  bo_held : held (km s) = [];
  bo_run : runs_in s p;
  bo_lru : exists order, lru s order;
  bo_lock : forall i, is_buf i ->
    sleeplocks s (buf_lock i) = if decide (i ∈ lk) then held_by s p else Sleeplock 0 0;
  bo_ref : forall i, is_buf i -> refcnt (bufs s i) = rf i /\ 0 <= rf i < 2 ^ 32;
  bo_lk : forall i, i ∈ lk -> is_buf i /\ 0 < rf i /\ bdev (bufs s i) = d;
  bo_key : forall i j, is_buf i -> is_buf j -> bdev (bufs s i) = d -> bdev (bufs s j) = d ->
    blockno (bufs s i) = blockno (bufs s j) -> i = j;
  bo_hit : forall i, is_buf i -> bvalid (bufs s i) <> 0 ->
    bdev (bufs s i) = d /\ bdata (bufs s i) = vw (blockno (bufs s i));
  bo_dirty : forall bn, vw bn = disk s bn \/
    exists i, is_buf i /\ bvalid (bufs s i) <> 0 /\ blockno (bufs s i) = bn /\ rf i <> 0;
}.

(** Reference counts and contents matter pointwise only. *)
#[global] Instance bcache_ok_proper p d lk :
  Proper (pointwise_relation nat eq ==> pointwise_relation Z eq ==> eq ==> iff) (bcache_ok p d lk).
Proof.
  assert (Himp : forall rf rf' vw vw' s, pointwise_relation nat eq rf rf' -> pointwise_relation Z eq vw vw' ->
    bcache_ok p d lk rf vw s -> bcache_ok p d lk rf' vw' s).
  { intros rf rf' vw vw' s Hr Hv [H1 H2 H3 H4 H5 H6 H7 H8 H9 H10]. split; [done..| | |done| |].
    - intros i. rewrite <- (Hr i). apply H6.
    - intros i. rewrite <- (Hr i). apply H7.
    - intros i. rewrite <- (Hv (blockno (bufs s i))). apply H9.
    - intros bn. rewrite <- (Hv bn). destruct (H10 bn) as [|(i & Hi)]; [by left|right]. exists i. by rewrite <- (Hr i). }
  intros rf rf' Hr vw vw' Hv s s' ->. split; apply Himp; try done; by symmetry.
Qed.

(** An unused buffer moves to the front of the list. *)
Lemma wp_buf_front i (b : bool) order (Q : unit -> kstate -> Prop) s :
  lru s order -> is_buf i ->
  (forall h' order', lru (set_blinks h' s) order' -> Q tt (set_blinks h' s)) ->
  wp (if b then on_blinks (buf_unlink (BBuf i);; buf_point (BBuf i);; buf_hook (BBuf i)) else mret tt) Q s.
Proof.
  intros Hlru Hi HQ. assert (Hin : i ∈ order) by by apply (lru_buf _ _ _ Hlru). destruct b.
  2: { apply wp_ret. replace s with (set_blinks (blinks s) s) in Hlru |- * by by destruct s. by eapply HQ. }
  destruct Hlru as [Hp Hr]. apply list_elem_of_split in Hin as (l1 & l2 & ->). rewrite fmap_app, fmap_cons in Hr.
  pose proof Hr as (Hnd & Hdom & _).
  assert (Hni : BBuf i ∉ BHead :: (BBuf <$> l1) ++ (BBuf <$> l2)).
  { assert (Hnd' : NoDup (BBuf i :: BHead :: (BBuf <$> l1) ++ (BBuf <$> l2))) by by rewrite ring_perm.
    by apply NoDup_cons in Hnd' as [? _]. }
  apply wp_zoom, wp_bind. eapply wp_buf_unlink; [exact Hr|]. intros h1 [Hd1 _] Hr1.
  eapply wp_buf_push_front; [exact Hr1|done| |].
  { apply Hd1, Hdom. rewrite elem_of_cons, elem_of_app, elem_of_cons. tauto. }
  intros h2 Hr2 _. apply (HQ h2 (i :: l1 ++ l2)). split.
  - rewrite <- Hp. apply Permutation_middle.
  - cbn [blinks set_blinks]. by rewrite fmap_cons, fmap_app.
Qed.

Section Ops.
Context (swtch : nat -> E kstate unit) (fuel : nat) (p : nat) (d : Z).
Implicit Types (lk : gset nat) (rf : nat -> Z) (vw : Z -> mem) (s : kstate).

(** Buffer [i] is the one of block [bn]. *)
Definition caches (s : kstate) (bn : Z) (i : nat) : Prop :=
  is_buf i /\ bdev (bufs s i) = d /\ blockno (bufs s i) = bn.

(** The effect of bget and brelse on the buffers other than [i]. *)
Definition others_same (i : nat) (s s' : kstate) : Prop :=
  (forall j, j <> i -> bufs s' j = bufs s j) /\ bio_rest s s' /\ dwrites s' = dwrites s.

(** bget once the buffer is chosen: [f] gives it one more reference. *)
Lemma wp_bget_take lk rf vw bn i f (Q : nat -> kstate -> Prop) s :
  bcache_ok p d lk rf vw s -> is_buf i -> i ∉ lk -> rf i + 1 < 2 ^ 32 ->
  refcnt (f (bufs s i)) = rf i + 1 -> bdev (f (bufs s i)) = d -> blockno (f (bufs s i)) = bn ->
  (forall j, caches s bn j -> j = i) ->
  (caches s bn i /\ f (bufs s i) = set_refcnt (rf i + 1) (bufs s i) \/ rf i = 0 /\ bvalid (f (bufs s i)) = 0) ->
  (forall s', bcache_ok p d ({[i]} ∪ lk) (<[i := rf i + 1]> rf) vw s' ->
     bufs s' i = f (bufs s i) -> others_same i s s' -> Q i s') ->
  wp (upd_buf i f;; release L_bcache;; acquiresleep swtch fuel (buf_lock i);; mret i) Q
     (set_km (set_held [L_bcache] (km s)) s).
Proof.
  intros [[tq Hs] Hh Hrun [order Hlru] Hlock Href Hl Hkey Hhit Hdirty] Hi Hni Hb Hr Hd Hbn Huniq Hcase HQ.
  apply wp_bind, wp_modify, wp_bind. eapply wp_krelease; [done|apply not_elem_of_nil|]. cbn [km set_km set_bufs bufs].
  rewrite <- Hh, held_restore. apply wp_bind.
  replace (set_km (km s) _) with (set_bufs (<[i := f (bufs s i)]> (bufs s)) s) by by destruct s.
  eapply (wp_acquiresleep swtch fuel p); [done|done| |].
  { cbn [sleeplocks set_bufs]. by rewrite Hlock, decide_False by done. }
  cbn [set_bufs sleeplocks]. intros s' Hs' Hli Hlo. apply wp_ret.
  assert (Hbf : bufs s' = <[i := f (bufs s i)]> (bufs s)) by by rewrite Hs'.
  assert (Hbi : bufs s' i = f (bufs s i)) by by rewrite Hbf, fn_lookup_insert.
  assert (Hbo : forall j, j <> i -> bufs s' j = bufs s j) by (intros; by rewrite Hbf, fn_lookup_insert_ne by done).
  assert (Hrest : bio_rest s s') by (rewrite Hs'; by destruct s).
  assert (Hdw : dwrites s' = dwrites s) by by rewrite Hs'.
  apply HQ; [|done|done]. split.
  - exists tq. eapply sched_inv_same; [exact Hs|by rewrite Hs'..].
  - by rewrite Hs'.
  - destruct Hrun as (t & ? & ?). exists t. by rewrite Hs'.
  - exists order. unfold lru in *. rewrite Hs'. done.
  - intros j Hj. destruct (decide (j = i)) as [->|Hne].
    + rewrite decide_True by set_solver. rewrite Hli. unfold held_by. by rewrite Hs'.
    + rewrite Hlo by (unfold buf_lock; lia). rewrite Hlock by done. unfold held_by. rewrite Hs'. cbn [procs set_sleeplocks set_bufs].
      apply decide_ext. set_solver.
  - intros j Hj. destruct (decide (j = i)) as [->|Hne].
    + rewrite Hbi, fn_lookup_insert. destruct (Href i Hj). split; [done|lia].
    + rewrite Hbo, fn_lookup_insert_ne by done. by apply Href.
  - intros j [->%elem_of_singleton|Hj]%elem_of_union.
    + rewrite fn_lookup_insert, Hbi. destruct (Href i Hi). split_and!; [done|lia|done].
    + destruct (Hl j Hj) as (? & ? & ?). assert (j <> i) by by intros ->. rewrite fn_lookup_insert_ne, Hbo by done. done.
  - assert (Hk : forall j, is_buf j -> j <> i -> bdev (bufs s' j) = d -> blockno (bufs s' j) = bn -> False).
    { intros j Hj Hne. rewrite Hbo by done. intros H1 H2. apply Hne, Huniq. done. }
    intros j k Hj Hk'. destruct (decide (j = i)) as [->|Hji], (decide (k = i)) as [->|Hki]; [done|..].
    + rewrite Hbi. intros _ H1 H2. exfalso. apply (Hk k); [done..|congruence].
    + rewrite Hbi. intros H1 _ H2. exfalso. apply (Hk j); [done..|congruence].
    + rewrite !Hbo by done. by apply Hkey.
  - intros j Hj. destruct (decide (j = i)) as [->|Hne]; [|rewrite Hbo by done; by apply Hhit].
    rewrite Hbi. destruct Hcase as [[_ ->]|[_ ->]]; [|done]. by apply Hhit.
  - intros n. unfold disk. rewrite Hdw. replace (image s') with (image s) by by rewrite Hs'.
    destruct (Hdirty n) as [|(j & Hj & Hv & Hn & Hr0)]; [by left|right]. exists j.
    destruct (decide (j = i)) as [->|Hne].
    + rewrite Hbi, fn_lookup_insert. destruct Hcase as [[_ ->]|[? _]]; [|done]. destruct (Href i Hj). split_and!; [done..|lia].
    + by rewrite Hbo, fn_lookup_insert_ne by done.
Qed.

Lemma wp_bget lk rf vw bn (Q : nat -> kstate -> Prop) s :
  bcache_ok p d lk rf vw s -> (forall i, i ∈ lk -> blockno (bufs s i) <> bn) ->
  (forall i, is_buf i -> rf i + 1 < 2 ^ 32) ->
  ((exists i, caches s bn i) \/ exists i, is_buf i /\ rf i = 0) ->
  (forall i s', bcache_ok p d ({[i]} ∪ lk) (<[i := rf i + 1]> rf) vw s' -> i ∉ lk -> caches s' bn i ->
     (caches s bn i /\ bufs s' i = set_refcnt (rf i + 1) (bufs s i) \/ rf i = 0 /\ bvalid (bufs s' i) = 0) ->
     others_same i s s' -> Q i s') ->
  wp (bget swtch fuel d bn) Q s.
Proof.
  intros Hok Hlk Hrf Hfree HQ. pose proof Hok as [_ Hh _ [order Hlru] _ Href Hl Hkey _ _].
  unfold bget. apply wp_bind, wp_kacquire; [rewrite Hh; apply not_elem_of_nil|]. rewrite Hh.
  pose proof Hlru as [Hperm Hring]. pose proof Hring as (_ & Hdom & _).
  assert (Hlen : (length order <= Z.to_nat NBUF)%nat) by (rewrite Hperm, length_seq; lia).
  assert (HH : is_Some (blinks s !! BHead)) by (apply Hdom, elem_of_cons; by left).
  set (s0 := set_km _ _). assert (Hblk : set_blinks (blinks s0) s0 = s0) by done.
  apply wp_bind, wp_zoom, wp_rd_next; [done|]. rewrite Hblk.
  replace (nxt (blinks s0) BHead) with (Some (default BHead (head (BBuf <$> order)))).
  2: { destruct (ring_first _ _ _ Hring) as (q & l2 & Hq & Hnq & _). cbn [blinks set_km s0]. rewrite Hnq.
       by destruct order; simpl in Hq; injection Hq as <-. }
  apply wp_bind. apply (wp_buf_find_next _ order []); [exact Hring|done|]. intros [i|] Hsc.
  - destruct Hsc as [Hin Ht]. apply (lru_buf _ _ _ Hlru) in Hin. simpl in Ht.
    apply andb_true_iff in Ht as [Hd%Z.eqb_eq Hb%Z.eqb_eq]. destruct (Href i Hin) as [Hri Hr0].
    assert (Hca : caches s bn i) by done. assert (Hni : i ∉ lk) by (intros Hx; by apply (Hlk i Hx)).
    assert (Hu : u32 (refcnt (bufs s i) + 1) = rf i + 1) by (rewrite Hri; apply wrap_small; split; [lia|by apply Hrf]).
    eapply (wp_bget_take lk rf vw bn i); [done|done|done|by apply Hrf|done|done|done| |left; split; [done|by rewrite Hu]|].
    { intros j (Hj & H1 & H2). apply Hkey; [done..|congruence]. }
    intros s' Hok' Hbi Ho. rewrite Hu in Hbi. apply HQ; [done|done| |by left|done].
    split_and!; [done|by rewrite Hbi..].
  - assert (Hnone : forall j, ~ caches s bn j).
    { intros j (Hj & H1 & H2). apply (lru_buf _ _ _ Hlru) in Hj. apply Hsc in Hj. cbn [bufs set_km s0] in Hj.
      by rewrite H1, H2, !Z.eqb_refl in Hj. }
    destruct Hfree as [[j Hj]|(j & Hj & Hj0)]; [by apply Hnone in Hj|].
    apply wp_bind, wp_zoom, wp_rd_prev; [done|]. rewrite Hblk.
    replace (prv (blinks s0) BHead) with (Some (default BHead (last (BBuf <$> order)))).
    2: { destruct (ring_last _ _ _ Hring) as (l1 & q & Hq & _ & _ & _ & _ & Hpq). cbn [blinks set_km s0]. rewrite Hpq.
         destruct (BBuf <$> order) as [|x l0] using rev_ind; [by destruct l1 as [|? []]; simplify_eq/=|].
         rewrite last_snoc. rewrite app_comm_cons in Hq. apply app_inj_tail in Hq as [_ ->]. done. }
    apply wp_bind. apply (wp_buf_find_prev _ order []); [by rewrite app_nil_r|done|]. intros [i|] Hsc2.
    + destruct Hsc2 as [Hin Ht]. apply (lru_buf _ _ _ Hlru) in Hin. apply Z.eqb_eq in Ht. simpl in Ht. destruct (Href i Hin) as [Hri Hr0].
      rewrite Hri in Ht. assert (Hni : i ∉ lk) by (intros Hx; destruct (Hl i Hx) as (_ & ? & _); lia).
      eapply (wp_bget_take lk rf vw bn i); [done|done|done|by apply Hrf|simpl; lia|done|done| |by right|].
      { intros k Hk. by apply Hnone in Hk. }
      intros s' Hok' Hbi Ho. apply HQ; [done|done| |right; by rewrite Hbi|done].
      split_and!; [done|by rewrite Hbi..].
    + exfalso. apply (lru_buf _ _ _ Hlru) in Hj as Hin. apply Hsc2 in Hin. simpl in Hin.
      destruct (Href j Hj) as [Hrj _]. by rewrite Hrj, Hj0 in Hin.
Qed.

(** Replacing the buffer of a block: what must hold of the new one. *)
Lemma bcache_ok_set lk rf vw rf' vw' i b' s :
  bcache_ok p d lk rf vw s -> is_buf i -> bdev (bufs s i) = d ->
  bdev b' = d -> blockno b' = blockno (bufs s i) ->
  refcnt b' = rf' i -> 0 <= rf' i < 2 ^ 32 -> (i ∈ lk -> 0 < rf' i) -> (forall j, j <> i -> rf' j = rf j) ->
  (forall n, n <> blockno (bufs s i) -> vw' n = vw n) ->
  (bvalid b' <> 0 -> bdata b' = vw' (blockno b')) ->
  vw' (blockno b') = disk s (blockno b') \/ bvalid b' <> 0 /\ rf' i <> 0 ->
  bcache_ok p d lk rf' vw' (set_bufs (<[i := b']> (bufs s)) s).
Proof.
  intros [[tq Hs] Hh Hrun [order Hlru] Hlock Href Hl Hkey Hhit Hdirty] Hi Hdi Hd' Hb' Hr' Hrr Hl' Hro Hvo Hv' Hc.
  set (s2 := set_bufs _ _).
  assert (Hbi : bufs s2 i = b') by apply fn_lookup_insert.
  assert (Hbo : forall j, j <> i -> bufs s2 j = bufs s j) by (intros; by apply fn_lookup_insert_ne).
  split; [|done|done|by exists order|done|..].
  - exists tq. eapply sched_inv_same; [exact Hs|done..].
  - intros j Hj. destruct (decide (j = i)) as [->|]; [by rewrite Hbi|]. rewrite Hbo, Hro by done. by apply Href.
  - intros j Hj. destruct (decide (j = i)) as [->|]; [rewrite Hbi; auto|]. rewrite Hbo, Hro by done. by apply Hl.
  - intros j k. destruct (decide (j = i)) as [->|], (decide (k = i)) as [->|]; rewrite ?Hbi, ?Hbo by done;
      intros; apply Hkey; congruence.
  - intros j Hj. destruct (decide (j = i)) as [->|Hne]; [rewrite Hbi; auto|].
    rewrite Hbo by done. intros Hv. destruct (Hhit j Hj Hv) as [Hdj Hda]. split; [done|].
    rewrite Hvo; [done|]. intros He. by apply Hne, Hkey.
  - intros n. destruct (decide (n = blockno b')) as [->|Hn].
    + destruct Hc as [Hc|[Hc1 Hc2]]; [by left|right]. exists i. by rewrite Hbi.
    + rewrite Hvo by congruence. destruct (Hdirty n) as [|(j & Hj & Hv & Hjn & Hr0)]; [by left|right]. exists j.
      destruct (decide (j = i)) as [->|]; [congruence|]. by rewrite Hbo, Hro.
Qed.

(** A block whose buffer holds nothing is as on the disk. *)
Lemma bcache_ok_miss lk rf vw bn i s :
  bcache_ok p d lk rf vw s -> caches s bn i -> bvalid (bufs s i) = 0 -> vw bn = disk s bn.
Proof.
  intros [_ _ _ _ _ _ _ Hkey Hhit Hdirty] (Hi & Hd & Hb) Hz.
  destruct (Hdirty bn) as [|(j & Hj & Hv & Hn & _)]; [done|]. exfalso. apply Hv.
  replace j with i; [done|]. apply Hkey; [done..|by apply Hhit|congruence].
Qed.

(** A buffer that was never filled may hold anything. *)
Lemma bcache_ok_data_invalid lk rf vw bn i D s :
  bcache_ok p d lk rf vw s -> caches s bn i -> bvalid (bufs s i) = 0 ->
  bcache_ok p d lk rf vw (set_bufs (<[i := set_bdata D (bufs s i)]> (bufs s)) s).
Proof.
  intros Hok Hca Hz. pose proof Hca as (Hi & Hd & Hb). destruct (bo_ref _ _ _ _ _ _ Hok i Hi) as [Hr Hr0].
  eapply bcache_ok_set; try done.
  - intros Hx. by apply (bo_lk _ _ _ _ _ _ Hok).
  - left. simpl. rewrite Hb. by eapply bcache_ok_miss.
Qed.

(** A store to the data of a buffer that is held. *)
Lemma bcache_ok_data lk rf vw i D s :
  bcache_ok p d lk rf vw s -> i ∈ lk -> bvalid (bufs s i) <> 0 ->
  bcache_ok p d lk rf (<[blockno (bufs s i) := D]> vw) (set_bufs (<[i := set_bdata D (bufs s i)]> (bufs s)) s).
Proof.
  intros Hok Hi Hv0. destruct (bo_lk _ _ _ _ _ _ Hok i Hi) as (Hib & Hri & Hdi).
  destruct (bo_ref _ _ _ _ _ _ Hok i Hib) as [Hr Hr0].
  eapply bcache_ok_set; try done.
  - intros n Hn. by apply fn_lookup_insert_ne.
  - intros _. simpl. by rewrite fn_lookup_insert.
  - right. split; [done|lia].
Qed.

(** bread gives the block as the cache sees it. *)
Lemma wp_bread lk rf vw bn (Q : nat -> kstate -> Prop) s :
  bcache_ok p d lk rf vw s -> (forall i, i ∈ lk -> blockno (bufs s i) <> bn) ->
  (forall i, is_buf i -> rf i + 1 < 2 ^ 32) ->
  ((exists i, caches s bn i) \/ exists i, is_buf i /\ rf i = 0) ->
  (forall i s', bcache_ok p d ({[i]} ∪ lk) (<[i := rf i + 1]> rf) vw s' -> i ∉ lk -> caches s' bn i ->
     bvalid (bufs s' i) <> 0 -> (caches s bn i \/ rf i = 0) -> others_same i s s' -> Q i s') ->
  wp (bread swtch fuel d bn) Q s.
Proof.
  intros Hok Hlk Hrf Hfree HQ. unfold bread. apply wp_bind. eapply wp_bget; [done..|].
  intros i s1 Hok1 Hni Hca Hcase (Hbo & Hrest & Hdw). apply wp_bind, wp_gets.
  assert (Hcase' : caches s bn i \/ rf i = 0) by tauto. clear Hcase. cbn beta.
  destruct (Z.eqb_spec (bvalid (bufs s1 i)) 0) as [Hz|Hnz].
  2: { apply wp_bind, wp_ret, wp_ret. by apply HQ. }
  apply wp_bind, wp_bind. unfold disk_rw. apply wp_bind, wp_gets, wp_bind, wp_gets, wp_modify. cbn beta.
  pose proof Hca as (Hi & Hd & Hb). rewrite Hb. set (s2 := set_bufs _ s1).
  assert (Hok2 : bcache_ok p d ({[i]} ∪ lk) (<[i := rf i + 1]> rf) vw s2) by by eapply bcache_ok_data_invalid.
  assert (Hb2 : bufs s2 i = set_bdata (disk s1 bn) (bufs s1 i)) by apply fn_lookup_insert.
  assert (Hr2 : bio_rest s1 s2) by by destruct s1.
  apply wp_modify, wp_ret. set (s3 := set_bufs _ s2).
  assert (Hb3 : bufs s3 i = set_bvalid 1 (bufs s2 i)) by apply fn_lookup_insert.
  assert (Hr3 : bio_rest s2 s3) by by destruct s2.
  destruct (bo_ref _ _ _ _ _ _ Hok2 i Hi) as [Hri Hri0]. rewrite fn_lookup_insert in Hri, Hri0.
  apply HQ; [|done| |by rewrite Hb3|done|].
  - eapply bcache_ok_set; try done; rewrite ?Hb2 by done; cbn [bdev blockno bdata bvalid refcnt set_bvalid set_bdata].
    + done.
    + done.
    + by rewrite fn_lookup_insert, <- Hri, Hb2.
    + by rewrite fn_lookup_insert.
    + intros _. by apply (bo_lk _ _ _ _ _ _ Hok2), elem_of_union_l, elem_of_singleton.
    + intros _. rewrite Hb. symmetry. by eapply bcache_ok_miss.
    + left. rewrite Hb. change (disk s2) with (disk s1). by eapply bcache_ok_miss.
  - unfold caches. by rewrite Hb3, Hb2.
  - split_and!; [|by do 2 (etransitivity; [|done])|done].
    intros j Hj. cbn [s3 s2 bufs set_bufs]. by rewrite !fn_lookup_insert_ne, Hbo.
Qed.

(** bwrite: the disk, and so the view, has what the buffer holds. *)
Lemma wp_bwrite lk rf vw i (Q : unit -> kstate -> Prop) s :
  bcache_ok p d lk rf vw s -> i ∈ lk ->
  (forall s', bcache_ok p d lk rf (<[blockno (bufs s i) := bdata (bufs s i)]> vw) s' ->
     bufs s' = bufs s -> bio_rest s s' -> dwrites s' = dwrites s ++ [(blockno (bufs s i), bdata (bufs s i))] -> Q tt s') ->
  wp (bwrite i) Q s.
Proof.
  intros Hok Hi HQ. pose proof Hok as [[tq Hs] Hh Hrun [order Hlru] Hlock Href Hl Hkey Hhit Hdirty].
  destruct (Hl i Hi) as (Hib & Hri & Hdi).
  unfold bwrite. apply wp_bind. eapply (wp_holdingsleep p); [done..|by rewrite Hlock, decide_True by done|].
  apply wp_bind, wp_panic_if; [done|]. unfold disk_rw. apply wp_bind, wp_gets, wp_modify. cbn beta.
  set (s2 := set_dwrites _ s). set (bn := blockno (bufs s i)) in *. set (D := bdata (bufs s i)) in *.
  assert (Hdisk : disk s2 = <[bn := D]> (disk s)).
  { unfold disk, s2. cbn [dwrites image set_dwrites]. unfold apply_writes. by rewrite foldl_app. }
  apply HQ; [|done|by destruct s|done]. split; [|done|done|by exists order|done|done|done|done|..].
  - exists tq. eapply sched_inv_same; [exact Hs|done..].
  - intros j Hj Hv. change (bufs s2) with (bufs s) in *. destruct (Hhit j Hj Hv) as [Hdj Hda]. split; [done|].
    destruct (decide (j = i)) as [->|Hne]; [by rewrite fn_lookup_insert|].
    rewrite fn_lookup_insert_ne; [done|]. intros He. apply Hne. by apply Hkey.
  - intros n. change (bufs s2) with (bufs s). rewrite Hdisk. destruct (decide (n = bn)) as [->|Hn].
    + left. by rewrite !fn_lookup_insert.
    + rewrite !fn_lookup_insert_ne by done. apply Hdirty.
Qed.

(** bpin and bunpin change the number of references. *)
Lemma wp_bref k lk rf vw bn i (Q : unit -> kstate -> Prop) s :
  bcache_ok p d lk rf vw s -> caches s bn i -> 0 < rf i + k < 2 ^ 32 ->
  (forall s', bcache_ok p d lk (<[i := rf i + k]> rf) vw s' -> bufs s' i = set_refcnt (rf i + k) (bufs s i) ->
     others_same i s s' -> Q tt s') ->
  wp (acquire L_bcache;; upd_buf i (fun b => set_refcnt (u32 (refcnt b + k)) b);; release L_bcache) Q s.
Proof.
  intros Hok (Hi & Hd & Hb) Hlt HQ. destruct (bo_ref _ _ _ _ _ _ Hok i Hi) as [Hr Hr0]. pose proof (bo_held _ _ _ _ _ _ Hok) as Hh.
  apply wp_bind, wp_kacquire; [rewrite Hh; apply not_elem_of_nil|]. apply wp_bind, wp_modify.
  eapply wp_krelease; [cbn [km set_km set_bufs]; simpl; by rewrite Hh|apply not_elem_of_nil|].
  cbn [km set_km set_bufs bufs]. rewrite Hr, (wrap_small 32) by lia. rewrite <- Hh, held_restore.
  replace (set_km _ _) with (set_bufs (<[i := set_refcnt (rf i + k) (bufs s i)]> (bufs s)) s) by by destruct s.
  apply HQ.
  - eapply bcache_ok_set; try done.
    + by rewrite fn_lookup_insert.
    + rewrite fn_lookup_insert. lia.
    + intros _. rewrite fn_lookup_insert. lia.
    + intros j Hj. by apply fn_lookup_insert_ne.
    + intros Hv. by apply (bo_hit _ _ _ _ _ _ Hok).
    + rewrite fn_lookup_insert. simpl. destruct (Z.eq_dec (bvalid (bufs s i)) 0) as [Hz|]; [|right; split; [done|lia]].
      left. rewrite Hb. by eapply bcache_ok_miss.
  - apply fn_lookup_insert.
  - split_and!; [|by destruct s|done]. intros j Hj. by apply fn_lookup_insert_ne.
Qed.

(** brelse gives the buffer back; when nobody else refers to it, it must be as
    on the disk, since it can be recycled. *)
Lemma wp_brelse lk rf vw i (Q : unit -> kstate -> Prop) s :
  bcache_ok p d lk rf vw s -> i ∈ lk ->
  (rf i = 1 -> bvalid (bufs s i) <> 0 -> vw (blockno (bufs s i)) = disk s (blockno (bufs s i))) ->
  (forall s', bcache_ok p d (lk ∖ {[i]}) (<[i := rf i - 1]> rf) vw s' -> bufs s' i = set_refcnt (rf i - 1) (bufs s i) ->
     others_same i s s' -> Q tt s') ->
  wp (brelse i) Q s.
Proof.
  clear swtch fuel. intros Hok Hi Hclean HQ. pose proof Hok as [[tq Hs] Hh Hrun [order Hlru] Hlock Href Hl Hkey Hhit Hdirty].
  destruct (Hl i Hi) as (Hib & Hri & Hdi). destruct (Href i Hib) as [Hr Hr0].
  unfold brelse. apply wp_bind. eapply (wp_holdingsleep p); [done..|by rewrite Hlock, decide_True by done|].
  apply wp_bind, wp_panic_if; [done|]. apply wp_bind. eapply (wp_releasesleep p _ tq); [done..|].
  intros s1 tq1 Hw1 Hs1 Hrun1 Hl1 Hlo1.
  assert (Hb1 : bufs s1 = bufs s /\ blinks s1 = blinks s /\ km s1 = km s /\ procs s1 = procs s /\ dwrites s1 = dwrites s /\ image s1 = image s).
  { unfold wake_rest in Hw1. split_and!.
    - by apply (f_equal bufs) in Hw1.
    - by apply (f_equal blinks) in Hw1.
    - by apply (f_equal km) in Hw1.
    - by apply (f_equal procs) in Hw1.
    - by apply (f_equal dwrites) in Hw1.
    - by apply (f_equal image) in Hw1. }
  destruct Hb1 as (Hbf & Hbl & Hk1 & Hp1 & Hd1 & Hi1).
  assert (Hr01 : bio_rest s s1) by (unfold bio_rest, wake_rest in *; rewrite <- Hw1 at 6; by destruct s1; simpl in *; subst).
  apply wp_bind, wp_kacquire; [rewrite Hk1, Hh; apply not_elem_of_nil|]. rewrite Hk1, Hh.
  apply wp_bind, wp_modify, wp_bind, wp_gets. cbn [bufs set_km set_bufs]. rewrite Hbf, Hr, (wrap_small 32) by lia.
  rewrite fn_lookup_insert. cbn [refcnt set_refcnt]. set (b' := set_refcnt (rf i - 1) (bufs s i)). set (s2 := set_bufs _ _).
  apply wp_bind. eapply (wp_buf_front i _ order); [|done|].
  { unfold lru. cbn [s2 blinks set_bufs set_km]. by rewrite Hbl. }
  intros h' order' Hlru'. eapply wp_krelease; [done|apply not_elem_of_nil|]. cbn [km set_blinks set_bufs set_km s2].
  rewrite <- Hh, <- Hk1, held_restore. set (s3 := set_km _ _).
  assert (Hbi : bufs s3 i = b') by apply fn_lookup_insert.
  assert (Hbo : forall j, j <> i -> bufs s3 j = bufs s j) by (intros; by apply fn_lookup_insert_ne).
  assert (Hr3 : bio_rest s1 s3) by by destruct s1.
  assert (Hdk : disk s3 = disk s) by (unfold disk; cbn [s3 s2 image dwrites set_km set_blinks set_bufs]; by rewrite Hd1, Hi1).
  apply HQ; [|done|by split_and!; [|etransitivity|]]. split.
  - exists tq1. eapply sched_inv_same; [exact Hs1|done..].
  - cbn [km s3 set_km]. by rewrite Hk1.
  - destruct Hrun1 as (t & ? & ?). by exists t.
  - exists order'. exact Hlru'.
  - intros j Hj. cbn [sleeplocks s3 s2 set_km set_blinks set_bufs]. replace (held_by s3 p) with (held_by s p) by (unfold held_by; by rewrite <- Hp1).
    destruct (decide (j = i)) as [->|Hne].
    + rewrite decide_False by set_solver. done.
    + rewrite Hlo1, Hlock by (done || unfold buf_lock; lia). apply decide_ext. set_solver.
  - intros j Hj. destruct (decide (j = i)) as [->|Hne].
    + rewrite Hbi, fn_lookup_insert. split; [done|lia].
    + rewrite Hbo, fn_lookup_insert_ne by done. by apply Href.
  - intros j [Hj Hne%not_elem_of_singleton]%elem_of_difference. rewrite Hbo, fn_lookup_insert_ne by done. by apply Hl.
  - intros j k. destruct (decide (j = i)) as [->|], (decide (k = i)) as [->|]; rewrite ?Hbi, ?Hbo by done; apply Hkey.
  - intros j Hj. destruct (decide (j = i)) as [->|]; [rewrite Hbi|rewrite Hbo by done]; by apply Hhit.
  - intros n. rewrite Hdk. destruct (Hdirty n) as [|(j & Hj & Hv & Hn & Hr1)]; [by left|].
    destruct (decide (j = i)) as [->|Hne].
    + destruct (decide (rf i = 1)) as [H1|H1]; [left; subst n; by apply Hclean|right].
      exists i. rewrite Hbi, fn_lookup_insert. split_and!; [done..|lia].
    + right. exists j. by rewrite Hbo, fn_lookup_insert_ne.
Qed.

(** ** Initialisation *)

(** The cache as the kernel is loaded. *)
Definition bufs_unused (s : kstate) : Prop :=
  (forall i, is_buf i -> refcnt (bufs s i) = 0 /\ bvalid (bufs s i) = 0 /\ bdev (bufs s i) <> d) /\
  is_Some (blinks s !! BHead) /\ forall i, is_buf i -> is_Some (blinks s !! BBuf i).

Record binit_inv (s0 : kstate) (k : nat) (s : kstate) : Prop := {
  bi_ring : ring (blinks s) BHead (BBuf <$> rev (seq 0 k));
  bi_dom : forall i, is_buf i -> is_Some (blinks s !! BBuf i);
  bi_lock : forall i, (i < k)%nat -> sleeplocks s (buf_lock i) = Sleeplock 0 0;
  bi_rest : set_blinks (blinks s0) (set_sleeplocks (sleeplocks s0) s) = s0;
}.

Lemma wp_binit_one s0 k s :
  held (km s0) = [] -> is_buf k -> binit_inv s0 k s -> wp (binit_one k) (fun _ s' => binit_inv s0 (S k) s') s.
Proof.
  intros Hh Hk [Hr Hd Hl Hrest]. unfold binit_one.
  assert (Hpush : wp (buf_point (BBuf k);; buf_hook (BBuf k)) (fun _ h' =>
    ring h' BHead (BBuf k :: (BBuf <$> rev (seq 0 k))) /\ only_at (BBuf k :: BHead :: (BBuf <$> rev (seq 0 k))) (blinks s) h') (blinks s)).
  { eapply wp_buf_push_front; [exact Hr| |by apply Hd|done].
    rewrite elem_of_cons, list_elem_of_fmap. intros [[=]|(i & [= <-] & Hin)].
    apply list_elem_of_In, in_rev, list_elem_of_In, elem_of_seq in Hin. lia. }
  apply wp_done in Hpush as ([] & h2 & Hrun & Hr2 & Hd2 & _).
  unfold mbind, E_bind in Hrun. destruct (buf_point (BBuf k) (blinks s)) as [[] h1| | |] eqn:Hp1; try done.
  apply wp_bind, wp_zoom. eapply wp_run; [exact Hp1|]. apply wp_bind. unfold initsleeplock, initlock.
  assert (Hkm : km s = km s0) by by apply (f_equal km) in Hrest.
  apply wp_bind, wp_zoom, initlock_free; [cbn [km set_blinks]; rewrite Hkm, Hh; apply not_elem_of_nil|].
  apply wp_modify, wp_zoom. eapply wp_run; [exact Hrun|]. split.
  - cbn [blinks set_blinks]. by rewrite seq_S, rev_app_distr.
  - intros i Hi. cbn [blinks set_blinks]. by apply Hd2, Hd.
  - intros i Hi. cbn [sleeplocks set_blinks set_sleeplocks set_km]. destruct (decide (i = k)) as [->|].
    + apply fn_lookup_insert.
    + rewrite fn_lookup_insert_ne by (unfold buf_lock; lia). apply Hl. lia.
  - rewrite <- Hrest. by destruct s.
Qed.

(** binit makes a cache with no references that shows the disk. *)
Lemma wp_binit tq s :
  sched_inv s tq ∅ -> held (km s) = [] -> runs_in s p -> bufs_unused s ->
  wp binit (fun _ s' => bcache_ok p d ∅ (fun _ => 0) (disk s) s' /\
    set_blinks (blinks s) (set_sleeplocks (sleeplocks s) s') = s) s.
Proof.
  intros Hs Hh Hrun (Hb & Hhd & Hdom). unfold binit, initlock.
  apply wp_bind, wp_zoom, initlock_free; [rewrite Hh; apply not_elem_of_nil|].
  replace (set_km (km s) s) with s by by destruct s.
  apply wp_bind, wp_zoom, wp_bind, wp_wr_prev; [done|]. apply wp_wr_next; [by rewrite (proj2 (upd_is_Some _ _ _ _))|].
  set (h0 := upd_next _ _ _). set (s1 := set_blinks h0 s).
  assert (Hd0 : forall x, is_Some (h0 !! x) <-> is_Some (blinks s !! x)).
  { intros x. unfold h0. by rewrite (proj1 (upd_is_Some _ _ _ _)), (proj2 (upd_is_Some _ _ _ _)). }
  apply wp_bind. apply (wp_for_table (fun k s' => binit_inv s k s')).
  - intros k s2 Hk Hi. apply wp_bind. eapply wp_mono; [apply (wp_binit_one s); [done|unfold is_buf; lia|done]|].
    cbn beta. intros _ s3 H3. by apply wp_ret.
  - intros s2 [Hr2 Hd2 Hl2 Hrest]. apply wp_ret. split; [|done].
    assert (Hbf : bufs s2 = bufs s) by by apply (f_equal bufs) in Hrest.
    assert (Hdk : disk s2 = disk s).
    { unfold disk. replace (image s2) with (image s) by by apply (f_equal image) in Hrest.
      by replace (dwrites s2) with (dwrites s) by by apply (f_equal dwrites) in Hrest. }
    split.
    + exists tq. eapply sched_inv_same; [exact Hs|..].
      * by apply (f_equal lh) in Hrest.
      * by apply (f_equal queues) in Hrest.
      * apply (f_equal tcbs) in Hrest. cbn [tcbs set_blinks set_sleeplocks] in Hrest. by rewrite Hrest.
    + apply (f_equal km) in Hrest. cbn [km set_blinks set_sleeplocks] in Hrest. by rewrite Hrest.
    + destruct Hrun as (t & H1 & H2). exists t. apply (f_equal cur) in Hrest as Hc. apply (f_equal tcbs) in Hrest as Ht.
      cbn [cur tcbs set_blinks set_sleeplocks] in Hc, Ht. by rewrite Hc, Ht.
    + exists (rev (seq 0 (Z.to_nat NBUF))). split; [|done]. symmetry. apply Permutation_rev.
    + intros i Hi. rewrite decide_False by set_solver. apply Hl2. unfold is_buf in Hi. lia.
    + intros i Hi. rewrite Hbf. destruct (Hb i Hi) as (-> & _). done.
    + set_solver.
    + intros i j Hi _. rewrite Hbf. by destruct (Hb i Hi) as (_ & _ & ?).
    + intros i Hi. rewrite Hbf. by destruct (Hb i Hi) as (_ & ? & _).
    + intros n. left. by rewrite Hdk.
  - split.
    + split_and!; [apply NoDup_singleton| |].
      * intros x ->%list_elem_of_singleton. by apply Hd0.
      * simpl. unfold h0. rewrite nxt_upd_next, prv_upd_next, prv_upd_prev by (rewrite ?(proj2 (upd_is_Some _ _ _ _)); done).
        by rewrite !decide_True by done.
    + intros i Hi. by apply Hd0, Hdom.
    + intros i Hi. lia.
    + by destruct s.
Qed.
End Ops.

(** ** A machine that starts with a given disk

    Thread 0 of process 0 runs on the kernel [b]; the cache is as the kernel is
    loaded, and the disk holds [img]. *)
Definition fs_boot (img : Z -> mem) (b : kstate) : kstate :=
  set_cur (Some 0%nat) (set_tcbs (<[0%nat := set_tproc (Some 0%nat) (tcbs b 0%nat)]> (tcbs b))
    (set_km one_free (set_image img (set_dwrites [] (set_bufs (fun _ => Buf 0 0 0 0 0 (fun _ => 0))
      (set_blinks (list_to_map ((fun l => (l, Node None None)) <$> BHead :: (BBuf <$> seq 0 (Z.to_nat NBUF)))) b)))))).

Lemma blinks_static x : x ∈ BHead :: (BBuf <$> seq 0 (Z.to_nat NBUF)) ->
  is_Some ((list_to_map ((fun l => (l, Node None None)) <$> BHead :: (BBuf <$> seq 0 (Z.to_nat NBUF))) : gmap bptr (list_head bptr)) !! x).
Proof.
  intros Hx. apply elem_of_dom. rewrite dom_list_to_map. apply elem_of_list_to_set. rewrite <- list_fmap_compose.
  by rewrite list_fmap_id.
Qed.

(** After binit the cache shows the disk. *)
Lemma fs_boot_cache img b tq : sched_inv b tq ∅ ->
  exists s, binit (fs_boot img b) = Done tt s /\ bcache_ok 0 ROOTDEV ∅ (fun _ => 0) img s /\ km s = one_free /\
    flog s = flog b /\ disk s = img /\ dwrites s = [].
Proof.
  intros Hi. assert (Hw : wp binit (fun _ s' => bcache_ok 0 ROOTDEV ∅ (fun _ => 0) (disk (fs_boot img b)) s' /\
    set_blinks (blinks (fs_boot img b)) (set_sleeplocks (sleeplocks (fs_boot img b)) s') = fs_boot img b) (fs_boot img b)).
  { apply (wp_binit 0 ROOTDEV tq); [|done|by exists 0%nat|].
    - eapply sched_inv_same; [exact Hi|done..|]. intros t. cbn [tcbs fs_boot set_cur set_tcbs].
      destruct (decide (t = 0%nat)) as [->|]; [by rewrite fn_lookup_insert|by rewrite fn_lookup_insert_ne].
    - split_and!; [done|apply blinks_static, elem_of_cons; by left|]. intros i Hi'. apply blinks_static, elem_of_cons. right.
      apply list_elem_of_fmap. exists i. split; [done|]. apply elem_of_seq. unfold is_buf in Hi'. lia. }
  assert (Hs : km (fs_boot img b) = one_free /\ flog (fs_boot img b) = flog b /\ disk (fs_boot img b) = img /\ dwrites (fs_boot img b) = []) by (split_and!; reflexivity).
  revert Hw Hs. generalize (fs_boot img b). intros s0 Hw (Hk & Hf & Hd & Hw0).
  destruct (proj1 (wp_done _ _ _) Hw) as ([] & s & Hrun & Hok & Hr). rewrite Hd in Hok. exists s.
  rewrite <- Hk, <- Hf, <- Hd, <- Hw0. split_and!; [done|by rewrite Hd|..].
  - by apply (f_equal km) in Hr.
  - by apply (f_equal flog) in Hr.
  - unfold disk. replace (dwrites s) with (dwrites s0) by by apply (f_equal dwrites) in Hr.
    by replace (image s) with (image s0) by by apply (f_equal image) in Hr.
  - by apply (f_equal dwrites) in Hr.
Qed.
