(* ===== verification/BlockdevSpec.v ===== *)
(** * The block device of lwext4 on the block cache

    blockdev_bread copies out the blocks as the cache sees them and
    blockdev_bwrite writes blocks through to the disk, whatever was cached. *)
From S2P Require Import Prelude Mem CString KTypes Kalloc Vm ListHead KState Queue Sched Signal Thread ThreadInv SchedSpec ProcBase Pipe Sync Bio BioSpec.

(** At least one buffer can be recycled, and no reference count is at its end. *)
Definition spare (rf : nat -> Z) : Prop :=
  (exists i, is_buf i /\ rf i = 0) /\ forall i, is_buf i -> rf i + 1 < 2 ^ 32.

(** The disk after writes that leave each block they touch as [v] says. *)
Lemma apply_writes_all ws (v d : Z -> mem) b :
  (forall b D, (b, D) ∈ ws -> v b = D) -> apply_writes ws d b = if decide (b ∈ ws.*1) then v b else d b.
Proof.
  revert d. induction ws as [|[b0 D0] ws IH]; intros d Hv; [done|].
  unfold apply_writes in *. cbn [foldl fst snd]. rewrite IH by (intros; apply Hv, elem_of_cons; by right).
  destruct (decide (b ∈ ws.*1)) as [Hin|Hni].
  - rewrite decide_True; [done|]. apply elem_of_cons. by right.
  - destruct (decide (b = b0)) as [->|Hne].
    + rewrite fn_lookup_insert, decide_True by (apply elem_of_cons; by left). symmetry. apply Hv, elem_of_cons. by left.
    + rewrite fn_lookup_insert_ne, decide_False; [done| |done]. rewrite fmap_cons, not_elem_of_cons. done.
Qed.

Section Clean.
Context (p : nat) (d : Z).
Implicit Types (lk : gset nat) (rf : nat -> Z) (vw : Z -> mem) (s : kstate).

Lemma bcache_ok_km lk rf vw m s :
  bcache_ok p d lk rf vw s -> held m = [] -> bcache_ok p d lk rf vw (set_km m s).
Proof.
  intros [[tq Hs] Hh Hrun Hlru Hlock Href Hl Hkey Hhit Hdirty] Hm. split; try done.
  exists tq. by apply sched_inv_km.
Qed.

(** A block whose buffer nobody referred to is as on the disk. *)
Lemma unreferenced_clean lk lk' rf rf' vw vw' bn i s s' :
  bcache_ok p d lk rf vw s -> bcache_ok p d lk' rf' vw' s' -> caches d s' bn i -> others_same i s s' ->
  rf i = 0 -> vw bn = disk s' bn.
Proof.
  intros Hok Hok' (Hi & Hd & Hb) (Ho & Hr & Hw) H0. rewrite (bio_rest_disk _ _ Hr Hw).
  destruct (bo_dirty _ _ _ _ _ _ Hok bn) as [|(j & Hj & Hv & Hn & Hrj)]; [done|]. exfalso.
  assert (Hne : j <> i) by congruence. apply Hne.
  apply (bo_key _ _ _ _ _ _ Hok'); [done|done| |done|].
  - rewrite Ho by done. by apply (bo_hit _ _ _ _ _ _ Hok).
  - rewrite Ho by done. congruence.
Qed.

(** Taking a reference and giving it back. *)
Lemma refs_back rf i k : pointwise_relation nat eq (<[i := <[i := rf i + k]> rf i - k]> (<[i := rf i + k]> rf)) rf.
Proof.
  intros j. destruct (decide (j = i)) as [->|Hj]; [rewrite !fn_lookup_insert; lia|by rewrite !fn_lookup_insert_ne].
Qed.
End Clean.

Section Blockdev.
Context (swtch : nat -> E kstate unit) (fuel : nat) (p : nat).
Abbreviation ok := (bcache_ok p ROOTDEV ∅).
Implicit Types (rf : nat -> Z) (vw : Z -> mem) (s : kstate).

(** The byte [a] of the blocks from [blk] on. *)
Definition block_byte (vw : Z -> mem) (blk a : Z) : Z := vw (blk + a / BSIZE) (a mod BSIZE).

Lemma block_byte_first vw blk a : 0 <= a < BSIZE -> block_byte vw blk a = vw blk a.
Proof. intros Ha. unfold block_byte. by rewrite Z.div_small, Z.mod_small, Z.add_0_r by lia. Qed.

Lemma block_byte_next vw blk a : block_byte vw blk (a + BSIZE) = block_byte vw (blk + 1) a.
Proof.
  unfold block_byte. replace (a + BSIZE) with (a + 1 * BSIZE) by lia.
  rewrite Z.div_add, Z.mod_add by done. f_equal. lia.
Qed.

Lemma wp_blockdev_bread_loop rf vw n : forall bp blk s,
  ok rf vw s -> spare rf -> 0 <= blk -> blk + Z.of_nat n <= 2 ^ 32 ->
  wp (blockdev_bread_loop swtch fuel n bp blk) (fun _ s' =>
    ok rf vw s' /\ bio_rest s (set_km (km s) s') /\ dwrites s' = dwrites s /\
    forall a, mmem (km s') a =
      if (bp <=? a) && (a <? bp + BSIZE * Z.of_nat n) then block_byte vw blk (a - bp) else mmem (km s) a) s.
Proof.
  induction n as [|n IH]; intros bp blk s Hok [Hsp Hrf] H0 H1.
  { apply wp_ret. split_and!; [done|by destruct s|done|]. intros a.
    destruct (Z.leb_spec bp a), (Z.ltb_spec a (bp + BSIZE * Z.of_nat 0)); simpl; try done. lia. }
  cbn [blockdev_bread_loop]. rewrite (wrap_small 32) by lia. apply wp_bind.
  eapply (wp_bread swtch fuel p ROOTDEV ∅ rf vw); [done|set_solver|done|by right|].
  intros i s1 Hok1 Hni Hca Hv Hcase Ho. pose proof Hca as (Hi & Hd & Hb).
  destruct (bo_hit _ _ _ _ _ _ Hok1 i Hi Hv) as [_ Hda]. rewrite Hb in Hda.
  pose proof Ho as (Hbo & Hr1 & Hw1). pose proof (bio_rest_fields _ _ Hr1) as (Hk1 & _).
  apply wp_bind, wp_gets, wp_bind, wp_zoom, wp_modify. cbn beta. rewrite Hda. set (s2 := set_km _ s1).
  assert (Hok2 : bcache_ok p ROOTDEV ({[i]} ∪ ∅) (<[i := rf i + 1]> rf) vw s2).
  { apply bcache_ok_km; [done|]. by apply (bo_held _ _ _ _ _ _ Hok1). }
  apply wp_bind. eapply (wp_brelse p ROOTDEV); [exact Hok2|set_solver| |].
  { rewrite fn_lookup_insert. intros Hz _. cbn [s2 bufs set_km]. rewrite Hb. change (disk s2) with (disk s1).
    eapply (unreferenced_clean p ROOTDEV); [exact Hok|exact Hok1|done|done|lia]. }
  intros s3 Hok3 _ (Hbo3 & Hr3 & Hw3). rewrite refs_back in Hok3.
  replace (({[i]} ∪ ∅) ∖ {[i]} : gset nat) with (∅ : gset nat) in Hok3 by set_solver.
  pose proof (bio_rest_fields _ _ Hr3) as (Hk3 & _).
  eapply wp_mono; [apply (IH (bp + BSIZE) (blk + 1)); [done|done|lia|lia]|]. cbn beta.
  intros _ s4 (Hok4 & Hr4 & Hw4 & Hm4). split_and!; [done| | |].
  - etransitivity; [exact Hr1|]. replace s1 with (set_km (km s) s1) by (rewrite <- Hk1; by destruct s1).
    etransitivity; [exact (bio_rest_km (km s) _ _ Hr3)|]. exact (bio_rest_km (km s) _ _ Hr4).
  - by rewrite Hw4, Hw3.
  - intros a. rewrite Hm4, Hk3. cbn [s2 km set_km set_mmem mmem]. unfold data_to_mem. rewrite Hk1.
    destruct (Z.leb_spec (bp + BSIZE) a), (Z.ltb_spec a (bp + BSIZE + BSIZE * Z.of_nat n)),
      (Z.leb_spec bp a), (Z.ltb_spec a (bp + BSIZE)), (Z.ltb_spec a (bp + BSIZE * Z.of_nat (S n))); cbn [andb]; try (unfold BSIZE in *; lia); try done.
    + rewrite <- block_byte_next. f_equal. lia.
    + rewrite block_byte_first by lia. done.
Qed.

(** One block: whatever its buffer held, the block is now what was stored. *)
Lemma wp_write_block {A} rf vw bn bp (K : E kstate A) (Q : A -> kstate -> Prop) s :
  ok rf vw s -> spare rf ->
  (forall s' d0, let D := mem_to_data (mmem (km s)) bp d0 in
     ok rf (<[bn := D]> vw) s' -> bio_rest s s' -> dwrites s' = dwrites s ++ [(bn, D)] -> wp K Q s') ->
  wp (i ← bget swtch fuel ROOTDEV bn; m ← gets (fun s => mmem (km s));
      upd_buf i (fun b => set_bdata (mem_to_data m bp (bdata b)) b);; bwrite i;; brelse i;; K) Q s.
Proof.
  intros Hok [Hsp Hrf] HQ. apply wp_bind.
  eapply (wp_bget swtch fuel p ROOTDEV ∅ rf vw); [done|set_solver|done|by right|].
  intros i s1 Hok1 _ Hca _ (_ & Hr1 & Hw1). pose proof Hca as (Hi & Hd & Hb).
  pose proof (bio_rest_fields _ _ Hr1) as (Hk1 & _). apply wp_bind, wp_gets, wp_bind, wp_modify. cbn beta. rewrite Hk1.
  set (D' := mem_to_data _ _ _). set (s2 := set_bufs _ s1). set (lk := {[i]} ∪ ∅ : gset nat). set (rf1 := <[i := rf i + 1]> rf).
  assert (Hb2 : bufs s2 i = set_bdata D' (bufs s1 i)) by apply fn_lookup_insert.
  assert (Hok2 : exists vw2, bcache_ok p ROOTDEV lk rf1 vw2 s2 /\ pointwise_relation Z eq (<[bn := D']> vw2) (<[bn := D']> vw)).
  { destruct (Z.eq_dec (bvalid (bufs s1 i)) 0) as [Hz|Hnz].
    - exists vw. split; [|done]. by eapply bcache_ok_data_invalid.
    - exists (<[bn := D']> vw). split; [rewrite <- Hb; apply bcache_ok_data; [done|set_solver|done]|].
      intros n. destruct (decide (n = bn)) as [->|]; [by rewrite !fn_lookup_insert|by rewrite !fn_lookup_insert_ne]. }
  destruct Hok2 as (vw2 & Hok2 & Hvw).
  apply wp_bind. eapply (wp_bwrite p ROOTDEV lk); [exact Hok2|set_solver|].
  rewrite Hb2. cbn [blockno bdata set_bdata]. rewrite Hb. intros s3 Hok3 Hb3 Hr3 Hw3. rewrite Hvw in Hok3.
  apply wp_bind. eapply (wp_brelse p ROOTDEV lk); [exact Hok3|set_solver| |].
  { intros _ _. rewrite Hb3, Hb2. cbn [blockno set_bdata]. rewrite Hb, fn_lookup_insert.
    unfold disk. rewrite Hw3. unfold apply_writes. rewrite foldl_app. simpl. by rewrite fn_lookup_insert. }
  intros s4 Hok4 _ (_ & Hr4 & Hw4). unfold rf1 in Hok4. rewrite refs_back in Hok4.
  replace (lk ∖ {[i]}) with (∅ : gset nat) in Hok4 by set_solver.
  apply (HQ s4 (bdata (bufs s1 i))); [done| |].
  - etransitivity; [exact Hr1|]. etransitivity; [|exact Hr4]. etransitivity; [|exact Hr3]. by destruct s1.
  - by rewrite Hw4, Hw3, <- Hw1.
Qed.

(** The blocks [blk], ..., [blk + n - 1] hold the bytes of [m] from [bp] on. *)
Definition blocks_hold (n : nat) (m : mem) (bp blk : Z) (vw : Z -> mem) : Prop :=
  forall a, 0 <= a < BSIZE * Z.of_nat n -> block_byte vw blk a = m (bp + a).

Lemma wp_blockdev_bwrite_loop rf n : forall bp blk vw s,
  ok rf vw s -> spare rf -> 0 <= blk -> blk + Z.of_nat n <= 2 ^ 32 ->
  wp (blockdev_bwrite_loop swtch fuel n bp blk) (fun _ s' => exists vw' ws,
    ok rf vw' s' /\ bio_rest s s' /\ blocks_hold n (mmem (km s)) bp blk vw' /\
    (forall b, b < blk \/ blk + Z.of_nat n <= b -> vw' b = vw b) /\
    dwrites s' = dwrites s ++ ws /\ ws.*1 = (fun k => blk + Z.of_nat k) <$> seq 0 n /\
    forall b D, (b, D) ∈ ws -> vw' b = D) s.
Proof.
  induction n as [|n IH]; intros bp blk vw s Hok Hsp H0 H1.
  { apply wp_ret. exists vw, []. split_and!; try done.
    - intros a Ha. lia.
    - by rewrite app_nil_r.
    - intros b D Hin. by apply not_elem_of_nil in Hin. }
  cbn [blockdev_bwrite_loop]. rewrite (wrap_small 32) by lia.
  eapply wp_write_block; [done..|]. intros s1 d0 D'. set (m := mmem (km s)) in *.
  intros Hok1 Hr1 Hw1. pose proof (bio_rest_fields _ _ Hr1) as (Hk1 & _).
  eapply wp_mono; [apply (IH (bp + BSIZE) (blk + 1)); [exact Hok1|done|lia|lia]|]. cbn beta.
  intros _ s2 (vw' & ws & Hok2 & Hr2 & Hh2 & Ho2 & Hw2 & Hf2 & Hv2). rewrite Hk1 in Hh2. fold m in Hh2.
  assert (HD' : vw' blk = D') by (rewrite Ho2 by lia; apply fn_lookup_insert).
  exists vw', ((blk, D') :: ws). split_and!.
  - done.
  - by etransitivity.
  - intros a Ha. destruct (Z_lt_le_dec a BSIZE) as [Hlt|Hge].
    + rewrite block_byte_first by lia. rewrite HD'. unfold D', mem_to_data.
      by destruct (Z.leb_spec 0 a), (Z.ltb_spec a BSIZE); try lia.
    + replace a with (a - BSIZE + BSIZE) at 1 by lia. rewrite block_byte_next, Hh2 by lia. f_equal. lia.
  - intros b Hb. rewrite Ho2 by lia. apply fn_lookup_insert_ne. lia.
  - by rewrite Hw2, Hw1, <- app_assoc.
  - rewrite fmap_cons, Hf2. cbn [seq fmap list_fmap fst]. f_equal; [lia|]. rewrite <- fmap_S_seq, <- list_fmap_compose.
    apply list_fmap_ext. intros _ k _. simpl. lia.
  - intros b D [[= -> ->]|Hin]%elem_of_cons; [done|by apply Hv2].
Qed.

End Blockdev.

