(* ===== verification/Log.v ===== *)
(** * kernel/fs/log.c: the write-ahead log

    The struct log is [flog s].  The header block holds the number of logged
    blocks and their numbers as 32-bit little-endian integers; block [i] of the
    log is the disk block [start + 1 + i].  Copying the data of a buffer copies
    all of it. *)
From S2P Require Import Prelude Mem CString KTypes Kalloc Vm ListHead KState Queue Sched Signal Thread ProcBase Sync Bio.
Definition LOGSIZE : Z := MAXOPBLOCKS * 3.

Definition get_log : E kstate xlog := gets flog.
Definition upd_log (f : xlog -> xlog) : E kstate unit := modify (fun s => set_flog (f (flog s)) s).

(** ** struct logheader in a block *)

Definition hdr_n (D : mem) : Z := i32 (load D 0 4).
Definition hdr_block (D : mem) (i : Z) : Z := i32 (load D (4 + 4 * i) 4).
Definition hdr_set_n (n : Z) (D : mem) : mem := store D 0 4 n.
Definition hdr_set_block (i v : Z) (D : mem) : mem := store D (4 + 4 * i) 4 v.

(** lh.block[i]; past the end of the array there is nothing to access. *)
Definition lh_block (i : Z) : E kstate Z :=
  l ← get_log;
  if (0 <=? i) && (i <? LOGSIZE) then mret (lhblock l i) else fault.
Definition set_lh_block (i v : Z) : E kstate unit :=
  if (0 <=? i) && (i <? LOGSIZE) then upd_log (fun l => set_lhblock (<[i := v]> (lhblock l)) l) else fault.

Section Log.
(** The switch to the scheduler, and a bound on the number of sleeps of a
    caller; whether the kernel is built with __USE_XV6FS. *)
Context (swtch : nat -> E kstate unit) (fuel : nat) (USE_XV6FS : bool).

(** The block [i] of the log. *)
Definition read_log_block (i : Z) : E kstate nat :=
  l ← get_log;
  bread swtch fuel (u32 (ldev l)) (u32 (lstart l + i + 1)).
(** The home of the block [i] of the transaction. *)
Definition read_home_block (i : Z) : E kstate nat :=
  l ← get_log;
  b ← lh_block i;
  bread swtch fuel (u32 (ldev l)) (u32 b).

(** memmove(dst->data, src->data, BSIZE) *)
Definition copy_data (dst src : nat) : E kstate unit :=
  b ← get_buf src;
  upd_buf dst (set_bdata (bdata b)).

(** for (tail = 0; tail < log.lh.n; tail++): [n] is what is left of the bound
    lh.n, which the body does not change. *)
Fixpoint for_tail (n : nat) (tail : Z) (body : Z -> E kstate unit) : E kstate unit :=
  l ← get_log;
  if tail <? lhn l then
    match n with
    | O => nofuel
    | S n => body tail;; for_tail n (tail + 1) body
    end
  else mret tt.
Definition for_logged (body : Z -> E kstate unit) : E kstate unit :=
  l ← get_log;
  for_tail (Z.to_nat (lhn l)) 0 body.

Definition install_one (recovering : bool) (tail : Z) : E kstate unit :=
  lbuf ← read_log_block tail;
  dbuf ← read_home_block tail;
  copy_data dbuf lbuf;;
  bwrite dbuf;;
  (if recovering then mret tt else bunpin dbuf);;
  brelse lbuf;;
  brelse dbuf.
Definition install_trans (recovering : bool) : E kstate unit := for_logged (install_one recovering).

Definition read_head : E kstate unit :=
  l ← get_log;
  i ← bread swtch fuel (u32 (ldev l)) (u32 (lstart l));
  b ← get_buf i;
  upd_log (set_lhn (hdr_n (bdata b)));;
  for_logged (fun k => b ← get_buf i; set_lh_block k (hdr_block (bdata b) k));;
  brelse i.

Definition write_head : E kstate unit :=
  l ← get_log;
  i ← bread swtch fuel (u32 (ldev l)) (u32 (lstart l));
  upd_buf i (fun b => set_bdata (hdr_set_n (lhn l) (bdata b)) b);;
  for_logged (fun k => v ← lh_block k; upd_buf i (fun b => set_bdata (hdr_set_block k v (bdata b)) b));;
  bwrite i;;
  brelse i.

Definition recover_from_log : E kstate unit :=
  read_head;;
  install_trans true;;
  upd_log (set_lhn 0);;
  write_head.

(** The fields logstart and nlog of the superblock, if there is one. *)
Definition initlog (dev : Z) (sb : option (Z * Z)) : E kstate unit :=
  panic_if (BSIZE <=? 4 + 4 * LOGSIZE) "initlog: too big logheader";;
  initlock L_log;;
  match sb with
  | None => panic "initlog: no sb"
  | Some (logstart, nlog) =>
    upd_log (fun l => set_ldev dev (set_lsize (i32 nlog) (set_lstart (i32 logstart) l)));;
    recover_from_log
  end.

Definition write_log_one (tail : Z) : E kstate unit :=
  to ← read_log_block tail;
  from ← read_home_block tail;
  copy_data to from;;
  bwrite to;;
  brelse from;;
  brelse to.
Definition write_log : E kstate unit := for_logged write_log_one.

Definition commit : E kstate unit :=
  l ← get_log;
  if 0 <? lhn l then
    write_log;;
    write_head;;
    install_trans false;;
    upd_log (set_lhn 0);;
    write_head
  else mret tt.

(** The index of the first logged block with this number, or lh.n. *)
Fixpoint log_find (n : nat) (i bno : Z) : E kstate Z :=
  l ← get_log;
  if i <? lhn l then
    match n with
    | O => nofuel
    | S n => v ← lh_block i; if u32 v =? bno then mret i else log_find n (i + 1) bno
    end
  else mret i.

Definition log_write (b : nat) : E kstate unit :=
  acquire L_log;;
  l ← get_log;
  panic_if ((LOGSIZE <=? lhn l) || (lsize l - 1 <=? lhn l)) "too big a transaction";;
  panic_if (outstanding l <? 1) "log_write outside of trans";;
  r ← get_buf b;
  i ← log_find (Z.to_nat (lhn l)) 0 (blockno r);
  set_lh_block i (i32 (blockno r));;
  (if i =? lhn l then bpin b;; upd_log (fun l => set_lhn (i32 (lhn l + 1)) l) else mret tt);;
  release L_log.

(** while (1): each turn sleeps or returns. *)
Fixpoint begin_op_loop (n : nat) : E kstate unit :=
  l ← get_log;
  if negb (committing l =? 0) || (LOGSIZE <? lhn l + (outstanding l + 1) * MAXOPBLOCKS) then
    match n with
    | O => nofuel
    | S n => thread_sleep swtch ChLog L_log None;; begin_op_loop n
    end
  else
    upd_log (fun l => set_outstanding (i32 (outstanding l + 1)) l);;
    release L_log.

Definition begin_op : E kstate unit :=
  if negb USE_XV6FS then mret tt
  else acquire L_log;; begin_op_loop fuel.

Definition end_op : E kstate unit :=
  if negb USE_XV6FS then mret tt
  else
    acquire L_log;;
    upd_log (fun l => set_outstanding (i32 (outstanding l - 1)) l);;
    l ← get_log;
    panic_if (negb (committing l =? 0)) "log.committing";;
    do_commit ← (if outstanding l =? 0 then upd_log (set_committing 1);; mret true
                 else thread_wakeup_chan ChLog;; mret false);
    release L_log;;
    if (do_commit : bool) then
      commit;;
      acquire L_log;;
      upd_log (set_committing 0);;
      thread_wakeup_chan ChLog;;
      release L_log
    else mret tt.
End Log.

(** * The log as a disk format

    What a crash leaves and what recovery makes of it, on disk contents alone:
    [recovered st D] is the disk [D] with the logged blocks installed.  The
    writes of a commit are such that after any prefix of them recovery gives
    the old or the new contents. *)

(** The header with the block numbers [L]. *)
Fixpoint hdr_put (i : Z) (L : list Z) (D : mem) : mem :=
  match L with
  | [] => D
  | b :: L => hdr_put (i + 1) L (hdr_set_block i b D)
  end.
Definition header (L : list Z) (D : mem) : mem := hdr_put 0 L (hdr_set_n (Z.of_nat (length L)) D).

(** Numbers the header can hold. *)
Definition is_int (b : Z) : Prop := 0 <= b < 2 ^ 31.

Lemma i32_load_store D a v : is_int v -> i32 (load (store D a 4 v) a 4) = v.
Proof.
  unfold is_int. intros Hv. rewrite load_store_same. rewrite Z.mod_small by (simpl; lia). apply sint_small; simpl; lia.
Qed.

Lemma hdr_put_n i L D : 0 <= i -> hdr_n (hdr_put i L D) = hdr_n D.
Proof.
  revert i D. induction L as [|b L IH]; intros i D Hi; [done|]. simpl. rewrite IH by lia.
  unfold hdr_n, hdr_set_block. by rewrite load_store_other by lia.
Qed.

Lemma hdr_put_before i L D k : k < i -> hdr_block (hdr_put i L D) k = hdr_block D k.
Proof.
  revert i D. induction L as [|b L IH]; intros i D Hk; [done|]. simpl. rewrite IH by lia.
  unfold hdr_block, hdr_set_block. by rewrite load_store_other by lia.
Qed.

Lemma hdr_put_block i L D k b : L !! k = Some b -> is_int b -> hdr_block (hdr_put i L D) (i + Z.of_nat k) = b.
Proof.
  revert i D k. induction L as [|b' L IH]; intros i D k Hk Hb; [done|]. destruct k as [|k]; simpl in Hk.
  - injection Hk as ->. simpl. rewrite hdr_put_before by lia. change (Z.of_nat 0) with 0. rewrite Z.add_0_r.
    unfold hdr_block, hdr_set_block. by apply i32_load_store.
  - simpl. replace (i + Z.of_nat (S k)) with (i + 1 + Z.of_nat k) by lia. by apply IH.
Qed.

Lemma header_n L D : is_int (Z.of_nat (length L)) -> hdr_n (header L D) = Z.of_nat (length L).
Proof. intros HL. unfold header. rewrite hdr_put_n by lia. unfold hdr_n, hdr_set_n. by apply i32_load_store. Qed.

Lemma header_block L D k b : L !! k = Some b -> is_int b -> hdr_block (header L D) (Z.of_nat k) = b.
Proof. intros Hk Hb. unfold header. rewrite <- (Z.add_0_l (Z.of_nat k)). by apply hdr_put_block. Qed.

(** ** Writes *)

Lemma apply_writes_app ws1 ws2 D : apply_writes (ws1 ++ ws2) D = apply_writes ws2 (apply_writes ws1 D).
Proof. unfold apply_writes. by rewrite foldl_app. Qed.

Lemma apply_writes_out ws D b : b ∉ ws.*1 -> apply_writes ws D b = D b.
Proof.
  revert D. induction ws as [|[b0 D0] ws IH]; intros D Hb; [done|]. rewrite fmap_cons, not_elem_of_cons in Hb.
  destruct Hb as [Hne Hb]. change (apply_writes ws (<[b0 := D0]> D) b = D b). rewrite IH by done. by apply fn_lookup_insert_ne.
Qed.

(** Where a block is written once. *)
Lemma apply_writes_in ws D k b X : NoDup ws.*1 -> ws !! k = Some (b, X) -> apply_writes ws D b = X.
Proof.
  revert D k. induction ws as [|[b0 D0] ws IH]; intros D k Hnd Hk; [done|]. rewrite fmap_cons in Hnd.
  apply NoDup_cons in Hnd as [Hni Hnd]. change (apply_writes ws (<[b0 := D0]> D) b = X). destruct k as [|k].
  - injection Hk as -> ->. rewrite apply_writes_out by done. apply fn_lookup_insert.
  - by apply (IH _ k).
Qed.

Lemma apply_writes_ext ws D D' b : D b = D' b -> apply_writes ws D b = apply_writes ws D' b.
Proof.
  revert D D'. induction ws as [|[b0 D0] ws IH]; intros D D' Hb; [done|].
  change (apply_writes ws (<[b0 := D0]> D) b = apply_writes ws (<[b0 := D0]> D') b). apply IH.
  destruct (decide (b = b0)) as [->|]; [by rewrite !fn_lookup_insert|by rewrite !fn_lookup_insert_ne].
Qed.

(** ** Recovery *)

Section Disk.
Context (st : Z).
Implicit Types (D v : Z -> mem) (L : list Z) (b : Z).

(** The numbers in a header. *)
Definition hdr_list (H : mem) : list Z := (fun k => hdr_block H (Z.of_nat k)) <$> seq 0 (Z.to_nat (hdr_n H)).

(** The writes that install the blocks of the log at their homes [L]. *)
Definition install_writes (L : list Z) (i : Z) (D : Z -> mem) : list (Z * mem) :=
  imap (fun k b => (b, D (st + (i + Z.of_nat k) + 1))) L.
Definition recovered (D : Z -> mem) : Z -> mem := apply_writes (install_writes (hdr_list (D st)) 0 D) D.

(** The writes that log the blocks [L] of [v]. *)
Definition log_writes (L : list Z) (i : Z) (v : Z -> mem) : list (Z * mem) :=
  imap (fun k b => (st + (i + Z.of_nat k) + 1, v b)) L.

(** The blocks of the log: the header and its LOGSIZE blocks. *)
Definition in_log (b : Z) : Prop := st <= b <= st + LOGSIZE.

(** Blocks a transaction can have. *)
Definition loggable (L : list Z) : Prop :=
  NoDup L /\ Z.of_nat (length L) <= LOGSIZE /\ forall b, b ∈ L -> is_int b /\ ~ in_log b.

(** A header recovery can work with. *)
Definition hdr_ok (H : mem) : Prop := hdr_n H = Z.of_nat (length (hdr_list H)) /\ loggable (hdr_list H).

Lemma hdr_ok_zero H : hdr_n H = 0 -> hdr_ok H.
Proof.
  intros H0. unfold hdr_ok, hdr_list. rewrite H0. split; [done|]. split_and!; [apply NoDup_nil_2|done|].
  intros b Hb. by apply not_elem_of_nil in Hb.
Qed.

Lemma hdr_list_header L X : loggable L -> hdr_list (header L X) = L.
Proof.
  intros (_ & Hlen & HL). unfold hdr_list. rewrite header_n by (unfold is_int, LOGSIZE, MAXOPBLOCKS in *; lia).
  rewrite Nat2Z.id. apply list_eq. intros k. rewrite list_lookup_fmap. destruct (decide (k < length L)%nat) as [Hk|Hk].
  - rewrite lookup_seq_lt by done. simpl. destruct (lookup_lt_is_Some_2 L k Hk) as [b Hb]. rewrite Hb. f_equal.
    apply header_block; [done|]. by apply HL, (list_elem_of_lookup_2 _ k).
  - rewrite lookup_seq_ge by lia. simpl. symmetry. apply lookup_ge_None. lia.
Qed.

Lemma hdr_ok_header L X : loggable L -> hdr_ok (header L X).
Proof.
  intros HL. unfold hdr_ok. rewrite hdr_list_header by done. split; [|done]. destruct HL as (_ & Hlen & _).
  apply header_n. unfold is_int, LOGSIZE, MAXOPBLOCKS in *. lia.
Qed.

Lemma install_writes_dom L i D : (install_writes L i D).*1 = L.
Proof.
  unfold install_writes. apply list_eq. intros k. rewrite list_lookup_fmap, list_lookup_imap. by destruct (L !! k).
Qed.

Lemma log_writes_dom L i v : (log_writes L i v).*1 = (fun k => st + (i + Z.of_nat k) + 1) <$> seq 0 (length L).
Proof.
  unfold log_writes. apply list_eq. intros k. rewrite !list_lookup_fmap, list_lookup_imap.
  destruct (decide (k < length L)%nat) as [Hk|Hk].
  - rewrite lookup_seq_lt by done. by destruct (lookup_lt_is_Some_2 L k Hk) as [b ->].
  - rewrite lookup_seq_ge by lia. by rewrite (proj2 (lookup_ge_None L k)) by lia.
Qed.

Lemma log_writes_nodup L i v : NoDup (log_writes L i v).*1.
Proof.
  rewrite log_writes_dom. apply NoDup_fmap_2_strong; [|apply NoDup_seq]. intros x y _ _ Hxy. lia.
Qed.

Lemma log_writes_in_log L v b : Z.of_nat (length L) <= LOGSIZE -> b ∈ (log_writes L 0 v).*1 -> in_log b /\ b <> st.
Proof.
  intros HL. rewrite log_writes_dom, list_elem_of_fmap. intros (k & -> & Hk%elem_of_seq). unfold in_log. lia.
Qed.

(** With an empty header nothing is installed. *)
Lemma recovered_empty D b : hdr_n (D st) = 0 -> recovered D b = D b.
Proof. intros H. unfold recovered, hdr_list. by rewrite H. Qed.

(** The block a committed transaction has, and the others. *)
Lemma recovered_in D L k b : hdr_list (D st) = L -> NoDup L -> L !! k = Some b ->
  recovered D b = D (st + Z.of_nat k + 1).
Proof.
  intros HL Hnd Hk. unfold recovered. rewrite HL. eapply (apply_writes_in _ _ k).
  - by rewrite install_writes_dom.
  - unfold install_writes. rewrite list_lookup_imap, Hk. simpl. do 2 f_equal.
Qed.

Lemma recovered_out D L b : hdr_list (D st) = L -> b ∉ L -> recovered D b = D b.
Proof. intros HL Hb. unfold recovered. rewrite HL. apply apply_writes_out. by rewrite install_writes_dom. Qed.

(** The outcome of recovery depends on the log and on the blocks it does not
    install: disks that agree there are recovered alike. *)
Lemma recovered_agree D D' L : hdr_list (D st) = L -> NoDup L -> Z.of_nat (length L) <= LOGSIZE ->
  (forall b, in_log b -> D' b = D b) -> (forall b, b ∉ L -> D' b = D b) ->
  forall b, recovered D' b = recovered D b.
Proof.
  intros HL Hnd Hlen Hlog Hout b.
  assert (HL' : hdr_list (D' st) = L) by (rewrite Hlog by (unfold in_log, LOGSIZE, MAXOPBLOCKS; lia); done).
  destruct (decide (b ∈ L)) as [Hin|Hni].
  - apply list_elem_of_lookup in Hin as [k Hk]. rewrite !(recovered_in _ L k) by done. apply Hlog.
    apply lookup_lt_Some in Hk. unfold in_log. lia.
  - rewrite !(recovered_out _ L) by done. by apply Hout.
Qed.

(** ** Crashes *)

(** The writes of a commit and of a recovery, [H0] being the header block. *)
Definition home_writes (L : list Z) (v : Z -> mem) : list (Z * mem) := (fun b => (b, v b)) <$> L.
Definition commit_writes (L : list Z) (v : Z -> mem) : list (Z * mem) :=
  log_writes L 0 v ++ [(st, header L (v st))] ++ home_writes L v ++ [(st, header [] (header L (v st)))].
Definition recover_writes (D : Z -> mem) : list (Z * mem) :=
  install_writes (hdr_list (D st)) 0 D ++ [(st, header [] (D st))].

Lemma home_writes_dom L v : (home_writes L v).*1 = L.
Proof. unfold home_writes. rewrite <- list_fmap_compose. by rewrite list_fmap_id. Qed.

Lemma hdr_n_empty X : hdr_n (header [] X) = 0.
Proof. by rewrite header_n. Qed.

Lemma in_log_st : in_log st.
Proof. unfold in_log, LOGSIZE, MAXOPBLOCKS. lia. Qed.

Lemma take_dom {A} k (ws : list (Z * A)) b : b ∈ (take k ws).*1 -> b ∈ ws.*1.
Proof. rewrite !list_elem_of_fmap. intros (x & -> & Hx). exists x. split; [done|]. by eapply elem_of_take in Hx as (? & ? & _); eapply list_elem_of_lookup_2. Qed.

(** Before the header is written the disk recovers to what it was. *)
Lemma crash_before L D v k b :
  loggable L -> hdr_n (D st) = 0 -> ~ in_log b ->
  recovered (apply_writes (take k (log_writes L 0 v)) D) b = D b.
Proof.
  intros (_ & Hlen & _) H0 Hb. rewrite recovered_empty.
  - apply apply_writes_out. intros Hin%take_dom. by apply log_writes_in_log in Hin as [? _].
  - rewrite apply_writes_out; [done|]. intros Hin%take_dom. by apply log_writes_in_log in Hin as [_ ?].
Qed.

(** Once it is written, it recovers to the new contents. *)
Lemma crash_after L D v k b :
  loggable L -> (forall b, b ∉ L -> ~ in_log b -> v b = D b) -> ~ in_log b ->
  let D' := apply_writes (take k (home_writes L v)) (apply_writes (log_writes L 0 v ++ [(st, header L (v st))]) D) in
  D' st = header L (v st) /\ recovered D' b = v b.
Proof.
  intros HL Hv Hb D'. pose proof HL as (Hnd & Hlen & Hin).
  assert (Hlogged : forall x, in_log x -> D' x = apply_writes (log_writes L 0 v ++ [(st, header L (v st))]) D x).
  { intros x Hx. apply apply_writes_out. intros Hx'%take_dom. rewrite home_writes_dom in Hx'. by apply Hin in Hx' as [_ ?]. }
  assert (Hst : D' st = header L (v st)).
  { rewrite Hlogged by apply in_log_st. rewrite apply_writes_app. apply fn_lookup_insert. }
  assert (HL' : hdr_list (D' st) = L) by (rewrite Hst; by apply hdr_list_header).
  split; [done|]. destruct (decide (b ∈ L)) as [HbL|HbL].
  - apply list_elem_of_lookup in HbL as [j Hj]. pose proof (lookup_lt_Some _ _ _ Hj).
    rewrite (recovered_in _ L j) by done. rewrite Hlogged by (unfold in_log; lia).
    rewrite apply_writes_app. change (apply_writes [(st, header L (v st))]) with (fun d : Z -> mem => <[st := header L (v st)]> d). cbn beta.
    rewrite fn_lookup_insert_ne by lia. eapply (apply_writes_in _ _ j); [apply log_writes_nodup|].
    unfold log_writes. rewrite list_lookup_imap, Hj. simpl. done.
  - rewrite (recovered_out _ L) by done. unfold D'. rewrite apply_writes_out, apply_writes_out.
    + symmetry. by apply Hv.
    + rewrite fmap_app, elem_of_app. intros [Hx|Hx].
      * by apply log_writes_in_log in Hx as [? _].
      * apply list_elem_of_singleton in Hx. simpl in Hx. subst b. by apply Hb, in_log_st.
    + intros Hx%take_dom. by rewrite home_writes_dom in Hx.
Qed.

(** The crash theorem for the writes of a commit. *)
Lemma commit_writes_atomic L D v k :
  loggable L -> hdr_n (D st) = 0 -> (forall b, b ∉ L -> ~ in_log b -> v b = D b) ->
  let D' := apply_writes (take k (commit_writes L v)) D in
  hdr_ok (D' st) /\
  forall b, ~ in_log b -> recovered D' b = if decide (k <= length L)%nat then D b else v b.
Proof.
  intros HL H0 Hv D'. pose proof HL as (Hnd & Hlen & Hin).
  assert (Hll : length (log_writes L 0 v) = length L) by apply length_imap.
  assert (Hlh : length (home_writes L v) = length L) by apply length_fmap.
  unfold D', commit_writes. destruct (decide (k <= length L)%nat) as [Hk|Hk].
  { rewrite take_app_le by lia. split; [|intros b Hb; by apply crash_before].
    apply hdr_ok_zero. rewrite apply_writes_out; [done|]. intros Hx%take_dom. by apply log_writes_in_log in Hx as [_ ?]. }
  rewrite app_assoc, take_app_ge by (rewrite length_app; simpl; lia). rewrite length_app, Hll. cbn [length].
  set (j := (k - (length L + 1))%nat). destruct (decide (j <= length L)%nat) as [Hj|Hj].
  - rewrite (take_app_le (home_writes L v)) by lia. rewrite apply_writes_app.
    split; [|intros b Hb; by apply crash_after].
    destruct (crash_after L D v j (st - 1) HL Hv) as [Hl _]; [unfold in_log; lia|]. rewrite Hl. by apply hdr_ok_header.
  - rewrite (take_app_ge (home_writes L v)), Hlh, take_ge by (simpl; lia). rewrite app_assoc, apply_writes_app.
    set (D2 := apply_writes _ D). set (D3 := apply_writes [(st, header [] (header L (v st)))] D2). assert (HD3 : D3 = <[st := header [] (header L (v st))]> D2) by done. clearbody D3. subst D3.
    split; [apply hdr_ok_zero; rewrite fn_lookup_insert; apply hdr_n_empty|]. intros b Hb.
    assert (b <> st) by (intros ->; by apply Hb, in_log_st).
    rewrite recovered_empty by (rewrite fn_lookup_insert; apply hdr_n_empty).
    rewrite fn_lookup_insert_ne by done. unfold D2. rewrite apply_writes_app. destruct (decide (b ∈ L)) as [HbL|HbL].
    + apply list_elem_of_lookup in HbL as [i Hi]. eapply (apply_writes_in _ _ i); [by rewrite home_writes_dom|].
      unfold home_writes. by rewrite list_lookup_fmap, Hi.
    + rewrite apply_writes_out, apply_writes_out; [symmetry; by apply Hv| |by rewrite home_writes_dom].
      rewrite fmap_app, elem_of_app. intros [Hx|Hx]; [by apply log_writes_in_log in Hx as [? _]|].
      by apply list_elem_of_singleton in Hx.
Qed.

(** The disk recovery leaves. *)
Lemma recover_writes_result D D' :
  (forall b, D' b = apply_writes (recover_writes D) D b) ->
  hdr_n (D' st) = 0 /\ forall b, ~ in_log b -> D' b = recovered D b.
Proof.
  intros HD. assert (Hins : forall b, D' b = (<[st := header [] (D st)]> (recovered D) : Z -> mem) b).
  { intros b. rewrite HD. unfold recover_writes. by rewrite apply_writes_app. }
  split; [rewrite Hins, fn_lookup_insert; apply hdr_n_empty|].
  intros b Hb. rewrite Hins. apply fn_lookup_insert_ne. intros <-. by apply Hb, in_log_st.
Qed.

(** Recovery can be interrupted and started again. *)
Lemma recover_writes_idempotent D k :
  hdr_ok (D st) ->
  let D' := apply_writes (take k (recover_writes D)) D in
  hdr_ok (D' st) /\ forall b, ~ in_log b -> recovered D' b = recovered D b.
Proof.
  intros Hok D'. pose proof Hok as (_ & Hnd & Hlen & Hin). set (L := hdr_list (D st)) in *.
  assert (Hll : length (install_writes L 0 D) = length L) by apply length_imap.
  unfold D', recover_writes. fold L. destruct (decide (k <= length L)%nat) as [Hk|Hk].
  - rewrite take_app_le by lia. set (D1 := apply_writes _ D).
    assert (Hlog : forall b, in_log b -> D1 b = D b).
    { intros b Hb. apply apply_writes_out. intros Hx%take_dom. rewrite install_writes_dom in Hx. by apply Hin in Hx as [_ ?]. }
    split; [by rewrite Hlog by apply in_log_st|]. intros b _. eapply recovered_agree; [done..|].
    intros x Hx. apply apply_writes_out. intros Hx'%take_dom. by rewrite install_writes_dom in Hx'.
  - rewrite take_app_ge, Hll, take_ge by (simpl; lia). rewrite apply_writes_app.
    change (apply_writes (install_writes L 0 D) D) with (recovered D).
    set (D3 := apply_writes [(st, header [] (D st))] _). assert (HD3 : D3 = <[st := header [] (D st)]> (recovered D)) by done. clearbody D3. subst D3.
    split.
    + rewrite fn_lookup_insert. apply hdr_ok_zero, hdr_n_empty.
    + intros b Hb. rewrite recovered_empty by (rewrite fn_lookup_insert; apply hdr_n_empty).
      apply fn_lookup_insert_ne. intros <-. by apply Hb, in_log_st.
Qed.
End Disk.
