(* ===== verification/LogSpec.v ===== *)
(** * The log code against the disk format

    commit and recover_from_log do exactly the block writes of [commit_writes]
    and [recover_writes], so that a crash at any point is repaired. *)
From S2P Require Import Prelude Mem CString KTypes Kalloc Vm ListHead KState Queue Sched Signal Thread ThreadInv SchedSpec ProcBase Pipe Sync Bio BioSpec BlockdevSpec Log.

(** struct log for the log at [st] of device [d], with the blocks [L]. *)
Record log_is (d st : Z) (L : list Z) (l : xlog) : Prop := {
  li_dev : ldev l = d;
  li_start : lstart l = st;
  li_n : lhn l = Z.of_nat (length L);
  li_block : forall k b, L !! k = Some b -> lhblock l (Z.of_nat k) = b;
}.

(** Nothing but the struct log differs. *)
Lemma bcache_ok_log p d lk rf vw l s : bcache_ok p d lk rf vw s -> bcache_ok p d lk rf vw (set_flog l s).
Proof.
  intros [[tq Hs] Hh Hrun Hlru Hlock Href Hl Hkey Hhit Hdirty]. split; try done.
  exists tq. eapply sched_inv_same; [exact Hs|done..].
Qed.

(** The rule for the loops over the logged blocks. *)
Lemma wp_for_tail (n : nat) (I : nat -> kstate -> Prop) body (Q : unit -> kstate -> Prop) :
  (forall k s, I k s -> lhn (flog s) = Z.of_nat n) ->
  (forall k s, (k < n)%nat -> I k s -> wp (body (Z.of_nat k)) (fun _ s' => I (S k) s') s) ->
  (forall s, I n s -> Q tt s) ->
  forall f k s, (k + f = n)%nat -> I k s -> wp (for_tail f (Z.of_nat k) body) Q s.
Proof.
  intros Hn Hb Hend f. induction f as [|f IH]; intros k s Hk HI.
  - assert (k = n) as -> by lia. apply wp_bind, wp_gets. rewrite (Hn n s HI).
    destruct (Z.ltb_spec (Z.of_nat n) (Z.of_nat n)); [lia|]. by apply wp_ret, Hend.
  - cbn [for_tail]. apply wp_bind, wp_gets. rewrite (Hn k s HI).
    destruct (Z.ltb_spec (Z.of_nat k) (Z.of_nat n)); [|lia].
    apply wp_bind. eapply wp_mono; [apply Hb; [lia|done]|]. cbn beta. intros _ s' HI'.
    replace (Z.of_nat k + 1) with (Z.of_nat (S k)) by lia. apply IH; [lia|done].
Qed.

Lemma wp_for_logged (n : nat) (I : nat -> kstate -> Prop) body (Q : unit -> kstate -> Prop) s :
  (forall k s, I k s -> lhn (flog s) = Z.of_nat n) ->
  (forall k s, (k < n)%nat -> I k s -> wp (body (Z.of_nat k)) (fun _ s' => I (S k) s') s) ->
  (forall s, I n s -> Q tt s) -> I 0%nat s -> wp (for_logged body) Q s.
Proof.
  intros Hn Hb Hend HI. unfold for_logged. apply wp_bind, wp_gets. rewrite (Hn 0%nat s HI), Nat2Z.id.
  apply (wp_for_tail n I body Q Hn Hb Hend n 0%nat); [lia|done].
Qed.

Section Spec.
Context (swtch : nat -> E kstate unit) (fuel : nat) (p : nat) (d st : Z).
Hypothesis Hd : 0 <= d < 2 ^ 32.
Hypothesis Hst : 0 <= st /\ st + LOGSIZE + 1 < 2 ^ 31.
Abbreviation ok := (bcache_ok p d).
Implicit Types (rf : nat -> Z) (vw : Z -> mem) (s : kstate) (L : list Z).

(** Referenced buffers keep their blocks. *)
Definition kept rf s s' : Prop := forall b k, rf k <> 0 -> caches d s b k -> caches d s' b k.

Lemma kept_trans rf s1 s2 s3 : kept rf s1 s2 -> kept rf s2 s3 -> kept rf s1 s3.
Proof. intros H1 H2 b k Hk Hc. by apply H2, H1. Qed.

Lemma kept_bread rf bn i s s' :
  others_same i s s' -> caches d s' bn i -> caches d s bn i \/ rf i = 0 -> kept rf s s'.
Proof.
  intros (Ho & _) Hc Hcase b k Hk (H1 & H2 & H3). destruct (decide (k = i)) as [->|Hne].
  - destruct Hcase as [(_ & _ & Hb)|]; [|done]. by replace b with bn by congruence.
  - unfold caches. by rewrite Ho.
Qed.

Lemma kept_refcnt rf i n s s' : others_same i s s' -> bufs s' i = set_refcnt n (bufs s i) -> kept rf s s'.
Proof.
  intros (Ho & _) Hi b k _ Hc. unfold caches in *. destruct (decide (k = i)) as [->|Hne]; [by rewrite Hi|by rewrite Ho].
Qed.

Lemma kept_set_data i D s : forall rf, kept rf s (set_bufs (<[i := set_bdata D (bufs s i)]> (bufs s)) s).
Proof.
  intros rf b k _ Hc. unfold caches in *. cbn [bufs set_bufs]. destruct (decide (k = i)) as [->|Hne].
  - by rewrite fn_lookup_insert.
  - by rewrite fn_lookup_insert_ne.
Qed.

Lemma kept_same rf s s' : bufs s' = bufs s -> kept rf s s'.
Proof. intros Hb b k _ Hc. unfold caches in *. by rewrite Hb. Qed.

(** Room for two more references, and a buffer to recycle. *)
Definition room rf : Prop :=
  (exists i, is_buf i /\ rf i = 0) /\ forall i, is_buf i -> 0 <= rf i /\ rf i + 2 < 2 ^ 32.

(** Two blocks read, the second of them referenced already or another buffer
    being free. *)
Lemma wp_bread_two rf vw x y (Q : nat -> nat -> kstate -> Prop) s :
  ok ∅ rf vw s -> x <> y -> room rf ->
  ((exists k, caches d s y k /\ rf k <> 0) \/ exists k1 k2, k1 <> k2 /\ is_buf k1 /\ is_buf k2 /\ rf k1 = 0 /\ rf k2 = 0) ->
  (forall i j s', i <> j -> ok ({[j]} ∪ ({[i]} ∪ ∅)) (<[j := rf j + 1]> (<[i := rf i + 1]> rf)) vw s' ->
     caches d s' x i -> caches d s' y j -> bvalid (bufs s' i) <> 0 -> bvalid (bufs s' j) <> 0 ->
     (rf i = 0 -> vw x = disk s' x) -> (rf j = 0 -> vw y = disk s' y) ->
     kept rf s s' -> bio_rest s s' -> dwrites s' = dwrites s -> Q i j s') ->
  wp (bread swtch fuel d x) (fun i s1 => flog s1 = flog s /\ wp (bread swtch fuel d y) (Q i) s1) s.
Proof.
  intros Hok Hxy [Hsp Hrf] Hy HQ.
  eapply (wp_bread swtch fuel p d ∅ rf vw); [done|set_solver|intros i Hi; specialize (Hrf i Hi); lia|by right|].
  intros i s1 Hok1 _ Hca1 Hv1 Hc1 Ho1. pose proof Ho1 as (Hbo1 & Hr1 & Hw1). pose proof Hca1 as (Hi & Hdi & Hbi).
  pose proof (bio_rest_fields _ _ Hr1) as (_ & _ & Hf1 & _).
  split; [done|]. set (rf1 := <[i := rf i + 1]> rf) in *.
  assert (Hk1 : kept rf s s1) by by eapply kept_bread.
  assert (Hrf1 : forall k, is_buf k -> 0 <= rf k <= rf1 k /\ rf1 k + 1 < 2 ^ 32).
  { intros k Hk. specialize (Hrf k Hk). unfold rf1. destruct (decide (k = i)) as [->|]; [rewrite fn_lookup_insert|rewrite fn_lookup_insert_ne by done]; lia. }
  eapply (wp_bread swtch fuel p d _ rf1 vw); [done| | | |].
  - intros k [->%elem_of_singleton|Hk]%elem_of_union; [congruence|set_solver].
  - intros k Hk. by apply Hrf1.
  - destruct Hy as [(k & Hk & Hk0)|(k1 & k2 & Hne & Hb1 & Hb2 & H1 & H2)].
    + left. exists k. by apply Hk1.
    + right. destruct (decide (k1 = i)) as [->|Hn].
      * exists k2. unfold rf1. by rewrite fn_lookup_insert_ne.
      * exists k1. unfold rf1. by rewrite fn_lookup_insert_ne.
  - intros j s2 Hok2 Hnj Hca2 Hv2 Hc2 Ho2. pose proof Ho2 as (Hbo2 & Hr2 & Hw2).
    assert (Hij : i <> j) by set_solver.
    assert (Hrj : rf1 j = rf j) by (unfold rf1; by rewrite fn_lookup_insert_ne). rewrite Hrj in Hok2, Hc2.
    assert (Hdk : disk s2 = disk s1) by by apply bio_rest_disk.
    apply (HQ i j s2); [done|done| |done| |done| | | |by etransitivity|congruence].
    + unfold caches. by rewrite Hbo2.
    + by rewrite Hbo2.
    + intros H0. rewrite Hdk. eapply (unreferenced_clean p d); [exact Hok|exact Hok1|done|done|done].
    + intros H0. eapply (unreferenced_clean p d); [exact Hok1|exact Hok2|done|done|congruence].
    + apply (kept_trans _ _ _ _ Hk1). intros b k Hk Hc. assert (rf1 k <> 0) as Hk1' by (destruct Hc as [Hbk _]; specialize (Hrf1 k Hbk); lia).
      eapply (kept_bread rf1); [done|done|by rewrite Hrj|done|done].
Qed.

(** A block copied over another one and written to the disk. *)
Lemma wp_copy_write {A} lk rf vw a b src dst (K : E kstate A) (Q : A -> kstate -> Prop) s :
  ok lk rf vw s -> dst ∈ lk -> caches d s a src -> caches d s b dst ->
  bvalid (bufs s src) <> 0 -> bvalid (bufs s dst) <> 0 ->
  (forall s', ok lk rf (<[b := vw a]> vw) s' -> (forall rf0, kept rf0 s s') ->
     (forall k c, caches d s c k -> caches d s' c k) -> bio_rest s s' -> dwrites s' = dwrites s ++ [(b, vw a)] -> wp K Q s') ->
  wp (copy_data dst src;; bwrite dst;; K) Q s.
Proof.
  intros Hok Hl Ha Hb Hva Hvb HQ. destruct Ha as (Hi & Hdi & Hbi). destruct Hb as (Hj & Hdj & Hbj).
  destruct (bo_hit _ _ _ _ _ _ Hok src Hi Hva) as [_ Hda]. rewrite Hbi in Hda.
  apply wp_bind. unfold copy_data. apply wp_bind, wp_gets, wp_modify. cbn beta. rewrite Hda.
  set (s1 := set_bufs _ s).
  assert (Hok1 : ok lk rf (<[b := vw a]> vw) s1) by (rewrite <- Hbj; by apply bcache_ok_data).
  assert (Hb1 : bufs s1 dst = set_bdata (vw a) (bufs s dst)) by apply fn_lookup_insert.
  apply wp_bind. eapply (wp_bwrite p d); [exact Hok1|done|]. rewrite Hb1. cbn [blockno bdata set_bdata]. rewrite Hbj.
  intros s2 Hok2 Hb2 Hr2 Hw2.
  assert (Hvw : pointwise_relation Z eq (<[b := vw a]> (<[b := vw a]> vw)) (<[b := vw a]> vw)).
  { intros n. destruct (decide (n = b)) as [->|]; [by rewrite !fn_lookup_insert|by rewrite !fn_lookup_insert_ne]. }
  rewrite Hvw in Hok2. apply HQ; [done| | | |done].
  - intros rf0. apply (kept_trans _ _ s1); [apply kept_set_data|by apply kept_same].
  - intros k c Hc. apply (kept_same (fun _ => 1) s1 s2 Hb2); [done|]. by apply (kept_set_data dst (vw a) s (fun _ => 1)).
  - etransitivity; [|exact Hr2]. by destruct s.
Qed.

(** Two buffers given back. *)
Lemma wp_brelse_two rf vw rf' u v (Q : unit -> kstate -> Prop) s :
  ok ({[u; v]}) rf vw s -> u <> v ->
  (rf u = 1 -> vw (blockno (bufs s u)) = disk s (blockno (bufs s u))) ->
  (rf v = 1 -> vw (blockno (bufs s v)) = disk s (blockno (bufs s v))) ->
  pointwise_relation nat eq (<[v := rf v - 1]> (<[u := rf u - 1]> rf)) rf' ->
  (forall s', ok ∅ rf' vw s' -> (forall k c, caches d s c k -> caches d s' c k) -> bio_rest s s' ->
     dwrites s' = dwrites s -> Q tt s') ->
  wp (brelse u;; brelse v) Q s.
Proof.
  intros Hok Huv Hu Hv Hrf HQ. apply wp_bind. eapply (wp_brelse p d); [exact Hok|set_solver|auto|].
  intros s1 Hok1 Hb1 Ho1. pose proof Ho1 as (Hbo1 & Hr1 & Hw1).
  eapply (wp_brelse p d); [exact Hok1|set_solver| |].
  { rewrite fn_lookup_insert_ne by done. intros H1 _. rewrite Hbo1 by done. rewrite (bio_rest_disk _ _ Hr1 Hw1). auto. }
  intros s2 Hok2 Hb2 Ho2. pose proof Ho2 as (Hbo2 & Hr2 & Hw2). rewrite fn_lookup_insert_ne in Hok2, Hb2 by done. rewrite Hrf in Hok2.
  replace (({[u; v]} ∖ {[u]}) ∖ {[v]} : gset nat) with (∅ : gset nat) in Hok2 by set_solver.
  apply HQ; [done| |by etransitivity|congruence].
  intros k c Hc. apply (kept_refcnt (fun _ => 1) v (rf v - 1) s1 s2 Ho2 Hb2); [done|].
  by apply (kept_refcnt (fun _ => 1) u (rf u - 1) s s1 Ho1 Hb1).
Qed.

(** The reads that start a step on block [k] of the log. *)
Lemma wp_read_blocks {A} rf vw L k b (K : nat -> nat -> E kstate A) (Q : A -> kstate -> Prop) s :
  ok ∅ rf vw s -> room rf -> log_is d st L (flog s) -> loggable st L -> L !! k = Some b ->
  ((exists i, caches d s b i /\ rf i <> 0) \/ exists k1 k2, k1 <> k2 /\ is_buf k1 /\ is_buf k2 /\ rf k1 = 0 /\ rf k2 = 0) ->
  (forall i j s', i <> j -> ok {[i; j]} (<[j := rf j + 1]> (<[i := rf i + 1]> rf)) vw s' ->
     caches d s' (st + Z.of_nat k + 1) i -> caches d s' b j -> bvalid (bufs s' i) <> 0 -> bvalid (bufs s' j) <> 0 ->
     (rf i = 0 -> vw (st + Z.of_nat k + 1) = disk s' (st + Z.of_nat k + 1)) -> (rf j = 0 -> vw b = disk s' b) ->
     kept rf s s' -> bio_rest s s' -> dwrites s' = dwrites s -> wp (K i j) Q s') ->
  wp (i ← read_log_block swtch fuel (Z.of_nat k); j ← read_home_block swtch fuel (Z.of_nat k); K i j) Q s.
Proof.
  intros Hok Hroom [Ld Ls Ln Lb] (Hnd & Hlen & HL) Hk Hsp HQ. pose proof (lookup_lt_Some _ _ _ Hk) as Hkl.
  destruct (HL b) as [Hint Hnl]; [by eapply list_elem_of_lookup_2|].
  unfold read_log_block, read_home_block, get_log. apply wp_bind, wp_bind, wp_gets. rewrite Ld, Ls.
  rewrite (wrap_small 32 d), (wrap_small 32 (st + _ + 1)) by lia.
  eapply wp_mono; [apply (wp_bread_two rf vw _ b (fun i j s' => wp (K i j) Q s')); [done| |done|done|]|].
  - intros <-. apply Hnl. unfold in_log. lia.
  - intros i j s' Hij Hok'. replace ({[j]} ∪ ({[i]} ∪ ∅)) with ({[i; j]} : gset nat) in Hok' by set_solver. by apply HQ.
  - cbn beta. intros i s1 [Hf1 Hw]. apply wp_bind, wp_bind, wp_gets. rewrite Hf1, Ld, (wrap_small 32 d) by lia.
    apply wp_bind. unfold lh_block, get_log. apply wp_bind, wp_gets. rewrite Hf1, (Lb _ _ Hk).
    destruct (Z.leb_spec 0 (Z.of_nat k)), (Z.ltb_spec (Z.of_nat k) LOGSIZE); try lia. apply wp_ret.
    rewrite (wrap_small 32 b) by (unfold is_int in *; lia). exact Hw.
Qed.

(** The counts after two references were taken and given back. *)
Lemma refs_back_two rf i j u v (Hij : i <> j) (Huv : u = i /\ v = j \/ u = j /\ v = i) :
  let rf2 := <[j := rf j + 1]> (<[i := rf i + 1]> rf) in
  pointwise_relation nat eq (<[v := rf2 v - 1]> (<[u := rf2 u - 1]> rf2)) rf.
Proof.
  intros rf2 k. assert (H2 : forall k, rf2 k = if decide (k = i) then rf i + 1 else if decide (k = j) then rf j + 1 else rf k).
  { intros x. unfold rf2. destruct (decide (x = j)) as [->|]; [by rewrite fn_lookup_insert, decide_False|].
    rewrite fn_lookup_insert_ne by done. case_decide; [subst; by rewrite fn_lookup_insert|by rewrite fn_lookup_insert_ne]. }
  destruct (decide (k = v)) as [->|Hv]; [rewrite fn_lookup_insert, H2|rewrite fn_lookup_insert_ne by done; destruct (decide (k = u)) as [->|Hu];
    [rewrite fn_lookup_insert, H2|rewrite fn_lookup_insert_ne, H2 by done]].
  all: destruct Huv as [[-> ->]|[-> ->]]; repeat (case_decide; subst; try done); lia.
Qed.

(** One block of write_log. *)
Lemma wp_write_log_one rf vw L k b (Q : unit -> kstate -> Prop) s :
  ok ∅ rf vw s -> room rf -> log_is d st L (flog s) -> loggable st L -> L !! k = Some b ->
  (exists i, caches d s b i /\ rf i <> 0) ->
  (forall s', ok ∅ rf (<[st + Z.of_nat k + 1 := vw b]> vw) s' -> kept rf s s' -> bio_rest s s' ->
     dwrites s' = dwrites s ++ [(st + Z.of_nat k + 1, vw b)] -> Q tt s') ->
  wp (write_log_one swtch fuel (Z.of_nat k)) Q s.
Proof.
  intros Hok Hroom Hlog HL Hk Hpin HQ. pose proof (lookup_lt_Some _ _ _ Hk) as Hkl.
  assert (Hxb : st + Z.of_nat k + 1 <> b).
  { destruct HL as (_ & Hlen & HL). destruct (HL b) as [_ Hnl]; [by eapply list_elem_of_lookup_2|]. intros <-. apply Hnl. unfold in_log. lia. }
  unfold write_log_one. eapply wp_read_blocks; [done..|by left|]. set (x := st + Z.of_nat k + 1) in *.
  intros i j s1 Hij Hok1 Hci Hcj Hvi Hvj Hcl1 Hcl2 Hk1 Hr1 Hw1.
  eapply (wp_copy_write _ _ vw b x j i); [exact Hok1|set_solver|done..|].
  intros s2 Hok2 Hk2 Hc2 Hr2 Hw2. pose proof (Hc2 _ _ Hci) as (_ & _ & Hbi). pose proof (Hc2 _ _ Hcj) as (_ & _ & Hbj).
  rewrite (union_comm_L {[i]}) in Hok2.
  assert (Hdk : disk s2 = <[x := vw b]> (disk s1)).
  { unfold disk. rewrite Hw2. apply bio_rest_fields in Hr2 as (_ & _ & _ & -> & _). by rewrite apply_writes_app. }
  eapply (wp_brelse_two _ _ rf j i); [exact Hok2|done| | |apply refs_back_two; [done|by right]|].
  - rewrite fn_lookup_insert. intros H1. rewrite Hbj, Hdk, !fn_lookup_insert_ne by done. apply Hcl2. lia.
  - intros _. by rewrite Hbi, Hdk, !fn_lookup_insert.
  - intros s3 Hok3 Hc3 Hr3 Hw3. apply HQ; [done| |by do 2 (etransitivity; [|done])|congruence].
    intros c n Hn Hc. by apply Hc3, (Hk2 rf), Hk1.
Qed.

(** One block of install_trans. *)
Lemma wp_install_one (rec : bool) rf rf' vw L k b (Q : unit -> kstate -> Prop) s :
  ok ∅ rf vw s -> room rf -> log_is d st L (flog s) -> loggable st L -> L !! k = Some b ->
  (if rec then (exists k1 k2, k1 <> k2 /\ is_buf k1 /\ is_buf k2 /\ rf k1 = 0 /\ rf k2 = 0) /\ rf' = rf
   else exists j, caches d s b j /\ rf j <> 0 /\ rf' = <[j := rf j - 1]> rf) ->
  (forall s', ok ∅ rf' (<[b := vw (st + Z.of_nat k + 1)]> vw) s' -> kept rf s s' -> bio_rest s s' ->
     dwrites s' = dwrites s ++ [(b, vw (st + Z.of_nat k + 1))] -> Q tt s') ->
  wp (install_one swtch fuel rec (Z.of_nat k)) Q s.
Proof.
  intros Hok Hroom Hlog HL Hk Hcase HQ. pose proof (lookup_lt_Some _ _ _ Hk) as Hkl.
  assert (Hxb : st + Z.of_nat k + 1 <> b).
  { destruct HL as (_ & Hlen & HL). destruct (HL b) as [_ Hnl]; [by eapply list_elem_of_lookup_2|]. intros <-. apply Hnl. unfold in_log. lia. }
  unfold install_one. eapply wp_read_blocks; [done..| |].
  { destruct rec; [right; apply Hcase|left]. destruct Hcase as (j & ? & ? & _). by exists j. }
  set (x := st + Z.of_nat k + 1) in *. intros i j s1 Hij Hok1 Hci Hcj Hvi Hvj Hcl1 Hcl2 Hk1 Hr1 Hw1.
  eapply (wp_copy_write _ _ vw x b i j); [exact Hok1|set_solver|done..|].
  intros s2 Hok2 Hk2 Hc2 Hr2 Hw2. pose proof (Hc2 _ _ Hci) as (Hib & _ & Hbi). pose proof (Hc2 _ _ Hcj) as (Hjb & Hdj & Hbj).
  assert (Hdk : disk s2 = <[b := vw x]> (disk s1)).
  { unfold disk. rewrite Hw2. apply bio_rest_fields in Hr2 as (_ & _ & _ & -> & _). by rewrite apply_writes_app. }
  assert (Hfin : forall rf2 s3, ok {[i; j]} rf2 (<[b := vw x]> vw) s3 -> rf2 i = rf i + 1 ->
    pointwise_relation nat eq (<[j := rf2 j - 1]> (<[i := rf2 i - 1]> rf2)) rf' ->
    (forall n c, caches d s2 c n -> caches d s3 c n) -> bio_rest s2 s3 -> dwrites s3 = dwrites s2 -> wp (brelse i;; brelse j) Q s3).
  { intros rf2 s3 Hok3 Hi3 Hrf Hc3 Hr3 Hw3. pose proof (Hc3 _ _ (Hc2 _ _ Hci)) as (_ & _ & Hbi3). pose proof (Hc3 _ _ (Hc2 _ _ Hcj)) as (_ & _ & Hbj3).
    pose proof (bio_rest_disk _ _ Hr3 Hw3) as Hdk3.
    eapply (wp_brelse_two _ _ rf' i j); [exact Hok3|done| | |done|].
    - intros H1. rewrite Hbi3, Hdk3, Hdk, !fn_lookup_insert_ne by done. apply Hcl1. lia.
    - intros _. by rewrite Hbj3, Hdk3, Hdk, !fn_lookup_insert.
    - intros s4 Hok4 Hc4 Hr4 Hw4. apply HQ; [done| |by do 3 (etransitivity; [|done])|congruence].
      intros c n Hn Hc. by apply Hc4, Hc3, (Hk2 rf), Hk1. }
  apply wp_bind. destruct rec.
  - destruct Hcase as [_ ->]. apply wp_ret. eapply Hfin; [exact Hok2| | |done|done|done].
    + by rewrite fn_lookup_insert_ne, fn_lookup_insert by done.
    + apply refs_back_two; [done|by left].
  - destruct Hcase as (j' & Hcj' & Hj' & ->).
    assert (j' = j) as ->.
    { destruct (Hk1 _ _ Hj' Hcj') as (H1 & H2 & H3). destruct Hcj as (G1 & G2 & G3).
      apply (bo_key _ _ _ _ _ _ Hok1); [done..|congruence]. }
    eapply (wp_bref p d (-1)); [exact Hok2|split_and!; done| |].
    { rewrite fn_lookup_insert. destruct Hroom as [_ Hrf]. specialize (Hrf j Hjb). lia. }
    intros s3 Hok3 Hb3 Ho3. eapply Hfin; [exact Hok3| | | |apply Ho3..].
    + by rewrite !fn_lookup_insert_ne, fn_lookup_insert by done.
    + intros n. rewrite !fn_lookup_insert. destruct (decide (n = j)) as [->|Hnj]; [rewrite !fn_lookup_insert; lia|].
      rewrite !(fn_lookup_insert_ne _ j n) by done. destruct (decide (n = i)) as [->|Hni].
      * rewrite fn_lookup_insert, !fn_lookup_insert_ne, fn_lookup_insert by done. lia.
      * by rewrite !fn_lookup_insert_ne by done.
    + intros n c Hc. by apply (kept_refcnt (fun _ => 1) j _ s2 s3 Ho3 Hb3).
Qed.

(** ** The header block *)

Lemma hdr_put_snoc i (L : list Z) b X : hdr_put i (L ++ [b]) X = hdr_set_block (i + Z.of_nat (length L)) b (hdr_put i L X).
Proof.
  revert i X. induction L as [|c L IH]; intros i X; simpl.
  - by rewrite Z.add_0_r.
  - rewrite IH. f_equal. lia.
Qed.

Lemma insert_twice vw b (X Y : mem) : pointwise_relation Z eq (<[b := Y]> (<[b := X]> vw)) (<[b := Y]> vw).
Proof.
  intros n. destruct (decide (n = b)) as [->|]; [by rewrite !fn_lookup_insert|by rewrite !fn_lookup_insert_ne].
Qed.

(** A store to the header in its buffer. *)
Lemma wp_hdr_store lk rf vw i X (f : mem -> mem) (Q : unit -> kstate -> Prop) s :
  ok lk rf (<[st := X]> vw) s -> i ∈ lk -> caches d s st i -> bvalid (bufs s i) <> 0 ->
  (forall s', ok lk rf (<[st := f X]> vw) s' -> caches d s' st i -> bvalid (bufs s' i) <> 0 ->
     (forall c n, caches d s c n -> caches d s' c n) -> bio_rest s s' -> dwrites s' = dwrites s -> Q tt s') ->
  wp (upd_buf i (fun b => set_bdata (f (bdata b)) b)) Q s.
Proof.
  intros Hok Hi (Hib & Hdi & Hbi) Hv HQ. apply wp_modify.
  destruct (bo_hit _ _ _ _ _ _ Hok i Hib Hv) as [_ Hda]. rewrite Hbi, fn_lookup_insert in Hda. rewrite Hda.
  assert (Hc : forall c n, caches d s c n -> caches d (set_bufs (<[i := set_bdata (f X) (bufs s i)]> (bufs s)) s) c n).
  { intros c n. by apply (kept_set_data i (f X) s (fun _ => 1)). }
  apply HQ; [|by apply Hc|cbn [bufs set_bufs]; by rewrite fn_lookup_insert|done|by destruct s|done].
  rewrite <- (insert_twice vw st X (f X)). rewrite <- Hbi at 1. by apply bcache_ok_data.
Qed.

Lemma insert_same vw b : pointwise_relation Z eq vw (<[b := vw b]> vw).
Proof.
  intros n. destruct (decide (n = b)) as [->|]; [by rewrite fn_lookup_insert|by rewrite fn_lookup_insert_ne].
Qed.

(** bread of the header. *)
Lemma wp_bread_header rf vw (Q : nat -> kstate -> Prop) s :
  ok ∅ rf vw s -> room rf ->
  (forall i s', ok {[i]} (<[i := rf i + 1]> rf) vw s' -> caches d s' st i -> bvalid (bufs s' i) <> 0 ->
     (rf i = 0 -> vw st = disk s' st) -> kept rf s s' -> bio_rest s s' -> dwrites s' = dwrites s -> Q i s') ->
  wp (bread swtch fuel d st) Q s.
Proof.
  intros Hok [Hsp Hrf] HQ.
  eapply (wp_bread swtch fuel p d ∅ rf vw); [done|set_solver|intros i Hi; specialize (Hrf i Hi); lia|by right|].
  intros i s1 Hok1 _ Hca Hv Hc Ho. pose proof Ho as (_ & Hr & Hw).
  replace ({[i]} ∪ ∅ : gset nat) with ({[i]} : gset nat) in Hok1 by set_solver.
  apply HQ; [done|done|done| |by eapply kept_bread|done|done].
  intros H0. eapply (unreferenced_clean p d); [exact Hok|exact Hok1|done|done|done].
Qed.

Lemma wp_write_head rf vw L (Q : unit -> kstate -> Prop) s :
  ok ∅ rf vw s -> room rf -> log_is d st L (flog s) -> Z.of_nat (length L) <= LOGSIZE ->
  (forall s', ok ∅ rf (<[st := header L (vw st)]> vw) s' -> kept rf s s' -> bio_rest s s' ->
     dwrites s' = dwrites s ++ [(st, header L (vw st))] -> Q tt s') ->
  wp (write_head swtch fuel) Q s.
Proof.
  intros Hok Hroom Hlog Hlen HQ. pose proof Hlog as [Ld Ls Ln Lb]. unfold write_head, get_log.
  apply wp_bind, wp_gets. rewrite Ld, Ls, Ln, (wrap_small 32 d), (wrap_small 32 st) by lia.
  apply wp_bind. eapply wp_bread_header; [done..|]. intros i s1 Hok1 Hca1 Hv1 _ Hk1 Hr1 Hw1. set (rf1 := <[i := rf i + 1]> rf) in *.
  rewrite (insert_same vw st) in Hok1. apply wp_bind. eapply wp_hdr_store; [exact Hok1|set_solver|done|done|].
  intros s2 Hok2 Hca2 Hv2 Hc2 Hr2 Hw2. set (X := hdr_set_n (Z.of_nat (length L)) (vw st)) in *.
  apply wp_bind. apply (wp_for_logged (length L) (fun k s' => ok {[i]} rf1 (<[st := hdr_put 0 (take k L) X]> vw) s' /\
    caches d s' st i /\ bvalid (bufs s' i) <> 0 /\ (forall c n, caches d s1 c n -> caches d s' c n) /\ bio_rest s s' /\ dwrites s' = dwrites s)).
  - intros k s' (_ & _ & _ & _ & Hr & _). apply bio_rest_fields in Hr as (_ & _ & -> & _). done.
  - intros k s' Hk (Hok' & Hca' & Hv' & Hc' & Hr' & Hw'). pose proof (bio_rest_fields _ _ Hr') as (_ & _ & Hf' & _).
    destruct (lookup_lt_is_Some_2 L k Hk) as [b Hb]. apply wp_bind. unfold lh_block, get_log. apply wp_bind, wp_gets.
    rewrite Hf', (Lb _ _ Hb). destruct (Z.leb_spec 0 (Z.of_nat k)), (Z.ltb_spec (Z.of_nat k) LOGSIZE); try lia. apply wp_ret.
    eapply (wp_hdr_store _ _ vw i _ (hdr_set_block (Z.of_nat k) b)); [exact Hok'|set_solver|done|done|].
    intros s'' Hok'' Hca'' Hv'' Hc'' Hr'' Hw''. split_and!; [|done|done|by auto|by etransitivity|congruence].
    rewrite (take_S_r _ _ _ Hb), hdr_put_snoc, length_take_le by lia. rewrite Z.add_0_l. exact Hok''.
  - intros s3 (Hok3 & Hca3 & Hv3 & Hc3 & Hr3 & Hw3). rewrite firstn_all in Hok3. fold (header L (vw st)) in Hok3.
    pose proof Hca3 as (Hi & Hdi & Hbi). destruct (bo_hit _ _ _ _ _ _ Hok3 i Hi Hv3) as [_ Hda]. rewrite Hbi, fn_lookup_insert in Hda.
    apply wp_bind. eapply (wp_bwrite p d); [exact Hok3|set_solver|]. rewrite Hbi, Hda.
    intros s4 Hok4 Hb4 Hr4 Hw4. rewrite insert_twice in Hok4.
    eapply (wp_brelse p d); [exact Hok4|set_solver| |].
    { intros _ _. rewrite Hb4, Hbi, fn_lookup_insert. unfold disk. rewrite Hw4, apply_writes_app.
      symmetry. apply fn_lookup_insert. }
    intros s5 Hok5 Hb5 Ho5. unfold rf1 in Hok5. rewrite refs_back in Hok5.
    replace ({[i]} ∖ {[i]} : gset nat) with (∅ : gset nat) in Hok5 by set_solver. pose proof Ho5 as (_ & Hr5 & Hw5).
    apply HQ; [done| |by do 2 (etransitivity; [|done])|by rewrite Hw5, Hw4, Hw3].
    intros c n Hn Hc. apply (kept_refcnt rf i _ s4 s5 Ho5 Hb5); [done|]. apply (kept_same rf s3 s4 Hb4); [done|]. by apply Hc3, Hk1.
  - split_and!; [done|done|done|done|by etransitivity|congruence].
Qed.

(** ** The loops *)

Lemma log_writes_snoc L k b vw : L !! k = Some b ->
  log_writes st (take (S k) L) 0 vw = log_writes st (take k L) 0 vw ++ [(st + Z.of_nat k + 1, vw b)].
Proof.
  intros Hk. unfold log_writes. rewrite (take_S_r _ _ _ Hk), imap_app, length_take_le by (apply lookup_lt_Some in Hk; lia).
  simpl. by rewrite Nat.add_0_r.
Qed.

Lemma install_writes_snoc L k b vw : L !! k = Some b ->
  install_writes st (take (S k) L) 0 vw = install_writes st (take k L) 0 vw ++ [(b, vw (st + Z.of_nat k + 1))].
Proof.
  intros Hk. unfold install_writes. rewrite (take_S_r _ _ _ Hk), imap_app, length_take_le by (apply lookup_lt_Some in Hk; lia).
  simpl. by rewrite Nat.add_0_r.
Qed.

Lemma loggable_take L k : loggable st L -> loggable st (take k L).
Proof.
  intros (Hnd & Hlen & HL). split_and!.
  - rewrite <- (take_drop k L) in Hnd. by apply NoDup_app in Hnd as (? & _).
  - rewrite length_take. lia.
  - intros b Hb. apply HL. rewrite <- (take_drop k L). apply elem_of_app. by left.
Qed.

Lemma wp_write_log rf vw L (Q : unit -> kstate -> Prop) s :
  ok ∅ rf vw s -> room rf -> log_is d st L (flog s) -> loggable st L ->
  (forall b, b ∈ L -> exists i, caches d s b i /\ rf i <> 0) ->
  (forall s', ok ∅ rf (apply_writes (log_writes st L 0 vw) vw) s' -> kept rf s s' -> bio_rest s s' ->
     dwrites s' = dwrites s ++ log_writes st L 0 vw -> Q tt s') ->
  wp (write_log swtch fuel) Q s.
Proof.
  intros Hok Hroom Hlog HL Hpin HQ. unfold write_log.
  apply (wp_for_logged (length L) (fun k s' => ok ∅ rf (apply_writes (log_writes st (take k L) 0 vw) vw) s' /\
    kept rf s s' /\ bio_rest s s' /\ dwrites s' = dwrites s ++ log_writes st (take k L) 0 vw)).
  - intros k s' (_ & _ & Hr & _). apply bio_rest_fields in Hr as (_ & _ & -> & _). apply Hlog.
  - intros k s' Hk (Hok' & Hk' & Hr' & Hw'). pose proof (bio_rest_fields _ _ Hr') as (_ & _ & Hf' & _).
    destruct (lookup_lt_is_Some_2 L k Hk) as [b Hb]. assert (Hin : b ∈ L) by by eapply list_elem_of_lookup_2.
    eapply wp_write_log_one; [exact Hok'|done|by rewrite Hf'|done|done| |].
    { destruct (Hpin b Hin) as (i & Hc & Hi). exists i. split; [by apply Hk'|done]. }
    intros s'' Hok'' Hk'' Hr'' Hw''. rewrite (log_writes_snoc L k b) by done.
    assert (apply_writes (log_writes st (take k L) 0 vw) vw b = vw b) as Hvb.
    { apply apply_writes_out. intros Hx. apply log_writes_in_log in Hx as [Hx _]; [|by apply loggable_take].
      destruct HL as (_ & _ & HL). by apply HL in Hin as [_ ?]. }
    rewrite Hvb in Hok'', Hw''. split_and!.
    + rewrite apply_writes_app. exact Hok''.
    + by eapply kept_trans.
    + by etransitivity.
    + by rewrite Hw'', Hw', app_assoc.
  - intros s' (Hok' & Hk' & Hr' & Hw'). rewrite firstn_all in *. by apply HQ.
  - split_and!; [done|by intros ? ?|done|]. by rewrite app_nil_r.
Qed.

(** The references while a transaction is installed, from its block [k] on. *)
Definition installing (rec : bool) (L : list Z) (k : nat) rf s : Prop :=
  if rec then forall i, is_buf i -> rf i = 0
  else forall j b, (k <= j)%nat -> L !! j = Some b -> exists i, caches d s b i /\ rf i = 1.

Lemma wp_install_trans rec rf vw L (Q : unit -> kstate -> Prop) s :
  ok ∅ rf vw s -> room rf -> log_is d st L (flog s) -> loggable st L -> installing rec L 0 rf s ->
  (forall s' rf', ok ∅ rf' (apply_writes (install_writes st L 0 vw) vw) s' -> room rf' -> bio_rest s s' ->
     dwrites s' = dwrites s ++ install_writes st L 0 vw -> Q tt s') ->
  wp (install_trans swtch fuel rec) Q s.
Proof.
  intros Hok Hroom Hlog HL Hins HQ. unfold install_trans.
  apply (wp_for_logged (length L) (fun k s' => exists rf', ok ∅ rf' (apply_writes (install_writes st (take k L) 0 vw) vw) s' /\
    room rf' /\ installing rec L k rf' s' /\ bio_rest s s' /\ dwrites s' = dwrites s ++ install_writes st (take k L) 0 vw)).
  - intros k s' (_ & _ & _ & _ & Hr & _). apply bio_rest_fields in Hr as (_ & _ & -> & _). apply Hlog.
  - intros k s' Hk (rf' & Hok' & Hroom' & Hins' & Hr' & Hw'). pose proof (bio_rest_fields _ _ Hr') as (_ & _ & Hf' & _).
    destruct (lookup_lt_is_Some_2 L k Hk) as [b Hb].
    assert (Hval : apply_writes (install_writes st (take k L) 0 vw) vw (st + Z.of_nat k + 1) = vw (st + Z.of_nat k + 1)).
    { apply apply_writes_out. rewrite install_writes_dom. intros Hx. destruct (loggable_take L k HL) as (_ & _ & HL').
      apply HL' in Hx as [_ Hx]. apply Hx. destruct HL as (_ & Hlen & _). unfold in_log. lia. }
    assert (Hstep : exists rf'', (if rec then (exists k1 k2, k1 <> k2 /\ is_buf k1 /\ is_buf k2 /\ rf' k1 = 0 /\ rf' k2 = 0) /\ rf'' = rf'
        else exists j, caches d s' b j /\ rf' j <> 0 /\ rf'' = <[j := rf' j - 1]> rf') /\ room rf'' /\
        forall s'', kept rf' s' s'' -> installing rec L (S k) rf'' s'').
    { destruct rec; simpl in Hins' |- *.
      - exists rf'. split_and!; [|done|done|done]. exists 0%nat, 1%nat. unfold is_buf, NBUF, MAXOPBLOCKS in *. split_and!; try lia; apply Hins'; lia.
      - destruct (Hins' k b ltac:(lia) Hb) as (j & Hj & Hj1). exists (<[j := rf' j - 1]> rf'). split_and!.
        + exists j. split_and!; [done|lia|done].
        + destruct Hroom' as [(i & Hi & Hi0) Hbd]. split.
          * exists i. split; [done|]. rewrite fn_lookup_insert_ne; [done|]. intros ->. lia.
          * intros n Hn. specialize (Hbd n Hn). destruct (decide (n = j)) as [->|]; [rewrite fn_lookup_insert; lia|by rewrite fn_lookup_insert_ne].
        + intros s'' Hk'' m c Hm Hc. destruct (Hins' m c ltac:(lia) Hc) as (i & Hi & Hi1). exists i. split; [apply Hk''; [lia|done]|].
          rewrite fn_lookup_insert_ne; [done|]. intros ->. destruct Hj as (_ & _ & Hbj), Hi as (_ & _ & Hbi).
          assert (m = k) by (destruct HL as (Hnd & _); eapply NoDup_lookup; [exact Hnd|exact Hc|congruence]). lia. }
    destruct Hstep as (rf'' & Hcase & Hroom'' & Hnext).
    eapply (wp_install_one rec rf' rf''); [exact Hok'|done|by rewrite Hf'|done|done|done|]. rewrite Hval.
    intros s'' Hok'' Hk'' Hr'' Hw''. exists rf''. rewrite (install_writes_snoc L k b) by done. split_and!.
    + rewrite apply_writes_app. exact Hok''.
    + done.
    + by apply Hnext.
    + by etransitivity.
    + by rewrite Hw'', Hw', app_assoc.
  - intros s' (rf' & Hok' & Hroom' & _ & Hr' & Hw'). rewrite firstn_all in *. by eapply HQ.
  - exists rf. split_and!; [done..|]. by rewrite app_nil_r.
Qed.
End Spec.
