(* ===== verification/LogCrash.v ===== *)
(** * Crash safety of the log

    A crash during commit, at any point between two block writes, and the
    recovery at the next start leave either none or all of the transaction on
    the disk; recovery may itself be interrupted. *)
From S2P Require Import Prelude Mem CString KTypes Kalloc Vm ListHead KState Queue Sched Signal Thread ThreadInv SchedSpec ProcBase Pipe Sync Bio BioSpec BlockdevSpec Log LogSpec.

Section Crash.
Context (swtch : nat -> E kstate unit) (fuel : nat) (p : nat) (d st : Z).
Hypothesis Hd : 0 <= d < 2 ^ 32.
Hypothesis Hst : 0 <= st /\ st + LOGSIZE + 1 < 2 ^ 31.
Abbreviation ok := (bcache_ok p d).
Implicit Types (rf : nat -> Z) (vw D : Z -> mem) (s : kstate) (L : list Z).

(** ** Recovery *)

Lemma wp_read_head rf vw (Q : unit -> kstate -> Prop) s :
  ok ∅ rf vw s -> room rf -> ldev (flog s) = d -> lstart (flog s) = st -> hdr_ok st (vw st) ->
  (forall s', ok ∅ rf vw s' -> log_is d st (hdr_list (vw st)) (flog s') -> bio_rest s (set_flog (flog s) s') ->
     dwrites s' = dwrites s -> Q tt s') ->
  wp (read_head swtch fuel) Q s.
Proof.
  intros Hok Hroom Ld Ls [Hn (_ & Hlen & _)] HQ. unfold read_head, get_log. set (L := hdr_list (vw st)) in *.
  apply wp_bind, wp_gets. rewrite Ld, Ls, (wrap_small 32 d), (wrap_small 32 st) by lia.
  apply wp_bind. eapply (wp_bread_header swtch fuel p d st); [done..|].
  intros i s1 Hok1 Hca1 Hv1 Hcl1 _ Hr1 Hw1. pose proof Hca1 as (Hi & Hdi & Hbi).
  destruct (bo_hit _ _ _ _ _ _ Hok1 i Hi Hv1) as [_ Hda]. rewrite Hbi in Hda.
  pose proof (bio_rest_fields _ _ Hr1) as (_ & _ & Hf1 & _).
  apply wp_bind, wp_gets, wp_bind, wp_modify. cbn beta. rewrite Hda, Hn.
  apply wp_bind. apply (wp_for_logged (length L) (fun k s' => exists l, s' = set_flog l s1 /\ log_is d st (take k L) (set_lhn (Z.of_nat k) l) /\
    lhn l = Z.of_nat (length L))).
  - by intros k s' (l & -> & _ & Hl).
  - intros k s' Hk (l & -> & [H1 H2 H3 H4] & Hl). apply wp_bind, wp_gets. cbn [bufs set_flog]. rewrite Hda.
    unfold set_lh_block. destruct (Z.leb_spec 0 (Z.of_nat k)), (Z.ltb_spec (Z.of_nat k) LOGSIZE); try lia. apply wp_modify.
    assert (Hb : L !! k = Some (hdr_block (vw st) (Z.of_nat k))).
    { unfold L, hdr_list. rewrite list_lookup_fmap, lookup_seq_lt; [done|]. unfold L, hdr_list in Hk. by rewrite length_fmap, length_seq in Hk. }
    eexists. split; [reflexivity|]. split; [|done]. split; [done|done|simpl; rewrite length_take_le; lia|].
    intros j b Hj. cbn [lhblock set_lhn set_lhblock flog set_flog].
    rewrite (take_S_r _ _ _ Hb) in Hj. destruct (decide (j = k)) as [->|Hne].
    + rewrite fn_lookup_insert. rewrite lookup_app_r in Hj by (rewrite length_take_le; lia). rewrite length_take_le, Nat.sub_diag in Hj by lia. by injection Hj.
    + rewrite fn_lookup_insert_ne by lia. apply H4. rewrite lookup_app_l in Hj; [done|].
      apply lookup_lt_Some in Hj. rewrite length_app, length_take_le in Hj by lia. simpl in Hj. rewrite length_take_le; lia.
  - intros s2 (l & -> & Hl & Hln). rewrite firstn_all in Hl. rewrite <- Hln in Hl.
    eapply (wp_brelse p d); [by apply bcache_ok_log|set_solver| |].
    { rewrite fn_lookup_insert. intros H1 _. cbn [bufs set_flog]. rewrite Hbi. apply Hcl1. lia. }
    intros s3 Hok3 _ (_ & Hr3 & Hw3). rewrite refs_back in Hok3.
    replace ({[i]} ∖ {[i]} : gset nat) with (∅ : gset nat) in Hok3 by set_solver.
    pose proof (bio_rest_fields _ _ Hr3) as (_ & _ & Hf3 & _). cbn [flog set_flog] in Hf3.
    apply HQ; [done|by rewrite Hf3; destruct l| |by rewrite Hw3].
    etransitivity; [exact Hr1|]. apply (f_equal (set_flog (flog s))) in Hr3. unfold bio_rest.
    rewrite <- Hf1 in Hr3 at 2. replace (set_flog (flog s1) (set_flog l s1)) with s1 in Hr3 by by destruct s1. exact Hr3.
  - eexists. split; [reflexivity|]. rewrite take_0, Hf1. split; [|done]. split; [done|done|done|]. intros k b Hk. done.
Qed.

Lemma room_zero : room (fun _ => 0).
Proof. split; [exists 0%nat; unfold is_buf, NBUF, MAXOPBLOCKS; split; [lia|done]|]. intros i _. lia. Qed.

(** A cache without references shows the disk. *)
Lemma started_disk D s b : ok ∅ (fun _ => 0) D s -> D b = disk s b.
Proof. intros Hok. destruct (bo_dirty _ _ _ _ _ _ Hok b) as [|(i & _ & _ & _ & Hi)]; done. Qed.

Lemma wp_initlog D nlog (Q : unit -> kstate -> Prop) s :
  ok ∅ (fun _ => 0) D s -> hdr_ok st (D st) ->
  (forall s', (forall b, disk s' b = apply_writes (recover_writes st D) D b) -> dwrites s' = dwrites s ++ recover_writes st D ->
     image s' = image s -> Q tt s') ->
  wp (initlog swtch fuel d (Some (st, nlog))) Q s.
Proof.
  intros Hok Hh HQ. pose proof Hh as [Hn HL]. unfold initlog. apply wp_bind, wp_panic_if; [done|].
  apply wp_bind, wp_zoom, initlock_free; [rewrite (bo_held _ _ _ _ _ _ Hok); apply not_elem_of_nil|].
  replace (set_km (km s) s) with s by by destruct s. apply wp_bind, wp_modify.
  rewrite (sint_small 32 st) by (unfold LOGSIZE, MAXOPBLOCKS in *; lia).
  set (s1 := set_flog _ s). assert (Hok1 : ok ∅ (fun _ => 0) D s1) by by apply bcache_ok_log.
  unfold recover_from_log. apply wp_bind. eapply wp_read_head; [exact Hok1|apply room_zero|done|done|done|].
  intros s2 Hok2 Hlog2 Hr2 Hw2. apply wp_bind.
  eapply (wp_install_trans swtch fuel p d st); [done|done|exact Hok2|apply room_zero|exact Hlog2|done|done|].
  intros s3 rf3 Hok3 Hroom3 Hr3 Hw3. pose proof (bio_rest_fields _ _ Hr3) as (_ & _ & Hf3 & Hi3 & _).
  set (L := hdr_list (D st)) in *. change (apply_writes (install_writes st L 0 D) D) with (recovered st D) in Hok3.
  apply wp_bind, wp_modify. eapply (wp_write_head swtch fuel p d st Hd Hst rf3 _ []); [by apply bcache_ok_log|done| |done|].
  { rewrite Hf3. destruct Hlog2 as [H1 H2 _ _]. by split. }
  assert (Hrst : recovered st D st = D st).
  { eapply recovered_out; [done|]. fold L. intros Hx. destruct HL as (_ & _ & HL). apply HL in Hx as [_ Hx]. apply Hx, in_log_st. }
  rewrite Hrst. intros s4 Hok4 _ Hr4 Hw4. cbn [dwrites set_flog] in Hw4. pose proof (bio_rest_fields _ _ Hr4) as (_ & _ & _ & Hi4 & _).
  apply bio_rest_fields in Hr2 as (_ & _ & _ & Hi2 & _). cbn [image set_flog] in Hi2, Hi4.
  assert (Hw : dwrites s4 = dwrites s ++ recover_writes st D).
  { rewrite Hw4, Hw3, Hw2. unfold recover_writes. fold L. by rewrite <- !app_assoc. }
  apply HQ; [|done|by rewrite Hi4, Hi3, Hi2]. intros b. unfold disk. rewrite Hw, Hi4, Hi3, Hi2, apply_writes_app.
  apply apply_writes_ext. symmetry. exact (started_disk D s b Hok).
Qed.

(** ** A transaction *)

(** The blocks [L] are in the log, each pinned once in the cache, where they
    have the contents [vw]; no other buffer is referenced; the log on the disk
    is empty. *)
Record transaction L rf vw s : Prop := {
  tr_ok : ok ∅ rf vw s;
  tr_log : log_is d st L (flog s);
  tr_blocks : loggable st L;
  tr_pinned : forall b, b ∈ L -> exists i, caches d s b i /\ rf i = 1;
  tr_only : forall i, is_buf i -> rf i <> 0 -> exists b, b ∈ L /\ caches d s b i;
  tr_empty : hdr_n (disk s st) = 0;
  tr_room : Z.of_nat (length L) < NBUF;
}.

Lemma transaction_clean L rf vw s b : transaction L rf vw s -> b ∉ L -> vw b = disk s b.
Proof.
  intros T Hb. destruct (bo_dirty _ _ _ _ _ _ (tr_ok _ _ _ _ T) b) as [|(i & Hi & _ & Hbi & Hr)]; [done|].
  destruct (tr_only _ _ _ _ T i Hi Hr) as (c & Hc & _ & _ & Hbc). congruence.
Qed.

(** A transaction of fewer blocks than there are buffers leaves one to recycle. *)
Lemma transaction_room L rf vw s : transaction L rf vw s -> room rf.
Proof.
  intros T. pose proof (tr_ok _ _ _ _ T) as Hok. split.
  - destruct (decide (Exists (fun i => rf i = 0) (seq 0 (Z.to_nat NBUF)))) as [He|Hn].
    { apply Exists_exists in He as (i & Hi%elem_of_seq & H0). exists i. split; [unfold is_buf; lia|done]. }
    exfalso. assert (Hall : forall i, is_buf i -> rf i <> 0).
    { intros i Hi H0. apply Hn, Exists_exists. exists i. rewrite elem_of_seq. split; [unfold is_buf in Hi; lia|done]. }
    assert (Hsub : (fun i => blockno (bufs s i)) <$> seq 0 (Z.to_nat NBUF) ⊆+ L).
    { apply NoDup_submseteq.
      - apply NoDup_fmap_2_strong; [|apply NoDup_seq]. intros i j Hi%elem_of_seq Hj%elem_of_seq Hij.
        assert (is_buf i /\ is_buf j) as [Hbi Hbj] by (unfold is_buf; lia).
        destruct (tr_only _ _ _ _ T i Hbi (Hall i Hbi)) as (? & _ & _ & Hdi & _).
        destruct (tr_only _ _ _ _ T j Hbj (Hall j Hbj)) as (? & _ & _ & Hdj & _).
        by apply (bo_key _ _ _ _ _ _ Hok).
      - intros b (i & -> & Hi%elem_of_seq)%list_elem_of_fmap. assert (Hbi : is_buf i) by (unfold is_buf; lia).
        destruct (tr_only _ _ _ _ T i Hbi (Hall i Hbi)) as (c & Hc & _ & _ & Hbc). congruence. }
    apply submseteq_length in Hsub. rewrite length_fmap, length_seq in Hsub. pose proof (tr_room _ _ _ _ T). lia.
  - intros i Hi. destruct (bo_ref _ _ _ _ _ _ Hok i Hi) as [_ Hr0]. destruct (Z.eq_dec (rf i) 0) as [->|Hnz]; [lia|].
    destruct (tr_only _ _ _ _ T i Hi Hnz) as (b & Hb & H1 & H2 & H3). destruct (tr_pinned _ _ _ _ T b Hb) as (j & (G1 & G2 & G3) & Hj).
    assert (i = j) as -> by (apply (bo_key _ _ _ _ _ _ Hok); [done..|congruence]). lia.
Qed.

Lemma home_install L vw : loggable st L ->
  install_writes st L 0 (<[st := header L (vw st)]> (apply_writes (log_writes st L 0 vw) vw)) = home_writes L vw.
Proof.
  intros (_ & Hlen & _). unfold install_writes, home_writes. apply list_eq. intros k. rewrite list_lookup_imap, list_lookup_fmap.
  destruct (L !! k) as [b|] eqn:Hk; [|done]. simpl. do 2 f_equal. pose proof (lookup_lt_Some _ _ _ Hk).
  rewrite fn_lookup_insert_ne by lia. eapply (apply_writes_in _ _ k); [apply log_writes_nodup|].
  unfold log_writes. by rewrite list_lookup_imap, Hk.
Qed.

Lemma wp_commit L rf vw (Q : unit -> kstate -> Prop) s :
  transaction L rf vw s -> L <> [] ->
  (forall s', log_is d st [] (flog s') -> image s' = image s -> dwrites s' = dwrites s ++ commit_writes st L vw -> Q tt s') ->
  wp (commit swtch fuel) Q s.
Proof.
  intros T Hne HQ. pose proof (transaction_room _ _ _ _ T) as Hroom. pose proof T as [Hok Hlog HL Hpin _ _ _].
  pose proof HL as (_ & Hlen & HLb). unfold commit, get_log.
  apply wp_bind, wp_gets. rewrite (li_n _ _ _ _ Hlog). destruct (Z.ltb_spec 0 (Z.of_nat (length L))); [|destruct L; [done|simpl in *; lia]].
  apply wp_bind. eapply (wp_write_log swtch fuel p d st); [done|done|exact Hok|done|done|done| |].
  { intros b Hb. destruct (Hpin b Hb) as (i & Hi & H1). exists i. split; [done|lia]. }
  intros s1 Hok1 Hk1 Hr1 Hw1. pose proof (bio_rest_fields _ _ Hr1) as (_ & _ & Hf1 & Hi1 & _).
  set (v1 := apply_writes (log_writes st L 0 vw) vw) in *.
  assert (Hv1 : v1 st = vw st) by (apply apply_writes_out; intros Hx; by apply log_writes_in_log in Hx as [_ ?]).
  apply wp_bind. eapply (wp_write_head swtch fuel p d st Hd Hst rf v1 L); [done|done|by rewrite Hf1|done|]. rewrite Hv1.
  intros s2 Hok2 Hk2 Hr2 Hw2. pose proof (bio_rest_fields _ _ Hr2) as (_ & _ & Hf2 & Hi2 & _).
  apply wp_bind. eapply (wp_install_trans swtch fuel p d st Hd Hst false); [exact Hok2|done|by rewrite Hf2, Hf1|done| |].
  { intros j b _ Hb. destruct (Hpin b) as (i & Hi & H1); [by eapply list_elem_of_lookup_2|]. exists i.
    split; [apply Hk2, Hk1; [lia|lia|done]|done]. }
  unfold v1. rewrite home_install by done. intros s3 rf3 Hok3 Hroom3 Hr3 Hw3. pose proof (bio_rest_fields _ _ Hr3) as (_ & _ & Hf3 & Hi3 & _).
  set (v3 := apply_writes (home_writes L vw) _) in *.
  assert (Hv3 : v3 st = header L (vw st)).
  { unfold v3. rewrite apply_writes_out, fn_lookup_insert; [done|]. rewrite home_writes_dom. intros Hx.
    apply HLb in Hx as [_ Hx]. apply Hx, in_log_st. }
  apply wp_bind, wp_modify. eapply (wp_write_head swtch fuel p d st Hd Hst rf3 v3 []); [by apply bcache_ok_log|done| |done|].
  { rewrite Hf3, Hf2, Hf1. destruct Hlog as [H1 H2 _ _]. by split. }
  rewrite Hv3. intros s4 Hok4 _ Hr4 Hw4. pose proof (bio_rest_fields _ _ Hr4) as (_ & _ & Hf4 & Hi4 & _). cbn [dwrites image flog set_flog] in *.
  apply HQ.
  - rewrite Hf4, Hf3, Hf2, Hf1. destruct Hlog as [H1 H2 _ _]. by split.
  - by rewrite Hi4, Hi3, Hi2, Hi1.
  - rewrite Hw4, Hw3, Hw2, Hw1. unfold commit_writes. by rewrite <- !app_assoc.
Qed.


End Crash.

(** ** Witnesses: a started machine with its log at block 2 of the disk, and a
    transaction that changes block 100 *)

Definition old_disk : Z -> mem := fun _ _ => 0.
Definition new_disk : Z -> mem := <[100 := (fun _ => 7) : mem]> old_disk.

Lemma log_blocks : loggable 2 [100].
Proof.
  split_and!; [apply NoDup_singleton|done|]. intros b ->%list_elem_of_singleton. unfold is_int, in_log, LOGSIZE, MAXOPBLOCKS. lia.
Qed.

Lemma some_transaction : exists rf s, transaction 0 ROOTDEV 2 [100] rf new_disk s /\ disk s = old_disk.
Proof.
  destruct booted_ok as (_ & Hi & _). revert Hi. generalize booted. intros b Hi.
  destruct (fs_boot_cache old_disk b _ Hi) as (s & _ & Hok & _ & _ & Hdk & _). pose (sw := fun _ : nat => mret tt : E kstate unit).
  assert (Hw : wp (i ← bread sw 0 ROOTDEV 100; upd_buf i (set_bdata (fun _ => 7));; bpin i;; brelse i) (fun _ s' =>
    exists rf i, bcache_ok 0 ROOTDEV ∅ rf new_disk s' /\ caches ROOTDEV s' 100 i /\ (forall j, rf j = if decide (j = i) then 1 else 0) /\ disk s' = old_disk) s).
  { apply wp_bind. eapply (wp_bread sw 0 0 ROOTDEV ∅); [exact Hok|set_solver|intros; lia|right; exists 0%nat; split; [unfold is_buf, NBUF, MAXOPBLOCKS; lia|done]|].
    intros i s1 Hok1 _ Hca1 Hv1 _ (_ & Hr1 & Hw1). pose proof Hca1 as (Hib & Hdi & Hbi). pose proof (bio_rest_disk _ _ Hr1 Hw1) as Hd1.
    apply wp_bind, wp_modify. assert (Hok2 := bcache_ok_data 0 ROOTDEV _ _ _ i (fun _ => 7) s1 Hok1 ltac:(set_solver) Hv1).
    rewrite Hbi in Hok2. set (s2 := set_bufs _ s1) in *.
    assert (Hca2 : caches ROOTDEV s2 100 i) by by apply (kept_set_data ROOTDEV i (fun _ => 7) s1 (fun _ => 1)).
    apply wp_bind. eapply (wp_bref 0 ROOTDEV 1); [exact Hok2|done|rewrite fn_lookup_insert; lia|]. intros s3 Hok3 Hb3 Ho3. pose proof Ho3 as (_ & Hr3 & Hw3).
    eapply (wp_brelse 0 ROOTDEV); [exact Hok3|set_solver|rewrite !fn_lookup_insert; lia|]. intros s4 Hok4 Hb4 Ho4. pose proof Ho4 as (_ & Hr4 & Hw4).
    replace (({[i]} ∪ ∅) ∖ {[i]} : gset nat) with (∅ : gset nat) in Hok4 by set_solver.
    eexists _, i. split_and!; [exact Hok4| | |].
    - by apply (kept_refcnt ROOTDEV (fun _ => 1) i _ s3 s4 Ho4 Hb4), (kept_refcnt ROOTDEV (fun _ => 1) i _ s2 s3 Ho3 Hb3).
    - intros j. case_decide as Hj; [subst; rewrite !fn_lookup_insert; lia|by rewrite !fn_lookup_insert_ne].
    - rewrite (bio_rest_disk _ _ Hr4 Hw4), (bio_rest_disk _ _ Hr3 Hw3). change (disk s2) with (disk s1). by rewrite Hd1. }
  destruct (proj1 (wp_done _ _ _) Hw) as (_ & s' & _ & rf & i & Hok' & Hca & Hrf & Hdk'). exists rf.
  exists (set_flog (Xlog 2 31 0 1 ROOTDEV 1 (fun _ => 100)) s'). split; [|done]. split.
  - by apply bcache_ok_log.
  - split; [done..|]. intros k c Hk. destruct k; [by injection Hk|done].
  - exact log_blocks.
  - intros c ->%list_elem_of_singleton. exists i. split; [done|]. by rewrite Hrf, decide_True.
  - intros j _ Hj. rewrite Hrf in Hj. case_decide as Hji; [subst j|done]. exists 100. split; [by apply list_elem_of_singleton|done].
  - change (hdr_n (disk s' 2) = 0). by rewrite Hdk'.
  - done.
Qed.


(** A disk that a crash has left with block 100 in the log. *)
Definition crashed_disk : Z -> mem := <[2 := header [100] (fun _ => 0)]> (<[3 := (fun _ => 7) : mem]> old_disk).

