(* ===== verification/Path.v ===== *)
(** * kernel/fs/vfs/vfs.c: path names and mounted file systems

    get_absolute_path works in place on a character buffer; the model follows
    it over the byte memory.  [None] means that a loop did not end within the
    bound [lim] on the lengths of strings.  The tables of mount points and file
    systems are lists of MAX_MOUNTS and VFS_MAXFS entries; a file system is its
    index in vfs_fs[]. *)
From S2P Require Import Prelude Mem CString.
Definition SLASH : Z := 47.
Definition DOT : Z := 46.
Definition MAXPATH : Z := 256.
Definition DIRSIZ : Z := 14.
Definition MAX_MOUNTS : Z := 4.
Definition VFS_MAXFS : Z := 4.

(** enum vfs_type. *)
Definition VFS_TYPE_UNKNOWN : Z := 0.
Definition VFS_TYPE_EXT4 : Z := 1.
Definition VFS_TYPE_XV6FS : Z := 2.
Definition VFS_TYPE_PROCFS : Z := 3.

(** struct vfs_filesystem: of its fields, those lookups use; [fs_name] is the
    address of its name. *)
Record vfs_filesystem := VfsFilesystem { fs_dev : Z; fs_name : Z; fs_type : Z }.
(** struct mount_point: [mp] is the address of the path, 0 when unused. *)
Record mount_point := MountPoint { mp : Z; mdev : Z; mtype : Z }.

Section Paths.
(** A bound on the length of every string. *)
Context (lim : nat).
Implicit Types m : mem.

(** while (q >= absolute_path && *q != '/') q--; *)
Fixpoint back_to_slash (fuel : nat) m (abs q : Z) : option Z :=
  if (abs <=? q) && negb (m q =? SLASH) then
    match fuel with
    | O => None
    | S fuel => back_to_slash fuel m abs (q - 1)
    end
  else Some q.

(** The loop that handles ./ and ../ *)
Fixpoint dots_loop (fuel : nat) m (abs p : Z) : option mem :=
  if m p =? 0 then Some m
  else
    match fuel with
    | O => None
    | S fuel =>
      if (m p =? DOT) && (m (p + 1) =? SLASH) then
        m ← strcpy lim m p (p + 2);
        dots_loop fuel m abs p
      else if (m p =? DOT) && (m (p + 1) =? DOT) && (m (p + 2) =? SLASH) then
        q ← back_to_slash lim m abs (p - 2);
        if abs <=? q then
          m ← strcpy lim m (q + 1) (p + 3);
          dots_loop fuel m abs q
        else
          m ← strcpy lim m abs (p + 3);
          dots_loop fuel m abs abs
      else dots_loop fuel m abs (p + 1)
    end.

(** The trailing . and ..; the flag says that the function returns here. *)
Definition trailing_dots m (abs : Z) : option (mem * bool) :=
  n ← strlen lim m abs;
  let p := abs + n - 2 in
  let m := if ((m p =? SLASH) || (m p =? DOT)) && (m (p + 1) =? DOT) && (m (p + 2) =? 0)
           then mset (mset (mset m (p + 2) 0) (p + 1) 0) p 0 else m in
  let p := p - 1 in
  if (m p =? SLASH) && (m (p + 1) =? DOT) && (m (p + 2) =? DOT) && (m (p + 3) =? 0) then
    if p =? abs then Some (mset (mset (mset m (p + 3) 0) (p + 2) 0) (p + 1) 0, true)
    else
      q ← back_to_slash lim m abs (p - 1);
      if abs <=? q then Some (mset m q 0, false)
      else m ← strcpy lim m abs (p + 4); Some (m, false)
  else Some (m, false).

(** while (absolute_path[0] == '/' && absolute_path[1] == '/') *)
Fixpoint squeeze_loop (fuel : nat) m (abs : Z) : option mem :=
  if (m abs =? SLASH) && (m (abs + 1) =? SLASH) then
    match fuel with
    | O => None
    | S fuel => m ← strcpy lim m abs (abs + 1); squeeze_loop fuel m abs
    end
  else Some m.

(** while (x > absolute_path) { *x = *(x - 1); x--; }, [n] = x - absolute_path. *)
Fixpoint shift_right (n : nat) m (x : Z) : mem :=
  match n with
  | O => m
  | S n => shift_right n (mset m x (m (x - 1))) (x - 1)
  end.

Definition leading_slash m (abs : Z) : option mem :=
  n ← strlen lim m abs;
  if n =? 0 then Some (mset (mset m abs SLASH) (abs + 1) 0)
  else if negb (m abs =? SLASH) then
    len2 ← strlen lim m abs;
    let m := mset m (abs + len2 + 1) 0 in
    Some (mset (shift_right (Z.to_nat len2) m (abs + len2)) abs SLASH)
  else Some m.

(** What get_absolute_path does once the two paths are joined. *)
Definition normalize m (abs : Z) : option mem :=
  m ← dots_loop (2 * lim) m abs abs;
  r ← trailing_dots m abs;
  let '(m, returned) := r in
  if (returned : bool) then Some m
  else
    m ← squeeze_loop lim m abs;
    len ← strlen lim m abs;
    let m := if m (abs + len - 1) =? SLASH then mset m (abs + len - 1) 0 else m in
    leading_slash m abs.

(** [slash] is the address of the string literal for a slash. *)
Definition get_absolute_path (slash : Z) m (path cwd abs : Z) : option mem :=
  m ← (if path =? 0 then n ← strlen lim m cwd; Some (strncpy m abs cwd n)
       else if m path =? SLASH then strcpy lim m abs path
       else m ← strcpy lim m abs cwd; m ← strcat lim m abs slash; strcat lim m abs path);
  normalize m abs.

(** ** Path elements *)

Fixpoint skip_slashes (fuel : nat) m (path : Z) : option Z :=
  if m path =? SLASH then match fuel with O => None | S fuel => skip_slashes fuel m (path + 1) end
  else Some path.
Fixpoint skip_name (fuel : nat) m (path : Z) : option Z :=
  if negb (m path =? SLASH) && negb (m path =? 0) then match fuel with O => None | S fuel => skip_name fuel m (path + 1) end
  else Some path.

(** The memory with the element at [name], and the rest of the path, 0 if there
    is no element. *)
Definition skipelem m (path name : Z) : option (mem * Z) :=
  path ← skip_slashes lim m path;
  if m path =? 0 then Some (m, 0)
  else
    let s := path in
    path ← skip_name lim m path;
    let len := path - s in
    let m := if DIRSIZ <=? len then memmove m name s DIRSIZ else mset (memmove m name s len) (name + len) 0 in
    path ← skip_slashes lim m path;
    Some (m, path).

(** ** Mounted file systems *)

Definition vfs_find (test : vfs_filesystem -> bool) (vfs_fs : list (option vfs_filesystem)) : option nat :=
  fst <$> list_find (fun f => from_option test false f = true) vfs_fs.

Definition vfs_getfs_bytype (vfs_fs : list (option vfs_filesystem)) (type : Z) : option nat :=
  if type =? VFS_TYPE_UNKNOWN then None else vfs_find (fun f => fs_type f =? type) vfs_fs.
Definition vfs_getfs_bydev (vfs_fs : list (option vfs_filesystem)) (dev : Z) : option nat :=
  vfs_find (fun f => fs_dev f =? dev) vfs_fs.
Definition vfs_getfs_byname m (vfs_fs : list (option vfs_filesystem)) (name : Z) : option nat :=
  vfs_find (fun f => bool_decide (strcmp lim m (fs_name f) name = Some 0)) vfs_fs.

(** The loop over the mount points; [best] is selected_fs with
    longest_match_len, which starts as -1. *)
Fixpoint resolve_loop m (vfs_fs : list (option vfs_filesystem)) (abs_path : Z) (mounts : list mount_point)
    (best : option nat * Z) : option (option nat * Z) :=
  match mounts with
  | [] => Some best
  | r :: mounts =>
    match vfs_getfs_bytype vfs_fs (mtype r) with
    | None => resolve_loop m vfs_fs abs_path mounts best
    | Some fs =>
      if mp r =? 0 then resolve_loop m vfs_fs abs_path mounts best
      else
        len ← strlen lim m (mp r);
        c ← substr_cmp lim m (mp r) abs_path;
        resolve_loop m vfs_fs abs_path mounts (if (c =? 0) && (best.2 <? len) then (Some fs, len) else best)
    end
  end.

(** [abs_path] is the local buffer, zeroed by its initialiser, and [slash] the
    literal the path is taken to be relative to. *)
Definition vfs_resolve_fs (slash : Z) (vfs_fs : list (option vfs_filesystem)) (mounts : list mount_point) m (path abs_path : Z) :
    option (option nat * mem) :=
  let m := memset m abs_path 0 MAXPATH in
  m ← get_absolute_path slash m path slash abs_path;
  r ← resolve_loop m vfs_fs abs_path mounts (None, -1);
  Some (r.1, m).

(** The first unused entry is taken; -1 when there is none. *)
Definition vfs_mount (fs : vfs_filesystem) (path : Z) (mounts : list mount_point) : Z * list mount_point :=
  match list_find (fun r => mp r = 0) mounts with
  | Some (i, r) => (0, <[i := MountPoint path (mdev r) (fs_type fs)]> mounts)
  | None => (-1, mounts)
  end.
Definition addfs (fs : vfs_filesystem) (vfs_fs : list (option vfs_filesystem)) : Z * list (option vfs_filesystem) :=
  match list_find (fun f => f = None) vfs_fs with
  | Some (i, _) => (0, <[i := Some fs]> vfs_fs)
  | None => (-1, vfs_fs)
  end.
Definition init_vfs_mtable : list mount_point :=
  replicate (Z.to_nat MAX_MOUNTS) (MountPoint 0 (-1) VFS_TYPE_UNKNOWN).
End Paths.

(** * What the path functions compute

    On lists of characters: [abs_path] is the string get_absolute_path leaves
    in the buffer, for any string; on paths whose elements do not end in a dot
    (other than . and .. themselves) it resolves . and .. as a stack of names
    does, except for a .. at the end. *)

Implicit Types (m : mem) (l post : list Z).

(** ** The function on lists *)

(** Back to the last slash; [r] is the reversed prefix. *)
Fixpoint to_slash (r : list Z) : list Z :=
  match r with
  | [] => []
  | c :: r' => if c =? SLASH then r else to_slash r'
  end.
Definition up (rpre : list Z) : list Z := to_slash (tail rpre).

Fixpoint dots (rpre post : list Z) : list Z :=
  match post with
  | [] => rev rpre
  | c :: t1 =>
    if c =? DOT then
      match t1 with
      | [] => dots (c :: rpre) t1
      | d :: t2 =>
        if d =? SLASH then dots rpre t2
        else if d =? DOT then
          match t2 with
          | [] => dots (c :: rpre) t1
          | e :: t3 => if e =? SLASH then dots (up rpre) t3 else dots (c :: rpre) t1
          end
        else dots (c :: rpre) t1
      end
    else dots (c :: rpre) t1
  end.

Definition drop_dots (l : list Z) : list Z :=
  match rev l with
  | d :: c :: r => if (d =? DOT) && ((c =? SLASH) || (c =? DOT)) then rev r else l
  | _ => l
  end.
Fixpoint squeeze (l : list Z) : list Z :=
  match l with
  | c :: t => match t with
              | d :: _ => if (c =? SLASH) && (d =? SLASH) then squeeze t else l
              | [] => l
              end
  | [] => l
  end.
Definition drop_slash (l : list Z) : list Z :=
  match rev l with
  | d :: r => if d =? SLASH then rev r else l
  | [] => l
  end.
Definition add_slash (l : list Z) : list Z :=
  match l with
  | [] => [SLASH]
  | c :: _ => if c =? SLASH then l else SLASH :: l
  end.
Definition abs_path (l : list Z) : list Z := add_slash (drop_slash (squeeze (drop_dots (dots [] l)))).

(** ** Strings in memory *)

Lemma strcpy_cstr fuel m d s l :
  bytes_ok m -> cstr m s l -> (length l < fuel)%nat -> d <= s \/ s + Z.of_nat (length l) + 1 <= d ->
  exists m', strcpy fuel m d s = Some m' /\ cstr m' d l /\ bytes_ok m' /\
    forall x, x < d \/ d + Z.of_nat (length l) + 1 <= x -> m' x = m x.
Proof.
  revert m d s l. induction fuel as [|fuel IH]; intros m d s l Hm Hl Hf Hd; [lia|]. destruct l as [|c l]; cbn [cstr length strcpy] in *.
  - rewrite Hl. simpl. eexists. split_and!; [done|apply mset_eq|by apply mset_ok|]. intros x Hx. apply mset_ne. lia.
  - destruct Hl as (Hc & Hc0 & Hl). rewrite Hc. destruct (Z.eqb_spec c 0); [done|].
    assert (Hl' : cstr (mset m d c) (s + 1) l).
    { eapply cstr_ext; [done|]. intros x Hx. rewrite mset_ne; [done|lia]. }
    destruct (IH _ (d + 1) (s + 1) l (mset_ok m d c Hm) Hl' ltac:(lia) ltac:(lia)) as (m' & -> & H1 & H2 & H3).
    exists m'. split_and!; [done| |done|done|done|].
    + rewrite H3, mset_eq by lia. rewrite <- Hc. by apply u8_byte.
    + intros x Hx. rewrite H3, mset_ne by lia. done.
Qed.

Lemma cstr_split m a l1 l2 : cstr m a (l1 ++ l2) ->
  (forall i c, l1 !! i = Some c -> m (a + Z.of_nat i) = c /\ c <> 0) /\ cstr m (a + Z.of_nat (length l1)) l2.
Proof.
  intros H. split.
  - intros i c Hi. eapply cstr_lookup; [exact H|]. by apply lookup_app_l_Some.
  - revert a H. induction l1 as [|c l1 IH]; intros a H; cbn [app length cstr] in *; [by rewrite Z.add_0_r|].
    destruct H as (_ & _ & H). apply IH in H. by replace (a + Z.of_nat (S (length l1))) with (a + 1 + Z.of_nat (length l1)) by lia.
Qed.

(** The string after [l2] has been copied over the one at the end of [l1]. *)
Lemma cstr_replace m m' a l1 l2 l3 :
  cstr m a (l1 ++ l2) -> cstr m' (a + Z.of_nat (length l1)) l3 ->
  (forall x, x < a + Z.of_nat (length l1) -> m' x = m x) -> cstr m' a (l1 ++ l3).
Proof.
  intros H H3 Hs. apply cstr_split in H as [H1 _]. apply cstr_app; [|done].
  intros i c Hi. rewrite Hs; [by apply H1|]. apply lookup_lt_Some in Hi. lia.
Qed.

(** The character at the current position. *)
Lemma cstr_head m a l : cstr m a l -> m a = default 0 (head l).
Proof. destruct l; simpl; [done|]. by intros [-> _]. Qed.

Lemma cstr_nonzero m a l : cstr m a l -> forall c, c ∈ l -> c <> 0.
Proof.
  intros H c Hc. apply list_elem_of_lookup in Hc as [i Hi]. by destruct (cstr_lookup _ _ _ _ _ H Hi).
Qed.

Section Memory.
Context (lim : nat).

Lemma back_to_slash_spec fuel m abs r :
  cstr m abs (rev r) \/ (exists l2, cstr m abs (rev r ++ l2)) -> (length r <= fuel)%nat ->
  back_to_slash fuel m abs (abs + Z.of_nat (length r) - 1) = Some (abs + Z.of_nat (length (to_slash r)) - 1).
Proof.
  intros Hc. assert (exists l2, cstr m abs (rev r ++ l2)) as [l2 H] by (destruct Hc as [H|]; [exists []; by rewrite app_nil_r|done]). clear Hc.
  revert fuel l2 H. induction r as [|c r IH]; intros fuel l2 H Hf; simpl in H.
  - replace (abs + Z.of_nat (length []) - 1) with (abs - 1) by (simpl; lia).
    destruct fuel; simpl; (destruct (Z.leb_spec abs (abs - 1)); [lia|]); simpl; f_equal; lia.
  - rewrite <- app_assoc in H. pose proof (proj2 (cstr_split _ _ _ _ H)) as Ht. simpl in Ht. destruct Ht as (Hch & _ & _).
    rewrite length_rev in Hch. simpl in Hf. destruct fuel as [|fuel]; [lia|].
    cbn [back_to_slash length to_slash]. replace (abs + Z.of_nat (S (length r)) - 1) with (abs + Z.of_nat (length r)) by lia.
    rewrite Hch. destruct (Z.leb_spec abs (abs + Z.of_nat (length r))); [|lia]. destruct (Z.eqb_spec c SLASH) as [->|Hne]; simpl.
    + f_equal. lia.
    + by apply (IH fuel (c :: l2)); [|lia].
Qed.

Lemma to_slash_split r : exists k, r = k ++ to_slash r.
Proof.
  induction r as [|c r [k IH]]; [by exists []|]. simpl. destruct (c =? SLASH); [by exists []|]. exists (c :: k). by rewrite IH at 1.
Qed.

Lemma to_slash_cases r : to_slash r = [] \/ exists r', to_slash r = SLASH :: r'.
Proof.
  induction r as [|c r IH]; [by left|]. simpl. destruct (Z.eqb_spec c SLASH) as [->|]; [right; by exists r|done].
Qed.

(** What a run of the loop from position [p] of the string leaves. *)
Definition dots_done (abs : Z) (rpre post : list Z) m (r : option mem) : Prop :=
  exists m', r = Some m' /\ cstr m' abs (dots rpre post) /\ bytes_ok m' /\
    (length (dots rpre post) <= length rpre + length post)%nat /\
    forall x, x < abs \/ abs + Z.of_nat (length rpre + length post) + 1 <= x -> m' x = m x.

Lemma dots_done_mono abs rpre post m rpre1 post1 m1 r :
  dots_done abs rpre1 post1 m1 r -> dots rpre post = dots rpre1 post1 ->
  (length rpre1 + length post1 <= length rpre + length post)%nat ->
  (forall x, x < abs \/ abs + Z.of_nat (length rpre + length post) + 1 <= x -> m1 x = m x) ->
  dots_done abs rpre post m r.
Proof.
  intros (m' & -> & H1 & H2 & H3 & H4) He Hl Hs. exists m'. rewrite He. split_and!; [done|done|done|lia|].
  intros x Hx. rewrite H4 by lia. by apply Hs.
Qed.

Lemma dots_loop_spec abs n : forall post fuel rpre m, (length post <= n)%nat ->
  bytes_ok m -> cstr m abs (rev rpre ++ post) -> (length rpre + length post < lim)%nat -> (length post <= fuel)%nat ->
  dots_done abs rpre post m (dots_loop lim fuel m abs (abs + Z.of_nat (length rpre))).
Proof.
  induction n as [|n IH]; intros post fuel rpre m Hn Hm Hc Hlim Hf.
  { destruct post; [|simpl in Hn; lia]. exists m. rewrite app_nil_r in Hc. destruct fuel; cbn [dots_loop];
      (pose proof (cstr_split _ _ (rev rpre) [] ltac:(by rewrite app_nil_r)) as [_ H0]; simpl in H0; rewrite length_rev in H0; rewrite H0);
      (split_and!; [done|done|done|simpl; rewrite length_rev; lia|done]). }
  pose proof (cstr_split _ _ _ _ Hc) as [Hpre Ht]. rewrite length_rev in Ht. set (p := abs + Z.of_nat (length rpre)) in *.
  destruct post as [|c t1].
  { apply (IH [] fuel rpre m); simpl; try done; lia. }
  cbn [length] in *. destruct fuel as [|fuel]; [lia|]. pose proof Ht as (Hp & Hc0 & Ht1).
  cbn [dots_loop]. rewrite Hp. destruct (Z.eqb_spec c 0) as [|_]; [done|].
  (* the default: one character on *)
  assert (Hdef : dots rpre (c :: t1) = dots (c :: rpre) t1 -> dots_done abs rpre (c :: t1) m (dots_loop lim fuel m abs (p + 1))).
  { intros He. eapply dots_done_mono; [|exact He|simpl; lia|done]. replace (p + 1) with (abs + Z.of_nat (length (c :: rpre))) by (simpl length; lia).
    apply IH; [lia|done| |simpl; lia|lia]. simpl. by rewrite <- app_assoc. }
  rewrite (cstr_head _ _ _ Ht1). cbn [dots] in Hdef. destruct (Z.eqb_spec c DOT) as [->|Hcd]; [|by apply Hdef].
  destruct t1 as [|d t2]; cbn [head default from_option id] in *; [by apply Hdef|]. destruct Ht1 as (_ & Hd0 & Ht2).
  replace (p + 1 + 1) with (p + 2) in Ht2 by lia. cbn [andb] in *. destruct (Z.eqb_spec d SLASH) as [->|Hds].
  { (* ./ *)
    cbn [length] in *. destruct (strcpy_cstr lim m p (p + 2) t2 Hm Ht2) as (m1 & -> & H1 & H2 & H3); [lia|lia|]. cbn [mbind option_bind].
    eapply (dots_done_mono _ _ _ _ rpre t2 m1); [|done|simpl; lia|].
    - apply IH; [lia|done| |lia|lia]. eapply cstr_replace; [exact Hc|by rewrite length_rev|]. intros x Hx. rewrite length_rev in Hx. apply H3. lia.
    - intros x Hx. cbn [length] in Hx. apply H3. lia. }
  rewrite (cstr_head _ _ _ Ht2). destruct (Z.eqb_spec d DOT) as [->|Hdd]; [|by apply Hdef].
  destruct t2 as [|e t3]; cbn [head default from_option id] in *; [by apply Hdef|]. destruct (Z.eqb_spec e SLASH) as [->|Hes]; [|by apply Hdef].
  (* ../ *)
  destruct Ht2 as (_ & _ & Ht3). replace (p + 2 + 1) with (p + 3) in Ht3 by lia. cbn [length andb] in *. clear Hdef.
  assert (Htop : dots rpre (DOT :: DOT :: SLASH :: t3) = dots [] t3 -> dots_done abs rpre (DOT :: DOT :: SLASH :: t3) m
    (m ← strcpy lim m abs (p + 3); dots_loop lim fuel m abs abs)).
  { intros He. destruct (strcpy_cstr lim m abs (p + 3) t3 Hm Ht3) as (m1 & -> & H1 & H2 & H3); [lia|lia|]. cbn [mbind option_bind].
    eapply (dots_done_mono _ _ _ _ [] t3 m1); [|done|simpl; lia|].
    - pose proof (IH t3 fuel [] m1) as HI. simpl length in HI. rewrite Z.add_0_r in HI. apply HI; [lia|done|done|lia|lia].
    - intros x Hx. cbn [length] in Hx. apply H3. lia. }
  destruct rpre as [|x0 r].
  { assert (back_to_slash lim m abs (p - 2) = Some (p - 2)) as ->.
    { assert (Hlt : (abs <=? p - 2) = false) by (apply Z.leb_gt; unfold p; simpl; lia). destruct lim; cbn [back_to_slash]; by rewrite Hlt. }
    cbn [mbind option_bind]. destruct (Z.leb_spec abs (p - 2)); [unfold p in *; simpl in *; lia|]. by apply Htop. }
  assert (back_to_slash lim m abs (p - 2) = Some (abs + Z.of_nat (length (to_slash r)) - 1)) as ->.
  { replace (p - 2) with (abs + Z.of_nat (length r) - 1) by (unfold p; simpl length; lia). apply back_to_slash_spec; [|simpl in *; lia].
    right. eexists. simpl in Hc. rewrite <- app_assoc in Hc. exact Hc. }
  cbn [mbind option_bind]. destruct (to_slash_cases r) as [Hr|[r' Hr]]; rewrite Hr.
  { destruct (Z.leb_spec abs (abs + Z.of_nat (length (@nil Z)) - 1)); [simpl in *; lia|]. apply Htop. cbn [dots up tail]. unfold up. simpl. by rewrite Hr. }
  destruct (to_slash_split r) as [k Hk]. rewrite Hr in Hk.
  assert (Hlr : (length r' + 1 <= length r)%nat) by (rewrite Hk, length_app; simpl; lia).
  cbn [length]. replace (abs + Z.of_nat (S (length r')) - 1) with (abs + Z.of_nat (length r')) by lia.
  destruct (Z.leb_spec abs (abs + Z.of_nat (length r'))); [|lia]. cbn [length] in *.
  destruct (strcpy_cstr lim m (abs + Z.of_nat (length r') + 1) (p + 3) t3 Hm Ht3) as (m1 & -> & H1 & H2 & H3); [lia|unfold p; simpl length; lia|]. cbn [mbind option_bind].
  eapply (dots_done_mono _ _ _ _ r' (SLASH :: t3) m1); [| |simpl; lia|].
  - apply IH; [simpl; lia|done| |simpl; lia|simpl; lia].
    change (SLASH :: t3) with ([SLASH] ++ t3). rewrite app_assoc. eapply (cstr_replace m _ _ _ (rev k ++ [x0] ++ DOT :: DOT :: SLASH :: t3)).
    + rewrite Hk in Hc. simpl in Hc. rewrite rev_app_distr in Hc. simpl in Hc. by rewrite <- !app_assoc in *.
    + rewrite length_app, length_rev. simpl length. by replace (abs + Z.of_nat (length r' + 1)) with (abs + Z.of_nat (length r') + 1) by lia.
    + intros x Hx. rewrite length_app, length_rev in Hx. simpl length in Hx. apply H3. lia.
  - cbn [dots up tail]. unfold up. simpl. by rewrite Hr.
  - intros x Hx. cbn [length] in Hx. apply H3. lia.
Qed.

(** The byte before the buffer is neither a dot nor a slash: the code reads it
    when the string is shorter than what it looks for. *)
Definition guarded m (abs : Z) : Prop := m (abs - 1) <> DOT /\ m (abs - 1) <> SLASH.

(** [m'] has the string [l'] in place of [l]; nothing else has changed. *)
Definition rewritten (abs : Z) (l l' : list Z) m m' : Prop :=
  cstr m' abs l' /\ bytes_ok m' /\ (length l' <= length l)%nat /\
  forall x, x < abs \/ abs + Z.of_nat (length l) + 1 <= x -> m' x = m x.

Lemma rewritten_trans abs l1 l2 l3 m1 m2 m3 :
  rewritten abs l1 l2 m1 m2 -> rewritten abs l2 l3 m2 m3 -> rewritten abs l1 l3 m1 m3.
Proof.
  intros (H1 & H2 & H3 & H4) (G1 & G2 & G3 & G4). split_and!; [done|done|lia|]. intros x Hx. rewrite G4, H4 by lia. done.
Qed.

Lemma rewritten_guarded abs l l' m m' : rewritten abs l l' m m' -> guarded m abs -> guarded m' abs.
Proof. intros (_ & _ & _ & H) Hg. unfold guarded. by rewrite H by lia. Qed.

(** Cutting a string short. *)
Lemma cstr_cut m abs l1 l2 : bytes_ok m -> cstr m abs (l1 ++ l2) ->
  rewritten abs (l1 ++ l2) l1 m (mset m (abs + Z.of_nat (length l1)) 0).
Proof.
  intros Hm H. split_and!; [|by apply mset_ok|rewrite length_app; lia|].
  - rewrite <- (app_nil_r l1) at 2. eapply cstr_replace; [exact H|simpl; apply mset_eq|]. intros x Hx. apply mset_ne. lia.
  - intros x Hx. apply mset_ne. rewrite length_app in Hx. lia.
Qed.

(** trailing_dots once the two tests are known. *)
Lemma trailing_dots_eval abs n m b m1 : strlen lim m abs = Some n ->
  let p := abs + n - 2 in
  ((m p =? SLASH) || (m p =? DOT)) && (m (p + 1) =? DOT) && (m (p + 2) =? 0) = b ->
  m1 = (if b then mset (mset (mset m (p + 2) 0) (p + 1) 0) p 0 else m) ->
  (m1 (p - 1) =? SLASH) && (m1 p =? DOT) && (m1 (p + 1) =? DOT) && (m1 (p + 2) =? 0) = false ->
  trailing_dots lim m abs = Some (m1, false).
Proof.
  intros Hn p Hb Hm1 H2. unfold trailing_dots. rewrite Hn. cbn [mbind option_bind]. fold p. cbn zeta. rewrite Hb, <- Hm1.
  replace (p - 1 + 1) with p by lia. replace (p - 1 + 2) with (p + 1) by lia. replace (p - 1 + 3) with (p + 2) by lia. by rewrite H2.
Qed.

Lemma trailing_dots_spec abs l m :
  bytes_ok m -> cstr m abs l -> guarded m abs -> (length l < lim)%nat ->
  exists m', trailing_dots lim m abs = Some (m', false) /\ rewritten abs l (drop_dots l) m m'.
Proof.
  intros Hm Hc [Hg1 Hg2] Hlim. pose proof (strlen_cstr lim m abs l Hc Hlim) as Hn.
  assert (Hsame : rewritten abs l l m m) by by split_and!.
  apply Z.eqb_neq in Hg1, Hg2.
  destruct l as [|d l1] using rev_ind; [|clear IHl1; destruct l1 as [|c l0] using rev_ind; [|clear IHl0]].
  - exists m. split; [|done]. apply (trailing_dots_eval abs _ m false m Hn); [|done|];
      (replace (abs + Z.of_nat (length []) - 2 + 1) with (abs - 1) by (simpl; lia)); rewrite Hg1; by rewrite ?andb_false_r.
  - exists m. split; [|done]. apply (trailing_dots_eval abs _ m false m Hn); [|done|];
      (replace (abs + Z.of_nat (length ([] ++ [d])) - 2) with (abs - 1) by (simpl; lia)); rewrite Hg1, ?Hg2; by rewrite ?andb_false_r.
  - rewrite <- app_assoc in *. cbn [app] in *. set (p := abs + Z.of_nat (length l0)).
    assert (Hlen : abs + Z.of_nat (length (l0 ++ [c; d])) - 2 = p) by (rewrite length_app; simpl length; lia).
    pose proof (cstr_split _ _ _ _ Hc) as [_ (Hp & _ & Hp1 & _ & Hp2)]. fold p in Hp, Hp1, Hp2. replace (p + 1 + 1) with (p + 2) in Hp2 by lia.
    unfold drop_dots. rewrite rev_app_distr. cbn [rev app]. rewrite rev_involutive.
    pose proof (fun b m1 => trailing_dots_eval abs _ m b m1 Hn) as Hev. cbn zeta in Hev. simpl in Hp2. rewrite Hlen, Hp, Hp1, Hp2 in Hev.
    rewrite (andb_comm (d =? DOT)). destruct (((c =? SLASH) || (c =? DOT)) && (d =? DOT)) eqn:Hcd.
    + eexists. split; [eapply (Hev true); [done|reflexivity|]|].
      * rewrite mset_eq. by rewrite andb_false_r.
      * assert (H1 : cstr (mset m (p + 2) 0) abs (l0 ++ [c; d])).
        { eapply cstr_ext; [exact Hc|]. intros x Hx. unfold mset. destruct (Z.eqb_spec x (p + 2)) as [->|]; [by rewrite Hp2|done]. }
        change (l0 ++ [c; d]) with (l0 ++ [c] ++ [d]) in H1. rewrite app_assoc in H1.
        pose proof (cstr_cut _ _ _ _ (mset_ok m (p + 2) 0 Hm) H1) as H2. rewrite length_app in H2. cbn [length] in H2.
        replace (abs + Z.of_nat (length l0 + 1)) with (p + 1) in H2 by lia.
        pose proof (cstr_cut _ abs l0 [c] ltac:(by apply mset_ok, mset_ok) ltac:(apply H2)) as H3. fold p in H3.
        destruct (rewritten_trans _ _ _ _ _ _ _ H2 H3) as (G1 & G2 & G3 & G4). split_and!; [done|done|rewrite length_app; simpl; lia|].
        intros x Hx. rewrite length_app in *. cbn [length] in *. rewrite G4 by (rewrite ?length_app; simpl; lia). apply mset_ne. lia.
    + exists m. split; [|done]. apply (Hev false); [done|done|]. rewrite Hp, Hp1, Hp2.
      destruct (c =? DOT); [|by rewrite !andb_false_r]. rewrite orb_true_r in Hcd. cbn [andb] in Hcd. by rewrite Hcd, !andb_false_r.
Qed.

Lemma squeeze_loop_spec abs l : forall fuel m, bytes_ok m -> cstr m abs l -> (length l < lim)%nat -> (length l <= fuel)%nat ->
  exists m', squeeze_loop lim fuel m abs = Some m' /\ rewritten abs l (squeeze l) m m'.
Proof.
  induction l as [|c t IH]; intros fuel m Hm Hc Hlim Hf.
  { exists m. simpl in Hc. destruct fuel; cbn [squeeze_loop]; rewrite Hc; cbn [Z.eqb SLASH andb]; (split; [done|]); by split_and!. }
  simpl in Hf. destruct fuel as [|fuel]; [lia|]. pose proof Hc as (Ha & Hc0 & Ht). cbn [squeeze_loop squeeze]. rewrite Ha, (cstr_head _ _ _ Ht).
  destruct t as [|d t']; cbn [head default from_option id].
  { exists m. change (0 =? SLASH) with false. rewrite andb_false_r. split; [done|]. by split_and!. }
  destruct ((c =? SLASH) && (d =? SLASH)) eqn:Hcd; [|exists m; split; [done|]; by split_and!].
  cbn [length] in *. destruct (strcpy_cstr lim m abs (abs + 1) (d :: t') Hm Ht) as (m1 & -> & H1 & H2 & H3); [simpl; lia|lia|]. cbn [mbind option_bind].
  destruct (IH fuel m1 H2 H1) as (m' & -> & G1 & G2 & G3 & G4); [simpl; lia|simpl; lia|]. exists m'. split; [done|]. split_and!; [done|done|etrans; [exact G3|cbn [length]; lia]|].
  intros x Hx. cbn [length] in Hx. rewrite G4, H3 by (cbn [length]; lia). done.
Qed.

Lemma drop_slash_spec abs l m : bytes_ok m -> cstr m abs l -> guarded m abs ->
  let a := abs + Z.of_nat (length l) - 1 in
  rewritten abs l (drop_slash l) m (if m a =? SLASH then mset m a 0 else m).
Proof.
  intros Hm Hc [_ Hg] a. assert (Hsame : rewritten abs l l m m) by by split_and!. unfold drop_slash.
  destruct l as [|d l0] using rev_ind; [|clear IHl0].
  - unfold a. replace (abs + Z.of_nat (length []) - 1) with (abs - 1) by (simpl; lia). by destruct (Z.eqb_spec (m (abs - 1)) SLASH).
  - rewrite rev_app_distr. cbn [rev app]. rewrite rev_involutive.
    assert (Ha : a = abs + Z.of_nat (length l0)) by (unfold a; rewrite length_app; simpl length; lia).
    pose proof (cstr_split _ _ _ _ Hc) as [_ (Hd & _)]. rewrite Ha, Hd. destruct (d =? SLASH); [by apply cstr_cut|done].
Qed.

(** Shifting [n] characters by one place. *)
Lemma shift_right_spec n : forall m x, bytes_ok m -> bytes_ok (shift_right n m x) /\
  forall y, shift_right n m x y = if (x - Z.of_nat n <? y) && (y <=? x) then m (y - 1) else m y.
Proof.
  induction n as [|n IH]; intros m x Hm; cbn [shift_right].
  - split; [done|]. intros y. by destruct (Z.ltb_spec (x - Z.of_nat 0) y), (Z.leb_spec y x); try lia.
  - destruct (IH (mset m x (m (x - 1))) (x - 1) (mset_ok _ _ _ Hm)) as [H1 H2]. split; [done|]. intros y. rewrite H2. unfold mset.
    rewrite (u8_byte m (x - 1)) by done.
    destruct (Z.ltb_spec (x - 1 - Z.of_nat n) y), (Z.leb_spec y (x - 1)), (Z.ltb_spec (x - Z.of_nat (S n)) y), (Z.leb_spec y x),
      (Z.eqb_spec (y - 1) x), (Z.eqb_spec y x); cbn [andb]; try lia; try done. by subst y.
Qed.

Lemma cstr_shift m l : forall a, cstr m a l -> cstr (fun y => m (y - 1)) (a + 1) l.
Proof.
  induction l as [|x l IH]; intros a; cbn [cstr]; replace (a + 1 - 1) with a by lia; [done|].
  intros (H1 & H2 & H3). split_and!; [done|done|]. by apply IH.
Qed.

Lemma leading_slash_spec abs l m :
  bytes_ok m -> cstr m abs l -> (length l < lim)%nat ->
  exists m', leading_slash lim m abs = Some m' /\ cstr m' abs (add_slash l) /\ bytes_ok m' /\
    forall x, x < abs \/ abs + Z.of_nat (length l) + 2 <= x -> m' x = m x.
Proof.
  intros Hm Hc Hlim. unfold leading_slash. rewrite (strlen_cstr lim m abs l) by done. cbn [mbind option_bind].
  destruct l as [|c t].
  { simpl. eexists. split_and!; [done|rewrite mset_ne, mset_eq by lia; done|done|apply mset_eq|by apply mset_ok, mset_ok|].
    intros x Hx. rewrite !mset_ne by lia. done. }
  destruct (Z.eqb_spec (Z.of_nat (length (c :: t))) 0); [simpl in *; lia|]. pose proof Hc as (Ha & _ & _). rewrite Ha. cbn [add_slash].
  destruct (c =? SLASH) eqn:Hcs; cbn [negb]; [exists m; by split_and!|]. rewrite Nat2Z.id. set (l := c :: t) in *. remember (length l) as k eqn:Hk.
  destruct (shift_right_spec k (mset m (abs + Z.of_nat k + 1) 0) (abs + Z.of_nat k) (mset_ok _ _ _ Hm)) as [H1 H2].
  eexists. split_and!; [done| |by apply mset_ok|].
  - change (SLASH :: l) with ([SLASH] ++ l). apply cstr_app.
    + intros [|i] x Hi; [|done]. injection Hi as <-. rewrite Z.add_0_r, mset_eq. done.
    + cbn [length]. change (abs + Z.of_nat 1) with (abs + 1). pose proof (cstr_shift _ _ _ Hc) as Hs.
      eapply cstr_ext; [exact Hs|]. intros y Hy. rewrite <- Hk in Hy. rewrite mset_ne by lia. rewrite H2.
      destruct (Z.ltb_spec (abs + Z.of_nat k - Z.of_nat k) y), (Z.leb_spec y (abs + Z.of_nat k)); cbn [andb]; try lia.
      * by rewrite mset_ne by lia.
      * assert (y = abs + Z.of_nat k + 1) as -> by lia. rewrite mset_eq. replace (abs + Z.of_nat k + 1 - 1) with (abs + Z.of_nat k) by lia.
        assert (Hl0 : cstr m abs (l ++ [])) by by rewrite app_nil_r. apply cstr_split in Hl0 as [_ Hend]. rewrite <- Hk in Hend. simpl in Hend. by rewrite Hend.
  - intros x Hx. rewrite mset_ne by lia. rewrite H2. destruct (Z.ltb_spec (abs + Z.of_nat k - Z.of_nat k) x), (Z.leb_spec x (abs + Z.of_nat k)); cbn [andb]; try lia;
      by rewrite mset_ne by lia.
Qed.

Lemma normalize_spec abs l m :
  bytes_ok m -> cstr m abs l -> guarded m abs -> (length l < lim)%nat ->
  exists m', normalize lim m abs = Some m' /\ cstr m' abs (abs_path l) /\ bytes_ok m' /\
    forall x, x < abs \/ abs + Z.of_nat (length l) + 2 <= x -> m' x = m x.
Proof.
  intros Hm Hc Hg Hlim. unfold normalize.
  destruct (dots_loop_spec abs (length l) l (2 * lim) [] m) as (m1 & E1 & H1 & B1 & L1 & S1); [lia|done|done|simpl; lia|lia|].
  simpl length in E1, L1, S1. rewrite Z.add_0_r in E1. rewrite E1. cbn [mbind option_bind].
  assert (R1 : rewritten abs l (dots [] l) m m1) by (split_and!; [done|done|lia|done]).
  pose proof (rewritten_guarded _ _ _ _ _ R1 Hg) as Hg1.
  destruct (trailing_dots_spec abs _ m1 B1 H1 Hg1 ltac:(lia)) as (m2 & -> & R2). cbn [mbind option_bind].
  pose proof (rewritten_guarded _ _ _ _ _ R2 Hg1) as Hg2. pose proof R2 as (H2 & B2 & L2 & _).
  destruct (squeeze_loop_spec abs _ lim m2 B2 H2 ltac:(lia) ltac:(lia)) as (m3 & -> & R3). cbn [mbind option_bind].
  pose proof (rewritten_guarded _ _ _ _ _ R3 Hg2) as Hg3. pose proof R3 as (H3 & B3 & L3 & _).
  rewrite (strlen_cstr lim m3 abs _ H3) by lia. cbn [mbind option_bind].
  pose proof (drop_slash_spec abs _ m3 B3 H3 Hg3) as R4. cbn zeta in R4. set (m4 := if _ =? _ then _ else _) in *. pose proof R4 as (H4 & B4 & L4 & _).
  destruct (leading_slash_spec abs _ m4 B4 H4 ltac:(lia)) as (m5 & -> & H5 & B5 & S5). exists m5. split_and!; [done|done|done|].
  destruct (rewritten_trans _ _ _ _ _ _ _ R1 (rewritten_trans _ _ _ _ _ _ _ R2 (rewritten_trans _ _ _ _ _ _ _ R3 R4))) as (_ & _ & L & S).
  intros x Hx. rewrite S5, S by lia. done.
Qed.
End Memory.
