(* ===== verification/PathResolve.v ===== *)
(** * Path names resolve like a stack of directory names *)
From S2P Require Import Prelude Mem CString Path.

(** ** The reference *)

(** An element that is neither . nor .. : not empty, without slashes, and not
    ending in a dot. *)
Definition is_name (n : list Z) : Prop := n <> [] /\ SLASH ∉ n /\ last n <> Some DOT.

Inductive elem := Cur | Up | Name (n : list Z).
Definition elem_text (e : elem) : list Z :=
  match e with Cur => [DOT] | Up => [DOT; DOT] | Name n => n end.
Definition elem_ok (e : elem) : Prop := match e with Name n => is_name n | _ => True end.

(** The stack holds the innermost directory first. *)
Definition enter (st : list (list Z)) (e : elem) : list (list Z) :=
  match e with Cur => st | Up => tail st | Name n => n :: st end.
Definition resolve (es : list elem) : list (list Z) := foldl enter [] es.

(** Every element followed by a slash. *)
Definition dir_text (es : list elem) : list Z := concat ((fun e => elem_text e ++ [SLASH]) <$> es).
(** The path of a directory, reversed, without its leading slash. *)
Fixpoint rtext (st : list (list Z)) : list Z :=
  match st with [] => [] | n :: st => SLASH :: rev n ++ rtext st end.
(** Each name after a slash: the canonical text. *)
Definition render (st : list (list Z)) : list Z :=
  match st with [] => [SLASH] | _ => concat ((fun n => SLASH :: n) <$> rev st) end.

(** ** Passing over elements *)

Lemma is_name_cons c t : is_name (c :: t) -> c <> SLASH /\ (t = [] -> c <> DOT) /\ (t <> [] -> is_name t).
Proof.
  intros (_ & Hs & Hl). apply not_elem_of_cons in Hs as [H1 H2]. split_and!; [done| |].
  - intros -> ->. done.
  - intros Ht. split_and!; [done|done|]. destruct t; [done|]. by rewrite last_cons_cons in Hl.
Qed.

(** A name is copied as it is. *)
Lemma dots_name n : forall rpre post, is_name n -> (post = [] \/ exists t, post = SLASH :: t) ->
  dots rpre (n ++ post) = dots (rev n ++ rpre) post.
Proof.
  induction n as [|c n IH]; intros rpre post Hn Hp; [by destruct Hn|].
  destruct (is_name_cons _ _ Hn) as (Hcs & Hlast & Hrest). cbn [app rev]. rewrite <- app_assoc. cbn [app].
  assert (Hgo : dots (c :: rpre) (n ++ post) = dots (rev n ++ c :: rpre) post).
  { destruct n as [|d n']; [done|]. apply IH; [by apply Hrest|done]. }
  rewrite <- Hgo. cbn [dots]. destruct (Z.eqb_spec c DOT) as [->|]; [|done].
  destruct n as [|d n1]; [by destruct (Hlast eq_refl)|]. destruct (is_name_cons _ _ (Hrest ltac:(done))) as (Hds & Hl2 & Hr2). cbn [app].
  destruct (Z.eqb_spec d SLASH); [done|]. destruct (Z.eqb_spec d DOT) as [->|]; [|done].
  destruct n1 as [|e n2]; [by destruct (Hl2 eq_refl)|]. destruct (is_name_cons _ _ (Hr2 ltac:(done))) as (Hes & _). cbn [app].
  by destruct (Z.eqb_spec e SLASH).
Qed.

Lemma to_slash_rev n r : SLASH ∉ n -> to_slash (rev n ++ r) = to_slash r.
Proof.
  induction n as [|c n IH] using rev_ind; intros Hn; [done|]. rewrite rev_app_distr. cbn [rev app to_slash].
  apply not_elem_of_app in Hn as [Hn Hc]. apply not_elem_of_cons in Hc as [Hc _]. destruct (Z.eqb_spec c SLASH); [congruence|by apply IH].
Qed.

Lemma to_slash_slash r : to_slash (SLASH :: r) = SLASH :: r.
Proof. done. Qed.

Lemma up_slashes k : up (replicate k SLASH) = replicate (pred k) SLASH.
Proof. destruct k as [|[|k]]; done. Qed.

Definition stack_ok (st : list (list Z)) : Prop := Forall is_name st.

(** Going up from a directory whose text starts with [k] slashes. *)
Lemma up_rtext st k : stack_ok st -> exists k', up (rtext st ++ replicate k SLASH) = rtext (tail st) ++ replicate k' SLASH.
Proof.
  intros Hst. destruct st as [|n st]; cbn [rtext tail app].
  - exists (pred k). apply up_slashes.
  - apply Forall_cons in Hst as [(_ & Hn & _) Hst]. exists k. unfold up. cbn [tail app]. rewrite <- app_assoc, to_slash_rev by done.
    destruct st as [|n2 st]; [|done]. cbn [rtext app]. by destruct k.
Qed.

Lemma dots_dir es : forall st k post, stack_ok st -> Forall elem_ok es ->
  exists k', dots (rtext st ++ replicate k SLASH) (dir_text es ++ post) = dots (rtext (foldl enter st es) ++ replicate k' SLASH) post /\
    stack_ok (foldl enter st es).
Proof.
  induction es as [|e es IH]; intros st k post Hst Hes; [by exists k|]. apply Forall_cons in Hes as [He Hes].
  unfold dir_text. cbn [fmap list_fmap concat foldl]. fold (dir_text es). rewrite <- !app_assoc. destruct e as [| |n]; cbn [elem_text app enter].
  - by apply IH.
  - destruct (up_rtext st k Hst) as [k1 Hk1]. cbn [dots]. change (DOT =? SLASH) with false. cbn [Z.eqb]. change (DOT =? DOT) with true.
    change (SLASH =? SLASH) with true. cbn match. rewrite Hk1. apply IH; [|done]. by apply Forall_tail.
  - rewrite dots_name by (done || (right; eauto)). cbn [dots]. change (SLASH =? DOT) with false. cbn match.
    pose proof (IH (n :: st) k post) as HI. cbn [rtext app] in HI. rewrite <- app_assoc in HI. apply HI; [by constructor|done].
Qed.


(** ** The end of the path *)

(** The text of a directory without its trailing slash. *)
Lemma rtext_name n st : rev (rtext (n :: st)) = rev (rtext st) ++ n ++ [SLASH].
Proof. cbn [rtext rev]. by rewrite rev_app_distr, rev_involutive, <- app_assoc. Qed.

Lemma render_text n st : render (n :: st) = SLASH :: rev (rtext st) ++ n.
Proof.
  unfold render. assert (H : forall st, concat ((fun n => SLASH :: n) <$> rev st) ++ [SLASH] = SLASH :: rev (rtext st)).
  { clear. induction st as [|n st IH]; [done|]. rewrite rtext_name. cbn [rev]. rewrite fmap_app, concat_app. cbn [fmap list_fmap concat].
    rewrite app_nil_r, <- app_assoc. cbn [app]. change (SLASH :: n ++ [SLASH]) with ([SLASH] ++ n ++ [SLASH]).
    by rewrite app_assoc, IH. }
  cbn [rev]. rewrite fmap_app, concat_app. cbn [fmap list_fmap concat]. rewrite app_nil_r.
  change (SLASH :: n) with ([SLASH] ++ n). by rewrite app_assoc, H.
Qed.

Lemma rtext_head n st : stack_ok (n :: st) -> exists c t, rev (rtext st) ++ n = c :: t /\ c <> SLASH.
Proof.
  revert n. induction st as [|n' st IH]; intros n Hst; apply Forall_cons in Hst as [(Hn & Hs & _) Hst].
  - destruct n as [|c t]; [done|]. exists c, t. split; [done|]. intros ->. apply Hs. by left.
  - destruct (IH n' Hst) as (c & t & E & Hc). rewrite rtext_name, app_assoc, E. eexists c, _. split; [reflexivity|done].
Qed.

Lemma squeeze_slashes k c t : c <> SLASH -> squeeze (replicate k SLASH ++ c :: t) = replicate (min k 1) SLASH ++ c :: t.
Proof.
  intros Hc. induction k as [|[|k] IH]; cbn [replicate app squeeze Nat.min] in *.
  - destruct t; [done|]. by destruct (Z.eqb_spec c SLASH).
  - change (SLASH =? SLASH) with true. cbn [andb]. by destruct (Z.eqb_spec c SLASH).
  - change (SLASH =? SLASH) with true. cbn [andb]. rewrite Nat.min_0_r in IH. exact IH.
Qed.

Lemma squeeze_all k : squeeze (replicate k SLASH) = replicate (min k 1) SLASH.
Proof.
  induction k as [|[|k] IH]; [done|done|]. cbn [replicate squeeze Nat.min] in *. change (SLASH =? SLASH) with true. rewrite Nat.min_0_r in IH. exact IH.
Qed.

Lemma drop_slash_last l : drop_slash (l ++ [SLASH]) = l.
Proof. unfold drop_slash. rewrite rev_app_distr. cbn [rev app]. by rewrite rev_involutive. Qed.
Lemma drop_slash_id l c : last l = Some c -> c <> SLASH -> drop_slash l = l.
Proof.
  intros Hl Hc. apply last_Some in Hl as [l' ->]. unfold drop_slash. rewrite rev_app_distr. cbn [rev app]. by destruct (Z.eqb_spec c SLASH).
Qed.
Lemma drop_dots_id l : last l <> Some DOT -> drop_dots l = l.
Proof.
  destruct l as [|d l _] using rev_ind; [done|]. rewrite last_snoc. intros Hd. unfold drop_dots. rewrite rev_app_distr. cbn [rev app].
  destruct (rev l); [done|]. by destruct (Z.eqb_spec d DOT); [congruence|].
Qed.
Lemma drop_dots_two l c : c = SLASH \/ c = DOT -> drop_dots (l ++ [c; DOT]) = l.
Proof. intros [->| ->]; unfold drop_dots; rewrite rev_app_distr; cbn [rev app]; by rewrite rev_involutive. Qed.

Lemma add_slash_slashes k c t : c <> SLASH -> add_slash (replicate (min k 1) SLASH ++ c :: t) = SLASH :: c :: t.
Proof. intros Hc. destruct k as [|k]; [|by destruct k]. cbn. by destruct (Z.eqb_spec c SLASH). Qed.

Lemma name_last n : is_name n -> exists c, last n = Some c /\ c <> SLASH /\ c <> DOT.
Proof.
  intros (H0 & Hs & Hd). destruct n as [|c n _] using rev_ind; [done|]. rewrite last_snoc in *. exists c. split_and!; [done| |congruence].
  intros ->. apply Hs. apply elem_of_app. right. by left.
Qed.

Definition finish (l : list Z) : list Z := add_slash (drop_slash (squeeze l)).

(** Text that ends with a name. *)
Lemma finish_name k n st : stack_ok (n :: st) -> finish (replicate k SLASH ++ rev (rtext st) ++ n) = render (n :: st).
Proof.
  intros Hst. destruct (rtext_head _ _ Hst) as (c & t & E & Hc). apply Forall_cons in Hst as [Hn _].
  destruct (name_last n Hn) as (d & Hd & Hds & _). unfold finish. rewrite render_text, E, squeeze_slashes by done.
  rewrite (drop_slash_id _ d); [by apply add_slash_slashes| |done]. rewrite last_app, <- E, last_app, Hd. done.
Qed.

(** Text that ends with a slash, or is empty. *)
Lemma finish_dir k st : stack_ok st -> finish (replicate k SLASH ++ rev (rtext st)) = render st.
Proof.
  intros Hst. unfold finish. destruct st as [|n st].
  - cbn [rtext rev]. rewrite app_nil_r, squeeze_all. by destruct k as [|[|k]].
  - rewrite rtext_name, render_text. destruct (rtext_head _ _ Hst) as (c & t & E & Hc). rewrite (app_assoc (rev _)), E. cbn [app].
    rewrite squeeze_slashes by done. rewrite (app_comm_cons t), (app_assoc (replicate _ _)), drop_slash_last. by apply add_slash_slashes.
Qed.

(** The text of the path: slashes, directories, and what follows the last slash. *)
Definition path_text (k : nat) (es : list elem) (tl : option elem) : list Z :=
  replicate k SLASH ++ dir_text es ++ from_option elem_text [] tl.
(** Where it leads: .. is taken for . at the end of a path. *)
Definition path_target (es : list elem) (tl : option elem) : list (list Z) :=
  match tl with Some (Name n) => n :: resolve es | _ => resolve es end.

Lemma dots_slashes k : forall rpre post, dots rpre (replicate k SLASH ++ post) = dots (replicate k SLASH ++ rpre) post.
Proof.
  induction k as [|k IH]; intros rpre post; [done|]. cbn [replicate app dots]. change (SLASH =? DOT) with false. cbn match.
  rewrite IH. f_equal. clear. induction k as [|k IH]; [done|]. cbn [replicate app]. by rewrite IH.
Qed.

Lemma rev_slashes k : rev (replicate k SLASH) = replicate k SLASH.
Proof. induction k as [|k IH]; [done|]. rewrite replicate_S_end at 2. cbn [replicate rev]. by rewrite IH. Qed.

Lemma abs_path_text k es tl :
  Forall elem_ok es -> from_option elem_ok True tl -> (tl = Some Cur -> resolve es <> []) ->
  abs_path (path_text k es tl) = render (path_target es tl).
Proof.
  intros Hes Htl Hcur. unfold abs_path, path_text. rewrite dots_slashes, app_nil_r.
  destruct (dots_dir es [] k (from_option elem_text [] tl) ltac:(constructor) Hes) as (k' & E & Hst). cbn [rtext app] in E. rewrite E. clear E.
  fold (resolve es) in *. set (st := resolve es) in *. assert (Hrev : rev (rtext st ++ replicate k' SLASH) = replicate k' SLASH ++ rev (rtext st)).
  { rewrite rev_app_distr. f_equal. apply rev_slashes. }
  destruct tl as [[| |n]|]; cbn [from_option elem_text path_target]; fold st.
  - cbn [dots]. change (DOT =? DOT) with true. cbn match. cbn [rev]. rewrite Hrev. destruct st as [|n st']; [by destruct (Hcur eq_refl)|].
    rewrite rtext_name, <- !app_assoc. cbn [app]. rewrite !app_assoc, <- (app_assoc _ _ [SLASH; DOT]).
    rewrite <- (finish_name k' n st' Hst). unfold finish. rewrite !app_assoc, drop_dots_two by auto. done.
  - cbn [dots]. change (DOT =? DOT) with true. change (DOT =? SLASH) with false. cbn match. cbn [rev]. rewrite Hrev, <- app_assoc. cbn [app].
    rewrite drop_dots_two by auto. by apply finish_dir.
  - pose proof (name_last n Htl) as (c & Hl & _ & Hd). rewrite <- (app_nil_r n) at 1. rewrite dots_name by auto. cbn [dots]. rewrite rev_app_distr, rev_involutive, Hrev, <- app_assoc.
    rewrite drop_dots_id; [apply finish_name; by constructor|]. rewrite !last_app, Hl. congruence.
  - cbn [dots]. rewrite Hrev, drop_dots_id; [by apply finish_dir|]. destruct st as [|n st']; [|rewrite rtext_name, !last_app; done].
    cbn. rewrite app_nil_r. destruct k'; [done|]. rewrite replicate_S_end, last_snoc. done.
Qed.

(** ** get_absolute_path *)

Lemma strcat_copy_ok fuel : forall m p src m', bytes_ok m -> strcat_copy fuel m p src = Some m' -> bytes_ok m'.
Proof.
  induction fuel as [|fuel IH]; intros m p src m' Hm; cbn [strcat_copy]; [done|]. destruct (m src =? 0); intros H.
  - injection H as <-. by apply mset_ok.
  - eapply IH; [|exact H]. by apply mset_ok.
Qed.
Lemma strcat_ok fuel m d s m' : bytes_ok m -> strcat fuel m d s = Some m' -> bytes_ok m'.
Proof. intros Hm. unfold strcat. destruct (strend fuel m d); [|done]. cbn [mbind option_bind]. by apply strcat_copy_ok. Qed.

(** The string at [s] ends outside the [n] bytes at [a]. *)
Definition apart (s : Z) (l : list Z) (a : Z) (n : nat) : Prop :=
  s + Z.of_nat (length l) + 1 <= a \/ a + Z.of_nat n <= s.

Section Claims.
Context (lim : nat) (slash : Z) (m : mem) (path cwd abs : Z) (p c : list Z).

(** The path the two arguments name together. *)
Definition joined : list Z := if bool_decide (head p = Some SLASH) then p else c ++ [SLASH] ++ p.

(** What a call assumes: three strings, a buffer of [lim] bytes apart from
    them, room for the joined path, and no dot or slash before the buffer. *)
Record call_ok : Prop := {
  call_bytes : bytes_ok m;
  call_null : path <> 0;
  call_path : cstr m path p;
  call_cwd : cstr m cwd c;
  call_slash : cstr m slash [SLASH];
  call_room : (length c + length p + 2 < lim)%nat;
  call_apart : apart path p (abs - 1) (lim + 1) /\ apart cwd c (abs - 1) (lim + 1) /\ apart slash [SLASH] (abs - 1) (lim + 1);
  call_guarded : guarded m abs;
}.

Lemma cstr_apart m' s l : cstr m s l -> apart s l (abs - 1) (lim + 1) ->
  (forall x, x < abs \/ abs + Z.of_nat lim <= x -> m' x = m x) -> cstr m' s l.
Proof. intros H Ha Hs. eapply cstr_ext; [exact H|]. intros x Hx. unfold apart in Ha. symmetry. apply Hs. lia. Qed.

Lemma get_absolute_path_spec : call_ok ->
  exists m', get_absolute_path lim slash m path cwd abs = Some m' /\ cstr m' abs (abs_path joined) /\ bytes_ok m' /\ forall x, x < abs \/ abs + Z.of_nat lim <= x -> m' x = m x.
Proof.
  intros [Hm H0 Hp Hc Hs Hr (Ap & Ac & As) Hg]. unfold get_absolute_path. destruct (Z.eqb_spec path 0); [done|].
  assert (Hfin : forall m1, bytes_ok m1 -> cstr m1 abs joined -> (forall x, x < abs \/ abs + Z.of_nat lim <= x -> m1 x = m x) -> (length joined + 1 < lim)%nat ->
    exists m', normalize lim m1 abs = Some m' /\ cstr m' abs (abs_path joined) /\ bytes_ok m' /\ forall x, x < abs \/ abs + Z.of_nat lim <= x -> m' x = m x).
  { intros m1 B1 C1 S1 L1. destruct (normalize_spec lim abs joined m1 B1 C1) as (m' & E & C' & B' & S'); [unfold guarded; by rewrite S1 by lia|lia|].
    exists m'. split_and!; [done|done|done|]. intros x Hx. rewrite S', S1 by lia. done. }
  unfold apart in *. cbn [length] in *. unfold joined in *. destruct (decide (head p = Some SLASH)) as [Hd|Hd].
  { rewrite bool_decide_true in * by done. rewrite (cstr_head _ _ _ Hp), Hd. cbn [default from_option id]. change (SLASH =? SLASH) with true. cbn match.
    destruct (strcpy_cstr lim m abs path p Hm Hp) as (m1 & -> & C1 & B1 & S1); [lia|lia|]. cbn [mbind option_bind].
    apply Hfin; [done|done| |lia]. intros x Hx. apply S1. lia. }
  rewrite bool_decide_false in * by done.
  assert (m path =? SLASH = false) as -> by (rewrite (cstr_head _ _ _ Hp); destruct (head p); [apply Z.eqb_neq; simpl; congruence|done]).
  destruct (strcpy_cstr lim m abs cwd c Hm Hc) as (m1 & -> & C1 & B1 & S1); [lia|lia|]. cbn [mbind option_bind].
  assert (Hs1 : cstr m1 slash [SLASH]) by (eapply cstr_apart; [exact Hs|unfold apart; cbn [length]; lia|intros y Hy; apply S1; lia]).
  destruct (strcat_cstr lim m1 abs slash c [SLASH] B1 C1 Hs1) as (m2 & E2 & C2 & S2); [cbn [length]; lia|cbn [length]; lia|]. rewrite E2. cbn [mbind option_bind length] in *.
  pose proof (strcat_ok _ _ _ _ _ B1 E2) as B2.
  assert (Hp2 : cstr m2 path p) by (eapply cstr_apart; [exact Hp|unfold apart; lia|intros y Hy; rewrite S2, S1 by lia; done]).
  destruct (strcat_cstr lim m2 abs path (c ++ [SLASH]) p B2 C2 Hp2) as (m3 & E3 & C3 & S3);
    [rewrite length_app; cbn [length]; lia|rewrite length_app; cbn [length]; lia|].
  rewrite E3. cbn [mbind option_bind] in *. rewrite length_app in S3. cbn [length] in S3.
  rewrite <- app_assoc in C3. apply Hfin; [by eapply strcat_ok|done| |rewrite !length_app; cbn [length]; lia].
  intros y Hy. rewrite S3, S2, S1 by lia. done.
Qed.
End Claims.

(** ** Claims *)

Section PathClaims.
Context (slash : Z) (m : mem) (path cwd abs : Z) (p c : list Z).
Abbreviation MAXPATHN := (Z.to_nat MAXPATH).
Abbreviation call_ok := (call_ok MAXPATHN slash m path cwd abs p c).

Lemma add_slash_head l : head (add_slash l) = Some SLASH.
Proof. destruct l as [|x l]; [done|]. cbn [add_slash]. by destruct (Z.eqb_spec x SLASH) as [->|]. Qed.

(** for any two strings that fit together in a buffer of MAXPATH bytes,
    get_absolute_path returns; the buffer then holds a path that starts with a
    slash, and no byte outside the buffer has changed. *)
Theorem get_absolute_path_bounds : call_ok ->
  exists m' l, get_absolute_path MAXPATHN slash m path cwd abs = Some m' /\ cstr m' abs l /\ head l = Some SLASH /\
    forall x, x < abs \/ abs + MAXPATH <= x -> m' x = m x.
Proof.
  intros H. destruct (get_absolute_path_spec _ _ _ _ _ _ _ _ H) as (m' & E & Hc & _ & Hs).
  exists m', (abs_path (joined p c)). split_and!; [done|done|apply add_slash_head|done].
Qed.


(** A path that ends in .. is not resolved: the .. is removed, and the
    result is the directory before it, not its parent. *)
Theorem get_absolute_path_trailing_up k es :
  call_ok -> joined p c = path_text k es (Some Up) -> Forall elem_ok es ->
  exists m', get_absolute_path MAXPATHN slash m path cwd abs = Some m' /\ cstr m' abs (render (resolve es)).
Proof.
  intros H Hj Hes. destruct (get_absolute_path_spec _ _ _ _ _ _ _ _ H) as (m' & E & Hc & _ & _). exists m'. split; [done|].
  by rewrite Hj, abs_path_text in Hc.
Qed.
End PathClaims.

(** ** The file system of a path *)

Section Resolve.
Context (lim : nat) (m : mem) (vfs_fs : list (option vfs_filesystem)) (abs : Z) (text : list Z) (name : Z -> list Z).

(** The mount point [r] is in use, for file system [fs], and its path is a
    prefix of the text. *)
Definition eligible (r : mount_point) (fs : nat) : Prop :=
  vfs_getfs_bytype vfs_fs (mtype r) = Some fs /\ mp r <> 0 /\ name (mp r) `prefix_of` text.

(** [best] is the result for the mount points [done]. *)
Definition best_of (seen : list mount_point) (best : option nat * Z) : Prop :=
  match best.1 with
  | None => best.2 = -1 /\ forall r fs, r ∈ seen -> ~ eligible r fs
  | Some fs => exists r, r ∈ seen /\ eligible r fs /\ best.2 = Z.of_nat (length (name (mp r))) /\
                 forall r' fs', r' ∈ seen -> eligible r' fs' -> (length (name (mp r')) <= length (name (mp r)))%nat
  end.

Lemma best_of_skip seen best r : best_of seen best -> (forall fs, eligible r fs -> Z.of_nat (length (name (mp r))) <= best.2) ->
  best_of (seen ++ [r]) best.
Proof.
  unfold best_of. destruct best as [[fs|] len]; cbn [fst snd].
  - intros (r0 & H1 & H2 & -> & H4) Hr. exists r0. split_and!; [set_solver|done..|]. intros r' fs' Hin He.
    apply elem_of_app in Hin as [Hin|Hin]; [by eapply H4|]. apply list_elem_of_singleton in Hin as ->. apply Hr in He. lia.
  - intros [-> H] Hr. split; [done|]. intros r' fs' Hin He. apply elem_of_app in Hin as [Hin|Hin]; [by eapply H|].
    apply list_elem_of_singleton in Hin as ->. apply Hr in He. lia.
Qed.

Lemma best_of_take seen best r fs : best_of seen best -> eligible r fs -> best.2 < Z.of_nat (length (name (mp r))) ->
  best_of (seen ++ [r]) (Some fs, Z.of_nat (length (name (mp r)))).
Proof.
  intros Hb He Hlt. exists r. split_and!; [set_solver|done..|]. intros r' fs' Hin He'.
  apply elem_of_app in Hin as [Hin|Hin]; [|apply list_elem_of_singleton in Hin as ->; done].
  unfold best_of in Hb. destruct best as [[fs0|] len]; cbn [fst snd] in *.
  - destruct Hb as (r0 & _ & _ & -> & H). specialize (H _ _ Hin He'). lia.
  - by destruct Hb as [_ H]; apply H in He'.
Qed.

Lemma resolve_loop_spec mounts : forall seen best, cstr m abs text ->
  (forall r, r ∈ mounts -> mp r <> 0 -> cstr m (mp r) (name (mp r)) /\ (length (name (mp r)) < lim)%nat) -> best_of seen best ->
  exists best', resolve_loop lim m vfs_fs abs mounts best = Some best' /\ best_of (seen ++ mounts) best'.
Proof.
  induction mounts as [|r mounts IH]; intros seen best Ht Hm Hb; cbn [resolve_loop]; [exists best; by rewrite app_nil_r|].
  assert (Hskip : (forall fs, eligible r fs -> Z.of_nat (length (name (mp r))) <= best.2) ->
    exists best', resolve_loop lim m vfs_fs abs mounts best = Some best' /\ best_of (seen ++ r :: mounts) best').
  { intros Hr. destruct (IH (seen ++ [r]) best) as (b & E & Hb'); [done|intros; apply Hm; [by right|done]|by apply best_of_skip|].
    exists b. split; [done|]. by rewrite <- app_assoc in Hb'. }
  destruct (vfs_getfs_bytype vfs_fs (mtype r)) as [fs|] eqn:Efs; [|apply Hskip; intros fs (H & _); congruence].
  destruct (Z.eqb_spec (mp r) 0) as [|Hmp]; [apply Hskip; by intros fs' (_ & H & _)|].
  destruct (Hm r ltac:(by left) Hmp) as [Hr Hlen]. rewrite (strlen_cstr lim m _ _ Hr Hlen), (substr_cmp_cstr lim m _ _ _ _ Hr Ht Hlen).
  cbn [mbind option_bind]. destruct (bool_decide_reflect (name (mp r) `prefix_of` text)) as [Hp|Hp].
  - change (0 =? 0) with true. cbn [andb]. destruct (Z.ltb_spec best.2 (Z.of_nat (length (name (mp r))))); [|apply Hskip; intros; lia].
    destruct (IH (seen ++ [r]) (Some fs, Z.of_nat (length (name (mp r))))) as (b & E & Hb');
      [done|intros; apply Hm; [by right|done]|by eapply best_of_take|]. exists b. split; [done|]. by rewrite <- app_assoc in Hb'.
  - change (-1 =? 0) with false. cbn [andb]. apply Hskip. by intros fs' (_ & _ & H).
Qed.
End Resolve.

(** The path [p] made absolute from the root directory. *)
Definition from_root (p : list Z) : list Z := abs_path (joined p [SLASH]).

(** vfs_resolve_fs chooses a mounted file system whose mount path is the
    longest among those that are prefixes of the absolute path, and none only
    if there is no such mount point. *)
Theorem vfs_resolve_fs_longest slash vfs_fs mounts m path abs p name :
  let lim := Z.to_nat MAXPATH in
  call_ok lim slash (memset m abs 0 MAXPATH) path slash abs p [SLASH] ->
  (forall r, r ∈ mounts -> mp r <> 0 -> cstr m (mp r) (name (mp r)) /\ (length (name (mp r)) < lim)%nat /\ apart (mp r) (name (mp r)) abs lim) ->
  exists fs m', vfs_resolve_fs lim slash vfs_fs mounts m path abs = Some (fs, m') /\
    match fs with
    | None => forall r fs, r ∈ mounts -> ~ eligible vfs_fs (from_root p) name r fs
    | Some fs => exists r, r ∈ mounts /\ eligible vfs_fs (from_root p) name r fs /\
        forall r' fs', r' ∈ mounts -> eligible vfs_fs (from_root p) name r' fs' -> (length (name (mp r')) <= length (name (mp r)))%nat
    end.
Proof.
  intros lim Hok Hmp. unfold vfs_resolve_fs. destruct (get_absolute_path_spec _ _ _ _ _ _ _ _ Hok) as (m' & -> & Hc & _ & Hs). cbn [mbind option_bind].
  destruct (resolve_loop_spec lim m' vfs_fs abs (from_root p) name mounts [] (None, -1)) as (b & -> & Hb); [done| |by split; [done|]; intros; set_solver|].
  - intros r Hr H0. destruct (Hmp r Hr H0) as (H1 & H2 & H3). split; [|done]. eapply cstr_ext; [exact H1|]. intros x Hx. unfold apart in H3.
    change (Z.of_nat lim) with MAXPATH in *. rewrite Hs by lia. symmetry. apply memset_out. lia.
  - cbn [mbind option_bind app] in *. exists b.1, m'. split; [done|]. unfold best_of in Hb. destruct (b.1) as [fs|]; [|by destruct Hb].
    destruct Hb as (r & H1 & H2 & _ & H4). by exists r.
Qed.

(** ** Witnesses *)

Fixpoint place (m : mem) (a : Z) (l : list Z) : mem :=
  match l with [] => mset m a 0 | c :: l => place (mset m a c) (a + 1) l end.

Lemma place_ok l : forall m a, bytes_ok m -> bytes_ok (place m a l).
Proof. induction l as [|c l IH]; intros m a Hm; cbn [place]; [by apply mset_ok|]. by apply IH, mset_ok. Qed.

(** The literal for a slash at 10, the directory /ab/cd at 20, the path at 40. *)
Definition demo_cwd : list Z := [47; 97; 98; 47; 99; 100].
Definition demo (p : list Z) : mem := place (place (place (fun _ => 0) 10 [SLASH]) 20 demo_cwd) 40 p.

Lemma demo_ok p : bytes_ok (demo p).
Proof. apply place_ok, place_ok, place_ok. intros x. lia. Qed.

(** ../e/./f *)
Definition demo_path : list Z := [46; 46; 47; 101; 47; 46; 47; 102].

Ltac solve_call H :=
  refine (Build_call_ok _ _ _ _ _ _ _ _ H _ _ _ _ _ _ _);
    [lia|vm_compute; intuition congruence..|vm_compute; lia|unfold apart; vm_compute; intuition congruence|vm_compute; split; congruence].

Lemma demo_call : call_ok (Z.to_nat MAXPATH) 10 (demo demo_path) 40 20 1000 demo_path demo_cwd.
Proof. solve_call (demo_ok demo_path). Qed.

Lemma get_absolute_path_bounds_witness : exists m' l,
  get_absolute_path (Z.to_nat MAXPATH) 10 (demo demo_path) 40 20 1000 = Some m' /\ cstr m' 1000 l /\ head l = Some SLASH /\
    forall x, x < 1000 \/ 1000 + MAXPATH <= x -> m' x = demo demo_path x.
Proof. exact (get_absolute_path_bounds 10 _ 40 20 1000 _ _ demo_call). Defined.


Lemma demo_call_up : call_ok (Z.to_nat MAXPATH) 10 (demo [DOT; DOT]) 40 20 1000 [DOT; DOT] demo_cwd.
Proof. solve_call (demo_ok [DOT; DOT]). Qed.

(** /ab/cd with .. is /ab/cd. *)
Lemma get_absolute_path_trailing_up_witness : exists m',
  get_absolute_path (Z.to_nat MAXPATH) 10 (demo [DOT; DOT]) 40 20 1000 = Some m' /\ cstr m' 1000 demo_cwd.
Proof.
  refine (get_absolute_path_trailing_up 10 _ 40 20 1000 _ _ 1 [Name [97; 98]; Name [99; 100]] demo_call_up _ _).
  - reflexivity.
  - repeat constructor; try done; set_solver.
Defined.

(** Mounts at / and at /ab: the path /ab/cd. *)
Definition demo_fs : list (option vfs_filesystem) := [Some (VfsFilesystem 1 0 VFS_TYPE_EXT4); Some (VfsFilesystem 2 0 VFS_TYPE_PROCFS); None; None].
Definition demo_mounts : list mount_point :=
  [MountPoint 10 1 VFS_TYPE_EXT4; MountPoint 60 2 VFS_TYPE_PROCFS; MountPoint 0 (-1) VFS_TYPE_UNKNOWN].
Definition demo_name (a : Z) : list Z := if a =? 10 then [SLASH] else [47; 97; 98].
Definition demo_mem : mem := place (demo demo_cwd) 60 [47; 97; 98].

Lemma demo_call_fs : call_ok (Z.to_nat MAXPATH) 10 (memset demo_mem 1000 0 MAXPATH) 40 10 1000 demo_cwd [SLASH].
Proof. solve_call (memset_ok demo_mem 1000 0 MAXPATH (place_ok [47; 97; 98] _ 60 (demo_ok demo_cwd))). Qed.

Lemma demo_mounts_ok r : r ∈ demo_mounts -> mp r <> 0 ->
  cstr demo_mem (mp r) (demo_name (mp r)) /\ (length (demo_name (mp r)) < Z.to_nat MAXPATH)%nat /\ apart (mp r) (demo_name (mp r)) 1000 (Z.to_nat MAXPATH).
Proof.
  unfold demo_mounts. rewrite !elem_of_cons, elem_of_nil. intros [->|[->|[->|[]]]] H0; [| |done];
    (split_and!; [vm_compute; intuition congruence|vm_compute; lia|left; vm_compute; congruence]).
Qed.

Definition demo_proc : mount_point := MountPoint 60 2 VFS_TYPE_PROCFS.
Lemma demo_proc_in : demo_proc ∈ demo_mounts.
Proof. right. left. Qed.
Lemma demo_proc_eligible : eligible demo_fs (from_root demo_cwd) demo_name demo_proc 1.
Proof. split_and!; [reflexivity|done|by exists [47; 99; 100]]. Qed.
Lemma demo_longest r fs : r ∈ demo_mounts -> vfs_getfs_bytype demo_fs (mtype r) = Some fs ->
  (length (demo_name (mp demo_proc)) <= length (demo_name (mp r)))%nat -> fs = 1%nat.
Proof.
  unfold demo_mounts. rewrite !elem_of_cons, elem_of_nil. intros [->|[->|[->|[]]]] Hfs Hlen; [vm_compute in Hlen; lia| |vm_compute in Hfs; done].
  vm_compute in Hfs. congruence.
Qed.

Lemma vfs_resolve_fs_longest_witness : exists m',
  vfs_resolve_fs (Z.to_nat MAXPATH) 10 demo_fs demo_mounts demo_mem 40 1000 = Some (Some 1%nat, m').
Proof.
  destruct (vfs_resolve_fs_longest 10 demo_fs demo_mounts demo_mem 40 1000 demo_cwd demo_name demo_call_fs demo_mounts_ok)
    as ([fs|] & m' & E & H).
  - destruct H as (r & Hr & (Hfs & _) & Hlong). exists m'. rewrite E.
    by rewrite (demo_longest r fs Hr Hfs (Hlong demo_proc _ demo_proc_in demo_proc_eligible)).
  - exfalso. exact (H demo_proc _ demo_proc_in demo_proc_eligible).
Defined.
