(* ===== verification/Inode.v ===== *)
(** * kernel/fs/vfs/vfs.c and vfs_mount.c: the table of inodes

    Inode [i] is [inodes (ftabs s) i]; its sleep lock is [inode_lock i].  The
    file systems are numbered, and what a file system provides is a record of
    its inode operations, so that the code here calls them as the C code does,
    through ip->iops.  An object that a pointer may not name is an [option]:
    using a NULL pointer is a fault. *)
From S2P Require Import Prelude Mem CString KTypes Kalloc Vm ListHead KState Queue Sched Signal Thread ProcBase Sync Bio Path.

Definition NINODE : Z := 50.
Definition MAXVFSSIZE : Z := 4.
Definition MOUNTSIZE : Z := 2.
Definition BLOCKMAJOR : Z := 1.
Definition T_DIR : Z := 4.
Definition T_FILE : Z := 16.
Definition T_DEVICE : Z := 17.
Definition T_MOUNT : Z := 18.
Definition VFS_FREE : Z := 0.
Definition VFS_USED : Z := 1.

(** ** Access to the tables *)

Definition on_ftabs (f : fsstate -> fsstate) : E kstate unit := modify (fun s => set_ftabs (f (ftabs s)) s).
Definition get_inode (i : nat) : E kstate inode := gets (fun s => inodes (ftabs s) i).
Definition upd_inode (i : nat) (f : inode -> inode) : E kstate unit :=
  on_ftabs (fun t => set_inodes (<[i := f (inodes t i)]> (inodes t)) t).
Definition get_vfs (v : nat) : E kstate vfs := gets (fun s => vfspool (ftabs s) v).
Definition upd_vfs (v : nat) (f : vfs -> vfs) : E kstate unit :=
  on_ftabs (fun t => set_vfspool (<[v := f (vfspool t v)]> (vfspool t)) t).

(** The sleep locks of the inodes come after those of the buffers. *)
Definition inode_lock (i : nat) : Z := NBUF + Z.of_nat i.

(** for (x = &table[k]; x < &table[n]; x++): the first entry the test accepts,
    from entry [k] with [todo] entries to go. *)
Fixpoint table_find (test : kstate -> nat -> bool) (todo k : nat) : E kstate (option nat) :=
  match todo with
  | O => mret None
  | S todo =>
    b ← gets (fun s => test s k);
    if (b : bool) then mret (Some k) else table_find test todo (S k)
  end.

(** ** Mounted file systems, by device *)

Definition allocvfs : E kstate (option nat) :=
  acquire L_vfspool;;
  r ← table_find (fun s v => vfs_flag (vfspool (ftabs s) v) =? VFS_FREE) (Z.to_nat MAXVFSSIZE) 0;
  match r with
  | Some v =>
    upd_vfs v (fun v => set_vfs_flag (Z.lor (vfs_flag v) VFS_USED) v);;
    release L_vfspool;;
    mret (Some v)
  | None => release L_vfspool;; mret None
  end.

(** list_for_each_entry over vfsmlist.fs_list *)
Fixpoint vfs_list_find (vs : list nat) (major minor : Z) : E kstate (option nat) :=
  match vs with
  | [] => mret None
  | v :: vs =>
    e ← get_vfs v;
    if (vfs_major e =? major) && (vfs_minor e =? minor) then mret (Some v) else vfs_list_find vs major minor
  end.
Definition get_vfs_entry (major minor : Z) : E kstate (option nat) :=
  vs ← gets (fun s => vfsmlist (ftabs s));
  vfs_list_find vs major minor.

(** list_add_tail(&vfs->fs_next, &vfsmlist.fs_list) *)
Definition vfs_list_add (v : nat) : E kstate unit :=
  acquire L_vfsmlist;;
  on_ftabs (fun t => set_vfsmlist (vfsmlist t ++ [v]) t);;
  release L_vfsmlist.

Definition put_vfs_on_list (major minor : Z) (fs : option nat) : E kstate Z :=
  r ← allocvfs;
  match r with
  | None => mret (-1)
  | Some v =>
    upd_vfs v (fun e => set_vfs_fst fs (set_vfs_minor minor (set_vfs_major major e)));;
    vfs_list_add v;;
    mret 0
  end.

Definition init_vfsmlist : E kstate unit :=
  initlock L_vfsmlist;;
  initlock L_vfspool;;
  on_ftabs (set_vfsmlist []).

(** get_vfs_entry(major, minor)->fs_t *)
Definition fs_of_dev (major minor : Z) : E kstate (option nat) :=
  v ← get_vfs_entry major minor;
  v ← deref v;
  e ← get_vfs v;
  mret (vfs_fst e).

(** ** kernel/fs/vfs/vfs_mount.c *)

Definition same_key (a b : inode) : bool := (idev a =? idev b) && (inum a =? inum b).

(** The loop over the mount table: the first entry whose inode [key] has the
    device and number of [ip]. *)
Fixpoint mount_find (key : mntentry -> option nat) (todo k ip : nat) : E kstate (option nat) :=
  match todo with
  | O => mret None
  | S todo =>
    e ← gets (fun s => mpoints (ftabs s) k);
    m ← deref (key e);
    a ← get_inode m;
    b ← get_inode ip;
    if same_key a b then mret (Some k) else mount_find key todo (S k) ip
  end.

Definition mnt_rtinode (ip : nat) : E kstate (option nat) :=
  acquire L_mtable;;
  r ← mount_find m_inode (Z.to_nat MOUNTSIZE) 0 ip;
  x ← match r with Some k => gets (fun s => m_rtinode (mpoints (ftabs s) k)) | None => mret None end;
  release L_mtable;;
  mret x.

Definition mnt_inode (ip : nat) : E kstate (option nat) :=
  acquire L_mtable;;
  r ← mount_find m_rtinode (Z.to_nat MOUNTSIZE) 0 ip;
  x ← match r with Some k => gets (fun s => m_inode (mpoints (ftabs s) k)) | None => mret None end;
  release L_mtable;;
  mret x.

Definition is_rtinode (ip : nat) : E kstate bool :=
  acquire L_mtable;;
  r ← mount_find m_rtinode (Z.to_nat MOUNTSIZE) 0 ip;
  release L_mtable;;
  mret (bool_decide (is_Some r)).

Definition mntinit : E kstate unit := initlock L_mtable.

(** ** The inode cache *)

Fixpoint iinit_loop (todo i : nat) : E kstate unit :=
  match todo with
  | O => mret tt
  | S todo => initsleeplock (inode_lock i);; iinit_loop todo (S i)
  end.
Definition iinit : E kstate unit :=
  initlock L_icache;;
  iinit_loop (Z.to_nat NINODE) 0.

(** The scan of the table: the first entry in use that the test accepts, with
    the first unused entry seen before it. *)
Fixpoint icache_scan (test : inode -> bool) (todo i : nat) (empty : option nat) : E kstate (option nat * option nat) :=
  match todo with
  | O => mret (None, empty)
  | S todo =>
    ip ← get_inode i;
    if (0 <? iref ip) && test ip then mret (Some i, empty)
    else icache_scan test todo (S i) (if bool_decide (empty = None) && (iref ip =? 0) then Some i else empty)
  end.

Definition idup (i : nat) : E kstate nat :=
  acquire L_icache;;
  upd_inode i (fun ip => set_iref (i32 (iref ip + 1)) ip);;
  release L_icache;;
  mret i.

Definition ifind_fempty (pdata : option nat) : E kstate nat :=
  acquire L_icache;;
  r ← icache_scan (fun ip => bool_decide (i_private ip = pdata)) (Z.to_nat NINODE) 0 None;
  match r with
  | (Some i, _) =>
    upd_inode i (fun ip => set_iref (i32 (iref ip + 1)) ip);;
    release L_icache;;
    mret i
  | (None, None) => panic "ifind_wempty: no inodes"
  | (None, Some i) =>
    fs ← fs_of_dev BLOCKMAJOR ROOTDEV;
    upd_inode i (fun ip => set_i_private pdata (set_ifs fs (set_ivalid 0 (set_iref 1 (set_inum 999999 (set_idev ROOTDEV ip))))));;
    release L_icache;;
    mret i
  end.

Definition iget (dev inum_ : Z) (fill_inode : nat -> E kstate bool) : E kstate nat :=
  acquire L_icache;;
  r ← icache_scan (fun ip => (idev ip =? dev) && (inum ip =? inum_)) (Z.to_nat NINODE) 0 None;
  match r with
  | (Some i, _) =>
    ip ← get_inode i;
    if itype ip =? T_MOUNT then
      rt ← mnt_rtinode i;
      match rt with
      | None => panic "Invalid Inode on Mount Table"
      | Some j =>
        upd_inode j (fun ip => set_iref (i32 (iref ip + 1)) ip);;
        release L_icache;;
        mret j
      end
    else
      upd_inode i (fun ip => set_iref (i32 (iref ip + 1)) ip);;
      release L_icache;;
      mret i
  | (None, None) => panic "iget: no inodes"
  | (None, Some i) =>
    fs ← fs_of_dev BLOCKMAJOR dev;
    upd_inode i (fun ip => set_ifs fs (set_ivalid 0 (set_iref 1 (set_inum inum_ (set_idev dev ip)))));;
    release L_icache;;
    ok ← fill_inode i;
    panic_if (negb ok) "Error on fill inode";;
    mret i
  end.

(** ** Inode operations *)

(** struct inode_ops; [dirlookup] answers the inode with the offset of its
    entry, which the code stores through poff when it is not NULL. *)
Record inode_ops := InodeOps {
  op_dirlookup : nat -> Z -> E kstate (option (nat * Z));
  op_iupdate : nat -> E kstate unit;
  op_itrunc : nat -> E kstate unit;
  op_cleanup : nat -> E kstate unit;
  op_bmap : nat -> Z -> E kstate Z;
  op_ilock : nat -> E kstate unit;
  op_iunlock : nat -> E kstate unit;
  op_readi : nat -> bool -> Z -> Z -> Z -> E kstate Z;
  op_writei : nat -> bool -> Z -> Z -> Z -> E kstate Z;
}.

Section Inodes.
(** The operations of the file systems, the switch to the scheduler, and a bound
    on the number of sleeps. *)
Context (iops : nat -> inode_ops) (swtch : nat -> E kstate unit) (fuel : nat).

(** ip->iops->op(ip, ...) *)
Definition call_op {A} (i : nat) (op : inode_ops -> E kstate A) : E kstate A :=
  ip ← get_inode i;
  fs ← deref (ifs ip);
  op (iops fs).

Definition iput (i : nat) : E kstate unit :=
  acquire L_icache;;
  ip ← get_inode i;
  (if (iref ip =? 1) && negb (ivalid ip =? 0) && (inlink ip =? 0) then
     acquiresleep swtch fuel (inode_lock i);;
     release L_icache;;
     call_op i (fun o => op_itrunc o i);;
     upd_inode i (set_itype 0);;
     call_op i (fun o => op_iupdate o i);;
     upd_inode i (set_ivalid 0);;
     releasesleep (inode_lock i);;
     acquire L_icache
   else mret tt);;
  upd_inode i (fun ip => set_iref (i32 (iref ip - 1)) ip);;
  ip ← get_inode i;
  (if iref ip =? 0 then call_op i (fun o => op_cleanup o i) else mret tt);;
  release L_icache.

(** generic_iunlock(0) panics as it does for an unlocked inode. *)
Definition generic_iunlock (oi : option nat) : E kstate unit :=
  match oi with
  | None => panic "iunlock"
  | Some i =>
    h ← holdingsleep (inode_lock i);
    ip ← get_inode i;
    panic_if (negb h || (iref ip <? 1)) "iunlock";;
    releasesleep (inode_lock i)
  end.

Definition iunlockput (i : nat) : E kstate unit :=
  call_op i (fun o => op_iunlock o i);;
  iput i.

(** ** Directories *)

(** struct dirent: a 16-bit inum and a name of DIRSIZ bytes. *)
Definition DIRENT : Z := 2 + DIRSIZ.
Definition de_inum (m : mem) (de : Z) : Z := load m de 2.

Definition generic_stati (i : nat) (st : Z) : E kstate unit := mret tt.

(** The entries of the directory are read one by one into the local [de]. *)
Fixpoint dirlink_loop (n : nat) (dp : nat) (de off : Z) : E kstate Z :=
  ip ← get_inode dp;
  if off <? isize ip then
    match n with
    | O => nofuel
    | S n =>
      r ← call_op dp (fun o => op_readi o dp false de off DIRENT);
      panic_if (negb (r =? DIRENT)) "dirlink read";;
      m ← gets (fun s => mmem (km s));
      if de_inum m de =? 0 then mret off else dirlink_loop n dp de (off + DIRENT)
    end
  else mret off.

Definition generic_dirlink (de : Z) (dp : nat) (name inum_ : Z) : E kstate Z :=
  r ← call_op dp (fun o => op_dirlookup o dp name);
  match r with
  | Some (ip, _) => iput ip;; mret (-1)
  | None =>
    dip ← get_inode dp;
    off ← dirlink_loop (Z.to_nat (isize dip)) dp de 0;
    on_mach (upd_mem (fun m => strncpy m (de + 2) name DIRSIZ));;
    on_mach (upd_mem (fun m => store m de 2 inum_));;
    r ← call_op dp (fun o => op_writei o dp false de off DIRENT);
    panic_if (negb (r =? DIRENT)) "dirlink";;
    mret 0
  end.

(** ** Names *)

Section Namex.
(** A bound on the length of strings, the root directory, and the current
    directory of the process. *)
Context (lim : nat) (getroot : Z -> Z -> E kstate nat) (cwd : E kstate (option nat)).

Definition skipelem_mem (path name : Z) : E kstate Z :=
  m ← gets (fun s => mmem (km s));
  match skipelem lim m path name with
  | None => nofuel
  | Some (m, path) => on_mach (upd_mem (fun _ => m));; mret path
  end.

(** while ((path = skipelem(path, name)) != 0): the last inode, or the answer
    of a return inside the loop. *)
Fixpoint namex_loop (n : nat) (nameiparent : bool) (name path : Z) (ip : nat) : E kstate (nat + option nat) :=
  path ← skipelem_mem path name;
  if path =? 0 then mret (inl ip)
  else
    match n with
    | O => nofuel
    | S n =>
      call_op ip (fun o => op_ilock o ip);;
      r ← get_inode ip;
      if negb (itype r =? T_DIR) then iunlockput ip;; mret (inr None)
      else
        m ← gets (fun s => mmem (km s));
        if nameiparent && (m path =? 0) then
          call_op ip (fun o => op_iunlock o ip);;
          mret (inr (Some ip))
        else
          next ← call_op ip (fun o => op_dirlookup o ip name);
          match next with
          | None => iunlockput ip;; mret (inr None)
          | Some (next, _) => iunlockput ip;; namex_loop n nameiparent name path next
          end
    end.

Definition namex (path : Z) (nameiparent : bool) (name : Z) : E kstate (option nat) :=
  m ← gets (fun s => mmem (km s));
  ip ← (if m path =? SLASH then getroot BLOCKMAJOR ROOTDEV
        else i ← cwd; i ← deref i; idup i);
  r ← namex_loop lim nameiparent name path ip;
  match r with
  | inr x => mret x
  | inl ip => if nameiparent then iput ip;; mret None else mret (Some ip)
  end.

Definition nameiparent (path name : Z) : E kstate (option nat) := namex path true name.
End Namex.
End Inodes.
