(* ===== verification/Xv6fs.v ===== *)
(** * kernel/fs/xv6fs.c: the inode layer of the xv6 file system

    Blocks are read through the cache and every change is made in the buffer
    and handed to the log.  A block is a [mem] by offset; inodes, directory
    entries and the bitmap are read and written at the offsets the C
    structures have.  [data_at i] is the address of the data of buffer [i] in
    kernel memory, where a copy to or from a process has it. *)
From S2P Require Import Prelude Mem CString KTypes Kalloc Vm ListHead KState Queue Sched Signal Thread ProcBase Sync Bio Log Path Inode.

Definition ROOTINO : Z := 1.
Definition NDEV : Z := 10.
Definition NDIRECT : Z := 12.
Definition NINDIRECT : Z := BSIZE / 4.
Definition MAXFILE : Z := NDIRECT + NINDIRECT.
Definition XV6FS_SB_FREE : Z := 0.
Definition XV6FS_SB_USED : Z := 1.
Definition XV6FS_INODE_FREE : Z := 0.
Definition XV6FS_INODE_USED : Z := 1.
Definition SB_LOADED : Z := 1.
Definition M_USED : Z := 1.

(** struct xv6fs_dinode is 64 bytes. *)
Definition DINODE : Z := 64.
Definition IPB : Z := BSIZE / DINODE.
Definition BPB : Z := BSIZE * 8.
Definition IBLOCK (i : Z) (sb : xsuper) : Z := u32 (i / IPB + xs_inodestart sb).
Definition BBLOCK (b : Z) (sb : xsuper) : Z := u32 (b / BPB + xs_bmapstart sb).

(** The fields of the inode at offset [a] of a block. *)
Definition di_type (D : mem) (a : Z) : Z := sint 16 (load D a 2).
Definition di_major (D : mem) (a : Z) : Z := sint 16 (load D (a + 2) 2).
Definition di_minor (D : mem) (a : Z) : Z := sint 16 (load D (a + 4) 2).
Definition di_nlink (D : mem) (a : Z) : Z := sint 16 (load D (a + 6) 2).
Definition di_size (D : mem) (a : Z) : Z := load D (a + 8) 4.
Definition di_addr (D : mem) (a i : Z) : Z := load D (a + 12 + 4 * i) 4.

(** memmove of addrs[], [n] entries from [i] on. *)
Fixpoint di_put_addrs (n : nat) (i : Z) (addrs : Z -> Z) (a : Z) (D : mem) : mem :=
  match n with
  | O => D
  | S n => di_put_addrs n (i + 1) addrs a (store D (a + 12 + 4 * i) 4 (addrs i))
  end.

(** ** Access to the tables *)

Definition get_xinode (k : nat) : E kstate xinode := gets (fun s => xinodes (ftabs s) k).
Definition upd_xinode (k : nat) (f : xinode -> xinode) : E kstate unit :=
  on_ftabs (fun t => set_xinodes (<[k := f (xinodes t k)]> (xinodes t)) t).
Definition upd_xsuper (k : nat) (f : xsuper -> xsuper) : E kstate unit :=
  on_ftabs (fun t => set_xsbs (<[k := f (xsbs t k)]> (xsbs t)) t).
(** sb[dev] *)
Definition get_sb (dev : Z) : E kstate superblock :=
  if (0 <=? dev) && (dev <? NDEV) then gets (fun s => sbs (ftabs s) dev) else fault.
Definition upd_sb (dev : Z) (f : superblock -> superblock) : E kstate unit :=
  if (0 <=? dev) && (dev <? NDEV) then on_ftabs (fun t => set_sbs (<[dev := f (sbs t dev)]> (sbs t)) t) else fault.
(** The superblock of the device: [*xsb] with xsb = sb[dev].fs_info *)
Definition get_xsb (dev : Z) : E kstate xsuper :=
  r ← get_sb dev;
  k ← deref (sb_fs_info r);
  gets (fun s => xsbs (ftabs s) k).
(** ip->i_private *)
Definition private_of (i : nat) : E kstate nat :=
  ip ← get_inode i;
  deref (i_private ip).

Definition alloc_xv6fs_sb : E kstate (option nat) :=
  acquire L_xv6fs_sb_pool;;
  r ← table_find (fun s k => xs_flags (xsbs (ftabs s) k) =? XV6FS_SB_FREE) (Z.to_nat MAXVFSSIZE) 0;
  match r with
  | Some k =>
    upd_xsuper k (fun x => set_xs_flags (Z.lor (xs_flags x) XV6FS_SB_USED) x);;
    release L_xv6fs_sb_pool;;
    mret (Some k)
  | None => release L_xv6fs_sb_pool;; mret None
  end.

Definition alloc_xv6fs_inode : E kstate (option nat) :=
  acquire L_xv6fs_inode_pool;;
  r ← table_find (fun s k => xi_flags (xinodes (ftabs s) k) =? XV6FS_INODE_FREE) (Z.to_nat NINODE) 0;
  match r with
  | Some k =>
    upd_xinode k (fun x => set_xi_flags (Z.lor (xi_flags x) XV6FS_INODE_USED) x);;
    release L_xv6fs_inode_pool;;
    mret (Some k)
  | None => release L_xv6fs_inode_pool;; mret None
  end.

Definition xv6fs_fill_inode (i : nat) : E kstate bool :=
  x ← alloc_xv6fs_inode;
  match x with
  | None => panic "No xv6fs inode available"
  | Some k => upd_inode i (set_i_private (Some k));; mret true
  end.

Definition xv6fs_iget (dev inum_ : Z) : E kstate nat := iget dev inum_ xv6fs_fill_inode.
Definition xv6fs_getroot (major minor : Z) : E kstate nat := xv6fs_iget minor ROOTINO.

Definition xv6fs_cleanup (i : nat) : E kstate unit :=
  k ← private_of i;
  upd_xinode k (fun _ => Xinode 0 (fun _ => 0)).

Section Xv6fs.
(** The switch to the scheduler, a bound on the number of sleeps, the addresses
    of the data of the buffers, and the device table. *)
Context (swtch : nat -> E kstate unit) (fuel : nat) (data_at : nat -> Z).
Context (devsw_write : Z -> option (bool -> Z -> Z -> E kstate Z)).

(** A change of the data of a buffer. *)
Definition upd_data (i : nat) (f : mem -> mem) : E kstate unit :=
  upd_buf i (fun b => set_bdata (f (bdata b)) b).

(** ** The superblock *)

Definition read_xsuper (D : mem) (x : xsuper) : xsuper :=
  Xsuper (load D 0 4) (load D 4 4) (load D 8 4) (load D 12 4) (load D 16 4) (load D 20 4) (load D 24 4) (load D 28 4) (xs_flags x).

Definition xv6fs_readsb (dev : Z) : E kstate unit :=
  r ← get_sb dev;
  xsb ← (if has_bits (sb_flags r) SB_LOADED then mret (sb_fs_info r) else alloc_xv6fs_sb);
  upd_sb dev (fun r => set_sb_blocksize BSIZE (set_sb_minor dev (set_sb_major BLOCKMAJOR r)));;
  bp ← bread swtch fuel (u32 dev) 1;
  b ← get_buf bp;
  k ← deref xsb;
  upd_xsuper k (read_xsuper (bdata b));;
  brelse bp;;
  upd_sb dev (fun r => set_sb_flags (Z.lor (sb_flags r) SB_LOADED) (set_sb_fs_info xsb r)).

(** The loop over the mount table: the slot to use, or none. *)
Fixpoint mount_slot (todo k : nat) (devi ip : inode) : E kstate (option nat) :=
  match todo with
  | O => mret None
  | S todo =>
    e ← gets (fun s => mpoints (ftabs s) k);
    if m_flags e =? 0 then mret (Some k)
    else if m_dev e =? iminor devi then mret None
    else
      j ← deref (m_inode e);
      mi ← get_inode j;
      if same_key ip mi then mret (Some k) else mount_slot todo (S k) devi ip
  end.

Definition xv6fs_mount (devi ip : nat) : E kstate Z :=
  d ← get_inode devi;
  xv6fs_readsb (iminor d);;
  d ← get_inode devi;
  devrtip ← xv6fs_getroot (imajor d) (iminor d);
  acquire L_mtable;;
  d ← get_inode devi;
  r ← get_inode ip;
  slot ← mount_slot (Z.to_nat MOUNTSIZE) 0 d r;
  match slot with
  | None => release L_mtable;; mret (-1)
  | Some k =>
    on_ftabs (fun t => set_mpoints (<[k := Mntentry (Some ip) (Some devrtip) (iminor d) (iminor d) (Z.lor (m_flags (mpoints t k)) M_USED)]> (mpoints t)) t);;
    release L_mtable;;
    sb ← get_sb (iminor d);
    x ← match sb_fs_info sb with
        | None => mret None
        | Some k => x ← gets (fun s => xsbs (ftabs s) k); mret (Some (xs_logstart x, xs_nlog x))
        end;
    initlog swtch fuel (iminor d) x;;
    mret 0
  end.

(** ** Blocks *)

Definition xv6fs_bzero (dev bno : Z) : E kstate unit :=
  bp ← bread swtch fuel dev bno;
  upd_data bp (fun D => memset D 0 0 BSIZE);;
  log_write bp;;
  brelse bp.

(** bp->data[bi/8] & (1 << (bi % 8)) *)
Definition bit_used (D : mem) (bi : Z) : bool := has_bits (D (bi / 8)) (Z.shiftl 1 (bi mod 8)).
Definition set_bit (bi : Z) (D : mem) : mem := mset D (bi / 8) (Z.lor (D (bi / 8)) (Z.shiftl 1 (bi mod 8))).
Definition clear_bit (bi : Z) (D : mem) : mem := mset D (bi / 8) (Z.land (D (bi / 8)) (Z.lnot (Z.shiftl 1 (bi mod 8)))).

(** for (bi = 0; bi < BPB && b + bi < size; bi++): the first free one. *)
Fixpoint free_bit (todo : nat) (D : mem) (b bi size : Z) : option Z :=
  match todo with
  | O => None
  | S todo =>
    if b + bi <? size then
      if bit_used D bi then free_bit todo D b (bi + 1) size else Some bi
    else None
  end.

Fixpoint balloc_loop (n : nat) (dev b : Z) (xsb : xsuper) : E kstate Z :=
  if b <? xs_size xsb then
    match n with
    | O => nofuel
    | S n =>
      bp ← bread swtch fuel dev (BBLOCK b xsb);
      r ← get_buf bp;
      match free_bit (Z.to_nat BPB) (bdata r) b 0 (xs_size xsb) with
      | Some bi =>
        upd_data bp (set_bit bi);;
        log_write bp;;
        brelse bp;;
        xv6fs_bzero dev (b + bi);;
        mret (b + bi)
      | None => brelse bp;; balloc_loop n dev (b + BPB) xsb
      end
    end
  else panic "balloc: out of blocks".

Definition xv6fs_balloc (dev : Z) : E kstate Z :=
  xsb ← get_xsb dev;
  balloc_loop (Z.to_nat (xs_size xsb)) dev 0 xsb.

Definition xv6fs_bfree (dev b : Z) : E kstate unit :=
  r ← get_sb dev;
  xv6fs_readsb dev;;
  k ← deref (sb_fs_info r);
  xsb ← gets (fun s => xsbs (ftabs s) k);
  bp ← bread swtch fuel dev (BBLOCK b xsb);
  r ← get_buf bp;
  let bi := b mod BPB in
  panic_if (negb (bit_used (bdata r) bi)) "freeing free block";;
  upd_data bp (clear_bit bi);;
  log_write bp;;
  brelse bp.

(** ** Inodes on disk *)

Definition inode_at (D : mem) (a : Z) (i : nat) : E kstate unit :=
  upd_inode i (fun ip => set_isize (di_size D a) (set_inlink (di_nlink D a) (set_iminor (di_minor D a) (set_imajor (di_major D a) (set_itype (di_type D a) ip))))).

Definition di_put (ip : inode) (addrs : Z -> Z) (a : Z) (D : mem) : mem :=
  di_put_addrs (Z.to_nat (NDIRECT + 1)) 0 addrs a
    (store (store (store (store (store D a 2 (itype ip)) (a + 2) 2 (imajor ip)) (a + 4) 2 (iminor ip)) (a + 6) 2 (inlink ip)) (a + 8) 4 (isize ip)).

Definition xv6fs_iupdate (i : nat) : E kstate unit :=
  x ← private_of i;
  ip ← get_inode i;
  xsb ← get_xsb (idev ip);
  bp ← bread swtch fuel (idev ip) (IBLOCK (inum ip) xsb);
  xi ← get_xinode x;
  ip ← get_inode i;
  upd_data bp (di_put ip (xi_addrs xi) (inum ip mod IPB * DINODE));;
  log_write bp;;
  brelse bp.

Fixpoint ialloc_loop (n : nat) (dev inum_ type : Z) (xsb : xsuper) : E kstate nat :=
  if inum_ <? xs_ninodes xsb then
    match n with
    | O => nofuel
    | S n =>
      bp ← bread swtch fuel dev (IBLOCK inum_ xsb);
      r ← get_buf bp;
      let a := inum_ mod IPB * DINODE in
      if di_type (bdata r) a =? 0 then
        upd_data bp (fun D => store (memset D a 0 DINODE) a 2 type);;
        log_write bp;;
        brelse bp;;
        xv6fs_iget dev inum_
      else brelse bp;; ialloc_loop n dev (inum_ + 1) type xsb
    end
  else panic "ialloc: no inodes".

Definition xv6fs_ialloc (dev type : Z) : E kstate nat :=
  xsb ← get_xsb dev;
  ialloc_loop (Z.to_nat (xs_ninodes xsb)) dev 1 type xsb.

(** ip is not NULL; the test of its references comes after the accesses. *)
Definition xv6fs_ilock (i : nat) : E kstate unit :=
  ip ← get_inode i;
  r ← get_sb (idev ip);
  panic_if (iref ip <? 1) "ilock";;
  acquiresleep swtch fuel (inode_lock i);;
  ip ← get_inode i;
  if ivalid ip =? 0 then
    k ← deref (sb_fs_info r);
    xsb ← gets (fun s => xsbs (ftabs s) k);
    bp ← bread swtch fuel (idev ip) (IBLOCK (inum ip) xsb);
    b ← get_buf bp;
    let a := inum ip mod IPB * DINODE in
    inode_at (bdata b) a i;;
    x ← deref (i_private ip);
    upd_xinode x (set_xi_addrs (fun j => if (0 <=? j) && (j <=? NDIRECT) then di_addr (bdata b) a j else 0));;
    brelse bp;;
    upd_inode i (set_ivalid 1);;
    ip ← get_inode i;
    panic_if (itype ip =? 0) "ilock: no type"
  else mret tt.

(** ** Content of an inode *)

Definition set_addr (x : nat) (i v : Z) : E kstate unit :=
  upd_xinode x (fun xi => set_xi_addrs (<[i := v]> (xi_addrs xi)) xi).

(** for (i = 0; i < NDIRECT; i++) of itrunc, from [i] on. *)
Fixpoint itrunc_direct (todo : nat) (i : Z) (ip x : nat) : E kstate unit :=
  match todo with
  | O => mret tt
  | S todo =>
    xi ← get_xinode x;
    (if negb (xi_addrs xi i =? 0) then
       r ← get_inode ip;
       xv6fs_bfree (idev r) (xi_addrs xi i);;
       set_addr x i 0
     else mret tt);;
    itrunc_direct todo (i + 1) ip x
  end.
Fixpoint itrunc_indirect (todo : nat) (j : Z) (ip bp : nat) : E kstate unit :=
  match todo with
  | O => mret tt
  | S todo =>
    b ← get_buf bp;
    let a := load (bdata b) (4 * j) 4 in
    (if negb (a =? 0) then r ← get_inode ip; xv6fs_bfree (idev r) a else mret tt);;
    itrunc_indirect todo (j + 1) ip bp
  end.

Definition xv6fs_itrunc (ip : nat) : E kstate unit :=
  x ← private_of ip;
  itrunc_direct (Z.to_nat NDIRECT) 0 ip x;;
  xi ← get_xinode x;
  (if negb (xi_addrs xi NDIRECT =? 0) then
     r ← get_inode ip;
     bp ← bread swtch fuel (idev r) (xi_addrs xi NDIRECT);
     itrunc_indirect (Z.to_nat NINDIRECT) 0 ip bp;;
     brelse bp;;
     xi ← get_xinode x;
     xv6fs_bfree (idev r) (xi_addrs xi NDIRECT);;
     set_addr x NDIRECT 0
   else mret tt);;
  upd_inode ip (set_isize 0);;
  xv6fs_iupdate ip.

(** The entry [bn] of the indirect block; an entry that is missing is allocated
    twice, and the second block is the one that is stored. *)
Definition bmap_indirect (dev addr bn : Z) : E kstate Z :=
  bp ← bread swtch fuel dev addr;
  b ← get_buf bp;
  let a := load (bdata b) (4 * bn) 4 in
  addr ← (if a =? 0 then
            addr ← xv6fs_balloc dev;
            if negb (addr =? 0) then
              addr ← xv6fs_balloc dev;
              upd_data bp (fun D => store D (4 * bn) 4 addr);;
              log_write bp;;
              mret addr
            else mret addr
          else mret a);
  brelse bp;;
  mret addr.

Definition xv6fs_bmap (ip : nat) (bn : Z) : E kstate Z :=
  x ← private_of ip;
  r ← get_inode ip;
  xi ← get_xinode x;
  if bn <? NDIRECT then
    if xi_addrs xi bn =? 0 then
      addr ← xv6fs_balloc (idev r);
      set_addr x bn addr;;
      mret addr
    else mret (xi_addrs xi bn)
  else
    let bn := bn - NDIRECT in
    if bn <? NINDIRECT then
      if xi_addrs xi NDIRECT =? 0 then
        addr ← xv6fs_balloc (idev r);
        if addr =? 0 then mret 0
        else set_addr x NDIRECT addr;; bmap_indirect (idev r) addr bn
      else bmap_indirect (idev r) (xi_addrs xi NDIRECT) bn
    else panic "bmap: out of range".

(** The data of buffer [bp], in place in kernel memory. *)
Definition show_data (bp : nat) : E kstate unit :=
  b ← get_buf bp;
  on_mach (upd_mem (fun m => data_to_mem m (data_at bp) (bdata b))).
Definition take_data (bp : nat) : E kstate unit :=
  m ← gets (fun s => mmem (km s));
  upd_data bp (mem_to_data m (data_at bp)).

(** for (tot = 0; tot < n; ...): the final tot. *)
Fixpoint readi_loop (todo : nat) (ip : nat) (user_dst : bool) (dst off n tot : Z) : E kstate Z :=
  if tot <? n then
    match todo with
    | O => nofuel
    | S todo =>
      addr ← xv6fs_bmap ip (off / BSIZE);
      if addr =? 0 then mret tot
      else
        r ← get_inode ip;
        bp ← bread swtch fuel (idev r) addr;
        let m := Z.min (n - tot) (BSIZE - off mod BSIZE) in
        show_data bp;;
        x ← either_copyout user_dst dst (data_at bp + off mod BSIZE) m;
        if x =? -1 then brelse bp;; mret (-1)
        else brelse bp;; readi_loop todo ip user_dst (u64 (dst + m)) (u32 (off + m)) n (u32 (tot + m))
    end
  else mret tot.

Definition xv6fs_readi (ip : nat) (user_dst : bool) (dst off n : Z) : E kstate Z :=
  r ← get_inode ip;
  if (isize r <? off) || (u32 (off + n) <? off) then mret 0
  else
    let n := if isize r <? u32 (off + n) then u32 (isize r - off) else n in
    tot ← readi_loop (Z.to_nat n) ip user_dst dst off n 0;
    mret (i32 tot).

(** The final tot and off. *)
Fixpoint writei_loop (todo : nat) (ip : nat) (user_src : bool) (src off n tot : Z) : E kstate (Z * Z) :=
  if tot <? n then
    match todo with
    | O => nofuel
    | S todo =>
      addr ← xv6fs_bmap ip (off / BSIZE);
      if addr =? 0 then mret (tot, off)
      else
        r ← get_inode ip;
        bp ← bread swtch fuel (idev r) addr;
        let m := Z.min (n - tot) (BSIZE - off mod BSIZE) in
        show_data bp;;
        x ← either_copyin (data_at bp + off mod BSIZE) user_src src m;
        take_data bp;;
        if x =? -1 then brelse bp;; mret (tot, off)
        else
          log_write bp;;
          brelse bp;;
          writei_loop todo ip user_src (u64 (src + m)) (u32 (off + m)) n (u32 (tot + m))
    end
  else mret (tot, off).

Definition xv6fs_writei (ip : nat) (user_src : bool) (src off n : Z) : E kstate Z :=
  r ← get_inode ip;
  if itype r =? T_DEVICE then
    if (imajor r <? 0) || (NDEV <=? imajor r) then mret (-1)
    else match devsw_write (imajor r) with
         | None => mret (-1)
         | Some write => write false src n
         end
  else if (isize r <? off) || (u32 (off + n) <? off) then mret (-1)
  else if MAXFILE * BSIZE <? u32 (off + n) then mret (-1)
  else
    x ← writei_loop (Z.to_nat n) ip user_src src off n 0;
    let '(tot, off) := x in
    r ← get_inode ip;
    (if isize r <? off then upd_inode ip (set_isize off) else mret tt);;
    xv6fs_iupdate ip;;
    mret (i32 tot).

(** ** Directories *)

Definition xv6fs_namecmp (m : mem) (s t : Z) : Z := strncmp m s t DIRSIZ.

(** [de] is the address of the local directory entry. *)
Fixpoint dirlookup_loop (todo : nat) (dp : nat) (de name off : Z) : E kstate (option (nat * Z)) :=
  r ← get_inode dp;
  if off <? isize r then
    match todo with
    | O => nofuel
    | S todo =>
      x ← xv6fs_readi dp false de off DIRENT;
      panic_if (negb (x =? DIRENT)) "dirlink read";;
      m ← gets (fun s => mmem (km s));
      if de_inum m de =? 0 then dirlookup_loop todo dp de name (off + DIRENT)
      else if xv6fs_namecmp m name (de + 2) =? 0 then
        i ← xv6fs_iget (idev r) (de_inum m de);
        mret (Some (i, off))
      else dirlookup_loop todo dp de name (off + DIRENT)
    end
  else mret None.

Definition xv6fs_dirlookup (de : Z) (dp : nat) (name : Z) : E kstate (option (nat * Z)) :=
  r ← get_inode dp;
  panic_if ((itype r =? T_FILE) || (itype r =? T_DEVICE)) "dirlookup not DIR";;
  dirlookup_loop (Z.to_nat (isize r)) dp de name 0.

Fixpoint isdirempty_loop (todo : nat) (dp : nat) (de off : Z) : E kstate bool :=
  r ← get_inode dp;
  if off <? isize r then
    match todo with
    | O => nofuel
    | S todo =>
      x ← xv6fs_readi dp false de off DIRENT;
      panic_if (negb (x =? DIRENT)) "isdirempty: readi";;
      m ← gets (fun s => mmem (km s));
      if negb (de_inum m de =? 0) then mret false else isdirempty_loop todo dp de (off + DIRENT)
    end
  else mret true.
Definition xv6fs_isdirempty (de : Z) (dp : nat) : E kstate bool :=
  r ← get_inode dp;
  isdirempty_loop (Z.to_nat (isize r)) dp de (2 * DIRENT).

Definition xv6fs_unlink (de : Z) (dp : nat) (off : Z) : E kstate Z :=
  on_mach (upd_mem (fun m => memset m de 0 DIRENT));;
  r ← xv6fs_writei dp false de off DIRENT;
  mret (if r =? DIRENT then 0 else -1).

(** The table of operations; [de] is the local entry of dirlookup. *)
Definition xv6fs_iops (de : Z) : inode_ops :=
  InodeOps (xv6fs_dirlookup de) xv6fs_iupdate xv6fs_itrunc xv6fs_cleanup xv6fs_bmap xv6fs_ilock
    (fun i => generic_iunlock (Some i)) xv6fs_readi xv6fs_writei.
End Xv6fs.
