(* ===== verification/TxnSpec.v ===== *)
(** * Blocks read and changed inside a transaction

    [txn lk L vw s]: the process is inside begin_op and end_op, it holds the
    buffers [lk], the log has recorded the blocks [L], and the blocks as the
    file system sees them are [vw].  The rules give the effect of bread, of a
    change that is handed to the log, and of brelse on these. *)
From S2P Require Import Prelude Mem CString KTypes Kalloc Vm ListHead KState Queue Sched Signal Thread ThreadInv SchedSpec ProcBase Pipe Sync Bio BioSpec BlockdevSpec Log LogSpec LogCrash Path Inode Xv6fs.

Definition add_block (b : Z) (L : list Z) : list Z := if decide (b ∈ L) then L else L ++ [b].

(** One reference for a logged block, one for a holder. *)
Definition pins (d : Z) (L : list Z) (s : kstate) (i : nat) : Z :=
  if decide (bdev (bufs s i) = d /\ blockno (bufs s i) ∈ L) then 1 else 0.
Definition locks (lk : gset nat) (i : nat) : Z := if decide (i ∈ lk) then 1 else 0.

Section Txn.
Context (swtch : nat -> E kstate unit) (fuel : nat) (p : nat) (d st sz : Z).
Abbreviation ok := (bcache_ok p d).
Implicit Types (lk : gset nat) (vw : Z -> mem) (s : kstate) (L : list Z).

Record txn lk L vw s : Prop := {
  tx_ok : ok lk (fun i => pins d L s i + locks lk i) vw s;
  tx_log : log_is d st L (flog s);
  tx_open : 1 <= outstanding (flog s);
  tx_size : lsize (flog s) = sz;
  tx_blocks : loggable st L;
  tx_pinned : forall b, b ∈ L -> exists i, caches d s b i;
  tx_clean : forall b, b ∉ L -> vw b = disk s b;
}.

(** Nothing but buffers, the log and the sleeping threads changes. *)
Definition txn_rest s s' : Prop := bio_rest s (set_flog (flog s) s') /\ dwrites s' = dwrites s.

Lemma txn_rest_refl s : txn_rest s s.
Proof. clear swtch fuel. split; [|done]. replace (set_flog (flog s) s) with s by by destruct s. apply bio_rest_refl. Qed.
Lemma txn_rest_bio s s' : bio_rest s s' -> dwrites s' = dwrites s -> txn_rest s s'.
Proof. clear swtch fuel.
  intros Hr Hw. split; [|done]. apply bio_rest_fields in Hr as Hf. destruct Hf as (_ & _ & Hf & _).
  rewrite <- Hf. by replace (set_flog (flog s') s') with s' by by destruct s'.
Qed.
Lemma txn_rest_trans s1 s2 s3 : txn_rest s1 s2 -> txn_rest s2 s3 -> txn_rest s1 s3.
Proof. clear swtch fuel.
  intros [H1 W1] [H2 W2]. split; [|congruence]. etransitivity; [exact H1|].
  apply (f_equal (set_flog (flog s1))) in H2. exact H2.
Qed.
#[global] Instance txn_rest_preorder : PreOrder txn_rest.
Proof. split; [exact txn_rest_refl|exact txn_rest_trans]. Qed.

Lemma txn_rest_fields s s' : txn_rest s s' -> km s' = km s /\ ftabs s' = ftabs s /\ procs s' = procs s /\ disk s' = disk s.
Proof. clear swtch fuel.
  intros [R W]. split_and!.
  - by apply (f_equal km) in R.
  - by apply (f_equal ftabs) in R.
  - by apply (f_equal procs) in R.
  - apply (f_equal image) in R. unfold disk. rewrite W. cbn in R. by rewrite R.
Qed.

(** Buffer [i] has the contents of block [b]. *)
Definition holds s (i : nat) (b : Z) : Prop := caches d s b i /\ bvalid (bufs s i) <> 0.
(** The buffers held before are still there. *)
Definition kept_locked lk s s' : Prop := forall j b, j ∈ lk -> holds s j b -> holds s' j b.

Lemma holds_data lk L vw s i b : txn lk L vw s -> holds s i b -> bdata (bufs s i) = vw b.
Proof. clear swtch fuel. intros T [(Hi & Hd & Hb) Hv]. destruct (bo_hit _ _ _ _ _ _ (tx_ok _ _ _ _ T) i Hi Hv) as [_ ->]. by rewrite Hb. Qed.

(** A buffer to recycle. *)
Lemma txn_spare lk L vw s : txn lk L vw s -> Z.of_nat (length L + size lk) < NBUF ->
  exists i, is_buf i /\ pins d L s i + locks lk i = 0.
Proof. clear swtch fuel.
  intros T Hlt. pose proof (tx_ok _ _ _ _ T) as Hok.
  destruct (decide (Exists (fun i => pins d L s i + locks lk i = 0) (seq 0 (Z.to_nat NBUF)))) as [He|Hn].
  { apply Exists_exists in He as (i & Hi%elem_of_seq & H0). exists i. split; [unfold is_buf; lia|done]. }
  exfalso. assert (Hall : forall i, is_buf i -> i ∉ lk -> bdev (bufs s i) = d /\ blockno (bufs s i) ∈ L).
  { intros i Hi Hl. destruct (decide (bdev (bufs s i) = d /\ blockno (bufs s i) ∈ L)) as [|Hd]; [done|]. exfalso. apply Hn, Exists_exists.
    exists i. rewrite elem_of_seq. split; [unfold is_buf in Hi; lia|]. unfold pins, locks. by repeat case_decide. }
  set (all := seq 0 (Z.to_nat NBUF)).
  assert (H1 : (length (filter (fun i => i ∈ lk) all) <= size lk)%nat).
  { unfold size, set_size. simpl. apply submseteq_length, NoDup_submseteq; [apply NoDup_filter, NoDup_seq|].
    intros i [Hi _]%list_elem_of_filter. by apply elem_of_elements. }
  assert (H2 : (length (filter (fun i => i ∉ lk) all) <= length L)%nat).
  { rewrite <- (length_fmap (fun i => blockno (bufs s i))). apply submseteq_length, NoDup_submseteq.
    - apply NoDup_fmap_2_strong; [|apply NoDup_filter, NoDup_seq].
      intros i j [Hi Hi2]%list_elem_of_filter [Hj Hj2]%list_elem_of_filter Hij. apply elem_of_seq in Hi2, Hj2.
      assert (is_buf i /\ is_buf j) as [Hbi Hbj] by (unfold is_buf; lia). apply (bo_key _ _ _ _ _ _ Hok); try done; by apply Hall.
    - intros b (i & -> & [Hi Hi2]%list_elem_of_filter)%list_elem_of_fmap. apply elem_of_seq in Hi2. apply Hall; [unfold is_buf; lia|done]. }
  pose proof (Permutation_length (filter_app_complement (fun i => i ∈ lk) all)) as H3. rewrite length_app in H3.
  unfold all in H3 at 3. rewrite length_seq in H3. lia.
Qed.

Lemma pins_range L s i : 0 <= pins d L s i <= 1.
Proof. clear swtch fuel. unfold pins. by case_decide. Qed.
Lemma locks_range lk i : 0 <= locks lk i <= 1.
Proof. clear swtch fuel. unfold locks. by case_decide. Qed.

Lemma pins_same L s s' i : bdev (bufs s' i) = bdev (bufs s i) -> blockno (bufs s' i) = blockno (bufs s i) -> pins d L s' i = pins d L s i.
Proof. clear swtch fuel. intros H1 H2. unfold pins. by rewrite H1, H2. Qed.

(** An unreferenced buffer is not that of a logged block. *)
Lemma txn_pins_zero lk L vw s i b : txn lk L vw s -> is_buf i -> pins d L s i = 0 -> b ∈ L -> ~ caches d s b i.
Proof. clear swtch fuel. intros T Hi H0 Hb (_ & Hd & Hbn). unfold pins in H0. rewrite decide_True in H0; [done|]. by rewrite Hbn. Qed.

Lemma wp_txn_bread lk L vw b (Q : nat -> kstate -> Prop) s :
  txn lk L vw s -> (forall i, i ∈ lk -> ~ holds s i b) -> (forall i, i ∈ lk -> exists c, holds s i c) ->
  Z.of_nat (length L + size lk) < NBUF ->
  (forall i s', txn ({[i]} ∪ lk) L vw s' -> i ∉ lk -> holds s' i b -> kept_locked lk s s' -> txn_rest s s' -> Q i s') ->
  wp (bread swtch fuel d b) Q s.
Proof.
  intros T Hlk Hlk2 Hroom HQ. pose proof T as [Hok Hlog Hop Hsz HL Hpin Hcl]. destruct (txn_spare _ _ _ _ T Hroom) as (k & Hk & Hk0).
  eapply (wp_bread swtch fuel p d); [exact Hok| | |right; by exists k|].
  - intros i Hi Hb. destruct (Hlk2 i Hi) as (c & (Hi1 & Hi2 & Hi3) & Hv). apply (Hlk i Hi). by split.
  - intros i _. pose proof (pins_range L s i). pose proof (locks_range lk i). lia.
  - intros i s' Hok' Hni Hca Hv Hcase Ho. pose proof Ho as (Hbo & Hr & Hw). pose proof (bio_rest_fields _ _ Hr) as (_ & _ & Hf & _).
    pose proof Hca as (Hi & Hdi & Hbi).
    assert (Hdk : disk s' = disk s) by by apply bio_rest_disk.
    (* the references of buffer [i] *)
    assert (Hpi : pins d L s' i = pins d L s i).
    { destruct Hcase as [(_ & Hd2 & Hb2)|H0]; [apply pins_same; congruence|].
      pose proof (pins_range L s i). pose proof (locks_range lk i). unfold pins. rewrite decide_False.
      - fold (pins d L s i). lia.
      - intros [_ HbL]. rewrite Hbi in HbL. destruct (Hpin b HbL) as (j & Hj & Hdj & Hbj).
        assert (Hji : j = i).
        { destruct (decide (j = i)); [done|]. apply (bo_key _ _ _ _ _ _ Hok'); [done|done|by rewrite Hbo|done|]. by rewrite Hbo, Hbj. }
        subst j. eapply (txn_pins_zero _ _ _ _ i b T Hi); [lia|done|by split_and!]. }
    apply HQ; [|done|by split| |by apply txn_rest_bio].
    + split; [|by rewrite Hf..|done| |by rewrite Hdk].
      * eapply bcache_ok_proper; [|reflexivity|reflexivity|exact Hok']. intros j. unfold locks. destruct (decide (j = i)) as [->|Hji].
        -- rewrite fn_lookup_insert, Hpi. rewrite decide_True by set_solver. rewrite decide_False by done. lia.
        -- rewrite fn_lookup_insert_ne by done. rewrite (pins_same L s s') by by rewrite Hbo. do 2 f_equal. apply decide_ext. set_solver.
      * intros c Hc. destruct (Hpin c Hc) as (j & Hj & Hdj & Hbj). exists j. destruct (decide (j = i)) as [->|Hji]; [|unfold caches; by rewrite Hbo].
        assert (pins d L s i = 1) as H1 by (unfold pins; rewrite decide_True; [done|]; by rewrite Hbj).
        destruct Hcase as [(_ & _ & Hb2)|H0]; [|pose proof (locks_range lk i); lia]. split_and!; [done|done|congruence].
    + intros j c Hj [Hcj Hvj]. assert (Hji : j <> i) by congruence. unfold holds, caches. by rewrite Hbo.
Qed.

Lemma wp_txn_brelse lk L vw i b (Q : unit -> kstate -> Prop) s :
  txn lk L vw s -> i ∈ lk -> holds s i b ->
  (forall s', txn (lk ∖ {[i]}) L vw s' -> kept_locked lk s s' -> txn_rest s s' -> Q tt s') ->
  wp (brelse i) Q s.
Proof. clear swtch fuel.
  intros T Hi [Hca Hv] HQ. pose proof T as [Hok Hlog Hop Hsz HL Hpin Hcl]. pose proof Hca as (Hib & Hdi & Hbi).
  eapply (wp_brelse p d); [exact Hok|done| |].
  - intros H1 _. apply Hcl. intros HbL. unfold pins, locks in H1. rewrite !decide_True in H1; [lia|done|done].
  - intros s' Hok' Hbi' Ho. pose proof Ho as (Hbo & Hr & Hw). pose proof (bio_rest_fields _ _ Hr) as (_ & _ & Hf & _).
    assert (Hdk : disk s' = disk s) by by apply bio_rest_disk.
    assert (Hsame : forall j, bdev (bufs s' j) = bdev (bufs s j) /\ blockno (bufs s' j) = blockno (bufs s j) /\ bvalid (bufs s' j) = bvalid (bufs s j)).
    { intros j. destruct (decide (j = i)) as [->|Hj]; [by rewrite Hbi'|by rewrite Hbo]. }
    assert (Hcs : forall c j, caches d s c j -> caches d s' c j).
    { intros c j (H1 & H2 & H3). destruct (Hsame j) as (E1 & E2 & _). unfold caches. by rewrite E1, E2. }
    apply HQ; [| |by apply txn_rest_bio].
    + split; [|by rewrite Hf..|done| |by rewrite Hdk].
      * eapply bcache_ok_proper; [|reflexivity|reflexivity|exact Hok']. intros j. destruct (Hsame j) as (E1 & E2 & _).
        rewrite (pins_same L s s') by done. unfold locks. destruct (decide (j = i)) as [->|Hj].
        -- rewrite fn_lookup_insert. rewrite decide_False by set_solver. rewrite decide_True by done. lia.
        -- rewrite fn_lookup_insert_ne by done. do 2 f_equal. apply decide_ext. set_solver.
      * intros c Hc. destruct (Hpin c Hc) as (j & Hj). exists j. by apply Hcs.
    + intros j c _ [Hcj Hvj]. destruct (Hsame j) as (_ & _ & E3). split; [by apply Hcs|by rewrite E3].
Qed.

(** The index of a logged block, or the end of the list. *)
Definition log_index L (b : Z) (j : nat) : Prop := L !! j = Some b \/ b ∉ L /\ j = length L.

Lemma wp_log_find L b (Q : Z -> kstate -> Prop) s : log_is d st L (flog s) -> loggable st L -> is_int b ->
  (forall j, log_index L b j -> Q (Z.of_nat j) s) ->
  forall n k, (n + k = length L)%nat -> b ∉ take k L -> wp (log_find n (Z.of_nat k) b) Q s.
Proof.
  clear swtch fuel. intros Hl (_ & Hlen & HL) Hb HQ n. induction n as [|n IH]; intros k Hk Hni; apply wp_bind, wp_gets; rewrite (li_n _ _ _ _ Hl).
  - destruct (Z.ltb_spec (Z.of_nat k) (Z.of_nat (length L))); [lia|]. apply wp_ret, HQ. right. simpl in Hk. subst k. by rewrite firstn_all in Hni.
  - destruct (Z.ltb_spec (Z.of_nat k) (Z.of_nat (length L))); [|lia].
    destruct (lookup_lt_is_Some_2 L k ltac:(lia)) as [c Hc]. apply wp_bind. unfold lh_block. apply wp_bind, wp_gets.
    destruct (Z.leb_spec 0 (Z.of_nat k)); [|lia]. destruct (Z.ltb_spec (Z.of_nat k) LOGSIZE); [|lia]. cbn [andb]. apply wp_ret.
    rewrite (li_block _ _ _ _ Hl k c Hc). destruct (HL c) as [Hci _]; [by eapply list_elem_of_lookup_2|].
    rewrite wrap_small by (unfold is_int in Hci; lia). destruct (Z.eqb_spec c b) as [->|Hne].
    + apply wp_ret, HQ. by left.
    + replace (Z.of_nat k + 1) with (Z.of_nat (S k)) by lia. apply IH; [lia|]. rewrite (take_S_r _ _ _ Hc). set_solver.
Qed.

Lemma add_block_index L b j : log_index L b j -> add_block b L = if (j =? length L)%nat then L ++ [b] else L.
Proof. clear swtch fuel.
  unfold add_block. intros [Hj|[Hni ->]].
  - rewrite decide_True by by eapply list_elem_of_lookup_2. apply lookup_lt_Some in Hj. by rewrite (proj2 (Nat.eqb_neq _ _)) by lia.
  - rewrite decide_False by done. by rewrite Nat.eqb_refl.
Qed.

Lemma log_is_put L b j l : log_is d st L l -> log_index L b j ->
  log_is d st (add_block b L) (if (j =? length L)%nat then set_lhn (lhn l + 1) (set_lhblock (<[Z.of_nat j := b]> (lhblock l)) l)
                               else set_lhblock (<[Z.of_nat j := b]> (lhblock l)) l).
Proof.
  clear swtch fuel. intros [H1 H2 H3 H4] Hj. rewrite (add_block_index _ _ _ Hj). destruct (Nat.eqb_spec j (length L)) as [->|Hne].
  - split; [done|done|simpl; rewrite length_app; simpl; lia|]. intros k c Hk. cbn [lhblock set_lhn set_lhblock].
    destruct (decide (k = length L)) as [->|Hkl].
    + rewrite lookup_app_r, Nat.sub_diag in Hk by lia. injection Hk as <-. by rewrite fn_lookup_insert.
    + rewrite fn_lookup_insert_ne by lia. apply H4. rewrite lookup_app_l in Hk; [done|]. apply lookup_lt_Some in Hk. rewrite length_app in Hk. simpl in Hk. lia.
  - destruct Hj as [Hj|[_ ?]]; [|done]. split; [done|done|done|]. intros k c Hk. cbn [lhblock set_lhblock].
    destruct (decide (k = j)) as [->|Hkj]; [rewrite fn_lookup_insert; congruence|rewrite fn_lookup_insert_ne by lia; by apply H4].
Qed.

Definition log_put (j : nat) (b : Z) L (l : xlog) : xlog :=
  if (j =? length L)%nat then set_lhn (lhn l + 1) (set_lhblock (<[Z.of_nat j := b]> (lhblock l)) l) else set_lhblock (<[Z.of_nat j := b]> (lhblock l)) l.

(** log_write as its effect on the struct log and the buffer. *)
Lemma wp_log_write L i (Q : unit -> kstate -> Prop) s :
  held (km s) = [] -> log_is d st L (flog s) -> loggable st L -> 1 <= outstanding (flog s) -> lsize (flog s) = sz ->
  Z.of_nat (length L) < LOGSIZE -> Z.of_nat (length L) < sz - 1 -> is_int (blockno (bufs s i)) -> 0 <= refcnt (bufs s i) < 2 ^ 32 - 1 ->
  (forall j, let b := blockno (bufs s i) in log_index L b j ->
     Q tt (set_flog (log_put j b L (flog s)) (if (j =? length L)%nat then set_bufs (<[i := set_refcnt (refcnt (bufs s i) + 1) (bufs s i)]> (bufs s)) s else s))) ->
  wp (log_write i) Q s.
Proof.
  clear swtch fuel p. intros Hh Hl HL Ho Hsz H1 H2 Hb Hrc HQ. unfold log_write. apply wp_bind, wp_kacquire; [rewrite Hh; apply not_elem_of_nil|]. rewrite Hh.
  apply wp_bind, wp_gets. cbn [flog set_km]. rewrite (li_n _ _ _ _ Hl). apply wp_bind, wp_panic_if.
  { rewrite Hsz. apply orb_false_iff. split; apply Z.leb_gt; lia. }
  apply wp_bind, wp_panic_if; [apply Z.ltb_ge; lia|]. apply wp_bind, wp_gets. cbn [bufs set_km]. rewrite Nat2Z.id.
  set (s1 := set_km _ s). apply wp_bind. apply (wp_log_find L _ _ s1 Hl HL Hb) with (k := 0%nat); [|lia|rewrite take_0; apply not_elem_of_nil].
  intros j Hj. specialize (HQ j Hj). assert (Hjl : (j <= length L)%nat) by (destruct Hj as [Hj|[_ Hj]]; [apply lookup_lt_Some in Hj|]; lia).
  rewrite sint_small by (unfold is_int in Hb; simpl; lia). apply wp_bind. unfold set_lh_block.
  destruct (Z.leb_spec 0 (Z.of_nat j)); [|lia]. destruct (Z.ltb_spec (Z.of_nat j) LOGSIZE); [|lia]. cbn [andb]. apply wp_modify.
  unfold log_put in HQ. destruct (Nat.eqb_spec j (length L)) as [Hjeq|Hne].
  - destruct (Z.eqb_spec (Z.of_nat j) (Z.of_nat (length L))); [|lia]. apply wp_bind, wp_bind. unfold bpin. apply wp_bind, wp_kacquire; [cbn [km set_flog set_km s1]; simpl; set_solver|].
    apply wp_bind, wp_modify. eapply wp_krelease; [reflexivity|simpl; set_solver|]. apply wp_modify. cbn [km set_flog set_km s1].
    eapply wp_krelease; [reflexivity|apply not_elem_of_nil|]. cbn [km set_flog set_km set_bufs bufs flog s1] in *.
    rewrite wrap_small by lia. rewrite (li_n _ _ _ _ Hl) in *. cbn [lhn set_lhblock] in *. rewrite (li_n _ _ _ _ Hl).
    rewrite sint_small by (unfold LOGSIZE, MAXOPBLOCKS in *; simpl; lia). revert HQ. destruct s as [m]. cbn in Hh |- *. destruct m. cbn in Hh. by subst.
  - destruct (Z.eqb_spec (Z.of_nat j) (Z.of_nat (length L))); [lia|]. apply wp_bind, wp_ret.
    eapply wp_krelease; [reflexivity|apply not_elem_of_nil|]. cbn [km set_flog set_km set_bufs bufs flog s1] in *.
    revert HQ. destruct s as [m]. cbn in Hh |- *. destruct m. cbn in Hh. by subst.
Qed.

Lemma elem_of_add_block b c L : c ∈ add_block b L <-> c = b \/ c ∈ L.
Proof. clear swtch fuel. unfold add_block. case_decide; set_solver. Qed.

Lemma loggable_add b L : loggable st L -> is_int b -> ~ in_log st b -> Z.of_nat (length L) < LOGSIZE -> loggable st (add_block b L).
Proof. clear swtch fuel.
  intros (H1 & H2 & H3) Hb Hl Hlt. unfold add_block. case_decide as Hin; [done|]. split_and!.
  - apply NoDup_app. split_and!; [done|set_solver|apply NoDup_singleton].
  - rewrite length_app. simpl. lia.
  - intros c [Hc| ->%list_elem_of_singleton]%elem_of_app; [by apply H3|done].
Qed.

(** References matter for the buffers there are. *)
Lemma bcache_ok_refs lk rf rf' vw s : (forall i, is_buf i -> rf i = rf' i) -> ok lk rf vw s -> ok lk rf' vw s.
Proof. clear swtch fuel.
  intros Hr [H1 H2 H3 H4 H5 H6 H7 H8 H9 H10]. split; [done..| | |done|done|].
  - intros i Hi. rewrite <- Hr by done. by apply H6.
  - intros i Hi. destruct (H7 i Hi) as (G1 & G2 & G3). by rewrite <- Hr by done.
  - intros bn. destruct (H10 bn) as [|(i & Hi & G)]; [by left|right]. exists i. by rewrite <- Hr by done.
Qed.

Lemma wp_txn_write {A} lk L vw i b f (K : E kstate A) (Q : A -> kstate -> Prop) s :
  txn lk L vw s -> i ∈ lk -> holds s i b -> is_int b -> ~ in_log st b -> Z.of_nat (length L) < LOGSIZE -> Z.of_nat (length L) < sz - 1 ->
  (forall s', txn lk (add_block b L) (<[b := f (vw b)]> vw) s' -> kept_locked lk s s' -> txn_rest s s' -> wp K Q s') ->
  wp (upd_data i f;; log_write i;; K) Q s.
Proof. clear swtch fuel.
  intros T Hi Hho Hb Hnl H1 H2 HQ. pose proof (holds_data _ _ _ _ _ _ T Hho) as Hda. pose proof Hho as [Hca Hv]. pose proof Hca as (Hib & Hdi & Hbi).
  pose proof T as [Hok Hlog Hop Hsz HL Hpin Hcl]. apply wp_bind, wp_modify. rewrite Hda.
  pose proof (bcache_ok_data p d lk _ vw i (f (vw b)) s Hok Hi Hv) as Hok1. rewrite Hbi in Hok1. set (s1 := set_bufs _ s) in *.
  assert (Hb1 : bufs s1 i = set_bdata (f (vw b)) (bufs s i)) by apply fn_lookup_insert.
  assert (Ho1 : forall j, j <> i -> bufs s1 j = bufs s j) by (intros; by apply fn_lookup_insert_ne).
  destruct (bo_ref _ _ _ _ _ _ Hok i Hib) as [Hrf Hrf0]. pose proof (pins_range L s i). pose proof (locks_range lk i).
  apply wp_bind. apply (wp_log_write L i); [exact (bo_held _ _ _ _ _ _ Hok1)|done|done|done|done|done|done|by rewrite Hb1; simpl; rewrite Hbi|by rewrite Hb1; simpl; rewrite Hrf; lia|].
  rewrite Hb1. cbn [blockno set_bdata refcnt]. rewrite Hbi, Hrf. cbn zeta. intros j Hj. set (s2 := set_flog _ _).
  set (rf := fun i => pins d L s i + locks lk i) in *.
  set (rf' := if (j =? length L)%nat then <[i := rf i + 1]> rf else rf).
  assert (Hok2 : ok lk rf' (<[b := f (vw b)]> vw) s2).
  { apply bcache_ok_log. unfold rf'. destruct (j =? length L)%nat; [|done].
    apply (bcache_ok_set p d lk rf (<[b := f (vw b)]> vw)); rewrite ?Hb1; try done.
    - by rewrite fn_lookup_insert.
    - rewrite fn_lookup_insert. unfold rf. lia.
    - rewrite fn_lookup_insert. unfold rf. lia.
    - intros k Hk. by apply fn_lookup_insert_ne.
    - intros _. cbn [bdata blockno set_refcnt set_bdata]. by rewrite Hbi, fn_lookup_insert.
    - right. split; [done|]. rewrite fn_lookup_insert. unfold rf. lia. }
  assert (Hs2 : forall k, bdev (bufs s2 k) = bdev (bufs s k) /\ blockno (bufs s2 k) = blockno (bufs s k) /\ bvalid (bufs s2 k) = bvalid (bufs s k)).
  { intros k. unfold s2. cbn [bufs set_flog]. destruct (j =? length L)%nat; cbn [bufs set_bufs];
      (destruct (decide (k = i)) as [->|Hk]; [rewrite ?fn_lookup_insert, ?Hb1; done|rewrite ?fn_lookup_insert_ne, ?Ho1 by done; done]). }
  assert (Hr : txn_rest s s2) by (unfold s2; destruct (j =? length L)%nat; by destruct s).
  apply HQ; [| |done].
  - split; [| | | |by apply loggable_add|..].
    + eapply bcache_ok_refs; [|exact Hok2]. intros k Hk. unfold rf'. destruct (decide (k = i)) as [->|Hki].
      * assert (pins d (add_block b L) s2 i = 1) as ->.
        { unfold pins. destruct (Hs2 i) as (E1 & E2 & _). rewrite decide_True; [done|]. rewrite E1, E2, elem_of_add_block. auto. }
        unfold rf, pins. destruct Hj as [Hj|[Hj ->]].
        -- pose proof (lookup_lt_Some _ _ _ Hj). rewrite (proj2 (Nat.eqb_neq _ _)) by lia. apply list_elem_of_lookup_2 in Hj.
           rewrite decide_True; [done|]. by rewrite Hbi.
        -- rewrite Nat.eqb_refl, fn_lookup_insert, decide_False; [lia|]. rewrite Hbi. tauto.
      * assert (Hk2 : pins d (add_block b L) s2 k = pins d L s k).
        { unfold pins. destruct (Hs2 k) as (E1 & E2 & _). rewrite E1, E2. apply decide_ext. rewrite elem_of_add_block.
          split; [|tauto]. intros [G1 [G2|G2]]; [|done]. exfalso. apply Hki, (bo_key _ _ _ _ _ _ Hok); congruence. }
        rewrite Hk2. destruct (j =? length L)%nat; [by rewrite fn_lookup_insert_ne|done].
    + unfold s2. cbn [flog set_flog]. unfold log_put. by apply log_is_put.
    + unfold s2. cbn [flog set_flog]. unfold log_put. destruct (j =? length L)%nat; exact Hop.
    + unfold s2. cbn [flog set_flog]. unfold log_put. destruct (j =? length L)%nat; exact Hsz.
    + intros c Hc%elem_of_add_block. assert (exists k, caches d s c k) as (k & Hk1 & Hk2 & Hk3) by (destruct Hc as [->|Hc]; [by exists i|by apply Hpin]).
      exists k. destruct (Hs2 k) as (E1 & E2 & _). unfold caches. by rewrite E1, E2.
    + intros c Hc. rewrite elem_of_add_block in Hc. rewrite fn_lookup_insert_ne by (intros <-; apply Hc; auto). apply txn_rest_fields in Hr as (_ & _ & _ & ->). apply Hcl. tauto.
  - intros k c Hk [(G1 & G2 & G3) G4]. destruct (Hs2 k) as (E1 & E2 & E3). unfold holds, caches. by rewrite E1, E2, E3.
Qed.

(** ** With the blocks of the buffers that are held

    [M] gives the block of each buffer the process holds. *)
Record inside (M : gmap nat Z) L vw s : Prop := {
  in_txn : txn (dom M) L vw s;
  in_holds : forall i b, M !! i = Some b -> holds s i b;
}.
Implicit Types M : gmap nat Z.

(** Two buffers the process holds have different blocks. *)
Lemma inside_data M L vw s i b : inside M L vw s -> M !! i = Some b -> bdata (bufs s i) = vw b.
Proof. clear swtch fuel. intros [T H] Hi. by eapply holds_data; [|apply H]. Qed.

Lemma wp_inside_bread M L vw b (Q : nat -> kstate -> Prop) s :
  inside M L vw s -> (forall i, M !! i <> Some b) -> Z.of_nat (length L + size M) < NBUF ->
  (forall i s', inside (<[i := b]> M) L vw s' -> M !! i = None -> bdata (bufs s' i) = vw b -> txn_rest s s' -> Q i s') ->
  wp (bread swtch fuel d b) Q s.
Proof.
  intros [T Hh] Hb Hroom HQ. eapply wp_txn_bread; [exact T| | |by rewrite size_dom|].
  - intros i [c Hc]%elem_of_dom Hib. apply (Hb i). rewrite Hc. f_equal. destruct (Hh i c Hc) as [(_ & _ & <-) _]. by destruct Hib as [(_ & _ & <-) _].
  - intros i [c Hc]%elem_of_dom. exists c. by apply Hh.
  - intros i s' T' Hni Hho Hk Hr. assert (Hin : inside (<[i := b]> M) L vw s').
    { split; [by rewrite dom_insert_L|]. intros j c Hj. destruct (decide (j = i)) as [->|Hji].
      - rewrite lookup_insert_eq in Hj. by injection Hj as <-.
      - rewrite lookup_insert_ne in Hj by done. apply Hk; [by apply elem_of_dom_2 in Hj|by apply Hh]. }
    apply HQ; [done|by apply not_elem_of_dom| |done]. eapply inside_data; [done|]. apply lookup_insert_eq.
Qed.

Lemma wp_inside_brelse M L vw i b (Q : unit -> kstate -> Prop) s :
  inside M L vw s -> M !! i = Some b -> (forall s', inside (delete i M) L vw s' -> txn_rest s s' -> Q tt s') -> wp (brelse i) Q s.
Proof. clear swtch fuel.
  intros [T Hh] Hi HQ. eapply (wp_txn_brelse (dom M)); [exact T|by apply elem_of_dom_2 in Hi|by apply Hh|].
  intros s' T' Hk Hr. apply HQ; [|done]. split; [by rewrite dom_delete_L|]. intros j c [Hji Hj]%lookup_delete_Some.
  apply Hk; [by apply elem_of_dom_2 in Hj|by apply Hh].
Qed.

(** A block the log can take. *)
Definition data_block (b : Z) : Prop := is_int b /\ ~ in_log st b.

Lemma wp_inside_write {A} M L vw i b f (K : E kstate A) (Q : A -> kstate -> Prop) s :
  inside M L vw s -> M !! i = Some b -> data_block b -> Z.of_nat (length L) < LOGSIZE -> Z.of_nat (length L) < sz - 1 ->
  (forall s', inside M (add_block b L) (<[b := f (vw b)]> vw) s' -> txn_rest s s' -> wp K Q s') ->
  wp (upd_data i f;; log_write i;; K) Q s.
Proof. clear swtch fuel.
  intros [T Hh] Hi [Hb Hnl] H1 H2 HQ. eapply (wp_txn_write (dom M)); [exact T|by apply elem_of_dom_2 in Hi|by apply Hh|done..|].
  intros s' T' Hk Hr. apply HQ; [|done]. split; [done|]. intros j c Hj. apply Hk; [by apply elem_of_dom_2 in Hj|by apply Hh].
Qed.

(** Read, changed, logged and released. *)
Lemma wp_change_block M L vw b f (Q : unit -> kstate -> Prop) s :
  inside M L vw s -> (forall i, M !! i <> Some b) -> data_block b -> Z.of_nat (length L + size M) < NBUF ->
  Z.of_nat (length L) < LOGSIZE -> Z.of_nat (length L) < sz - 1 ->
  (forall s', inside M (add_block b L) (<[b := f (vw b)]> vw) s' -> txn_rest s s' -> Q tt s') ->
  wp (i ← bread swtch fuel d b; upd_data i f;; log_write i;; brelse i) Q s.
Proof.
  intros Hin Hb Hdb Hroom H1 H2 HQ. apply wp_bind. eapply wp_inside_bread; [exact Hin|done|done|].
  intros i s1 Hin1 Hni _ Hr1. eapply (wp_inside_write _ _ _ i b); [exact Hin1|apply lookup_insert_eq|done..|].
  intros s2 Hin2 Hr2. eapply wp_inside_brelse; [exact Hin2|apply lookup_insert_eq|]. intros s3 Hin3 Hr3.
  rewrite delete_insert_id in Hin3 by done. apply HQ; [done|]. by do 2 (etransitivity; [|done]).
Qed.

(** The blocks seen matter pointwise. *)
Lemma inside_view M L vw vw' s : (forall b, vw b = vw' b) -> inside M L vw s -> inside M L vw' s.
Proof. clear swtch fuel.
  intros Hv [[H1 H2 H3 H4 H5 H6 H7] H8]. split; [|done]. split; try done.
  - exact (proj1 (bcache_ok_proper p d _ _ _ (fun _ => eq_refl) vw vw' Hv s s eq_refl) H1).
  - intros b Hb. rewrite <- Hv. by apply H7.
Qed.
End Txn.
