(* ===== verification/BallocSpec.v ===== *)
(** * Allocation of disk blocks

    The bitmap on the disk says which blocks are in use.  balloc takes the
    first free block, marks it and clears it; bfree marks it free again; no
    other bit of the bitmap changes. *)
From S2P Require Import Prelude Mem CString KTypes Kalloc Vm ListHead KState Queue Sched Signal Thread ThreadInv SchedSpec ProcBase Pipe Sync Bio BioSpec BlockdevSpec Log LogSpec LogCrash Path Inode Xv6fs TxnSpec.

(** ** Bits of a block *)

Lemma bit_used_testbit D bi : bit_used D bi = Z.testbit (D (bi / 8)) (bi mod 8).
Proof.
  unfold bit_used, has_bits. rewrite Z.shiftl_1_l. pose proof (Z.mod_pos_bound bi 8 ltac:(lia)) as Hb. set (k := bi mod 8) in *.
  assert (Hk : Z.land (D (bi / 8)) (2 ^ k) = if Z.testbit (D (bi / 8)) k then 2 ^ k else 0).
  { apply Z.bits_inj_iff'. intros n Hn. rewrite Z.land_spec, Z.pow2_bits_eqb by lia. destruct (Z.eqb_spec k n) as [->|Hne].
    - destruct (Z.testbit (D (bi / 8)) n) eqn:E; [by rewrite Z.pow2_bits_true|by rewrite Z.bits_0].
    - rewrite andb_false_r. destruct (Z.testbit (D (bi / 8)) k); [by rewrite Z.pow2_bits_false by lia|by rewrite Z.bits_0]. }
  rewrite Hk. destruct (Z.testbit _ k); [|done]. apply negb_true_iff, Z.eqb_neq. pose proof (Z.pow_pos_nonneg 2 k). lia.
Qed.

Lemma testbit_u8 x k : 0 <= k < 8 -> Z.testbit (u8 x) k = Z.testbit x k.
Proof. intros Hk. unfold wrap. by rewrite Z.mod_pow2_bits_low by lia. Qed.

Lemma bit_index_inj a b : a / 8 = b / 8 -> a mod 8 = b mod 8 -> a = b.
Proof. intros H1 H2. rewrite (Z.div_mod a 8), (Z.div_mod b 8) by lia. by rewrite H1, H2. Qed.

Lemma bit_used_set D a b : bit_used (set_bit a D) b = (b =? a) || bit_used D b.
Proof.
  rewrite !bit_used_testbit. unfold set_bit, mset. pose proof (Z.mod_pos_bound a 8 ltac:(lia)). pose proof (Z.mod_pos_bound b 8 ltac:(lia)).
  destruct (Z.eqb_spec (b / 8) (a / 8)) as [Hd|Hd].
  - rewrite testbit_u8, Z.lor_spec, Z.shiftl_1_l, Z.pow2_bits_eqb by lia. rewrite Hd, orb_comm. f_equal.
    destruct (Z.eqb_spec (a mod 8) (b mod 8)) as [Hm|Hm], (Z.eqb_spec b a) as [->|Hne]; try done. exfalso. apply Hne. by apply bit_index_inj.
  - destruct (Z.eqb_spec b a) as [->|]; done.
Qed.

Lemma bit_used_clear D a b : bit_used (clear_bit a D) b = negb (b =? a) && bit_used D b.
Proof.
  rewrite !bit_used_testbit. unfold clear_bit, mset. pose proof (Z.mod_pos_bound a 8 ltac:(lia)). pose proof (Z.mod_pos_bound b 8 ltac:(lia)).
  destruct (Z.eqb_spec (b / 8) (a / 8)) as [Hd|Hd].
  - rewrite testbit_u8, Z.land_spec, Z.lnot_spec, Z.shiftl_1_l, Z.pow2_bits_eqb by lia. rewrite Hd, andb_comm. f_equal. f_equal.
    destruct (Z.eqb_spec (a mod 8) (b mod 8)) as [Hm|Hm], (Z.eqb_spec b a) as [->|Hne]; try done. exfalso. apply Hne. by apply bit_index_inj.
  - destruct (Z.eqb_spec b a) as [->|]; done.
Qed.

(** The scan stops at the first clear bit. *)
Lemma free_bit_first n : forall D b bi size r, bi <= r < bi + Z.of_nat n -> b + r < size -> bit_used D r = false ->
  (forall k, bi <= k < r -> bit_used D k = true) -> free_bit n D b bi size = Some r.
Proof.
  induction n as [|n IH]; intros D b bi size r Hr Hs Hf Hu; [lia|]. cbn [free_bit]. destruct (Z.ltb_spec (b + bi) size); [|lia].
  destruct (decide (bi = r)) as [->|Hne]; [by rewrite Hf|]. rewrite Hu by lia. apply IH; [lia|lia|done|]. intros k Hk. apply Hu. lia.
Qed.
Lemma free_bit_none n : forall D b bi size, (forall k, bi <= k < bi + Z.of_nat n -> b + k < size -> bit_used D k = true) -> free_bit n D b bi size = None.
Proof.
  induction n as [|n IH]; intros D b bi size Hu; [done|]. cbn [free_bit]. destruct (Z.ltb_spec (b + bi) size); [|done].
  rewrite Hu by lia. apply IH. intros k Hk. apply Hu. lia.
Qed.

(** ** The bitmap *)

Definition used (xs : xsuper) (vw : Z -> mem) (b : Z) : bool := bit_used (vw (BBLOCK b xs)) (b mod BPB).

(** The superblock of the device has been read. *)
Definition fs_ready (d : Z) (k : nat) (xs : xsuper) (s : kstate) : Prop :=
  0 <= d < NDEV /\ sb_fs_info (sbs (ftabs s) d) = Some k /\ xsbs (ftabs s) k = xs.

Lemma fs_ready_rest d k xs s s' : fs_ready d k xs s -> txn_rest s s' -> fs_ready d k xs s'.
Proof. intros H Hr. apply txn_rest_fields in Hr as (_ & Hf & _). unfold fs_ready. by rewrite Hf. Qed.

Section Balloc.
Context (swtch : nat -> E kstate unit) (fuel : nat) (p : nat) (d st sz : Z) (k : nat) (xs : xsuper).
Abbreviation inside := (inside p d st sz).
Implicit Types (M : gmap nat Z) (vw : Z -> mem) (s : kstate) (L : list Z).

(** Room in the cache and the log for [n] more blocks. *)
Definition log_room (n : nat) M L : Prop :=
  Z.of_nat (length L + size M + n) <= NBUF /\ Z.of_nat (length L + n) <= LOGSIZE /\ Z.of_nat (length L + n) < sz.

(** The process holds no buffer of block [b]. *)
Definition not_held M (b : Z) : Prop := forall i, M !! i <> Some b.

Lemma add_block_length b L : (length (add_block b L) <= S (length L))%nat.
Proof. unfold add_block. case_decide; [lia|]. rewrite length_app. simpl. lia. Qed.

Lemma log_room_add n M L b : log_room (S n) M L -> log_room n M (add_block b L).
Proof. unfold log_room. pose proof (add_block_length b L). lia. Qed.

Definition zero_block (D : mem) : mem := memset D 0 0 BSIZE.

Lemma wp_bzero M L vw b (Q : unit -> kstate -> Prop) s :
  inside M L vw s -> not_held M b -> data_block st b -> log_room 1 M L ->
  (forall s', inside M (add_block b L) (<[b := zero_block (vw b)]> vw) s' -> txn_rest s s' -> Q tt s') ->
  wp (xv6fs_bzero swtch fuel d b) Q s.
Proof.
  intros Hin Hnh Hdb (H1 & H2 & H3) HQ. unfold xv6fs_bzero.
  apply (wp_change_block swtch fuel p d st sz M L vw b zero_block Q s); [done|done|done|lia|lia|lia|done].
Qed.

(** What balloc leaves when it takes block [b]. *)
Definition allocated vw (b : Z) : Z -> mem :=
  <[b := zero_block (vw b)]> (<[BBLOCK b xs := set_bit (b mod BPB) (vw (BBLOCK b xs))]> vw).
Definition alloc_log L (b : Z) : list Z := add_block b (add_block (BBLOCK b xs) L).

(** Block [b] is the first free one, and it and its bitmap block can be
    logged. *)
Record first_free M vw (b : Z) : Prop := {
  ff_range : 0 <= b < xs_size xs;
  ff_free : used xs vw b = false;
  ff_first : forall c, 0 <= c < b -> used xs vw c = true;
  ff_bitmap : forall c, 0 <= c <= b -> not_held M (BBLOCK c xs) /\ data_block st (BBLOCK c xs);
  ff_block : not_held M b /\ data_block st b;
  ff_apart : forall c, 0 <= c < xs_size xs -> BBLOCK c xs <> b;
}.

Lemma BBLOCK_chunk b c : b mod BPB = 0 -> b <= c < b + BPB -> BBLOCK c xs = BBLOCK b xs /\ c mod BPB = c - b.
Proof.
  intros Hb Hc. pose proof (Z.div_mod b BPB ltac:(done)) as Hd. rewrite Hb in Hd. assert (HB : BPB = 4096) by done.
  assert (Hq : c / BPB = b / BPB) by (symmetry; apply (Z.div_unique c BPB _ (c - b)); lia).
  assert (Hm : c mod BPB = c - b) by (symmetry; apply (Z.mod_unique c BPB (b / BPB)); lia). unfold BBLOCK. by rewrite Hq.
Qed.

Lemma wp_balloc_loop M L vw b0 (Q : Z -> kstate -> Prop) : first_free M vw b0 -> log_room 2 M L ->
  forall n b s, (forall s', inside M (alloc_log L b0) (allocated vw b0) s' -> txn_rest s s' -> Q b0 s') ->
   b mod BPB = 0 -> 0 <= b <= b0 -> b0 - b < Z.of_nat n * BPB -> inside M L vw s ->
  wp (balloc_loop swtch fuel n d b xs) Q s.
Proof.
  intros [Hr Hf Hu Hbm Hbl Hap] Hroom n. pose proof Hroom as (H1 & H2 & H3).
  induction n as [|n IH]; intros b s HQ Hb Hb0 Hn Hin; [lia|]. cbn [balloc_loop]. destruct (Z.ltb_spec b (xs_size xs)); [|lia].
  destruct (Hbm b ltac:(lia)) as [Hnh Hdb]. assert (HB : BPB = 4096) by done.
  apply wp_bind. eapply (wp_inside_bread swtch fuel p d st sz); [exact Hin|done|lia|].
  intros i s1 Hin1 Hni Hda Hr1. apply wp_bind, wp_gets. rewrite Hda. destruct (decide (b0 < b + BPB)) as [Hlt|Hge].
  - destruct (BBLOCK_chunk b b0 Hb ltac:(lia)) as [E1 E2].
    rewrite (free_bit_first _ _ _ _ _ (b0 - b)); [| |lia| |].
    + eapply (wp_inside_write p d st sz _ _ _ i (BBLOCK b xs)); [exact Hin1|apply lookup_insert_eq|done|lia|lia|].
      intros s2 Hin2 Hr2. apply wp_bind. eapply (wp_inside_brelse p d st sz); [exact Hin2|apply lookup_insert_eq|]. intros s3 Hin3 Hr3.
      rewrite delete_insert_id in Hin3 by done. apply wp_bind. replace (b + (b0 - b)) with b0 by lia.
      eapply wp_bzero; [exact Hin3|apply Hbl|apply Hbl|by apply log_room_add|]. intros s4 Hin4 Hr4. apply wp_ret.
      apply HQ; [|by do 3 (etransitivity; [|done])]. unfold alloc_log, allocated. rewrite E1, E2.
      rewrite fn_lookup_insert_ne in Hin4 by (rewrite <- E1; apply Hap; lia). exact Hin4.
    + lia.
    + unfold used in Hf. by rewrite E1, E2 in Hf.
    + intros c Hc. specialize (Hu (b + c) ltac:(lia)). destruct (BBLOCK_chunk b (b + c) Hb ltac:(lia)) as [F1 F2].
      unfold used in Hu. rewrite F1, F2 in Hu. by replace (b + c - b) with c in Hu by lia.
  - rewrite free_bit_none.
    2: { intros c Hc _. specialize (Hu (b + c) ltac:(lia)). destruct (BBLOCK_chunk b (b + c) Hb ltac:(lia)) as [F1 F2].
      unfold used in Hu. rewrite F1, F2 in Hu. by replace (b + c - b) with c in Hu by lia. }
    apply wp_bind. eapply (wp_inside_brelse p d st sz); [exact Hin1|apply lookup_insert_eq|]. intros s2 Hin2 Hr2.
    rewrite delete_insert_id in Hin2 by done. apply IH; [|
      |lia|lia|done].
    { intros s3 Hin3 Hr3. apply HQ; [done|]. by do 2 (etransitivity; [|done]). }
    rewrite <- Z.add_mod_idemp_r, Z.mod_same, Z.add_0_r by done. done.
Qed.

Lemma wp_get_xsb (Q : xsuper -> kstate -> Prop) s : fs_ready d k xs s -> Q xs s -> wp (get_xsb d) Q s.
Proof.
  clear swtch fuel. intros ([H1 H2] & H3 & H4) HQ. unfold get_xsb, get_sb. apply wp_bind.
  destruct (Z.leb_spec 0 d); [|lia]. destruct (Z.ltb_spec d NDEV); [|lia]. cbn [andb]. apply wp_gets.
  apply wp_bind. eapply wp_deref; [exact H3|]. apply wp_gets. by rewrite H4.
Qed.

Lemma wp_balloc M L vw b (Q : Z -> kstate -> Prop) s :
  inside M L vw s -> fs_ready d k xs s -> first_free M vw b -> log_room 2 M L ->
  (forall s', inside M (alloc_log L b) (allocated vw b) s' -> txn_rest s s' -> Q b s') ->
  wp (xv6fs_balloc swtch fuel d) Q s.
Proof.
  intros Hin Hfs Hff Hroom HQ. unfold xv6fs_balloc. apply wp_bind. apply wp_get_xsb; [done|].
  pose proof (ff_range _ _ _ Hff). apply (wp_balloc_loop M L vw b); [done|done|done|done|lia| |done]. assert (BPB = 4096) by done. lia.
Qed.

(** The bitmap afterwards. *)
Lemma BBLOCK_inj b c : 0 <= b < 2 ^ 32 -> 0 <= c < 2 ^ 32 -> BBLOCK b xs = BBLOCK c xs -> b / BPB = c / BPB.
Proof.
  intros Hb Hc H. unfold BBLOCK, wrap in H. assert (HB : BPB = 4096) by done.
  assert (0 <= b / BPB < 2 ^ 32 /\ 0 <= c / BPB < 2 ^ 32) as [H1 H2].
  { rewrite HB. split; (split; [apply Z.div_pos; lia|apply Z.div_lt_upper_bound; lia]). }
  assert (Hz : (b / BPB - c / BPB) mod 2 ^ 32 = 0).
  { replace (b / BPB - c / BPB) with ((b / BPB + xs_bmapstart xs) - (c / BPB + xs_bmapstart xs)) by lia.
    rewrite Zminus_mod, H, Z.sub_diag. done. }
  apply Z.mod_divide in Hz; [|lia]. destruct Hz as [q Hq]. destruct (decide (q = 0)) as [->|]; lia.
Qed.

Lemma used_changed vw f b c : 0 <= b < 2 ^ 32 -> 0 <= c < 2 ^ 32 ->
  (forall D a, bit_used (f D) a = bit_used D a \/ a = b mod BPB) -> c <> b ->
  used xs (<[BBLOCK b xs := f (vw (BBLOCK b xs))]> vw) c = used xs vw c.
Proof.
  intros Hb Hc Hf Hne. unfold used. destruct (decide (BBLOCK c xs = BBLOCK b xs)) as [E|E].
  - rewrite E, fn_lookup_insert. destruct (Hf (vw (BBLOCK b xs)) (c mod BPB)) as [->|Hm]; [done|]. exfalso. apply Hne.
    apply BBLOCK_inj in E; [|done|done]. rewrite (Z.div_mod b BPB), (Z.div_mod c BPB) by done. by rewrite E, Hm.
  - by rewrite fn_lookup_insert_ne.
Qed.

Lemma used_allocated M vw b c : first_free M vw b -> xs_size xs <= 2 ^ 32 -> 0 <= c < xs_size xs ->
  used xs (allocated vw b) c = (c =? b) || used xs vw c.
Proof.
  intros [Hr _ _ _ _ Hap] Hsz Hc. unfold allocated. unfold used at 1. rewrite fn_lookup_insert_ne by (apply not_eq_sym, Hap; lia).
  change (used xs (<[BBLOCK b xs := set_bit (b mod BPB) (vw (BBLOCK b xs))]> vw) c = (c =? b) || used xs vw c).
  destruct (Z.eqb_spec c b) as [->|Hne].
  - unfold used. rewrite fn_lookup_insert, bit_used_set, Z.eqb_refl. done.
  - apply used_changed; [lia|lia| |done]. intros D a. rewrite bit_used_set. destruct (Z.eqb_spec a (b mod BPB)); auto.
Qed.

(** ** Freeing *)

Lemma inside_ftabs M L vw t s : inside M L vw s -> inside M L vw (set_ftabs t s).
Proof.
  intros [[H1 H2 H3 H4 H5 H6 H7] H8]. split; [|done]. split; try done.
  destruct H1 as [[tq Hs] Hh Hrun Hlru Hlock Href Hl Hkey Hhit Hdirty]. split; try done.
  exists tq. eapply sched_inv_same; [exact Hs|done..].
Qed.

(** The superblock on the disk is the one that was read. *)
Definition sb_loaded vw s : Prop :=
  fs_ready d k xs s /\ has_bits (sb_flags (sbs (ftabs s) d)) SB_LOADED = true /\ read_xsuper (vw 1) xs = xs.

(** Nothing but the superblock structures of the tables changes. *)
Definition free_rest s s' : Prop := inodes (ftabs s') = inodes (ftabs s) /\ xinodes (ftabs s') = xinodes (ftabs s) /\ km s' = km s /\ dwrites s' = dwrites s.

Lemma wp_readsb M L vw (Q : unit -> kstate -> Prop) s :
  inside M L vw s -> sb_loaded vw s -> not_held M 1 -> log_room 1 M L ->
  (forall s', inside M L vw s' -> sb_loaded vw s' -> free_rest s s' -> Q tt s') ->
  wp (xv6fs_readsb swtch fuel d) Q s.
Proof.
  intros Hin (([H1 H2] & H3 & H4) & H5 & H6) Hnh (Hr1 & _) HQ. unfold xv6fs_readsb, get_sb, upd_sb.
  destruct (Z.leb_spec 0 d); [|lia]. destruct (Z.ltb_spec d NDEV) as [Hdn|]; [|lia]. cbn [andb]. apply wp_bind, wp_gets. rewrite H5. apply wp_bind, wp_ret.
  apply wp_bind, wp_modify. set (t1 := set_sbs _ _). rewrite (wrap_small 32) by (unfold NDEV in Hdn; lia).
  assert (Hin1 : inside M L vw (set_ftabs t1 s)) by by apply inside_ftabs. apply wp_bind.
  eapply (wp_inside_bread swtch fuel p d st sz); [exact Hin1|done|lia|]. intros i s2 Hin2 Hni Hda Hr2. pose proof (txn_rest_fields _ _ Hr2) as (Hk2 & Hf2 & _ & _).
  cbn [ftabs set_ftabs km] in Hf2, Hk2. apply wp_bind, wp_gets, wp_bind. eapply wp_deref; [exact H3|]. rewrite Hda. apply wp_bind, wp_modify. rewrite Hf2.
  set (t2 := set_xsbs _ _). apply wp_bind. eapply (wp_inside_brelse p d st sz); [apply inside_ftabs, Hin2|apply lookup_insert_eq|].
  intros s3 Hin3 Hr3. rewrite delete_insert_id in Hin3 by done. pose proof (txn_rest_fields _ _ Hr3) as (Hk3 & Hf3 & _ & _). cbn [ftabs set_ftabs km] in Hf3, Hk3.
  apply wp_modify. rewrite Hf3. set (t3 := set_sbs _ _).
  assert (Hx : xsbs t2 k = xs) by (unfold t2, t1; cbn [xsbs set_xsbs set_sbs]; by rewrite fn_lookup_insert, H4).
  assert (Hs : sbs t3 d = set_sb_flags (Z.lor (sb_flags (sbs t2 d)) SB_LOADED) (set_sb_fs_info (Some k) (sbs t2 d))) by (unfold t3; cbn [sbs set_sbs]; by rewrite fn_lookup_insert, H3).
  assert (Hw3 : dwrites s3 = dwrites s) by (destruct Hr2 as [_ W2], Hr3 as [_ W3]; cbn [dwrites set_ftabs] in *; congruence).
  apply HQ; [by apply inside_ftabs| |].
  - unfold sb_loaded, fs_ready. split_and!; [done|done|cbn [ftabs set_ftabs]; by rewrite Hs|done| |done]. cbn [ftabs set_ftabs]. rewrite Hs. cbn [sb_flags set_sb_flags].
    unfold has_bits, SB_LOADED. apply negb_true_iff, Z.eqb_neq. intros H0. apply (f_equal (fun x => Z.testbit x 0)) in H0.
    rewrite Z.land_spec, Z.lor_spec, Z.bits_0 in H0. by rewrite orb_true_r in H0.
  - split_and!; [done|done| |done]. cbn [km set_ftabs]. congruence.
Qed.

Definition freed vw (b : Z) : Z -> mem := <[BBLOCK b xs := clear_bit (b mod BPB) (vw (BBLOCK b xs))]> vw.

Lemma wp_bfree M L vw b (Q : unit -> kstate -> Prop) s :
  inside M L vw s -> sb_loaded vw s -> not_held M 1 -> log_room 1 M L ->
  used xs vw b = true -> not_held M (BBLOCK b xs) -> data_block st (BBLOCK b xs) ->
  (forall s', inside M (add_block (BBLOCK b xs) L) (freed vw b) s' -> free_rest s s' -> Q tt s') ->
  wp (xv6fs_bfree swtch fuel d b) Q s.
Proof.
  intros Hin Hsb Hn1 Hroom Hu Hnh Hdb HQ. pose proof Hroom as (R1 & R2 & R3). unfold xv6fs_bfree, get_sb. pose proof Hsb as (([H1 H2] & H3 & H4) & _).
  destruct (Z.leb_spec 0 d); [|lia]. destruct (Z.ltb_spec d NDEV); [|lia]. cbn [andb]. apply wp_bind, wp_gets, wp_bind.
  eapply wp_readsb; [exact Hin|exact Hsb|done|done|]. intros s1 Hin1 ((_ & _ & Hx) & _) Hfr1. apply wp_bind. eapply wp_deref; [exact H3|].
  apply wp_bind, wp_gets. rewrite Hx. apply wp_bind. eapply (wp_inside_bread swtch fuel p d st sz); [exact Hin1|done|lia|].
  intros i s2 Hin2 Hni Hda Hr2. apply wp_bind, wp_gets, wp_bind, wp_panic_if; [rewrite Hda; unfold used in Hu; by rewrite Hu|].
  eapply (wp_inside_write p d st sz _ _ _ i (BBLOCK b xs)); [exact Hin2|apply lookup_insert_eq|done|lia|lia|].
  intros s3 Hin3 Hr3. eapply (wp_inside_brelse p d st sz); [exact Hin3|apply lookup_insert_eq|]. intros s4 Hin4 Hr4.
  rewrite delete_insert_id in Hin4 by done. apply HQ; [done|].
  assert (Hr : txn_rest s1 s4) by by do 2 (etransitivity; [|done]). pose proof Hr as [_ W]. apply txn_rest_fields in Hr as (F1 & F2 & _). destruct Hfr1 as (G1 & G2 & G3 & G4).
  unfold free_rest. rewrite F1, F2. split_and!; congruence.
Qed.

Lemma used_freed vw b c : 0 <= b < 2 ^ 32 -> 0 <= c < 2 ^ 32 -> used xs (freed vw b) c = negb (c =? b) && used xs vw c.
Proof.
  intros Hb Hc. unfold freed. destruct (Z.eqb_spec c b) as [->|Hne].
  - unfold used. by rewrite fn_lookup_insert, bit_used_clear, Z.eqb_refl.
  - apply used_changed; [done|done| |done]. intros D a. rewrite bit_used_clear. destruct (Z.eqb_spec a (b mod BPB)); auto.
Qed.

(** inside a transaction, with [b] the first block that the bitmap has as
    free, balloc returns [b]; afterwards [b] is marked in use and every other
    block is marked as before, the bytes of [b] are zero, and no block but [b]
    and its bitmap block has changed. *)
Theorem balloc_takes_first_free M L vw b s :
  inside M L vw s -> fs_ready d k xs s -> first_free M vw b -> log_room 2 M L -> xs_size xs <= 2 ^ 32 ->
  wp (xv6fs_balloc swtch fuel d) (fun r s' => r = b /\ exists L' vw', inside M L' vw' s' /\ ftabs s' = ftabs s /\
    (forall c, 0 <= c < xs_size xs -> used xs vw' c = (c =? b) || used xs vw c) /\
    (forall o, 0 <= o < BSIZE -> vw' b o = 0) /\
    (forall c, c <> b -> c <> BBLOCK b xs -> vw' c = vw c)) s.
Proof.
  intros Hin Hfs Hff Hroom Hsz. eapply wp_balloc; [done..|]. intros s' Hin' Hr. split; [done|]. exists (alloc_log L b), (allocated vw b).
  apply txn_rest_fields in Hr as (_ & Hf & _). split_and!; [done|done| | |].
  - intros c Hc. by eapply used_allocated.
  - intros o Ho. unfold allocated. rewrite fn_lookup_insert. unfold zero_block. rewrite memset_in by lia. done.
  - intros c H1 H2. unfold allocated. by rewrite !fn_lookup_insert_ne.
Qed.

(** C38: a block that balloc returned can be freed, and after bfree the bitmap
    marks every block as it did before the allocation. *)
Theorem bfree_undoes_balloc M L vw b s :
  inside M L vw s -> sb_loaded vw s -> first_free M vw b -> log_room 3 M L -> xs_size xs <= 2 ^ 32 ->
  not_held M 1 -> b <> 1 -> BBLOCK b xs <> 1 ->
  wp (r ← xv6fs_balloc swtch fuel d; xv6fs_bfree swtch fuel d r) (fun _ s' => exists L' vw', inside M L' vw' s' /\
    forall c, 0 <= c < xs_size xs -> used xs vw' c = used xs vw c) s.
Proof.
  intros Hin Hsb Hff Hroom Hsz Hn1 Hb1 Hbb1. pose proof Hsb as (Hfs & Hld & Hrd). pose proof Hff as [Hr Hfree _ Hbm _ _].
  apply wp_bind. eapply wp_balloc; [exact Hin|exact Hfs|exact Hff|unfold log_room in *; lia|]. intros s1 Hin1 Hr1.
  destruct (Hbm b ltac:(lia)) as [Hnh Hdb]. apply txn_rest_fields in Hr1 as (_ & Hf1 & _).
  assert (H1v : allocated vw b 1 = vw 1) by (unfold allocated; by rewrite !fn_lookup_insert_ne).
  eapply wp_bfree; [exact Hin1| |done| | |done|done|].
  - unfold sb_loaded, fs_ready in *. by rewrite Hf1, H1v.
  - unfold alloc_log. by do 2 apply log_room_add.
  - rewrite (used_allocated M) by done. by rewrite Z.eqb_refl.
  - intros s2 Hin2 _. eexists _, _. split; [exact Hin2|]. intros c Hc. rewrite used_freed, (used_allocated M) by (done || lia).
    destruct (Z.eqb_spec c b) as [->|]; [by rewrite Hfree|done].
Qed.

(** ** Blocks of a file *)

(** The block numbers an indirect block holds. *)
Definition entry (D : mem) (bn : Z) : Z := load D (4 * bn) 4.

(** when an entry of an indirect block is missing, bmap allocates two
    blocks: [b1] and then [b2]; it stores and returns [b2], so that [b1] is in
    use from then on although nothing refers to it. *)
Theorem bmap_indirect_loses_block M L vw addr bn b1 b2 s :
  inside M L vw s -> fs_ready d k xs s -> not_held M addr -> data_block st addr -> 0 <= bn < NINDIRECT -> entry (vw addr) bn = 0 ->
  (forall i, M !! i = None -> first_free (<[i := addr]> M) vw b1 /\ first_free (<[i := addr]> M) (allocated vw b1) b2) ->
  log_room 6 M L -> xs_size xs <= 2 ^ 32 -> 0 < b1 ->
  wp (bmap_indirect swtch fuel d addr bn) (fun r s' => r = b2 /\ exists L' vw', inside M L' vw' s' /\
    entry (vw' addr) bn = b2 /\ b1 <> b2 /\
    forall c, 0 <= c < xs_size xs -> BBLOCK c xs <> addr -> used xs vw' c = (c =? b1) || (c =? b2) || used xs vw c) s.
Proof.
  intros Hin Hfs Hnh Hdb Hbn H0 Hff Hroom Hsz Hb1. unfold bmap_indirect. apply wp_bind.
  eapply (wp_inside_bread swtch fuel p d st sz); [exact Hin|done|unfold log_room in Hroom; lia|]. intros i s1 Hin1 Hni Hda Hr1.
  destruct (Hff i Hni) as [Hf1 Hf2]. pose proof (ff_range _ _ _ Hf1) as Hr01. pose proof (ff_range _ _ _ Hf2) as Hr02.
  assert (Hne12 : b1 <> b2).
  { intros ->. pose proof (ff_free _ _ _ Hf2) as Hu. rewrite (used_allocated _ _ _ _ Hf1 Hsz) in Hu by done. by rewrite Z.eqb_refl in Hu. }
  assert (Hroom1 : log_room 5 (<[i := addr]> M) L) by (unfold log_room in *; rewrite map_size_insert_None by done; lia).
  apply wp_bind, wp_gets. rewrite Hda. change (load (vw addr) (4 * bn) 4) with (entry (vw addr) bn). rewrite H0. cbn [Z.eqb].
  apply wp_bind, wp_bind. eapply wp_balloc; [exact Hin1|by eapply fs_ready_rest|exact Hf1|unfold log_room in *; lia|]. intros s2 Hin2 Hr2.
  destruct (Z.eqb_spec b1 0); [lia|]. cbn [negb]. apply wp_bind.
  assert (Hroom2 : log_room 3 (<[i := addr]> M) (alloc_log L b1)) by (unfold alloc_log; by do 2 apply log_room_add).
  eapply wp_balloc; [exact Hin2|by eapply fs_ready_rest; [eapply fs_ready_rest|]|exact Hf2|unfold log_room in *; lia|]. intros s3 Hin3 Hr3.
  assert (Hroom3 : log_room 1 (<[i := addr]> M) (alloc_log (alloc_log L b1) b2)) by (unfold alloc_log at 1; by do 2 apply log_room_add).
  eapply (wp_inside_write p d st sz _ _ _ i addr); [exact Hin3|apply lookup_insert_eq|done|unfold log_room in Hroom3; lia|unfold log_room in Hroom3; lia|].
  intros s4 Hin4 Hr4. apply wp_ret, wp_bind. eapply (wp_inside_brelse p d st sz); [exact Hin4|apply lookup_insert_eq|]. intros s5 Hin5 Hr5.
  rewrite delete_insert_id in Hin5 by done. apply wp_ret. split; [done|]. eexists _, _. split_and!; [exact Hin5| |done|].
  - rewrite fn_lookup_insert. unfold entry. rewrite load_store_same. apply Z.mod_small. simpl. lia.
  - intros c Hc Hca. unfold used at 1. rewrite fn_lookup_insert_ne by done.
    change (used xs (allocated (allocated vw b1) b2) c = (c =? b1) || (c =? b2) || used xs vw c).
    rewrite (used_allocated _ _ _ _ Hf2 Hsz Hc), (used_allocated _ _ _ _ Hf1 Hsz Hc). by destruct (c =? b1), (c =? b2).
Qed.
End Balloc.

(** ** Witnesses: sixteen blocks, of which the first nine are in use, the
    bitmap in block 5; the log starts at block 100 *)

Definition zeros : mem := fun _ => 0.
Definition demo_img : Z -> mem :=
  <[1 := store (store zeros 4 4 16) 28 4 5]> (<[5 := mset (mset zeros 0 255) 1 1]> (fun _ => zeros)).
Definition demo_xs : xsuper := read_xsuper (demo_img 1) (Xsuper 0 0 0 0 0 0 0 0 1).
Definition demo_tabs (t : fsstate) : fsstate :=
  set_sbs (<[ROOTDEV := Superblock BLOCKMAJOR ROOTDEV BSIZE (Some 0%nat) SB_LOADED]> (sbs t)) (set_xsbs (<[0%nat := demo_xs]> (xsbs t)) t).

Lemma demo_inside : exists s, TxnSpec.inside 0 ROOTDEV 100 31 ∅ [] demo_img s /\ sb_loaded ROOTDEV 0 demo_xs demo_img s.
Proof.
  destruct booted_ok as (_ & Hi & _). revert Hi. generalize booted. intros b Hi.
  destruct (fs_boot_cache demo_img b _ Hi) as (s & _ & Hok & _ & _ & Hdk & _).
  exists (set_ftabs (demo_tabs (ftabs s)) (set_flog (Xlog 100 31 1 0 ROOTDEV 0 (fun _ => 0)) s)). split.
  - apply inside_ftabs. split; [|done]. split; [|by split|done|done| |set_solver|].
    + apply bcache_ok_log. eapply bcache_ok_refs; [|rewrite dom_empty_L; exact Hok]. intros i _. unfold pins, locks.
      rewrite !decide_False; [done|set_solver|set_solver].
    + split_and!; [constructor|done|set_solver].
    + intros c _. change (demo_img c = disk s c). by rewrite Hdk.
  - unfold sb_loaded, fs_ready. by split_and!.
Qed.

Lemma small_cases (P : Z -> Prop) n : (forall k, (k < n)%nat -> P (Z.of_nat k)) -> forall c, 0 <= c < Z.of_nat n -> P c.
Proof. intros H c Hc. rewrite <- (Z2Nat.id c) by lia. apply H. lia. Qed.

(** A property of the first sixteen blocks, checked block by block. *)
Lemma demo_blocks (P : Z -> bool) n : forallb (fun k => P (Z.of_nat k)) (seq 0 n) = true -> forall c, 0 <= c < Z.of_nat n -> P c = true.
Proof. intros H. apply small_cases. intros k Hk. eapply (proj1 (forallb_forall _ _) H). apply in_seq. lia. Qed.

Lemma demo_bitmap c : 0 <= c < 16 -> BBLOCK c demo_xs = 5.
Proof. intros Hc. unfold BBLOCK. rewrite Z.div_small by (unfold BPB, BSIZE; lia). done. Qed.

Lemma demo_data c : 0 <= c < 16 -> data_block 100 c.
Proof. intros Hc. unfold data_block, is_int, in_log. lia. Qed.

Lemma demo_free M vw b : (forall i, M !! i <> Some 5) -> (forall i, M !! i <> Some b) -> 5 < b < 16 -> used demo_xs vw b = false ->
  forallb (fun k => used demo_xs vw (Z.of_nat k)) (seq 0 (Z.to_nat b)) = true -> first_free 100 demo_xs M vw b.
Proof.
  intros H5 Hb Hr Hf Hu. split; [change (xs_size demo_xs) with 16; lia|done| |..].
  - intros c Hc. apply (demo_blocks _ _ Hu). lia.
  - intros c Hc. rewrite demo_bitmap by lia. split; [done|apply demo_data; lia].
  - split; [done|apply demo_data; lia].
  - intros c Hc. change (xs_size demo_xs) with 16 in Hc. rewrite demo_bitmap by lia. lia.
Qed.

Lemma balloc_takes_first_free_witness : exists s, wp (xv6fs_balloc (fun _ => mret tt) 0 ROOTDEV) (fun r _ => r = 9) s.
Proof.
  destruct demo_inside as (s & Hin & Hsb). exists s. eapply wp_mono.
  - apply (balloc_takes_first_free (fun _ => mret tt) 0 0 ROOTDEV 100 31 0 demo_xs ∅ [] demo_img 9 s Hin (proj1 Hsb)).
    + apply demo_free; [intros i; by rewrite lookup_empty|intros i; by rewrite lookup_empty|lia|reflexivity|reflexivity].
    + done.
    + done.
  - by intros r s' [-> _].
Defined.

Lemma bfree_undoes_balloc_witness : exists s, wp (r ← xv6fs_balloc (fun _ => mret tt) 0 ROOTDEV; xv6fs_bfree (fun _ => mret tt) 0 ROOTDEV r)
  (fun _ s' => exists L' vw', TxnSpec.inside 0 ROOTDEV 100 31 ∅ L' vw' s' /\ used demo_xs vw' 9 = false) s.
Proof.
  destruct demo_inside as (s & Hin & Hsb). exists s. eapply wp_mono.
  - apply (bfree_undoes_balloc (fun _ => mret tt) 0 0 ROOTDEV 100 31 0 demo_xs ∅ [] demo_img 9 s Hin Hsb).
    + apply demo_free; [intros i; by rewrite lookup_empty|intros i; by rewrite lookup_empty|lia|reflexivity|reflexivity].
    + done.
    + done.
    + intros i. by rewrite lookup_empty.
    + done.
    + by rewrite demo_bitmap by lia.
  - cbn beta. intros _ s' (L' & vw' & Hin' & Hu). exists L', vw'. split; [done|]. rewrite Hu; [reflexivity|]. change (xs_size demo_xs) with 16. lia.
Defined.

Lemma bmap_indirect_loses_block_witness : exists s, wp (bmap_indirect (fun _ => mret tt) 0 ROOTDEV 8 0) (fun r s' => r = 10 /\
  exists L' vw', TxnSpec.inside 0 ROOTDEV 100 31 ∅ L' vw' s' /\ used demo_xs vw' 9 = true) s.
Proof.
  destruct demo_inside as (s & Hin & Hsb). exists s. eapply wp_mono.
  - apply (bmap_indirect_loses_block (fun _ => mret tt) 0 0 ROOTDEV 100 31 0 demo_xs ∅ [] demo_img 8 0 9 10 s Hin (proj1 Hsb)).
    + intros i. by rewrite lookup_empty.
    + by apply demo_data.
    + by unfold NINDIRECT.
    + reflexivity.
    + intros i _. assert (Hl : forall j c, c <> 8 -> (<[i := 8]> ∅ : gmap nat Z) !! j <> Some c).
      { intros j c Hc Hj. apply lookup_insert_Some in Hj as [[_ Hj]|[_ Hj]]; [congruence|]. by rewrite lookup_empty in Hj. }
      split; (apply demo_free; [intros j; by apply Hl|intros j; by apply Hl|lia|reflexivity|reflexivity]).
    + done.
    + done.
    + done.
  - cbn beta. intros r s' (-> & L' & vw' & Hin' & _ & _ & Hu). split; [done|]. exists L', vw'. split; [done|].
    rewrite Hu; [reflexivity|change (xs_size demo_xs) with 16; lia|by rewrite demo_bitmap by lia].
Defined.
