(* ===== verification/InodeSpec.v ===== *)
(** * The table of inodes

    Every inode in use is in the table once, iget finds it there or enters it,
    and the last iput gives its entry and its private inode back. *)
From S2P Require Import Prelude Mem CString KTypes Kalloc Vm ListHead KState Queue Sched Signal Thread ProcBase Sync Bio Log Path Inode Xv6fs.

Implicit Types (s : kstate) (i j k v : nat).
Abbreviation ino s i := (inodes (ftabs s) i).

Definition is_inode i : Prop := Z.of_nat i < NINODE.
Definition cached s (dev n : Z) i : Prop := is_inode i /\ 0 < iref (ino s i) /\ idev (ino s i) = dev /\ inum (ino s i) = n.

Record icache_ok s : Prop := {
  ic_key : forall i j dev n, cached s dev n i -> cached s dev n j -> i = j;
  ic_ref : forall i, is_inode i -> 0 <= iref (ino s i) < 2 ^ 31 - 1;
}.

(** ** Scans *)

Lemma wp_table_find test n : forall k s (Q : option nat -> kstate -> Prop),
  (forall r, match r with
             | Some j => (k <= j < k + n)%nat /\ test s j = true
             | None => forall j, (k <= j < k + n)%nat -> test s j = false
             end -> Q r s) ->
  wp (table_find test n k) Q s.
Proof.
  induction n as [|n IH]; intros k s Q HQ; cbn [table_find].
  - apply wp_ret, HQ. intros j Hj. lia.
  - apply wp_bind, wp_gets. destruct (test s k) eqn:Ht.
    + apply wp_ret, HQ. split; [lia|done].
    + apply IH. intros [j|] Hr; apply HQ.
      * destruct Hr. split; [lia|done].
      * intros j Hj. destruct (decide (j = k)) as [->|]; [done|]. apply Hr. lia.
Qed.

(** What the scan of the inodes from [i] on finds. *)
Definition scan_result (test : inode -> bool) s i n (empty : option nat) (r : option nat * option nat) : Prop :=
  match r.1 with
  | Some k => (i <= k < i + n)%nat /\ 0 < iref (ino s k) /\ test (ino s k) = true
  | None => (forall k, (i <= k < i + n)%nat -> ~ (0 < iref (ino s k) /\ test (ino s k) = true)) /\
      match r.2 with
      | Some k => empty = Some k \/ (i <= k < i + n)%nat /\ iref (ino s k) = 0
      | None => empty = None /\ forall k, (i <= k < i + n)%nat -> iref (ino s k) <> 0
      end
  end.

Lemma wp_icache_scan test n : forall i empty s (Q : option nat * option nat -> kstate -> Prop),
  (forall r, scan_result test s i n empty r -> Q r s) -> wp (icache_scan test n i empty) Q s.
Proof.
  induction n as [|n IH]; intros i empty s Q HQ; cbn [icache_scan].
  - apply wp_ret, HQ. split; [intros k Hk; lia|]. cbn [snd]. destruct empty; [by left|]. split; [done|]. intros k Hk. lia.
  - apply wp_bind, wp_gets. destruct ((0 <? iref (ino s i)) && test (ino s i)) eqn:Ht.
    + apply wp_ret, HQ. apply andb_true_iff in Ht as [Ht1 Ht2]. apply Z.ltb_lt in Ht1. split_and!; [lia|lia|done|done].
    + apply IH. intros [[k|] e] Hr; apply HQ; unfold scan_result in *; cbn [fst snd] in *.
      * destruct Hr as (Hr & ? & ?). split_and!; [lia|lia|done|done].
      * destruct Hr as [Hno He]. split.
        { intros k Hk [Hk1 Hk2]. destruct (decide (k = i)) as [->|Hki]; [|apply (Hno k); [lia|done]].
          apply Z.ltb_lt in Hk1. by rewrite Hk1, Hk2 in Ht. }
        destruct e as [k|].
        -- destruct He as [He|[Hk H0]]; [|right; split; [lia|done]]. destruct (bool_decide_reflect (empty = None)) as [->|Hne]; cbn [andb] in He; [|by left].
           destruct (Z.eqb_spec (iref (ino s i)) 0) as [H0|]; [|done]. injection He as <-. right. split; [lia|done].
        -- destruct He as [He Hnz]. destruct (bool_decide_reflect (empty = None)) as [->|Hne]; cbn [andb] in He; [|done]. split; [done|].
           destruct (Z.eqb_spec (iref (ino s i)) 0) as [H0|]; [done|]. intros k Hk. destruct (decide (k = i)) as [->|]; [done|]. apply Hnz. lia.
Qed.

Lemma wp_vfs_list_find vs major minor (Q : option nat -> kstate -> Prop) s v :
  v ∈ vs -> vfs_major (vfspool (ftabs s) v) = major -> vfs_minor (vfspool (ftabs s) v) = minor ->
  (forall v, v ∈ vs -> vfs_major (vfspool (ftabs s) v) = major -> vfs_minor (vfspool (ftabs s) v) = minor -> Q (Some v) s) ->
  wp (vfs_list_find vs major minor) Q s.
Proof.
  induction vs as [|u vs IH]; intros Hv H1 H2 HQ; [by apply not_elem_of_nil in Hv|]. cbn [vfs_list_find]. apply wp_bind, wp_gets.
  destruct ((vfs_major (vfspool (ftabs s) u) =? major) && (vfs_minor (vfspool (ftabs s) u) =? minor)) eqn:Hu.
  - apply andb_true_iff in Hu as [Hu1%Z.eqb_eq Hu2%Z.eqb_eq]. apply wp_ret. apply HQ; [by left|done|done].
  - apply elem_of_cons in Hv as [->|Hv]; [by rewrite H1, H2, !Z.eqb_refl in Hu|]. apply IH; [done..|].
    intros v' Hv' G1 G2. apply HQ; [by right|done|done].
Qed.

(** Every file system mounted on the device is [fs]. *)
Definition mounted s (dev : Z) (fs : nat) : Prop :=
  (exists v, v ∈ vfsmlist (ftabs s) /\ vfs_major (vfspool (ftabs s) v) = BLOCKMAJOR /\ vfs_minor (vfspool (ftabs s) v) = dev) /\
  forall v, v ∈ vfsmlist (ftabs s) -> vfs_minor (vfspool (ftabs s) v) = dev -> vfs_fst (vfspool (ftabs s) v) = Some fs.

Lemma wp_fs_of_dev dev fs (Q : option nat -> kstate -> Prop) s : mounted s dev fs -> Q (Some fs) s -> wp (fs_of_dev BLOCKMAJOR dev) Q s.
Proof.
  intros [(v & Hv & H1 & H2) Hall] HQ. unfold fs_of_dev, get_vfs_entry. apply wp_bind, wp_bind, wp_gets. eapply wp_vfs_list_find; [exact Hv|done|done|].
  intros u Hu G1 G2. apply wp_bind. eapply wp_deref; [done|]. apply wp_bind, wp_gets, wp_ret. by rewrite (Hall u Hu G2).
Qed.

(** ** Entries *)

Definition put_inode i (f : inode -> inode) s : kstate :=
  set_ftabs (set_inodes (<[i := f (ino s i)]> (inodes (ftabs s))) (ftabs s)) s.

Lemma put_inode_eq i f s : ino (put_inode i f s) i = f (ino s i).
Proof. apply fn_lookup_insert. Qed.
Lemma put_inode_ne i j f s : j <> i -> ino (put_inode i f s) j = ino s j.
Proof. intros. by apply fn_lookup_insert_ne. Qed.

(** A critical section of a lock nobody holds; the body does not touch locks. *)
Lemma km_back s s' l : km s' = set_held [l] (km s) -> held (km s) = [] -> set_held [] (km s') = km s.
Proof. intros -> H. destruct (km s). simpl in *. by subst. Qed.

(** An entry of the pool of private inodes is taken. *)
Definition pool_free s k : Prop := (k < Z.to_nat NINODE)%nat /\ xi_flags (xinodes (ftabs s) k) = 0.
Definition take_pool k s : kstate :=
  set_ftabs (set_xinodes (<[k := set_xi_flags (Z.lor (xi_flags (xinodes (ftabs s) k)) XV6FS_INODE_USED) (xinodes (ftabs s) k)]> (xinodes (ftabs s))) (ftabs s)) s.

Lemma wp_fill_inode i (Q : bool -> kstate -> Prop) s :
  held (km s) = [] -> (exists k, pool_free s k) ->
  (forall k, pool_free s k -> Q true (put_inode i (set_i_private (Some k)) (take_pool k s))) -> wp (xv6fs_fill_inode i) Q s.
Proof.
  intros Hh (k & Hk & Hk0) HQ. unfold xv6fs_fill_inode, alloc_xv6fs_inode. apply wp_bind, wp_bind, wp_kacquire; [rewrite Hh; apply not_elem_of_nil|].
  rewrite Hh. apply wp_bind, wp_table_find. intros [j|] Hr; cbn [ftabs set_km] in Hr.
  - destruct Hr as [Hj Hj0]. apply Z.eqb_eq in Hj0. apply wp_bind, wp_modify, wp_bind. eapply wp_krelease; [reflexivity|apply not_elem_of_nil|].
    apply wp_ret, wp_bind, wp_modify, wp_ret. assert (Hpf : pool_free s j) by (split; [lia|done]). generalize (HQ j Hpf).
    unfold put_inode, take_pool. destruct s as [[]]. cbn in Hh |- *. by rewrite <- Hh.
  - specialize (Hr k ltac:(lia)). by rewrite Hk0 in Hr.
Qed.

(** What iget leaves: a cached inode with one more reference, or a new entry
    for an inode that was not cached. *)
Definition iget_done (dev n : Z) (fs : nat) i s s' : Prop :=
  cached s dev n i /\ s' = put_inode i (fun ip => set_iref (iref ip + 1) ip) s \/
  (forall j, ~ cached s dev n j) /\ is_inode i /\ iref (ino s i) = 0 /\ exists k, pool_free s k /\
    s' = put_inode i (set_i_private (Some k)) (take_pool k (put_inode i (fun ip => set_ifs (Some fs) (set_ivalid 0 (set_iref 1 (set_inum n (set_idev dev ip))))) s)).

Lemma wp_xv6fs_iget dev n fs (Q : nat -> kstate -> Prop) s :
  icache_ok s -> held (km s) = [] -> mounted s dev fs ->
  (forall i, cached s dev n i -> itype (ino s i) <> T_MOUNT) ->
  (exists i, cached s dev n i \/ is_inode i /\ iref (ino s i) = 0) -> (exists k, pool_free s k) ->
  (forall i s', iget_done dev n fs i s s' -> Q i s') -> wp (xv6fs_iget dev n) Q s.
Proof.
  intros [Hkey Href] Hh Hmt Hnm Hroom Hpool HQ. unfold xv6fs_iget, iget. apply wp_bind, wp_kacquire; [rewrite Hh; apply not_elem_of_nil|]. rewrite Hh.
  set (s1 := set_km _ s). apply wp_bind, wp_icache_scan. intros [[i|] e] Hr; unfold scan_result in Hr; cbn [fst snd] in Hr.
  - destruct Hr as (Hi & Hri & Ht). apply andb_true_iff in Ht as [Ht1 Ht2]. apply Z.eqb_eq in Ht1, Ht2. change (ino s1 i) with (ino s i) in *.
    assert (Hib : is_inode i) by (unfold is_inode; lia). assert (Hc : cached s dev n i) by by split_and!.
    apply wp_bind, wp_gets. change (ino s1 i) with (ino s i). destruct (Z.eqb_spec (itype (ino s i)) T_MOUNT) as [Hm|_]; [by destruct (Hnm i Hc)|].
    apply wp_bind, wp_modify, wp_bind. eapply wp_krelease; [reflexivity|apply not_elem_of_nil|]. apply wp_ret, HQ. left. split; [done|].
    unfold put_inode, s1. cbn [ftabs set_km]. specialize (Href i Hib). rewrite sint_small by lia. destruct s as [[]]. cbn in Hh |- *. by rewrite Hh.
  - destruct Hr as [Hno He]. assert (Hnc : forall j, ~ cached s dev n j).
    { intros j (Hj & Hj1 & Hj2 & Hj3). apply (Hno j); [unfold is_inode in Hj; lia|]. change (ino s1 j) with (ino s j). rewrite Hj2, Hj3, !Z.eqb_refl. done. }
    destruct e as [i|]; [|destruct He as [_ He]; destruct Hroom as (i & [Hc|[Hi H0]]); [by destruct (Hnc i)|by destruct (He i); [unfold is_inode in Hi; lia|]]].
    destruct He as [|[Hi H0]]; [done|]. assert (Hib : is_inode i) by (unfold is_inode; lia). change (ino s1 i) with (ino s i) in H0.
    apply wp_bind. apply (wp_fs_of_dev dev fs); [exact Hmt|]. apply wp_bind, wp_modify, wp_bind. eapply wp_krelease; [reflexivity|apply not_elem_of_nil|].
    set (s2 := set_km _ _).
    assert (Hs2 : s2 = put_inode i (fun ip => set_ifs (Some fs) (set_ivalid 0 (set_iref 1 (set_inum n (set_idev dev ip))))) s).
    { unfold s2, s1, put_inode. destruct s as [[]]. cbn in Hh |- *. by rewrite Hh. }
    rewrite Hs2. clear s2 Hs2 s1 Hno. apply wp_bind, wp_fill_inode; [done|destruct Hpool as (k & Hk); by exists k|].
    intros k Hk. apply wp_bind, wp_panic_if; [done|]. apply wp_ret, HQ. right. split_and!; [done|done|done|]. by exists k.
Qed.

Lemma icache_ok_done dev n fs i s s' : icache_ok s -> iget_done dev n fs i s s' -> iref (ino s i) < 2 ^ 31 - 2 -> icache_ok s'.
Proof.
  intros [Hkey Href] [[Hc ->]|(Hnc & Hi & H0 & k & Hk & ->)] Hlt.
  - set (s' := put_inode _ _ s). assert (Hiff : forall dev n j, cached s' dev n j <-> cached s dev n j).
    { intros d m j. destruct Hc as (H1 & H2 & _). unfold cached, s'. destruct (decide (j = i)) as [->|Hne]; [|by rewrite (put_inode_ne i j)].
      rewrite put_inode_eq. cbn [iref idev inum set_iref]. split; intros (? & ? & ? & ?); split_and!; (done || lia). }
    split.
    + intros a b d m Ha Hb. apply Hiff in Ha, Hb. by eapply Hkey.
    + intros j Hj. unfold s'. destruct (decide (j = i)) as [->|Hne]; [rewrite put_inode_eq; cbn [iref set_iref]; specialize (Href i Hj); destruct Hc as (_ & ? & _); lia|].
      rewrite put_inode_ne by done. by apply Href.
  - set (s' := put_inode _ _ _).
    assert (Hi' : ino s' i = set_i_private (Some k) (set_ifs (Some fs) (set_ivalid 0 (set_iref 1 (set_inum n (set_idev dev (ino s i))))))).
    { unfold s'. rewrite put_inode_eq. f_equal. apply put_inode_eq. }
    assert (Hj' : forall j, j <> i -> ino s' j = ino s j) by (intros j Hj; unfold s'; rewrite put_inode_ne by done; by apply put_inode_ne).
    split.
    + intros a b d m (A1 & A2 & A3 & A4) (B1 & B2 & B3 & B4). destruct (decide (a = i)) as [->|Ha], (decide (b = i)) as [->|Hb]; [done|..].
      * rewrite Hi' in A3, A4. cbn in A3, A4. rewrite Hj' in * by done. destruct (Hnc b). split_and!; congruence.
      * rewrite Hi' in B3, B4. cbn in B3, B4. rewrite Hj' in * by done. destruct (Hnc a). split_and!; congruence.
      * rewrite Hj' in * by done. apply (Hkey a b d m); by split_and!.
    + intros j Hj. destruct (decide (j = i)) as [->|Hne]; [rewrite Hi'; cbn; lia|]. rewrite Hj' by done. by apply Href.
Qed.


(** ** iput *)

Section Iput.
Context (iops : nat -> inode_ops) (swtch : nat -> E kstate unit) (fuel : nat).

(** A reference that is not the last one, or one to an inode that was not read
    from the disk, is dropped without touching the disk. *)
Lemma wp_iput_more i (Q : unit -> kstate -> Prop) s :
  held (km s) = [] -> 1 < iref (ino s i) < 2 ^ 31 -> Q tt (put_inode i (fun ip => set_iref (iref ip - 1) ip) s) ->
  wp (iput iops swtch fuel i) Q s.
Proof.
  intros Hh Hr HQ. unfold iput. apply wp_bind, wp_kacquire; [rewrite Hh; apply not_elem_of_nil|]. rewrite Hh.
  apply wp_bind, wp_gets. cbn [ftabs set_km]. destruct (Z.eqb_spec (iref (ino s i)) 1); [lia|]. cbn [andb]. apply wp_bind, wp_ret, wp_bind, wp_modify.
  apply wp_bind, wp_gets. cbn [ftabs set_km set_ftabs inodes set_inodes]. rewrite fn_lookup_insert. cbn [iref set_iref]. rewrite sint_small by lia.
  destruct (Z.eqb_spec (iref (ino s i) - 1) 0); [lia|]. apply wp_bind, wp_ret. eapply wp_krelease; [reflexivity|apply not_elem_of_nil|].
  revert HQ. unfold put_inode. destruct s as [[]]. cbn in Hh |- *. by rewrite Hh.
Qed.

Lemma wp_iput_unread i fs k (Q : unit -> kstate -> Prop) s :
  held (km s) = [] -> iref (ino s i) = 1 -> ivalid (ino s i) = 0 -> ifs (ino s i) = Some fs -> i_private (ino s i) = Some k ->
  op_cleanup (iops fs) i = xv6fs_cleanup i ->
  (forall s', (forall j, iref (ino s' j) = if decide (j = i) then 0 else iref (ino s j)) ->
     (forall j, xi_flags (xinodes (ftabs s') j) = if decide (j = k) then 0 else xi_flags (xinodes (ftabs s) j)) -> Q tt s') ->
  wp (iput iops swtch fuel i) Q s.
Proof.
  intros Hh Hr Hv Hfs Hp Hop HQ. unfold iput. apply wp_bind, wp_kacquire; [rewrite Hh; apply not_elem_of_nil|]. rewrite Hh.
  apply wp_bind, wp_gets. cbn [ftabs set_km]. rewrite Hr, Hv. cbn [andb Z.eqb negb]. apply wp_bind, wp_ret, wp_bind, wp_modify. cbn beta.
  apply wp_bind, wp_gets. cbn [ftabs set_km set_ftabs inodes set_inodes]. rewrite fn_lookup_insert. cbn [iref set_iref]. rewrite Hr. cbn [Z.eqb].
  change (sint 32 (1 - 1) =? 0) with true. cbn match. apply wp_bind. unfold call_op. apply wp_bind, wp_gets.
  cbn [ftabs set_km set_ftabs inodes set_inodes]. rewrite fn_lookup_insert. cbn [ifs set_iref]. apply wp_bind. eapply wp_deref; [exact Hfs|].
  rewrite Hop. unfold xv6fs_cleanup, private_of. apply wp_bind, wp_bind, wp_gets. cbn [ftabs set_km set_ftabs inodes set_inodes]. rewrite fn_lookup_insert.
  cbn [i_private set_iref]. eapply wp_deref; [exact Hp|]. apply wp_modify. eapply wp_krelease; [reflexivity|apply not_elem_of_nil|]. apply HQ.
  - intros j. cbn [ftabs set_km set_ftabs inodes set_inodes set_xinodes]. case_decide as Hj; [subst j; by rewrite fn_lookup_insert|by rewrite fn_lookup_insert_ne].
  - intros j. cbn [ftabs set_km set_ftabs xinodes set_inodes set_xinodes]. case_decide as Hj; [subst j; by rewrite fn_lookup_insert|by rewrite fn_lookup_insert_ne].
Qed.

(** iput takes back what xv6fs_iget gave: afterwards every inode has the
    references it had before, and the pool of private inodes has the same
    entries in use. *)
Theorem iget_iput_balanced dev n fs s :
  icache_ok s -> held (km s) = [] -> mounted s dev fs ->
  (forall i, cached s dev n i -> itype (ino s i) <> T_MOUNT) ->
  (exists i, cached s dev n i \/ is_inode i /\ iref (ino s i) = 0) -> (exists k, pool_free s k) ->
  (forall i, op_cleanup (iops fs) i = xv6fs_cleanup i) ->
  wp (i ← xv6fs_iget dev n; iput iops swtch fuel i) (fun _ s' =>
    (forall j, iref (ino s' j) = iref (ino s j)) /\ forall j, xi_flags (xinodes (ftabs s') j) = xi_flags (xinodes (ftabs s) j)) s.
Proof.
  intros Hok Hh Hmt Hnm Hroom Hpool Hop. apply wp_bind. eapply wp_xv6fs_iget; [done|done|exact Hmt|done|done|done|].
  intros i s1 [[Hi ->]|(Hnc & Hi & H0 & k & [Hk1 Hk0] & ->)].
  - destruct Hi as (I1 & I2 & _). pose proof (ic_ref _ Hok i I1). apply wp_iput_more; [done|rewrite put_inode_eq; cbn; lia|]. split; [|done].
    intros j. destruct (decide (j = i)) as [->|Hj]; [|by rewrite !put_inode_ne]. rewrite !put_inode_eq. cbn. lia.
  - set (s1 := put_inode _ _ _).
    assert (Hi' : ino s1 i = set_i_private (Some k) (set_ifs (Some fs) (set_ivalid 0 (set_iref 1 (set_inum n (set_idev dev (ino s i))))))).
    { unfold s1. rewrite put_inode_eq. f_equal. apply put_inode_eq. }
    apply (wp_iput_unread i fs k); [done|by rewrite Hi'..|done|]. intros s2 H1 H2. split.
    + intros j. rewrite H1. case_decide as Hj; [by subst|]. unfold s1. rewrite put_inode_ne by done. exact (f_equal iref (put_inode_ne i j _ s Hj)).
    + intros j. rewrite H2. case_decide as Hj; [by subst|]. unfold s1, put_inode, take_pool. cbn [ftabs set_ftabs xinodes set_inodes set_xinodes].
      by rewrite fn_lookup_insert_ne.
Qed.
End Iput.

(** ** Witnesses: a table with nothing in use and one mounted file system *)

Definition demo_fsstate : fsstate :=
  Fsstate (fun _ => Inode 0 0 0 0 0 0 0 0 0 None None) (fun _ => Xinode 0 (fun _ => 0)) (fun _ => Superblock 0 0 0 None 0)
    (fun _ => Xsuper 0 0 0 0 0 0 0 0 0) (fun _ => Mntentry None None 0 0 0) (fun _ => Vfs BLOCKMAJOR ROOTDEV VFS_USED (Some 0%nat)) [0%nat] (Some 0%nat) (fun _ => mfile_zero) (fun _ => minode_zero).
Definition demo_kernel : kstate := set_ftabs demo_fsstate (kzero (Mach (fun _ => 0) 0 0 [])).
#[local] Opaque kzero.

Lemma demo_not_cached d n i : ~ cached demo_kernel d n i.
Proof. intros (_ & H & _). change (0 < 0) in H. lia. Qed.
Lemma demo_icache : icache_ok demo_kernel.
Proof. split; [intros i j d n H; by apply demo_not_cached in H|]. intros i _. change (0 <= 0 < 2 ^ 31 - 1). lia. Qed.
Lemma demo_mounted : mounted demo_kernel ROOTDEV 0.
Proof. split; [exists 0%nat; split_and!; [by left|done|done]|]. done. Qed.
Lemma demo_room : exists i, cached demo_kernel ROOTDEV 7 i \/ is_inode i /\ iref (ino demo_kernel i) = 0.
Proof. exists 0%nat. right. by split. Qed.
Lemma demo_pool : exists k, pool_free demo_kernel k.
Proof. exists 0%nat. split; [|done]. unfold NINODE. lia. Qed.
Lemma demo_held : held (km demo_kernel) = [].
Proof. with_strategy transparent [kzero] (reflexivity). Qed.


Lemma iget_iput_balanced_witness : wp (i ← xv6fs_iget ROOTDEV 7; iput (fun _ => xv6fs_iops (fun _ => mret tt) 0 (fun _ => 0) (fun _ => None) 0) (fun _ => mret tt) 0 i)
  (fun _ s' => iref (ino s' 0) = 0) demo_kernel.
Proof.
  eapply wp_mono.
  - apply (iget_iput_balanced (fun _ => xv6fs_iops (fun _ => mret tt) 0 (fun _ => 0) (fun _ => None) 0) (fun _ => mret tt) 0 ROOTDEV 7 0 demo_kernel demo_icache demo_held demo_mounted);
      [|exact demo_room|exact demo_pool|done]. intros i H. by apply demo_not_cached in H.
  - cbn beta. intros _ s' [H _]. by rewrite H.
Defined.
