(* ===== verification/MmapSpec.v ===== *)
(** * The regions of a process

    do_mmap puts the regions of a process one below the other, so that they
    never overlap, and find_vma answers the region an address is in. *)
From S2P Require Import Prelude Mem CString KTypes Kalloc Vm ListHead KState Queue Sched Signal Thread ThreadInv SchedSpec ProcBase Pipe File Mmap.

(** ** list_for_each_entry over a ring that the body does not change *)

Section Scan.
Context {R : Type} (hd : lptr) (body : lptr -> E kstate (option R)) (f : lptr -> option R).

(** The first entry for which the body leaves the loop. *)
Fixpoint first_some (ys : list lptr) : option R :=
  match ys with [] => None | y :: ys => match f y with Some r => Some r | None => first_some ys end end.

Lemma wp_list_scan (Q : option R -> kstate -> Prop) s ys :
  ring (lh s) hd ys -> (forall y, y ∈ ys -> body y s = Done (f y) s) -> Q (first_some ys) s -> wp (list_for_each hd body) Q s.
Proof.
  intros Hr Hb HQ. pose proof (ring_chain _ _ _ Hr) as [Hh Hc]. pose proof (ring_size _ _ _ Hr) as Hsz. pose proof Hr as (Hnd & _ & _).
  apply NoDup_cons in Hnd as [Hni _]. unfold list_for_each. apply wp_bind. eapply wp_on_rd_next; [done|]. apply wp_bind. eapply wp_deref; [done|].
  apply wp_bind, wp_gets. clear Hh Hr. revert Hsz. generalize (size (lh s)). intros n.
  revert n Hb Hc Hni HQ. induction ys as [|y ys IH]; intros n Hb Hc Hni HQ Hn.
  - destruct n; cbn [list_for_each_loop first_of]; rewrite bool_decide_true by done; by apply wp_ret.
  - simpl in Hn. destruct n as [|n]; [lia|]. apply not_elem_of_cons in Hni as [Hne Hni]. cbn [list_for_each_loop first_of first_some] in *. rewrite bool_decide_false by done.
    apply wp_bind. eapply wp_run; [apply Hb; by left|]. destruct (f y) as [r|]; [by apply wp_ret|].
    destruct Hc as [Hy Hc]. apply wp_bind. eapply wp_on_rd_next; [done|]. apply wp_bind. eapply wp_deref; [done|].
    apply IH; [intros z Hz; apply Hb; by right|done|done|done|lia].
Qed.
End Scan.

(** ** The regions *)

Definition inside_region (x : vma_struct) (a : Z) : Prop := vm_start x <= a < vm_end x.
Definition apart_regions (x y : vma_struct) : Prop := vm_end x <= vm_start y \/ vm_end y <= vm_start x.

Record mm_ok (p : nat) (vs : list Z) (s : kstate) : Prop := {
  mm_ring : ring (lh s) (VmaList p) (Vma <$> vs);
  mm_region : forall v, v ∈ vs -> exists x, vmas s !! v = Some x /\ max_vma (procs s p) <= vm_start x /\ vm_start x <= vm_end x;
  mm_apart : forall v w x y, v ∈ vs -> w ∈ vs -> v <> w -> vmas s !! v = Some x -> vmas s !! w = Some y -> apart_regions x y;
  mm_null : forall v, v ∈ vs -> v <> 0;
  mm_max : page_aligned (max_vma (procs s p)) /\ 0 <= max_vma (procs s p) < 2 ^ 64;
}.

Lemma wp_find_vma p vs a (Q : Z -> kstate -> Prop) s : mm_ok p vs s ->
  (forall v x, v ∈ vs -> vmas s !! v = Some x -> inside_region x a -> Q v s) ->
  ((forall v x, v ∈ vs -> vmas s !! v = Some x -> ~ inside_region x a) -> Q 0 s) ->
  wp (find_vma p a) Q s.
Proof.
  intros [Hr Hreg _ _ _] H1 H0. unfold find_vma. apply wp_bind.
  set (f := fun l : lptr => v ← vma_of l; x ← vmas s !! v; if (vm_start x <=? a) && (a <? vm_end x) then Some v else None).
  apply (wp_list_scan _ _ f _ s _ Hr).
  - intros y Hy. apply list_elem_of_fmap in Hy as (v & -> & Hv). destruct (Hreg v Hv) as (x & Hx & _).
    unfold f, get_vma, deref, mbind, E_bind, mret, E_ret. cbn. by rewrite Hx.
  - assert (Hf : forall v x, vmas s !! v = Some x -> f (Vma v) = if (vm_start x <=? a) && (a <? vm_end x) then Some v else None).
    { intros v x Hx. unfold f. cbn. by rewrite Hx. }
    apply wp_ret. clear Hr. clearbody f. induction vs as [|v vs IH]; cbn [fmap list_fmap first_some default from_option].
    + apply H0. intros w y Hw. by apply not_elem_of_nil in Hw.
    + destruct (Hreg v ltac:(by left)) as (x & Hx & _). rewrite (Hf v x Hx). destruct ((vm_start x <=? a) && (a <? vm_end x)) eqn:Hin.
      * apply andb_true_iff in Hin as [G1%Z.leb_le G2%Z.ltb_lt]. cbn. apply (H1 v x); [by left|done|done].
      * apply IH.
        -- intros w Hw. by apply Hreg, elem_of_cons; right.
        -- intros w y Hw. apply H1, elem_of_cons. by right.
        -- intros Hno. apply H0. intros w y [->|Hw]%elem_of_cons Hy; [|by eapply Hno]. rewrite Hx in Hy. injection Hy as <-.
           intros [G1 G2]. apply Z.leb_le in G1. apply Z.ltb_lt in G2. by rewrite G1, G2 in Hin.
Qed.

(** ** do_mmap *)

Lemma wp_get_vma v x (Q : vma_struct -> kstate -> Prop) s : vmas s !! v = Some x -> Q x s -> wp (get_vma v) Q s.
Proof. intros Hx HQ. eapply wp_run; [|exact HQ]. unfold get_vma, deref. by rewrite Hx. Qed.

Section Mmaps.
Context (kend : Z).
Hypothesis kend_pos : 0 < kend.

(** A page for the new struct: not one of those in use. *)
Lemma wp_allocvma v l (Q : Z -> kstate -> Prop) s :
  kmem_inv kend (km s) (v :: l) -> L_kmem ∉ held (km s) ->
  (forall m, valid_page kend v -> kmem_inv kend m l -> held m = held (km s) -> Q v (put_new_vma v (set_km m s))) -> wp allocvma Q s.
Proof.
  intros Hk Hl HQ. unfold allocvma. apply wp_bind, (wp_on_kalloc kend kend_pos (v :: l)); [done|done|done|].
  intros ? ? m [= <- <-] Hv Hm Hh. rewrite (proj2 (Z.eqb_neq v 0)) by (destruct Hv; lia). apply wp_bind, wp_modify, wp_ret. by apply HQ.
Qed.

(** The region do_mmap makes. *)
Definition new_region (p : nat) (length prot flags fd offset : Z) (s : kstate) : vma_struct :=
  VmaStruct 1 (PGROUNDDOWN (max_vma (procs s p) - length)) (max_vma (procs s p)) offset (i32 flags) (i32 prot) (i32 fd) None true.

Lemma ring_with_node h (hd n : lptr) nd xs : ring h hd xs -> n ∉ hd :: xs -> ring (<[n := nd]> h) hd xs.
Proof. intros Hr Hn. eapply ring_frame; [exact Hr|]. intros x Hx. apply lookup_insert_ne. by intros ->. Qed.

Lemma wp_do_mmap p vs v l addr length prot flags fd offset (Q : Z -> kstate -> Prop) s :
  runs_in s p -> mm_ok p vs s -> held (km s) = [] -> kmem_inv kend (km s) (v :: l) -> v ∉ vs ->
  has_bits flags MAP_ANONYMOUS = true -> 0 <= length -> MMAP_END_ADDRESS <= max_vma (procs s p) - length ->
  (forall s', mm_ok p (vs ++ [v]) s' -> vmas s' = <[v := new_region p length prot flags fd offset s]> (vmas s) ->
     Q (PGROUNDDOWN (max_vma (procs s p) - length)) s') ->
  wp (do_mmap kend addr length prot flags fd None offset) Q s.
Proof.
  intros Hrun [Hr Hreg Hap Hnu [Hal Hmax]] Hh Hk Hvs Han Hl0 Hfit HQ. set (mx := max_vma (procs s p)) in *.
  pose proof (PGROUNDDOWN_spec (mx - length)) as [Hsa Hsb]. set (start := PGROUNDDOWN (mx - length)) in *.
  assert (HE : MMAP_END_ADDRESS mod PGSIZE = 0 /\ 0 <= MMAP_END_ADDRESS) by (by vm_compute).
  assert (Hst : MMAP_END_ADDRESS <= start).
  { unfold start. rewrite PGROUNDDOWN_eq. destruct HE as [HE _]. pose proof (Z.div_mod MMAP_END_ADDRESS PGSIZE ltac:(done)) as Hd. rewrite HE in Hd.
    pose proof (Z.div_le_mono _ _ PGSIZE ltac:(done) Hfit). unfold PGSIZE in *. lia. }
  unfold do_mmap. apply wp_bind. eapply wp_myproc; [done|]. apply wp_bind, wp_gets. cbn match. apply wp_bind.
  eapply (wp_allocvma v l); [done|rewrite Hh; apply not_elem_of_nil|]. intros m Hv Hm Hhm. rewrite (proj2 (Z.eqb_neq v 0)) by (destruct Hv; lia).
  apply wp_bind, wp_kacquire; [cbn [put_new_vma km set_lh set_vmas set_km]; rewrite Hhm, Hh; apply not_elem_of_nil|].
  apply wp_bind, wp_gets. cbn [procs put_new_vma km set_lh set_vmas set_km]. fold mx. rewrite (wrap_small 64) by lia. fold start.
  rewrite (PGROUNDDOWN_aligned mx) by done. apply wp_bind, wp_modify, wp_bind, wp_modify. rewrite Han.
  apply wp_bind. unfold upd_vma. apply wp_bind. eapply wp_get_vma; [cbn [vmas set_vmas set_procs set_km put_new_vma set_lh]; apply lookup_insert_eq|]. apply wp_modify. destruct (Z.ltb_spec start MMAP_END_ADDRESS); [lia|].
  assert (Hni : Vma v ∉ VmaList p :: (Vma <$> vs)) by (rewrite elem_of_cons; intros [[=]|(w & [= <-] & Hw)%list_elem_of_fmap]; done).
  apply wp_bind, wp_zoom. cbn [lh set_vmas set_procs set_km put_new_vma set_lh].
  apply (wp_list_add_tail _ _ (Vma <$> vs)); [by apply ring_with_node|done|rewrite lookup_insert_eq; by eexists|]. intros h2 [D2 S2] Hr2.
  apply wp_bind. eapply wp_krelease; [cbn; rewrite Hhm, Hh; reflexivity|apply not_elem_of_nil|]. apply wp_bind.
  eapply wp_get_vma; [cbn [vmas set_vmas set_procs set_km put_new_vma set_lh]; apply lookup_insert_eq|]. apply wp_ret. cbn [vm_start set_vm_anon].
  apply HQ; [|cbn [vmas set_vmas set_procs set_km put_new_vma set_lh]; by rewrite !insert_insert_eq].
  set (s' := set_km _ _).
  assert (Hvm : vmas s' = <[v := new_region p length prot flags fd offset s]> (vmas s)) by (cbn [s' vmas set_vmas set_procs set_km put_new_vma set_lh]; by rewrite !insert_insert_eq).
  assert (Hmx : max_vma (procs s' p) = start) by (cbn [s' procs set_vmas set_procs set_km put_new_vma set_lh]; by rewrite fn_lookup_insert).
  assert (Hold : forall w, w ∈ vs -> vmas s' !! w = vmas s !! w) by (intros w Hw; rewrite Hvm; apply lookup_insert_ne; by intros ->).
  split.
  - cbn [s' lh set_km set_lh]. by rewrite fmap_app.
  - intros w [Hw| ->%list_elem_of_singleton]%elem_of_app.
    + destruct (Hreg w Hw) as (x & Hx & G1 & G2). exists x. rewrite Hold, Hmx by done. split_and!; [done|lia|done].
    + exists (new_region p length prot flags fd offset s). rewrite Hvm, lookup_insert_eq, Hmx.
      split_and!; [done|change (start <= start); lia|change (start <= mx); lia].
  - assert (Hnew : forall w x, w ∈ vs -> vmas s' !! w = Some x -> mx <= vm_start x).
    { intros w x Hw Hx. rewrite Hold in Hx by done. destruct (Hreg w Hw) as (x' & Hx' & G & _). congruence. }
    intros a b x y Ha Hb Hne Hx Hy. apply elem_of_app in Ha as [Ha|Ha], Hb as [Hb|Hb].
    + rewrite Hold in Hx, Hy by done. by apply (Hap a b).
    + apply list_elem_of_singleton in Hb as ->. rewrite Hvm, lookup_insert_eq in Hy. injection Hy as <-. right. by apply (Hnew a x).
    + apply list_elem_of_singleton in Ha as ->. rewrite Hvm, lookup_insert_eq in Hx. injection Hx as <-. left. by apply (Hnew b y).
    + apply list_elem_of_singleton in Ha, Hb. congruence.
  - intros w [Hw| ->%list_elem_of_singleton]%elem_of_app; [by apply Hnu|]. destruct Hv; lia.
  - rewrite Hmx. split; [done|lia].
Qed.

(** C31: do_mmap of an anonymous region that fits answers a page-aligned address;
    the new region covers the length asked for and overlaps none of the regions
    of the process, which are kept as they are; from then on find_vma answers
    the new region for every address in it, and the old ones for theirs. *)
Theorem do_mmap_adds_region p vs v l addr length prot flags fd offset s :
  runs_in s p -> mm_ok p vs s -> held (km s) = [] -> kmem_inv kend (km s) (v :: l) -> v ∉ vs ->
  has_bits flags MAP_ANONYMOUS = true -> 0 <= length -> MMAP_END_ADDRESS <= max_vma (procs s p) - length ->
  wp (do_mmap kend addr length prot flags fd None offset) (fun r s' => page_aligned r /\ mm_ok p (vs ++ [v]) s' /\
    (forall a, r <= a < r + length -> wp (find_vma p a) (fun w s2 => w = v /\ s2 = s') s') /\
    (forall w x a, w ∈ vs -> vmas s !! w = Some x -> inside_region x a -> wp (find_vma p a) (fun u s2 => u = w /\ s2 = s') s')) s.
Proof.
  intros Hrun Hok Hh Hk Hvs Han Hl0 Hfit. eapply wp_do_mmap; [done..|]. intros s' Hok' Hvm. pose proof (PGROUNDDOWN_spec (max_vma (procs s p) - length)) as [Hsa Hsb].
  assert (Hfind : forall w x a, w ∈ vs ++ [v] -> vmas s' !! w = Some x -> inside_region x a -> wp (find_vma p a) (fun u s2 => u = w /\ s2 = s') s').
  { intros w x a Hw Hx Ha. eapply wp_find_vma; [exact Hok'| |].
    - intros u y Hu Hy Hay. split; [|done]. destruct (decide (u = w)) as [|Hne]; [done|].
      destruct (mm_apart _ _ _ Hok' u w y x Hu Hw Hne Hy Hx); unfold inside_region in *; lia.
    - intros Hno. by destruct (Hno w x Hw Hx). }
  split_and!; [done|done| |].
  - intros a Ha. apply (Hfind v (new_region p length prot flags fd offset s)).
    + apply elem_of_app. right. by left.
    + rewrite Hvm. apply lookup_insert_eq.
    + unfold inside_region, new_region. cbn. lia.
  - intros w x a Hw Hx Ha. apply (Hfind w x); [apply elem_of_app; by left| |done]. rewrite Hvm, lookup_insert_ne; [done|]. by intros ->.
Qed.
End Mmaps.

(** ** Witness: a process without regions, and one free page *)

Definition demo_mm : kstate :=
  set_lh {[VmaList 0 := Node (Some (VmaList 0)) (Some (VmaList 0))]} (set_cur (Some 0%nat)
    (set_tcbs (fun _ => set_tproc (Some 0%nat) tcb_zero) (set_procs (fun _ => set_max_vma MMAP_MAX_ADDR_START proc_zero) (kzero one_free)))).

Lemma demo_mm_ok : mm_ok 0 [] demo_mm.
Proof.
  assert (Hlh : lh demo_mm = {[VmaList 0 := Node (Some (VmaList 0)) (Some (VmaList 0))]}) by reflexivity.
  assert (Hmx : max_vma (procs demo_mm 0) = MMAP_MAX_ADDR_START) by reflexivity.
  split; [|intros v Hv; by apply not_elem_of_nil in Hv|intros v w x y Hv; by apply not_elem_of_nil in Hv|intros v Hv; by apply not_elem_of_nil in Hv|].
  - rewrite Hlh. split_and!; [apply NoDup_singleton| |by split_and!].
    intros x ->%list_elem_of_singleton. rewrite lookup_singleton_eq. by eexists.
  - rewrite Hmx. by vm_compute.
Qed.

Lemma do_mmap_adds_region_witness :
  wp (do_mmap two_pages 0 8192 3 MAP_ANONYMOUS (-1) None 0) (fun r s' => wp (find_vma 0 (r + 5000)) (fun v s2 => v = PHYSTOP - PGSIZE) s') demo_mm.
Proof.
  eapply wp_mono.
  - apply (do_mmap_adds_region two_pages eq_refl 0 [] (PHYSTOP - PGSIZE) [] 0 8192 3 MAP_ANONYMOUS (-1) 0 demo_mm).
    + exists 0%nat. split; reflexivity.
    + exact demo_mm_ok.
    + reflexivity.
    + change (km demo_mm) with one_free. split; [done|apply NoDup_singleton|by apply Forall_singleton|]. intros a. simpl. lia.
    + apply not_elem_of_nil.
    + reflexivity.
    + lia.
    + by vm_compute.
  - cbn beta. intros r s' (_ & _ & H & _). eapply wp_mono; [apply H; lia|]. by intros v s2 [-> _].
Defined.
