(* ===== verification/FamilySpec.v ===== *)
(** * The family tree

    The children of a process are a circle of siblings, entered at the first
    child.  append_child and delete_child change it as the list of the children
    in order of birth, and leave the children of other processes alone. *)
From S2P Require Import Prelude Mem CString KTypes Kalloc Vm ListHead KState Queue Sched Signal Thread ProcBase.

Implicit Types (p q c : nat) (cs ds : list nat) (s : kstate).

(** The children of [p], first born first. *)
Definition children s p cs : Prop :=
  match cs with
  | [] => first_child (procs s p) = None
  | c :: rest => first_child (procs s p) = Some c /\ ring (lh s) (PSibling c) (PSibling <$> rest)
  end.
(** A process that is in no circle but its own. *)
Definition single s c : Prop := ring (lh s) (PSibling c) [].

#[global] Instance PSibling_inj : Inj eq eq PSibling.
Proof. intros a b [= ->]. done. Qed.

Lemma ring_rotate (h : gmap lptr (list_head lptr)) x y ys : ring h x (y :: ys) -> ring h y (ys ++ [x]).
Proof.
  intros (Hnd & Hdom & Hp). split_and!.
  - assert (Hperm : x :: y :: ys ≡ₚ y :: ys ++ [x]) by (rewrite Permutation_swap; by rewrite <- Permutation_cons_append).
    by rewrite <- Hperm.
  - intros z Hz. apply Hdom. set_solver.
  - cbn [app] in Hp. destruct Hp as (H1 & H2 & H3). rewrite <- app_assoc. change (y :: ys ++ [x] ++ [y]) with ((y :: ys) ++ x :: [y]).
    apply path_app. split; [exact H3|by split_and!].
Qed.

(** A ring is entered at any of its nodes. *)
Lemma ring_at (h : gmap lptr (list_head lptr)) l : forall x y w, ring h x (l ++ y :: w) -> exists z zs, ring h y (z :: zs).
Proof.
  induction l as [|z l IH]; intros x y w Hr; apply ring_rotate in Hr; cbn [app] in Hr.
  - destruct w; cbn [app] in Hr; by eexists _, _.
  - rewrite <- app_assoc in Hr. cbn [app] in Hr. by eapply IH.
Qed.

(** Where the nodes of a family are. *)
Definition family cs : list lptr := PSibling <$> cs.

Lemma children_frame s s' q ds : children s q ds -> first_child (procs s' q) = first_child (procs s q) ->
  (forall l, l ∈ family ds -> lh s' !! l = lh s !! l) -> children s' q ds.
Proof.
  intros H Hf Hl. destruct ds as [|d ds]; cbn [children] in *; [congruence|]. destruct H as [H1 H2]. split; [congruence|]. eapply ring_frame; [exact H2|exact Hl].
Qed.

(** The changes an operation on the family of [p] makes. *)
Definition only_family p cs c s s' : Prop :=
  (forall q, q <> p -> procs s' q = procs s q) /\ (forall l, l ∉ family (c :: cs) -> lh s' !! l = lh s !! l).

Lemma wp_append_child p c cs (Q : unit -> kstate -> Prop) s :
  children s p cs -> single s c -> c ∉ cs ->
  (forall s', children s' p (cs ++ [c]) -> only_family p cs c s s' -> Q tt s') -> wp (append_child p c) Q s.
Proof.
  intros Hch Hsi Hni HQ. unfold append_child. apply wp_bind, wp_gets. unfold nochildren. destruct cs as [|d ds]; cbn [children] in Hch.
  - rewrite bool_decide_true by done. apply wp_modify, HQ.
    + cbn [app children]. split; [cbn [procs set_procs]; by rewrite fn_lookup_insert|exact Hsi].
    + split; [|done]. intros q Hq. cbn [procs set_procs]. by rewrite fn_lookup_insert_ne.
  - destruct Hch as [Hf Hr]. rewrite bool_decide_false by congruence. apply wp_bind. eapply wp_deref; [exact Hf|]. apply wp_zoom.
    assert (Hn : PSibling c ∉ family (d :: ds)) by (intros (e & He & Hin)%list_elem_of_fmap; by injection He as <-).
    eapply wp_list_add_tail; [exact Hr|exact Hn|apply Hsi; by left|]. intros h' [_ Hs] Hr'. apply HQ.
    + cbn [app children]. split; [done|]. cbn [lh set_lh]. by rewrite fmap_app.
    + split; [done|]. intros l Hl. by apply Hs.
Qed.

Lemma wp_delete_child p c cs1 cs2 (Q : unit -> kstate -> Prop) s :
  children s p (cs1 ++ c :: cs2) ->
  (forall s', children s' p (cs1 ++ cs2) -> single s' c -> only_family p (cs1 ++ cs2) c s s' -> Q tt s') -> wp (delete_child p c) Q s.
Proof.
  intros Hch HQ. unfold delete_child, nosibling. apply wp_bind, wp_zoom.
  assert (Hsame : forall s, set_lh (lh s) s = s) by by intros [].
  assert (Hself : forall h, h !! PSibling c = Some (Node (Some (PSibling c)) (Some (PSibling c))) -> ring h (PSibling c) []).
  { intros h Hc. split_and!; [apply NoDup_singleton|intros x ->%list_elem_of_singleton; by eexists|]. cbn. unfold nxt, prv. by rewrite Hc. }
  destruct cs1 as [|d cs1]; cbn [app children] in Hch, HQ.
  - destruct Hch as [Hf Hr]. eapply wp_list_empty; [exact Hr|]. rewrite Hsame. destruct cs2 as [|e cs2]; cbn [fmap list_fmap].
    + apply wp_modify, HQ; [cbn [children procs set_procs]; by rewrite fn_lookup_insert|exact Hr|].
      split; [|done]. intros q Hq. cbn [procs set_procs]. by rewrite fn_lookup_insert_ne.
    + apply wp_bind, wp_gets. rewrite bool_decide_true by done. pose proof Hr as (_ & Hdom & Hp). cbn [app fmap list_fmap] in Hp. destruct Hp as (Hn & _).
      apply wp_bind, wp_bind. unfold nextsibling. apply wp_bind. eapply wp_on_rd_next; [exact Hn|]. apply wp_bind. eapply wp_deref; [done|].
      eapply wp_deref; [done|]. apply wp_modify, wp_zoom. cbn [lh set_procs]. apply ring_rotate in Hr.
      eapply (wp_list_del_reinit _ _ (PSibling <$> cs2) []); [exact Hr|]. intros h' [_ Hs] Hr' Hc'. rewrite app_nil_r in Hr'. apply HQ.
      * cbn [children procs set_procs set_lh lh]. by rewrite fn_lookup_insert.
      * by apply Hself.
      * split; [intros q Hq; cbn [procs set_procs set_lh]; by rewrite fn_lookup_insert_ne|]. intros l Hl. apply Hs.
        unfold family in Hl. cbn [fmap list_fmap] in Hl. set_solver.
  - destruct Hch as [Hf Hr]. pose proof Hr as (Hnd & _). rewrite fmap_app in Hr. cbn [fmap list_fmap] in Hr.
    assert (Hdc : d <> c).
    { intros ->. apply NoDup_cons in Hnd as [Hnd _]. apply Hnd, list_elem_of_fmap. exists c. split; [done|]. apply elem_of_app. right. by left. }
    destruct (ring_at _ _ _ _ _ Hr) as (z & zs & Hrc).
    eapply wp_list_empty; [exact Hrc|]. rewrite Hsame. cbn match. apply wp_bind, wp_gets. rewrite Hf, bool_decide_false by congruence.
    apply wp_bind, wp_ret, wp_zoom. eapply wp_list_del_reinit; [exact Hr|]. intros h' [_ Hs] Hr' Hc'. apply HQ.
    + split; [done|]. cbn [lh set_lh]. by rewrite fmap_app.
    + by apply Hself.
    + split; [done|]. intros l Hl. apply Hs. unfold family in Hl. cbn [fmap list_fmap] in Hl. rewrite fmap_app in Hl. set_solver.
Qed.


(** ** Witness: process 0 has the child 1, and 2 becomes its second one *)

Definition self (l : lptr) : list_head lptr := Node (Some l) (Some l).
Definition demo_family : kstate :=
  set_lh {[PSibling 1 := self (PSibling 1); PSibling 2 := self (PSibling 2)]}
    (set_procs (<[0%nat := set_first_child (Some 1%nat) proc_zero]> (fun _ => proc_zero)) (kzero one_free)).

Lemma demo_single c : c = 1%nat \/ c = 2%nat -> single demo_family c.
Proof.
  assert (Hlh : lh demo_family = {[PSibling 1 := self (PSibling 1); PSibling 2 := self (PSibling 2)]}) by reflexivity.
  unfold single, ring. rewrite Hlh. intros [->| ->]; (split_and!; [apply NoDup_singleton|intros x ->%list_elem_of_singleton; by eexists|by split_and!]).
Qed.

