(* ===== verification/Fd.v ===== *)
(** * kernel/syscall.c: arguments and dispatch of system calls

    A system call finds its arguments in the registers a0 to a5 of the trap
    frame of the thread, its number in a7, and leaves its result in a0.  The
    table of system calls is generated by the build and is a parameter. *)
From S2P Require Import Prelude Mem CString KTypes Kalloc Vm ListHead KState Queue Sched Signal Thread ThreadInv ProcBase Pipe File.
Definition TF_A7 : Z := 168.

(** The n-th argument; the registers follow each other in struct trapframe. *)
Definition argraw (n : Z) : E kstate Z :=
  t ← mythread;
  if (0 <=? n) && (n <=? 5) then tf_get t (TF_A0 + 8 * n) else panic "argraw".

Definition argint (n : Z) : E kstate Z := x ← argraw n; mret (i32 x).
Definition arglong (n : Z) : E kstate Z := x ← argraw n; mret (i64 x).
Definition argulong (n : Z) : E kstate Z := argraw n.
Definition arguint32 (n : Z) : E kstate Z := x ← argraw n; mret (u32 x).
Definition arguint64 (n : Z) : E kstate Z := argraw n.
Definition argaddr (n : Z) : E kstate Z := argraw n.

(** [ip] is the address of the object the word is stored in. *)
Definition fetchaddr (addr ip : Z) : E kstate Z :=
  p ← myproc;
  r ← get_proc p;
  if (psz r <=? addr) || (psz r <? u64 (addr + 8)) then mret (-1)
  else
    e ← on_mach (copyin (pagetable r) ip addr 8);
    mret (if e =? 0 then 0 else -1).

(** strlen stops at the NUL copyinstr has written within [max] bytes. *)
Definition fetchstr (addr buf max : Z) : E kstate Z :=
  p ← myproc;
  pt ← gets (fun s => pagetable (procs s p));
  e ← on_mach (copyinstr pt buf addr max);
  if e <? 0 then mret (-1)
  else
    m ← gets (fun s => mmem (km s));
    match strlen (Z.to_nat max) m buf with
    | Some n => mret n
    | None => nofuel
    end.

Definition argstr (n buf max : Z) : E kstate Z := addr ← argaddr n; fetchstr addr buf max.

Section Dispatch.
(** The table of system calls and the number of its entries. *)
Context (syscalls : Z -> option (E kstate Z)) (nsyscalls : Z).

Definition syscall : E kstate unit :=
  t ← mythread;
  a7 ← tf_get t TF_A7;
  let num := i32 a7 in
  match (if (0 <? num) && (num <? nsyscalls) then syscalls num else None) with
  | Some f => r ← f; tf_set t TF_A0 (u64 r)
  | None => tf_set t TF_A0 (u64 (-1))
  end.
End Dispatch.

(** * kernel/fs/sysfile.c, fcntl.c, ioctl.c: file descriptors

    The descriptors of a process are the entries of its table [ofile]; each
    holds a reference on an open file of [File], and [ofile_cnt] counts the
    descriptors in use.  The system calls here duplicate, close, read and write
    descriptors and make pipes.  The result of a system call is the value before
    [Fd.syscall] converts it to uint64. *)

Definition EINVAL : Z := 22.
Definition EMFILE : Z := 24.
Definition O_CLOEXEC : Z := 0x80000.
Definition F_DUPFD : Z := 0.
Definition F_GETFD : Z := 1.
Definition F_SETFD : Z := 2.
Definition F_GETFL : Z := 3.
Definition F_SETFL : Z := 4.
Definition F_DUPFD_CLOEXEC : Z := 1030.

(** p->ofile[fd] and its assignment, for an [fd] in range. *)
Definition get_ofile (p : nat) (fd : Z) : E kstate (option nat) :=
  r ← get_proc p;
  match ofile r !! Z.to_nat fd with Some x => mret x | None => fault end.
Definition set_fd (p : nat) (fd : Z) (v : option nat) : E kstate unit :=
  upd_proc p (fun r => set_ofile (<[Z.to_nat fd := v]> (ofile r)) r).
Definition ofile_inc (p : nat) : E kstate unit :=
  upd_proc p (fun r => set_ofile_cnt (i32 (ofile_cnt r + 1)) r).

(** The descriptor and its file; None for -1. *)
Definition argfd (n : Z) : E kstate (option (Z * nat)) :=
  fd ← argint n;
  if (fd <? 0) || (NOFILE <=? fd) then mret None
  else
    p ← myproc;
    f ← get_ofile p fd;
    mret (pair fd <$> f).

(** for (; fd < NOFILE; fd++) if (p->ofile[fd] == 0) {...} *)
Definition fd_take (p f : nat) (from : Z) : E kstate (option Z) :=
  for_table (R := Z) (Z.to_nat (NOFILE - from)) (Z.to_nat from) (fun i =>
    let fd := Z.of_nat i in
    x ← get_ofile p fd;
    match x with
    | Some _ => mret None
    | None => set_fd p fd (Some f);; ofile_inc p;; mret (Some fd)
    end).

Definition fdalloc (f : nat) : E kstate Z :=
  p ← myproc;
  exc ← gets (is_exc_rcfile p);
  if (exc : bool) then mret (- EMFILE)
  else
    r ← fd_take p f 0;
    mret (default (- EMFILE) r).

(** ** fcntl.c *)

Definition getfd (f : nat) : E kstate Z :=
  p ← myproc;
  r ← for_table (R := Z) (Z.to_nat NOFILE) 0 (fun i =>
        x ← get_ofile p (Z.of_nat i);
        mret (if bool_decide (x = Some f) then Some (Z.of_nat i) else None));
  mret (default (-1) r).

Definition setfd (f : nat) (fd : Z) : E kstate Z :=
  p ← myproc;
  if (fd <? 0) || (NOFILE <=? fd) then mret (-1)
  else
    x ← get_ofile p fd;
    match x with
    | Some _ => mret (-1)
    | None => set_fd p fd (Some f);; mret 0
    end.

Definition fdalloc_lteq (f : nat) (dmd : Z) : E kstate Z :=
  p ← myproc;
  if (dmd <? 0) || (NOFILE <=? dmd) then mret (-1)
  else
    exc ← gets (is_exc_rcfile p);
    if (exc : bool) then mret (- EMFILE)
    else
      r ← fd_take p f dmd;
      mret (default (-1) r).

Definition do_fcntl (f : nat) (cmd arg : Z) : E kstate Z :=
  if (cmd =? F_DUPFD) || (cmd =? F_DUPFD_CLOEXEC) then
    ret ← fdalloc_lteq f (i32 arg);
    if ret <? 0 then mret ret else filedup f;; mret ret
  else if cmd =? F_GETFD then getfd f
  else if cmd =? F_SETFD then
    r ← setfd f (i32 arg);
    mret (if r <? 0 then -1 else 0)
  else if cmd =? F_GETFL then x ← get_file f; mret (fflags x)
  else if cmd =? F_SETFL then upd_file f (set_fflags (i32 arg));; mret 0
  else mret (-1).

Definition sys_fcntl : E kstate Z :=
  a ← argfd 0;
  match a with
  | None => mret (-1)
  | Some (_, f) => cmd ← argint 1; arg ← arguint64 2; do_fcntl f cmd arg
  end.

(** ** ioctl.c *)

Definition TCGETS : Z := 0x5401.
Definition TCSETS : Z := 0x5402.
Definition TIOCGWINSZ : Z := 0x5413.

Section Ioctl.
(** The addresses of kernel_termios and kernel_winsize and their sizes. *)
Context (termios winsize termios_size winsize_size : Z).

Definition do_ioctl (op arg : Z) : E kstate Z :=
  if op =? TCGETS then
    if arg =? 0 then mret (-1)
    else pt ← my_pagetable; r ← on_mach (copyout pt arg termios termios_size); mret (if r <? 0 then -1 else 1)
  else if op =? TCSETS then
    if arg =? 0 then mret (-1)
    else pt ← my_pagetable; r ← on_mach (copyin pt termios arg termios_size); mret (if r <? 0 then -1 else 0)
  else if op =? TIOCGWINSZ then
    if arg =? 0 then mret (-1)
    else pt ← my_pagetable; r ← on_mach (copyout pt arg winsize winsize_size); mret (if r <? 0 then -1 else 0)
  else mret (-1).

Definition sys_ioctl : E kstate Z :=
  a ← argfd 0;
  match a with
  | None => mret (-1)
  | Some _ => op ← argulong 1; arg ← arguint64 2; do_ioctl op arg
  end.
End Ioctl.

Section Descriptors.
(** As in [File]; [kbuf] is the address of a local the code copies to or from
    user space, [fuel] bounds a blocking read or write of a pipe. *)
Context (kend : Z) (swtch : nat -> E kstate unit) (ch kbuf : Z).
Context (ext4 : option fs_ops).
Context (dev_read dev_write : Z -> option (bool -> Z -> Z -> E kstate Z)).
Context (fuel : nat).
Abbreviation fileclose := (fileclose kend ext4).
Abbreviation fileread := (fileread swtch ch ext4 dev_read fuel).
Abbreviation filewrite := (filewrite swtch ch ext4 dev_write fuel).

Definition fdalloc_spec (f : nat) (spec_fd : Z) : E kstate Z :=
  p ← myproc;
  if (spec_fd <? 0) || (NOFILE <=? spec_fd) then mret (-1)
  else
    x ← get_ofile p spec_fd;
    match x with
    | Some g => fileclose g true;; set_fd p spec_fd None
    | None => mret tt
    end;;
    set_fd p spec_fd (Some f);;
    ofile_inc p;;
    mret spec_fd.

Definition sys_dup : E kstate Z :=
  a ← argfd 0;
  match a with
  | None => mret (-1)
  | Some (_, f) =>
    fd ← fdalloc f;
    if fd <? 0 then mret fd else filedup f;; mret fd
  end.

(** The flag is one of the open file, which both descriptors share. *)
Definition sys_dup3 : E kstate Z :=
  a ← argfd 0;
  match a with
  | None => mret (-1)
  | Some (oldfd, f) =>
    newfd ← argint 1;
    flags ← argint 2;
    if (oldfd <? 0) || (NOFILE <=? oldfd) || (newfd <? 0) || (NOFILE <=? newfd) then mret (-1)
    else if newfd =? oldfd then mret (- EINVAL)
    else
      ret ← fdalloc_spec f newfd;
      if ret <? 0 then mret ret
      else
        upd_file f (fun x => set_fflags (if has_bits flags O_CLOEXEC then Z.lor (fflags x) O_CLOEXEC
                                         else Z.land (fflags x) (Z.lnot O_CLOEXEC)) x);;
        filedup f;;
        mret newfd
  end.

Definition sys_close : E kstate Z :=
  a ← argfd 0;
  match a with
  | None => mret (-1)
  | Some (fd, f) =>
    p ← myproc;
    set_fd p fd None;;
    fileclose f true;;
    mret 0
  end.

(** f->fpos, passed as an int64_t. *)
Definition file_off (f : nat) : E kstate Z := x ← get_file f; mret (i64 (fpos x)).

Definition sys_read : E kstate Z :=
  p ← argaddr 1;
  n ← argulong 2;
  a ← argfd 0;
  match a with
  | None => mret (-1)
  | Some (_, f) => off ← file_off f; fileread f true p n off
  end.

Definition sys_write : E kstate Z :=
  p ← argaddr 1;
  n ← argint 2;
  a ← argfd 0;
  match a with
  | None => mret (-1)
  | Some (_, f) => off ← file_off f; filewrite f true p (u64 n) off
  end.

(** ** Vectors of buffers *)

Definition IOVEC : Z := 16.
Definition load_word (a : Z) : E kstate Z := gets (fun s => load64 (mmem (km s)) a).

(** The loops of generic_readv and generic_writev: entry [i] after the pointer
    [kvec], which also moves on with every entry that is used; [rw] transfers
    one buffer, [add] adds up.  None for goto bad. *)
Fixpoint vec_loop (n : nat) (rw : Z -> Z -> E kstate Z) (add : Z -> Z -> Z) (kvec i cnt : Z) : E kstate (option Z) :=
  match n with
  | O => mret (Some cnt)
  | S n =>
    len ← load_word (kvec + IOVEC * i + 8);
    base ← load_word (kvec + IOVEC * i);
    if (len =? 0) || (base =? 0) then vec_loop n rw add kvec (i + 1) cnt
    else
      r ← rw base len;
      if r <? 0 then mret None else vec_loop n rw add (kvec + IOVEC) (i + 1) (add cnt r)
  end.

Definition generic_readv (f : nat) (iov iovcnt : Z) : E kstate Z :=
  kvecs ← on_mach (kmalloc (u32 (IOVEC * iovcnt)));
  if kvecs =? 0 then mret (-1)
  else
    e ← either_copyin kvecs true iov (u64 (IOVEC * iovcnt));
    if e <? 0 then on_mach (kfree kend kvecs);; mret (-1)
    else
      r ← vec_loop (Z.to_nat iovcnt) (fun base len => off ← file_off f; r ← fileread f true base len off; mret (i32 r))
            (fun c r => i32 (c + r)) kvecs 0 0;
      on_mach (kfree kend kvecs);;
      mret (default (-1) r).

Definition sys_readv : E kstate Z :=
  iov ← argaddr 1;
  iovcnt ← argint 2;
  a ← argfd 0;
  match a with
  | None => mret (-1)
  | Some (_, f) => r ← generic_readv f iov iovcnt; mret (if r <? 0 then -1 else r)
  end.

(** f->fops->writev: the result and the count it stores; None when there is no
    such operation. *)
Context (fop_writev : option (nat -> bool -> Z -> Z -> E kstate (Z * Z))).
Definition EOK : Z := 0.

Definition generic_writev (f : nat) (iov iovcnt : Z) : E kstate Z :=
  kvecs ← on_mach (kmalloc (u32 (iovcnt * IOVEC)));
  if kvecs =? 0 then mret (-1)
  else
    e ← either_copyin kvecs true iov (u64 (iovcnt * IOVEC));
    x ← get_file f;
    r ← (if e <? 0 then mret None
         else match ftype x with
              | FD_DIR => mret None
              | FD_DEVICE | FD_PIPE =>
                vec_loop (Z.to_nat iovcnt) (fun base len => off ← file_off f; filewrite f true base len off)
                  (fun c r => u64 (c + r)) kvecs 0 0
              | _ =>
                match fop_writev with
                | None => mret None
                | Some writev =>
                  w ← writev f true kvecs iovcnt;
                  mret (if w.1 =? EOK then Some w.2 else None)
                end
              end);
    on_mach (kfree kend kvecs);;
    mret (default (-1) ((fun c => i32 c) <$> r)).

Definition sys_writev : E kstate Z :=
  iov ← argaddr 1;
  iovcnt ← argint 2;
  a ← argfd 0;
  match a with
  | None => mret (-1)
  | Some (_, f) => r ← generic_writev f iov iovcnt; mret (if r <? 0 then -1 else r)
  end.

(** ** Pipes *)

(** [fd1_0] is what the local fd1 holds before it is assigned. *)
Definition sys_pipe (fd1_0 : Z) : E kstate Z :=
  p ← myproc;
  fdarray ← argaddr 0;
  a ← pipealloc kend ext4;
  let '(r, rf, wf) := a in
  if r <? 0 then mret (-1)
  else
    rf ← deref rf;
    wf ← deref wf;
    fd0 ← fdalloc rf;
    fd1 ← (if fd0 <? 0 then mret fd1_0 else fdalloc wf);
    if (fd0 <? 0) || (fd1 <? 0) then
      (if 0 <=? fd0 then set_fd p fd0 None else mret tt);;
      fileclose rf (0 <=? fd0);;
      fileclose wf (0 <=? fd1);;
      mret (-1)
    else
      pt ← gets (fun s => pagetable (procs s p));
      e0 ← copyout_int kbuf pt fdarray fd0 4;
      e1 ← (if e0 <? 0 then mret 0 else copyout_int kbuf pt (u64 (fdarray + 4)) fd1 4);
      if (e0 <? 0) || (e1 <? 0) then
        set_fd p fd0 None;;
        set_fd p fd1 None;;
        fileclose rf true;;
        fileclose wf true;;
        mret (-1)
      else mret 0.
End Descriptors.
