(* ===== verification/FileCopy.v ===== *)
(** * kernel/fs/sysfile.c: copying between open files

    sendfile, splice and copy_file_range move data from one open file to another
    through a page of the kernel, at most a page at a time; lseek, ftruncate and
    pread64 set the position. *)
From S2P Require Import Prelude Mem CString KTypes Kalloc Vm ListHead KState Queue Sched Signal Thread ThreadInv ProcBase Pipe File Fd.

Definition SEEK_SET : Z := 0.

Section Copying.
(** As in [Fd]; fops->lseek and fops->ftruncate of the file system, and the field
    fsize of the ext4_file behind an open file. *)
Context (kend : Z) (swtch : nat -> E kstate unit) (ch kbuf : Z).
Context (ext4 : option fs_ops).
Context (dev_read dev_write : Z -> option (bool -> Z -> Z -> E kstate Z)).
Context (fuel : nat).
Context (fop_lseek : option (nat -> Z -> Z -> E kstate Z)) (fop_ftruncate : nat -> Z -> E kstate Z) (fsize : nat -> E kstate Z).
Abbreviation fileread := (fileread swtch ch ext4 dev_read fuel).
Abbreviation filewrite := (filewrite swtch ch ext4 dev_write fuel).

(** One of the three loops: [roff i] and [woff i] are the offsets read from and
    written to in the turn at [i], an integer of [w] bits; [clear] empties the
    buffer first. *)
Fixpoint rw_loop (w : Z) (n : nat) (out_f in_f : nat) (buf : Z) (roff woff : Z -> E kstate Z) (clear : bool) (count i r : Z) : E kstate Z :=
  if u64 i <? count then
    match n with
    | O => nofuel
    | S n =>
      (if clear then on_mach (upd_mem (fun m => memset m buf 0 PGSIZE)) else mret tt);;
      let len := if PGSIZE <? u64 (count - i) then PGSIZE else i32 (count - i) in
      off ← roff i;
      rcnt ← fileread in_f false buf (u64 len) off;
      let rcnt := i32 rcnt in
      if rcnt <? 0 then mret (-1)
      else if rcnt =? 0 then mret r
      else
        off ← woff i;
        wcnt ← filewrite out_f false buf (u64 rcnt) off;
        if wcnt <? 0 then mret (-1)
        else if negb (wcnt =? rcnt) then mret (-1)
        else if wcnt <? len then mret (i32 (r + wcnt))
        else rw_loop w n out_f in_f buf roff woff clear count (sint w (i + PGSIZE)) (i32 (r + wcnt))
    end
  else mret r.

(** As many turns as [count] has pages. *)
Definition turns (count : Z) : nat := Z.to_nat (count / PGSIZE + 1).

Definition rw_sharp (out_f in_f : nat) (buf in_off count : Z) : E kstate Z :=
  rw_loop 32 (turns count) out_f in_f buf (fun i => mret (i64 (in_off + i))) (fun _ => file_off out_f) false count 0 0.

Definition rw_sharp_outoff (out_f in_f : nat) (buf out_off count : Z) : E kstate Z :=
  rw_loop 32 (turns count) out_f in_f buf (fun _ => file_off in_f) (fun i => mret (i64 (out_off + i))) false count 0 0.

(** Here [i] is an int64_t. *)
Definition rw_sharp_2off (out_f in_f : nat) (buf in_off out_off count : Z) : E kstate Z :=
  rw_loop 64 (turns count) out_f in_f buf (fun i => mret (i64 (in_off + i))) (fun i => mret (i64 (out_off + i))) true count 0 0.

(** copyin of an off_t into the local at [kbuf], and copyout of its new value. *)
Definition get_offset (addr : Z) : E kstate (option Z) :=
  pt ← my_pagetable;
  e ← on_mach (copyin pt kbuf addr 8);
  if e <? 0 then mret None
  else v ← load_word kbuf; mret (Some (i64 v)).
Definition put_offset (addr off : Z) : E kstate Z := pt ← my_pagetable; copyout_int kbuf pt addr off 8.

Definition set_pos (f : nat) (off : Z) : E kstate unit := upd_file f (set_fpos (u64 off)).
Definition free_buf (buf : Z) : E kstate unit := if buf =? 0 then mret tt else on_mach (kfree kend buf).

(** From the label finished on. *)
Definition sendfile_finish (in_f : nat) (offset_addr buf offset nwritten : Z) : E kstate Z :=
  e ← (if offset_addr =? 0 then mret 0 else put_offset offset_addr offset);
  if e <? 0 then free_buf buf;; mret (-1)
  else set_pos in_f offset;; on_mach (kfree kend buf);; mret (i32 nwritten).

Definition do_sendfile (out_f in_f : nat) (offset_addr count : Z) : E kstate Z :=
  o ← (if offset_addr =? 0 then off ← file_off in_f; mret (Some off) else get_offset offset_addr);
  match o with
  | None => mret (-1)
  | Some offset =>
    buf ← on_mach kalloc;
    if buf =? 0 then mret (-1)
    else if PGSIZE <? count then
      nwritten ← rw_sharp out_f in_f buf offset count;
      sendfile_finish in_f offset_addr buf (i64 (offset + nwritten)) nwritten
    else
      off ← file_off in_f;
      nread ← fileread in_f false buf count off;
      let nread := i64 nread in
      if nread <? 0 then free_buf buf;; mret (-1)
      else
        let offset := i64 (offset + nread) in
        x ← get_file in_f;
        if negb (u64 offset =? fpos x) then free_buf buf;; mret (-1)
        else
          off ← file_off out_f;
          nwritten ← filewrite out_f false buf (u64 nread) off;
          if nwritten <? 0 then free_buf buf;; mret (-1)
          else if negb (nwritten =? nread) then free_buf buf;; mret (-1)
          else sendfile_finish in_f offset_addr buf offset nwritten
  end.

Definition sys_sendfile : E kstate Z :=
  a ← argfd 0;
  match a with
  | None => mret (-1)
  | Some (_, out_f) =>
    b ← argfd 1;
    match b with
    | None => mret (-1)
    | Some (_, in_f) => offset_addr ← argaddr 2; count ← arguint64 3; do_sendfile out_f in_f offset_addr count
    end
  end.

(** The result of the loop, an int, becomes a size_t. *)
Definition do_splice (in_f out_f : nat) (off_addr len : Z) (inis_pipe : bool) : E kstate Z :=
  o ← (if off_addr =? 0 then mret None else get_offset off_addr);
  match o with
  | None => mret (-1)
  | Some offset =>
    if offset <? 0 then mret (-1)
    else
      buf ← on_mach kalloc;
      if buf =? 0 then mret (-1)
      else
        r ← (if inis_pipe then rw_sharp_outoff out_f in_f buf offset len else rw_sharp out_f in_f buf offset len);
        let nwritten := u64 r in
        let offset := i64 (offset + nwritten) in
        e ← put_offset off_addr offset;
        if e <? 0 then free_buf buf;; mret (-1)
        else
          set_pos (if inis_pipe then out_f else in_f) offset;;
          e ← put_offset off_addr offset;
          free_buf buf;;
          mret (if e <? 0 then -1 else nwritten)
  end.

Definition sys_splice : E kstate Z :=
  a ← argfd 0;
  match a with
  | None => mret (-1)
  | Some (_, in_f) =>
    b ← argfd 2;
    match b with
    | None => mret (-1)
    | Some (_, out_f) =>
      x ← get_file in_f;
      let is_pipe := bool_decide (ftype x = FD_PIPE) in
      addr ← argaddr (if is_pipe then 3 else 1);
      len ← argulong 4;
      r ← do_splice in_f out_f addr len is_pipe;
      mret (i32 r)
    end
  end.

(** fops->lseek, called through the pointer. *)
Definition lseek (f : nat) (off whence : Z) : E kstate Z := op ← deref fop_lseek; op f off whence.

Definition do_copy_file_range (in_f out_f : nat) (offin_addr offout_addr len : Z) : E kstate Z :=
  oroffin ← file_off in_f;
  oroffout ← file_off out_f;
  i ← (if offin_addr =? 0 then mret (Some oroffin) else get_offset offin_addr);
  match i with
  | None => mret (-1)
  | Some offset_in =>
    o ← (if offout_addr =? 0 then mret (Some oroffout) else get_offset offout_addr);
    match o with
    | None => mret (-1)
    | Some offset_out =>
      sz ← fsize in_f;
      if sz <? u64 offset_in then mret 0
      else
        buf ← on_mach kalloc;
        if buf =? 0 then mret (-1)
        else
          r ← rw_sharp_2off out_f in_f buf offset_in offset_out len;
          let nwritten := u64 r in
          e ← (if offin_addr =? 0 then mret 0 else put_offset offin_addr (i64 (offset_in + nwritten)));
          if e <? 0 then free_buf buf;; mret (-1)
          else
            e ← (if offout_addr =? 0 then mret 0 else put_offset offout_addr (i64 (offset_out + nwritten)));
            if e <? 0 then free_buf buf;; mret (-1)
            else
              on_mach (kfree kend buf);;
              (if offin_addr =? 0 then mret 0 else lseek in_f oroffin SEEK_SET);;
              (if offout_addr =? 0 then mret 0 else lseek out_f oroffout SEEK_SET);;
              mret nwritten
    end
  end.

Definition sys_copy_file_range : E kstate Z :=
  a ← argfd 0;
  match a with
  | None => mret (-1)
  | Some (_, in_f) =>
    offin_addr ← argaddr 1;
    b ← argfd 2;
    match b with
    | None => mret (-1)
    | Some (_, out_f) =>
      offout_addr ← argaddr 3; len ← argulong 4; do_copy_file_range in_f out_f offin_addr offout_addr len
    end
  end.

(** ** Positions *)

Definition sys_lseek : E kstate Z :=
  a ← argfd 0;
  match a with
  | None => mret (-1)
  | Some (_, f) =>
    offset ← arglong 1;
    whence ← argint 2;
    x ← get_file f;
    if bool_decide (ftype x <> FD_INODE) then mret (-1)
    else match fop_lseek with None => mret (-1) | Some op => op f offset whence end
  end.

(** A descriptor that is not open leaves f at NULL. *)
Definition sys_ftruncate : E kstate Z :=
  a ← argfd 0;
  length ← arglong 1;
  match a with
  | None => mret (-1)
  | Some (_, f) =>
    x ← get_file f;
    if bool_decide (ftype x <> FD_INODE) then mret (-1)
    else r ← fop_ftruncate f length; mret (- r)
  end.

Definition sys_pread64 : E kstate Z :=
  a ← argfd 0;
  match a with
  | None => mret (-1)
  | Some (_, f) =>
    buf ← argaddr 1;
    count ← argulong 2;
    offset ← arglong 3;
    oroff ← file_off f;
    r ← fileread f true buf count offset;
    e ← lseek f oroff SEEK_SET;
    mret (if e <? 0 then -1 else r)
  end.
End Copying.
