(* ===== verification/FdSpec.v ===== *)
(** * File descriptors as a table

    The descriptors of a process are a list of optional open files.  dup, dup3,
    F_DUPFD and close are shown to be operations on this list, with every
    reference accounted for.  What the system calls need from the table of open
    files is the interface [FileLayer]. *)
From S2P Require Import Prelude Mem CString KTypes Kalloc Vm ListHead KState Queue Sched Signal Thread ThreadInv SchedSpec ProcBase Pipe File Fd.

(** ** Counting the entries of a table *)

Abbreviation fdtable := (list (option nat)).

Fixpoint tally (P : option nat -> bool) (T : fdtable) : Z :=
  match T with [] => 0 | x :: T => Z.b2z (P x) + tally P T end.

(** The descriptors in use, and those that refer to [f]. *)
Definition used : fdtable -> Z := tally (fun x => bool_decide (x <> None)).
Definition occ (f : nat) : fdtable -> Z := tally (fun x => bool_decide (x = Some f)).

Lemma tally_bounds P T : 0 <= tally P T <= Z.of_nat (length T).
Proof. induction T as [|x T IH]; cbn [tally length]; [lia|]. destruct (P x); cbn [Z.b2z]; lia. Qed.

Lemma tally_insert P T k o v : T !! k = Some o -> tally P (<[k := v]> T) = tally P T - Z.b2z (P o) + Z.b2z (P v).
Proof.
  revert k. induction T as [|x T IH]; intros [|k] Hk; [done|done| |].
  - injection Hk as ->. change (<[0%nat := v]> (o :: T)) with (v :: T). cbn [tally]. lia.
  - change (<[S k := v]> (x :: T)) with (x :: <[k := v]> T). cbn [tally]. rewrite (IH k Hk). lia.
Qed.

Lemma occ_pos f T k : T !! k = Some (Some f) -> 1 <= occ f T.
Proof.
  intros Hk. pose proof (tally_insert (fun x => bool_decide (x = Some f)) T k _ None Hk) as H.
  cbn beta in H. rewrite bool_decide_true, bool_decide_false in H by done. cbn [Z.b2z] in H.
  pose proof (tally_bounds (fun x => bool_decide (x = Some f)) (<[k := None]> T)). unfold occ. lia.
Qed.

Lemma used_pos f T k : T !! k = Some (Some f) -> 1 <= used T.
Proof.
  intros Hk. pose proof (tally_insert (fun x => bool_decide (x <> None)) T k _ None Hk) as H.
  cbn beta in H. rewrite bool_decide_true, bool_decide_false in H by (congruence || tauto). cbn [Z.b2z] in H.
  pose proof (tally_bounds (fun x => bool_decide (x <> None)) (<[k := None]> T)). unfold used. lia.
Qed.

Lemma used_full T k : T !! k = Some None -> used T < Z.of_nat (length T).
Proof.
  intros Hk. pose proof (tally_insert (fun x => bool_decide (x <> None)) T k _ (Some 0%nat) Hk) as H.
  cbn beta in H. rewrite bool_decide_false, bool_decide_true in H by (congruence || tauto). cbn [Z.b2z] in H.
  pose proof (tally_bounds (fun x => bool_decide (x <> None)) (<[k := Some 0%nat]> T)) as Hb. rewrite length_insert in Hb. unfold used. lia.
Qed.

(** ** The calls on the table alone *)

Inductive fd_call :=
  | Dup (fd : Z)
  | Dup3 (oldfd newfd flags : Z)
  | Dupfd (cmd fd min : Z)
  | Close (fd : Z).

Definition in_range (fd : Z) : bool := (0 <=? fd) && (fd <? NOFILE).

(** The open file of a descriptor. *)
Definition fd_file (T : fdtable) (fd : Z) : option nat :=
  if in_range fd then match T !! Z.to_nat fd with Some x => x | None => None end else None.

(** The first free descriptor from [k] on. *)
Fixpoint first_free (T : fdtable) (k : nat) : option nat :=
  match T with
  | [] => None
  | x :: T => match k, x with
              | O, None => Some O
              | O, Some _ => S <$> first_free T O
              | S k, _ => S <$> first_free T k
              end
  end.

(** A new descriptor for [f]; [lim] is the limit on open files. *)
Definition take_fd (lim : Z) (T : fdtable) (f : nat) (from : Z) (none : Z) : Z * fdtable :=
  if (lim <=? used T) || (NOFILE <=? used T) then (- EMFILE, T)
  else match first_free T (Z.to_nat from) with
       | Some k => (Z.of_nat k, <[k := Some f]> T)
       | None => (none, T)
       end.

Definition fd_spec (lim : Z) (c : fd_call) (T : fdtable) : Z * fdtable :=
  match c with
  | Dup fd => match fd_file T fd with None => (-1, T) | Some f => take_fd lim T f 0 (- EMFILE) end
  | Dup3 oldfd newfd _ =>
    match fd_file T oldfd with
    | None => (-1, T)
    | Some f =>
      if negb (in_range newfd) then (-1, T)
      else if newfd =? oldfd then (- EINVAL, T)
      else (newfd, <[Z.to_nat newfd := Some f]> T)
    end
  | Dupfd _ fd min =>
    match fd_file T fd with
    | None => (-1, T)
    | Some f => if in_range min then take_fd lim T f min (-1) else (-1, T)
    end
  | Close fd => match fd_file T fd with None => (-1, T) | Some f => (0, <[Z.to_nat fd := None]> T) end
  end.

(** The registers of the caller hold the arguments. *)
Definition arg_word (s : kstate) (n v : Z) : Prop :=
  exists t, cur s = Some t /\ trapframe (tcbs s t) <> 0 /\ load64 (mmem (km s)) (trapframe (tcbs s t) + (TF_A0 + 8 * n)) = v.
Definition int_arg (s : kstate) (n v : Z) : Prop := exists w, arg_word s n w /\ i32 w = v.

Definition fd_args (s : kstate) (c : fd_call) : Prop :=
  match c with
  | Dup fd => int_arg s 0 fd
  | Dup3 oldfd newfd flags => int_arg s 0 oldfd /\ int_arg s 1 newfd /\ int_arg s 2 flags
  | Dupfd cmd fd min => int_arg s 0 fd /\ int_arg s 1 cmd /\ int_arg s 2 min /\ (cmd = F_DUPFD \/ cmd = F_DUPFD_CLOEXEC)
  | Close fd => int_arg s 0 fd
  end.

Lemma wp_argint n v (Q : Z -> kstate -> Prop) s : 0 <= n <= 5 -> int_arg s n v -> Q v s -> wp (argint n) Q s.
Proof.
  intros Hn (w & (t & Hc & Ht & Hw) & <-) HQ. unfold argint, argraw, mythread. apply wp_bind, wp_bind, wp_bind, wp_gets. rewrite Hc.
  eapply wp_deref; [done|]. rewrite (proj2 (andb_true_iff _ _)) by (split; apply Z.leb_le; lia).
  unfold tf_get. apply wp_bind, wp_gets. rewrite (proj2 (Z.eqb_neq _ _) Ht). apply wp_gets, wp_ret. by rewrite Hw.
Qed.

Lemma wp_arguint64 n v (Q : Z -> kstate -> Prop) s : 0 <= n <= 5 -> arg_word s n v -> Q v s -> wp (arguint64 n) Q s.
Proof.
  intros Hn (t & Hc & Ht & Hw) HQ. unfold arguint64, argraw, mythread. apply wp_bind, wp_bind, wp_gets. rewrite Hc.
  eapply wp_deref; [done|]. rewrite (proj2 (andb_true_iff _ _)) by (split; apply Z.leb_le; lia).
  unfold tf_get. apply wp_bind, wp_gets. rewrite (proj2 (Z.eqb_neq _ _) Ht). apply wp_gets. by rewrite Hw.
Qed.

(** ** The interface of the table of open files *)

(** What closing a descriptor's file does to the rest. *)
Record closed (p f : nat) (s s' : kstate) : Prop := {
  cl_run : runs_in s' p;
  cl_other : forall j, j <> f -> fref (files s' j) = fref (files s j);
  cl_ref : fref (files s' f) = fref (files s f) - 1;
  cl_ofile : ofile (procs s' p) = ofile (procs s p);
  cl_cnt : ofile_cnt (procs s' p) = ofile_cnt (procs s p) - 1;
  cl_rlim : rlim (procs s' p) = rlim (procs s p);
}.

(** The same open file with more references, or another close-on-exec flag. *)
Definition same_file (x y : file) : Prop :=
  ftype y = ftype x /\ fpipe y = fpipe x /\ fprivate y = fprivate x /\ Z.land (fflags y) O_ACCMODE = Z.land (fflags x) O_ACCMODE.

(** [J]: the open files are consistent and no lock is held. *)
Class FileLayer (kend : Z) (ext4 : option fs_ops) (J : kstate -> Prop) := {
  fl_quiet : forall s, J s -> held (km s) = [];
  fl_procs : forall s ps, J s -> J (set_procs ps s);
  fl_more : forall s f x, J s -> same_file (files s f) x -> 1 <= fref (files s f) -> 1 <= fref x -> J (set_file f x s);
  fl_close : forall s p f, J s -> runs_in s p -> 1 <= ofile_cnt (procs s p) < 2 ^ 31 -> 1 <= fref (files s f) < 2 ^ 31 ->
    wp (fileclose kend ext4 f true) (fun _ s' => J s' /\ closed p f s s') s;
}.

Section Table.
Context (kend : Z) (ext4 : option fs_ops) (J : kstate -> Prop) {FL : FileLayer kend ext4 J}.
Context (p : nat) (lim : Z).

(** Process [p] runs with the descriptors [T], [c] of which are counted, and the
    file [f] has [rf f] references. *)
Record seen (T : fdtable) (c : Z) (rf : nat -> Z) (s : kstate) : Prop := {
  sn_layer : J s;
  sn_run : runs_in s p;
  sn_table : ofile (procs s p) = T;
  sn_cnt : ofile_cnt (procs s p) = c;
  sn_lim : (rlim (procs s p) RLIMIT_NOFILE).1 = lim;
  sn_refs : forall f, fref (files s f) = rf f;
}.

Lemma seen_ext T c rf rf' s : (forall f, rf f = rf' f) -> seen T c rf s -> seen T c rf' s.
Proof. intros He [H1 H2 H3 H4 H5 H6]. split; try done. intros f. by rewrite H6, He. Qed.

Lemma wp_set_fd T c rf fd v (Q : unit -> kstate -> Prop) s :
  seen T c rf s -> (forall s', seen (<[Z.to_nat fd := v]> T) c rf s' -> Q tt s') -> wp (set_fd p fd v) Q s.
Proof.
  intros [H1 H2 H3 H4 H5 H6] HQ. apply wp_modify, HQ. split; [by apply (fl_procs (FileLayer := FL))|done|..]; cbn [procs set_procs files];
    rewrite ?fn_lookup_insert; cbn [ofile set_ofile ofile_cnt rlim]; congruence || done.
Qed.

Lemma wp_ofile_inc T c rf (Q : unit -> kstate -> Prop) s :
  seen T c rf s -> 0 <= c < 2 ^ 31 - 1 -> (forall s', seen T (c + 1) rf s' -> Q tt s') -> wp (ofile_inc p) Q s.
Proof.
  intros [H1 H2 H3 H4 H5 H6] Hc HQ. apply wp_modify, HQ. split; [by apply (fl_procs (FileLayer := FL))|done|..]; cbn [procs set_procs files];
    rewrite ?fn_lookup_insert; cbn [ofile set_ofile_cnt ofile_cnt rlim]; try (congruence || done). rewrite H4. by rewrite sint_small by lia.
Qed.

(** An update of an open file that keeps what it is open on. *)
Lemma seen_file T c rf f x s :
  seen T c rf s -> same_file (files s f) x -> 1 <= rf f -> 1 <= fref x -> seen T c (<[f := fref x]> rf) (set_file f x s).
Proof.
  intros [H1 H2 H3 H4 H5 H6] Hsame Hr Hx. split; try done.
  - apply (fl_more (FileLayer := FL)); try done. by rewrite H6.
  - intros g. unfold set_file. cbn [files set_files]. destruct (decide (g = f)) as [->|Hne]; [by rewrite !fn_lookup_insert|by rewrite !fn_lookup_insert_ne].
Qed.

Lemma wp_dup_file T c rf f (Q : nat -> kstate -> Prop) s :
  seen T c rf s -> 1 <= rf f < 2 ^ 31 - 1 -> (forall s', seen T c (<[f := rf f + 1]> rf) s' -> Q f s') -> wp (filedup f) Q s.
Proof.
  intros Hs Hr HQ. pose proof (sn_refs _ _ _ _ Hs f) as Hf. eapply wp_mono; [apply wp_filedup|].
  - rewrite (fl_quiet (FileLayer := FL) s (sn_layer _ _ _ _ Hs)). apply not_elem_of_nil.
  - lia.
  - cbn beta. intros ? ? [-> ->]. apply HQ. rewrite Hf, sint_small by lia.
    apply (seen_file T c rf f (set_fref (rf f + 1) (files s f))); [done|done|lia|cbn; lia].
Qed.

Lemma wp_close_file T c rf f (Q : unit -> kstate -> Prop) s :
  seen T c rf s -> 1 <= c < 2 ^ 31 -> 1 <= rf f < 2 ^ 31 ->
  (forall s', seen T (c - 1) (<[f := rf f - 1]> rf) s' -> Q tt s') -> wp (fileclose kend ext4 f true) Q s.
Proof.
  intros [H1 H2 H3 H4 H5 H6] Hc Hr HQ. eapply wp_mono; [apply (fl_close (FileLayer := FL) s p f); [done|done|lia|by rewrite H6]|].
  cbn beta. intros [] s' [HJ [C1 C2 C3 C4 C5 C6]]. apply HQ. split; [done|done|congruence|congruence|congruence|].
  intros g. destruct (decide (g = f)) as [->|Hne]; [by rewrite fn_lookup_insert, C3, H6|by rewrite fn_lookup_insert_ne, C2].
Qed.

Lemma wp_get_ofile T c rf fd o (Q : option nat -> kstate -> Prop) s :
  seen T c rf s -> T !! Z.to_nat fd = Some o -> Q o s -> wp (get_ofile p fd) Q s.
Proof. intros Hs Ho HQ. unfold get_ofile. apply wp_bind, wp_gets. rewrite (sn_table _ _ _ _ Hs), Ho. by apply wp_ret. Qed.

Lemma out_of_range fd : (fd <? 0) || (NOFILE <=? fd) = negb (in_range fd).
Proof. unfold in_range. by rewrite negb_andb, <- Z.ltb_antisym, <- Z.leb_antisym. Qed.

Lemma fd_slot (T : fdtable) fd : length T = Z.to_nat NOFILE -> in_range fd = true -> exists o, T !! Z.to_nat fd = Some o.
Proof.
  intros H Hr. apply lookup_lt_is_Some_2. rewrite H. unfold in_range in Hr. apply andb_true_iff in Hr as [?%Z.leb_le ?%Z.ltb_lt]. unfold NOFILE in *. lia.
Qed.

Lemma fd_file_slot T fd f : fd_file T fd = Some f -> in_range fd = true /\ T !! Z.to_nat fd = Some (Some f).
Proof. unfold fd_file. destruct (in_range fd); [|done]. destruct (T !! Z.to_nat fd) as [[g|]|]; [|done..]. by intros [= ->]. Qed.

Lemma wp_argfd T c rf n fd (Q : option (Z * nat) -> kstate -> Prop) s :
  seen T c rf s -> length T = Z.to_nat NOFILE -> 0 <= n <= 5 -> int_arg s n fd -> Q (pair fd <$> fd_file T fd) s -> wp (argfd n) Q s.
Proof.
  intros Hi Hl Hn Ha HQ. unfold argfd. apply wp_bind. eapply wp_argint; [done..|]. rewrite out_of_range. unfold fd_file in HQ.
  destruct (in_range fd) eqn:Hr; cbn [negb]; [|by apply wp_ret].
  apply wp_bind. eapply wp_myproc; [apply Hi|]. destruct (fd_slot T fd Hl Hr) as (o & Ho). rewrite Ho in HQ.
  apply wp_bind. eapply wp_get_ofile; [done|done|]. by apply wp_ret.
Qed.

(** ** A new descriptor *)

Lemma first_free_some T k n : T !! n = Some None -> (k <= n)%nat ->
  (forall j, (k <= j < n)%nat -> exists g, T !! j = Some (Some g)) -> first_free T k = Some n.
Proof.
  revert k n. induction T as [|x T IH]; intros k n Hn Hk Hj; [done|]. cbn [first_free]. destruct n as [|n].
  - injection Hn as ->. by replace k with 0%nat by lia.
  - destruct k as [|k].
    + destruct (Hj 0%nat) as [g Hg]; [lia|]. injection Hg as Hg. rewrite Hg. rewrite (IH 0%nat n); [done|done|lia|]. intros j Hjn. apply (Hj (S j)). lia.
    + rewrite (IH k n); [done|done|lia|]. intros j Hjn. apply (Hj (S j)). lia.
Qed.

Lemma first_free_none T k : (forall j, (k <= j < length T)%nat -> exists g, T !! j = Some (Some g)) -> first_free T k = None.
Proof.
  revert k. induction T as [|x T IH]; intros k Hj; [done|]. cbn [first_free length] in *. destruct k as [|k].
  - destruct (Hj 0%nat) as [g Hg]; [lia|]. injection Hg as Hg. rewrite Hg. rewrite (IH 0%nat); [done|]. intros j Hjn. apply (Hj (S j)). lia.
  - rewrite (IH k); [done|]. intros j Hjn. apply (Hj (S j)). lia.
Qed.

Lemma first_free_slot T k n : first_free T k = Some n -> T !! n = Some None.
Proof.
  revert k n. induction T as [|x T IH]; intros k n; [done|]. cbn [first_free]. destruct k as [|k]; [destruct x as [g|]|].
  2: by intros [= <-].
  all: intros (m & Hm & ->)%fmap_Some; by apply IH in Hm.
Qed.

Lemma wp_fd_take T c rf f from (Q : option Z -> kstate -> Prop) s :
  seen T c rf s -> length T = Z.to_nat NOFILE -> 0 <= c < 2 ^ 31 - 1 -> 0 <= from <= NOFILE ->
  match first_free T (Z.to_nat from) with
  | Some k => (Z.to_nat from <= k < length T)%nat -> T !! k = Some None -> forall s', seen (<[k := Some f]> T) (c + 1) rf s' -> Q (Some (Z.of_nat k)) s'
  | None => Q None s
  end -> wp (fd_take p f from) Q s.
Proof.
  intros Hs Hl Hc Hf HQ. unfold fd_take.
  apply (wp_for_table (fun k s1 => s1 = s /\ forall j, (Z.to_nat from <= j < k)%nat -> exists g, T !! j = Some (Some g))).
  - intros k s1 Hk [-> Hj]. destruct (lookup_lt_is_Some_2 T k) as [o Ho]; [rewrite Hl; unfold NOFILE in *; lia|].
    apply wp_bind. eapply wp_get_ofile; [done|by rewrite Nat2Z.id|]. destruct o as [g|].
    + apply wp_ret. split; [done|]. intros j Hjk. destruct (decide (j = k)) as [->|]; [by exists g|]. apply Hj. lia.
    + apply wp_bind. eapply wp_set_fd; [done|]. rewrite Nat2Z.id. intros s1 Hs1. apply wp_bind. eapply wp_ofile_inc; [done|done|].
      intros s2 Hs2. apply wp_ret. rewrite (first_free_some T (Z.to_nat from) k) in HQ; [|done|lia|done]. apply HQ; [|done|done].
      pose proof (lookup_lt_Some _ _ _ Ho). lia.
  - intros s1 [-> Hj]. rewrite first_free_none in HQ; [done|]. intros j Hjn. apply Hj. rewrite Hl in Hjn. unfold NOFILE in *. lia.
  - split; [done|]. intros j Hj. lia.
Qed.

Lemma wp_limit T c rf (Q : bool -> kstate -> Prop) s :
  seen T c rf s -> 0 <= c < 2 ^ 31 -> Q ((lim <=? c) || (NOFILE <=? c)) s -> wp (gets (is_exc_rcfile p)) Q s.
Proof.
  intros Hs Hc HQ. apply wp_gets. unfold is_exc_rcfile. rewrite (sn_lim _ _ _ _ Hs), (sn_cnt _ _ _ _ Hs). by rewrite wrap_small by lia.
Qed.

Lemma used_take T k f : T !! k = Some None -> used (<[k := Some f]> T) = used T + 1.
Proof. intros H. unfold used. rewrite (tally_insert _ _ _ _ _ H). cbn beta. rewrite bool_decide_false, bool_decide_true by (congruence || tauto). cbn [Z.b2z]. lia. Qed.
Lemma used_drop T k f : T !! k = Some (Some f) -> used (<[k := None]> T) = used T - 1.
Proof. intros H. unfold used. rewrite (tally_insert _ _ _ _ _ H). cbn beta. rewrite bool_decide_true, bool_decide_false by (congruence || tauto). cbn [Z.b2z]. lia. Qed.

(** The references on [g] when entry [k] goes from [o] to [v]. *)
Lemma occ_insert T k o v g : T !! k = Some o ->
  occ g (<[k := v]> T) = occ g T - (if decide (o = Some g) then 1 else 0) + (if decide (v = Some g) then 1 else 0).
Proof.
  intros H. unfold occ. rewrite (tally_insert _ _ _ _ _ H). cbn beta.
  repeat case_bool_decide; repeat case_decide; cbn [Z.b2z]; done || lia || tauto.
Qed.

Lemma used_range T : length T = Z.to_nat NOFILE -> 0 <= used T <= NOFILE.
Proof. intros H. pose proof (tally_bounds (fun x => bool_decide (x <> None)) T). unfold used, NOFILE in *. rewrite H in *. lia. Qed.
Lemma occ_range g T : length T = Z.to_nat NOFILE -> 0 <= occ g T <= NOFILE.
Proof. intros H. pose proof (tally_bounds (fun x => bool_decide (x = Some g)) T). unfold occ, NOFILE in *. rewrite H in *. lia. Qed.

(** Looking for a free descriptor within the limits. *)
Lemma wp_take T rf f from none (Q : Z -> kstate -> Prop) s :
  seen T (used T) rf s -> length T = Z.to_nat NOFILE -> 0 <= from <= NOFILE ->
  (forall s', let r := take_fd lim T f from none in seen r.2 (used r.2) rf s' -> Q r.1 s') ->
  wp (exc ← gets (is_exc_rcfile p);
      if (exc : bool) then mret (- EMFILE) else r ← fd_take p f from; mret (default none r)) Q s.
Proof.
  intros Hs Hl Hf HQ. pose proof (used_range T Hl). unfold NOFILE in *. apply wp_bind. eapply wp_limit; [done|lia|]. fold NOFILE. cbn zeta in HQ. unfold take_fd in HQ.
  unfold NOFILE in *. destruct (_ || _); [by apply wp_ret, HQ|]. apply wp_bind. eapply wp_fd_take; [done|done|lia|unfold NOFILE; lia|].
  destruct (first_free T (Z.to_nat from)) as [k|]; [|by apply wp_ret, HQ]. intros _ Hk s' Hs'. apply wp_ret, HQ. cbn [snd]. by rewrite used_take.
Qed.

Lemma wp_fdalloc T rf f (Q : Z -> kstate -> Prop) s :
  seen T (used T) rf s -> length T = Z.to_nat NOFILE ->
  (forall s', let r := take_fd lim T f 0 (- EMFILE) in seen r.2 (used r.2) rf s' -> Q r.1 s') -> wp (fdalloc f) Q s.
Proof.
  intros Hs Hl HQ. unfold fdalloc. apply wp_bind. eapply wp_myproc; [apply Hs|]. eapply wp_take; [done|done|unfold NOFILE; lia|exact HQ].
Qed.

Lemma wp_fdalloc_lteq T rf f min (Q : Z -> kstate -> Prop) s :
  seen T (used T) rf s -> length T = Z.to_nat NOFILE ->
  (forall s', let r := if in_range min then take_fd lim T f min (-1) else (-1, T) in seen r.2 (used r.2) rf s' -> Q r.1 s') ->
  wp (fdalloc_lteq f min) Q s.
Proof.
  intros Hs Hl HQ. unfold fdalloc_lteq. apply wp_bind. eapply wp_myproc; [apply Hs|]. rewrite out_of_range.
  destruct (in_range min) eqn:Hr; cbn [negb]; [|by apply wp_ret, HQ].
  eapply wp_take; [done|done| |exact HQ]. unfold in_range in Hr. apply andb_true_iff in Hr as [?%Z.leb_le ?%Z.ltb_lt]. lia.
Qed.

Context (oth : nat -> Z).

(** Every reference on an open file is one of the descriptors, or one of the
    [oth f] from elsewhere. *)
Record fd_inv (T : fdtable) (s : kstate) : Prop := {
  fd_seen : seen T (used T) (fun f => oth f + occ f T) s;
  fd_len : length T = Z.to_nat NOFILE;
  fd_oth : forall f, 0 <= oth f < 2 ^ 30;
}.

(** The reference for the descriptor that was taken. *)
Lemma wp_dup_taken T f k from none (Q : Z -> kstate -> Prop) s :
  let r := take_fd lim T f from none in
  (forall s, fd_inv r.2 s -> Q r.1 s) -> none < 0 -> length T = Z.to_nat NOFILE -> (forall f, 0 <= oth f < 2 ^ 30) ->
  T !! k = Some (Some f) -> seen r.2 (used r.2) (fun g => oth g + occ g T) s ->
  wp (if r.1 <? 0 then mret r.1 else filedup f;; mret r.1) Q s.
Proof.
  cbn zeta. unfold take_fd. intros HQ Hn Hl Ho Hk. pose proof (occ_pos _ _ _ Hk). pose proof (occ_range f T Hl). specialize (Ho f) as Hof. unfold NOFILE in *.
  destruct (_ || _); [intros Hs; apply wp_ret, HQ; by split|].
  destruct (first_free T (Z.to_nat from)) as [n|] eqn:Hff; cbn [fst snd] in *.
  2: { intros Hs. rewrite (proj2 (Z.ltb_lt none 0) Hn). apply wp_ret, HQ. by split. }
  intros Hs. rewrite (proj2 (Z.ltb_ge _ 0)) by lia. apply wp_bind. eapply wp_dup_file; [done|lia|]. intros s' Hs'. apply wp_ret, HQ.
  split; [|by rewrite length_insert|done]. eapply seen_ext; [|exact Hs']. intros g. rewrite (occ_insert _ _ _ _ _ (first_free_slot _ _ _ Hff)).
  destruct (decide (g = f)) as [->|Hne]; [rewrite fn_lookup_insert|rewrite fn_lookup_insert_ne by done].
  - rewrite decide_False, decide_True by done. lia.
  - rewrite !decide_False by congruence. lia.
Qed.

(** A call in the state [s] with the table [T] answers what [r] says. *)
Definition answers (r : Z * fdtable) (v : Z) (s : kstate) : Prop := r.1 = v /\ fd_inv r.2 s.

Lemma wp_sys_dup T fd s : fd_inv T s -> int_arg s 0 fd -> wp sys_dup (answers (fd_spec lim (Dup fd) T)) s.
Proof.
  intros Hi Ha. pose proof Hi as [Hs Hl Ho]. unfold sys_dup. apply wp_bind. eapply wp_argfd; [done|done|lia|done|]. cbn [fd_spec].
  destruct (fd_file T fd) as [f|] eqn:Hf; cbn [fmap option_fmap option_map]; [|by apply wp_ret].
  apply fd_file_slot in Hf as [_ Hk]. apply wp_bind. eapply wp_fdalloc; [done|done|]. intros s' r Hs'.
  eapply wp_dup_taken; [|done|done|done|exact Hk|exact Hs']. by intros s2 H2.
Qed.

Lemma wp_fcntl_dupfd T cmd fd min s : fd_inv T s -> fd_args s (Dupfd cmd fd min) -> wp sys_fcntl (answers (fd_spec lim (Dupfd cmd fd min) T)) s.
Proof.
  intros Hi (Ha & Hc & (w & Hm & <-) & Hcmd). pose proof Hi as [Hs Hl Ho]. unfold sys_fcntl. apply wp_bind. eapply wp_argfd; [done|done|lia|done|]. cbn [fd_spec].
  destruct (fd_file T fd) as [f|] eqn:Hf; cbn [fmap option_fmap option_map]; [|by apply wp_ret].
  apply fd_file_slot in Hf as [_ Hk]. apply wp_bind. eapply wp_argint; [lia|done|]. apply wp_bind. eapply wp_arguint64; [lia|done|].
  unfold do_fcntl. replace ((cmd =? F_DUPFD) || (cmd =? F_DUPFD_CLOEXEC)) with true by by destruct Hcmd as [->| ->].
  apply wp_bind. eapply wp_fdalloc_lteq; [done|done|]. intros s'. cbn zeta. destruct (in_range (i32 w)); intros Hs'; [|by apply wp_ret].
  eapply wp_dup_taken; [|done|done|done|exact Hk|exact Hs']. by intros s2 H2.
Qed.

Lemma wp_sys_close T fd s : fd_inv T s -> int_arg s 0 fd -> wp (sys_close kend ext4) (answers (fd_spec lim (Close fd) T)) s.
Proof.
  intros Hi Ha. pose proof Hi as [Hs Hl Ho]. unfold sys_close. apply wp_bind. eapply wp_argfd; [done|done|lia|done|]. cbn [fd_spec].
  destruct (fd_file T fd) as [f|] eqn:Hf; cbn [fmap option_fmap option_map]; [|by apply wp_ret].
  apply fd_file_slot in Hf as [_ Hk]. pose proof (occ_pos _ _ _ Hk). pose proof (occ_range f T Hl). pose proof (used_pos _ _ _ Hk). pose proof (used_range T Hl).
  specialize (Ho f) as Hof. unfold NOFILE in *.
  apply wp_bind. eapply wp_myproc; [apply Hs|]. apply wp_bind. eapply wp_set_fd; [done|]. intros s1 Hs1.
  apply wp_bind. eapply wp_close_file; [done|lia|lia|]. intros s2 Hs2. apply wp_ret. split; [done|]. cbn [snd].
  split; [|by rewrite length_insert|done]. rewrite (used_drop _ _ _ Hk). eapply seen_ext; [|exact Hs2]. intros g. rewrite (occ_insert _ _ _ _ _ Hk), (decide_False (P := None = Some g)) by done.
  destruct (decide (g = f)) as [->|Hne]; [rewrite fn_lookup_insert, decide_True by done; lia|rewrite fn_lookup_insert_ne, decide_False by congruence; lia].
Qed.

(** Replacing whatever the descriptor [newfd] was open on by [f]. *)
Lemma wp_fdalloc_spec T f fd k (Q : Z -> kstate -> Prop) s :
  fd_inv T s -> in_range fd = true -> T !! k = Some (Some f) -> k <> Z.to_nat fd ->
  (forall s' rf, seen (<[Z.to_nat fd := Some f]> T) (used (<[Z.to_nat fd := Some f]> T)) rf s' -> 1 <= rf f < 2 ^ 31 - 1 ->
     (forall g, rf g = oth g + occ g (<[Z.to_nat fd := Some f]> T) - (if decide (g = f) then 1 else 0)) -> Q fd s') ->
  wp (fdalloc_spec kend ext4 f fd) Q s.
Proof.
  intros [Hs Hl Ho] Hr Hk Hne HQ. unfold fdalloc_spec. apply wp_bind. eapply wp_myproc; [apply Hs|]. rewrite out_of_range, Hr. cbn [negb].
  destruct (fd_slot T fd Hl Hr) as (o & Hto). pose proof (used_range T Hl) as Hu. pose proof (occ_range f T Hl) as Hocc. specialize (Ho f) as Hof. unfold NOFILE in *.
  apply wp_bind. eapply wp_get_ofile; [done|done|]. set (n := Z.to_nat fd) in *.
  assert (Hkn : <[n := Some f]> T !! k = Some (Some f)) by by rewrite list_lookup_insert_ne.
  assert (Hln : length (<[n := Some f]> T) = Z.to_nat NOFILE) by by rewrite length_insert.
  assert (Hnn : <[n := Some f]> T !! n = Some (Some f)) by (apply list_lookup_insert_eq; by eapply lookup_lt_Some).
  pose proof (occ_range f _ Hln) as Hocc'. unfold NOFILE in *.
  assert (Hocc2 : 2 <= occ f (<[n := Some f]> T)).
  { pose proof (occ_insert _ n _ None f Hnn) as He. rewrite decide_True, decide_False in He by done.
    assert (1 <= occ f (<[n := None]> (<[n := Some f]> T))); [|lia]. apply (occ_pos _ _ k). by rewrite list_lookup_insert_ne. }
  destruct o as [g|].
  - pose proof (used_pos _ _ _ Hto). pose proof (occ_pos _ _ _ Hto). pose proof (occ_range g T Hl). specialize (Ho g) as Hog. unfold NOFILE in *.
    apply wp_bind, wp_bind. eapply wp_close_file; [done|lia|lia|]. intros s1 Hs1. eapply wp_set_fd; [done|]. intros s2 Hs2.
    apply wp_bind. eapply wp_set_fd; [done|]. intros s3 Hs3. apply wp_bind. eapply wp_ofile_inc; [done|lia|]. intros s4 Hs4. apply wp_ret.
    fold n in Hs4. rewrite list_insert_insert_eq in Hs4.
    assert (Hrf : forall h, (<[g := oth g + occ g T - 1]> (fun h => oth h + occ h T) : nat -> Z) h = oth h + occ h (<[n := Some f]> T) - (if decide (h = f) then 1 else 0)).
    { intros h. rewrite (occ_insert _ _ _ _ _ Hto). destruct (decide (h = g)) as [->|Hhg]; [rewrite fn_lookup_insert, (decide_True (P := Some g = Some g)) by done|
        rewrite fn_lookup_insert_ne, (decide_False (P := Some g = Some h)) by congruence]; repeat case_decide; congruence || lia. }
    eapply HQ; [|by rewrite Hrf, decide_True by done; lia|exact Hrf].
    replace (used (<[n := Some f]> T)) with (used T - 1 + 1); [exact Hs4|]. unfold used. rewrite (tally_insert _ _ _ _ _ Hto). cbn beta. rewrite !bool_decide_true by congruence. cbn [Z.b2z]. lia.
  - apply wp_bind, wp_ret, wp_bind. eapply wp_set_fd; [done|]. intros s3 Hs3. apply wp_bind. eapply wp_ofile_inc; [done|lia|]. intros s4 Hs4. apply wp_ret. fold n in Hs4.
    assert (Hrf : forall h, oth h + occ h T = oth h + occ h (<[n := Some f]> T) - (if decide (h = f) then 1 else 0)).
    { intros h. rewrite (occ_insert _ _ _ _ _ Hto), (decide_False (P := None = Some h)) by done. repeat case_decide; congruence || lia. }
    eapply HQ; [by rewrite used_take|cbn beta; rewrite Hrf, decide_True by done; lia|exact Hrf].
Qed.

Lemma wp_sys_dup3 T oldfd newfd flags s :
  fd_inv T s -> fd_args s (Dup3 oldfd newfd flags) -> wp (sys_dup3 kend ext4) (answers (fd_spec lim (Dup3 oldfd newfd flags) T)) s.
Proof.
  intros Hi (Ha & Hn & Hfl). pose proof Hi as [Hs Hl Ho]. unfold sys_dup3. apply wp_bind. eapply wp_argfd; [done|done|lia|done|]. cbn [fd_spec].
  destruct (fd_file T oldfd) as [f|] eqn:Hf; cbn [fmap option_fmap option_map]; [|by apply wp_ret].
  apply fd_file_slot in Hf as [Hr Hk]. apply wp_bind. eapply wp_argint; [lia|done|]. apply wp_bind. eapply wp_argint; [lia|done|].
  rewrite <- orb_assoc, !out_of_range, Hr. cbn [negb orb]. destruct (in_range newfd) eqn:Hrn; cbn [negb]; [|by apply wp_ret].
  destruct (Z.eqb_spec newfd oldfd) as [|Hne]; [by apply wp_ret|].
  assert (Hkn : Z.to_nat oldfd <> Z.to_nat newfd) by (unfold in_range in *; zbool; lia).
  apply wp_bind. eapply wp_fdalloc_spec; [exact Hi|done|exact Hk|done|]. intros s1 rf Hs1 Hrf1 Hrf.
  assert (0 <= newfd) by (unfold in_range in *; zbool; lia). rewrite (proj2 (Z.ltb_ge newfd 0)) by done.
  set (x := set_fflags (if has_bits flags O_CLOEXEC then Z.lor (fflags (files s1 f)) O_CLOEXEC else Z.land (fflags (files s1 f)) (Z.lnot O_CLOEXEC)) (files s1 f)).
  apply wp_bind, wp_modify. change (set_files _ s1) with (set_file f x s1).
  assert (Hx : seen (<[Z.to_nat newfd := Some f]> T) (used (<[Z.to_nat newfd := Some f]> T)) rf (set_file f x s1)).
  { pose proof (sn_refs _ _ _ _ Hs1 f) as Hrx. eapply seen_ext; [|apply (seen_file _ _ rf f x s1 Hs1); [|lia|cbn; lia]].
    - intros g. destruct (decide (g = f)) as [->|?]; [by rewrite fn_lookup_insert|by rewrite fn_lookup_insert_ne].
    - split_and!; [done..|]. cbn [fflags set_fflags x]. destruct (has_bits flags O_CLOEXEC).
      + rewrite Z.land_lor_distr_l. change (Z.land O_CLOEXEC O_ACCMODE) with 0. apply Z.lor_0_r.
      + by rewrite <- Z.land_assoc. }
  apply wp_bind. eapply wp_dup_file; [exact Hx|done|]. intros s2 Hs2. apply wp_ret. split; [done|]. cbn [snd].
  split; [|by rewrite length_insert|done]. eapply seen_ext; [|exact Hs2]. intros g.
  destruct (decide (g = f)) as [->|?]; [rewrite fn_lookup_insert|rewrite fn_lookup_insert_ne by done]; rewrite Hrf; [rewrite decide_True by done|rewrite decide_False by done]; lia.
Qed.

Definition fd_run (c : fd_call) : E kstate Z :=
  match c with Dup _ => sys_dup | Dup3 _ _ _ => sys_dup3 kend ext4 | Dupfd _ _ _ => sys_fcntl | Close _ => sys_close kend ext4 end.

Lemma wp_fd_run (c : fd_call) (T : fdtable) (s : kstate) :
  fd_inv T s -> fd_args s c -> wp (fd_run c) (answers (fd_spec lim c T)) s.
Proof.
  intros Hi Ha. destruct c; cbn [fd_run].
  - by apply wp_sys_dup.
  - by apply wp_sys_dup3.
  - by apply wp_fcntl_dupfd.
  - by apply wp_sys_close.
Qed.

(** fcntl(fd, F_SETFD, n), n free: the file is stored without a reference. *)
Lemma wp_fcntl_setfd T fd n f s :
  fd_inv T s -> fd_file T fd = Some f -> fd_file T n = None -> in_range n = true ->
  int_arg s 0 fd -> int_arg s 1 F_SETFD -> int_arg s 2 n ->
  wp sys_fcntl (fun r s' => r = 0 /\ seen (<[Z.to_nat n := Some f]> T) (used T) (fun g => oth g + occ g T) s') s.
Proof.
  intros [Hs Hl Ho] Hf Hn Hr Ha Hc (w & Hm & <-). unfold sys_fcntl. apply wp_bind. eapply wp_argfd; [done|done|lia|done|]. rewrite Hf. cbn [fmap option_fmap option_map].
  apply wp_bind. eapply wp_argint; [lia|done|]. apply wp_bind. eapply wp_arguint64; [lia|done|]. unfold do_fcntl. cbn [Z.eqb F_SETFD F_DUPFD F_DUPFD_CLOEXEC F_GETFD orb].
  change (F_SETFD =? F_DUPFD) with false. change (F_SETFD =? F_DUPFD_CLOEXEC) with false. change (F_SETFD =? F_GETFD) with false. change (F_SETFD =? F_SETFD) with true. cbn [orb].
  apply wp_bind. unfold setfd. apply wp_bind. eapply wp_myproc; [apply Hs|]. rewrite out_of_range, Hr. cbn [negb].
  destruct (fd_slot T (i32 w) Hl Hr) as (o & Hto). unfold fd_file in Hn. rewrite Hr, Hto in Hn. subst o.
  apply wp_bind. eapply wp_get_ofile; [done|done|]. apply wp_bind. eapply wp_set_fd; [done|]. intros s' Hs'. by apply wp_ret, wp_ret.
Qed.
End Table.
