(* ===== verification/FdFiles.v ===== *)
(** * Closing descriptors of pipes, devices and files

    [files_ok]: every open file on a pipe has its pipe, with its end open, and
    the pipe's page is not free; no two open files are the same end of a pipe.
    fileclose keeps this, which makes it a [FileLayer]: a descriptor never
    refers to a pipe whose page was given back. *)
From S2P Require Import Prelude Mem CString KTypes Kalloc Vm ListHead KState Queue Sched Signal Thread ThreadInv SchedSpec ProcBase Pipe File Fd FdSpec.

(** What a file system may change when the file [f] on it is closed: its disk,
    cache, log and tables, and the file's private_data. *)
Definition fs_frame (f : nat) (s s' : kstate) : Prop :=
  km s' = km s /\ lh s' = lh s /\ queues s' = queues s /\ tcbs s' = tcbs s /\ procs s' = procs s /\
  cur s' = cur s /\ pipes s' = pipes s /\ (forall j, j <> f -> files s' j = files s j) /\ exists v, files s' f = set_fprivate v (files s f).

Lemma set_fprivate_same x : set_fprivate (fprivate x) x = x.
Proof. by destruct x. Qed.

Lemma fs_frame_refl f s : fs_frame f s s.
Proof. split_and!; try done. exists (fprivate (files s f)). by rewrite set_fprivate_same. Qed.

Lemma fs_frame_trans f s1 s2 s3 : fs_frame f s1 s2 -> fs_frame f s2 s3 -> fs_frame f s1 s3.
Proof.
  unfold fs_frame. intros (? & ? & ? & ? & ? & ? & ? & Hj1 & v & Hv) (? & ? & ? & ? & ? & ? & ? & Hj2 & w & Hw). split_and!; try congruence.
  - intros j Hj. by rewrite Hj2, Hj1.
  - exists w. by rewrite Hw, Hv.
Qed.

(** The file system's part of closing a file returns, with the table of files
    locked, and leaves the file without private data.  [I] is an invariant of the
    file system's tables and of the private data of the open files. *)
Record fs_closes (ops : fs_ops) (I : kstate -> Prop) : Prop := {
  fc_same : forall s s', I s -> ftabs s' = ftabs s -> (forall f, fprivate (files s' f) = fprivate (files s f)) -> I s';
  fc_close : forall f s, I s -> held (km s) = [L_ftable] -> fprivate (files s f) <> 0 ->
    wp (fop_close ops f) (fun _ s' => fs_frame f s s' /\ fprivate (files s' f) = 0 /\ I s') s;
  fc_unlink : forall path f s, I s -> held (km s) = [L_ftable] -> fprivate (files s f) = 0 ->
    wp (fop_unlink ops path) (fun _ s' => fs_frame f s s' /\ fprivate (files s' f) = 0 /\ I s') s;
  fc_cleansf : forall f s, I s -> held (km s) = [L_ftable] -> fprivate (files s f) = 0 ->
    wp (fop_cleansf ops f) (fun _ s' => fs_frame f s s' /\ fprivate (files s' f) = 0 /\ I s') s;
}.

Section Files.
Context (kend : Z) (ops : fs_ops) (I : kstate -> Prop).
Hypotheses (kend_pos : 0 < kend) (Hops : fs_closes ops I).

(** The end of the pipe the open file [x] is. *)
Definition end_open (x : file) (r : pipe) : Prop := (if IS_WRITABLE (fflags x) then writeopen r else readopen r) <> 0.

Record pipes_ok (fs : nat -> file) (ps : gmap Z pipe) (l : list Z) : Prop := {
  po_open : forall f, 1 <= fref (fs f) -> ftype (fs f) = FD_PIPE ->
    valid_page kend (fpipe (fs f)) /\ fpipe (fs f) ∉ l /\ exists r, ps !! fpipe (fs f) = Some r /\ end_open (fs f) r;
  po_ends : forall f g, f <> g -> 1 <= fref (fs f) -> 1 <= fref (fs g) -> ftype (fs f) = FD_PIPE -> ftype (fs g) = FD_PIPE ->
    fpipe (fs f) = fpipe (fs g) -> IS_WRITABLE (fflags (fs f)) <> IS_WRITABLE (fflags (fs g));
}.

Definition files_ok (s : kstate) : Prop :=
  held (km s) = [] /\ exists l, kmem_inv kend (km s) l /\ (exists tq, sched_inv s tq ∅) /\ pipes_ok (files s) (pipes s) l /\ I s.

Lemma same_writable x y : same_file x y -> IS_WRITABLE (fflags y) = IS_WRITABLE (fflags x).
Proof. intros (_ & _ & _ & H). unfold IS_WRITABLE. by rewrite H. Qed.

(** Replacing a file by the same one, or by one that is closed. *)
Lemma pipes_ok_set fs ps l f x :
  pipes_ok fs ps l -> fref x < 1 \/ same_file (fs f) x /\ 1 <= fref (fs f) -> pipes_ok (<[f := x]> fs) ps l.
Proof.
  intros [Ho He] Hx. assert (Hback : forall g, 1 <= fref ((<[f := x]> fs : nat -> file) g) ->
    1 <= fref (fs g) /\ same_file (fs g) ((<[f := x]> fs : nat -> file) g)).
  { intros g. destruct (decide (g = f)) as [->|Hne]; [rewrite fn_lookup_insert|rewrite fn_lookup_insert_ne by done; done].
    intros Hr. destruct Hx as [|[? ?]]; [lia|done]. }
  split.
  - intros g Hr. destruct (Hback g Hr) as [Hr' Hsame]. pose proof (same_writable _ _ Hsame) as Hw. destruct Hsame as (Hty & Hpi & _).
    unfold end_open. rewrite Hty, Hpi, Hw. by apply Ho.
  - intros g h Hne Hrg Hrh. destruct (Hback g Hrg) as [Hrg' Hsg], (Hback h Hrh) as [Hrh' Hsh].
    rewrite (same_writable _ _ Hsg), (same_writable _ _ Hsh). destruct Hsg as (-> & -> & _), Hsh as (-> & -> & _). by apply He.
Qed.

(** Closing the end [f] of its pipe, after its slot was freed. *)
Lemma pipes_ok_close fs ps ps' l f r :
  pipes_ok fs ps l -> 1 <= fref (fs f) -> ftype (fs f) = FD_PIPE -> ps !! fpipe (fs f) = Some r ->
  let w := IS_WRITABLE (fflags (fs f)) in
  let last := (if w then readopen r else writeopen r) =? 0 in
  (forall pj, pj <> fpipe (fs f) -> ps' !! pj = ps !! pj) ->
  ps' !! fpipe (fs f) = (if last then None else Some (if w then set_writeopen 0 r else set_readopen 0 r)) ->
  forall fs', (forall g, g <> f -> fs' g = fs g) -> fref (fs' f) < 1 ->
  pipes_ok fs' ps' (if last then fpipe (fs f) :: l else l).
Proof.
  intros [Ho He] Hr Hty Hp w last Hother Hself fs' Hfs Hcl.
  assert (Hback : forall g, 1 <= fref (fs' g) -> g <> f /\ fs' g = fs g).
  { intros g Hg. destruct (decide (g = f)) as [->|Hne]; [lia|]. split; [done|by apply Hfs]. }
  split.
  - intros g Hg Htg. destruct (Hback g Hg) as [Hne Heq]. rewrite Heq in *. destruct (Ho g Hg Htg) as (Hv & Hni & rg & Hrg & Hend).
    destruct (decide (fpipe (fs g) = fpipe (fs f))) as [Hpe|Hpe].
    + pose proof (He g f Hne Hg Hr Htg Hty Hpe) as Hw. rewrite Hpe in Hrg. rewrite Hp in Hrg. injection Hrg as <-. unfold end_open in Hend.
      assert (Hlast : last = false).
      { unfold last, w. apply Z.eqb_neq. destruct (IS_WRITABLE (fflags (fs g))), (IS_WRITABLE (fflags (fs f))); done. }
      rewrite Hlast in *. split; [done|]. split; [done|]. rewrite Hpe, Hself. eexists. split; [done|]. unfold end_open, w.
      destruct (IS_WRITABLE (fflags (fs g))), (IS_WRITABLE (fflags (fs f))); done.
    + split; [done|]. split; [by destruct last; [apply not_elem_of_cons|]|]. exists rg. by rewrite Hother.
  - intros g h Hne Hg Hh. destruct (Hback g Hg) as [_ Heq], (Hback h Hh) as [_ Heq2]. rewrite Heq, Heq2 in *. by apply He.
Qed.

Lemma wp_fs_part x f (Q : unit -> kstate -> Prop) s :
  I s -> held (km s) = [L_ftable] -> fprivate (files s f) = fprivate x ->
  (forall s', fs_frame f s s' -> fprivate (files s' f) = 0 -> I s' -> Q tt s') ->
  wp (if fprivate x =? 0 then mret tt
      else
        o ← deref (Some ops);
        fop_close o f;;
        (if fistmp x =? 0 then mret tt else fop_unlink o (fpath x));;
        fop_cleansf o f) Q s.
Proof.
  intros HI Hh Hx HQ. rewrite <- Hx. destruct (Z.eqb_spec (fprivate (files s f)) 0); [apply wp_ret, HQ; [apply fs_frame_refl|done|done]|].
  apply wp_bind, wp_ret. eapply wp_call; [by apply (fc_close ops I)|]. cbn beta. intros _ s1 (H1 & Hp1 & HI1).
  assert (Hh1 : held (km s1) = [L_ftable]) by (destruct H1 as [-> _]; done).
  eapply (wp_call _ _ (fun _ s2 => fs_frame f s1 s2 /\ fprivate (files s2 f) = 0 /\ I s2)).
  { destruct (_ =? 0); [apply wp_ret; split_and!; [apply fs_frame_refl|done|done]|by apply (fc_unlink ops I)]. }
  cbn beta. intros _ s2 (H2 & Hp2 & HI2). assert (Hh2 : held (km s2) = [L_ftable]) by (destruct H2 as [-> _]; done).
  eapply wp_mono; [by apply (fc_cleansf ops I)|]. cbn beta. intros [] s3 (H3 & Hp3 & HI3). apply HQ; [|done|done].
  eapply fs_frame_trans; [done|]. by eapply fs_frame_trans.
Qed.

Lemma sched_inv_fields s s' tq : lh s' = lh s -> queues s' = queues s -> tcbs s' = tcbs s -> sched_inv s tq ∅ -> sched_inv s' tq ∅.
Proof. intros H1 H2 H3 H. eapply sched_inv_same; [exact H|done|done|by rewrite H3]. Qed.

(** The last reference: the slot is freed, and the end of a pipe closed. *)
Lemma wp_close_last p f s1 (Q : unit -> kstate -> Prop) x :
  files_ok s1 -> runs_in s1 p -> files s1 f = x -> fref x = 1 ->
  (forall s', files_ok s' -> runs_in s' p -> procs s' = procs s1 -> (forall j, j <> f -> files s' j = files s1 j) -> fref (files s' f) = 0 -> Q tt s') ->
  wp ((if fprivate x =? 0 then mret tt
       else
         o ← deref (Some ops);
         fop_close o f;;
         (if fistmp x =? 0 then mret tt else fop_unlink o (fpath x));;
         fop_cleansf o f);;
      ff ← get_file f;
      upd_file f clear_file;;
      release L_ftable;;
      if bool_decide (ftype ff = FD_PIPE) then pipeclose kend (fpipe ff) (IS_WRITABLE (fflags ff)) else mret tt) Q
    (set_files (<[f := set_fref 0 x]> (files s1)) (set_km (set_held [L_ftable] (km s1)) s1)).
Proof.
  intros (Hh & l & Hk & (tq & Hsi) & Hpo & HI) Hrun Hx H1 HQ.
  apply wp_bind, wp_fs_part; [|done|cbn [files set_files set_km]; by rewrite fn_lookup_insert|].
  { eapply (fc_same ops I Hops); [exact HI|done|]. intros g. cbn [files set_files set_km]. destruct (decide (g = f)) as [->|Hne]; [by rewrite fn_lookup_insert, Hx|by rewrite fn_lookup_insert_ne]. }
  intros s2 (Ek & El & Eq & Et & Ep & Ec & Epi & Ej & v & Ef) Hp2 HI2.
  cbn [km lh queues tcbs procs cur pipes files set_files set_km] in *. rewrite fn_lookup_insert in Ef.
  apply wp_bind, wp_gets. rewrite Ef. apply wp_bind, wp_modify, wp_bind.
  eapply wp_krelease; [cbn [km set_files]; by rewrite Ek|apply not_elem_of_nil|].
  set (s3 := set_km _ _). assert (Hx3 : fref (files s3 f) = 0) by (cbn [s3 files set_files set_km]; by rewrite fn_lookup_insert).
  assert (Hj3 : forall j, j <> f -> files s3 j = files s1 j) by (intros j Hj; cbn [s3 files set_files set_km]; by rewrite fn_lookup_insert_ne, Ej, fn_lookup_insert_ne).
  assert (Hk3 : held (km s3) = [] /\ kmem_inv kend (km s3) l) by (cbn [s3 km set_files set_km]; rewrite Ek; split; [done|]; by destruct Hk).
  assert (Hs3 : sched_inv s3 tq ∅) by exact (sched_inv_fields s1 s3 tq El Eq Et Hsi).
  assert (Hr3 : runs_in s3 p) by (destruct Hrun as (t & Hc & Hp); exists t; split; cbn [s3 cur tcbs set_files set_km]; congruence).
  assert (HI3 : I s3).
  { eapply (fc_same ops I Hops); [exact HI2|done|]. intros g. cbn [s3 files set_files set_km].
    destruct (decide (g = f)) as [->|Hne]; [by rewrite fn_lookup_insert, Hp2|by rewrite fn_lookup_insert_ne]. }
  assert (Hp3 : procs s3 = procs s1) by exact Ep. assert (Hpi3 : pipes s3 = pipes s1) by exact Epi. clearbody s3.
  cbn [ftype fpipe fflags set_fref set_fprivate]. destruct Hk3 as [Hh3 Hk3].
  case_bool_decide as Hty.
  - destruct (po_open _ _ _ Hpo f) as (Hv & Hni & r & Hr & _); [rewrite Hx; lia|by rewrite Hx|]. rewrite Hx in Hv, Hni, Hr.
    eapply wp_mono; [apply (wp_pipeclose kend (fpipe x) (IS_WRITABLE (fflags x)) r l tq s3); try done; by rewrite Hpi3|].
    cbn beta. intros [] s' (Hh' & Hs' & (Hft' & Hf' & Hp' & Hc' & Ht' & Ho') & Hpi').
    assert (HI' : I s') by (eapply (fc_same ops I Hops); [exact HI3|done|]; intros g; by rewrite Hf').
    pose proof (pipes_ok_close (files s1) (pipes s1) (pipes s') l f r Hpo ltac:(rewrite Hx; lia) ltac:(by rewrite Hx) ltac:(by rewrite Hx)) as Hcl.
    cbn zeta in Hcl. rewrite Hx in Hcl. rewrite Hpi3 in Ho'.
    apply HQ; [|destruct Hr3 as (t & Hc3 & Htp3); exists t; rewrite Hc', Ht'; done|congruence|intros j Hj; rewrite Hf'; by apply Hj3|by rewrite Hf'].
    split; [done|]. destruct (_ =? 0) eqn:Hlast; destruct Hpi' as [Hpi' Hk'];
      (eexists; split; [exact Hk'|]; split; [by eexists|]; split; [|done]); apply (Hcl Ho' Hpi'); (intros; rewrite Hf'; by apply Hj3) || (rewrite Hf'; lia).
  - apply wp_ret, HQ; [|done|done|done|done]. split; [done|]. exists l. split; [done|]. split; [by eexists|]. split; [|done].
    rewrite Hpi3. destruct Hpo as [Ho He].
    assert (Hback : forall g, 1 <= fref (files s3 g) -> g <> f) by (intros g Hg ->; lia).
    split.
    + intros g Hg. pose proof (Hj3 g (Hback g Hg)) as Heq. rewrite Heq in Hg |- *. by apply Ho.
    + intros g h Hne Hg Hh2. pose proof (Hj3 g (Hback g Hg)) as Heq. pose proof (Hj3 h (Hback h Hh2)) as Heq2. rewrite Heq in Hg |- *. rewrite Heq2 in Hh2 |- *. by apply He.
Qed.

Lemma files_ok_more s f x :
  files_ok s -> same_file (files s f) x -> 1 <= fref (files s f) -> files_ok (set_file f x s).
Proof.
  intros (Hh & l & Hk & (tq & Hs) & Hpo & HI) Hx Hr. split; [done|]. exists l. split; [done|]. split; [exists tq; by destruct Hs|].
  split; [apply pipes_ok_set; auto|]. eapply (fc_same ops I Hops); [exact HI|done|]. intros g. unfold set_file. cbn [files set_files].
  destruct (decide (g = f)) as [->|Hne]; [rewrite fn_lookup_insert; apply Hx|by rewrite fn_lookup_insert_ne].
Qed.

Lemma files_ok_procs s ps : files_ok s -> files_ok (set_procs ps s).
Proof.
  intros (Hh & l & Hk & (tq & Hs) & Hpo & HI). split; [done|]. exists l. split; [done|]. split; [exists tq; by destruct Hs|].
  split; [done|]. by eapply (fc_same ops I Hops).
Qed.

(** fileclose, whatever the file is open on. *)
Lemma wp_fileclose_ok p f s :
  files_ok s -> runs_in s p -> 1 <= ofile_cnt (procs s p) < 2 ^ 31 -> 1 <= fref (files s f) < 2 ^ 31 ->
  wp (fileclose kend (Some ops) f true) (fun _ s' => files_ok s' /\ closed p f s s') s.
Proof.
  intros Hok Hrun Hc Hr. unfold fileclose. apply wp_bind. eapply wp_myproc; [done|]. apply wp_bind, wp_modify.
  set (s1 := set_procs _ s). assert (Hcnt : ofile_cnt (procs s1 p) = ofile_cnt (procs s p) - 1).
  { cbn [s1 procs set_procs]. rewrite fn_lookup_insert. cbn. by rewrite sint_small by lia. }
  assert (Hof : ofile (procs s1 p) = ofile (procs s p) /\ rlim (procs s1 p) = rlim (procs s p)) by (cbn [s1 procs set_procs]; by rewrite fn_lookup_insert).
  assert (Hok1 : files_ok s1) by by apply files_ok_procs.
  assert (Hrun1 : runs_in s1 p) by exact Hrun. assert (Hf1 : files s1 = files s) by done. clearbody s1.
  apply wp_bind, wp_gets, wp_bind, wp_panic_if; [apply Z.ltb_ge; lia|].
  pose proof Hok1 as (Hh & _). apply wp_bind, wp_kacquire; [rewrite Hh; apply not_elem_of_nil|]. apply wp_bind, wp_gets. cbn [files set_km]. rewrite Hf1.
  apply wp_bind, wp_panic_if; [apply Z.ltb_ge; lia|]. apply wp_bind, wp_modify. cbn [files set_km]. rewrite Hf1, sint_small by lia.
  destruct (Z.ltb_spec 0 (fref (files s f) - 1)).
  - eapply wp_krelease; [done|rewrite Hh; apply not_elem_of_nil|]. rewrite km_restore_files. set (x := set_fref _ _). rewrite <- Hf1. split.
    + apply files_ok_more; [done|by rewrite Hf1|rewrite Hf1; lia].
    + split; try done; try apply Hof; cbn [files set_files]; rewrite ?Hf1.
      * intros j Hj. by rewrite fn_lookup_insert_ne.
      * by rewrite fn_lookup_insert.
  - rewrite Hh, <- Hf1. replace (fref (files s1 f) - 1) with 0 by (rewrite Hf1; lia).
    eapply (wp_close_last p f s1 _ (files s1 f)); [done|done|done|rewrite Hf1; lia|].
    intros s' Hok' Hrun' Hp' Hj' H0. split; [done|]. split; rewrite ?Hp'; try done; try apply Hof.
    + intros j Hj. by rewrite Hj', Hf1.
    + rewrite H0. lia.
Qed.

#[export] Instance files_layer : FileLayer kend (Some ops) files_ok.
Proof.
  split.
  - by intros s [H _].
  - intros s ps. apply files_ok_procs.
  - intros s f x Hok Hsame Hr _. by apply files_ok_more.
  - intros s p f. apply wp_fileclose_ok.
Qed.
End Files.

(** ** Properties *)


(** fcntl(fd, F_SETFD, n) does not set a flag: when the descriptor [n] is
    free it becomes a second descriptor of the same file, for which neither the
    file's reference count nor the process's count of descriptors goes up, so
    that both are one too low from then on. *)
Theorem fcntl_setfd_uncounted (kend : Z) (ops : fs_ops) (I : kstate -> Prop) (p : nat) (lim : Z) (oth : nat -> Z) (T : fdtable) (fd n : Z) (f : nat) (s : kstate) :
  0 < kend -> fs_closes ops I -> fd_inv (files_ok kend I) p lim oth T s -> fd_file T fd = Some f -> fd_file T n = None -> in_range n = true ->
  int_arg s 0 fd -> int_arg s 1 F_SETFD -> int_arg s 2 n ->
  wp sys_fcntl (fun r s' => r = 0 /\ let T' := ofile (procs s' p) in
    fd_file T' n = Some f /\ ofile_cnt (procs s' p) = used T' - 1 /\ fref (files s' f) = oth f + occ f T' - 1) s.
Proof.
  intros Hk Hops Hi Hf Hn Hr Ha Hc Hm. eapply wp_mono; [exact (wp_fcntl_setfd kend (Some ops) (files_ok kend I) (FL := files_layer kend ops I Hk Hops) p lim oth T fd n f s Hi Hf Hn Hr Ha Hc Hm)|].
  cbn beta. intros r s' [-> Hs']. split; [done|]. cbn zeta. rewrite (sn_table _ _ _ _ _ _ _ Hs'), (sn_cnt _ _ _ _ _ _ _ Hs'), (sn_refs _ _ _ _ _ _ _ Hs').
  destruct (fd_slot T n (fd_len _ _ _ _ _ _ Hi) Hr) as (o & Hto). unfold fd_file in Hn |- *. rewrite Hr, Hto in *. subst o. rewrite list_lookup_insert_eq by (by eapply lookup_lt_Some).
  split_and!; [done|rewrite used_take by done; lia|]. rewrite (occ_insert _ _ _ _ _ Hto), decide_False, decide_True by done. lia.
Qed.

(** ** Witnesses: descriptor 0 is the read end of a pipe, the second and third
    argument registers hold [a1] and [a2] *)

Definition fd_mem (a1 a2 : Z) : mem := store64 (store64 (fun _ => 0) (0x1000 + (TF_A0 + 8 * 1)) a1) (0x1000 + (TF_A0 + 8 * 2)) a2.
Definition fd_table : fdtable := Some 3%nat :: replicate 255 None.
Definition fd_proc : proc := set_rlim (fun _ => (100, 100)) (set_ofile fd_table (set_ofile_cnt 1 proc_zero)).
Definition fd_state (a1 a2 : Z) (b : kstate) : kstate :=
  set_files (<[3%nat := pipe_end]> (fun _ => file_zero)) (set_procs (fun _ => fd_proc)
    (set_tcbs (fun t => set_trapframe 0x1000 (set_tproc (Some 0%nat) (tcbs b t)))
      (set_km (set_mmem (fd_mem a1 a2) one_free) (pipe_state b (wrap_pipe 3))))).

(** No file is open on a file system. *)
Definition no_private (s : kstate) : Prop := forall f, fprivate (files s f) = 0.

Lemma no_fs_closes : fs_closes no_fs no_private.
Proof.
  split; [intros s s' HI _ Hp f; by rewrite Hp|intros f s HI _ Hn; by destruct (Hn (HI f))|..];
    intros; apply wp_ret; (split_and!; [apply fs_frame_refl|done|done]).
Qed.

Lemma fd_mem_other a1 a2 a : 0x2000 <= a -> load64 (fd_mem a1 a2) a = 0.
Proof. intros H. unfold fd_mem, TF_A0. rewrite !load64_store64_other by lia. by apply load64_zero. Qed.

Lemma fd_mem_inv a1 a2 : kmem_inv two_pages (set_mmem (fd_mem a1 a2) one_free) [PHYSTOP - PGSIZE].
Proof.
  split; [|apply NoDup_singleton|by apply Forall_singleton|by repeat apply store64_ok].
  cbn [flist set_mmem mmem freelist one_free]. rewrite fd_mem_other by done. done.
Qed.

Lemma occ_nones f n : occ f (replicate n None) = 0.
Proof. induction n as [|n IH]; [done|]. unfold occ in *. cbn [replicate tally]. rewrite IH. by rewrite bool_decide_false. Qed.

Lemma fd_state_refs a1 a2 b f : fref (files (fd_state a1 a2 b) f) = if decide (f = 3%nat) then 1 else 0.
Proof. cbn [fd_state files set_files]. destruct (decide (f = 3%nat)) as [->|?]; [by rewrite fn_lookup_insert|by rewrite fn_lookup_insert_ne]. Qed.

Lemma fd_state_inv a1 a2 b tq : sched_inv b tq ∅ -> fd_inv (files_ok two_pages no_private) 0 100 (fun _ => 0) fd_table (fd_state a1 a2 b).
Proof.
  intros Hi. pose proof (fd_state_refs a1 a2 b) as Hf.
  split; [split|done|done].
  - split; [done|]. exists [PHYSTOP - PGSIZE]. split; [apply fd_mem_inv|]. split; [|split].
    + exists tq. eapply sched_inv_same; [exact Hi|done..].
    + assert (Hone : forall f, 1 <= fref (files (fd_state a1 a2 b) f) -> f = 3%nat) by (intros f; rewrite Hf; case_decide; [done|lia]).
      split; [|intros f g Hne Hf1%Hone Hg%Hone; congruence]. intros f ->%Hone _. cbn [fd_state files set_files]. rewrite fn_lookup_insert. split; [done|]. split; [by intros ?%list_elem_of_singleton|].
      exists (wrap_pipe 3). split; [apply lookup_singleton_eq|done].
    + intros f. cbn [fd_state files set_files]. destruct (decide (f = 3%nat)) as [->|?]; [by rewrite fn_lookup_insert|by rewrite fn_lookup_insert_ne].
  - by exists 0%nat.
  - done.
  - done.
  - done.
  - intros f. rewrite Hf. unfold occ, fd_table. cbn [tally]. fold (occ f). rewrite occ_nones. case_decide as Hd; [subst; by rewrite bool_decide_true|]. by rewrite bool_decide_false by congruence.
Qed.

Lemma fd_state_arg a1 a2 b n v w : load64 (fd_mem a1 a2) (0x1000 + (TF_A0 + 8 * n)) = w -> i32 w = v -> int_arg (fd_state a1 a2 b) n v.
Proof. intros Hw <-. exists w. split; [|done]. by exists 0%nat. Qed.


Lemma fcntl_setfd_uncounted_witness :
  exists s, wp sys_fcntl (fun r s' => r = 0 /\ fd_file (ofile (procs s' 0%nat)) 1 = Some 3%nat /\ ofile_cnt (procs s' 0%nat) = used (ofile (procs s' 0%nat)) - 1) s.
Proof.
  destruct booted_ok as (_ & Hi & _). revert Hi. generalize booted. intros b Hi. exists (fd_state F_SETFD 1 b). eapply wp_mono.
  - apply (fcntl_setfd_uncounted two_pages no_fs no_private 0 100 (fun _ => 0) fd_table 0 1 3 (fd_state F_SETFD 1 b)).
    + done.
    + exact no_fs_closes.
    + by apply (fd_state_inv _ _ b _ Hi).
    + done.
    + done.
    + done.
    + by apply (fd_state_arg _ _ _ _ _ 0).
    + by apply (fd_state_arg _ _ _ _ _ F_SETFD).
    + by apply (fd_state_arg _ _ _ _ _ 1).
  - cbn beta zeta. intros r s' (Hr & H1 & H2 & _). split_and!; assumption.
Defined.
