(* ===== verification/SysProc.v ===== *)
(** * kernel/sysproc.c and kernel/sysother.c: system calls on processes and time

    The handlers fetch their arguments from the trap frame and call the
    operations of the processes, threads, signals and futexes.  Local
    structures that are copied from or to user memory lie at [kbuf]. *)
From S2P Require Import Prelude Mem CString KTypes Kalloc Vm ListHead KState Queue Sched Signal Thread ThreadInv SchedSpec ProcBase Pipe File Mmap Futex Proc SigHandle Fd FdSpec FdFiles.
Definition EINVAL : Z := 22.
Definition EFAULT : Z := 14.
Definition INT_MAX : Z := 2147483647.
Definition NPROCID : Z := 65536.
Definition NPROC_GROUP : Z := 64.
Definition BRKTOP : Z := KSTACK (NTHREADS + 1).
Definition RLIM_NLIMITS : Z := 16.
Definition FREQUENCY : Z := 12500000.
Definition CLK_FREQ : Z := FREQUENCY.

(** The macro computes with the type of [d], a 32-bit unsigned int. *)
Definition TICKS2TIMESPEC (d : Z) : timespec :=
  (d / TICKS_PER_SECOND, u32 (d mod TICKS_PER_SECOND * 1000000000) / TICKS_PER_SECOND).
Definition TIME2SEC (time : Z) : Z := time / FREQUENCY.
Definition TIME2NS (time : Z) : Z := u64 (time * 1000 * 1000 * 1000) / FREQUENCY.
Definition TIME2TIMESPEC (time : Z) : timespec := (TIME2SEC time, TIME2NS time mod (1000 * 1000 * 1000)).

(** x = 7^5 x mod 2^31 - 1 in 31 bits, from FreeBSD: the number and the new
    value of the state. *)
Definition do_rand_kernel (ctx : Z) : Z * Z :=
  let x := ctx mod 0x7ffffffe + 1 in
  let hi := x / 127773 in
  let lo := x mod 127773 in
  let x := 16807 * lo - 2836 * hi in
  let x := if x <? 0 then x + 0x7fffffff else x in
  let x := x - 1 in
  (i32 x, u64 x).

Definition randkernel : E kstate Z :=
  ctx ← gets rand_next;
  modify (set_rand_next (do_rand_kernel ctx).2);;
  mret (do_rand_kernel ctx).1.

Section Calls.
Context (kend trampoline user_rt_sigreturn forkret kbuf ch uval : Z).
Context (swtch : nat -> E kstate unit).
Context (ext4 : option fs_ops).
Context (dev_write : Z -> option (bool -> Z -> Z -> E kstate Z)).
Context (wfuel : nat).
(** r_time(); the address of g_uts and its size. *)
Context (rtime g_uts uts_size : Z).

(** ** Structures copied between kernel and user memory *)

Fixpoint store_words (m : mem) (a : Z) (ws : list Z) : mem :=
  match ws with
  | [] => m
  | w :: ws => store_words (store64 m a w) (a + 8) ws
  end.
Definition copyout_words (va : Z) (ws : list Z) : E kstate Z :=
  on_mach (upd_mem (fun m => store_words m kbuf ws));;
  pt ← my_pagetable;
  on_mach (copyout pt va kbuf (8 * Z.of_nat (length ws))).
Definition kword (i : Z) : E kstate Z := gets (fun s => load64 (mmem (km s)) (kbuf + 8 * i)).

Definition copyin_timespec (va : Z) : E kstate (option timespec) :=
  pt ← my_pagetable;
  e ← on_mach (copyin pt kbuf va 16);
  if e <? 0 then mret None
  else sec ← kword 0; nsec ← kword 1; mret (Some (sec, nsec)).

(** ** Time *)

(** while(ticks - ticks0 < rticks): [false] when [killed] says so. *)
Fixpoint ticks_wait (fuel : nat) (killed : E kstate bool) (ticks0 rticks : Z) : E kstate bool :=
  t ← gets ticks;
  if u32 (t - ticks0) <? rticks then
    k ← killed;
    if (k : bool) then mret false
    else
      match fuel with
      | O => nofuel
      | S fuel => thread_sleep swtch ChTicks L_ticks None;; ticks_wait fuel killed ticks0 rticks
      end
  else mret true.

Definition p_killed (p : nat) : E kstate bool := k ← proc_killed p; mret (negb (k =? 0)).

(** The part sys_nanosleep and sys_clock_nanosleep share, with the lock held:
    the result of the call. *)
Definition sleep_ticks (fuel : nat) (p : nat) (ticks0 rticks addr1 : Z) : E kstate Z :=
  ok ← ticks_wait fuel (p_killed p) ticks0 rticks;
  if negb ok then
    (if negb (addr1 =? 0) then
       t ← gets ticks;
       let rem := TICKS2TIMESPEC (u32 (t - ticks0)) in
       copyout_words addr1 [rem.1; rem.2];; mret tt
     else mret tt);;
    release L_ticks;;
    mret (-1)
  else
    e ← (if negb (addr1 =? 0) then copyout_words addr1 [0; 0] else mret 0);
    release L_ticks;;
    mret (if e <? 0 then -1 else 0).

Definition sys_nanosleep (fuel : nat) : E kstate Z :=
  p ← myproc;
  addr0 ← argaddr 0;
  addr1 ← argaddr 1;
  req ← copyin_timespec addr0;
  match req with
  | None => mret (-1)
  | Some req =>
    let rticks := u32 (TIMESPEC2TICKS req) in
    acquire L_ticks;;
    ticks0 ← gets ticks;
    sleep_ticks fuel p ticks0 rticks addr1
  end.

Definition sys_clock_nanosleep (fuel : nat) : E kstate Z :=
  p ← myproc;
  _ ← argint 0;
  _ ← argint 1;
  addr0 ← argaddr 2;
  addr1 ← argaddr 3;
  req ← copyin_timespec addr0;
  match req with
  | None => mret (-1)
  | Some req =>
    acquire L_ticks;;
    ticks0 ← gets ticks;
    let is_invalid := req.1 =? INT_MAX in
    let req := if is_invalid then (1, req.2) else req in
    r ← sleep_ticks fuel p ticks0 (u32 (TIMESPEC2TICKS req)) addr1;
    (if is_invalid && (r =? 0) then thread_exit kend kbuf ch swtch ext4 dev_write wfuel 0 else mret tt);;
    mret r
  end.

Definition t_killed (t : nat) : E kstate bool := k ← thread_killed t; mret (negb (k =? 0)).

Definition sys_sleep (fuel : nat) : E kstate Z :=
  p ← myproc;
  t ← mythread;
  n ← argint 0;
  acquire L_ticks;;
  ticks0 ← gets ticks;
  ok ← ticks_wait fuel (k ← p_killed p; if (k : bool) then mret true else t_killed t) ticks0 (u32 (i32 (10 * n)));
  release L_ticks;;
  mret (if (ok : bool) then 0 else -1).

Definition sys_uptime : E kstate Z :=
  acquire L_ticks;;
  xticks ← gets ticks;
  release L_ticks;;
  mret xticks.

Definition sys_gettimeofday : E kstate Z :=
  addr ← argaddr 0;
  e ← copyout_words addr [rtime / CLK_FREQ; rtime mod CLK_FREQ * 1000000 / CLK_FREQ];
  mret (if e <? 0 then -1 else 0).

Definition sys_clock_gettime : E kstate Z :=
  _ ← arguint64 0;
  tp ← argaddr 1;
  let ts := TIME2TIMESPEC rtime in
  e ← copyout_words tp [ts.1; ts.2];
  mret (if e <? 0 then -1 else 0).

(** The times of the children, process by process. *)
Fixpoint times_loop (n i cur_p : nat) (cu cs : Z) : E kstate (Z * Z) :=
  match n with
  | O => mret (cu, cs)
  | S n =>
    acquire (L_proc i);;
    r ← get_proc i;
    let '(cu, cs) := if bool_decide (parent r = Some cur_p) then (u64 (cu + utime r), u64 (cs + ktime r)) else (cu, cs) in
    release (L_proc i);;
    times_loop n (S i) cur_p cu cs
  end.

Definition sys_times : E kstate Z :=
  utms ← argaddr 0;
  p ← myproc;
  r ← get_proc p;
  c ← times_loop (Z.to_nat NPROC) 0 p 0 0;
  e ← copyout_words utms [utime r; ktime r; c.1; c.2];
  mret (if e <? 0 then -1 else u64 (utime r + ktime r)).

(** ** Processes *)

Definition sys_getpid : E kstate Z := p ← myproc; r ← get_proc p; mret (pid r).
Definition sys_gettid : E kstate Z := t ← mythread; r ← get_tcb t; mret (tid r).
Definition sys_getppid : E kstate Z :=
  p ← myproc;
  r ← get_proc p;
  match parent r with
  | Some q => x ← get_proc q; mret (pid x)
  | None => mret (-1)
  end.

Definition sys_exit : E kstate Z :=
  n ← argint 0;
  thread_exit kend kbuf ch swtch ext4 dev_write wfuel n;;
  mret 0.

Definition sys_exit_group : E kstate Z :=
  n ← argint 0;
  t ← mythread;
  r ← get_tcb t;
  g ← deref (ttg r);
  gr ← get_proc g;
  (if bool_decide (group_leader gr = Some t) then free_allother_threads_group kend t;; mret tt else mret tt);;
  thread_exit kend kbuf ch swtch ext4 dev_write wfuel n;;
  mret 0.

Definition sys_clone : E kstate Z :=
  flags ← argint 0;
  stack ← argaddr 1;
  ptid ← argaddr 2;
  tls ← argaddr 3;
  ctid ← argaddr 4;
  do_clone kend trampoline user_rt_sigreturn forkret kbuf flags stack ptid tls ctid.

Definition sys_fork : E kstate Z := do_clone kend trampoline user_rt_sigreturn forkret kbuf 0 0 0 0 0.

Definition sys_wait4 (fuel : nat) : E kstate Z :=
  id ← argint 0;
  pstatus ← argaddr 1;
  options ← argint 2;
  waitpid kend kbuf swtch fuel id pstatus options.

Definition sys_wait (fuel : nat) : E kstate Z :=
  a ← argaddr 0;
  wait_one kend kbuf swtch fuel a.

Definition sys_sbrk : E kstate Z :=
  n ← argint 0;
  p ← myproc;
  addr ← gets (fun s => psz (procs s p));
  e ← growproc kend n;
  mret (if e <? 0 then -1 else addr).

(** growproc takes an int. *)
Definition sys_brk : E kstate Z :=
  addr ← argaddr 0;
  if (MAXVA <=? addr) || (BRKTOP <=? addr) then mret (-1)
  else
    p ← myproc;
    oldsz ← gets (fun s => psz (procs s p));
    if addr =? 0 then mret oldsz
    else if oldsz <? addr then
      e ← growproc kend (i32 (addr - oldsz));
      if e <? 0 then mret (-1) else gets (fun s => psz (procs s p))
    else mret oldsz.

Definition sys_kill : E kstate Z := id ← argint 0; sig ← arguint64 1; proc_kill id sig.
Definition sys_tkill : E kstate Z := id ← argint 0; sig ← arguint64 1; thread_kill id sig.
Definition sys_tgkill : E kstate Z := gid ← argint 0; id ← argint 1; sig ← argint 2; thread_group_kill gid id sig.

Definition sys_set_tid_address : E kstate Z :=
  addr ← argaddr 0;
  t ← mythread;
  upd_tcb t (set_clear_child_tid addr);;
  r ← get_tcb t;
  mret (tid r).

Definition sys_set_robust_list : E kstate Z := mret 0.

Definition do_prlimit (p : nat) (resource : Z) (new_rlim : option (Z * Z)) (want_old : bool) : E kstate (Z * option (Z * Z)) :=
  if RLIM_NLIMITS <=? resource then mret (- EINVAL, None)
  else
    r ← get_proc p;
    let old := if want_old then Some (rlim r (Z.to_nat resource)) else None in
    match new_rlim with
    | Some v => upd_proc p (fun r => set_rlim (<[Z.to_nat resource := v]> (rlim r)) r)
    | None => mret tt
    end;;
    mret (0, old).

(** The first process whose pid is [id]. *)
Fixpoint find_pid (n i : nat) (id : Z) : E kstate (option nat) :=
  match n with
  | O => mret None
  | S n =>
    r ← get_proc i;
    if pid r =? id then mret (Some i) else find_pid n (S i) id
  end.

(** RLIM_INFINITY and RLIM64_INFINITY are the same value, so the conversions
    between the two structures change nothing. *)
Definition sys_prlimit64 : E kstate Z :=
  id ← argint 0;
  resource ← argint 1;
  new_addr ← argaddr 2;
  old_addr ← argaddr 3;
  new ← (if negb (new_addr =? 0) then
           pt ← my_pagetable;
           e ← on_mach (copyin pt kbuf new_addr 16);
           if e <? 0 then mret None
           else c ← kword 0; m ← kword 1; mret (Some (Some (c, m)))
         else mret (Some None));
  match new with
  | None => mret (-1)
  | Some new =>
    o ← (if negb (id =? 0) then find_pid (Z.to_nat NPROC) 0 id else p ← myproc; mret (Some p));
    match o with
    | None => panic "proc get error"
    | Some p =>
      acquire (L_proc p);;
      r ← do_prlimit p (u32 resource) new (negb (old_addr =? 0));
      ret ← match r with
            | (0, Some (c, m)) => e ← copyout_words old_addr [c; m]; mret (if e <? 0 then - EFAULT else 0)
            | (v, _) => mret v
            end;
      release (L_proc p);;
      mret ret
    end
  end.

(** proc[pid], when there is such an entry. *)
Definition proc_at (i : Z) : E kstate nat := if (0 <=? i) && (i <? NPROC) then mret (Z.to_nat i) else fault.

Definition sys_getpgid : E kstate Z :=
  id ← argint 0;
  if (id <? 0) || (NPROC <=? id) then mret (-1)
  else
    p ← proc_at id;
    r ← get_proc p;
    if bool_decide (pstate r = UNUSED) then mret (-1)
    else
      acquire (L_proc p);;
      r ← get_proc p;
      release (L_proc p);;
      mret (pgid r).

(** The lock is taken twice. *)
Definition sys_setpgid : E kstate Z :=
  id ← argint 0;
  g ← argint 1;
  if (id <? 0) || (NPROCID <=? id) then mret (-1)
  else if (g <? 0) || (NPROC_GROUP <=? g) then mret (-1)
  else
    p ← (if id =? 0 then myproc else proc_at id);
    r ← get_proc p;
    if bool_decide (pstate r = UNUSED) then mret (-1)
    else
      acquire (L_proc p);;
      let g := if g =? 0 then pid r else g in
      acquire (L_proc p);;
      upd_proc p (set_pgid g);;
      release (L_proc p);;
      mret 0.

Definition sys_futex : E kstate Z :=
  uaddr ← argaddr 0;
  futex_op ← argint 1;
  val ← arguint32 2;
  timeout_addr ← argaddr 3;
  timeout ← (if futex_need_timeout futex_op && negb (timeout_addr =? 0) then
               ts ← copyin_timespec timeout_addr; mret (option_map Some ts)
             else mret (Some None));
  match timeout with
  | None => mret (-1)
  | Some ts => do_futex kend uval swtch uaddr futex_op val ts
  end.

Definition sys_madvice : E kstate Z := mret 0.

(** ** The rest of sysother.c *)

Definition sys_uname : E kstate Z :=
  addr ← argaddr 0;
  pt ← my_pagetable;
  e ← on_mach (copyout pt addr g_uts uts_size);
  mret (if e <? 0 then -1 else 0).

Definition sys_sched_yield : E kstate Z := thread_yield swtch;; mret 0.

Fixpoint rand_loop (n : nat) (a : Z) : E kstate unit :=
  match n with
  | O => mret tt
  | S n => x ← randkernel; on_mach (upd_mem (fun m => mset m a x));; rand_loop n (a + 1)
  end.

Definition sys_getrandom : E kstate Z :=
  addr ← argaddr 0;
  buflen ← argaddr 1;
  if 4096 <? buflen then mret (-1)
  else
    buf ← on_mach (kmalloc buflen);
    if buf =? 0 then mret (-1)
    else
      rand_loop (Z.to_nat buflen) buf;;
      pt ← my_pagetable;
      e ← on_mach (copyout pt addr buf buflen);
      if e <? 0 then mret (-1)
      else on_mach (kfree kend buf);; mret buflen.

Definition sys_getuid : E kstate Z := mret 0.
Definition sys_setuid : E kstate Z := mret 0.
Definition sys_getgid : E kstate Z := mret 0.
Definition sys_setgid : E kstate Z := mret 0.
Definition sys_geteuid : E kstate Z := mret 0.
Definition sys_ppoll : E kstate Z := argaddr 1.

(** The fields that are not set keep what the memory of the structure held. *)
Definition SYSINFO_SIZE : Z := 112.
Definition sys_sysinfo : E kstate Z :=
  addr ← argaddr 0;
  free ← gets (fun s => freemem_bytes (km s));
  n ← gets procs_cnt;
  on_mach (upd_mem (fun m =>
    let m := store64 m kbuf (TIME2SEC rtime) in
    let m := store_words m (kbuf + 32) [totalram_bytes kend; free; 0; 0; 0; 0] in
    store m (kbuf + 80) 2 n));;
  pt ← my_pagetable;
  e ← on_mach (copyout pt addr kbuf SYSINFO_SIZE);
  mret (if e <? 0 then -1 else 0).
End Calls.

(** * kernel/ipc/syssig.c: the system calls on signals

    Local variables that are copied from or to user memory lie at the addresses
    named below. *)

(** sizeof(struct sigaction) and the offsets of its fields. *)
Definition SIGACTION_SIZE : Z := 32.

Section SysSig.
(** [extern char end[]]; uc and uc_riscv of the signal delivery; the local
    siginfo of do_sigtimedwait; here: act, the variable oldact_addr, set,
    info and timeout. *)
Context (kend kuc kucr ksi kact koldact_addr kset kinfo kts : Z) (swtch : nat -> E kstate unit).

Definition load_sigaction (m : mem) (a : Z) : sigaction :=
  Sigaction (load64 m a) (load64 m (a + 8)) (i32 (load m (a + 16) 4)) (load64 m (a + 24)).

(** The bytes copied out when the old action is asked for are those of the
    variable oldact_addr and of what follows it on the stack. *)
Definition sys_sigaction : E kstate Z :=
  t ← mythread;
  signum ← argint 0;
  act_addr ← argaddr 1;
  oldact_addr ← argaddr 2;
  pt ← my_pagetable;
  e ← (if negb (act_addr =? 0) then on_mach (copyin pt kact act_addr SIGACTION_SIZE) else mret 0);
  if e <? 0 then mret (-1)
  else
    act ← gets (fun s => load_sigaction (mmem (km s)) kact);
    r ← do_sigaction t signum (if act_addr =? 0 then None else Some act) (negb (oldact_addr =? 0));
    if (r.1 =? 0) && negb (oldact_addr =? 0) then
      on_mach (upd_mem (fun m => store64 m koldact_addr oldact_addr));;
      e ← on_mach (copyout pt oldact_addr koldact_addr SIGACTION_SIZE);
      mret (if e <? 0 then -1 else r.1)
    else mret r.1.

Definition sys_rt_sigprocmask : E kstate Z :=
  t ← mythread;
  how ← argint 0;
  set_addr ← argaddr 1;
  oldset_addr ← argaddr 2;
  size ← arguint64 3;
  if negb (size =? 8) then mret (-1)
  else
    pt ← my_pagetable;
    e ← (if negb (set_addr =? 0) then on_mach (copyin pt kset set_addr 8) else mret 0);
    if e <? 0 then mret (-1)
    else
      set ← gets (fun s => load64 (mmem (km s)) kset);
      r ← do_sigprocmask t how (if set_addr =? 0 then None else Some set) (negb (oldset_addr =? 0));
      match r with
      | (0, Some old) => e ← copyout_int kset pt oldset_addr old 8; mret (if e <? 0 then -1 else 0)
      | (v, _) => mret v
      end.

Definition sys_sigreturn : E kstate Z :=
  t ← mythread;
  rtf ← tf_get t TF_SP;
  signal_frame_restore kuc kucr t rtf;;
  upd_tcb t (fun r => set_pend_set (sig_del_set_mask (pend_set r) (sig_gen_mask (sig_processing r))) r);;
  tf_get t TF_A0.

Definition sys_sigtimedwait : E kstate Z :=
  set_addr ← argaddr 0;
  info_addr ← argaddr 1;
  timeout_addr ← argaddr 2;
  pt ← my_pagetable;
  e ← (if negb (set_addr =? 0) then on_mach (copyin pt kset set_addr 8) else mret 0);
  if e <? 0 then mret (-1)
  else
    e ← (if negb (timeout_addr =? 0) then on_mach (copyin pt kts timeout_addr 16) else mret 0);
    if e <? 0 then mret (-1)
    else
      m ← gets (fun s => mmem (km s));
      if set_addr =? 0 then fault
      else
        ret ← do_sigtimedwait kend kuc kucr ksi swtch (load64 m kset) (if info_addr =? 0 then 0 else kinfo)
                (if timeout_addr =? 0 then None else Some (load64 m kts, load64 m (kts + 8)));
        if ret <? 0 then mret ret
        else if negb (info_addr =? 0) then
          e ← on_mach (copyout pt info_addr kinfo SIGINFO_SIZE);
          mret (if e <? 0 then -1 else ret)
        else mret ret.
End SysSig.

(** * What some of the process system calls do

    The generator behind getrandom is the minimal standard generator of Park
    and Miller, and setpgid never returns once its arguments are accepted. *)

(** ** Random numbers *)

(** x = 7^5 x mod 2^31 - 1 on the numbers 1 .. 2^31 - 2, shifted by one. *)
Definition park_miller (ctx : Z) : Z := (7 ^ 5 * (ctx mod 0x7ffffffe + 1)) mod 0x7fffffff - 1.

Fixpoint draws (n : nat) (ctx : Z) : list Z :=
  match n with
  | O => []
  | S n => park_miller ctx :: draws n (park_miller ctx)
  end.

(** 2^31 - 1 is prime, and 7^5 has an inverse modulo it. *)
Lemma park_miller_nonzero x : 1 <= x <= 0x7ffffffe -> (16807 * x) mod 0x7fffffff <> 0.
Proof.
  intros Hx H. pose proof (f_equal (fun y => (1407677000 * y) mod 0x7fffffff) H) as H'. cbn beta in H'.
  rewrite Zmult_mod_idemp_r, Z.mul_assoc, <- Zmult_mod_idemp_l in H'. change ((1407677000 * 16807) mod 0x7fffffff) with 1 in H'.
  rewrite Z.mul_1_l, Z.mod_small in H' by lia. change ((1407677000 * 0) mod 0x7fffffff) with 0 in H'. lia.
Qed.

Lemma park_miller_range ctx : 0 <= park_miller ctx <= 0x7ffffffd.
Proof.
  unfold park_miller. pose proof (Z.mod_pos_bound ctx 0x7ffffffe ltac:(lia)). pose proof (park_miller_nonzero (ctx mod 0x7ffffffe + 1) ltac:(lia)).
  change (7 ^ 5) with 16807. pose proof (Z.mod_pos_bound (16807 * (ctx mod 0x7ffffffe + 1)) 0x7fffffff ltac:(lia)). lia.
Qed.

(** Schrage's decomposition 2^31 - 1 = 127773 * 7^5 + 2836. *)
Lemma do_rand_kernel_eq ctx : do_rand_kernel ctx = (park_miller ctx, park_miller ctx).
Proof.
  pose proof (park_miller_range ctx) as Hr. unfold do_rand_kernel, park_miller in *. change (7 ^ 5) with 16807 in *.
  pose proof (Z.mod_pos_bound ctx 0x7ffffffe ltac:(lia)) as Hx. set (x := ctx mod 0x7ffffffe + 1) in *. assert (Hx' : 1 <= x <= 0x7ffffffe) by lia. clearbody x.
  pose proof (Z.div_mod x 127773 ltac:(lia)) as Hd. pose proof (Z.mod_pos_bound x 127773 ltac:(lia)) as Hm.
  assert (Hh : 0 <= x / 127773 < 16808) by (split; [apply Z.div_pos; lia|apply Z.div_lt_upper_bound; lia]).
  set (hi := x / 127773) in *. set (lo := x mod 127773) in *. clearbody hi lo.
  assert (He : 16807 * x = (16807 * lo - 2836 * hi) + hi * 0x7fffffff) by lia.
  assert (Hv : (16807 * x) mod 0x7fffffff = if 16807 * lo - 2836 * hi <? 0 then 16807 * lo - 2836 * hi + 0x7fffffff else 16807 * lo - 2836 * hi).
  { rewrite He, Z_mod_plus_full. destruct (Z.ltb_spec (16807 * lo - 2836 * hi) 0).
    - rewrite <- (Z_mod_plus_full _ 1), Z.mul_1_l. apply Z.mod_small. lia.
    - apply Z.mod_small. lia. }
  rewrite <- Hv. rewrite sint_small, wrap_small by lia. done.
Qed.

Lemma last_cons_default {A} (x d : A) l : List.last (x :: l) d = List.last l x.
Proof. revert x d. induction l as [|y l IH]; intros x d; [done|]. change (List.last (x :: y :: l) d) with (List.last (y :: l) d). by rewrite !IH. Qed.

(** The bytes getrandom draws into its buffer are the low bytes of the
    successive numbers of the generator x = 7^5 x mod 2^31 - 1, although the
    code never computes with more than 32 bits; every number is in the range
    0 .. 2^31 - 3, the last one is the new state of the generator, and no other
    byte of memory changes. *)
Theorem getrandom_draws (n : nat) (a : Z) (s : kstate) :
  wp (rand_loop n a) (fun _ s' =>
    (forall i x, draws n (rand_next s) !! i = Some x -> 0 <= x <= 2 ^ 31 - 3 /\ mmem (km s') (a + Z.of_nat i) = u8 x) /\
    rand_next s' = List.last (draws n (rand_next s)) (rand_next s) /\
    (forall x, x < a \/ a + Z.of_nat n <= x -> mmem (km s') x = mmem (km s) x)) s.
Proof.
  revert a s. induction n as [|n IH]; intros a s; cbn [rand_loop draws]; [by apply wp_ret|].
  apply wp_bind. unfold randkernel. apply wp_bind, wp_gets. rewrite do_rand_kernel_eq. apply wp_bind, wp_modify, wp_ret. cbn [fst snd].
  apply wp_bind, wp_zoom, wp_modify. set (x := park_miller (rand_next s)).
  eapply wp_mono; [apply IH|]. cbn beta. cbn [rand_next set_rand_next set_km km mmem set_mmem]. fold x. intros _ s' (Hd & Hn & Hm).
  split; [|split].
  - intros [|i] y Hy.
    + injection Hy as <-. split; [pose proof (park_miller_range (rand_next s)); unfold x; lia|]. rewrite Hm by lia. rewrite Z.add_0_r. apply mset_eq.
    + destruct (Hd i y Hy) as [Hr Hb]. split; [done|]. rewrite <- Hb. f_equal. lia.
  - by rewrite Hn, last_cons_default.
  - intros y Hy. rewrite Hm by lia. apply mset_ne. lia.
Qed.

(** ** setpgid *)

(** setpgid takes the lock of the process it changes twice: when its
    arguments are in range and name the caller, or an entry of the table in use,
    it does not return but panics. *)
Theorem sys_setpgid_panics (id g : Z) (p : nat) (s : kstate) :
  int_arg s 0 id -> int_arg s 1 g -> 0 <= id < NPROC -> 0 <= g < NPROC_GROUP ->
  (if id =? 0 then runs_in s p else Z.of_nat p = id) -> pstate (procs s p) <> UNUSED -> L_proc p ∉ held (km s) ->
  panics sys_setpgid "acquire" s.
Proof.
  intros Hid Hg Hir Hgr Hp Hu Hl. unfold sys_setpgid.
  eapply panics_read; [by eapply wp_argint|]. eapply panics_read; [by eapply wp_argint|].
  unfold NPROCID, NPROC_GROUP, NPROC in *. rewrite (proj2 (Z.ltb_ge id 0)), (proj2 (Z.leb_gt 65536 id)), (proj2 (Z.ltb_ge g 0)), (proj2 (Z.leb_gt 64 g)) by lia. cbn [orb].
  eapply (panics_read _ _ _ p).
  { destruct (id =? 0); [by eapply wp_myproc|]. unfold proc_at, NPROC. rewrite (proj2 (Z.leb_le 0 id)), (proj2 (Z.ltb_lt id _)) by lia. cbn [andb].
    apply wp_ret. split; [lia|done]. }
  eapply panics_read; [by apply wp_gets|]. rewrite (bool_decide_false _ Hu).
  eapply (panics_after _ _ _ (fun _ s' => held (km s') = L_proc p :: held (km s))); [by apply wp_kacquire|].
  intros _ s' Hh. apply panics_bind. exists s'. unfold acquire, on_mach, zoom, KTypes.acquire, acquire_held.
  rewrite Hh, bool_decide_true by by left. by destruct s'.
Qed.

Lemma sys_setpgid_panics_witness : exists s, panics sys_setpgid "acquire" s.
Proof.
  generalize booted. intros b. exists (set_procs (fun _ => set_pstate USED fd_proc) (fd_state 0 0 b)).
  apply (sys_setpgid_panics 0 0 0%nat (set_procs (fun _ => set_pstate USED fd_proc) (fd_state 0 0 b))).
  - exists 0. split; [|done]. by exists 0%nat.
  - exists 0. split; [|done]. by exists 0%nat.
  - done.
  - done.
  - by exists 0%nat.
  - done.
  - apply not_elem_of_nil.
Defined.
