(* ===== verification/Trap.v ===== *)
(** * kernel/sched/trap.c and kernel/arch/qemu/plic.c: traps

    The RISC-V half of trap.c.  Control registers are [csr] of the state; the
    spinlocks of this model do not touch the interrupt enable bit, whose nesting
    is in [Spinlock].  usertrapret ends in a jump to userret of trampoline.S: it
    returns the two arguments of that call. *)
From S2P Require Import Prelude Mem CString KTypes Kalloc Vm ListHead KState Queue Sched Signal Thread ThreadInv SchedSpec ProcBase Pipe Console File Mmap Futex Proc SigHandle Bio VirtioDisk Fd FdSpec FdFiles.
Definition SSTATUS_SUM : Z := Z.shiftl 1 18.
Definition SSTATUS_SPP : Z := Z.shiftl 1 8.
Definition SSTATUS_SPIE : Z := Z.shiftl 1 5.
Definition SSTATUS_SIE : Z := Z.shiftl 1 1.
Definition SATP_SV39 : Z := Z.shiftl 8 60.
Definition MAKE_SATP (pagetable : Z) : Z := Z.lor SATP_SV39 (Z.shiftr pagetable 12).
Definition INTERVAL : Z := 12500000 / TICKS_PER_SECOND.
Definition UART0_IRQ : Z := 10.
Definition VIRTIO0_IRQ : Z := 1.
Definition MAXINTR : Z := 16.

Definition TF_KERNEL_SATP : Z := 0.
Definition TF_KERNEL_SP : Z := 8.
Definition TF_KERNEL_TRAP : Z := 16.
Definition TF_KERNEL_HARTID : Z := 32.

(** ** Control registers *)

Definition r_csr (f : trapregs -> Z) : E kstate Z := gets (fun s => f (csr s)).
Definition w_csr (f : trapregs -> trapregs) : E kstate unit := modify (fun s => set_csr (f (csr s)) s).

Definition intr_on : E kstate unit := x ← r_csr sstatus; w_csr (set_sstatus (Z.lor x SSTATUS_SIE)).
Definition intr_off : E kstate unit := x ← r_csr sstatus; w_csr (set_sstatus (Z.land x (Z.lnot SSTATUS_SIE))).
Definition intr_get : E kstate bool := x ← r_csr sstatus; mret (has_bits x SSTATUS_SIE).

(** record_intr of kernel/fs/procfs.c. *)
Definition record_intr (intr : Z) : E kstate unit :=
  if MAXINTR <=? intr then mret tt
  else
    let i := Z.to_nat intr in
    modify (fun s => set_intrcnt (<[i := u64 (intrcnt s i + 1)]> (intrcnt s)) s).

(** ** Interrupt controller *)

Definition plic_write (a v : Z) : E kstate unit := modify (fun s => set_plicw (plicw s ++ [(a, v)]) s).
Definition PLIC_SENABLE (hart : Z) : Z := PLIC + 0x2080 + hart * 0x100.
Definition PLIC_SPRIORITY (hart : Z) : Z := PLIC + 0x201000 + hart * 0x2000.
Definition PLIC_SCLAIM (hart : Z) : Z := PLIC + 0x201004 + hart * 0x2000.

Definition plicinit : E kstate unit :=
  plic_write (PLIC + UART0_IRQ * 4) 1;;
  plic_write (PLIC + VIRTIO0_IRQ * 4) 1.

Definition trapinit : E kstate unit :=
  initlock L_ticks;;
  initlock L_timeout.

Section Trap.
(** Addresses of the assembly entry points and of usertrap. *)
Context (kernelvec uservec trampoline usertrap_addr : Z).
(** cpuid(), boot_hart, r_time(), and what the hardware answers when the claim
    register of the PLIC is read. *)
Context (hart boot_hart rtime sclaim : Z).
(** The disk's registers, ^P, the bounds of the device waits. *)
Context (R : Z -> Z) (procdump : E kstate unit) (ufuel dfuel : nat).
(** The system calls, and what exit, signals and page faults need. *)
Context (syscalls : Z -> option (E kstate Z)) (nsyscalls : Z).
Context (kend kbuf ch kuc kucr : Z) (swtch : nat -> E kstate unit) (ext4 : option fs_ops).
Context (dev_write : Z -> option (bool -> Z -> Z -> E kstate Z)) (wfuel : nat).

Definition plicinithart : E kstate unit :=
  plic_write (PLIC_SENABLE hart) (Z.lor (Z.shiftl 1 UART0_IRQ) (Z.shiftl 1 VIRTIO0_IRQ));;
  plic_write (PLIC_SPRIORITY hart) 0.
Definition plic_claim : E kstate Z := mret (i32 sclaim).
Definition plic_complete (irq : Z) : E kstate unit := plic_write (PLIC_SCLAIM hart) (u32 irq).

Definition trapinithart : E kstate unit := w_csr (set_stvec kernelvec).
Definition set_next_trigger : E kstate unit := w_csr (set_next_timer (u64 (rtime + INTERVAL))).

(** ** Interrupts *)

Definition clockintr : E kstate unit :=
  acquire L_ticks;;
  modify (fun s => set_ticks (u32 (ticks s + 1)) s);;
  thread_wakeup_chan ChTicks;;
  release L_ticks;;
  acquire L_timeout;;
  now ← gets ticks;
  thread_wakeup_timeout now;;
  release L_timeout.

(** [w_sip(r_sip() & ~1 << 5)]: the mask is (~1) << 5. *)
Definition devintr : E kstate Z :=
  cause ← r_csr scause;
  if has_bits cause 0x8000000000000000 && (Z.land cause 0xff =? 9) then
    irq ← plic_claim;
    (if irq =? UART0_IRQ then uartintr procdump ufuel
     else if irq =? VIRTIO0_IRQ then virtio_disk_intr R dfuel
     else mret tt);;
    (if negb (irq =? 0) then plic_complete irq else mret tt);;
    record_intr 9;;
    mret 1
  else if cause =? 0x8000000000000005 then
    (if hart =? boot_hart then clockintr else mret tt);;
    x ← r_csr sip;
    w_csr (set_sip (Z.land x (u64 (Z.shiftl (Z.lnot 1) 5))));;
    set_next_trigger;;
    record_intr 5;;
    mret 2
  else if (cause =? 13) || (cause =? 15) then mret 3
  else mret 0.

Definition kerneltrap : E kstate unit :=
  sepc0 ← r_csr sepc;
  sstatus0 ← r_csr sstatus;
  panic_if (Z.land sstatus0 SSTATUS_SPP =? 0) "kerneltrap: not from supervisor mode";;
  i ← intr_get;
  panic_if i "kerneltrap: interrupts enabled";;
  which_dev ← devintr;
  panic_if (which_dev =? 0) "kerneltrap";;
  c ← gets cur;
  match c with
  | Some t =>
    r ← get_tcb t;
    if (which_dev =? 2) && bool_decide (tstate r = TCB_RUNNING) then
      p ← myproc;
      upd_proc p (fun r => set_ktime (u64 (ktime r + 1)) r);;
      thread_yield swtch
    else mret tt
  | None => mret tt
  end;;
  panic_if (which_dev =? 3) "kerneltrap: page fault";;
  w_csr (set_sepc sepc0);;
  w_csr (set_sstatus sstatus0).

(** ** From and to user space *)

Definition usertrapret : E kstate (Z * Z) :=
  p ← myproc;
  t ← mythread;
  intr_off;;
  w_csr (set_stvec (u64 (TRAMPOLINE + (uservec - trampoline))));;
  k ← r_csr satp;
  tf_set t TF_KERNEL_SATP k;;
  r ← get_tcb t;
  tf_set t TF_KERNEL_SP (u64 (kstack r + KSTACK_PAGE * PGSIZE));;
  tf_set t TF_KERNEL_TRAP usertrap_addr;;
  tf_set t TF_KERNEL_HARTID hart;;
  x ← r_csr sstatus;
  let x := Z.land x (Z.lnot SSTATUS_SPP) in
  let x := Z.lor x SSTATUS_SPIE in
  let x := Z.lor x SSTATUS_SUM in
  w_csr (set_sstatus x);;
  epc ← tf_get t TF_EPC;
  w_csr (set_sepc epc);;
  q ← get_proc p;
  r ← get_tcb t;
  mret (MAKE_SATP (pagetable q), THREAD_TRAPFRAME (tidx r)).

Definition exit_with (status : Z) : E kstate unit := thread_exit kend kbuf ch swtch ext4 dev_write wfuel status.

(** An exception no handler knows: every thread of the process is marked, and
    this one exits. *)
Definition unexpected_trap (p : nat) : E kstate unit :=
  for_each_safe (R := unit) (TgThreads p) (fun l => t ← deref (node_index l); thread_setkilled t;; mret None);;
  proc_setkilled p;;
  exit_with (-1).

Definition usertrap : E kstate (Z * Z) :=
  x ← r_csr sstatus;
  panic_if (has_bits x SSTATUS_SPP) "usertrap: not from user mode";;
  w_csr (set_stvec kernelvec);;
  p ← myproc;
  t ← mythread;
  pc ← r_csr sepc;
  tf_set t TF_EPC pc;;
  cause ← r_csr scause;
  which_dev ←
    (if cause =? 8 then
       k ← thread_killed t;
       (if negb (k =? 0) then exit_with (-1) else mret tt);;
       e ← tf_get t TF_EPC;
       tf_set t TF_EPC (u64 (e + 4));;
       intr_on;;
       syscall syscalls nsyscalls;;
       mret 0
     else
       d ← devintr;
       if negb (d =? 0) then mret d
       else unexpected_trap p;; mret 0);
  k ← thread_killed t;
  k ← (if negb (k =? 0) then mret k else proc_killed p);
  (if negb (k =? 0) then exit_with 0 else mret tt);;
  (if which_dev =? 2 then
     upd_proc p (fun r => set_utime (u64 (utime r + 1)) r);;
     thread_yield swtch
   else mret tt);;
  (if which_dev =? 3 then
     a ← r_csr stval;
     pgfault_handler ext4 a
   else mret tt);;
  signal_handle kend kuc kucr t 0 0;;
  usertrapret.
End Trap.

(** * What the trap code does

    The return to user space, the timer interrupt, and a system call that is not
    in the table, from the trap to the return. *)

Section TrapSpec.
Context (kernelvec uservec trampoline usertrap_addr hart boot_hart rtime sclaim : Z).

Lemma wp_frame_set t f v (Q : unit -> kstate -> Prop) s :
  trapframe (tcbs s t) <> 0 -> Q tt (set_km (set_mmem (store64 (mmem (km s)) (trapframe (tcbs s t) + f) v) (km s)) s) -> wp (tf_set t f v) Q s.
Proof. intros Ha HQ. unfold tf_set. apply wp_bind, wp_gets. rewrite (proj2 (Z.eqb_neq _ 0) Ha). by apply wp_zoom, wp_modify. Qed.

Lemma wp_frame_get t f (Q : Z -> kstate -> Prop) s :
  trapframe (tcbs s t) <> 0 -> Q (load64 (mmem (km s)) (trapframe (tcbs s t) + f)) s -> wp (tf_get t f) Q s.
Proof. intros Ha HQ. unfold tf_get. apply wp_bind, wp_gets. rewrite (proj2 (Z.eqb_neq _ 0) Ha). by apply wp_gets. Qed.

Lemma wp_mythread t (Q : nat -> kstate -> Prop) s : cur s = Some t -> Q t s -> wp mythread Q s.
Proof. intros Hc HQ. unfold mythread. apply wp_bind, wp_gets. rewrite Hc. by eapply wp_deref. Qed.

Lemma wp_r_csr f (Q : Z -> kstate -> Prop) s : Q (f (csr s)) s -> wp (r_csr f) Q s.
Proof. intros HQ. by apply wp_gets. Qed.

Lemma wp_w_csr f (Q : unit -> kstate -> Prop) s : Q tt (set_csr (f (csr s)) s) -> wp (w_csr f) Q s.
Proof. intros HQ. by apply wp_modify. Qed.

(** The status register on the way back: from user mode, with interrupts on
    once there, off until then, and access to user memory. *)
Definition user_status (x : Z) : Z := Z.lor (Z.lor (Z.land (Z.land x (Z.lnot SSTATUS_SIE)) (Z.lnot SSTATUS_SPP)) SSTATUS_SPIE) SSTATUS_SUM.

Lemma user_status_bits x i :
  0 <= i -> Z.testbit (user_status x) i = if (i =? 1) || (i =? 8) then false else if (i =? 5) || (i =? 18) then true else Z.testbit x i.
Proof.
  intros Hi. unfold user_status, SSTATUS_SIE, SSTATUS_SPP, SSTATUS_SPIE, SSTATUS_SUM.
  rewrite !Z.lor_spec, !Z.land_spec, !Z.lnot_spec, !Z.shiftl_1_l, !Z.pow2_bits_eqb by lia. rewrite !(Z.eqb_sym _ i).
  destruct (Z.eqb_spec i 1), (Z.eqb_spec i 8), (Z.eqb_spec i 5), (Z.eqb_spec i 18); try lia; destruct (Z.testbit x i); done.
Qed.

(** The trap frame at [a] as usertrapret leaves it. *)
Definition kernel_words (m : mem) (a k sp : Z) : mem :=
  store64 (store64 (store64 (store64 m (a + TF_KERNEL_SATP) k) (a + TF_KERNEL_SP) sp) (a + TF_KERNEL_TRAP) usertrap_addr) (a + TF_KERNEL_HARTID) hart.

Lemma kernel_words_epc m a k sp : load64 (kernel_words m a k sp) (a + TF_EPC) = load64 m (a + TF_EPC).
Proof. unfold kernel_words, TF_KERNEL_SATP, TF_KERNEL_SP, TF_KERNEL_TRAP, TF_KERNEL_HARTID, TF_EPC. rewrite !load64_store64_other by lia. done. Qed.

Lemma wp_usertrapret p t (Q : Z * Z -> kstate -> Prop) s :
  runs_in s p -> cur s = Some t -> trapframe (tcbs s t) <> 0 ->
  Q (MAKE_SATP (pagetable (procs s p)), THREAD_TRAPFRAME (tidx (tcbs s t)))
    (let c := csr s in
     let m := mmem (km s) in
     let a := trapframe (tcbs s t) in
     set_csr (set_sepc (load64 m (a + TF_EPC)) (set_sstatus (user_status (sstatus c)) (set_stvec (u64 (TRAMPOLINE + (uservec - trampoline))) c)))
       (set_km (set_mmem (kernel_words m a (satp c) (u64 (kstack (tcbs s t) + KSTACK_PAGE * PGSIZE))) (km s)) s)) ->
  wp (usertrapret uservec trampoline usertrap_addr hart) Q s.
Proof.
  intros Hr Hc Ha HQ. unfold usertrapret. apply wp_bind. eapply wp_myproc; [exact Hr|]. apply wp_bind. apply (wp_mythread t); [exact Hc|].
  apply wp_bind. unfold intr_off. apply wp_bind, wp_r_csr, wp_w_csr. apply wp_bind, wp_w_csr. apply wp_bind, wp_r_csr.
  apply wp_bind, wp_frame_set; [exact Ha|]. apply wp_bind, wp_gets. apply wp_bind, wp_frame_set; [exact Ha|]. apply wp_bind, wp_frame_set; [exact Ha|]. apply wp_bind, wp_frame_set; [exact Ha|].
  apply wp_bind, wp_r_csr. cbn zeta. apply wp_bind, wp_w_csr. apply wp_bind, wp_frame_get; [exact Ha|]. apply wp_bind, wp_w_csr.
  apply wp_bind, wp_gets, wp_bind, wp_gets, wp_ret.
  cbn [csr set_csr set_km km mmem set_mmem tcbs procs sstatus satp set_sstatus set_stvec] in *.
  pose proof (kernel_words_epc (mmem (km s)) (trapframe (tcbs s t)) (satp (csr s)) (u64 (kstack (tcbs s t) + KSTACK_PAGE * PGSIZE))) as He.
  unfold kernel_words in *. rewrite He. exact HQ.
Qed.

(** C5: usertrapret leaves the machine ready for user mode: previous mode user,
    interrupts off until the return and on after it, user memory accessible and
    every other status bit kept; the program counter is the one saved in the
    trap frame; the next trap goes to uservec, which finds the kernel's page
    table, stack, handler and hart in the trap frame, whose other words are as
    before; and the page table handed to userret is that of the process. *)
Theorem usertrapret_enters_user (p t : nat) (s : kstate) :
  runs_in s p -> cur s = Some t -> trapframe (tcbs s t) <> 0 ->
  wp (usertrapret uservec trampoline usertrap_addr hart) (fun r s' =>
    let a := trapframe (tcbs s t) in
    let m := mmem (km s) in
    let m' := mmem (km s') in
    r = (MAKE_SATP (pagetable (procs s p)), THREAD_TRAPFRAME (tidx (tcbs s t))) /\
    (forall i, 0 <= i -> Z.testbit (sstatus (csr s')) i =
       if (i =? 1) || (i =? 8) then false else if (i =? 5) || (i =? 18) then true else Z.testbit (sstatus (csr s)) i) /\
    sepc (csr s') = load64 m (a + TF_EPC) /\ stvec (csr s') = u64 (TRAMPOLINE + (uservec - trampoline)) /\
    load64 m' (a + TF_KERNEL_SATP) = u64 (satp (csr s)) /\ load64 m' (a + TF_KERNEL_SP) = u64 (kstack (tcbs s t) + KSTACK_PAGE * PGSIZE) /\
    load64 m' (a + TF_KERNEL_TRAP) = u64 usertrap_addr /\ load64 m' (a + TF_KERNEL_HARTID) = u64 hart /\
    (forall x, x < a \/ a + TF_EPC <= x < a + TF_KERNEL_HARTID \/ a + 40 <= x -> m' x = m x)) s.
Proof.
  intros Hr Hc Ha. apply (wp_usertrapret p t); [done..|]. cbn zeta. cbn [csr set_csr sstatus sepc stvec set_sepc set_sstatus set_stvec km set_km mmem set_mmem].
  split; [done|]. split; [intros i Hi; by apply user_status_bits|]. split; [done|]. split; [done|].
  unfold kernel_words, TF_KERNEL_SATP, TF_KERNEL_SP, TF_KERNEL_TRAP, TF_KERNEL_HARTID, TF_EPC.
  split; [rewrite !(load64_store64_other _ _ _ _) by lia; apply load64_store64_same|].
  split; [rewrite !(load64_store64_other _ _ _ _) by lia; rewrite load64_store64_same; apply wrap_wrap; lia|].
  split; [rewrite !(load64_store64_other _ _ _ _) by lia; apply load64_store64_same|].
  split; [apply load64_store64_same|]. intros x Hx. rewrite !store64_out by lia. done.
Qed.

(** ** The timer *)

Lemma elem_selects s P t : t ∈ filter (selects s P) table <-> is_thread t /\ cur s <> Some t /\ P (tcbs s t) = true.
Proof.
  rewrite list_elem_of_filter. unfold selects, table, is_thread. rewrite elem_of_seq, andb_True, bool_decide_spec. rewrite Is_true_true.
  split; [intros ((? & ?) & ?); split_and!; [lia|congruence|done]|intros (? & ? & ?); split_and!; try done; try lia; congruence].
Qed.

Lemma held_restore_all (m : mach) h1 h2 h3 : set_held (held m) (set_held h1 (set_held h2 (set_held h3 m))) = m.
Proof. by destruct m. Qed.

(** What a tick changes. *)
Record ticked (s s' : kstate) : Prop := {
  tk_inv : exists tq, sched_inv s' tq ∅;
  tk_ticks : ticks s' = u32 (ticks s + 1);
  tk_km : km s' = km s;
  tk_woken : forall t, is_thread t -> cur s <> Some t -> tstate (tcbs s t) = TCB_SLEEPING -> chan (tcbs s t) = ChTicks -> tstate (tcbs s' t) = TCB_RUNNABLE;
  tk_kept : forall t, tstate (tcbs s t) <> TCB_SLEEPING \/ (chan (tcbs s t) <> ChTicks /\ timeout (tcbs s t) <> u32 (ticks s + 1)) -> tcbs s' t = tcbs s t;
  tk_csr : csr s' = csr s;
  tk_intrcnt : intrcnt s' = intrcnt s;
  tk_cur : cur s' = cur s;
}.

Lemma sched_rest_fields s s' : sched_rest s s' -> km s' = km s /\ ticks s' = ticks s /\ csr s' = csr s /\ intrcnt s' = intrcnt s /\ cur s' = cur s.
Proof.
  intros (K & _ & H & _). split; [exact K|]. split_and!; [by apply (f_equal ticks) in H|by apply (f_equal csr) in H|by apply (f_equal intrcnt) in H|by apply (f_equal cur) in H].
Qed.

(** A wakeup of threads with one lock held. *)
Lemma wake_locks l s : (forall q, l <> L_queue q) -> (forall t, l <> L_tcb t) -> held (km s) = [l] -> locks_free s /\ (forall t, L_tcb t ∉ held (km s)).
Proof.
  intros Hq Ht Hh. split; [intros st|intros t]; rewrite Hh; intros Hin%list_elem_of_singleton; [by apply (Hq (TQ st))|by apply (Ht t)].
Qed.

Lemma wp_clockintr s tq : sched_inv s tq ∅ -> held (km s) = [] -> wp clockintr (fun _ s' => ticked s s') s.
Proof.
  intros Hi Hh. unfold clockintr. apply wp_bind, wp_kacquire; [rewrite Hh; apply not_elem_of_nil|]. rewrite Hh. apply wp_bind, wp_modify. cbn [ticks set_km].
  set (s1 := set_ticks _ _). assert (Hi1 : sched_inv s1 tq ∅) by (by eapply sched_inv_same).
  destruct (wake_locks L_ticks s1 ltac:(done) ltac:(done) ltac:(done)) as [Hlf1 Hl1].
  apply wp_bind. eapply wp_mono; [by apply (wp_thread_wakeup_chan ChTicks tq)|]. cbn beta. intros _ s2 [Hi2 Ht2 Hr2].
  destruct (sched_rest_fields _ _ Hr2) as (Hk2 & Hn2 & Hc2 & Hx2 & Hu2).
  apply wp_bind. eapply (wp_krelease L_ticks []); [by rewrite Hk2|apply not_elem_of_nil|].
  apply wp_bind, wp_kacquire; [apply not_elem_of_nil|]. cbn [km set_km held set_held]. set (s3 := set_km _ (set_km _ s2)).
  assert (Hi3 : sched_inv s3 (woken_queues (filter (selects s1 (sleeps_on ChTicks)) table) tq) ∅) by (by do 2 apply sched_inv_km).
  destruct (wake_locks L_timeout s3 ltac:(done) ltac:(done) ltac:(done)) as [Hlf3 Hl3].
  apply wp_bind, wp_gets. change (ticks s3) with (ticks s2). rewrite Hn2. change (ticks s1) with (u32 (ticks s + 1)).
  apply wp_bind. eapply wp_mono; [by eapply (wp_thread_wakeup_timeout (u32 (ticks s + 1)))|]. cbn beta. intros _ s4 [Hi4 Ht4 Hr4].
  destruct (sched_rest_fields _ _ Hr4) as (Hk4 & Hn4 & Hc4 & Hx4 & Hu4).
  eapply (wp_krelease L_timeout []); [by rewrite Hk4|apply not_elem_of_nil|].
  set (w := option_list _) in *.
  assert (Hw : forall t, t ∈ w -> tstate (tcbs s2 t) = TCB_SLEEPING /\ timeout (tcbs s2 t) = u32 (ticks s + 1)).
  { intros t Hin. unfold w in Hin. destruct (head _) as [t'|] eqn:Hhd; [|by apply not_elem_of_nil in Hin]. apply list_elem_of_singleton in Hin as ->.
    apply head_Some_elem_of, elem_selects in Hhd as (_ & _ & [Hb1%bool_decide_eq_true Hb2%Z.eqb_eq]%andb_true_iff). done. }
  split; cbn [km set_km tcbs ticks csr intrcnt cur].
  - eexists. by apply sched_inv_km.
  - by rewrite Hn4; change (ticks s3) with (ticks s2); rewrite Hn2.
  - rewrite Hk4. cbn [s3 km set_km]. rewrite Hk2. cbn [s1 km set_ticks set_km]. rewrite <- Hh. apply held_restore_all.
  - intros t Hth Hcu Hst Hch. rewrite Ht4. destruct (decide (t ∈ w)) as [_|_]; [done|]. change (tcbs s3 t) with (tcbs s2 t). rewrite Ht2, decide_True; [done|].
    apply elem_selects. split; [done|]. split; [done|]. unfold sleeps_on. apply andb_true_iff. split; by apply bool_decide_eq_true.
  - intros t Hno. assert (H2 : tcbs s2 t = tcbs s t).
    { rewrite Ht2, decide_False; [done|]. intros (_ & _ & [Hb1%bool_decide_eq_true Hb2%bool_decide_eq_true]%andb_true_iff)%elem_selects. tauto. }
    rewrite Ht4, decide_False; [exact H2|]. intros [Hb1 Hb2]%Hw. rewrite H2 in *. tauto.
  - by rewrite Hc4; change (csr s3) with (csr s2).
  - by rewrite Hx4; change (intrcnt s3) with (intrcnt s2).
  - by rewrite Hu4; change (cur s3) with (cur s2).
Qed.

Context (R : Z -> Z) (procdump : E kstate unit) (ufuel dfuel : nat).

(** C6: A timer interrupt on the boot hart counts one tick: every thread that
    sleeps on the ticks becomes runnable, a thread that does not sleep, or
    sleeps on something else and does not time out at this tick, is untouched;
    the next interrupt is set one interval ahead, the interrupt is counted, and
    the queues of the scheduler stay consistent with no lock held. *)
Theorem timer_interrupt_ticks (tq : thread_state -> list nat) (s : kstate) :
  sched_inv s tq ∅ -> held (km s) = [] -> scause (csr s) = 0x8000000000000005 -> hart = boot_hart ->
  wp (devintr hart boot_hart rtime sclaim R procdump ufuel dfuel) (fun r s' =>
    r = 2 /\ (exists tq', sched_inv s' tq' ∅) /\ km s' = km s /\ ticks s' = u32 (ticks s + 1) /\
    (forall t, is_thread t -> cur s <> Some t -> tstate (tcbs s t) = TCB_SLEEPING -> chan (tcbs s t) = ChTicks -> tstate (tcbs s' t) = TCB_RUNNABLE) /\
    (forall t, tstate (tcbs s t) <> TCB_SLEEPING \/ (chan (tcbs s t) <> ChTicks /\ timeout (tcbs s t) <> u32 (ticks s + 1)) -> tcbs s' t = tcbs s t) /\
    next_timer (csr s') = u64 (rtime + INTERVAL) /\ intrcnt s' 5%nat = u64 (intrcnt s 5%nat + 1)) s.
Proof.
  intros Hi Hh Hcause Hb. unfold devintr. apply wp_bind, wp_r_csr. rewrite Hcause.
  change (has_bits 0x8000000000000005 0x8000000000000000 && (Z.land 0x8000000000000005 0xff =? 9)) with false. change (0x8000000000000005 =? 0x8000000000000005) with true. cbn match.
  rewrite (proj2 (Z.eqb_eq hart boot_hart) Hb). apply wp_bind. eapply wp_mono; [by eapply wp_clockintr|]. cbn beta. intros _ s1 [[tq' Hi1] Hn Hk Hw Hkept Hc Hx _].
  apply wp_bind, wp_r_csr, wp_bind, wp_w_csr, wp_bind, wp_w_csr, wp_bind. unfold record_intr. change (MAXINTR <=? 5) with false. cbn match. apply wp_modify, wp_ret.
  cbn [km tcbs ticks csr set_csr set_intrcnt next_timer set_next_timer intrcnt]. split; [done|]. split; [eexists; by eapply sched_inv_same|]. do 4 (split; [done|]). split; [done|].
  change (Z.to_nat 5) with 5%nat. rewrite fn_lookup_insert. by rewrite Hx.
Qed.

(** ** A system call that does not exist *)

Lemma wp_thread_killed t (Q : Z -> kstate -> Prop) s :
  L_tcb t ∉ held (km s) -> Q (tkilled (tcbs s t)) s -> wp (thread_killed t) Q s.
Proof.
  intros Hl HQ. apply wp_critical; [done|]. apply wp_gets. split; [done|]. simpl. rewrite held_restore.
  by replace (set_km (km s) _) with s by by destruct s.
Qed.

Context (syscalls : Z -> option (E kstate Z)) (nsyscalls : Z).
Context (kend kbuf ch kuc kucr : Z) (swtch : nat -> E kstate unit) (ext4 : option fs_ops).
Context (dev_write : Z -> option (bool -> Z -> Z -> E kstate Z)) (wfuel : nat).

Abbreviation user_trap := (usertrap kernelvec uservec trampoline usertrap_addr hart boot_hart rtime sclaim R procdump ufuel dfuel syscalls nsyscalls kend kbuf ch kuc kucr swtch ext4 dev_write wfuel).

(** An ecall whose number is not in the table, made by a thread that nobody
    killed and that has no pending signal, comes back to user mode at the
    instruction after the ecall with -1 in a0; no other register of the trap
    frame that belongs to the user changes, and no lock is held. *)
Theorem usertrap_unknown_syscall (p t : nat) (s : kstate) :
  let a := trapframe (tcbs s t) in
  let m := mmem (km s) in
  let num := i32 (load64 m (a + TF_A7)) in
  runs_in s p -> cur s = Some t -> a <> 0 -> has_bits (sstatus (csr s)) SSTATUS_SPP = false -> scause (csr s) = 8 ->
  tkilled (tcbs s t) = 0 -> pkilled (procs s p) = 0 -> pending_cnt (tcbs s t) = 0 -> held (km s) = [] ->
  num <= 0 \/ nsyscalls <= num \/ syscalls num = None ->
  wp user_trap (fun r s' =>
    r = (MAKE_SATP (pagetable (procs s p)), THREAD_TRAPFRAME (tidx (tcbs s t))) /\
    sepc (csr s') = u64 (sepc (csr s) + 4) /\ load64 (mmem (km s')) (a + TF_A0) = 2 ^ 64 - 1 /\ held (km s') = [] /\
    (forall x, a + 40 <= x < a + TF_A0 \/ a + TF_A0 + 8 <= x -> mmem (km s') x = m x)) s.
Proof.
  intros a m num Hr Hc Ha Hspp Hcause Htk Hpk Hpend Hh Hnum. unfold usertrap.
  apply wp_bind, wp_r_csr, wp_bind. apply wp_panic_if; [exact Hspp|]. apply wp_bind, wp_w_csr.
  apply wp_bind, (wp_myproc p); [exact Hr|]. apply wp_bind, (wp_mythread t); [exact Hc|]. apply wp_bind, wp_r_csr.
  apply wp_bind, wp_frame_set; [exact Ha|]. apply wp_bind, wp_r_csr. cbn [csr set_csr set_km scause set_stvec sepc]. rewrite Hcause. cbn [Z.eqb Pos.eqb].
  apply wp_bind, wp_bind, wp_thread_killed; [cbn; rewrite Hh; apply not_elem_of_nil|]. cbn [tcbs set_csr set_km]. rewrite Htk. cbn [Z.eqb negb]. apply wp_bind, wp_ret.
  apply wp_bind, wp_frame_get; [exact Ha|]. apply wp_bind, wp_frame_set; [exact Ha|]. apply wp_bind. unfold intr_on. apply wp_bind, wp_r_csr, wp_w_csr.
  apply wp_bind. unfold syscall. apply wp_bind, (wp_mythread t); [exact Hc|]. apply wp_bind, wp_frame_get; [exact Ha|]. cbn zeta.
  cbn [tcbs procs km mmem csr set_csr set_km set_mmem sstatus set_stvec set_sstatus]. fold a m.
  rewrite load64_store64_same. rewrite !(load64_store64_other _ _ _ (a + TF_A7)) by (unfold TF_EPC, TF_A7; lia). fold num.
  assert ((if (0 <? num) && (num <? nsyscalls) then syscalls num else None) = None) as ->.
  { destruct (Z.ltb_spec 0 num), (Z.ltb_spec num nsyscalls); cbn [andb]; try done. destruct Hnum as [?|[?|?]]; [lia|lia|done]. }
  apply wp_frame_set; [exact Ha|]. apply wp_ret.
  apply wp_bind, wp_thread_killed; [cbn; rewrite Hh; apply not_elem_of_nil|]. cbn [tcbs set_csr set_km]. rewrite Htk. cbn [Z.eqb negb].
  apply wp_bind, wp_proc_killed; [cbn; rewrite Hh; apply not_elem_of_nil|]. cbn [procs set_csr set_km]. rewrite Hpk. cbn [Z.eqb negb].
  apply wp_bind, wp_ret, wp_bind, wp_ret, wp_bind, wp_ret. apply wp_bind. unfold signal_handle. apply wp_bind, wp_gets. cbn [tcbs set_csr set_km]. rewrite Hpend. cbn [Z.eqb]. apply wp_ret.
  apply (wp_usertrapret p t); [exact Hr|exact Hc|exact Ha|]. cbn [tcbs procs km mmem csr held set_csr set_km set_mmem sepc sstatus satp set_sepc set_stvec set_sstatus]. fold a m.
  split; [done|]. split; [|split; [|split; [exact Hh|]]].
  - rewrite load64_store64_other by (unfold TF_EPC, TF_A0; lia). rewrite load64_store64_same. rewrite wrap_wrap by lia. unfold wrap. by rewrite Zplus_mod_idemp_l.
  - unfold kernel_words, TF_KERNEL_SATP, TF_KERNEL_SP, TF_KERNEL_TRAP, TF_KERNEL_HARTID, TF_A0. rewrite !load64_store64_other by lia. rewrite load64_store64_same. done.
  - intros x Hx. unfold kernel_words, TF_KERNEL_SATP, TF_KERNEL_SP, TF_KERNEL_TRAP, TF_KERNEL_HARTID, TF_EPC, TF_A0 in *. rewrite !store64_out by lia. done.
Qed.
End TrapSpec.

(** ** Witnesses: thread 0, trap frame at 0x1000, an ecall at 0x400 *)

Definition trap_tcb : tcb := set_trapframe 0x1000 (set_tproc (Some 0%nat) tcb_zero).
Definition trap_state (cause : Z) (b : kstate) : kstate :=
  set_csr (Trapregs 0x22 0x400 cause 0 0 0 0 0) (set_tcbs (fun _ => trap_tcb) (fd_state 0 0 b)).

Lemma trap_state_cur cause b : runs_in (trap_state cause b) 0 /\ cur (trap_state cause b) = Some 0%nat.
Proof. split; [by exists 0%nat|done]. Qed.

Lemma usertrapret_enters_user_witness :
  exists s, wp (usertrapret 0x80 0x0 0x90 3) (fun r s' => Z.testbit (sstatus (csr s')) 8 = false /\ load64 (mmem (km s')) 0x1020 = 3) s.
Proof.
  generalize booted. intros b. exists (trap_state 8 b). destruct (trap_state_cur 8 b) as [Hr Hc].
  eapply wp_mono; [apply (usertrapret_enters_user 0x80 0x0 0x90 3 0 0 (trap_state 8 b) Hr Hc); done|].
  cbn beta zeta. intros r s' (_ & Hbits & _ & _ & _ & _ & _ & Hh & _). split; [exact (Hbits 8 ltac:(done))|exact Hh].
Defined.

Lemma usertrap_unknown_syscall_witness :
  exists s, wp (usertrap 0x70 0x80 0x0 0x90 3 0 0 0 (fun _ => 0) (mret tt) 0 0 (fun _ => None) 0 0 0 0 0 0 (fun _ => mret tt) None (fun _ => None) 0)
    (fun r s' => sepc (csr s') = 0x404 /\ load64 (mmem (km s')) (0x1000 + TF_A0) = 2 ^ 64 - 1) s.
Proof.
  generalize booted. intros b. exists (trap_state 8 b). destruct (trap_state_cur 8 b) as [Hr Hc].
  eapply wp_mono; [apply (usertrap_unknown_syscall 0x70 0x80 0x0 0x90 3 0 0 0 (fun _ => 0) (mret tt) 0 0 (fun _ => None) 0 0 0 0 0 0 (fun _ => mret tt) None (fun _ => None) 0 0 0 (trap_state 8 b) Hr Hc); try done; by right; right|].
  cbn beta. intros r s' (_ & Hpc & Ha0 & _). split; [exact Hpc|exact Ha0].
Defined.

Definition asleep_on_ticks (s1 : kstate) : kstate :=
  set_csr (Trapregs 0 0 0x8000000000000005 0 0 0 0 0) (set_tcbs (<[1%nat := set_chan ChTicks (tcbs s1 1%nat)]> (tcbs s1)) s1).

Lemma timer_interrupt_ticks_witness :
  exists s, tstate (tcbs s 1%nat) = TCB_SLEEPING /\
    wp (devintr 0 0 7 0 (fun _ => 0) (mret tt) 0 0) (fun r s' => r = 2 /\ tstate (tcbs s' 1%nat) = TCB_RUNNABLE) s.
Proof.
  destruct booted_ok as (_ & Hi & Hh). revert Hi Hh. generalize booted. intros b Hi Hh.
  destruct (change_state_runs 1 TCB_SLEEPING _ (set_cur None b) ltac:(by destruct Hi) Hh) as (s1 & _ & I1 & H1 & C1); [done..|].
  assert (Hs : tstate (tcbs s1 1%nat) = TCB_SLEEPING).
  { destruct I1 as [_ Hm _]. apply (Hm TCB_SLEEPING 1%nat ltac:(done)). reflexivity || (apply elem_of_app; right; apply list_elem_of_singleton; done). }
  assert (Ht : tcbs (asleep_on_ticks s1) 1%nat = set_chan ChTicks (tcbs s1 1%nat)) by apply fn_lookup_insert.
  exists (asleep_on_ticks s1). split; [by rewrite Ht|]. eapply wp_mono.
  - eapply (timer_interrupt_ticks 0 0 7 0 (fun _ => 0) (mret tt) 0 0 _ (asleep_on_ticks s1)); [|exact H1|done|done].
    eapply sched_inv_same; [exact I1|done|done|]. intros t. cbn [asleep_on_ticks tcbs set_csr set_tcbs]. destruct (decide (t = 1%nat)) as [->|]; [by rewrite fn_lookup_insert|by rewrite fn_lookup_insert_ne].
  - cbn beta. intros r s' (Hr & _ & _ & _ & Hw & _). split; [exact Hr|]. apply Hw; [done| |by rewrite Ht|by rewrite Ht].
    change (cur (asleep_on_ticks s1)) with (cur s1). by rewrite C1.
Defined.
