(* ===== verification/Procfs.v ===== *)
(** * kernel/fs/procfs.c and kernel/fs/device.c

    The file /proc/interrupts, and the switch of the block devices.  The count
    an operation stores is 0 when it stores none. *)
From S2P Require Import Prelude Mem CString Snprintf SnprintfFormat KTypes Kalloc Vm ListHead KState Queue Sched Signal Thread ThreadInv SchedSpec ProcBase Pipe File Mmap Proc Sync Bio Path PathResolve Inode InodeSpec Trap.
(** ** kernel/fs/procfs.c *)

Section Procfs.
(** [extern char end[]]; the literals of the format and of the text printed for
    a null pointer; a bound on the length of the format. *)
Context (kend fmt null_str : Z) (pfuel : nat).

Definition on_sprintf (p : Z) (args : list Z) : E kstate Z := fun s =>
  match sprintf null_str pfuel (mmem (km s)) p fmt args with
  | Some (m, r) => Done r (set_km (set_mmem m (km s)) s)
  | None => NoFuel
  end.

(** [if(intrcnt[i] != 0 && i > la) la = i;] *)
Definition last_intr (cnt : nat -> Z) : Z :=
  foldl (fun la i => if negb (cnt i =? 0) && (la <? Z.of_nat i) then Z.of_nat i else la) 0 (seq 0 (Z.to_nat MAXINTR)).

Fixpoint print_intrs (l : list nat) (p len : Z) : E kstate Z :=
  match l with
  | [] => mret len
  | i :: l =>
    c ← gets (fun s => intrcnt s i);
    if negb (c =? 0) then
      r ← on_sprintf p [Z.of_nat i; c];
      print_intrs l (p + u64 r) (u64 (len + u64 r))
    else print_intrs l p len
  end.

Definition proc_interrupts_read (f : nat) (user_dst : bool) (dst off size : Z) : E kstate (Z * Z) :=
  la ← gets (fun s => last_intr (intrcnt s));
  x ← get_file f;
  if la =? fpos x then
    upd_file f (set_fpos 0);;
    mret (0, 0)
  else
    buf ← (if user_dst then on_mach (kmalloc PGSIZE) else mret dst);
    if user_dst && (buf =? 0) then mret (-1, 0)
    else
      len ← print_intrs (seq 0 (Z.to_nat MAXINTR)) buf 0;
      e ← (if user_dst then pt ← my_pagetable; on_mach (copyout pt dst buf len) else mret 0);
      if e <? 0 then on_mach (kfree kend buf);; mret (-1, 0)
      else
        upd_file f (set_fpos la);;
        (if user_dst then on_mach (kfree kend buf) else mret tt);;
        mret (0, len).

Definition proc_interrupts_write : E kstate (Z * Z) := mret (-1, 0).
Definition proc_interrupts_open (f : nat) : E kstate Z := upd_file f (set_ftype FD_SPEC);; mret 0.
Definition proc_interrupts_close : E kstate Z := mret 0.
Definition proc_interrupts_rename : E kstate Z := mret (-1).
Definition proc_interrupts_unlink : E kstate Z := mret (-1).

Definition is_interrupts (path : string) : bool := bool_decide (path = "/proc/interrupts").

Definition procfs_read (f : nat) (user_dst : bool) (dst off size : Z) : E kstate (Z * Z) :=
  x ← get_file f;
  if is_interrupts (fpath x) then proc_interrupts_read f user_dst dst off size else mret (-1, 0).
Definition procfs_write (f : nat) (user_src : bool) (src off size : Z) : E kstate (Z * Z) :=
  x ← get_file f;
  if is_interrupts (fpath x) then proc_interrupts_write else mret (-1, 0).
Definition procfs_open (f : nat) (path : string) (flags : Z) : E kstate Z :=
  if is_interrupts path then proc_interrupts_open f else mret (-1).
Definition procfs_close (f : nat) : E kstate Z :=
  x ← get_file f;
  if is_interrupts (fpath x) then proc_interrupts_close else mret (-1).
Definition procfs_rename (oldpath newpath : string) : E kstate Z :=
  if is_interrupts oldpath then proc_interrupts_rename else mret (-1).
Definition procfs_unlink (path : string) (flags : Z) : E kstate Z :=
  if is_interrupts path then proc_interrupts_unlink else mret (-1).

(** procfs_file_ops and procfs_fs_ops, as the operations of open files; there is
    no cleansf. *)
Definition procfs_ops : fs_ops :=
  FsOps (fun f => procfs_close f;; mret tt) (fun _ => fault) (fun path => procfs_unlink path 0;; mret tt) procfs_read procfs_write.
End Procfs.

(** ** kernel/fs/device.c *)

Definition MAXBDEV : Z := 4.

Definition bdev_table_init : E kstate unit := initlock L_bdev.

(** A negative major is an index outside of the table. *)
Definition set_bdev (major ops : Z) : E kstate unit :=
  if major <? 0 then fault else modify (fun s => set_bdeventry (<[Z.to_nat major := ops]> (bdeventry s)) s).

Definition register_bdev (major ops : Z) : E kstate Z :=
  if MAXBDEV - 1 <? major then mret (-1)
  else
    acquire L_bdev;;
    set_bdev major ops;;
    release L_bdev;;
    mret 0.

Definition unregister_bdev (major ops : Z) : E kstate Z :=
  if MAXBDEV - 1 <? major then mret (-1)
  else
    acquire L_bdev;;
    set_bdev major 0;;
    release L_bdev;;
    mret 0.

(** [open] runs the function open of a struct bdev_ops. *)
Definition bdev_open (open : Z -> Z -> E kstate Z) (i : inode) : E kstate Z :=
  if MAXBDEV - 1 <? imajor i then mret (-1)
  else if imajor i <? 0 then fault
  else
    bops ← gets (fun s => bdeventry s (Z.to_nat (imajor i)));
    if bops =? 0 then mret (-1) else open bops (iminor i).

(** do ... while (size > 256): 32 bits are shifted out in 32 turns. *)
Fixpoint blksize_loop (fuel : nat) (bits size : Z) : option Z :=
  match fuel with
  | O => None
  | S fuel =>
    let bits := u32 (bits + 1) in
    let size := Z.shiftr size 1 in
    if 256 <? size then blksize_loop fuel bits size else Some bits
  end.
Definition blksize_bits (size : Z) : option Z := blksize_loop 32 8 size.

(** * What /proc/interrupts reads as *)

(** "%d:      %d\n" *)
Definition intr_pieces : list piece := [Item conv_d; Char 58; Char 32; Char 32; Char 32; Char 32; Char 32; Char 32; Item conv_d; Char 10].
Definition intr_line (i : nat) (c : Z) : list Z := dec (Z.of_nat i) ++ [58; 32; 32; 32; 32; 32; 32] ++ dec c ++ [10].

(** One line for every interrupt that has been counted. *)
Definition intrs_text (cnt : nat -> Z) (l : list nat) : list Z :=
  concat (map (fun i => if cnt i =? 0 then [] else intr_line i (cnt i)) l).

Lemma prints_d m lo hi v : 0 <= v < 2 ^ 31 -> conv_prints m lo hi conv_d v (dec v).
Proof.
  intros Hv. unfold conv_prints. cbn [cchar conv_d Z.eqb Pos.eqb]. exists 10, SIGN. split; [done|].
  cbn [clong cwidth cprec cflags conv_d default from_option id]. change (Z.lor (flag_bits 0 []) SIGN) with SIGN. change (has_bits SIGN SIGN) with true. cbn match.
  rewrite sint_small, number_text_d, (proj2 (Z.ltb_ge v 0)), Z.abs_eq by lia. done.
Qed.

Lemma renders_line m lo hi i c : Z.of_nat i < 2 ^ 31 -> 0 <= c < 2 ^ 31 -> renders m lo hi intr_pieces [Z.of_nat i; c] (intr_line i c).
Proof.
  intros Hi Hc. unfold intr_line, intr_pieces. apply renders_item; [apply conv_d_ok|apply prints_d; lia|]. cbn [app].
  do 7 (apply renders_char; [done|]). apply renders_item; [apply conv_d_ok|by apply prints_d|]. apply renders_char; [done|]. apply renders_nil.
Qed.

Lemma line_bytes i c : Forall (fun x => 0 < x < 256) (intr_line i c).
Proof.
  unfold intr_line. apply Forall_app. split; [apply dec_bytes|]. apply Forall_app. split; [by repeat constructor|].
  apply Forall_app. split; [apply dec_bytes|by repeat constructor].
Qed.

Lemma line_length i c : Z.of_nat i < 2 ^ 31 -> 0 <= c < 2 ^ 31 -> Z.of_nat (length (intr_line i c)) <= 140.
Proof. intros Hi Hc. unfold intr_line. rewrite !length_app. pose proof (dec_length (Z.of_nat i) ltac:(lia)). pose proof (dec_length c ltac:(lia)). cbn [length]. lia. Qed.

Lemma intrs_text_length cnt l : Forall (fun i => Z.of_nat i < 2 ^ 31 /\ 0 <= cnt i < 2 ^ 31) l -> Z.of_nat (length (intrs_text cnt l)) <= 140 * Z.of_nat (length l).
Proof.
  intros Hl. induction Hl as [|i l [Hi Hc] Hl IH]; [done|]. unfold intrs_text in *. cbn [map concat length]. rewrite length_app.
  pose proof (line_length i (cnt i) Hi Hc). destruct (cnt i =? 0); cbn [length]; lia.
Qed.

Section Read.
Context (kend fmt null_str : Z) (pfuel : nat).
Hypothesis pfuel_enough : (12 <= pfuel)%nat.

(** The text is written at [p]; the byte after it may be a NUL. *)
Lemma wp_print_intrs l p len s :
  Forall (fun i => Z.of_nat i < 2 ^ 31 /\ 0 <= intrcnt s i < 2 ^ 31) l -> (length l <= 16)%nat -> 0 <= len <= 140 * (16 - Z.of_nat (length l)) ->
  cstr (mmem (km s)) fmt (format intr_pieces) -> (let t := intrs_text (intrcnt s) l in fmt + 12 < p \/ p + Z.of_nat (length t) < fmt) ->
  wp (print_intrs fmt null_str pfuel l p len) (fun r s' =>
    let t := intrs_text (intrcnt s) l in
    r = len + Z.of_nat (length t) /\ exists m', s' = set_km (set_mmem m' (km s)) s /\
    (forall i c, t !! i = Some c -> m' (p + Z.of_nat i) = c) /\ (forall x, x < p \/ p + Z.of_nat (length t) < x -> m' x = mmem (km s) x)) s.
Proof.
  revert p len s. induction l as [|i l IH]; intros p len s Hl Hn Hlen Hm Hd; cbn [print_intrs].
  - apply wp_ret. cbn zeta. split; [cbn; lia|]. exists (mmem (km s)). split; [by destruct s as [[]]|done].
  - apply Forall_cons in Hl as [[Hi Hc] Hl]. pose proof (intrs_text_length _ _ Hl) as Htl. cbn [length] in Hn, Hlen.
    unfold intrs_text in Hd |- *. cbn [map concat] in Hd |- *. fold (intrs_text (intrcnt s) l) in Hd |- *. apply wp_bind, wp_gets.
    destruct (intrcnt s i =? 0) eqn:Ez; cbn [negb app] in *; [apply IH; try done; lia|].
    set (ln := intr_line i (intrcnt s i)) in *. pose proof (line_length i (intrcnt s i) Hi Hc) as Hll. fold ln in Hll. cbn zeta in Hd. rewrite length_app in Hd.
    pose proof (wp_vsprintf null_str pfuel (mmem (km s)) p fmt intr_pieces [Z.of_nat i; intrcnt s i] ln (renders_line _ _ _ i (intrcnt s i) Hi Hc) Hm) as Hp.
    change (Z.of_nat (length (format intr_pieces))) with 12 in Hp. change (length (format intr_pieces)) with 12%nat in Hp. specialize (Hp ltac:(lia) pfuel_enough ltac:(lia)).
    apply wp_bind. unfold on_sprintf, wp, sprintf. rewrite Hp. set (m1 := mset _ _ 0).
    assert (Hm1 : forall x, x < p \/ p + Z.of_nat (length ln) < x -> m1 x = mmem (km s) x).
    { intros x Hx. unfold m1. rewrite mset_ne by lia. apply put_out. cbn [snd]. lia. }
    assert (Hl1 : forall k c, ln !! k = Some c -> m1 (p + Z.of_nat k) = c).
    { intros k c Hk. pose proof (put_cstr (mmem (km s)) p ln (line_bytes _ _)) as Hs. apply (cstr_lookup _ _ _ _ _ Hs Hk). }
    rewrite wrap_small by lia. rewrite wrap_small by lia. set (s1 := set_km _ s).
    eapply wp_mono; [apply (IH (p + Z.of_nat (length ln)) (len + Z.of_nat (length ln)) s1); [done|lia|lia| |cbn zeta; change (intrcnt s1) with (intrcnt s); lia]|].
    + eapply cstr_ext; [exact Hm|]. change (Z.of_nat (length (format intr_pieces))) with 12. intros x Hx. cbn [s1 km set_km mmem set_mmem]. symmetry. apply Hm1. lia.
    + cbn zeta. change (intrcnt s1) with (intrcnt s). intros r s2 (-> & m' & -> & Hin & Hout). rewrite length_app. split; [lia|]. exists m'. split; [done|]. split.
      * intros k c Hk. apply lookup_app_Some in Hk as [Hk|[Hge Hk]].
        { apply lookup_lt_Some in Hk as Hlt. rewrite Hout by lia. by apply Hl1. }
        rewrite <- (Hin _ _ Hk). f_equal. lia.
      * intros x Hx. rewrite Hout by lia. apply Hm1. lia.
Qed.

(** The interrupts of the table. *)
Abbreviation all_intrs := (seq 0 (Z.to_nat MAXINTR)).

Lemma is_interrupts_true : is_interrupts "/proc/interrupts" = true.
Proof. by apply bool_decide_eq_true. Qed.

Lemma intrs_small cnt : (forall i, (i < 16)%nat -> 0 <= cnt i < 2 ^ 31) -> Forall (fun i => Z.of_nat i < 2 ^ 31 /\ 0 <= cnt i < 2 ^ 31) all_intrs.
Proof.
  intros Hc. apply Forall_forall. intros i Hi%elem_of_seq. change (Z.to_nat MAXINTR) with 16%nat in Hi. split; [lia|apply Hc; lia].
Qed.

(** A read of /proc/interrupts into kernel memory stores one line, number
    and count, for every interrupt that has occurred, in increasing order,
    returns the length of that text and touches no byte beyond the NUL after
    it; the next read reports the end of the file and rewinds it. *)
Theorem procfs_reads_interrupts (f : nat) (dst off size : Z) (s : kstate) :
  let t := intrs_text (intrcnt s) all_intrs in
  cstr (mmem (km s)) fmt (format intr_pieces) -> fmt + 12 < dst \/ dst + Z.of_nat (length t) < fmt ->
  (forall i, (i < 16)%nat -> 0 <= intrcnt s i < 2 ^ 31) ->
  fpath (files s f) = "/proc/interrupts" -> last_intr (intrcnt s) <> fpos (files s f) ->
  wp (procfs_read kend fmt null_str pfuel f false dst off size) (fun r s' =>
    r = (0, Z.of_nat (length t)) /\
    (forall i c, t !! i = Some c -> mmem (km s') (dst + Z.of_nat i) = c) /\
    (forall x, x < dst \/ dst + Z.of_nat (length t) < x -> mmem (km s') x = mmem (km s) x) /\
    wp (procfs_read kend fmt null_str pfuel f false dst off size) (fun r2 s2 => r2 = (0, 0) /\ fpos (files s2 f) = 0 /\ km s2 = km s') s') s.
Proof.
  intros t Hm Hd Hc Hpath Hpos. unfold procfs_read. apply wp_bind, wp_gets. rewrite Hpath, is_interrupts_true. unfold proc_interrupts_read at 1.
  apply wp_bind, wp_gets, wp_bind, wp_gets. rewrite (proj2 (Z.eqb_neq _ _) Hpos). apply wp_bind, wp_ret. cbn [andb].
  apply wp_bind. eapply wp_mono; [apply (wp_print_intrs all_intrs dst 0 s (intrs_small _ Hc)); [done|done|exact Hm|exact Hd]|].
  cbn zeta. fold t. intros r s1 (-> & m' & -> & Hin & Hout). apply wp_bind, wp_ret. change (0 <? 0) with false. cbn match.
  apply wp_bind, wp_modify, wp_bind, wp_ret, wp_ret. cbn [km set_files set_km mmem set_mmem files]. split; [done|]. split; [exact Hin|]. split; [exact Hout|].
  apply wp_bind, wp_gets. cbn [files set_files]. rewrite fn_lookup_insert. cbn [fpath set_fpos]. rewrite Hpath, is_interrupts_true. unfold proc_interrupts_read.
  apply wp_bind, wp_gets, wp_bind, wp_gets. cbn [files set_files intrcnt set_km]. rewrite fn_lookup_insert. cbn [fpos set_fpos]. rewrite Z.eqb_refl.
  apply wp_bind, wp_modify, wp_ret. cbn [files set_files km]. rewrite fn_lookup_insert. done.
Qed.
End Read.

Definition intr_mem : mem := (put (fun _ => 0, 0x100) (format intr_pieces)).1.
Definition intr_state (b : kstate) : kstate :=
  set_intrcnt (fun i => if decide (i = 5%nat) then 12 else 0)
    (set_files (fun _ => set_fpath "/proc/interrupts" file_zero) (set_km (set_mmem intr_mem (km b)) b)).

Lemma procfs_reads_interrupts_witness :
  exists s, wp (procfs_read 0 0x100 0 12 3 false 0x200 0 64) (fun r s' => r = (0, 11) /\ mmem (km s') 0x200 = 53 /\ mmem (km s') 0x209 = 50) s.
Proof.
  generalize booted. intros b. exists (intr_state b).
  assert (Ht : intrs_text (intrcnt (intr_state b)) (seq 0 (Z.to_nat MAXINTR)) = [53; 58; 32; 32; 32; 32; 32; 32; 49; 50; 10]) by by vm_compute.
  assert (Hcnt : forall i, (i < 16)%nat -> 0 <= intrcnt (intr_state b) i < 2 ^ 31) by (intros i _; cbn [intr_state intrcnt set_intrcnt]; case_decide; lia).
  assert (Hm : cstr intr_mem 0x100 (format intr_pieces)) by (vm_compute; by repeat split).
  eapply wp_mono; [apply (procfs_reads_interrupts 0 0x100 0 12 ltac:(done) 3 0x200 0 64 (intr_state b)); [exact Hm|by left|exact Hcnt|done|done]|].
  cbn beta zeta. rewrite Ht. intros r s' (Hr & Hin & _). split; [exact Hr|]. split; [exact (Hin 0%nat 53 eq_refl)|exact (Hin 9%nat 50 eq_refl)].
Defined.

(** * The file systems at boot: registration and the two mounts

    init_vfssw, register_fs, getfs and install_rootfs of kernel/fs/vfs/vfs.c and
    initfss of kernel/init/main.c: ext4 is mounted on / and procfs on /proc.
    After it, a path that begins with /proc belongs to procfs and any other to
    ext4. *)

(** vfssw.fs_list: the registered file systems, the latest first. *)
Definition init_vfssw : list vfs_filesystem := [].
Definition register_fs (fs : vfs_filesystem) (sw : list vfs_filesystem) : Z * list vfs_filesystem := (0, fs :: sw).

Fixpoint getfs (lim : nat) (m : mem) (name : Z) (sw : list vfs_filesystem) : option vfs_filesystem :=
  match sw with
  | [] => None
  | fs :: sw => if bool_decide (strcmp lim m name (fs_name fs) = Some 0) then Some fs else getfs lim m name sw
  end.

(** vfs_fs and vfs_mount_table.mount_points *)
Record vfs_tabs := VfsTabs { t_fs : list (option vfs_filesystem); t_mounts : list mount_point }.

Section Install.
(** A bound on strings; the addresses of the literals for the names of the two
    file systems and for their mount points; the operations of a file system. *)
Context (lim : nat) (ext4_name procfs_name slash proc_path : Z) (id : vfs_filesystem -> nat).

(** vfs_mount(fst, path) and addfs(fst), which the kernel cannot do without. *)
Definition mount_fs (fs : vfs_filesystem) (path : Z) (t : vfs_tabs) : E kstate vfs_tabs :=
  let '(r, mounts) := vfs_mount fs path (t_mounts t) in
  panic_if (r <? 0) "Failed to mount";;
  let '(r, fstab) := addfs fs (t_fs t) in
  panic_if (r <? 0) "Failed to add to the vfs table";;
  mret (VfsTabs fstab mounts).

Definition install_rootfs (sw : list vfs_filesystem) (t : vfs_tabs) : E kstate vfs_tabs :=
  v ← allocvfs;
  on_ftabs (set_rootfs v);;
  match v with
  | None => panic "Failed on rootfs allocation"
  | Some v =>
    upd_vfs v (fun e => set_vfs_minor ROOTDEV (set_vfs_major BLOCKMAJOR e));;
    m ← gets (fun s => mmem (km s));
    match getfs lim m ext4_name sw with
    | None => panic "The root fs type is not supported"
    | Some fs =>
      upd_vfs v (set_vfs_fst (Some (id fs)));;
      vfs_list_add v;;
      t ← mount_fs fs slash t;
      fs ← deref (getfs lim m procfs_name sw);
      mount_fs fs proc_path t
    end
  end.

Definition initfss (ext4 procfs : vfs_filesystem) (vfs_fs : list (option vfs_filesystem)) : E kstate vfs_tabs :=
  let sw := init_vfssw in
  init_vfsmlist;;
  mntinit;;
  bdev_table_init;;
  let mounts := init_vfs_mtable in
  let '(r, sw) := register_fs ext4 sw in
  panic_if (r <? 0) "ext4fs_init failed";;
  let '(r, sw) := register_fs procfs sw in
  panic_if (r <? 0) "procfs_init failed";;
  install_rootfs sw (VfsTabs vfs_fs mounts).

(** ** Resolution after boot *)

Context (ext4 procfs : vfs_filesystem).

Definition boot_tabs : vfs_tabs :=
  VfsTabs [Some ext4; Some procfs; None; None]
    [MountPoint slash (-1) (fs_type ext4); MountPoint proc_path (-1) (fs_type procfs);
     MountPoint 0 (-1) VFS_TYPE_UNKNOWN; MountPoint 0 (-1) VFS_TYPE_UNKNOWN].

Definition PROC : list Z := [47; 112; 114; 111; 99].

Record fs_names (m : mem) : Prop := {
  fn_ext4 : fs_name ext4 = ext4_name;
  fn_procfs : fs_name procfs = procfs_name;
  fn_types : fs_type ext4 = VFS_TYPE_EXT4 /\ fs_type procfs = VFS_TYPE_PROCFS;
  fn_mounts : slash <> 0 /\ proc_path <> 0;
  fn_text : cstr m ext4_name [101; 120; 116; 52] /\ cstr m procfs_name [112; 114; 111; 99; 102; 115];
  fn_lim : (7 < lim)%nat;
}.

Lemma getfs_names m : fs_names m -> getfs lim m ext4_name [procfs; ext4] = Some ext4 /\ getfs lim m procfs_name [procfs; ext4] = Some procfs.
Proof.
  intros [E1 E2 _ _ [H1 H2] Hl]. cbn [getfs]. rewrite E1, E2.
  destruct (strcmp_cstr lim m ext4_name procfs_name _ _ H1 H2) as (d & -> & Hd); [cbn [length]; lia|].
  destruct (strcmp_cstr lim m ext4_name ext4_name _ _ H1 H1) as (d1 & -> & Hd1); [cbn [length]; lia|].
  destruct (strcmp_cstr lim m procfs_name procfs_name _ _ H2 H2) as (d2 & -> & Hd2); [cbn [length]; lia|].
  rewrite bool_decide_false by naive_solver. rewrite !bool_decide_true by (f_equal; naive_solver). done.
Qed.

Lemma wp_allocvfs (Q : option nat -> kstate -> Prop) s :
  L_vfspool ∉ held (km s) -> vfs_flag (vfspool (ftabs s) 0) = VFS_FREE ->
  (forall v s', km s' = km s -> Q (Some v) s') -> wp allocvfs Q s.
Proof.
  intros Hl Hf HQ. unfold allocvfs. apply wp_bind, wp_kacquire; [done|]. apply wp_bind, wp_table_find. intros [v|] Hr.
  - apply wp_bind, wp_modify, wp_bind. eapply wp_krelease; [done|done|]. apply wp_ret, HQ. cbn. apply held_restore.
  - exfalso. specialize (Hr 0%nat). cbn [ftabs set_km] in Hr. rewrite Hf in Hr. unfold MAXVFSSIZE in Hr. assert ((VFS_FREE =? VFS_FREE) = false) as H by (apply Hr; lia). done.
Qed.

Lemma wp_initlock_free l (Q : unit -> kstate -> Prop) s : held (km s) = [] -> Q tt s -> wp (initlock l) Q s.
Proof.
  intros Hh HQ. unfold initlock, KTypes.initlock. apply wp_zoom, wp_modify. rewrite Hh, filter_nil.
  assert (set_held [] (km s) = km s) as -> by (rewrite <- Hh; by destruct (km s)). by destruct s.
Qed.

(** initfss mounts both file systems. *)
Lemma wp_initfss s :
  fs_names (mmem (km s)) -> held (km s) = [] -> vfs_flag (vfspool (ftabs s) 0) = VFS_FREE ->
  wp (initfss ext4 procfs (replicate (Z.to_nat VFS_MAXFS) None)) (fun t s' => t = boot_tabs /\ km s' = km s) s.
Proof.
  intros Hn Hh Hf. destruct (getfs_names _ Hn) as [G1 G2]. unfold initfss, init_vfsmlist, mntinit, bdev_table_init, init_vfssw. cbn [register_fs].
  apply wp_bind, wp_bind, wp_initlock_free; [done|]. apply wp_bind, wp_initlock_free; [done|]. apply wp_modify, wp_bind, wp_initlock_free; [done|].
  apply wp_bind, wp_initlock_free; [done|]. apply wp_bind, wp_panic_if; [done|]. apply wp_bind, wp_panic_if; [done|].
  unfold install_rootfs. apply wp_bind, wp_allocvfs; [cbn [km set_ftabs]; rewrite Hh; apply not_elem_of_nil|done|]. intros v s1 K1. cbn [km set_ftabs] in K1.
  apply wp_bind, wp_modify, wp_bind, wp_modify, wp_bind, wp_gets. cbn [km set_ftabs]. rewrite K1, G1.
  apply wp_bind, wp_modify. unfold vfs_list_add. apply wp_bind, wp_bind, wp_kacquire; [cbn [km set_ftabs]; rewrite K1, Hh; apply not_elem_of_nil|].
  apply wp_bind, wp_modify. eapply wp_krelease; [done|cbn [km set_ftabs]; rewrite K1, Hh; apply not_elem_of_nil|].
  rewrite G2. unfold mount_fs. cbn [t_mounts t_fs].
  change (vfs_mount ext4 slash init_vfs_mtable) with (0, MountPoint slash (-1) (fs_type ext4) :: replicate 3 (MountPoint 0 (-1) VFS_TYPE_UNKNOWN)).
  cbn iota. apply wp_bind, wp_bind, wp_panic_if; [done|].
  change (addfs ext4 (replicate (Z.to_nat VFS_MAXFS) None)) with (0, [Some ext4; None; None; None]). cbn iota.
  apply wp_bind, wp_panic_if; [done|]. apply wp_ret, wp_bind, wp_ret. cbn [t_mounts t_fs replicate].
  assert (V : forall ty l, vfs_mount procfs proc_path (MountPoint slash (-1) ty :: MountPoint 0 (-1) VFS_TYPE_UNKNOWN :: l) =
    (0, MountPoint slash (-1) ty :: MountPoint proc_path (-1) (fs_type procfs) :: l)).
  { intros ty l. unfold vfs_mount. cbn [list_find mp]. rewrite decide_False by apply Hn. by rewrite decide_True. }
  rewrite V. cbn iota. apply wp_bind, wp_panic_if; [done|].
  change (addfs procfs [Some ext4; None; None; None]) with (0, [Some ext4; Some procfs; None; None]). cbn iota.
  apply wp_bind, wp_panic_if; [done|]. apply wp_ret.
  split; [done|]. rewrite <- K1. cbn [km set_km set_ftabs]. by destruct (km s1).
Qed.

Lemma from_root_slash p : [SLASH] `prefix_of` from_root p.
Proof.
  unfold from_root, abs_path, add_slash. case_match; [by exists []|]. destruct (Z.eqb_spec z SLASH) as [->|_]; by eexists.
Qed.

(** A path that begins with /proc is procfs's, any other ext4's. *)
Theorem boot_mounts_resolve path abs p (s : kstate) :
  fs_names (mmem (km s)) -> held (km s) = [] -> vfs_flag (vfspool (ftabs s) 0) = VFS_FREE -> lim = Z.to_nat MAXPATH ->
  call_ok lim slash (memset (mmem (km s)) abs 0 MAXPATH) path slash abs p [SLASH] ->
  cstr (mmem (km s)) slash [SLASH] -> cstr (mmem (km s)) proc_path PROC -> slash <> proc_path ->
  apart slash [SLASH] abs lim -> apart proc_path PROC abs lim ->
  wp (initfss ext4 procfs (replicate (Z.to_nat VFS_MAXFS) None)) (fun t s' =>
    exists m', vfs_resolve_fs lim slash (t_fs t) (t_mounts t) (mmem (km s')) path abs =
      Some (Some (if decide (PROC `prefix_of` from_root p) then 1%nat else 0%nat), m')) s.
Proof.
  intros Hn Hh Hf -> Hok Hsl Hpr Hne Ha1 Ha2. eapply wp_mono; [by apply wp_initfss|]. cbn beta. intros t s' [-> ->].
  pose (name a := if a =? slash then [SLASH] else PROC).
  assert (Nsl : name slash = [SLASH]) by (unfold name; by rewrite Z.eqb_refl).
  assert (Npr : name proc_path = PROC) by (unfold name; by rewrite (proj2 (Z.eqb_neq proc_path slash)) by done).
  destruct Hn as [_ _ [T1 T2] [Hs0 Hp0] _ _].
  destruct (vfs_resolve_fs_longest slash (t_fs boot_tabs) (t_mounts boot_tabs) (mmem (km s)) path abs p name Hok) as (fs & m' & -> & Hfs).
  { intros r. cbn [boot_tabs t_mounts]. rewrite !elem_of_cons, elem_of_nil. intros [->|[->|[->|[->|[]]]]] H0; cbn [mp] in *; [rewrite Nsl|rewrite Npr|done|done];
      (split_and!; [done|vm_compute; lia|done]). }
  exists m'. f_equal. f_equal.
  assert (E1 : eligible (t_fs boot_tabs) (from_root p) name (MountPoint slash (-1) (fs_type ext4)) 0).
  { split_and!; [by rewrite T1; cbn; rewrite T1|done|cbn [mp]; rewrite Nsl; apply from_root_slash]. }
  assert (E2 : PROC `prefix_of` from_root p -> eligible (t_fs boot_tabs) (from_root p) name (MountPoint proc_path (-1) (fs_type procfs)) 1).
  { intros Hp. split_and!; [by rewrite T2; cbn; rewrite T1, T2|done|cbn [mp]; by rewrite Npr]. }
  destruct fs as [fs|]; [|exfalso; eapply Hfs; [|exact E1]; by left].
  destruct Hfs as (r & Hr & (Hty & Hmp & Hpre) & Hlong). f_equal. revert Hr. cbn [boot_tabs t_mounts]. rewrite !elem_of_cons, elem_of_nil.
  intros [->|[->|[->|[->|[]]]]]; [| |done|done]; cbn [mp mtype] in *.
  - rewrite T1 in Hty. cbn in Hty. rewrite T1 in Hty. injection Hty as <-. rewrite decide_False; [done|]. intros Hp.
    specialize (Hlong _ _ ltac:(right; left; done) (E2 Hp)). cbn [mp] in Hlong. rewrite Nsl, Npr in Hlong. cbn in Hlong. lia.
  - rewrite T2 in Hty. cbn in Hty. rewrite T1, T2 in Hty. injection Hty as <-. rewrite Npr in Hpre. by rewrite decide_True.
Qed.
End Install.
