(* ===== verification/Exec.v ===== *)
(** * Strings kept in structures

    The records of the model keep the contents of short character arrays (a
    process's name and working directory, a file's path) as values of type
    string.  Code that handles them through pointers sees them in memory:
    [put_string] stores the array's contents at its address, [get_string] reads an
    array of the given size back, up to its NUL. *)
From Stdlib Require Import Ascii String.
From Stdlib Require Import String.
From S2P Require Import Prelude Mem CString Snprintf KTypes Kalloc Vm ListHead KState Queue Sched Signal Thread ThreadInv ProcBase Pipe File Proc Path Fd.
Fixpoint put_chars (m : mem) (a : Z) (l : list Z) : mem :=
  match l with
  | [] => mset m a 0
  | c :: l => put_chars (mset m a c) (a + 1) l
  end.

Definition put_string (m : mem) (a : Z) (s : string) : mem := put_chars m a (chars s).

Fixpoint get_chars (m : mem) (a : Z) (n : nat) : list Z :=
  match n with
  | O => []
  | S n => if m a =? 0 then [] else m a :: get_chars m (a + 1) n
  end.

Definition of_chars (l : list Z) : string :=
  String.string_of_list_ascii (map (fun c => Ascii.ascii_of_N (Z.to_N c)) l).

Definition get_string (m : mem) (a : Z) (n : nat) : string := of_chars (get_chars m a n).

Lemma put_chars_before m a l x : x < a -> put_chars m a l x = m x.
Proof.
  revert m a. induction l as [|c l IH]; intros m a Hx; cbn [put_chars].
  - unfold mset. case_match; lia.
  - rewrite IH by lia. unfold mset. case_match; lia.
Qed.

Lemma put_chars_after m a l x : a + Z.of_nat (length l) < x -> put_chars m a l x = m x.
Proof.
  revert m a. induction l as [|c l IH]; intros m a Hx; cbn [put_chars length] in *.
  - unfold mset. case_match; lia.
  - rewrite IH by lia. unfold mset. case_match; lia.
Qed.

Lemma put_chars_cstr m a l : Forall (fun c => 0 < c < 256) l -> cstr (put_chars m a l) a l.
Proof.
  revert m a. induction l as [|c l IH]; intros m a Hl; cbn [put_chars cstr].
  - unfold mset. by rewrite Z.eqb_refl.
  - apply Forall_cons in Hl as [Hc Hl]. rewrite put_chars_before by lia. split; [|split]; [|lia|by apply IH].
    unfold mset. rewrite Z.eqb_refl. apply Z.mod_small. lia.
Qed.

Lemma get_chars_cstr m a l n : cstr m a l -> (length l <= n)%nat -> get_chars m a n = l.
Proof.
  revert a n. induction l as [|c l IH]; intros a n Hc Hn; cbn [cstr length] in *.
  - destruct n; [done|]. cbn [get_chars]. by rewrite Hc.
  - destruct n; [lia|]. destruct Hc as (Hm & H0 & Hc). cbn [get_chars]. rewrite Hm.
    destruct (Z.eqb_spec c 0); [lia|]. f_equal. apply IH; [done|lia].
Qed.

Lemma chars_range s : Forall (fun c => 0 <= c < 256) (chars s).
Proof.
  apply Forall_forall. intros x Hx. unfold chars in Hx. apply list_elem_of_fmap in Hx as (c & -> & _).
  pose proof (Ascii.N_ascii_bounded c). lia.
Qed.

Lemma of_chars_chars s : of_chars (chars s) = s.
Proof.
  unfold of_chars, chars. rewrite map_map. erewrite map_ext.
  - rewrite map_id. apply String.string_of_list_ascii_of_string.
  - intros c. cbn beta. by rewrite N2Z.id, Ascii.ascii_N_embedding.
Qed.

(** An array that holds a string gives the string back. *)
Lemma get_put_string m a s n :
  Forall (fun c => c <> 0) (chars s) -> (String.length s <= n)%nat -> get_string (put_string m a s) a n = s.
Proof.
  intros Hs Hn. unfold get_string, put_string. rewrite (get_chars_cstr _ _ (chars s)).
  - apply of_chars_chars.
  - apply put_chars_cstr. pose proof (chars_range s) as Hr. rewrite !Forall_forall in *. intros x Hx.
    specialize (Hs x Hx). specialize (Hr x Hx). lia.
  - assert (length (chars s) = String.length s) as ->; [|done].
    unfold chars. rewrite length_map. clear. induction s; cbn; congruence.
Qed.

(** * kernel/fs/exec.c and sys_execve of kernel/fs/sysfile.c: new user images

    execve opens the program through ext4, loads its segments and those of the
    dynamic linker, lays out the stack (strings, auxiliary vector, pointer
    arrays, argc) and commits.  The files are read through the operations of the
    file system, a record of functions.  The steps of the C function are separate
    definitions; a step that ends in [goto bad] answers [false] with the size
    reached so far, which is what [bad] frees. *)

Definition MAXARG : Z := 512.
Definition MAXENV : Z := 8.
Definition MAX_AT : Z := 33.
Definition ELF_MAGIC : Z := 0x464C457F.
Definition ELF_PROG_LOAD : Z := 1.
Definition ELF_PROG_INTERP : Z := 3.
Definition ELFHDR_SIZE : Z := 64.
Definition PROGHDR_SIZE : Z := 56.

Definition AT_NULL : Z := 0.
Definition AT_PHDR : Z := 3.
Definition AT_PHENT : Z := 4.
Definition AT_PHNUM : Z := 5.
Definition AT_PAGESZ : Z := 6.
Definition AT_BASE : Z := 7.
Definition AT_ENTRY : Z := 9.
Definition AT_UID : Z := 11.
Definition AT_EUID : Z := 12.
Definition AT_GID : Z := 13.
Definition AT_EGID : Z := 14.
Definition AT_SECURE : Z := 23.
Definition AT_RANDOM : Z := 25.

(** The fields execve reads of a struct elfhdr. *)
Record elfhdr := Elfhdr { magic : Z; entry : Z; phoff : Z; phentsize : Z; phnum : Z }.
Definition elfhdr_at (m : mem) (a : Z) : elfhdr :=
  Elfhdr (load m a 4) (load m (a + 24) 8) (load m (a + 32) 8) (load m (a + 54) 2) (load m (a + 56) 2).

(** The fields execve reads of a struct proghdr. *)
Record proghdr := Proghdr { ph_type : Z; ph_flags : Z; ph_off : Z; vaddr : Z; filesz : Z; memsz : Z }.
Definition proghdr_at (m : mem) (a : Z) : proghdr :=
  Proghdr (load m a 4) (load m (a + 4) 4) (load m (a + 8) 8) (load m (a + 16) 8) (load m (a + 32) 8) (load m (a + 40) 8).

Definition flags2perm (flags : Z) : Z :=
  let perm := if Z.land flags 1 =? 0 then PTE_A else PTE_X in
  if Z.land flags 2 =? 0 then perm else Z.lor perm PTE_W.

Definition kmem : E kstate mem := gets (fun s => mmem (km s)).

(** What the loop over the program headers keeps. *)
Record image := Image { im_sz : Z; need_dynamic : bool; progh_base : option Z }.
Definition set_im_sz (v : Z) (r : image) : image := Image v (need_dynamic r) (progh_base r).

(** What the three pushes of the stack leave: sp, envc and argc. *)
Record ustk := Ustk { us_sp : Z; us_envc : Z; us_argc : Z }.

Section Exec.
(** [extern char end[], trampoline[], __user_rt_sigreturn[]], a bound on the
    length of kernel strings, the address of the string literal for a slash. *)
Context (kend trampoline user_rt_sigreturn : Z) (lim : nat) (slash : Z).
(** The local variables whose address execve takes: elf, ph, ustack, estack,
    aux, argc, abs_path; and the path array of the process. *)
Context (elf ph ustack estack aux argc_cell abs_path cwd : Z).
(** ext4_vfopen of a path, ext4_vfread and ext4_vfclose as operations of the
    file system; the address of the linker's path. *)
Context (ext4_vfopen : nat -> Z -> Z -> E kstate Z) (ops : fs_ops) (interp_path : Z).

(** (r = ext4_vfread(f, 0, dst, off, n, &rcnt)) == EOK && rcnt == n *)
Definition read_exact (f : nat) (dst off n : Z) : E kstate bool :=
  r ← fop_read ops f false dst off n;
  mret ((r.1 =? EOK) && (r.2 =? n)).

(** for (i = 0; i < sz; i += PGSIZE), with [i] of type uint. *)
Fixpoint floadseg_loop (fuel : nat) (pt : Z) (f : nat) (va offset sz i : Z) : E kstate Z :=
  match fuel with
  | O => nofuel
  | S fuel =>
    if sz <=? i then mret 0
    else
      pa ← on_mach (walkaddr pt (u64 (va + i)));
      panic_if (pa =? 0) "loadseg: address should exist";;
      let n := if u32 (sz - i) <? PGSIZE then u32 (sz - i) else PGSIZE in
      ok ← read_exact f pa (u32 (offset + i)) n;
      if negb ok then mret (-1) else floadseg_loop fuel pt f va offset sz (u32 (i + PGSIZE))
  end.

Definition floadseg (pt : Z) (f : nat) (va offset sz : Z) : E kstate Z :=
  panic_if (negb (va mod PGSIZE =? 0)) "loadseg: va must be page aligned";;
  floadseg_loop (Z.to_nat (sz / PGSIZE + 2)) pt f va offset sz 0.

(** The body of the loop over the headers of the program, for the header in
    memory; and of the loop over those of the linker at [base]. *)
Definition load_program (pt : Z) (f : nat) (h : proghdr) (im : image) : E kstate (bool * image) :=
  let im := if ph_type h =? ELF_PROG_INTERP then Image (im_sz im) true (progh_base im) else im in
  if negb (ph_type h =? ELF_PROG_LOAD) then mret (true, im)
  else if memsz h <? filesz h then mret (false, im)
  else if u64 (vaddr h + memsz h) <? vaddr h then mret (false, im)
  else
    sz1 ← on_mach (uvmalloc kend pt (im_sz im) (u64 (vaddr h + memsz h)) (Z.lor (flags2perm (ph_flags h)) PTE_W));
    if sz1 =? 0 then mret (false, im)
    else
      let im := set_im_sz sz1 im in
      let down := PGROUNDDOWN (vaddr h) in
      r ← floadseg pt f down (u32 (PGROUNDDOWN (ph_off h))) (u32 (filesz h + (vaddr h - down)));
      if r <? 0 then mret (false, im)
      else mret (true, match progh_base im with
                       | Some _ => im
                       | None => Image (im_sz im) (need_dynamic im) (Some down)
                       end).

Definition load_interp (base : Z) (pt : Z) (f : nat) (h : proghdr) (im : image) : E kstate (bool * image) :=
  if negb (ph_type h =? ELF_PROG_LOAD) then mret (true, im)
  else if memsz h <? filesz h then mret (false, im)
  else if u64 (vaddr h + memsz h) <? vaddr h then mret (false, im)
  else
    sz1 ← on_mach (uvmalloc kend pt (im_sz im) (u64 (base + vaddr h + memsz h)) (Z.lor PTE_W PTE_X));
    if sz1 =? 0 then mret (false, im)
    else
      let im := set_im_sz sz1 im in
      r ← floadseg pt f (u64 (base + PGROUNDDOWN (vaddr h))) (u32 (PGROUNDDOWN (ph_off h)))
            (u32 (filesz h + vaddr h mod PGSIZE));
      mret (negb (r <? 0), im).

(** for (i = 0, off = elf.phoff; i < elf.phnum; i++, off += sizeof(ph)); [off]
    is an int. *)
Fixpoint load_segments (n : nat) (body : proghdr -> image -> E kstate (bool * image)) (f : nat) (hdr off : Z)
    (im : image) : E kstate (bool * image) :=
  match n with
  | O => mret (true, im)
  | S n =>
    ok ← read_exact f hdr off PROGHDR_SIZE;
    if negb ok then mret (false, im)
    else
      m ← kmem;
      r ← body (proghdr_at m hdr) im;
      match (r : bool * image) with
      | (true, im) => load_segments n body f hdr (i32 (off + PROGHDR_SIZE)) im
      | (false, im) => mret (false, im)
      end
  end.

(** if (need_dynamic) {...}; [ielf] and [iph] are interp_elf and interp_ph.
    Answers the linker's base and the entry point. *)
Definition load_linker (ielf iph : Z) (pt : Z) (sz : Z) : E kstate (bool * Z * (Z * Z)) :=
  let base := PGROUNDUP sz in
  interp ← filealloc (Some ops);
  match interp with
  | None => mret (false, sz, (base, 0))
  | Some interp =>
    r ← ext4_vfopen interp interp_path O_RDONLY;
    if negb (r =? EOK) then mret (false, sz, (base, 0))
    else
      ok ← read_exact interp ielf 0 ELFHDR_SIZE;
      if negb ok then mret (false, sz, (base, 0))
      else
        m ← kmem;
        let h := elfhdr_at m ielf in
        if negb (magic h =? ELF_MAGIC) then fop_close ops interp;; mret (false, sz, (base, 0))
        else
          im ← load_segments (Z.to_nat (phnum h)) (load_interp base pt interp) interp iph (i32 (phoff h)) (Image sz true None);
          match (im : bool * image) with
          | (true, im) => fop_close ops interp;; mret (true, im_sz im, (base, u64 (base + entry h)))
          | (false, im) => mret (false, im_sz im, (base, 0))
          end
  end.

(** for (c = 0; v[c]; c++) {...} stk[c] = 0; *)
Fixpoint push_strings (n : nat) (pt v max stk stackbase c sp : Z) : E kstate (option (Z * Z)) :=
  match n with
  | O => nofuel
  | S n =>
    m ← kmem;
    let str := load64 m (v + 8 * c) in
    if str =? 0 then
      on_mach (upd_mem (fun m => store64 m (stk + 8 * c) 0));;
      mret (Some (c, sp))
    else if max <=? c then mret None
    else
      match strlen lim m str with
      | None => nofuel
      | Some len =>
        let sp := u64 (sp - (len + 1)) in
        let sp := sp - sp mod 16 in
        if sp <? stackbase then mret None
        else
          r ← on_mach (copyout pt sp str (len + 1));
          if r <? 0 then mret None
          else
            on_mach (upd_mem (fun m => store64 m (stk + 8 * c) sp));;
            push_strings n pt v max stk stackbase (c + 1) sp
      end
  end.

(** The ADD_AUXV lines: pairs of words at [aux]. *)
Definition aux_vector (h : elfhdr) (progh : Z) (base sp : Z) : list (Z * Z) :=
  [(AT_PAGESZ, PGSIZE); (AT_PHDR, u64 (phoff h + progh)); (AT_PHENT, phentsize h); (AT_PHNUM, phnum h);
   (AT_BASE, base); (AT_ENTRY, entry h); (AT_UID, 0); (AT_EUID, 0); (AT_GID, 0); (AT_EGID, 0); (AT_SECURE, 0);
   (AT_RANDOM, sp); (AT_NULL, 0)].

Fixpoint add_auxv (m : mem) (a : Z) (l : list (Z * Z)) : mem :=
  match l with
  | [] => m
  | (type, val) :: l => add_auxv (store64 (store64 m a type) (a + 8) val) (a + 16) l
  end.

(** Copy [n] bytes of the kernel's object at [src] to just below [sp]. *)
Definition push_bytes (pt sp src n : Z) : E kstate (option Z) :=
  let sp := u64 (sp - n) in
  r ← on_mach (copyout pt sp src n);
  mret (if r <? 0 then None else Some sp).

(** The same with the check against the base of the stack before the copy. *)
Definition push_checked (pt stackbase sp src n : Z) : E kstate (option Z) :=
  if u64 (sp - n) <? stackbase then mret None else push_bytes pt sp src n.

(** The contents of the stack: the strings, the auxiliary vector and the two
    arrays of pointers, below [top] and not below [stackbase]. *)
Definition fill_stack (pt stackbase top : Z) (h : elfhdr) (progh base : Z) (argv envp : Z) : E kstate (option ustk) :=
  e ← push_strings (S (Z.to_nat MAXENV)) pt envp MAXENV estack stackbase 0 (u64 (top - 16));
  match e with
  | None => mret None
  | Some (envc, sp) =>
    a ← push_strings (S (Z.to_nat MAXARG)) pt argv MAXARG ustack stackbase 0 sp;
    match a with
    | None => mret None
    | Some (argc, sp) =>
      let sp := u64 (sp - 16) in
      on_mach (upd_mem (fun m => add_auxv m aux (aux_vector h progh base sp)));;
      p1 ← push_bytes pt sp aux (MAX_AT * 2 * 8);
      match p1 with
      | None => mret None
      | Some sp =>
        p2 ← push_checked pt stackbase sp estack ((envc + 1) * 8);
        match p2 with
        | None => mret None
        | Some sp =>
          p3 ← push_checked pt stackbase sp ustack ((argc + 1) * 8);
          match p3 with
          | None => mret None
          | Some sp => mret (Some (Ustk sp envc argc))
          end
        end
      end
    end
  end.

(** From the allocation of the stack to the array of argv pointers; the second
    component is sz at the end. *)
Definition build_stack (pt sz : Z) (h : elfhdr) (progh base : Z) (argv envp : Z) : E kstate (option ustk * Z) :=
  let sz := PGROUNDUP sz in
  sz1 ← on_mach (uvmalloc kend pt sz (u64 (sz + 64 * PGSIZE)) PTE_W);
  if sz1 =? 0 then mret (None, sz)
  else
    on_mach (uvmclear pt (u64 (sz1 - 64 * PGSIZE)));;
    us ← fill_stack pt (u64 (sz1 - 63 * PGSIZE)) sz1 h progh base argv envp;
    mret (us, sz1).

(** for (last = s = path; *s; s++) if ( *s == '/') last = s + 1; *)
Fixpoint last_elem (fuel : nat) (m : mem) (last s : Z) : option Z :=
  match fuel with
  | O => None
  | S fuel => if m s =? 0 then Some last else last_elem fuel m (if m s =? SLASH then s + 1 else last) (s + 1)
  end.

(** The loop that closes the files with O_CLOEXEC. *)
Definition close_on_exec (p : nat) : E kstate unit :=
  for_table (R := unit) (Z.to_nat NOFILE) 0 (fun fd =>
    o ← get_ofile p (Z.of_nat fd);
    match o with
    | None => mret None
    | Some f =>
      x ← get_file f;
      if has_bits (fflags x) O_CLOEXEC then
        fileclose kend (Some ops) f true;;
        set_fd p (Z.of_nat fd) None;;
        mret None
      else mret None
    end);;
  mret tt.

(** From free_allother_threads_group to the end. *)
Definition commit_image (p t : nat) (pt sz oldsz : Z) (us : ustk) (prog_entry path : Z) : E kstate bool :=
  free_allother_threads_group kend t;;
  transfer_trapframe kend t pt false;;
  tf_set t TF_A1 (us_sp us);;
  on_mach (upd_mem (fun m => store64 m argc_cell (us_argc us)));;
  a ← push_checked pt (u64 (sz - 63 * PGSIZE)) (us_sp us) argc_cell 8;
  match a with
  | None => mret false
  | Some sp =>
    m ← kmem;
    last ← match last_elem lim m path path with Some a => mret a | None => nofuel end;
    upd_proc p (set_pname (get_string m last 15));;
    oldpagetable ← gets (fun s => pagetable (procs s p));
    upd_proc p (set_pagetable pt);;
    upd_proc p (set_psz sz);;
    tf_set t TF_EPC prog_entry;;
    tf_set t TF_SP sp;;
    proc_freepagetable kend oldpagetable oldsz true;;
    close_on_exec p;;
    mret true
  end.

(** bad: *)
Definition exec_bad (f : nat) (pt sz : Z) : E kstate Z :=
  (if pt =? 0 then mret tt else proc_freepagetable kend pt sz true);;
  fop_close ops f;;
  mret (-1).

(** The linker's headers are at [ielf] and [iph]. *)
Definition execve (ielf iph path argv envp : Z) : E kstate Z :=
  p ← myproc;
  t ← (me ← gets cur; deref me);
  f ← filealloc (Some ops);
  match f with
  | None => mret (-1)
  | Some f =>
    wd ← gets (fun s => cpath (procs s p));
    m ← kmem;
    m ← match get_absolute_path lim slash (put_string m cwd wd) path cwd abs_path with Some m => mret m | None => nofuel end;
    on_mach (upd_mem (fun _ => m));;
    r ← ext4_vfopen f abs_path O_RDONLY;
    if negb (r =? EOK) then mret (-1)
    else
      ok ← read_exact f elf 0 ELFHDR_SIZE;
      if negb ok then fop_close ops f;; mret (-1)
      else
        m ← kmem;
        let h := elfhdr_at m elf in
        if negb (magic h =? ELF_MAGIC) then exec_bad f 0 0
        else
          pt ← proc_pagetable kend trampoline user_rt_sigreturn;
          if pt =? 0 then exec_bad f 0 0
          else
            im ← load_segments (Z.to_nat (phnum h)) (load_program pt f) f ph (i32 (phoff h)) (Image 0 false None);
            match (im : bool * image) with
            | (false, im) => exec_bad f pt (im_sz im)
            | (true, im) =>
              fop_close ops f;;
              ld ← (if need_dynamic im then load_linker ielf iph pt (im_sz im)
                    else mret (true, im_sz im, (0, entry h)));
              match (ld : bool * Z * (Z * Z)) with
              | (false, sz, _) => exec_bad f pt sz
              | (true, sz, (base, prog_entry)) =>
                oldsz ← gets (fun s => psz (procs s p));
                st ← build_stack pt sz h (default 0 (progh_base im)) base argv envp;
                match (st : option ustk * Z) with
                | (None, sz) => exec_bad f pt sz
                | (Some us, sz) =>
                  ok ← commit_image p t pt sz oldsz us prog_entry path;
                  if (ok : bool) then mret 0 else exec_bad f pt sz
                end
              end
            end
  end.

(** ** sys_execve *)

(** for (i = 0; i < NELEM(v) && v[i] != 0; i++) kfree(v[i]); *)
Fixpoint free_strings (n : nat) (v i : Z) : E kstate unit :=
  match n with
  | O => mret tt
  | S n =>
    m ← kmem;
    let a := load64 m (v + 8 * i) in
    if a =? 0 then mret tt else on_mach (kfree kend a);; free_strings n v (i + 1)
  end.

(** for (i = 0;; i++) {...}: copies the strings of the user array [uv], NULL if
    [uv] is 0 and [null_ok], into new pages whose addresses go to [v].  [cell] is
    the address of uarg or uenv. *)
Fixpoint fetch_strings (n : nat) (null_ok : bool) (uv v cell i : Z) : E kstate bool :=
  match n with
  | O => mret false
  | S n =>
    e ← (if null_ok && (uv =? 0) then mret 0 else fetchaddr (u64 (uv + 8 * i)) cell);
    if e <? 0 then mret false
    else
      m ← kmem;
      let u := load64 m cell in
      if u =? 0 then on_mach (upd_mem (fun m => store64 m (v + 8 * i) 0));; mret true
      else
        page ← on_mach kalloc;
        on_mach (upd_mem (fun m => store64 m (v + 8 * i) page));;
        if page =? 0 then mret false
        else
          len ← fetchstr u page PGSIZE;
          if len <? 0 then mret false else fetch_strings n null_ok uv v cell (i + 1)
  end.

(** The arrays path, argv and envp and the words uarg and uenv, by address. *)
Definition sys_execve (ielf iph path argv envp uarg uenv : Z) : E kstate Z :=
  on_mach (upd_mem (fun m => store64 m uenv 0));;
  uargv ← argaddr 1;
  len ← argstr 0 path MAXPATH;
  if len <? 0 then mret (-1)
  else
    uenvp ← argaddr 2;
    on_mach (upd_mem (fun m => memset m envp 0 (MAXENV * 8)));;
    ok ← fetch_strings (Z.to_nat MAXENV) true uenvp envp uenv 0;
    if negb ok then free_strings (Z.to_nat MAXENV) envp 0;; mret (-1)
    else
      on_mach (upd_mem (fun m => memset m argv 0 (MAXARG * 8)));;
      ok ← fetch_strings (Z.to_nat MAXARG) false uargv argv uarg 0;
      if negb ok then free_strings (Z.to_nat MAXARG) argv 0;; mret (-1)
      else
        ret ← execve ielf iph path argv envp;
        free_strings (Z.to_nat MAXARG) argv 0;;
        free_strings (Z.to_nat MAXENV) envp 0;;
        mret ret.
End Exec.
