(* ===== verification/ExecSpec.v ===== *)
(** * What execve leaves on the user stack

    The part of the user address space a routine writes is a [window]: pages
    mapped for the user, distinct, none of them a page table, with an unmapped
    guard page below.  [view m K U] reads the machine's memory as two memories: [K]
    for kernel objects outside the window's pages and [U] for user virtual
    addresses.  copyout then is an assignment to [U], a store of the kernel one to
    [K]; the theorems on fill_stack and floadseg are stated over the two. *)
From S2P Require Import Prelude Mem CString KTypes Kalloc Vm VmTree VmMap VmUser VmCopy ListHead KState Queue Thread ProcBase File Fd Exec.

(** The bytes a store writes do not depend on the memory. *)
Lemma store_agree m m' a n v x : a <= x < a + Z.of_nat n -> store m a n v x = store m' a n v x.
Proof.
  revert m m' a v. induction n as [|n IH]; intros m m' a v Hx; [lia|]. cbn [store].
  destruct (Z.eq_dec x a) as [->|].
  - rewrite !store_out by lia. by rewrite !mset_eq.
  - apply IH. lia.
Qed.

Lemma store64_agree m m' a v x : a <= x < a + 8 -> store64 m a v x = store64 m' a v x.
Proof. intros Hx. unfold store64. apply store_agree. lia. Qed.

Lemma load_shift m m' a b n : (forall j, 0 <= j < Z.of_nat n -> m (a + j) = m' (b + j)) -> load m a n = load m' b n.
Proof.
  revert a b. induction n as [|n IH]; intros a b H; [done|]. cbn [load].
  pose proof (H 0 ltac:(lia)) as H0. rewrite !Z.add_0_r in H0. rewrite H0, (IH (a + 1) (b + 1)); [done|].
  intros j Hj. replace (a + 1 + j) with (a + (j + 1)) by lia. replace (b + 1 + j) with (b + (j + 1)) by lia. apply H. lia.
Qed.

Lemma load64_shift m m' a b : (forall j, 0 <= j < 8 -> m (a + j) = m' (b + j)) -> load64 m a = load64 m' b.
Proof. apply (load_shift m m' a b 8). Qed.

#[local] Opaque memset load64 store64 memmove.

(** ** The window *)

Section Window.
Context (kend : Z).
Hypothesis kend_pos : 0 < kend.
(** The root of the page table and its tables, the bounds of the window, and
    the page behind each virtual address. *)
Context (root : Z) (T : tables) (lo hi : Z) (pgs : Z -> Z).

Record window (m : mem) : Prop := {
  w_pt : pt_inv kend m root T;
  w_bytes : bytes_ok m;
  w_range : PGSIZE <= lo <= hi /\ hi < 2 ^ 64;
  w_pages : forall va, upage m T va = pgs va;
  w_map : forall va, lo <= va < hi -> pgs va <> 0;
  w_guard : forall va, lo - PGSIZE <= va < lo -> pgs va = 0;
  w_table : forall va, lo <= va < hi -> ~ table_page T (pgs va);
  w_inj : forall va vb, lo <= va < hi -> lo <= vb < hi -> pgs va = pgs vb -> PGROUNDDOWN va = PGROUNDDOWN vb;
}.

(** A kernel address: not in a table, not behind the window, not in page 0. *)
Definition outside (x : Z) : Prop :=
  PGSIZE <= x /\ (forall pa, table_page T pa -> ~ in_page pa x) /\
  (forall va, lo <= va < hi -> ~ in_page (pgs va) x).

Definition ua (va : Z) : Z := pgs va + va mod PGSIZE.

Record view (m K U : mem) : Prop := {
  v_win : window m;
  v_kern : forall x, outside x -> m x = K x;
  v_user : forall va, lo <= va < hi -> m (ua va) = U va;
}.

(** [U] with the [len] bytes of [K] at [src] stored at [dst]. *)
Definition splice (U : mem) (dst : Z) (K : mem) (src len : Z) : mem :=
  fun va => if (dst <=? va) && (va <? dst + len) then K (src + (va - dst)) else U va.

Lemma splice_in U dst K src len va : dst <= va < dst + len -> splice U dst K src len va = K (src + (va - dst)).
Proof. intros. unfold splice. destruct (Z.leb_spec dst va), (Z.ltb_spec va (dst + len)); try lia. done. Qed.

Lemma splice_out U dst K src len va : va < dst \/ dst + len <= va -> splice U dst K src len va = U va.
Proof. intros. unfold splice. destruct (Z.leb_spec dst va), (Z.ltb_spec va (dst + len)); try lia; done. Qed.

Lemma ua_in_page m va : window m -> in_page (pgs va) (ua va).
Proof. intros Hw. unfold ua. rewrite <- (w_pages _ Hw). apply uaddr_in_page. Qed.

Lemma pgs_aligned m va : window m -> page_aligned (pgs va).
Proof. intros Hw. rewrite <- (w_pages _ Hw). apply upage_aligned. Qed.

Lemma ua_inj m va vb : window m -> lo <= va < hi -> lo <= vb < hi -> ua va = ua vb -> va = vb.
Proof.
  intros Hw Ha Hb He. assert (pgs va = pgs vb) as Hp.
  { apply (in_page_eq _ _ (ua va)); [by eapply pgs_aligned..|by eapply ua_in_page|rewrite He; by eapply ua_in_page]. }
  pose proof (w_inj _ Hw va vb Ha Hb Hp) as Hr. unfold ua in He.
  rewrite (page_split va), (page_split vb). lia.
Qed.

Lemma outside_ua m x va : window m -> outside x -> lo <= va < hi -> x <> ua va.
Proof. intros Hw (_ & _ & Ho) Hva ->. apply (Ho va Hva). by eapply ua_in_page. Qed.

(** The conditions of copyout on a range of the window, or of it and the
    guard page. *)
Lemma window_copy m dst src len :
  window m -> lo - PGSIZE <= dst -> dst + len <= hi -> (forall i, 0 <= i < len -> outside (src + i)) ->
  apart m T src dst len /\ distinct_pages m T dst len.
Proof.
  intros Hw Hlo Hhi Hout. pose proof (w_range _ Hw) as [Hr _]. split.
  - intros x Hx. specialize (Hout (x - src) ltac:(lia)) as (H0 & Ht & Hu).
    replace (src + (x - src)) with x in * by lia. split; [done|]. intros i Hi. rewrite (w_pages _ Hw).
    destruct (Z.leb_spec lo (dst + i)); [apply Hu; lia|]. rewrite (w_guard _ Hw) by lia. unfold in_page. lia.
  - intros i Hi Hne. rewrite (w_pages _ Hw) in *.
    assert (lo <= dst + i < hi) as Hii.
    { destruct (Z.leb_spec lo (dst + i)); [lia|]. rewrite (w_guard _ Hw) in Hne by lia. done. }
    split; [by apply (w_table _ Hw)|]. intros j Hj He. rewrite (w_pages _ Hw) in He.
    assert (lo <= dst + j < hi) as Hjj.
    { destruct (Z.leb_spec lo (dst + j)); [lia|]. rewrite (w_guard _ Hw) in He by lia. congruence. }
    by apply (w_inj _ Hw).
Qed.

(** Writes behind the window keep it. *)
Lemma window_frame m m' dst len :
  window m -> bytes_ok m' -> lo <= dst -> dst + len <= hi -> (forall x, ~ behind m T dst len x -> m' x = m x) -> window m'.
Proof.
  intros Hw Hb Hlo Hhi Hout.
  assert (distinct_pages m T dst len) as Hd.
  { intros i Hi Hne. rewrite (w_pages _ Hw) in *. split; [apply (w_table _ Hw); lia|].
    intros j Hj He. rewrite (w_pages _ Hw) in He. apply (w_inj _ Hw); [lia..|done]. }
  destruct (copyout_tables kend root T dst len m m' (w_pt _ Hw) Hd Hout) as [Hpt Hleaf].
  constructor; try apply Hw; try done. intros va. rewrite (upage_ext m m' T va Hleaf). apply Hw.
Qed.

Lemma view_copyout K U dst src len s :
  view (mmem s) K U -> 0 <= len -> lo <= dst -> dst + len <= hi -> (forall i, 0 <= i < len -> outside (src + i)) ->
  wp (copyout root dst src len) (fun r s' => r = 0 /\ view (mmem s') K (splice U dst K src len)) s.
Proof.
  intros [Hw Hk Hu] Hlen Hlo Hhi Hout. pose proof (w_range _ Hw) as [Hr Hr2].
  destruct (window_copy _ dst src len Hw ltac:(unfold PGSIZE; lia) Hhi Hout) as [Hap Hdp].
  eapply wp_mono.
  { apply (wp_copyout_loop kend kend_pos _ root T); try done; [by apply w_pt|by apply w_bytes|unfold PGSIZE in *; lia|].
    apply copy_fuel; unfold PGSIZE in *; lia. }
  cbn beta. intros r s' (_ & Hb & Hrest & [[-> Hcp]|[_ (i & Hi & Hz)]]).
  2: { rewrite (w_pages _ Hw) in Hz. by apply (w_map _ Hw) in Hz; [|lia]. }
  split; [done|]. assert (window (mmem s')) as Hw' by by eapply window_frame. constructor; [done|..].
  - intros x Hx. rewrite Hrest; [by apply Hk|]. intros (i & Hi & _ & ->).
    unfold uaddr in Hx. rewrite (w_pages _ Hw) in Hx. by apply (outside_ua _ _ (dst + i) Hw Hx); [lia|].
  - intros va Hva. destruct (decide (dst <= va < dst + len)) as [Hin|Hnin].
    + rewrite splice_in by done. destruct (Hcp (va - dst) ltac:(lia)) as [_ Hc].
      replace (dst + (va - dst)) with va in Hc by lia. unfold uaddr in Hc. rewrite (w_pages _ Hw) in Hc.
      unfold ua. rewrite Hc. apply Hk, Hout. lia.
    + rewrite splice_out by lia. rewrite Hrest; [by apply Hu|]. intros (i & Hi & _ & He).
      unfold uaddr in He. rewrite (w_pages _ Hw) in He. apply (ua_inj _ va (dst + i) Hw) in He; lia.
Qed.

(** A range that starts in the guard page is refused. *)
Lemma guard_copyout K U dst src len s :
  view (mmem s) K U -> 0 < len -> lo - PGSIZE <= dst < lo -> dst + len <= hi ->
  (forall i, 0 <= i < len -> outside (src + i)) ->
  wp (copyout root dst src len) (fun r s' => r = -1) s.
Proof.
  intros [Hw Hk Hu] Hlen Hlo Hhi Hout. pose proof (w_range _ Hw) as [Hr Hr2].
  destruct (window_copy _ dst src len Hw ltac:(lia) Hhi Hout) as [Hap Hdp].
  eapply wp_mono.
  { apply (wp_copyout_loop kend kend_pos _ root T); try done; [by apply w_pt|by apply w_bytes|lia..|].
    apply copy_fuel; lia. }
  cbn beta. intros r s' (_ & _ & _ & [[-> Hcp]|[-> _]]); [|done].
  destruct (Hcp 0 ltac:(lia)) as [Hne _]. rewrite (w_pages _ Hw), (w_guard _ Hw) in Hne by lia. done.
Qed.

(** A store of the kernel. *)
Lemma view_store m K U a v :
  view m K U -> (forall x, a <= x < a + 8 -> outside x) -> view (store64 m a v) (store64 K a v) U.
Proof.
  intros [Hw Hk Hu] Hout.
  assert (forall x, ~ (a <= x < a + 8) -> store64 m a v x = m x) as Hrest by (intros; apply store64_out; lia).
  assert (pt_inv kend (store64 m a v) root T /\ (forall va, leaf (store64 m a v) T va = leaf m T va)) as [Hpt Hl].
  { apply pt_frame; [by apply w_pt|]. intros pa x Ht Hin. apply Hrest. intros Hx.
    destruct (Hout x Hx) as (_ & Hn & _). by apply (Hn pa). }
  constructor.
  - constructor; try apply Hw; [done|by apply store64_ok, w_bytes|].
    intros va. rewrite (upage_ext m _ T va Hl). apply Hw.
  - intros x Hx. destruct (decide (a <= x < a + 8)) as [Hin|Hnin].
    + by apply store64_agree.
    + rewrite !store64_out by lia. by apply Hk.
  - intros va Hva. rewrite Hrest; [by apply Hu|]. intros Hx.
    by apply (outside_ua m (ua va) va Hw (Hout _ Hx)).
Qed.

(** What the kernel reads of its own objects. *)
Lemma view_load64 m K U a : view m K U -> (forall x, a <= x < a + 8 -> outside x) -> load64 m a = load64 K a.
Proof. intros Hv Hout. apply load64_ext. intros x Hx. by apply (v_kern _ _ _ Hv), Hout. Qed.

Lemma view_cstr m K U a l :
  view m K U -> (forall x, a <= x <= a + Z.of_nat (length l) -> outside x) -> cstr K a l -> cstr m a l.
Proof. intros Hv Hout Hc. apply (cstr_ext K); [done|]. intros x Hx. symmetry. apply (v_kern _ _ _ Hv), Hout. lia. Qed.
End Window.

(** ** Strings and words *)

(** The words at [a]. *)
Definition words (m : mem) (a : Z) (ws : list Z) : Prop :=
  forall i w, ws !! i = Some w -> load64 m (a + 8 * Z.of_nat i) = w.

(** The array of pointers at [v] ends with NULL and its pointers are to the
    strings [ls]; all of it lies in [I]. *)
Record strs (I : Z -> Prop) (K : mem) (v : Z) (ls : list (list Z)) : Prop := {
  st_arr : forall x, v <= x < v + 8 * (Z.of_nat (length ls) + 1) -> I x;
  st_nul : load64 K (v + 8 * Z.of_nat (length ls)) = 0;
  st_str : forall i l, ls !! i = Some l ->
    let a := load64 K (v + 8 * Z.of_nat i) in
    a <> 0 /\ cstr K a l /\ forall x, a <= x <= a + Z.of_nat (length l) -> I x;
}.

Lemma strs_ext I K K' v ls : (forall x, I x -> K' x = K x) -> strs I K v ls -> strs I K' v ls.
Proof.
  intros He [Ha Hn Hs].
  assert (forall i, (i <= length ls)%nat -> load64 K' (v + 8 * Z.of_nat i) = load64 K (v + 8 * Z.of_nat i)) as Hl.
  { intros i Hi. apply load64_ext. intros x Hx. apply He, Ha. lia. }
  constructor; [done|by rewrite Hl|]. intros i l Hi. cbn zeta. pose proof (lookup_lt_Some _ _ _ Hi).
  rewrite Hl by lia. destruct (Hs i l Hi) as (H0 & Hc & HI). split_and!; [done| |done].
  apply (cstr_ext K); [done|]. intros x Hx. symmetry. apply He, HI. lia.
Qed.

Lemma strs_cons I K v l ls : strs I K v (l :: ls) -> strs I K (v + 8) ls.
Proof.
  intros [Ha Hn Hs]. cbn [length] in *. constructor.
  - intros x Hx. apply Ha. lia.
  - rewrite <- Hn. f_equal. lia.
  - intros i l' Hi. specialize (Hs (S i) l' Hi). cbn zeta in *.
    replace (v + 8 + 8 * Z.of_nat i) with (v + 8 * Z.of_nat (S i)) by lia. done.
Qed.

Lemma words_ext m m' a ws :
  (forall x, a <= x < a + 8 * Z.of_nat (length ws) -> m' x = m x) -> words m a ws -> words m' a ws.
Proof.
  intros He Hw i w Hi. rewrite <- (Hw i w Hi). apply load64_ext. intros x Hx.
  apply He. apply lookup_lt_Some in Hi. lia.
Qed.

Lemma words_cons m a w ws : load64 m a = w -> words m (a + 8) ws -> words m a (w :: ws).
Proof.
  intros H0 Hw [|i] w' Hi; cbn in Hi.
  - simplify_eq. by rewrite Z.mul_0_r, Z.add_0_r.
  - rewrite <- (Hw i w' Hi). f_equal. lia.
Qed.

Lemma words_app m a ws1 ws2 :
  words m a ws1 -> words m (a + 8 * Z.of_nat (length ws1)) ws2 -> words m a (ws1 ++ ws2).
Proof.
  intros H1 H2 i w Hi. apply lookup_app_Some in Hi as [Hi|[Hl Hi]]; [by apply H1|].
  rewrite <- (H2 _ _ Hi). f_equal. lia.
Qed.

(** ** Where the strings go *)

(** [q] is the address in [U] of the string [l], between [b] and [sp]. *)
Definition placed (U : mem) (b sp q : Z) (l : list Z) : Prop :=
  cstr U q l /\ q mod 16 = 0 /\ b <= q /\ q + Z.of_nat (length l) < sp.

Lemma placed_mono U U' b b' sp sp' qs ls :
  b' <= b -> sp <= sp' -> (forall va, b <= va < sp -> U' va = U va) ->
  Forall2 (placed U b sp) qs ls -> Forall2 (placed U' b' sp') qs ls.
Proof.
  intros Hb Hsp HU HF. eapply Forall2_impl; [exact HF|]. intros q l (Hc & Ha & Hq & Hl). split_and!; [|done|lia..].
  apply (cstr_ext U); [done|]. intros x Hx. symmetry. apply HU. lia.
Qed.

Section Slots.
Context (lo : Z).

(** Each string, with its NUL, below the one before and aligned to 16; at
    most [n] of them, none below [lo]. *)
Fixpoint slots (n : nat) (sp : Z) (ls : list (list Z)) {struct ls} : option (list Z * Z) :=
  match ls with
  | [] => Some ([], sp)
  | l :: ls =>
    match n with
    | O => None
    | S n =>
      let q := (sp - (Z.of_nat (length l) + 1)) / 16 * 16 in
      if q <? lo then None
      else match slots n q ls with Some (qs, sp) => Some (q :: qs, sp) | None => None end
    end
  end.

Lemma align16 x : x - x mod 16 = x / 16 * 16.
Proof. pose proof (Z.div_mod x 16). lia. Qed.

Lemma slots_le n sp ls qs sp' : slots n sp ls = Some (qs, sp') -> lo <= sp -> lo <= sp' <= sp /\ length qs = length ls.
Proof.
  revert n sp qs sp'. induction ls as [|l ls IH]; intros n sp qs sp' Hs Hsp; cbn [slots] in Hs.
  - simplify_eq. split; [lia|done].
  - destruct n; [done|]. set (q := (sp - _) / 16 * 16) in *. destruct (Z.ltb_spec q lo); [done|].
    destruct (slots n q ls) as [[qs0 sp0]|] eqn:E; [|done]. simplify_eq. apply IH in E as [Hle He]; [|done].
    cbn [length]. rewrite He. pose proof (Z.mul_div_le (sp - (Z.of_nat (length l) + 1)) 16 ltac:(lia)).
    split; [|done]. unfold q in *. lia.
Qed.

(** Pointers are aligned, and so is the next free place. *)
Lemma slots_aligned n sp ls qs sp' : slots n sp ls = Some (qs, sp') -> sp mod 16 = 0 -> sp' mod 16 = 0.
Proof.
  revert n sp qs sp'. induction ls as [|l ls IH]; intros n sp qs sp' Hs Hsp; cbn [slots] in Hs.
  - by simplify_eq.
  - destruct n; [done|]. set (q := (sp - _) / 16 * 16) in *. destruct (Z.ltb_spec q lo); [done|].
    destruct (slots n q ls) as [[qs0 sp0]|] eqn:E; [|done]. simplify_eq. apply IH in E; [done|].
    unfold q. by apply Z.mod_mul.
Qed.
End Slots.

(** ** push_strings *)

(** [stk] has room for the pointers to [n] strings and the NULL, in memory [O]
    that is not the arguments' [I]. *)
Definition room (O I : Z -> Prop) (stk : Z) (n : nat) : Prop :=
  forall x, stk <= x < stk + 8 * (Z.of_nat n + 1) -> O x /\ ~ I x.

Section Push.
Context (kend : Z).
Hypothesis kend_pos : 0 < kend.
Context (root : Z) (T : tables) (lo hi : Z) (pgs : Z -> Z).
Abbreviation view := (view kend root T lo hi pgs).
Abbreviation outside := (outside T lo hi pgs).
(** The memory of the arguments. *)
Context (I : Z -> Prop) (lim : nat).
Hypothesis I_out : forall x, I x -> outside x.

Abbreviation room := (room outside I).

(** What pushing the strings [ls] leaves: the pointers [qs]. *)
Record pushed (K U : mem) (stk sp : Z) (ls : list (list Z)) (qs : list Z) (sp' : Z) (m K' U' : mem) : Prop := {
  pu_view : view m K' U';
  pu_kern : forall x, ~ (stk <= x < stk + 8 * (Z.of_nat (length ls) + 1)) -> K' x = K x;
  pu_user : forall va, sp <= va -> U' va = U va;
  pu_placed : Forall2 (placed U' sp' sp) qs ls;
  pu_words : words K' stk (qs ++ [0]);
}.

Lemma word_stored K a v : 0 <= v < 2 ^ 64 -> load64 (store64 K a v) a = v.
Proof. intros Hv. rewrite load64_store64_same. by apply Z.mod_small. Qed.

(** The first string, stored in [U1], then the others from the slot [q]. *)
Lemma pushed_cons K U U1 stk sp l ls q qs sp' m K' U' :
  0 <= q < 2 ^ 64 -> sp' <= q -> q mod 16 = 0 -> q + Z.of_nat (length l) < sp -> cstr U1 q l ->
  (forall va, sp <= va -> U1 va = U va) ->
  pushed (store64 K stk q) U1 (stk + 8) q ls qs sp' m K' U' ->
  pushed K U stk sp (l :: ls) (q :: qs) sp' m K' U'.
Proof.
  intros Hq Hsp Ha Hl Hc HU [Hv Hk Hu Hp Hw]. constructor; [done|..].
  - cbn [length]. intros x Hx. rewrite Hk by lia. apply store64_out. lia.
  - intros va Hva. rewrite Hu by lia. by apply HU.
  - constructor.
    + split_and!; try done. apply (cstr_ext U1); [done|]. intros x Hx. symmetry. apply Hu. lia.
    + eapply placed_mono; [..|exact Hp]; [lia|lia|done].
  - apply words_cons; [|done]. rewrite <- (word_stored K stk q Hq). apply load64_ext. intros x Hx. apply Hk. lia.
Qed.

Definition short (l : list Z) : Prop := Z.of_nat (length l) < PGSIZE /\ (length l < lim)%nat.

(** The pointer at the head of the array, as the kernel reads it. *)
Lemma strs_head m K U v ls : view m K U -> strs I K v ls -> load64 m v = load64 K v.
Proof. intros Hv Hs. apply (view_load64 kend root T lo hi pgs m K U); [done|]. intros x Hx. apply I_out, Hs. lia. Qed.

Lemma strs_nil K v : strs I K v [] -> load64 K v = 0.
Proof. intros Hs. rewrite <- (st_nul _ _ _ _ Hs). f_equal. cbn [length]. lia. Qed.

Lemma strs_first K v l ls :
  strs I K v (l :: ls) ->
  load64 K v <> 0 /\ cstr K (load64 K v) l /\ forall x, load64 K v <= x <= load64 K v + Z.of_nat (length l) -> I x.
Proof. intros Hs. pose proof (st_str _ _ _ _ Hs 0 l eq_refl) as H. cbn zeta in H. by rewrite Z.mul_0_r, Z.add_0_r in H. Qed.

Lemma wp_push_nil n v max stk c sp K U s :
  view (mmem (km s)) K U -> strs I K (v + 8 * c) [] -> room (stk + 8 * c) 0 ->
  wp (push_strings lim (S n) root v max stk lo c sp) (fun r s' =>
    r = Some (c + 0, sp) /\ exists K' U', pushed K U (stk + 8 * c) sp [] [] sp (mmem (km s')) K' U') s.
Proof.
  intros Hv Hst Hroom. cbn [push_strings]. apply wp_bind, wp_gets.
  rewrite (strs_head _ _ _ _ _ Hv Hst), (strs_nil _ _ Hst). cbn [Z.eqb].
  apply wp_bind, wp_zoom, wp_modify, wp_ret. split; [by rewrite Z.add_0_r|].
  exists (store64 K (stk + 8 * c) 0), U. constructor.
  - apply view_store; [done|]. intros x Hx. apply Hroom. lia.
  - intros x Hx. apply store64_out. cbn [length] in Hx. lia.
  - done.
  - constructor.
  - apply words_cons; [by apply word_stored|]. by intros i w Hi; rewrite lookup_nil in Hi.
Qed.

(** Where a short string goes. *)
Lemma slot_bounds sp l :
  short l -> PGSIZE <= lo <= sp -> sp < 2 ^ 64 ->
  let q := (sp - (Z.of_nat (length l) + 1)) / 16 * 16 in
  (let x := u64 (sp - (Z.of_nat (length l) + 1)) in x - x mod 16) = q /\ 0 <= q /\ q + Z.of_nat (length l) < sp /\ q mod 16 = 0.
Proof.
  intros [Hpg _] Hlo Hsp q. unfold PGSIZE in *.
  pose proof (Z.mul_div_le (sp - (Z.of_nat (length l) + 1)) 16 ltac:(lia)).
  pose proof (Z.div_pos (sp - (Z.of_nat (length l) + 1)) 16). cbn zeta.
  rewrite wrap_small, align16 by lia. fold q. split_and!; [done|unfold q; lia..|].
  by apply Z.mod_mul.
Qed.

Lemma splice_cstr U q K a l : cstr K a l -> cstr (splice U q K a (Z.of_nat (length l) + 1)) q l.
Proof.
  intros Hc. assert (forall i, 0 <= i <= Z.of_nat (length l) -> splice U q K a (Z.of_nat (length l) + 1) (q + i) = K (a + i)) as Hs.
  { intros i Hi. rewrite splice_in by lia. f_equal. lia. }
  revert Hs. generalize (splice U q K a (Z.of_nat (length l) + 1)). clear U. revert q a Hc.
  induction l as [|c l IH]; intros q a Hc U Hs; cbn [cstr length] in *.
  - rewrite <- Hc. specialize (Hs 0 ltac:(lia)). by rewrite !Z.add_0_r in Hs.
  - destruct Hc as (Hm & H0 & Hc). split_and!; [|done|].
    + rewrite <- Hm. specialize (Hs 0 ltac:(lia)). by rewrite !Z.add_0_r in Hs.
    + apply (IH (q + 1) (a + 1)); [done|]. intros i Hi. specialize (Hs (i + 1) ltac:(lia)).
      by replace (q + 1 + i) with (q + (i + 1)) by lia; replace (a + 1 + i) with (a + (i + 1)) by lia.
Qed.

(** One turn of the loop, with the first string stored. *)
Lemma wp_push_cons n v max stk c sp l ls K U (Q : option (Z * Z) -> kstate -> Prop) s :
  view (mmem (km s)) K U -> strs I K (v + 8 * c) (l :: ls) -> room (stk + 8 * c) (length (l :: ls)) ->
  lo <= sp <= hi -> short l -> c < max ->
  let q := (sp - (Z.of_nat (length l) + 1)) / 16 * 16 in
  (q < lo -> Q None s) ->
  (lo <= q -> forall s' U1, view (mmem (km s')) (store64 K (stk + 8 * c) q) U1 -> strs I (store64 K (stk + 8 * c) q) (v + 8 * c + 8) ls ->
     cstr U1 q l -> (forall va, sp <= va -> U1 va = U va) ->
     wp (push_strings lim n root v max stk lo (c + 1) q) Q s') ->
  wp (push_strings lim (S n) root v max stk lo c sp) Q s.
Proof.
  intros Hv Hst Hroom Hsp Hsh Hmax q HN HS. cbn [push_strings]. apply wp_bind, wp_gets.
  rewrite (strs_head _ _ _ _ _ Hv Hst). destruct (strs_first _ _ _ _ Hst) as (H0 & Hc & HI).
  set (a := load64 K (v + 8 * c)) in *. destruct (Z.eqb_spec a 0); [done|]. destruct (Z.leb_spec max c); [lia|].
  pose proof (w_range _ _ _ _ _ _ _ (v_win _ _ _ _ _ _ _ _ _ Hv)) as [Hr Hr2].
  destruct (slot_bounds sp l Hsh ltac:(lia) ltac:(lia)) as (Hq & Hq0 & Hql & Ha).
  rewrite (strlen_cstr lim _ a l); [|by eapply view_cstr; [done|intros x Hx; by apply I_out, HI|]|apply Hsh].
  cbn zeta in Hq |- *. rewrite Hq. fold q in Hq0, Hql, Ha |- *. destruct (Z.ltb_spec q lo); [by apply wp_ret, HN|].
  apply wp_bind, wp_zoom. eapply wp_mono.
  { apply (view_copyout kend kend_pos root T lo hi pgs K U); [done|lia..|]. intros i Hi. apply I_out, HI. lia. }
  cbn beta. intros r s1 [-> Hv1]. cbn [Z.ltb Z.compare]. apply wp_bind, wp_zoom, wp_modify.
  eapply HS; [done|apply view_store; [exact Hv1|]|..].
  - intros x Hx. apply Hroom. cbn [length]. lia.
  - apply (strs_ext I K); [|by eapply strs_cons].
    intros x Hx. apply store64_out. destruct (decide (stk + 8 * c <= x < stk + 8 * c + 8)) as [Hin|]; [|lia].
    by destruct (Hroom x) as [_ []]; [cbn [length]; lia|].
  - by apply splice_cstr.
  - intros va Hva. apply splice_out. lia.
Qed.

Lemma wp_push_strings n v stk c sp ls K U s :
  view (mmem (km s)) K U -> strs I K (v + 8 * c) ls -> room (stk + 8 * c) (length ls) -> lo <= sp <= hi ->
  Forall short ls ->
  wp (push_strings lim (S n) root v (c + Z.of_nat n) stk lo c sp) (fun r s' =>
    match slots lo n sp ls with
    | None => r = None
    | Some (qs, sp') => r = Some (c + Z.of_nat (length ls), sp') /\
        exists K' U', pushed K U (stk + 8 * c) sp ls qs sp' (mmem (km s')) K' U'
    end) s.
Proof.
  revert c sp ls K U s. induction n as [|n IH]; intros c sp ls K U s Hv Hst Hroom Hsp Hsh;
    (destruct ls as [|l ls]; [by apply wp_push_nil|]); cbn [slots].
  { cbn [push_strings]. apply wp_bind, wp_gets. rewrite (strs_head _ _ _ _ _ Hv Hst).
    destruct (strs_first _ _ _ _ Hst) as (H0 & _). destruct (Z.eqb_spec (load64 K (v + 8 * c)) 0); [done|].
    destruct (Z.leb_spec (c + Z.of_nat 0) c); [|lia]. by apply wp_ret. }
  apply Forall_cons in Hsh as [Hl Hsh].
  pose proof (w_range _ _ _ _ _ _ _ (v_win _ _ _ _ _ _ _ _ _ Hv)) as [Hr Hr2].
  destruct (slot_bounds sp l Hl ltac:(lia) ltac:(lia)) as (Hq & Hq0 & Hql & Ha).
  set (q := (sp - _) / 16 * 16) in *. eapply wp_push_cons; [done..|lia| |]; fold q.
  { intros Hlt. by destruct (Z.ltb_spec q lo); [|lia]. }
  intros Hge s1 U1 Hv1 Hst1 Hc1 HU1. destruct (Z.ltb_spec q lo); [lia|].
  replace (c + Z.of_nat (S n)) with (c + 1 + Z.of_nat n) by lia.
  replace (v + 8 * c + 8) with (v + 8 * (c + 1)) in Hst1 by lia.
  eapply wp_mono; [apply (IH (c + 1) q ls _ U1 s1 Hv1 Hst1); [|lia|done]|].
  { intros x Hx. apply Hroom. cbn [length]. lia. }
  cbn beta. intros r s2. destruct (slots lo n q ls) as [[qs sp']|] eqn:Es; [|done]. intros [-> (K' & U' & Hp)].
  apply slots_le in Es as [Hle _]; [|done]. split; [cbn [length]; f_equal; f_equal; lia|]. exists K', U'.
  replace (stk + 8 * (c + 1)) with (stk + 8 * c + 8) in Hp by lia. eapply pushed_cons; [lia|lia|done..].
Qed.
End Push.

(** ** The rest of the stack *)

(** The words of the auxiliary vector. *)
Definition aux_words (l : list (Z * Z)) : list Z := flat_map (fun x => [u64 x.1; u64 x.2]) l.

Lemma add_auxv_out m a l x : x < a \/ a + 16 * Z.of_nat (length l) <= x -> add_auxv m a l x = m x.
Proof.
  revert m a. induction l as [|[t v] l IH]; intros m a Hx; [done|]. cbn [add_auxv length] in *.
  rewrite IH by lia. by rewrite !store64_out by lia.
Qed.

Lemma add_auxv_words m a l : words (add_auxv m a l) a (aux_words l).
Proof.
  revert m a. induction l as [|[t v] l IH]; intros m a; [by intros [] w Hi|].
  cbn [add_auxv aux_words flat_map fst snd app].
  assert (forall b, a <= b -> b + 8 <= a + 16 ->
    load64 (add_auxv (store64 (store64 m a t) (a + 8) v) (a + 16) l) b = load64 (store64 (store64 m a t) (a + 8) v) b) as Hb.
  { intros b H1 H2. apply load64_ext. intros x Hx. apply add_auxv_out. lia. }
  apply words_cons; [|apply words_cons].
  - rewrite Hb, load64_store64_other by lia. apply load64_store64_same.
  - rewrite Hb by lia. apply load64_store64_same.
  - replace (a + 8 + 8) with (a + 16) by lia. apply IH.
Qed.

Lemma splice_words U dst K src len ws :
  8 * Z.of_nat (length ws) <= len -> words K src ws -> words (splice U dst K src len) dst ws.
Proof.
  intros Hlen Hw i w Hi. rewrite <- (Hw i w Hi). apply lookup_lt_Some in Hi. apply load64_shift.
  intros j Hj. rewrite splice_in by lia. f_equal. lia.
Qed.

(** The plan of the stack: the pointers to the environment and the arguments,
    the end of the strings and sp. *)
Definition stack_plan (lo top : Z) (args envs : list (list Z)) : option (list Z * list Z * Z * Z) :=
  match slots lo (Z.to_nat MAXENV) (top - 16) envs with
  | None => None
  | Some (qe, sp) =>
    match slots lo (Z.to_nat MAXARG) sp args with
    | None => None
    | Some (qa, b) =>
      let sp := b - 16 - MAX_AT * 2 * 8 - 8 * (Z.of_nat (length envs) + 1) - 8 * (Z.of_nat (length args) + 1) in
      if sp <? lo then None else Some (qe, qa, b, sp)
    end
  end.

(** The memory execve works with: the arguments in [I], and its own arrays,
    apart from each other and from the arguments, all of it in [O]. *)
Record frame (O I : Z -> Prop) (ustack estack aux : Z) (nargs nenvs : nat) : Prop := {
  fr_in : forall x, I x -> O x;
  fr_env : room O I estack nenvs;
  fr_arg : room O I ustack nargs;
  fr_aux : forall x, aux <= x < aux + MAX_AT * 2 * 8 -> O x;
  fr_sep : forall x, estack <= x < estack + 8 * (Z.of_nat nenvs + 1) ->
    ~ (ustack <= x < ustack + 8 * (Z.of_nat nargs + 1)) /\ ~ (aux <= x < aux + MAX_AT * 2 * 8);
  fr_sep_arg : forall x, ustack <= x < ustack + 8 * (Z.of_nat nargs + 1) -> ~ (aux <= x < aux + MAX_AT * 2 * 8);
}.

Lemma frame_mono (O O' I : Z -> Prop) ustack estack aux na ne :
  (forall x, O x -> O' x) -> frame O I ustack estack aux na ne -> frame O' I ustack estack aux na ne.
Proof. intros HO []. constructor; unfold room in *; naive_solver. Qed.

Section Fill.
Context (kend : Z).
Hypothesis kend_pos : 0 < kend.
Context (root : Z) (T : tables) (lo hi : Z) (pgs : Z -> Z).
Abbreviation view := (view kend root T lo hi pgs).
Abbreviation outside := (outside T lo hi pgs).

Lemma view_auxv m K U a l :
  view m K U -> (forall x, a <= x < a + 16 * Z.of_nat (length l) -> outside x) -> view (add_auxv m a l) (add_auxv K a l) U.
Proof.
  revert m K a. induction l as [|[t v] l IH]; intros m K a Hv Hout; [done|]. cbn [add_auxv length] in *.
  apply IH; [|intros; apply Hout; lia].
  apply view_store; [apply view_store; [done|]|]; intros; apply Hout; lia.
Qed.

Lemma wp_push_bytes sp src n K U s :
  view (mmem (km s)) K U -> 0 <= n -> lo <= sp - n -> sp <= hi -> (forall x, src <= x < src + n -> outside x) ->
  wp (push_bytes root sp src n) (fun r s' => r = Some (sp - n) /\ view (mmem (km s')) K (splice U (sp - n) K src n)) s.
Proof.
  intros Hv Hn Hlo Hhi Hout. pose proof (w_range _ _ _ _ _ _ _ (v_win _ _ _ _ _ _ _ _ _ Hv)) as [Hr Hr2].
  unfold push_bytes, PGSIZE in *. rewrite wrap_small by lia. apply wp_bind, wp_zoom. eapply wp_mono.
  { apply (view_copyout kend kend_pos root T lo hi pgs K U); [done|lia..|]. intros i Hi. apply Hout. lia. }
  cbn beta. intros r s1 [-> Hv1]. by apply wp_ret.
Qed.

Lemma wp_push_checked sp src n K U s :
  view (mmem (km s)) K U -> 0 <= n <= PGSIZE -> lo <= sp <= hi -> (forall x, src <= x < src + n -> outside x) ->
  wp (push_checked root lo sp src n) (fun r s' =>
    if sp - n <? lo then r = None else r = Some (sp - n) /\ view (mmem (km s')) K (splice U (sp - n) K src n)) s.
Proof.
  intros Hv Hn Hsp Hout. pose proof (w_range _ _ _ _ _ _ _ (v_win _ _ _ _ _ _ _ _ _ Hv)) as [Hr Hr2].
  unfold push_checked. rewrite wrap_small by lia. destruct (Z.ltb_spec (sp - n) lo); [by apply wp_ret|].
  apply wp_push_bytes; (done || lia).
Qed.

(** The auxiliary vector: below the guard it is refused. *)
Lemma wp_push_aux sp src n K U s :
  view (mmem (km s)) K U -> 0 < n -> lo - PGSIZE <= sp - n -> sp <= hi -> (forall x, src <= x < src + n -> outside x) ->
  wp (push_bytes root sp src n) (fun r s' =>
    if sp - n <? lo then r = None else r = Some (sp - n) /\ view (mmem (km s')) K (splice U (sp - n) K src n)) s.
Proof.
  intros Hv Hn Hlo Hhi Hout. pose proof (w_range _ _ _ _ _ _ _ (v_win _ _ _ _ _ _ _ _ _ Hv)) as [Hr Hr2].
  destruct (Z.ltb_spec (sp - n) lo); [|apply wp_push_bytes; (done || lia)].
  unfold push_bytes. rewrite wrap_small by lia. apply wp_bind, wp_zoom. eapply wp_mono.
  { apply (guard_copyout kend kend_pos root T lo hi pgs K U); [done|lia..|]. intros i Hi. apply Hout. lia. }
  cbn beta. intros r s1 ->. by apply wp_ret.
Qed.

(** What the program finds at [sp]: the pointers to its arguments, NULL, the
    pointers to its environment, NULL, the auxiliary vector; the pointers are to
    copies of the strings, between [b] and [top]. *)
Record laid_out (U : mem) (sp b : Z) (qa qe : list Z) (args envs : list (list Z)) (av : list (Z * Z)) : Prop := {
  lo_words : words U sp (qa ++ [0] ++ qe ++ [0] ++ aux_words av);
  lo_args : Forall2 (placed U b hi) qa args;
  lo_envs : Forall2 (placed U b hi) qe envs;
}.

(** The three last pushes, once the strings are in place. *)
Lemma laid_out_push U K estack ustack aux qa qe args envs av b :
  words K estack (qe ++ [0]) -> words K ustack (qa ++ [0]) -> words K aux (aux_words av) ->
  16 * Z.of_nat (length av) <= MAX_AT * 2 * 8 -> length qa = length args -> length qe = length envs ->
  Forall2 (placed U b hi) qa args -> Forall2 (placed U b hi) qe envs ->
  let n1 := MAX_AT * 2 * 8 in let n2 := (Z.of_nat (length envs) + 1) * 8 in let n3 := (Z.of_nat (length args) + 1) * 8 in
  laid_out (splice (splice (splice U (b - 16 - n1) K aux n1) (b - 16 - n1 - n2) K estack n2) (b - 16 - n1 - n2 - n3) K ustack n3)
    (b - 16 - n1 - n2 - n3) b qa qe args envs av.
Proof.
  intros We Wu Wa Hav Hqa Hqe Pa Pe n1 n2 n3. set (U1 := splice U _ K aux n1). set (U2 := splice U1 _ K estack n2).
  assert (length (aux_words av) = 2 * length av)%nat as Hal.
  { clear. induction av as [|x av IH]; [done|]. cbn [aux_words flat_map app length] in *. fold (aux_words av). lia. }
  constructor.
  - rewrite (app_assoc qa). apply words_app; [|rewrite (app_assoc qe); apply words_app].
    + apply splice_words; [rewrite length_app, Hqa; cbn [length]; unfold n3; lia|done].
    + rewrite length_app, Hqa. cbn [length]. replace (b - 16 - n1 - n2 - n3 + 8 * Z.of_nat (length args + 1)) with (b - 16 - n1 - n2) by (unfold n3; lia).
      apply (words_ext U2); [|apply splice_words; [|exact We]]; rewrite length_app, Hqe; cbn [length]; [|unfold n2; lia].
      intros x Hx. apply splice_out. lia.
    + rewrite !length_app, Hqa, Hqe. cbn [length].
      replace (b - 16 - n1 - n2 - n3 + 8 * Z.of_nat (length args + 1) + 8 * Z.of_nat (length envs + 1)) with (b - 16 - n1) by (unfold n2, n3; lia).
      apply (words_ext U1); [|apply splice_words; [|exact Wa]]; [|unfold n1; lia].
      intros x Hx. unfold U2. rewrite !splice_out; unfold n2; lia || done.
  - eapply placed_mono; [reflexivity..| |exact Pa]. intros va Hva. unfold U2, U1. rewrite !splice_out; unfold n1, n2, n3, MAX_AT; lia || done.
  - eapply placed_mono; [reflexivity..| |exact Pe]. intros va Hva. unfold U2, U1. rewrite !splice_out; unfold n1, n2, n3, MAX_AT; lia || done.
Qed.

Context (lim : nat) (I : Z -> Prop) (ustack estack aux : Z).

(** The strings of the environment, then those of the arguments. *)
Lemma wp_fill_strings K U s envp argv args envs (Q : option ustk -> kstate -> Prop) k :
  view (mmem (km s)) K U -> lo + 16 <= hi -> frame outside I ustack estack aux (length args) (length envs) ->
  strs I K envp envs -> strs I K argv args -> Forall (short lim) envs -> Forall (short lim) args ->
  (forall s', match slots lo (Z.to_nat MAXENV) (hi - 16) envs with
              | None => True
              | Some (_, sp) => slots lo (Z.to_nat MAXARG) sp args = None
              end -> Q None s') ->
  (forall qe sp qa b s' K' U',
     slots lo (Z.to_nat MAXENV) (hi - 16) envs = Some (qe, sp) -> slots lo (Z.to_nat MAXARG) sp args = Some (qa, b) ->
     view (mmem (km s')) K' U' -> words K' estack (qe ++ [0]) -> words K' ustack (qa ++ [0]) ->
     Forall2 (placed U' b hi) qa args -> Forall2 (placed U' b hi) qe envs ->
     wp (k (Z.of_nat (length envs)) (Z.of_nat (length args)) b) Q s') ->
  wp (e ← push_strings lim (S (Z.to_nat MAXENV)) root envp MAXENV estack lo 0 (hi - 16);
      match e with
      | None => mret None
      | Some (envc, sp) =>
        a ← push_strings lim (S (Z.to_nat MAXARG)) root argv MAXARG ustack lo 0 sp;
        match a with None => mret None | Some (argc, sp) => k envc argc sp end
      end) Q s.
Proof.
  intros Hv Hlo [HI Hre Hra Hau Hs1 Hs2] Se Sa Le La HN HS.
  pose proof (wp_push_strings kend kend_pos root T lo hi pgs I lim HI) as Hpush.
  eapply wp_call.
  { apply (Hpush (Z.to_nat MAXENV) envp estack 0 (hi - 16) envs K U); rewrite ?Z.mul_0_r, ?Z.add_0_r; (done || lia). }
  cbn beta. intros e s1. destruct (slots lo (Z.to_nat MAXENV) (hi - 16) envs) as [[qe sp]|] eqn:E1.
  2: { intros ->. by apply wp_ret, HN. }
  rewrite Z.mul_0_r, Z.add_0_r. intros [-> (K1 & U1 & P1)]. cbn match.
  pose proof (slots_le _ _ _ _ _ _ E1 ltac:(lia)) as [Hsp _]. eapply wp_call.
  { apply (Hpush (Z.to_nat MAXARG) argv ustack 0 sp args K1 U1); rewrite ?Z.mul_0_r, ?Z.add_0_r; [apply P1| |done|lia|done].
    eapply strs_ext; [|exact Sa]. intros x Hx. apply (pu_kern _ _ _ _ _ _ _ _ _ _ _ _ _ _ _ _ P1). intros Hin. by apply (Hre x Hin). }
  cbn beta. intros a s2. destruct (slots lo (Z.to_nat MAXARG) sp args) as [[qa b]|] eqn:E2.
  2: { intros ->. by apply wp_ret, HN. }
  rewrite Z.mul_0_r, Z.add_0_r. intros [-> (K2 & U2 & P2)]. cbn match.
  pose proof (slots_le _ _ _ _ _ _ E2 ltac:(lia)) as [Hb _]. destruct P1 as [V1 K1' U1' A1 W1], P2 as [V2 K2' U2' A2 W2].
  pose proof (Forall2_length _ _ _ A1) as L1.
  eapply HS; [done|done|done| |done| |].
  - eapply words_ext; [|exact W1]. rewrite length_app, L1. cbn [length]. intros x Hx. apply K2'. apply (Hs1 x). lia.
  - eapply placed_mono; [..|exact A2]; (done || lia).
  - eapply placed_mono; [..|exact A1]; [lia..|]. intros va Hva. apply U2'. lia.
Qed.

(** From the auxiliary vector on, with the strings ending at [b]. *)
Definition fill_rest (av : Z -> list (Z * Z)) (envc argc sp : Z) : E kstate (option ustk) :=
  let sp := u64 (sp - 16) in
  on_mach (upd_mem (fun m => add_auxv m aux (av sp)));;
  p1 ← push_bytes root sp aux (MAX_AT * 2 * 8);
  match p1 with
  | None => mret None
  | Some sp =>
    p2 ← push_checked root lo sp estack ((envc + 1) * 8);
    match p2 with
    | None => mret None
    | Some sp =>
      p3 ← push_checked root lo sp ustack ((argc + 1) * 8);
      match p3 with
      | None => mret None
      | Some sp => mret (Some (Ustk sp envc argc))
      end
    end
  end.

Lemma wp_fill_rest K U s av b qa qe args envs :
  view (mmem (km s)) K U -> frame outside I ustack estack aux (length args) (length envs) ->
  lo <= b <= hi - 16 -> Z.of_nat (length args) < MAXARG -> Z.of_nat (length envs) < MAXARG -> length (av (b - 16)) = 13%nat ->
  words K estack (qe ++ [0]) -> words K ustack (qa ++ [0]) ->
  Forall2 (placed U b hi) qa args -> Forall2 (placed U b hi) qe envs ->
  wp (fill_rest av (Z.of_nat (length envs)) (Z.of_nat (length args)) b) (fun r s' =>
    let sp := b - 16 - MAX_AT * 2 * 8 - 8 * (Z.of_nat (length envs) + 1) - 8 * (Z.of_nat (length args) + 1) in
    if sp <? lo then r = None
    else r = Some (Ustk sp (Z.of_nat (length envs)) (Z.of_nat (length args))) /\
         exists K' U', view (mmem (km s')) K' U' /\ laid_out U' sp b qa qe args envs (av (b - 16))) s.
Proof.
  intros Hv [HI Hre Hra Hau Hs1 Hs2] Hb Na Ne Lav We Wu Pa Pe.
  pose proof (w_range _ _ _ _ _ _ _ (v_win _ _ _ _ _ _ _ _ _ Hv)) as [Hr Hr2].
  pose proof (Forall2_length _ _ _ Pa) as La. pose proof (Forall2_length _ _ _ Pe) as Le.
  unfold fill_rest. unfold PGSIZE, MAXARG in *. rewrite wrap_small by lia.
  apply wp_bind, wp_zoom, wp_modify. set (K1 := add_auxv K aux (av (b - 16))).
  assert (forall x, ~ (aux <= x < aux + MAX_AT * 2 * 8) -> K1 x = K x) as HK1.
  { intros x Hx. apply add_auxv_out. rewrite Lav. unfold MAX_AT in Hx. lia. }
  set (n1 := MAX_AT * 2 * 8) in *. set (n2 := (Z.of_nat (length envs) + 1) * 8). set (n3 := (Z.of_nat (length args) + 1) * 8).
  replace (b - 16 - n1 - 8 * (Z.of_nat (length envs) + 1) - 8 * (Z.of_nat (length args) + 1)) with (b - 16 - n1 - n2 - n3) by lia.
  assert (0 < n2 /\ 0 < n3 /\ n1 = 528) as (Hn2 & Hn3 & Hn1) by (unfold n1, n2, n3, MAX_AT; lia). cbn zeta.
  eapply wp_call; [apply (wp_push_aux (b - 16) aux n1 K1 U); [|unfold PGSIZE; lia..|done]|].
  { apply view_auxv; [done|]. rewrite Lav. intros x Hx. apply Hau. lia. }
  cbn beta. intros r s1. destruct (Z.ltb_spec (b - 16 - n1) lo).
  { intros ->. apply wp_ret. destruct (Z.ltb_spec (b - 16 - n1 - n2 - n3) lo); [done|lia]. }
  intros [-> V1]. cbn match.
  eapply wp_call; [apply (wp_push_checked _ estack n2 _ _ _ V1); [unfold PGSIZE; lia|lia|]|].
  { intros x Hx. apply Hre. lia. }
  cbn beta. intros r s2. destruct (Z.ltb_spec (b - 16 - n1 - n2) lo).
  { intros ->. apply wp_ret. destruct (Z.ltb_spec (b - 16 - n1 - n2 - n3) lo); [done|lia]. }
  intros [-> V2]. cbn match.
  eapply wp_call; [apply (wp_push_checked _ ustack n3 _ _ _ V2); [unfold PGSIZE; lia|lia|]|].
  { intros x Hx. apply Hra. lia. }
  cbn beta. intros r s3. destruct (Z.ltb_spec (b - 16 - n1 - n2 - n3) lo); [by intros ->; apply wp_ret|].
  intros [-> V3]. apply wp_ret. split; [done|]. eexists _, _. split; [exact V3|].
  apply laid_out_push; [| |apply add_auxv_words|rewrite Lav; fold n1; lia|done..].
  - eapply words_ext; [|exact We]. rewrite length_app, Le. cbn [length]. intros x Hx. apply HK1. apply (Hs1 x). lia.
  - eapply words_ext; [|exact Wu]. rewrite length_app, La. cbn [length]. intros x Hx. apply HK1. apply (Hs2 x). lia.
Qed.
End Fill.

Lemma wp_fill_stack (kend root lo top : Z) (T : tables) (pgs : Z -> Z) (lim : nat) (I : Z -> Prop)
    (ustack estack aux argv envp progh base : Z) (h : elfhdr) (args envs : list (list Z)) (K U : mem) (s : kstate) :
  0 < kend -> view kend root T lo top pgs (mmem (km s)) K U -> lo + 16 <= top ->
  frame (outside T lo top pgs) I ustack estack aux (length args) (length envs) ->
  strs I K argv args -> strs I K envp envs -> Forall (short lim) args -> Forall (short lim) envs ->
  Z.of_nat (length args) < MAXARG -> Z.of_nat (length envs) <= MAXENV ->
  wp (fill_stack lim ustack estack aux root lo top h progh base argv envp) (fun r s' =>
    match stack_plan lo top args envs with
    | None => r = None
    | Some (qe, qa, b, sp) =>
      r = Some (Ustk sp (Z.of_nat (length envs)) (Z.of_nat (length args))) /\
      lo <= sp /\ b <= top /\ exists K' U', view kend root T lo top pgs (mmem (km s')) K' U' /\
        laid_out top U' sp b qa qe args envs (aux_vector h progh base (b - 16))
    end) s.
Proof.
  intros Hk Hv Hlo Hf Sa Se La Le Na Ne.
  pose proof (w_range _ _ _ _ _ _ _ (v_win _ _ _ _ _ _ _ _ _ Hv)) as [Hr Hr2].
  unfold fill_stack, stack_plan. rewrite wrap_small by (unfold PGSIZE in Hr; lia).
  eapply (wp_fill_strings kend Hk root T lo top pgs lim I ustack estack aux K U s envp argv args envs _
    (fill_rest root lo ustack estack aux (aux_vector h progh base))); [done..| |].
  - intros s' Hn. destruct (slots lo (Z.to_nat MAXENV) (top - 16) envs) as [[qe sp]|]; [|done]. by rewrite Hn.
  - intros qe sp qa b s' K' U' E1 E2 Hv' We Wu Pa Pe. rewrite E1, E2.
    apply slots_le in E1 as [Hsp _]; [|lia]. apply slots_le in E2 as [Hb _]; [|lia].
    eapply wp_mono; [eapply (wp_fill_rest kend Hk root T lo top pgs I); try done; [lia|unfold MAXENV, MAXARG in *; lia]|].
    cbn beta zeta. intros r s2. set (sp' := b - 16 - _ - _ - _). destruct (Z.ltb_spec sp' lo); [done|]. intros [-> Hl]. split_and!; [done|lia..|done].
Qed.
