(* ===== verification/ExecStack.v ===== *)
(** * The user stack of execve, from the allocation of its pages

    uvmalloc and uvmclear make the window [ExecSpec] writes in: 63 pages of the
    stack above a guard page the user cannot reach.  The theorem follows
    build_stack from a process's page table to the contents of the stack. *)
From S2P Require Import Prelude Mem CString KTypes Kalloc Vm VmTree VmMap VmUser VmCopy ListHead KState Queue Thread SchedSpec ProcBase File Fd Exec ExecSpec.
#[local] Opaque memset load64 store64 memmove.

Lemma leaf_pages_lookup m T a n j :
  0 <= j < Z.of_nat n -> leaf_pages m T a n !! Z.to_nat j = Some (PTE2PA (leaf m T (a + j * PGSIZE))).
Proof.
  revert a j. induction n as [|n IH]; intros a j Hj; [lia|]. cbn [leaf_pages].
  destruct (decide (j = 0)) as [->|]; [by rewrite Z.add_0_r|].
  replace (Z.to_nat j) with (S (Z.to_nat (j - 1))) by lia. cbn [lookup list_lookup]. rewrite IH by lia.
  do 3 f_equal. lia.
Qed.

Lemma PGROUNDUP_aligned a : page_aligned a -> 0 <= a <= 2 ^ 64 - PGSIZE -> PGROUNDUP a = a.
Proof.
  intros Ha Hr. rewrite PGROUNDUP_eq by done. unfold page_aligned, PGSIZE in *. pose proof (Z.div_mod a 4096).
  rewrite <- (Z.div_unique (a + 4096 - 1) 4096 (a / 4096) 4095); lia.
Qed.

Lemma page_aligned_add a n : page_aligned a -> page_aligned (a + n * PGSIZE).
Proof. unfold page_aligned. intros Ha. by rewrite Z.mod_add. Qed.

Lemma page_aligned_16 a : page_aligned a -> a mod 16 = 0.
Proof.
  unfold page_aligned, PGSIZE. intros Ha. pose proof (Z.div_mod a 4096). symmetry.
  apply (Z.mod_unique _ _ (a / 4096 * 256)); lia.
Qed.

Section Clear.
Context (kend : Z).
Hypothesis kend_pos : 0 < kend.

(** The page behind an entry uvmalloc has made. *)
Lemma upage_mapped m T va pa :
  leaf m T va = map_pte pa (ualloc_perm PTE_W) -> valid_page kend pa -> va < MAXVA -> upage m T va = pa.
Proof.
  intros Hl Hv Hva. assert (0 <= PTE_W < 2 ^ 10) as Hx by done.
  destruct (map_pte_make pa (ualloc_perm PTE_W) (proj1 Hv) (valid_page_word kend kend_pos pa Hv)
              (proj1 (ualloc_perm_range PTE_W Hx))) as [Hpa Hfl].
  unfold upage. destruct (Z.leb_spec MAXVA va); [lia|]. rewrite Hl. cbn zeta.
  assert (forall f, Z.land f 0x3FF = f -> Z.land (map_pte pa (ualloc_perm PTE_W)) f
    = Z.land (PTE_FLAGS (map_pte pa (ualloc_perm PTE_W))) f) as Hland.
  { intros f Hf. unfold PTE_FLAGS. by rewrite <- Z.land_assoc, (Z.land_comm 0x3FF f), Hf. }
  rewrite !Hland, Hfl, Hpa by done. done.
Qed.

(** uvmclear takes the page at [va] from the user and leaves the rest. *)
Lemma wp_uvmclear root T va s :
  pt_inv kend (mmem s) root T -> bytes_ok (mmem s) -> 0 <= va < MAXVA -> leaf (mmem s) T va <> 0 ->
  wp (uvmclear root va) (fun _ s' =>
    pt_inv kend (mmem s') root T /\ bytes_ok (mmem s') /\
    (forall va', PGROUNDDOWN va' = PGROUNDDOWN va -> 0 <= va' < MAXVA -> upage (mmem s') T va' = 0) /\
    (forall va', PGROUNDDOWN va' <> PGROUNDDOWN va -> 0 <= va' < MAXVA -> leaf (mmem s') T va' = leaf (mmem s) T va') /\
    (forall x, (forall pa, table_page T pa -> ~ in_page pa x) -> mmem s' x = mmem s x)) s.
Proof.
  intros Hpt Hb Hva Hl. unfold uvmclear. apply wp_bind. eapply wp_walk_false; [done..|].
  assert (is_Some (T !! va_path va)) as HT. { unfold leaf in Hl. by destruct (T !! va_path va). }
  pose proof (proj2 (leaf_addr_nonzero kend kend_pos _ _ _ va Hpt) HT) as Hnz.
  apply wp_bind, wp_panic_if; [by apply Z.eqb_neq|]. apply wp_bind, wp_gets, wp_modify. cbn [mmem set_mmem].
  destruct (pt_write_leaf kend (mmem s) root T va (Z.land (load64 (mmem s) (leaf_addr T va)) (Z.lnot PTE_U)) Hpt Hva HT) as (H1 & H2 & H3).
  split_and!; [done|by apply store64_ok|..].
  - intros va' Hp Hva'. unfold upage. rewrite H2, Hp, Z.eqb_refl by done. cbn zeta.
    assert (Z.land (u64 (Z.land (load64 (mmem s) (leaf_addr T va)) (Z.lnot PTE_U))) PTE_U = 0) as ->.
    { apply Z.bits_inj_0. intros i. rewrite !Z.land_spec. change PTE_U with (2 ^ 4). rewrite Z.pow2_bits_eqb by lia.
      destruct (Z.eqb_spec 4 i) as [<-|]; [|apply andb_false_r]. unfold wrap.
      rewrite Z.mod_pow2_bits_low, Z.land_spec, Z.lnot_spec by lia. change (Z.testbit (2 ^ 4) 4) with true. by rewrite andb_false_r. }
    by repeat case_match.
  - intros va' Hp Hva'. rewrite H2 by done. by destruct (Z.eqb_spec (PGROUNDDOWN va') (PGROUNDDOWN va)).
  - intros x Hx. destruct (decide (mmem s x = store64 (mmem s) (leaf_addr T va) (Z.land (load64 (mmem s) (leaf_addr T va)) (Z.lnot PTE_U)) x)) as [->|Hne]; [done|].
    destruct (H3 x) as (pa & Ht & Hin); [congruence|]. by destruct (Hx pa Ht).
Qed.

(** A kernel address that no allocation reaches: not in page 0, in a table or
    in a free page. *)
Definition kept (T : tables) (l : list Z) (x : Z) : Prop :=
  PGSIZE <= x /\ forall pa, table_page T pa \/ pa ∈ l -> ~ in_page pa x.

Lemma page_index a0 n va :
  page_aligned a0 -> a0 <= va < a0 + Z.of_nat n * PGSIZE ->
  exists j, 0 <= j < Z.of_nat n /\ PGROUNDDOWN va = a0 + j * PGSIZE.
Proof.
  intros Ha Hva. rewrite PGROUNDDOWN_eq. unfold page_aligned, PGSIZE in *.
  exists (va / 4096 - a0 / 4096). pose proof (Z.div_mod a0 4096). pose proof (Z.div_mod va 4096).
  pose proof (Z.mod_pos_bound va 4096). lia.
Qed.

Section Alloc.
Context (root a0 : Z) (n : nat) (s : mach) (T : tables) (l : list Z) (s1 : mach) (T1 : tables) (l1 : list Z).
Hypotheses (Ha0 : page_aligned a0) (H0 : 0 <= a0) (Hmax : a0 + Z.of_nat n * PGSIZE <= MAXVA).
Hypothesis Hal : allocated kend root s T l a0 n PTE_W s1 T1 l1.

(** The page of an allocated address. *)
Lemma alloc_page va :
  a0 <= va < a0 + Z.of_nat n * PGSIZE ->
  exists j, 0 <= j < Z.of_nat n /\ PGROUNDDOWN va = a0 + j * PGSIZE /\
    leaf (mmem s1) T1 va <> 0 /\ valid_page kend (upage (mmem s1) T1 va) /\ upage (mmem s1) T1 va ∈ l /\
    leaf_pages (mmem s1) T1 a0 n !! Z.to_nat j = Some (upage (mmem s1) T1 va).
Proof.
  intros Hva. destruct (page_index a0 n va Ha0 Hva) as (j & Hj & Hp).
  destruct (al_in _ _ _ _ _ _ _ _ _ _ _ _ Hal j Hj) as (pa & Hl & Hv & Hpl & _).
  rewrite <- Hp, leaf_page in Hl. pose proof (upage_mapped _ _ _ _ Hl Hv ltac:(lia)) as Hu.
  exists j. rewrite Hu. split_and!; try (done || lia).
  - rewrite Hl. pose proof (map_pte_valid pa (ualloc_perm PTE_W)) as H. intros Hz. by rewrite Hz in H.
  - rewrite (leaf_pages_lookup _ _ _ _ _ Hj). f_equal. rewrite <- Hp, leaf_page, Hl.
    assert (0 <= PTE_W < 2 ^ 10) as Hx by done.
    apply (map_pte_make pa (ualloc_perm PTE_W) (proj1 Hv) (valid_page_word kend kend_pos pa Hv) (proj1 (ualloc_perm_range PTE_W Hx))).
Qed.

Lemma alloc_page_inj va vb :
  a0 <= va < a0 + Z.of_nat n * PGSIZE -> a0 <= vb < a0 + Z.of_nat n * PGSIZE ->
  upage (mmem s1) T1 va = upage (mmem s1) T1 vb -> PGROUNDDOWN va = PGROUNDDOWN vb.
Proof.
  intros Ha Hb He. destruct (alloc_page va Ha) as (i & Hi & -> & _ & _ & _ & Hli).
  destruct (alloc_page vb Hb) as (j & Hj & -> & _ & _ & _ & Hlj). rewrite He in Hli.
  destruct (al_free _ _ _ _ _ _ _ _ _ _ _ _ Hal) as [Hnd _].
  pose proof (NoDup_lookup _ _ _ _ Hnd Hli Hlj). f_equal. f_equal. lia.
Qed.

Lemma alloc_page_table va : a0 <= va < a0 + Z.of_nat n * PGSIZE -> ~ table_page T1 (upage (mmem s1) T1 va).
Proof.
  intros Hva. destruct (alloc_page va Hva) as (j & _ & _ & _ & _ & _ & Hl).
  destruct (al_free _ _ _ _ _ _ _ _ _ _ _ _ Hal) as [_ Hf]. apply Hf. by eapply list_elem_of_lookup_2.
Qed.

(** The window above the first page once uvmclear has made that page the
    guard. *)
Lemma wp_guarded (Q : unit -> mach -> Prop) :
  (0 < n)%nat ->
  (forall s2, window kend root T1 (a0 + PGSIZE) (a0 + Z.of_nat n * PGSIZE) (upage (mmem s2) T1) (mmem s2) ->
     (forall x, kept T l x -> outside T1 (a0 + PGSIZE) (a0 + Z.of_nat n * PGSIZE) (upage (mmem s2) T1) x) ->
     (forall x, kept T l x -> mmem s2 x = mmem s x) -> Q tt s2) ->
  wp (uvmclear root a0) Q s1.
Proof.
  intros Hn HQ. pose proof (al_ev _ _ _ _ _ _ _ _ _ _ _ _ Hal) as Hev. pose proof (ev_inv _ _ _ _ _ _ _ _ Hev) as Hinv.
  assert (0 < PGSIZE) as Hpg by done. assert (MAXVA < 2 ^ 64) as HM by done.
  assert (PGROUNDDOWN a0 = a0) as Hd. { rewrite PGROUNDDOWN_eq. unfold page_aligned, PGSIZE in *. pose proof (Z.div_mod a0 4096). lia. }
  destruct (alloc_page a0 ltac:(nia)) as (_ & _ & _ & Hl0 & _).
  eapply wp_mono; [apply (wp_uvmclear root T1 a0); [apply Hinv|apply Hinv|nia|done]|].
  cbn beta. intros [] s2 (Hpt & Hb & Hguard & Hrest & Hmem).
  assert (forall va, a0 <= va < a0 + PGSIZE -> PGROUNDDOWN va = a0) as Hfirst.
  { intros va Hva. rewrite PGROUNDDOWN_eq. unfold page_aligned, PGSIZE in *. pose proof (Z.div_mod a0 4096).
    rewrite <- (Z.div_unique va 4096 (a0 / 4096) (va - a0)); lia. }
  assert (forall va, a0 + PGSIZE <= va < a0 + Z.of_nat n * PGSIZE -> upage (mmem s2) T1 va = upage (mmem s1) T1 va) as Hsame.
  { intros va Hva. unfold upage. rewrite Hrest; [done| |lia]. rewrite Hd. destruct (page_index (a0 + PGSIZE) (Nat.pred n) va) as (j & Hj & ->); [|unfold PGSIZE in *; lia..].
    unfold page_aligned in *. by rewrite Z.add_mod, Ha0, Z.mod_same. }
  apply HQ.
  - constructor; try done; [unfold PGSIZE in *; lia|..].
    + intros va Hva. rewrite Hsame by done. destruct (alloc_page va ltac:(lia)) as (_ & _ & _ & _ & Hv & _).
      destruct Hv. lia.
    + intros va Hva. apply Hguard; [rewrite Hd; apply Hfirst; lia|unfold PGSIZE in *; lia].
    + intros va Hva. rewrite Hsame by done. apply alloc_page_table. lia.
    + intros va vb Hva Hvb. rewrite !Hsame by done. apply alloc_page_inj; lia.
  - intros x [Hx Hk]. split_and!; [done|..].
    + intros pa Ht. apply Hk. by apply (ev_new _ _ _ _ _ _ _ _ Hev).
    + intros va Hva. rewrite Hsame by done. destruct (alloc_page va ltac:(lia)) as (_ & _ & _ & _ & _ & Hin & _).
      apply Hk. by right.
  - intros x [Hx Hk]. rewrite Hmem.
    + by apply (ev_touch _ _ _ _ _ _ _ _ Hev).
    + intros pa Ht. apply Hk. by apply (ev_new _ _ _ _ _ _ _ _ Hev).
Qed.
End Alloc.
End Clear.

(** User memory through the tables [T]. *)
Definition umem (m : mem) (T : tables) : mem := fun va => m (uaddr m T va).

Lemma laid_out_ext U U' lo hi sp b qa qe args envs av :
  lo <= sp -> sp + 8 * Z.of_nat (length (qa ++ [0] ++ qe ++ [0] ++ aux_words av)) <= hi ->
  lo <= b -> (forall va, lo <= va < hi -> U' va = U va) ->
  laid_out hi U sp b qa qe args envs av -> laid_out hi U' sp b qa qe args envs av.
Proof.
  intros Hsp Hlen Hb He [Hw Ha Hv]. constructor.
  - eapply words_ext; [|exact Hw]. intros x Hx. apply He. lia.
  - eapply placed_mono; [reflexivity..| |exact Ha]. intros va Hva. apply He. lia.
  - eapply placed_mono; [reflexivity..| |exact Hv]. intros va Hva. apply He. lia.
Qed.

(** The stack pointer main is entered with is aligned to 16 when the number of
    strings is odd. *)
Lemma plan_aligned lo top args envs qe qa b sp :
  stack_plan lo top args envs = Some (qe, qa, b, sp) -> top mod 16 = 0 ->
  (sp - 8) mod 16 = 8 * ((Z.of_nat (length args + length envs) + 1) mod 2).
Proof.
  unfold stack_plan. intros Hp Ht. destruct (slots lo (Z.to_nat MAXENV) (top - 16) envs) as [[qe' sp1]|] eqn:E1; [|done].
  destruct (slots lo (Z.to_nat MAXARG) sp1 args) as [[qa' b']|] eqn:E2; [|done].
  set (x := b' - 16 - _ - _ - _) in Hp. destruct (Z.ltb_spec x lo); [done|]. simplify_eq.
  apply slots_aligned in E1; [|pose proof (Z.div_mod top 16); symmetry; apply (Z.mod_unique _ _ (top / 16 - 1)); lia].
  apply slots_aligned in E2; [|done]. unfold MAX_AT. set (n := Z.of_nat (length args + length envs) + 1).
  assert (n mod 2 = 0 \/ n mod 2 = 1) as Hn by (pose proof (Z.mod_pos_bound n 2); lia).
  pose proof (Z.div_mod n 2). pose proof (Z.div_mod b 16). symmetry.
  apply (Z.mod_unique _ _ (b / 16 - 35 - n / 2 - n mod 2)); lia.
Qed.

Lemma plan_bounds lo top args envs qe qa b sp :
  stack_plan lo top args envs = Some (qe, qa, b, sp) -> lo + 16 <= top ->
  lo <= b /\ b <= top /\ length qe = length envs /\ length qa = length args /\ lo <= sp /\
  sp = b - 16 - MAX_AT * 2 * 8 - 8 * (Z.of_nat (length envs) + 1) - 8 * (Z.of_nat (length args) + 1).
Proof.
  unfold stack_plan. intros Hp Ht. destruct (slots lo (Z.to_nat MAXENV) (top - 16) envs) as [[qe' sp1]|] eqn:E1; [|done].
  destruct (slots lo (Z.to_nat MAXARG) sp1 args) as [[qa' b']|] eqn:E2; [|done].
  set (x := b' - 16 - _ - _ - _) in Hp. destruct (Z.ltb_spec x lo); [done|]. simplify_eq.
  apply slots_le in E1 as [H1 L1]; [|lia]. apply slots_le in E2 as [H2 L2]; [|lia]. split_and!; (done || lia).
Qed.

(** C10: the stack execve builds for the new program.  From a page table with
    nothing mapped above the image, build_stack fails for want of memory, or the
    64 pages above the image are the stack: the lowest is a guard page the user
    cannot access, and at the stack pointer it answers the program finds, in this
    order and without a gap, the pointers to its arguments, NULL, the pointers
    to its environment, NULL, and the auxiliary vector; every pointer is
    aligned to 16 and to a copy of the string the caller gave.  It fails when
    the strings and the arrays do not fit.  The pointer the program starts with,
    8 below, is aligned to 16 exactly when the number of arguments and of
    environment strings is odd. *)
Theorem execve_builds_stack (kend root sz : Z) (T : tables) (l : list Z) (lim : nat) (I : Z -> Prop)
    (ustack estack aux argv envp progh base : Z) (h : elfhdr) (args envs : list (list Z)) (s : kstate) :
  0 < kend -> vm_inv kend (km s) root T l -> 0 <= sz <= MAXVA -> PGROUNDUP sz + 64 * PGSIZE <= MAXVA ->
  (forall va, PGROUNDUP sz <= va < PGROUNDUP sz + 64 * PGSIZE -> leaf (mmem (km s)) T va = 0) ->
  frame (kept T l) I ustack estack aux (length args) (length envs) ->
  strs I (mmem (km s)) argv args -> strs I (mmem (km s)) envp envs -> Forall (short lim) args -> Forall (short lim) envs ->
  Z.of_nat (length args) < MAXARG -> Z.of_nat (length envs) <= MAXENV ->
  let top := PGROUNDUP sz + 64 * PGSIZE in
  let lo := PGROUNDUP sz + PGSIZE in
  wp (build_stack kend lim ustack estack aux root sz h progh base argv envp) (fun r s' =>
    r = (None, PGROUNDUP sz) \/
    match stack_plan lo top args envs with
    | None => r = (None, top)
    | Some (qe, qa, b, sp) =>
      r = (Some (Ustk sp (Z.of_nat (length envs)) (Z.of_nat (length args))), top) /\
      (sp - 8) mod 16 = 8 * ((Z.of_nat (length args + length envs) + 1) mod 2) /\
      exists T', pt_inv kend (mmem (km s')) root T' /\
        (forall va, PGROUNDUP sz <= va < lo -> upage (mmem (km s')) T' va = 0) /\
        laid_out top (umem (mmem (km s')) T') sp b qa qe args envs (aux_vector h progh base (b - 16))
    end) s.
Proof.
  intros Hk Hinv Hsz Hmax Hz Hf Sa Se La Le Na Ne top lo. unfold build_stack. cbn zeta.
  assert (MAXVA + PGSIZE < 2 ^ 64 /\ PTE_W < 2 ^ 10 /\ 0 < PGSIZE /\ 64 * PGSIZE = 262144) as (HM & HW & Hpg & H64) by done.
  destruct (PGROUNDUP_spec sz) as [Hal Hup]; [lia|]. set (a0 := PGROUNDUP sz) in *.
  assert (PGROUNDUP a0 = a0) as Hr0 by (apply PGROUNDUP_aligned; [done|lia]).
  assert (PGROUNDUP top = top) as Hr1 by (apply PGROUNDUP_aligned; [by apply page_aligned_add|unfold top; lia]).
  rewrite wrap_small by lia. fold top. apply wp_bind, wp_zoom.
  eapply wp_mono; [apply (wp_uvmalloc kend root a0 top PTE_W T l); rewrite ?Hr0, ?Hr1; (done || unfold top; lia)|].
  cbn beta. rewrite Hr0, Hr1. replace (Z.to_nat ((top - a0) / PGSIZE)) with 64%nat by
    (unfold top; replace (a0 + 64 * PGSIZE - a0) with (64 * PGSIZE) by lia; by rewrite Z.div_mul).
  intros r s1 [[-> (T1 & l1 & HA)]|[-> _]]; [|by apply wp_ret; left].
  destruct (Z.eqb_spec top 0); [unfold top in *; lia|].
  rewrite !wrap_small by (unfold top; lia). replace (top - 64 * PGSIZE) with a0 by (unfold top; lia).
  replace (top - 63 * PGSIZE) with lo by (unfold top, lo; lia).
  apply wp_bind, wp_zoom. eapply (wp_guarded kend Hk root a0 64 _ T l s1 T1 l1 Hal ltac:(lia) ltac:(lia) HA); [lia|].
  change (a0 + Z.of_nat 64 * PGSIZE) with top. fold lo. intros s2 Hw Hout Hsame. eapply wp_call.
  - eapply (wp_fill_stack kend root lo top T1 _ lim I _ _ _ _ _ progh base h args envs (mmem s2) (umem (mmem s2) T1)); try done.
    + unfold lo, top. lia.
    + by eapply frame_mono.
    + eapply strs_ext; [|exact Sa]. intros x Hx. by apply Hsame, (fr_in _ _ _ _ _ _ _ Hf).
    + eapply strs_ext; [|exact Se]. intros x Hx. by apply Hsame, (fr_in _ _ _ _ _ _ _ Hf).
  - cbn beta. intros us s3 Hp. apply wp_ret. right.
    destruct (stack_plan lo top args envs) as [[[[qe qa] b] sp]|] eqn:Ep; [|by rewrite Hp].
    destruct Hp as (-> & _ & _ & K' & U' & Hv & Hl). split; [done|]. split.
    { eapply plan_aligned; [done|]. by eapply page_aligned_16, page_aligned_add. }
    apply plan_bounds in Ep as (Hb1 & Hb2 & Lq1 & Lq2 & Hsp & Hsp2); [|unfold lo, top; lia].
    exists T1. destruct Hv as [Hw' Hkn Hus]. split_and!; [apply Hw'| |].
    + intros va Hva. rewrite (w_pages _ _ _ _ _ _ _ Hw'). apply (w_guard _ _ _ _ _ _ _ Hw). unfold lo in *. lia.
    + eapply (laid_out_ext U' _ lo); [lia| |lia| |exact Hl].
      * rewrite !length_app, Lq1, Lq2. cbn [length aux_words flat_map app aux_vector]. unfold MAX_AT in Hsp2. lia.
      * intros va Hva. unfold umem, uaddr. rewrite (w_pages _ _ _ _ _ _ _ Hw'). by apply Hus.
Qed.

(** ** Witness: ls -l with one environment string, on a machine of eighty pages *)

Definition eighty : Z := PHYSTOP - 80 * PGSIZE.

Lemma vm_inv_low kend root T l s m' :
  0 < kend -> vm_inv kend s root T l -> bytes_ok m' -> (forall x, kend <= x -> m' x = mmem s x) ->
  vm_inv kend (set_mmem m' s) root T l /\ (forall va, leaf m' T va = leaf (mmem s) T va).
Proof.
  intros Hk [Hkm Hpt Hsep Hlk] Hb Hm. destruct (pt_frame kend (mmem s) m' root T Hpt) as [Hpt' HL].
  { intros pa x [q Hq] Hin. apply Hm. pose proof (pt_valid _ _ _ _ Hpt _ _ Hq) as [_ ?]. unfold in_page in Hin. lia. }
  split; [|done]. split; [|done..]. destruct Hkm as [Hf Hn Hv Hbs]. constructor; try done. cbn [mmem set_mmem freelist].
  apply (flist_ext kend Hk (mmem s)); [done|]. intros q Hq x Hx. symmetry. apply Hm. rewrite Forall_forall in Hv.
  destruct (Hv q Hq). unfold in_page in Hx. lia.
Qed.

Lemma eighty_table :
  exists s root l, vm_inv eighty s root {[ [] := root ]} l /\ forall va, leaf (mmem s) {[ [] := root ]} va = 0.
Proof.
  assert (0 < eighty) as Hp by done.
  destruct boot_ok as (_ & Hl & Hf & Hb). revert Hl Hf Hb. generalize boot. intros b Hl Hf Hb.
  pose proof (wp_kinit eighty Hp b ltac:(unfold eighty, PGSIZE; lia) Hl Hf Hb) as H. apply wp_done in H as (u & s1 & _ & Hk & Hh).
  pose proof (wp_uvmcreate eighty Hp (all_pages eighty) s1 Hk ltac:(by rewrite Hh)) as H.
  apply wp_done in H as (r & s2 & _ & _ & H). destruct (all_pages eighty) as [|p l] eqn:E; [by vm_compute in E|].
  destruct H as (_ & Hv & Hleaf & _). by exists s2, p, l.
Qed.

Definition ls_args : list (list Z) := [[108; 115]; [45; 108]].
Definition ls_envs : list (list Z) := [[65; 61; 49]].
Definition ls_mem : mem :=
  let ws m a l := fold_left (fun m x => store64 m (a + 8 * x.1) x.2) l m in
  put_chars (put_chars (put_chars (ws (ws (fun _ => 0) 0x8000 [(0, 0x8100); (1, 0x8110); (2, 0)]) 0x8040 [(0, 0x8120); (1, 0)])
    0x8100 [108; 115]) 0x8110 [45; 108]) 0x8120 [65; 61; 49].
Definition ls_low (x : Z) : Prop := 0x8000 <= x < 0x8200.

Ltac ls_string := cbn [cstr]; repeat (split; [by vm_compute|split; [done|]]); by vm_compute.

Lemma ls_strs : strs ls_low ls_mem 0x8000 ls_args /\ strs ls_low ls_mem 0x8040 ls_envs.
Proof.
  unfold ls_low. split; constructor.
  1, 4: cbn [length ls_args ls_envs]; intros; lia.
  1, 3: by vm_compute.
  - intros [|[|[|i]]] lx Hi; cbn in Hi; simplify_eq.
    + change (load64 ls_mem _) with 0x8100. split_and!; [done|ls_string|cbn [length]; intros; lia].
    + change (load64 ls_mem _) with 0x8110. split_and!; [done|ls_string|cbn [length]; intros; lia].
  - intros [|[|i]] lx Hi; cbn in Hi; simplify_eq.
    change (load64 ls_mem _) with 0x8120. split_and!; [done|ls_string|cbn [length]; intros; lia].
Qed.

Lemma ls_short : Forall (short 16) ls_args /\ Forall (short 16) ls_envs.
Proof. unfold short, PGSIZE. split; repeat (apply Forall_cons; split; [cbn [length]; lia|]); apply Forall_nil_2. Qed.

Lemma ls_bytes : bytes_ok ls_mem.
Proof.
  unfold ls_mem. cbn [fold_left fst snd put_chars]. repeat first [apply mset_ok | apply store64_ok]. done.
Qed.

(** The machine [s] with the arguments in its low memory. *)
Definition with_ls (s : mach) : mach := set_mmem (fun x => if x <? eighty then ls_mem x else mmem s x) s.

Lemma ls_frame root T l :
  (forall pa, table_page T pa -> valid_page eighty pa) -> Forall (valid_page eighty) l -> 0 < root ->
  frame (kept T l) ls_low 0x9000 0xb000 0xc000 2 1.
Proof.
  intros HT Hl _. assert (0x10000 < eighty) as He by done.
  assert (forall x, PGSIZE <= x < 0x10000 -> kept T l x) as Hkept.
  { intros x Hx. split; [lia|]. intros pa Hpa Hin. assert (valid_page eighty pa) as [_ ?].
    { destruct Hpa as [Hpa|Hpa]; [by apply HT|]. rewrite Forall_forall in Hl. by apply Hl. }
    unfold in_page in Hin. lia. }
  unfold ls_low, PGSIZE, MAX_AT in *. constructor; unfold room, MAX_AT; intros; first [apply Hkept; lia | split; [first [apply Hkept; lia | lia]|lia] | lia].
Qed.

Lemma ls_inv :
  exists s root l, vm_inv eighty (with_ls s) root {[ [] := root ]} l /\ (forall va, leaf (mmem (with_ls s)) {[ [] := root ]} va = 0) /\
    frame (kept {[ [] := root ]} l) ls_low 0x9000 0xb000 0xc000 2 1.
Proof.
  destruct eighty_table as (s & root & l & Hv & Hl). exists s, root, l. assert (0 < eighty) as Hp by done.
  destruct (vm_inv_low eighty root _ l s (fun x => if x <? eighty then ls_mem x else mmem s x) Hp Hv) as [H1 H2].
  - intros x. destruct (x <? eighty); [apply ls_bytes|apply Hv].
  - intros x Hx. by destruct (Z.ltb_spec x eighty); [lia|].
  - split; [done|]. split; [intros va; by rewrite <- (Hl va), <- H2|].
    assert (forall pa, table_page {[ [] := root ]} pa -> valid_page eighty pa) as HT.
    { intros pa [q Hq]. by eapply (pt_valid _ _ _ _ (vi_pt _ _ _ _ _ Hv)). }
    apply (ls_frame root); [done|apply Hv|]. destruct (HT root) as [_ ?]; [exists []; by rewrite lookup_singleton_eq|lia].
Qed.

Lemma execve_builds_stack_witness :
  exists s root, wp (build_stack eighty 16 0x9000 0xb000 0xc000 root 0 (Elfhdr ELF_MAGIC 0x10000 64 56 2) 0 0 0x8000 0x8040)
    (fun r s' => r = (None, 0) \/ exists sp, r = (Some (Ustk sp 1 2), 64 * PGSIZE) /\ (sp - 8) mod 16 = 0) (set_km (with_ls s) booted).
Proof.
  destruct ls_inv as (s & root & l & Hv & Hl & Hf). exists s, root. generalize booted. intros b.
  eapply wp_mono.
  - apply (execve_builds_stack eighty root 0 {[ [] := root ]} l 16 ls_low 0x9000 0xb000 0xc000 0x8000 0x8040 0 0 _ ls_args ls_envs).
    + done.
    + exact Hv.
    + done.
    + done.
    + intros va _. apply Hl.
    + exact Hf.
    + eapply strs_ext; [|apply ls_strs]. unfold ls_low. intros x Hx. assert (0x10000 < eighty) by done. cbn. destruct (Z.ltb_spec x eighty); [done|lia].
    + eapply strs_ext; [|apply ls_strs]. unfold ls_low. intros x Hx. assert (0x10000 < eighty) by done. cbn. destruct (Z.ltb_spec x eighty); [done|lia].
    + apply ls_short.
    + apply ls_short.
    + done.
    + done.
  - intros r s'. change (PGROUNDUP 0) with 0.
    destruct (stack_plan (0 + PGSIZE) (0 + 64 * PGSIZE) ls_args ls_envs) as [[[[qe qa] q] sp]|] eqn:E; [|by vm_compute in E].
    intros [->|(-> & Ha & _)]; [by left|right]. exists sp. by split.
Defined.

(** * floadseg of kernel/fs/exec.c: a segment's bytes in user memory

    What the file system promises execve is the class [file_reads]: ext4_vfread
    into kernel memory stores the bytes of the file at the offset and counts those
    before its end.  Against it, floadseg makes the user range hold the file. *)

#[local] Opaque memset load64 store64 memmove.

(** [c] bytes of [data] from [off] on are stored at [dst]. *)
Definition stored (m : mem) (dst : Z) (data : mem) (off c : Z) : mem := if c =? 0 then m else splice m dst data off c.

(** Reads of file [f], whose [len] bytes are [data], while [I] holds. *)
Class file_reads (ops : fs_ops) (f : nat) (data : mem) (len : Z) (I : kstate -> Prop) : Prop :=
  read_spec : forall dst off n s, I s -> 0 <= off < 2 ^ 32 -> 0 < n <= PGSIZE ->
    wp (fop_read ops f false dst off n) (fun r s' =>
      r = (EOK, Z.max 0 (Z.min n (len - off))) /\ mmem (km s') = stored (mmem (km s)) dst data off r.2 /\ I s') s.

Section Load.
Context (kend : Z) (ops : fs_ops) (f : nat) (data : mem) (len : Z) (I : kstate -> Prop).
Hypothesis kend_pos : 0 < kend.
Context `{!file_reads ops f data len I}.
Context (data_bytes : bytes_ok data).
Context (root : Z) (T : tables) (pgs : Z -> Z) (va sz : Z).

(** The pages of the segment, [pgs] being the page behind each address. *)
Record segment (m : mem) : Prop := {
  sg_pt : pt_inv kend m root T;
  sg_bytes : bytes_ok m;
  sg_pages : forall a, upage m T a = pgs a;
  sg_map : forall k, 0 <= k < sz -> pgs (va + k) <> 0;
  sg_table : forall k, 0 <= k < sz -> ~ table_page T (pgs (va + k));
  sg_inj : forall j k, 0 <= j < sz -> 0 <= k < sz -> pgs (va + j) = pgs (va + k) -> PGROUNDDOWN (va + j) = PGROUNDDOWN (va + k);
}.
Hypotheses (Hva : page_aligned va) (Hva0 : 0 <= va) (Hsz : 0 <= sz) (Hmax : va + sz <= MAXVA).

Lemma segment_page j k : 0 <= j -> 0 <= k < PGSIZE -> PGROUNDDOWN (va + j * PGSIZE + k) = va + j * PGSIZE /\ (va + j * PGSIZE + k) mod PGSIZE = k.
Proof.
  intros Hj Hk. rewrite PGROUNDDOWN_eq. unfold page_aligned, PGSIZE in *. pose proof (Z.div_mod va 4096).
  rewrite <- (Z.div_unique (va + j * 4096 + k) 4096 (va / 4096 + j) k) by lia.
  rewrite <- (Z.mod_unique (va + j * 4096 + k) 4096 (va / 4096 + j) k) by lia. lia.
Qed.

(** The page of an address is that of its page's first byte. *)
Lemma pgs_first m j k : segment m -> 0 <= j -> 0 <= k < PGSIZE -> pgs (va + j * PGSIZE + k) = pgs (va + j * PGSIZE).
Proof.
  intros Hs Hj Hk. rewrite <- !(sg_pages _ Hs).
  destruct (segment_page j k Hj Hk) as [Hp _]. by rewrite <- upage_page, Hp.
Qed.

(** Storing in a page of the segment keeps the tables. *)
Lemma segment_write m j src n :
  segment m -> 0 <= j -> j * PGSIZE < sz -> 0 <= n <= PGSIZE ->
  segment (splice m (pgs (va + j * PGSIZE)) data src n).
Proof.
  intros Hs Hj Hjs Hn. set (p := pgs (va + j * PGSIZE)). assert (0 <= j * PGSIZE) by (unfold PGSIZE; lia).
  assert (forall x, ~ in_page p x -> splice m p data src n x = m x) as Hout.
  { intros x Hx. apply splice_out. unfold in_page in Hx. lia. }
  destruct (pt_frame kend m (splice m p data src n) root T (sg_pt _ Hs)) as [Hpt Hl].
  { intros pa x [q Hq] Hin. apply Hout. intros Hin'. apply (sg_table _ Hs (j * PGSIZE) ltac:(lia)). exists q.
    fold p. replace p with pa; [done|]. apply (in_page_eq _ _ x); [apply (pt_valid _ _ _ _ (sg_pt _ Hs) _ _ Hq)| |done..].
    unfold p. rewrite <- (sg_pages _ Hs). apply upage_aligned. }
  constructor; try apply Hs; [done| |].
  - intros x. unfold splice. case_match; [apply data_bytes|apply Hs].
  - intros a. rewrite (upage_ext m _ T a Hl). apply Hs.
Qed.

(** The first [i] bytes are loaded. *)
Definition loaded (offset i : Z) (m : mem) : Prop :=
  segment m /\ forall k, 0 <= k < Z.min i sz -> m (pgs (va + k) + (va + k) mod PGSIZE) = data (offset + k).

Lemma loaded_turn offset j m n :
  loaded offset (j * PGSIZE) m -> 0 <= j -> j * PGSIZE < sz -> n = Z.min PGSIZE (sz - j * PGSIZE) ->
  loaded offset ((j + 1) * PGSIZE) (splice m (pgs (va + j * PGSIZE)) data (offset + j * PGSIZE) n).
Proof.
  intros [Hs Hl] Hj Hjs Hn. assert (0 < PGSIZE) as Hpg by done. split; [apply segment_write; (done || lia)|].
  intros k Hk. destruct (Z.ltb_spec k (j * PGSIZE)).
  - rewrite splice_out; [apply Hl; lia|].
    pose proof (Z.mod_pos_bound (va + k) PGSIZE ltac:(done)) as Hmod.
    assert (page_aligned (pgs (va + k)) /\ page_aligned (pgs (va + j * PGSIZE))) as [A1 A2]
      by (rewrite <- !(sg_pages _ Hs); split; apply upage_aligned).
    destruct (decide (pgs (va + k) = pgs (va + j * PGSIZE))) as [He|Hne].
    + exfalso. apply (sg_inj _ Hs) in He; [|lia..]. destruct (segment_page j 0 Hj ltac:(lia)) as [Hp _].
      rewrite Z.add_0_r in Hp. rewrite Hp, PGROUNDDOWN_eq in He. unfold PGSIZE in *. pose proof (Z.mul_div_le (va + k) 4096). lia.
    + destruct (page_disjoint _ _ A1 A2 Hne); lia.
  - replace (va + k) with (va + j * PGSIZE + (k - j * PGSIZE)) by lia.
    rewrite (pgs_first m) by (done || lia). destruct (segment_page j (k - j * PGSIZE) Hj ltac:(lia)) as [_ ->].
    rewrite splice_in by lia. f_equal. lia.
Qed.

Lemma wp_floadseg_loop fuel offset j s :
  I s -> loaded offset (j * PGSIZE) (mmem (km s)) -> 0 <= j -> 0 <= offset -> offset + sz + PGSIZE < 2 ^ 32 ->
  sz + PGSIZE <= (j + Z.of_nat fuel) * PGSIZE -> (j - 1) * PGSIZE < sz ->
  j * PGSIZE <= len - offset \/ sz <= len - offset ->
  wp (floadseg_loop ops fuel root f va offset sz (j * PGSIZE)) (fun r s' =>
    if sz <=? len - offset then r = 0 /\ I s' /\ loaded offset sz (mmem (km s')) else r = -1) s.
Proof.
  assert (0 < PGSIZE) as Hpg by done. assert (MAXVA < 2 ^ 64) as HM by done.
  revert j s. induction fuel as [|fuel IH]; intros j s HI Hl Hj Hoff H32 Hf Hj1 Hlen; cbn [floadseg_loop]; [lia|].
  destruct (Z.leb_spec sz (j * PGSIZE)) as [Hge|Hlt].
  { apply wp_ret. destruct (Z.leb_spec sz (len - offset)); [|lia]. split; [done|]. split; [done|]. destruct Hl as [Hs Hl].
    split; [done|]. intros k Hk. apply Hl. lia. }
  pose proof Hl as [Hs _]. rewrite !wrap_small by lia. apply wp_bind, wp_zoom.
  eapply (wp_walkaddr kend kend_pos root T); [apply Hs|lia|]. rewrite (sg_pages _ Hs).
  pose proof (sg_map _ Hs (j * PGSIZE) ltac:(lia)) as Hne.
  apply wp_bind, wp_panic_if; [by apply Z.eqb_neq|].
  set (n := if sz - j * PGSIZE <? PGSIZE then sz - j * PGSIZE else PGSIZE).
  assert (n = Z.min PGSIZE (sz - j * PGSIZE)) as Hn by (unfold n; destruct (Z.ltb_spec (sz - j * PGSIZE) PGSIZE); lia).
  unfold read_exact. apply wp_bind, wp_bind. eapply wp_mono; [apply (read_spec (I := I)); [by destruct s|lia|lia]|].
  cbn beta. intros r s1 (-> & Hm1 & HI1). apply wp_ret. cbn [fst snd EOK]. rewrite Z.eqb_refl.
  destruct (Z.eqb_spec (Z.max 0 (Z.min n (len - (offset + j * PGSIZE)))) n) as [He|Hne2].
  - cbn [andb negb]. replace (j * PGSIZE + PGSIZE) with ((j + 1) * PGSIZE) by lia.
    apply IH; try (done || lia). rewrite Hm1. cbn [snd]. rewrite He. unfold stored. rewrite (proj2 (Z.eqb_neq n 0)) by lia. by apply loaded_turn.
  - cbn [andb negb]. apply wp_ret. destruct (Z.leb_spec sz (len - offset)); [lia|done].
Qed.
End Load.

Lemma wp_floadseg (kend : Z) (ops : fs_ops) (f : nat) (data : mem) (len root va offset sz : Z) (T : tables) (I : kstate -> Prop) (s : kstate) :
  0 < kend -> file_reads ops f data len I -> I s -> bytes_ok data -> page_aligned va -> 0 <= va -> 0 <= sz -> va + sz <= MAXVA ->
  0 <= offset <= len -> offset + sz + PGSIZE < 2 ^ 32 ->
  segment kend root T (upage (mmem (km s)) T) va sz (mmem (km s)) ->
  wp (floadseg ops root f va offset sz) (fun r s' =>
    if sz <=? len - offset then r = 0 /\ I s' /\ forall k, 0 <= k < sz -> umem (mmem (km s')) T (va + k) = data (offset + k)
    else r = -1) s.
Proof.
  intros Hk Hr HI Hd Ha H0 Hsz Hm Ho H32 Hs. assert (0 < PGSIZE) by done. unfold floadseg. apply wp_bind, wp_panic_if; [by rewrite Ha|].
  eapply wp_mono; [apply (wp_floadseg_loop kend ops f data len I Hk Hd root T (upage (mmem (km s)) T) va sz Ha H0 Hm _ offset 0); try (done || lia)|].
  - split; [done|]. intros k Hk'. lia.
  - pose proof (Z.div_mod sz PGSIZE ltac:(done)). pose proof (Z.mod_pos_bound sz PGSIZE ltac:(done)).
    pose proof (Z.div_pos sz PGSIZE Hsz ltac:(done)). rewrite Z2Nat.id by lia. lia.
  - cbn beta. intros r s'. destruct (sz <=? len - offset); [|done]. intros (-> & HI' & Hs' & Hl). split; [done|]. split; [done|].
    intros k Hk'. unfold umem, uaddr. rewrite (sg_pages _ _ _ _ _ _ _ Hs'). apply Hl. lia.
Qed.

(** C11: floadseg loads a segment.  On a range of distinct pages mapped for the
    user, with the file long enough, it returns 0 and every byte of the range
    holds the byte of the file at its offset; when the file ends before the
    segment does, it returns -1. *)
Theorem floadseg_loads_file (kend : Z) (ops : fs_ops) (f : nat) (data : mem) (len root va offset sz : Z) (T : tables) (I : kstate -> Prop) (s : kstate) :
  0 < kend -> file_reads ops f data len I -> I s -> bytes_ok data -> page_aligned va -> 0 <= va -> 0 <= sz -> va + sz <= MAXVA ->
  0 <= offset <= len -> offset + sz + PGSIZE < 2 ^ 32 ->
  segment kend root T (upage (mmem (km s)) T) va sz (mmem (km s)) ->
  wp (floadseg ops root f va offset sz) (fun r s' =>
    if sz <=? len - offset then r = 0 /\ I s' /\ forall k, 0 <= k < sz -> umem (mmem (km s')) T (va + k) = data (offset + k)
    else r = -1) s.
Proof. apply wp_floadseg. Qed.

(** A file system that holds one file. *)
Definition one_file (data : mem) (len : Z) : fs_ops :=
  FsOps (fun _ => mret tt) (fun _ => mret tt) (fun _ => mret tt)
    (fun _ _ dst off n s =>
       let c := Z.max 0 (Z.min n (len - off)) in
       Done (EOK, c) (set_km (set_mmem (stored (mmem (km s)) dst data off c) (km s)) s))
    (fun _ _ _ _ _ => mret (0, 0)).

#[local] Instance one_file_reads f data len : file_reads (one_file data len) f data len (fun _ => True).
Proof. intros dst off n s _ _ _. done. Qed.

Lemma floadseg_loads_file_witness :
  exists s T, wp (floadseg (one_file (fun x => x mod 256) 1000) root_page 3 0 64 100) (fun r s' =>
    r = 0 /\ umem (mmem (km s')) T 5 = 69) s.
Proof.
  destruct user_page_facts as (T & Hpt & Hb & Hs & Hv & Hnt). revert Hpt Hb Hs Hv Hnt. generalize with_page. intros w Hpt Hb Hs Hv Hnt.
  exists (set_km w booted), T. generalize booted. intros b.
  assert (forall k, 0 <= k < 100 -> PGROUNDDOWN (0 + k) = 0) as Hd.
  { intros k Hk. rewrite PGROUNDDOWN_eq, Z.div_small; unfold PGSIZE; lia. }
  eapply wp_mono.
  - apply (floadseg_loads_file six_pages (one_file (fun x => x mod 256) 1000) 3 (fun x => x mod 256) 1000 root_page 0 64 100 T (fun _ => True)).
    + done.
    + apply one_file_reads.
    + done.
    + intros x. apply Z.mod_pos_bound. lia.
    + done.
    + lia.
    + lia.
    + done.
    + lia.
    + done.
    + constructor; try done.
      * intros k Hk. cbn [km set_km]. rewrite Hs by (unfold PGSIZE; lia). destruct Hv as [_ ?]. assert (0 < six_pages) by done. lia.
      * intros k Hk. cbn [km set_km]. by rewrite Hs by (unfold PGSIZE; lia).
      * intros j k Hj Hk _. by rewrite !Hd.
  - cbn beta. intros r s' (-> & _ & Hl). split; [done|]. apply (Hl 5). lia.
Defined.
