(* ===== verification/SysPath.v ===== *)
(** * kernel/fs/sysfile.c: system calls that take a path, and sys_mmap

    A call resolves its path against a directory, finds the file system mounted
    there and calls one of its operations.  The operations are a record of
    optional functions, the counterpart of struct filesystem_op and of fops->open;
    buffers on the stack are parameters, by address. *)
From Stdlib Require Import String.
From S2P Require Import Prelude Mem CString Snprintf KTypes Kalloc Vm ListHead KState Queue Sched Signal Thread ThreadInv ProcBase Pipe File Mmap Proc Path Fd Exec.

Definition AT_FDCWD : Z := -100.
Definition AT_SYMLINK_NOFOLLOW : Z := 0x100.
Definition ENOMEM : Z := 12.
Definition UTIME_OMIT : Z := Z.shiftl 1 30 - 2.

(** The operations of a mounted file system; None is a NULL pointer.  Paths and
    buffers are kernel addresses. *)
Record vfs_ops := VfsOps {
  op_open : option (nat -> Z -> Z -> E kstate Z);
  op_link : option (Z -> Z -> Z -> E kstate Z);
  op_unlink : option (Z -> Z -> E kstate Z);
  op_mkdir : option (Z -> Z -> E kstate Z);
  op_mknod : option (Z -> Z -> Z -> E kstate Z);
  op_isdir : option (Z -> E kstate Z);
  op_fstat : option (Z -> Z -> E kstate Z);
  op_faccess : option (Z -> Z -> Z -> E kstate Z);
  op_utimens : option (Z -> option Z -> E kstate Z);
  op_statfs : option (Z -> E kstate Z);
  op_rename : option (Z -> Z -> E kstate Z);
}.

Section Calls.
(** [extern char end[]]; the bound on strings; the literal for a slash; the
    registered file systems, the mount table and the operations of each file
    system; the file system open files are closed through. *)
Context (kend : Z) (lim : nat) (slash : Z).
Context (vfs_fs : list (option vfs_filesystem)) (mounts : list mount_point) (ops : nat -> vfs_ops).
Context (ext4 : option fs_ops).
(** The arrays path, abs_path, newpath and newpath_abs of the calls, the one of
    vfs_resolve_fs, and the path of a process or an open file. *)
Context (path abs_path newpath newpath_abs rbuf dir : Z).

(** A routine on memory. *)
Definition on_mem {A} (f : mem -> option (A * mem)) : E kstate A :=
  m ← gets (fun s => mmem (km s));
  match f m with
  | Some (a, m) => on_mach (upd_mem (fun _ => m));; mret a
  | None => nofuel
  end.

(** get_absolute_path(path, dirpath, abs) with the string [d] at [dir]. *)
Definition absolute (p : Z) (d : string) (abs : Z) : E kstate unit :=
  on_mem (fun m => pair tt <$> get_absolute_path lim slash (put_string m dir d) p dir abs).

Definition vfs_resolve (p : Z) : E kstate (option nat) :=
  on_mem (fun m => vfs_resolve_fs lim slash vfs_fs mounts m p rbuf).

(** p->ofile[dirfd] is not checked: a descriptor out of range or closed
    faults. *)
Definition get_abpath_from_dirfd (pth dirfd abs : Z) : E kstate unit :=
  p ← myproc;
  d ← (if dirfd =? AT_FDCWD then gets (fun s => cpath (procs s p))
       else
         o ← (if dirfd <? 0 then fault else get_ofile p dirfd);
         f ← deref o;
         gets (fun s => fpath (files s f)));
  absolute pth d abs.

(** The common part: resolve, select the operation, call it. *)
Definition on_fs {A} (p : Z) (sel : vfs_ops -> option A) (call : A -> E kstate Z) (none : Z) : E kstate Z :=
  fs ← vfs_resolve p;
  match fs with
  | None => mret none
  | Some fs => match sel (ops fs) with None => mret none | Some op => call op end
  end.

Definition neg_to_m1 (r : Z) : Z := if r <? 0 then -1 else 0.

(** ** Names *)

Definition generic_link (oldpath newp flags : Z) : E kstate Z :=
  on_fs oldpath op_link (fun op => r ← op oldpath newp flags; mret (neg_to_m1 r)) (-1).

Definition sys_link : E kstate Z :=
  argstr 0 path MAXPATH;;
  argstr 1 newpath MAXPATH;;
  get_abpath_from_dirfd path AT_FDCWD abs_path;;
  get_abpath_from_dirfd newpath AT_FDCWD newpath_abs;;
  generic_link abs_path newpath_abs 0.

Definition sys_linkat : E kstate Z :=
  olddirfd ← argint 0;
  argstr 1 path MAXPATH;;
  newdirfd ← argint 2;
  argstr 3 newpath MAXPATH;;
  flags ← argint 4;
  get_abpath_from_dirfd path olddirfd abs_path;;
  get_abpath_from_dirfd newpath newdirfd newpath_abs;;
  generic_link abs_path newpath_abs flags.

Definition generic_unlink (p flags : Z) : E kstate Z :=
  on_fs p op_unlink (fun op => r ← op p flags; mret (neg_to_m1 r)) (-1).

Definition sys_unlink : E kstate Z :=
  n ← argstr 0 path MAXPATH;
  if n <? 0 then mret (-1)
  else
    get_abpath_from_dirfd path AT_FDCWD abs_path;;
    generic_unlink abs_path 0.

Definition sys_unlinkat : E kstate Z :=
  dirfd ← argint 0;
  n ← argstr 1 path MAXPATH;
  if n <? 0 then mret (-1)
  else
    flags ← argint 2;
    get_abpath_from_dirfd path dirfd abs_path;;
    generic_unlink abs_path flags.

Definition generic_mkdir (p mode : Z) : E kstate Z :=
  on_fs p op_mkdir (fun op => r ← op p mode; mret (if r =? 0 then 0 else -1)) (-1).

Definition sys_mkdir : E kstate Z :=
  n ← argstr 0 path MAXPATH;
  if n <? 0 then mret (-1)
  else
    mode ← arguint32 1;
    generic_mkdir path mode.

Definition sys_mkdirat : E kstate Z :=
  n ← argstr 1 path MAXPATH;
  if n <? 0 then mret (-1)
  else
    dirfd ← argint 0;
    mode ← arguint32 2;
    get_abpath_from_dirfd path dirfd abs_path;;
    generic_mkdir abs_path mode.

Definition generic_mknod (p mode dev : Z) : E kstate Z :=
  on_fs p op_mknod (fun op => r ← op p mode dev; mret (neg_to_m1 r)) (-1).

Definition sys_mknod : E kstate Z :=
  mode ← arguint32 1;
  dev ← arguint32 2;
  n ← argstr 0 path MAXPATH;
  if n <? 0 then mret (-1) else generic_mknod path mode dev.

Definition sys_mknodat : E kstate Z :=
  dirfd ← argint 0;
  mode ← arguint32 2;
  dev ← arguint32 3;
  n ← argstr 1 path MAXPATH;
  if n <? 0 then mret (-1)
  else
    get_abpath_from_dirfd path dirfd abs_path;;
    generic_mknod abs_path mode dev.

Definition sys_renameat2 : E kstate Z :=
  olddirfd ← argint 0;
  n ← argstr 1 path MAXPATH;
  if n <? 0 then mret (-1)
  else
    newdirfd ← argint 2;
    n ← argstr 3 newpath MAXPATH;
    if n <? 0 then mret (-1)
    else
      argint 4;;
      get_abpath_from_dirfd path olddirfd abs_path;;
      get_abpath_from_dirfd newpath newdirfd newpath_abs;;
      fs ← vfs_resolve abs_path;
      fs ← deref fs;
      op ← deref (op_rename (ops fs));
      op abs_path newpath_abs.

(** ** The working directory *)

Definition sys_chdir : E kstate Z :=
  p ← myproc;
  n ← argstr 0 path MAXPATH;
  if n <? 0 then mret (-1)
  else
    wd ← gets (fun s => cpath (procs s p));
    absolute path wd abs_path;;
    fs ← vfs_resolve abs_path;
    m ← gets (fun s => mmem (km s));
    len ← match strlen lim m abs_path with Some n => mret n | None => nofuel end;
    if MAXPATH <=? len then mret (-1)
    else
      match fs with
      | None => mret (-1)
      | Some fs =>
        match op_isdir (ops fs) with
        | None => mret (-1)
        | Some op =>
          r ← op abs_path;
          if r =? 0 then mret (-1)
          else
            m ← gets (fun s => mmem (km s));
            upd_proc p (set_cpath (get_string m abs_path (Z.to_nat MAXPATH)));;
            mret 0
        end
      end.

(** The array of the process's path is at [dir]. *)
Definition sys_getcwd : E kstate Z :=
  addr ← argaddr 0;
  size ← argint 1;
  p ← myproc;
  wd ← gets (fun s => cpath (procs s p));
  if (size <? 0) || (MAXPATH <? size) || (size <? Z.of_nat (String.length wd)) then mret 0
  else
    on_mach (upd_mem (fun m => put_string m dir wd));;
    pt ← gets (fun s => pagetable (procs s p));
    r ← on_mach (copyout pt addr dir size);
    mret (if r <? 0 then 0 else addr).

(** ** Opening *)

(** SET_READABLE and SET_WRITABLE on f->flags. *)
Definition set_omode (f : nat) (omode : Z) : E kstate unit :=
  (if has_bits omode O_WRONLY then mret tt else upd_file f (fun x => set_fflags (SET_READABLE (fflags x)) x));;
  (if has_bits omode O_WRONLY || has_bits omode O_RDWR then upd_file f (fun x => set_fflags (SET_WRITABLE (fflags x)) x)
   else mret tt).

(** The rest of generic_open, with the file system [fs] of the path; [dso] and
    [dso_lib] are the two literals of the special case. *)
Definition open_file (dso dso_lib : Z) (fs : option nat) (p flags omode : Z) : E kstate Z :=
  f ← filealloc ext4;
  match f with
  | None => mret (-1)
  | Some f =>
    fd ← fdalloc f;
    if fd <? 0 then fileclose kend ext4 f false;; mret fd
    else
      match fs with
      | None => mret (-1)
      | Some fs =>
        match op_open (ops fs) with
        | None => mret (-1)
        | Some op =>
          upd_file f (fun x => set_fflags (Z.lor (fflags x) flags) x);;
          set_omode f omode;;
          m ← gets (fun s => mmem (km s));
          let p := if bool_decide (strcmp lim m p dso = Some 0) then dso_lib else p in
          upd_file f (fun x => set_fpath (get_string m p lim) x);;
          r ← op f p flags;
          if r <? 0 then
            fileclose kend ext4 f true;;
            me ← myproc;
            set_fd me fd None;;
            mret r
          else mret fd
        end
      end
  end.

Definition generic_open (dso dso_lib : Z) (p flags omode : Z) : E kstate Z :=
  fs ← vfs_resolve p;
  open_file dso dso_lib fs p flags omode.

Definition sys_openat (dso dso_lib : Z) : E kstate Z :=
  dirfd ← argint 0;
  n ← argstr 1 path MAXPATH;
  if n <? 0 then mret (-1)
  else
    flags ← argint 2;
    omode ← argint 3;
    get_abpath_from_dirfd path dirfd abs_path;;
    r ← generic_open dso dso_lib abs_path flags omode;
    mret (i32 r).

Definition sys_open (dso dso_lib : Z) : E kstate Z :=
  n ← argstr 0 path MAXPATH;
  if n <? 0 then mret (-1)
  else
    flags ← argint 1;
    omode ← argint 2;
    r ← generic_open dso dso_lib path flags omode;
    mret (if i32 r <? 0 then -1 else i32 r).

Definition sys_dev : E kstate Z :=
  omode ← argint 0;
  major ← argint 1;
  argint 2;;
  if (major <? 0) || (NDEV <=? major) then mret (-1)
  else
    f ← filealloc ext4;
    match f with
    | None => mret (-1)
    | Some f =>
      fd ← fdalloc f;
      if fd <? 0 then fileclose kend ext4 f false;; mret (-1)
      else
        upd_file f (fun x => set_fmajor major (set_ftype FD_DEVICE x));;
        set_omode f omode;;
        p ← myproc;
        set_fd p fd (Some f);;
        mret fd
    end.

(** ** Attributes.  [kbuf] is the local structure. *)

Context (kbuf sizeof_stat sizeof_statfs : Z).

Definition generic_fstat (p : Z) : E kstate Z :=
  on_fs p op_fstat (fun op => op p kbuf) EINVAL.

Definition copy_back (addr size err : Z) : E kstate Z :=
  pt ← my_pagetable;
  r ← on_mach (copyout pt addr kbuf size);
  mret (if r <? 0 then err else 0).

(** abs_path is zeroed by its initialiser. *)
Definition sys_fstatat : E kstate Z :=
  on_mach (upd_mem (fun m => memset m abs_path 0 MAXPATH));;
  dirfd ← argint 0;
  n ← argstr 1 path MAXPATH;
  if n <? 0 then mret (-1)
  else
    statbuf ← argaddr 2;
    argint 3;;
    get_abpath_from_dirfd path dirfd abs_path;;
    r ← generic_fstat abs_path;
    if negb (i32 r =? EOK) then mret (- i32 r) else copy_back statbuf sizeof_stat (- ENOMEM).

(** The path array of the file is at [dir]. *)
Definition sys_fstat : E kstate Z :=
  st ← argaddr 1;
  o ← argfd 0;
  match o with
  | None => mret (-1)
  | Some (_, f) =>
    x ← get_file f;
    on_mach (upd_mem (fun m => put_string m dir (fpath x)));;
    r ← generic_fstat dir;
    if negb (r =? 0) then mret (-1) else copy_back st sizeof_stat (-1)
  end.

Definition sys_statfs : E kstate Z :=
  n ← argstr 0 path MAXPATH;
  if n <? 0 then mret (-1)
  else
    ubuf ← argaddr 1;
    on_fs path op_statfs (fun op => r ← op kbuf; if r <? 0 then mret r else copy_back ubuf sizeof_statfs (-1)) (-1).

Definition sys_faccessat : E kstate Z :=
  dirfd ← argint 0;
  n ← argstr 1 path MAXPATH;
  if n <? 0 then mret (-1)
  else
    amode ← argint 2;
    flag ← argint 3;
    get_abpath_from_dirfd path dirfd abs_path;;
    on_fs abs_path op_faccess (fun op => r ← op abs_path amode flag; mret (neg_to_m1 r)) (-1).

Definition generic_utimensat (dirfd pathname : Z) (times : option Z) (flags : Z) : E kstate Z :=
  if has_bits flags (Z.lnot AT_SYMLINK_NOFOLLOW) then mret (-1)
  else
    get_abpath_from_dirfd pathname dirfd abs_path;;
    on_fs abs_path op_utimens (fun op => r ← op abs_path times; mret (if r <? 0 then r else 0)) (-1).

(** times[2] is at [kbuf]; a struct timespec is two words, tv_nsec the
    second. *)
Definition sys_utimensat : E kstate Z :=
  dirfd ← argint 0;
  path_addr ← argaddr 1;
  n ← (if path_addr =? 0 then mret (-1) else argstr 1 path MAXPATH);
  (if n <? 0 then on_mach (upd_mem (fun m => mset m path 0)) else mret tt);;
  times_addr ← argaddr 2;
  flags ← argint 3;
  r ← (if times_addr =? 0 then mret (Some None)
       else
         pt ← my_pagetable;
         e ← on_mach (copyin pt kbuf times_addr 32);
         if e <? 0 then mret None else mret (Some (Some kbuf)));
  match r with
  | None => mret (-1)
  | Some times =>
    m ← gets (fun s => mmem (km s));
    let omit a := i64 (load64 m (kbuf + a)) =? UTIME_OMIT in
    if bool_decide (times <> None) && omit 8 && omit 24 then mret 0
    else generic_utimensat dirfd (if m path =? 0 then 0 else path) times flags
  end.

(** ** Calls that do nothing yet, and the entry of a directory *)

Definition sys_mount : E kstate Z := mret 0.
Definition sys_umount2 : E kstate Z := mret 0.
Definition sys_readlinkat : E kstate Z := mret 0.

Context (ext4_temp_vgentdents : nat -> Z -> Z -> E kstate Z).

Definition sys_getdents64 : E kstate Z :=
  ubuf ← argaddr 1;
  count ← arguint64 2;
  o ← argfd 0;
  match o with
  | None => mret (-1)
  | Some (_, f) => ext4_temp_vgentdents f ubuf count
  end.
End Calls.

(** ** kernel/mm/mmap.c: the system calls *)

Section Mappings.
Context (kend : Z) (swtch : nat -> E kstate unit) (ch : Z).
Context (ext4 : option fs_ops).
Context (dev_write : Z -> option (bool -> Z -> Z -> E kstate Z)).
Context (wfuel : nat).

Definition sys_mmap : E kstate Z :=
  addr ← argaddr 0;
  length ← argint 1;
  prot ← argint 2;
  flags ← argint 3;
  fd ← (if has_bits flags MAP_ANONYMOUS then mret (Some (-1, None))
        else o ← argfd 4; mret ((fun x : Z * nat => (x.1, Some x.2)) <$> o));
  match (fd : option (Z * option nat)) with
  | None => mret (-1)
  | Some (fd, fp) =>
    offset ← argint 5;
    do_mmap kend addr length prot flags fd fp offset
  end.

Definition sys_munmap : E kstate Z :=
  addr ← argaddr 0;
  len ← argint 1;
  do_munmap kend swtch ch ext4 dev_write wfuel addr len.

Definition sys_mprotect : E kstate Z :=
  addr ← argaddr 0;
  size ← argint 1;
  prot ← argint 2;
  do_mprotect addr size prot.
End Mappings.
