(* ===== verification/Ext4fs.v ===== *)
(** * kernel/fs/ext4fs.c: ext4 as a file system of the kernel

    Every operation of struct file_ops and struct fs_ops that ext4 offers: the
    pool of struct ext4_file behind open files, reading and writing through a
    kernel buffer, opening and closing, stat, directories, links, times, seeking.
    What they call of lwext4 beyond seeking and closing, which are modelled, is
    the record [lwext4]. *)
From Stdlib Require Import String.
From S2P Require Import Prelude Mem CString Snprintf KTypes Kalloc Vm ListHead KState Queue Sched Signal Thread ThreadInv ProcBase Pipe File Inode Fd SysProc Exec SysPath.

Definition ENOENT : Z := 2.
Definition ENOTSUP : Z := 95.
Definition SEEK_SET : Z := 0.
Definition SEEK_CUR : Z := 1.
Definition SEEK_END : Z := 2.
Definition EXT4_DE_UNKNOWN : Z := 0.
Definition EXT4_DE_REG_FILE : Z := 1.
Definition EXT4_DE_DIR : Z := 2.
Definition EXT4_DE_CHRDEV : Z := 3.
Definition EXT4_DE_BLKDEV : Z := 4.
Definition EXT4_DE_FIFO : Z := 5.
Definition EXT4_DE_SOCK : Z := 6.
Definition EXT4_DE_SYMLINK : Z := 7.
Definition UTIME_NOW : Z := Z.shiftl 1 30 - 1.

(** struct ext4_sblock, as far as the kernel reads it. *)
Record ext4_sblock := Ext4Sblock {
  es_creator_os : Z;
  es_magic : Z;
  es_inodes_count : Z;
  es_free_inodes_count : Z;
  es_block_size : Z;   (* ext4_sb_get_block_size *)
  es_blocks_cnt : Z;   (* ext4_sb_get_blocks_cnt *)
  es_free_blocks_cnt : Z;   (* ext4_sb_get_free_blocks_cnt *)
}.

(** A struct ext4_dir: the one of an open file, or a local variable. *)
Inductive edir := DirOf (f : nat) | DirLocal.

(** lwext4: operations on the file [i] of the pool, on directories and on paths.
    A read or a write gets the address of the buffer, its size and what *rcnt
    was before; ext4_dir_entry_next answers the address of the entry, 0 for NULL,
    and the directory's next_off. *)
Record lwext4 := Lwext4 {
  lw_fopen2 : nat -> string -> Z -> E kstate Z;
  lw_fread : nat -> Z -> Z -> Z -> E kstate (Z * Z);
  lw_fwrite : nat -> Z -> Z -> Z -> E kstate (Z * Z);
  lw_ftruncate : nat -> Z -> E kstate Z;
  lw_dir_open : edir -> string -> E kstate Z;
  lw_dir_close : edir -> E kstate Z;
  lw_dir_entry_next : edir -> E kstate (Z * Z);
  lw_raw_inode_fill : string -> E kstate (Z * Z * ext4_inode);
  lw_get_sblock : string -> E kstate (Z * ext4_sblock);
  lw_mount_point_stats : string -> E kstate (Z * Z);
  lw_get_inode_ref : nat -> E kstate (Z * Z * ext4_inode);
  lw_mknod : string -> Z -> Z -> E kstate Z;
  lw_dir_mk : string -> E kstate Z;
  lw_mode_set : string -> Z -> E kstate Z;
  lw_flink : string -> string -> E kstate Z;
  lw_fremove : string -> E kstate Z;
  lw_dir_rm : string -> E kstate Z;
  lw_atime_set : string -> Z -> E kstate Z;
  lw_mtime_set : string -> Z -> E kstate Z;
  lw_frename : string -> string -> E kstate Z;
  lw_device_register : E kstate Z;
  lw_mount : string -> E kstate Z;
  lw_recover : string -> E kstate Z;
  lw_journal_start : string -> E kstate Z;
  lw_cache_write_back : string -> E kstate Z;
}.

(** ** Inodes as lwext4 reads them (ext4_inode.c) *)

Definition EXT4_SUPERBLOCK_OS_HURD : Z := 1.

Definition ext4_inode_get_mode (sb : ext4_sblock) (i : ext4_inode) : Z :=
  if es_creator_os sb =? EXT4_SUPERBLOCK_OS_HURD then Z.lor (ei_mode i) (Z.shiftl (ei_mode_high i) 16) else ei_mode i.
Definition ext4_inode_type (sb : ext4_sblock) (i : ext4_inode) : Z := Z.land (ext4_inode_get_mode sb i) 0xF000.
Definition ext4_inode_get_dev (i : ext4_inode) : Z := if negb (ei_block0 i =? 0) then ei_block0 i else ei_block1 i.

(** ** The pools *)

Definition on_pool (g : (nat -> ext4_mfile) -> nat -> ext4_mfile) : E kstate unit :=
  modify (fun s => set_ftabs (set_ext4_fpool (g (ext4_fpool (ftabs s))) (ftabs s)) s).
Definition on_ipool (g : (nat -> ext4_minode) -> nat -> ext4_minode) : E kstate unit :=
  modify (fun s => set_ftabs (set_ext4_ipool (g (ext4_ipool (ftabs s))) (ftabs s)) s).

Definition init_ext4_fpool : E kstate unit := on_pool (fun _ _ => mfile_zero);; initlock L_ext4_fpool.
Definition init_ext4_ipool : E kstate unit := on_ipool (fun _ _ => minode_zero);; initlock L_ext4_ipool.
Definition ext4_ipool_init : E kstate unit := on_ipool (fun _ _ => minode_zero);; initlock L_ext4_ipool.

Definition get_mfile (i : nat) : E kstate ext4_mfile := gets (fun s => ext4_fpool (ftabs s) i).
Definition upd_mfile (i : nat) (g : ext4_mfile -> ext4_mfile) : E kstate unit := on_pool (fun P => <[i := g (P i)]> P).
Definition get_minode (i : nat) : E kstate ext4_minode := gets (fun s => ext4_ipool (ftabs s) i).
Definition upd_minode (i : nat) (g : ext4_minode -> ext4_minode) : E kstate unit := on_ipool (fun P => <[i := g (P i)]> P).

Definition ext4_falloc : E kstate (option nat) :=
  acquire L_ext4_fpool;;
  fp ← for_table (R := nat) (Z.to_nat NFILE) 0 (fun i =>
         x ← get_mfile i;
         if mf_ref x =? 0 then upd_mfile i (fun x => Ext4Mfile (i32 (mf_ref x + 1)) (mf_entry x));; mret (Some i)
         else mret None);
  release L_ext4_fpool;;
  mret fp.

(** The entry [i] of the pool; None is NULL. *)
Definition recycle_efile (efp : option nat) : E kstate Z :=
  match efp with
  | None => mret 0
  | Some i =>
    acquire L_ext4_fpool;;
    upd_mfile i (fun x =>
      let r := if 0 <? mf_ref x then mf_ref x - 1 else mf_ref x in
      if r =? 0 then mfile_zero else Ext4Mfile r (mf_entry x));;
    release L_ext4_fpool;;
    mret 0
  end.

Definition ext4_ialloc : E kstate (option nat) :=
  acquire L_ext4_ipool;;
  ip ← for_table (R := nat) (Z.to_nat NINODE) 0 (fun i =>
         x ← get_minode i;
         if mi_ref x =? 0 then upd_minode i (fun x => Ext4Minode (i32 (mi_ref x + 1)) (mi_entry x));; mret (Some i)
         else mret None);
  release L_ext4_ipool;;
  mret ip.

Definition recycle_einode (i : nat) : E kstate Z :=
  acquire L_ext4_ipool;;
  upd_minode i (fun x =>
    let r := if 0 <? mi_ref x then mi_ref x - 1 else mi_ref x in
    if r =? 0 then minode_zero else Ext4Minode r (mi_entry x));;
  release L_ext4_ipool;;
  mret 0.

Section Ops.
(** [extern char end[]]; lwext4; the address of ext4_fpool; a bound on strings;
    r_time(); filewrite, which ext4_vlseek calls. *)
Context (kend : Z) (lw : lwext4) (pool_addr : Z) (lim : nat) (rtime : Z).
Context (filewrite : nat -> bool -> Z -> Z -> Z -> E kstate Z).

(** &ext4_fpool.fpool[i].ext4_fentry: a struct ext4_mfile takes 40 bytes, its
    entry is at 8. *)
Definition efile_addr (i : nat) : Z := pool_addr + 40 * Z.of_nat i + 8.
Definition efile_at (a : Z) : option nat := if a =? 0 then None else Some (Z.to_nat ((a - 8 - pool_addr) / 40)).

(** fp->private_data *)
Definition private_file (f : nat) : E kstate (option nat) := x ← get_file f; mret (efile_at (fprivate x)).
Definition get_efile (i : nat) : E kstate ext4_file := x ← get_mfile i; mret (mf_entry x).
Definition upd_efile (i : nat) (g : ext4_file -> ext4_file) : E kstate unit := upd_mfile i (fun x => Ext4Mfile (mf_ref x) (g (mf_entry x))).

Definition ext4_vcleansf (f : nat) : E kstate Z :=
  efp ← private_file f;
  recycle_efile efp.

(** ** Seeking and closing in lwext4 (ext4.c) *)

(** offset is an int64_t, the fields are uint64_t. *)
Definition ext4_fseek (i : nat) (offset origin : Z) : E kstate Z :=
  x ← get_efile i;
  if origin =? SEEK_SET then
    if offset <? 0 then mret EINVAL else upd_efile i (set_ef_fpos offset);; mret EOK
  else if origin =? SEEK_CUR then
    if ((offset <? 0) && (ef_fpos x <? - offset)) || ((0 <? offset) && (u64 (ef_fsize x - ef_fpos x) <? offset)) then mret EINVAL
    else upd_efile i (set_ef_fpos (u64 (ef_fpos x + offset)));; mret EOK
  else if origin =? SEEK_END then
    if (offset <? 0) || (ef_fsize x <? offset) then mret EINVAL
    else upd_efile i (set_ef_fpos (u64 (ef_fsize x - offset)));; mret EOK
  else mret EINVAL.

Definition ext4_fclose (i : nat) : E kstate Z :=
  x ← get_efile i;
  panic_if (ef_mp x =? 0) "ext4_assert";;
  upd_efile i (fun _ => Ext4File 0 0 0 0 0);;
  mret EOK.

(** fp->fpos = efp->fpos *)
Definition sync_pos (f i : nat) : E kstate unit :=
  x ← get_efile i;
  upd_file f (set_fpos (ef_fpos x)).

(** ** Reading *)

Definition free_if (user : bool) (kbuf : Z) : E kstate unit := if user then on_mach (kfree kend kbuf) else mret tt.

(** for(int i = 0; i < size; i += PGSIZE), for more than a page: the bytes read
    so far or the error.  copyout goes to user memory whatever user_dst is. *)
Fixpoint vfread_loop (fuel : nat) (e : nat) (user_dst : bool) (dst kbuf size i nread rcnt : Z) : E kstate (Z * Z) :=
  match fuel with
  | O => nofuel
  | S fuel =>
    if u64 i <? size then
      let n := if PGSIZE <? u64 (size - i) then PGSIZE else i32 (size - i) in
      a ← lw_fread lw e kbuf n rcnt;
      let '(r, rcnt) := (a : Z * Z) in
      if negb (r =? EOK) then free_if user_dst kbuf;; mret (r, rcnt)
      else
        pt ← my_pagetable;
        r ← on_mach (copyout pt (u64 (dst + i)) kbuf rcnt);
        if negb (r =? EOK) then free_if user_dst kbuf;; mret (r, rcnt)
        else vfread_loop fuel e user_dst dst kbuf size (i32 (i + PGSIZE)) (i32 (nread + rcnt)) rcnt
    else mret (EOK, u64 nread)
  end.

(** The result and *rcnt; the page of a read of more than one page is not given
    back. *)
Definition ext4_vfread (f : nat) (user_dst : bool) (dst off size rcnt : Z) : E kstate (Z * Z) :=
  efp ← private_file f;
  match efp with
  | None => mret (EINVAL, rcnt)
  | Some e =>
    x ← get_efile e;
    if ef_fsize x <? u64 off then mret (0, 0)
    else
      r ← ext4_fseek e off SEEK_SET;
      if negb (r =? EOK) then mret (r, rcnt)
      else if size <=? PGSIZE then
        kbuf ← (if user_dst then on_mach (kmalloc size) else mret dst);
        if user_dst && (kbuf =? 0) then mret (ENOMEM, rcnt)
        else
          a ← lw_fread lw e kbuf size rcnt;
          let '(r, rcnt) := (a : Z * Z) in
          if negb (r =? EOK) then free_if user_dst kbuf;; mret (r, rcnt)
          else if user_dst then
            pt ← my_pagetable;
            c ← on_mach (copyout pt dst kbuf rcnt);
            on_mach (kfree kend kbuf);;
            if negb (c =? EOK) then mret (-1, rcnt) else sync_pos f e;; mret (r, rcnt)
          else sync_pos f e;; mret (r, rcnt)
      else
        kbuf ← (if user_dst then on_mach kalloc else mret dst);
        if kbuf =? 0 then mret (ENOMEM, rcnt)
        else
          a ← vfread_loop (Z.to_nat (size / PGSIZE + 2)) e user_dst dst kbuf size 0 0 rcnt;
          let '(r, rcnt) := (a : Z * Z) in
          if negb (r =? EOK) then mret (r, rcnt) else sync_pos f e;; mret (r, rcnt)
  end.

(** ** Writing *)

(** The bytes from the end of the file to [off] are filled with zeros, one page
    of them at most; None when that went well. *)
Definition fill_gap (e : nat) (off : Z) : E kstate (option Z) :=
  x ← get_efile e;
  if ef_fsize x <? u64 off then
    let zero_size := u64 (off - ef_fsize x) in
    upd_efile e (fun x => set_ef_fpos (ef_fsize x) x);;
    if PGSIZE <? zero_size then mret (Some (-1))
    else
      tbuf ← on_mach kzalloc;
      if tbuf =? 0 then mret (Some ENOMEM)
      else
        a ← lw_fwrite lw e tbuf zero_size 0;
        let '(r, wzero) := (a : Z * Z) in
        on_mach (kfree kend tbuf);;
        if negb (r =? EOK) then mret (Some r)
        else if negb (wzero =? zero_size) then mret (Some (-1))
        else mret None
  else mret None.

(** Writing more than a page; from kernel memory the buffer is the source itself,
    page after page. *)
Fixpoint vwrite_loop (fuel : nat) (e : nat) (user_src : bool) (src kbuf size i nwritten wcnt : Z) : E kstate (Z * Z) :=
  match fuel with
  | O => nofuel
  | S fuel =>
    if u64 i <? size then
      let n := if PGSIZE <? u64 (size - i) then PGSIZE else i32 (size - i) in
      pt ← my_pagetable;
      r ← (if user_src then on_mach (copyin pt kbuf (u64 (src + i)) n) else mret EOK);
      if negb (r =? EOK) then on_mach (kfree kend kbuf);; mret (r, wcnt)
      else
        a ← lw_fwrite lw e (if user_src then kbuf else src + i) n wcnt;
        let '(r, wcnt) := (a : Z * Z) in
        if negb (r =? EOK) then free_if user_src kbuf;; mret (r, wcnt)
        else if negb (wcnt =? n) then free_if user_src kbuf;; mret (-1, wcnt)
        else vwrite_loop fuel e user_src src kbuf size (i32 (i + PGSIZE)) (i32 (nwritten + wcnt)) wcnt
    else mret (EOK, u64 nwritten)
  end.

Definition ext4_vwrite (f : nat) (user_src : bool) (src off size wcnt : Z) : E kstate (Z * Z) :=
  efp ← private_file f;
  match efp with
  | None => mret (EINVAL, wcnt)
  | Some e =>
    g ← fill_gap e off;
    match g with
    | Some r => mret (r, wcnt)
    | None =>
      r ← ext4_fseek e off SEEK_SET;
      if negb (r =? EOK) then mret (r, wcnt)
      else if size <=? PGSIZE then
        kbuf ← (if user_src then on_mach (kmalloc size) else mret src);
        if user_src && (kbuf =? 0) then mret (ENOMEM, wcnt)
        else
          r ← (if user_src then pt ← my_pagetable; on_mach (copyin pt kbuf src size) else mret EOK);
          if negb (r =? EOK) then on_mach (kfree kend kbuf);; mret (r, wcnt)
          else
            a ← lw_fwrite lw e kbuf size wcnt;
            let '(r, wcnt) := (a : Z * Z) in
            if negb (r =? EOK) then free_if user_src kbuf;; mret (r, wcnt)
            else sync_pos f e;; free_if user_src kbuf;; mret (r, wcnt)
      else
        kbuf ← (if user_src then on_mach kalloc else mret src);
        if kbuf =? 0 then mret (ENOMEM, wcnt)
        else
          a ← vwrite_loop (Z.to_nat (size / PGSIZE + 2)) e user_src src kbuf size 0 0 wcnt;
          let '(r, wcnt) := (a : Z * Z) in
          if negb (r =? EOK) then mret (r, wcnt)
          else sync_pos f e;; free_if user_src kbuf;; mret (r, wcnt)
    end
  end.

(** for (int i = 0; i < iovcnt; i++): the vectors are at [vecs], which advances
    after each write, so that the i-th is looked up at vecs[i] from there. *)
Fixpoint vwritev_loop (todo : nat) (f : nat) (user_src : bool) (kvecs vecs i wc wcnt : Z) : E kstate (Z * Z) :=
  match todo with
  | O => mret (EOK, wcnt)
  | S todo =>
    m ← gets (fun s => mmem (km s));
    let base := load64 m (vecs + 16 * i) in
    let len := load64 m (vecs + 16 * i + 8) in
    if len =? 0 then vwritev_loop todo f user_src kvecs vecs (i + 1) wc wcnt
    else
      x ← get_file f;
      a ← ext4_vwrite f user_src base (fpos x) len wc;
      let '(r, wc) := (a : Z * Z) in
      if negb (r =? EOK) then free_if user_src kvecs;; mret (-1, wcnt)
      else vwritev_loop todo f user_src kvecs (vecs + 16) (i + 1) wc (u64 (wcnt + wc))
  end.

Definition ext4_vwritev (f : nat) (user_src : bool) (iovec iovcnt wcnt : Z) : E kstate (Z * Z) :=
  efp ← private_file f;
  match efp with
  | None => mret (EINVAL, wcnt)
  | Some _ => vwritev_loop (Z.to_nat iovcnt) f user_src iovec iovec 0 0 wcnt
  end.

(** ** Opening and closing *)

(** The type of an open file by the type of its inode. *)
Definition file_type (eftype : Z) : option fd_type :=
  if eftype =? 0x1000 then Some FD_PIPE
  else if eftype =? 0x2000 then Some FD_DEVICE
  else if eftype =? 0x4000 then Some FD_DIR
  else if eftype =? 0x6000 then Some FD_DEVICE
  else if eftype =? 0x8000 then Some FD_INODE
  else if eftype =? 0xA000 then Some FD_SOFTLINK
  else if eftype =? 0xC000 then Some FD_SOCKET
  else None.

(** major(dev) of file.h; the field is a short. *)
Definition major (dev : Z) : Z := Z.land (Z.shiftr dev 16) 0xFFFF.

(** From the label isdir on; [r] is the result so far. *)
Definition vfopen_type (f : nat) (efp : option nat) (path : string) (r : Z) : E kstate Z :=
  a ← lw_raw_inode_fill lw path;
  let '(r1, _, inode) := (a : Z * Z * ext4_inode) in
  if negb (r1 =? EOK) then recycle_efile efp;; mret (- EINVAL)
  else
    b ← lw_get_sblock lw path;
    let '(r2, sb) := (b : Z * ext4_sblock) in
    if negb (r2 =? EOK) then recycle_efile efp;; mret (- EINVAL)
    else
      match file_type (ext4_inode_type sb inode) with
      | None => recycle_efile efp;; mret (- EINVAL)
      | Some t =>
        upd_file f (set_ftype t);;
        (if bool_decide (t = FD_DEVICE) then upd_file f (set_fmajor (sint 16 (major (ext4_inode_get_dev inode)))) else mret tt);;
        mret r
      end.

Definition ext4_vfopen (f : nat) (path : string) (flags : Z) : E kstate Z :=
  efp ← private_file f;
  r ← lw_dir_open lw (DirOf f) path;
  if r =? EOK then vfopen_type f efp path r
  else
    match efp with
    | Some _ => mret (- EINVAL)
    | None =>
      e ← ext4_falloc;
      match e with
      | None => mret (- ENOMEM)
      | Some e =>
        r ← lw_fopen2 lw e path flags;
        if negb (r =? EOK) then recycle_efile (Some e);; mret (- r)
        else
          upd_file f (set_fprivate (efile_addr e));;
          sync_pos f e;;
          vfopen_type f (Some e) path r
      end
    end.

Definition ext4_vfclose (f : nat) : E kstate Z :=
  efp ← private_file f;
  match efp with
  | None => mret EINVAL
  | Some e =>
    r ← ext4_fclose e;
    if negb (r =? EOK) then mret r
    else
      recycle_efile (Some e);;
      upd_file f (set_fprivate 0);;
      mret r
  end.

(** ** stat *)

(** struct kstat, 120 bytes: a field at [a] takes [n] bytes. *)
Definition put (a : Z) (n : nat) (v : Z) : E kstate unit := on_mach (upd_mem (fun m => store m a n v)).

(** An unsigned division; the divuw of RISC-V answers all ones for a zero
    divisor. *)
Definition divu32 (a b : Z) : Z := if b =? 0 then 2 ^ 32 - 1 else a / b.

Definition ext4_vstat (path : string) (st : Z) : E kstate Z :=
  a ← lw_raw_inode_fill lw path;
  let '(r, ino, inode) := (a : Z * Z * ext4_inode) in
  if negb (r =? EOK) then mret r
  else
    b ← lw_get_sblock lw path;
    let '(r, sb) := (b : Z * ext4_sblock) in
    if negb (r =? EOK) then mret r
    else
      put st 8 (ext4_inode_get_dev inode);;
      put (st + 8) 8 ino;;
      put (st + 16) 4 (ext4_inode_get_mode sb inode);;
      put (st + 20) 4 (ei_links_count inode);;
      put (st + 24) 4 (ei_uid inode);;
      put (st + 28) 4 (ei_gid inode);;
      put (st + 32) 4 0;;
      put (st + 40) 8 (ei_size_lo inode);;
      put (st + 48) 8 (divu32 (ei_size_lo inode) (ei_blocks_count_lo inode));;
      put (st + 64) 8 (ei_blocks_count_lo inode);;
      on_mach (upd_mem (fun m => memset m (st + 72) 0 48));;
      c ← lw_mount_point_stats lw path;
      let '(r, block_size) := (c : Z * Z) in
      (if r =? 0 then
         put (st + 48) 8 block_size;;
         put (st + 64) 8 (Z.quot (ei_size_lo inode + block_size) block_size)
       else mret tt);;
      mret r.

Definition ext4_vfstat (f : nat) (st : Z) : E kstate Z :=
  efp ← private_file f;
  match efp with
  | None => panic "can't get file"
  | Some e =>
    a ← lw_get_inode_ref lw e;
    let '(r, index, inode) := (a : Z * Z * ext4_inode) in
    if negb (r =? EOK) then mret r
    else
      x ← get_efile e;
      put st 8 0;;
      put (st + 8) 8 index;;
      put (st + 16) 4 (ei_mode inode);;
      put (st + 20) 4 (ei_size_lo inode);;
      put (st + 24) 4 0;;
      put (st + 28) 4 0;;
      put (st + 32) 4 0;;
      put (st + 40) 8 (ef_fsize x);;
      put (st + 48) 8 (divu32 (ei_size_lo inode) (ei_blocks_count_lo inode));;
      put (st + 64) 8 (ei_blocks_count_lo inode);;
      put (st + 72) 8 (ei_access_time inode);;
      put (st + 104) 8 (ei_change_inode_time inode);;
      put (st + 88) 8 (ei_modification_time inode);;
      mret EOK
  end.

(** ** Nodes, directories, links *)

Definition S_IFMT : Z := 0xF000.

Definition mode2ext4type (mode : Z) : Z :=
  let t := Z.land mode S_IFMT in
  if t =? 0x8000 then EXT4_DE_REG_FILE
  else if t =? 0x4000 then EXT4_DE_DIR
  else if t =? 0x2000 then EXT4_DE_CHRDEV
  else if t =? 0x6000 then EXT4_DE_BLKDEV
  else if t =? 0x1000 then EXT4_DE_FIFO
  else if t =? 0xC000 then EXT4_DE_SOCK
  else if t =? 0xA000 then EXT4_DE_SYMLINK
  else EXT4_DE_UNKNOWN.

Definition ext4_vmknod (path : string) (mode dev : Z) : E kstate Z :=
  let filetype := mode2ext4type mode in
  if filetype =? EXT4_DE_UNKNOWN then mret (- EINVAL)
  else
    r ← lw_mknod lw path filetype dev;
    mret (if negb (r =? EOK) then - EINVAL else EOK).

Definition ext4_vmkdir (path : string) (mode : Z) : E kstate Z :=
  r ← lw_dir_mk lw path;
  if negb (r =? EOK) then mret r else lw_mode_set lw path mode.

Definition ext4_visdir (path : string) : E kstate Z :=
  r ← lw_dir_open lw DirLocal path;
  if negb (r =? EOK) then mret 0
  else
    r ← lw_dir_close lw DirLocal;
    mret (if negb (r =? EOK) then 0 else 1).

Definition ext4_vlink (oldpath newpath : string) (flags : Z) : E kstate Z :=
  r ← lw_flink lw oldpath newpath;
  mret (if negb (r =? EOK) then -1 else r).

(** A directory is opened twice and not closed. *)
Definition ext4_vunlink (path : string) (flags : Z) : E kstate Z :=
  r ← lw_dir_open lw DirLocal path;
  if negb (r =? EOK) then
    r ← lw_fremove lw path;
    mret (if negb (r =? EOK) then -1 else EOK)
  else
    r ← lw_dir_open lw DirLocal path;
    if negb (r =? EOK) then mret (-1)
    else
      r ← lw_dir_rm lw path;
      mret (if negb (r =? EOK) then -1 else EOK).

Definition R_OK : Z := 4.
Definition W_OK : Z := 2.
Definition X_OK : Z := 1.
Definition S_IRUSR : Z := 0x100.
Definition S_IWUSR : Z := 0x80.
Definition S_IXUSR : Z := 0x40.

Definition ext4_vfaccess (path : string) (amode flags : Z) : E kstate Z :=
  a ← lw_raw_inode_fill lw path;
  let '(r, _, inode) := (a : Z * Z * ext4_inode) in
  if negb (r =? EOK) then mret (-1)
  else
    b ← lw_get_sblock lw path;
    let '(r, sb) := (b : Z * ext4_sblock) in
    if negb (r =? EOK) then mret (-1)
    else
      let m := ext4_inode_get_mode sb inode in
      if has_bits amode R_OK && negb (has_bits m S_IRUSR) then mret (-1)
      else if has_bits amode W_OK && negb (has_bits m S_IWUSR) then mret (-1)
      else if has_bits amode X_OK && negb (has_bits m S_IXUSR) then mret (-1)
      else mret 0.

(** The time that times[k] asks for: None to leave it. *)
Definition time_of (m : mem) (ts : Z) (now : timespec) : option timespec :=
  let nsec := i64 (load64 m (ts + 8)) in
  if nsec =? UTIME_OMIT then None else if nsec =? UTIME_NOW then Some now else Some (load64 m ts, load64 m (ts + 8)).

Definition ext4_vutimens (path : string) (ts : option Z) : E kstate Z :=
  let now := TIME2TIMESPEC rtime in
  m ← gets (fun s => mmem (km s));
  let '(atime, mtime) := match ts with
                         | None => (Some now, Some now)
                         | Some a => (time_of m a now, time_of m (a + 16) now)
                         end in
  r ← match atime with Some t => lw_atime_set lw path (u32 t.1) | None => mret EOK end;
  if negb (r =? EOK) then mret (- r)
  else
    r ← match mtime with Some t => lw_mtime_set lw path (u32 t.1) | None => mret EOK end;
    mret (if negb (r =? EOK) then - r else EOK).

(** [ino] stays 0 when the inode is not found. *)
Definition ext4_vfile_exist (path : string) : E kstate Z :=
  a ← lw_raw_inode_fill lw path;
  let '(r, ino, _) := (a : Z * Z * ext4_inode) in
  if negb (r =? EOK) then mret (if negb (r =? ENOENT) then -1 else 0)
  else mret (if ino =? 0 then 0 else 1).

Definition ext4_vfrename (oldpath newpath : string) : E kstate Z :=
  r ← lw_frename lw oldpath newpath;
  mret (if negb (r =? EOK) then - r else r).

Definition ext4_vftruncate (f : nat) (length : Z) : E kstate Z :=
  efp ← private_file f;
  e ← deref efp;
  r ← lw_ftruncate lw e length;
  mret (if negb (r =? 0) then - r else 0).

(** ** Directory entries *)

Definition dirent_type (t : Z) : Z :=
  if t =? EXT4_DE_REG_FILE then 8 else if t =? EXT4_DE_DIR then 4 else if t =? EXT4_DE_CHRDEV then 2
  else if t =? EXT4_DE_BLKDEV then 6 else if t =? EXT4_DE_FIFO then 1 else if t =? EXT4_DE_SOCK then 12
  else if t =? EXT4_DE_SYMLINK then 10 else 0.

(** struct ext4_direntry: inode at 0, entry_length at 4, name_length at 6,
    inode_type at 7, name at 8; struct linux_dirent64: d_ino at 0, d_off at 8,
    d_reclen at 16, d_type at 18, d_name at 19, 24 bytes in all. *)
Definition entry_length (m : mem) (de : Z) : Z := load m (de + 4) 2.
Definition dirent_len (m : mem) (de : Z) : Z := 24 + m (de + 6) + 1.
Definition put_dirent (m : mem) (d de off : Z) : mem :=
  let len := m (de + 6) in
  let m1 := strncpy m (d + 19) (de + 8) len in
  let m1 := mset m1 (d + 19 + len) 0 in
  let m1 := store m1 (d + 16) 2 (dirent_len m de) in
  let m1 := store64 m1 d (load m de 4) in
  let m1 := store64 m1 (d + 8) off in
  mset m1 (d + 18) (dirent_type (m (de + 7))).

(** while(1): the kernel page [d] is reused for every entry; the page is not
    given back when an entry has length 0. *)
Fixpoint gentdents_loop (fuel : nat) (f : nat) (d u_dirp count off totlen : Z) : E kstate Z :=
  match fuel with
  | O => nofuel
  | S fuel =>
    a ← lw_dir_entry_next lw (DirOf f);
    let '(de, next_off) := (a : Z * Z) in
    m ← gets (fun s => mmem (km s));
    if de =? 0 then on_mach (kfree kend d);; mret totlen
    else if entry_length m de <=? 0 then mret (-1)
    else
      let reclen := dirent_len m de in
      if count <=? totlen + reclen then on_mach (kfree kend d);; mret totlen
      else
        on_mach (upd_mem (fun m => put_dirent m d de off));;
        pt ← my_pagetable;
        c ← on_mach (copyout pt u_dirp d reclen);
        if negb (c =? EOK) then on_mach (kfree kend d);; mret totlen
        else gentdents_loop fuel f d (u64 (u_dirp + reclen)) count next_off (totlen + reclen)
  end.

(** One entry at least takes 25 bytes of the buffer. *)
Definition ext4_temp_vgentdents (f : nat) (u_dirp count : Z) : E kstate Z :=
  let count := i32 count in
  if count <=? 0 then mret 0
  else
    x ← get_file f;
    if negb (bool_decide (ftype x = FD_DIR)) then mret 0
    else
      dirp ← on_mach kalloc;
      if dirp =? 0 then mret 0
      else gentdents_loop (S (Z.to_nat count)) f dirp u_dirp count 0 0.

(** ** Seeking, file system status, start *)

(** Past the end, SEEK_CUR writes [offset] bytes from a page of zeros. *)
Definition ext4_vlseek (f : nat) (offset whence : Z) : E kstate Z :=
  efp ← private_file f;
  match efp with
  | None => mret (-1)
  | Some e =>
    let offset := if (whence =? SEEK_END) && (offset <? 0) then i64 (- offset) else offset in
    x ← get_file f;
    y ← get_efile e;
    let out : E kstate Z := y ← get_efile e; upd_file f (set_fpos (ef_fpos y));; mret (i64 (ef_fpos y)) in
    if (whence =? SEEK_CUR) && (ef_fsize y <? u64 (fpos x + offset)) then
      if offset =? 0 then out
      else
        kbuf ← on_mach (kmalloc PGSIZE);
        if kbuf =? 0 then mret (-1)
        else
          on_mach (upd_mem (fun m => memset m kbuf 0 PGSIZE));;
          filewrite f false kbuf (u64 offset) (i64 (fpos x));;
          on_mach (kfree kend kbuf);;
          out
    else
      r ← ext4_fseek e offset whence;
      if negb (r =? EOK) then mret (- r) else out
  end.

(** struct statfs, 120 bytes; [root] is fs->path. *)
Definition ext4_vstatfs (root : string) (buf : Z) : E kstate Z :=
  b ← lw_get_sblock lw root;
  let '(r, sb) := (b : Z * ext4_sblock) in
  if negb (r =? EOK) then mret r
  else
    put (buf + 8) 8 (es_block_size sb);;
    put (buf + 16) 8 (es_blocks_cnt sb);;
    put (buf + 24) 8 (es_free_blocks_cnt sb);;
    put buf 8 (es_magic sb);;
    put (buf + 40) 8 (es_inodes_count sb);;
    put (buf + 48) 8 (es_free_inodes_count sb);;
    put (buf + 72) 8 (es_block_size sb);;
    put (buf + 32) 8 (es_free_inodes_count sb);;
    put (buf + 56) 4 2;;
    put (buf + 80) 8 0;;
    put (buf + 64) 8 32;;
    mret r.

Definition ext4_init : E kstate Z :=
  r ← lw_device_register lw;
  if negb (r =? EOK) then mret (-1)
  else
    r ← lw_mount lw "/"%string;
    if negb (r =? EOK) then mret (-1)
    else
      r ← lw_recover lw "/"%string;
      if negb (r =? EOK) && negb (r =? ENOTSUP) then mret (-1)
      else
        r ← lw_journal_start lw "/"%string;
        if negb (r =? EOK) then mret (-1)
        else
          r ← lw_cache_write_back lw "/"%string;
          if negb (r =? EOK) then mret (-1) else mret 0.

(** ** ext4_file_ops and ext4_fs_ops *)

Definition path_at (a : Z) : E kstate string := gets (fun s => get_string (mmem (km s)) a lim).

Definition ext4_file_ops : fs_ops :=
  FsOps (fun f => ext4_vfclose f;; mret tt) (fun f => ext4_vcleansf f;; mret tt) (fun path => ext4_vunlink path 0;; mret tt)
    (fun f user dst off n => ext4_vfread f user dst off n 0) (fun f user src off n => ext4_vwrite f user src off n 0).

Definition ext4_fs_ops : vfs_ops :=
  VfsOps (Some (fun f p flags => p ← path_at p; ext4_vfopen f p flags))
    (Some (fun old new flags => o ← path_at old; n ← path_at new; ext4_vlink o n flags))
    (Some (fun p flags => p ← path_at p; ext4_vunlink p flags))
    (Some (fun p mode => p ← path_at p; ext4_vmkdir p mode))
    (Some (fun p mode dev => p ← path_at p; ext4_vmknod p mode dev))
    (Some (fun p => p ← path_at p; ext4_visdir p))
    (Some (fun p st => p ← path_at p; ext4_vstat p st))
    (Some (fun p amode flags => p ← path_at p; ext4_vfaccess p amode flags))
    (Some (fun p ts => p ← path_at p; ext4_vutimens p ts))
    (Some (fun buf => ext4_vstatfs "/"%string buf))
    (Some (fun old new => o ← path_at old; n ← path_at new; ext4_vfrename o n)).
End Ops.
