(* ===== verification/OpenSpec.v ===== *)
(** * Opening a file

    generic_open on the table of descriptors: it takes the lowest free
    descriptor for a free entry of the table of files, and gives both back when
    the file system cannot open the path.  What it needs of the file system is
    the class [opens_files]. *)
From Stdlib Require Import String.
From S2P Require Import Prelude Mem CString KTypes Kalloc ListHead KState Queue Sched Signal Thread ThreadInv SchedSpec ProcBase Pipe File Mmap Proc Fd FdSpec FdFiles Exec SysPath.

(** ** Frames *)

Lemma wp_and_done {S A} (m : E S A) (Q P : A -> S -> Prop) s :
  wp m Q s -> (forall a s', m s = Done a s' -> P a s') -> wp m (fun a s' => Q a s' /\ P a s') s.
Proof. unfold wp. destruct (m s); naive_solver. Qed.

(** A routine that changes processes only, and nothing when it fails. *)
Definition only_procs {A} (fails : A -> Prop) (m : E kstate A) : Prop :=
  forall s a s', m s = Done a s' -> (fails a -> s' = s) /\ exists ps, s' = set_procs ps s.

Lemma set_procs_procs s : set_procs (procs s) s = s.
Proof. by destruct s. Qed.

Lemma for_table_procs n i (body : nat -> E kstate (option Z)) :
  (forall k, only_procs (fun r => r = None) (body k)) -> only_procs (fun r => r = None) (for_table n i body).
Proof.
  intros Hb. revert i. induction n as [|n IH]; intros i s a s'; cbn [for_table].
  - intros [= <- <-]. split; [done|]. exists (procs s). by rewrite set_procs_procs.
  - unfold mbind, E_bind. destruct (body i s) as [r s1|?|?|] eqn:E; try done. destruct (Hb i s r s1 E) as [H1 (ps & ->)].
    destruct r as [r|]; [intros [= <- <-]; by split; [|exists ps]|]. intros H. specialize (H1 eq_refl). rewrite H1 in H.
    by destruct (IH (S i) s a s' H).
Qed.

Lemma fdalloc_procs f : only_procs (fun fd => fd < 0) (fdalloc f).
Proof.
  intros s a s'. unfold fdalloc, mbind, E_bind. destruct (myproc s) as [p s1|?|?|] eqn:E; try done.
  assert (s1 = s) as ->.
  { revert E. unfold myproc, mythread, mbind, E_bind, gets, deref. destruct (cur s) as [t|]; [|done]. cbn. destruct (tproc (tcbs s t)) as [q|]; [|done]. cbn. by intros [= _ <-]. }
  cbn [gets]. destruct (is_exc_rcfile p s).
  { intros [= <- <-]. split; [done|]. exists (procs s). by rewrite set_procs_procs. }
  destruct (fd_take p f 0 s) as [r s2|?|?|] eqn:E2; try done. intros [= <- <-].
  assert (only_procs (fun r => r = None) (fd_take p f 0)) as Hf.
  { apply for_table_procs. intros k t r2 t'. unfold get_ofile, mbind, E_bind, get_proc, gets.
    destruct (ofile (procs t p) !! Z.to_nat (Z.of_nat k)) as [[g|]|]; cbn; try done.
    - intros [= <- <-]. split; [done|]. exists (procs t). by rewrite set_procs_procs.
    - intros [= <- <-]. split; [done|]. eexists. by destruct t. }
  destruct (Hf s r s2 E2) as [H1 H2]. split; [|done]. destruct r as [r|]; [|intros _; by apply H1].
  intros Hn. exfalso. cbn in Hn. clear - E2 Hn.
  assert (forall n i t, for_table n i (fun i => x ← get_ofile p (Z.of_nat i);
    match x with Some _ => mret None | None => set_fd p (Z.of_nat i) (Some f);; ofile_inc p;; mret (Some (Z.of_nat i)) end) t = Done (Some r) s2 -> 0 <= r) as H.
  { induction n as [|n IH]; intros i t; cbn [for_table]; [done|]. unfold mbind, E_bind, get_ofile, get_proc, gets, mbind, E_bind.
    destruct (ofile (procs t p) !! Z.to_nat (Z.of_nat i)) as [[g|]|]; cbn; try done; [apply IH|]. intros [= <- _]. lia. }
  apply H in E2. lia.
Qed.

(** ** Changes of one open file *)

(** [s'] has another entry [f] in the table of files, and may differ in the
    tables and the disk of the file systems. *)
Record touched (f : nat) (s s' : kstate) : Prop := {
  to_km : km s' = km s;
  to_lh : lh s' = lh s;
  to_queues : queues s' = queues s;
  to_tcbs : tcbs s' = tcbs s;
  to_procs : procs s' = procs s;
  to_cur : cur s' = cur s;
  to_pipes : pipes s' = pipes s;
  to_files : forall j, j <> f -> files s' j = files s j;
}.

Lemma touched_trans f s1 s2 s3 : touched f s1 s2 -> touched f s2 s3 -> touched f s1 s3.
Proof. intros [] []. split; try congruence. intros j Hj. rewrite to_files1, to_files0; done. Qed.

Lemma touched_set_file f x s : touched f s (set_file f x s).
Proof. split; try done. intros j Hj. unfold set_file. cbn [files set_files]. by rewrite fn_lookup_insert_ne. Qed.

(** A change of the entry alone. *)
Definition edited (f : nat) (s s' : kstate) : Prop := touched f s s' /\ ftabs s' = ftabs s.

Lemma edited_trans f s1 s2 s3 : edited f s1 s2 -> edited f s2 s3 -> edited f s1 s3.
Proof. intros [H1 E1] [H2 E2]. split; [by eapply touched_trans|congruence]. Qed.

Lemma wp_upd_file f g (Q : unit -> kstate -> Prop) s :
  (forall s', edited f s s' -> files s' f = g (files s f) -> Q tt s') -> wp (upd_file f g) Q s.
Proof.
  intros HQ. apply wp_modify, HQ; [by split; [apply touched_set_file|]|]. cbn [files set_files]. apply fn_lookup_insert.
Qed.

(** What generic_open needs of the open operation of a file system, on an entry
    as filealloc hands it out: it returns, and of the kernel it changes that
    entry at most, whose count, flags and path it keeps, and which it does not
    make a pipe; [I] is the invariant of the file system. *)
Record opened_on (f : nat) (s s' : kstate) : Prop := {
  oo_touched : touched f s s';
  oo_ref : fref (files s' f) = fref (files s f);
  oo_flags : fflags (files s' f) = fflags (files s f);
  oo_path : fpath (files s' f) = fpath (files s f);
  oo_type : ftype (files s' f) <> FD_PIPE;
}.

Class opens_files (op : nat -> Z -> Z -> E kstate Z) (I : kstate -> Prop) : Prop :=
  opens : forall f pth flags s, I s -> held (km s) = [] -> ftype (files s f) = FD_NONE -> fprivate (files s f) = 0 ->
    wp (op f pth flags) (fun _ s' => opened_on f s s' /\ I s') s.

(** The flags of a file opened with [flags] and the mode [omode]. *)
Definition open_flags (flags omode : Z) : Z :=
  let fl := if has_bits omode O_WRONLY then flags else SET_READABLE flags in
  if has_bits omode O_WRONLY || has_bits omode O_RDWR then SET_WRITABLE fl else fl.

Lemma wp_set_omode f omode (Q : unit -> kstate -> Prop) s :
  (forall s', edited f s s' -> files s' f = set_fflags (open_flags (fflags (files s f)) omode) (files s f) -> Q tt s') ->
  wp (set_omode f omode) Q s.
Proof.
  intros HQ. unfold set_omode. unfold open_flags in HQ.
  assert (Hsame : forall x, set_fflags (fflags x) x = x) by by intros [].
  destruct (has_bits omode O_WRONLY); cbn [orb] in *; apply wp_bind.
  - apply wp_ret, wp_upd_file. by intros s' Ht Hf; apply HQ.
  - apply wp_upd_file. intros s1 Ht Hf. destruct (has_bits omode O_RDWR).
    + apply wp_upd_file. intros s2 Ht2 Hf2. apply HQ; [by eapply edited_trans|]. by rewrite Hf2, Hf.
    + by apply wp_ret, HQ.
Qed.

(** ** Keeping the table *)

Lemma pipes_ok_sub kend fs fs' ps l :
  (forall g, 1 <= fref (fs' g) -> ftype (fs' g) = FD_PIPE -> fs' g = fs g) -> pipes_ok kend fs ps l -> pipes_ok kend fs' ps l.
Proof.
  intros Hs [Ho He]. split.
  - intros f Hr Ht. pose proof (Hs f Hr Ht) as E. rewrite E in *. by apply Ho.
  - intros f g Hne Hf Hg Htf Htg. pose proof (Hs f Hf Htf) as E1. pose proof (Hs g Hg Htg) as E2. rewrite E1, E2 in *. by apply He.
Qed.

Section Open.
Context (kend : Z) (ext4 : fs_ops) (I : kstate -> Prop).
Hypotheses (kend_pos : 0 < kend) (Hclose : fs_closes ext4 I).
Context (p : nat) (lim : Z).
#[local] Existing Instance files_layer.
Abbreviation J := (files_ok kend I).

Lemma touched_ok f s s' : J s -> touched f s s' -> I s' -> fref (files s' f) < 1 \/ ftype (files s' f) <> FD_PIPE -> J s'.
Proof.
  intros (Hh & l & Hk & (tq & Hs) & Hp & _) [Ek El Eq Et Ep Ec Epi Ef] HI Hf. split; [by rewrite Ek|]. exists l. split; [by rewrite Ek|].
  split; [exists tq; by eapply sched_inv_fields|]. split; [|done]. rewrite Epi. eapply pipes_ok_sub; [|exact Hp]. cbn beta. intros g Hg Ht.
  apply Ef. intros ->. destruct Hf; [lia|done].
Qed.

Lemma seen_touched T c rf f s s' :
  seen J p lim T c rf s -> touched f s s' -> I s' -> ftype (files s' f) <> FD_PIPE -> seen J p lim T c (<[f := fref (files s' f)]> rf) s'.
Proof.
  intros [H1 H2 H3 H4 H5 H6] Ht HI Hty. split; [by eapply touched_ok; [..|right]|..]; try by rewrite (to_procs _ _ _ Ht).
  - destruct H2 as (t & Hc & Hp). exists t. by rewrite (to_cur _ _ _ Ht), (to_tcbs _ _ _ Ht).
  - intros g. destruct (decide (g = f)) as [->|Hne]; [by rewrite fn_lookup_insert|by rewrite fn_lookup_insert_ne, (to_files _ _ _ Ht)].
Qed.

Lemma seen_I T c rf s : seen J p lim T c rf s -> I s.
Proof. intros Hs. by destruct (sn_layer _ _ _ _ _ _ _ Hs) as (_ & l & _ & _ & _ & HI). Qed.

(** A change of the entry alone that keeps its private data. *)
Lemma edited_I f s s' : I s -> edited f s s' -> fprivate (files s' f) = fprivate (files s f) -> I s'.
Proof.
  intros HI [Ht Hft] Hp. eapply (fc_same ext4 I Hclose); [exact HI|done|]. intros g.
  destruct (decide (g = f)) as [->|Hne]; [done|by rewrite (to_files _ _ _ Ht)].
Qed.

Context (oth : nat -> Z) (slim : nat) (vops : nat -> vfs_ops) (dso dso_lib : Z).

(** A free entry has no type and no private data: fileclose clears them. *)
Definition slots_clear (s : kstate) : Prop := ftable_ok s /\ forall f, fref (files s f) = 0 -> fprivate (files s f) = 0.

(** The first free entry of the table of files. *)
Definition free_slot (s : kstate) (f : nat) : Prop :=
  Z.of_nat f < NFILE /\ fref (files s f) = 0 /\ forall j, (j < f)%nat -> fref (files s j) <> 0.

(** What open answers on the table [T]: [-1] without a free entry, the error of
    the descriptor table, a refusal of the file system, all with the table as it
    was; or the lowest free descriptor, for the new file. *)
Definition open_result (T : fdtable) (flags omode v : Z) (s s' : kstate) : Prop :=
  (v = -1 /\ (forall j, Z.of_nat j < NFILE -> fref (files s j) <> 0) /\ fd_inv J p lim oth T s') \/
  exists f, free_slot s f /\ let r := take_fd lim T f 0 (- EMFILE) in
    (r.1 < 0 /\ v = r.1 \/ 0 <= r.1 /\ v < 0) /\ fd_inv J p lim oth T s' \/
    0 <= r.1 /\ v = r.1 /\ fd_inv J p lim oth r.2 s' /\ fflags (files s' f) = open_flags flags omode.

Lemma take_fd_cases T f : length T = Z.to_nat NOFILE ->
  take_fd lim T f 0 (- EMFILE) = (- EMFILE, T) \/
  exists k, T !! k = Some None /\ take_fd lim T f 0 (- EMFILE) = (Z.of_nat k, <[k := Some f]> T).
Proof.
  intros Hl. unfold take_fd. destruct (_ || _); [by left|]. destruct (first_free T (Z.to_nat 0)) as [k|] eqn:Hf; [|by left].
  right. exists k. split; [by eapply first_free_slot|done].
Qed.

(** A new reference for the free entry [f], and its descriptor. *)
Lemma occ_free T f s : fd_inv J p lim oth T s -> fref (files s f) = 0 -> oth f = 0 /\ occ f T = 0.
Proof.
  intros [Hs Hl Ho] H0. rewrite (sn_refs _ _ _ _ _ _ _ Hs) in H0. specialize (Ho f). pose proof (occ_range f T Hl). lia.
Qed.

Lemma fd_inv_taken T f k s s' :
  fd_inv J p lim oth T s -> fref (files s f) = 0 -> T !! k = Some None ->
  seen J p lim (<[k := Some f]> T) (used T + 1) (<[f := 1]> (fun g => oth g + occ g T)) s' -> fd_inv J p lim oth (<[k := Some f]> T) s'.
Proof.
  intros Hi H0 Hk Hs. pose proof (occ_free _ _ _ Hi H0) as [Hof Hoc]. destruct Hi as [_ Hl Ho].
  split; [rewrite used_take by done; eapply seen_ext; [|exact Hs]|by rewrite length_insert|done].
  intros g. cbn beta. rewrite (occ_insert _ _ _ _ _ Hk), (decide_False (P := None = Some g)) by done.
  destruct (decide (g = f)) as [->|Hne]; [rewrite fn_lookup_insert, decide_True by done; lia|].
  rewrite fn_lookup_insert_ne, decide_False by congruence. lia.
Qed.

(** Giving back the entry of a file that got no descriptor. *)
Lemma wp_drop_new T f (Q : unit -> kstate -> Prop) s :
  fd_inv J p lim oth T s -> slots_clear s -> free_slot s f -> (forall s', fd_inv J p lim oth T s' -> Q tt s') ->
  wp (fileclose kend (Some ext4) f false) Q (set_file f (opened (files s f)) s).
Proof.
  intros Hi [Hty Hpz] (_ & H0 & _) HQ. pose proof Hi as [[HJ Hrun HT Hc Hlim Hr] Hl Ho]. pose proof (used_range T Hl).
  pose proof HJ as (Hh & _). eapply wp_mono; [apply (wp_close_new kend ext4 p f s)|].
  - rewrite Hh. apply not_elem_of_nil.
  - done.
  - lia.
  - done.
  - by apply Hty.
  - apply same_refs_refl.
  - apply fn_lookup_insert.
  - cbn beta. intros [] s' ([Hs' Hrefs] & Hj & Hp'). apply HQ.
    assert (Ht : touched f s s').
    { split; [apply (f_equal km) in Hs'|apply (f_equal lh) in Hs'|apply (f_equal queues) in Hs'|apply (f_equal tcbs) in Hs'|
        apply (f_equal procs) in Hs'|apply (f_equal cur) in Hs'|apply (f_equal pipes) in Hs'|]; try exact Hs'.
      intros j Hne. rewrite (Hj j Hne). unfold set_file. cbn [files set_files]. by rewrite fn_lookup_insert_ne. }
    split; [|done|done]. split; try by rewrite (to_procs _ _ _ Ht).
    + eapply touched_ok; [done|exact Ht| |left; rewrite Hrefs; lia]. eapply (edited_I f s); [by eapply seen_I; apply Hi|split; [done|]|rewrite Hp'; symmetry; by apply Hpz].
      by apply (f_equal ftabs) in Hs'.
    + destruct Hrun as (t & Hct & Htp). exists t. by rewrite (to_cur _ _ _ Ht), (to_tcbs _ _ _ Ht).
    + intros g. by rewrite Hrefs, Hr.
Qed.

(** A refused open: the file is closed, which takes it from the count of
    descriptors, and its descriptor freed. *)
Lemma wp_undo_open T f k r (Q : Z -> kstate -> Prop) s s0 :
  fd_inv J p lim oth T s0 -> fref (files s0 f) = 0 -> T !! k = Some None ->
  seen J p lim (<[k := Some f]> T) (used T + 1) (<[f := 1]> (fun g => oth g + occ g T)) s ->
  (forall s', fd_inv J p lim oth T s' -> Q r s') ->
  wp (fileclose kend (Some ext4) f true;; me ← myproc; set_fd me (Z.of_nat k) None;; mret r) Q s.
Proof.
  intros Hi H0 Hk Hs HQ. pose proof (occ_free _ _ _ Hi H0) as [Hof Hoc]. destruct Hi as [_ Hl Ho]. pose proof (used_range T Hl). unfold NOFILE in *.
  apply wp_bind. eapply (wp_close_file kend (Some ext4) J (FL := files_layer kend ext4 I kend_pos Hclose)); [exact Hs|lia|rewrite fn_lookup_insert; lia|].
  intros s1 Hs1. apply wp_bind. eapply wp_myproc; [apply Hs1|]. apply wp_bind.
  eapply (wp_set_fd kend (Some ext4) J (FL := files_layer kend ext4 I kend_pos Hclose)); [exact Hs1|]. intros s2 Hs2. apply wp_ret, HQ.
  rewrite Nat2Z.id, list_insert_insert_eq, list_insert_id in Hs2 by done. split; [|done|done].
  replace (used T + 1 - 1) with (used T) in Hs2 by lia. eapply seen_ext; [|exact Hs2]. intros g. cbn beta.
  destruct (decide (g = f)) as [->|Hne]; [rewrite !fn_lookup_insert; lia|by rewrite !fn_lookup_insert_ne].
Qed.

(** The part of generic_open after the descriptor was taken. *)
Lemma wp_open_taken T f k op n pth flags omode (Q : Z -> kstate -> Prop) s s0 :
  fd_inv J p lim oth T s0 -> fref (files s0 f) = 0 -> T !! k = Some None -> op_open (vops n) = Some op -> opens_files op I ->
  seen J p lim (<[k := Some f]> T) (used T + 1) (<[f := 1]> (fun g => oth g + occ g T)) s ->
  ftype (files s f) = FD_NONE -> fprivate (files s f) = 0 -> fflags (files s f) = 0 ->
  (forall r s', r < 0 -> fd_inv J p lim oth T s' -> Q r s') ->
  (forall s', fd_inv J p lim oth (<[k := Some f]> T) s' -> fflags (files s' f) = open_flags flags omode -> Q (Z.of_nat k) s') ->
  wp (upd_file f (fun x => set_fflags (Z.lor (fflags x) flags) x);;
      set_omode f omode;;
      m ← gets (fun s => mmem (km s));
      let p := if bool_decide (strcmp slim m pth dso = Some 0) then dso_lib else pth in
      upd_file f (fun x => set_fpath (get_string m p slim) x);;
      r ← op f p flags;
      if r <? 0 then fileclose kend (Some ext4) f true;; me ← myproc; set_fd me (Z.of_nat k) None;; mret r
      else mret (Z.of_nat k)) Q s.
Proof.
  intros Hi H0 Hk Hop Hopens Hs Hty Hpr Hfl Hbad Hok. apply wp_bind, wp_upd_file. intros s1 Ht1 Hf1.
  apply wp_bind, wp_set_omode. intros s2 Ht2 Hf2. apply wp_bind, wp_gets. cbn zeta. apply wp_bind, wp_upd_file. intros s3 Ht3 Hf3.
  assert (Hd : edited f s s3) by (eapply edited_trans; [|done]; by eapply edited_trans). clear Ht1 Ht2 Ht3.
  rewrite Hf2, Hf1 in Hf3. pose proof Hd as [Ht _]. pose proof (sn_layer _ _ _ _ _ _ _ Hs) as [Hh _].
  assert (Href : fref (files s f) = 1) by (rewrite (sn_refs _ _ _ _ _ _ _ Hs); apply fn_lookup_insert).
  eapply wp_call; [apply (opens (I := I)); rewrite ?Hf3; cbn; [|by rewrite (to_km _ _ _ Ht)|done|done]|].
  { eapply edited_I; [by eapply seen_I|exact Hd|by rewrite Hf3]. }
  cbn beta. intros r s4 [[Ht4 Hr4 Hf4 _ Hty4] HI4]. rewrite Hf3 in Hr4, Hf4. cbn in Hr4, Hf4. rewrite Hfl in Hf4. cbn [Z.lor] in Hf4.
  assert (Hs4 : seen J p lim (<[k := Some f]> T) (used T + 1) (<[f := 1]> (fun g => oth g + occ g T)) s4).
  { eapply seen_ext; [|eapply seen_touched; [exact Hs|by eapply touched_trans|done|done]]. intros g. rewrite Hr4, Href.
    destruct (decide (g = f)) as [->|Hne]; [by rewrite !fn_lookup_insert|by rewrite !fn_lookup_insert_ne]. }
  destruct (Z.ltb_spec r 0).
  - eapply wp_undo_open; [done|done|done|exact Hs4|]. intros s' Hs'. by apply Hbad.
  - apply wp_ret, Hok; [|done]. by eapply fd_inv_taken.
Qed.

Lemma wp_open_file T op n pth flags omode s :
  op_open (vops n) = Some op -> opens_files op I -> fd_inv J p lim oth T s -> slots_clear s ->
  wp (open_file kend slim vops (Some ext4) dso dso_lib (Some n) pth flags omode) (fun v s' => open_result T flags omode v s s') s.
Proof.
  intros Hop Hopens Hi Hclr. pose proof Hclr as [Hft Hpz]. unfold open_file. pose proof Hi as [Hs Hl Ho]. pose proof (sn_layer _ _ _ _ _ _ _ Hs) as [Hh _].
  eapply wp_call; [apply wp_filealloc; rewrite Hh; apply not_elem_of_nil|]. cbn beta. intros [f|] s1; [|intros [Hfull ->]; apply wp_ret; by left].
  intros (Hn & H0 & Hj & ->). assert (Hslot : free_slot s f) by done. set (s1 := set_file f (opened (files s f)) s).
  assert (Hf1 : files s1 f = opened (files s f)) by apply fn_lookup_insert.
  assert (Hs1 : seen J p lim T (used T) (<[f := 1]> (fun g => oth g + occ g T)) s1).
  { pose proof (seen_touched T (used T) _ f s s1 Hs (touched_set_file _ _ _)) as H. rewrite Hf1 in H. apply H; [|cbn; by rewrite Hft].
    eapply (edited_I f s); [by eapply seen_I|by split; [apply touched_set_file|]|]. rewrite Hf1. cbn. symmetry. by apply Hpz. }
  eapply wp_call; [eapply wp_and_done; [|apply fdalloc_procs]; eapply (wp_fdalloc kend (Some ext4) J (FL := files_layer kend ext4 I kend_pos Hclose) p lim T _ f (fun v s' =>
    let r := take_fd lim T f 0 (- EMFILE) in v = r.1 /\ seen J p lim r.2 (used r.2) (<[f := 1]> (fun g => oth g + occ g T)) s')); [exact Hs1|done|done]|].
  cbn beta zeta. intros v s2 [[-> Hs2] [Hneg (ps & Hps)]]. destruct (take_fd_cases T f Hl) as [E|(k & Hk & E)]; rewrite E in *; cbn [fst snd] in *.
  - replace (- EMFILE <? 0) with true by done. rewrite Hneg by done. apply wp_bind. eapply wp_drop_new; [done|done|done|].
    intros s' Hs'. apply wp_ret. right. exists f. split; [done|]. cbn zeta. rewrite E. left. split; [|done]. by left.
  - rewrite (proj2 (Z.ltb_ge _ 0)) by lia. rewrite Hop. rewrite used_take in Hs2 by done.
    assert (Hf2 : files s2 f = opened (files s f)) by by rewrite Hps.
    eapply wp_open_taken; [done|done|done|done|done|exact Hs2|rewrite Hf2; by apply Hft|by rewrite Hf2|by rewrite Hf2|..].
    + intros r s' Hr Hs'. right. exists f. split; [done|]. cbn zeta. rewrite E. left. split; [|done]. right. cbn. lia.
    + intros s' Hs' Hfl. right. exists f. split; [done|]. cbn zeta. rewrite E. right. cbn. split_and!; [lia|done|done|done].
Qed.
End Open.
