(* ===== verification/Ext4Spec.v ===== *)
(** * ext4 behind the interfaces of the kernel

    Against what lwext4 promises of its operations, ext4_vfread is a read of the
    bytes of the file as floadseg needs it, ext4_vfopen an open as generic_open
    needs it, and the entries of the pool of struct ext4_file are handed out
    once each. *)
From Stdlib Require Import String.
From S2P Require Import Prelude Mem CString KTypes Kalloc Vm VmTree VmMap VmUser VmCopy ListHead KState Queue Sched Signal Thread ThreadInv SchedSpec ProcBase Pipe File Inode InodeSpec Fd FdSpec FdFiles SysProc Exec ExecSpec ExecStack SysPath Ext4fs OpenSpec.

Section Spec.
Context (kend : Z) (lw : lwext4) (pool_addr : Z) (lim : nat) (rtime : Z).

Definition entry (e : nat) (s : kstate) : ext4_file := mf_entry (ext4_fpool (ftabs s) e).

(** ** Reading *)

(** What lwext4 promises of the file open on entry [e], whose [len] bytes are
    [data]: a read from a position inside the file stores the bytes from there,
    as many as asked for and as there are, and advances the position. *)
Class lw_reads (e : nat) (data : mem) (len : Z) : Prop :=
  lw_read_spec : forall buf n rc s, ef_fsize (entry e s) = len -> 0 <= ef_fpos (entry e s) <= len -> 0 < n ->
    wp (lw_fread lw e buf n rc) (fun r s' =>
      r = (EOK, Z.min n (len - ef_fpos (entry e s))) /\ files s' = files s /\
      mmem (km s') = stored (mmem (km s)) buf data (ef_fpos (entry e s)) r.2 /\
      ef_fsize (entry e s') = len /\ ef_fpos (entry e s') = ef_fpos (entry e s) + r.2) s.

(** File [f] is open on entry [e]. *)
Definition open_on (f e : nat) (len : Z) (s : kstate) : Prop :=
  efile_at pool_addr (fprivate (files s f)) = Some e /\ ef_fsize (entry e s) = len.

Lemma wp_upd_efile e g (Q : unit -> kstate -> Prop) s :
  (forall s', files s' = files s -> km s' = km s -> entry e s' = g (entry e s) -> Q tt s') -> wp (upd_efile e g) Q s.
Proof.
  intros HQ. apply wp_modify, HQ; [done|done|]. unfold entry. cbn [ftabs set_ftabs ext4_fpool set_ext4_fpool]. by rewrite fn_lookup_insert.
Qed.

Lemma wp_get_efile e (Q : ext4_file -> kstate -> Prop) s : Q (entry e s) s -> wp (get_efile e) Q s.
Proof. intros HQ. unfold get_efile, get_mfile. by apply wp_bind, wp_gets, wp_ret. Qed.

Lemma wp_private f (Q : option nat -> kstate -> Prop) s : Q (efile_at pool_addr (fprivate (files s f))) s -> wp (private_file pool_addr f) Q s.
Proof. intros HQ. unfold private_file, get_file. by apply wp_bind, wp_gets, wp_ret. Qed.

(** ext4_vfread into kernel memory, of at most a page. *)
Lemma wp_vfread_kernel f e data len dst off n rc s :
  lw_reads e data len -> open_on f e len s -> 0 <= len -> 0 <= off < 2 ^ 63 -> 0 < n <= PGSIZE ->
  wp (ext4_vfread kend lw pool_addr f false dst off n rc) (fun r s' =>
    r = (EOK, Z.max 0 (Z.min n (len - off))) /\ mmem (km s') = stored (mmem (km s)) dst data off r.2 /\
    open_on f e len s' /\ (off <= len -> fpos (files s' f) = off + r.2)) s.
Proof.
  intros Hlw [Hpr Hsz] Hlen Ho Hn. unfold ext4_vfread. apply wp_bind, wp_private. rewrite Hpr. apply wp_bind, wp_get_efile.
  rewrite Hsz, wrap_small by lia. destruct (Z.ltb_spec len off).
  { apply wp_ret. rewrite Z.max_l by lia. split_and!; [done|done|done|lia]. }
  unfold ext4_fseek. apply wp_bind, wp_bind, wp_get_efile. cbn [Z.eqb SEEK_SET]. rewrite (proj2 (Z.ltb_ge off 0)) by lia.
  apply wp_bind, wp_upd_efile. intros s1 Hf1 Hk1 He1. apply wp_ret. rewrite Z.eqb_refl. cbn [negb].
  rewrite (proj2 (Z.leb_le n PGSIZE)) by lia. apply wp_bind, wp_ret. cbn [andb].
  assert (Hp1 : ef_fpos (entry e s1) = off) by by rewrite He1. assert (Hs1 : ef_fsize (entry e s1) = len) by by rewrite He1.
  eapply wp_call; [apply (lw_read_spec (len := len)); [done|lia|lia]|]. cbn beta. intros r s2 (-> & Hf2 & Hm2 & Hs2 & Hp2). cbn [snd] in *.
  rewrite Hp1 in *. rewrite Z.eqb_refl. cbn [negb]. unfold sync_pos. apply wp_bind, wp_bind, wp_get_efile. apply wp_modify.
  apply wp_ret. rewrite Z.max_r by lia. cbn [snd files set_files km]. rewrite fn_lookup_insert.
  split_and!; [done|by rewrite Hm2, Hk1| |by rewrite Hp2]. split; [|done]. cbn [files set_files]. rewrite fn_lookup_insert. cbn. by rewrite Hf2, Hf1.
Qed.

#[export] Instance ext4_file_reads f e data len :
  lw_reads e data len -> 0 <= len -> file_reads (ext4_file_ops kend lw pool_addr) f data len (open_on f e len).
Proof.
  intros Hlw Hlen dst off n s HI Ho Hn. eapply wp_mono; [apply (wp_vfread_kernel f e data len); (done || lia)|].
  cbn beta. intros r s' (-> & Hm & HI' & _). done.
Qed.

(** ** The pool of struct ext4_file *)

Abbreviation addr := (efile_addr pool_addr).
Hypothesis pool_pos : 0 <= pool_addr.

(** Private data [pv] of the open files and entries [P] of the pool: every file
    with private data has an entry to itself, with one reference and open in
    lwext4, and every other entry is free; [spare] is an entry in use that no file
    refers to yet. *)
Record pool_inv (spare : option nat) (pv : nat -> Z) (P : nat -> ext4_mfile) : Prop := {
  pl_file : forall f, pv f <> 0 -> exists e, pv f = addr e /\ mf_ref (P e) = 1 /\ ef_mp (mf_entry (P e)) <> 0;
  pl_entry : forall e, spare <> Some e -> mf_ref (P e) = 0 \/ exists f, pv f = addr e;
  pl_one : forall f g, pv f = pv g -> pv f <> 0 -> f = g;
  pl_spare : forall e, spare = Some e -> mf_ref (P e) = 1 /\ forall f, pv f <> addr e;
}.

Definition pool_at (spare : option nat) (s : kstate) : Prop := pool_inv spare (fun f => fprivate (files s f)) (ext4_fpool (ftabs s)).
Definition pool_ok : kstate -> Prop := pool_at None.

Lemma addr_pos e : 0 < addr e.
Proof. unfold efile_addr. lia. Qed.
Lemma addr_inj e e' : addr e = addr e' -> e = e'.
Proof. unfold efile_addr. lia. Qed.
Lemma efile_at_addr e : efile_at pool_addr (addr e) = Some e.
Proof.
  unfold efile_at. rewrite (proj2 (Z.eqb_neq _ 0)) by (pose proof (addr_pos e); lia). unfold efile_addr.
  replace (pool_addr + 40 * Z.of_nat e + 8 - 8 - pool_addr) with (Z.of_nat e * 40) by lia. by rewrite Z.div_mul, Nat2Z.id by done.
Qed.

Lemma pool_inv_ext o pv pv' P P' :
  (forall f, pv' f = pv f) -> (forall e, mf_ref (P' e) = mf_ref (P e)) -> (forall e, mf_ref (P e) = 1 -> o <> Some e -> mf_entry (P' e) = mf_entry (P e)) ->
  pool_inv o pv P -> pool_inv o pv' P'.
Proof.
  intros Hv Hr He [H1 H2 H3 H4]. split.
  - intros f. rewrite Hv. intros Hf. destruct (H1 f Hf) as (e & Ha & Hre & Hmp). exists e. rewrite Hr, He; [done|done|].
    intros ->. by destruct (H4 e eq_refl) as [_ Hn]; destruct (Hn f).
  - intros e Hne. rewrite Hr. destruct (H2 e Hne) as [|[f Hf]]; [by left|right; exists f; by rewrite Hv].
  - intros f g. rewrite !Hv. apply H3.
  - intros e ->. rewrite Hr. destruct (H4 e eq_refl) as [? Hn]. split; [done|]. intros f. by rewrite Hv.
Qed.

(** ext4_falloc takes a free entry, recycle_efile gives the spare one back. *)
Lemma pool_take pv P e x : pool_inv None pv P -> mf_ref (P e) = 0 -> mf_ref x = 1 -> pool_inv (Some e) pv (<[e := x]> P).
Proof.
  intros [H1 H2 H3 H4] H0 Hx. assert (Hn : forall f, pv f <> addr e).
  { intros f Hf. pose proof (addr_pos e). destruct (H1 f) as (e' & Ha & Hr & _); [lia|]. rewrite Hf in Ha. apply addr_inj in Ha as <-. lia. }
  split.
  - intros f Hf. destruct (H1 f Hf) as (e' & Ha & Hr & Hm). exists e'. by rewrite fn_lookup_insert_ne by (intros ->; by destruct (Hn f)).
  - intros e' Hne. rewrite fn_lookup_insert_ne by congruence. by apply H2.
  - done.
  - intros e' [= <-]. by rewrite fn_lookup_insert.
Qed.

Lemma pool_drop pv P e x : pool_inv (Some e) pv P -> mf_ref x = 0 -> pool_inv None pv (<[e := x]> P).
Proof.
  intros [H1 H2 H3 H4] Hx. destruct (H4 e eq_refl) as [_ Hn]. split; [|..|done|done].
  - intros f Hf. destruct (H1 f Hf) as (e' & Ha & Hr & Hm). exists e'. by rewrite fn_lookup_insert_ne by (intros ->; by destruct (Hn f)).
  - intros e' _. destruct (decide (e' = e)) as [->|Hne]; [left; by rewrite fn_lookup_insert|]. rewrite fn_lookup_insert_ne by done. apply H2. congruence.
Qed.

(** A file gets the spare entry, or gives its entry back. *)
Lemma pool_attach pv pv' P e f : pool_inv (Some e) pv P -> ef_mp (mf_entry (P e)) <> 0 -> pv f = 0 ->
  pv' f = addr e -> (forall g, g <> f -> pv' g = pv g) -> pool_inv None pv' P.
Proof.
  intros [H1 H2 H3 H4] Hmp H0 Hf Hg. destruct (H4 e eq_refl) as [Hr Hn]. pose proof (addr_pos e). split.
  - intros g. destruct (decide (g = f)) as [->|Hne]; [intros _; by exists e|]. rewrite Hg by done. apply H1.
  - intros e' _. destruct (decide (e' = e)) as [->|Hne]; [right; by exists f|]. destruct (H2 e') as [|[g Hg']]; [congruence|by left|right].
    exists g. rewrite Hg; [done|]. intros ->. pose proof (addr_pos e'). lia.
  - assert (Hx : forall g, g <> f -> pv' f <> pv' g) by (intros g Hne He; rewrite (Hg g Hne), Hf in He; by destruct (Hn g)).
    intros g h He Hz. destruct (decide (g = f)) as [->|Hgf], (decide (h = f)) as [->|Hhf]; [done|by destruct (Hx h)|by destruct (Hx g)|].
    rewrite !Hg in * by done. by apply H3.
  - done.
Qed.

Lemma pool_detach pv pv' P P' e f : pool_inv None pv P -> pv f = addr e -> pv' f = 0 -> (forall g, g <> f -> pv' g = pv g) ->
  mf_ref (P' e) = 0 -> (forall e', e' <> e -> P' e' = P e') -> pool_inv None pv' P'.
Proof.
  intros [H1 H2 H3 H4] Ha Hf Hg H0 HP. pose proof (addr_pos e) as Hpos.
  assert (Hother : forall g, pv' g <> 0 -> g <> f /\ pv g <> addr e).
  { intros g Hz. assert (g <> f) as Hne by by intros ->. split; [done|]. intros E. apply Hne, H3; [congruence|]. lia. }
  split; [|..|done].
  - intros g Hz. destruct (Hother g Hz) as [Hne Hna]. rewrite Hg in Hz |- * by done. destruct (H1 g Hz) as (e' & Hae & Hr). exists e'.
    by rewrite HP by congruence.
  - intros e' _. destruct (decide (e' = e)) as [->|Hne]; [by left|]. rewrite HP by done. destruct (H2 e' ltac:(done)) as [|[g Hge]]; [by left|right].
    exists g. rewrite Hg; [done|]. intros ->. apply Hne, addr_inj. congruence.
  - intros g h He Hz. pose proof (Hother g Hz) as [Hn1 _]. rewrite He in Hz. pose proof (Hother h Hz) as [Hn2 _].
    rewrite !Hg in * by done. apply H3; [done|congruence].
Qed.

Definition set_pool (e : nat) (x : ext4_mfile) (s : kstate) : kstate :=
  set_ftabs (set_ext4_fpool (<[e := x]> (ext4_fpool (ftabs s))) (ftabs s)) s.

Lemma km_restore_pool s h ft :
  set_km (set_held (held (km s)) (km (set_ftabs ft (set_km (set_held h (km s)) s)))) (set_ftabs ft (set_km (set_held h (km s)) s)) = set_ftabs ft s.
Proof. cbn [km set_ftabs set_km]. rewrite held_restore. by destruct s. Qed.

Lemma wp_falloc s : L_ext4_fpool ∉ held (km s) ->
  wp ext4_falloc (fun r s' =>
    match r with
    | Some e => mf_ref (ext4_fpool (ftabs s) e) = 0 /\ s' = set_pool e (Ext4Mfile 1 (entry e s)) s
    | None => (forall e, Z.of_nat e < NFILE -> mf_ref (ext4_fpool (ftabs s) e) <> 0) /\ s' = s
    end) s.
Proof.
  intros Hl. unfold ext4_falloc. apply wp_bind, wp_kacquire; [done|]. set (s1 := set_km _ s). apply wp_bind.
  apply (wp_for_table (fun k s2 => s2 = s1 /\ forall j, (j < k)%nat -> mf_ref (ext4_fpool (ftabs s) j) <> 0)).
  - intros k s2 Hk [-> Hj]. apply wp_bind, wp_gets. destruct (Z.eqb_spec (mf_ref (ext4_fpool (ftabs s1) k)) 0) as [H0|H0].
    + apply wp_bind, wp_modify, wp_ret, wp_bind. eapply wp_krelease; [done|done|]. apply wp_ret. split; [done|].
      rewrite H0. apply km_restore_pool.
    + apply wp_ret. split; [done|]. intros j Hjk. destruct (decide (j = k)) as [->|]; [done|]. apply Hj. lia.
  - intros s2 [-> Hj]. apply wp_bind. eapply wp_krelease; [done|done|]. apply wp_ret. split.
    + intros j Hn. apply Hj. unfold NFILE in *. lia.
    + apply km_restore.
  - split; [done|]. intros j Hn. lia.
Qed.

Lemma wp_recycle e (Q : Z -> kstate -> Prop) s : L_ext4_fpool ∉ held (km s) -> mf_ref (ext4_fpool (ftabs s) e) = 1 ->
  Q 0 (set_pool e mfile_zero s) -> wp (recycle_efile (Some e)) Q s.
Proof.
  intros Hl Hr HQ. unfold recycle_efile. apply wp_bind, wp_kacquire; [done|]. apply wp_bind, wp_modify. cbn [ftabs set_km]. rewrite Hr. cbn [Z.ltb Z.compare Z.sub Z.add Z.opp Z.pos_sub Z.eqb].
  apply wp_bind. eapply wp_krelease; [done|done|]. apply wp_ret. by rewrite km_restore_pool.
Qed.

(** ** What lwext4 promises of opening *)

(** [s'] differs from [s] inside lwext4 and in entry [o] of the pool at most. *)
Record lw_frame (o : option nat) (s s' : kstate) : Prop := {
  lf_touched : forall f, touched f s s';
  lf_files : files s' = files s;
  lf_ref : forall e, mf_ref (ext4_fpool (ftabs s') e) = mf_ref (ext4_fpool (ftabs s) e);
  lf_entry : forall e, o <> Some e -> entry e s' = entry e s;
}.

Lemma lw_pool o s s' : pool_at o s -> lw_frame o s s' -> pool_at o s'.
Proof.
  intros Hp [_ Hf Hr He]. eapply pool_inv_ext; [| | |exact Hp]; cbn beta.
  - intros f. by rewrite Hf.
  - done.
  - intros e _ Hne. by apply He.
Qed.

(** A mode that is not that of a FIFO. *)
Definition plain_mode (m : Z) : Prop := exists t, file_type (Z.land m 0xF000) = Some t /\ t <> FD_PIPE.

(** [there path]: the disk has a file or a directory at [path], which an open
    that succeeds shows; its inode can then be read. *)
Class lw_opens (there : string -> kstate -> Prop) : Prop := {
  lo_files : forall path s fs, there path s -> there path (set_files fs s);
  lo_dir : forall d path s, wp (lw_dir_open lw d path) (fun r s' => lw_frame None s s' /\ (r = EOK -> there path s')) s;
  lo_open : forall e path flags s, wp (lw_fopen2 lw e path flags) (fun r s' =>
    lw_frame (Some e) s s' /\ 0 <= r /\ (r = EOK -> there path s' /\ ef_mp (entry e s') <> 0)) s;
  lo_inode : forall path s, there path s -> wp (lw_raw_inode_fill lw path) (fun r s' =>
    lw_frame None s s' /\ there path s' /\ r.1.1 = EOK /\ plain_mode (ei_mode r.2)) s;
  lo_sblock : forall path s, there path s -> wp (lw_get_sblock lw path) (fun r s' => lw_frame None s s' /\ r.1 = EOK) s;
  lo_remove : forall path s, wp (lw_fremove lw path) (fun _ s' => lw_frame None s s') s;
  lo_rmdir : forall path s, wp (lw_dir_rm lw path) (fun _ s' => lw_frame None s s') s;
}.

Lemma inode_type_mode sb i : ext4_inode_type sb i = Z.land (ei_mode i) 0xF000.
Proof.
  unfold ext4_inode_type, ext4_inode_get_mode. case_match; [|done]. apply Z.bits_inj'. intros n Hn.
  rewrite !Z.land_spec, Z.lor_spec. destruct (Z.testbit 0xF000 n) eqn:E; [|by rewrite !andb_false_r].
  rewrite Z.shiftl_spec_low, orb_false_r; [done|]. destruct (Z.ltb_spec n 16); [done|]. exfalso.
  rewrite Z.bits_above_log2 in E; [done|done|]. change (Z.log2 0xF000) with 15. lia.
Qed.

Context (there : string -> kstate -> Prop) `{!lw_opens there}.

(** The file [f] got a type, and the pool stayed. *)
Record typed (f : nat) (s s' : kstate) : Prop := {
  ty_touched : touched f s s';
  ty_same : fref (files s' f) = fref (files s f) /\ fflags (files s' f) = fflags (files s f) /\
            fpath (files s' f) = fpath (files s f) /\ fprivate (files s' f) = fprivate (files s f);
  ty_type : ftype (files s' f) <> FD_PIPE;
  ty_pool : forall o, pool_at o s -> pool_at o s';
}.

Lemma wp_vfopen_type f efp path r (Q : Z -> kstate -> Prop) s :
  there path s -> (forall s', typed f s s' -> Q r s') -> wp (vfopen_type lw f efp path r) Q s.
Proof.
  intros Ht HQ. unfold vfopen_type. eapply wp_call; [by apply lo_inode|]. cbn beta. intros [[r1 ino] inode] s1 (Hf1 & Ht1 & E1 & t & Hty & Hnp).
  cbn [fst snd] in *. subst r1. cbn [Z.eqb EOK negb]. eapply wp_call; [by apply lo_sblock|]. cbn beta. intros [r2 sb] s2 (Hf2 & E2). cbn [fst] in E2. subst r2.
  cbn [Z.eqb EOK negb]. rewrite inode_type_mode, Hty.
  assert (Htch : touched f s s2) by (eapply touched_trans; [apply Hf1|apply Hf2]).
  assert (Hfiles : files s2 = files s) by by rewrite (lf_files _ _ _ Hf2), (lf_files _ _ _ Hf1).
  assert (Hpool : forall o, pool_at o s -> pool_at o s2).
  { intros o Hp. eapply pool_inv_ext; [| | |exact Hp]; cbn beta.
    - intros g. by rewrite Hfiles.
    - intros e. by rewrite (lf_ref _ _ _ Hf2), (lf_ref _ _ _ Hf1).
    - intros e _ _. fold (entry e s2) (entry e s). rewrite (lf_entry _ _ _ Hf2), (lf_entry _ _ _ Hf1); done. }
  assert (Hfin : forall s3, edited f s2 s3 -> ftype (files s3 f) = t -> fref (files s3 f) = fref (files s2 f) /\ fflags (files s3 f) = fflags (files s2 f) /\
    fpath (files s3 f) = fpath (files s2 f) /\ fprivate (files s3 f) = fprivate (files s2 f) -> wp (mret r) Q s3).
  { intros s3 [Ht3 Hft] E3 Hs3. apply wp_ret, HQ. split; [by eapply touched_trans|by rewrite <- Hfiles|by rewrite E3|].
    intros o Hp%Hpool. eapply pool_inv_ext; [| | |exact Hp]; cbn beta; rewrite ?Hft; [|done..].
    intros g. destruct (decide (g = f)) as [->|Hne]; [apply Hs3|by rewrite (to_files _ _ _ Ht3)]. }
  apply wp_bind, wp_upd_file. intros s3 Hd3 E3. apply wp_bind. case_bool_decide.
  - apply wp_upd_file. intros s4 Hd4 E4. apply Hfin; [by eapply edited_trans|by rewrite E4, E3|by rewrite E4, E3].
  - apply wp_ret, Hfin; [done|by rewrite E3|by rewrite E3].
Qed.

Lemma touched_set_pool f e x s : touched f s (set_pool e x s).
Proof. by split. Qed.

Lemma typed_opened f s0 s s' :
  touched f s0 s -> fref (files s f) = fref (files s0 f) -> fflags (files s f) = fflags (files s0 f) -> fpath (files s f) = fpath (files s0 f) ->
  typed f s s' -> opened_on f s0 s'.
Proof. intros Ht H1 H2 H3 [Ht' (E1 & E2 & E3 & _) Hty _]. split; [by eapply touched_trans|congruence..|done]. Qed.

(** ext4_vfopen on an entry as filealloc hands it out. *)
Lemma wp_vfopen f path flags s :
  pool_ok s -> L_ext4_fpool ∉ held (km s) -> ftype (files s f) = FD_NONE -> fprivate (files s f) = 0 ->
  wp (ext4_vfopen lw pool_addr f path flags) (fun r s' =>
    opened_on f s s' /\ pool_ok s' /\ (r = EOK \/ r < 0 /\ fprivate (files s' f) = 0)) s.
Proof.
  intros Hp Hl Hty Hpr. unfold ext4_vfopen. apply wp_bind, wp_private. rewrite Hpr.
  eapply wp_call; [apply lo_dir|]. cbn beta. intros r s1 [Hf1 Hthere1]. pose proof (lf_files _ _ _ Hf1) as E1. pose proof (lw_pool _ _ _ Hp Hf1) as Hp1.
  assert (Hsame : forall s', (forall g, touched g s s') -> files s' = files s -> opened_on f s s').
  { intros s' Ht Hf. split; [apply Ht|by rewrite Hf..|by rewrite Hf, Hty]. }
  destruct (Z.eqb_spec r EOK) as [->|Hr].
  { apply wp_vfopen_type; [by apply Hthere1|]. intros s2 Hs2. split_and!; [|by apply (ty_pool _ _ _ Hs2)|by left].
    eapply typed_opened; [apply Hf1|by rewrite E1..|done]. }
  cbn [efile_at Z.eqb]. eapply wp_call; [apply wp_falloc; by rewrite (to_km _ _ _ (lf_touched _ _ _ Hf1 f))|].
  cbn beta. intros [e|] s2; [intros [H0 ->]|intros [_ ->]; apply wp_ret; split_and!; [apply Hsame; [apply Hf1|done]|done|right; by rewrite E1]].
  set (s2 := set_pool e _ s1). assert (Hp2 : pool_at (Some e) s2) by by apply pool_take.
  eapply wp_call; [apply lo_open|]. cbn beta. intros r2 s3 (Hf3 & Hpos & Hok). pose proof (lw_pool _ _ _ Hp2 Hf3) as Hp3.
  pose proof (lf_files _ _ _ Hf3) as E3. assert (files s3 = files s) as E by (rewrite E3; exact E1).
  assert (Ht3 : forall g, touched g s s3) by (intros g; eapply touched_trans; [apply Hf1|]; eapply touched_trans; [apply touched_set_pool|apply Hf3]).
  destruct (Z.eqb_spec r2 EOK) as [->|Hr2]; cbn [negb].
  - destruct (Hok eq_refl) as [Hthere Hmp]. unfold sync_pos. apply wp_bind, wp_modify, wp_bind, wp_bind, wp_get_efile, wp_modify.
    apply wp_vfopen_type; [by apply lo_files, lo_files|]. set (s4 := set_files _ (set_files _ s3)). intros s5 Hs5.
    assert (Hx : files s4 f = set_fpos (ef_fpos (entry e s3)) (set_fprivate (addr e) (files s f))).
    { cbn [s4 files set_files]. rewrite !fn_lookup_insert, E. done. }
    assert (Ht4 : touched f s s4).
    { eapply touched_trans; [apply Ht3|]. split; try done. intros j Hj. cbn [s4 files set_files]. by rewrite !fn_lookup_insert_ne. }
    split_and!; [eapply typed_opened; [exact Ht4|by rewrite Hx..|done]| |by left]. apply (ty_pool _ _ _ Hs5).
    eapply (pool_attach _ _ _ e f); [exact Hp3|exact Hmp|by rewrite E|by rewrite Hx|].
    intros g Hne. cbn [s4 files set_files]. by rewrite !fn_lookup_insert_ne.
  - apply wp_bind. apply wp_recycle; [by rewrite (to_km _ _ _ (Ht3 f))|by destruct (pl_spare _ _ _ Hp3 e eq_refl)|]. apply wp_ret.
    split_and!; [|by apply pool_drop|right; split; [unfold EOK in *; lia|cbn [files set_pool set_ftabs]; by rewrite E]].
    apply Hsame; [|done]. intros g. eapply touched_trans; [apply Ht3|apply touched_set_pool].
Qed.

Lemma wp_vfclose f (Q : Z -> kstate -> Prop) s :
  pool_ok s -> L_ext4_fpool ∉ held (km s) -> fprivate (files s f) <> 0 ->
  (forall s', fs_frame f s s' -> fprivate (files s' f) = 0 -> pool_ok s' -> Q EOK s') -> wp (ext4_vfclose pool_addr f) Q s.
Proof.
  intros Hp Hl Hpr HQ. destruct (pl_file _ _ _ Hp f Hpr) as (e & Ha & Hr & Hmp). cbn beta in Ha. unfold ext4_vfclose. apply wp_bind, wp_private.
  rewrite Ha, efile_at_addr. unfold ext4_fclose. apply wp_bind, wp_bind, wp_get_efile, wp_bind, wp_panic_if; [by apply Z.eqb_neq|].
  apply wp_bind, wp_modify, wp_ret. cbn [Z.eqb EOK negb]. apply wp_bind, wp_recycle; [done| |].
  { cbn [ftabs set_ftabs ext4_fpool set_ext4_fpool]. by rewrite fn_lookup_insert. }
  apply wp_bind, wp_modify, wp_ret, HQ.
  - split_and!; try done; cbn [files set_files set_pool set_ftabs].
    + intros j Hj. by rewrite fn_lookup_insert_ne.
    + exists 0. by rewrite fn_lookup_insert.
  - cbn [files set_files set_pool set_ftabs]. by rewrite fn_lookup_insert.
  - eapply (pool_detach _ _ _ _ e f); [exact Hp|done|..]; cbn [files set_files set_pool set_ftabs ftabs ext4_fpool set_ext4_fpool].
    + by rewrite fn_lookup_insert.
    + intros g Hg. by rewrite fn_lookup_insert_ne.
    + by rewrite fn_lookup_insert.
    + intros e' He. by rewrite !fn_lookup_insert_ne.
Qed.

Lemma lw_fs_frame f s s' : lw_frame None s s' -> fs_frame f s s'.
Proof.
  intros H. destruct (lf_touched _ _ _ H f) as [H1 H2 H3 H4 H5 H6 H7 H8]. split_and!; try done.
  exists (fprivate (files s f)). by rewrite (lf_files _ _ _ H), set_fprivate_same.
Qed.

(** ext4 closes files, and opens them, as the kernel expects of a file system. *)
Lemma ext4_closes : fs_closes (ext4_file_ops kend lw pool_addr) pool_ok.
Proof.
  assert (Hfree : forall s, held (km s) = [L_ftable] -> L_ext4_fpool ∉ held (km s)) by (intros s ->; by intros ?%list_elem_of_singleton).
  split.
  - intros s s' Hp Hft Hpv. eapply pool_inv_ext; [exact Hpv|by rewrite Hft..|exact Hp].
  - intros f s Hp Hh Hpr. apply wp_bind. apply wp_vfclose; [done|by apply Hfree|done|]. intros s' Hs' H0 Hp'. by apply wp_ret.
  - intros path f s Hp Hh Hpr. cbn [fop_unlink ext4_file_ops]. unfold ext4_vunlink. apply wp_bind.
    assert (Hret : forall (r : Z) s', lw_frame None s s' -> wp (mret r) (fun _ s2 => wp (mret tt) (fun (_ : unit) s3 => fs_frame f s s3 /\ fprivate (files s3 f) = 0 /\ pool_ok s3) s2) s').
    { intros r s' Hf. apply wp_ret, wp_ret. split_and!; [by apply lw_fs_frame|by rewrite (lf_files _ _ _ Hf)|by eapply lw_pool]. }
    assert (Htr : forall s1 s2 s3, lw_frame None s1 s2 -> lw_frame None s2 s3 -> lw_frame None s1 s3).
    { intros s1 s2 s3 [A1 A2 A3 A4] [B1 B2 B3 B4]. split; [|congruence..|].
      - intros g. by eapply touched_trans.
      - intros e He. by rewrite B4, A4. }
    eapply wp_call; [apply lo_dir|]. cbn beta. intros r s1 [H1 _]. destruct (r =? EOK); cbn [negb].
    + eapply wp_call; [apply lo_dir|]. cbn beta. intros r2 s2 [H2 _]. destruct (r2 =? EOK); cbn [negb]; [|by apply Hret, (Htr _ s1)].
      eapply wp_call; [apply lo_rmdir|]. cbn beta. intros r3 s3 H3. apply Hret, (Htr _ s1); [done|]. by apply (Htr _ s2).
    + eapply wp_call; [apply lo_remove|]. cbn beta. intros r2 s2 H2. by apply Hret, (Htr _ s1).
  - intros f s Hp Hh Hpr. cbn [fop_cleansf ext4_file_ops]. unfold ext4_vcleansf. apply wp_bind, wp_bind, wp_private. rewrite Hpr.
    apply wp_ret, wp_ret. split_and!; [apply fs_frame_refl|done|done].
Qed.

Lemma ext4_opens : opens_files (fun f p flags => p ← path_at lim p; ext4_vfopen lw pool_addr f p flags) pool_ok.
Proof.
  intros f pth flags s Hp Hh Hty Hpr. unfold path_at. apply wp_bind, wp_gets. eapply wp_mono; [apply wp_vfopen; [done|rewrite Hh; apply not_elem_of_nil|done|done]|].
  cbn beta. intros r s' (Ho & Hp' & _). done.
Qed.
End Spec.

(** ** Properties *)

(** floadseg from a file on ext4: every byte of the user range holds the byte of
    the file at its offset. *)
Theorem floadseg_loads_ext4 (kend : Z) (lw : lwext4) (pool_addr : Z) (f e : nat) (data : mem) (len root va offset sz : Z) (T : tables) (s : kstate) :
  0 < kend -> lw_reads lw e data len -> open_on pool_addr f e len s -> bytes_ok data -> page_aligned va -> 0 <= va -> 0 <= sz -> va + sz <= MAXVA ->
  0 <= offset <= len -> offset + sz + PGSIZE < 2 ^ 32 ->
  segment kend root T (upage (mmem (km s)) T) va sz (mmem (km s)) ->
  wp (floadseg (ext4_file_ops kend lw pool_addr) root f va offset sz) (fun r s' =>
    if sz <=? len - offset then r = 0 /\ open_on pool_addr f e len s' /\ forall k, 0 <= k < sz -> umem (mmem (km s')) T (va + k) = data (offset + k)
    else r = -1) s.
Proof. intros Hk Hlw Ho Hd Ha H0 Hsz Hm Hof. apply wp_floadseg; try done. apply ext4_file_reads; [done|lia]. Qed.


(** ** Witness: an lwext4 whose disk has every path *)

Definition plain_inode : ext4_inode := Ext4Inode 0x8000 0 0 0 0 0 0 1 0 0 0 0.
Definition demo_lw : lwext4 :=
  Lwext4 (fun e _ _ => upd_efile e (fun _ => Ext4File 1 2 0 0 0);; mret EOK) (fun _ _ _ _ => mret (EOK, 0)) (fun _ _ _ _ => mret (EOK, 0))
    (fun _ _ => mret EOK) (fun _ _ => mret ENOENT) (fun _ => mret EOK) (fun _ => mret (0, 0))
    (fun _ => mret (EOK, 2, plain_inode)) (fun _ => mret (EOK, Ext4Sblock 0 0xEF53 0 0 4096 0 0)) (fun _ => mret (EOK, 4096))
    (fun _ => mret (EOK, 2, plain_inode)) (fun _ _ _ => mret EOK) (fun _ => mret EOK) (fun _ _ => mret EOK) (fun _ _ => mret EOK)
    (fun _ => mret EOK) (fun _ => mret EOK) (fun _ _ => mret EOK) (fun _ _ => mret EOK) (fun _ _ => mret EOK)
    (mret EOK) (fun _ => mret EOK) (fun _ => mret EOK) (fun _ => mret EOK) (fun _ => mret EOK).

Lemma lw_frame_refl o s : lw_frame o s s.
Proof. by split. Qed.

Lemma demo_lw_opens : lw_opens demo_lw (fun _ _ => True).
Proof.
  split; try done; intros; try (apply wp_ret; split_and!; (apply lw_frame_refl || done)); try (apply wp_ret, lw_frame_refl).
  - cbn [lw_fopen2 demo_lw]. apply wp_bind, wp_modify, wp_ret. split; [|split; [done|]].
    + split; [done|done|..]; intros e0; cbn [ftabs set_ftabs ext4_fpool set_ext4_fpool entry];
        (destruct (decide (e0 = e)) as [->|Hne]; [by rewrite ?fn_lookup_insert|unfold entry; cbn [ftabs set_ftabs ext4_fpool set_ext4_fpool]; by rewrite fn_lookup_insert_ne]).
    + intros _. split; [done|]. unfold entry. cbn [ftabs set_ftabs ext4_fpool set_ext4_fpool]. by rewrite fn_lookup_insert.
  - apply wp_ret. split_and!; [apply lw_frame_refl|done|done|]. exists FD_INODE. done.
Qed.

Lemma fd_inv_fs kend I I' p lim oth T s : fd_inv (files_ok kend I) p lim oth T s -> I' s -> fd_inv (files_ok kend I') p lim oth T s.
Proof.
  intros [[(Hh & l & Hk & Hs & Hp & _) H2 H3 H4 H5 H6] Hl Ho] HI. split; [split|..]; try done. split; [done|]. by exists l.
Qed.

Lemma empty_pool a s : no_private s -> (forall e, mf_ref (ext4_fpool (ftabs s) e) = 0) -> pool_ok a s.
Proof.
  intros Hn H0. split.
  - intros f Hf. by destruct (Hf (Hn f)).
  - intros e _. by left.
  - intros f g _ Hf. by destruct (Hf (Hn f)).
  - done.
Qed.

(** From a state whose descriptor 0 and file 3 are in use. *)
Lemma demo_open kend I flags omode v s s' :
  (forall f, fref (files s f) = if decide (f = 3%nat) then 1 else 0) -> open_result kend I 0 100 (fun _ => 0) fd_table flags omode v s s' ->
  v = 1 /\ fd_file (ofile (procs s' 0%nat)) 1 = Some 0%nat \/ v < 0 /\ ofile (procs s' 0%nat) = fd_table.
Proof.
  intros Hr [(-> & _ & Hi)|(f & (_ & _ & Hj) & H)].
  { right. split; [done|]. exact (sn_table _ _ _ _ _ _ _ (fd_seen _ _ _ _ _ _ Hi)). }
  destruct f as [|f]; [|exfalso; apply (Hj 0%nat); [lia|by rewrite Hr]].
  assert (take_fd 100 fd_table 0 0 (- EMFILE) = (1, Some 3%nat :: Some 0%nat :: replicate 254 None)) as E by by vm_compute.
  rewrite E in H. cbn zeta in H. cbn [fst snd] in H. destruct H as [[[[? _]|[_ Hv]] Hi]|(_ & -> & Hi & _)]; [lia|right; split; [done|]|left; split; [done|]];
    by rewrite (sn_table _ _ _ _ _ _ _ (fd_seen _ _ _ _ _ _ Hi)).
Qed.

