(* ===== verification/Ext4Types.v ===== *)
(** * kernel/include/ext4_types.h, ext4_misc.h: the structures of an ext4 disk

    A structure is its bytes, and a field a number stored in some of them with
    the least significant byte first, which is what the machine and the disk
    both do (to_le16 and its like are the identity). A layout lists the fields of
    a packed structure in order. *)
From S2P Require Import Prelude Mem Crc32.
Definition layout := list (string * nat).
Abbreviation U8 f := (f, 1%nat) (only parsing).
Abbreviation U16 f := (f, 2%nat) (only parsing).
Abbreviation U32 f := (f, 4%nat) (only parsing).
Abbreviation U64 f := (f, 8%nat) (only parsing).
Abbreviation bytes f n := (f, n%nat) (only parsing).
Abbreviation words f n := (f, (4 * n)%nat) (only parsing).

Fixpoint offsetof (l : layout) (f : string) : Z :=
  match l with
  | [] => 0
  | (g, w) :: l => if String.eqb f g then 0 else Z.of_nat w + offsetof l f
  end.
Fixpoint widthof (l : layout) (f : string) : nat :=
  match l with
  | [] => 0%nat
  | (g, w) :: l => if String.eqb f g then w else widthof l f
  end.

(** [p->f] for a structure at [p], read and written. *)
Definition rd (l : layout) (m : mem) (p : Z) (f : string) : Z := load m (p + offsetof l f) (widthof l f).
Definition wr (l : layout) (m : mem) (p : Z) (f : string) (v : Z) : mem := store m (p + offsetof l f) (widthof l f) v.

(** ** The structures *)

Definition ext4_sblock : layout :=
  [U32 "inodes_count"; U32 "blocks_count_lo"; U32 "reserved_blocks_count_lo"; U32 "free_blocks_count_lo";
   U32 "free_inodes_count"; U32 "first_data_block"; U32 "log_block_size"; U32 "log_cluster_size";
   U32 "blocks_per_group"; U32 "frags_per_group"; U32 "inodes_per_group"; U32 "mount_time"; U32 "write_time";
   U16 "mount_count"; U16 "max_mount_count"; U16 "magic"; U16 "state"; U16 "errors"; U16 "minor_rev_level";
   U32 "last_check_time"; U32 "check_interval"; U32 "creator_os"; U32 "rev_level"; U16 "def_resuid";
   U16 "def_resgid"; U32 "first_inode"; U16 "inode_size"; U16 "block_group_index"; U32 "features_compatible";
   U32 "features_incompatible"; U32 "features_read_only"; bytes "uuid" 16; bytes "volume_name" 16;
   bytes "last_mounted" 64; U32 "algorithm_usage_bitmap"; U8 "s_prealloc_blocks"; U8 "s_prealloc_dir_blocks";
   U16 "s_reserved_gdt_blocks"; bytes "journal_uuid" 16; U32 "journal_inode_number"; U32 "journal_dev";
   U32 "last_orphan"; words "hash_seed" 4; U8 "default_hash_version"; U8 "journal_backup_type";
   U16 "desc_size"; U32 "default_mount_opts"; U32 "first_meta_bg"; U32 "mkfs_time";
   words "journal_blocks" 17; U32 "blocks_count_hi"; U32 "reserved_blocks_count_hi";
   U32 "free_blocks_count_hi"; U16 "min_extra_isize"; U16 "want_extra_isize"; U32 "flags"; U16 "raid_stride";
   U16 "mmp_interval"; U64 "mmp_block"; U32 "raid_stripe_width"; U8 "log_groups_per_flex";
   U8 "checksum_type"; U16 "reserved_pad"; U64 "kbytes_written"; U32 "snapshot_inum"; U32 "snapshot_id";
   U64 "snapshot_r_blocks_count"; U32 "snapshot_list"; U32 "error_count"; U32 "first_error_time";
   U32 "first_error_ino"; U64 "first_error_block"; bytes "first_error_func" 32; U32 "first_error_line";
   U32 "last_error_time"; U32 "last_error_ino"; U32 "last_error_line"; U64 "last_error_block";
   bytes "last_error_func" 32; bytes "mount_opts" 64; U32 "usr_quota_inum"; U32 "grp_quota_inum";
   U32 "overhead_clusters"; words "backup_bgs" 2; bytes "encrypt_algos" 4; bytes "encrypt_pw_salt" 16;
   U32 "lpf_ino"; words "padding" 100; U32 "checksum"].

Definition ext4_bgroup : layout :=
  [U32 "block_bitmap_lo"; U32 "inode_bitmap_lo"; U32 "inode_table_first_block_lo";
   U16 "free_blocks_count_lo"; U16 "free_inodes_count_lo"; U16 "used_dirs_count_lo"; U16 "flags";
   U32 "exclude_bitmap_lo"; U16 "block_bitmap_csum_lo"; U16 "inode_bitmap_csum_lo"; U16 "itable_unused_lo";
   U16 "checksum"; U32 "block_bitmap_hi"; U32 "inode_bitmap_hi"; U32 "inode_table_first_block_hi";
   U16 "free_blocks_count_hi"; U16 "free_inodes_count_hi"; U16 "used_dirs_count_hi"; U16 "itable_unused_hi";
   U32 "exclude_bitmap_hi"; U16 "block_bitmap_csum_hi"; U16 "inode_bitmap_csum_hi"; U32 "reserved"].

Definition ext4_inode : layout :=
  [U16 "mode"; U16 "uid"; U32 "size_lo"; U32 "access_time"; U32 "change_inode_time"; U32 "modification_time";
   U32 "deletion_time"; U16 "gid"; U16 "links_count"; U32 "blocks_count_lo"; U32 "flags"; U32 "unused_osd1";
   words "blocks" 15; U32 "generation"; U32 "file_acl_lo"; U32 "size_hi"; U32 "obso_faddr"; bytes "osd2" 12;
   U16 "extra_isize"; U16 "checksum_hi"; U32 "ctime_extra"; U32 "mtime_extra"; U32 "atime_extra";
   U32 "crtime"; U32 "crtime_extra"; U32 "version_hi"].

(** The two readings of the union osd2. *)
Definition linux2 : layout :=
  [U16 "blocks_high"; U16 "file_acl_high"; U16 "uid_high"; U16 "gid_high"; U16 "checksum_lo"; U16 "reserved2"].
Definition hurd2 : layout := [U16 "reserved1"; U16 "mode_high"; U16 "uid_high"; U16 "gid_high"; U32 "author"].

(** The union [in] is one byte, name_length_high or inode_type; the name
    follows. *)
Definition ext4_dir_en : layout := [U32 "inode"; U16 "entry_len"; U8 "name_len"; U8 "in"].
Definition ext4_dir_entry_tail : layout :=
  [U32 "reserved_zero1"; U16 "rec_len"; U8 "reserved_zero2"; U8 "reserved_ft"; U32 "checksum"].

Definition EXT4_SUPERBLOCK_MAGIC : Z := 0xEF53.
Definition EXT4_SUPERBLOCK_OS_LINUX : Z := 0.
Definition EXT4_SUPERBLOCK_OS_HURD : Z := 1.
Definition EXT4_CHECKSUM_CRC32C : Z := 1.
Definition EXT4_CRC32_INIT : Z := 0xFFFFFFFF.
Definition EXT4_FRO_COM_SPARSE_SUPER : Z := 0x0001.
Definition EXT4_FRO_COM_HUGE_FILE : Z := 0x0008.
Definition EXT4_FRO_COM_METADATA_CSUM : Z := 0x0400.
Definition EXT4_FINCOM_META_BG : Z := 0x0010.
Definition EXT4_MIN_BLOCK_GROUP_DESCRIPTOR_SIZE : Z := 32.
Definition EXT4_MAX_BLOCK_GROUP_DESCRIPTOR_SIZE : Z := 64.
Definition EXT4_INODE_INDIRECT_BLOCK : Z := 12.
Definition EXT4_GOOD_OLD_INODE_SIZE : Z := 128.
Definition EXT4_INODE_MODE_FIFO : Z := 0x1000.
Definition EXT4_INODE_MODE_CHARDEV : Z := 0x2000.
Definition EXT4_INODE_MODE_DIRECTORY : Z := 0x4000.
Definition EXT4_INODE_MODE_BLOCKDEV : Z := 0x6000.
Definition EXT4_INODE_MODE_FILE : Z := 0x8000.
Definition EXT4_INODE_MODE_SOFTLINK : Z := 0xA000.
Definition EXT4_INODE_MODE_SOCKET : Z := 0xC000.
Definition EXT4_INODE_MODE_TYPE_MASK : Z := 0xF000.
Definition EXT4_INODE_FLAG_IMMUTABLE : Z := 0x00000010.
Definition EXT4_INODE_FLAG_APPEND : Z := 0x00000020.
Definition EXT4_INODE_FLAG_HUGE_FILE : Z := 0x00040000.
Definition EXT4_DIRENTRY_DIR_CSUM : Z := 0xDE.

(** ** Fields *)

Section Fields.
Implicit Types (l : layout) (m : mem) (f g : string) (p v : Z).

Fixpoint has_field l f : bool :=
  match l with
  | [] => false
  | (g, _) :: l => String.eqb f g || has_field l f
  end.

Lemma offsetof_pos l f : 0 <= offsetof l f.
Proof. induction l as [|[g w] l IH]; cbn [offsetof]; [lia|]. destruct (String.eqb f g); lia. Qed.

(** Two fields do not overlap. *)
Lemma fields_disjoint l f g : String.eqb f g = false -> has_field l f = true -> has_field l g = true ->
  offsetof l f + Z.of_nat (widthof l f) <= offsetof l g \/ offsetof l g + Z.of_nat (widthof l g) <= offsetof l f.
Proof.
  intros Hne. induction l as [|[h w] l IH]; cbn [offsetof widthof has_field]; [done|]. intros Hf Hg.
  destruct (String.eqb_spec f h) as [->|], (String.eqb_spec g h) as [->|]; cbn [orb] in *.
  - by rewrite String.eqb_refl in Hne.
  - left. pose proof (offsetof_pos l g). lia.
  - right. pose proof (offsetof_pos l f). lia.
  - destruct (IH Hf Hg); lia.
Qed.

Lemma rd_wr l m p f v : rd l (wr l m p f v) p f = v mod 256 ^ Z.of_nat (widthof l f).
Proof. apply load_store_same. Qed.

Lemma rd_wr_ne l m p f g v : String.eqb f g = false -> has_field l f = true -> has_field l g = true -> rd l (wr l m p f v) p g = rd l m p g.
Proof. intros Hne Hf Hg. apply load_store_other. pose proof (fields_disjoint l f g Hne Hf Hg). lia. Qed.

(** A structure elsewhere. *)
Lemma rd_wr_apart l l' m p p' f g v :
  p + offsetof l f + Z.of_nat (widthof l f) <= p' + offsetof l' g \/ p' + offsetof l' g + Z.of_nat (widthof l' g) <= p + offsetof l f ->
  rd l' (wr l m p f v) p' g = rd l' m p' g.
Proof. intros H. apply load_store_other. lia. Qed.

Lemma wr_ok l m p f v : bytes_ok m -> bytes_ok (wr l m p f v).
Proof. apply store_ok. Qed.

Lemma rd_range l m p f : bytes_ok m -> 0 <= rd l m p f < 256 ^ Z.of_nat (widthof l f).
Proof. apply load_range. Qed.
End Fields.

(** Offsets and widths of fields, as numbers. *)
Ltac offs :=
  repeat match goal with
  | |- context [offsetof ?l ?f] => let v := eval vm_compute in (offsetof l f) in change (offsetof l f) with v
  | |- context [Z.of_nat (widthof ?l ?f)] => let v := eval vm_compute in (Z.of_nat (widthof l f)) in change (Z.of_nat (widthof l f)) with v
  end.

(** Reads after writes. *)
Ltac fields :=
  repeat (rewrite rd_wr || rewrite rd_wr_ne by reflexivity || rewrite rd_wr_apart by (offs; lia)); offs.

(** A number in two halves of [n] bits. *)
Lemma lor_halves lo hi n : 0 <= n -> 0 <= lo < 2 ^ n -> Z.lor lo (Z.shiftl hi n) = hi * 2 ^ n + lo.
Proof. intros. rewrite Z.lor_comm, Z.shiftl_mul_pow2 by lia. by apply lor_low_high. Qed.

Lemma join_halves v n w : 0 <= n -> 0 <= w -> 0 <= v < 2 ^ (n + w) -> Z.lor (v mod 2 ^ n) (Z.shiftl (Z.shiftr v n mod 2 ^ w) n) = v.
Proof.
  intros Hn Hw Hv. rewrite Z.pow_add_r in Hv by lia. pose proof (Z.pow_pos_nonneg 2 n ltac:(lia) Hn). pose proof (Z.pow_pos_nonneg 2 w ltac:(lia) Hw).
  rewrite lor_halves; [|lia|apply Z.mod_pos_bound; lia]. rewrite Z.shiftr_div_pow2 by lia. rewrite (Z.mod_small (v / 2 ^ n)).
  - pose proof (Z.div_mod v (2 ^ n)). lia.
  - split; [apply Z.div_pos; lia|apply Z.div_lt_upper_bound; lia].
Qed.

(** * kernel/fs/ext4_super.c, ext4_super.h, ext4_block_group.h: the superblock and the block groups

    The superblock is its 1024 bytes, at offset 0, and a group descriptor its 64.
    Reading and writing the superblock through the block device is left out. *)

(** s->f *)
Abbreviation sb s f := (rd ext4_sblock s 0 f) (only parsing).

(** ** ext4_super.h *)

Definition ext4_sb_get_blocks_cnt (s : mem) : Z :=
  Z.lor (u64 (Z.shiftl (sb s "blocks_count_hi") 32)) (sb s "blocks_count_lo").
Definition ext4_sb_set_blocks_cnt (s : mem) (cnt : Z) : mem :=
  let s := wr ext4_sblock s 0 "blocks_count_lo" (Z.shiftr (u64 (Z.shiftl cnt 32)) 32) in
  wr ext4_sblock s 0 "blocks_count_hi" (Z.shiftr cnt 32).
Definition ext4_sb_get_free_blocks_cnt (s : mem) : Z :=
  Z.lor (u64 (Z.shiftl (sb s "free_blocks_count_hi") 32)) (sb s "free_blocks_count_lo").
Definition ext4_sb_set_free_blocks_cnt (s : mem) (cnt : Z) : mem :=
  let s := wr ext4_sblock s 0 "free_blocks_count_lo" (Z.shiftr (u64 (Z.shiftl cnt 32)) 32) in
  wr ext4_sblock s 0 "free_blocks_count_hi" (Z.shiftr cnt 32).

Definition ext4_sb_get_block_size (s : mem) : Z := u32 (Z.shiftl 1024 (sb s "log_block_size")).
Definition ext4_sb_get_desc_size (s : mem) : Z :=
  let size := sb s "desc_size" in
  if size <? EXT4_MIN_BLOCK_GROUP_DESCRIPTOR_SIZE then EXT4_MIN_BLOCK_GROUP_DESCRIPTOR_SIZE else size.

Definition ext4_sb_check_flag (s : mem) (v : Z) : bool := has_bits (sb s "flags") v.
Definition ext4_sb_feature_com (s : mem) (v : Z) : bool := has_bits (sb s "features_compatible") v.
Definition ext4_sb_feature_incom (s : mem) (v : Z) : bool := has_bits (sb s "features_incompatible") v.
Definition ext4_sb_feature_ro_com (s : mem) (v : Z) : bool := has_bits (sb s "features_read_only") v.

Definition ext4_sb_bg_to_flex (s : mem) (block_group : Z) : Z := Z.shiftr block_group (sb s "log_groups_per_flex").
Definition ext4_sb_flex_bg_size (s : mem) : Z := u32 (Z.shiftl 1 (sb s "log_groups_per_flex")).
Definition ext4_sb_first_meta_bg (s : mem) : Z := sb s "first_meta_bg".

(** ** ext4_super.c *)

Definition ext4_block_group_cnt (s : mem) : Z :=
  let blocks_count := ext4_sb_get_blocks_cnt s in
  let blocks_per_group := sb s "blocks_per_group" in
  let block_groups_count := u32 (blocks_count / blocks_per_group) in
  if negb (blocks_count mod blocks_per_group =? 0) then u32 (block_groups_count + 1) else block_groups_count.

(** The product is computed in 32 bits and taken from a count of 64. *)
Definition ext4_blocks_in_group_cnt (s : mem) (bgid : Z) : Z :=
  let block_group_count := ext4_block_group_cnt s in
  let blocks_per_group := sb s "blocks_per_group" in
  let total_blocks := ext4_sb_get_blocks_cnt s in
  if bgid <? u32 (block_group_count - 1) then blocks_per_group
  else u32 (u64 (total_blocks - u32 (u32 (block_group_count - 1) * blocks_per_group))).

Definition ext4_inodes_in_group_cnt (s : mem) (bgid : Z) : Z :=
  let block_group_count := ext4_block_group_cnt s in
  let inodes_per_group := sb s "inodes_per_group" in
  let total_inodes := sb s "inodes_count" in
  if bgid <? u32 (block_group_count - 1) then inodes_per_group
  else u32 (total_inodes - u32 (u32 (block_group_count - 1) * inodes_per_group)).

Definition ext4_sb_csum (s : mem) : Z := ext4_crc32c EXT4_CRC32_INIT s 0 (offsetof ext4_sblock "checksum").

Definition ext4_sb_verify_csum (s : mem) : bool :=
  if negb (ext4_sb_feature_ro_com s EXT4_FRO_COM_METADATA_CSUM) then true
  else if negb (sb s "checksum_type" =? EXT4_CHECKSUM_CRC32C) then false
  else sb s "checksum" =? ext4_sb_csum s.

Definition ext4_sb_set_csum (s : mem) : mem :=
  if negb (ext4_sb_feature_ro_com s EXT4_FRO_COM_METADATA_CSUM) then s
  else wr ext4_sblock s 0 "checksum" (ext4_sb_csum s).

Definition ext4_sb_check (s : mem) : bool :=
  if negb (sb s "magic" =? EXT4_SUPERBLOCK_MAGIC) then false
  else if sb s "inodes_count" =? 0 then false
  else if ext4_sb_get_blocks_cnt s =? 0 then false
  else if sb s "blocks_per_group" =? 0 then false
  else if sb s "inodes_per_group" =? 0 then false
  else if sb s "inode_size" <? 128 then false
  else if sb s "first_inode" <? 11 then false
  else if ext4_sb_get_desc_size s <? EXT4_MIN_BLOCK_GROUP_DESCRIPTOR_SIZE then false
  else if EXT4_MAX_BLOCK_GROUP_DESCRIPTOR_SIZE <? ext4_sb_get_desc_size s then false
  else ext4_sb_verify_csum s.

(** while (1): the first argument is divided in every turn, so that 32 turns
    are enough for a base of 2 or more; None when they are not. *)
Fixpoint is_power_of_loop (n : nat) (a b : Z) : option bool :=
  match n with
  | O => None
  | S n =>
    if a <? b then Some false
    else if a =? b then Some true
    else if negb (a mod b =? 0) then Some false
    else is_power_of_loop n (a / b) b
  end.
Definition is_power_of (a b : Z) : bool := match is_power_of_loop 33 a b with Some r => r | None => false end.

Definition ext4_sb_sparse (group : Z) : bool :=
  if group <=? 1 then true
  else if Z.land group 1 =? 0 then false
  else is_power_of group 7 || is_power_of group 5 || is_power_of group 3.

Definition ext4_sb_is_super_in_bg (s : mem) (group : Z) : bool :=
  negb (ext4_sb_feature_ro_com s EXT4_FRO_COM_SPARSE_SUPER && negb (ext4_sb_sparse group)).

Definition ext4_bg_num_gdb_meta (s : mem) (group : Z) : Z :=
  let dsc_per_block := ext4_sb_get_block_size s / ext4_sb_get_desc_size s in
  let metagroup := group / dsc_per_block in
  let first := u32 (metagroup * dsc_per_block) in
  let last := u32 (first + dsc_per_block - 1) in
  if (group =? first) || (group =? u32 (first + 1)) || (group =? last) then 1 else 0.

Definition ext4_bg_num_gdb_nometa (s : mem) (group : Z) : Z :=
  if negb (ext4_sb_is_super_in_bg s group) then 0
  else
    let dsc_per_block := ext4_sb_get_block_size s / ext4_sb_get_desc_size s in
    let db_count := u32 (ext4_block_group_cnt s + dsc_per_block - 1) / dsc_per_block in
    if ext4_sb_feature_incom s EXT4_FINCOM_META_BG then ext4_sb_first_meta_bg s else db_count.

Definition ext4_bg_num_gdb (s : mem) (group : Z) : Z :=
  let dsc_per_block := ext4_sb_get_block_size s / ext4_sb_get_desc_size s in
  let first_meta_bg := ext4_sb_first_meta_bg s in
  let metagroup := group / dsc_per_block in
  if negb (ext4_sb_feature_incom s EXT4_FINCOM_META_BG) || (metagroup <? first_meta_bg) then ext4_bg_num_gdb_nometa s group
  else ext4_bg_num_gdb_meta s group.

Definition ext4_num_base_meta_clusters (s : mem) (block_group : Z) : Z :=
  let dsc_per_block := ext4_sb_get_block_size s / ext4_sb_get_desc_size s in
  let num := Z.b2z (ext4_sb_is_super_in_bg s block_group) in
  let num :=
    if negb (ext4_sb_feature_incom s EXT4_FINCOM_META_BG) || (block_group <? u32 (ext4_sb_first_meta_bg s * dsc_per_block)) then
      if num =? 0 then num else u32 (u32 (num + ext4_bg_num_gdb s block_group) + sb s "s_reserved_gdt_blocks")
    else u32 (num + ext4_bg_num_gdb s block_group) in
  let clustersize := u32 (Z.shiftl 1024 (sb s "log_cluster_size")) in
  let cluster_ratio := clustersize / ext4_sb_get_block_size s in
  Z.shiftr (u32 (num + cluster_ratio - 1)) (sb s "log_cluster_size").

(** ** ext4_block_group.h *)

Definition ext4_bg_get_block_bitmap (bg s : mem) : Z :=
  let v := rd ext4_bgroup bg 0 "block_bitmap_lo" in
  if EXT4_MIN_BLOCK_GROUP_DESCRIPTOR_SIZE <? ext4_sb_get_desc_size s then Z.lor v (u64 (Z.shiftl (rd ext4_bgroup bg 0 "block_bitmap_hi") 32)) else v.
Definition ext4_bg_set_block_bitmap (bg s : mem) (blk : Z) : mem :=
  let bg := wr ext4_bgroup bg 0 "block_bitmap_lo" (u32 blk) in
  if EXT4_MIN_BLOCK_GROUP_DESCRIPTOR_SIZE <? ext4_sb_get_desc_size s then wr ext4_bgroup bg 0 "block_bitmap_hi" (Z.shiftr blk 32) else bg.

Definition ext4_bg_get_inode_bitmap (bg s : mem) : Z :=
  let v := rd ext4_bgroup bg 0 "inode_bitmap_lo" in
  if EXT4_MIN_BLOCK_GROUP_DESCRIPTOR_SIZE <? ext4_sb_get_desc_size s then Z.lor v (u64 (Z.shiftl (rd ext4_bgroup bg 0 "inode_bitmap_hi") 32)) else v.
Definition ext4_bg_set_inode_bitmap (bg s : mem) (blk : Z) : mem :=
  let bg := wr ext4_bgroup bg 0 "inode_bitmap_lo" (u32 blk) in
  if EXT4_MIN_BLOCK_GROUP_DESCRIPTOR_SIZE <? ext4_sb_get_desc_size s then wr ext4_bgroup bg 0 "inode_bitmap_hi" (Z.shiftr blk 32) else bg.

Definition ext4_bg_get_inode_table_first_block (bg s : mem) : Z :=
  let v := rd ext4_bgroup bg 0 "inode_table_first_block_lo" in
  if EXT4_MIN_BLOCK_GROUP_DESCRIPTOR_SIZE <? ext4_sb_get_desc_size s then Z.lor v (u64 (Z.shiftl (rd ext4_bgroup bg 0 "inode_table_first_block_hi") 32)) else v.
Definition ext4_bg_set_inode_table_first_block (bg s : mem) (blk : Z) : mem :=
  let bg := wr ext4_bgroup bg 0 "inode_table_first_block_lo" (u32 blk) in
  if EXT4_MIN_BLOCK_GROUP_DESCRIPTOR_SIZE <? ext4_sb_get_desc_size s then wr ext4_bgroup bg 0 "inode_table_first_block_hi" (Z.shiftr blk 32) else bg.

Definition ext4_bg_get_free_blocks_count (bg s : mem) : Z :=
  let v := rd ext4_bgroup bg 0 "free_blocks_count_lo" in
  if EXT4_MIN_BLOCK_GROUP_DESCRIPTOR_SIZE <? ext4_sb_get_desc_size s then Z.lor v (u32 (Z.shiftl (rd ext4_bgroup bg 0 "free_blocks_count_hi") 16)) else v.
Definition ext4_bg_set_free_blocks_count (bg s : mem) (cnt : Z) : mem :=
  let bg := wr ext4_bgroup bg 0 "free_blocks_count_lo" (Z.shiftr (u32 (Z.shiftl cnt 16)) 16) in
  if EXT4_MIN_BLOCK_GROUP_DESCRIPTOR_SIZE <? ext4_sb_get_desc_size s then wr ext4_bgroup bg 0 "free_blocks_count_hi" (Z.shiftr cnt 16) else bg.

Definition ext4_bg_get_free_inodes_count (bg s : mem) : Z :=
  let v := rd ext4_bgroup bg 0 "free_inodes_count_lo" in
  if EXT4_MIN_BLOCK_GROUP_DESCRIPTOR_SIZE <? ext4_sb_get_desc_size s then Z.lor v (u32 (Z.shiftl (rd ext4_bgroup bg 0 "free_inodes_count_hi") 16)) else v.
Definition ext4_bg_set_free_inodes_count (bg s : mem) (cnt : Z) : mem :=
  let bg := wr ext4_bgroup bg 0 "free_inodes_count_lo" (Z.shiftr (u32 (Z.shiftl cnt 16)) 16) in
  if EXT4_MIN_BLOCK_GROUP_DESCRIPTOR_SIZE <? ext4_sb_get_desc_size s then wr ext4_bgroup bg 0 "free_inodes_count_hi" (Z.shiftr cnt 16) else bg.

Definition ext4_bg_get_used_dirs_count (bg s : mem) : Z :=
  let v := rd ext4_bgroup bg 0 "used_dirs_count_lo" in
  if EXT4_MIN_BLOCK_GROUP_DESCRIPTOR_SIZE <? ext4_sb_get_desc_size s then Z.lor v (u32 (Z.shiftl (rd ext4_bgroup bg 0 "used_dirs_count_hi") 16)) else v.
Definition ext4_bg_set_used_dirs_count (bg s : mem) (cnt : Z) : mem :=
  let bg := wr ext4_bgroup bg 0 "used_dirs_count_lo" (Z.shiftr (u32 (Z.shiftl cnt 16)) 16) in
  if EXT4_MIN_BLOCK_GROUP_DESCRIPTOR_SIZE <? ext4_sb_get_desc_size s then wr ext4_bgroup bg 0 "used_dirs_count_hi" (Z.shiftr cnt 16) else bg.

Definition ext4_bg_get_itable_unused (bg s : mem) : Z :=
  let v := rd ext4_bgroup bg 0 "itable_unused_lo" in
  if EXT4_MIN_BLOCK_GROUP_DESCRIPTOR_SIZE <? ext4_sb_get_desc_size s then Z.lor v (u32 (Z.shiftl (rd ext4_bgroup bg 0 "itable_unused_hi") 16)) else v.
Definition ext4_bg_set_itable_unused (bg s : mem) (cnt : Z) : mem :=
  let bg := wr ext4_bgroup bg 0 "itable_unused_lo" (Z.shiftr (u32 (Z.shiftl cnt 16)) 16) in
  if EXT4_MIN_BLOCK_GROUP_DESCRIPTOR_SIZE <? ext4_sb_get_desc_size s then wr ext4_bgroup bg 0 "itable_unused_hi" (Z.shiftr cnt 16) else bg.

Definition ext4_bg_set_checksum (bg : mem) (crc : Z) : mem := wr ext4_bgroup bg 0 "checksum" crc.
Definition ext4_bg_has_flag (bg : mem) (f : Z) : bool := has_bits (rd ext4_bgroup bg 0 "flags") f.
Definition ext4_bg_set_flag (bg : mem) (f : Z) : mem := wr ext4_bgroup bg 0 "flags" (Z.lor (rd ext4_bgroup bg 0 "flags") f).
Definition ext4_bg_clear_flag (bg : mem) (f : Z) : mem := wr ext4_bgroup bg 0 "flags" (Z.land (rd ext4_bgroup bg 0 "flags") (Z.lnot f)).

(** ** Block addresses (ext4_balloc.c, ext4_fs.h)

    The products of the second and the fourth are computed in 32 bits. *)

Definition ext4_balloc_get_bgid_of_block (s : mem) (baddr : Z) : Z :=
  let baddr := if negb (sb s "first_data_block" =? 0) && negb (baddr =? 0) then baddr - 1 else baddr in
  u32 (baddr / sb s "blocks_per_group").
Definition ext4_balloc_get_block_of_bgid (s : mem) (bgid : Z) : Z :=
  let baddr := if negb (sb s "first_data_block" =? 0) then 1 else 0 in
  u64 (baddr + u32 (bgid * sb s "blocks_per_group")).
Definition ext4_fs_addr_to_idx_bg (s : mem) (baddr : Z) : Z :=
  let baddr := if negb (sb s "first_data_block" =? 0) && negb (baddr =? 0) then baddr - 1 else baddr in
  u32 (baddr mod sb s "blocks_per_group").
Definition ext4_fs_bg_idx_to_addr (s : mem) (index bgid : Z) : Z :=
  let index := if negb (sb s "first_data_block" =? 0) then u32 (index + 1) else index in
  u32 (u32 (sb s "blocks_per_group" * bgid) + index).
Definition ext4_fs_first_bg_block_no (s : mem) (bgid : Z) : Z :=
  u64 (u64 (bgid * sb s "blocks_per_group") + sb s "first_data_block").

(** ** Counts and their halves *)

(** [(v << n) >> n] in a word of [n + w] bits keeps the low [w] bits. *)
Lemma low_part v n w : 0 <= n -> 0 <= w -> Z.shiftr (wrap (n + w) (Z.shiftl v n)) n = v mod 2 ^ w.
Proof.
  intros Hn Hw. unfold wrap. rewrite Z.shiftl_mul_pow2, Z.shiftr_div_pow2, Z.pow_add_r by lia.
  pose proof (Z.pow_pos_nonneg 2 n ltac:(lia) Hn). pose proof (Z.pow_pos_nonneg 2 w ltac:(lia) Hw).
  rewrite Z.mul_comm, Z.mul_mod_distr_l by lia. rewrite Z.mul_comm. apply Z.div_mul. lia.
Qed.

(** The upper half of a word, moved to its place, does not overflow. *)
Lemma wrap_upper x n w : 0 <= n -> 0 <= w -> 0 <= x < 2 ^ w -> wrap (n + w) (Z.shiftl x n) = Z.shiftl x n.
Proof.
  intros Hn Hw Hx. apply wrap_small. rewrite Z.shiftl_mul_pow2, Z.pow_add_r by lia.
  pose proof (Z.pow_pos_nonneg 2 n ltac:(lia) Hn). nia.
Qed.

Lemma word64 lo hi : 0 <= lo < 2 ^ 32 -> 0 <= hi < 2 ^ 32 -> Z.lor (u64 (Z.shiftl hi 32)) lo = hi * 2 ^ 32 + lo.
Proof. intros. change 64 with (32 + 32). rewrite wrap_upper by lia. rewrite Z.lor_comm. by apply lor_halves. Qed.

Lemma rd32_range s f : bytes_ok s -> widthof ext4_sblock f = 4%nat -> 0 <= sb s f < 2 ^ 32.
Proof. intros Hs Hw. pose proof (rd_range ext4_sblock s 0 f Hs) as H. rewrite Hw in H. exact H. Qed.

Lemma blocks_cnt_range s : bytes_ok s -> 0 <= ext4_sb_get_blocks_cnt s < 2 ^ 64.
Proof.
  intros Hs. unfold ext4_sb_get_blocks_cnt. pose proof (rd32_range s "blocks_count_lo" Hs eq_refl). pose proof (rd32_range s "blocks_count_hi" Hs eq_refl).
  rewrite word64 by done. change (2 ^ 64) with (2 ^ 32 * 2 ^ 32). nia.
Qed.

(** What a count of the superblock is set to is what is read. *)
Theorem sb_blocks_cnt_roundtrip (s : mem) (cnt : Z) : 0 <= cnt < 2 ^ 64 ->
  ext4_sb_get_blocks_cnt (ext4_sb_set_blocks_cnt s cnt) = cnt /\
  ext4_sb_get_free_blocks_cnt (ext4_sb_set_free_blocks_cnt s cnt) = cnt.
Proof.
  intros Hc. unfold ext4_sb_get_blocks_cnt, ext4_sb_set_blocks_cnt, ext4_sb_get_free_blocks_cnt, ext4_sb_set_free_blocks_cnt. cbv zeta. fields.
  change 64 with (32 + 32) at 1 2 3 4. rewrite !low_part by lia. change (256 ^ 4) with (2 ^ 32). rewrite !Z.mod_mod by lia.
  rewrite !wrap_upper by (lia || (apply Z.mod_pos_bound; lia)). rewrite Z.lor_comm. by rewrite join_halves by lia.
Qed.

(** A descriptor of 32 bytes has no upper halves, and keeps the lower ones. *)
Theorem bg_fields_roundtrip (bg s : mem) (blk cnt : Z) : 0 <= blk < 2 ^ 64 -> 0 <= cnt < 2 ^ 32 ->
  let blk' := if EXT4_MIN_BLOCK_GROUP_DESCRIPTOR_SIZE <? ext4_sb_get_desc_size s then blk else blk mod 2 ^ 32 in
  let cnt' := if EXT4_MIN_BLOCK_GROUP_DESCRIPTOR_SIZE <? ext4_sb_get_desc_size s then cnt else cnt mod 2 ^ 16 in
  ext4_bg_get_block_bitmap (ext4_bg_set_block_bitmap bg s blk) s = blk' /\
  ext4_bg_get_inode_bitmap (ext4_bg_set_inode_bitmap bg s blk) s = blk' /\
  ext4_bg_get_inode_table_first_block (ext4_bg_set_inode_table_first_block bg s blk) s = blk' /\
  ext4_bg_get_free_blocks_count (ext4_bg_set_free_blocks_count bg s cnt) s = cnt' /\
  ext4_bg_get_free_inodes_count (ext4_bg_set_free_inodes_count bg s cnt) s = cnt' /\
  ext4_bg_get_used_dirs_count (ext4_bg_set_used_dirs_count bg s cnt) s = cnt' /\
  ext4_bg_get_itable_unused (ext4_bg_set_itable_unused bg s cnt) s = cnt'.
Proof.
  intros Hb Hc. cbv zeta.
  assert (forall v n w, 0 <= n -> 0 <= w -> 0 <= v < 2 ^ (n + w) -> Z.lor (v mod 2 ^ n) (wrap (n + w) (Z.shiftl (Z.shiftr v n mod 2 ^ w) n)) = v) as J.
  { intros v n w Hn Hw Hv. rewrite wrap_upper by (lia || (apply Z.mod_pos_bound, Z.pow_pos_nonneg; lia)). by apply join_halves. }
  pose proof (J blk 32 32 ltac:(lia) ltac:(lia) Hb) as J64. pose proof (J cnt 16 16 ltac:(lia) ltac:(lia) Hc) as J32.
  unfold ext4_bg_get_block_bitmap, ext4_bg_set_block_bitmap, ext4_bg_get_inode_bitmap, ext4_bg_set_inode_bitmap, ext4_bg_get_inode_table_first_block,
    ext4_bg_set_inode_table_first_block, ext4_bg_get_free_blocks_count, ext4_bg_set_free_blocks_count, ext4_bg_get_free_inodes_count,
    ext4_bg_set_free_inodes_count, ext4_bg_get_used_dirs_count, ext4_bg_set_used_dirs_count, ext4_bg_get_itable_unused, ext4_bg_set_itable_unused. cbv zeta.
  pose proof (low_part cnt 16 16 ltac:(lia) ltac:(lia)) as HL. change (16 + 16) with 32 in *. change (32 + 32) with 64 in *.
  destruct (EXT4_MIN_BLOCK_GROUP_DESCRIPTOR_SIZE <? ext4_sb_get_desc_size s); fields; rewrite !HL; change (256 ^ 4) with (2 ^ 32); change (256 ^ 2) with (2 ^ 16);
    unfold wrap; rewrite ?Z.mod_mod by lia; split_and!; done.
Qed.

(** ** Block groups *)

Lemma block_group_cnt_spec s : bytes_ok s -> let T := ext4_sb_get_blocks_cnt s in let b := sb s "blocks_per_group" in
  0 < b -> 0 < T <= b * (2 ^ 32 - 1) ->
  let n := ext4_block_group_cnt s in 0 < n < 2 ^ 32 /\ (n - 1) * b < T <= n * b.
Proof.
  intros Hs T b Hb HT. unfold ext4_block_group_cnt. fold T b. cbv zeta.
  pose proof (Z.div_mod T b ltac:(lia)) as HD. pose proof (Z.mod_pos_bound T b Hb) as HM.
  assert (0 <= T / b <= 2 ^ 32 - 1) as Hq. { split; [apply Z.div_pos; lia|]. apply Z.div_le_upper_bound; lia. }
  rewrite (wrap_small 32 (T / b)) by lia. destruct (Z.eqb_spec (T mod b) 0) as [E|E]; cbn [negb]; [nia|].
  assert (T / b < 2 ^ 32 - 1) by nia. rewrite wrap_small by lia. nia.
Qed.

Lemma blocks_in_group_spec s bgid : bytes_ok s -> let T := ext4_sb_get_blocks_cnt s in let b := sb s "blocks_per_group" in
  0 < b -> 0 < T <= b * (2 ^ 32 - 1) ->
  let n := ext4_block_group_cnt s in ext4_blocks_in_group_cnt s bgid = if bgid <? n - 1 then b else T - (n - 1) * b.
Proof.
  intros Hs T b Hb HT n. destruct (block_group_cnt_spec s Hs Hb HT) as [Hn Hr]. fold n T b in Hn, Hr.
  pose proof (blocks_cnt_range s Hs) as HR. pose proof (rd32_range s "blocks_per_group" Hs eq_refl) as Hb32. fold T in HR. fold b in Hb32.
  unfold ext4_blocks_in_group_cnt. fold n T b. cbv zeta. rewrite (wrap_small 32 (n - 1)) by lia. destruct (bgid <? n - 1); [done|].
  unfold wrap. change (2 ^ 64) with (2 ^ 32 * 2 ^ 32). rewrite Z.rem_mul_r, (Z.mul_comm (2 ^ 32)), Z.mod_add, Z.mod_mod by lia.
  rewrite Zminus_mod_idemp_r. apply Z.mod_small. lia.
Qed.

(** Adding up [n] groups of [b] blocks, the last of which has [r]. *)
Lemma sum_groups (f : Z -> Z) b r n : (forall k, 0 <= k < Z.of_nat n -> f k = b) -> f (Z.of_nat n) = r ->
  foldr Z.add 0 (map (fun k => f (Z.of_nat k)) (seq 0 (S n))) = Z.of_nat n * b + r.
Proof.
  intros Hf Hr. rewrite seq_S, map_app. cbn [map]. rewrite Nat.add_0_l, Hr.
  assert (forall k l, foldr Z.add k l = foldr Z.add 0 l + k) as Hacc by (intros k l; induction l as [|x l IH]; cbn [foldr]; [done|rewrite IH; lia]).
  rewrite foldr_app, Hacc. cbn [foldr]. enough (foldr Z.add 0 (map (fun k => f (Z.of_nat k)) (seq 0 n)) = Z.of_nat n * b) by lia.
  clear Hr. induction n as [|n IH]; [done|]. rewrite seq_S, map_app, foldr_app, Hacc. cbn [map foldr].
  rewrite IH by (intros; apply Hf; lia). rewrite Nat.add_0_l, Hf by lia. lia.
Qed.

(** The address of the first block of the first group. *)
Definition first_block (s : mem) : Z := if negb (sb s "first_data_block" =? 0) then 1 else 0.

Lemma bgid_of_block s a : first_block s <= a -> ext4_balloc_get_bgid_of_block s a = u32 ((a - first_block s) / sb s "blocks_per_group") /\
  ext4_fs_addr_to_idx_bg s a = u32 ((a - first_block s) mod sb s "blocks_per_group").
Proof.
  unfold ext4_balloc_get_bgid_of_block, ext4_fs_addr_to_idx_bg, first_block. destruct (sb s "first_data_block" =? 0); cbn [negb andb]; intros Ha.
  - by rewrite Z.sub_0_r.
  - rewrite (proj2 (Z.eqb_neq a 0)) by lia. done.
Qed.

(** Back from a group and an index in it to the address. *)
Lemma idx_to_addr s q i : 0 <= i < 2 ^ 32 - 1 -> ext4_fs_bg_idx_to_addr s i q = u32 (sb s "blocks_per_group" * q + i + first_block s).
Proof.
  intros Hi. unfold ext4_fs_bg_idx_to_addr, first_block, wrap. destruct (sb s "first_data_block" =? 0); cbn [negb].
  - rewrite Zplus_mod_idemp_l. f_equal. lia.
  - rewrite (Z.mod_small (i + 1)), Zplus_mod_idemp_l by lia. f_equal. lia.
Qed.


(** ** Copies of the superblock *)

(** The loop returns, and says whether its argument is a power. *)
Lemma is_power_of_spec n a b : 2 <= b -> 0 < a < 2 ^ Z.of_nat n ->
  exists r, is_power_of_loop n a b = Some r /\ (r = true <-> exists k, 0 < k /\ a = b ^ k).
Proof.
  intros Hb. revert a. induction n as [|n IH]; intros a Ha; cbn [is_power_of_loop]; [change (2 ^ Z.of_nat 0) with 1 in Ha; lia|].
  assert (forall k, 0 < k -> b ^ k = b * b ^ (k - 1) /\ 0 < b ^ (k - 1)) as HP.
  { intros k Hk. split; [rewrite <- Z.pow_succ_r by lia; f_equal; lia|apply Z.pow_pos_nonneg; lia]. }
  destruct (Z.ltb_spec a b). { exists false. split; [done|]. split; [done|]. intros (k & Hk & ->). destruct (HP k Hk). nia. }
  destruct (Z.eqb_spec a b) as [->|Hne]. { exists true. split; [done|]. split; [|done]. exists 1. split; [lia|by rewrite Z.pow_1_r]. }
  destruct (Z.eqb_spec (a mod b) 0) as [Hm|Hm]; cbn [negb].
  - pose proof (Z.div_mod a b ltac:(lia)) as HD. rewrite Nat2Z.inj_succ, Z.pow_succ_r in Ha by lia. destruct (IH (a / b)) as (r & -> & Hr); [nia|].
    exists r. split; [done|]. rewrite Hr. split; intros (k & Hk & E).
    + exists (k + 1). split; [lia|]. destruct (HP (k + 1) ltac:(lia)) as [-> _]. rewrite Z.add_simpl_r, <- E. lia.
    + destruct (HP k Hk) as [Ek Hpos]. destruct (Z.eq_dec k 1) as [->|]; [rewrite Z.pow_1_r in E; lia|]. exists (k - 1). split; [lia|].
      rewrite E, Ek, Z.mul_comm. apply Z.div_mul. lia.
  - exists false. split; [done|]. split; [done|]. intros (k & Hk & ->). destruct (HP k Hk) as [Ek _]. rewrite Ek, Z.mul_comm, Z.mod_mul in Hm by lia. done.
Qed.

Lemma is_power_of_true a b : 2 <= b -> 0 < a < 2 ^ 32 -> is_power_of a b = true <-> exists k, 0 < k /\ a = b ^ k.
Proof.
  intros Hb Ha. unfold is_power_of. destruct (is_power_of_spec 33 a b Hb) as (r & -> & Hr); [|done]. change (2 ^ Z.of_nat 33) with (2 * 2 ^ 32). lia.
Qed.

Lemma pow_odd b k : Z.odd b = true -> 0 <= k -> Z.odd (b ^ k) = true.
Proof. intros Hb Hk. destruct (Z.eq_dec k 0) as [->|]; [done|]. by rewrite Z.odd_pow by lia. Qed.

(** With the feature sparse_super the groups that hold a copy of the superblock
    are the first two and those whose number is a power of 3, 5 or 7; the test
    ends on every number. *)
Theorem sb_sparse_powers (g : Z) : 0 <= g < 2 ^ 32 ->
  ext4_sb_sparse g = true <-> g <= 1 \/ exists b k, (b = 3 \/ b = 5 \/ b = 7) /\ 0 < k /\ g = b ^ k.
Proof.
  intros Hg. unfold ext4_sb_sparse. destruct (Z.leb_spec g 1) as [|Hg1]; [split; [by left|done]|].
  change 1 with (Z.ones 1) at 1. rewrite Z.land_ones by lia. change (2 ^ 1) with 2.
  destruct (Z.eqb_spec (g mod 2) 0) as [E|E].
  - split; [done|]. intros [|(b & k & Hb & Hk & ->)]; [lia|]. exfalso. assert (Z.odd (b ^ k) = true) as Ho by (apply pow_odd; [destruct Hb as [->|[->| ->]]; done|lia]).
    rewrite Zmod_odd, Ho in E. done.
  - rewrite !orb_true_iff, !is_power_of_true by lia. split.
    + intros [[(k & Hk & ->)|(k & Hk & ->)]|(k & Hk & ->)]; right; [exists 7|exists 5|exists 3]; exists k; split_and!; auto.
    + intros [|(b & k & Hb & Hk & ->)]; [lia|]. destruct Hb as [->|[->| ->]]; eauto.
Qed.

(** ** The checksum of the superblock *)

Lemma sb_csum_range s : 0 <= ext4_sb_csum s < 2 ^ 32.
Proof. unfold ext4_sb_csum. apply crc32c_range. unfold EXT4_CRC32_INIT. lia. Qed.

(** A superblock whose checksum has been set passes the test, and is otherwise
    what it was. *)
Theorem sb_csum_verified (s : mem) : sb s "checksum_type" = EXT4_CHECKSUM_CRC32C ->
  ext4_sb_verify_csum (ext4_sb_set_csum s) = true /\ same_range s (ext4_sb_set_csum s) 0 (offsetof ext4_sblock "checksum").
Proof.
  intros Ht. pose proof (sb_csum_range s) as HR.
  unfold ext4_sb_set_csum. destruct (ext4_sb_feature_ro_com s EXT4_FRO_COM_METADATA_CSUM) eqn:Hf; cbn [negb].
  - assert (same_range s (wr ext4_sblock s 0 "checksum" (ext4_sb_csum s)) 0 (offsetof ext4_sblock "checksum")) as Hsame.
    { intros a Ha. symmetry. apply store_out. lia. }
    split; [|done]. unfold ext4_sb_verify_csum. assert (ext4_sb_csum (wr ext4_sblock s 0 "checksum" (ext4_sb_csum s)) = ext4_sb_csum s) as ->.
    { symmetry. exact (crc32c_ext EXT4_CRC32_INIT _ _ _ _ Hsame). }
    unfold ext4_sb_feature_ro_com in *. rewrite !rd_wr_ne, Hf, Ht, rd_wr by reflexivity. cbn [negb]. rewrite Z.eqb_refl. cbn [negb]. apply Z.eqb_eq.
    apply Z.mod_small. change (256 ^ Z.of_nat (widthof ext4_sblock "checksum")) with (2 ^ 32). exact HR.
  - split; [|done]. unfold ext4_sb_verify_csum. by rewrite Hf.
Qed.

(** ** Witnesses *)

(** 8193 blocks of 1 KiB in groups of 8192: block 8193, which does not exist, is
    the only one of the second group. *)
Definition demo_sb : mem :=
  wr ext4_sblock (wr ext4_sblock (wr ext4_sblock (fun _ => 0) 0 "blocks_count_lo" 8193) 0 "blocks_per_group" 8192) 0 "first_data_block" 1.

Lemma demo_sb_ok : bytes_ok demo_sb.
Proof. unfold demo_sb. repeat apply wr_ok. intros a. lia. Qed.

Lemma demo_sb_counts : ext4_sb_get_blocks_cnt demo_sb = 8193 /\ rd ext4_sblock demo_sb 0 "blocks_per_group" = 8192 /\ ext4_block_group_cnt demo_sb = 2 /\ first_block demo_sb = 1.
Proof. vm_compute. done. Qed.

