(* ===== verification/Ext4Inode.v ===== *)
(** * kernel/fs/ext4_inode.c: inodes as they are on the disk

    An inode is its bytes, at offset 0; [s] is the superblock. *)
From S2P Require Import Prelude Mem Bitmap Ext4Types.

Definition EINVAL : Z := 22.

(** inode->f, inode->osd2.linux2.f and inode->osd2.hurd2.f *)
Abbreviation OSD2 := (offsetof ext4_inode "osd2").
Abbreviation ino i f := (rd ext4_inode i 0 f) (only parsing).
Abbreviation osd_linux i f := (rd linux2 i OSD2 f) (only parsing).
Abbreviation osd_hurd i f := (rd hurd2 i OSD2 f) (only parsing).

(** do ... while (size > 256): halving a number of 32 bits at most 32 times. *)
Fixpoint ext4_inode_block_bits_count_loop (n : nat) (bits size : Z) : Z :=
  match n with
  | O => bits
  | S n =>
    let bits := bits + 1 in let size := Z.shiftr size 1 in
    if 256 <? size then ext4_inode_block_bits_count_loop n bits size else bits
  end.
Definition ext4_inode_block_bits_count (block_size : Z) : Z := ext4_inode_block_bits_count_loop 32 8 block_size.

Definition ext4_inode_get_mode (s i : mem) : Z :=
  let v := ino i "mode" in
  if sb s "creator_os" =? EXT4_SUPERBLOCK_OS_HURD then Z.lor v (u32 (Z.shiftl (osd_hurd i "mode_high") 16)) else v.
Definition ext4_inode_set_mode (s i : mem) (mode : Z) : mem :=
  let i := wr ext4_inode i 0 "mode" (Z.shiftr (u32 (Z.shiftl mode 16)) 16) in
  if sb s "creator_os" =? EXT4_SUPERBLOCK_OS_HURD then wr hurd2 i OSD2 "mode_high" (Z.shiftr mode 16) else i.

(** uid and gid are fields of 16 bits. *)
Definition ext4_inode_get_uid (i : mem) : Z := ino i "uid".
Definition ext4_inode_set_uid (i : mem) (uid : Z) : mem := wr ext4_inode i 0 "uid" uid.

Definition ext4_inode_type (s i : mem) : Z := Z.land (ext4_inode_get_mode s i) EXT4_INODE_MODE_TYPE_MASK.
Definition ext4_inode_is_type (s i : mem) (type : Z) : bool := ext4_inode_type s i =? type.

Definition ext4_inode_get_size (s i : mem) : Z :=
  let v := ino i "size_lo" in
  if (0 <? sb s "rev_level") && ext4_inode_is_type s i EXT4_INODE_MODE_FILE then Z.lor v (u64 (Z.shiftl (ino i "size_hi") 32)) else v.
Definition ext4_inode_set_size (i : mem) (size : Z) : mem :=
  let i := wr ext4_inode i 0 "size_lo" (Z.shiftr (u64 (Z.shiftl size 32)) 32) in
  wr ext4_inode i 0 "size_hi" (Z.shiftr size 32).

Definition ext4_inode_get_csum (s i : mem) : Z :=
  let inode_size := sb s "inode_size" in
  let v := osd_linux i "checksum_lo" in
  if EXT4_GOOD_OLD_INODE_SIZE <? inode_size then Z.lor v (u32 (Z.shiftl (ino i "checksum_hi") 16)) else v.
Definition ext4_inode_set_csum (s i : mem) (checksum : Z) : mem :=
  let inode_size := sb s "inode_size" in
  let i := wr linux2 i OSD2 "checksum_lo" (Z.shiftr (u32 (Z.shiftl checksum 16)) 16) in
  if EXT4_GOOD_OLD_INODE_SIZE <? inode_size then wr ext4_inode i 0 "checksum_hi" (Z.shiftr checksum 16) else i.

Definition ext4_inode_get_access_time (i : mem) : Z := ino i "access_time".
Definition ext4_inode_set_access_time (i : mem) (time : Z) : mem := wr ext4_inode i 0 "access_time" time.
Definition ext4_inode_get_change_inode_time (i : mem) : Z := ino i "change_inode_time".
Definition ext4_inode_set_change_inode_time (i : mem) (time : Z) : mem := wr ext4_inode i 0 "change_inode_time" time.
Definition ext4_inode_get_modif_time (i : mem) : Z := ino i "modification_time".
Definition ext4_inode_set_modif_time (i : mem) (time : Z) : mem := wr ext4_inode i 0 "modification_time" time.
Definition ext4_inode_get_del_time (i : mem) : Z := ino i "deletion_time".
Definition ext4_inode_set_del_time (i : mem) (time : Z) : mem := wr ext4_inode i 0 "deletion_time" time.
Definition ext4_inode_get_gid (i : mem) : Z := ino i "gid".
Definition ext4_inode_set_gid (i : mem) (gid : Z) : mem := wr ext4_inode i 0 "gid" gid.
Definition ext4_inode_get_links_cnt (i : mem) : Z := ino i "links_count".
Definition ext4_inode_set_links_cnt (i : mem) (cnt : Z) : mem := wr ext4_inode i 0 "links_count" cnt.
Definition ext4_inode_get_flags (i : mem) : Z := ino i "flags".
Definition ext4_inode_set_flags (i : mem) (flags : Z) : mem := wr ext4_inode i 0 "flags" flags.
Definition ext4_inode_get_generation (i : mem) : Z := ino i "generation".
Definition ext4_inode_set_generation (i : mem) (gen : Z) : mem := wr ext4_inode i 0 "generation" gen.

Definition ext4_inode_has_flag (i : mem) (f : Z) : bool := has_bits (ext4_inode_get_flags i) f.
Definition ext4_inode_clear_flag (i : mem) (f : Z) : mem := ext4_inode_set_flags i (Z.land (ext4_inode_get_flags i) (Z.lnot f)).
Definition ext4_inode_set_flag (i : mem) (f : Z) : mem := ext4_inode_set_flags i (Z.lor (ext4_inode_get_flags i) f).

Definition ext4_inode_get_blocks_count (s i : mem) : Z :=
  let cnt := ino i "blocks_count_lo" in
  if ext4_sb_feature_ro_com s EXT4_FRO_COM_HUGE_FILE then
    let cnt := Z.lor cnt (u64 (Z.shiftl (osd_linux i "blocks_high") 32)) in
    if ext4_inode_has_flag i EXT4_INODE_FLAG_HUGE_FILE then
      let b := ext4_inode_block_bits_count (ext4_sb_get_block_size s) in
      u64 (Z.shiftl cnt (b - 9))
    else cnt
  else cnt.

(** The result and the inode. *)
Definition ext4_inode_set_blocks_count (s i : mem) (count : Z) : Z * mem :=
  if count <=? 2 ^ 32 - 1 then
    let i := wr ext4_inode i 0 "blocks_count_lo" (u32 count) in
    let i := wr linux2 i OSD2 "blocks_high" 0 in
    (EOK, ext4_inode_clear_flag i EXT4_INODE_FLAG_HUGE_FILE)
  else if negb (ext4_sb_feature_ro_com s EXT4_FRO_COM_HUGE_FILE) then (EINVAL, i)
  else if count <=? 2 ^ 48 - 1 then
    let i := wr ext4_inode i 0 "blocks_count_lo" (u32 count) in
    let i := wr linux2 i OSD2 "blocks_high" (wrap 16 (Z.shiftr count 32)) in
    (EOK, ext4_inode_clear_flag i EXT4_INODE_FLAG_HUGE_FILE)
  else
    let block_bits := ext4_inode_block_bits_count (ext4_sb_get_block_size s) in
    let i := ext4_inode_set_flag i EXT4_INODE_FLAG_HUGE_FILE in
    let count := Z.shiftr count (block_bits - 9) in
    let i := wr ext4_inode i 0 "blocks_count_lo" (u32 count) in
    (EOK, wr linux2 i OSD2 "blocks_high" (wrap 16 (Z.shiftr count 32))).

Definition ext4_inode_get_extra_isize (s i : mem) : Z :=
  let inode_size := sb s "inode_size" in
  if EXT4_GOOD_OLD_INODE_SIZE <? inode_size then ino i "extra_isize" else 0.
Definition ext4_inode_set_extra_isize (s i : mem) (size : Z) : mem :=
  let inode_size := sb s "inode_size" in
  if EXT4_GOOD_OLD_INODE_SIZE <? inode_size then wr ext4_inode i 0 "extra_isize" size else i.

(** The upper half is read 16 bits too low. *)
Definition ext4_inode_get_file_acl (i s : mem) : Z :=
  let v := ino i "file_acl_lo" in
  if sb s "creator_os" =? EXT4_SUPERBLOCK_OS_LINUX then Z.lor v (u32 (Z.shiftl (osd_linux i "file_acl_high") 16)) else v.
Definition ext4_inode_set_file_acl (i s : mem) (acl : Z) : mem :=
  let i := wr ext4_inode i 0 "file_acl_lo" (Z.shiftr (u64 (Z.shiftl acl 32)) 32) in
  if sb s "creator_os" =? EXT4_SUPERBLOCK_OS_LINUX then wr linux2 i OSD2 "file_acl_high" (wrap 16 (Z.shiftr acl 32)) else i.

(** inode->blocks[idx] *)
Definition ext4_inode_get_direct_block (i : mem) (idx : Z) : Z := load i (offsetof ext4_inode "blocks" + 4 * idx) 4.
Definition ext4_inode_set_direct_block (i : mem) (idx block : Z) : mem := store i (offsetof ext4_inode "blocks" + 4 * idx) 4 block.
Definition ext4_inode_get_indirect_block (i : mem) (idx : Z) : Z :=
  load i (offsetof ext4_inode "blocks" + 4 * (idx + EXT4_INODE_INDIRECT_BLOCK)) 4.
Definition ext4_inode_set_indirect_block (i : mem) (idx block : Z) : mem :=
  store i (offsetof ext4_inode "blocks" + 4 * (idx + EXT4_INODE_INDIRECT_BLOCK)) 4 block.

Definition ext4_inode_get_dev (i : mem) : Z :=
  let dev_0 := ext4_inode_get_direct_block i 0 in
  let dev_1 := ext4_inode_get_direct_block i 1 in
  if negb (dev_0 =? 0) then dev_0 else dev_1.
Definition ext4_inode_set_dev (i : mem) (dev : Z) : mem :=
  if has_bits dev (Z.lnot 0xFFFF) then ext4_inode_set_direct_block i 1 dev else ext4_inode_set_direct_block i 0 dev.

Definition ext4_inode_can_truncate (s i : mem) : bool :=
  if ext4_inode_has_flag i EXT4_INODE_FLAG_APPEND || ext4_inode_has_flag i EXT4_INODE_FLAG_IMMUTABLE then false
  else ext4_inode_is_type s i EXT4_INODE_MODE_FILE || ext4_inode_is_type s i EXT4_INODE_MODE_DIRECTORY || ext4_inode_is_type s i EXT4_INODE_MODE_SOFTLINK.
Definition ext4_inode_get_extent_header (inode : Z) : Z := inode + offsetof ext4_inode "blocks".

(** ** Reading what was written *)

(** The fields that are read and written as they are; the count of blocks and
    the device come below. *)
Inductive ifield := IMode | IUid | IGid | ISize | ICsum | IAccess | IChange | IModif | IDel | ILinks | IFlags | IGen | IExtra | IAcl | IBlock (k : Z).

Definition iget (s i : mem) (f : ifield) : Z :=
  match f with
  | IMode => ext4_inode_get_mode s i
  | IUid => ext4_inode_get_uid i
  | IGid => ext4_inode_get_gid i
  | ISize => ext4_inode_get_size s i
  | ICsum => ext4_inode_get_csum s i
  | IAccess => ext4_inode_get_access_time i
  | IChange => ext4_inode_get_change_inode_time i
  | IModif => ext4_inode_get_modif_time i
  | IDel => ext4_inode_get_del_time i
  | ILinks => ext4_inode_get_links_cnt i
  | IFlags => ext4_inode_get_flags i
  | IGen => ext4_inode_get_generation i
  | IExtra => ext4_inode_get_extra_isize s i
  | IAcl => ext4_inode_get_file_acl i s
  | IBlock k => ext4_inode_get_direct_block i k
  end.
Definition iset (s i : mem) (f : ifield) (v : Z) : mem :=
  match f with
  | IMode => ext4_inode_set_mode s i v
  | IUid => ext4_inode_set_uid i v
  | IGid => ext4_inode_set_gid i v
  | ISize => ext4_inode_set_size i v
  | ICsum => ext4_inode_set_csum s i v
  | IAccess => ext4_inode_set_access_time i v
  | IChange => ext4_inode_set_change_inode_time i v
  | IModif => ext4_inode_set_modif_time i v
  | IDel => ext4_inode_set_del_time i v
  | ILinks => ext4_inode_set_links_cnt i v
  | IFlags => ext4_inode_set_flags i v
  | IGen => ext4_inode_set_generation i v
  | IExtra => ext4_inode_set_extra_isize s i v
  | IAcl => ext4_inode_set_file_acl i s v
  | IBlock k => ext4_inode_set_direct_block i k v
  end.

(** The bits of the argument of a setter. *)
Definition ibits (f : ifield) : Z := match f with ISize | IAcl => 64 | IExtra | ILinks => 16 | _ => 32 end.

(** What the inode keeps of a number. *)
Definition ikept (s i : mem) (f : ifield) (v : Z) : Z :=
  match f with
  | IMode => if sb s "creator_os" =? EXT4_SUPERBLOCK_OS_HURD then v else v mod 2 ^ 16
  | IUid | IGid => v mod 2 ^ 16
  | ISize => if (0 <? sb s "rev_level") && ext4_inode_is_type s i EXT4_INODE_MODE_FILE then v else v mod 2 ^ 32
  | ICsum => if EXT4_GOOD_OLD_INODE_SIZE <? sb s "inode_size" then v else v mod 2 ^ 16
  | IExtra => if EXT4_GOOD_OLD_INODE_SIZE <? sb s "inode_size" then v else 0
  | IAcl => if sb s "creator_os" =? EXT4_SUPERBLOCK_OS_LINUX then Z.lor (v mod 2 ^ 32) (Z.shiftl (v / 2 ^ 32 mod 2 ^ 16) 16) else v mod 2 ^ 32
  | _ => v
  end.

Definition field_ok (f : ifield) : Prop := match f with IBlock k => 0 <= k < 15 | _ => True end.

(** Loads after stores at numeric offsets. *)
Ltac raw :=
  unfold rd, wr;
  repeat match goal with
  | |- context [offsetof ?l ?f] => let v := eval vm_compute in (offsetof l f) in change (offsetof l f) with v
  | |- context [widthof ?l ?f] => let v := eval vm_compute in (widthof l f) in change (widthof l f) with v
  end;
  repeat (rewrite load_store_same || rewrite load_store_other by lia).

Ltac open_inode :=
  cbn [iget iset ikept ibits]; unfold ext4_inode_get_size, ext4_inode_is_type, ext4_inode_type, ext4_inode_get_mode, ext4_inode_get_uid, ext4_inode_get_gid,
    ext4_inode_get_csum, ext4_inode_get_access_time, ext4_inode_get_change_inode_time, ext4_inode_get_modif_time, ext4_inode_get_del_time,
    ext4_inode_get_links_cnt, ext4_inode_get_flags, ext4_inode_get_generation, ext4_inode_get_extra_isize, ext4_inode_get_file_acl,
    ext4_inode_get_direct_block, ext4_inode_set_mode, ext4_inode_set_uid, ext4_inode_set_gid, ext4_inode_set_size, ext4_inode_set_csum,
    ext4_inode_set_access_time, ext4_inode_set_change_inode_time, ext4_inode_set_modif_time, ext4_inode_set_del_time, ext4_inode_set_links_cnt,
    ext4_inode_set_flags, ext4_inode_set_generation, ext4_inode_set_extra_isize, ext4_inode_set_file_acl, ext4_inode_set_direct_block; cbv zeta.

(** The size is read according to the mode. *)
Definition read_as (f g : ifield) : bool := match f, g with IMode, ISize => true | _, _ => false end.

Lemma inode_frame s i f g v : field_ok f -> field_ok g -> f <> g -> read_as f g = false -> iget s (iset s i f v) g = iget s i g.
Proof.
  intros Hf Hg Hne Hr.
  destruct (Z.eqb_spec (sb s "creator_os") EXT4_SUPERBLOCK_OS_HURD) as [EH|EH], (Z.eqb_spec (sb s "creator_os") EXT4_SUPERBLOCK_OS_LINUX) as [EL|EL];
    [exfalso; rewrite EH in EL; done| | |];
    destruct f; cbn [field_ok] in Hf; destruct g; try discriminate Hr; try (by destruct Hne); cbn [field_ok] in Hg; open_inode.
  all: rewrite ?(proj2 (Z.eqb_eq _ _) EH), ?(proj2 (Z.eqb_neq _ _) EH), ?(proj2 (Z.eqb_eq _ _) EL), ?(proj2 (Z.eqb_neq _ _) EL).
  all: try destruct (EXT4_GOOD_OLD_INODE_SIZE <? sb s "inode_size").
  all: try (assert (k <> k0) by congruence); raw; reflexivity.
Qed.

Lemma join_word v n w : 0 <= n -> 0 <= w -> 0 <= v < 2 ^ (n + w) -> Z.lor (v mod 2 ^ n) (wrap (n + w) (Z.shiftl (Z.shiftr v n mod 2 ^ w) n)) = v.
Proof.
  intros Hn Hw Hv. rewrite wrap_upper by (lia || (apply Z.mod_pos_bound, Z.pow_pos_nonneg; lia)). by apply join_halves.
Qed.

Lemma inode_same s i f v : field_ok f -> 0 <= v < 2 ^ ibits f -> iget s (iset s i f v) f = ikept s i f v.
Proof.
  intros Hf Hv. pose proof (low_part v 16 16 ltac:(lia) ltac:(lia)) as L16. pose proof (low_part v 32 32 ltac:(lia) ltac:(lia)) as L32.
  pose proof (join_word v 16 16 ltac:(lia) ltac:(lia)) as J32. pose proof (join_word v 32 32 ltac:(lia) ltac:(lia)) as J64.
  change (16 + 16) with 32 in *. change (32 + 32) with 64 in *.
  destruct f; cbn [field_ok ibits] in *; open_inode.
  all: try destruct (sb s "creator_os" =? EXT4_SUPERBLOCK_OS_HURD).
  all: try destruct (sb s "creator_os" =? EXT4_SUPERBLOCK_OS_LINUX).
  all: try destruct (EXT4_GOOD_OLD_INODE_SIZE <? sb s "inode_size").
  all: try destruct (0 <? sb s "rev_level"); cbn [andb].
  all: raw; rewrite ?L16, ?L32; change (256 ^ Z.of_nat 2) with (2 ^ 16); change (256 ^ Z.of_nat 4) with (2 ^ 32); rewrite ?Z.mod_mod by lia.
  all: try reflexivity; try (by apply J32); try (apply Z.mod_small; lia).
  all: try (destruct (_ =? _) in |- *; [by apply J64|reflexivity]).
  all: unfold wrap at 2; rewrite Z.mod_mod, (Z.shiftr_div_pow2 v 32) by lia; f_equal;
    apply (wrap_upper _ 16 16); [lia|lia|apply Z.mod_pos_bound; lia].
Qed.

(** Fields of an inode. Setting one and reading it gives the number back,
    cut to what the inode keeps of it: 16 bits of an owner or a group, 32 bits of
    the size of what is not a regular file, no more than the structure has room
    for; and the other fields are read as before, although some share the same
    bytes for different creators. The address of the attribute block is not
    restored: the getter puts its upper half 16 bits lower than the setter took it
    from, over the lower half. *)
Theorem inode_get_set (s i : mem) (f : ifield) (v : Z) : field_ok f -> 0 <= v < 2 ^ ibits f ->
  iget s (iset s i f v) f = ikept s i f v /\
  forall g, field_ok g -> f <> g -> read_as f g = false -> iget s (iset s i f v) g = iget s i g.
Proof. intros Hf Hv. split; [by apply inode_same|]. intros g Hg Hne Hr. by apply inode_frame. Qed.

(** ** The count of blocks *)

Lemma block_bits_spec n bits size k : 0 <= bits -> 9 <= k <= 8 + Z.of_nat n -> size = 2 ^ k ->
  ext4_inode_block_bits_count_loop n bits size = bits + (k - 8).
Proof.
  revert bits size k. induction n as [|n IH]; intros bits size k Hb Hk ->; cbn [ext4_inode_block_bits_count_loop]; [lia|].
  rewrite Z.shiftr_div_pow2 by lia. rewrite <- Z.pow_sub_r by lia. cbv zeta. destruct (Z.eq_dec k 9) as [->|].
  - change (256 <? 2 ^ (9 - 1)) with false. cbv iota. lia.
  - change 256 with (2 ^ 8). rewrite (proj2 (Z.ltb_lt (2 ^ 8) (2 ^ (k - 1)))) by (apply Z.pow_lt_mono_r; lia). rewrite (IH _ _ (k - 1)) by lia. lia.
Qed.

(** The size of a block is a power of two, and its bits are counted. *)
Lemma block_bits s : bytes_ok s -> sb s "log_block_size" <= 21 ->
  ext4_inode_block_bits_count (ext4_sb_get_block_size s) = 10 + sb s "log_block_size".
Proof.
  intros Hs Hl. pose proof (rd32_range s "log_block_size" Hs eq_refl) as Hr. set (k := sb s "log_block_size") in *.
  assert (ext4_sb_get_block_size s = 2 ^ (10 + k)) as ->.
  { unfold ext4_sb_get_block_size. fold k. rewrite Z.shiftl_mul_pow2 by lia. change 1024 with (2 ^ 10). rewrite <- Z.pow_add_r by lia.
    apply wrap_small. split; [apply Z.pow_nonneg; lia|apply Z.pow_lt_mono_r; lia]. }
  unfold ext4_inode_block_bits_count. rewrite (block_bits_spec 32 8 _ (10 + k)) by lia. lia.
Qed.

(** The flag of a huge file, after it was cleared or set. *)
Lemma huge_cleared i : ext4_inode_has_flag (ext4_inode_clear_flag i EXT4_INODE_FLAG_HUGE_FILE) EXT4_INODE_FLAG_HUGE_FILE = false.
Proof.
  unfold ext4_inode_has_flag, ext4_inode_clear_flag, ext4_inode_get_flags, ext4_inode_set_flags. rewrite rd_wr. change EXT4_INODE_FLAG_HUGE_FILE with (2 ^ 18).
  rewrite has_bits_pow2 by lia. change (256 ^ Z.of_nat (widthof ext4_inode "flags")) with (2 ^ 32).
  rewrite Z.mod_pow2_bits_low, Z.land_spec, Z.lnot_spec, Z.pow2_bits_true by lia. apply andb_false_r.
Qed.

Lemma huge_set i : ext4_inode_has_flag (ext4_inode_set_flag i EXT4_INODE_FLAG_HUGE_FILE) EXT4_INODE_FLAG_HUGE_FILE = true.
Proof.
  unfold ext4_inode_has_flag, ext4_inode_set_flag, ext4_inode_get_flags, ext4_inode_set_flags. rewrite rd_wr. change EXT4_INODE_FLAG_HUGE_FILE with (2 ^ 18).
  rewrite has_bits_pow2 by lia. change (256 ^ Z.of_nat (widthof ext4_inode "flags")) with (2 ^ 32).
  rewrite Z.mod_pow2_bits_low, Z.lor_spec, Z.pow2_bits_true by lia. apply orb_true_r.
Qed.

(** The 48 bits of a count. *)
Lemma join48 c : 0 <= c < 2 ^ 48 -> Z.lor (u32 c mod 256 ^ Z.of_nat 4) (u64 (Z.shiftl (wrap 16 (Z.shiftr c 32) mod 256 ^ Z.of_nat 2) 32)) = c.
Proof.
  intros Hc. change (256 ^ Z.of_nat 4) with (2 ^ 32). change (256 ^ Z.of_nat 2) with (2 ^ 16). unfold wrap at 1 3. rewrite !Z.mod_mod by lia.
  rewrite wrap_small; [apply (join_halves c 32 16); lia|]. rewrite Z.shiftl_mul_pow2 by lia. pose proof (Z.mod_pos_bound (Z.shiftr c 32) (2 ^ 16)).
  change (2 ^ 64) with (2 ^ 32 * 2 ^ 32). change (2 ^ 32) with (2 ^ 16 * 2 ^ 16) at 2 3. nia.
Qed.

(** The count of blocks of an inode is kept as it is below 2^48, rounded down to
    whole blocks above, and refused where the file system has no huge files. *)
Theorem inode_blocks_count_roundtrip (s i : mem) (c : Z) : bytes_ok s -> sb s "log_block_size" <= 21 -> 0 <= c < 2 ^ 64 ->
  let '(r, i') := ext4_inode_set_blocks_count s i c in
  let u := 2 ^ (1 + sb s "log_block_size") in
  if c <? 2 ^ 32 then r = EOK /\ ext4_inode_get_blocks_count s i' = c
  else if negb (ext4_sb_feature_ro_com s EXT4_FRO_COM_HUGE_FILE) then r = EINVAL /\ i' = i
  else if c <? 2 ^ 48 then r = EOK /\ ext4_inode_get_blocks_count s i' = c
  else c < 2 ^ 48 * u -> r = EOK /\ ext4_inode_get_blocks_count s i' = c / u * u.
Proof.
  intros Hs Hl Hc. pose proof (block_bits s Hs Hl) as HB. pose proof (rd32_range s "log_block_size" Hs eq_refl) as Hr.
  unfold ext4_inode_set_blocks_count. replace (c <=? 2 ^ 32 - 1) with (c <? 2 ^ 32) by lia. replace (c <=? 2 ^ 48 - 1) with (c <? 2 ^ 48) by lia.
  destruct (Z.ltb_spec c (2 ^ 32)) as [H32|H32]; [|destruct (ext4_sb_feature_ro_com s EXT4_FRO_COM_HUGE_FILE) eqn:Hf; cbn [negb]; [destruct (Z.ltb_spec c (2 ^ 48)) as [H48|H48]|done]].
  - split; [done|]. unfold ext4_inode_get_blocks_count. rewrite huge_cleared. unfold ext4_inode_clear_flag, ext4_inode_set_flags. raw.
    change (256 ^ Z.of_nat 4) with (2 ^ 32). rewrite wrap_small, Z.mod_small by lia. change (0 mod 256 ^ Z.of_nat 2) with 0.
    case_match; [|done]. change (Z.shiftl 0 32) with 0. by rewrite wrap_small, Z.lor_0_r by lia.
  - split; [done|]. unfold ext4_inode_get_blocks_count. rewrite huge_cleared, Hf. unfold ext4_inode_clear_flag, ext4_inode_set_flags. raw. apply join48. lia.
  - intros Hu. split; [done|]. unfold ext4_inode_get_blocks_count. rewrite Hf, HB. set (k := sb s "log_block_size") in *.
    assert (forall a b, ext4_inode_has_flag (wr linux2 (wr ext4_inode (ext4_inode_set_flag i EXT4_INODE_FLAG_HUGE_FILE) 0 "blocks_count_lo" a) OSD2 "blocks_high" b)
      EXT4_INODE_FLAG_HUGE_FILE = true) as ->.
    { intros a b. etrans; [|exact (huge_set i)]. unfold ext4_inode_has_flag, ext4_inode_get_flags.
      rewrite (rd_wr_apart linux2 ext4_inode) by (offs; lia). by rewrite rd_wr_ne by reflexivity. }
    unfold ext4_inode_set_flag, ext4_inode_set_flags. raw. replace (10 + k - 9) with (1 + k) by lia. set (u := 2 ^ (1 + k)) in *.
    assert (0 < u) as Hu0 by (apply Z.pow_pos_nonneg; lia). rewrite Z.shiftr_div_pow2 by lia. fold u.
    assert (0 <= c / u < 2 ^ 48) as Hq. { split; [apply Z.div_pos; lia|apply Z.div_lt_upper_bound; lia]. }
    rewrite join48 by done. rewrite Z.shiftl_mul_pow2 by lia. fold u. apply wrap_small. pose proof (Z.mul_div_le c u Hu0). lia.
Qed.

(** ** Witnesses *)

(** An owner of 65536 becomes owner 0. *)
Lemma inode_get_set_witness : iget demo_sb (iset demo_sb (fun _ => 0) IUid 65536) IUid = 0 /\ iget demo_sb (iset demo_sb (fun _ => 0) IUid 65536) IGid = 0.
Proof.
  destruct (inode_get_set demo_sb (fun _ => 0) IUid 65536) as [H1 H2]; [exact I|cbn; lia|].
  split; [exact H1|]. rewrite (H2 IGid); [reflexivity|exact I|discriminate|reflexivity].
Defined.

Lemma inode_blocks_count_witness : ext4_inode_get_blocks_count demo_sb (ext4_inode_set_blocks_count demo_sb (fun _ => 0) 70000).2 = 70000.
Proof. exact (proj2 (inode_blocks_count_roundtrip demo_sb (fun _ => 0) 70000 demo_sb_ok ltac:(vm_compute; discriminate) ltac:(lia))). Defined.
