(* ===== verification/Ext4Dir.v ===== *)
(** * kernel/fs/ext4_dir.c, ext4_dir.h: the entries of a directory block

    A directory block is its bytes, at offset 0, and an entry in it an offset;
    [s] is the superblock. Entries follow each other from the start of the block
    to its end, each with its own length; an entry whose inode is 0 is free. The
    functions that walk over the blocks of a directory are left out. *)
From S2P Require Import Prelude Mem Bitmap Crc32 Ext4Types Ext4Inode.
Definition ENOENT : Z := 2.
Definition EIO : Z := 5.
Definition EXT4_DE_UNKNOWN : Z := 0.
Definition EXT4_DE_REG_FILE : Z := 1.
Definition EXT4_DE_DIR : Z := 2.
Definition EXT4_DE_CHRDEV : Z := 3.
Definition EXT4_DE_BLKDEV : Z := 4.
Definition EXT4_DE_FIFO : Z := 5.
Definition EXT4_DE_SOCK : Z := 6.
Definition EXT4_DE_SYMLINK : Z := 7.

(** An inode in use: its number and its bytes. *)
Record ext4_inode_ref := InodeRef { ref_index : Z; ref_inode : mem }.

(** A block: its bytes, and whether it has to be written back. *)
Record dblock := DBlock { blk_data : mem; blk_dirty : bool }.

(** ** ext4_dir.h *)

Abbreviation den m de f := (rd ext4_dir_en m de f) (only parsing).

Definition ext4_dir_en_get_inode (m : mem) (de : Z) : Z := den m de "inode".
Definition ext4_dir_en_set_inode (m : mem) (de inode : Z) : mem := wr ext4_dir_en m de "inode" inode.
Definition ext4_dir_en_get_entry_len (m : mem) (de : Z) : Z := den m de "entry_len".
Definition ext4_dir_en_set_entry_len (m : mem) (de l : Z) : mem := wr ext4_dir_en m de "entry_len" l.

Definition ext4_dir_en_get_name_len (s m : mem) (de : Z) : Z :=
  let v := den m de "name_len" in
  if (sb s "rev_level" =? 0) && (sb s "minor_rev_level" <? 5) then Z.lor v (wrap 16 (Z.shiftl (den m de "in") 8)) else v.
Definition ext4_dir_en_set_name_len (s m : mem) (de len : Z) : mem :=
  let m := wr ext4_dir_en m de "name_len" (Z.shiftr (Z.shiftl len 8) 8) in
  if (sb s "rev_level" =? 0) && (sb s "minor_rev_level" <? 5) then wr ext4_dir_en m de "in" (Z.shiftr len 8) else m.
Definition ext4_dir_en_get_inode_type (s m : mem) (de : Z) : Z :=
  if (0 <? sb s "rev_level") || (5 <=? sb s "minor_rev_level") then den m de "in" else EXT4_DE_UNKNOWN.
Definition ext4_dir_en_set_inode_type (s m : mem) (de t : Z) : mem :=
  if (0 <? sb s "rev_level") || (5 <=? sb s "minor_rev_level") then wr ext4_dir_en m de "in" t else m.

(** ** Checksums of a block *)

Definition sizeof_tail : Z := 12.
Definition EXT4_DIRENT_TAIL (block blocksize : Z) : Z := block + (blocksize - sizeof_tail).

Definition ext4_dir_get_tail (s m : mem) : option Z :=
  let t := EXT4_DIRENT_TAIL 0 (ext4_sb_get_block_size s) in
  let tail := rd ext4_dir_entry_tail m t in
  if negb (tail "reserved_zero1" =? 0) || negb (tail "reserved_zero2" =? 0) then None
  else if negb (tail "rec_len" =? sizeof_tail) then None
  else if negb (tail "reserved_ft" =? EXT4_DIRENTRY_DIR_CSUM) then None
  else Some t.

(** The bytes of a number on the stack. *)
Definition le32 (v : Z) : mem := store (fun _ => 0) 0 4 v.

Definition ext4_dir_csum (s : mem) (ref : ext4_inode_ref) (m : mem) (size : Z) : Z :=
  let csum := ext4_crc32c EXT4_CRC32_INIT s (offsetof ext4_sblock "uuid") 16 in
  let csum := ext4_crc32c csum (le32 (ref_index ref)) 0 4 in
  let csum := ext4_crc32c csum (le32 (ext4_inode_get_generation (ref_inode ref))) 0 4 in
  ext4_crc32c csum m 0 size.

Definition ext4_dir_csum_verify (s : mem) (ref : ext4_inode_ref) (m : mem) : bool :=
  if ext4_sb_feature_ro_com s EXT4_FRO_COM_METADATA_CSUM then
    match ext4_dir_get_tail s m with
    | None => false
    | Some t => rd ext4_dir_entry_tail m t "checksum" =? ext4_dir_csum s ref m t
    end
  else true.

Definition ext4_dir_set_csum (s : mem) (ref : ext4_inode_ref) (m : mem) : mem :=
  if ext4_sb_feature_ro_com s EXT4_FRO_COM_METADATA_CSUM then
    match ext4_dir_get_tail s m with
    | None => m
    | Some t => wr ext4_dir_entry_tail m t "checksum" (ext4_dir_csum s ref m t)
    end
  else m.

Definition ext4_dir_init_entry_tail (m : mem) (t : Z) : mem :=
  let m := store m t 12 0 in
  let m := wr ext4_dir_entry_tail m t "rec_len" sizeof_tail in
  wr ext4_dir_entry_tail m t "reserved_ft" EXT4_DIRENTRY_DIR_CSUM.

(** ** Entries *)

(** The checks of an iterator at [curr_off]; the entry, when they pass. *)
Definition ext4_dir_iterator_set (s m : mem) (curr_off block_size : Z) : Z * option Z :=
  let off_in_block := u32 (curr_off mod block_size) in
  if negb (off_in_block mod 4 =? 0) then (EIO, None)
  else if u32 (block_size - 8) <? off_in_block then (EIO, None)
  else
    let length := ext4_dir_en_get_entry_len m off_in_block in
    if block_size <? u32 (off_in_block + length) then (EIO, None)
    else if length - 8 <? ext4_dir_en_get_name_len s m off_in_block then (EIO, None)
    else (EOK, Some off_in_block).

Fixpoint memcpy (m : mem) (p : Z) (l : list Z) : mem :=
  match l with
  | [] => m
  | b :: l => memcpy (mset m p b) (p + 1) l
  end.

(** switch (ext4_inode_type(sb, child->inode)) *)
Definition en_type (s : mem) (child : ext4_inode_ref) : Z :=
  let t := ext4_inode_type s (ref_inode child) in
  if t =? EXT4_INODE_MODE_DIRECTORY then EXT4_DE_DIR
  else if t =? EXT4_INODE_MODE_FILE then EXT4_DE_REG_FILE
  else if t =? EXT4_INODE_MODE_SOFTLINK then EXT4_DE_SYMLINK
  else if t =? EXT4_INODE_MODE_CHARDEV then EXT4_DE_CHRDEV
  else if t =? EXT4_INODE_MODE_BLOCKDEV then EXT4_DE_BLKDEV
  else if t =? EXT4_INODE_MODE_FIFO then EXT4_DE_FIFO
  else if t =? EXT4_INODE_MODE_SOCKET then EXT4_DE_SOCK
  else EXT4_DE_UNKNOWN.

(** ext4_assert: a message, then a loop that does not end. *)
Definition ext4_assert (b : bool) : E dblock unit := panic_if (negb b) "assertion failed".

Definition set_data (f : mem -> mem) : E dblock unit := modify (fun b => DBlock (f (blk_data b)) (blk_dirty b)).
Definition ext4_trans_set_block_dirty : E dblock unit := modify (fun b => DBlock (blk_data b) true).

Definition ext4_dir_write_entry (s : mem) (en entry_len : Z) (child : ext4_inode_ref) (name : list Z) : E dblock unit :=
  ext4_assert (entry_len <=? ext4_sb_get_block_size s);;
  set_data (fun m => ext4_dir_en_set_inode_type s m en (en_type s child));;
  set_data (fun m => ext4_dir_en_set_inode m en (ref_index child));;
  set_data (fun m => ext4_dir_en_set_entry_len m en entry_len);;
  set_data (fun m => ext4_dir_en_set_name_len s m en (wrap 16 (Z.of_nat (length name))));;
  set_data (fun m => memcpy m (en + 8) name).

(** while (start < stop); an entry of length 0 is never left behind. *)
Fixpoint try_insert_loop (n : nat) (s : mem) (parent child : ext4_inode_ref) (name : list Z) (required_len start : Z) : E dblock Z :=
  match n with
  | O => nofuel
  | S n =>
    if start <? ext4_sb_get_block_size s then
      b ← get;
      let m := blk_data b in
      let inode := ext4_dir_en_get_inode m start in
      let rec_len := ext4_dir_en_get_entry_len m start in
      let itype := ext4_dir_en_get_inode_type s m start in
      if (inode =? 0) && negb (itype =? EXT4_DIRENTRY_DIR_CSUM) && (required_len <=? rec_len) then
        ext4_dir_write_entry s start rec_len child name;;
        set_data (ext4_dir_set_csum s parent);;
        ext4_trans_set_block_dirty;;
        mret EOK
      else
        let used_len := ext4_dir_en_get_name_len s m start in
        let sz := wrap 16 (8 + used_len) in
        let sz := if negb (used_len mod 4 =? 0) then wrap 16 (sz + (4 - used_len mod 4)) else sz in
        let free_space := wrap 16 (rec_len - sz) in
        if negb (inode =? 0) && (required_len <=? free_space) then
          set_data (fun m => ext4_dir_en_set_entry_len m start sz);;
          ext4_dir_write_entry s (start + sz) free_space child name;;
          set_data (ext4_dir_set_csum s parent);;
          ext4_trans_set_block_dirty;;
          mret EOK
        else try_insert_loop n s parent child name required_len (start + rec_len)
    else mret ENOSPC
  end.

Definition ext4_dir_try_insert_entry (s : mem) (parent child : ext4_inode_ref) (name : list Z) : E dblock Z :=
  let block_size := ext4_sb_get_block_size s in
  let required_len := wrap 16 (8 + Z.of_nat (length name)) in
  let required_len := if negb (required_len mod 4 =? 0) then wrap 16 (required_len + (4 - required_len mod 4)) else required_len in
  try_insert_loop (S (Z.to_nat block_size)) s parent child name required_len 0.

(** while (de < addr_limit): the result and the entry. Every turn goes on by a
    byte at least, so that as many turns as the block has bytes are enough. *)
Fixpoint find_in_block_loop (n : nat) (s m : mem) (name : list Z) (de : Z) : Z * option Z :=
  match n with
  | O => (ENOENT, None)
  | S n =>
    let addr_limit := ext4_sb_get_block_size s in
    let name_len := Z.of_nat (length name) in
    if de <? addr_limit then
      if addr_limit <? de + name_len then (ENOENT, None)
      else if negb (ext4_dir_en_get_inode m de =? 0) && (ext4_dir_en_get_name_len s m de =? name_len) &&
              bool_decide (bytes_at m (de + 8) (length name) = name) then (EOK, Some de)
      else
        let de_len := ext4_dir_en_get_entry_len m de in
        if de_len =? 0 then (EINVAL, None)
        else find_in_block_loop n s m name (de + de_len)
    else (ENOENT, None)
  end.
Definition ext4_dir_find_in_block (s m : mem) (name : list Z) : Z * option Z :=
  find_in_block_loop (S (Z.to_nat (ext4_sb_get_block_size s))) s m name 0.

(** while ((offset + de_len) < pos): the predecessor and its length. *)
Fixpoint find_pred (n : nat) (m : mem) (offset pos : Z) : option (Z * Z) :=
  match n with
  | O => None
  | S n =>
    let de_len := ext4_dir_en_get_entry_len m offset in
    if offset + de_len <? pos then find_pred n m (offset + de_len) pos else Some (offset, de_len)
  end.

(** ext4_dir_remove_entry, from the entry it has found in a block on. *)
Definition remove_found (s : mem) (parent : ext4_inode_ref) (pos : Z) : E dblock unit :=
  set_data (fun m => ext4_dir_en_set_inode m pos 0);;
  (if pos =? 0 then mret tt
   else
     b ← get;
     let m := blk_data b in
     match find_pred (S (Z.to_nat pos)) m 0 pos with
     | None => nofuel
     | Some (tmp_de, de_len) =>
       ext4_assert (de_len + tmp_de =? pos);;
       let del_len := ext4_dir_en_get_entry_len m pos in
       set_data (fun m => ext4_dir_en_set_entry_len m tmp_de (de_len + del_len))
     end);;
  set_data (ext4_dir_set_csum s parent);;
  ext4_trans_set_block_dirty.

(** * Directory blocks as tables of names

    A directory block is a sequence of entries that fill it; the entries in use
    are a table from names to inodes. Looking a name up in the block, adding one
    and removing one are those operations of the table. *)

(** ** Entries *)

Record dent := Dent { d_ino : Z; d_len : Z; d_type : Z; d_name : list Z }.

Definition d_size (d : dent) : Z := 8 + Z.of_nat (length (d_name d)).

(** The entry [d] is at [p]. The name of a free entry does not count. *)
Definition dent_at (s m : mem) (p : Z) (d : dent) : Prop :=
  ext4_dir_en_get_inode m p = d_ino d /\ ext4_dir_en_get_entry_len m p = d_len d /\ ext4_dir_en_get_inode_type s m p = d_type d /\
  (d_ino d <> 0 -> ext4_dir_en_get_name_len s m p = Z.of_nat (length (d_name d)) /\ bytes_at m (p + 8) (length (d_name d)) = d_name d /\ d_size d <= d_len d) /\
  8 <= d_len d /\ d_len d mod 4 = 0.

(** The entries [l] follow each other from [p] to [q]. *)
Fixpoint dirents (s m : mem) (p : Z) (l : list dent) (q : Z) : Prop :=
  match l with
  | [] => p = q
  | d :: l => dent_at s m p d /\ dirents s m (p + d_len d) l q
  end.

(** The first entry in use with a name. *)
Fixpoint dir_lookup (l : list dent) (name : list Z) : option Z :=
  match l with
  | [] => None
  | d :: l => if negb (d_ino d =? 0) && bool_decide (d_name d = name) then Some (d_ino d) else dir_lookup l name
  end.

(** ** Bytes *)

Section Bytes.
Implicit Types (m : mem) (s : mem).

Lemma bytes_at_ext m m' p n : same_range m m' p (Z.of_nat n) -> bytes_at m p n = bytes_at m' p n.
Proof.
  revert p. induction n as [|n IH]; intros p H; cbn [bytes_at]; [done|]. rewrite (H p) by lia. f_equal. apply IH. intros a Ha. apply H. lia.
Qed.

Lemma memcpy_out m p l a : a < p \/ p + Z.of_nat (length l) <= a -> memcpy m p l a = m a.
Proof.
  revert m p. induction l as [|b l IH]; intros m p Ha; cbn [memcpy length] in *; [done|]. rewrite IH by lia. apply mset_ne. lia.
Qed.

Lemma bytes_memcpy m p l : Forall (fun b => 0 <= b < 256) l -> bytes_at (memcpy m p l) p (length l) = l.
Proof.
  intros Hl. revert m p. induction Hl as [|b l Hb Hl IH]; intros m p; cbn [memcpy length bytes_at]; [done|].
  rewrite IH, memcpy_out, mset_eq by lia. by rewrite wrap_small by lia.
Qed.

Lemma bytes_memcpy_ok m p l : bytes_ok m -> bytes_ok (memcpy m p l).
Proof. revert m p. induction l as [|b l IH]; intros m p Hm; cbn [memcpy]; [done|]. by apply IH, mset_ok. Qed.

Lemma same_range_sub m m' a n b k : same_range m m' a n -> a <= b -> b + k <= a + n -> same_range m m' b k.
Proof. intros H Ha Hk x Hx. apply H. lia. Qed.

Lemma same_range_sym m m' a n : same_range m m' a n -> same_range m' m a n.
Proof. intros H x Hx. symmetry. by apply H. Qed.

Lemma same_range_trans m1 m2 m3 a n : same_range m1 m2 a n -> same_range m2 m3 a n -> same_range m1 m3 a n.
Proof. intros H1 H2 x Hx. rewrite H1 by done. by apply H2. Qed.

Lemma rd_ext l m m' p f : same_range m m' (p + offsetof l f) (Z.of_nat (widthof l f)) -> rd l m p f = rd l m' p f.
Proof. apply load_ext. Qed.

Lemma wr_same l m p f v a n : p + offsetof l f + Z.of_nat (widthof l f) <= a \/ a + n <= p + offsetof l f -> same_range m (wr l m p f v) a n.
Proof. intros H x Hx. symmetry. apply store_out. lia. Qed.
End Bytes.

(** Only the bytes of an entry count, and of a free entry its head. *)
Definition d_used (d : dent) : Z := if d_ino d =? 0 then 8 else d_size d.

Lemma d_used_len s m p d : dent_at s m p d -> 8 <= d_used d <= d_len d.
Proof. intros (_ & _ & _ & Hn & Hl & _). unfold d_used, d_size in *. destruct (Z.eqb_spec (d_ino d) 0); [lia|]. destruct (Hn ltac:(done)) as (_ & _ & ?). lia. Qed.

Lemma dent_at_ext s m m' p d : same_range m m' p (d_used d) -> dent_at s m p d -> dent_at s m' p d.
Proof.
  intros H. unfold dent_at, d_used, d_size, ext4_dir_en_get_inode, ext4_dir_en_get_entry_len, ext4_dir_en_get_inode_type, ext4_dir_en_get_name_len in *.
  assert (forall f, has_field ext4_dir_en f = true -> rd ext4_dir_en m p f = rd ext4_dir_en m' p f) as HR.
  { intros f Hf. apply rd_ext. eapply same_range_sub; [exact H| |]; [pose proof (offsetof_pos ext4_dir_en f); lia|].
    enough (offsetof ext4_dir_en f + Z.of_nat (widthof ext4_dir_en f) <= 8) by (case_match; lia).
    cbn [has_field ext4_dir_en] in Hf. rewrite !orb_true_iff in Hf. destruct Hf as [Hf|[Hf|[Hf|[Hf|Hf]]]]; [..|done]; apply String.eqb_eq in Hf; subst f; vm_compute; discriminate. }
  rewrite !HR by reflexivity. intros (H1 & H2 & H3 & H4 & H5 & H6). split_and!; try done. intros Hne. destruct (H4 Hne) as (Hn & Hb & Hl). split_and!; [done| |done].
  rewrite <- Hb at 2. symmetry. apply bytes_at_ext. eapply same_range_sub; [exact H|lia|]. rewrite (proj2 (Z.eqb_neq _ _)) by done. lia.
Qed.

Section Sequences.
Context (s : mem).
Implicit Types (m : mem) (l : list dent).

Lemma dirents_le m p l q : dirents s m p l q -> p <= q.
Proof.
  revert p. induction l as [|d l IH]; intros p; cbn [dirents]; [lia|]. intros [Hd Hl]. apply IH in Hl. destruct Hd as (_ & _ & _ & _ & H8 & _). lia.
Qed.

Lemma dirents_app m p l1 l2 q : dirents s m p (l1 ++ l2) q <-> exists r, dirents s m p l1 r /\ dirents s m r l2 q.
Proof.
  revert p. induction l1 as [|d l1 IH]; intros p; cbn [app dirents].
  - split; [intros H; by exists p|]. by intros (r & -> & H).
  - rewrite IH. split; [intros (Hd & r & H1 & H2); by exists r|]. intros (r & [Hd H1] & H2). split; [done|]. by exists r.
Qed.

Lemma dirents_ext m m' p l q : same_range m m' p (q - p) -> dirents s m p l q -> dirents s m' p l q.
Proof.
  revert p. induction l as [|d l IH]; intros p H; cbn [dirents]; [done|]. intros [Hd Hl]. pose proof (dirents_le _ _ _ _ Hl). pose proof (d_used_len _ _ _ _ Hd).
  split; [eapply dent_at_ext; [|exact Hd]; eapply same_range_sub; [exact H|lia|lia]|]. apply IH; [|done]. eapply same_range_sub; [exact H|lia|lia].
Qed.

Lemma dirents_length m p l q : dirents s m p l q -> 8 * Z.of_nat (length l) <= q - p.
Proof.
  revert p. induction l as [|d l IH]; intros p; cbn [dirents length]; [lia|]. intros [Hd Hl]. apply IH in Hl. destruct Hd as (_ & _ & _ & _ & H8 & _). lia.
Qed.
End Sequences.

(** ** Finding a name *)

Section Find.
Context (s : mem).
Local Abbreviation bs := (ext4_sb_get_block_size s).

(** The code's test of an entry. *)
Lemma entry_matches m p d name : dent_at s m p d ->
  negb (ext4_dir_en_get_inode m p =? 0) && (ext4_dir_en_get_name_len s m p =? Z.of_nat (length name)) && bool_decide (bytes_at m (p + 8) (length name) = name) =
  negb (d_ino d =? 0) && bool_decide (d_name d = name).
Proof.
  intros (-> & _ & _ & Hn & _). destruct (Z.eqb_spec (d_ino d) 0); cbn [negb andb]; [done|]. destruct (Hn ltac:(done)) as (-> & Hb & _).
  destruct (decide (d_name d = name)) as [<-|Hne].
  - by rewrite Z.eqb_refl, Hb, !bool_decide_true.
  - rewrite (bool_decide_false (d_name d = name)) by done. destruct (Z.eqb_spec (Z.of_nat (length (d_name d))) (Z.of_nat (length name))) as [E|]; [|done]. cbn [andb].
    apply Nat2Z.inj in E. rewrite E in Hb. rewrite Hb. by rewrite bool_decide_false.
Qed.

(** A name that is longer than the rest of the block is not in it. *)
Lemma lookup_too_long m p l name : dirents s m p l bs -> bs < p + Z.of_nat (length name) -> dir_lookup l name = None.
Proof.
  revert p. induction l as [|d l IH]; intros p; cbn [dirents dir_lookup]; [done|]. intros [Hd Hl] Hlong.
  pose proof (dirents_le _ _ _ _ _ Hl) as Hle. assert (8 <= d_len d) as H8 by apply Hd. rewrite (IH (p + d_len d)) by (done || lia).
  destruct (Z.eqb_spec (d_ino d) 0) as [|Hne]; [done|]. cbn [negb andb]. rewrite bool_decide_false; [done|]. intros <-.
  destruct Hd as (_ & _ & _ & Hn & _). destruct (Hn Hne) as (_ & _ & ?). unfold d_size in *. lia.
Qed.

Definition found (m : mem) (p : Z) (l : list dent) (name : list Z) (q : Z) : Prop :=
  exists l1 d l2, l = l1 ++ d :: l2 /\ dirents s m p l1 q /\ dirents s m q (d :: l2) bs /\ d_ino d <> 0 /\ d_name d = name /\
    dir_lookup l1 name = None /\ dir_lookup l name = Some (d_ino d).

Lemma find_loop_spec n m name p l : dirents s m p l bs -> bs - p < Z.of_nat n ->
  match dir_lookup l name with
  | Some ino => exists q, find_in_block_loop n s m name p = (EOK, Some q) /\ found m p l name q
  | None => find_in_block_loop n s m name p = (ENOENT, None)
  end.
Proof.
  revert p l. induction n as [|n IH]; intros p l Hl Hn; cbn [find_in_block_loop].
  - apply dirents_le in Hl. lia.
  - destruct l as [|d l].
    { cbn [dirents dir_lookup] in *. subst p. cbv zeta. by rewrite Z.ltb_irrefl. }
    pose proof (proj2 Hl) as Hrest. cbn [dirents] in Hl. pose proof (proj1 Hl) as Hd. pose proof (dirents_le _ _ _ _ _ Hrest) as Hle. assert (8 <= d_len d) as H8 by apply Hd.
    cbv zeta. rewrite (proj2 (Z.ltb_lt p bs)) by lia. destruct (Z.ltb_spec bs (p + Z.of_nat (length name))) as [Hlong|Hshort].
    { by rewrite (lookup_too_long m p (d :: l) name Hl Hlong). }
    rewrite (entry_matches m p d name Hd). cbn [dir_lookup]. destruct (negb (d_ino d =? 0) && bool_decide (d_name d = name)) eqn:Hm.
    + exists p. split; [done|]. exists [], d, l. apply andb_true_iff in Hm. destruct Hm as [H0 Heq%bool_decide_eq_true]. apply negb_true_iff, Z.eqb_neq in H0.
      split_and!; [done|done|exact Hl|done|done|done|]. cbn [dir_lookup]. by rewrite bool_decide_true, (proj2 (Z.eqb_neq _ _)) by done.
    + destruct Hd as (_ & -> & _). rewrite (proj2 (Z.eqb_neq (d_len d) 0)) by lia. specialize (IH (p + d_len d) l Hrest ltac:(lia)).
      destruct (dir_lookup l name) as [ino|] eqn:Hlk; [|done]. destruct IH as (q & Hq & l1 & d' & l2 & -> & H1 & H2 & Hne & Hname & Hl1 & Hres). exists q. split; [done|].
      exists (d :: l1), d', l2. cbn [dir_lookup app]. rewrite Hm. split_and!; try done. split; [apply Hl|done].
Qed.
End Find.

(** ** Writing an entry *)

Section Write.
Context (s : mem) (Hs : bytes_ok s).
Local Abbreviation bs := (ext4_sb_get_block_size s).
Local Abbreviation typed := ((0 <? rd ext4_sblock s 0 "rev_level") || (5 <=? rd ext4_sblock s 0 "minor_rev_level")).

Lemma untyped : (rd ext4_sblock s 0 "rev_level" =? 0) && (rd ext4_sblock s 0 "minor_rev_level" <? 5) = negb typed.
Proof using Hs. pose proof (rd_range ext4_sblock s 0 "rev_level" Hs) as H. lia. Qed.

(** The type an entry for [child] is given. *)
Definition new_type (child : ext4_inode_ref) : Z := if typed then en_type s child else EXT4_DE_UNKNOWN.

Lemma en_type_range child : 0 <= en_type s child < 8.
Proof using. unfold en_type. repeat case_match; vm_compute; (split; [discriminate|reflexivity]). Qed.

Lemma new_type_csum child : new_type child <> EXT4_DIRENTRY_DIR_CSUM.
Proof using. unfold new_type, EXT4_DIRENTRY_DIR_CSUM. pose proof (en_type_range child). case_match; [lia|discriminate]. Qed.

Definition written (m : mem) (q len : Z) (child : ext4_inode_ref) (name : list Z) : mem :=
  let m := ext4_dir_en_set_inode_type s m q (en_type s child) in
  let m := ext4_dir_en_set_inode m q (ref_index child) in
  let m := ext4_dir_en_set_entry_len m q len in
  let m := ext4_dir_en_set_name_len s m q (wrap 16 (Z.of_nat (length name))) in
  memcpy m (q + 8) name.

Lemma write_entry_run q len child name b : len <= bs ->
  ext4_dir_write_entry s q len child name b = Done tt (DBlock (written (blk_data b) q len child name) (blk_dirty b)).
Proof using. intros H. unfold ext4_dir_write_entry, ext4_assert, panic_if. rewrite (proj2 (Z.leb_le _ _)) by done. reflexivity. Qed.

(** An entry is written in its own bytes. *)
Lemma written_same m q len child name a n : a + n <= q \/ q + 8 + Z.of_nat (length name) <= a -> same_range m (written m q len child name) a n.
Proof using.
  intros H. unfold written, ext4_dir_en_set_inode_type, ext4_dir_en_set_inode, ext4_dir_en_set_entry_len, ext4_dir_en_set_name_len. intros x Hx. rewrite memcpy_out by lia.
  repeat case_match; symmetry; repeat (etrans; [apply store_out; offs; lia|]); done.
Qed.

Lemma written_at m q len child name : 0 <= len < 2 ^ 16 -> len mod 4 = 0 -> 8 + Z.of_nat (length name) <= len -> Z.of_nat (length name) < 256 ->
  Forall (fun b => 0 <= b < 256) name -> 0 <= ref_index child < 2 ^ 32 -> dent_at s (written m q len child name) q (Dent (ref_index child) len (new_type child) name).
Proof using Hs.
  intros Hl Hm Hfit Hn Hb Hi. unfold dent_at. cbn [d_ino d_len d_type d_name].
  set (m1 := ext4_dir_en_set_name_len s (ext4_dir_en_set_entry_len (ext4_dir_en_set_inode (ext4_dir_en_set_inode_type s m q (en_type s child)) q (ref_index child)) q len) q (wrap 16 (Z.of_nat (length name)))).
  assert (forall f, has_field ext4_dir_en f = true -> rd ext4_dir_en (written m q len child name) q f = rd ext4_dir_en m1 q f) as HR.
  { intros f Hf. apply rd_ext. intros x Hx. apply memcpy_out. cbn [has_field ext4_dir_en] in Hf. rewrite !orb_true_iff in Hf.
    destruct Hf as [Hf|[Hf|[Hf|[Hf|Hf]]]]; [..|done]; apply String.eqb_eq in Hf; subst f; revert Hx; offs; lia. }
  assert (d_size (Dent (ref_index child) len (new_type child) name) <= len) as Hsz by (unfold d_size; cbn [d_name]; lia).
  unfold ext4_dir_en_get_inode, ext4_dir_en_get_entry_len, ext4_dir_en_get_inode_type, ext4_dir_en_get_name_len. rewrite !HR, untyped by reflexivity.
  unfold m1, ext4_dir_en_set_name_len, ext4_dir_en_set_inode_type, new_type, ext4_dir_en_set_inode, ext4_dir_en_set_entry_len. rewrite untyped.
  rewrite (wrap_small 16) by (change (2 ^ 16) with 65536; lia). pose proof (en_type_range child) as Ht.
  assert (bytes_at (written m q len child name) (q + 8) (length name) = name) as HB by (unfold written; by apply bytes_memcpy).
  assert (Z.of_nat (length name) / 2 ^ 8 = 0) as Hhi by (apply Z.div_small; lia).
  destruct typed; cbn [negb]; fields; rewrite !Z.shiftr_div_pow2, ?Z.shiftl_mul_pow2, Z.div_mul by lia; rewrite ?Hhi;
    change (256 ^ 4) with (2 ^ 32); change (256 ^ 2) with (2 ^ 16); change (256 ^ 1) with 256; rewrite !Z.mod_small by lia.
  - split_and!; try done; lia.
  - change (0 * 2 ^ 8) with 0. rewrite wrap_small, Z.lor_0_r by lia. split_and!; try done; lia.
Qed.
End Write.

(** ** Checksums *)

Section Csum.
Context (s : mem) (ref : ext4_inode_ref).
Local Abbreviation bs := (ext4_sb_get_block_size s).
Local Abbreviation csum_on := (ext4_sb_feature_ro_com s EXT4_FRO_COM_METADATA_CSUM).

(** With checksums the last entry of a block is the one that holds it. *)
Definition tail_entry (t : dent) : Prop := d_ino t = 0 /\ d_len t = 12 /\ d_type t = EXT4_DIRENTRY_DIR_CSUM.
Definition csum_tail (m : mem) (l : list dent) : Prop :=
  csum_on = true -> ext4_dir_get_tail s m = Some (bs - 12) /\ exists l0 t, l = l0 ++ [t] /\ tail_entry t.

Lemma get_tail_ext m m' : same_range m m' (bs - 12) 8 -> ext4_dir_get_tail s m' = ext4_dir_get_tail s m.
Proof.
  intros H. unfold ext4_dir_get_tail. cbv zeta.
  assert (forall f, (offsetof ext4_dir_entry_tail f + Z.of_nat (widthof ext4_dir_entry_tail f) <=? 8) = true ->
    rd ext4_dir_entry_tail m' (EXT4_DIRENT_TAIL 0 bs) f = rd ext4_dir_entry_tail m (EXT4_DIRENT_TAIL 0 bs) f) as HR.
  { intros f Hf. apply rd_ext, same_range_sym. eapply same_range_sub; [exact H| |]; unfold EXT4_DIRENT_TAIL, sizeof_tail; [pose proof (offsetof_pos ext4_dir_entry_tail f)|]; lia. }
  by rewrite !HR by reflexivity.
Qed.

Lemma dir_csum_range m n : 0 <= ext4_dir_csum s ref m n < 2 ^ 32.
Proof. unfold ext4_dir_csum. cbv zeta. repeat apply crc32c_range. unfold EXT4_CRC32_INIT. lia. Qed.

Lemma dir_csum_ext m m' n : same_range m m' 0 n -> ext4_dir_csum s ref m n = ext4_dir_csum s ref m' n.
Proof. intros H. unfold ext4_dir_csum. cbv zeta. exact (crc32c_ext _ _ _ _ _ H). Qed.

(** The checksum goes to the last four bytes of the block. *)
Lemma set_csum_same m a n : 12 <= bs -> (csum_on = true -> ext4_dir_get_tail s m = Some (bs - 12)) -> a + n <= bs - 4 -> same_range m (ext4_dir_set_csum s ref m) a n.
Proof.
  intros Hbs Ht Ha. unfold ext4_dir_set_csum. destruct csum_on; [|done]. rewrite Ht by done. apply wr_same. offs. lia.
Qed.

Lemma set_csum_verified m : 12 <= bs -> (csum_on = true -> ext4_dir_get_tail s m = Some (bs - 12)) -> ext4_dir_csum_verify s ref (ext4_dir_set_csum s ref m) = true.
Proof.
  intros Hbs Ht. pose proof (set_csum_same m 0 (bs - 12) Hbs Ht ltac:(lia)) as H0. pose proof (set_csum_same m (bs - 12) 8 Hbs Ht ltac:(lia)) as H12.
  unfold ext4_dir_csum_verify. destruct csum_on eqn:Hc; [|done]. rewrite (get_tail_ext _ _ H12), Ht by done. rewrite <- (dir_csum_ext _ _ _ H0).
  unfold ext4_dir_set_csum. rewrite Hc, Ht, rd_wr by done. apply Z.eqb_eq, Z.mod_small. apply dir_csum_range.
Qed.

Lemma set_csum_dirents m l : dirents s m 0 l bs -> csum_tail m l ->
  dirents s (ext4_dir_set_csum s ref m) 0 l bs /\ csum_tail (ext4_dir_set_csum s ref m) l /\ ext4_dir_csum_verify s ref (ext4_dir_set_csum s ref m) = true.
Proof.
  intros Hl Hc. destruct csum_on eqn:Hon.
  - destruct (Hc Hon) as (Ht & l0 & t & -> & Ht0 & Ht12 & HtT). apply dirents_app in Hl. destruct Hl as (r & H1 & [Hd Hend]). cbn [dirents] in Hend.
    pose proof (dirents_le _ _ _ _ _ H1). assert (12 <= bs) as Hbs by lia.
    split; [|split; [|by apply set_csum_verified]].
    + apply dirents_app. exists r. split; [|split; [|done]].
      * eapply dirents_ext; [|exact H1]. apply set_csum_same; [done|done|lia].
      * eapply dent_at_ext; [|exact Hd]. unfold d_used. rewrite Ht0. cbn [Z.eqb]. apply set_csum_same; [done|done|lia].
    + intros _. split; [|by exists l0, t]. rewrite (get_tail_ext m); [done|]. apply set_csum_same; [done|done|lia].
  - assert (ext4_dir_set_csum s ref m = m) as -> by (unfold ext4_dir_set_csum; by rewrite Hon). split_and!; [done|done|]. unfold ext4_dir_csum_verify. by rewrite Hon.
Qed.
End Csum.

(** ** Tables *)

Lemma dir_lookup_app l1 l2 n : dir_lookup (l1 ++ l2) n = match dir_lookup l1 n with Some x => Some x | None => dir_lookup l2 n end.
Proof. induction l1 as [|d l1 IH]; cbn [app dir_lookup]; [done|]. by destruct (negb _ && _). Qed.

(** No name is used twice. *)
Fixpoint unique (l : list dent) : Prop :=
  match l with
  | [] => True
  | d :: l => (d_ino d <> 0 -> dir_lookup l (d_name d) = None) /\ unique l
  end.

Lemma unique_app l1 l2 : unique (l1 ++ l2) <-> unique l1 /\ unique l2 /\ forall n, dir_lookup l1 n = None \/ dir_lookup l2 n = None.
Proof.
  induction l1 as [|d l1 IH]; cbn [app unique dir_lookup]; [naive_solver|]. rewrite IH. split.
  - intros (Hd & H1 & H2 & H12). split_and!; try done; [intros Hne; specialize (Hd Hne); rewrite dir_lookup_app in Hd; by case_match|].
    intros n. case_match eqn:E; [|apply H12]. apply andb_true_iff in E. destruct E as [E0 <-%bool_decide_eq_true]. apply negb_true_iff, Z.eqb_neq in E0.
    right. specialize (Hd E0). rewrite dir_lookup_app in Hd. by case_match.
  - intros ((Hd & H1) & H2 & H12). split_and!; try done.
    + intros Hne. rewrite dir_lookup_app, Hd by done. destruct (H12 (d_name d)) as [H|H]; [|done].
      rewrite (proj2 (Z.eqb_neq _ _)), bool_decide_true in H by done. discriminate H.
    + intros n. specialize (H12 n). case_match; [destruct H12; [discriminate|by right]|done].
Qed.

(** ** Adding a name *)

Section Insert.
Context (s : mem) (Hs : bytes_ok s) (parent child : ext4_inode_ref) (name : list Z).
Local Abbreviation bs := (ext4_sb_get_block_size s).
Context (Hbs : bs < 2 ^ 16) (Hname : Z.of_nat (length name) < 256) (Hbytes : Forall (fun b => 0 <= b < 256) name) (Hidx : 0 < ref_index child < 2 ^ 32).

(** A length in multiples of four. *)
Definition align4 (x : Z) : Z := (x + 3) / 4 * 4.

Lemma align4_spec x : align4 x = if negb (x mod 4 =? 0) then x + (4 - x mod 4) else x.
Proof.
  unfold align4. pose proof (Z.div_mod x 4). pose proof (Z.mod_pos_bound x 4). destruct (Z.eqb_spec (x mod 4) 0); cbn [negb].
  - replace (x + 3) with (3 + x / 4 * 4) by lia. rewrite Z.div_add by lia. change (3 / 4) with 0. lia.
  - replace (x + 3) with (x mod 4 - 1 + (x / 4 + 1) * 4) by lia. rewrite Z.div_add, Z.div_small by lia. lia.
Qed.

Lemma align4_bounds x : x <= align4 x < x + 4 /\ align4 x mod 4 = 0.
Proof. split; [rewrite align4_spec; pose proof (Z.mod_pos_bound x 4); case_match; lia|]. unfold align4. by rewrite Z.mod_mul. Qed.

Lemma align4_le x y : x <= y -> y mod 4 = 0 -> align4 x <= y.
Proof. intros H Hy. unfold align4. pose proof (Z.div_mod y 4). pose proof (Z.div_le_mono (x + 3) (y + 3) 4). replace (y + 3) with (3 + y / 4 * 4) in * by lia. rewrite Z.div_add in * by lia. change (3 / 4) with 0 in *. lia. Qed.

(** The room in an entry for another. *)
Definition d_room (d : dent) : Z :=
  if d_ino d =? 0 then if d_type d =? EXT4_DIRENTRY_DIR_CSUM then 0 else d_len d
  else d_len d - align4 (d_size d).

Definition required : Z := align4 (8 + Z.of_nat (length name)).

(** What becomes of the entry. *)
Definition split_dent (d : dent) : list dent :=
  if d_ino d =? 0 then [Dent (ref_index child) (d_len d) (new_type s child) name]
  else [Dent (d_ino d) (align4 (d_size d)) (d_type d) (d_name d);
        Dent (ref_index child) (d_len d - align4 (d_size d)) (new_type s child) name].

(** Shortening an entry to what its name needs. *)
Lemma cut_at m q d : dent_at s m q d -> d_ino d <> 0 -> d_len d <= bs ->
  dent_at s (ext4_dir_en_set_entry_len m q (align4 (d_size d))) q (Dent (d_ino d) (align4 (d_size d)) (d_type d) (d_name d)).
Proof.
  intros (H1 & H2 & H3 & H4 & H5 & H6) Hne Hle. destruct (H4 Hne) as (Hn & Hb & Hsz). pose proof (align4_bounds (d_size d)) as [HA HM]. pose proof (align4_le _ _ Hsz H6).
  unfold dent_at, ext4_dir_en_get_inode, ext4_dir_en_get_entry_len, ext4_dir_en_get_inode_type, ext4_dir_en_get_name_len, ext4_dir_en_set_entry_len in *.
  cbn [d_ino d_len d_type d_name]. rewrite rd_wr, !rd_wr_ne by reflexivity. change (256 ^ Z.of_nat (widthof ext4_dir_en "entry_len")) with (2 ^ 16).
  unfold d_size in *. cbn [d_name]. split_and!; [done|apply Z.mod_small; lia|done| |lia|done]. intros _. split_and!; [done| |lia].
  etrans; [|exact Hb]. symmetry. apply bytes_at_ext. apply wr_same. offs. lia.
Qed.

(** The entry at [q] takes the name: its bytes become those of [split_dent]. *)
Definition inserted (b b' : dblock) (q : Z) (d : dent) : Prop :=
  exists m', b' = DBlock (ext4_dir_set_csum s parent m') true /\ dirents s m' q (split_dent d) (q + d_len d) /\
    forall a n, a + n <= q \/ q + d_len d <= a -> same_range (blk_data b) m' a n.

Lemma insert_free b q d : dent_at s (blk_data b) q d -> d_ino d = 0 -> d_len d <= bs -> required <= d_len d ->
  inserted b (DBlock (ext4_dir_set_csum s parent (written s (blk_data b) q (d_len d) child name)) true) q d.
Proof using Hs Hbs Hname Hbytes Hidx.
  intros Hd H0 Hle Hr. pose proof (align4_bounds (8 + Z.of_nat (length name))) as [HA _]. fold required in HA. assert (d_len d mod 4 = 0) as Hm by apply Hd. exists (written s (blk_data b) q (d_len d) child name).
  split_and!; [done| |intros a n Ha; apply written_same; lia]. unfold split_dent. rewrite H0. cbn [Z.eqb dirents d_len]. split; [|done]. apply written_at; try done; lia.
Qed.

Lemma insert_split b q d : dent_at s (blk_data b) q d -> d_ino d <> 0 -> d_len d <= bs -> required <= d_len d - align4 (d_size d) ->
  let sz := align4 (d_size d) in
  inserted b (DBlock (ext4_dir_set_csum s parent (written s (ext4_dir_en_set_entry_len (blk_data b) q sz) (q + sz) (d_len d - sz) child name)) true) q d.
Proof using Hs Hbs Hname Hbytes Hidx.
  intros Hd H0 Hle Hr sz. pose proof (align4_bounds (8 + Z.of_nat (length name))) as [HA _]. fold required in HA. pose proof (align4_bounds (d_size d)) as [HS HM]. fold sz in HS, HM, Hr.
  pose proof (cut_at _ _ _ Hd H0 Hle) as Hcut. fold sz in Hcut. assert (d_len d mod 4 = 0) as Hm by apply Hd. assert (8 <= d_size d) as H8 by (unfold d_size; lia).
  exists (written s (ext4_dir_en_set_entry_len (blk_data b) q sz) (q + sz) (d_len d - sz) child name). split_and!; [done| |].
  - unfold split_dent. rewrite (proj2 (Z.eqb_neq _ _)) by done. cbn [dirents d_len]. split_and!; [| |lia].
    + eapply dent_at_ext; [|exact Hcut]. apply written_same. left. unfold d_used, d_size in *. cbn [d_ino d_name]. case_match; lia.
    + apply written_at; try done; [lia| |lia|lia]. rewrite Zminus_mod. fold sz. by rewrite Hm, HM.
  - intros a n Ha. eapply same_range_trans; [|apply written_same; lia]. apply wr_same. offs. lia.
Qed.

(** The lengths the code computes. *)
Lemma required_code : (let r := wrap 16 (8 + Z.of_nat (length name)) in if negb (r mod 4 =? 0) then wrap 16 (r + (4 - r mod 4)) else r) = required.
Proof using Hname.
  cbv zeta. rewrite (wrap_small 16 (8 + _)) by (change (2 ^ 16) with 65536; lia). unfold required. rewrite align4_spec.
  pose proof (Z.mod_pos_bound (8 + Z.of_nat (length name)) 4). case_match; [|done]. apply wrap_small. change (2 ^ 16) with 65536. lia.
Qed.

Lemma size_code d : d_size d <= d_len d -> d_len d <= bs ->
  (let u := Z.of_nat (length (d_name d)) in let sz := wrap 16 (8 + u) in if negb (u mod 4 =? 0) then wrap 16 (sz + (4 - u mod 4)) else sz) = wrap 16 (align4 (d_size d)).
Proof using Hbs Hname.
  unfold d_size. intros H1 H2. cbv zeta. rewrite (wrap_small 16 (8 + _)) by lia. rewrite align4_spec. replace ((8 + Z.of_nat (length (d_name d))) mod 4) with (Z.of_nat (length (d_name d)) mod 4).
  - case_match; [done|]. symmetry. apply wrap_small. lia.
  - rewrite Z.add_mod by lia. change (8 mod 4) with 0. by rewrite Z.add_0_l, Z.mod_mod by lia.
Qed.

(** One turn of the loop. *)
Lemma insert_turn n b p d : dent_at s (blk_data b) p d -> 0 <= p -> p + d_len d <= bs ->
  try_insert_loop (S n) s parent child name required p b =
    if d_room d <? required then try_insert_loop n s parent child name required (p + d_len d) b
    else Done EOK (DBlock (ext4_dir_set_csum s parent
      (if d_ino d =? 0 then written s (blk_data b) p (d_len d) child name
       else written s (ext4_dir_en_set_entry_len (blk_data b) p (align4 (d_size d))) (p + align4 (d_size d)) (d_len d - align4 (d_size d)) child name)) true).
Proof using Hs Hbs Hname Hbytes Hidx.
  intros (H1 & H2 & H3 & H4 & H5 & H6) Hp Hle. pose proof (align4_bounds (8 + Z.of_nat (length name))) as [HA _]. fold required in HA.
  cbn [try_insert_loop]. rewrite (proj2 (Z.ltb_lt p bs)) by lia. unfold get, mbind, E_bind. cbv zeta. rewrite H1, H2, H3. unfold d_room.
  destruct (Z.eqb_spec (d_ino d) 0) as [E0|E0]; cbn [andb negb].
  - destruct (d_type d =? EXT4_DIRENTRY_DIR_CSUM); cbn [andb negb]; [by rewrite (proj2 (Z.ltb_lt 0 required)) by lia|].
    destruct (Z.leb_spec required (d_len d)); [|by rewrite (proj2 (Z.ltb_lt (d_len d) required)) by lia]. rewrite (proj2 (Z.ltb_ge _ _)) by lia. by rewrite write_entry_run by lia.
  - destruct (H4 E0) as (-> & _ & Hsz). pose proof (align4_bounds (d_size d)) as [HS _]. pose proof (align4_le _ _ Hsz H6) as Hal. assert (8 <= d_size d) as H8 by (unfold d_size; lia).
    pose proof (size_code d Hsz ltac:(lia)) as Hc. cbv zeta in Hc. rewrite Hc. rewrite (wrap_small 16 (align4 (d_size d))), (wrap_small 16 (d_len d - _)) by lia.
    destruct (Z.leb_spec required (d_len d - align4 (d_size d))); [|by rewrite (proj2 (Z.ltb_lt _ required)) by lia]. rewrite (proj2 (Z.ltb_ge _ _)) by lia.
    unfold set_data at 1, modify at 1. cbn [blk_data blk_dirty]. by rewrite write_entry_run by lia.
Qed.

Lemma try_insert_loop_spec n b p l : 0 <= p -> dirents s (blk_data b) p l bs -> (length l < n)%nat ->
  let run := try_insert_loop n s parent child name required p b in
  (Forall (fun d => d_room d < required) l /\ run = Done ENOSPC b) \/
  exists l1 d l2 q b', l = l1 ++ d :: l2 /\ dirents s (blk_data b) p l1 q /\ dirents s (blk_data b) (q + d_len d) l2 bs /\ required <= d_room d /\
    run = Done EOK b' /\ inserted b b' q d.
Proof using Hs Hbs Hname Hbytes Hidx.
  revert p l. induction n as [|n IH]; intros p l Hp Hl Hn; [lia|]. cbv zeta. destruct l as [|d l].
  { cbn [dirents] in Hl. subst p. cbn [try_insert_loop]. rewrite Z.ltb_irrefl. left. split; [constructor|done]. }
  cbn [dirents length] in *. destruct Hl as [Hd Hl]. pose proof (dirents_le _ _ _ _ _ Hl) as Hle. assert (8 <= d_len d) as H8 by apply Hd.
  rewrite (insert_turn n b p d Hd Hp Hle). destruct (Z.ltb_spec (d_room d) required) as [Hno|Hyes].
  - destruct (IH (p + d_len d) l ltac:(lia) Hl ltac:(lia)) as [[Hf Hr]|(l1 & d' & l2 & q & b' & -> & H1 & H2 & H3 & H4 & H5)]; [left|right].
    + split; [by constructor|done].
    + by exists (d :: l1), d', l2, q, b'.
  - right. exists [], d, l, p, (DBlock (ext4_dir_set_csum s parent
      (if d_ino d =? 0 then written s (blk_data b) p (d_len d) child name
       else written s (ext4_dir_en_set_entry_len (blk_data b) p (align4 (d_size d))) (p + align4 (d_size d)) (d_len d - align4 (d_size d)) child name)) true).
    split_and!; try done. pose proof (align4_bounds (8 + Z.of_nat (length name))) as [HA _]. fold required in HA. unfold d_room in Hyes.
    destruct (Z.eqb_spec (d_ino d) 0); [apply insert_free; try done; [lia|destruct (_ =? _) in Hyes; lia]|by apply insert_split; [..|lia|]].
Qed.

Lemma split_lookup d n : (d_ino d <> 0 -> d_name d <> name) ->
  dir_lookup (split_dent d) n = if bool_decide (n = name) then Some (ref_index child) else dir_lookup [d] n.
Proof using Hidx.
  intros Hne. unfold split_dent. cbn [dir_lookup]. assert (forall l, dir_lookup (Dent (ref_index child) l (new_type s child) name :: []) n = if bool_decide (n = name) then Some (ref_index child) else None) as HN.
  { intros l. cbn [dir_lookup d_ino d_name]. rewrite (proj2 (Z.eqb_neq (ref_index child) 0)) by lia. cbn [negb andb]. destruct (decide (name = n)) as [<-|]; [by rewrite !bool_decide_true|].
    by rewrite !bool_decide_false by congruence. }
  destruct (Z.eqb_spec (d_ino d) 0) as [E|E]; cbn [negb andb]; [by rewrite HN; case_match|].
  change (dir_lookup (?a :: ?l) n) with (if negb (d_ino a =? 0) && bool_decide (d_name a = n) then Some (d_ino a) else dir_lookup l n). rewrite HN. cbn [d_ino d_name].
  rewrite (proj2 (Z.eqb_neq _ 0)) by done. cbn [negb andb]. destruct (decide (d_name d = n)) as [<-|]; [rewrite !(bool_decide_true (d_name d = d_name d)) by done; rewrite bool_decide_false; [done|auto]|].
  by rewrite !(bool_decide_false (d_name d = n)) by done.
Qed.

(** A block that holds the entries [l]. *)
Definition dir_block (m : mem) (l : list dent) : Prop := dirents s m 0 l bs /\ csum_tail s m l /\ unique l.

Lemma split_unique d : (d_ino d <> 0 -> d_name d <> name) -> unique (split_dent d).
Proof using.
  intros Hne. unfold split_dent. destruct (Z.eqb_spec (d_ino d) 0) as [|E]; cbn [unique dir_lookup d_ino d_name]; [done|]. split_and!; [|done|done].
  intros _. case_match eqn:Em; [|done]. apply andb_true_iff in Em. destruct Em as [_ Em%bool_decide_eq_true]. by destruct (Hne E).
Qed.

(** The checksum entry is not the one that is split. *)
Lemma tail_kept m m' l1 d l2 q : csum_tail s m (l1 ++ d :: l2) -> required <= d_room d -> dirents s m (q + d_len d) l2 bs ->
  (forall a n, q + d_len d <= a -> same_range m m' a n) -> csum_tail s m' (l1 ++ split_dent d ++ l2).
Proof using.
  intros Hc Hr H2 Hsame Hon. destruct (Hc Hon) as (Ht & l0 & t & El & Htail). pose proof (align4_bounds (8 + Z.of_nat (length name))) as [HA _]. fold required in HA.
  destruct l2 as [|x l2 _] using rev_ind.
  { apply app_inj_tail in El. destruct El as [_ ->]. destruct Htail as (Ht0 & _ & HtT). unfold d_room in Hr. rewrite Ht0, HtT in Hr. change (if 0 =? 0 then _ else _) with 0 in Hr. lia. }
  rewrite app_comm_cons, app_assoc in El. apply app_inj_tail in El. destruct El as [_ ->]. split; [|exists (l1 ++ split_dent d ++ l2), t; by rewrite !app_assoc].
  rewrite (get_tail_ext s m m'); [done|]. apply Hsame. apply dirents_app in H2. destruct H2 as (r & H21 & [_ Hend]). cbn [dirents] in Hend.
  pose proof (dirents_le _ _ _ _ _ H21). destruct Htail as (_ & H12 & _). lia.
Qed.

Lemma insert_spec b l : dir_block (blk_data b) l -> dir_lookup l name = None ->
  let run := ext4_dir_try_insert_entry s parent child name b in
  (Forall (fun d => d_room d < required) l /\ run = Done ENOSPC b) \/
  exists m' l', run = Done EOK (DBlock m' true) /\ dir_block m' l' /\ ext4_dir_csum_verify s parent m' = true /\
    forall n, dir_lookup l' n = if bool_decide (n = name) then Some (ref_index child) else dir_lookup l n.
Proof using Hs Hbs Hname Hbytes Hidx.
  intros (Hl & Hc & Hu) Hnone. pose proof (dirents_length _ _ _ _ _ Hl) as Hlen. unfold ext4_dir_try_insert_entry. pose proof required_code as Hreq. cbv zeta in Hreq |- *. rewrite Hreq.
  destruct (try_insert_loop_spec (S (Z.to_nat bs)) b 0 l ltac:(lia) Hl ltac:(lia)) as [Hno|(l1 & d & l2 & q & b' & -> & H1 & H2 & Hr & -> & m' & -> & H3 & Hsame)]; [by left|right].
  rewrite dir_lookup_app in Hnone. destruct (dir_lookup l1 name) eqn:Hl1; [done|]. cbn [dir_lookup] in Hnone.
  assert (d_ino d <> 0 -> d_name d <> name) as Hne.
  { intros E0 En. rewrite (proj2 (Z.eqb_neq _ _)), bool_decide_true in Hnone by done. discriminate Hnone. }
  assert (dir_lookup l2 name = None) as Hl2 by (by destruct (negb _ && _) in Hnone).
  assert (dirents s m' 0 (l1 ++ split_dent d ++ l2) bs) as Hl'.
  { apply dirents_app. exists q. split; [eapply dirents_ext; [|exact H1]; apply Hsame; lia|]. apply dirents_app. exists (q + d_len d). split; [done|].
    eapply dirents_ext; [|exact H2]. apply Hsame. lia. }
  destruct (set_csum_dirents s parent m' _ Hl' (tail_kept _ _ _ _ _ _ Hc Hr H2 (fun a n Ha => Hsame a n (or_intror Ha)))) as (Hd' & Hc' & Hv).
  exists (ext4_dir_set_csum s parent m'), (l1 ++ split_dent d ++ l2). apply unique_app in Hu. destruct Hu as (Hu1 & [Hud Hu2] & Hu12).
  split; [done|]. split; [split_and!; [exact Hd'|exact Hc'|]|split; [exact Hv|]].
  - apply unique_app. split_and!; [done| |].
    + apply unique_app. split_and!; [by apply split_unique|done|]. intros n. rewrite (split_lookup d n Hne). destruct (bool_decide_reflect (n = name)) as [En|En]; [right; rewrite En; exact Hl2|].
      cbn [dir_lookup]. destruct (negb (d_ino d =? 0) && bool_decide (d_name d = n)) eqn:Em; [|by left]. apply andb_true_iff in Em. destruct Em as [E0 <-%bool_decide_eq_true]. right. apply Hud. by apply negb_true_iff, Z.eqb_neq in E0.
    + intros n. rewrite dir_lookup_app, (split_lookup d n Hne). destruct (bool_decide_reflect (n = name)) as [En|En]; [left; rewrite En; exact Hl1|]. destruct (Hu12 n) as [H|H]; [by left|]. right. revert H. cbn [dir_lookup]. by destruct (negb (d_ino d =? 0) && bool_decide (d_name d = n)).
  - intros n. rewrite !dir_lookup_app, (split_lookup d n Hne). destruct (bool_decide_reflect (n = name)) as [En|En]; [by rewrite En, Hl1|]. destruct (dir_lookup l1 n); [done|]. cbn [dir_lookup]. by destruct (negb (d_ino d =? 0) && bool_decide (d_name d = n)).
Qed.
End Insert.

(** ** Removing a name *)

Section Remove.
Context (s : mem) (parent : ext4_inode_ref).
Local Abbreviation bs := (ext4_sb_get_block_size s).
Context (Hbs : bs < 2 ^ 16).

Definition set_ino (i : Z) (d : dent) : dent := Dent i (d_len d) (d_type d) (d_name d).
Definition set_len (n : Z) (d : dent) : dent := Dent (d_ino d) n (d_type d) (d_name d).

Lemma freed_at m q d : dent_at s m q d -> dent_at s (ext4_dir_en_set_inode m q 0) q (set_ino 0 d).
Proof using.
  intros (H1 & H2 & H3 & H4 & H5 & H6). unfold dent_at, ext4_dir_en_get_inode, ext4_dir_en_get_entry_len, ext4_dir_en_get_inode_type, ext4_dir_en_set_inode in *.
  cbn [set_ino d_ino d_len d_type d_name]. rewrite rd_wr, !rd_wr_ne by reflexivity. by split_and!.
Qed.

Lemma grown_at m q d n : dent_at s m q d -> d_len d <= n < 2 ^ 16 -> n mod 4 = 0 -> dent_at s (ext4_dir_en_set_entry_len m q n) q (set_len n d).
Proof using.
  intros (H1 & H2 & H3 & H4 & H5 & H6) Hn Hm.
  unfold dent_at, ext4_dir_en_get_inode, ext4_dir_en_get_entry_len, ext4_dir_en_get_inode_type, ext4_dir_en_get_name_len, ext4_dir_en_set_entry_len, d_size in *.
  cbn [set_len d_ino d_len d_type d_name]. rewrite rd_wr, !rd_wr_ne by reflexivity. change (256 ^ Z.of_nat (widthof ext4_dir_en "entry_len")) with (2 ^ 16).
  split_and!; [done|apply Z.mod_small; lia|done| |lia|done]. intros Hne. destruct (H4 Hne) as (Hnl & Hb & Hsz). split_and!; [done| |lia].
  etrans; [|exact Hb]. symmetry. apply bytes_at_ext. apply wr_same. offs. lia.
Qed.

(** The walk ends at the predecessor. *)
Lemma find_pred_spec n m p l e q : dirents s m p (l ++ [e]) q -> (length l < n)%nat -> exists r, find_pred n m p q = Some (r, d_len e) /\ dirents s m p l r /\ dent_at s m r e /\ r + d_len e = q.
Proof using.
  revert p l. induction n as [|n IH]; intros p l Hl Hn; [lia|]. cbn [find_pred]. destruct l as [|x l]; cbn [app dirents length] in *.
  - destruct Hl as [He Hq]. exists p. assert (ext4_dir_en_get_entry_len m p = d_len e) as -> by apply He. by rewrite Hq, Z.ltb_irrefl.
  - destruct Hl as [Hx Hl]. destruct (IH (p + d_len x) l Hl ltac:(lia)) as (r & Hr & H1 & H2 & H3). exists r. assert (ext4_dir_en_get_entry_len m p = d_len x) as -> by apply Hx.
    pose proof (dirents_le _ _ _ _ _ H1). assert (8 <= d_len e) by apply H2. by rewrite (proj2 (Z.ltb_lt _ _)) by lia.
Qed.

(** The entries after the removal: the entry is free, or part of the one before
    it. *)
Definition removed (l1 : list dent) (d : dent) (l2 l' : list dent) : Prop :=
  l1 = [] /\ l' = set_ino 0 d :: l2 \/ exists l0 e, l1 = l0 ++ [e] /\ l' = l0 ++ set_len (d_len e + d_len d) e :: l2.

Lemma removed_lookup l1 d l2 l' : removed l1 d l2 l' -> d_ino d <> 0 -> unique (l1 ++ d :: l2) ->
  unique l' /\ forall n, dir_lookup l' n = if bool_decide (n = d_name d) then None else dir_lookup (l1 ++ d :: l2) n.
Proof using.
  intros Hr Hne Hu. apply unique_app in Hu. destruct Hu as (Hu1 & [Hud Hu2] & Hu12). specialize (Hud Hne).
  assert (dir_lookup l1 (d_name d) = None) as Hl1.
  { destruct (Hu12 (d_name d)) as [H|H]; [done|]. cbn [dir_lookup] in H. rewrite (proj2 (Z.eqb_neq _ _)), bool_decide_true in H by done. discriminate H. }
  assert (unique (l1 ++ l2)) as Hu. { apply unique_app. split_and!; [done|done|]. intros n. destruct (Hu12 n) as [H|H]; [by left|]. right. cbn [dir_lookup] in H. by destruct (negb (d_ino d =? 0) && bool_decide (d_name d = n)). }
  assert (forall n, dir_lookup (l1 ++ l2) n = if bool_decide (n = d_name d) then None else dir_lookup (l1 ++ d :: l2) n) as HL.
  { intros n. rewrite !dir_lookup_app. cbn [dir_lookup]. rewrite (proj2 (Z.eqb_neq _ _)) by done. cbn [negb andb].
    destruct (decide (n = d_name d)) as [->|Hn]; [by rewrite Hl1, Hud, bool_decide_true|]. by rewrite !bool_decide_false by congruence. }
  assert (forall n, dir_lookup l' n = dir_lookup (l1 ++ l2) n) as HE.
  { intros n. destruct Hr as [[-> ->]|(l0 & e & -> & ->)]; [done|]. rewrite <- app_assoc, !(dir_lookup_app l0). reflexivity. }
  split; [|intros n; by rewrite HE, HL]. destruct Hr as [[-> ->]|(l0 & e & -> & ->)]; [by split|]. rewrite <- app_assoc in Hu.
  apply unique_app in Hu. destruct Hu as (A & B & C). apply unique_app. split_and!; [exact A|exact B|exact C].
Qed.

Lemma remove_spec b l1 d l2 pos : dir_block s (blk_data b) (l1 ++ d :: l2) -> dirents s (blk_data b) 0 l1 pos -> dirents s (blk_data b) pos (d :: l2) bs -> d_ino d <> 0 ->
  exists m' l', remove_found s parent pos b = Done tt (DBlock m' true) /\ dir_block s m' l' /\ ext4_dir_csum_verify s parent m' = true /\
    forall n, dir_lookup l' n = if bool_decide (n = d_name d) then None else dir_lookup (l1 ++ d :: l2) n.
Proof using Hbs.
  intros (Hl & Hc & Hu) H1 [Hd H2] Hne. set (m := blk_data b) in *. set (m1 := ext4_dir_en_set_inode m pos 0).
  pose proof (freed_at m pos d Hd) as Hd1. fold m1 in Hd1. assert (8 <= d_len d /\ d_len d mod 4 = 0) as [H8 Hm4] by (split; apply Hd).
  assert (forall a n, a + n <= pos \/ pos + 4 <= a -> same_range m m1 a n) as Hm1 by (intros a n Ha; apply wr_same; offs; lia).
  assert (dirents s m1 0 l1 pos) as H1' by (eapply dirents_ext; [|exact H1]; apply Hm1; lia).
  assert (dirents s m1 (pos + d_len d) l2 bs) as H2' by (eapply dirents_ext; [|exact H2]; apply Hm1; lia).
  pose proof (dirents_le _ _ _ _ _ H1) as Hp0. pose proof (dirents_le _ _ _ _ _ H2) as Hle.
  (* the block before the checksum is set *)
  assert (exists m2 l', (forall a n, a + n <= 0 \/ pos + 4 <= a -> same_range m m2 a n) /\ dirents s m2 0 l' bs /\ removed l1 d l2 l' /\
    remove_found s parent pos b = Done tt (DBlock (ext4_dir_set_csum s parent m2) true)) as (m2 & l' & Hsame & Hl' & Hr & Hrun).
  { unfold remove_found, mbind, E_bind, set_data at 1, modify at 1. cbn [blk_data blk_dirty]. fold m m1. destruct l1 as [|e l0 _] using rev_ind.
    - cbn [dirents] in H1. subst pos. exists m1, (set_ino 0 d :: l2). split; [intros a n Ha; apply Hm1; lia|]. split; [by split|]. split; [by left|reflexivity].
    - clear H1. pose proof (dirents_length _ _ _ _ _ H1') as Hlen. rewrite length_app in Hlen. cbn [length] in Hlen.
      rewrite (proj2 (Z.eqb_neq pos 0)) by lia. destruct (find_pred_spec (S (Z.to_nat pos)) m1 0 l0 e pos H1' ltac:(lia)) as (r & Hf & H0 & He & Hpos).
      unfold get. cbn [blk_data]. rewrite Hf. unfold ext4_assert, panic_if. rewrite (proj2 (Z.eqb_eq (d_len e + r) pos)) by lia. cbn [negb].
      assert (ext4_dir_en_get_entry_len m1 pos = d_len d) as -> by apply Hd1. assert (8 <= d_len e /\ d_len e mod 4 = 0) as [He8 He4] by (split; apply He).
      pose proof (dirents_le _ _ _ _ _ H0) as Hr0. set (m2 := ext4_dir_en_set_entry_len m1 r (d_len e + d_len d)).
      assert (forall a n, a + n <= r \/ r + 8 <= a -> same_range m1 m2 a n) as Hm2 by (intros a n Ha; apply wr_same; offs; lia).
      exists m2, (l0 ++ set_len (d_len e + d_len d) e :: l2). split_and!.
      + intros a n Ha. eapply same_range_trans; [apply Hm1; lia|apply Hm2; lia].
      + apply dirents_app. exists r. split; [eapply dirents_ext; [|exact H0]; apply Hm2; lia|]. split.
        * apply grown_at; [done|lia|]. rewrite Z.add_mod, He4, Hm4 by lia. done.
        * cbn [set_len d_len]. replace (r + (d_len e + d_len d)) with (pos + d_len d) by lia. eapply dirents_ext; [|exact H2']. apply Hm2. lia.
      + right. by exists l0, e.
      + reflexivity. }
  assert (csum_tail s m2 l') as Hc2.
  { intros Hon. destruct (Hc Hon) as (Ht & k & t & El & Htail). destruct l2 as [|x l2 _] using rev_ind.
    { apply app_inj_tail in El. destruct El as [_ ->]. by destruct Htail as (H & _). }
    rewrite app_comm_cons, app_assoc in El. apply app_inj_tail in El. destruct El as [_ ->]. split.
    - rewrite (get_tail_ext s m m2); [done|]. apply Hsame. apply dirents_app in H2. destruct H2 as (r & H21 & [_ Hend]). cbn [dirents] in Hend.
      pose proof (dirents_le _ _ _ _ _ H21). destruct Htail as (_ & H12 & _). lia.
    - destruct Hr as [[-> ->]|(l0 & e & -> & ->)]; [by exists (set_ino 0 d :: l2), t|]. exists (l0 ++ set_len (d_len e + d_len d) e :: l2), t. by rewrite <- app_assoc. }
  destruct (set_csum_dirents s parent m2 l' Hl' Hc2) as (Hd' & Hc' & Hv). destruct (removed_lookup l1 d l2 l' Hr Hne Hu) as [Hu' HL].
  exists (ext4_dir_set_csum s parent m2), l'. by split_and!.
Qed.
End Remove.

(** C20: A directory block is a table from names to inodes. Looking a name up
    finds its entry, with the inode the table has, or answers ENOENT when the
    table does not have it. Removing a name that was found takes it, and no other,
    out of the table, whether its entry is the first of the block or becomes part
    of the one before it. Adding a name the table does not have adds it, and no
    other, in a free entry or in the unused part of one that is in use, unless no
    entry has the room: then the answer is ENOSPC and the block is as it was. The
    entries still fill the block, no name is used twice, and the checksum of the
    block, where the file system has them, is the right one. *)
Theorem dir_block_refines_table (s : mem) (parent child : ext4_inode_ref) (name : list Z) (b : dblock) (l : list dent) :
  bytes_ok s -> ext4_sb_get_block_size s < 2 ^ 16 -> dir_block s (blk_data b) l -> Z.of_nat (length name) < 256 -> Forall (fun c => 0 <= c < 256) name ->
  match dir_lookup l name with
  | Some ino =>
    exists pos m' l', ext4_dir_find_in_block s (blk_data b) name = (EOK, Some pos) /\ ext4_dir_en_get_inode (blk_data b) pos = ino /\
      remove_found s parent pos b = Done tt (DBlock m' true) /\ dir_block s m' l' /\ ext4_dir_csum_verify s parent m' = true /\
      forall n, dir_lookup l' n = if bool_decide (n = name) then None else dir_lookup l n
  | None =>
    ext4_dir_find_in_block s (blk_data b) name = (ENOENT, None) /\
    (0 < ref_index child < 2 ^ 32 ->
     Forall (fun d => d_room d < required name) l /\ ext4_dir_try_insert_entry s parent child name b = Done ENOSPC b \/
     exists m' l', ext4_dir_try_insert_entry s parent child name b = Done EOK (DBlock m' true) /\ dir_block s m' l' /\ ext4_dir_csum_verify s parent m' = true /\
       forall n, dir_lookup l' n = if bool_decide (n = name) then Some (ref_index child) else dir_lookup l n)
  end.
Proof.
  intros Hs Hbs Hb Hn Hbytes. pose proof (dirents_le _ _ _ _ _ (proj1 Hb)) as Hbs0.
  pose proof (find_loop_spec s (S (Z.to_nat (ext4_sb_get_block_size s))) (blk_data b) name 0 l (proj1 Hb) ltac:(lia)) as HF.
  destruct (dir_lookup l name) as [ino|] eqn:Hl.
  - destruct HF as (pos & Hf & l1 & d & l2 & -> & H1 & H2 & Hne & <- & _ & Hi). rewrite Hl in Hi. injection Hi as ->.
    destruct (remove_spec s parent Hbs b l1 d l2 pos Hb H1 H2 Hne) as (m' & l' & Hrun & Hb' & Hv & HL). exists pos, m', l'. split_and!; try done. by destruct H2 as [(H & _) _].
  - split; [done|]. intros Hidx. by apply (insert_spec s Hs parent child name Hbs Hn Hbytes Hidx).
Qed.

(** ** Witness *)

(** A block of 1 KiB with checksums, in which every other byte is free. *)
Definition dir_sb : mem := wr ext4_sblock (wr ext4_sblock (fun _ => 0) 0 "rev_level" 1) 0 "features_read_only" EXT4_FRO_COM_METADATA_CSUM.
Definition empty_dir : mem := ext4_dir_init_entry_tail (ext4_dir_en_set_entry_len (fun _ => 0) 0 1012) 1012.
Definition empty_dents : list dent := [Dent 0 1012 0 []; Dent 0 12 EXT4_DIRENTRY_DIR_CSUM []].

Lemma dir_sb_ok : bytes_ok dir_sb.
Proof. unfold dir_sb. repeat apply wr_ok. intros a. lia. Qed.

Lemma empty_dir_block : dir_block dir_sb empty_dir empty_dents.
Proof.
  split_and!.
  - split; [|split; [|vm_compute; reflexivity]]; (split; [vm_compute; reflexivity|split; [vm_compute; reflexivity|split; [vm_compute; reflexivity|]]]);
      (split; [intros H; by destruct H|vm_compute; split; [discriminate|reflexivity]]).
  - intros _. split; [vm_compute; reflexivity|]. by exists [Dent 0 1012 0 []], (Dent 0 12 EXT4_DIRENTRY_DIR_CSUM []).
  - by vm_compute.
Qed.

(** Adding the name a for inode 5. *)
Lemma dir_block_refines_table_witness : exists m' l',
  ext4_dir_try_insert_entry dir_sb (InodeRef 2 (fun _ => 0)) (InodeRef 5 (fun _ => 0)) [97] (DBlock empty_dir false) = Done EOK (DBlock m' true) /\
  dir_lookup l' [97] = Some 5 /\ dir_block dir_sb m' l'.
Proof.
  destruct (dir_block_refines_table dir_sb (InodeRef 2 (fun _ => 0)) (InodeRef 5 (fun _ => 0)) [97] (DBlock empty_dir false) empty_dents dir_sb_ok) as [_ H].
  - vm_compute. reflexivity.
  - exact empty_dir_block.
  - cbn. lia.
  - constructor; [lia|constructor].
  - destruct (H ltac:(cbn; lia)) as [[Hf _]|(m' & l' & Hrun & Hb & _ & HL)].
    + exfalso. inversion Hf as [|? ? Hroom]. vm_compute in Hroom. discriminate Hroom.
    + exists m', l'. split; [exact Hrun|]. split; [exact (HL [97])|exact Hb].
Defined.
