(* ===== verification/Ext4Meta.v ===== *)
(** * kernel/fs/ext4_fs.c, ext4_balloc.c, ext4_ialloc.c: checksums and numbers of the metadata

    The functions of these files that compute on the superblock, a group
    descriptor, an inode or a bitmap in memory; those that fetch them from the
    device are left out. *)
From S2P Require Import Prelude Mem Bitmap Crc32 Ext4Types Ext4Inode Ext4Dir.

Definition ENOTSUP : Z := 95.
Definition EXT4_FCOM_DIR_INDEX : Z := 0x0020.
Definition EXT4_FRO_COM_GDT_CSUM : Z := 0x0010.
Definition EXT4_FRO_COM_DIR_NLINK : Z := 0x0020.
Definition EXT4_FINCOM_64BIT : Z := 0x0080.
Definition EXT4_INODE_FLAG_INDEX : Z := 0x00001000.
Definition EXT4_LINK_MAX : Z := 65000.

(** FILETYPE, META_BG, EXTENTS, FLEX_BG and 64BIT, with RECOVER and MMP, which
    are ignored. *)
Definition CONFIG_SUPPORTED_FINCOM : Z := Z.lor 0x02D2 0x0104.
(** SPARSE_SUPER, METADATA_CSUM, LARGE_FILE, GDT_CSUM, DIR_NLINK, EXTRA_ISIZE and
    HUGE_FILE. *)
Definition CONFIG_SUPPORTED_FRO_COM : Z := 0x047B.

(** The result and *read_only. *)
Definition ext4_fs_check_features (s : mem) : Z * bool :=
  if sb s "rev_level" =? 0 then (EOK, false)
  else if has_bits (sb s "features_incompatible") (Z.lnot CONFIG_SUPPORTED_FINCOM) then (ENOTSUP, false)
  else if has_bits (sb s "features_read_only") (Z.lnot CONFIG_SUPPORTED_FRO_COM) then (EOK, true)
  else (EOK, false).

Definition ext4_block_in_group (s : mem) (baddr bgid : Z) : bool := ext4_balloc_get_bgid_of_block s baddr =? bgid.

(** for (i = start_bit; i < the next multiple of 8; i++), then a memset. *)
Fixpoint mark_bits (n : nat) (i last : Z) (bitmap : mem) : mem :=
  match n with
  | O => bitmap
  | S n => if i <? last then mark_bits n (i + 1) last (ext4_bmap_bit_set bitmap 0 i) else bitmap
  end.
Fixpoint set_bytes (m : mem) (p v : Z) (n : nat) : mem :=
  match n with
  | O => m
  | S n => set_bytes (mset m p v) (p + 1) v n
  end.
Definition ext4_fs_mark_bitmap_end (start_bit end_bit : Z) (bitmap : mem) : mem :=
  if end_bit <=? start_bit then bitmap
  else
    let i := Z.land (start_bit + 7) (Z.lnot 7) in
    let bitmap := mark_bits 8 start_bit i bitmap in
    if i <? end_bit then set_bytes bitmap (Z.shiftr i 3) 0xFF (Z.to_nat (Z.shiftr (end_bit - i) 3)) else bitmap.

Definition ext4_fs_get_descriptor_block (s : mem) (bgid dsc_per_block : Z) : Z :=
  let dsc_id := bgid / dsc_per_block in
  let first_meta_bg := ext4_sb_first_meta_bg s in
  let meta_bg := ext4_sb_feature_incom s EXT4_FINCOM_META_BG in
  if negb meta_bg || (dsc_id <? first_meta_bg) then u32 (sb s "first_data_block" + dsc_id + 1)
  else
    let has_super := Z.b2z (ext4_sb_is_super_in_bg s bgid) in
    u64 (has_super + ext4_fs_first_bg_block_no s bgid).

(** ** Checksums *)

Abbreviation crc_uuid s := (ext4_crc32c EXT4_CRC32_INIT s (offsetof ext4_sblock "uuid") 16) (only parsing).

(** The checksum, and the descriptor, whose own field is set to 0 for the time
    of the computation. *)
Definition ext4_fs_bg_checksum (s : mem) (bgid : Z) (bg : mem) : Z * mem :=
  if ext4_sb_feature_ro_com s EXT4_FRO_COM_METADATA_CSUM then
    let orig_checksum := rd ext4_bgroup bg 0 "checksum" in
    let bg := wr ext4_bgroup bg 0 "checksum" 0 in
    let checksum := ext4_crc32c (crc_uuid s) (le32 bgid) 0 4 in
    let checksum := ext4_crc32c checksum bg 0 (ext4_sb_get_desc_size s) in
    (Z.land checksum 0xFFFF, wr ext4_bgroup bg 0 "checksum" orig_checksum)
  else if ext4_sb_feature_ro_com s EXT4_FRO_COM_GDT_CSUM then
    let offset := offsetof ext4_bgroup "checksum" in
    let crc := ext4_bg_crc16 0xFFFF s (offsetof ext4_sblock "uuid") 16 in
    let crc := ext4_bg_crc16 crc (le32 bgid) 0 4 in
    let crc := ext4_bg_crc16 crc bg 0 offset in
    let offset := offset + 2 in
    if ext4_sb_feature_incom s EXT4_FINCOM_64BIT && (offset <? ext4_sb_get_desc_size s)
    then (ext4_bg_crc16 crc bg offset (ext4_sb_get_desc_size s - offset), bg)
    else (crc, bg)
  else (0, bg).

Definition ext4_fs_verify_bg_csum (s : mem) (bgid : Z) (bg : mem) : bool :=
  if negb (ext4_sb_feature_ro_com s EXT4_FRO_COM_METADATA_CSUM) then true
  else let '(crc, bg) := ext4_fs_bg_checksum s bgid bg in crc =? rd ext4_bgroup bg 0 "checksum".

(** ext4_fs_put_block_group_ref, on the descriptor of a group that changed. *)
Definition put_bg_csum (s : mem) (bgid : Z) (bg : mem) : mem :=
  let '(cs, bg) := ext4_fs_bg_checksum s bgid bg in wr ext4_bgroup bg 0 "checksum" cs.

Definition ext4_fs_inode_checksum (s : mem) (ref : ext4_inode_ref) : Z * mem :=
  let inode_size := sb s "inode_size" in
  if ext4_sb_feature_ro_com s EXT4_FRO_COM_METADATA_CSUM then
    let i := ref_inode ref in
    let ino_gen := ext4_inode_get_generation i in
    let orig_checksum := ext4_inode_get_csum s i in
    let i := ext4_inode_set_csum s i 0 in
    let checksum := ext4_crc32c (crc_uuid s) (le32 (ref_index ref)) 0 4 in
    let checksum := ext4_crc32c checksum (le32 ino_gen) 0 4 in
    let checksum := ext4_crc32c checksum i 0 inode_size in
    let i := ext4_inode_set_csum s i orig_checksum in
    (if inode_size =? EXT4_GOOD_OLD_INODE_SIZE then Z.land checksum 0xFFFF else checksum, i)
  else (0, ref_inode ref).

Definition ext4_fs_set_inode_checksum (s : mem) (ref : ext4_inode_ref) : ext4_inode_ref :=
  if negb (ext4_sb_feature_ro_com s EXT4_FRO_COM_METADATA_CSUM) then ref
  else let '(csum, i) := ext4_fs_inode_checksum s ref in InodeRef (ref_index ref) (ext4_inode_set_csum s i csum).

Definition ext4_fs_verify_inode_csum (s : mem) (ref : ext4_inode_ref) : bool :=
  if negb (ext4_sb_feature_ro_com s EXT4_FRO_COM_METADATA_CSUM) then true
  else ext4_inode_get_csum s (ref_inode ref) =? (ext4_fs_inode_checksum s ref).1.

Definition ext4_balloc_bitmap_csum (s bitmap : mem) : Z :=
  if ext4_sb_feature_ro_com s EXT4_FRO_COM_METADATA_CSUM then
    let blocks_per_group := sb s "blocks_per_group" in
    ext4_crc32c (crc_uuid s) bitmap 0 (blocks_per_group / 8)
  else 0.
Definition ext4_balloc_set_bitmap_csum (s bg bitmap : mem) : mem :=
  let desc_size := ext4_sb_get_desc_size s in
  let checksum := ext4_balloc_bitmap_csum s bitmap in
  let lo_checksum := Z.land checksum 0xFFFF in
  let hi_checksum := wrap 16 (Z.shiftr checksum 16) in
  if negb (ext4_sb_feature_ro_com s EXT4_FRO_COM_METADATA_CSUM) then bg
  else
    let bg := wr ext4_bgroup bg 0 "block_bitmap_csum_lo" lo_checksum in
    if desc_size =? EXT4_MAX_BLOCK_GROUP_DESCRIPTOR_SIZE then wr ext4_bgroup bg 0 "block_bitmap_csum_hi" hi_checksum else bg.
Definition ext4_balloc_verify_bitmap_csum (s bg bitmap : mem) : bool :=
  let desc_size := ext4_sb_get_desc_size s in
  let checksum := ext4_balloc_bitmap_csum s bitmap in
  let lo_checksum := Z.land checksum 0xFFFF in
  let hi_checksum := wrap 16 (Z.shiftr checksum 16) in
  if negb (ext4_sb_feature_ro_com s EXT4_FRO_COM_METADATA_CSUM) then true
  else if negb (rd ext4_bgroup bg 0 "block_bitmap_csum_lo" =? lo_checksum) then false
  else if (desc_size =? EXT4_MAX_BLOCK_GROUP_DESCRIPTOR_SIZE) && negb (rd ext4_bgroup bg 0 "block_bitmap_csum_hi" =? hi_checksum) then false
  else true.

Definition ext4_ialloc_bitmap_csum (s bitmap : mem) : Z :=
  if ext4_sb_feature_ro_com s EXT4_FRO_COM_METADATA_CSUM then
    let inodes_per_group := sb s "inodes_per_group" in
    ext4_crc32c (crc_uuid s) bitmap 0 (u32 (inodes_per_group + 7) / 8)
  else 0.
Definition ext4_ialloc_set_bitmap_csum (s bg bitmap : mem) : mem :=
  let desc_size := ext4_sb_get_desc_size s in
  let csum := ext4_ialloc_bitmap_csum s bitmap in
  let lo_csum := Z.land csum 0xFFFF in
  let hi_csum := wrap 16 (Z.shiftr csum 16) in
  if negb (ext4_sb_feature_ro_com s EXT4_FRO_COM_METADATA_CSUM) then bg
  else
    let bg := wr ext4_bgroup bg 0 "inode_bitmap_csum_lo" lo_csum in
    if desc_size =? EXT4_MAX_BLOCK_GROUP_DESCRIPTOR_SIZE then wr ext4_bgroup bg 0 "inode_bitmap_csum_hi" hi_csum else bg.
Definition ext4_ialloc_verify_bitmap_csum (s bg bitmap : mem) : bool :=
  let desc_size := ext4_sb_get_desc_size s in
  let csum := ext4_ialloc_bitmap_csum s bitmap in
  let lo_csum := Z.land csum 0xFFFF in
  let hi_csum := wrap 16 (Z.shiftr csum 16) in
  if negb (ext4_sb_feature_ro_com s EXT4_FRO_COM_METADATA_CSUM) then true
  else if negb (rd ext4_bgroup bg 0 "inode_bitmap_csum_lo" =? lo_csum) then false
  else if (desc_size =? EXT4_MAX_BLOCK_GROUP_DESCRIPTOR_SIZE) && negb (rd ext4_bgroup bg 0 "inode_bitmap_csum_hi" =? hi_csum) then false
  else true.

(** ** Numbers of inodes, types, links *)

Definition ext4_ialloc_inode_to_bgidx (s : mem) (inode : Z) : Z := u32 (inode - 1) mod sb s "inodes_per_group".
Definition ext4_ialloc_bgidx_to_inode (s : mem) (index bgid : Z) : Z := u32 (bgid * sb s "inodes_per_group" + (index + 1)).
Definition ext4_ialloc_get_bgid_of_inode (s : mem) (inode : Z) : Z := u32 (inode - 1) / sb s "inodes_per_group".

Definition ext4_fs_correspond_inode_mode (filetype : Z) : Z :=
  if filetype =? EXT4_DE_DIR then EXT4_INODE_MODE_DIRECTORY
  else if filetype =? EXT4_DE_REG_FILE then EXT4_INODE_MODE_FILE
  else if filetype =? EXT4_DE_SYMLINK then EXT4_INODE_MODE_SOFTLINK
  else if filetype =? EXT4_DE_CHRDEV then EXT4_INODE_MODE_CHARDEV
  else if filetype =? EXT4_DE_BLKDEV then EXT4_INODE_MODE_BLOCKDEV
  else if filetype =? EXT4_DE_FIFO then EXT4_INODE_MODE_FIFO
  else if filetype =? EXT4_DE_SOCK then EXT4_INODE_MODE_SOCKET
  else EXT4_INODE_MODE_FILE.

(** The superblock and the inode. *)
Definition ext4_fs_inode_links_count_inc (s i : mem) : mem * mem :=
  let link := wrap 16 (ext4_inode_get_links_cnt i + 1) in
  let i := ext4_inode_set_links_cnt i link in
  let is_dx := ext4_sb_feature_com s EXT4_FCOM_DIR_INDEX && ext4_inode_has_flag i EXT4_INODE_FLAG_INDEX in
  if is_dx && (1 <? link) && ((EXT4_LINK_MAX <=? link) || (link =? 2)) then
    (wr ext4_sblock s 0 "features_read_only" (Z.lor (sb s "features_read_only") EXT4_FRO_COM_DIR_NLINK), ext4_inode_set_links_cnt i 1)
  else (s, i).

Definition ext4_fs_inode_links_count_dec (s i : mem) : mem :=
  let links := ext4_inode_get_links_cnt i in
  if negb (ext4_inode_is_type s i EXT4_INODE_MODE_DIRECTORY) then
    if 0 <? links then ext4_inode_set_links_cnt i (links - 1) else i
  else if 2 <? links then ext4_inode_set_links_cnt i (links - 1) else i.

(** ** Checksums that were set are right *)

(** Writing a field again: what it held before does not count. *)
Lemma store_cong m m' a n v : (forall x, x < a \/ a + Z.of_nat n <= x -> m x = m' x) -> forall x, store m a n v x = store m' a n v x.
Proof.
  revert m m' a v. induction n as [|n IH]; intros m m' a v H x; cbn [store]; [apply H; lia|]. apply IH. intros y Hy. unfold mset. destruct (Z.eqb_spec y a); [done|]. apply H. lia.
Qed.

Lemma wr_wr l m p f v w x : wr l (wr l m p f v) p f w x = wr l m p f w x.
Proof. apply store_cong. intros y Hy. apply store_out. lia. Qed.

Lemma wr_cong l m m' p f v : (forall x, m x = m' x) -> forall x, wr l m p f v x = wr l m' p f v x.
Proof. intros H. apply store_cong. intros y _. apply H. Qed.

(** Putting back what a field held. *)
Lemma store_load m a n x : bytes_ok m -> store m a n (load m a n) x = m x.
Proof.
  intros Hm. revert m a Hm x. induction n as [|n IH]; intros m a Hm x; cbn [store load]; [done|].
  pose proof (Hm a). assert (mset m a (m a + 256 * load m (a + 1) n) a = m a) as Ha.
  { rewrite mset_eq. unfold wrap. change (2 ^ 8) with 256. rewrite Z.mul_comm, Z.mod_add by lia. apply Z.mod_small. lia. }
  rewrite Z.add_comm, (Z.mul_comm 256), Z.div_add_l, Z.div_small, Z.add_0_r by lia. rewrite (Z.add_comm _ (m a)), (Z.mul_comm _ 256).
  set (m1 := mset m a (m a + 256 * load m (a + 1) n)). assert (forall y, m1 y = m y) as H1.
  { intros y. destruct (Z.eq_dec y a) as [->|]; [done|]. apply mset_ne. done. }
  rewrite (load_ext m m1) by (intros y _; by rewrite H1). rewrite IH by (by apply mset_ok). apply H1.
Qed.

Lemma wr_rd l m p f x : bytes_ok m -> wr l m p f (rd l m p f) x = m x.
Proof. apply store_load. Qed.

Lemma crc32c_eq crc m m' buf size : (forall x, m x = m' x) -> ext4_crc32c crc m buf size = ext4_crc32c crc m' buf size.
Proof. intros H. apply crc32c_ext. intros x _. apply H. Qed.

Lemma land_16 x : Z.land x 0xFFFF = x mod 2 ^ 16.
Proof. change 0xFFFF with (Z.ones 16). by apply Z.land_ones. Qed.

Lemma bg_csum_verified s bgid bg : ext4_fs_verify_bg_csum s bgid (put_bg_csum s bgid bg) = true.
Proof.
  unfold ext4_fs_verify_bg_csum, put_bg_csum, ext4_fs_bg_checksum. destruct (ext4_sb_feature_ro_com s EXT4_FRO_COM_METADATA_CSUM); cbn [negb]; [|done].
  cbv zeta. set (c0 := ext4_crc32c _ (le32 bgid) 0 4). set (c := ext4_crc32c c0 (wr ext4_bgroup bg 0 "checksum" 0) 0 (ext4_sb_get_desc_size s)). rewrite !rd_wr.
  change (256 ^ Z.of_nat (widthof ext4_bgroup "checksum")) with (2 ^ 16). rewrite !land_16. apply Z.eqb_eq. rewrite !Z.mod_mod by lia.
  f_equal. unfold c. apply crc32c_eq. intros x. by rewrite !wr_wr.
Qed.

Lemma store_in m m' a n v x : a <= x < a + Z.of_nat n -> store m a n v x = store m' a n v x.
Proof.
  revert m m' a v. induction n as [|n IH]; intros m m' a v Hx; cbn [store]; [lia|]. destruct (Z.eq_dec x a) as [->|]; [by rewrite !store_out, !mset_eq by lia|]. apply IH. lia.
Qed.

(** Setting the checksum of an inode twice. *)
Lemma set_csum_twice s i v w x : ext4_inode_set_csum s (ext4_inode_set_csum s i v) w x = ext4_inode_set_csum s i w x.
Proof.
  unfold ext4_inode_set_csum. cbv zeta. destruct (EXT4_GOOD_OLD_INODE_SIZE <? sb s "inode_size"); [|apply wr_wr].
  apply store_cong. intros y Hy. set (lo := OSD2 + offsetof linux2 "checksum_lo").
  destruct (decide (lo <= y < lo + Z.of_nat (widthof linux2 "checksum_lo"))) as [Hin|Hout]; [by apply store_in|].
  unfold wr. fold lo. rewrite !store_out by lia. done.
Qed.

Lemma inode_csum_verified s ref : EXT4_GOOD_OLD_INODE_SIZE <= sb s "inode_size" -> ext4_fs_verify_inode_csum s (ext4_fs_set_inode_checksum s ref) = true.
Proof.
  intros Hsz. unfold ext4_fs_verify_inode_csum, ext4_fs_set_inode_checksum, ext4_fs_inode_checksum. destruct (ext4_sb_feature_ro_com s EXT4_FRO_COM_METADATA_CSUM); cbn [negb]; [|done].
  cbv zeta. cbn [ref_index ref_inode fst]. set (i := ref_inode ref). set (orig := ext4_inode_get_csum s i).
  set (c1 := ext4_crc32c _ (le32 (ref_index ref)) 0 4). set (c2 := ext4_crc32c c1 (le32 (ext4_inode_get_generation i)) 0 4).
  set (c := ext4_crc32c c2 (ext4_inode_set_csum s i 0) 0 (sb s "inode_size")). set (k := if sb s "inode_size" =? _ then Z.land c 0xFFFF else c).
  assert (0 <= c < 2 ^ 32) as Hc. { unfold c, c2, c1. repeat apply crc32c_range. unfold EXT4_CRC32_INIT. lia. }
  assert (0 <= k < 2 ^ 32 /\ (sb s "inode_size" = EXT4_GOOD_OLD_INODE_SIZE -> k < 2 ^ 16)) as [Hk Hk16].
  { unfold k. rewrite land_16. pose proof (Z.mod_pos_bound c (2 ^ 16)). destruct (Z.eqb_spec (sb s "inode_size") EXT4_GOOD_OLD_INODE_SIZE); lia. }
  set (i2 := ext4_inode_set_csum s (ext4_inode_set_csum s (ext4_inode_set_csum s i 0) orig) k).
  assert (ext4_inode_get_generation i2 = ext4_inode_get_generation i) as ->.
  { unfold i2. change (iget s (iset s (iset s (iset s i ICsum 0) ICsum orig) ICsum k) IGen = iget s i IGen). by rewrite !inode_frame. }
  assert (ext4_crc32c c2 (ext4_inode_set_csum s i2 0) 0 (sb s "inode_size") = c) as E.
  { apply crc32c_eq. intros x. unfold i2. by rewrite !set_csum_twice. }
  fold c1 c2. rewrite E. fold k. apply Z.eqb_eq. unfold i2. etrans; [exact (inode_same s _ ICsum k I Hk)|]. cbn [ikept].
  destruct (Z.ltb_spec EXT4_GOOD_OLD_INODE_SIZE (sb s "inode_size")); [done|]. apply Z.mod_small. lia.
Qed.

Lemma bitmap_csum_verified s bg bitmap :
  ext4_balloc_verify_bitmap_csum s (ext4_balloc_set_bitmap_csum s bg bitmap) bitmap = true /\
  ext4_ialloc_verify_bitmap_csum s (ext4_ialloc_set_bitmap_csum s bg bitmap) bitmap = true.
Proof.
  unfold ext4_balloc_verify_bitmap_csum, ext4_balloc_set_bitmap_csum, ext4_ialloc_verify_bitmap_csum, ext4_ialloc_set_bitmap_csum. cbv zeta.
  set (c := ext4_balloc_bitmap_csum s bitmap). set (d := ext4_ialloc_bitmap_csum s bitmap).
  destruct (ext4_sb_feature_ro_com s EXT4_FRO_COM_METADATA_CSUM); cbn [negb]; [|done].
  destruct (ext4_sb_get_desc_size s =? EXT4_MAX_BLOCK_GROUP_DESCRIPTOR_SIZE); cbn [andb]; fields; change (256 ^ 2) with (2 ^ 16); unfold wrap; rewrite !land_16, !Z.mod_mod by lia; by rewrite !Z.eqb_refl.
Qed.

(** What is stored with its checksum passes the test when it is read back: a
    group descriptor, an inode (of 128 bytes, with half a checksum, or more) and
    the two bitmaps of a group, whatever they hold. *)
Theorem meta_csums_verified (s bg bitmap : mem) (bgid : Z) (ref : ext4_inode_ref) : EXT4_GOOD_OLD_INODE_SIZE <= sb s "inode_size" ->
  ext4_fs_verify_bg_csum s bgid (put_bg_csum s bgid bg) = true /\
  ext4_fs_verify_inode_csum s (ext4_fs_set_inode_checksum s ref) = true /\
  ext4_balloc_verify_bitmap_csum s (ext4_balloc_set_bitmap_csum s bg bitmap) bitmap = true /\
  ext4_ialloc_verify_bitmap_csum s (ext4_ialloc_set_bitmap_csum s bg bitmap) bitmap = true.
Proof. intros Hsz. split; [apply bg_csum_verified|]. split; [by apply inode_csum_verified|apply bitmap_csum_verified]. Qed.

(** Computing a checksum leaves the descriptor and the inode as they were. *)
Theorem meta_csums_restore (s bg : mem) (bgid : Z) (ref : ext4_inode_ref) (x : Z) : bytes_ok bg -> bytes_ok (ref_inode ref) ->
  (ext4_fs_bg_checksum s bgid bg).2 x = bg x /\ (ext4_fs_inode_checksum s ref).2 x = ref_inode ref x.
Proof.
  intros Hb Hi. unfold ext4_fs_bg_checksum, ext4_fs_inode_checksum. destruct (ext4_sb_feature_ro_com s EXT4_FRO_COM_METADATA_CSUM); cbv zeta; cbn [snd].
  - rewrite wr_wr, wr_rd, set_csum_twice by done. split; [done|]. set (i := ref_inode ref) in *. unfold ext4_inode_set_csum, ext4_inode_get_csum. cbv zeta.
    pose proof (rd_range linux2 i OSD2 "checksum_lo" Hi) as Hlo. pose proof (rd_range ext4_inode i 0 "checksum_hi" Hi) as Hhi.
    change (256 ^ Z.of_nat (widthof linux2 "checksum_lo")) with (2 ^ 16) in Hlo. change (256 ^ Z.of_nat (widthof ext4_inode "checksum_hi")) with (2 ^ 16) in Hhi.
    set (lo := rd linux2 i OSD2 "checksum_lo") in *. set (hi := rd ext4_inode i 0 "checksum_hi") in *. destruct (EXT4_GOOD_OLD_INODE_SIZE <? sb s "inode_size").
    + pose proof (wrap_upper hi 16 16 ltac:(lia) ltac:(lia) Hhi) as HU. change (16 + 16) with 32 in HU. rewrite HU, lor_halves by lia.
      pose proof (low_part (hi * 2 ^ 16 + lo) 16 16 ltac:(lia) ltac:(lia)) as HL. change (16 + 16) with 32 in HL. rewrite HL, Z.shiftr_div_pow2 by lia.
      replace ((hi * 2 ^ 16 + lo) mod 2 ^ 16) with lo by (rewrite Z.add_comm, Z.mod_add, Z.mod_small; lia).
      replace ((hi * 2 ^ 16 + lo) / 2 ^ 16) with hi by (rewrite Z.div_add_l, Z.div_small; lia).
      etrans; [apply wr_cong; intros y; apply wr_rd; exact Hi|]. by apply wr_rd.
    + pose proof (low_part lo 16 16 ltac:(lia) ltac:(lia)) as HL. change (16 + 16) with 32 in HL. rewrite HL, Z.mod_small by lia. by apply wr_rd.
  - destruct (ext4_sb_feature_ro_com s EXT4_FRO_COM_GDT_CSUM); [|done]. by case_match.
Qed.

(** The number of an inode and its place. *)
Theorem inode_number_roundtrip (s : mem) (n : Z) : 0 < sb s "inodes_per_group" -> 0 < n < 2 ^ 32 ->
  ext4_ialloc_bgidx_to_inode s (ext4_ialloc_inode_to_bgidx s n) (ext4_ialloc_get_bgid_of_inode s n) = n.
Proof.
  intros Hi Hn. unfold ext4_ialloc_bgidx_to_inode, ext4_ialloc_inode_to_bgidx, ext4_ialloc_get_bgid_of_inode. rewrite (wrap_small 32 (n - 1)) by lia.
  pose proof (Z.div_mod (n - 1) (sb s "inodes_per_group")). rewrite wrap_small; lia.
Qed.

(** The type of an entry and the mode of the inode it was made from. *)
Theorem entry_type_mode (s : mem) (ref : ext4_inode_ref) : en_type s ref <> EXT4_DE_UNKNOWN -> ext4_fs_correspond_inode_mode (en_type s ref) = ext4_inode_type s (ref_inode ref).
Proof. unfold en_type. cbv zeta. repeat (match goal with |- context [?x =? ?y] => destruct (Z.eqb_spec x y) as [->|] end; [done|]). done. Qed.

(** ** The end of a bitmap *)

Lemma bit_set_bit m bmap i k : bit (ext4_bmap_bit_set m bmap i) bmap k = if k =? i then true else bit m bmap k.
Proof.
  unfold ext4_bmap_bit_set. rewrite shiftr3, land7. pose proof (Z.mod_pos_bound i 8 ltac:(lia)). pose proof (Z.mod_pos_bound k 8 ltac:(lia)).
  destruct (decide (k / 8 = i / 8)) as [E|E]; [|rewrite bit_other by lia; destruct (Z.eqb_spec k i) as [->|]; done].
  unfold bit. rewrite E, mset_eq. unfold wrap. rewrite Z.mod_pow2_bits_low, Z.lor_spec, Z.shiftl_1_l, Z.pow2_bits_eqb by lia.
  pose proof (Z.div_mod k 8). pose proof (Z.div_mod i 8).
  destruct (Z.eqb_spec k i) as [->|]; [rewrite Z.eqb_refl; apply orb_true_r|]. rewrite (proj2 (Z.eqb_neq (i mod 8) (k mod 8))) by lia. apply orb_false_r.
Qed.

Lemma mark_bits_spec n i last m k : last <= i + Z.of_nat n -> bit (mark_bits n i last m) 0 k = if (i <=? k) && (k <? last) then true else bit m 0 k.
Proof.
  revert i m. induction n as [|n IH]; intros i m Hn; cbn [mark_bits]; [destruct (Z.leb_spec i k), (Z.ltb_spec k last); cbn; done || lia|].
  destruct (Z.ltb_spec i last); [rewrite IH, bit_set_bit by lia|]; destruct (Z.leb_spec i k), (Z.ltb_spec k last), (Z.leb_spec (i + 1) k), (Z.eqb_spec k i); cbn; done || lia.
Qed.

Lemma set_bytes_spec n m p k : bit (set_bytes m p 0xFF n) 0 k = if (p <=? k / 8) && (k / 8 <? p + Z.of_nat n) then true else bit m 0 k.
Proof.
  revert m p. induction n as [|n IH]; intros m p; cbn [set_bytes]; [destruct (Z.leb_spec p (k / 8)), (Z.ltb_spec (k / 8) (p + Z.of_nat 0)); cbn; done || lia|].
  rewrite IH. assert (bit (mset m p 0xFF) 0 k = if k / 8 =? p then true else bit m 0 k) as ->.
  { destruct (Z.eqb_spec (k / 8) p) as [<-|]; [|apply bit_other; lia]. unfold bit. rewrite Z.add_0_l, mset_eq. change (u8 255) with (Z.ones 8). apply Z.ones_spec_low. apply Z.mod_pos_bound. lia. }
  destruct (Z.leb_spec (p + 1) (k / 8)), (Z.ltb_spec (k / 8) (p + 1 + Z.of_nat n)), (Z.leb_spec p (k / 8)), (Z.ltb_spec (k / 8) (p + Z.of_nat (S n))), (Z.eqb_spec (k / 8) p); cbn; done || lia.
Qed.

(** The bits after the last block of a group are set up to the end of the bitmap,
    and no others, when the bitmap ends with a byte. *)
Theorem mark_bitmap_end_sets (start_bit end_bit k : Z) (bitmap : mem) : end_bit mod 8 = 0 ->
  bit (ext4_fs_mark_bitmap_end start_bit end_bit bitmap) 0 k = if (start_bit <=? k) && (k <? end_bit) then true else bit bitmap 0 k.
Proof.
  intros He. unfold ext4_fs_mark_bitmap_end. destruct (Z.leb_spec end_bit start_bit) as [|Hlt]; [destruct (Z.leb_spec start_bit k), (Z.ltb_spec k end_bit); cbn; done || lia|].
  cbv zeta. assert (Z.land (start_bit + 7) (Z.lnot 7) = next_byte start_bit) as ->.
  { change 7 with (2 ^ 3 - 1) at 2. rewrite land_lnot_ones by lia. done. }
  pose proof (next_byte_mod start_bit) as Hnb. pose proof (Z.mod_pos_bound start_bit 8). pose proof (Z.div_mod start_bit 8). pose proof (Z.div_mod end_bit 8).
  set (i := next_byte start_bit) in *. assert (i mod 8 = 0) as Hi by (unfold i, next_byte; by rewrite Z.mod_mul). pose proof (Z.div_mod i 8).
  assert (start_bit <= i <= start_bit + 7 /\ i <= end_bit) as [Hi7 Hie]. { destruct (Z.eqb_spec (start_bit mod 8) 0); lia. }
  destruct (Z.ltb_spec i end_bit).
  - rewrite set_bytes_spec, mark_bits_spec by lia. rewrite !Z.shiftr_div_pow2 by lia. change (2 ^ 3) with 8.
    assert ((end_bit - i) / 8 = end_bit / 8 - i / 8) as ->. { replace (end_bit - i) with ((end_bit / 8 - i / 8) * 8) by lia. by rewrite Z.div_mul. }
    pose proof (Z.div_mod k 8). pose proof (Z.mod_pos_bound k 8). rewrite Z2Nat.id by lia.
    destruct (Z.leb_spec (i / 8) (k / 8)), (Z.ltb_spec (k / 8) (i / 8 + (end_bit / 8 - i / 8))), (Z.leb_spec start_bit k), (Z.ltb_spec k i), (Z.ltb_spec k end_bit); cbn; done || lia.
  - rewrite mark_bits_spec by lia. replace i with end_bit by lia. done.
Qed.

(** ** Witness *)

Definition csum_sb : mem := wr ext4_sblock (wr ext4_sblock (fun _ => 0) 0 "inode_size" 256) 0 "features_read_only" EXT4_FRO_COM_METADATA_CSUM.

Lemma meta_csums_verified_witness : ext4_fs_verify_inode_csum csum_sb (ext4_fs_set_inode_checksum csum_sb (InodeRef 11 (fun _ => 0))) = true.
Proof. exact (proj1 (proj2 (meta_csums_verified csum_sb (fun _ => 0) (fun _ => 0) 0 (InodeRef 11 (fun _ => 0)) ltac:(vm_compute; discriminate)))). Defined.
