(* ===== verification/Ext4Hash.v ===== *)
(** * kernel/fs/ext4_hash.c: the hashes of directory indexes

    The hash of a name, for the index of a large directory. A name is the list of
    its bytes; arithmetic is on 32 bits. *)
From S2P Require Import Prelude Bitmap Ext4Meta.

Definition EXT2_HTREE_LEGACY : Z := 0.
Definition EXT2_HTREE_HALF_MD4 : Z := 1.
Definition EXT2_HTREE_TEA : Z := 2.
Definition EXT2_HTREE_LEGACY_UNSIGNED : Z := 3.
Definition EXT2_HTREE_HALF_MD4_UNSIGNED : Z := 4.
Definition EXT2_HTREE_TEA_UNSIGNED : Z := 5.
Definition EXT2_HTREE_EOF : Z := 0x7FFFFFFF.

(** ** Half MD4 *)

Definition not32 (x : Z) : Z := u32 (Z.lnot x).
Definition F (x y z : Z) : Z := Z.lor (Z.land x y) (Z.land (not32 x) z).
Definition G (x y z : Z) : Z := Z.lor (Z.lor (Z.land x y) (Z.land x z)) (Z.land y z).
Definition H (x y z : Z) : Z := Z.lxor (Z.lxor x y) z.
Definition ROTATE_LEFT (x n : Z) : Z := Z.lor (u32 (Z.shiftl x n)) (Z.shiftr x (32 - n)).

(** The new value of the first argument. *)
Definition FF (a b c d x s : Z) : Z := ROTATE_LEFT (u32 (a + (F b c d + x))) s.
Definition GG (a b c d x s : Z) : Z := ROTATE_LEFT (u32 (a + (G b c d + x + 0x5A827999))) s.
Definition HH (a b c d x s : Z) : Z := ROTATE_LEFT (u32 (a + (H b c d + x + 0x6ED9EBA1))) s.

(** hash[4]; the buffer data[8] is a list. *)
Definition hash4 : Type := Z * Z * Z * Z.

(** Four steps of a round, with the places of their data and the rotations. *)
Definition round4 (step : Z -> Z -> Z -> Z -> Z -> Z -> Z) (data : list Z) (k0 k1 k2 k3 s0 s1 s2 s3 : nat) (h : hash4) : hash4 :=
  let '(a, b, c, d) := h in
  let x k := nth k data 0 in
  let a := step a b c d (x k0) (Z.of_nat s0) in
  let d := step d a b c (x k1) (Z.of_nat s1) in
  let c := step c d a b (x k2) (Z.of_nat s2) in
  let b := step b c d a (x k3) (Z.of_nat s3) in
  (a, b, c, d).

Definition ext2_half_md4 (hash : hash4) (data : list Z) : hash4 :=
  let '(h0, h1, h2, h3) := hash in
  let h := round4 FF data 0 1 2 3 3 7 11 19 hash in
  let h := round4 FF data 4 5 6 7 3 7 11 19 h in
  let h := round4 GG data 1 3 5 7 3 5 9 13 h in
  let h := round4 GG data 0 2 4 6 3 5 9 13 h in
  let h := round4 HH data 3 7 2 6 3 9 11 15 h in
  let h := round4 HH data 1 5 0 4 3 9 11 15 h in
  let '(a, b, c, d) := h in
  (u32 (h0 + a), u32 (h1 + b), u32 (h2 + c), u32 (h3 + d)).

(** ** TEA *)

(** while (n-- > 0) *)
Fixpoint ext2_tea_loop (n : nat) (i x y : Z) (data : list Z) : Z * Z :=
  match n with
  | O => (x, y)
  | S n =>
    let sum := u32 (i * 0x9E3779B9) in
    let d k := nth k data 0 in
    let x := u32 (x + Z.lxor (Z.lxor (u32 (u32 (Z.shiftl y 4) + d 0%nat)) (u32 (y + sum))) (u32 (Z.shiftr y 5 + d 1%nat))) in
    let y := u32 (y + Z.lxor (Z.lxor (u32 (u32 (Z.shiftl x 4) + d 2%nat)) (u32 (x + sum))) (u32 (Z.shiftr x 5 + d 3%nat))) in
    ext2_tea_loop n (i + 1) x y data
  end.
Definition ext2_tea (hash : hash4) (data : list Z) : hash4 :=
  let '(h0, h1, h2, h3) := hash in
  let '(x, y) := ext2_tea_loop 16 1 h0 h1 data in
  (u32 (h0 + x), u32 (h1 + y), h2, h3).

(** ** The legacy hash *)

(** A byte as an unsigned or a signed char. *)
Definition char_val (unsigned_char : bool) (b : Z) : Z := if unsigned_char then b else sint 8 b.

Fixpoint ext2_legacy_hash_loop (name : list Z) (unsigned_char : bool) (h1 h2 : Z) : Z :=
  match name with
  | [] => h1
  | b :: name =>
    let val := char_val unsigned_char b in
    let h0 := u32 (h2 + Z.lxor h1 (u32 (val * 0x6D22F5))) in
    let h0 := if has_bits h0 0x80000000 then u32 (h0 - 0x7FFFFFFF) else h0 in
    ext2_legacy_hash_loop name unsigned_char h0 h1
  end.
Definition ext2_legacy_hash (name : list Z) (unsigned_char : bool) : Z :=
  u32 (Z.shiftl (ext2_legacy_hash_loop name unsigned_char 0x12A3FE2D 0x37ABE8F9) 1).

(** ** The buffer *)

(** for (i = 0; i < len; i++): the words written, the word under way and what is
    left of the buffer. *)
Fixpoint prep_loop (src : list Z) (unsigned_char : bool) (padding i buf_val dlen : Z) (dst : list Z) : list Z * Z * Z :=
  match src with
  | [] => (dst, buf_val, dlen)
  | b :: src =>
    let buf_byte := char_val unsigned_char b in
    let buf_val := if i mod 4 =? 0 then padding else buf_val in
    let buf_val := u32 (u32 (Z.shiftl buf_val 8) + buf_byte) in
    if i mod 4 =? 3 then prep_loop src unsigned_char padding (i + 1) padding (dlen - 4) (dst ++ [buf_val])
    else prep_loop src unsigned_char padding (i + 1) buf_val dlen dst
  end.

(** while (dlen >= 0) *)
Fixpoint pad_loop (n : nat) (padding dlen : Z) (dst : list Z) : list Z :=
  match n with
  | O => dst
  | S n => if 0 <=? dlen then pad_loop n padding (dlen - 4) (dst ++ [padding]) else dst
  end.

(** The first [len] bytes of [src], which has [slen] of them: the words written
    to [dst]. *)
Definition ext2_prep_hashbuf (src : list Z) (dlen : Z) (unsigned_char : bool) : list Z :=
  let slen := Z.of_nat (length src) in
  let padding := Z.lor (Z.lor (Z.lor slen (u32 (Z.shiftl slen 8))) (u32 (Z.shiftl slen 16))) (u32 (Z.shiftl slen 24)) in
  let len := if dlen <? slen then dlen else slen in
  let '(dst, buf_val, dlen) := prep_loop (take (Z.to_nat len) src) unsigned_char padding 0 padding dlen [] in
  let dlen := dlen - 4 in
  let dst := if 0 <=? dlen then dst ++ [buf_val] else dst in
  pad_loop (Z.to_nat dlen) padding (dlen - 4) dst.

(** ** The hash of a name *)

(** while (len > 0) *)
Fixpoint hash_blocks (n : nat) (step : hash4 -> list Z -> hash4) (size : Z) (unsigned_char : bool) (name : list Z) (h : hash4) : hash4 :=
  match n with
  | O => h
  | S n =>
    match name with
    | [] => h
    | _ => hash_blocks n step size unsigned_char (drop (Z.to_nat size) name) (step h (ext2_prep_hashbuf name size unsigned_char))
    end
  end.

(** The first two cases of the switch for each kind of hash. *)
Definition hash_tea (u : bool) (name : list Z) (h : hash4) : Z * Z :=
  let '(h0, h1, _, _) := hash_blocks (S (length name)) ext2_tea 16 u name h in (h0, h1).
Definition hash_md4 (u : bool) (name : list Z) (h : hash4) : Z * Z :=
  let '(_, h1, h2, _) := hash_blocks (S (length name)) ext2_half_md4 32 u name h in (h1, h2).

(** The result, *hash_major and *hash_minor; the pointers are not NULL, [seed]
    is None where hash_seed is. *)
Definition ext2_htree_hash (name : list Z) (seed : option hash4) (hash_version : Z) : Z * Z * Z :=
  let len := Z.of_nat (length name) in
  if (len <? 1) || (255 <? len) then (ENOTSUP, 0, 0)
  else
    let hash := match seed with Some h => h | None => (0x67452301, 0xEFCDAB89, 0x98BADCFE, 0x10325476) end in
    let r :=
      if hash_version =? EXT2_HTREE_TEA_UNSIGNED then Some (hash_tea true name hash)
      else if hash_version =? EXT2_HTREE_TEA then Some (hash_tea false name hash)
      else if hash_version =? EXT2_HTREE_LEGACY_UNSIGNED then Some (ext2_legacy_hash name true, 0)
      else if hash_version =? EXT2_HTREE_LEGACY then Some (ext2_legacy_hash name false, 0)
      else if hash_version =? EXT2_HTREE_HALF_MD4_UNSIGNED then Some (hash_md4 true name hash)
      else if hash_version =? EXT2_HTREE_HALF_MD4 then Some (hash_md4 false name hash)
      else None in
    match r with
    | None => (ENOTSUP, 0, 0)
    | Some (major, minor) =>
      let major := Z.land major (u32 (Z.lnot 1)) in
      let major := if major =? 2 * EXT2_HTREE_EOF then 2 * (EXT2_HTREE_EOF - 1) else major in
      (EOK, major, minor)
    end.

(** ** The buffer is filled, and not more *)

Lemma prep_loop_spec src u padding i buf_val dlen dst : 0 <= i ->
  let '(dst', _, dlen') := prep_loop src u padding i buf_val dlen dst in
  4 * Z.of_nat (length dst') + dlen' = 4 * Z.of_nat (length dst) + dlen /\ dlen' = dlen - 4 * ((i + Z.of_nat (length src)) / 4 - i / 4).
Proof.
  revert i buf_val dlen dst. induction src as [|b src IH]; intros i buf_val dlen dst Hi; cbn [prep_loop length].
  - rewrite Z.add_0_r. split; lia.
  - cbv zeta. pose proof (Z.div_mod i 4). pose proof (Z.mod_pos_bound i 4). pose proof (Z.div_mod (i + 1) 4). pose proof (Z.mod_pos_bound (i + 1) 4).
    replace (i + Z.of_nat (S (length src))) with (i + 1 + Z.of_nat (length src)) by lia.
    destruct (Z.eqb_spec (i mod 4) 3).
    + match goal with |- context [prep_loop src u padding (i + 1) ?v ?n ?d] => specialize (IH (i + 1) v n d ltac:(lia)); destruct (prep_loop src u padding (i + 1) v n d) as [[dst' bv] dlen'] end.
      rewrite length_app in IH. cbn [length] in IH. destruct IH. split; lia.
    + match goal with |- context [prep_loop src u padding (i + 1) ?v ?n ?d] => specialize (IH (i + 1) v n d ltac:(lia)); destruct (prep_loop src u padding (i + 1) v n d) as [[dst' bv] dlen'] end.
      destruct IH. split; lia.
Qed.

Lemma pad_loop_length n padding dlen dst : dlen mod 4 = 0 -> -4 <= dlen -> dlen + 4 <= 4 * Z.of_nat n -> 4 * Z.of_nat (length (pad_loop n padding dlen dst)) = 4 * Z.of_nat (length dst) + (dlen + 4).
Proof.
  revert dlen dst. induction n as [|n IH]; intros dlen dst Hm Hlo Hn; cbn [pad_loop]; [lia|]. pose proof (Z.div_mod dlen 4).
  destruct (Z.leb_spec 0 dlen); [|assert (dlen = -4) by lia; lia]. assert ((dlen - 4) mod 4 = 0) by (replace (dlen - 4) with (dlen + -1 * 4) by lia; by rewrite Z.mod_add).
  rewrite IH, length_app by lia. cbn [length]. lia.
Qed.

(** The buffer of a hash is filled exactly, whatever the length of the name: no
    word is written past its end. *)
Theorem prep_hashbuf_fills (src : list Z) (dlen : Z) (u : bool) : 0 < dlen -> dlen mod 4 = 0 -> 4 * Z.of_nat (length (ext2_prep_hashbuf src dlen u)) = dlen.
Proof.
  intros Hd Hm. unfold ext2_prep_hashbuf. cbv zeta. set (len := if dlen <? Z.of_nat (length src) then dlen else Z.of_nat (length src)).
  assert (0 <= len <= dlen /\ len <= Z.of_nat (length src)) as [Hl Hs] by (unfold len; destruct (Z.ltb_spec dlen (Z.of_nat (length src))); lia).
  set (pad := Z.lor _ _). pose proof (prep_loop_spec (take (Z.to_nat len) src) u pad 0 pad dlen [] ltac:(lia)) as HP.
  destruct (prep_loop (take (Z.to_nat len) src) u pad 0 pad dlen []) as [[dst bv] n]. rewrite length_take in HP. change (0 / 4) with 0 in HP. cbn [length] in HP.
  replace (0 + Z.of_nat (Z.to_nat len `min` length src)) with len in HP by lia. destruct HP as [HP Hn].
  pose proof (Z.div_mod len 4). pose proof (Z.mod_pos_bound len 4). pose proof (Z.div_mod dlen 4).
  assert (0 <= n /\ n mod 4 = 0) as [Hn0 Hn4]. { split; [lia|]. subst n. replace (dlen - 4 * (len / 4 - 0)) with (dlen + - (len / 4) * 4) by lia. by rewrite Z.mod_add. }
  pose proof (Z.div_mod n 4). assert ((n - 4 - 4) mod 4 = 0) as H84 by (replace (n - 4 - 4) with (n + -2 * 4) by lia; by rewrite Z.mod_add).
  destruct (Z.leb_spec 0 (n - 4)).
  - rewrite pad_loop_length by lia. rewrite length_app. cbn [length]. lia.
  - assert (n = 0) as -> by lia. change (Z.to_nat (0 - 4)) with 0%nat. cbn [pad_loop]. lia.
Qed.

(** A name of 1 to 255 bytes has a hash in each of the six versions; it is an even
    number of 32 bits, and never the one that marks the end of an index. *)
Theorem htree_hash_even (name : list Z) (seed : option hash4) (version : Z) :
  let '(r, major, _) := ext2_htree_hash name seed version in
  if (1 <=? Z.of_nat (length name)) && (Z.of_nat (length name) <=? 255) && (0 <=? version) && (version <=? 5)
  then r = EOK /\ 0 <= major < 2 ^ 32 /\ Z.even major = true /\ major <> 2 * EXT2_HTREE_EOF
  else r = ENOTSUP /\ major = 0.
Proof.
  unfold ext2_htree_hash. replace ((Z.of_nat (length name) <? 1) || (255 <? Z.of_nat (length name))) with (negb ((1 <=? Z.of_nat (length name)) && (Z.of_nat (length name) <=? 255))) by lia.
  destruct ((1 <=? Z.of_nat (length name)) && (Z.of_nat (length name) <=? 255)); cbn [negb andb]; [|done]. cbv zeta.
  set (hash := match seed with Some h => h | None => _ end).
  assert (forall m, let m' := Z.land m (u32 (Z.lnot 1)) in let m'' := if m' =? 2 * EXT2_HTREE_EOF then 2 * (EXT2_HTREE_EOF - 1) else m' in
    EOK = EOK /\ 0 <= m'' < 2 ^ 32 /\ Z.even m'' = true /\ m'' <> 2 * EXT2_HTREE_EOF) as HM.
  { intros m. cbv zeta. change (u32 (Z.lnot 1)) with (2 * EXT2_HTREE_EOF). destruct (Z.eqb_spec (Z.land m (2 * EXT2_HTREE_EOF)) (2 * EXT2_HTREE_EOF)) as [E|E]; [unfold EXT2_HTREE_EOF; split_and!; [done|lia|lia|done|lia]|].
    split; [done|]. split; [|split; [|done]].
    - replace (Z.land m (2 * EXT2_HTREE_EOF)) with (Z.land (Z.land m (2 * EXT2_HTREE_EOF)) (Z.ones 32)) by (rewrite <- Z.land_assoc; reflexivity).
      rewrite Z.land_ones by lia. apply Z.mod_pos_bound. lia.
    - rewrite <- Z.negb_odd, <- Z.bit0_odd, Z.land_spec. change (Z.testbit (2 * EXT2_HTREE_EOF) 0) with false. by rewrite andb_false_r. }
  cbv zeta in HM. unfold EXT2_HTREE_TEA_UNSIGNED, EXT2_HTREE_TEA, EXT2_HTREE_LEGACY_UNSIGNED, EXT2_HTREE_LEGACY, EXT2_HTREE_HALF_MD4_UNSIGNED, EXT2_HTREE_HALF_MD4.
  destruct (Z.eqb_spec version 5) as [->|]; [destruct (hash_tea true name hash); apply HM|]. destruct (Z.eqb_spec version 2) as [->|]; [destruct (hash_tea false name hash); apply HM|].
  destruct (Z.eqb_spec version 3) as [->|]; [apply HM|]. destruct (Z.eqb_spec version 0) as [->|]; [apply HM|].
  destruct (Z.eqb_spec version 4) as [->|]; [destruct (hash_md4 true name hash); apply HM|]. destruct (Z.eqb_spec version 1) as [->|]; [destruct (hash_md4 false name hash); apply HM|].
  destruct (Z.leb_spec 0 version), (Z.leb_spec version 5); cbn [andb]; try done. lia.
Qed.
