(* ===== verification/Ext4Extent.v ===== *)
(** * kernel/fs/ext4_extent.c: the nodes of an extent tree

    A node is a header and an array of extents or indexes of 12 bytes each, in a
    block or in the inode; pointers into it are addresses in its memory [m]. The
    functions that read nodes from the device, split them or free blocks are left
    out. *)
From S2P Require Import Prelude Mem CString Bitmap Crc32 Ext4Types Ext4Inode Ext4Dir.
Definition ext4_extent_tail : layout := [U32 "et_checksum"].
Definition ext4_extent : layout := [U32 "first_block"; U16 "block_count"; U16 "start_hi"; U32 "start_lo"].
Definition ext4_extent_index : layout := [U32 "first_block"; U32 "leaf_lo"; U16 "leaf_hi"; U16 "padding"].
Definition ext4_extent_header : layout := [U16 "magic"; U16 "entries_count"; U16 "max_entries_count"; U16 "depth"; U32 "generation"].

Definition EXT4_EXTENT_MAGIC : Z := 0xF30A.
Definition EXT_INIT_MAX_LEN : Z := Z.shiftl 1 15.
Definition EXT_UNWRITTEN_MAX_LEN : Z := EXT_INIT_MAX_LEN - 1.
Definition EXT4_EXT_UNWRITTEN_MASK : Z := Z.shiftl 1 15.
Definition EXT4_EXT_MAX_LEN_WRITTEN : Z := Z.shiftl 1 15.
Definition EXT4_EXT_NO_COMBINE : Z := 0x20.
(** sizeof, for all three. *)
Definition EXT_EXTENT_SIZE : Z := 12.

Abbreviation exf m p f := (rd ext4_extent m p f) (only parsing).
Abbreviation ixf m p f := (rd ext4_extent_index m p f) (only parsing).
Abbreviation ehf m p f := (rd ext4_extent_header m p f) (only parsing).

Definition EXT_FIRST_EXTENT (eh : Z) : Z := eh + EXT_EXTENT_SIZE.
Definition EXT_FIRST_INDEX (eh : Z) : Z := eh + EXT_EXTENT_SIZE.
Definition EXT_LAST_EXTENT (m : mem) (eh : Z) : Z := EXT_FIRST_EXTENT eh + EXT_EXTENT_SIZE * (ehf m eh "entries_count" - 1).
Definition EXT_LAST_INDEX (m : mem) (eh : Z) : Z := EXT_FIRST_INDEX eh + EXT_EXTENT_SIZE * (ehf m eh "entries_count" - 1).
Definition EXT_MAX_EXTENT (m : mem) (eh : Z) : Z := EXT_FIRST_EXTENT eh + EXT_EXTENT_SIZE * (ehf m eh "max_entries_count" - 1).
Definition EXT_MAX_INDEX (m : mem) (eh : Z) : Z := EXT_FIRST_INDEX eh + EXT_EXTENT_SIZE * (ehf m eh "max_entries_count" - 1).
Definition EXT4_EXTENT_TAIL_OFFSET (m : mem) (hdr : Z) : Z := EXT_EXTENT_SIZE + EXT_EXTENT_SIZE * ehf m hdr "max_entries_count".

(** ** Fields *)

Definition ext4_extent_get_first_block (m : mem) (extent : Z) : Z := exf m extent "first_block".
Definition ext4_extent_set_first_block (m : mem) (extent iblock : Z) : mem := wr ext4_extent m extent "first_block" iblock.
Definition EXT4_EXT_IS_UNWRITTEN (m : mem) (ex : Z) : bool := EXT4_EXT_MAX_LEN_WRITTEN <? exf m ex "block_count".
Definition ext4_extent_get_block_count (m : mem) (extent : Z) : Z :=
  if EXT4_EXT_IS_UNWRITTEN m extent then Z.land (exf m extent "block_count") (Z.lnot EXT4_EXT_UNWRITTEN_MASK) else exf m extent "block_count".
Definition EXT4_EXT_SET_UNWRITTEN (m : mem) (ex : Z) : mem := wr ext4_extent m ex "block_count" (Z.lor (exf m ex "block_count") EXT4_EXT_UNWRITTEN_MASK).
Definition ext4_extent_set_block_count (m : mem) (extent count : Z) (unwritten : bool) : mem :=
  let m := wr ext4_extent m extent "block_count" count in
  if unwritten then EXT4_EXT_SET_UNWRITTEN m extent else m.
Definition ext4_extent_get_start (m : mem) (extent : Z) : Z :=
  Z.lor (u64 (Z.shiftl (exf m extent "start_hi") 32)) (exf m extent "start_lo").
Definition ext4_extent_set_start (m : mem) (extent fblock : Z) : mem :=
  let m := wr ext4_extent m extent "start_lo" (Z.shiftr (u64 (Z.shiftl fblock 32)) 32) in
  wr ext4_extent m extent "start_hi" (wrap 16 (Z.shiftr fblock 32)).
Definition ext4_extent_index_get_first_block (m : mem) (index : Z) : Z := ixf m index "first_block".
Definition ext4_extent_index_set_first_block (m : mem) (index iblock : Z) : mem := wr ext4_extent_index m index "first_block" iblock.
Definition ext4_extent_index_get_leaf (m : mem) (index : Z) : Z :=
  Z.lor (u64 (Z.shiftl (ixf m index "leaf_hi") 32)) (ixf m index "leaf_lo").
Definition ext4_extent_index_set_leaf (m : mem) (index fblock : Z) : mem :=
  let m := wr ext4_extent_index m index "leaf_lo" (Z.shiftr (u64 (Z.shiftl fblock 32)) 32) in
  wr ext4_extent_index m index "leaf_hi" (wrap 16 (Z.shiftr fblock 32)).
Definition ext4_extent_header_get_magic (m : mem) (header : Z) : Z := ehf m header "magic".
Definition ext4_extent_header_set_magic (m : mem) (header magic : Z) : mem := wr ext4_extent_header m header "magic" magic.
Definition ext4_extent_header_get_entries_count (m : mem) (header : Z) : Z := ehf m header "entries_count".
Definition ext4_extent_header_set_entries_count (m : mem) (header count : Z) : mem := wr ext4_extent_header m header "entries_count" count.
Definition ext4_extent_header_get_max_entries_count (m : mem) (header : Z) : Z := ehf m header "max_entries_count".
Definition ext4_extent_header_set_max_entries_count (m : mem) (header max_count : Z) : mem := wr ext4_extent_header m header "max_entries_count" max_count.
Definition ext4_extent_header_get_depth (m : mem) (header : Z) : Z := ehf m header "depth".
Definition ext4_extent_header_set_depth (m : mem) (header depth : Z) : mem := wr ext4_extent_header m header "depth" depth.
Definition ext4_extent_header_get_generation (m : mem) (header : Z) : Z := ehf m header "generation".
Definition ext4_extent_header_set_generation (m : mem) (header generation : Z) : mem := wr ext4_extent_header m header "generation" generation.

(** The root of the tree, in the inode [i]; inode_ref->dirty is left out. *)
Definition ext4_extent_tree_init (i : mem) : mem :=
  let header := ext4_inode_get_extent_header 0 in
  let i := ext4_extent_header_set_depth i header 0 in
  let i := ext4_extent_header_set_entries_count i header 0 in
  let i := ext4_extent_header_set_generation i header 0 in
  let i := ext4_extent_header_set_magic i header EXT4_EXTENT_MAGIC in
  let max_entries := (15 * 4 - EXT_EXTENT_SIZE) / EXT_EXTENT_SIZE in
  ext4_extent_header_set_max_entries_count i header max_entries.

Definition find_ext4_extent_tail (m : mem) (eh : Z) : Z := eh + EXT4_EXTENT_TAIL_OFFSET m eh.
Definition ext_inode_hdr (inode : Z) : Z := inode + offsetof ext4_inode "blocks".
Definition ext_depth (i : mem) : Z := ehf i (ext_inode_hdr 0) "depth".

Definition ext4_ext_get_actual_len (m : mem) (ext : Z) : Z :=
  let n := exf m ext "block_count" in
  if n <=? EXT_INIT_MAX_LEN then n else wrap 16 (n - EXT_INIT_MAX_LEN).
Definition ext4_ext_mark_initialized (m : mem) (ext : Z) : mem := wr ext4_extent m ext "block_count" (ext4_ext_get_actual_len m ext).
Definition ext4_ext_mark_unwritten (m : mem) (ext : Z) : mem := wr ext4_extent m ext "block_count" (Z.lor (exf m ext "block_count") EXT_INIT_MAX_LEN).
Definition ext4_ext_is_unwritten (m : mem) (ext : Z) : bool := EXT_INIT_MAX_LEN <? exf m ext "block_count".

Definition ext4_ext_pblock (m : mem) (ex : Z) : Z :=
  Z.lor (exf m ex "start_lo") (u64 (Z.shiftl (u64 (Z.shiftl (exf m ex "start_hi") 31)) 1)).
Definition ext4_idx_pblock (m : mem) (ix : Z) : Z :=
  Z.lor (ixf m ix "leaf_lo") (u64 (Z.shiftl (u64 (Z.shiftl (ixf m ix "leaf_hi") 31)) 1)).
Definition ext4_ext_store_pblock (m : mem) (ex pb : Z) : mem :=
  let m := wr ext4_extent m ex "start_lo" (u32 (Z.land pb 0xffffffff)) in
  wr ext4_extent m ex "start_hi" (Z.land (wrap 16 (Z.shiftr pb 32)) 0xffff).
Definition ext4_idx_store_pblock (m : mem) (ix pb : Z) : mem :=
  let m := wr ext4_extent_index m ix "leaf_lo" (u32 (Z.land pb 0xffffffff)) in
  wr ext4_extent_index m ix "leaf_hi" (Z.land (wrap 16 (Z.shiftr pb 32)) 0xffff).

(** ** Room in a node *)

Definition ext4_ext_space_block (s : mem) : Z := wrap 16 (u32 (ext4_sb_get_block_size s - EXT_EXTENT_SIZE) / EXT_EXTENT_SIZE).
Definition ext4_ext_space_block_idx (s : mem) : Z := wrap 16 (u32 (ext4_sb_get_block_size s - EXT_EXTENT_SIZE) / EXT_EXTENT_SIZE).
Definition ext4_ext_space_root : Z := (60 - EXT_EXTENT_SIZE) / EXT_EXTENT_SIZE.
Definition ext4_ext_space_root_idx : Z := (60 - EXT_EXTENT_SIZE) / EXT_EXTENT_SIZE.
Definition ext4_ext_max_entries (s i : mem) (depth : Z) : Z :=
  if depth =? ext_depth i then if depth =? 0 then ext4_ext_space_root else ext4_ext_space_root_idx
  else if depth =? 0 then ext4_ext_space_block s else ext4_ext_space_block_idx s.
Definition ext4_ext_init_header (s i m : mem) (eh depth : Z) : mem :=
  let m := wr ext4_extent_header m eh "entries_count" 0 in
  let m := wr ext4_extent_header m eh "max_entries_count" (ext4_ext_max_entries s i depth) in
  let m := wr ext4_extent_header m eh "magic" EXT4_EXTENT_MAGIC in
  wr ext4_extent_header m eh "depth" depth.

(** ** Checks *)

Definition ext4_ext_block_csum (s : mem) (ref : ext4_inode_ref) (m : mem) (eh : Z) : Z :=
  if ext4_sb_feature_ro_com s EXT4_FRO_COM_METADATA_CSUM then
    let checksum := ext4_crc32c EXT4_CRC32_INIT s (offsetof ext4_sblock "uuid") 16 in
    let checksum := ext4_crc32c checksum (le32 (ref_index ref)) 0 4 in
    let checksum := ext4_crc32c checksum (le32 (ext4_inode_get_generation (ref_inode ref))) 0 4 in
    ext4_crc32c checksum m eh (EXT4_EXTENT_TAIL_OFFSET m eh)
  else 0.
Definition ext4_extent_block_csum_set (s : mem) (ref : ext4_inode_ref) (m : mem) (eh : Z) : mem :=
  wr ext4_extent_tail m (find_ext4_extent_tail m eh) "et_checksum" (ext4_ext_block_csum s ref m eh).

(** A wrong checksum is only reported. *)
Definition ext4_ext_check (m : mem) (eh depth : Z) : Z :=
  if negb (ehf m eh "magic" =? EXT4_EXTENT_MAGIC) then EIO
  else if negb (ehf m eh "depth" =? depth) then EIO
  else if ehf m eh "max_entries_count" =? 0 then EIO
  else if ehf m eh "max_entries_count" <? ehf m eh "entries_count" then EIO
  else EOK.

(** ** Searching a node *)

(** while (l <= r), over the addresses of the entries, which halves what is left:
    an entry count of 16 bits takes at most 17 turns. *)
Fixpoint binsearch_loop (n : nat) (first : Z -> Z) (l r block : Z) : Z :=
  match n with
  | O => l
  | S n =>
    if l <=? r then
      let m := l + EXT_EXTENT_SIZE * ((r - l) / EXT_EXTENT_SIZE / 2) in
      if block <? first m then binsearch_loop n first l (m - EXT_EXTENT_SIZE) block
      else binsearch_loop n first (m + EXT_EXTENT_SIZE) r block
    else l
  end.

(** path->index and path->extent. *)
Definition ext4_ext_binsearch_idx (m : mem) (eh block : Z) : Z :=
  binsearch_loop 17 (fun p => ixf m p "first_block") (EXT_FIRST_INDEX eh + EXT_EXTENT_SIZE) (EXT_LAST_INDEX m eh) block - EXT_EXTENT_SIZE.
Definition ext4_ext_binsearch (m : mem) (eh block : Z) : option Z :=
  if ehf m eh "entries_count" =? 0 then None
  else Some (binsearch_loop 17 (fun p => exf m p "first_block") (EXT_FIRST_EXTENT eh + EXT_EXTENT_SIZE) (EXT_LAST_EXTENT m eh) block - EXT_EXTENT_SIZE).

(** ** Adding to a leaf *)

(** [ex2] is in a memory [m2] of its own. *)
Definition ext4_ext_can_prepend (m : mem) (ex1 : Z) (m2 : mem) (ex2 : Z) : bool :=
  if negb (u64 (ext4_ext_pblock m2 ex2 + ext4_ext_get_actual_len m2 ex2) =? ext4_ext_pblock m ex1) then false
  else if (if ext4_ext_is_unwritten m ex1 then EXT_UNWRITTEN_MAX_LEN else EXT_INIT_MAX_LEN) <? ext4_ext_get_actual_len m ex1 + ext4_ext_get_actual_len m2 ex2 then false
  else u32 (exf m2 ex2 "first_block" + ext4_ext_get_actual_len m2 ex2) =? exf m ex1 "first_block".
Definition ext4_ext_can_append (m : mem) (ex1 : Z) (m2 : mem) (ex2 : Z) : bool :=
  if negb (u64 (ext4_ext_pblock m ex1 + ext4_ext_get_actual_len m ex1) =? ext4_ext_pblock m2 ex2) then false
  else if (if ext4_ext_is_unwritten m ex1 then EXT_UNWRITTEN_MAX_LEN else EXT_INIT_MAX_LEN) <? ext4_ext_get_actual_len m ex1 + ext4_ext_get_actual_len m2 ex2 then false
  else u32 (exf m ex1 "first_block" + ext4_ext_get_actual_len m ex1) =? exf m2 ex2 "first_block".

(** The two ways of growing an extent: its count, and for the second its first
    block too. *)
Definition grow_extent (m : mem) (ex : Z) (nx : mem) : mem :=
  let unwritten := ext4_ext_is_unwritten m ex in
  let m := wr ext4_extent m ex "block_count" (ext4_ext_get_actual_len m ex + ext4_ext_get_actual_len nx 0) in
  if unwritten then ext4_ext_mark_unwritten m ex else m.
Definition prepend_extent (m : mem) (ex : Z) (nx : mem) : mem :=
  let unwritten := ext4_ext_is_unwritten m ex in
  let m := wr ext4_extent m ex "first_block" (exf nx 0 "first_block") in
  let m := wr ext4_extent m ex "block_count" (ext4_ext_get_actual_len m ex + ext4_ext_get_actual_len nx 0) in
  if unwritten then ext4_ext_mark_unwritten m ex else m.

(** An entry of its own. [correct] and the result are those of
    ext4_ext_insert_leaf. *)
Definition insert_entry (m : mem) (eh : Z) (cur : option Z) (nx : mem) (correct : Z) : option (Z * bool * mem * option Z) :=
  if ehf m eh "entries_count" =? ehf m eh "max_entries_count" then Some (EIO, true, m, cur)
  else
    let ex :=
      match cur with
      | None => EXT_FIRST_EXTENT eh
      | Some e => if exf m e "first_block" <? exf nx 0 "first_block" then e + EXT_EXTENT_SIZE else e
      end in
    let cur := match cur with None => Some ex | Some e => Some e end in
    let len := (EXT_LAST_EXTENT m eh - ex) / EXT_EXTENT_SIZE + 1 in
    if len <? 0 then None
    else
      let m := if 0 <? len then memmove m (ex + EXT_EXTENT_SIZE) ex (len * EXT_EXTENT_SIZE) else m in
      if EXT_MAX_EXTENT m eh <? ex then Some (EIO, false, m, cur)
      else
        let m := wr ext4_extent m ex "first_block" (exf nx 0 "first_block") in
        let m := wr ext4_extent m ex "block_count" (exf nx 0 "block_count") in
        let m := ext4_ext_store_pblock m ex (ext4_ext_pblock nx 0) in
        let m := wr ext4_extent_header m eh "entries_count" (ehf m eh "entries_count" + 1) in
        if EXT_LAST_EXTENT m eh <? ex then Some (EIO, false, m, cur)
        else if negb (correct =? EOK) then Some (correct, false, m, cur)
        else Some (EOK, false, m, Some ex).

(** The result, *need_split, the leaf and path->extent. [correct] is the result
    of ext4_ext_correct_indexes, which changes nodes above the leaf only; a
    failed assertion is None. *)
Definition ext4_ext_insert_leaf (m : mem) (eh : Z) (cur : option Z) (nx : mem) (flags correct : Z) : option (Z * bool * mem * option Z) :=
  if match cur with Some e => exf nx 0 "first_block" =? exf m e "first_block" | None => false end then Some (EIO, false, m, cur)
  else
    let combine := negb (has_bits flags EXT4_EXT_NO_COMBINE) in
    match (if combine then cur else None) with
    | Some e =>
      if ext4_ext_can_append m e nx 0 then Some (EOK, false, grow_extent m e nx, cur)
      else if ext4_ext_can_prepend m e nx 0 then Some (EOK, false, prepend_extent m e nx, cur)
      else insert_entry m eh cur nx correct
    | None => insert_entry m eh cur nx correct
    end.

(** * Leaves of an extent tree as maps of blocks

    A leaf is a list of extents, in the order of the blocks of the file they
    hold; it maps blocks of the file to blocks of the device. The binary search
    finds the extent a block belongs to, and adding an extent adds its blocks to
    the map, except where the extent is joined to the one after it. *)

Record extent := Ext { e_first : Z; e_count : Z; e_start : Z }.

(** The count is that of the blocks, with the top bit for an extent that was
    allocated and not written. *)
Definition e_len (e : extent) : Z := if e_count e <=? 2 ^ 15 then e_count e else e_count e - 2 ^ 15.
Definition e_unwritten (e : extent) : bool := 2 ^ 15 <? e_count e.

Definition covers (e : extent) (b : Z) : bool := (e_first e <=? b) && (b <? e_first e + e_len e).

(** Where a block is, and whether it is unwritten. *)
Fixpoint emap (l : list extent) (b : Z) : option (Z * bool) :=
  match l with
  | [] => None
  | e :: l => if covers e b then Some (e_start e + (b - e_first e), e_unwritten e) else emap l b
  end.

Definition before (a b : extent) : Prop := e_first a + e_len a <= e_first b.

Fixpoint ordered (l : list extent) : Prop :=
  match l with
  | [] => True
  | e :: l => Forall (before e) l /\ ordered l
  end.

Definition extent_ok (e : extent) : Prop := 0 < e_len e /\ e_first e + e_len e < 2 ^ 32.

(** ** Memory *)

Definition ext_at (m : mem) (p : Z) : extent := Ext (rd ext4_extent m p "first_block") (rd ext4_extent m p "block_count") (ext4_ext_pblock m p).

Fixpoint exts (m : mem) (p : Z) (l : list extent) : Prop :=
  match l with
  | [] => True
  | e :: l => ext_at m p = e /\ exts m (p + 12) l
  end.

Definition leaf (m : mem) (eh : Z) (l : list extent) : Prop :=
  bytes_ok m /\ rd ext4_extent_header m eh "entries_count" = Z.of_nat (length l) /\ exts m (eh + 12) l.

Lemma load_moved m m' a d n : (forall x, a <= x < a + Z.of_nat n -> m' (x + d) = m x) -> load m' (a + d) n = load m a n.
Proof.
  revert a. induction n as [|n IH]; intros a H; cbn [load]; [done|]. rewrite H by lia. replace (a + d + 1) with (a + 1 + d) by lia. rewrite IH; [done|]. intros x Hx. apply H. lia.
Qed.

Lemma ext_at_shift m m' p d : (forall x, p <= x < p + 12 -> m' (x + d) = m x) -> ext_at m' (p + d) = ext_at m p.
Proof.
  intros H. unfold ext_at, ext4_ext_pblock, rd. assert (forall f, offsetof ext4_extent f + Z.of_nat (widthof ext4_extent f) <= 12 ->
    load m' (p + d + offsetof ext4_extent f) (widthof ext4_extent f) = load m (p + offsetof ext4_extent f) (widthof ext4_extent f)) as HL.
  { intros f Hf. replace (p + d + offsetof ext4_extent f) with (p + offsetof ext4_extent f + d) by lia. apply load_moved. intros x Hx. apply H. pose proof (offsetof_pos ext4_extent f). lia. }
  rewrite !HL by (vm_compute; discriminate). done.
Qed.

Lemma exts_shift m m' p d l : (forall x, p <= x < p + 12 * Z.of_nat (length l) -> m' (x + d) = m x) -> exts m p l -> exts m' (p + d) l.
Proof.
  revert p. induction l as [|e l IH]; intros p H; cbn [exts length]; [done|]. intros [He Hl]. split.
  - rewrite (ext_at_shift m m') by (intros x Hx; apply H; cbn [length]; lia). done.
  - replace (p + d + 12) with (p + 12 + d) by lia. apply IH; [|done]. intros x Hx. apply H. cbn [length]. lia.
Qed.

Lemma exts_ext m m' p l : same_range m m' p (12 * Z.of_nat (length l)) -> exts m p l -> exts m' p l.
Proof. intros H He. rewrite <- (Z.add_0_r p). eapply exts_shift; [|exact He]. intros x Hx. rewrite Z.add_0_r. symmetry. by apply H. Qed.

Lemma exts_app m p l1 l2 : exts m p (l1 ++ l2) <-> exts m p l1 /\ exts m (p + 12 * Z.of_nat (length l1)) l2.
Proof.
  revert p. induction l1 as [|e l1 IH]; intros p; cbn [app exts length]; [change (Z.of_nat 0) with 0; rewrite Z.mul_0_r, Z.add_0_r; tauto|].
  rewrite IH. replace (p + 12 + 12 * Z.of_nat (length l1)) with (p + 12 * Z.of_nat (S (length l1))) by lia. tauto.
Qed.

(** The code moves the upper half in two steps. *)
Lemma shl_31_1 hi : 0 <= hi < 2 ^ 16 -> u64 (Z.shiftl (u64 (Z.shiftl hi 31)) 1) = Z.shiftl hi 32.
Proof. intros H. rewrite !Z.shiftl_mul_pow2 by lia. rewrite (wrap_small 64 (hi * 2 ^ 31)) by lia. rewrite wrap_small by lia. lia. Qed.

(** The two halves of a block number. *)
Lemma pblock_value m p : bytes_ok m -> ext4_ext_pblock m p = rd ext4_extent m p "start_hi" * 2 ^ 32 + rd ext4_extent m p "start_lo" /\ 0 <= ext4_ext_pblock m p < 2 ^ 48.
Proof.
  intros Hm. pose proof (rd_range ext4_extent m p "start_hi" Hm) as Hh. pose proof (rd_range ext4_extent m p "start_lo" Hm) as Hl.
  change (256 ^ Z.of_nat (widthof ext4_extent "start_hi")) with (2 ^ 16) in Hh. change (256 ^ Z.of_nat (widthof ext4_extent "start_lo")) with (2 ^ 32) in Hl.
  unfold ext4_ext_pblock. set (hi := rd ext4_extent m p "start_hi") in *. set (lo := rd ext4_extent m p "start_lo") in *.
  rewrite shl_31_1, lor_halves by lia. split; [done|]. lia.
Qed.

Lemma pblock_store m p pb : 0 <= pb < 2 ^ 48 -> ext4_ext_pblock (ext4_ext_store_pblock m p pb) p = pb.
Proof.
  intros Hp. unfold ext4_ext_pblock, ext4_ext_store_pblock. cbv zeta. fields. change (256 ^ 4) with (2 ^ 32). change (256 ^ 2) with (2 ^ 16).
  change 0xffffffff with (Z.ones 32). change 0xffff with (Z.ones 16). rewrite !Z.land_ones by lia. 
  assert (u32 (pb mod 2 ^ 32) mod 2 ^ 32 = pb mod 2 ^ 32) as -> by (unfold wrap; by rewrite !Z.mod_mod by lia).
  assert ((wrap 16 (Z.shiftr pb 32) mod 2 ^ 16) mod 2 ^ 16 = Z.shiftr pb 32 mod 2 ^ 16) as -> by (unfold wrap; by rewrite !Z.mod_mod by lia).
  rewrite shl_31_1 by (apply Z.mod_pos_bound; lia).
  apply (join_halves pb 32 16); lia.
Qed.

(** ** The search *)

Lemma binsearch_spec n first A i j block : (forall k k', i <= k <= k' -> k' <= j -> first (A + 12 * k) <= first (A + 12 * k')) -> i <= j + 1 -> j - i + 1 < 2 ^ Z.of_nat n ->
  exists r, binsearch_loop n first (A + 12 * i) (A + 12 * j) block = A + 12 * r /\ i <= r <= j + 1 /\
    (forall k, i <= k < r -> first (A + 12 * k) <= block) /\ (forall k, r <= k <= j -> block < first (A + 12 * k)).
Proof.
  revert i j. induction n as [|n IH]; intros i j Hm Hij Hn.
  - change (2 ^ Z.of_nat 0) with 1 in Hn. exists i. split_and!; [done|lia|lia|intros; lia|intros; lia].
  - rewrite Nat2Z.inj_succ, Z.pow_succ_r in Hn by lia. cbn [binsearch_loop]. unfold EXT_EXTENT_SIZE. destruct (Z.leb_spec (A + 12 * i) (A + 12 * j)).
    2:{ exists i. split_and!; [done|lia|lia|intros; lia|intros; lia]. }
    replace (A + 12 * j - (A + 12 * i)) with ((j - i) * 12) by lia. rewrite Z.div_mul by lia. cbv zeta.
    pose proof (Z.div_mod (j - i) 2). pose proof (Z.mod_pos_bound (j - i) 2). set (h := (j - i) / 2) in *. replace (A + 12 * i + 12 * h) with (A + 12 * (i + h)) by lia.
    destruct (Z.ltb_spec block (first (A + 12 * (i + h)))) as [Hlt|Hge].
    + replace (A + 12 * (i + h) - 12) with (A + 12 * (i + h - 1)) by lia. destruct (IH i (i + h - 1)) as (r & Hr & Hir & Hlo & Hhi); [intros; apply Hm; lia|lia|lia|].
      exists r. split_and!; [done|lia|lia|done|]. intros k Hk. destruct (Z.le_gt_cases k (i + h - 1)); [apply Hhi; lia|]. pose proof (Hm (i + h) k ltac:(lia) ltac:(lia)). lia.
    + replace (A + 12 * (i + h) + 12) with (A + 12 * (i + h + 1)) by lia. destruct (IH (i + h + 1) j) as (r & Hr & Hir & Hlo & Hhi); [intros; apply Hm; lia|lia|lia|].
      exists r. split_and!; [done|lia|lia| |done]. intros k Hk. destruct (Z.le_gt_cases (i + h + 1) k); [apply Hlo; lia|]. pose proof (Hm k (i + h) ltac:(lia) ltac:(lia)). lia.
Qed.

Lemma exts_lookup m p l k e : exts m p l -> l !! k = Some e -> ext_at m (p + 12 * Z.of_nat k) = e.
Proof.
  revert p k. induction l as [|x l IH]; intros p k; cbn [exts]; [done|]. intros [Hx Hl] Hk. destruct k as [|k].
  - injection Hk as <-. by rewrite Z.mul_0_r, Z.add_0_r.
  - rewrite <- (IH (p + 12) k Hl Hk). f_equal. lia.
Qed.

Lemma ordered_lookup l i j a b : ordered l -> (i < j)%nat -> l !! i = Some a -> l !! j = Some b -> before a b.
Proof.
  revert i j. induction l as [|e l IH]; intros i j; cbn [ordered]; [done|]. intros [Hf Ho] Hij Ha Hb. destruct j as [|j]; [lia|]. cbn in Hb. destruct i as [|i].
  - injection Ha as <-. rewrite Forall_forall in Hf. apply Hf. by eapply list_elem_of_lookup_2.
  - eapply IH; [done| |exact Ha|exact Hb]. lia.
Qed.

(** The search of a leaf that is in order: the last extent that begins at the
    block or before it, or the first one. *)
Lemma ext_binsearch_spec m eh l block : leaf m eh l -> ordered l -> Forall extent_ok l -> Z.of_nat (length l) < 2 ^ 16 -> l <> [] ->
  exists k e, ext4_ext_binsearch m eh block = Some (eh + 12 + 12 * Z.of_nat k) /\ l !! k = Some e /\ (k = 0%nat \/ e_first e <= block) /\
    forall j e', (k < j)%nat -> l !! j = Some e' -> block < e_first e'.
Proof.
  intros (Hm & Hc & Hl) Ho Hok Hlen Hne. unfold ext4_ext_binsearch, EXT_LAST_EXTENT, EXT_FIRST_EXTENT, EXT_EXTENT_SIZE. rewrite Hc.
  assert (0 < length l)%nat as Hpos by (destruct l; [done|cbn [length]; lia]). rewrite (proj2 (Z.eqb_neq _ 0)) by lia.
  set (A := eh + 12). set (f := fun p => rd ext4_extent m p "first_block").
  assert (forall k e, l !! k = Some e -> f (A + 12 * Z.of_nat k) = e_first e) as Hf.
  { intros k e Hk. pose proof (exts_lookup _ _ _ _ _ Hl Hk) as HE. fold A in HE. by rewrite <- HE. }
  destruct (binsearch_spec 17 f A 1 (Z.of_nat (length l) - 1) block) as (r & Hr & Hir & Hlo & Hhi).
  - intros k k' Hk Hk'. destruct (Z.eq_dec k k') as [->|]; [lia|].
    destruct (lookup_lt_is_Some_2 l (Z.to_nat k) ltac:(lia)) as [a Ha]. destruct (lookup_lt_is_Some_2 l (Z.to_nat k') ltac:(lia)) as [b Hb].
    pose proof (Hf _ _ Ha) as Ea. pose proof (Hf _ _ Hb) as Eb. rewrite Z2Nat.id in Ea, Eb by lia. rewrite Ea, Eb.
    pose proof (ordered_lookup l (Z.to_nat k) (Z.to_nat k') a b Ho ltac:(lia) Ha Hb) as Hab. rewrite Forall_forall in Hok. destruct (Hok a ltac:(by eapply list_elem_of_lookup_2)). unfold before in Hab. lia.
  - lia.
  - change (2 ^ Z.of_nat 17) with (2 * 2 ^ 16). lia.
  - change (A + 12 * 1) with (A + 12) in Hr. rewrite Hr. destruct (lookup_lt_is_Some_2 l (Z.to_nat (r - 1)) ltac:(lia)) as [e He]. exists (Z.to_nat (r - 1)), e. split_and!; [f_equal; lia|done| |].
    + destruct (Z.eq_dec r 1); [left; lia|right]. rewrite <- (Hf _ _ He), Z2Nat.id by lia. apply Hlo. lia.
    + intros j e' Hj Hj'. rewrite <- (Hf _ _ Hj'). apply Hhi. apply lookup_lt_Some in Hj'. lia.
Qed.

(** ** An entry of its own *)

Section Insert.
Context (m : mem) (eh : Z) (l : list extent) (nx : mem).
Context (Hleaf : leaf m eh l) (Hnx : bytes_ok nx).
Local Abbreviation new := (ext_at nx 0).
Local Abbreviation maxn := (rd ext4_extent_header m eh "max_entries_count").
Context (Hmax : Z.of_nat (length l) < maxn).

(** The entries from the [q]-th on move up by one. *)
Definition shifted (q : nat) : mem :=
  let len := Z.of_nat (length l) - Z.of_nat q in
  if 0 <? len then memmove m (eh + 12 + 12 * Z.of_nat q + 12) (eh + 12 + 12 * Z.of_nat q) (len * 12) else m.

Lemma shifted_low q x : x < eh + 12 + 12 * Z.of_nat q + 12 -> shifted q x = m x.
Proof using Hleaf.
  intros Hx. destruct Hleaf as [Hm _]. unfold shifted. cbv zeta. destruct (Z.ltb_spec 0 (Z.of_nat (length l) - Z.of_nat q)); [|done].
  rewrite memmove_spec by (done || lia). rewrite (proj2 (Z.leb_gt _ x)) by lia. done.
Qed.

Lemma shifted_high q x : (q <= length l)%nat -> eh + 12 + 12 * Z.of_nat q <= x < eh + 12 + 12 * Z.of_nat (length l) -> shifted q (x + 12) = m x.
Proof using Hleaf.
  intros Hq Hx. destruct Hleaf as [Hm _]. unfold shifted. cbv zeta. destruct (Z.ltb_spec 0 (Z.of_nat (length l) - Z.of_nat q)); [|lia].
  rewrite memmove_spec by (done || lia). rewrite (proj2 (Z.leb_le _ _)), (proj2 (Z.ltb_lt _ _)) by lia. cbn [andb]. f_equal. lia.
Qed.

Lemma shifted_ok q : bytes_ok (shifted q).
Proof using Hleaf.
  destruct Hleaf as [Hm _]. intros x. unfold shifted. cbv zeta. destruct (Z.ltb_spec 0 (Z.of_nat (length l) - Z.of_nat q)); [|apply Hm]. rewrite memmove_spec by (done || lia). case_match; apply Hm.
Qed.

(** The leaf after the insertion at the [q]-th place. *)
Definition inserted_mem (q : nat) : mem :=
  let ex := eh + 12 + 12 * Z.of_nat q in
  let m := wr ext4_extent (shifted q) ex "first_block" (e_first new) in
  let m := wr ext4_extent m ex "block_count" (e_count new) in
  let m := ext4_ext_store_pblock m ex (e_start new) in
  wr ext4_extent_header m eh "entries_count" (rd ext4_extent_header m eh "entries_count" + 1).

Lemma entry_written (m1 : mem) ex : ext_at (ext4_ext_store_pblock (wr ext4_extent (wr ext4_extent m1 ex "first_block" (e_first new)) ex "block_count" (e_count new)) ex (e_start new)) ex = new.
Proof using Hnx.
  pose proof (rd_range ext4_extent nx 0 "first_block" Hnx) as Hf. pose proof (rd_range ext4_extent nx 0 "block_count" Hnx) as Hc. destruct (pblock_value nx 0 Hnx) as [_ Hp].
  unfold ext_at at 1. rewrite pblock_store by done. unfold ext4_ext_store_pblock. cbv zeta. fields. cbn [ext_at e_first e_count e_start].
  change (256 ^ Z.of_nat (widthof ext4_extent "first_block")) with (256 ^ 4) in Hf. change (256 ^ Z.of_nat (widthof ext4_extent "block_count")) with (256 ^ 2) in Hc.
  by rewrite !Z.mod_small by done.
Qed.

Lemma inserted_leaf q : (q <= length l)%nat -> leaf (inserted_mem q) eh (take q l ++ new :: drop q l) /\ rd ext4_extent_header (inserted_mem q) eh "max_entries_count" = maxn.
Proof using Hleaf Hnx Hmax.
  intros Hq. pose proof (shifted_ok q) as Hso. destruct Hleaf as (Hm & Hcnt & Hl). pose proof (rd_range ext4_extent_header m eh "max_entries_count" Hm) as Hmr.
  change (256 ^ Z.of_nat (widthof ext4_extent_header "max_entries_count")) with (2 ^ 16) in Hmr. unfold inserted_mem. cbv zeta. set (ex := eh + 12 + 12 * Z.of_nat q).
  set (m3 := ext4_ext_store_pblock _ ex (e_start new)).
  assert (forall x, x < ex \/ ex + 12 <= x -> m3 x = shifted q x) as H3.
  { intros x Hx. unfold m3, ext4_ext_store_pblock. cbv zeta. unfold wr. repeat (etrans; [apply store_out; offs; lia|]). done. }
  assert (forall f, offsetof ext4_extent_header f + Z.of_nat (widthof ext4_extent_header f) <= 12 -> rd ext4_extent_header m3 eh f = rd ext4_extent_header m eh f) as HH.
  { intros f Hf. apply rd_ext. intros x Hx. pose proof (offsetof_pos ext4_extent_header f). rewrite H3 by (unfold ex; lia). apply shifted_low. lia. }
  rewrite (HH "entries_count") by (vm_compute; discriminate). rewrite Hcnt.
  set (m4 := wr ext4_extent_header m3 eh "entries_count" (Z.of_nat (length l) + 1)).
  assert (forall x, eh + 12 <= x -> m4 x = m3 x) as H4 by (intros x Hx; apply store_out; offs; lia).
  assert (bytes_ok m3) as Hm3 by (unfold m3, ext4_ext_store_pblock; cbv zeta; by repeat apply wr_ok).
  assert (length (take q l) = q) as Htl by (rewrite length_take; lia).
  split; [split_and!|].
  - by apply wr_ok.
  - unfold m4. rewrite rd_wr, length_app. cbn [length]. rewrite length_take, length_drop. change (256 ^ Z.of_nat (widthof ext4_extent_header "entries_count")) with (2 ^ 16). rewrite Z.mod_small by lia. lia.
  - rewrite <- (take_drop q l) in Hl. apply exts_app in Hl. rewrite Htl in Hl. destruct Hl as [Hl1 Hl2]. apply exts_app. rewrite Htl. split.
    + eapply exts_ext; [|exact Hl1]. rewrite Htl. intros x Hx. rewrite H4 by lia. rewrite H3 by (unfold ex; lia). symmetry. apply shifted_low. lia.
    + fold ex in Hl2 |- *. split.
      * etrans; [|apply (entry_written (shifted q) ex)]. fold m3. rewrite <- (Z.add_0_r ex) at 1. apply ext_at_shift. intros x Hx. rewrite Z.add_0_r. apply H4. unfold ex in Hx. lia.
      * eapply exts_shift; [|exact Hl2]. rewrite length_drop. intros x Hx. rewrite H4, H3 by (unfold ex in *; lia). apply shifted_high; [done|]. unfold ex in Hx. lia.
  - unfold m4. rewrite rd_wr_ne by reflexivity. apply HH. vm_compute. discriminate.
Qed.

(** The code, when there is room. *)
Lemma insert_entry_run cur q : (q <= length l)%nat ->
  match cur with None => EXT_FIRST_EXTENT eh | Some e => if rd ext4_extent m e "first_block" <? rd ext4_extent nx 0 "first_block" then e + EXT_EXTENT_SIZE else e end = eh + 12 + 12 * Z.of_nat q ->
  insert_entry m eh cur nx EOK = Some (EOK, false, inserted_mem q, Some (eh + 12 + 12 * Z.of_nat q)).
Proof using Hleaf Hnx Hmax.
  intros Hq Hex. destruct (inserted_leaf q Hq) as [(_ & Hcnt' & _) _]. pose proof Hleaf as (Hm & Hcnt & _). unfold insert_entry. rewrite Hcnt. rewrite (proj2 (Z.eqb_neq _ _)) by lia. cbv zeta. rewrite Hex.
  assert ((EXT_LAST_EXTENT m eh - (eh + 12 + 12 * Z.of_nat q)) / EXT_EXTENT_SIZE + 1 = Z.of_nat (length l) - Z.of_nat q) as ->.
  { unfold EXT_LAST_EXTENT, EXT_FIRST_EXTENT, EXT_EXTENT_SIZE. rewrite Hcnt. replace (_ - _) with ((Z.of_nat (length l) - 1 - Z.of_nat q) * 12) by lia. rewrite Z.div_mul by lia. lia. }
  rewrite (proj2 (Z.ltb_ge _ 0)) by lia.
  change (if 0 <? Z.of_nat (length l) - Z.of_nat q then memmove m (eh + 12 + 12 * Z.of_nat q + EXT_EXTENT_SIZE) (eh + 12 + 12 * Z.of_nat q) ((Z.of_nat (length l) - Z.of_nat q) * EXT_EXTENT_SIZE) else m)
    with (shifted q).
  assert (rd ext4_extent_header (shifted q) eh "max_entries_count" = maxn) as HM.
  { apply rd_ext. intros x Hx. apply shifted_low. revert Hx. offs. lia. }
  unfold EXT_MAX_EXTENT. rewrite HM. unfold EXT_FIRST_EXTENT, EXT_EXTENT_SIZE. rewrite (proj2 (Z.ltb_ge _ _)) by lia.
  match goal with |- context [EXT_LAST_EXTENT ?x eh] => change x with (inserted_mem q) end.
  unfold EXT_LAST_EXTENT, EXT_FIRST_EXTENT, EXT_EXTENT_SIZE. rewrite Hcnt', length_app. cbn [length]. rewrite length_take, length_drop.
  rewrite (proj2 (Z.ltb_ge _ _)) by lia. reflexivity.
Qed.
End Insert.

(** ** Growing an extent *)

Section Grow.
Context (m nx : mem) (Hm : bytes_ok m) (Hnx : bytes_ok nx).
Local Abbreviation new := (ext_at nx 0).

Lemma actual_len (m' : mem) p : bytes_ok m' -> ext4_ext_get_actual_len m' p = e_len (ext_at m' p) /\ 0 <= e_len (ext_at m' p) <= 2 ^ 15.
Proof using.
  intros H. pose proof (rd_range ext4_extent m' p "block_count" H) as Hr. change (256 ^ Z.of_nat (widthof ext4_extent "block_count")) with (2 ^ 16) in Hr.
  unfold ext4_ext_get_actual_len, e_len, ext_at. cbn [e_count]. cbv zeta. change EXT_INIT_MAX_LEN with (2 ^ 15).
  destruct (Z.leb_spec (rd ext4_extent m' p "block_count") (2 ^ 15)); [lia|]. rewrite wrap_small by lia. lia.
Qed.

(** The limit on the length of an extent that grows. *)
Definition e_limit (e : extent) : Z := if e_unwritten e then 2 ^ 15 - 1 else 2 ^ 15.

(** Writing a count of blocks, and the mark of an unwritten extent. *)
Lemma count_written (m1 : mem) p n (u : bool) : 0 < n <= (if u then 2 ^ 15 - 1 else 2 ^ 15) ->
  let m2 := wr ext4_extent m1 p "block_count" n in let m3 := if u then ext4_ext_mark_unwritten m2 p else m2 in
  e_first (ext_at m3 p) = e_first (ext_at m1 p) /\ e_start (ext_at m3 p) = e_start (ext_at m1 p) /\ e_len (ext_at m3 p) = n /\ e_unwritten (ext_at m3 p) = u.
Proof using.
  intros Hn. cbv zeta. unfold ext4_ext_mark_unwritten. change EXT_INIT_MAX_LEN with (2 ^ 15). unfold e_len, e_unwritten, ext_at, ext4_ext_pblock. cbn [e_first e_count e_start].
  destruct u; fields; change (256 ^ 2) with (2 ^ 16); rewrite (Z.mod_small n) by lia; [|split_and!; [done|done|destruct (Z.leb_spec n (2 ^ 15)); lia|lia]].
  replace (Z.lor n (2 ^ 15)) with (n + 2 ^ 15).
  - rewrite Z.mod_small by lia. rewrite (proj2 (Z.leb_gt _ _)), (proj2 (Z.ltb_lt _ _)) by lia. split_and!; [done|done|lia|done].
  - rewrite Z.lor_comm. rewrite <- (Z.mul_1_l (2 ^ 15)) at 2. rewrite lor_low_high by lia. lia.
Qed.

Lemma grown_ext p : 0 < e_len (ext_at m p) + e_len new <= e_limit (ext_at m p) ->
  let e := ext_at m p in let e' := ext_at (grow_extent m p nx) p in
  e_first e' = e_first e /\ e_start e' = e_start e /\ e_len e' = e_len e + e_len new /\ e_unwritten e' = e_unwritten e.
Proof using Hm Hnx.
  intros Hn e e'. unfold e', grow_extent. rewrite (proj1 (actual_len m p Hm)), (proj1 (actual_len nx 0 Hnx)). exact (count_written m p _ _ Hn).
Qed.

Lemma prepended_ext p : 0 < e_len (ext_at m p) + e_len new <= e_limit (ext_at m p) ->
  let e := ext_at m p in let e' := ext_at (prepend_extent m p nx) p in
  e_first e' = e_first new /\ e_start e' = e_start e /\ e_len e' = e_len e + e_len new /\ e_unwritten e' = e_unwritten e.
Proof using Hm Hnx.
  intros Hn e e'. unfold e', prepend_extent. cbv zeta. set (m1 := wr ext4_extent m p "first_block" (rd ext4_extent nx 0 "first_block")).
  assert (bytes_ok m1) as Hm1 by by apply wr_ok. pose proof (rd_range ext4_extent nx 0 "first_block" Hnx) as Hf.
  assert (ext_at m1 p = Ext (e_first new) (e_count e) (e_start e)) as E1.
  { unfold ext_at, ext4_ext_pblock, m1, e. cbn [e_first e_count e_start]. fields. change (256 ^ Z.of_nat (widthof ext4_extent "first_block")) with (256 ^ 4) in Hf. by rewrite Z.mod_small by done. }
  rewrite (proj1 (actual_len m1 p Hm1)), (proj1 (actual_len nx 0 Hnx)).
  replace (e_len (ext_at m1 p)) with (e_len e) by (by rewrite E1).
  destruct (count_written m1 p (e_len e + e_len new) (e_unwritten e) Hn) as (H1 & H2 & H3 & H4). rewrite E1 in H1, H2. cbn [e_first e_start] in H1, H2. by split_and!.
Qed.

(** Both change the entry only. *)
Lemma grow_ok p : bytes_ok (grow_extent m p nx) /\ bytes_ok (prepend_extent m p nx).
Proof using Hm. unfold grow_extent, prepend_extent, ext4_ext_mark_unwritten. cbv zeta. split; case_match; by repeat apply wr_ok. Qed.

Lemma grow_out p x : x < p \/ p + 12 <= x -> grow_extent m p nx x = m x /\ prepend_extent m p nx x = m x.
Proof using.
  intros Hx. unfold grow_extent, prepend_extent, ext4_ext_mark_unwritten, wr. cbv zeta. split; case_match; repeat (etrans; [apply store_out; offs; lia|]); done.
Qed.
End Grow.

(** An entry replaced. *)
Lemma leaf_update m m' eh l1 e l2 e' : leaf m eh (l1 ++ e :: l2) -> bytes_ok m' -> let p := eh + 12 + 12 * Z.of_nat (length l1) in
  (forall x, x < p \/ p + 12 <= x -> m' x = m x) -> ext_at m' p = e' -> leaf m' eh (l1 ++ e' :: l2).
Proof.
  intros (Hm & Hc & Hl) Hm' p Hout He'. rewrite length_app in Hc. apply exts_app in Hl. destruct Hl as [Hl1 [_ Hl2]]. split_and!; [done| |].
  - rewrite length_app. cbn [length] in *. rewrite <- Hc. apply rd_ext. intros x Hx. apply Hout. revert Hx. offs. unfold p. lia.
  - apply exts_app. split; [|split; [exact He'|]].
    + eapply exts_ext; [|exact Hl1]. intros x Hx. symmetry. apply Hout. unfold p. lia.
    + eapply exts_ext; [|exact Hl2]. intros x Hx. symmetry. apply Hout. unfold p. lia.
Qed.

(** ** Maps *)

Lemma emap_app l1 l2 b : emap (l1 ++ l2) b = match emap l1 b with Some x => Some x | None => emap l2 b end.
Proof. induction l1 as [|e l1 IH]; cbn [app emap]; [done|]. by destruct (covers e b). Qed.

Definition fresh (l : list extent) (new : extent) : Prop := forall b, covers new b = true -> emap l b = None.

Lemma emap_insert l1 new l2 b : fresh (l1 ++ l2) new -> emap (l1 ++ new :: l2) b = if covers new b then Some (e_start new + (b - e_first new), e_unwritten new) else emap (l1 ++ l2) b.
Proof.
  intros Hf. specialize (Hf b). rewrite !emap_app in *. cbn [emap]. destruct (covers new b); [|by destruct (emap l1 b)]. specialize (Hf eq_refl). by destruct (emap l1 b).
Qed.

Lemma emap_append l1 e l2 e' new b : fresh (l1 ++ e :: l2) new -> 0 <= e_len e -> 0 <= e_len new ->
  e_first e' = e_first e -> e_start e' = e_start e -> e_len e' = e_len e + e_len new -> e_unwritten e' = e_unwritten e ->
  e_first new = e_first e + e_len e -> e_start new = e_start e + e_len e ->
  emap (l1 ++ e' :: l2) b = if covers new b then Some (e_start new + (b - e_first new), e_unwritten e) else emap (l1 ++ e :: l2) b.
Proof.
  intros Hf H0 H0' H1 H2 H3 H4 H5 H6. specialize (Hf b). rewrite !emap_app in *. cbn [emap] in *.
  assert (covers e' b = covers e b || covers new b) as -> by (unfold covers; rewrite H1, H3, H5; lia).
  rewrite H1, H2, H4, H5, H6. destruct (covers new b) eqn:Hn.
  - specialize (Hf eq_refl). destruct (emap l1 b); [done|]. rewrite orb_true_r. do 2 f_equal. lia.
  - rewrite orb_false_r. by destruct (emap l1 b).
Qed.

Lemma emap_prepend l1 e l2 e' new b : fresh (l1 ++ e :: l2) new -> emap l1 b = None \/ covers e b = false -> 0 <= e_len e -> 0 <= e_len new ->
  e_first e' = e_first new -> e_start e' = e_start e -> e_len e' = e_len e + e_len new -> e_unwritten e' = e_unwritten e -> e_first e = e_first new + e_len new ->
  emap (l1 ++ e' :: l2) b = if covers new b || covers e b then Some (e_start e + (b - e_first new), e_unwritten e) else emap (l1 ++ e :: l2) b.
Proof.
  intros Hf Hd H0 H0' H1 H2 H3 H4 H5. specialize (Hf b). rewrite !emap_app in *. cbn [emap] in *.
  assert (covers e' b = covers new b || covers e b) as -> by (unfold covers; rewrite H1, H3, H5; lia).
  rewrite H1, H2, H4. destruct (covers new b) eqn:Hn; cbn [orb].
  - specialize (Hf eq_refl). by destruct (emap l1 b).
  - destruct (covers e b); [|done]. destruct Hd as [->|]; done.
Qed.

(** ** Order *)

Lemma emap_covers l e b : e ∈ l -> covers e b = true -> emap l b <> None.
Proof.
  intros He Hc. induction l as [|x l IH]; [by apply not_elem_of_nil in He|]. cbn [emap]. destruct (covers x b) eqn:Hx; [done|]. apply elem_of_cons in He. destruct He as [->|He]; [congruence|auto].
Qed.

(** An extent that shares no block with the leaf is before or after each of the
    leaf's. *)
Lemma fresh_sep l e new : fresh l new -> e ∈ l -> 0 < e_len e -> 0 < e_len new -> before e new \/ before new e.
Proof.
  intros Hf He H1 H2. unfold before. destruct (Z.le_gt_cases (e_first e + e_len e) (e_first new)); [by left|]. destruct (Z.le_gt_cases (e_first new + e_len new) (e_first e)); [by right|]. exfalso.
  apply (emap_covers l e (Z.max (e_first e) (e_first new)) He); [unfold covers; lia|]. apply Hf. unfold covers. lia.
Qed.

Lemma ordered_app l1 l2 : ordered (l1 ++ l2) <-> ordered l1 /\ ordered l2 /\ Forall (fun a => Forall (before a) l2) l1.
Proof.
  induction l1 as [|e l1 IH]; cbn [app ordered]; [split; [intros H; split_and!; [done|done|constructor]|tauto]|]. rewrite IH, Forall_app, Forall_cons. tauto.
Qed.

(** Replacing an extent by one with its end. *)
Lemma ordered_replace l1 e e' l2 : ordered (l1 ++ e :: l2) -> Forall (fun a => before a e') l1 -> Forall (before e') l2 -> ordered (l1 ++ e' :: l2).
Proof.
  intros (H1 & [_ H2] & H3)%ordered_app Ha Hb. apply ordered_app. split_and!; [done|by split|]. rewrite Forall_forall in H3, Ha |- *. intros a Hin. specialize (H3 a Hin). apply Forall_cons in H3. apply Forall_cons. split; [by apply Ha|by destruct H3].
Qed.

Lemma ordered_insert l1 new l2 : ordered (l1 ++ l2) -> Forall (fun a => before a new) l1 -> Forall (before new) l2 -> ordered (l1 ++ new :: l2).
Proof.
  intros (H1 & H2 & H3)%ordered_app Ha Hb. apply ordered_app. split_and!; [done|by split|]. rewrite Forall_forall in H3, Ha |- *. intros a Hin. apply Forall_cons. split; [by apply Ha|by apply H3].
Qed.

(** ** Adding an extent *)

Section Main.
Context (m : mem) (eh : Z) (l : list extent) (nx : mem).
Local Abbreviation new := (ext_at nx 0).
Local Abbreviation maxn := (rd ext4_extent_header m eh "max_entries_count").
Context (Hleaf : leaf m eh l) (Hord : ordered l) (Hok : Forall extent_ok l) (Hnx : bytes_ok nx) (Hnew : extent_ok new) (Hfresh : fresh l new) (Hmax : Z.of_nat (length l) <= maxn).

(** The extents of the leaf after an entry of its own, or after joining the new
    extent to the one before it, or to the one after it. *)
Definition added (l' : list extent) : Prop := ordered l' /\ forall b, emap l' b = if covers new b then Some (e_start new + (b - e_first new), e_unwritten new) else emap l b.
Definition appended (l' : list extent) : Prop := ordered l' /\ exists e, e ∈ l /\ e_first new = e_first e + e_len e /\
  forall b, emap l' b = if covers new b then Some (e_start new + (b - e_first new), e_unwritten e) else emap l b.
Definition prepended (l' : list extent) : Prop := ordered l' /\ exists e l2, l = e :: l2 /\ e_first e = e_first new + e_len new /\ e_start e = e_start new + e_len new /\
  forall b, emap l' b = if covers new b || covers e b then Some (e_start e + (b - e_first new), e_unwritten e) else emap l b.

Lemma len_ok e : e ∈ l -> extent_ok e.
Proof using Hok. intros He. rewrite Forall_forall in Hok. by apply Hok. Qed.

(** The place of an entry of its own. *)
Lemma added_at q : (q <= length l)%nat -> (forall j e, (j < q)%nat -> l !! j = Some e -> e_first e <= e_first new) ->
  (forall j e, (q <= j)%nat -> l !! j = Some e -> e_first new < e_first e) -> added (take q l ++ new :: drop q l).
Proof using Hord Hok Hnew Hfresh.
  intros Hq Hlo Hhi. split.
  - apply ordered_insert; [by rewrite take_drop| |]; apply Forall_forall; intros e He.
    + apply list_elem_of_lookup in He. destruct He as [j He]. apply lookup_take_Some in He. destruct He as [He Hj]. pose proof (list_elem_of_lookup_2 _ _ _ He) as Hin.
      destruct (fresh_sep l e new Hfresh Hin) as [|Hb]; [by destruct (len_ok e Hin)|by destruct Hnew|done|]. pose proof (Hlo j e Hj He). destruct Hnew. unfold before in Hb. lia.
    + apply list_elem_of_lookup in He. destruct He as [j He]. rewrite lookup_drop in He. pose proof (list_elem_of_lookup_2 _ _ _ He) as Hin. destruct (len_ok e Hin) as [Hl _].
      destruct (fresh_sep l e new Hfresh Hin Hl) as [Hb|]; [by destruct Hnew| |done]. pose proof (Hhi (q + j)%nat e ltac:(lia) He). unfold before in Hb. lia.
  - intros b. rewrite emap_insert; [by rewrite take_drop|]. by rewrite take_drop.
Qed.

Lemma insert_entry_cases cur q : (q <= length l)%nat ->
  match cur with None => EXT_FIRST_EXTENT eh | Some e => if rd ext4_extent m e "first_block" <? rd ext4_extent nx 0 "first_block" then e + EXT_EXTENT_SIZE else e end = eh + 12 + 12 * Z.of_nat q ->
  (forall j e, (j < q)%nat -> l !! j = Some e -> e_first e <= e_first new) -> (forall j e, (q <= j)%nat -> l !! j = Some e -> e_first new < e_first e) ->
  insert_entry m eh cur nx EOK = Some (EIO, true, m, cur) /\ Z.of_nat (length l) = maxn \/
  exists m' l' c, insert_entry m eh cur nx EOK = Some (EOK, false, m', c) /\ leaf m' eh l' /\ added l'.
Proof using Hleaf Hord Hok Hnx Hnew Hfresh Hmax.
  intros Hq Hex Hlo Hhi. pose proof Hleaf as (_ & Hc & _). destruct (Z.eq_dec (Z.of_nat (length l)) maxn) as [E|E].
  - left. split; [|done]. unfold insert_entry. by rewrite Hc, E, Z.eqb_refl.
  - right. assert (Z.of_nat (length l) < maxn) as Hlt by lia. exists (inserted_mem m eh l nx q), (take q l ++ new :: drop q l), (Some (eh + 12 + 12 * Z.of_nat q)). split_and!.
    + exact (insert_entry_run m eh l nx Hleaf Hnx Hlt cur q Hq Hex).
    + exact (proj1 (inserted_leaf m eh l nx Hleaf Hnx Hlt q Hq)).
    + by apply added_at.
Qed.

Section Joined.
Context (k : nat) (e : extent) (He : l !! k = Some e).
Local Abbreviation p := (eh + 12 + 12 * Z.of_nat k).

Lemma entry_at : ext_at m p = e.
Proof using Hleaf He. destruct Hleaf as (_ & _ & Hl). by apply (exts_lookup m (eh + 12) l k). Qed.

Lemma append_case : ext4_ext_can_append m p nx 0 = true -> exists l', leaf (grow_extent m p nx) eh l' /\ appended l'.
Proof using Hleaf Hord Hok Hnx Hnew Hfresh He.
  pose proof Hleaf as (Hm & _). pose proof entry_at as Ee. pose proof (list_elem_of_lookup_2 _ _ _ He) as Hin. destruct (len_ok e Hin) as [Hl He32]. destruct Hnew as [Hnl _].
  unfold ext4_ext_can_append. destruct (actual_len m p Hm) as [-> HlR]. destruct (actual_len nx 0 Hnx) as [-> HnR]. rewrite Ee in *.
  change (ext4_ext_pblock m p) with (e_start (ext_at m p)). change (rd ext4_extent m p "first_block") with (e_first (ext_at m p)). change (ext4_ext_is_unwritten m p) with (e_unwritten (ext_at m p)).
  change (ext4_ext_pblock nx 0) with (e_start new). change (rd ext4_extent nx 0 "first_block") with (e_first new). change (if e_unwritten _ then _ else _) with (e_limit (ext_at m p)). rewrite Ee.
  assert (0 <= e_start e < 2 ^ 48) as Hs. { rewrite <- Ee. apply (pblock_value m p Hm). }
  assert (0 <= e_first e) as Hf0. { rewrite <- Ee. apply (rd_range ext4_extent m p "first_block" Hm). }
  rewrite (wrap_small 64), (wrap_small 32) by lia. destruct (Z.eqb_spec (e_start e + e_len e) (e_start new)) as [Hst|]; cbn [negb]; [|done].
  destruct (Z.ltb_spec (e_limit e) (e_len e + e_len new)); [done|]. intros Hfi%Z.eqb_eq.
  pose proof (grown_ext m nx Hm Hnx p) as HG. rewrite Ee in HG. destruct (HG ltac:(lia)) as (G1 & G2 & G3 & G4). set (e' := ext_at (grow_extent m p nx) p) in *.
  pose proof (take_drop_middle l k e He) as Hmid. assert (length (take k l) = k) as Htk by (rewrite length_take; apply lookup_lt_Some in He; lia).
  exists (take k l ++ e' :: drop (S k) l). split; [|split].
  - apply (leaf_update m (grow_extent m p nx) eh (take k l) e (drop (S k) l) e'); [rewrite Hmid; exact Hleaf|exact (proj1 (grow_ok m nx Hm p))| |rewrite Htk; reflexivity]. rewrite Htk. intros x Hx. exact (proj1 (grow_out m nx p x Hx)).
  - pose proof Hord as Ho. rewrite <- Hmid in Ho. pose proof Ho as (_ & [Hnext _] & Hprev)%ordered_app. apply (ordered_replace _ e _ _ Ho).
    + eapply Forall_impl; [exact Hprev|]. intros a Ha. apply Forall_cons in Ha. destruct Ha as [Ha _]. unfold before in *. lia.
    + apply Forall_forall. intros a Ha. assert (a ∈ l) as Hal by (rewrite <- Hmid; apply elem_of_app; right; by apply elem_of_cons; right).
      rewrite Forall_forall in Hnext. specialize (Hnext a Ha). destruct (len_ok a Hal) as [Hal0 _]. unfold before in *. destruct (fresh_sep l a new Hfresh Hal Hal0 Hnl) as [Hb|Hb]; unfold before in Hb; lia.
  - exists e. split_and!; [exact Hin|lia|]. intros b. pose proof (emap_append (take k l) e (drop (S k) l) e' new b) as HA. rewrite Hmid in HA. exact (HA Hfresh (Z.lt_le_incl _ _ Hl) (Z.lt_le_incl _ _ Hnl) G1 G2 G3 G4 (eq_sym Hfi) (eq_sym Hst)).
Qed.

Lemma prepend_case : (k = 0%nat \/ e_first e <= e_first new) -> ext4_ext_can_prepend m p nx 0 = true -> exists l', leaf (prepend_extent m p nx) eh l' /\ prepended l'.
Proof using Hleaf Hord Hok Hnx Hnew Hfresh He.
  intros Hk. pose proof Hleaf as (Hm & _). pose proof entry_at as Ee. pose proof (list_elem_of_lookup_2 _ _ _ He) as Hin. destruct (len_ok e Hin) as [Hl He32]. destruct Hnew as [Hnl Hn32].
  unfold ext4_ext_can_prepend. destruct (actual_len m p Hm) as [-> HlR]. destruct (actual_len nx 0 Hnx) as [-> HnR]. rewrite Ee in *.
  change (ext4_ext_pblock m p) with (e_start (ext_at m p)). change (rd ext4_extent m p "first_block") with (e_first (ext_at m p)). change (ext4_ext_is_unwritten m p) with (e_unwritten (ext_at m p)).
  change (ext4_ext_pblock nx 0) with (e_start new). change (rd ext4_extent nx 0 "first_block") with (e_first new). change (if e_unwritten _ then _ else _) with (e_limit (ext_at m p)). rewrite Ee.
  assert (0 <= e_start new < 2 ^ 48) as Hs by apply (pblock_value nx 0 Hnx). assert (0 <= e_first new) as Hf0 by apply (rd_range ext4_extent nx 0 "first_block" Hnx).
  rewrite (wrap_small 64), (wrap_small 32) by lia. destruct (Z.eqb_spec (e_start new + e_len new) (e_start e)) as [Hst|]; cbn [negb]; [|done].
  destruct (Z.ltb_spec (e_limit e) (e_len e + e_len new)); [done|]. intros Hfi%Z.eqb_eq. destruct Hk as [->|Hk]; [|lia].
  pose proof (prepended_ext m nx Hm Hnx (eh + 12 + 12 * Z.of_nat 0)) as HG. rewrite Ee in HG. destruct (HG ltac:(lia)) as (G1 & G2 & G3 & G4). set (e' := ext_at (prepend_extent m (eh + 12 + 12 * Z.of_nat 0) nx) (eh + 12 + 12 * Z.of_nat 0)) in *.
  assert (exists l2, l = e :: l2) as [l2 El]. { clear - He. revert He. generalize l. intros [|e0 l2] [=]. subst. by exists l2. }
  pose proof Hleaf as Hleaf'. pose proof Hord as Hord'. pose proof Hfresh as Hfresh'. rewrite El in Hleaf', Hord', Hfresh'. exists (e' :: l2). split; [|split].
  - apply (leaf_update m (prepend_extent m (eh + 12 + 12 * Z.of_nat 0) nx) eh [] e l2 e' Hleaf'); [exact (proj2 (grow_ok m nx Hm (eh + 12 + 12 * Z.of_nat 0)))|intros x Hx; exact (proj2 (grow_out m nx (eh + 12 + 12 * Z.of_nat 0) x Hx))|reflexivity].
  - destruct Hord' as [Hnext Hrest]. split; [|exact Hrest]. eapply Forall_impl; [exact Hnext|]. intros a Ha. unfold before in *. lia.
  - exists e, l2. split_and!; [exact El|lia|lia|]. intros b. rewrite El. exact (emap_prepend [] e l2 e' new b Hfresh' (or_introl eq_refl) (Z.lt_le_incl _ _ Hl) (Z.lt_le_incl _ _ Hnl) G1 G2 G3 G4 (eq_sym Hfi)).
Qed.

(** Beside the extent the search found. *)
Lemma beside_case : (k = 0%nat \/ e_first e <= e_first new) -> e_first e <> e_first new -> (forall j e', (k < j)%nat -> l !! j = Some e' -> e_first new < e_first e') ->
  insert_entry m eh (Some p) nx EOK = Some (EIO, true, m, Some p) /\ Z.of_nat (length l) = maxn \/
  exists m' l' c, insert_entry m eh (Some p) nx EOK = Some (EOK, false, m', c) /\ leaf m' eh l' /\ added l'.
Proof using Hleaf Hord Hok Hnx Hnew Hfresh Hmax He.
  intros Hk Hne Hafter. pose proof (lookup_lt_Some _ _ _ He) as Hkl. pose proof entry_at as Ee.
  apply (insert_entry_cases (Some p) (if e_first e <? e_first new then S k else k)).
  - case_match; lia.
  - change (rd ext4_extent m p "first_block") with (e_first (ext_at m p)). change (rd ext4_extent nx 0 "first_block") with (e_first new). rewrite Ee. unfold EXT_EXTENT_SIZE. destruct (Z.ltb_spec (e_first e) (e_first new)); lia.
  - intros j a Hj Ha. destruct (Z.ltb_spec (e_first e) (e_first new)); [|lia]. destruct (decide (j = k)) as [->|]; [rewrite He in Ha; injection Ha as <-; lia|].
    pose proof (ordered_lookup l j k a e Hord ltac:(lia) Ha He) as Hb. destruct (len_ok a (list_elem_of_lookup_2 _ _ _ Ha)). unfold before in Hb. lia.
  - intros j a Hj Ha. destruct (Z.ltb_spec (e_first e) (e_first new)); [apply (Hafter j); [lia|done]|]. destruct (decide (j = k)) as [->|]; [rewrite He in Ha; injection Ha as <-; lia|apply (Hafter j); [lia|done]].
Qed.
End Joined.
End Main.

(** C21: Adding an extent to a leaf of the tree, at the place the binary search
    finds, when it shares no block with the leaf. With no place left the answer
    asks for the leaf to be split and nothing changes. An entry of its own adds
    its blocks to the map of the leaf, and changes no other; so does joining it to
    the extent before it, except that its blocks are then written or unwritten as
    that extent is. But joining it to the extent after it keeps the device block
    that extent started at: all the blocks of both are then found further on than
    they are, by as many blocks as the new extent has. The extents stay in order
    in all cases. *)
Theorem leaf_insert_maps (m : mem) (eh : Z) (l : list extent) (nx : mem) (flags : Z) :
  leaf m eh l -> ordered l -> Forall extent_ok l -> bytes_ok nx -> extent_ok (ext_at nx 0) -> fresh l (ext_at nx 0) ->
  Z.of_nat (length l) <= rd ext4_extent_header m eh "max_entries_count" ->
  match ext4_ext_insert_leaf m eh (ext4_ext_binsearch m eh (e_first (ext_at nx 0))) nx flags EOK with
  | Some (r, need_split, m', _) =>
    r = EIO /\ need_split = true /\ m' = m /\ Z.of_nat (length l) = rd ext4_extent_header m eh "max_entries_count" \/
    r = EOK /\ need_split = false /\ exists l', leaf m' eh l' /\ (added l nx l' \/ appended l nx l' \/ prepended l nx l')
  | None => False
  end.
Proof.
  intros Hleaf Hord Hok Hnx Hnew Hfresh Hmax. pose proof Hleaf as (Hm & Hc & _). pose proof (rd_range ext4_extent_header m eh "max_entries_count" Hm) as Hmr.
  change (256 ^ Z.of_nat (widthof ext4_extent_header "max_entries_count")) with (2 ^ 16) in Hmr.
  destruct (decide (l = [])) as [->|Hne].
  - unfold ext4_ext_binsearch. rewrite Hc. change (Z.of_nat (length []) =? 0) with true. cbv iota. unfold ext4_ext_insert_leaf.
    destruct (insert_entry_cases m eh [] nx Hleaf Hord Hok Hnx Hnew Hfresh Hmax None 0 ltac:(cbn [length]; lia)) as [[Hi HE]|(m' & l' & c & Hi & Hl' & Ha)]; [unfold EXT_FIRST_EXTENT, EXT_EXTENT_SIZE; lia|intros j e ? [=]|intros j e ? [=]| |];
      cbv zeta; (replace (if negb (has_bits flags EXT4_EXT_NO_COMBINE) then None else None) with (@None Z) by (by destruct (has_bits flags EXT4_EXT_NO_COMBINE))); cbv beta iota; rewrite Hi;
      [left; split_and!; [reflexivity|reflexivity|reflexivity|exact HE]|right; split_and!; [reflexivity|reflexivity|exists l'; split; [exact Hl'|left; exact Ha]]].
  - destruct (ext_binsearch_spec m eh l (e_first (ext_at nx 0)) Hleaf Hord Hok ltac:(lia) Hne) as (k & e & -> & He & Hk & Hafter). pose proof (list_elem_of_lookup_2 _ _ _ He) as Hin.
    pose proof (entry_at m eh l Hleaf k e He) as Ee. unfold ext4_ext_insert_leaf. change (rd ext4_extent m (eh + 12 + 12 * Z.of_nat k) "first_block") with (e_first (ext_at m (eh + 12 + 12 * Z.of_nat k))).
    rewrite Ee. change (rd ext4_extent nx 0 "first_block") with (e_first (ext_at nx 0)). rewrite Forall_forall in Hok. destruct (Hok e Hin) as [Hel _]. rewrite <- Forall_forall in Hok. destruct Hnew as [Hnl Hn32].
    assert (e_first e <> e_first (ext_at nx 0)) as Hd by (destruct (fresh_sep l e _ Hfresh Hin Hel Hnl) as [Hb|Hb]; unfold before in Hb; lia).
    rewrite (proj2 (Z.eqb_neq _ _)) by (intros E; by apply Hd). cbv zeta. pose proof (conj Hnl Hn32 : extent_ok (ext_at nx 0)) as Hnew.
    pose proof (beside_case m eh l nx Hleaf Hord Hok Hnx Hnew Hfresh Hmax k e He Hk Hd Hafter) as Hins.
    pose proof (append_case m eh l nx Hleaf Hord Hok Hnx Hnew Hfresh k e He) as Happ. pose proof (prepend_case m eh l nx Hleaf Hord Hok Hnx Hnew Hfresh k e He Hk) as Hpre.
    set (p := eh + 12 + 12 * Z.of_nat k) in *.
    assert (match insert_entry m eh (Some p) nx EOK with
      | Some (r, need_split, m', _) => r = EIO /\ need_split = true /\ m' = m /\ Z.of_nat (length l) = rd ext4_extent_header m eh "max_entries_count" \/
          r = EOK /\ need_split = false /\ exists l', leaf m' eh l' /\ (added l nx l' \/ appended l nx l' \/ prepended l nx l')
      | None => False end) as Hins'.
    { destruct Hins as [[-> HE]|(m' & l' & c & -> & Hl' & Ha)]; [by left|right; split_and!; [reflexivity|reflexivity|exists l'; split; [exact Hl'|by left]]]. }
    destruct (has_bits flags EXT4_EXT_NO_COMBINE); cbn [negb]; [exact Hins'|].
    destruct (ext4_ext_can_append m p nx 0); [|destruct (ext4_ext_can_prepend m p nx 0); [|exact Hins']].
    + destruct (Happ eq_refl) as (l' & Hl' & Ha). right. split_and!; [reflexivity|reflexivity|exists l'; split; [exact Hl'|right; by left]].
    + destruct (Hpre eq_refl) as (l' & Hl' & Ha). right. split_and!; [reflexivity|reflexivity|exists l'; split; [exact Hl'|right; by right]].
Qed.

(** A leaf with room for four extents that holds blocks 10 to 13 of a file at
    block 1000, and an extent with blocks 8 and 9 at block 998. *)
Definition demo_leaf : mem :=
  let m := wr ext4_extent_header (fun _ => 0) 0 "entries_count" 1 in
  let m := wr ext4_extent_header m 0 "max_entries_count" 4 in
  let m := wr ext4_extent m 12 "first_block" 10 in
  let m := wr ext4_extent m 12 "block_count" 4 in
  wr ext4_extent m 12 "start_lo" 1000.
Definition demo_extent : mem :=
  let m := wr ext4_extent (fun _ => 0) 0 "first_block" 8 in
  let m := wr ext4_extent m 0 "block_count" 2 in
  wr ext4_extent m 0 "start_lo" 998.

Lemma demo_leaf_ok : leaf demo_leaf 0 [Ext 10 4 1000] /\ bytes_ok demo_extent /\ ext_at demo_extent 0 = Ext 8 2 998 /\ rd ext4_extent_header demo_leaf 0 "max_entries_count" = 4.
Proof. split_and!; [split_and!; [|vm_compute; reflexivity|split; [vm_compute; reflexivity|exact I]]| |vm_compute; reflexivity|vm_compute; reflexivity]; unfold demo_leaf, demo_extent; cbv zeta; repeat apply wr_ok; intros a; lia. Qed.

Lemma demo_insert : ext4_ext_insert_leaf demo_leaf 0 (ext4_ext_binsearch demo_leaf 0 8) demo_extent 0 EOK = Some (EOK, false, prepend_extent demo_leaf 12 demo_extent, Some 12).
Proof.
  replace (ext4_ext_binsearch demo_leaf 0 8) with (Some 12) by (vm_compute; reflexivity). unfold ext4_ext_insert_leaf.
  replace (rd ext4_extent demo_extent 0 "first_block" =? rd ext4_extent demo_leaf 12 "first_block") with false by (vm_compute; reflexivity).
  replace (negb (has_bits 0 EXT4_EXT_NO_COMBINE)) with true by (vm_compute; reflexivity). cbv zeta iota.
  replace (ext4_ext_can_append demo_leaf 12 demo_extent 0) with false by (vm_compute; reflexivity).
  by replace (ext4_ext_can_prepend demo_leaf 12 demo_extent 0) with true by (vm_compute; reflexivity).
Qed.

Lemma demo_prepended : ext_at (prepend_extent demo_leaf 12 demo_extent) 12 = Ext 8 6 1000.
Proof. vm_compute. reflexivity. Qed.

(** The joined extent has block 8, and block 10, which was at 1000, is now at
    1002. *)
Lemma leaf_insert_maps_witness : exists l', leaf (prepend_extent demo_leaf 12 demo_extent) 0 l' /\ emap [Ext 10 4 1000] 10 = Some (1000, false) /\ emap [Ext 8 6 1000] 10 = Some (1002, false) /\
  ext_at (prepend_extent demo_leaf 12 demo_extent) 12 = Ext 8 6 1000.
Proof.
  destruct demo_leaf_ok as (Hl & Hb & He & Hmx). pose proof (leaf_insert_maps demo_leaf 0 [Ext 10 4 1000] demo_extent 0 Hl) as H. rewrite He, Hmx in H. cbn [e_first] in H. rewrite demo_insert in H.
  destruct H as [(H & _)|(_ & _ & l' & Hl' & _)].
  - split; [constructor|exact I].
  - constructor; [split; vm_compute; reflexivity|constructor].
  - exact Hb.
  - split; vm_compute; reflexivity.
  - intros b Hc. apply andb_true_iff in Hc. destruct Hc as [_ Hc%Z.ltb_lt]. change (b < 10) in Hc. cbn [emap]. unfold covers. cbn [e_first]. by rewrite (proj2 (Z.leb_gt _ _)).
  - cbn. lia.
  - discriminate H.
  - exists l'. split; [exact Hl'|]. split; [reflexivity|]. split; [reflexivity|exact demo_prepended].
Defined.
